(* ===== verification/_CoqProject ===== *)
-Q . S2P
Prelude.v
GoStrings.v
Regex.v
Objects.v
ProxyBuffers.v
Tokenizer.v
Directives.v
ValidationLib.v
ParsingHelpers.v
CommonValidation.v
VSUpstreamValidation.v
HostValidation.v
PolicyObjects.v
PolicyValues.v
PolicyValidation.v
PolicySpecValidation.v
Version2.v
ConfigParams.v
VSRouteValidation.v
Resources.v
ConfigState.v
IngressValidation.v
GlobalConfigurationValidation.v
TransportServerValidation.v
Minions.v
VSRoutes.v
Hosts.v
Changes.v
Problems.v
Configuration.v
References.v
HostRebuild.v
ListenerRebuild.v
Operations.v
Scenario.v
ConfigurationCorrect.v
Resync.v
ProblemsCorrect.v
ComponentProperties.v
ReferencesCorrect.v
ProxyBuffersCorrect.v
IngressValidationCorrect.v
TokenizerCorrect.v
DirectivesCorrect.v
VSValidationCorrect.v
PolicyValidationCorrect.v
PolicyContained.v
DeployedCorrect.v
AppProtect.v
AppProtectSignatures.v
AppProtectCorrect.v
AppProtectDos.v
AppProtectDosCorrect.v
NginxManager.v
RollbackManager.v
RollbackCorrect.v
SecretStore.v
SecretStoreCorrect.v
PolicyConfig.v
PolicyConfigAdd.v
PolicyConfigGenerate.v
PolicyConfigSpec.v
PolicyConfigCorrect.v
OIDCLocations.v
TieredLimits.v
PolicySecrets.v
PolicySecretsCorrect.v
PolicyPanicFree.v
SecretSync.v
VSUpstreams.v
VSLocations.v
VSRouting.v
VSPolicies.v
VSGenerate.v
VSPanicFree.v
VSMatches.v
VSOrigins.v
VSConsistent.v
TransportServerConfig.v
ConfigMaps.v
