(* ===== verification/Prelude.v ===== *)
(** * Verification of the NGINX Ingress Controller (wallarm/ingress-nextgen)

    The controller watches Ingresses, custom resources and secrets, decides which
    of them own which hosts and listeners, validates them, and writes and reloads
    NGINX configuration.  This library models the parts that carry these
    decisions and proves what makes them correct.  Its root is this file, which
    also holds the shared notation, lemmas and tactics.

    ** Parts of the program, and how they interact

    Informers hand objects to the controller (internal/k8s/controller.go), which
    calls k8s.Configuration.  The configuration validates an object, stores it,
    rebuilds the maps from hosts and listeners to resources, and returns changes
    and problems.  The controller applies the changes through the configurator
    (internal/configs), which renders templates and writes files through the
    NGINX manager (internal/nginx), with the rollback manager in front of it that
    tests files before they are used.  The secret store keeps secrets and writes
    those that are used to files.  App Protect and App Protect DoS objects have
    configurations of their own.  Values that end up in templates pass the
    validators of internal/validation and pkg/apis/configuration/validation.
    A VirtualServer or an Ingress may refer to policies: the controller resolves
    the references, reads the secrets the policies name, and the configurator
    translates them (internal/configs/policy.go) into the configuration of a
    server or of a location.  A change of a secret makes the controller generate
    every resource again that reads it, directly or through a policy.

    ** Files, and the code they model

    Objects (pkg/apis/configuration/v1/types.go, Kubernetes API types),
    GoStrings (package strings, internal/nsutils), Regex (package regexp, runes
    of unicode/utf8), ValidationLib (field errors; k8s.io/apimachinery as a
    parameter, see below).

    k8s.Configuration, internal/k8s/configuration.go:
    Resources (the Resource interface and its three implementations), ConfigState
    (the state, HasCorrectIngressClass), Minions (minionsByHost, minion paths),
    VSRoutes (the VirtualServerRoutes of a VirtualServer), Hosts
    (buildHostsAndResources, the listeners of TransportServers), Changes
    (detection, creation and squashing of changes), Problems, Configuration (the
    rebuilds and the operations), References (GetResources, searches,
    reference_checkers.go).  HostRebuild, ListenerRebuild and Operations prove the
    rebuilds correct and define the state machine of requests; Scenario holds
    concrete objects.

    Validators: IngressValidation (internal/k8s/validation.go),
    GlobalConfigurationValidation, CommonValidation, VSUpstreamValidation,
    VSRouteValidation and TransportServerValidation
    (pkg/apis/configuration/validation),
    ParsingHelpers (internal/configs/parsing_helpers.go, internal/validation
    headers.go and ssl.go), Directives (internal/validation/nginx.go),
    ProxyBuffers (internal/validation/data_types.go), HostValidation
    (internal/validation/validation.go).

    Policies: PolicyObjects (the custom resource), PolicyValues, PolicyValidation
    and PolicySpecValidation (pkg/apis/configuration/validation/policy.go and
    appprotect_common.go); PolicyConfig, PolicyConfigAdd and PolicyConfigGenerate
    (internal/configs/policy.go, common.go, validation_results.go, warnings.go);
    PolicySecrets and SecretSync (of internal/k8s/controller.go: the policies of
    an object, their secrets, the resources that a secret concerns, syncSecret).
    PolicyConfigSpec holds the lemmas their theorems share.

    Parameters and generated configuration: Version2 (the structs of
    internal/configs/version2/http.go), ConfigParams
    (internal/configs/config_params.go), ConfigMaps (configmaps.go:
    ParseConfigMap, ParseMGMTConfigMap); VSUpstreams, VSLocations, VSRouting,
    VSPolicies and VSGenerate (internal/configs/virtualserver.go:
    GenerateVirtualServerConfig and all it calls); TransportServerConfig
    (internal/configs/transportserver.go, createTransportServerEx of
    internal/k8s/transport_server.go, and the operations of the configurator on
    TransportServers and TLS Passthrough hosts).

    Tokenizer (internal/nginxconf/tokenizer.go), NginxManager and RollbackManager
    (internal/nginx), SecretStore (internal/k8s/secrets and the secret files of
    internal/configs/configurator.go), AppProtect (internal/k8s/appprotect),
    AppProtectDos (internal/k8s/appprotectdos, pkg/apis/dos).

    ** What the theorems show

    - ConfigurationCorrect, Resync, ProblemsCorrect: in every reachable
      configuration that has started a host belongs to a claimant that no other
      beats, independently of history and map order; no request panics; the changes
      of a request, of listeners and of hosts, are exact and keep a deployment in
      sync, of TransportServers only without TLS Passthrough; a resync is silent;
      rejected objects are reported.
    - DeployedCorrect: composed with the repository's validators, every VirtualServer
      the configuration deploys, with its VirtualServerRoutes, is well formed.
    - ComponentProperties, ReferencesCorrect: paths have one owner, the routes of a
      VirtualServer are consistent, listeners that are kept do not conflict,
      searches by reference are exact.
    - VSPanicFree: the configuration of a deployed VirtualServer is generated without
      a panic, whatever the secrets and policies, unless a subroute carries a
      routeSelector, which crashes the controller.
    - VSMatches: under the rules of NGINX for maps a request goes to the first match
      whose conditions all hold.
    - VSOrigins, VSConsistent: every location of a generated VirtualServer carries the
      policies that govern its route, or refuses its traffic; it passes requests to
      upstreams that are defined; named locations are declared exactly once.
    - TransportServerConfig: an accepted TransportServer is served by the pods of its
      services, with TLS only from a valid secret; the file of TLS Passthrough hosts
      leads every host to the socket of its own TransportServer, as long as no
      update moves one off the listener.
    - ConfigMaps: a key that is reported has no effect.
    - ProxyBuffersCorrect, IngressValidationCorrect, VSValidationCorrect: what the
      validators and the balancing promise of accepted values.
    - TokenizerCorrect, DirectivesCorrect: tokenizing a printed configuration is
      the identity; accepted values, quoted or not, stay inside their directive.
    - RollbackCorrect: validated writes are atomic, the isolation of bad files
      ends, and excludes exactly the bad ones when files are self-contained.
    - SecretStoreCorrect: the store refines a map of secrets, for secrets whose file names
      are apart.
    - AppProtectSignatures, AppProtectCorrect: verdicts of policies and signatures
      are a function of the stored objects, requests panic only on signature
      requirements of a wrong type, and changes list exactly what flips.
    - AppProtectDosCorrect: DoS protection is deployed exactly where it is served.
    - PolicyValidationCorrect, PolicyContained: ValidatePolicy accepts a policy
      exactly when it has one kind, allowed by the flags, that passes its
      validator; what accepted policies satisfy; which of their values stay inside
      their directive, and which do not.
    - PolicyConfigCorrect: a context refuses its traffic or carries out every policy
      reference: its part of the configuration is there, or a warning says that it
      is ignored for an earlier one of its kind, or a later CORS policy replaces it.
    - OIDCLocations, TieredLimits: the locations of different OpenID Connect policies do
      not collide over the contexts of a server; the zones of conditional rate limits
      are wired to their conditions.
    - PolicySecretsCorrect, PolicyPanicFree: the secrets that the controller
      collects are those that the generation of policies needs, which never
      panics.
    - SecretSync: after a change of a secret, every resource that reads it is
      among those that are generated again.

    ** Conventions

    A result [None] of type [option] is a run-time panic or a fatal exit; an error
    value is a string or a list of field errors, empty when there is none, or the
    left side of a sum.  Pointers to configuration resources are locations in a
    store (ConfigState), because the code shares and mutates them.  Iteration over
    a Go map goes through the class MapRange, any permutation of the bindings, so
    theorems hold for every order.  Strings are byte strings; runes are decoded
    where the code ranges over runes.  Machine integers are Z, with wrap-around
    written out where the code can overflow (ProxyBuffers) and with range checks
    where strconv has them.

    Code outside the repository is a parameter with named laws:
    ValidationLib with ValidationLaws (DNS labels and names, ports, header names),
    UnicodeTables (unicode.IsPrint), URLLib (net/url, net/netip), DosLib with
    DosLaws, LabelSelectors, LabelSets, SliceSort (sort.Slice: a
    sorted permutation),
    NumberLib (ParseFloat, ParseDuration), NginxAPI with Reliable and SelfContained
    (operating system, nginx -t), NginxMaps (the matching of values in map
    directives), StreamTemplates (the text templates of streams), UnstructuredAPI
    with UnstructuredLaws, CryptoAPI, UnicodeLower (unicode.ToLower), PolicyLib (functions of other
    packages that policies use), SecretFileManager with SecretFilesContract and
    SecretPathsContract.  Each has a concrete instance on which witnesses are evaluated.

    ** Fuel and bounds

    Every fuel is the length of what is consumed: trimLeftFuel, fieldsGo,
    bracesContents, starRuns, findAll, runesFuel, quoteFuel, maskFuel and validUTF8Fuel take
    the length of the string, fmtDigits the number of digits, binarySearchFuel the
    length of the list; the lemmas next to them show that more fuel changes
    nothing or that the result is the intended one.  isolateLoop has the iteration
    cap of the source, which is proved never to be reached.  The balancing
    theorems assume buffers below 2^54 bytes, below which the code's
    multiplications do not wrap.

    ** Not modelled

    Locks (each operation of a modelled component runs under one), log lines,
    metrics and telemetry; the informers, listers and work queue of client-go;
    calls to the Kubernetes API (status, events, leader election); the rendering
    of templates; the configuration of Ingresses and their annotations
    (internal/configs/ingress.go, annotations.go), which call the same generation
    of policies; GenerateNginxMainConfig, which copies the parameters; of the
    configurator, what is not about secrets, policies and TransportServers; of
    createVirtualServerEx and createIngressEx, endpoints, which are arguments of
    the generation; of syncSecret, the special secrets and the policy bundles;
    annotation validators; the error texts that list accepted values in map order;
    the processes of the agent and the App Protect plugins.  The task queue hands
    the modelled operations one request at a time; its retries are not modelled. *)
From stdpp Require Export base gmap sets list strings sorting pretty.
From Stdlib Require Export ZArith Lia.

(** ** Folds in the panic monad

    A Go run-time panic (nil dereference, index out of range) is [None].
    [foldM] is a [for ... range] loop whose body may panic. *)
Section FoldM.
Context {A B : Type}.

Fixpoint foldM (f : A → B → option A) (a : A) (l : list B) : option A :=
  match l with
  | [] => Some a
  | b :: l' => a' ← f a b; foldM f a' l'
  end.

Lemma foldM_cons f a b l : foldM f a (b :: l) = (a' ← f a b; foldM f a' l).
Proof. done. Qed.

Lemma foldM_app f a l1 l2 :
  foldM f a (l1 ++ l2) = (a' ← foldM f a l1; foldM f a' l2).
Proof.
  revert a; induction l1 as [|b l1 IH]; intros a; simpl; [done|].
  destruct (f a b); simpl; [apply IH|done].
Qed.

(** Total-correctness rule: an invariant indexed by the processed prefix. *)
Lemma foldM_prefix_ind (P : list B → A → Prop) f l a :
  P [] a →
  (∀ pre b post x, l = pre ++ b :: post → P pre x →
     ∃ x', f x b = Some x' ∧ P (pre ++ [b]) x') →
  ∃ a', foldM f a l = Some a' ∧ P l a'.
Proof.
  intros H0 Hstep.
  enough (∀ pre post x, l = pre ++ post → P pre x →
            ∃ a', foldM f x post = Some a' ∧ P l a') as Hall
    by (eapply (Hall []); eauto).
  intros pre post; revert pre.
  induction post as [|b post IH]; intros pre x Hl HP; simpl.
  - exists x. rewrite app_nil_r in Hl. by subst.
  - destruct (Hstep pre b post x Hl HP) as (x' & Hf & HP').
    rewrite Hf; simpl. eapply IH; [|exact HP'].
    by rewrite <- app_assoc.
Qed.

Lemma foldM_ind (P : A → Prop) f l a :
  P a →
  (∀ b x, b ∈ l → P x → ∃ x', f x b = Some x' ∧ P x') →
  ∃ a', foldM f a l = Some a' ∧ P a'.
Proof.
  intros H0 Hstep. apply (foldM_prefix_ind (λ _ x, P x)); [done|].
  intros pre b post x -> HP. apply Hstep; [set_solver|done].
Qed.

(** What every iteration preserves holds of the result. *)
Lemma foldM_preserves (P : A → Prop) (f : A → B → option A) l a a' :
  (∀ x y z, y ∈ l → P x → f x y = Some z → P z) → P a → foldM f a l = Some a' → P a'.
Proof.
  revert a. induction l as [|y l IH]; intros a Hf Ha Hl; simpl in Hl; [by simplify_eq|].
  destruct (f a y) as [z|] eqn:Hz; [|done]. simpl in Hl.
  eapply IH; [|eapply Hf; [|exact Ha|exact Hz]; set_solver|exact Hl].
  intros; eapply Hf; [|done..]; set_solver.
Qed.
End FoldM.

(** Same rule for total loops. *)
Lemma foldl_prefix_ind {A B} (P : list B → A → Prop) (f : A → B → A) l a :
  P [] a →
  (∀ pre b post x, l = pre ++ b :: post → P pre x → P (pre ++ [b]) (f x b)) →
  P l (foldl f a l).
Proof.
  intros H0 Hstep.
  enough (∀ pre post x, l = pre ++ post → P pre x → P l (foldl f x post)) as Hall
    by (eapply (Hall []); eauto).
  intros pre post; revert pre.
  induction post as [|b post IH]; intros pre x Hl HP; simpl.
  - rewrite app_nil_r in Hl. by subst.
  - eapply IH; [|by eapply Hstep]. by rewrite <- app_assoc.
Qed.

(** ** Go's [sort.Strings] on the keys of a map

    Go compares strings bytewise; [String.le] is that order. *)
Definition sortStrings (l : list string) : list string := merge_sort String.le l.

Definition sortedKeys {A} (m : gmap string A) : list string :=
  sortStrings (map_to_list m).*1.

Section SortedKeys.
Context {A : Type}.
Implicit Types m : gmap string A.

Lemma sortStrings_perm l : sortStrings l ≡ₚ l.
Proof. apply merge_sort_Permutation. Qed.

Lemma sortStrings_sorted l : Sorted String.le (sortStrings l).
Proof. apply Sorted_merge_sort. apply _. Qed.

(** Sorting forgets the order in which the keys were collected. *)
Lemma sortStrings_unique l l' : l ≡ₚ l' → sortStrings l = sortStrings l'.
Proof.
  intros Hp. apply (Sorted_unique String.le).
  - apply sortStrings_sorted.
  - apply sortStrings_sorted.
  - by rewrite !sortStrings_perm.
Qed.

Lemma elem_of_sortedKeys m k : k ∈ sortedKeys m ↔ is_Some (m !! k).
Proof.
  unfold sortedKeys. rewrite sortStrings_perm, list_elem_of_fmap. split.
  - intros ([k' x] & -> & Hx%elem_of_map_to_list). by exists x.
  - intros [x Hx]. exists (k, x). split; [done|]. by apply elem_of_map_to_list.
Qed.

Lemma NoDup_sortedKeys m : NoDup (sortedKeys m).
Proof.
  unfold sortedKeys. rewrite sortStrings_perm. apply NoDup_fst_map_to_list.
Qed.

Lemma sortedKeys_length m : length (sortedKeys m) = size m.
Proof.
  unfold sortedKeys. rewrite sortStrings_perm, length_fmap. apply length_map_to_list.
Qed.
End SortedKeys.

(** The sorted keys are determined by the domain. *)
Lemma sortedKeys_ext {A B} (m : gmap string A) (m' : gmap string B) :
  (∀ k, is_Some (m !! k) ↔ is_Some (m' !! k)) → sortedKeys m = sortedKeys m'.
Proof.
  intros Hd. apply (Sorted_unique String.le); [apply sortStrings_sorted..|].
  apply NoDup_Permutation; [apply NoDup_sortedKeys..|]. intros k.
  by rewrite !elem_of_sortedKeys.
Qed.

(** ** Go's iteration order over a map

    [for k, v := range m] visits every entry once in an order the language
    leaves open, and two loops over the same map may use different orders.  A
    [MapRange] is one choice of those orders: [range site m] is the order the
    loop occurrence named [site] uses.  Theorems quantify over the instance. *)
Class MapRange := {
  range : ∀ {K : Type} `{Countable K} {A : Type}, string → gmap K A → list (K * A);
  range_perm : ∀ {K : Type} `{Countable K} {A : Type} (site : string) (m : gmap K A),
    range site m ≡ₚ map_to_list m
}.

(** An executable instance. *)
Definition default_range : MapRange :=
  {| range := λ K _ _ A _ m, map_to_list m;
     range_perm := λ K _ _ A _ m, reflexivity _ |}.

Section Range.
Context `{MR : MapRange} {K : Type} `{Countable K} {A : Type}.
Implicit Types m : gmap K A.

Lemma elem_of_range site m k x : (k, x) ∈ range site m ↔ m !! k = Some x.
Proof. rewrite range_perm. apply elem_of_map_to_list. Qed.

Lemma NoDup_range_keys site m : NoDup (range site m).*1.
Proof. rewrite range_perm. apply NoDup_fst_map_to_list. Qed.

Lemma NoDup_range site m : NoDup (range site m).
Proof. rewrite range_perm. apply NoDup_map_to_list. Qed.
End Range.

(** ** Small list and option facts shared by the components *)
Lemma alter_lookup_Some {A} (f : A → A) (l : list A) i j x :
  alter f i l !! j = Some x ↔
  (∃ y, l !! j = Some y ∧ x = (if decide (i = j) then f y else y)).
Proof.
  destruct (decide (i = j)) as [->|Hne].
  - rewrite list_lookup_alter_eq. destruct (l !! j); simpl; naive_solver.
  - rewrite list_lookup_alter_ne by done. naive_solver.
Qed.

Lemma NoDup_fmap_inj_on {A B} (f : A → B) (l : list A) :
  (∀ x y, x ∈ l → y ∈ l → f x = f y → x = y) → NoDup l → NoDup (f <$> l).
Proof.
  induction l as [|a l IH]; intros Hinj Hnd; simpl; [constructor|].
  apply NoDup_cons in Hnd as [Ha Hnd].
  apply NoDup_cons; split.
  - intros (y & Hy & Hin)%list_elem_of_fmap.
    assert (a = y) as -> by (apply Hinj; set_solver). done.
  - apply IH; [|done]. intros; apply Hinj; set_solver.
Qed.

(** Hints of the development: [nic] closes the routine membership and
    store goals of the component files. *)
Create HintDb nic.
#[export] Hint Resolve NoDup_sortedKeys sortStrings_sorted NoDup_range NoDup_range_keys : nic.

(** Case analysis on the [match]es and [if]s of a definition that was unfolded. *)
Ltac case_match_all :=
  repeat (case_match; simplify_eq/=).

(** Destruct an option bind that is known to succeed. *)
Ltac bind_inv H :=
  repeat match type of H with
  | (_ ≫= _) = Some _ => apply bind_Some in H as (? & ? & H)
  end.

(** A loop that skips some of its elements is a loop over the others. *)
Lemma foldM_omap {A B C} (f : B → option C) (g : A → C → option A) (a : A) (l : list B) :
  foldM (λ x b, match f b with Some c => g x c | None => Some x end) a l = foldM g a (omap f l).
Proof.
  revert a. induction l as [|b l IH]; intros a; simpl; [done|].
  destruct (f b) as [c|]; simpl; [|apply IH]. destruct (g a c); simpl; [apply IH|done].
Qed.

Lemma foldM_ext {A B} (f g : A → B → option A) (a : A) (l : list B) :
  (∀ x b, b ∈ l → f x b = g x b) → foldM f a l = foldM g a l.
Proof.
  revert a. induction l as [|b l IH]; intros a Heq; simpl; [done|].
  rewrite Heq by set_solver. destruct (g a b); simpl; [|done].
  apply IH. intros; apply Heq; set_solver.
Qed.

Lemma omap_ext_in {A B} (f g : A → option B) (l : list A) :
  (∀ x, x ∈ l → f x = g x) → omap f l = omap g l.
Proof.
  induction l as [|a l IH]; intros Heq; [done|]. csimpl.
  rewrite Heq by set_solver. rewrite IH; [done|]. intros; apply Heq; set_solver.
Qed.

(** A loop whose body never panics. *)
Lemma foldM_total {A B} (f : A → B → option A) (g : A → B → A) (a : A) (l : list B) :
  (∀ x b, b ∈ l → f x b = Some (g x b)) → foldM f a l = Some (foldl g a l).
Proof.
  revert a. induction l as [|b l IH]; intros a Hf; [done|]. rewrite foldM_cons, Hf by set_solver.
  apply IH. intros; apply Hf; set_solver.
Qed.

(** A loop that writes, for some of its elements, the entry of the element's own key. *)
Section InsertLoop.
Context {E A : Type} (key : E → string) (val : E → option A).

Definition insertEntry (m : gmap string A) (e : E) : gmap string A :=
  match val e with Some a => <[key e := a]> m | None => m end.

Lemma foldl_insertEntry_out m l k :
  (∀ e, e ∈ l → key e = k → val e = None) → foldl insertEntry m l !! k = m !! k.
Proof.
  revert m. induction l as [|e l IH]; intros m Hout; [done|]. simpl.
  rewrite IH by (intros; apply Hout; set_solver). unfold insertEntry.
  destruct (val e) eqn:Hv; [|done]. rewrite lookup_insert_ne; [done|].
  intros Heq. rewrite Hout in Hv by set_solver. done.
Qed.

Lemma foldl_insertEntry_in m l e :
  (∀ e', e' ∈ l → key e' = key e → e' = e) → e ∈ l →
  foldl insertEntry m l !! key e = match val e with Some a => Some a | None => m !! key e end.
Proof.
  intros Hinj Hin. destruct (val e) as [a|] eqn:Hv.
  - revert m. induction l as [|e0 l IH] using rev_ind; intros m; [set_solver|].
    rewrite foldl_app. simpl. unfold insertEntry at 1.
    destruct (decide (key e0 = key e)) as [Hk|Hk].
    + apply Hinj in Hk; [|set_solver]. subst e0. by rewrite Hv, lookup_insert_eq.
    + assert (e ∈ l) as Hl by set_solver.
      assert (foldl insertEntry m l !! key e = Some a) as IH'
        by (apply IH; [intros; apply Hinj; set_solver|done]).
      destruct (val e0); [|done]. by rewrite lookup_insert_ne.
  - apply foldl_insertEntry_out. intros e' Hin' Hk. by rewrite (Hinj e').
Qed.

Lemma foldl_insertEntry_Some m l k a :
  foldl insertEntry m l !! k = Some a →
  m !! k = Some a ∨ ∃ e, e ∈ l ∧ key e = k ∧ val e = Some a.
Proof.
  revert m. induction l as [|e l IH]; intros m Hk; [by left|]. simpl in Hk.
  apply IH in Hk as [Hk|(e' & ? & ?)]; [|right; set_solver].
  unfold insertEntry in Hk. destruct (val e) eqn:Hv; [|by left].
  apply lookup_insert_Some in Hk as [[? <-]|[? Hk]]; [right; set_solver|by left].
Qed.
End InsertLoop.

(** Filters of lists *)
Section Filters.
Context {A : Type} (P Q : A → Prop) `{!∀ x, Decision (P x)} `{!∀ x, Decision (Q x)}.

Lemma filter_id_in (l : list A) : (∀ x, x ∈ l → P x) → filter P l = l.
Proof.
  induction l as [|a l IH]; intros Hall; [done|]. rewrite filter_cons_True by (apply Hall; set_solver).
  f_equal. apply IH. intros; apply Hall; set_solver.
Qed.

Lemma filter_nil_in (l : list A) : (∀ x, x ∈ l → ¬ P x) → filter P l = [].
Proof.
  induction l as [|a l IH]; intros Hall; [done|]. rewrite filter_cons_False by (apply Hall; set_solver).
  apply IH. intros; apply Hall; set_solver.
Qed.

Lemma filter_ext_in (l : list A) : (∀ x, x ∈ l → P x ↔ Q x) → filter P l = filter Q l.
Proof.
  induction l as [|a l IH]; intros Hall; [done|]. rewrite !filter_cons.
  rewrite IH by (intros; apply Hall; set_solver).
  rewrite (decide_ext (P a) (Q a)) by (apply Hall; set_solver). done.
Qed.

Lemma filter_filter_in (l : list A) :
  (∀ x, x ∈ l → Q x → P x) → filter Q (filter P l) = filter Q l.
Proof.
  induction l as [|a l IH]; intros Hall; [done|]. rewrite !filter_cons.
  rewrite <- IH by (intros ???; apply Hall; set_solver).
  destruct (decide (P a)) as [Hp|Hp]; rewrite ?filter_cons; [done|].
  rewrite decide_False; [done|]. intros Hq. apply Hp, Hall; [set_solver|done].
Qed.
End Filters.
