(* ===== verification/GoStrings.v ===== *)
(** Strings as the Go code uses them: byte strings, the functions of the
    [strings] package the modelled code calls, and the resource-reference
    helpers of internal/nsutils and internal/configs/virtualserver.go. *)
From S2P Require Import Prelude.

(** ** The [strings] package *)

Definition byte_at (n : nat) : Ascii.ascii := Ascii.ascii_of_nat n.

Definition ceqb (c : Ascii.ascii) (n : nat) : bool := Nat.eqb (Ascii.nat_of_ascii c) n.

(** [strings.HasPrefix] *)
Definition HasPrefix (s p : string) : bool := String.prefix p s.

(** [strings.Contains(s, "c")] for a one-byte needle *)
Fixpoint containsByte (c : Ascii.ascii) (s : string) : bool :=
  match s with
  | EmptyString => false
  | String d s' => bool_decide (c = d) || containsByte c s'
  end.

(** [strings.Split(s, sep)] for a one-byte separator: never empty, and
    [Split "" sep = [""]]. *)
Fixpoint Split (sep : Ascii.ascii) (s : string) : list string :=
  match s with
  | EmptyString => [""]
  | String c s' =>
      if bool_decide (c = sep) then "" :: Split sep s'
      else match Split sep s' with
           | [] => [String c ""]
           | w :: ws => String c w :: ws
           end
  end.

(** [strings.Join(l, sep)] *)
Fixpoint Join (sep : string) (l : list string) : string :=
  match l with
  | [] => ""
  | [w] => w
  | w :: ws => w +:+ sep +:+ Join sep ws
  end.

(** [s[n:]] on a byte string *)
Fixpoint dropBytes (n : nat) (s : string) : string :=
  match n, s with
  | S n', String _ s' => dropBytes n' s'
  | _, _ => s
  end.

(** Length in bytes of the white-space rune ([unicode.IsSpace]) the string
    starts with, 0 if it starts with none: the six ASCII spaces and the UTF-8
    encodings of U+0085, U+00A0, U+1680, U+2000..U+200A, U+2028, U+2029,
    U+202F, U+205F and U+3000. *)
Definition spaceRune (s : string) : nat :=
  match s with
  | String a s1 =>
      if existsb (ceqb a) [9; 10; 11; 12; 13; 32] then 1
      else match s1 with
      | String b s2 =>
          if ceqb a 194 && (ceqb b 133 || ceqb b 160) then 2
          else match s2 with
          | String c _ =>
              if (ceqb a 225 && ceqb b 154 && ceqb c 128)
                 || (ceqb a 226 && ceqb b 128
                     && ((Nat.leb 128 (Ascii.nat_of_ascii c) && Nat.leb (Ascii.nat_of_ascii c) 138)
                         || existsb (ceqb c) [168; 169; 175]))
                 || (ceqb a 226 && ceqb b 129 && ceqb c 159)
                 || (ceqb a 227 && ceqb b 128 && ceqb c 128)
              then 3 else 0
          | EmptyString => 0
          end
      | EmptyString => 0
      end
  | EmptyString => 0
  end.

(** [strings.TrimLeftFunc(s, unicode.IsSpace)]; [length s] rounds are enough
    because every round but the last removes at least one byte. *)
Fixpoint trimLeftFuel (fuel : nat) (s : string) : string :=
  match fuel with
  | 0 => s
  | S fuel' => match spaceRune s with
               | 0 => s
               | n => trimLeftFuel fuel' (dropBytes n s)
               end
  end.
Definition TrimLeftSpace (s : string) : string := trimLeftFuel (String.length s) s.

Definition revBytes (s : string) : string :=
  String.string_of_list_ascii (rev (String.list_ascii_of_string s)).

(** Length of the white-space rune a reversed string starts with. *)
Definition spaceRuneRev (s : string) : nat :=
  match s with
  | String a (String b (String c _)) =>
      if Nat.eqb (spaceRune (String c (String b (String a "")))) 3 then 3
      else if Nat.eqb (spaceRune (String b (String a ""))) 2 then 2
      else spaceRune (String a "")
  | String a (String b _) =>
      if Nat.eqb (spaceRune (String b (String a ""))) 2 then 2 else spaceRune (String a "")
  | String a _ => spaceRune (String a "")
  | EmptyString => 0
  end.

Fixpoint trimRevFuel (fuel : nat) (s : string) : string :=
  match fuel with
  | 0 => s
  | S fuel' => match spaceRuneRev s with
               | 0 => s
               | n => trimRevFuel fuel' (dropBytes n s)
               end
  end.

(** [strings.TrimSpace] *)
Definition TrimSpace (s : string) : string :=
  let t := TrimLeftSpace s in
  revBytes (trimRevFuel (String.length t) (revBytes t)).

(** [strings.HasSuffix] *)
Definition HasSuffix (s suffix : string) : bool := HasPrefix (revBytes s) (revBytes suffix).

(** [strings.TrimSuffix] *)
Definition TrimSuffix (s p : string) : string :=
  if HasSuffix s p then String.substring 0 (String.length s - String.length p) s else s.

(** ** Resource references *)

Definition slash : Ascii.ascii := byte_at 47.
Definition comma : Ascii.ascii := byte_at 44.

(** nsutils.HasNamespace *)
Definition HasNamespace (s : string) : bool := containsByte slash s.

(** nsutils.FormatResourceReference *)
Definition FormatResourceReference (namespace name : string) : string :=
  namespace +:+ "/" +:+ name.

(** configs.ParseResourceReference *)
Definition ParseResourceReference (resourceRef defaultNamespace : string) : string * string :=
  if HasNamespace resourceRef then
    match Split slash resourceRef with
    | [ns; n] => (ns, n)
    | _ => (defaultNamespace, resourceRef)
    end
  else (defaultNamespace, resourceRef).

(** configs.ParseServiceReference *)
Definition ParseServiceReference (serviceRef defaultNamespace : string) : string * string :=
  ParseResourceReference serviceRef defaultNamespace.

(** k8s.ParseNamespaceName *)
Definition ParseNamespaceName (value : string) : option (string * string) :=
  match Split slash value with
  | [ns; name] => Some (ns, name)
  | _ => None
  end.

(** ** Lemmas *)

Lemma containsByte_app c s1 s2 :
  containsByte c (s1 +:+ s2) = containsByte c s1 || containsByte c s2.
Proof.
  induction s1 as [|d s1 IH]; [done|].
  unfold String.append in *; simpl. rewrite IH. apply orb_assoc.
Qed.

Lemma Split_no_sep sep s : containsByte sep s = false → Split sep s = [s].
Proof.
  induction s as [|c s IH]; simpl; [done|]. intros [Hc Hs]%orb_false_iff.
  apply bool_decide_eq_false in Hc.
  rewrite bool_decide_eq_false_2 by congruence. by rewrite IH.
Qed.

Lemma Split_app sep s t :
  containsByte sep s = false →
  Split sep (s +:+ String sep t) = s :: Split sep t.
Proof.
  induction s as [|c s IH]; unfold String.append; simpl.
  - intros _. by rewrite bool_decide_eq_true_2.
  - intros [Hc Hs]%orb_false_iff. apply bool_decide_eq_false in Hc.
    rewrite bool_decide_eq_false_2 by congruence.
    unfold String.append in IH. by rewrite IH.
Qed.

Lemma Split_nil sep s : Split sep s ≠ [].
Proof. destruct s; simpl; [done|]. by repeat case_match. Qed.

Lemma Split_format ns name :
  containsByte slash ns = false → containsByte slash name = false →
  Split slash (FormatResourceReference ns name) = [ns; name].
Proof.
  intros Hns Hname. unfold FormatResourceReference.
  change ("/" +:+ name) with (String slash name). by rewrite Split_app, (Split_no_sep _ name).
Qed.

Lemma containsByte_format ns name : containsByte slash (ns +:+ "/" +:+ name) = true.
Proof. rewrite containsByte_app. simpl. by rewrite orb_true_r. Qed.

(** The first piece ends at the first separator. *)
Lemma Split_cons_inv sep s a l :
  Split sep s = a :: l →
  containsByte sep a = false ∧
  (l = [] ∧ s = a ∨ ∃ t, s = a +:+ String sep t ∧ Split sep t = l).
Proof.
  revert a. induction s as [|c s IH]; intros a; simpl.
  - intros [= <- <-]. auto.
  - case_bool_decide as Hc.
    + intros [= <- <-]. subst c. split; [done|]. right. by exists s.
    + destruct (Split sep s) as [|w ws] eqn:Hs; [by apply Split_nil in Hs|]. intros [= <- <-].
      destruct (IH w eq_refl) as [Hw Hl]. split.
      * simpl. rewrite Hw, bool_decide_eq_false_2 by congruence. done.
      * destruct Hl as [[-> ->]|(t & -> & Ht)]; [by left|]. right. by exists t.
Qed.

Lemma Split_two s a b :
  Split slash s = [a; b] →
  s = a +:+ "/" +:+ b ∧ containsByte slash a = false ∧ containsByte slash b = false.
Proof.
  intros Hs. apply Split_cons_inv in Hs as [Ha [[? _]|(t & -> & Ht)]]; [done|].
  apply Split_cons_inv in Ht as [Hb [[_ ->]|(t' & _ & Ht')]]; [done|].
  by apply Split_nil in Ht'.
Qed.

(** A formatted reference parses back, whatever the default namespace, when
    neither part contains a slash (Kubernetes names never do). *)
Lemma Parse_Format ns name d :
  HasNamespace ns = false → HasNamespace name = false →
  ParseResourceReference (FormatResourceReference ns name) d = (ns, name).
Proof.
  intros Hns Hname. unfold ParseResourceReference, FormatResourceReference.
  assert (HasNamespace (ns +:+ "/" +:+ name) = true) as ->.
  { unfold HasNamespace. rewrite containsByte_app. simpl.
    rewrite orb_true_r. done. }
  change ("/" +:+ name) with (String slash name).
  rewrite Split_app, (Split_no_sep _ name) by done. done.
Qed.

Lemma string_app_assoc (s t u : string) : (s +:+ t) +:+ u = s +:+ (t +:+ u).
Proof.
  induction s as [|c s IH]; [done|].
  change (String c s +:+ t) with (String c (s +:+ t)).
  change (String c (s +:+ t) +:+ u) with (String c ((s +:+ t) +:+ u)). by rewrite IH.
Qed.

Lemma string_app_nil_r (s : string) : s +:+ "" = s.
Proof.
  induction s as [|c s IH]; [done|]. change (String c s +:+ "") with (String c (s +:+ "")).
  by rewrite IH.
Qed.

Lemma string_app_inj_l (s t1 t2 : string) : s +:+ t1 = s +:+ t2 → t1 = t2.
Proof. apply (inj (String.app s)). Qed.

(** The number of slashes of a string; Kubernetes names have none. *)
Fixpoint slashes (s : string) : nat :=
  match s with
  | EmptyString => 0
  | String c s' => (if Ascii.eqb c slash then 1 else 0) + slashes s'
  end.

Lemma slashes_app s t : slashes (s +:+ t) = slashes s + slashes t.
Proof. induction s as [|c s IH]; [done|]. simpl. rewrite IH. lia. Qed.

(** ** Prefixes and suffixes *)

Lemma prefix_app (p s : string) : String.prefix p (p +:+ s) = true.
Proof. induction p as [|c p IH]; [by destruct s|]. simpl. by destruct (Ascii.ascii_dec c c). Qed.

Lemma prefix_inv (p s : string) : String.prefix p s = true → ∃ t, s = p +:+ t.
Proof.
  revert s. induction p as [|c p IH]; intros s H; [by exists s|].
  destruct s as [|d s]; [done|]. simpl in H. case_match; [|done]. subst.
  destruct (IH s H) as [t ->]. by exists t.
Qed.

Lemma list_ascii_app (s t : string) :
  String.list_ascii_of_string (s +:+ t) = String.list_ascii_of_string s ++ String.list_ascii_of_string t.
Proof. induction s as [|c s IH]; [done|]. simpl. by rewrite <- IH. Qed.

Lemma string_of_list_app l k :
  String.string_of_list_ascii (l ++ k) = String.string_of_list_ascii l +:+ String.string_of_list_ascii k.
Proof. induction l as [|c l IH]; [done|]. simpl. by rewrite IH. Qed.

Lemma revBytes_app s t : revBytes (s +:+ t) = revBytes t +:+ revBytes s.
Proof. unfold revBytes. by rewrite list_ascii_app, rev_app_distr, string_of_list_app. Qed.

Lemma revBytes_rev s : revBytes (revBytes s) = s.
Proof.
  unfold revBytes. rewrite String.list_ascii_of_string_of_list_ascii, rev_involutive.
  apply String.string_of_list_ascii_of_string.
Qed.

Lemma HasSuffix_spec s p : HasSuffix s p = true ↔ ∃ x, s = x +:+ p.
Proof.
  unfold HasSuffix. split.
  - intros [t Ht]%prefix_inv. exists (revBytes t).
    by rewrite <- (revBytes_rev s), Ht, revBytes_app, revBytes_rev.
  - intros [x ->]. rewrite revBytes_app. apply prefix_app.
Qed.

Lemma substring_app (x p : string) : String.substring 0 (String.length x) (x +:+ p) = x.
Proof. induction x as [|c x IH]; [by destruct p|]. simpl. by rewrite IH. Qed.

Lemma string_app_length (s t : string) :
  String.length (s +:+ t) = String.length s + String.length t.
Proof.
  induction s as [|c s IH]; [done|]. change (String c s +:+ t) with (String c (s +:+ t)).
  cbn [String.length]. by rewrite IH.
Qed.

Lemma string_app_inj_r (s1 s2 t : string) : s1 +:+ t = s2 +:+ t → s1 = s2.
Proof.
  revert s2. induction s1 as [|c s1 IH]; intros [|d s2] H; [done| | |].
  - apply (f_equal String.length) in H. rewrite !string_app_length in H. simpl in H. lia.
  - apply (f_equal String.length) in H. rewrite !string_app_length in H. simpl in H. lia.
  - injection H as -> H. by rewrite (IH _ H).
Qed.
Lemma TrimSuffix_app x p : TrimSuffix (x +:+ p) p = x.
Proof.
  unfold TrimSuffix. rewrite (proj2 (HasSuffix_spec _ _)) by eauto.
  rewrite string_app_length, Nat.add_sub. apply substring_app.
Qed.

(** ** A predicate on every byte *)
Fixpoint forallBytes (P : Ascii.ascii → bool) (s : string) : bool :=
  match s with
  | EmptyString => true
  | String c s' => P c && forallBytes P s'
  end.

Lemma forallBytes_app P s t : forallBytes P (s +:+ t) = forallBytes P s && forallBytes P t.
Proof.
  induction s as [|c s IH]; [done|]. change (String c s +:+ t) with (String c (s +:+ t)).
  cbn [forallBytes]. by rewrite IH, andb_assoc.
Qed.

Lemma forallBytes_mono (P Q : Ascii.ascii → bool) s :
  (∀ c, P c = true → Q c = true) → forallBytes P s = true → forallBytes Q s = true.
Proof.
  intros HPQ. induction s as [|c s IH]; [done|]. cbn. intros [Hc Hs]%andb_true_iff.
  by rewrite (HPQ c Hc), IH.
Qed.

Lemma forallBytes_spec P s :
  forallBytes P s = true ↔ ∀ c, containsByte c s = true → P c = true.
Proof.
  induction s as [|c s IH]; simpl; [done|]. rewrite andb_true_iff, IH. split.
  - intros [Hc Hs] d [Hd%bool_decide_eq_true|?]%orb_true_iff; [by subst|auto].
  - intros Hall. split; [|intros d Hd]; apply Hall.
    + by rewrite bool_decide_eq_true_2.
    + rewrite Hd. apply orb_true_r.
Qed.
