(* ===== verification/Regex.v ===== *)
(** Regular expressions of Go's package regexp, and the runes of package
    unicode/utf8.

    An expression is matched on bytes.  That is Go's answer for the expressions
    of the modelled code: a negated class excludes only ASCII characters and is
    repeated without a count, so that the bytes of a multi-byte rune, none of
    which is ASCII, match it one after the other exactly when the rune does. *)
From S2P Require Import Prelude GoStrings.

(** ** Syntax *)

Inductive regex :=
  | REps
  | RClass (p : Ascii.ascii → bool)
  | RCat (a b : regex)
  | RAlt (a b : regex)          (* the left side is preferred *)
  | RStar (a : regex)           (* greedy *)
  | RGroup (a : regex).         (* capturing *)

Definition RPlus (a : regex) : regex := RCat a (RStar a).
Definition ROpt (a : regex) : regex := RAlt a REps.
(** a?? *)
Definition RLazyOpt (a : regex) : regex := RAlt REps a.
(** a{n,n+m} *)
Fixpoint RUpTo (m : nat) (a : regex) : regex :=
  match m with
  | 0 => REps
  | S m' => ROpt (RCat a (RUpTo m' a))
  end.
Fixpoint RExactly (n : nat) (a : regex) : regex :=
  match n with
  | 0 => REps
  | S n' => RCat a (RExactly n' a)
  end.
Definition RRange (n m : nat) (a : regex) : regex := RCat (RExactly n a) (RUpTo (m - n) a).
Definition RChar (n : nat) : regex := RClass (λ c, ceqb c n).
Fixpoint RLit (s : string) : regex :=
  match s with
  | EmptyString => REps
  | String c s' => RCat (RClass (λ d, Ascii.eqb d c)) (RLit s')
  end.

Fixpoint RCats (l : list regex) : regex :=
  match l with
  | [] => REps
  | a :: l' => RCat a (RCats l')
  end.

(** Character classes: by ranges, and by the complement of ranges *)
Definition inRanges (l : list (nat * nat)) (c : Ascii.ascii) : bool :=
  existsb (λ r, Nat.leb r.1 (Ascii.nat_of_ascii c) && Nat.leb (Ascii.nat_of_ascii c) r.2) l.
Definition RIn (l : list (nat * nat)) : regex := RClass (inRanges l).
Definition RNotIn (l : list (nat * nat)) : regex := RClass (λ c, negb (inRanges l c)).
Definition one (n : nat) : nat * nat := (n, n).
Definition spaceRanges : list (nat * nat) := [(9, 10); (12, 13); one 32].   (* \s *)
Definition digitRanges : list (nat * nat) := [(48, 57)].                    (* \d *)
Definition lowerRanges : list (nat * nat) := [(97, 122)].
Definition upperRanges : list (nat * nat) := [(65, 90)].
Definition alnumRanges : list (nat * nat) := digitRanges ++ lowerRanges ++ upperRanges.

(** ** Matching

    The runs of an expression on a string, in the order in which a backtracking
    matcher tries them (Go's leftmost-first semantics): the texts of the groups,
    the text consumed and the rest.  A group that does not take part captures
    the empty text, as in FindStringSubmatch; groups inside a star capture
    nothing (the modelled code reads none). *)
Fixpoint groups (r : regex) : nat :=
  match r with
  | REps | RClass _ | RStar _ => 0
  | RCat a b | RAlt a b => groups a + groups b
  | RGroup a => S (groups a)
  end.

Definition run : Type := (list string * string * string).
Definition run_caps (x : run) : list string := x.1.1.
Definition run_text (x : run) : string := x.1.2.
Definition run_rest (x : run) : string := x.2.

Section StarRuns.
Variable body : string → list run.
(** A round of a star that consumes nothing ends it; [length s] rounds are
    enough because each of the others consumes a byte. *)
Fixpoint starRuns (fuel : nat) (s : string) : list run :=
  match fuel with
  | 0 => [([], "", s)]
  | S fuel' =>
      flat_map (λ x, if bool_decide (run_text x = "") then []
                     else (λ y, ([], run_text x +:+ run_text y, run_rest y))
                            <$> starRuns fuel' (run_rest x)) (body s)
      ++ [([], "", s)]
  end.
End StarRuns.

Fixpoint runs (r : regex) (s : string) : list run :=
  match r with
  | REps => [([], "", s)]
  | RClass p =>
      match s with
      | String c s' => if p c then [([], String c "", s')] else []
      | EmptyString => []
      end
  | RCat a b =>
      flat_map (λ x, (λ y, (run_caps x ++ run_caps y, run_text x +:+ run_text y, run_rest y))
                       <$> runs b (run_rest x)) (runs a s)
  | RAlt a b =>
      ((λ x, (run_caps x ++ replicate (groups b) "", run_text x, run_rest x)) <$> runs a s)
      ++ ((λ x, (replicate (groups a) "" ++ run_caps x, run_text x, run_rest x)) <$> runs b s)
  | RStar a => starRuns (runs a) (String.length s) s
  | RGroup a => (λ x, (run_text x :: run_caps x, run_text x, run_rest x)) <$> runs a s
  end.

(** regexp.MatchString and FindStringSubmatch of ^r$ *)
Definition wholeRuns (r : regex) (s : string) : list run :=
  filter (λ x, run_rest x = "") (runs r s).
Definition MatchString (r : regex) (s : string) : bool :=
  existsb (λ x, bool_decide (run_rest x = "")) (runs r s).
Definition FindStringSubmatch (r : regex) (s : string) : option (list string) :=
  run_caps <$> head (wholeRuns r s).

(** regexp.MatchString of an expression without anchors *)
Fixpoint MatchAnywhere (r : regex) (s : string) : bool :=
  match runs r s with
  | _ :: _ => true
  | [] => match s with
          | EmptyString => false
          | String _ s' => MatchAnywhere r s'
          end
  end.

(** FindAllStringSubmatch of an expression without anchors that matches no empty
    text: the text and the groups of each match, from left to right.  [length s]
    rounds are enough because each consumes a byte. *)
Fixpoint findAll (fuel : nat) (r : regex) (s : string) : list (string * list string) :=
  match fuel with
  | 0 => []
  | S fuel' =>
      match head (runs r s) with
      | Some x => (run_text x, run_caps x) :: findAll fuel' r (run_rest x)
      | None => match s with
                | EmptyString => []
                | String _ s' => findAll fuel' r s'
                end
      end
  end.
Definition FindAllStringSubmatch (r : regex) (s : string) : list (string * list string) :=
  findAll (String.length s) r s.

(** ** The language of an expression *)
Inductive Matches : regex → string → Prop :=
  | MEps : Matches REps ""
  | MClass p c : p c = true → Matches (RClass p) (String c "")
  | MCat a b s t : Matches a s → Matches b t → Matches (RCat a b) (s +:+ t)
  | MAltL a b s : Matches a s → Matches (RAlt a b) s
  | MAltR a b s : Matches b s → Matches (RAlt a b) s
  | MStarNil a : Matches (RStar a) ""
  | MStarCons a s t : Matches a s → Matches (RStar a) t → Matches (RStar a) (s +:+ t)
  | MGroup a s : Matches a s → Matches (RGroup a) s.

#[export] Hint Constructors Matches : regex.

Lemma starRuns_sound a fuel s x :
  (∀ s x, x ∈ runs a s → s = run_text x +:+ run_rest x ∧ Matches a (run_text x)) →
  x ∈ starRuns (runs a) fuel s →
  s = run_text x +:+ run_rest x ∧ Matches (RStar a) (run_text x).
Proof.
  intros Ha. revert s x. induction fuel as [|fuel IH]; intros s x; cbn [starRuns].
  - intros ->%list_elem_of_singleton. split; [done|constructor].
  - intros [Hx| ->%list_elem_of_singleton]%elem_of_app; [|split; [done|constructor]].
    apply list_elem_of_In, in_flat_map in Hx as (y & Hy & Hx).
    case_bool_decide; [by apply in_nil in Hx|].
    apply list_elem_of_In, list_elem_of_fmap in Hx as (z & -> & Hz).
    apply list_elem_of_In, Ha in Hy as [-> Hy]. apply IH in Hz as [Heq Hz]. cbn in *.
    split; [|by constructor]. by rewrite string_app_assoc, <- Heq.
Qed.

Lemma runs_sound r s x : x ∈ runs r s → s = run_text x +:+ run_rest x ∧ Matches r (run_text x).
Proof.
  revert s x. induction r as [|p|a IHa b IHb|a IHa b IHb|a IHa|a IHa]; intros s x; cbn [runs].
  - intros ->%list_elem_of_singleton. split; [done|constructor].
  - destruct s as [|c s]; [by intros ?%elem_of_nil|]. destruct (p c) eqn:Hp; [|by intros ?%elem_of_nil].
    intros ->%list_elem_of_singleton. split; [done|by constructor].
  - intros (y & Hy & Hx)%list_elem_of_In%in_flat_map.
    apply list_elem_of_In, list_elem_of_fmap in Hx as (z & -> & Hz).
    apply list_elem_of_In, IHa in Hy as [-> Hy]. apply IHb in Hz as [Heq Hz]. cbn.
    split; [|by constructor]. by rewrite string_app_assoc, <- Heq.
  - intros [(y & -> & Hy)%list_elem_of_fmap|(y & -> & Hy)%list_elem_of_fmap]%elem_of_app.
    + apply IHa in Hy as [-> Hy]. split; [done|by apply MAltL].
    + apply IHb in Hy as [-> Hy]. split; [done|by apply MAltR].
  - by apply starRuns_sound.
  - intros (y & -> & Hy)%list_elem_of_fmap. apply IHa in Hy as [-> Hy].
    split; [done|by constructor].
Qed.

(** A star splits into rounds that consume something. *)
Lemma Matches_star_ind (a : regex) (P : string → Prop) :
  P "" → (∀ s t, Matches a s → s ≠ "" → Matches (RStar a) t → P t → P (s +:+ t)) →
  ∀ s, Matches (RStar a) s → P s.
Proof.
  intros H0 Hc s Hs. remember (RStar a) as r eqn:Hr. revert Hr.
  induction Hs as [| | | | | |a' s t Ha _ Ht IH|]; intros [=]; subst; [done|].
  destruct (decide (s = "")) as [->|Hne]; [by apply IH|]. apply Hc; auto.
Qed.

Lemma starRuns_complete a s rest fuel :
  (∀ s rest, Matches a s → ∃ caps, (caps, s, rest) ∈ runs a (s +:+ rest)) →
  Matches (RStar a) s → String.length s ≤ fuel → ([], s, rest) ∈ starRuns (runs a) fuel (s +:+ rest).
Proof.
  intros Ha Hs. revert fuel. pattern s. revert s Hs.
  apply Matches_star_ind.
  - intros fuel _. destruct fuel; cbn [starRuns]; [by left|]. apply elem_of_app. right. by left.
  - intros s t Hs Hne Ht IH fuel Hlen. rewrite string_app_length in Hlen.
    destruct s as [|c s]; [done|]. cbn in Hlen. destruct fuel as [|fuel]; [lia|].
    cbn [starRuns]. apply elem_of_app. left. apply list_elem_of_In, in_flat_map.
    destruct (Ha (String c s) (t +:+ rest) Hs) as [caps Hin].
    exists (caps, String c s, t +:+ rest). rewrite string_app_assoc.
    split; [by apply list_elem_of_In|]. cbn [run_text run_rest fst snd].
    rewrite bool_decide_eq_false_2 by done. apply list_elem_of_In, list_elem_of_fmap.
    eexists. split; [|apply IH; lia]. done.
Qed.

Lemma runs_complete r s rest : Matches r s → ∃ caps, (caps, s, rest) ∈ runs r (s +:+ rest).
Proof.
  revert s rest. induction r as [|p|a IHa b IHb|a IHa b IHb|a IHa|a IHa]; intros s rest Hs.
  - inversion Hs; subst. eexists. by left.
  - inversion Hs as [|? c Hp| | | | | |]; subst. exists [].
    change (String c "" +:+ rest) with (String c rest). cbn [runs]. rewrite Hp. by left.
  - inversion Hs as [| |? ? s1 s2 H1 H2| | | | |]; subst. rewrite string_app_assoc.
    destruct (IHa _ (s2 +:+ rest) H1) as [c1 Hin1]. destruct (IHb _ rest H2) as [c2 Hin2].
    exists (c1 ++ c2). cbn [runs]. apply list_elem_of_In, in_flat_map.
    eexists. split; [by apply list_elem_of_In|]. apply list_elem_of_In, list_elem_of_fmap.
    eexists. split; [|done]. done.
  - cbn [runs]. inversion Hs as [| | |? ? ? H|? ? ? H| | |]; subst.
    + destruct (IHa _ rest H) as [c Hin]. eexists. apply elem_of_app. left.
      apply list_elem_of_fmap. eexists. split; [|done]. done.
    + destruct (IHb _ rest H) as [c Hin]. eexists. apply elem_of_app. right.
      apply list_elem_of_fmap. eexists. split; [|done]. done.
  - exists []. cbn [runs]. apply starRuns_complete; [done|done|].
    rewrite string_app_length. lia.
  - inversion Hs as [| | | | | | |? ? H]; subst. destruct (IHa _ rest H) as [c Hin].
    eexists. cbn [runs]. apply list_elem_of_fmap. eexists. split; [|done]. done.
Qed.

(** The matcher decides the language. *)
Lemma MatchString_spec r s : MatchString r s = true ↔ Matches r s.
Proof.
  unfold MatchString. rewrite existsb_exists. split.
  - intros (x & Hx & Hr%bool_decide_eq_true). apply list_elem_of_In, runs_sound in Hx as [-> Hx].
    by rewrite Hr, string_app_nil_r.
  - intros Hs. destruct (runs_complete r s "" Hs) as [caps Hin]. rewrite string_app_nil_r in Hin.
    eexists. split; [by apply list_elem_of_In|]. done.
Qed.
#[export] Instance Matches_dec r s : Decision (Matches r s).
Proof. refine (cast_if (decide (MatchString r s = true))); by rewrite <- MatchString_spec. Defined.

(** A match with the texts of its groups *)
Inductive Captures : regex → string → list string → Prop :=
  | CEps : Captures REps "" []
  | CClass p c : p c = true → Captures (RClass p) (String c "") []
  | CCat a b s t cs ct : Captures a s cs → Captures b t ct → Captures (RCat a b) (s +:+ t) (cs ++ ct)
  | CAltL a b s cs : Captures a s cs → Captures (RAlt a b) s (cs ++ replicate (groups b) "")
  | CAltR a b s cs : Captures b s cs → Captures (RAlt a b) s (replicate (groups a) "" ++ cs)
  | CStar a s : Matches (RStar a) s → Captures (RStar a) s []
  | CGroup a s cs : Captures a s cs → Captures (RGroup a) s (s :: cs).

Lemma starRuns_caps body fuel s x : x ∈ starRuns body fuel s → run_caps x = [].
Proof.
  revert s x. induction fuel as [|fuel IH]; intros s x; cbn [starRuns].
  - by intros ->%list_elem_of_singleton.
  - intros [Hx| ->%list_elem_of_singleton]%elem_of_app; [|done].
    apply list_elem_of_In, in_flat_map in Hx as (y & _ & Hx). case_bool_decide; [by apply in_nil in Hx|].
    by apply list_elem_of_In, list_elem_of_fmap in Hx as (z & -> & _).
Qed.

Lemma runs_captures r s x : x ∈ runs r s → Captures r (run_text x) (run_caps x).
Proof.
  revert s x. induction r as [|p|a IHa b IHb|a IHa b IHb|a IHa|a IHa]; intros s x; cbn [runs].
  - intros ->%list_elem_of_singleton. constructor.
  - destruct s as [|c s]; [by intros ?%elem_of_nil|]. destruct (p c) eqn:Hp; [|by intros ?%elem_of_nil].
    intros ->%list_elem_of_singleton. by constructor.
  - intros (y & Hy & Hx)%list_elem_of_In%in_flat_map.
    apply list_elem_of_In, list_elem_of_fmap in Hx as (z & -> & Hz).
    apply list_elem_of_In, IHa in Hy. apply IHb in Hz. by constructor.
  - intros [(y & -> & Hy)%list_elem_of_fmap|(y & -> & Hy)%list_elem_of_fmap]%elem_of_app.
    + apply IHa in Hy. by constructor.
    + apply IHb in Hy. by constructor.
  - intros Hx. rewrite (starRuns_caps _ _ _ _ Hx). constructor.
    apply (runs_sound (RStar a) s x). exact Hx.
  - intros (y & -> & Hy)%list_elem_of_fmap. apply IHa in Hy. by constructor.
Qed.

(** ** Reasoning about the language *)

Lemma Matches_cat a b s : Matches (RCat a b) s ↔ ∃ s1 s2, s = s1 +:+ s2 ∧ Matches a s1 ∧ Matches b s2.
Proof.
  split; [inversion 1; subst; eauto|]. intros (s1 & s2 & -> & ? & ?). by constructor.
Qed.
Lemma Matches_alt a b s : Matches (RAlt a b) s ↔ Matches a s ∨ Matches b s.
Proof. split; [inversion 1; subst; auto|]. intros [?|?]; eauto with regex. Qed.
Lemma Matches_class p s : Matches (RClass p) s ↔ ∃ c, s = String c "" ∧ p c = true.
Proof. split; [inversion 1; subst; eauto|]. intros (c & -> & ?). by constructor. Qed.
Lemma Matches_group a s : Matches (RGroup a) s ↔ Matches a s.
Proof. split; [by inversion 1|]. by constructor. Qed.
Lemma Matches_eps s : Matches REps s ↔ s = "".
Proof. split; [by inversion 1|]. intros ->. constructor. Qed.
Lemma Matches_lit l s : Matches (RLit l) s ↔ s = l.
Proof.
  revert s. induction l as [|c l IH]; intros s; cbn [RLit]; [apply Matches_eps|].
  rewrite Matches_cat. split.
  - intros (s1 & s2 & -> & (d & -> & Hd%Ascii.eqb_eq)%Matches_class & ->%IH). by subst.
  - intros ->. exists (String c ""), l. split_and!; [done| |by apply IH].
    apply Matches_class. exists c. by rewrite Ascii.eqb_refl.
Qed.
Lemma Matches_star_class p s : Matches (RStar (RClass p)) s ↔ forallBytes p s = true.
Proof.
  split.
  - revert s. apply Matches_star_ind; [done|]. intros s t (c & -> & Hc)%Matches_class _ _ Ht.
    rewrite forallBytes_app, Ht. cbn [forallBytes]. by rewrite Hc.
  - induction s as [|c s IH]; [constructor|]. cbn [forallBytes]. intros [Hc Hs]%andb_true_iff.
    apply (MStarCons _ (String c "") s); [by constructor|by apply IH].
Qed.

(** Every byte of a matched text is in a class of the expression. *)
Fixpoint alphabet (r : regex) (c : Ascii.ascii) : bool :=
  match r with
  | REps => false
  | RClass p => p c
  | RCat a b | RAlt a b => alphabet a c || alphabet b c
  | RStar a | RGroup a => alphabet a c
  end.

Lemma Matches_alphabet r s : Matches r s → forallBytes (alphabet r) s = true.
Proof.
  induction 1 as [|p c Hp|a b s t _ IH1 _ IH2|a b s _ IH|a b s _ IH|a|a s t _ IH1 _ IH2|a s _ IH];
    cbn [forallBytes alphabet].
  - done.
  - by rewrite Hp.
  - rewrite forallBytes_app. apply andb_true_iff. split.
    + eapply forallBytes_mono; [|exact IH1]. intros d Hd. by rewrite Hd.
    + eapply forallBytes_mono; [|exact IH2]. intros d Hd. by rewrite Hd, orb_true_r.
  - eapply forallBytes_mono; [|exact IH]. intros d Hd. by rewrite Hd.
  - eapply forallBytes_mono; [|exact IH]. intros d Hd. by rewrite Hd, orb_true_r.
  - done.
  - rewrite forallBytes_app. apply andb_true_iff. split; [exact IH1|exact IH2].
  - exact IH.
Qed.

(** A byte outside the alphabet does not occur; the premise is decided by
    evaluation. *)
Lemma Matches_free r s c : Matches r s → alphabet r c = false → containsByte c s = false.
Proof.
  intros Hs%Matches_alphabet Hc. destruct (containsByte c s) eqn:Hb; [|done].
  by rewrite (proj1 (forallBytes_spec _ _) Hs c Hb) in Hc.
Qed.

(** ** Runes: utf8.DecodeRuneInString, the rune and its length in bytes; an
    invalid byte gives U+FFFD and length 1 *)
Definition byteVal (c : Ascii.ascii) : Z := Z.of_nat (Ascii.nat_of_ascii c).
Definition between (lo hi z : Z) : bool := (lo <=? z)%Z && (z <=? hi)%Z.
Definition RuneError : Z := 65533.

Definition decodeRune (s : string) : option (Z * nat) :=
  match s with
  | EmptyString => None
  | String c0 s1 =>
      let b0 := byteVal c0 in
      let bad := Some (RuneError, 1) in
      if (b0 <? 128)%Z then Some (b0, 1)
      else match s1 with
      | EmptyString => bad
      | String c1 s2 =>
          let b1 := byteVal c1 in
          if between 194 223 b0 then
            if between 128 191 b1 then Some (((b0 - 192) * 64 + (b1 - 128))%Z, 2) else bad
          else match s2 with
          | EmptyString => bad
          | String c2 s3 =>
              let b2 := byteVal c2 in
              if between 224 239 b0 then
                if between (if (b0 =? 224)%Z then 160 else 128) (if (b0 =? 237)%Z then 159 else 191) b1
                   && between 128 191 b2
                then Some (((b0 - 224) * 4096 + (b1 - 128) * 64 + (b2 - 128))%Z, 3) else bad
              else match s3 with
              | EmptyString => bad
              | String c3 _ =>
                  let b3 := byteVal c3 in
                  if between 240 244 b0
                     && between (if (b0 =? 240)%Z then 144 else 128) (if (b0 =? 244)%Z then 143 else 191) b1
                     && between 128 191 b2 && between 128 191 b3
                  then Some (((b0 - 240) * 262144 + (b1 - 128) * 4096 + (b2 - 128) * 64
                              + (b3 - 128))%Z, 4)
                  else bad
              end
          end
      end
  end.

(** [for _, r := range s]: [length s] rounds are enough *)
Fixpoint runesFuel (fuel : nat) (s : string) : list Z :=
  match fuel with
  | 0 => []
  | S fuel' => match decodeRune s with
               | None => []
               | Some (r, n) => r :: runesFuel fuel' (dropBytes n s)
               end
  end.
Definition runesOf (s : string) : list Z := runesFuel (String.length s) s.

(** unicode.IsPrint: on Latin-1 by its table, above by the tables of the
    Unicode version Go is built with *)
Class UnicodeTables := { printTable : Z → bool }.
Definition IsPrint `{UnicodeTables} (r : Z) : bool :=
  if (r <=? 255)%Z
  then between 32 126 r || (between 161 255 r && negb (r =? 173)%Z)
  else printTable r.
Definition allPrintable `{UnicodeTables} (s : string) : bool := forallb IsPrint (runesOf s).
