(* ===== verification/Objects.v ===== *)
(** The Kubernetes objects the controller keeps: the fields that the modelled
    code reads.  Ingress and ObjectMeta are types of the Kubernetes API; the
    others are pkg/apis/configuration/v1/types.go.  A pointer that may be nil
    is an [option]; a map that reflect.DeepEqual compares is an [option] of a
    finite map, [None] for the nil map. *)
From S2P Require Import Prelude GoStrings.

(** ** metav1.ObjectMeta *)
Record ObjectMeta := {
  om_Namespace : string;
  om_Name : string;
  om_UID : string;
  om_CreationTimestamp : Z;
  om_Generation : Z;
  om_Annotations : option (gmap string string);
  om_Labels : gmap string string
}.

#[export] Instance ObjectMeta_eq_dec : EqDecision ObjectMeta.
Proof. solve_decision. Defined.

(** [m.Annotations[k]]: a missing key (or the nil map) reads as the empty string *)
Definition annotationExists (m : ObjectMeta) (k : string) : option string :=
  default ∅ (om_Annotations m) !! k.
Definition annotation (m : ObjectMeta) (k : string) : string :=
  default "" (annotationExists m k).
Definition label (m : ObjectMeta) (k : string) : string :=
  default "" (om_Labels m !! k).

(** ** networking.Ingress *)
Record IngressServiceBackend := { isb_Name : string; isb_PortName : string; isb_PortNumber : Z }.
Record IngressBackend := {
  ib_Service : option IngressServiceBackend;
  ib_HasResource : bool
}.
Record HTTPIngressPath := {
  ip_Path : string;
  ip_PathType : option string;
  ip_Backend : IngressBackend
}.
Record IngressRule := {
  ir_Host : string;
  ir_HTTP : option (list HTTPIngressPath)
}.
Record IngressTLS := { it_Hosts : list string; it_SecretName : string }.
Record Ingress := {
  ing_Meta : ObjectMeta;
  ing_IngressClassName : option string;
  ing_DefaultBackend : option IngressBackend;
  ing_TLS : list IngressTLS;
  ing_Rules : list IngressRule
}.

#[export] Instance IngressServiceBackend_eq_dec : EqDecision IngressServiceBackend.
Proof. solve_decision. Defined.
#[export] Instance IngressBackend_eq_dec : EqDecision IngressBackend.
Proof. solve_decision. Defined.
#[export] Instance HTTPIngressPath_eq_dec : EqDecision HTTPIngressPath.
Proof. solve_decision. Defined.
#[export] Instance IngressRule_eq_dec : EqDecision IngressRule.
Proof. solve_decision. Defined.
#[export] Instance IngressTLS_eq_dec : EqDecision IngressTLS.
Proof. solve_decision. Defined.
#[export] Instance Ingress_eq_dec : EqDecision Ingress.
Proof. solve_decision. Defined.

(** isMinion, isMaster and isChallengeIngress of internal/k8s/utils.go *)
Definition isMinion (ing : Ingress) : bool :=
  bool_decide (annotation (ing_Meta ing) "nginx.org/mergeable-ingress-type" = "minion").
Definition isMaster (ing : Ingress) : bool :=
  bool_decide (annotation (ing_Meta ing) "nginx.org/mergeable-ingress-type" = "master").
Definition isChallengeIngress (ing : Ingress) : bool :=
  bool_decide (label (ing_Meta ing) "acme.cert-manager.io/http01-solver" = "true").

(** ** VirtualServer, VirtualServerRoute

    The records have the fields of the Go structs in their order, the status
    left out.  A pointer is an option; [int], [int64] and [uint16] fields are
    integers. *)
Record PolicyReference := { pr_Name : string; pr_Namespace : string }.

Record UpstreamBuffers := { ub_Number : Z; ub_Size : string }.

Record Header := { h_Name : string; h_Value : string }.

(** UpstreamTLS is its field Enable. *)
Record HealthCheck := {
  hc_Enable : bool;
  hc_Path : string;
  hc_Interval : string;
  hc_Jitter : string;
  hc_Fails : Z;
  hc_Passes : Z;
  hc_Port : Z;
  hc_TLS : option bool;
  hc_ConnectTimeout : string;
  hc_ReadTimeout : string;
  hc_SendTimeout : string;
  hc_Headers : list Header;
  hc_StatusMatch : string;
  hc_GRPCStatus : option Z;
  hc_GRPCService : string;
  hc_Mandatory : bool;
  hc_Persistent : bool;
  hc_KeepaliveTime : string
}.

Record SessionCookie := {
  sc_Enable : bool;
  sc_Name : string;
  sc_Path : string;
  sc_Expires : string;
  sc_Domain : string;
  sc_HTTPOnly : bool;
  sc_Secure : bool;
  sc_SameSite : string
}.

Record UpstreamQueue := { uq_Size : Z; uq_Timeout : string }.

Record Upstream := {
  u_Name : string;
  u_Service : string;
  u_Subselector : option (gmap string string);     (* None is the nil map *)
  u_Port : Z;
  u_LBMethod : string;
  u_FailTimeout : string;
  u_MaxFails : option Z;
  u_MaxConns : option Z;
  u_Keepalive : option Z;
  u_ProxyConnectTimeout : string;
  u_ProxyReadTimeout : string;
  u_ProxySendTimeout : string;
  u_ProxyNextUpstream : string;
  u_ProxyNextUpstreamTimeout : string;
  u_ProxyNextUpstreamTries : Z;
  u_ProxyBuffering : option bool;
  u_ProxyBuffers : option UpstreamBuffers;
  u_ProxyBufferSize : string;
  u_ProxyBusyBuffersSize : string;
  u_ClientMaxBodySize : string;
  u_ClientBodyBufferSize : string;
  u_TLS : bool;                                    (* TLS.Enable *)
  u_HealthCheck : option HealthCheck;
  u_SlowStart : string;
  u_Queue : option UpstreamQueue;
  u_SessionCookie : option SessionCookie;
  u_UseClusterIP : bool;
  u_NTLM : bool;
  u_Type : string;
  u_Backup : string;
  u_BackupPort : option Z
}.

(** The upstream a struct literal with the name, the service and the port gives *)
Definition plainUpstream (name service : string) (port : Z) : Upstream :=
  {| u_Name := name; u_Service := service; u_Subselector := None; u_Port := port;
     u_LBMethod := ""; u_FailTimeout := ""; u_MaxFails := None; u_MaxConns := None;
     u_Keepalive := None; u_ProxyConnectTimeout := ""; u_ProxyReadTimeout := "";
     u_ProxySendTimeout := ""; u_ProxyNextUpstream := ""; u_ProxyNextUpstreamTimeout := "";
     u_ProxyNextUpstreamTries := 0; u_ProxyBuffering := None; u_ProxyBuffers := None;
     u_ProxyBufferSize := ""; u_ProxyBusyBuffersSize := ""; u_ClientMaxBodySize := "";
     u_ClientBodyBufferSize := ""; u_TLS := false; u_HealthCheck := None; u_SlowStart := "";
     u_Queue := None; u_SessionCookie := None; u_UseClusterIP := false; u_NTLM := false;
     u_Type := ""; u_Backup := ""; u_BackupPort := None |}.

(** The fields a pointer to an upstream is written through *)
Definition setProxies (u : Upstream) (buffers : option UpstreamBuffers) (size busy : string)
    : Upstream :=
  {| u_Name := u_Name u; u_Service := u_Service u; u_Subselector := u_Subselector u;
     u_Port := u_Port u; u_LBMethod := u_LBMethod u; u_FailTimeout := u_FailTimeout u;
     u_MaxFails := u_MaxFails u; u_MaxConns := u_MaxConns u; u_Keepalive := u_Keepalive u;
     u_ProxyConnectTimeout := u_ProxyConnectTimeout u; u_ProxyReadTimeout := u_ProxyReadTimeout u;
     u_ProxySendTimeout := u_ProxySendTimeout u; u_ProxyNextUpstream := u_ProxyNextUpstream u;
     u_ProxyNextUpstreamTimeout := u_ProxyNextUpstreamTimeout u;
     u_ProxyNextUpstreamTries := u_ProxyNextUpstreamTries u; u_ProxyBuffering := u_ProxyBuffering u;
     u_ProxyBuffers := buffers; u_ProxyBufferSize := size; u_ProxyBusyBuffersSize := busy;
     u_ClientMaxBodySize := u_ClientMaxBodySize u;
     u_ClientBodyBufferSize := u_ClientBodyBufferSize u; u_TLS := u_TLS u;
     u_HealthCheck := u_HealthCheck u; u_SlowStart := u_SlowStart u; u_Queue := u_Queue u;
     u_SessionCookie := u_SessionCookie u; u_UseClusterIP := u_UseClusterIP u; u_NTLM := u_NTLM u;
     u_Type := u_Type u; u_Backup := u_Backup u; u_BackupPort := u_BackupPort u |}.

Record ActionRedirect := { ar_URL : string; ar_Code : Z }.
Record ActionReturn := {
  art_Code : Z;
  art_Type : string;
  art_Body : string;
  art_Headers : list Header
}.
Record ProxyRequestHeaders := { prh_Pass : option bool; prh_Set : list Header }.
Record AddHeader := { ah_Header : Header; ah_Always : bool }.
Record ProxyResponseHeaders := {
  prs_Hide : list string;
  prs_Pass : list string;
  prs_Ignore : list string;
  prs_Add : list AddHeader
}.
Record ActionProxy := {
  ap_Upstream : string;
  ap_RewritePath : string;
  ap_RequestHeaders : option ProxyRequestHeaders;
  ap_ResponseHeaders : option ProxyResponseHeaders
}.
Record Action := {
  a_Pass : string;
  a_Redirect : option ActionRedirect;
  a_Return : option ActionReturn;
  a_Proxy : option ActionProxy
}.
Record TrafficSplit := { sp_Weight : Z; sp_Action : option Action }.
Record Condition := {
  cn_Header : string;
  cn_Cookie : string;
  cn_Argument : string;
  cn_Variable : string;
  cn_Value : string
}.
Record Match := {
  mt_Conditions : list Condition;
  mt_Action : option Action;
  mt_Splits : list TrafficSplit
}.
(** ErrorPageReturn and ErrorPageRedirect embed the structs of the actions. *)
Record ErrorPage := {
  ep_Codes : list Z;
  ep_Return : option ActionReturn;
  ep_Redirect : option ActionRedirect
}.

Record Route := {
  r_Path : string;
  r_Policies : list PolicyReference;
  r_Route : string;
  r_RouteSelector : option (gmap string string);   (* MatchLabels *)
  r_Action : option Action;
  r_Splits : list TrafficSplit;
  r_Matches : list Match;
  r_ErrorPages : option (list ErrorPage);          (* None is the nil slice *)
  r_LocationSnippets : string;
  r_AddHeaderInherit : string;
  r_Dos : string
}.

(** The route with an action that passes to an upstream and nothing else *)
Definition passAction (upstream : string) : Action :=
  {| a_Pass := upstream; a_Redirect := None; a_Return := None; a_Proxy := None |}.
Definition passRoute (path upstream : string) : Route :=
  {| r_Path := path; r_Policies := []; r_Route := ""; r_RouteSelector := None;
     r_Action := Some (passAction upstream); r_Splits := []; r_Matches := [];
     r_ErrorPages := None; r_LocationSnippets := ""; r_AddHeaderInherit := ""; r_Dos := "" |}.

Record VirtualServerListener := { vsl_HTTP : string; vsl_HTTPS : string }.

Record TLSRedirect := { tr_Enable : bool; tr_Code : option Z; tr_BasedOn : string }.
Record CertManager := {
  cm_ClusterIssuer : string;
  cm_Issuer : string;
  cm_IssuerKind : string;
  cm_IssuerGroup : string;
  cm_CommonName : string;
  cm_Duration : string;
  cm_RenewBefore : string;
  cm_Usages : string;
  cm_IssueTempCert : bool
}.
Record TLS := {
  tls_Secret : string;
  tls_Redirect : option TLSRedirect;
  tls_CertManager : option CertManager
}.
Record ExternalDNS := {
  ed_Enable : bool;
  ed_RecordType : string;
  ed_RecordTTL : Z;
  ed_Labels : gmap string string;
  ed_ProviderSpecific : list (string * string)
}.
Definition noExternalDNS : ExternalDNS :=
  {| ed_Enable := false; ed_RecordType := ""; ed_RecordTTL := 0; ed_Labels := ∅;
     ed_ProviderSpecific := [] |}.

Record VirtualServer := {
  vs_Meta : ObjectMeta;
  vs_IngressClass : string;
  vs_Host : string;
  vs_Listener : option VirtualServerListener;
  vs_TLS : option TLS;
  vs_Gunzip : bool;
  vs_Policies : list PolicyReference;
  vs_Upstreams : list Upstream;
  vs_Routes : list Route;
  vs_HTTPSnippets : string;
  vs_ServerSnippets : string;
  vs_AddHeaderInherit : string;
  vs_Dos : string;
  vs_ExternalDNS : ExternalDNS
}.

Record VirtualServerRoute := {
  vsr_Meta : ObjectMeta;
  vsr_IngressClass : string;
  vsr_Host : string;
  vsr_Upstreams : list Upstream;
  vsr_Subroutes : list Route
}.

#[export] Instance PolicyReference_eq_dec : EqDecision PolicyReference.
Proof. solve_decision. Defined.
#[export] Instance UpstreamBuffers_eq_dec : EqDecision UpstreamBuffers.
Proof. solve_decision. Defined.
#[export] Instance Header_eq_dec : EqDecision Header.
Proof. solve_decision. Defined.
#[export] Instance HealthCheck_eq_dec : EqDecision HealthCheck.
Proof. solve_decision. Defined.
#[export] Instance SessionCookie_eq_dec : EqDecision SessionCookie.
Proof. solve_decision. Defined.
#[export] Instance UpstreamQueue_eq_dec : EqDecision UpstreamQueue.
Proof. solve_decision. Defined.
#[export] Instance Upstream_eq_dec : EqDecision Upstream.
Proof. solve_decision. Defined.
#[export] Instance ActionRedirect_eq_dec : EqDecision ActionRedirect.
Proof. solve_decision. Defined.
#[export] Instance ActionReturn_eq_dec : EqDecision ActionReturn.
Proof. solve_decision. Defined.
#[export] Instance ProxyRequestHeaders_eq_dec : EqDecision ProxyRequestHeaders.
Proof. solve_decision. Defined.
#[export] Instance AddHeader_eq_dec : EqDecision AddHeader.
Proof. solve_decision. Defined.
#[export] Instance ProxyResponseHeaders_eq_dec : EqDecision ProxyResponseHeaders.
Proof. solve_decision. Defined.
#[export] Instance ActionProxy_eq_dec : EqDecision ActionProxy.
Proof. solve_decision. Defined.
#[export] Instance Action_eq_dec : EqDecision Action.
Proof. solve_decision. Defined.
#[export] Instance TrafficSplit_eq_dec : EqDecision TrafficSplit.
Proof. solve_decision. Defined.
#[export] Instance Condition_eq_dec : EqDecision Condition.
Proof. solve_decision. Defined.
#[export] Instance Match_eq_dec : EqDecision Match.
Proof. solve_decision. Defined.
#[export] Instance ErrorPage_eq_dec : EqDecision ErrorPage.
Proof. solve_decision. Defined.
#[export] Instance Route_eq_dec : EqDecision Route.
Proof. solve_decision. Defined.
#[export] Instance VirtualServerListener_eq_dec : EqDecision VirtualServerListener.
Proof. solve_decision. Defined.
#[export] Instance TLSRedirect_eq_dec : EqDecision TLSRedirect.
Proof. solve_decision. Defined.
#[export] Instance CertManager_eq_dec : EqDecision CertManager.
Proof. solve_decision. Defined.
#[export] Instance TLS_eq_dec : EqDecision TLS.
Proof. solve_decision. Defined.
#[export] Instance ExternalDNS_eq_dec : EqDecision ExternalDNS.
Proof. solve_decision. Defined.
#[export] Instance VirtualServer_eq_dec : EqDecision VirtualServer.
Proof. solve_decision. Defined.
#[export] Instance VirtualServerRoute_eq_dec : EqDecision VirtualServerRoute.
Proof. solve_decision. Defined.

(** ** GlobalConfiguration *)
Record Listener := {
  l_Name : string;
  l_Protocol : string;
  l_Port : Z;
  l_IPv4 : string;
  l_IPv6 : string;
  l_Ssl : bool
}.
Record GlobalConfiguration := {
  gc_Meta : ObjectMeta;
  gc_Listeners : list Listener
}.

#[export] Instance Listener_eq_dec : EqDecision Listener.
Proof. solve_decision. Defined.
#[export] Instance GlobalConfiguration_eq_dec : EqDecision GlobalConfiguration.
Proof. solve_decision. Defined.

Definition HTTPProtocol : string := "HTTP".
Definition TLSPassthroughListenerName : string := "tls-passthrough".
Definition TLSPassthroughListenerProtocol : string := "TLS_PASSTHROUGH".

(** ** TransportServer *)
Record TransportServerListener := { tsl_Name : string; tsl_Protocol : string }.
Record TransportServerMatch := { tsm_Send : string; tsm_Expect : string }.
Record TransportServerHealthCheck := {
  thc_Enabled : bool;
  thc_Timeout : string;
  thc_Jitter : string;
  thc_Port : Z;
  thc_Interval : string;
  thc_Passes : Z;
  thc_Fails : Z;
  thc_Match : option TransportServerMatch
}.
Record TransportServerUpstream := {
  tsu_Name : string;
  tsu_Service : string;
  tsu_Port : Z;
  tsu_FailTimeout : string;
  tsu_MaxFails : option Z;
  tsu_MaxConns : option Z;
  tsu_HealthCheck : option TransportServerHealthCheck;
  tsu_LoadBalancingMethod : string;
  tsu_Backup : string;
  tsu_BackupPort : option Z
}.
Record UpstreamParameters := {
  upp_UDPRequests : option Z;
  upp_UDPResponses : option Z;
  upp_ConnectTimeout : string;
  upp_NextUpstream : bool;
  upp_NextUpstreamTimeout : string;
  upp_NextUpstreamTries : Z
}.
(** TLS, SessionParameters and Action are their fields Secret, Timeout and Pass. *)
Record TransportServer := {
  ts_Meta : ObjectMeta;
  ts_IngressClass : string;
  ts_TLSSecret : option string;
  ts_Listener : TransportServerListener;
  ts_ServerSnippets : string;
  ts_StreamSnippets : string;
  ts_Host : string;
  ts_Upstreams : list TransportServerUpstream;
  ts_UpstreamParameters : option UpstreamParameters;
  ts_SessionParameters : option string;
  ts_Action : option string
}.

#[export] Instance TransportServerListener_eq_dec : EqDecision TransportServerListener.
Proof. solve_decision. Defined.
#[export] Instance TransportServerMatch_eq_dec : EqDecision TransportServerMatch.
Proof. solve_decision. Defined.
#[export] Instance TransportServerHealthCheck_eq_dec : EqDecision TransportServerHealthCheck.
Proof. solve_decision. Defined.
#[export] Instance TransportServerUpstream_eq_dec : EqDecision TransportServerUpstream.
Proof. solve_decision. Defined.
#[export] Instance UpstreamParameters_eq_dec : EqDecision UpstreamParameters.
Proof. solve_decision. Defined.
#[export] Instance TransportServer_eq_dec : EqDecision TransportServer.
Proof. solve_decision. Defined.

(** getResourceKey and getResourceKeyWithKind of internal/k8s/configuration.go *)
Definition getResourceKey (m : ObjectMeta) : string :=
  om_Namespace m +:+ "/" +:+ om_Name m.
Definition getResourceKeyWithKind (kind : string) (m : ObjectMeta) : string :=
  kind +:+ "/" +:+ om_Namespace m +:+ "/" +:+ om_Name m.

(** The runtime.Object a ConfigurationProblem refers to. *)
Inductive Object :=
  | OIngress (ing : Ingress)
  | OVirtualServer (vs : VirtualServer)
  | OVirtualServerRoute (vsr : VirtualServerRoute)
  | OTransportServer (ts : TransportServer).

#[export] Instance Object_eq_dec : EqDecision Object.
Proof. solve_decision. Defined.
