(* ===== verification/ProxyBuffers.v ===== *)
(** internal/validation/data_types.go: parsing, normalising and balancing the
    NGINX proxy buffer settings.  uint64 values are integers in [0, 2^64) with
    the wrap-around of Go's arithmetic written out. *)
From S2P Require Import Prelude GoStrings Objects.

Local Open Scope Z_scope.

(** ** uint64 *)
Definition u64 (z : Z) : Z := z mod 2 ^ 64.
Definition u64_mul (a b : Z) : Z := u64 (a * b).
Definition u64_sub (a b : Z) : Z := u64 (a - b).
Definition u64_add (a b : Z) : Z := u64 (a + b).

(** ** Decimal numbers: strconv.ParseUint(s, 10, 64), strconv.Atoi and %d *)

Definition digitVal (c : Ascii.ascii) : option Z :=
  let n := Z.of_nat (Ascii.nat_of_ascii c) in
  if (48 <=? n) && (n <=? 57) then Some (n - 48) else None.

Fixpoint parseDigits (acc : Z) (s : string) : option Z :=
  match s with
  | EmptyString => Some acc
  | String c s' => d ← digitVal c; parseDigits (acc * 10 + d) s'
  end.

(** The value, or [None] for a syntax or range error. *)
Definition ParseUint (s : string) : option Z :=
  match s with
  | EmptyString => None
  | _ => n ← parseDigits 0 s; if n <? 2 ^ 64 then Some n else None
  end.

(** strconv.Atoi on a 64-bit platform: an optional sign, then digits. *)
Definition Atoi (s : string) : option Z :=
  match s with
  | EmptyString => None
  | String c s' =>
      if ceqb c 45 then
        match s' with
        | EmptyString => None
        | _ => n ← parseDigits 0 s'; if n <=? 2 ^ 63 then Some (- n) else None
        end
      else
        let body := if ceqb c 43 then s' else s in
        match body with
        | EmptyString => None
        | _ => n ← parseDigits 0 body; if n <? 2 ^ 63 then Some n else None
        end
  end.

Definition digitChar (d : Z) : Ascii.ascii := Ascii.ascii_of_nat (Z.to_nat (48 + d)).

(** [fmt.Sprintf("%d", n)] for n >= 0; 20 digits are enough for a uint64, and
    the fuel is the number of binary digits, which is never less than the
    number of decimal ones. *)
Fixpoint fmtDigits (fuel : nat) (n : Z) (acc : string) : string :=
  match fuel with
  | O => acc
  | S fuel' =>
      let acc' := String (digitChar (n mod 10)) acc in
      if n <? 10 then acc' else fmtDigits fuel' (n / 10) acc'
  end.
Definition fmtUint (n : Z) : string := fmtDigits (S (Z.to_nat (Z.log2 n))) n "".
Definition fmtInt (n : Z) : string :=
  if n <? 0 then "-" +:+ fmtUint (- n) else fmtUint n.

(** ** strings.ToLower and strings.Fields *)

Definition lowerByte (c : Ascii.ascii) : Ascii.ascii :=
  let n := Ascii.nat_of_ascii c in
  if (Nat.leb 65 n && Nat.leb n 90)%bool then Ascii.ascii_of_nat (n + 32) else c.

(** ASCII letters, and the two other runes whose lower case is ASCII: the
    Kelvin sign (U+212A, to k) and the dotted capital I (U+0130, to i), on valid
    UTF-8 as the Kubernetes API delivers it.  Other
    runes keep their bytes: none of them becomes a digit or a unit letter. *)
Fixpoint ToLower (s : string) : string :=
  match s with
  | String a ((String b ((String c s3) as s2)) as s1) =>
      if ceqb a 226 && ceqb b 132 && ceqb c 170 then String (byte_at 107) (ToLower s3)
      else if ceqb a 196 && ceqb b 176 then String (byte_at 105) (ToLower s2)
      else String (lowerByte a) (ToLower s1)
  | String a ((String b s2) as s1) =>
      if ceqb a 196 && ceqb b 176 then String (byte_at 105) (ToLower s2)
      else String (lowerByte a) (ToLower s1)
  | String a s1 => String (lowerByte a) (ToLower s1)
  | EmptyString => EmptyString
  end.

(** [strings.Fields]: the maximal runs of non-space runes. *)
Fixpoint fieldsGo (fuel : nat) (cur : string) (s : string) : list string :=
  match fuel with
  | O => []
  | S fuel' =>
      match s with
      | EmptyString => match cur with EmptyString => [] | _ => [cur] end
      | String c s' =>
          match spaceRune s with
          | O => fieldsGo fuel' (cur +:+ String c "") s'
          | n => match cur with
                 | EmptyString => fieldsGo fuel' "" (dropBytes n s)
                 | _ => cur :: fieldsGo fuel' "" (dropBytes n s)
                 end
          end
      end
  end.
Definition Fields (s : string) : list string := fieldsGo (S (String.length s)) "" s.

(** [s[len(s)-1]] and [s[:len(s)-1]] *)
Fixpoint lastByte (s : string) : option Ascii.ascii :=
  match s with
  | EmptyString => None
  | String c EmptyString => Some c
  | String _ s' => lastByte s'
  end.
Fixpoint initBytes (s : string) : string :=
  match s with
  | EmptyString => EmptyString
  | String c EmptyString => EmptyString
  | String c s' => String c (initBytes s')
  end.

Definition isDigit (c : Ascii.ascii) : bool :=
  match digitVal c with Some _ => true | None => false end.

(** ** Sizes *)

Inductive SizeUnit := BadUnit | SizeKB | SizeMB | SizeGB.

Definition SizeUnit_String (s : SizeUnit) : string :=
  match s with SizeKB => "k" | SizeMB => "m" | SizeGB => "g" | BadUnit => "" end.

(** NewSizeWithUnit: the normalised size, or [None] for an error. *)
Definition NewSizeWithUnit (sizeStr0 : string) (normalize : bool) : option string :=
  let sizeStr := ToLower (TrimSpace sizeStr0) in
  match lastByte sizeStr with
  | None => Some ""
  | Some lastChar =>
      let '(unit, numStr) :=
        if ceqb lastChar 107 then (SizeKB, initBytes sizeStr)
        else if ceqb lastChar 109 then (SizeMB, initBytes sizeStr)
        else if isDigit lastChar then (SizeMB, sizeStr)
        else (SizeMB, initBytes sizeStr) in
      num ← ParseUint numStr;
      if num <? 1 then None
      else if negb normalize then Some sizeStr
      else Some (fmtUint num +:+ SizeUnit_String unit)
  end.

(** newNumberSizeConfig *)
Definition newNumberSizeConfig (sizeStr0 : string) (normalize : bool) : option string :=
  let sizeStr := ToLower (TrimSpace sizeStr0) in
  if bool_decide (sizeStr = "") then Some ""
  else match Fields sizeStr with
       | [p0; p1] =>
           num ← ParseUint p0;
           sizeStr2 ← NewSizeWithUnit p1 normalize;
           if negb normalize then Some sizeStr
           else Some (fmtUint num +:+ " " +:+ sizeStr2)
       | _ => None
       end.

(** parseSizeToBytes *)
Definition parseSizeToBytes (sizeStr0 : string) : Z :=
  if bool_decide (sizeStr0 = "") then 0
  else
    let sizeStr := ToLower (TrimSpace sizeStr0) in
    match lastByte sizeStr with
    | None => 0
    | Some lastChar =>
        let '(multiplier, numStr) :=
          if ceqb lastChar 107 then (1024, initBytes sizeStr)
          else if ceqb lastChar 109 then (1024 * 1024, initBytes sizeStr)
          else if ceqb lastChar 103 then (1024 * 1024 * 1024, initBytes sizeStr)
          else (1024 * 1024, sizeStr) in
        match ParseUint numStr with
        | Some num => u64_mul num multiplier
        | None => 0
        end
    end.

(** bytesToSizeString *)
Definition bytesToSizeString (bytes : Z) : string :=
  if bytes =? 0 then "0k"
  else if bytes mod (1024 * 1024 * 1024) =? 0 then fmtUint (bytes / (1024 * 1024 * 1024)) +:+ "g"
  else if bytes mod (1024 * 1024) =? 0 then fmtUint (bytes / (1024 * 1024)) +:+ "m"
  else if bytes mod 1024 =? 0 then fmtUint (bytes / 1024) +:+ "k"
  else fmtUint (u64_add bytes 1023 / 1024) +:+ "k".

(** ** Balancing *)

Definition maxNGINXBufferCount : Z := 1024.
Definition minNGINXBufferCount : Z := 2.

(** parseProxyBuffers *)
Definition parseProxyBuffers (proxyBuffers : string) : Z * Z :=
  if bool_decide (proxyBuffers = "") then (8, 4 * 1024)
  else match Fields (TrimSpace proxyBuffers) with
       | [p0; p1] =>
           match ParseUint p0 with
           | Some num => (num, parseSizeToBytes p1)
           | None => (8, 4 * 1024)
           end
       | _ => (8, 4 * 1024)
       end.

(** validateBufferConstraints *)
Definition validateBufferConstraints (bufferNumber : Z) : Z * list string :=
  let '(n1, m1) :=
    if bufferNumber <? minNGINXBufferCount
    then (minNGINXBufferCount,
          ["adjusted proxy_buffers number from " +:+ fmtUint bufferNumber +:+ " to "
             +:+ fmtUint minNGINXBufferCount])
    else (bufferNumber, []) in
  if maxNGINXBufferCount <? n1
  then (maxNGINXBufferCount,
        m1 ++ ["adjusted proxy_buffers number from " +:+ fmtUint n1 +:+ " to "
                 +:+ fmtUint maxNGINXBufferCount])
  else (n1, m1).

(** parseBufferSizes *)
Definition parseBufferSizes (proxyBufferSize proxyBusyBuffers : string) (defaultSize : Z) : Z * Z :=
  (if bool_decide (proxyBufferSize = "") then defaultSize else parseSizeToBytes proxyBufferSize,
   if bool_decide (proxyBusyBuffers = "") then defaultSize else parseSizeToBytes proxyBusyBuffers).

(** applyBufferSizeConstraints *)
Definition applyBufferSizeConstraints
    (proxyBufferSizeBytes proxyBusyBuffersBytes bufferSizeBytes maxAllowedSize : Z)
    : Z * Z * list string :=
  let '(pbs, m1) :=
    if maxAllowedSize <? proxyBufferSizeBytes
    then (maxAllowedSize, ["adjusted proxy_buffer_size because it was too large for proxy_buffers"])
    else (proxyBufferSizeBytes, []) in
  let '(busy, m2) :=
    if maxAllowedSize <? proxyBusyBuffersBytes
    then (maxAllowedSize, m1 ++ ["adjusted proxy_busy_buffers_size because it was too large"])
    else (proxyBusyBuffersBytes, m1) in
  let minBusySize := if bufferSizeBytes <? pbs then pbs else bufferSizeBytes in
  (pbs, if busy <? minBusySize then minBusySize else busy, m2).

(** BalanceProxyValues *)
Definition BalanceProxyValues (proxyBuffers proxyBufferSize proxyBusyBuffers : string)
    (autoadjust : bool) : string * string * string * list string :=
  if negb autoadjust
  then (proxyBuffers, proxyBufferSize, proxyBusyBuffers,
        ["auto adjust is turned off, no changes have been made to the proxy values"])
  else if bool_decide (proxyBuffers = "") && bool_decide (proxyBufferSize = "")
          && bool_decide (proxyBusyBuffers = "")
  then (proxyBuffers, proxyBufferSize, proxyBusyBuffers, [])
  else
    let '(num0, bufferSizeBytes0) := parseProxyBuffers proxyBuffers in
    let '(num1, bufferSizeBytes) :=
      if bool_decide (proxyBuffers = "")
         && (negb (bool_decide (proxyBufferSize = "")) || negb (bool_decide (proxyBusyBuffers = "")))
      then (minNGINXBufferCount, 4 * 1024) else (num0, bufferSizeBytes0) in
    let '(bufferNumber, mods1) := validateBufferConstraints num1 in
    let '(pbs0, busy0) := parseBufferSizes proxyBufferSize proxyBusyBuffers bufferSizeBytes in
    let totalBufferSize := u64_mul bufferSizeBytes bufferNumber in
    let maxAllowedSize := u64_sub totalBufferSize bufferSizeBytes in
    let '(pbs, busy, mods2) := applyBufferSizeConstraints pbs0 busy0 bufferSizeBytes maxAllowedSize in
    (fmtUint bufferNumber +:+ " " +:+ bytesToSizeString bufferSizeBytes,
     bytesToSizeString pbs, bytesToSizeString busy, mods1 ++ mods2).

(** BalanceProxiesForUpstreams: the upstream the pointer is left with. *)
Definition BalanceProxiesForUpstreams (u : Upstream) (autoadjust : bool) : Upstream :=
  match u_ProxyBuffers u with
  | None => u
  | Some buffers =>
      if negb autoadjust then u
      else
        let pb := default "8 4k"
          (newNumberSizeConfig (fmtInt (ub_Number buffers) +:+ " " +:+ ub_Size buffers) autoadjust) in
        let pbs := default "4k" (NewSizeWithUnit (u_ProxyBufferSize u) autoadjust) in
        let pbbs := default "4k" (NewSizeWithUnit (u_ProxyBusyBuffersSize u) autoadjust) in
        let '(balancedPB, balancedPBS, balancedPBBS, _) :=
          BalanceProxyValues pb pbs pbbs autoadjust in
        let buffers' :=
          if bool_decide (balancedPB = "") then buffers
          else match Fields balancedPB with
               | [p0; p1] =>
                   match Atoi p0 with
                   | Some num => {| ub_Number := Z.min num (2 ^ 31 - 1); ub_Size := p1 |}
                   | None => buffers
                   end
               | _ => buffers
               end in
        setProxies u (Some buffers') balancedPBS balancedPBBS
  end.
