(* ===== verification/Tokenizer.v ===== *)
(** nginxconf (internal/nginxconf/tokenizer.go): the tokenizer that reads NGINX
    configuration the way ngx_conf_read_token does, and the shape of a
    configuration.  Errors are values; [None] of Shape is an index out of range. *)
From S2P Require Import Prelude GoStrings.

Record Statement := { st_depth : Z; st_words : list string }.

Definition Statement_String (s : Statement) : string :=
  pretty (st_depth s) +:+ ":" +:+ Join " " (st_words s).

Inductive tokenError :=
  | UnexpectedChar (c : Ascii.ascii)
  | UnexpectedSemicolon | UnexpectedOpen | UnexpectedClose
  | EndExpectingSemicolon | EndExpectingClose.

(** ** Bytes *)

Definition chSpace : Ascii.ascii := byte_at 32.
Definition chTab : Ascii.ascii := byte_at 9.
Definition chCR : Ascii.ascii := byte_at 13.
Definition chLF : Ascii.ascii := byte_at 10.
Definition chSemi : Ascii.ascii := byte_at 59.
Definition chOpen : Ascii.ascii := byte_at 123.
Definition chClose : Ascii.ascii := byte_at 125.
Definition chHash : Ascii.ascii := byte_at 35.
Definition chBackslash : Ascii.ascii := byte_at 92.
Definition chQuote : Ascii.ascii := byte_at 34.
Definition chApos : Ascii.ascii := byte_at 39.
Definition chDollar : Ascii.ascii := byte_at 36.
Definition chParen : Ascii.ascii := byte_at 41.

Infix "=c" := Ascii.eqb (at level 70, no associativity).

Definition isSpace (c : Ascii.ascii) : bool := (c =c chSpace) || (c =c chTab) || (c =c chCR) || (c =c chLF).

(** ** The tokenizer *)

(** [tk_quote] is [None] for the zero byte. *)
Record confTokenizer := {
  tk_statements : list Statement;
  tk_words : list string;
  tk_token : string;
  tk_depth : Z;
  tk_inToken : bool;
  tk_quote : option Ascii.ascii;
  tk_escaped : bool;
  tk_needSpace : bool;
  tk_comment : bool;
  tk_variable : bool
}.

Definition newTokenizer : confTokenizer :=
  {| tk_statements := []; tk_words := []; tk_token := ""; tk_depth := 0; tk_inToken := false;
     tk_quote := None; tk_escaped := false; tk_needSpace := false; tk_comment := false; tk_variable := false |}.

Definition set_flags (z : confTokenizer) (inToken : bool) (quote : option Ascii.ascii)
    (escaped needSpace comment variable : bool) : confTokenizer :=
  {| tk_statements := tk_statements z; tk_words := tk_words z; tk_token := tk_token z; tk_depth := tk_depth z;
     tk_inToken := inToken; tk_quote := quote; tk_escaped := escaped; tk_needSpace := needSpace;
     tk_comment := comment; tk_variable := variable |}.
Definition set_inToken z b := set_flags z b (tk_quote z) (tk_escaped z) (tk_needSpace z) (tk_comment z) (tk_variable z).
Definition set_quote z q := set_flags z (tk_inToken z) q (tk_escaped z) (tk_needSpace z) (tk_comment z) (tk_variable z).
Definition set_escaped z b := set_flags z (tk_inToken z) (tk_quote z) b (tk_needSpace z) (tk_comment z) (tk_variable z).
Definition set_needSpace z b := set_flags z (tk_inToken z) (tk_quote z) (tk_escaped z) b (tk_comment z) (tk_variable z).
Definition set_comment z b := set_flags z (tk_inToken z) (tk_quote z) (tk_escaped z) (tk_needSpace z) b (tk_variable z).
Definition set_variable z b := set_flags z (tk_inToken z) (tk_quote z) (tk_escaped z) (tk_needSpace z) (tk_comment z) b.

Definition set_text (z : confTokenizer) (statements : list Statement) (words : list string) (token : string)
    (depth : Z) : confTokenizer :=
  {| tk_statements := statements; tk_words := words; tk_token := token; tk_depth := depth;
     tk_inToken := tk_inToken z; tk_quote := tk_quote z; tk_escaped := tk_escaped z;
     tk_needSpace := tk_needSpace z; tk_comment := tk_comment z; tk_variable := tk_variable z |}.

(** z.token.WriteByte *)
Definition writeByte (z : confTokenizer) (c : Ascii.ascii) : confTokenizer :=
  set_text z (tk_statements z) (tk_words z) (tk_token z +:+ String c "") (tk_depth z).

Definition write (z : confTokenizer) (c : Ascii.ascii) : confTokenizer := set_inToken (writeByte z c) true.

Definition writeEscaped (z : confTokenizer) (c : Ascii.ascii) : confTokenizer :=
  if (c =c chQuote) || (c =c chApos) || (c =c chBackslash) then write z c
  else if c =c byte_at 116 then write z chTab
  else if c =c byte_at 114 then write z chCR
  else if c =c byte_at 110 then write z chLF
  else write (write z chBackslash) c.

Definition flushToken (z : confTokenizer) : confTokenizer :=
  if tk_inToken z
  then set_inToken (set_text z (tk_statements z) (tk_words z ++ [tk_token z]) "" (tk_depth z)) false
  else z.

Definition flushStatement (z : confTokenizer) : tokenError + confTokenizer :=
  let z := flushToken z in
  match tk_words z with
  | [] => inl UnexpectedSemicolon
  | words => inr (set_text z (tk_statements z ++ [{| st_depth := tk_depth z; st_words := words |}])
                    [] (tk_token z) (tk_depth z))
  end.

Definition openBlock (z : confTokenizer) : tokenError + confTokenizer :=
  let z := flushToken z in
  match tk_words z with
  | [] => inl UnexpectedOpen
  | words => inr (set_text z (tk_statements z ++ [{| st_depth := tk_depth z; st_words := words ++ ["{"] |}])
                    [] (tk_token z) (tk_depth z + 1))
  end.

Definition closeBlock (z : confTokenizer) : tokenError + confTokenizer :=
  let z := flushToken z in
  match tk_words z with
  | _ :: _ => inl UnexpectedClose
  | [] =>
      let depth := (tk_depth z - 1)%Z in
      if (depth <? 0)%Z then inl UnexpectedClose
      else inr (set_text z (tk_statements z ++ [{| st_depth := depth; st_words := ["}"] |}]) [] (tk_token z) depth)
  end.

Definition inQuote (z : confTokenizer) (q c : Ascii.ascii) : confTokenizer :=
  if c =c chBackslash then set_escaped z true
  else if c =c q then set_needSpace (set_quote z None) true
  else writeByte z c.

Definition afterQuote (z : confTokenizer) (c : Ascii.ascii) : tokenError + confTokenizer :=
  let z := set_needSpace z false in
  if isSpace c then inr (flushToken z)
  else if c =c chSemi then flushStatement z
  else if c =c chOpen then openBlock z
  else if c =c chParen then inr (write (flushToken z) c)
  else inl (UnexpectedChar c).

Definition classifyOutsideQuote (z : confTokenizer) (c : Ascii.ascii) : tokenError + confTokenizer :=
  if isSpace c then inr (flushToken z)
  else if c =c chSemi then flushStatement z
  else if c =c chOpen then openBlock z
  else if (c =c chClose) && tk_inToken z then inr (write z c)
  else if c =c chClose then closeBlock z
  else if (c =c chHash) && negb (tk_inToken z) then inr (set_comment z true)
  else if c =c chBackslash then inr (set_inToken (set_escaped z true) true)
  else if ((c =c chQuote) || (c =c chApos)) && negb (tk_inToken z)
       then inr (set_inToken (set_quote z (Some c)) true)
  else if c =c chDollar then inr (write (set_variable z true) c)
  else inr (write z c).

Definition outsideQuote (z : confTokenizer) (c : Ascii.ascii) : tokenError + confTokenizer :=
  if (c =c chOpen) && tk_variable z then inr (write z c)
  else classifyOutsideQuote (set_variable z false) c.

Definition next (z : confTokenizer) (c : Ascii.ascii) : tokenError + confTokenizer :=
  if tk_comment z then inr (if c =c chLF then set_comment z false else z)
  else if tk_escaped z then inr (writeEscaped (set_escaped z false) c)
  else match tk_quote z with
       | Some q => inr (inQuote z q c)
       | None => if tk_needSpace z then afterQuote z c else outsideQuote z c
       end.

Definition atEnd (z : confTokenizer) : tokenError + list Statement :=
  if bool_decide (tk_quote z ≠ None) || tk_escaped z || tk_inToken z || bool_decide (tk_words z ≠ [])
  then inl EndExpectingSemicolon
  else if negb (tk_depth z =? 0)%Z then inl EndExpectingClose
  else inr (tk_statements z).

(** The loop over the bytes *)
Fixpoint feed (z : confTokenizer) (conf : string) : tokenError + confTokenizer :=
  match conf with
  | EmptyString => inr z
  | String c rest => match next z c with
                     | inl err => inl err
                     | inr z' => feed z' rest
                     end
  end.

Definition Tokenize (conf : string) : tokenError + list Statement :=
  match feed newTokenizer conf with
  | inl err => inl err
  | inr z => atEnd z
  end.

(** ** Shape *)

Definition dataBlocks : list string := ["map"; "geo"; "split_clients"; "types"; "charset_map"].

(** One statement: the new shape and the depths at which a data block is open *)
Definition shapeStep (st : list string * gset Z) (s : Statement) : option (list string * gset Z) :=
  let '(shape, inDataBlock) := st in
  name ← head (st_words s);
  lastWord ← last (st_words s);
  let line n := pretty (st_depth s) +:+ ":" +:+ n in
  if bool_decide (name = "}") then
    Some (shape ++ [line "}"], inDataBlock ∖ {[ (st_depth s + 1)%Z ]})
  else if bool_decide (st_depth s ∈ inDataBlock) then Some (shape ++ [line "<entry>"], inDataBlock)
  else if bool_decide (lastWord = "{") && bool_decide (name ∈ dataBlocks) then
    Some (shape ++ [line name], {[ (st_depth s + 1)%Z ]} ∪ inDataBlock)
  else Some (shape ++ [line name], inDataBlock).

Definition Shape (conf : string) : option (tokenError + list string) :=
  match Tokenize conf with
  | inl err => Some (inl err)
  | inr statements => '(shape, _) ← foldM shapeStep ([], ∅) statements; Some (inr shape)
  end.
