(* ===== verification/Directives.v ===== *)
(** The validators of values that are rendered into NGINX configuration
    (internal/validation/nginx.go): directive values, single tokens, the
    contents of quoted arguments, and the text NGINX stores for a token.
    An error is its text, [None] the nil error. *)
From S2P Require Import Prelude GoStrings Regex ProxyBuffers.

(** Runes *)
Definition rTab : Z := 9.
Definition rLF : Z := 10.
Definition rCR : Z := 13.
Definition rSpace : Z := 32.
Definition rQuote : Z := 34.
Definition rHash : Z := 35.
Definition rApos : Z := 39.
Definition rSemi : Z := 59.
Definition rBackslash : Z := 92.
Definition rBacktick : Z := 96.
Definition rOpen : Z := 123.
Definition rClose : Z := 125.

(** [strings.ContainsAny(s, chars)] for ASCII characters *)
Fixpoint ContainsAny (s : string) (chars : list nat) : bool :=
  match s with
  | EmptyString => false
  | String c s' => existsb (ceqb c) chars || ContainsAny s' chars
  end.

(** ** Braced variables *)

Definition isNginxVariableStart (c : Ascii.ascii) : bool :=
  ceqb c 95 || inRanges upperRanges c || inRanges lowerRanges c.
Definition isNginxVariableChar (c : Ascii.ascii) : bool :=
  isNginxVariableStart c || inRanges digitRanges c.

(** The backslashes a string starts with; the text before a position is given
    reversed. *)
Fixpoint backslashes (s : string) : nat :=
  match s with
  | String c s' => if ceqb c 92 then S (backslashes s') else 0
  | EmptyString => 0
  end.
Definition isEscaped (before : string) : bool := Nat.odd (backslashes before).

Fixpoint dropWhileBytes (P : Ascii.ascii → bool) (s : string) : string :=
  match s with
  | String c s' => if P c then dropWhileBytes P s' else s
  | EmptyString => ""
  end.

(** bracedNginxVariableEnd: what follows the braced variable that starts here *)
Definition bracedNginxVariableEnd (before rest : string) : option string :=
  match rest with
  | String d (String b (String c rest')) =>
      if ceqb d 36 && ceqb b 123 && negb (isEscaped before) && isNginxVariableStart c then
        match dropWhileBytes isNginxVariableChar rest' with
        | String e after => if ceqb e 125 then Some after else None
        | EmptyString => None
        end
      else None
  | _ => None
  end.

(** The bytes of [s] that precede its suffix [t], in front of [before] reversed *)
Fixpoint advance (n : nat) (s before : string) : string :=
  match n, s with
  | S n', String c s' => advance n' s' (String c before)
  | _, _ => before
  end.

(** maskBracedNginxVariables; each round consumes at least one byte *)
Fixpoint maskFuel (fuel : nat) (before rest : string) : string :=
  match fuel with
  | 0 => ""
  | S fuel' =>
      match rest with
      | EmptyString => ""
      | String c rest' =>
          match bracedNginxVariableEnd before rest with
          | Some after =>
              "$variable" +:+
              maskFuel fuel' (advance (String.length rest - String.length after) rest before) after
          | None => String c (maskFuel fuel' (String c before) rest')
          end
      end
  end.
Definition maskBracedNginxVariables (value : string) : string :=
  maskFuel (String.length value) "" value.

(** ** The scanner of directive values *)
Record directiveScanner := {
  ds_quote : option Z;
  ds_escaped : bool;
  ds_tokenBoundary : bool;
  ds_needSpace : bool
}.

Definition errDirectiveDelimiter : string := "must not contain NGINX directive delimiters".
Definition isNginxSpace (char : Z) : bool :=
  (char =? rSpace)%Z || (char =? rTab)%Z || (char =? rCR)%Z || (char =? rLF)%Z.

Definition insideQuote (s : directiveScanner) (q char : Z) : directiveScanner :=
  if (char =? rBackslash)%Z
  then {| ds_quote := ds_quote s; ds_escaped := true; ds_tokenBoundary := ds_tokenBoundary s;
          ds_needSpace := ds_needSpace s |}
  else if (char =? q)%Z
  then {| ds_quote := None; ds_escaped := ds_escaped s; ds_tokenBoundary := ds_tokenBoundary s;
          ds_needSpace := true |}
  else s.

Definition set_boundary (s : directiveScanner) (b : bool) : directiveScanner :=
  {| ds_quote := ds_quote s; ds_escaped := ds_escaped s; ds_tokenBoundary := b;
     ds_needSpace := ds_needSpace s |}.

Definition outsideQuote (s : directiveScanner) (char : Z) : string + directiveScanner :=
  if ds_needSpace s then
    if negb (isNginxSpace char) then inl "quoted NGINX argument must be followed by whitespace"
    else inr {| ds_quote := ds_quote s; ds_escaped := ds_escaped s; ds_tokenBoundary := true;
                ds_needSpace := false |}
  else if isNginxSpace char then inr (set_boundary s true)
  else if (char =? rBackslash)%Z then
    inr {| ds_quote := ds_quote s; ds_escaped := true; ds_tokenBoundary := false;
           ds_needSpace := ds_needSpace s |}
  else if (char =? rApos)%Z || (char =? rQuote)%Z then
    inr {| ds_quote := if ds_tokenBoundary s then Some char else ds_quote s;
           ds_escaped := ds_escaped s; ds_tokenBoundary := false; ds_needSpace := ds_needSpace s |}
  else if (char =? rHash)%Z || (char =? rSemi)%Z || (char =? rOpen)%Z || (char =? rClose)%Z then
    inl errDirectiveDelimiter
  else inr (set_boundary s false).

(** directiveScanner.next *)
Definition scan (s : directiveScanner) (char : Z) : string + directiveScanner :=
  if (char =? rCR)%Z || (char =? rLF)%Z || (char =? rBacktick)%Z then inl errDirectiveDelimiter
  else if ds_escaped s then
    inr {| ds_quote := ds_quote s; ds_escaped := false; ds_tokenBoundary := false;
           ds_needSpace := ds_needSpace s |}
  else match ds_quote s with
       | Some q => inr (insideQuote s q char)
       | None => outsideQuote s char
       end.

Fixpoint scanAll (s : directiveScanner) (chars : list Z) : string + directiveScanner :=
  match chars with
  | [] => inr s
  | char :: rest => match scan s char with
                    | inl err => inl err
                    | inr s' => scanAll s' rest
                    end
  end.

(** directiveScanner.atEnd *)
Definition scanEnd (s : directiveScanner) : option string :=
  if ds_escaped s || bool_decide (ds_quote s ≠ None)
  then Some "must contain balanced quotes and escapes" else None.

Definition startScanner : directiveScanner :=
  {| ds_quote := None; ds_escaped := false; ds_tokenBoundary := true; ds_needSpace := false |}.

Definition ValidateDirectiveValue (value : string) : option string :=
  if bool_decide (TrimSpace value = "") then Some "must not be empty"
  else match scanAll startScanner (runesOf (maskBracedNginxVariables value)) with
       | inl err => Some err
       | inr s => scanEnd s
       end.

(** ** Other contracts *)

(** The common loop of ValidateSingleQuotedDirectiveValue and
    ValidateQuotedDirectiveValue for the quote [q] *)
Fixpoint quotedValue (q : Z) (msg : string) (escaped : bool) (chars : list Z) : option string :=
  match chars with
  | [] => if escaped then Some "must not end with an unescaped backslash" else None
  | char :: rest =>
      if (char =? rCR)%Z || (char =? rLF)%Z then Some "must not contain line breaks"
      else if escaped then quotedValue q msg false rest
      else if (char =? rBackslash)%Z then quotedValue q msg true rest
      else if (char =? q)%Z then Some msg
      else quotedValue q msg false rest
  end.

Definition ValidateSingleQuotedDirectiveValue (value : string) : option string :=
  quotedValue rApos "single quotes must be escaped" false (runesOf value).
Definition ValidateQuotedDirectiveValue (value : string) : option string :=
  quotedValue rQuote "double quotes must be escaped" false (runesOf value).

Definition ValidateDirectiveToken (value : string) : option string :=
  if bool_decide (value = "") then Some "must not be empty"
  else match ValidateDirectiveValue value with
       | Some err => Some err
       | None => if ContainsAny value [35; 92; 32; 9]
                 then Some "must be a single NGINX token" else None
       end.

(** utf8.ValidString: no byte decodes to an error of length 1 *)
Fixpoint validUTF8Fuel (fuel : nat) (s : string) : bool :=
  match fuel with
  | 0 => true
  | S fuel' =>
      match decodeRune s with
      | None => true
      | Some (r, n) => negb ((r =? RuneError)%Z && Nat.eqb n 1) && validUTF8Fuel fuel' (dropBytes n s)
      end
  end.
Definition ValidString (s : string) : bool := validUTF8Fuel (String.length s) s.

Definition ValidateRawQuotedDirectiveValue `{UnicodeTables} (value : string) : option string :=
  if negb (ValidString value) then Some "must be valid UTF-8"
  else if negb (allPrintable value) then Some "must not contain non-printable characters"
  else None.

Definition validTLSProtocols : list string :=
  ["sslv2"; "sslv3"; "tlsv1"; "tlsv1.1"; "tlsv1.2"; "tlsv1.3"].

(** strings.FieldsFunc(value, isNginxSpace): the non-empty pieces between
    spaces, which are ASCII *)
Fixpoint splitSpaces (s : string) : list string :=
  match s with
  | EmptyString => [""]
  | String c s' =>
      if isNginxSpace (byteVal c) then "" :: splitSpaces s'
      else match splitSpaces s' with
           | [] => [String c ""]
           | w :: ws => String c w :: ws
           end
  end.
Definition nginxFields (s : string) : list string := filter (λ w, w ≠ "") (splitSpaces s).

Definition ValidateTLSProtocols (value : string) : option string :=
  match nginxFields value with
  | [] => Some "must contain at least one TLS protocol"
  | protocols =>
      match list_find (λ p, ToLower p ∉ validTLSProtocols) protocols with
      | Some (_, p) => Some ("unsupported TLS protocol " +:+ p)
      | None => None
      end
  end.

(** ** UnescapeNGINXToken *)

(** strings.Builder.WriteRune *)
Definition byteOf (z : Z) : Ascii.ascii := Ascii.ascii_of_nat (Z.to_nat z).
Definition encodeRune (r : Z) : string :=
  if (r <? 128)%Z then String (byteOf r) ""
  else if (r <? 2048)%Z then
    String (byteOf (192 + r / 64)) (String (byteOf (128 + r mod 64)) "")
  else if (r <? 65536)%Z then
    String (byteOf (224 + r / 4096))
      (String (byteOf (128 + (r / 64) mod 64)) (String (byteOf (128 + r mod 64)) ""))
  else
    String (byteOf (240 + r / 262144)) (String (byteOf (128 + (r / 4096) mod 64))
      (String (byteOf (128 + (r / 64) mod 64)) (String (byteOf (128 + r mod 64)) ""))).

Definition unescaped (next : Z) : string :=
  if (next =? rQuote)%Z || (next =? rApos)%Z || (next =? rBackslash)%Z then encodeRune next
  else if (next =? 116)%Z then encodeRune rTab
  else if (next =? 114)%Z then encodeRune rCR
  else if (next =? 110)%Z then encodeRune rLF
  else encodeRune rBackslash +:+ encodeRune next.

Fixpoint unescapeRunes (runes : list Z) : string :=
  match runes with
  | [] => ""
  | r :: rest =>
      if negb (r =? rBackslash)%Z then encodeRune r +:+ unescapeRunes rest
      else match rest with
           | [] => encodeRune r
           | next :: rest' => unescaped next +:+ unescapeRunes rest'
           end
  end.
Definition UnescapeNGINXToken (value : string) : string := unescapeRunes (runesOf value).
