(* ===== verification/ValidationLib.v ===== *)
(** The functions of k8s.io/apimachinery and of third-party packages that the
    validators of the controller call, with the documented behaviour the
    theorems use.  A validator of k8s.io returns the messages of what is wrong
    with a value, none for a valid one. *)
From S2P Require Import Prelude GoStrings Regex.

(** field.Error, field.ErrorList and field.Path of k8s.io/apimachinery, as the
    validators of the controller use them: an error list is a list, a path its
    text. *)

Inductive ErrorType := ErrRequired | ErrDuplicate | ErrForbidden | ErrInvalid | ErrTooMany | ErrNotFound
  | ErrNotSupported.

Record FieldError := {
  fe_Type : ErrorType;
  fe_Field : string;
  fe_BadValue : string;
  fe_Detail : string
}.

Definition Child (p name : string) : string := p +:+ "." +:+ name.
Definition Index (p : string) (i : nat) : string := p +:+ "[" +:+ pretty i +:+ "]".

Definition Required (p detail : string) : FieldError :=
  {| fe_Type := ErrRequired; fe_Field := p; fe_BadValue := ""; fe_Detail := detail |}.
Definition Duplicate (p value : string) : FieldError :=
  {| fe_Type := ErrDuplicate; fe_Field := p; fe_BadValue := value; fe_Detail := "" |}.
Definition Forbidden (p detail : string) : FieldError :=
  {| fe_Type := ErrForbidden; fe_Field := p; fe_BadValue := ""; fe_Detail := detail |}.
Definition Invalid (p value detail : string) : FieldError :=
  {| fe_Type := ErrInvalid; fe_Field := p; fe_BadValue := value; fe_Detail := detail |}.
Definition TooMany (p : string) (actual max : nat) : FieldError :=
  {| fe_Type := ErrTooMany; fe_Field := p; fe_BadValue := pretty actual; fe_Detail := pretty max |}.
Definition NotFound (p value : string) : FieldError :=
  {| fe_Type := ErrNotFound; fe_Field := p; fe_BadValue := value; fe_Detail := "" |}.
(** The supported values are listed without quotes. *)
Definition NotSupported (p value : string) (validValues : list string) : FieldError :=
  {| fe_Type := ErrNotSupported; fe_Field := p; fe_BadValue := value;
     fe_Detail := "supported values: " +:+ Join ", " validValues |}.
(** Path.Key *)
Definition Key (p key : string) : string := p +:+ "[" +:+ key +:+ "]".

Class ValidationLib := {
  VL_unicode :: UnicodeTables;
  (** RegexError, InclusiveRangeError and the text of an error list *)
  RegexError : string → string → list string → string;
  InclusiveRangeError : Z → Z → string;
  ToAggregate_Error : list FieldError → string;
  (** the error of compiling a regular expression: regexp2 (Perl syntax) and
      package regexp *)
  regexp2_Compile : string → option string;
  regexp_Compile : string → option string;
  (** names *)
  IsDNS1035Label : string → list string;
  IsDNS1123Label : string → list string;
  IsDNS1123Subdomain : string → list string;
  IsWildcardDNS1123Subdomain : string → list string;
  IsQualifiedName : string → list string;
  IsValidLabelValue : string → list string;
  IsHTTPHeaderName : string → list string;
  (** numbers *)
  IsValidPortNum : Z → list string;
  IsInRange : Z → Z → Z → list string;
  (** what ParseIPSloppy makes of a text: [Some true] for an address that To4
      accepts, [Some false] for another one, [None] for nil *)
  ParseIPSloppy : string → option bool
}.

(** field.ErrorList.ToAggregate: the nil error for no errors *)
Definition ToAggregate `{ValidationLib} (errs : list FieldError) : option string :=
  match errs with [] => None | _ => Some (ToAggregate_Error errs) end.

(** ** The grammars of the documentation *)
Definition dns1035Label : regex :=
  RCat (RIn lowerRanges)
       (ROpt (RCat (RStar (RIn (one 45 :: digitRanges ++ lowerRanges)))
                   (RIn (digitRanges ++ lowerRanges)))).
Definition dns1123Label : regex :=
  RCat (RIn (digitRanges ++ lowerRanges))
       (ROpt (RCat (RStar (RIn (one 45 :: digitRanges ++ lowerRanges)))
                   (RIn (digitRanges ++ lowerRanges)))).
Definition dns1123Subdomain : regex :=
  RCat dns1123Label (RStar (RCat (RChar 46) dns1123Label)).
Definition wildcardDNS1123Subdomain : regex := RCat (RLit "*.") dns1123Subdomain.
Definition qualifiedNamePart : regex :=
  RCat (ROpt (RCat (RIn alnumRanges) (RStar (RIn ([one 45; one 95; one 46] ++ alnumRanges)))))
       (RIn alnumRanges).
Definition qualifiedName : regex := RCat (ROpt (RCat dns1123Subdomain (RChar 47))) qualifiedNamePart.
Definition labelValue : regex := ROpt qualifiedNamePart.
Definition httpHeaderName : regex := RPlus (RIn (one 45 :: alnumRanges)).

(** A valid value matches the documented expression; port numbers and ranges
    are decided exactly. *)
Class ValidationLaws `{ValidationLib} := {
  IsDNS1035Label_sound s : IsDNS1035Label s = [] → Matches dns1035Label s;
  IsDNS1123Label_sound s : IsDNS1123Label s = [] → Matches dns1123Label s;
  IsDNS1123Subdomain_sound s : IsDNS1123Subdomain s = [] → Matches dns1123Subdomain s;
  IsWildcardDNS1123Subdomain_sound s :
    IsWildcardDNS1123Subdomain s = [] → Matches wildcardDNS1123Subdomain s;
  IsQualifiedName_sound s : IsQualifiedName s = [] → Matches qualifiedName s;
  IsValidLabelValue_sound s : IsValidLabelValue s = [] → Matches labelValue s;
  IsHTTPHeaderName_sound s : IsHTTPHeaderName s = [] → Matches httpHeaderName s;
  IsValidPortNum_range p : IsValidPortNum p = [] ↔ (1 <= p <= 65535)%Z;
  IsInRange_range v lo hi : IsInRange v lo hi = [] ↔ (lo <= v <= hi)%Z
}.

(** ** An instance: the grammars as validators *)
Definition byGrammar (r : regex) (msg s : string) : list string :=
  if MatchString r s then [] else [msg].
Definition inRangeMsgs (v lo hi : Z) : list string :=
  if between lo hi v then [] else ["must be in the range"].

Lemma byGrammar_sound r msg s : byGrammar r msg s = [] → Matches r s.
Proof. unfold byGrammar. destruct (MatchString r s) eqn:Hm; [|done]. intros _. by apply MatchString_spec. Qed.
Lemma inRangeMsgs_spec v lo hi : inRangeMsgs v lo hi = [] ↔ (lo <= v <= hi)%Z.
Proof.
  unfold inRangeMsgs, between.
  destruct (Z.leb_spec lo v), (Z.leb_spec v hi); cbn; split; intros; done || lia.
Qed.

Definition sampleLib : ValidationLib :=
  {| VL_unicode := {| printTable := λ _, true |};
     RegexError := λ msg _ _, msg;
     InclusiveRangeError := λ _ _, "must be in the range";
     ToAggregate_Error := λ errs, default "" (fe_Detail <$> head errs);
     regexp2_Compile := λ _, None;
     regexp_Compile := λ _, None;
     IsDNS1035Label := byGrammar dns1035Label "not a DNS-1035 label";
     IsDNS1123Label := byGrammar dns1123Label "not a DNS-1123 label";
     IsDNS1123Subdomain := byGrammar dns1123Subdomain "not a DNS-1123 subdomain";
     IsWildcardDNS1123Subdomain := byGrammar wildcardDNS1123Subdomain "not a wildcard subdomain";
     IsQualifiedName := byGrammar qualifiedName "not a qualified name";
     IsValidLabelValue := byGrammar labelValue "not a label value";
     IsHTTPHeaderName := byGrammar httpHeaderName "not a header name";
     IsValidPortNum := λ p, inRangeMsgs p 1 65535;
     IsInRange := inRangeMsgs;
     ParseIPSloppy := λ ip, if containsByte (byte_at 58) ip then Some false
                            else if containsByte (byte_at 46) ip then Some true else None |}.

Lemma sampleLib_laws : @ValidationLaws sampleLib.
Proof.
  split; intros *; try apply byGrammar_sound; apply inRangeMsgs_spec.
Qed.
