(* ===== verification/ParsingHelpers.v ===== *)
(** internal/configs/parsing_helpers.go with internal/validation/headers.go and
    ssl.go: the parsers of annotation, ConfigMap and custom-resource values.
    [inl] is an error with its text, in which quoted values (%q) are left as
    they are. *)
From S2P Require Import Prelude GoStrings Regex Objects ProxyBuffers Directives ValidationLib.

(** ** Strings *)

(** [strings.Contains] *)
Fixpoint Contains (s sub : string) : bool :=
  HasPrefix s sub || match s with EmptyString => false | String _ s' => Contains s' sub end.

(** [strings.TrimPrefix] *)
Definition TrimPrefix (s p : string) : string :=
  if HasPrefix s p then dropBytes (String.length p) s else s.

(** [strings.SplitN(s, sep, n)] for a one-byte separator and n > 0 *)
Fixpoint cutAt (sep : Ascii.ascii) (s : string) : option (string * string) :=
  match s with
  | EmptyString => None
  | String c s' => if Ascii.eqb c sep then Some ("", s')
                   else '(a, b) ← cutAt sep s'; Some (String c a, b)
  end.
Fixpoint SplitN (sep : Ascii.ascii) (s : string) (n : nat) : list string :=
  match n with
  | 0 => []
  | S n' => match n', cutAt sep s with
            | S _, Some (a, b) => a :: SplitN sep b n'
            | _, _ => [s]
            end
  end.

(** ** Load balancing methods *)

Definition nginxLBValidInput : list string :=
  ["least_conn"; "ip_hash"; "random"; "random two"; "random two least_conn"].
Definition nginxPlusLBValidInput : list string :=
  ["least_conn"; "ip_hash"; "random"; "random two"; "random two least_conn";
   "random two least_time=header"; "random two least_time=last_byte"; "least_time header";
   "least_time last_byte"; "least_time header inflight"; "least_time last_byte inflight"].

Definition invalidLB (method : string) : string := "invalid load balancing method: " +:+ method.

Definition validateHashLBMethod (method : string) : string + string :=
  match ValidateDirectiveValue method with
  | Some err => inl (invalidLB method +:+ ": " +:+ err)
  | None =>
      if Contains method (String (byte_at 9) "") then inl (invalidLB method)
      else match Split (byte_at 32) method with
           | k0 :: kws =>
               if bool_decide (k0 = "hash") &&
                  match kws with
                  | [_] => true
                  | [_; k2] => bool_decide (k2 = "consistent")
                  | _ => false
                  end
               then inr method else inl (invalidLB method)
           | [] => inl (invalidLB method)
           end
  end.

(** The common body of ParseLBMethod and ParseLBMethodForPlus *)
Definition parseLB (validInput : list string) (method0 : string) : string + string :=
  let method := TrimSpace method0 in
  if bool_decide (method = "round_robin") then inr ""
  else if HasPrefix method "hash" then validateHashLBMethod method
  else if bool_decide (method ∈ validInput) then inr method
  else inl (invalidLB method).
Definition ParseLBMethod : string → string + string := parseLB nginxLBValidInput.
Definition ParseLBMethodForPlus : string → string + string := parseLB nginxPlusLBValidInput.

(** ** Booleans, integers *)

(** strconv.ParseBool *)
Definition ParseBool (s : string) : option bool :=
  if bool_decide (s ∈ ["1"; "t"; "T"; "true"; "TRUE"; "True"]) then Some true
  else if bool_decide (s ∈ ["0"; "f"; "F"; "false"; "FALSE"; "False"]) then Some false
  else None.

Definition ParseAddHeaderInherit (value0 : string) : string + string :=
  let value := ToLower (TrimSpace value0) in
  if bool_decide (value ∈ ["on"; "off"; "merge"]) then inr value
  else inl "must be one of: 'on', 'off' or 'merge'".

Definition ParseInt (s : string) : option Z := Atoi s.
Definition ParseInt64 (s : string) : option Z := Atoi s.
Definition ParseUint64 (s : string) : option Z := ParseUint s.

(** GetMapKeyAsBool, GetMapKeyAsInt, GetMapKeyAsInt64 and GetMapKeyAsUint64: the
    value, whether the key exists, and the error; [context] is the text that
    names the object *)
Definition getMapKey {A} (parse : string → option A) (zero : A) (what : string)
    (m : gmap string string) (key context : string) : A * bool * option string :=
  match m !! key with
  | None => (zero, false, None)
  | Some str =>
      match parse str with
      | Some v => (v, true, None)
      | None => (zero, true, Some (context +:+ " '" +:+ key +:+ "' contains invalid " +:+ what +:+ ", ignoring"))
      end
  end.
Definition GetMapKeyAsBool := getMapKey ParseBool false "bool".
Definition GetMapKeyAsInt := getMapKey ParseInt 0%Z "integer".
Definition GetMapKeyAsInt64 := getMapKey ParseInt64 0%Z "integer".
Definition GetMapKeyAsUint64 (m : gmap string string) (key context : string) (nonZero : bool)
    : Z * bool * option string :=
  let '(i, exists_, err) := getMapKey ParseUint64 0%Z "uint64" m key context in
  if exists_ && bool_decide (err = None) && nonZero && (i =? 0)%Z
  then (0%Z, true, Some (context +:+ " '" +:+ key +:+ "' must be greater than 0, ignoring"))
  else (i, exists_, err).
Definition GetMapKeyAsStringSlice (m : gmap string string) (key : string) (delimiter : Ascii.ascii)
    : list string * bool :=
  match m !! key with
  | Some str => (Split delimiter str, true)
  | None => ([], false)
  end.

(** ** Times, sizes, rates *)

Definition digits : regex := RPlus (RIn digitRanges).
Definition spaces : regex := RStar (RIn spaceRanges).
Definition timeUnit (unit : nat) : regex := RLazyOpt (RGroup (RCat digits (RChar unit))).

(** timeRegexp *)
Definition timeRegexp : regex :=
  RCats [timeUnit 121; spaces; timeUnit 77; spaces; timeUnit 119; spaces; timeUnit 100; spaces;
         timeUnit 104; spaces; timeUnit 109; spaces;
         RLazyOpt (RGroup (RCat digits (ROpt (RChar 115)))); spaces;
         RLazyOpt (RGroup (RCat digits (RLit "ms")))].

Definition ParseTime (s : string) : string + string :=
  let invalid := inl "invalid time string" in
  if bool_decide (s = "") || bool_decide (TrimSpace s = "") then invalid
  else match FindStringSubmatch timeRegexp s with
       | Some [years; months; weeks; days; hours; mins; secs; millis] =>
           let secs := if negb (bool_decide (secs = "")) && negb (HasSuffix secs "s")
                       then secs +:+ "s" else secs in
           inr (years +:+ months +:+ weeks +:+ days +:+ hours +:+ mins +:+ secs +:+ millis)
       | _ => invalid
       end.

Definition offsetRegexp : regex :=
  RCat digits (ROpt (RIn [one 107; one 75; one 109; one 77; one 103; one 71])).
Definition ParseOffset (s : string) : string + string :=
  if MatchString offsetRegexp (TrimSpace s) then inr (TrimSpace s) else inl "invalid offset string".

Definition sizeRegexp : regex := RCat digits (ROpt (RIn [one 107; one 75; one 109; one 77])).
Definition ParseSize (s : string) : string + string :=
  if MatchString sizeRegexp (TrimSpace s) then inr (TrimSpace s) else inl "invalid size string".

Definition rateRegexp : regex :=
  RCat (RGroup digits) (RGroup (RAlt (RLit "r/s") (RLit "r/m"))).
Definition ParseRequestRate (s0 : string) : string + string :=
  let s := TrimSpace s0 in
  match FindStringSubmatch rateRegexp s with
  | Some (m1 :: _) =>
      match Atoi m1 with
      | None => inl "string does not match rate-pattern"
      | Some number => if (number <=? 0)%Z then inl "rate must be >0" else inr s
      end
  | _ => inl "string does not match rate-pattern: ^(\\d+)(r/s|r/m)$"
  end.

Definition proxyBuffersRegexp : regex :=
  RCat digits (RCat (RChar 32) (RCat digits (ROpt (RIn [one 107; one 75; one 109; one 77])))).
Definition proxyBuffersWithAnyUnitRegexp : regex :=
  RCat (RGroup digits) (RCat (RChar 32) (RCat (RGroup digits)
    (RGroup (ROpt (RIn (lowerRanges ++ upperRanges)))))).
Definition ParseProxyBuffersSpec (s0 : string) : string + string :=
  let s := TrimSpace s0 in
  if MatchString proxyBuffersRegexp s then inr s
  else match FindStringSubmatch proxyBuffersWithAnyUnitRegexp s with
       | Some [bufferCount; bufferSize; unit0] =>
           let unit := ToLower unit0 in
           if bool_decide (unit ∈ [""; "k"; "m"])
           then inr (bufferCount +:+ " " +:+ bufferSize +:+ unit)
           else inl "invalid proxy buffers string"
       | _ => inl "invalid proxy buffers string"
       end.

(** ** Lists *)

(** strconv.ParseInt(value, 10, 32) *)
Definition ParseInt32 (s : string) : option Z :=
  n ← Atoi s; if between (- 2 ^ 31) (2 ^ 31 - 1) n then Some n else None.
Definition parsePort (value : string) : string + Z :=
  match ParseInt32 value with
  | None => inl "unable to parse port as integer"
  | Some port => if (port <=? 0)%Z then inl "port number should be greater than zero" else inr port
  end.
Fixpoint parsePorts (values : list string) : string + list Z :=
  match values with
  | [] => inr []
  | v :: rest => match parsePort v with
                 | inl err => inl err
                 | inr port => match parsePorts rest with
                               | inl err => inl err
                               | inr ports => inr (port :: ports)
                               end
                 end
  end.
Definition ParsePortList (s : string) : string + list Z := parsePorts (Split comma s).

Definition ParseServiceList (s : string) : gset string := list_to_set (Split comma s).

(** pathRegexp and stickyCookieRegex *)
Definition rewritePathRegexp : regex :=
  RCat (RChar 47) (RStar (RNotIn (spaceRanges ++ [one 123; one 125; one 59; one 36]))).
Definition VerifyPath (s : string) : bool := MatchString rewritePathRegexp s.
Definition stickyCookieRegex : regex :=
  RStar (RAlt (RNotIn [one 34; one 36; one 92]) (RCat (RChar 92) (RNotIn [one 36]))).

Definition equals : Ascii.ascii := byte_at 61.
Definition parseRewrites (service : string) : string + (string * string) :=
  match SplitN (byte_at 32) (TrimSpace service) 2 with
  | [p0; p1] =>
      match Split equals p0, Split equals p1 with
      | [k0; name], [k1; rewrite] =>
          if negb (bool_decide (k0 = "serviceName")) then inl "not a valid serviceName format"
          else if negb (bool_decide (k1 = "rewrite")) then inl "not a valid rewrite path format"
          else if negb (VerifyPath rewrite)
          then inl "path must start with '/' and must not include any whitespace character, '{', '}' or '$'"
          else inr (name, rewrite)
      | [k0; name], _ =>
          if negb (bool_decide (k0 = "serviceName")) then inl "not a valid serviceName format"
          else inl "not a valid rewrite path format"
      | _, _ => inl "not a valid serviceName format"
      end
  | _ => inl "not a valid rewrite format"
  end.
Definition parseStickyService (service : string) : string + (string * string) :=
  match SplitN (byte_at 32) service 2 with
  | [p0; p1] =>
      match Split equals p0 with
      | [_; name] =>
          if negb (MatchString stickyCookieRegex p1) then inl "invalid sticky-cookie parameters"
          else inr (name, p1)
      | _ => inl "invalid sticky-cookie service format"
      end
  | _ => inl "invalid sticky-cookie service format. Must be a semicolon-separated list of sticky services"
  end.

(** The loop of ParseRewriteList and ParseStickyServiceList: a later entry of the
    same service replaces an earlier one *)
Fixpoint parseEntries (parse : string → string + (string * string)) (acc : gmap string string)
    (parts : list string) : string + gmap string string :=
  match parts with
  | [] => inr acc
  | part :: rest => match parse part with
                    | inl err => inl err
                    | inr (name, v) => parseEntries parse (<[name := v]> acc) rest
                    end
  end.
Definition ParseRewriteList (s : string) : string + gmap string string :=
  parseEntries parseRewrites ∅ (Split (byte_at 59) s).
Definition ParseStickyServiceList (s : string) : string + gmap string string :=
  parseEntries parseStickyService ∅ (Split (byte_at 59) s).

(** ** App Protect thresholds: high=N low=N and low=N high=N, anywhere in the
    value and ending at a word boundary *)
Definition percent : regex :=
  RAlt (RIn [(49, 57)]) (RAlt (RCat (RIn [(49, 57)]) (RIn digitRanges)) (RLit "100")).
Definition threshEx : regex :=
  RCat (RLit "high=") (RCat percent (RCat (RLit " low=") percent)).
Definition threshExR : regex :=
  RCat (RLit "low=") (RCat percent (RCat (RLit " high=") percent)).
Definition isWordByte (c : Ascii.ascii) : bool := inRanges (one 95 :: alnumRanges) c.
(** a \b behind a digit: no word character follows *)
Definition atWordEnd (s : string) : bool :=
  match s with EmptyString => true | String c _ => negb (isWordByte c) end.
Fixpoint matchWordEnd (r : regex) (s : string) : bool :=
  existsb (λ x, atWordEnd (run_rest x)) (runs r s)
  || match s with EmptyString => false | String _ s' => matchWordEnd r s' end.
Definition VerifyAppProtectThresholds (value : string) : bool :=
  matchWordEnd threshEx value || matchWordEnd threshExR value.

(** ** custom-http-errors *)

Definition customHTTPErrorMaxCodes : nat := 300.
Definition nginxErrorPageRejectedCodes : list Z := [499%Z].

(** expandHTTPErrorRange: start, start+1, ..., end *)
Definition codeRange (start last : Z) : list Z :=
  (λ i, (start + Z.of_nat i)%Z) <$> seq 0 (Z.to_nat (last - start + 1)).
Definition expandHTTPErrorRange (start last : Z) (set : gset Z) : gset Z :=
  foldl (λ s c, if bool_decide (c ∈ nginxErrorPageRejectedCodes) then s else {[c]} ∪ s) set
    (codeRange start last).

Definition isASCIIDigits (s : string) : bool :=
  negb (bool_decide (s = "")) && forallb (between 48 57) (runesOf s).

Definition parseCustomHTTPErrorToken (token : string) (set : gset Z) : string + gset Z :=
  if bool_decide (ToLower token = "4xx") then inr (expandHTTPErrorRange 400 499 set)
  else if bool_decide (ToLower token = "5xx") then inr (expandHTTPErrorRange 500 599 set)
  else
    let invalid := inl ("invalid status code " +:+ token +:+ ": must be an integer, '4xx', or '5xx'") in
    if negb (isASCIIDigits token) then invalid
    else match Atoi token with
         | None => invalid
         | Some code =>
             if (code <? 300)%Z || (599 <? code)%Z
             then inl ("invalid status code " +:+ fmtInt code +:+ ": must be in the range [300, 599]")
             else if bool_decide (code ∈ nginxErrorPageRejectedCodes)
             then inl ("invalid status code " +:+ fmtInt code
                       +:+ ": NGINX rejects this code in the error_page directive")
             else inr ({[code]} ∪ set)
         end.

Fixpoint parseErrorTokens (tokens : list string) (set : gset Z) : string + gset Z :=
  match tokens with
  | [] => inr set
  | raw :: rest =>
      let token := TrimSpace raw in
      if bool_decide (token = "") then parseErrorTokens rest set
      else match parseCustomHTTPErrorToken token set with
           | inl err => inl err
           | inr set' => parseErrorTokens rest set'
           end
  end.

Definition ParseCustomHTTPErrors (value : string) : string + list Z :=
  if bool_decide (TrimSpace value = "") then inl "value must not be empty"
  else match parseErrorTokens (Split comma value) ∅ with
       | inl err => inl err
       | inr set =>
           if bool_decide (size set = 0) then inl "no valid status codes found"
           else if Nat.ltb customHTTPErrorMaxCodes (size set) then inl "too many status codes"
           else inr (merge_sort Z.le (elements set))
       end.

(** ** Header names *)
Section Headers.
Context `{VL : ValidationLib}.

Definition ValidateHeaderName (name : string) : list string := IsHTTPHeaderName name.
Definition SplitHeaderNameList (value : string) : list string := TrimSpace <$> Split comma value.
Definition ValidateHeaderNameList (value : string) : list string * list string :=
  let names := SplitHeaderNameList value in (names, names ≫= ValidateHeaderName).
Definition ValidateRealIPHeader (value : string) : list string :=
  if bool_decide (value = "proxy_protocol") then [] else ValidateHeaderName value.
Definition ParseHeaderList (s : string) : string + list string :=
  match ValidateHeaderNameList s with
  | (names, []) => inr names
  | (_, msgs) => inl (Join "; " msgs)
  end.
End Headers.

(** SSLCiphersRegex *)
Definition cipherRanges : list (nat * nat) :=
  alnumRanges ++ [one 95; one 58; one 33; one 64; one 43; one 46; one 44; one 61; one 32; one 45].
Definition SSLCiphersRegex : regex :=
  RCat (RStar (RIn cipherRanges)) (RCat (RIn alnumRanges) (RStar (RIn cipherRanges))).
