(* ===== verification/CommonValidation.v ===== *)
(** pkg/apis/configuration/validation/common.go: the validators shared by
    VirtualServers, TransportServers and policies, and the escaped strings the
    Ingress validator uses too.  A list of errors is empty for a valid value. *)
From S2P Require Import Prelude GoStrings Regex Objects ProxyBuffers Directives ValidationLib.
From S2P Require Import ParsingHelpers.

(** Paths of VirtualServer routes: validation.NormalizePath and the categories of
    path modifiers (pkg/apis/configuration/validation/virtualserver.go). *)

(** ** NormalizePath *)
Definition PathModifierExact : string := "=".
Definition PathModifierLongestPrefix : string := "^~".
Definition PathModifierRegex : string := "~".
Definition PathModifierRegexIC : string := "~*".

Fixpoint normalizeWith (mods : list string) (path : string) : string :=
  match mods with
  | [] => path
  | pm :: mods' =>
      if HasPrefix path pm
      then pm +:+ TrimLeftSpace (dropBytes (String.length pm) path)
      else normalizeWith mods' path
  end.

Definition NormalizePath (path : string) : string :=
  normalizeWith [PathModifierRegexIC; PathModifierRegex; PathModifierLongestPrefix; PathModifierExact]
    path.

(** subrouteModifierCategory *)
Definition subrouteModifierCategory (path : string) : string :=
  if HasPrefix path "~" then "regex"
  else if HasPrefix path "=" then "exact"
  else if HasPrefix path "^~" then "longest-prefix"
  else "prefix".
Definition isRegexOrExactMatch (path : string) : bool := HasPrefix path "~" || HasPrefix path "=".

Definition backslash : Ascii.ascii := byte_at 92.
Definition dquote : Ascii.ascii := byte_at 34.
Definition escapedQuote : string := String backslash (String dquote "").

(** strings.FieldsFunc(path, r == '/' || r == '\\'): the non-empty pieces *)
Definition isSegmentSep (c : Ascii.ascii) : bool := ceqb c 47 || ceqb c 92.
Fixpoint splitSegments (s : string) : list string :=
  match s with
  | EmptyString => [""]
  | String c s' =>
      if isSegmentSep c then "" :: splitSegments s'
      else match splitSegments s' with
           | [] => [String c ""]
           | w :: ws => String c w :: ws
           end
  end.
Definition pathSegments (s : string) : list string :=
  filter (λ w, w ≠ "") (splitSegments s).

(** escapedStringsFmtRegexp *)
Definition escapedStringsFmtRegexp : regex :=
  RStar (RAlt (RNotIn [one 34; one 92]) (RCat (RChar 92) (RNotIn [one 10]))).
Definition escapedStringsFmt : string := "([^" +:+ String dquote "\\]|\\.)*".
Definition escapedStringsErrMsg : string :=
  "must have all '" +:+ String dquote
    "' (double quotes) escaped and must not end with an unescaped '\' (backslash)".

(** Read from left to right: every double quote is escaped, a backslash escapes
    any byte but a line feed, and the string does not end with an unescaped
    backslash. *)
Fixpoint escapedString (s : string) : bool :=
  match s with
  | EmptyString => true
  | String c s' =>
      if ceqb c 34 then false
      else if ceqb c 92 then
        match s' with
        | EmptyString => false
        | String d s'' => negb (ceqb d 10) && escapedString s''
        end
      else escapedString s'
  end.

(** pathFmt and pathErrMsg *)
Definition pathFmt : string := "/[^\s{};\\]*".
Definition pathErrMsg : string :=
  "must start with / and must not include any whitespace character, `{`, `}` or `;`".
Definition pathRegexp : regex :=
  RCat (RChar 47) (RStar (RNotIn (spaceRanges ++ [one 123; one 125; one 59; one 92]))).

(** nginxVariableRegexp and captureVariables of virtualserver.go: the contents of
    the braces behind dollars *)
Definition nginxVariableRegexp : regex :=
  RCats [RLit "${"; RGroup (RStar (RNotIn [one 125])); RChar 125].
Definition captureVariables (s : string) : list string :=
  (λ m : string * list string, default "" (head m.2)) <$> FindAllStringSubmatch nginxVariableRegexp s.

(** cookieNameFmt, argumentNameFmt *)
Definition wordRegexp : regex := RPlus (RIn (one 95 :: alnumRanges)).

Section Common.
Context `{VL : ValidationLib}.

Definition invalids (fieldPath value : string) (msgs : list string) : list FieldError :=
  (λ msg, Invalid fieldPath value msg) <$> msgs.

(** [None] is the nil error *)
Definition ValidateEscapedString (body : string) (examples : list string) : option string :=
  if MatchString escapedStringsFmtRegexp body then None
  else Some (RegexError escapedStringsErrMsg escapedStringsFmt examples).

(** ** Variables

    The accepted variables, which the message lists in the order of map
    iteration, are left out of it. *)
Definition validateVariable (nVar : string) (validVars : list string) (fieldPath : string)
    : list FieldError :=
  if bool_decide (nVar ∈ validVars) then []
  else [Invalid fieldPath nVar ("'" +:+ nVar +:+ "' contains an invalid NGINX variable")].

(** strings.Replace(value, "_", "-", -1) *)
Fixpoint underscoresToDashes (s : string) : string :=
  match s with
  | EmptyString => ""
  | String c s' => String (if ceqb c 95 then byte_at 45 else c) (underscoresToDashes s')
  end.

Definition isValidSpecialHeaderLikeVariable (value : string) : list string :=
  match IsHTTPHeaderName (underscoresToDashes value) with
  | [] => if Contains value "-"
          then ["a valid special variable must consists of alphanumeric characters or '_'"] else []
  | _ => ["a valid special variable must consists of alphanumeric characters or '_'"]
  end.

Definition isCookieName (value : string) : list string :=
  if MatchString wordRegexp value then []
  else [RegexError "a valid cookie name must consist of alphanumeric characters or '_'" "[_A-Za-z0-9]+"
          ["my_cookie_123"]].
Definition isArgumentName (value : string) : list string :=
  if MatchString wordRegexp value then []
  else [RegexError "a valid argument name must consist of alphanumeric characters or '_'" "[_A-Za-z0-9]+"
          ["argument_123"]].

Definition underscore : Ascii.ascii := byte_at 95.

(** The name and the value, or the error *)
Definition parseSpecialVariable (nVar fieldPath : string) : list FieldError + (string * string) :=
  let invalid := inl [Invalid fieldPath nVar "is invalid variable"] in
  if HasPrefix nVar "jwt_header" || HasPrefix nVar "jwt_claim" then
    match SplitN underscore nVar 3 with
    | [p0; p1; p2] => inr (Join "_" [p0; p1], p2)
    | _ => invalid
    end
  else match SplitN underscore nVar 2 with
       | [p0; p1] => inr (p0, p1)
       | _ => invalid
       end.

Definition validateSpecialVariable (nVar fieldPath : string) (isPlus : bool) : list FieldError :=
  match parseSpecialVariable nVar fieldPath with
  | inl errs => errs
  | inr (name, value) =>
      if bool_decide (name = "arg") then invalids fieldPath nVar (isArgumentName value)
      else if bool_decide (name = "http")
      then invalids fieldPath nVar (isValidSpecialHeaderLikeVariable value)
      else if bool_decide (name = "cookie") then invalids fieldPath nVar (isCookieName value)
      else if bool_decide (name = "jwt_header") || bool_decide (name = "jwt_claim") then
        if negb isPlus then [Forbidden fieldPath "is only supported in NGINX Plus"]
        else invalids fieldPath nVar (isValidSpecialHeaderLikeVariable value)
      else if bool_decide (name = "apikey")
      then invalids fieldPath nVar (isValidSpecialHeaderLikeVariable value)
      else [Invalid fieldPath nVar "unknown special variable"]
  end.

(** The loop over the runes of validateStringWithVariables: whether every dollar
    is followed by an opening brace with a closing one somewhere behind it.  A
    dollar is ASCII, so the loop over bytes visits the same dollars; behind the
    last byte there is none, as the string does not end with a dollar. *)
Fixpoint dollarsBraced (s : string) : bool :=
  match s with
  | EmptyString => true
  | String c s' =>
      (if ceqb c 36 then HasPrefix s' "{" && Contains s' "}" else true) && dollarsBraced s'
  end.

Definition validateStringWithVariables (str fieldPath : string) (specialVars validVars : list string)
    (isPlus : bool) : list FieldError :=
  if HasSuffix str "$" then [Invalid fieldPath str "must not end with $"]
  else if negb (dollarsBraced str)
  then [Invalid fieldPath str "variables must be enclosed in curly braces, for example ${host}"]
  else captureVariables str ≫= λ nVar,
         if existsb (HasPrefix nVar) specialVars then validateSpecialVariable nVar fieldPath isPlus
         else validateVariable nVar validVars fieldPath.

(** ** Times, sizes, names *)

Definition validateAddHeaderInherit (value fieldPath : string) : list FieldError :=
  match ParseAddHeaderInherit value with
  | inl err => [Invalid fieldPath value err]
  | inr _ => []
  end.

Definition validateTime (time fieldPath : string) : list FieldError :=
  if bool_decide (time = "") then []
  else match ParseTime time with
       | inl err => [Invalid fieldPath time err]
       | inr _ => []
       end.

Definition offsetErrMsg : string :=
  "must consist of numeric characters followed by a valid size suffix. 'k|K|m|M|g|G".
Definition validateOffset (offset fieldPath : string) : list FieldError :=
  if bool_decide (offset = "") then []
  else match ParseOffset offset with
       | inl _ => [Invalid fieldPath offset (RegexError offsetErrMsg "\d+[kKmMgG]?" ["16"; "32k"; "64M"; "2G"])]
       | inr _ => []
       end.

Definition sizeErrMsg : string :=
  "must consist of numeric characters followed by a valid size suffix. 'k|K|m|M".
Definition sizeValidationRegexp : regex :=
  RCats [RStar (RIn [one 32; one 9]); digits; ROpt (RIn [one 107; one 75; one 109; one 77]);
         RStar (RIn [one 32; one 9])].
Definition validateSize (size fieldPath : string) : list FieldError :=
  let invalid := [Invalid fieldPath size (RegexError sizeErrMsg "\d+[kKmM]?" ["16"; "32k"; "64M"])] in
  if bool_decide (size = "") then []
  else if negb (MatchString sizeValidationRegexp size) then invalid
  else match ParseSize size with
       | inl _ => invalid
       | inr _ => []
       end.

Definition validateK8SName (name fieldPath : string) : list FieldError :=
  if bool_decide (name = "") then [] else invalids fieldPath name (IsDNS1123Subdomain name).
Definition validateSecretName (name fieldPath : string) : list FieldError := validateK8SName name fieldPath.

(** ValidateParameter; the accepted parameters are left out of the message *)
Definition ValidateParameter (nPar : string) (validParams : list string) (fieldPath : string)
    : list FieldError :=
  if bool_decide (nPar ∈ validParams) then []
  else [Invalid fieldPath nPar ("'" +:+ nPar +:+ "' contains an invalid NGINX parameter")].

Definition isValidHeaderName (name : string) : bool :=
  negb (bool_decide (name = "")) && MatchString (RPlus (RIn ([one 45; one 95] ++ alnumRanges))) name.

(** validatePath (ValidatePath) *)
Definition validatePath (path fieldPath : string) : list FieldError :=
  if bool_decide (path = "") then [Required fieldPath ""]
  else if HasPrefix path "//"
  then [Invalid fieldPath path "protocol-relative URIs not allowed, must not start with '//'"]
  else if existsb (λ seg, bool_decide (seg = "..")) (pathSegments path)
  then [Invalid fieldPath path "path traversal not allowed, path must not contain '..' segments"]
  else if negb (MatchString pathRegexp path)
  then [Invalid fieldPath path (RegexError pathErrMsg pathFmt ["/"; "/path"; "/path/subpath-123"])]
  else if negb (allPrintable path)
  then [Invalid fieldPath path "must not include non-printable characters"]
  else [].

(** validateDNS1035Label and validateDNS1123Label of virtualserver.go *)
Definition validateDNS1035Label (name fieldPath : string) : list FieldError :=
  if bool_decide (name = "") then [Required fieldPath ""]
  else invalids fieldPath name (IsDNS1035Label name).
Definition validateDNS1123Label (name fieldPath : string) : list FieldError :=
  if bool_decide (name = "") then [Required fieldPath ""]
  else invalids fieldPath name (IsDNS1123Label name).
End Common.

(** ** Escaped strings *)

Lemma ceqb_eq c n : ceqb c n = true ↔ Ascii.nat_of_ascii c = n.
Proof. apply Nat.eqb_eq. Qed.

Lemma inRanges_cons r l c :
  inRanges (r :: l) c = Nat.leb r.1 (Ascii.nat_of_ascii c) && Nat.leb (Ascii.nat_of_ascii c) r.2 || inRanges l c.
Proof. done. Qed.

Lemma inRanges_one n l c : inRanges (one n :: l) c = ceqb c n || inRanges l c.
Proof.
  rewrite inRanges_cons. f_equal. unfold one, ceqb. cbn [fst snd].
  destruct (Nat.leb_spec n (Ascii.nat_of_ascii c)), (Nat.leb_spec (Ascii.nat_of_ascii c) n),
    (Nat.eqb_spec (Ascii.nat_of_ascii c) n); try done; lia.
Qed.

(** The regular expression and the reading from left to right agree. *)
Lemma escapedString_regexp s : MatchString escapedStringsFmtRegexp s = escapedString s.
Proof.
  apply eq_true_iff_eq. rewrite MatchString_spec. unfold escapedStringsFmtRegexp. split.
  - revert s. apply Matches_star_ind; [done|].
    intros s t [(c & -> & Hc)%Matches_class|(x & y & -> & (c & -> & Hc)%Matches_class &
      (e & -> & He)%Matches_class)%Matches_cat]%Matches_alt _ _ IH.
    + rewrite !inRanges_one in Hc. apply negb_true_iff in Hc.
      apply orb_false_iff in Hc as [H1 [H2 _]%orb_false_iff].
      change (String c "" +:+ t) with (String c t). cbn [escapedString]. by rewrite H1, H2.
    + rewrite inRanges_one, orb_false_r in He.
      change ((String c "" +:+ String e "") +:+ t) with (String c (String e t)). cbn [escapedString].
      assert (ceqb c 34 = false) as -> by (apply ceqb_eq in Hc; unfold ceqb; by rewrite Hc).
      by rewrite Hc, He.
  - remember (String.length s) as n eqn:Hn. revert s Hn.
    induction n as [n IH] using lt_wf_ind. intros s ->. destruct s as [|c s]; [constructor|].
    cbn [escapedString]. destruct (ceqb c 34) eqn:H34; [done|]. destruct (ceqb c 92) eqn:H92.
    + destruct s as [|e s]; [done|]. intros [He Hs]%andb_true_iff.
      apply (MStarCons _ (String c (String e "")) s).
      * apply MAltR, (MCat _ _ (String c "") (String e "")); constructor; [done|].
        by rewrite inRanges_one, orb_false_r.
      * eapply IH; [|done|done]. cbn. lia.
    + intros Hs. apply (MStarCons _ (String c "") s).
      * apply MAltL. constructor. by rewrite !inRanges_one, H34, H92.
      * eapply IH; [|done|done]. cbn. lia.
Qed.

Lemma ValidateEscapedString_spec `{VL : ValidationLib} body examples :
  ValidateEscapedString body examples = None ↔ escapedString body = true.
Proof.
  unfold ValidateEscapedString. rewrite escapedString_regexp. by destruct (escapedString body).
Qed.
