(* ===== verification/VSUpstreamValidation.v ===== *)
(** Validation of VirtualServers and VirtualServerRoutes
    (pkg/apis/configuration/validation/virtualserver.go), first part: hosts,
    policies, TLS, upstreams.  The bad value of an error is its text. *)
From S2P Require Import Prelude GoStrings Regex Objects ProxyBuffers Directives ValidationLib.
From S2P Require Import ParsingHelpers CommonValidation.

Record VirtualServerValidator := {
  vsv_isPlus : bool;
  vsv_isDosEnabled : bool;
  vsv_isCertManagerEnabled : bool;
  vsv_isExternalDNSEnabled : bool;
  vsv_isDirectiveAutoadjustEnabled : bool
}.

(** The options, and NewVirtualServerValidator which applies them in order *)
Inductive VsvOption :=
  | IsPlus (plus : bool) | IsDosEnabled (dos : bool) | IsCertManagerEnabled (cm : bool)
  | IsExternalDNSEnabled (ed : bool) | IsDirectiveAutoadjustEnabled (autoadjust : bool).
Definition applyOption (v : VirtualServerValidator) (o : VsvOption) : VirtualServerValidator :=
  {| vsv_isPlus := if o is IsPlus b then b else vsv_isPlus v;
     vsv_isDosEnabled := if o is IsDosEnabled b then b else vsv_isDosEnabled v;
     vsv_isCertManagerEnabled := if o is IsCertManagerEnabled b then b else vsv_isCertManagerEnabled v;
     vsv_isExternalDNSEnabled := if o is IsExternalDNSEnabled b then b else vsv_isExternalDNSEnabled v;
     vsv_isDirectiveAutoadjustEnabled :=
       if o is IsDirectiveAutoadjustEnabled b then b else vsv_isDirectiveAutoadjustEnabled v |}.
Definition NewVirtualServerValidator (opts : list VsvOption) : VirtualServerValidator :=
  foldl applyOption {| vsv_isPlus := false; vsv_isDosEnabled := false; vsv_isCertManagerEnabled := false;
    vsv_isExternalDNSEnabled := false; vsv_isDirectiveAutoadjustEnabled := false |} opts.

(** [for i, x := range l { allErrs = append(allErrs, f(i, x)...) }] *)
Definition eachIndexed {A} (f : nat → A → list FieldError) (l : list A) : list FieldError :=
  concat (imap f l).

(** [if cond { allErrs = append(allErrs, err) }] *)
Definition errorIf (cond : bool) (err : FieldError) : list FieldError := if cond then [err] else [].

(** [if p != nil { ... }] *)
Definition whenSet {A} (f : A → list FieldError) (p : option A) : list FieldError :=
  match p with Some x => f x | None => [] end.

Definition wildcardPrefix : string := "*.".

Section Upstreams.
Context `{VL : ValidationLib} `{MR : MapRange}.

Definition validateHost (host fieldPath : string) : list FieldError :=
  if bool_decide (host = "") then [Required fieldPath ""]
  else if HasPrefix host wildcardPrefix
  then invalids fieldPath host (IsWildcardDNS1123Subdomain host)
  else invalids fieldPath host (IsDNS1123Subdomain host).

(** ** Policies *)

(** One policy of the loop of validatePolicies: the errors and the keys seen *)
Definition validatePolicyRef (fieldPath namespace : string)
    (st : list FieldError * gset string) (ip : nat * PolicyReference)
    : list FieldError * gset string :=
  let '(allErrs, policyKeys) := st in
  let '(i, p) := ip in
  let idxPath := Index fieldPath i in
  let polNamespace := if bool_decide (pr_Namespace p = "") then namespace else pr_Namespace p in
  let key := polNamespace +:+ "/" +:+ pr_Name p in
  let '(dup, policyKeys) :=
    if bool_decide (key ∈ policyKeys) then ([Duplicate idxPath key], policyKeys)
    else ([], {[key]} ∪ policyKeys) in
  let name := if bool_decide (pr_Name p = "") then [Required (Child idxPath "name") ""]
              else invalids (Child idxPath "name") (pr_Name p) (IsDNS1123Subdomain (pr_Name p)) in
  let ns := if bool_decide (pr_Namespace p = "") then []
            else invalids (Child idxPath "namespace") (pr_Namespace p) (IsDNS1123Label (pr_Namespace p)) in
  (allErrs ++ dup ++ name ++ ns, policyKeys).

Definition validatePolicies (policies : list PolicyReference) (fieldPath namespace : string)
    : list FieldError :=
  (foldl (validatePolicyRef fieldPath namespace) ([], ∅) (imap pair policies)).1.

(** ** TLS, DoS, ExternalDNS *)

Definition validRedirectStatusCodes : list Z := [301; 302; 307; 308]%Z.
Definition validateRedirectStatusCode (code : Z) (fieldPath : string) : list FieldError :=
  if bool_decide (code ∈ validRedirectStatusCodes) then []
  else [Invalid fieldPath (fmtInt code)
          "status code out of accepted range. accepted values are '301', '302', '307', '308'"].

Definition validateTLSRedirect (redirect : option TLSRedirect) (fieldPath : string) : list FieldError :=
  whenSet (λ r,
    whenSet (λ code, validateRedirectStatusCode code (Child fieldPath "code")) (tr_Code r)
    ++ errorIf (negb (bool_decide (tr_BasedOn r ∈ [""; "scheme"; "x-forwarded-proto"])))
         (Invalid (Child fieldPath "basedOn") (tr_BasedOn r)
            "accepted values are 'scheme', 'x-forwarded-proto'")) redirect.

Definition validateTLSCmFields (cm : option CertManager) (isCertManagerEnabled : bool)
    (secret fieldPath : string) : list FieldError :=
  whenSet (λ _,
    errorIf (negb isCertManagerEnabled) (Forbidden fieldPath "field requires cert-manager enablement")
    ++ errorIf (bool_decide (secret = "")) (Forbidden fieldPath "field requires TLS.Secret to be specified")) cm.

(** VirtualServerValidator.validateTLS *)
Definition validateVSTLS (vsv : VirtualServerValidator) (tls : option TLS) (fieldPath : string)
    : list FieldError :=
  whenSet (λ t,
    validateSecretName (tls_Secret t) (Child fieldPath "secret")
    ++ validateTLSRedirect (tls_Redirect t) (Child fieldPath "redirect")
    ++ validateTLSCmFields (tls_CertManager t) (vsv_isCertManagerEnabled vsv) (tls_Secret t)
         (Child fieldPath "cert-manager")) tls.

Definition validateDos (isDosEnabled : bool) (dos fieldPath : string) : list FieldError :=
  if bool_decide (dos = "") then []
  else errorIf (negb isDosEnabled) (Forbidden fieldPath "field requires DOS enablement")
       ++ invalids fieldPath dos (IsQualifiedName dos).

Definition validateExternalDNS (vsv : VirtualServerValidator) (ed : ExternalDNS) (fieldPath : string)
    : list FieldError :=
  if negb (ed_Enable ed) then []
  else errorIf (negb (vsv_isExternalDNSEnabled vsv))
         (Forbidden fieldPath "field requires externalDNS enablement").

(** ** Numbers *)

Definition validatePositiveIntOrZero (n : Z) (fieldPath : string) : list FieldError :=
  errorIf (n <? 0)%Z (Invalid fieldPath (fmtInt n) "must be positive").
Definition validatePositiveIntOrZeroFromPointer (n : option Z) (fieldPath : string) : list FieldError :=
  whenSet (λ n, errorIf (n <? 0)%Z (Invalid fieldPath (fmtInt n) "must be positive or zero")) n.

(** ** Names *)

Definition validateUpstreamName (name fieldPath : string) : list FieldError :=
  validateDNS1035Label name fieldPath.
Definition validateServiceName (name fieldPath : string) : list FieldError :=
  validateDNS1035Label name fieldPath.
Definition validateVirtualServerServiceName (name fieldPath : string) : list FieldError :=
  if HasNamespace name then
    match Split slash name with
    | [ns; svc] =>
        if negb (bool_decide (validateDNS1123Label ns fieldPath = []))
        then [Invalid fieldPath name "invalid namespace in service reference"]
        else if negb (bool_decide (validateServiceName svc fieldPath = []))
        then [Invalid fieldPath name "invalid service name in service reference"]
        else []
    | _ => [Invalid fieldPath name " service reference must be in the format namespace/service-name"]
    end
  else validateServiceName name fieldPath.

Definition validateBackupName (backup fieldPath : string) : list FieldError :=
  if bool_decide (backup = "") then [] else validateServiceName backup (Child fieldPath "backup").
Definition validateBackupPortFromPointer (backupPort : option Z) (fieldPath : string) : list FieldError :=
  whenSet (λ port, invalids (Child fieldPath "port") (fmtInt port) (IsValidPortNum port)) backupPort.

(** Backups cannot be used with the hash and random methods. *)
Definition validateBackup (backup : string) (backupPort : option Z) (lbMethod idxPath : string)
    : list FieldError :=
  if bool_decide (backup = "") && bool_decide (backupPort = None) then []
  else
    errorIf (negb (bool_decide (backup = "")) && bool_decide (backupPort = None))
      (Invalid (Child idxPath "backupPort") "null" "both backup and backup port must be specified")
    ++ errorIf (bool_decide (backup = "") && negb (bool_decide (backupPort = None)))
      (Invalid (Child idxPath "backup") backup "both backup and backup port must be specified")
    ++ errorIf (Contains lbMethod "hash" || Contains lbMethod "hash_ip" || Contains lbMethod "random")
      (Forbidden (Child idxPath "backup")
         "backup cannot be used along with the 'hash', 'hash_ip' and 'random' load balancing methods")
    ++ validateBackupName backup (Child idxPath "backup")
    ++ validateBackupPortFromPointer backupPort (Child idxPath "backupPort").

Definition validateBuffer (buff : option UpstreamBuffers) (fieldPath : string) : list FieldError :=
  whenSet (λ b,
    errorIf (ub_Number b <=? 0)%Z
      (Invalid (Child fieldPath "number") (fmtInt (ub_Number b)) "must be positive")
    ++ (if bool_decide (ub_Size b = "") then [Required (Child fieldPath "size") "cannot be empty"]
        else validateSize (ub_Size b) (Child fieldPath "size"))) buff.

Definition validateUpstreamLBMethod (lBMethod fieldPath : string) (isPlus : bool) : list FieldError :=
  if bool_decide (lBMethod = "") then []
  else match (if isPlus then ParseLBMethodForPlus lBMethod else ParseLBMethod lBMethod) with
       | inl err => [Invalid fieldPath lBMethod err]
       | inr _ => []
       end.

(** ** Health checks *)

Definition validateGrpcStatusCode (code : Z) : list string :=
  if (code <? 0)%Z || (16 <? code)%Z then [InclusiveRangeError 0 16] else [].
Definition validateGrpcStatus (i : option Z) (fieldPath : string) : list FieldError :=
  whenSet (λ code, invalids fieldPath (fmtInt code) (validateGrpcStatusCode code)) i.

(** grpcRegexp *)
Definition grpcRegexp : regex := RStar (RNotIn (spaceRanges ++ [one 123; one 125; one 59])).
Definition grpcErrMsg : string := "must not include any whitespace character, `{`, `}`, or `;`".
Definition validateGrpcService (service fieldPath : string) : list FieldError :=
  if bool_decide (service = "") then []
  else if negb (MatchString grpcRegexp service)
  then [Invalid fieldPath service
          (RegexError grpcErrMsg "[^\s{};]*" ["GrpcService"; "GrpcService.MyService"])]
  else errorIf (ContainsAny service [35; 34; 39; 92; 96])
         (Invalid fieldPath service "must not include quotes, `#`, backslashes, or backticks").

Definition validateGrpcHealthCheck (hc : HealthCheck) (typeName fieldPath : string) : list FieldError :=
  if negb (bool_decide (typeName = "grpc")) then
    errorIf (negb (bool_decide (hc_GRPCStatus hc = None)))
      (Forbidden (Child fieldPath "grpcStatus") "cannot specify `grpcStatus` on http type health checks")
    ++ errorIf (negb (bool_decide (hc_GRPCService hc = "")))
      (Forbidden (Child fieldPath "grpcService") "cannot specify `grpcService` on http type health checks")
  else
    errorIf (negb (bool_decide (hc_Path hc = "")))
      (Forbidden (Child fieldPath "path") "cannot specify `path` on gRPC type health checks")
    ++ errorIf (negb (bool_decide (hc_StatusMatch hc = "")))
      (Forbidden (Child fieldPath "statusMatch") "cannot specify `statusMatch` on gRPC type health checks")
    ++ validateGrpcStatus (hc_GRPCStatus hc) (Child fieldPath "grpcStatus")
    ++ validateGrpcService (hc_GRPCService hc) (Child fieldPath "grpcService").

(** Status codes: a message or none *)
Definition validateIntFromString (number : string) : string + Z :=
  match Atoi number with
  | Some n => inr n
  | None => inl (number +:+ " must be a valid integer")
  end.
Definition validateStatusCode (status : string) : option string :=
  match validateIntFromString status with
  | inl msg => Some msg
  | inr code => if (code <? 100)%Z || (999 <? code)%Z then Some (InclusiveRangeError 100 999) else None
  end.
Definition validateStatusCodeRange (statusRangeStr : string) : option string :=
  match Split (byte_at 45) statusRangeStr with
  | [s0; s1] =>
      match validateIntFromString s0 with
      | inl msg => Some msg
      | inr mn =>
          match validateIntFromString s1 with
          | inl msg => Some msg
          | inr mx =>
              match validateStatusCode s0 with
              | Some msg => Some msg
              | None =>
                  match validateStatusCode s1 with
                  | Some msg => Some msg
                  | None => if (mx <=? mn)%Z
                            then Some ("range limits must be " +:+ fmtInt mn +:+ " < " +:+ fmtInt mx)
                            else None
                  end
              end
          end
      end
  | _ => Some "ranges must only have 2 numbers"
  end.
Definition validateStatusMatch (s fieldPath : string) : list FieldError :=
  if bool_decide (s = "") then []
  else
    errorIf (HasPrefix s "!" && negb (HasPrefix s "! "))
      (Invalid fieldPath s "must have an space character after the `!`")
    ++ eachIndexed (λ i value,
         if bool_decide (value = "!") then
           errorIf (negb (Nat.eqb i 0)) (Invalid fieldPath s "`!` can only appear once at the beginning")
         else if Contains value "-" then whenSet (λ msg, [Invalid fieldPath s msg]) (validateStatusCodeRange value)
         else whenSet (λ msg, [Invalid fieldPath s msg]) (validateStatusCode value))
         (Split (byte_at 32) s).

(** headerValueFmtRegexp *)
Definition headerValueFmtRegexp : regex :=
  RStar (RAlt (RNotIn [one 34; one 36; one 92]) (RCat (RChar 92) (RNotIn [one 36]))).
Definition isValidHeaderValue (s : string) : list string :=
  if MatchString headerValueFmtRegexp s then []
  else [RegexError ("a valid header must have all '" +:+ String dquote "' escaped and must not contain any '$' or end with an unescaped '\'")
          ("([^" +:+ String dquote "$\\]|\\[^$])*") ["my.service"; "foo"]].

(** The name of a header: Required for the empty one, and the messages of
    IsHTTPHeaderName *)
Definition headerNameErrors (name fieldPath : string) : list FieldError :=
  errorIf (bool_decide (name = "")) (Required (Child fieldPath "name") "")
  ++ invalids (Child fieldPath "name") name (IsHTTPHeaderName name).
Definition validateHeader (h : Header) (fieldPath : string) : list FieldError :=
  headerNameErrors (h_Name h) fieldPath
  ++ invalids (Child fieldPath "value") (h_Value h) (isValidHeaderValue (h_Value h)).

Definition validateUpstreamHealthCheck (hc : option HealthCheck) (typeName fieldPath : string)
    : list FieldError :=
  whenSet (λ hc,
    validateGrpcHealthCheck hc typeName fieldPath
    ++ (if bool_decide (hc_Path hc = "") then [] else validatePath (hc_Path hc) (Child fieldPath "path"))
    ++ validateTime (hc_Interval hc) (Child fieldPath "interval")
    ++ validateTime (hc_Jitter hc) (Child fieldPath "jitter")
    ++ validatePositiveIntOrZero (hc_Fails hc) (Child fieldPath "fails")
    ++ validatePositiveIntOrZero (hc_Passes hc) (Child fieldPath "passes")
    ++ validateTime (hc_ConnectTimeout hc) (Child fieldPath "connect-timeout")
    ++ validateTime (hc_ReadTimeout hc) (Child fieldPath "read-timeout")
    ++ validateTime (hc_SendTimeout hc) (Child fieldPath "send-timeout")
    ++ validateStatusMatch (hc_StatusMatch hc) (Child fieldPath "statusMatch")
    ++ validateTime (hc_KeepaliveTime hc) (Child fieldPath "keepalive-time")
    ++ eachIndexed (λ i h, validateHeader h (Index (Child fieldPath "headers") i)) (hc_Headers hc)
    ++ (if (0 <? hc_Port hc)%Z
        then invalids (Child fieldPath "port") (fmtInt (hc_Port hc)) (IsValidPortNum (hc_Port hc)) else [])
    ++ errorIf (hc_Persistent hc && negb (hc_Mandatory hc))
         (Required (Child fieldPath "mandatory") "must be true when `persistent` is true")) hc.

(** ** Session cookies, queues, types *)

Definition validateSessionCookie (sc : option SessionCookie) (fieldPath : string) : list FieldError :=
  whenSet (λ sc,
    (if bool_decide (sc_Name sc = "") then [Required (Child fieldPath "name") ""]
     else invalids (Child fieldPath "name") (sc_Name sc) (isCookieName (sc_Name sc)))
    ++ (if bool_decide (sc_Path sc = "") then [] else validatePath (sc_Path sc) (Child fieldPath "path"))
    ++ (if bool_decide (sc_Expires sc = "max") then []
        else validateTime (sc_Expires sc) (Child fieldPath "expires"))
    ++ (if bool_decide (sc_Domain sc = "") then []
        else invalids (Child fieldPath "domain") (sc_Domain sc)
               (IsDNS1123Subdomain (TrimPrefix (sc_Domain sc) ".")))
    ++ errorIf (negb (bool_decide (sc_SameSite sc = ""))
                && negb (bool_decide (ToLower (sc_SameSite sc) ∈ ["strict"; "lax"; "none"])))
         (Invalid (Child fieldPath "samesite") (sc_SameSite sc) "must be one of: `strict`, `lax`, `none`")) sc.

Definition validateUpstreamType (typeName fieldPath : string) : list FieldError :=
  errorIf (negb (bool_decide (typeName ∈ [""; "grpc"; "http"])))
    (Invalid fieldPath typeName "must be one of `grpc` or `http`").

Definition validateQueue (queue : option UpstreamQueue) (fieldPath : string) : list FieldError :=
  whenSet (λ q,
    validateTime (uq_Timeout q) (Child fieldPath "timeout")
    ++ errorIf (uq_Size q <=? 0)%Z (Required (Child fieldPath "size") "must be positive")) queue.

Definition validNextUpstreamParams : list string :=
  ["error"; "timeout"; "invalid_header"; "http_500"; "http_502"; "http_503"; "http_504"; "http_403";
   "http_404"; "http_429"; "non_idempotent"; "off"; ""].
(** The parameters of next-upstream, with those seen so far *)
Fixpoint nextUpstreamParams (fieldPath : string) (allParams : gset string) (params : list string)
    : list FieldError :=
  match params with
  | [] => []
  | para :: rest =>
      errorIf (negb (bool_decide (para ∈ validNextUpstreamParams)))
        (Invalid fieldPath para "not a valid parameter")
      ++ errorIf (bool_decide (para ∈ allParams))
           (Invalid fieldPath para "can not have duplicate parameters")
      ++ nextUpstreamParams fieldPath ({[para]} ∪ allParams) rest
  end.
Definition validateNextUpstream (nextUpstream fieldPath : string) : list FieldError :=
  if bool_decide (nextUpstream = "") then [] else nextUpstreamParams fieldPath ∅ (Fields nextUpstream).

(** ** Labels *)

Definition isValidLabelName (labelName fieldPath : string) : list FieldError :=
  invalids fieldPath labelName (IsQualifiedName labelName).
Definition validateLabels (labels : gmap string string) (fieldPath : string) : list FieldError :=
  range "validateLabels" labels ≫= λ kv,
    isValidLabelName kv.1 fieldPath ++ invalids fieldPath kv.2 (IsValidLabelValue kv.2).

(** ** Upstreams *)

Definition rejectPlusResourcesInOSS (u : Upstream) (idxPath : string) (isPlus : bool) : list FieldError :=
  if isPlus then []
  else
    errorIf (negb (bool_decide (u_HealthCheck u = None)))
      (Forbidden (Child idxPath "healthCheck") "active health checks are only supported in NGINX Plus")
    ++ errorIf (negb (bool_decide (u_SlowStart u = "")))
      (Forbidden (Child idxPath "slow-start") "slow start is only supported in NGINX Plus")
    ++ errorIf (negb (bool_decide (u_Queue u = None)))
      (Forbidden (Child idxPath "queue") "queue is only supported in NGINX Plus")
    ++ errorIf (u_NTLM u) (Forbidden (Child idxPath "ntlm") "NTLM is only supported in NGINX Plus").

(** What validateUpstreams checks of one upstream besides its name *)
Definition validateUpstreamFields (vsv : VirtualServerValidator) (u : Upstream) (idxPath : string)
    : list FieldError :=
  (if u_UseClusterIP u && negb (bool_decide (u_Subselector u = None))
   then [Forbidden (Child idxPath "subselector") "subselector can't be used with use-cluster-ip"]
   else whenSet (λ l, validateLabels l (Child idxPath "subselector")) (u_Subselector u))
  ++ validateVirtualServerServiceName (u_Service u) (Child idxPath "service")
  ++ validateTime (u_ProxyConnectTimeout u) (Child idxPath "connect-timeout")
  ++ validateTime (u_ProxyReadTimeout u) (Child idxPath "read-timeout")
  ++ validateTime (u_ProxySendTimeout u) (Child idxPath "send-timeout")
  ++ validateNextUpstream (u_ProxyNextUpstream u) (Child idxPath "next-upstream")
  ++ validateTime (u_ProxyNextUpstreamTimeout u) (Child idxPath "next-upstream-timeout")
  ++ validatePositiveIntOrZeroFromPointer (Some (u_ProxyNextUpstreamTries u)) (Child idxPath "next-upstream-tries")
  ++ validateUpstreamLBMethod (u_LBMethod u) (Child idxPath "lb-method") (vsv_isPlus vsv)
  ++ validateTime (u_FailTimeout u) (Child idxPath "fail-timeout")
  ++ validatePositiveIntOrZeroFromPointer (u_MaxFails u) (Child idxPath "max-fails")
  ++ validatePositiveIntOrZeroFromPointer (u_Keepalive u) (Child idxPath "keepalive")
  ++ validatePositiveIntOrZeroFromPointer (u_MaxConns u) (Child idxPath "max-conns")
  ++ validateOffset (u_ClientMaxBodySize u) (Child idxPath "client-max-body-size")
  ++ validateUpstreamHealthCheck (u_HealthCheck u) (u_Type u) (Child idxPath "healthCheck")
  ++ validateTime (u_SlowStart u) (Child idxPath "slow-start")
  ++ validateBuffer (u_ProxyBuffers u) (Child idxPath "buffers")
  ++ validateSize (u_ProxyBufferSize u) (Child idxPath "buffer-size")
  ++ validateSize (u_ProxyBusyBuffersSize u) (Child idxPath "busy-buffers-size")
  ++ validateSize (u_ClientBodyBufferSize u) (Child idxPath "client-body-buffer-size")
  ++ validateQueue (u_Queue u) (Child idxPath "queue")
  ++ validateSessionCookie (u_SessionCookie u) (Child idxPath "sessionCookie")
  ++ validateUpstreamType (u_Type u) (Child idxPath "type")
  ++ invalids (Child idxPath "port") (fmtInt (u_Port u)) (IsValidPortNum (u_Port u))
  ++ validateBackup (u_Backup u) (u_BackupPort u) (u_LBMethod u) idxPath
  ++ rejectPlusResourcesInOSS u idxPath (vsv_isPlus vsv).

(** The name of an upstream against the names seen: the errors and the new names *)
Definition claimName (name fieldPath : string) (names : gset string) : list FieldError * gset string :=
  match validateUpstreamName name fieldPath with
  | [] => if bool_decide (name ∈ names) then ([Duplicate fieldPath name], names)
          else ([], {[name]} ∪ names)
  | errs => (errs, names)
  end.

Fixpoint validateUpstreamsFrom (vsv : VirtualServerValidator) (fieldPath : string) (i : nat)
    (names : gset string) (us : list Upstream) : list FieldError * gset string :=
  match us with
  | [] => ([], names)
  | u :: rest =>
      let idxPath := Index fieldPath i in
      let '(nameErrs, names) := claimName (u_Name u) (Child idxPath "name") names in
      let '(restErrs, names) := validateUpstreamsFrom vsv fieldPath (S i) names rest in
      (nameErrs ++ validateUpstreamFields vsv u idxPath ++ restErrs, names)
  end.
Definition validateUpstreams (vsv : VirtualServerValidator) (us : list Upstream) (fieldPath : string)
    : list FieldError * gset string := validateUpstreamsFrom vsv fieldPath 0 ∅ us.
End Upstreams.

(** Lists of field errors that are empty: the lemmas and the tactic with which the
    theorems on validators take an accepted value apart. *)

Lemma eachIndexed_nil {A} (f : nat → A → list FieldError) l :
  eachIndexed f l = [] ↔ ∀ i x, l !! i = Some x → f i x = [].
Proof.
  unfold eachIndexed. revert f. induction l as [|y l IH]; intros f; cbn; [done|].
  rewrite app_nil. rewrite (IH (f ∘ S)). split.
  - intros [H0 Hl] [|i] x; cbn; [by intros [= <-]|apply Hl].
  - intros Hall. split; [by apply (Hall 0)|]. intros i x. apply (Hall (S i)).
Qed.

Lemma eachIndexed_elem {A} (f : nat → A → list FieldError) l x :
  eachIndexed f l = [] → x ∈ l → ∃ i, f i x = [].
Proof. rewrite eachIndexed_nil. intros Hall (i & Hi)%list_elem_of_lookup. eauto. Qed.

Lemma errorIf_nil b e : errorIf b e = [] ↔ b = false.
Proof. by destruct b. Qed.
Lemma whenSet_nil {A} (f : A → list FieldError) p : whenSet f p = [] ↔ ∀ x, p = Some x → f x = [].
Proof. destruct p; cbn; naive_solver. Qed.
Lemma invalids_nil p v msgs : invalids p v msgs = [] ↔ msgs = [].
Proof. by destruct msgs. Qed.
Lemma bind_nil {A} (f : A → list FieldError) l : l ≫= f = [] ↔ ∀ x, x ∈ l → f x = [].
Proof.
  induction l as [|y l IH]; cbn; [split; [by intros _ ? ?%elem_of_nil|done]|].
  rewrite app_nil, IH. split.
  - intros [Hy Hl] x [->|Hx]%elem_of_cons; auto.
  - intros Hall. split; [|intros x Hx]; apply Hall; by constructor.
Qed.

(** Splits an empty list of errors into its parts. *)
Ltac noerrors :=
  repeat match goal with
  | H : _ ++ _ = [] |- _ => apply app_nil in H as [? H]
  | H : errorIf _ _ = [] |- _ => apply errorIf_nil in H
  | H : negb _ = false |- _ => apply negb_false_iff in H
  | H : bool_decide _ = true |- _ => apply bool_decide_eq_true in H
  | H : bool_decide _ = false |- _ => apply bool_decide_eq_false in H
  | H : invalids _ _ _ = [] |- _ => apply invalids_nil in H
  end.

Lemma ToAggregate_nil `{ValidationLib} errs : ToAggregate errs = None → errs = [].
Proof. by destruct errs. Qed.
