(* ===== verification/HostValidation.v ===== *)
(** internal/validation/validation.go: ports, hosts and URIs.  [None] is the nil
    error; the parsers of net/url and net/netip are parameters. *)
From S2P Require Import Prelude GoStrings Regex Objects ProxyBuffers ParsingHelpers.

Definition port_regexp : regex := RCat (RChar 58) (RRange 1 5 (RIn digitRanges)).
Definition alnumDash : list (nat * nat) := one 45 :: alnumRanges.
Definition letterRanges : list (nat * nat) := lowerRanges ++ upperRanges.

(** validDNSRegex, validIPRegex, validHostnameRegex *)
Definition validDNSRegex : regex :=
  RCats [RIn alnumRanges; RRange 1 62 (RIn alnumDash); RChar 46;
         RStar (RCat (RRange 1 63 (RIn alnumDash)) (RChar 46));
         RRange 2 63 (RIn letterRanges); ROpt port_regexp].
Definition octet : regex :=
  RAlt (RCat (RLit "25") (RIn [(48, 53)]))
    (RAlt (RCat (RLit "2") (RCat (RIn [(48, 52)]) (RIn digitRanges)))
       (RAlt (RCat (RLit "1") (RExactly 2 (RIn digitRanges)))
          (RAlt (RCat (RIn [(49, 57)]) (RIn digitRanges)) (RIn digitRanges)))).
Definition validIPRegex : regex :=
  RCats [RExactly 3 (RCat octet (RChar 46)); octet; ROpt port_regexp].
Definition validHostnameRegex : regex :=
  RCats [RIn lowerRanges; RRange 1 62 (RIn alnumDash); ROpt port_regexp].

Definition ValidatePort (value : Z) : option string :=
  if (65535 <? value)%Z || (value <? 1)%Z
  then Some ("error parsing port: " +:+ fmtInt value +:+ " not a valid port number") else None.

Definition ValidateUnprivilegedPort (value : Z) : option string :=
  if (65535 <? value)%Z || (value <? 1023)%Z
  then Some ("port outside of valid port range [1024 - 65535]: " +:+ fmtInt value) else None.

(** The error of strconv.Atoi, its text shortened *)
Definition atoiError (s : string) : string := "strconv.Atoi: parsing " +:+ s.
Definition colon : Ascii.ascii := byte_at 58.

(** The port in the second of the chunks around colons *)
Definition chunkPort (chunks : list string) (invalid : string) : option string :=
  let chunk := default "" (chunks !! 1) in
  match Atoi chunk with
  | None => Some (atoiError chunk)
  | Some port => (λ err, invalid +:+ err) <$> ValidatePort port
  end.

Definition ValidateHost (host : string) : option string :=
  if bool_decide (host = "") then Some "error parsing host: empty host"
  else if MatchString validIPRegex host || MatchString validDNSRegex host
          || MatchString validHostnameRegex host then
    let chunks := Split colon host in
    if Nat.ltb 1 (length chunks) then chunkPort chunks "invalid port: " else None
  else Some ("error parsing host: " +:+ host +:+ " not a valid host").

(** ** URIs *)

(** What the validators read of a parsed URL: Scheme, User != nil, Host,
    Hostname(), Port(), Path (decoded), RawQuery and Fragment *)
Record URL := {
  url_Scheme : string;
  url_HasUser : bool;
  url_Host : string;
  url_Hostname : string;
  url_Port : string;
  url_Path : string;
  url_RawQuery : string;
  url_Fragment : string
}.
(** url.Parse, the error of url.ParseQuery, netip.ParseAddr with Is4 of the
    address; of package net: the host and the port of SplitHostPort, whether
    ParseIP accepts a text, and the error of ParseCIDR *)
Class URLLib := {
  url_Parse : string → string + URL;
  url_ParseQuery : string → option string;
  netip_ParseAddr : string → option bool;
  net_SplitHostPort : string → option (string * string);
  net_ParseIP : string → bool;
  net_ParseCIDR : string → option string
}.

Record uriValidator := {
  uv_allowedSchemes : list string;
  uv_userAllowed : bool;
  uv_defaultScheme : string
}.
Inductive URIValidationOption :=
  | WithAllowedSchemes (allowedSchemes : list string)
  | WithUserAllowed (userAllowed : bool)
  | WithDefaultScheme (defaultScheme : string).
Definition applyURIOption (u : uriValidator) (o : URIValidationOption) : uriValidator :=
  match o with
  | WithAllowedSchemes l => {| uv_allowedSchemes := l; uv_userAllowed := uv_userAllowed u;
                               uv_defaultScheme := uv_defaultScheme u |}
  | WithUserAllowed b => {| uv_allowedSchemes := uv_allowedSchemes u; uv_userAllowed := b;
                            uv_defaultScheme := uv_defaultScheme u |}
  | WithDefaultScheme s => {| uv_allowedSchemes := uv_allowedSchemes u;
                              uv_userAllowed := uv_userAllowed u; uv_defaultScheme := s |}
  end.

Definition dot : Ascii.ascii := byte_at 46.

Section URIs.
Context `{UL : URLLib}.

Definition ValidateURI (uri0 : string) (options : list URIValidationOption) : option string :=
  let cfg := foldl applyURIOption
    {| uv_allowedSchemes := ["http"; "https"]; uv_userAllowed := false; uv_defaultScheme := "https" |}
    options in
  let uri := if Contains uri0 "://" then uri0 else uv_defaultScheme cfg +:+ "://" +:+ uri0 in
  match url_Parse uri with
  | inl err => Some ("error parsing uri: " +:+ err)
  | inr parsed =>
      if negb (bool_decide (url_Scheme parsed ∈ uv_allowedSchemes cfg))
      then Some ("scheme " +:+ url_Scheme parsed +:+ " is not allowed")
      else if negb (uv_userAllowed cfg) && url_HasUser parsed then Some "user is not allowed"
      else
        let checkIPv6 := if Contains (url_Host parsed) "[" then url_Hostname parsed else url_Host parsed in
        if bool_decide (netip_ParseAddr checkIPv6 = Some false) then Some "ipv6 addresses are not allowed"
        else
          let portErr :=
            if bool_decide (url_Port parsed = "") then None
            else
              let invalid err := "invalid port " +:+ url_Port parsed +:+ ": " +:+ err in
              match Atoi (url_Port parsed) with
              | None => Some (invalid (atoiError (url_Port parsed)))
              | Some port => invalid <$> ValidatePort port
              end in
          match portErr with
          | Some err => Some err
          | None =>
              head (omap (λ part, if Nat.ltb 63 (String.length part)
                then Some ("invalid hostname part " +:+ part +:+ ", value must be between 1 and 63 octets")
                else None) (Split dot (url_Hostname parsed)))
          end
  end.
End URIs.
