(* ===== verification/PolicyObjects.v ===== *)
(** The Policy custom resource (pkg/apis/configuration/v1/types.go): one record
    per struct, with its fields.

    A pointer is an option.  A slice is a list, an option of one where the code
    tells nil from the empty slice; a duration is its nanoseconds.  The elements of
    [WAF.SecurityLogs], which are pointers, are never nil. *)
From S2P Require Import Prelude Objects.

(** intstr.IntOrString *)
Inductive IntOrString := FromInt (IntVal : Z) | FromString (StrVal : string).
(** metav1.Duration, whose Duration is an int64 *)
Definition Duration : Type := Z.

Definition BundleSourceTypeHTTPS : string := "HTTPS".
Definition BundleSourceTypeNIM : string := "NIM".
Definition BundleSourceTypeN1C : string := "N1C".

Record AccessControl := {
  ac_Allow : option (list string);
  ac_Deny : option (list string)
}.

Record JWTCondition := {
  jc_Claim : string;
  jc_Match : string
}.

Record VariableCondition := {
  vc_Name : string;
  vc_Match : string
}.

Record RateLimitCondition := {
  rlc_JWT : option JWTCondition;
  rlc_Variables : option (list VariableCondition);
  rlc_Default : bool
}.

Record RateLimit := {
  rl_Rate : string;
  rl_Key : string;
  rl_Delay : option Z;
  rl_NoDelay : option bool;
  rl_Burst : option Z;
  rl_ZoneSize : string;
  rl_DryRun : option bool;
  rl_LogLevel : string;
  rl_RejectCode : option Z;
  rl_Scale : bool;
  rl_Condition : option RateLimitCondition
}.

Record JWTAuth := {
  jwt_Realm : string;
  jwt_Secret : string;
  jwt_Token : string;
  jwt_JwksURI : string;
  jwt_KeyCache : string;
  jwt_SNIEnabled : bool;
  jwt_SNIName : string;
  jwt_SSLVerify : bool;
  jwt_TrustedCertSecret : string;
  jwt_SSLVerifyDepth : option Z
}.

Record BasicAuth := {
  ba_Realm : string;
  ba_Secret : string
}.

Record IngressMTLS := {
  im_ClientCertSecret : string;
  im_CrlFileName : string;
  im_VerifyClient : string;
  im_VerifyDepth : option Z
}.

Record EgressMTLS := {
  em_TLSSecret : string;
  em_VerifyServer : bool;
  em_VerifyDepth : option Z;
  em_Protocols : string;
  em_SessionReuse : option bool;
  em_Ciphers : string;
  em_TrustedCertSecret : string;
  em_ServerName : bool;
  em_SSLName : string
}.

Record OIDC := {
  oidc_AuthEndpoint : string;
  oidc_TokenEndpoint : string;
  oidc_JWKSURI : string;
  oidc_ClientID : string;
  oidc_ClientSecret : string;
  oidc_Scope : string;
  oidc_RedirectURI : string;
  oidc_EndSessionEndpoint : string;
  oidc_PostLogoutRedirectURI : string;
  oidc_ZoneSyncLeeway : option Z;
  oidc_AuthExtraArgs : option (list string);
  oidc_AccessTokenEnable : bool;
  oidc_PKCEEnable : bool;
  oidc_SSLVerify : bool;
  oidc_TrustedCertSecret : string;
  oidc_SSLVerifyDepth : option Z
}.

Record OIDCNative := {
  on_Issuer : string;
  on_ClientID : string;
  on_ClientSecret : string;
  on_ConfigURL : string;
  on_Scope : string;
  on_RedirectURI : string;
  on_CookieName : string;
  on_ExtraAuthArgs : string;
  on_PKCE : string;
  on_LogoutURI : string;
  on_PostLogoutRedirectURI : string;
  on_FrontChannelLogoutURI : string;
  on_LogoutTokenHint : bool;
  on_SessionTimeout : string;
  on_UserInfoEnable : bool;
  on_TrustedCertSecret : string;
  on_SSLVerify : option bool;
  on_SSLName : string;
  on_SSLVerifyDepth : option Z;
  on_ProxyBufferSize : string
}.

Record BundleSource := {
  bs_Type : string;
  bs_URL : string;
  bs_Secret : string;
  bs_TrustedCertSecret : string;
  bs_Name : string;
  bs_Namespace : string;
  bs_EnablePolling : bool;
  bs_PollInterval : option Duration;
  bs_Timeout : option Duration;
  bs_RetryAttempts : option Z;
  bs_InsecureSkipVerify : bool;
  bs_VerifyChecksum : bool
}.

Record SecurityLog := {
  slog_Enable : bool;
  slog_ApLogConf : string;
  slog_ApLogBundle : string;
  slog_ApLogBundleSource : option BundleSource;
  slog_LogDest : string
}.

Record WAF := {
  waf_Enable : bool;
  waf_ApPolicy : string;
  waf_ApBundle : string;
  waf_ApBundleSource : option BundleSource;
  waf_SecurityLog : option SecurityLog;
  waf_SecurityLogs : option (list SecurityLog)
}.

Record Wallarm := {
  wal_Mode : string;
  wal_ModeAllowOverride : string;
  wal_Fallback : string;
  wal_Application : option Z;
  wal_PartnerClientUUID : string;
  wal_BlockPage : string;
  wal_ParseResponse : string;
  wal_ParseWebsocket : string;
  wal_UnpackResponse : string;
  wal_ParserDisable : list string
}.

Record SuppliedIn := {
  si_Header : option (list string);
  si_Query : option (list string)
}.

Record APIKey := {
  ak_SuppliedIn : option SuppliedIn;
  ak_ClientSecret : string
}.

Record CacheManager := {
  cman_Files : option Z;
  cman_Sleep : string;
  cman_Threshold : string
}.

Record CacheLock := {
  clock_Enable : bool;
  clock_Timeout : string;
  clock_Age : string
}.

Record CacheConditions := {
  ccond_NoCache : list string;
  ccond_Bypass : list string
}.

Record Cache := {
  cache_CacheZoneName : string;
  cache_CacheZoneSize : string;
  cache_AllowedCodes : list IntOrString;
  cache_AllowedMethods : list string;
  cache_Time : string;
  cache_CachePurgeAllow : list string;
  cache_OverrideUpstreamCache : bool;
  cache_Levels : string;
  cache_Inactive : string;
  cache_UseTempPath : bool;
  cache_MaxSize : string;
  cache_MinFree : string;
  cache_Manager : option CacheManager;
  cache_CacheKey : string;
  cache_CacheUseStale : list string;
  cache_CacheRevalidate : bool;
  cache_CacheBackgroundUpdate : bool;
  cache_CacheMinUses : option Z;
  cache_Lock : option CacheLock;
  cache_Conditions : option CacheConditions
}.

Record CORS := {
  cors_AllowOrigin : list string;
  cors_AllowMethods : list string;
  cors_AllowHeaders : list string;
  cors_AllowCredentials : option bool;
  cors_ExposeHeaders : list string;
  cors_MaxAge : option Z
}.

Record ExternalAuth := {
  ea_AuthURI : string;
  ea_AuthServiceName : string;
  ea_AuthServicePorts : list Z;
  ea_AuthSigninURI : string;
  ea_AuthSnippets : string;
  ea_AuthSigninRedirectBasePath : string;
  ea_SSLEnabled : bool;
  ea_SSLVerify : bool;
  ea_SSLVerifyDepth : option Z;
  ea_TrustedCertSecret : string;
  ea_SNIName : string
}.

Record HSTS := {
  hsts_MaxAge : option Z;
  hsts_IncludeSubDomains : bool;
  hsts_BehindProxy : bool;
  hsts_Preload : bool
}.

Record PolicySpec := {
  ps_IngressClass : string;
  ps_AccessControl : option AccessControl;
  ps_RateLimit : option RateLimit;
  ps_JWTAuth : option JWTAuth;
  ps_BasicAuth : option BasicAuth;
  ps_IngressMTLS : option IngressMTLS;
  ps_EgressMTLS : option EgressMTLS;
  ps_OIDC : option OIDC;
  ps_OIDCNative : option OIDCNative;
  ps_WAF : option WAF;
  ps_Wallarm : option Wallarm;
  ps_APIKey : option APIKey;
  ps_Cache : option Cache;
  ps_CORS : option CORS;
  ps_ExternalAuth : option ExternalAuth;
  ps_HSTS : option HSTS
}.

(** Policy; the status the controller writes is left out. *)
Record Policy := {
  pol_Meta : ObjectMeta;
  pol_Spec : PolicySpec
}.
