(* ===== verification/PolicyValues.v ===== *)
(** Validation of policies (pkg/apis/configuration/validation/policy.go and
    appprotect_common.go), first part: the validators of single values. *)
From S2P Require Import Prelude GoStrings Regex Objects ProxyBuffers Directives ValidationLib.
From S2P Require Import ParsingHelpers CommonValidation VSUpstreamValidation.
From S2P Require Import HostValidation.

(** ** Strings *)

(** [strings.Cut(s, sep)] for a one-byte separator: before, after, found *)
Definition Cut (sep : Ascii.ascii) (s : string) : string * string * bool :=
  match cutAt sep s with
  | Some (a, b) => (a, b, true)
  | None => (s, "", false)
  end.

(** [path.Base]: the last element, trailing slashes removed; "." for the empty
    path and "/" for one of slashes only *)
Definition Base (path : string) : string :=
  if bool_decide (path = "") then "."
  else default "/" (last (filter (λ w, w ≠ "") (Split slash path))).

(** [unicode.IsSpace] *)
Definition IsSpace (r : Z) : bool :=
  between 9 13 r || existsb (Z.eqb r) [32; 133; 160; 5760; 8232; 8233; 8239; 8287; 12288]%Z
  || between 8192 8202 r.

(** [strings.FieldsFunc]: the non-empty pieces between the runes of [sep], each
    as its runes *)
Fixpoint splitRunes (sep : Z → bool) (runes : list Z) : list (list Z) :=
  match runes with
  | [] => [[]]
  | r :: rest =>
      if sep r then [] :: splitRunes sep rest
      else match splitRunes sep rest with
           | [] => [[r]]
           | w :: ws => (r :: w) :: ws
           end
  end.
Definition FieldsFunc (sep : Z → bool) (s : string) : list (list Z) :=
  filter (λ w, w ≠ []) (splitRunes sep (runesOf s)).

(** [regexp.ReplaceAllString] with a constant, for an expression without anchors
    that matches no empty text.  [length s] rounds are enough because each
    consumes a byte. *)
Fixpoint replaceAll (fuel : nat) (r : regex) (repl s : string) : string :=
  match fuel with
  | 0 => s
  | S fuel' =>
      match head (runs r s) with
      | Some x => repl +:+ replaceAll fuel' r repl (run_rest x)
      | None => match s with
                | EmptyString => ""
                | String c s' => String c (replaceAll fuel' r repl s')
                end
      end
  end.
Definition ReplaceAllString (r : regex) (repl s : string) : string :=
  replaceAll (String.length s) r repl s.

(** ** Dangerous characters *)

(** ; { } line feed, carriage return, $ and the backtick, all ASCII *)
Definition dangerousChars : list nat := [59; 123; 125; 10; 13; 36; 96].
Definition ContainsDangerousChars (value : string) : bool := ContainsAny value dangerousChars.
Definition ContainsWhitespace (value : string) : bool := existsb IsSpace (runesOf value).
Definition ContainsWhitespaceOrQuotes (value : string) : bool :=
  ContainsWhitespace value || ContainsDangerousChars value || ContainsAny value [34; 39; 92].

(** ** Grammars *)
Definition hexRanges : list (nat * nat) := digitRanges ++ [(97, 102); (65, 70)].
Definition wallarmPartnerClientUUIDRegex : regex :=
  RCats [RExactly 8 (RIn hexRanges); RChar 45; RExactly 4 (RIn hexRanges); RChar 45;
         RExactly 4 (RIn hexRanges); RChar 45; RExactly 4 (RIn hexRanges); RChar 45;
         RExactly 12 (RIn hexRanges)].
Definition wallarmPartnerClientLabelRegex : regex := RPlus (RIn (alnumRanges ++ [one 95; one 45])).
Definition cacheZoneNameRegexp : regex := RPlus (RIn (alnumRanges ++ [one 95; one 45])).
Definition cacheLevelsRegexp : regex :=
  RCat (RIn [(49, 50)]) (RUpTo 2 (RCat (RChar 58) (RIn [(49, 50)]))).
(** rateRegexp of policy.go *)
Definition policyRateRegexp : regex :=
  RCats [RIn [(49, 57)]; RStar (RIn digitRanges); RLit "r/"; RIn [one 115; one 83; one 109; one 77]].
Definition realmFmtRegexp : regex :=
  RStar (RAlt (RNotIn [one 34; one 36; one 92]) (RCat (RChar 92) (RNotIn [one 36]))).
Definition nginxVariableNameRegexp : regex :=
  RCat (RIn (one 95 :: upperRanges ++ lowerRanges)) (RStar (RIn (one 95 :: alnumRanges))).

(** \S+ and the expressions of log destinations *)
Definition nonSpaces : regex := RPlus (RNotIn spaceRanges).
Definition logDstFileEx : regex := RPlus (RCat (RChar 47) nonSpaces).
Definition logDstEx : regex :=
  RAlt (RCats [RLit "syslog:server=";
               RAlt (RCat (RExactly 3 (RCat (RRange 1 3 (RIn digitRanges)) (RChar 46)))
                          (RRange 1 3 (RIn digitRanges)))
                    (RAlt (RLit "localhost") (RPlus (RIn (alnumRanges ++ [one 46; one 95; one 45]))));
               RChar 58; RRange 1 5 (RIn digitRanges)])
    (RAlt (RLit "stderr") logDstFileEx).
Definition fqdnLabel : regex := RPlus (RIn (alnumRanges ++ [one 95; one 45])).
Definition logDstFQDNEx : regex := RCat (RPlus (RCat fqdnLabel (RChar 46))) fqdnLabel.

(** validOIDCScopeRanges *)
Definition validOIDCScopeRanges (r : Z) : bool :=
  (r =? 33)%Z || between 35 91 r || between 93 126 r.

Definition rateLimitKeySpecialVariables : list string := ["arg_"; "http_"; "cookie_"; "jwt_claim_"; "apikey_"].
Definition rateLimitKeyVariables : list string :=
  ["binary_remote_addr"; "request_uri"; "uri"; "args"; "request_method"].
Definition jwtTokenSpecialVariables : list string := ["arg_"; "http_"; "cookie_"].
Definition validLogLevels : list string := ["info"; "notice"; "warn"; "error"].
Definition validateVerifyClientKeyParameters : list string := ["on"; "off"; "optional"; "optional_no_ca"].

Section Values.
Context `{VL : ValidationLib} `{UL : URLLib}.

(** ** Log destinations *)

(** Behind the check of logDstEx, a destination that is neither stderr nor a file
    has three chunks around its colons and an equals sign in the second. *)
Definition ValidateAppProtectLogDestination (dstAntn : string) : option string :=
  let errormsg := "error parsing App Protect Log config: Destination must follow format: syslog:server=<ip-address | localhost>:<port> or fqdn or stderr or absolute path to file" in
  if ContainsDangerousChars dstAntn
  then Some (errormsg +:+ " Log Destination contains dangerous characters")
  else if negb (MatchString logDstEx dstAntn)
  then Some (errormsg +:+ " Log Destination did not follow format")
  else if bool_decide (dstAntn = "stderr") then None
  else if MatchString logDstFileEx dstAntn then None
  else
    let dstchunks := Split colon dstAntn in
    let port := default 0%Z (Atoi (default "" (dstchunks !! 2))) in
    if (65535 <? port)%Z || (port <? 1)%Z
    then Some ("error parsing port: " +:+ fmtInt port +:+ " not a valid port number")
    else
      let ipstr := default "" (Split equals (default "" (dstchunks !! 1)) !! 1) in
      if bool_decide (ipstr = "localhost") then None
      else if MatchString logDstFQDNEx ipstr then None
      else if negb (net_ParseIP ipstr)
      then Some ("error parsing host: " +:+ ipstr +:+ " is not a valid ip address or host name")
      else None.

(** ** Names, ports and URLs *)

Definition validateSSLName (name fieldPath : string) : list FieldError :=
  if bool_decide (name = "") then [] else invalids fieldPath name (IsDNS1123Subdomain name).

Definition validatePortNumber (port fieldPath : string) : list FieldError :=
  match Atoi port with
  | None => [Invalid fieldPath port "invalid port"]
  | Some portInt => match IsValidPortNum portInt with
                    | [] => []
                    | msg :: _ => [Invalid fieldPath port msg]
                    end
  end.

(** net.SplitHostPort with the whole text as the host when it fails *)
Definition hostAndPort (host : string) : string * string := default (host, "") (net_SplitHostPort host).

Definition hostPortErrors (host fieldPath : string) : list FieldError :=
  let '(host, port) := hostAndPort host in
  validateSSLName host fieldPath
  ++ (if bool_decide (port = "") then [] else validatePortNumber port fieldPath).

Definition validateURL (name fieldPath : string) : list FieldError :=
  match ValidateQuotedDirectiveValue name with
  | Some err => [Invalid fieldPath name err]
  | None =>
      match url_Parse name with
      | inl err => [Invalid fieldPath name err]
      | inr u =>
          if bool_decide (url_Scheme u = "")
          then [Invalid fieldPath name "scheme required, please use the prefix http(s)://"]
          else if bool_decide (url_Host u = "") then [Invalid fieldPath name "hostname required"]
          else if bool_decide (url_Path u = "") then [Invalid fieldPath name "path required"]
          else hostPortErrors (url_Host u) fieldPath
      end
  end.

Definition validateIssuerURL (issuer fieldPath : string) : list FieldError :=
  if ContainsWhitespaceOrQuotes issuer
  then [Invalid fieldPath issuer "must not include whitespace, quotes, or dangerous characters"]
  else match url_Parse issuer with
       | inl err => [Invalid fieldPath issuer err]
       | inr u =>
           if negb (bool_decide (url_Scheme u = "https")) then [Invalid fieldPath issuer "scheme must be https"]
           else if bool_decide (url_Host u = "") then [Invalid fieldPath issuer "hostname required"]
           else if negb (bool_decide (url_RawQuery u = "")) || negb (bool_decide (url_Fragment u = ""))
                   || url_HasUser u
           then [Invalid fieldPath issuer "must not include userinfo, query, or fragment"]
           else hostPortErrors (url_Host u) fieldPath
       end.

Definition validateJWKsURI (name fieldPath : string) : list FieldError :=
  validateURL name fieldPath
  ++ match url_Parse name with
     | inl _ => []
     | inr u =>
         errorIf (negb (bool_decide (url_Scheme u = "http")) && negb (bool_decide (url_Scheme u = "https")))
           (NotSupported fieldPath (url_Scheme u) ["http"; "https"])
         ++ errorIf (negb (bool_decide (url_Path u = ""))
                     && negb (bool_decide (ValidateDirectiveToken (url_Path u) = None)))
              (Invalid fieldPath name "path must remain a single NGINX token after percent-decoding")
     end.

Definition validateQueryString (queryString fieldPath : string) : list FieldError :=
  match ValidateQuotedDirectiveValue queryString with
  | Some err => [Invalid fieldPath queryString err]
  | None => match url_ParseQuery queryString with
            | Some err => [Invalid fieldPath queryString err]
            | None => []
            end
  end.

Definition validateBundleSourceURL (rawURL fieldPath : string) : list FieldError :=
  if ContainsDangerousChars rawURL then [Invalid fieldPath rawURL "url contains dangerous characters"]
  else match url_Parse rawURL with
       | inl err => [Invalid fieldPath rawURL ("invalid URL: " +:+ err)]
       | inr parsed =>
           errorIf (negb (bool_decide (url_Scheme parsed = "https")))
             (Invalid fieldPath rawURL "url must use https://")
           ++ errorIf (bool_decide (url_Host parsed = "")) (Invalid fieldPath rawURL "url must contain a host")
       end.

Definition validateIPorCIDR (ipOrCIDR fieldPath : string) : list FieldError :=
  if bool_decide (net_ParseCIDR ipOrCIDR = None) then []
  else if net_ParseIP ipOrCIDR then []
  else [Invalid fieldPath ipOrCIDR "must be a CIDR or IP"].

(** validateAuthURI *)
Definition validateAuthURI (authURI child : string) : list FieldError :=
  if bool_decide (authURI = "") then [Required child "authURI is required"] else validatePath authURI child.

Definition validateServicePorts (ports : list Z) (fieldPath : string) : list FieldError :=
  eachIndexed (λ i port, validatePortNumber (fmtInt port) (Index fieldPath i)) ports.

(** ** OIDC *)

Definition validateClientID (client fieldPath : string) : list FieldError :=
  if bool_decide (isValidHeaderValue client = []) then []
  else [Invalid fieldPath client ("invalid string. String must contain valid ASCII characters, must have all '"
          +:+ String dquote "' escaped and must not contain any '$' or end with an unescaped '\'")].

Definition validateOIDCScope (scope fieldPath : string) : list FieldError :=
  if negb (Contains scope "openid") then [Required fieldPath "openid is required"]
  else match List.find (λ v, negb (validOIDCScopeRanges v)) (Split (byte_at 43) scope ≫= runesOf) with
       | Some v => [Invalid fieldPath scope ("not allowed character " +:+ fmtInt v +:+ " in scope " +:+ scope)]
       | None => []
       end.

(** The loop over the tokens of validateOIDCNativeScope: the error of the first
    rune that is not allowed *)
Definition nativeScopeRune (scope fieldPath : string) (r : Z) : option FieldError :=
  if negb (validOIDCScopeRanges r)
  then Some (Invalid fieldPath scope ("not allowed character " +:+ encodeRune r +:+ " in scope " +:+ scope))
  else if existsb (Z.eqb r) [59; 123; 125; 36; 96; 35]%Z
  then Some (Invalid fieldPath scope ("character " +:+ encodeRune r +:+ " is not allowed in scope " +:+ scope))
  else None.
Definition validateOIDCNativeScope (scope fieldPath : string) : list FieldError :=
  let tokens := FieldsFunc (λ r, (r =? 43)%Z || IsSpace r) scope in
  match omap (nativeScopeRune scope fieldPath) (concat tokens) with
  | err :: _ => [err]
  | [] => if negb (bool_decide (runesOf "openid" ∈ tokens))
          then [Required fieldPath "openid is required as a scope token"] else []
  end.

Definition validatePKCE (PKCEEnable : bool) (clientSecret clientSecretPath : string) : list FieldError :=
  if negb PKCEEnable && bool_decide (clientSecret = "")
  then [Required clientSecretPath "clientSecret is required when PKCE is not used"]
  else if PKCEEnable && negb (bool_decide (clientSecret = ""))
  then [Forbidden clientSecretPath "clientSecret cannot be used when PKCE is used"]
  else [].

(** ** Rate limits *)

Definition validateRate (rate fieldPath : string) : list FieldError :=
  if bool_decide (rate = "") then [Required fieldPath ""]
  else if MatchString policyRateRegexp rate then []
  else [Invalid fieldPath rate (RegexError
          "must consist of numeric characters followed by a valid rate suffix. 'r/s|r/m" "[1-9]\d*r/[sSmM]"
          ["16r/s"; "32r/m"; "64r/s"])].

Definition validateRateLimitZoneSize (zoneSize fieldPath : string) : list FieldError :=
  if bool_decide (zoneSize = "") then [Required fieldPath ""]
  else
    let kbZoneSizeNum := Atoi (TrimSuffix (ToLower zoneSize) "k") in
    let mbZoneSizeNum := Atoi (TrimSuffix (ToLower zoneSize) "m") in
    validateSize zoneSize fieldPath
    ++ errorIf (match kbZoneSizeNum with Some n => (n <? 32)%Z | None => false end
                || match mbZoneSizeNum with Some n => (n =? 0)%Z | None => false end)
         (Invalid fieldPath zoneSize "must be greater than 31k").

(** The function that replaces one match of nginxVariableRegexp, its errors *)
Definition variableErrors (value fieldPath variable : string) : list FieldError :=
  let name := TrimSuffix (TrimPrefix variable "${") "}" in
  errorIf (negb (MatchString nginxVariableNameRegexp name)
           || negb (bool_decide (ValidateDirectiveToken name = None)))
    (Invalid fieldPath value "contains an invalid NGINX variable").

Definition validateDirectiveValueWithVariables (value fieldPath : string) : list FieldError :=
  ((FindAllStringSubmatch nginxVariableRegexp value).*1 ≫= variableErrors value fieldPath)
  ++ whenSet (λ err, [Invalid fieldPath value err])
       (ValidateDirectiveValue (ReplaceAllString nginxVariableRegexp "$variable" value)).

Definition validateRateLimitKey (key fieldPath : string) (isPlus : bool) : list FieldError :=
  if bool_decide (key = "") then [Required fieldPath ""]
  else whenSet (λ err, [Invalid fieldPath key err])
         (ValidateEscapedString key ["Hello World! \n";
            "\" +:+ String dquote "${request_uri}\" +:+ String dquote " is unavailable. \n"])
       ++ validateDirectiveValueWithVariables key fieldPath
       ++ validateStringWithVariables key fieldPath rateLimitKeySpecialVariables rateLimitKeyVariables isPlus.

Definition validateRateLimitLogLevel (logLevel fieldPath : string) : list FieldError :=
  errorIf (negb (bool_decide (logLevel ∈ validLogLevels))) (Invalid fieldPath logLevel "Accepted values").

Definition validatePositiveInt (n : Z) (fieldPath : string) : list FieldError :=
  errorIf (n <=? 0)%Z (Invalid fieldPath (fmtInt n) "must be positive").

(** ** Authentication *)

Definition validateRealm (realm fieldPath : string) : list FieldError :=
  if MatchString realmFmtRegexp realm then []
  else [Invalid fieldPath realm (RegexError
          ("a valid realm must have all '" +:+ String dquote
             "' escaped and must not contain any '$' or end with an unescaped '\'")
          ("([^" +:+ String dquote "$\\]|\\[^$])*") ["MyAPI"; "My Product API"])].

Definition dollar : Ascii.ascii := byte_at 36.
(** The token has one dollar, so it is not empty and token[1:] is in range. *)
Definition validateJWTToken (token fieldPath : string) : list FieldError :=
  if bool_decide (token = "") then []
  else if negb (Nat.eqb (length (Split dollar token)) 2) then [Invalid fieldPath token "must have 1 var"]
  else
    let nVar := dropBytes 1 token in
    if negb (existsb (HasPrefix nVar) jwtTokenSpecialVariables)
    then [Invalid fieldPath token "must only have special vars"]
    else validateSpecialVariable nVar fieldPath true.

Definition validateIngressMTLSVerifyClient (verifyClient fieldPath : string) : list FieldError :=
  if bool_decide (verifyClient = "") then []
  else ValidateParameter verifyClient validateVerifyClientKeyParameters fieldPath.

Definition validateCRLFileName (name fieldPath : string) : list FieldError :=
  if bool_decide (name = "") then []
  else errorIf (negb (bool_decide (ValidateDirectiveToken name = None)) || ContainsAny name [34; 39]
                || bool_decide (name = ".") || bool_decide (name = "..")
                || negb (bool_decide (Base name = name)))
         (Invalid fieldPath name "must be a safe file basename").

(** ** Headers and origins of CORS *)

Definition validateHeaderName (header fieldPath : string) : list FieldError :=
  errorIf (negb (isValidHeaderName header))
    (Invalid fieldPath header "RFC 7230 violation: invalid header name, must contain only letters, digits, hyphens")
  ++ errorIf (ContainsDangerousChars header)
       (Invalid fieldPath header
          "header name contains dangerous characters that could cause nginx configuration injection").

Definition forbiddenHeaders : list string :=
  ["accept-charset"; "accept-encoding"; "access-control-request-headers"; "access-control-request-method";
   "connection"; "content-length"; "cookie"; "date"; "dnt"; "expect"; "host"; "keep-alive";
   "origin"; "referer"; "set-cookie"; "te"; "trailer"; "transfer-encoding"; "upgrade"; "via"].
Definition isForbiddenRequestHeader (header : string) : bool :=
  let lower := ToLower header in
  bool_decide (lower ∈ forbiddenHeaders) || HasPrefix lower "proxy-" || HasPrefix lower "sec-".
Definition isForbiddenResponseHeader (header : string) : bool :=
  bool_decide (ToLower header = "set-cookie") || bool_decide (ToLower header = "set-cookie2").

Definition validateParsedOriginBase (parsedOrigin : URL) : option string :=
  if negb (bool_decide (url_Scheme parsedOrigin = "http")) && negb (bool_decide (url_Scheme parsedOrigin = "https"))
  then Some "origin must start with http:// or https:// (or be '*')"
  else if bool_decide (url_Host parsedOrigin = "") then Some "origin host cannot be empty"
  else if url_HasUser parsedOrigin then Some "origin must not include @"
  else if negb (bool_decide (url_Path parsedOrigin = "")) && negb (bool_decide (url_Path parsedOrigin = "/"))
  then Some "origin must not include a path"
  else if negb (bool_decide (url_RawQuery parsedOrigin = "")) then Some "origin must not include query parameters"
  else if negb (bool_decide (url_Fragment parsedOrigin = "")) then Some "origin must not include a fragment"
  else None.

Definition validateWildcardOriginHost (origin host : string) : option string :=
  let domain := dropBytes 2 host in
  if bool_decide (domain = "")
  then Some ("wildcard subdomain cannot be empty (invalid format: " +:+ origin +:+ ")")
  else if Contains domain "*"
  then Some ("only single-level wildcard subdomains are supported (invalid: " +:+ origin +:+ ")")
  else
    let '(domainPart, port, hasPort) := Cut colon domain in
    if hasPort && bool_decide (port = "")
    then Some ("port cannot be empty when colon is present (invalid: " +:+ origin +:+ ")")
    else if hasPort && bool_decide (Atoi port = None)
    then Some ("port must be numeric (invalid: " +:+ origin +:+ ")")
    else match IsDNS1123Subdomain domainPart with
         | [] => None
         | errs => Some ("wildcard subdomain is not a valid DNS name: " +:+ Join ", " errs
                         +:+ " (invalid: " +:+ origin +:+ ")")
         end.

Definition validateExactOriginHost (host : string) : option string :=
  if bool_decide (host = "") then Some "origin host cannot be empty"
  else if Contains host "*"
  then Some "wildcards are only supported in subdomain format (*.domain.com), not in other positions"
  else None.

Definition validateOriginFormat (origin : string) : option string :=
  if bool_decide (origin = "*") then None
  else match url_Parse origin with
       | inl _ => Some "invalid origin URL format"
       | inr parsedOrigin =>
           match validateParsedOriginBase parsedOrigin with
           | Some err => Some err
           | None =>
               let host := url_Host parsedOrigin in
               if HasPrefix host "*." then validateWildcardOriginHost origin host
               else validateExactOriginHost host
           end
       end.
End Values.
