(* ===== verification/PolicyValidation.v ===== *)
(** Validation of policies (pkg/apis/configuration/validation/policy.go), second
    part: a validator per kind of policy, and ValidatePolicy. *)
From S2P Require Import Prelude GoStrings Regex Objects ProxyBuffers Directives ValidationLib.
From S2P Require Import ParsingHelpers CommonValidation VSUpstreamValidation.
From S2P Require Import HostValidation.
From S2P Require Import PolicyObjects PolicyValues.

(** [if s != "" { ... }] *)
Definition whenNonEmpty (s : string) (errs : list FieldError) : list FieldError :=
  if bool_decide (s = "") then [] else errs.

(** The number of the conditions that hold *)
Definition countTrue (conds : list bool) : nat := length (filter (λ b, b = true) conds).

Section Kinds.
Context `{VL : ValidationLib} `{UL : URLLib}.

(** ** AccessControl *)
Definition validateAccessControl (accessControl : AccessControl) (fieldPath : string) : list FieldError :=
  let each name ips := eachIndexed (λ i ip, validateIPorCIDR ip (Index (Child fieldPath name) i)) ips in
  whenSet (each "allow") (ac_Allow accessControl)
  ++ whenSet (each "deny") (ac_Deny accessControl)
  ++ errorIf (negb (Nat.eqb (countTrue [bool_decide (is_Some (ac_Allow accessControl));
                                        bool_decide (is_Some (ac_Deny accessControl))]) 1))
       (Invalid fieldPath "" "must specify exactly one of: `allow` or `deny`").

(** ** RateLimit *)

(** A segment of a claim, or a match: a token without a dollar *)
Definition isLiteralToken (s : string) : bool :=
  bool_decide (ValidateDirectiveToken s = None) && negb (Contains s "$").

Definition validateRateLimitJWTCondition (condition : JWTCondition) (fieldPath : string) : list FieldError :=
  let claimPath := Child fieldPath "claim" in
  let matchPath := Child fieldPath "match" in
  (if bool_decide (jc_Claim condition = "") then [Required claimPath ""]
   else errorIf (existsb (λ segment, negb (isLiteralToken segment)) (Split dot (jc_Claim condition)))
          (Invalid claimPath (jc_Claim condition) "must contain literal claim-name tokens separated by dots"))
  ++ (if bool_decide (jc_Match condition = "") then [Required matchPath ""]
      else errorIf (negb (isLiteralToken (jc_Match condition)))
             (Invalid matchPath (jc_Match condition) "must be a literal NGINX token")).

Definition validateRateLimitVariableCondition (condition : VariableCondition) (fieldPath : string)
    (isPlus : bool) : list FieldError :=
  let namePath := Child fieldPath "name" in
  let matchPath := Child fieldPath "match" in
  (if negb (bool_decide (ValidateDirectiveToken (vc_Name condition) = None))
      || negb (HasPrefix (vc_Name condition) "$")
   then [Invalid namePath (vc_Name condition) "must be a single NGINX variable"]
   else
     let name := TrimPrefix (vc_Name condition) "$" in
     if existsb (HasPrefix name) rateLimitKeySpecialVariables then validateSpecialVariable name namePath isPlus
     else validateVariable name rateLimitKeyVariables namePath)
  ++ (if bool_decide (vc_Match condition = "") then [Required matchPath ""]
      else match ValidateEscapedString (vc_Match condition) [] with
           | Some err => [Invalid matchPath (vc_Match condition) err]
           | None => errorIf (ContainsAny (vc_Match condition) [13; 10])
                       (Invalid matchPath (vc_Match condition) "must not contain line breaks")
           end).

Definition validateRateLimitCondition (condition : RateLimitCondition) (conditionPath : string)
    (isPlus : bool) : list FieldError :=
  let jwt := bool_decide (is_Some (rlc_JWT condition)) in
  let variables := bool_decide (is_Some (rlc_Variables condition)) in
  errorIf (negb jwt && negb variables)
    (Required conditionPath "must specify either jwt or variable conditions")
  ++ errorIf (jwt && variables) (Required conditionPath "only one condition, jwt or variables is allowed")
  ++ whenSet (λ c, validateRateLimitJWTCondition c (Child conditionPath "jwt")
                   ++ errorIf (negb isPlus)
                        (Forbidden (Child conditionPath "jwt") "is only supported in NGINX Plus"))
       (rlc_JWT condition)
  ++ whenSet (λ vars,
       errorIf (Nat.eqb (length vars) 0)
         (Required (Child conditionPath "variables") "must contain a variable condition")
       ++ eachIndexed (λ i c, validateRateLimitVariableCondition c
                                (Index (Child conditionPath "variables") i) isPlus) vars)
       (rlc_Variables condition).

Definition validateRateLimit (rateLimit : RateLimit) (fieldPath : string) (isPlus : bool) : list FieldError :=
  validateRateLimitZoneSize (rl_ZoneSize rateLimit) (Child fieldPath "zoneSize")
  ++ validateRate (rl_Rate rateLimit) (Child fieldPath "rate")
  ++ validateRateLimitKey (rl_Key rateLimit) (Child fieldPath "key") isPlus
  ++ whenSet (λ n, validatePositiveInt n (Child fieldPath "delay")) (rl_Delay rateLimit)
  ++ whenSet (λ n, validatePositiveInt n (Child fieldPath "burst")) (rl_Burst rateLimit)
  ++ whenNonEmpty (rl_LogLevel rateLimit)
       (validateRateLimitLogLevel (rl_LogLevel rateLimit) (Child fieldPath "logLevel"))
  ++ whenSet (λ code, errorIf ((code <? 400)%Z || (599 <? code)%Z)
                        (Invalid (Child fieldPath "rejectCode") (fmtInt code) "must be within the range [400-599]"))
       (rl_RejectCode rateLimit)
  ++ whenSet (λ c, validateRateLimitCondition c (Child fieldPath "condition") isPlus) (rl_Condition rateLimit).

(** ** JWT, BasicAuth *)

Definition validateJWTSecret (jwt : JWTAuth) (fieldPath : string) : list FieldError :=
  validateSecretName (jwt_Secret jwt) (Child fieldPath "secret")
  ++ whenNonEmpty (jwt_Token jwt) (validateJWTToken (jwt_Token jwt) (Child fieldPath "token"))
  ++ whenNonEmpty (jwt_KeyCache jwt)
       [Forbidden (Child fieldPath "keyCache") "key cache must not be used when using Secret"]
  ++ (if jwt_SNIEnabled jwt
      then [Forbidden (Child fieldPath "sniEnabled") "sniEnabled can only be set when JwksURI is set"]
      else whenNonEmpty (jwt_SNIName jwt)
             [Forbidden (Child fieldPath "sniName") "sniName can only be set when JwksURI is set"]).

Definition validateJWTJwks (jwt : JWTAuth) (fieldPath : string) : list FieldError :=
  validateJWKsURI (jwt_JwksURI jwt) (Child fieldPath "jwksURI")
  ++ validateTime (jwt_KeyCache jwt) (Child fieldPath "keyCache")
  ++ whenNonEmpty (jwt_Token jwt) (validateJWTToken (jwt_Token jwt) (Child fieldPath "token"))
  ++ errorIf (bool_decide (jwt_KeyCache jwt = ""))
       (Required (Child fieldPath "keyCache") "key cache must be set, example value: 1h")
  ++ errorIf (negb (bool_decide (jwt_SNIName jwt = "")) && negb (jwt_SNIEnabled jwt))
       (Forbidden (Child fieldPath "sniServerName") "sniServerName can only be set when sniEnabled is true")
  ++ errorIf (jwt_SNIEnabled jwt && negb (bool_decide (jwt_SNIName jwt = ""))
              && negb (bool_decide (ValidateURI (jwt_SNIName jwt)
                         [WithAllowedSchemes ["https"]; WithUserAllowed false; WithDefaultScheme "https"] = None)))
       (Invalid (Child fieldPath "sniServerName") (jwt_SNIName jwt) "sniServerName is not a valid URI")
  ++ whenNonEmpty (jwt_TrustedCertSecret jwt)
       (validateSecretName (jwt_TrustedCertSecret jwt) (Child fieldPath "trustedCertSecret")
        ++ errorIf (negb (jwt_SSLVerify jwt))
             (Invalid (Child fieldPath "sslVerify") "false"
                "sslVerify should be enabled when trustedCertSecret is specified")).

Definition validateJWT (jwt : JWTAuth) (fieldPath : string) : list FieldError :=
  if bool_decide (jwt_Realm jwt = "") then [Required (Child fieldPath "realm") "realm field must be present"]
  else
    validateRealm (jwt_Realm jwt) (Child fieldPath "realm")
    ++ match bool_decide (jwt_Secret jwt = ""), bool_decide (jwt_JwksURI jwt = "") with
       | true, true => [Required (Child fieldPath "secret") "either Secret or JwksURI must be present"]
       | false, false => [Forbidden (Child fieldPath "secret") "only either of Secret or JwksURI can be used"]
       | false, true => validateJWTSecret jwt fieldPath
       | true, false => validateJWTJwks jwt fieldPath
       end.

Definition validateBasic (basic : BasicAuth) (fieldPath : string) : list FieldError :=
  if bool_decide (ba_Secret basic = "") then [Required (Child fieldPath "secret") ""]
  else whenNonEmpty (ba_Realm basic) (validateRealm (ba_Realm basic) (Child fieldPath "realm"))
       ++ validateSecretName (ba_Secret basic) (Child fieldPath "secret").

(** ** IngressMTLS, EgressMTLS *)

Definition validateIngressMTLS (ingressMTLS : IngressMTLS) (fieldPath : string) : list FieldError :=
  if bool_decide (im_ClientCertSecret ingressMTLS = "") then [Required (Child fieldPath "clientCertSecret") ""]
  else
    validateSecretName (im_ClientCertSecret ingressMTLS) (Child fieldPath "clientCertSecret")
    ++ validateIngressMTLSVerifyClient (im_VerifyClient ingressMTLS) (Child fieldPath "verifyClient")
    ++ validateCRLFileName (im_CrlFileName ingressMTLS) (Child fieldPath "crlFileName")
    ++ whenSet (λ n, validatePositiveIntOrZero n (Child fieldPath "verifyDepth")) (im_VerifyDepth ingressMTLS).

Definition validateEgressMTLS (egressMTLS : EgressMTLS) (fieldPath : string) : list FieldError :=
  validateSecretName (em_TLSSecret egressMTLS) (Child fieldPath "tlsSecret")
  ++ (if em_VerifyServer egressMTLS && bool_decide (em_TrustedCertSecret egressMTLS = "")
      then [Required (Child fieldPath "trustedCertSecret") "must be set when verifyServer is 'true'"]
      else
        validateSecretName (em_TrustedCertSecret egressMTLS) (Child fieldPath "trustedCertSecret")
        ++ whenSet (λ n, validatePositiveIntOrZero n (Child fieldPath "verifyDepth")) (em_VerifyDepth egressMTLS)
        ++ errorIf (negb (bool_decide (em_Ciphers egressMTLS = ""))
                    && negb (MatchString SSLCiphersRegex (em_Ciphers egressMTLS)))
             (Invalid (Child fieldPath "ciphers") (em_Ciphers egressMTLS) "contains invalid characters")
        ++ whenNonEmpty (em_Protocols egressMTLS)
             (whenSet (λ err, [Invalid (Child fieldPath "protocols") (em_Protocols egressMTLS) err])
                (ValidateTLSProtocols (em_Protocols egressMTLS)))
        ++ validateSSLName (em_SSLName egressMTLS) (Child fieldPath "sslName")).

(** ** OIDC, OIDCNative *)

Definition validateOIDC (oidc : OIDC) (fieldPath : string) : list FieldError :=
  if bool_decide (oidc_AuthEndpoint oidc = "") then [Required (Child fieldPath "authEndpoint") ""]
  else if bool_decide (oidc_TokenEndpoint oidc = "") then [Required (Child fieldPath "tokenEndpoint") ""]
  else if bool_decide (oidc_JWKSURI oidc = "") then [Required (Child fieldPath "jwksURI") ""]
  else if bool_decide (oidc_ClientID oidc = "") then [Required (Child fieldPath "clientID") ""]
  else if bool_decide (oidc_EndSessionEndpoint oidc = "")
          && negb (bool_decide (oidc_PostLogoutRedirectURI oidc = ""))
  then [Forbidden (Child fieldPath "postLogoutRedirectURI")
          "postLogoutRedirectURI can only be set when endSessionEndpoint is set"]
  else
    validatePKCE (oidc_PKCEEnable oidc) (oidc_ClientSecret oidc) (Child fieldPath "clientSecret")
    ++ whenNonEmpty (oidc_Scope oidc) (validateOIDCScope (oidc_Scope oidc) (Child fieldPath "scope"))
    ++ whenNonEmpty (oidc_RedirectURI oidc)
         (validatePath (oidc_RedirectURI oidc) (Child fieldPath "redirectURI"))
    ++ whenNonEmpty (oidc_EndSessionEndpoint oidc)
         (validateURL (oidc_EndSessionEndpoint oidc) (Child fieldPath "endSessionEndpoint"))
    ++ whenNonEmpty (oidc_PostLogoutRedirectURI oidc)
         (validatePath (oidc_PostLogoutRedirectURI oidc) (Child fieldPath "postLogoutRedirectURI"))
    ++ whenSet (λ n, validatePositiveIntOrZero n (Child fieldPath "zoneSyncLeeway")) (oidc_ZoneSyncLeeway oidc)
    ++ whenSet (λ args, validateQueryString (Join "&" args) (Child fieldPath "authExtraArgs"))
         (oidc_AuthExtraArgs oidc)
    ++ whenNonEmpty (oidc_TrustedCertSecret oidc)
         (validateSecretName (oidc_TrustedCertSecret oidc) (Child fieldPath "trustedCertSecret"))
    ++ validateURL (oidc_AuthEndpoint oidc) (Child fieldPath "authEndpoint")
    ++ validateURL (oidc_TokenEndpoint oidc) (Child fieldPath "tokenEndpoint")
    ++ validateURL (oidc_JWKSURI oidc) (Child fieldPath "jwksURI")
    ++ validateSecretName (oidc_ClientSecret oidc) (Child fieldPath "clientSecret")
    ++ validateClientID (oidc_ClientID oidc) (Child fieldPath "clientID").

Definition validateOIDCNativeSecrets (o : OIDCNative) (fieldPath : string) : list FieldError :=
  errorIf (bool_decide (on_SSLVerify o = Some false) && negb (bool_decide (on_TrustedCertSecret o = "")))
    (Forbidden (Child fieldPath "trustedCertSecret") "trustedCertSecret can be set only if sslVerify is true")
  ++ whenNonEmpty (on_ClientSecret o) (validateSecretName (on_ClientSecret o) (Child fieldPath "clientSecret"))
  ++ whenNonEmpty (on_TrustedCertSecret o)
       (validateSecretName (on_TrustedCertSecret o) (Child fieldPath "trustedCertSecret")).

Definition validateOIDCNativeLimits (o : OIDCNative) (fieldPath : string) : list FieldError :=
  whenNonEmpty (on_SessionTimeout o)
    (validateTime (on_SessionTimeout o) (Child fieldPath "sessionTimeout")
     ++ errorIf (Nat.ltb 10 (String.length (on_SessionTimeout o)))
          (Invalid (Child fieldPath "sessionTimeout") (on_SessionTimeout o) "sessionTimeout value is too large"))
  ++ whenNonEmpty (on_ProxyBufferSize o)
       (validateSize (on_ProxyBufferSize o) (Child fieldPath "proxyBufferSize")
        ++ errorIf (Nat.ltb 10 (String.length (on_ProxyBufferSize o)))
             (Invalid (Child fieldPath "proxyBufferSize") (on_ProxyBufferSize o)
                "proxyBufferSize value is too large")).

(** One URI of validateOIDCNativeURIs *)
Definition nativeURI (uri fieldPath : string) : list FieldError :=
  whenNonEmpty uri
    (errorIf (ContainsWhitespaceOrQuotes uri)
       (Invalid fieldPath uri "must not include whitespace, quotes, or dangerous characters")
     ++ validatePath uri fieldPath).
Definition validateOIDCNativeURIs (o : OIDCNative) (fieldPath : string) : list FieldError :=
  nativeURI (on_RedirectURI o) (Child fieldPath "redirectURI")
  ++ nativeURI (on_LogoutURI o) (Child fieldPath "logoutURI")
  ++ nativeURI (on_PostLogoutRedirectURI o) (Child fieldPath "postLogoutRedirectURI")
  ++ nativeURI (on_FrontChannelLogoutURI o) (Child fieldPath "frontChannelLogoutURI").

(** The checks of sessionTimeout and proxyBufferSize are made twice, by
    validateOIDCNativeLimits and after it. *)
Definition validateOIDCNative (o : OIDCNative) (fieldPath : string) : list FieldError :=
  if bool_decide (on_Issuer o = "") then [Required (Child fieldPath "issuer") ""]
  else if bool_decide (on_ClientID o = "") then [Required (Child fieldPath "clientID") ""]
  else
    validateIssuerURL (on_Issuer o) (Child fieldPath "issuer")
    ++ validateClientID (on_ClientID o) (Child fieldPath "clientID")
    ++ whenNonEmpty (on_Scope o) (validateOIDCNativeScope (on_Scope o) (Child fieldPath "scope"))
    ++ validateOIDCNativeSecrets o fieldPath
    ++ whenNonEmpty (on_ConfigURL o)
         (errorIf (ContainsWhitespaceOrQuotes (on_ConfigURL o))
            (Invalid (Child fieldPath "configURL") (on_ConfigURL o)
               "must not include whitespace, quotes, or dangerous characters")
          ++ validateURL (on_ConfigURL o) (Child fieldPath "configURL"))
    ++ validateOIDCNativeURIs o fieldPath
    ++ whenNonEmpty (on_CookieName o)
         (invalids (Child fieldPath "cookieName") (on_CookieName o) (isCookieName (on_CookieName o)))
    ++ whenNonEmpty (on_ExtraAuthArgs o)
         (validateQueryString (on_ExtraAuthArgs o) (Child fieldPath "extraAuthArgs"))
    ++ validateSSLName (on_SSLName o) (Child fieldPath "sslName")
    ++ validateOIDCNativeLimits o fieldPath
    ++ validateOIDCNativeLimits o fieldPath
    ++ (if bool_decide (on_PKCE o = "on")
        then validatePKCE true (on_ClientSecret o) (Child fieldPath "clientSecret")
        else if bool_decide (on_PKCE o = "off")
        then validatePKCE false (on_ClientSecret o) (Child fieldPath "clientSecret") else []).

(** ** APIKey *)

Definition validateAPIKey (apiKey : APIKey) (fieldPath : string) : list FieldError :=
  match ak_SuppliedIn apiKey with
  | None => [Required (Child fieldPath "suppliedIn") "suppliedIn cannot be nil"]
  | Some suppliedIn =>
      errorIf (bool_decide (si_Query suppliedIn = None) && bool_decide (si_Header suppliedIn = None))
        (Required (Child fieldPath "suppliedIn") "at least one query or header name must be provided")
      ++ whenSet (λ headers, headers ≫= λ header,
                    invalids (Child fieldPath "suppliedIn.header") header (IsHTTPHeaderName header))
           (si_Header suppliedIn)
      ++ whenSet (eachIndexed (λ i query,
                    invalids (Index (Child (Child fieldPath "suppliedIn") "query") i) query (isArgumentName query)))
           (si_Query suppliedIn)
      ++ (if bool_decide (ak_ClientSecret apiKey = "")
          then [Required (Child fieldPath "clientSecret") "clientSecret cannot be empty"]
          else validateSecretName (ak_ClientSecret apiKey) (Child fieldPath "clientSecret"))
  end.

(** ** WAF *)

Definition minBundlePollInterval : Duration := (60 * 10 ^ 9)%Z.

Definition validateBundleSourceType (bs : BundleSource) (srcType fieldPath : string)
    : list FieldError * bool :=
  let name_ := Child fieldPath "name" in
  let namespace_ := Child fieldPath "namespace" in
  let dangerous p v what := errorIf (ContainsDangerousChars v) (Invalid p v (what +:+ " contains dangerous characters")) in
  let checksum := errorIf (bs_VerifyChecksum bs)
    (Invalid (Child fieldPath "verifyChecksum") "true" "verifyChecksum is only supported for HTTPS type") in
  if bool_decide (srcType = BundleSourceTypeHTTPS) then
    (whenNonEmpty (bs_Name bs) [Invalid name_ (bs_Name bs) "name is only valid for NIM and N1C"]
     ++ whenNonEmpty (bs_Namespace bs) [Invalid namespace_ (bs_Namespace bs) "namespace is only valid for N1C"],
     false)
  else if bool_decide (srcType = BundleSourceTypeNIM) then
    ((if bool_decide (bs_Name bs = "") then [Required name_ "name is required for NIM"]
      else dangerous name_ (bs_Name bs) "name")
     ++ whenNonEmpty (bs_Namespace bs) [Invalid namespace_ (bs_Namespace bs) "namespace is only valid for N1C"]
     ++ checksum, false)
  else if bool_decide (srcType = BundleSourceTypeN1C) then
    ((if bool_decide (bs_Name bs = "") then [Required name_ "name is required for N1C"]
      else dangerous name_ (bs_Name bs) "name")
     ++ (if bool_decide (bs_Namespace bs = "") then [Required namespace_ "namespace is required for N1C"]
         else dangerous namespace_ (bs_Namespace bs) "namespace")
     ++ checksum, false)
  else ([NotSupported (Child fieldPath "type") srcType
           [BundleSourceTypeHTTPS; BundleSourceTypeNIM; BundleSourceTypeN1C]], true).

Definition validateBundleSource (bs : BundleSource) (fieldPath : string) : list FieldError :=
  let srcType := if bool_decide (bs_Type bs = "") then BundleSourceTypeHTTPS else bs_Type bs in
  if bool_decide (bs_URL bs = "") then [Required (Child fieldPath "url") "url is required"]
  else
    let '(typeErrs, earlyReturn) := validateBundleSourceType bs srcType fieldPath in
    validateBundleSourceURL (bs_URL bs) (Child fieldPath "url")
    ++ typeErrs
    ++ (if earlyReturn then []
        else
          whenNonEmpty (bs_Secret bs) (validateSecretName (bs_Secret bs) (Child fieldPath "secret"))
          ++ whenNonEmpty (bs_TrustedCertSecret bs)
               (validateSecretName (bs_TrustedCertSecret bs) (Child fieldPath "trustedCertSecret"))
          ++ whenSet (λ d, errorIf (bs_EnablePolling bs && (d <? minBundlePollInterval)%Z)
               (Invalid (Child fieldPath "pollInterval") (fmtInt d)
                  "pollInterval must be at least 1m0s when enablePolling is true")) (bs_PollInterval bs)
          ++ whenSet (λ d, errorIf (d <=? 0)%Z
               (Invalid (Child fieldPath "timeout") (fmtInt d) "timeout must be positive")) (bs_Timeout bs)).

(** The errors of fields of which more than one is set: each with its value *)
Definition exclusive (fieldPath msg : string) (fields : list (string * option string)) : list FieldError :=
  let set := omap (λ f : string * option string, (λ v, (f.1, v)) <$> f.2) fields in
  if Nat.ltb 1 (length set)
  then (λ f : string * string, Invalid (Child fieldPath f.1) f.2 msg) <$> set else [].
(** A string field that is set when it is not empty *)
Definition nonEmpty (s : string) : option string := if bool_decide (s = "") then None else Some s.

Definition validateLogConf (logConf : SecurityLog) (fieldPath : string) (bundleMode : bool) : list FieldError :=
  exclusive fieldPath "apLogConf, apLogBundle, and apLogBundleSource are mutually exclusive"
    [("apLogConf", nonEmpty (slog_ApLogConf logConf)); ("apLogBundle", nonEmpty (slog_ApLogBundle logConf));
     ("apLogBundleSource", bs_URL <$> slog_ApLogBundleSource logConf)]
  ++ whenNonEmpty (slog_ApLogConf logConf)
       (errorIf bundleMode (Invalid (Child fieldPath "apLogConf") (slog_ApLogConf logConf)
          "apLogConf is not supported with apBundle or apBundleSource")
        ++ invalids (Child fieldPath "apLogConf") (slog_ApLogConf logConf) (IsQualifiedName (slog_ApLogConf logConf)))
  ++ whenNonEmpty (slog_ApLogBundle logConf)
       (errorIf (negb bundleMode) (Invalid (Child fieldPath "apLogBundle") (slog_ApLogBundle logConf)
          "apLogBundle is not supported with apPolicy")
        ++ invalids (Child fieldPath "apLogBundle") (slog_ApLogBundle logConf)
             (IsQualifiedName (slog_ApLogBundle logConf)))
  ++ whenSet (λ bs,
       errorIf (negb bundleMode) (Invalid (Child fieldPath "apLogBundleSource") (bs_URL bs)
         "apLogBundleSource requires the parent WAF to use apBundle or apBundleSource")
       ++ validateBundleSource bs (Child fieldPath "apLogBundleSource")) (slog_ApLogBundleSource logConf)
  ++ match ValidateDirectiveToken (slog_LogDest logConf) with
     | Some err => [Invalid (Child fieldPath "logDest") (slog_LogDest logConf) err]
     | None => whenSet (λ err, [Invalid (Child fieldPath "logDest") (slog_LogDest logConf) err])
                 (ValidateAppProtectLogDestination (slog_LogDest logConf))
     end.

Definition validateLogConfs (logs : list SecurityLog) (fieldPath : string) (bundleMode : bool) : list FieldError :=
  eachIndexed (λ i log, validateLogConf log (Index fieldPath i) bundleMode) logs.

Definition validateWAF (waf : WAF) (fieldPath : string) : list FieldError :=
  let bundleMode := negb (bool_decide (waf_ApBundle waf = "")) || bool_decide (is_Some (waf_ApBundleSource waf)) in
  exclusive fieldPath "apPolicy, apBundle, and apBundleSource are mutually exclusive"
    [("apPolicy", nonEmpty (waf_ApPolicy waf)); ("apBundle", nonEmpty (waf_ApBundle waf));
     ("apBundleSource", bs_URL <$> waf_ApBundleSource waf)]
  ++ whenNonEmpty (waf_ApPolicy waf)
       (invalids (Child fieldPath "apPolicy") (waf_ApPolicy waf) (IsQualifiedName (waf_ApPolicy waf)))
  ++ whenNonEmpty (waf_ApBundle waf)
       (invalids (Child fieldPath "apBundle") (waf_ApBundle waf) (IsQualifiedName (waf_ApBundle waf)))
  ++ whenSet (λ bs, validateBundleSource bs (Child fieldPath "apBundleSource")) (waf_ApBundleSource waf)
  ++ whenSet (λ log, validateLogConf log (Child fieldPath "securityLog") bundleMode) (waf_SecurityLog waf)
  ++ whenSet (λ logs, validateLogConfs logs (Child fieldPath "securityLogs") bundleMode) (waf_SecurityLogs waf).
End Kinds.
