(* ===== verification/PolicySpecValidation.v ===== *)
(** Validation of policies (pkg/apis/configuration/validation/policy.go), third
    part: Wallarm, cache, CORS, external authentication and HSTS policies, and
    ValidatePolicy, which dispatches on the kind of a policy. *)
From S2P Require Import Prelude GoStrings Regex Objects ProxyBuffers Directives ValidationLib.
From S2P Require Import ParsingHelpers CommonValidation VSUpstreamValidation.
From S2P Require Import HostValidation.
From S2P Require Import PolicyObjects PolicyValues PolicyValidation.

Definition semicolon : Ascii.ascii := byte_at 59.
Definition space : Ascii.ascii := byte_at 32.

Definition validWallarmParsers : list string :=
  ["cookie"; "zlib"; "htmljs"; "json"; "multipart"; "base64"; "percent"; "urlenc"; "xml"; "jwt"].

(** PolicyValidationConfig *)
Record PolicyValidationConfig := {
  pvc_IsPlus : bool;
  pvc_EnableOIDC : bool;
  pvc_EnableAppProtect : bool;
  pvc_EnableSnippets : bool
}.

Section Specs.
Context `{VL : ValidationLib} `{UL : URLLib}.

(** ** Wallarm *)

Definition validateWallarmPartnerClientUUID (value fieldPath : string) : list FieldError :=
  let uuid s := errorIf (negb (MatchString wallarmPartnerClientUUIDRegex s))
                  (Invalid fieldPath value "must be a valid UUID") in
  match Split space value with
  | [p0] => uuid p0
  | [p0; p1] =>
      uuid p0
      ++ errorIf (negb (MatchString wallarmPartnerClientLabelRegex p1))
           (Invalid fieldPath value "label must contain only alphanumerics, '-', and '_'")
  | _ => [Invalid fieldPath value "must be a UUID optionally followed by a single label"]
  end.

(** One optional parameter of a block page *)
Definition blockPageOption (fieldPath optional0 : string) : list FieldError :=
  let optional := TrimSpace optional0 in
  if bool_decide (optional = "") then []
  else match Split equals optional with
       | [optionalKey; optionalValue] =>
           if bool_decide (optionalKey = "response_code") then
             errorIf (bool_decide (Atoi optionalValue = None))
               (Invalid fieldPath optionalValue "response_code must be a valid integer")
           else if bool_decide (optionalKey = "type") then
             Split comma optionalValue ≫= λ typeValue,
               errorIf (negb (bool_decide (typeValue ∈ ["acl_ip"; "acl_source"; "attack"])))
                 (Invalid fieldPath typeValue "invalid type value. Allowed values: acl_ip, acl_source, attack")
           else [Invalid fieldPath optionalKey
                   "invalid block page parameter. Allowed parameters: response_code, type"]
       | _ => [Invalid fieldPath optional "invalid block page parameter format, expected key=value"]
       end.

(** / & @ $ *)
Definition blockPageStart (page : string) : bool :=
  match page with
  | EmptyString => false
  | String c _ => ceqb c 47 || ceqb c 38 || ceqb c 64 || ceqb c 36
  end.

(** One block page *)
Definition blockPageErrors (fieldPath value0 : string) : list FieldError :=
  let value := TrimSpace value0 in
  if bool_decide (value = "") then []
  else match Split space value with
       | [] => []
       | page :: optionals =>
           if negb (blockPageStart page)
           then [Invalid fieldPath page "block page must start with /, &, @, or $"]
           else optionals ≫= blockPageOption fieldPath
       end.

Definition validateWallarmBlockPage (blockPage fieldPath : string) : list FieldError :=
  if bool_decide (blockPage = "") then []
  else Split semicolon blockPage ≫= blockPageErrors fieldPath.

Definition validateWallarm (wallarm : Wallarm) (fieldPath : string) : list FieldError :=
  errorIf (bool_decide (wal_Mode wallarm = "")) (Required (Child fieldPath "mode") "mode is required")
  ++ eachIndexed (λ i parser,
       errorIf (negb (bool_decide (ToLower parser ∈ validWallarmParsers)))
         (Invalid (Index (Child fieldPath "parserDisable") i) parser "invalid parser name"))
       (wal_ParserDisable wallarm)
  ++ whenNonEmpty (wal_BlockPage wallarm)
       (validateWallarmBlockPage (wal_BlockPage wallarm) (Child fieldPath "blockPage"))
  ++ whenNonEmpty (wal_PartnerClientUUID wallarm)
       (validateWallarmPartnerClientUUID (wal_PartnerClientUUID wallarm) (Child fieldPath "partnerClientUUID")).

(** ** Cache *)

Definition validateCacheZoneName (name fieldPath : string) : list FieldError :=
  whenNonEmpty name (errorIf (negb (MatchString cacheZoneNameRegexp name))
    (Invalid fieldPath name "must consist of letters, digits, - or _, matching the regex [a-zA-Z0-9_-]+")).

Definition validateCacheLevels (levels fieldPath : string) : list FieldError :=
  errorIf (negb (MatchString cacheLevelsRegexp levels))
    (Invalid fieldPath levels "must be up to three colon-separated levels of 1 or 2, matching the regex [12](:[12]){0,2}").

Definition validateCacheMethods (methods : list string) (fieldPath : string) : list FieldError :=
  eachIndexed (λ i method,
    errorIf (negb (bool_decide (method ∈ ["GET"; "HEAD"; "POST"])))
      (Invalid (Index fieldPath i) method
         "must be one of GET, HEAD or POST, the methods proxy_cache_methods accepts")) methods.

Definition isAny (code : IntOrString) : bool := if code is FromString "any" then true else false.

Definition validateCacheAllowedCodes (cache : Cache) (fieldPath : string) : list FieldError :=
  let codes := cache_AllowedCodes cache in
  let codePath i := Index (Child fieldPath "allowedCodes") i in
  if Nat.eqb (length codes) 0 then []
  else if Nat.eqb (length codes) 1 && existsb isAny codes then []
  else if existsb isAny codes then
    eachIndexed (λ i code, errorIf (isAny code && Nat.ltb 1 (length codes))
      (Invalid (codePath i) "any" "the string 'any' cannot be mixed with other codes")) codes
  else eachIndexed (λ i code,
    match code with
    | FromString StrVal => [Invalid (codePath i) StrVal
        "must be an integer HTTP status code (100-599) or the single string 'any'"]
    | FromInt intVal => errorIf ((intVal <? 100)%Z || (599 <? intVal)%Z)
        (Invalid (codePath i) (fmtInt intVal) "HTTP status code must be between 100 and 599")
    end) codes.

Definition validateCachePlusFeatures (cache : Cache) (fieldPath : string) (isPlus : bool) : list FieldError :=
  if Nat.eqb (length (cache_CachePurgeAllow cache)) 0 then []
  else if negb isPlus
  then [Forbidden (Child fieldPath "cachePurgeAllow") "cache purge is only supported in NGINX Plus"]
  else eachIndexed (λ i ip,
         errorIf (negb (net_ParseIP ip) && negb (bool_decide (net_ParseCIDR ip = None)))
           (Invalid (Index (Child fieldPath "cachePurgeAllow") i) ip "must be a valid IP address or CIDR"))
         (cache_CachePurgeAllow cache).

(** The parameters of cacheUseStale, with those seen so far *)
Fixpoint useStaleParams (fieldPath : string) (allParams : gset string) (params : list string)
    : list FieldError :=
  match params with
  | [] => []
  | para :: rest =>
      errorIf (negb (bool_decide (para ∈ validNextUpstreamParams)) && negb (bool_decide (para = "updating")))
        (Invalid fieldPath para "not a valid parameter")
      ++ errorIf (bool_decide (para ∈ allParams)) (Invalid fieldPath para "can not have duplicate parameters")
      ++ useStaleParams fieldPath ({[para]} ∪ allParams) rest
  end.
Definition validateCacheUseStale (cache : Cache) (fieldPath : string) : list FieldError :=
  useStaleParams (Child fieldPath "cacheUseStale") ∅ (cache_CacheUseStale cache).

(** A value that is escaped and is a directive value with variables *)
Definition escapedDirectiveValue (value fieldPath : string) : list FieldError :=
  whenSet (λ err, [Invalid fieldPath value err]) (ValidateEscapedString value [])
  ++ validateDirectiveValueWithVariables value fieldPath.

Definition validateCache (cache : Cache) (fieldPath : string) (isPlus : bool) : list FieldError :=
  let time v p := whenNonEmpty v (validateTime v p) in
  validateCacheAllowedCodes cache fieldPath
  ++ validateCachePlusFeatures cache fieldPath isPlus
  ++ time (cache_Inactive cache) (Child fieldPath "inactive")
  ++ whenNonEmpty (cache_MaxSize cache) (validateOffset (cache_MaxSize cache) (Child fieldPath "maxSize"))
  ++ whenNonEmpty (cache_MinFree cache) (validateOffset (cache_MinFree cache) (Child fieldPath "minFree"))
  ++ whenNonEmpty (cache_CacheZoneSize cache)
       (validateSize (cache_CacheZoneSize cache) (Child fieldPath "cacheZoneSize"))
  ++ validateCacheZoneName (cache_CacheZoneName cache) (Child fieldPath "cacheZoneName")
  ++ whenNonEmpty (cache_Levels cache) (validateCacheLevels (cache_Levels cache) (Child fieldPath "levels"))
  ++ time (cache_Time cache) (Child fieldPath "time")
  ++ validateCacheMethods (cache_AllowedMethods cache) (Child fieldPath "allowedMethods")
  ++ whenSet (λ m,
       let managerPath := Child fieldPath "manager" in
       whenSet (λ n, errorIf (n <=? 0)%Z
         (Invalid (Child managerPath "files") (fmtInt n) "must be a positive integer")) (cman_Files m)
       ++ time (cman_Sleep m) (Child managerPath "sleep")
       ++ time (cman_Threshold m) (Child managerPath "threshold")) (cache_Manager cache)
  ++ whenSet (λ n, errorIf (n <=? 0)%Z
       (Invalid (Child fieldPath "cacheMinUses") (fmtInt n) "must be a positive integer")) (cache_CacheMinUses cache)
  ++ whenSet (λ l,
       time (clock_Timeout l) (Child (Child fieldPath "lock") "timeout")
       ++ time (clock_Age l) (Child (Child fieldPath "lock") "age")) (cache_Lock cache)
  ++ whenNonEmpty (cache_CacheKey cache)
       (escapedDirectiveValue (cache_CacheKey cache) (Child fieldPath "cacheKey")
        ++ errorIf (HasSuffix (cache_CacheKey cache) "$")
             (Invalid (Child fieldPath "cacheKey") (cache_CacheKey cache) "must not end with $"))
  ++ whenSet (λ c,
       let each name l := eachIndexed (λ i condition, whenNonEmpty condition
             (escapedDirectiveValue condition (Index (Child (Child fieldPath "conditions") name) i))) l in
       each "noCache" (ccond_NoCache c) ++ each "bypass" (ccond_Bypass c)) (cache_Conditions cache)
  ++ validateCacheUseStale cache fieldPath.

(** ** CORS *)

(** The loop of validateCORSOrigins from index [i], with the first index of each
    origin *)
Fixpoint corsOriginsFrom (fieldPath : string) (i : nat) (originSet : gmap string nat) (origins : list string)
    : list FieldError :=
  match origins with
  | [] => []
  | origin :: rest =>
      let '(dup, originSet') :=
        match originSet !! origin with
        | Some firstIndex =>
            ([Duplicate (Index fieldPath i)
                ("origin '" +:+ origin +:+ "' already specified at index " +:+ pretty firstIndex
                 +:+ ", duplicates cause nginx configuration conflicts")], originSet)
        | None => ([], <[origin := i]> originSet)
        end in
      dup
      ++ whenSet (λ err, [Invalid (Index fieldPath i) origin err]) (validateOriginFormat origin)
      ++ errorIf (ContainsDangerousChars origin) (Invalid (Index fieldPath i) origin
           "origin contains dangerous characters that could cause nginx configuration injection")
      ++ corsOriginsFrom fieldPath (S i) originSet' rest
  end.
Definition validateCORSOrigins (origins : list string) (fieldPath : string) : list FieldError :=
  corsOriginsFrom fieldPath 0 ∅ origins.

(** The common loop over the headers of validateCORSAllowHeaders and
    validateCORSExposeHeaders *)
Definition corsHeaders (forbidden : string → bool) (msg : string) (headers : list string) (fieldPath : string)
    : list FieldError :=
  eachIndexed (λ i header,
    if bool_decide (header = "*") then []
    else validateHeaderName header (Index fieldPath i)
         ++ errorIf (Contains header "*") (Invalid (Index fieldPath i) header
              "wildcard '*' may only be used as a standalone value, not embedded in a header name")
         ++ errorIf (forbidden header) (Invalid (Index fieldPath i) header msg)) headers.
Definition validateCORSAllowHeaders : list string → string → list FieldError :=
  corsHeaders isForbiddenRequestHeader
    "forbidden request header cannot be set by JavaScript and should not be listed in allowHeaders".
Definition validateCORSExposeHeaders : list string → string → list FieldError :=
  corsHeaders isForbiddenResponseHeader
    "forbidden response header cannot be exposed via CORS and should not be listed in exposeHeaders".

Definition validCORSMethods : list string := ["GET"; "HEAD"; "POST"; "PUT"; "DELETE"; "OPTIONS"; "PATCH"].
Definition validateCORSMethods (methods : list string) (fieldPath : string) : list FieldError :=
  eachIndexed (λ i method,
    errorIf (ContainsDangerousChars method) (Invalid (Index fieldPath i) method
      "method contains dangerous characters that could cause nginx configuration injection")
    ++ errorIf (negb (bool_decide (method ∈ validCORSMethods)))
         (Invalid (Index fieldPath i) method "allowed methods must be valid HTTP methods")) methods
  ++ errorIf (bool_decide ("GET" ∈ methods) && bool_decide ("HEAD" ∈ methods) && Nat.ltb 1 (length methods))
       (Invalid fieldPath (Join " " methods)
          "HEAD method should not be explicitly listed when GET is present as browsers automatically support HEAD for GET endpoints").

Definition validateCORS (cors : CORS) (fieldPath : string) : list FieldError :=
  validateCORSOrigins (cors_AllowOrigin cors) (Child fieldPath "allowOrigin")
  ++ validateCORSAllowHeaders (cors_AllowHeaders cors) (Child fieldPath "allowHeaders")
  ++ validateCORSMethods (cors_AllowMethods cors) (Child fieldPath "allowMethods")
  ++ validateCORSExposeHeaders (cors_ExposeHeaders cors) (Child fieldPath "exposeHeaders").

(** ** ExternalAuth, HSTS *)

(** A reference to a service or a secret around its slashes: the namespace, empty
    without one, and the name; [None] for more than one slash *)
Definition referenceParts (ref : string) : option (string * string) :=
  match Split slash ref with
  | [name] => Some ("", name)
  | [ns; name] => Some (ns, name)
  | _ => None
  end.

Definition validateExternalAuthSSLFields (ea : ExternalAuth) (fieldPath : string) : list FieldError :=
  let secret := ea_TrustedCertSecret ea in
  let tail :=
    errorIf (negb (bool_decide (ea_SNIName ea = "")) && ContainsDangerousChars (ea_SNIName ea))
      (Invalid (Child fieldPath "sniName") (ea_SNIName ea) "contains invalid characters")
    ++ whenSet (λ n, errorIf (n <? 0)%Z
         (Invalid (Child fieldPath "sslVerifyDepth") (fmtInt n) "must be a non-negative integer"))
         (ea_SSLVerifyDepth ea) in
  let verify := errorIf (ea_SSLVerify ea && negb (ea_SSLEnabled ea))
    (Invalid (Child fieldPath "sslVerify") "true" "sslEnabled must be true when sslVerify is true") in
  if bool_decide (secret = "") then verify ++ tail
  else match referenceParts secret with
       | None => [Invalid fieldPath secret
                    "secret reference must be in the format secret-name or namespace/secret-name"]
       | Some (ns, name) =>
           verify
           ++ errorIf (negb (ea_SSLEnabled ea)) (Invalid (Child fieldPath "trustedCertSecret") secret
                "sslEnabled must be true when trustedCertSecret is set")
           ++ errorIf (negb (ea_SSLVerify ea)) (Invalid (Child fieldPath "trustedCertSecret") secret
                "sslVerify must be true when trustedCertSecret is set")
           ++ whenNonEmpty ns (validateDNS1123Label ns (Child (Child fieldPath "trustedCertSecret") "namespace"))
           ++ validateSecretName name (Child fieldPath "trustedCertSecret")
           ++ tail
       end.

Definition validateExternalAuth (ea : ExternalAuth) (fieldPath : string) (enableSnippets : bool)
    : list FieldError :=
  match referenceParts (ea_AuthServiceName ea) with
  | None => [Invalid fieldPath (ea_AuthServiceName ea)
               "service reference must be in the format service-name or namespace/service-name"]
  | Some (ns, name) =>
      errorIf (negb (bool_decide (ea_AuthSnippets ea = "")) && negb enableSnippets)
        (Forbidden (Child fieldPath "authSnippets")
           "snippets must be enabled via cli argument -enable-snippets to use authSnippets")
      ++ validateAuthURI (ea_AuthURI ea) (Child fieldPath "authURI")
      ++ whenNonEmpty ns (validateDNS1123Label ns (Child (Child fieldPath "authServiceName") "namespace"))
      ++ validateServiceName name (Child (Child fieldPath "authServiceName") "name")
      ++ validateServicePorts (ea_AuthServicePorts ea) (Child fieldPath "authServicePorts")
      ++ whenNonEmpty (ea_AuthSigninURI ea)
           (validateAuthURI (ea_AuthSigninURI ea) (Child fieldPath "authSigninURI"))
      ++ whenNonEmpty (ea_AuthSigninRedirectBasePath ea)
           (validateAuthURI (ea_AuthSigninRedirectBasePath ea) (Child fieldPath "authSigninRedirectBasePath"))
      ++ validateExternalAuthSSLFields ea fieldPath
  end.

Definition minAgeValueForPreload : Z := 31536000.
Definition validateHSTS (hsts : HSTS) (fieldPath : string) : list FieldError :=
  match hsts_MaxAge hsts with
  | None => [Required (Child fieldPath "maxAge") "maxAge is required for HSTS policy"]
  | Some maxAge =>
      validatePositiveIntOrZero maxAge (Child fieldPath "maxAge")
      ++ (if hsts_Preload hsts then
            errorIf (negb (hsts_IncludeSubDomains hsts)) (Invalid (Child fieldPath "preload") "true"
              "preload requires includeSubDomains to be enabled")
            ++ errorIf (maxAge <? minAgeValueForPreload)%Z (Invalid (Child fieldPath "preload") "true"
                 "preload requires maxAge to be at least 31536000 (one year)")
          else [])
  end.

(** ** ValidatePolicy *)

(** policyFieldValidator: the validation when the field is set, which is what
    isSet and validate say together; gateCheck returns its errors and whether
    validation stops, no errors and no stop where it is nil *)
Record policyFieldValidator := {
  pf_name : string;
  pf_isSet : PolicySpec → bool;
  pf_validate : PolicySpec → string → PolicyValidationConfig → list FieldError;
  pf_gateCheck : string → PolicyValidationConfig → list FieldError * bool
}.
Definition noGate (p : string) (cfg : PolicyValidationConfig) : list FieldError * bool := ([], false).
(** A field [name] that [get] reads, validated by [validate] under its path *)
Definition policyField {A} (name : string) (get : PolicySpec → option A)
    (gateCheck : string → PolicyValidationConfig → list FieldError * bool)
    (validate : A → string → PolicyValidationConfig → list FieldError) : policyFieldValidator :=
  {| pf_name := name;
     pf_isSet := λ s, bool_decide (is_Some (get s));
     pf_validate := λ s p cfg, whenSet (λ x, validate x (Child p name) cfg) (get s);
     pf_gateCheck := gateCheck |}.

Definition jwtGate (p : string) (cfg : PolicyValidationConfig) : list FieldError * bool :=
  if negb (pvc_IsPlus cfg)
  then ([Forbidden (Child p "jwt") "jwt secrets are only supported in NGINX Plus"], true) else ([], false).
(** The gate of oidc and of oidcNative *)
Definition oidcGate (name label : string) (p : string) (cfg : PolicyValidationConfig) : list FieldError * bool :=
  let errs := errorIf (negb (pvc_EnableOIDC cfg)) (Forbidden (Child p name)
    ("OIDC must be enabled via cli argument -enable-oidc to use " +:+ label +:+ " policy")) in
  if negb (pvc_IsPlus cfg)
  then (errs ++ [Forbidden (Child p name) (label +:+ " is only supported in NGINX Plus")], true)
  else (errs, false).
Definition wafGate (p : string) (cfg : PolicyValidationConfig) : list FieldError * bool :=
  (errorIf (negb (pvc_IsPlus cfg)) (Forbidden (Child p "waf") "WAF is only supported in NGINX Plus")
   ++ errorIf (negb (pvc_EnableAppProtect cfg)) (Forbidden (Child p "waf")
        "App Protect must be enabled via cli argument -enable-app-protect to use WAF policy"), false).

Definition policyFields : list policyFieldValidator :=
  [policyField "accessControl" ps_AccessControl noGate (λ x p _, validateAccessControl x p);
   policyField "rateLimit" ps_RateLimit noGate (λ x p cfg, validateRateLimit x p (pvc_IsPlus cfg));
   policyField "jwt" ps_JWTAuth jwtGate (λ x p _, validateJWT x p);
   policyField "basicAuth" ps_BasicAuth noGate (λ x p _, validateBasic x p);
   policyField "ingressMTLS" ps_IngressMTLS noGate (λ x p _, validateIngressMTLS x p);
   policyField "egressMTLS" ps_EgressMTLS noGate (λ x p _, validateEgressMTLS x p);
   policyField "externalAuth" ps_ExternalAuth noGate (λ x p cfg, validateExternalAuth x p (pvc_EnableSnippets cfg));
   policyField "oidc" ps_OIDC (oidcGate "oidc" "OIDC") (λ x p _, validateOIDC x p);
   policyField "oidcNative" ps_OIDCNative (oidcGate "oidcNative" "OIDCNative") (λ x p _, validateOIDCNative x p);
   policyField "apiKey" ps_APIKey noGate (λ x p _, validateAPIKey x p);
   policyField "waf" ps_WAF wafGate (λ x p _, validateWAF x p);
   policyField "cache" ps_Cache noGate (λ x p cfg, validateCache x p (pvc_IsPlus cfg));
   policyField "cors" ps_CORS noGate (λ x p _, validateCORS x p);
   policyField "wallarm" ps_Wallarm noGate (λ x p _, validateWallarm x p);
   policyField "hsts" ps_HSTS noGate (λ x p _, validateHSTS x p)].

(** The loop of validatePolicySpec: the errors, and the number of fields set, or
    [None] when a gate stopped it *)
Fixpoint policyFieldsLoop (spec : PolicySpec) (fieldPath : string) (cfg : PolicyValidationConfig)
    (fields : list policyFieldValidator) (allErrs : list FieldError) (fieldCount : nat)
    : list FieldError * option nat :=
  match fields with
  | [] => (allErrs, Some fieldCount)
  | pf :: rest =>
      if negb (pf_isSet pf spec) then policyFieldsLoop spec fieldPath cfg rest allErrs fieldCount
      else
        let '(gateErrs, earlyReturn) := pf_gateCheck pf fieldPath cfg in
        if earlyReturn then (allErrs ++ gateErrs, None)
        else policyFieldsLoop spec fieldPath cfg rest
               (allErrs ++ gateErrs ++ pf_validate pf spec fieldPath cfg) (S fieldCount)
  end.

Definition exactlyOneMsg (cfg : PolicyValidationConfig) : string :=
  "must specify exactly one of: `accessControl`, `rateLimit`, `ingressMTLS`, `egressMTLS`, `basicAuth`, `apiKey`, `cache`, `cors`, `externalAuth`, `hsts`, `wallarm`"
  +:+ (if pvc_IsPlus cfg then ", `jwt`, `oidc`, `oidcNative`, `waf`" else "").
Definition validatePolicySpec (spec : PolicySpec) (fieldPath : string) (cfg : PolicyValidationConfig)
    : list FieldError :=
  match policyFieldsLoop spec fieldPath cfg policyFields [] 0 with
  | (allErrs, None) => allErrs
  | (allErrs, Some fieldCount) =>
      allErrs ++ errorIf (negb (Nat.eqb fieldCount 1)) (Invalid fieldPath "" (exactlyOneMsg cfg))
  end.

(** [None] is the nil error *)
Definition ValidatePolicy (policy : Policy) (cfg : PolicyValidationConfig) : option string :=
  ToAggregate (validatePolicySpec (pol_Spec policy) "spec" cfg).
End Specs.
