(* ===== verification/Version2.v ===== *)
(** The configuration data that policies are translated into: the structs of
    internal/configs/version2/http.go (and Wallarm of
    internal/configs/commonhelpers) which the templates render, a record per
    struct with its fields; [Cfg] is appended to their names.  A slice is a list, a
    pointer an option. *)
From S2P Require Import Prelude.

Record LimitReqCfg := {
  lr_ZoneName : string;
  lr_Burst : Z;
  lr_NoDelay : bool;
  lr_Delay : Z
}.

Record LimitReqZoneCfg := {
  lrz_Key : string;
  lrz_ZoneName : string;
  lrz_ZoneSize : string;
  lrz_Rate : string;
  lrz_GroupValue : string;
  lrz_GroupVariable : string;
  lrz_PolicyValue : string;
  lrz_PolicyResult : string;
  lrz_GroupDefault : bool;
  lrz_GroupSource : string;
  lrz_Sync : bool
}.

Record ParameterCfg := {
  pm_Value : string;
  pm_Result : string
}.

Record MapCfg := {
  mp_Source : string;
  mp_Variable : string;
  mp_Parameters : list ParameterCfg
}.

Record LimitReqOptionsCfg := {
  lro_DryRun : bool;
  lro_LogLevel : string;
  lro_RejectCode : Z
}.

Record AuthJWTClaimSetCfg := {
  ajcs_Variable : string;
  ajcs_Claim : string
}.

Record JwksURICfg := {
  jwks_JwksScheme : string;
  jwks_JwksHost : string;
  jwks_JwksPort : string;
  jwks_JwksPath : string;
  jwks_JwksSNIName : string;
  jwks_JwksSNIEnabled : bool;
  jwks_SSLVerify : bool;
  jwks_TrustedCert : string;
  jwks_SSLVerifyDepth : Z
}.

Record JWTAuthCfg := {
  vjwt_Key : string;
  vjwt_Secret : string;
  vjwt_Realm : string;
  vjwt_Token : string;
  vjwt_KeyCache : string;
  vjwt_JwksURI : JwksURICfg
}.

Record APIKeyCfg := {
  vak_Header : list string;
  vak_Query : list string;
  vak_MapName : string
}.

Record AuthURICfg := {
  auri_Service : string;
  auri_Upstream : string;
  auri_Port : string;
  auri_Path : string;
  auri_InternalPath : string
}.

Record ExternalAuthCfg := {
  vea_URI : option AuthURICfg;
  vea_SigninURL : string;
  vea_Snippets : string;
  vea_ServicePorts : list Z;
  vea_SigninRedirectBasePath : string;
  vea_SSLEnabled : bool;
  vea_SSLVerify : bool;
  vea_SSLVerifyDepth : Z;
  vea_SSLTrustedCert : string;
  vea_SNIName : string
}.

Record BasicAuthCfg := {
  vba_Secret : string;
  vba_Realm : string
}.

Record IngressMTLSCfg := {
  vim_ClientCert : string;
  vim_ClientCrl : string;
  vim_VerifyClient : string;
  vim_VerifyDepth : Z
}.

Record EgressMTLSCfg := {
  vem_Certificate : string;
  vem_CertificateKey : string;
  vem_VerifyServer : bool;
  vem_VerifyDepth : Z;
  vem_Ciphers : string;
  vem_Protocols : string;
  vem_TrustedCert : string;
  vem_SessionReuse : bool;
  vem_ServerName : bool;
  vem_SSLName : string
}.

Record OIDCCfg := {
  voidc_AuthEndpoint : string;
  voidc_ClientID : string;
  voidc_ClientSecret : string;
  voidc_JwksURI : string;
  voidc_Scope : string;
  voidc_TokenEndpoint : string;
  voidc_EndSessionEndpoint : string;
  voidc_RedirectURI : string;
  voidc_PostLogoutRedirectURI : string;
  voidc_ZoneSyncLeeway : Z;
  voidc_AuthExtraArgs : string;
  voidc_AccessTokenEnable : bool;
  voidc_PKCEEnable : bool;
  voidc_TLSVerify : bool;
  voidc_VerifyDepth : Z;
  voidc_CAFile : string;
  voidc_PolicyName : string
}.

Record ReturnCfg := {
  ret_Code : Z;
  ret_Text : string
}.

Record AuthOIDCReturnLocationCfg := {
  rloc_Path : string;
  rloc_DefaultType : string;
  rloc_Return : ReturnCfg
}.

Record OIDCProviderCfg := {
  op_Name : string;
  op_PolicyKey : string;
  op_Issuer : string;
  op_ClientID : string;
  op_ClientSecret : string;
  op_ConfigURL : string;
  op_CookieName : string;
  op_ExtraAuthArgs : string;
  op_PKCE : string;
  op_RedirectURI : string;
  op_LogoutURI : string;
  op_PostLogoutURI : string;
  op_FrontChannelLogoutURI : string;
  op_LogoutTokenHint : bool;
  op_Scope : string;
  op_SessionStore : string;
  op_SessionTimeout : string;
  op_SSLCrl : string;
  op_SSLTrustedCert : string;
  op_SSLVerify : bool;
  op_SSLName : string;
  op_SSLVerifyDepth : Z;
  op_Sync : bool;
  op_UserInfoEnable : bool;
  op_ProxyLocation : string;
  op_ProxyBufferSize : string;
  op_ProxyTrustedCertPath : string;
  op_PostLogoutLocation : option AuthOIDCReturnLocationCfg
}.

Record WAFCfg := {
  vwaf_Enable : string;
  vwaf_ApPolicy : string;
  vwaf_ApBundle : string;
  vwaf_ApSecurityLogEnable : bool;
  vwaf_ApLogConf : list string
}.

Record WallarmCfg := {
  vwal_Mode : string;
  vwal_ModeAllowOverride : string;
  vwal_Fallback : string;
  vwal_Application : string;
  vwal_PartnerClientUUID : string;
  vwal_BlockPage : string;
  vwal_ParseResponse : string;
  vwal_ParseWebsocket : string;
  vwal_UnpackResponse : string;
  vwal_ParserDisable : list string
}.

Record CacheCfg := {
  vcache_ZoneName : string;
  vcache_ZoneSize : string;
  vcache_Levels : string;
  vcache_Inactive : string;
  vcache_UseTempPath : bool;
  vcache_MaxSize : string;
  vcache_MinFree : string;
  vcache_ManagerFiles : option Z;
  vcache_ManagerSleep : string;
  vcache_ManagerThreshold : string;
  vcache_CacheKey : string;
  vcache_OverrideUpstreamCache : bool;
  vcache_Time : string;
  vcache_Valid : gmap string string;
  vcache_AllowedMethods : list string;
  vcache_CacheUseStale : list string;
  vcache_CacheRevalidate : bool;
  vcache_CacheBackgroundUpdate : bool;
  vcache_CacheMinUses : option Z;
  vcache_CachePurgeAllow : list string;
  vcache_CacheLock : bool;
  vcache_CacheLockTimeout : string;
  vcache_CacheLockAge : string;
  vcache_NoCacheConditions : list string;
  vcache_CacheBypassConditions : list string
}.

Record HeaderCfg := {
  hd_Name : string;
  hd_Value : string
}.

Record AddHeaderCfg := {
  ah_Header : HeaderCfg;
  ah_Always : bool
}.

Record HSTSCfg := {
  vhsts_MaxAge : Z;
  vhsts_IncludeSubDomains : bool;
  vhsts_BehindProxy : bool;
  vhsts_Preload : bool
}.
#[export] Instance ParameterCfg_eq_dec : EqDecision ParameterCfg.
Proof. solve_decision. Defined.
#[export] Instance MapCfg_eq_dec : EqDecision MapCfg.
Proof. solve_decision. Defined.
#[export] Instance LimitReqZoneCfg_eq_dec : EqDecision LimitReqZoneCfg.
Proof. solve_decision. Defined.
#[export] Instance ReturnCfg_eq_dec : EqDecision ReturnCfg.
Proof. solve_decision. Defined.
#[export] Instance AuthOIDCReturnLocationCfg_eq_dec : EqDecision AuthOIDCReturnLocationCfg.
Proof. solve_decision. Defined.

(** The configuration of a VirtualServer that the templates render: the structs of
    internal/configs/version2/http.go that Version2 leaves out, a record per struct
    with its fields; [Cfg] is appended to their names.  A slice is a list, a pointer
    an option; the pointers of JWTAuthList are never nil. *)

Record UpstreamLabelsCfg := {
  ul_Service : string;
  ul_ResourceType : string;
  ul_ResourceName : string;
  ul_ResourceNamespace : string
}.

Record UpstreamServerCfg := {
  us_Address : string
}.

Record QueueCfg := {
  vq_Size : Z;
  vq_Timeout : string
}.

Record SessionCookieCfg := {
  vsck_Enable : bool;
  vsck_Name : string;
  vsck_Path : string;
  vsck_Expires : string;
  vsck_Domain : string;
  vsck_HTTPOnly : bool;
  vsck_Secure : bool;
  vsck_SameSite : string
}.

Record UpstreamCfg := {
  vu_Name : string;
  vu_Servers : list UpstreamServerCfg;
  vu_LBMethod : string;
  vu_Resolve : bool;
  vu_Keepalive : Z;
  vu_MaxFails : Z;
  vu_MaxConns : Z;
  vu_SlowStart : string;
  vu_FailTimeout : string;
  vu_UpstreamZoneSize : string;
  vu_Queue : option QueueCfg;
  vu_SessionCookie : option SessionCookieCfg;
  vu_UpstreamLabels : UpstreamLabelsCfg;
  vu_NTLM : bool;
  vu_BackupServers : list UpstreamServerCfg
}.

Record SSLCfg := {
  ssl_HTTP2 : bool;
  ssl_Certificate : string;
  ssl_CertificateKey : string;
  ssl_RejectHandshake : bool
}.

Record DosCfg := {
  vdos_Enable : string;
  vdos_Name : string;
  vdos_AllowListPath : string;
  vdos_ApDosPolicy : string;
  vdos_ApDosSecurityLogEnable : bool;
  vdos_ApDosLogConf : string;
  vdos_ApDosMonitorURI : string;
  vdos_ApDosMonitorProtocol : string;
  vdos_ApDosMonitorTimeout : Z;
  vdos_ApDosAccessLogDest : string
}.

Record ErrorPageCfg := {
  vep_Name : string;
  vep_Codes : string;
  vep_ResponseCode : Z
}.

Record ErrorPageLocationCfg := {
  epl_Name : string;
  epl_DefaultType : string;
  epl_Return : option ReturnCfg;
  epl_Headers : list HeaderCfg
}.

Record ReturnLocationCfg := {
  rtl_Name : string;
  rtl_DefaultType : string;
  rtl_Return : ReturnCfg;
  rtl_Headers : list HeaderCfg
}.

Record DistributionCfg := {
  ds_Weight : string;
  ds_Value : string
}.

Record SplitClientCfg := {
  scl_Source : string;
  scl_Variable : string;
  scl_Distributions : list DistributionCfg
}.

Record InternalRedirectLocationCfg := {
  irl_Path : string;
  irl_Destination : string
}.

Record HealthCheckCfg := {
  vhc_Name : string;
  vhc_URI : string;
  vhc_Interval : string;
  vhc_Jitter : string;
  vhc_Fails : Z;
  vhc_Passes : Z;
  vhc_Port : Z;
  vhc_ProxyPass : string;
  vhc_ProxyConnectTimeout : string;
  vhc_ProxyReadTimeout : string;
  vhc_ProxySendTimeout : string;
  vhc_Headers : gmap string string;
  vhc_Match : string;
  vhc_GRPCPass : string;
  vhc_GRPCStatus : option Z;
  vhc_GRPCService : string;
  vhc_Mandatory : bool;
  vhc_Persistent : bool;
  vhc_KeepaliveTime : string;
  vhc_IsGRPC : bool
}.

Record TLSRedirectCfg := {
  vtr_Code : Z;
  vtr_BasedOn : string
}.

Record StatusMatchCfg := {
  smt_Name : string;
  smt_Code : string
}.

Record KeyValZoneCfg := {
  kvz_Name : string;
  kvz_Size : string;
  kvz_State : string;
  kvz_Sync : bool;
  kvz_Timeout : string
}.

Record KeyValCfg := {
  kv_Key : string;
  kv_Variable : string;
  kv_ZoneName : string
}.

Record TwoWaySplitClientsCfg := {
  tws_Key : string;
  tws_Variable : string;
  tws_ZoneName : string;
  tws_Weights : list Z;
  tws_SplitClientsIndex : Z
}.

Record CacheZoneCfg := {
  cz_Name : string;
  cz_Size : string;
  cz_Path : string;
  cz_Levels : string;
  cz_Inactive : string;
  cz_UseTempPath : bool;
  cz_MaxSize : string;
  cz_MinFree : string;
  cz_ManagerFiles : option Z;
  cz_ManagerSleep : string;
  cz_ManagerThreshold : string
}.

Record LocationCfg := {
  loc_Path : string;
  loc_Internal : bool;
  loc_Snippets : list string;
  loc_ProxyConnectTimeout : string;
  loc_ProxyReadTimeout : string;
  loc_ProxySendTimeout : string;
  loc_ClientMaxBodySize : string;
  loc_ClientBodyBufferSize : string;
  loc_ProxyMaxTempFileSize : string;
  loc_ProxyBuffering : bool;
  loc_ProxyBuffers : string;
  loc_ProxyBufferSize : string;
  loc_ProxyBusyBuffersSize : string;
  loc_ProxyPass : string;
  loc_ProxyNextUpstream : string;
  loc_ProxyNextUpstreamTimeout : string;
  loc_ProxyNextUpstreamTries : Z;
  loc_ProxyInterceptErrors : bool;
  loc_ProxyPassRequestHeaders : bool;
  loc_ProxyPassRequestBody : string;
  loc_ProxySetHeaders : list HeaderCfg;
  loc_ProxyHideHeaders : list string;
  loc_ProxyPassHeaders : list string;
  loc_ProxyIgnoreHeaders : string;
  loc_ProxyPassRewrite : string;
  loc_AddHeaders : list AddHeaderCfg;
  loc_Rewrites : list string;
  loc_HasKeepalive : bool;
  loc_ErrorPages : list ErrorPageCfg;
  loc_ProxySSLName : string;
  loc_InternalProxyPass : string;
  loc_Allow : list string;
  loc_Deny : list string;
  loc_LimitReqOptions : LimitReqOptionsCfg;
  loc_LimitReqs : list LimitReqCfg;
  loc_JWTAuth : option JWTAuthCfg;
  loc_OIDCProviderName : string;
  loc_AuthRequestOff : bool;
  loc_ExternalAuth : option ExternalAuthCfg;
  loc_BasicAuth : option BasicAuthCfg;
  loc_EgressMTLS : option EgressMTLSCfg;
  loc_HSTS : option HSTSCfg;
  loc_OIDC : bool;
  loc_APIKey : option APIKeyCfg;
  loc_WAF : option WAFCfg;
  loc_Dos : option DosCfg;
  loc_Wallarm : option WallarmCfg;
  loc_PoliciesErrorReturn : option ReturnCfg;
  loc_Cache : option CacheCfg;
  loc_ServiceName : string;
  loc_IsVSR : bool;
  loc_VSRName : string;
  loc_VSRNamespace : string;
  loc_GRPCPass : string;
  loc_CORSEnabled : bool;
  loc_DisableForwardedHeaders : bool;
  loc_AddHeaderInherit : string;
  loc_ProxySSLVerify : bool;
  loc_ProxySSLVerifyDepth : Z;
  loc_ProxySSLTrustedCertificate : string
}.

Record ServerCfg := {
  srv_ServerName : string;
  srv_StatusZone : string;
  srv_CustomListeners : bool;
  srv_HTTPIPv4 : string;
  srv_HTTPIPv6 : string;
  srv_HTTPSIPv4 : string;
  srv_HTTPSIPv6 : string;
  srv_HTTPPort : Z;
  srv_HTTPSPort : Z;
  srv_ProxyProtocol : bool;
  srv_SSL : option SSLCfg;
  srv_ServerTokens : string;
  srv_RealIPHeader : string;
  srv_SetRealIPFrom : list string;
  srv_RealIPRecursive : bool;
  srv_Snippets : list string;
  srv_InternalRedirectLocations : list InternalRedirectLocationCfg;
  srv_Locations : list LocationCfg;
  srv_ErrorPageLocations : list ErrorPageLocationCfg;
  srv_ReturnLocations : list ReturnLocationCfg;
  srv_HealthChecks : list HealthCheckCfg;
  srv_TLSRedirect : option TLSRedirectCfg;
  srv_TLSPassthrough : bool;
  srv_Allow : list string;
  srv_Deny : list string;
  srv_LimitReqOptions : LimitReqOptionsCfg;
  srv_LimitReqs : list LimitReqCfg;
  srv_JWTAuth : option JWTAuthCfg;
  srv_JWTAuthList : gmap string JWTAuthCfg;
  srv_JWKSAuthEnabled : bool;
  srv_ExternalAuth : option ExternalAuthCfg;
  srv_HSTS : option HSTSCfg;
  srv_ErrorPages : list ErrorPageCfg;
  srv_BasicAuth : option BasicAuthCfg;
  srv_IngressMTLS : option IngressMTLSCfg;
  srv_EgressMTLS : option EgressMTLSCfg;
  srv_OIDC : option OIDCCfg;
  srv_OIDCProviderName : string;
  srv_APIKey : option APIKeyCfg;
  srv_APIKeyEnabled : bool;
  srv_WAF : option WAFCfg;
  srv_Dos : option DosCfg;
  srv_Cache : option CacheCfg;
  srv_PoliciesErrorReturn : option ReturnCfg;
  srv_VSNamespace : string;
  srv_VSName : string;
  srv_DisableIPV6 : bool;
  srv_Gunzip : bool;
  srv_NGINXDebugLevel : string;
  srv_AddHeaderInherit : string
}.

Record VirtualServerConfigCfg := {
  vcfg_HTTPSnippets : list string;
  vcfg_TwoWaySplitClients : list TwoWaySplitClientsCfg;
  vcfg_KeyValZones : list KeyValZoneCfg;
  vcfg_KeyVals : list KeyValCfg;
  vcfg_LimitReqZones : list LimitReqZoneCfg;
  vcfg_Maps : list MapCfg;
  vcfg_AuthJWTClaimSets : list AuthJWTClaimSetCfg;
  vcfg_OIDCProviders : list OIDCProviderCfg;
  vcfg_CacheZones : list CacheZoneCfg;
  vcfg_Server : ServerCfg;
  vcfg_SplitClients : list SplitClientCfg;
  vcfg_StatusMatches : list StatusMatchCfg;
  vcfg_Upstreams : list UpstreamCfg;
  vcfg_DynamicSSLReloadEnabled : bool;
  vcfg_StaticSSLPath : string;
  vcfg_WallarmEnabled : bool;
  vcfg_WallarmAPIFwEnabled : bool;
  vcfg_WallarmAPIFwPort : Z
}.

(** ErrorPageResponseCodeInherit *)
Definition ErrorPageResponseCodeInherit : Z := -1.
