(* ===== verification/ConfigParams.v ===== *)
(** The parameters of the NGINX configuration (internal/configs/config_params.go):
    ConfigParams, which the ConfigMap sets, and StaticConfigParams, which the
    command line sets, with their fields.  Context, which carries the logger, is
    left out; a version of NGINX is its text. *)
From S2P Require Import Prelude Version2.

Record OIDCParams := {
  cpo_PKCETimeout : string;
  cpo_PKCEZoneSize : string;
  cpo_IDTokenTimeout : string;
  cpo_IDTokenZoneSize : string;
  cpo_AccessTimeout : string;
  cpo_AccessZoneSize : string;
  cpo_RefreshTimeout : string;
  cpo_RefreshZoneSize : string;
  cpo_SIDSTimeout : string;
  cpo_SIDSZoneSize : string
}.

Record ZoneSyncParams := {
  cpz_Enable : bool;
  cpz_Port : Z;
  cpz_Domain : string;
  cpz_ResolverAddresses : list string;
  cpz_ResolverValid : string;
  cpz_ResolverIPV6 : option bool
}.

Record ConfigParams := {
  cp_AddHeaderInherit : string;
  cp_AppRoot : string;
  cp_ClientMaxBodySize : string;
  cp_ClientBodyBufferSize : string;
  cp_DefaultServerAccessLogOff : bool;
  cp_DefaultServerReturn : string;
  cp_FailTimeout : string;
  cp_HealthCheckEnabled : bool;
  cp_HealthCheckMandatory : bool;
  cp_HealthCheckMandatoryQueue : Z;
  cp_HSTS : bool;
  cp_HSTSBehindProxy : bool;
  cp_HSTSIncludeSubdomains : bool;
  cp_HSTSMaxAge : Z;
  cp_HTTP2 : bool;
  cp_Keepalive : Z;
  cp_LBMethod : string;
  cp_LocationSnippets : list string;
  cp_MainAccessLog : string;
  cp_MainAddHeaders : list AddHeaderCfg;
  cp_DisableForwardedHeaders : bool;
  cp_MainErrorLogLevel : string;
  cp_MainHTTPSnippets : list string;
  cp_MainKeepaliveRequests : Z;
  cp_MainKeepaliveTimeout : string;
  cp_MainLogFormat : list string;
  cp_MainLogFormatEscaping : string;
  cp_MainMainSnippets : list string;
  cp_MainOtelLoadModule : bool;
  cp_MainVtsLoadModule : bool;
  cp_MainVtsMetricsPort : Z;
  cp_MainVtsDetailedCodes : string;
  cp_MainVtsShmSize : string;
  cp_MainOtelTraceInHTTP : bool;
  cp_MainOtelExporterEndpoint : string;
  cp_MainOtelExporterHeaderName : string;
  cp_MainOtelExporterHeaderValue : string;
  cp_MainOtelServiceName : string;
  cp_MainServerNamesHashBucketSize : string;
  cp_MainServerNamesHashMaxSize : string;
  cp_MainStreamLogFormat : list string;
  cp_MainStreamLogFormatEscaping : string;
  cp_MainStreamSnippets : list string;
  cp_MainMapHashBucketSize : string;
  cp_MainMapHashMaxSize : string;
  cp_MainWorkerConnections : string;
  cp_MainWorkerCPUAffinity : string;
  cp_MainWorkerProcesses : string;
  cp_MainWorkerRlimitNofile : string;
  cp_MainWorkerShutdownTimeout : string;
  cp_MainClientBodyBufferSize : string;
  cp_MaxConns : Z;
  cp_MaxFails : Z;
  cp_AppProtectEnable : string;
  cp_AppProtectPolicy : string;
  cp_AppProtectLogConf : string;
  cp_AppProtectLogEnable : string;
  cp_MainAppProtectFailureModeAction : string;
  cp_MainAppProtectCompressedRequestsAction : string;
  cp_MainAppProtectCookieSeed : string;
  cp_MainAppProtectCPUThresholds : string;
  cp_MainAppProtectPhysicalMemoryThresholds : string;
  cp_MainAppProtectReconnectPeriod : string;
  cp_AppProtectDosResource : string;
  cp_MainAppProtectDosLogFormat : list string;
  cp_MainAppProtectDosLogFormatEscaping : string;
  cp_MainAppProtectDosArbFqdn : string;
  cp_OIDC : OIDCParams;
  cp_ProxyBuffering : bool;
  cp_ProxyBuffers : string;
  cp_ProxyBufferSize : string;
  cp_ProxyBusyBuffersSize : string;
  cp_ProxyConnectTimeout : string;
  cp_AddHeaders : list AddHeaderCfg;
  cp_ProxyHideHeaders : list string;
  cp_ProxyMaxTempFileSize : string;
  cp_ProxyPassHeaders : list string;
  cp_ProxySetHeaders : list HeaderCfg;
  cp_ProxyProtocol : bool;
  cp_ProxyReadTimeout : string;
  cp_ProxySendTimeout : string;
  cp_ProxyNextUpstream : string;
  cp_ProxyNextUpstreamTimeout : string;
  cp_ProxyNextUpstreamTries : option Z;
  cp_ProxyRedirectFrom : string;
  cp_ProxyRedirectTo : string;
  cp_CustomHTTPErrors : list Z;
  cp_RedirectToHTTPS : bool;
  cp_HTTPRedirectCode : Z;
  cp_ResolverAddresses : list string;
  cp_ResolverIPV6 : bool;
  cp_ResolverTimeout : string;
  cp_ResolverValid : string;
  cp_ServerSnippets : list string;
  cp_ServerTokens : string;
  cp_ServerSSLCiphers : string;
  cp_ServerSSLPreferServerCiphers : bool;
  cp_SlowStart : string;
  cp_SSLRedirect : bool;
  cp_UpstreamZoneSize : string;
  cp_UseClusterIP : bool;
  cp_VariablesHashBucketSize : Z;
  cp_VariablesHashMaxSize : Z;
  cp_ZoneSync : ZoneSyncParams;
  cp_RealIPHeader : string;
  cp_RealIPRecursive : bool;
  cp_SetRealIPFrom : list string;
  cp_MainServerSSLCiphers : string;
  cp_MainServerSSLDHParam : string;
  cp_MainServerSSLDHParamFileContent : option string;
  cp_MainServerSSLPreferServerCiphers : bool;
  cp_MainServerSSLProtocols : string;
  cp_IngressTemplate : option string;
  cp_VirtualServerTemplate : option string;
  cp_MainTemplate : option string;
  cp_TransportServerTemplate : option string;
  cp_JWTKey : string;
  cp_JWTLoginURL : string;
  cp_JWTRealm : string;
  cp_JWTToken : string;
  cp_BasicAuthSecret : string;
  cp_BasicAuthRealm : string;
  cp_Ports : list Z;
  cp_SSLPorts : list Z;
  cp_LimitReqRate : string;
  cp_LimitReqKey : string;
  cp_LimitReqZoneSize : string;
  cp_LimitReqDelay : Z;
  cp_LimitReqNoDelay : bool;
  cp_LimitReqBurst : Z;
  cp_LimitReqDryRun : bool;
  cp_LimitReqLogLevel : string;
  cp_LimitReqRejectCode : Z;
  cp_LimitReqScale : bool;
  cp_WallarmMode : string;
  cp_WallarmModeAllowOverride : string;
  cp_WallarmFallback : string;
  cp_WallarmApplication : string;
  cp_WallarmPartnerClientUUID : string;
  cp_WallarmBlockPage : string;
  cp_WallarmParseResponse : string;
  cp_WallarmParseWebsocket : string;
  cp_WallarmUnpackResponse : string;
  cp_WallarmParserDisable : list string;
  cp_MainWallarmEnabled : bool;
  cp_MainWallarmUpstreamService : string;
  cp_MainWallarmWstoreMaxConns : Z;
  cp_MainWallarmUpstreamConnectAttempts : Z;
  cp_MainWallarmUpstreamReconnectInterval : string;
  cp_MainWallarmProcessTimeLimit : Z;
  cp_MainWallarmProcessTimeLimitBlock : string;
  cp_MainWallarmRequestMemoryLimit : string;
  cp_MainWallarmWorkerRlimitVmem : string;
  cp_MainWallarmMetricsPort : Z;
  cp_MainWallarmACLExportEnable : string;
  cp_MainWallarmACLExportShmSize : string;
  cp_MainWallarmACLExportSampleLimit : Z;
  cp_MainWallarmACLExportSampleGroupLifetime : Z;
  cp_MainWallarmACLExportStatsBucketInterval : Z;
  cp_MainWallarmACLExportStatsBucketLifetime : Z;
  cp_MainWallarmAPIFwEnabled : bool;
  cp_MainWallarmAPIFwPort : Z
}.

Record StaticConfigParams := {
  scp_DisableIPV6 : bool;
  scp_DefaultHTTPListenerPort : Z;
  scp_DefaultHTTPSListenerPort : Z;
  scp_HealthStatus : bool;
  scp_HealthStatusURI : string;
  scp_NginxStatus : bool;
  scp_NginxStatusAllowCIDRs : list string;
  scp_NginxStatusPort : Z;
  scp_StubStatusOverUnixSocketForOSS : bool;
  scp_TLSPassthrough : bool;
  scp_TLSPassthroughPort : Z;
  scp_EnableSnippets : bool;
  scp_MainAppProtectLoadModule : bool;
  scp_MainAppProtectV5LoadModule : bool;
  scp_MainAppProtectDosLoadModule : bool;
  scp_MainAppProtectV5EnforcerAddr : string;
  scp_EnableLatencyMetrics : bool;
  scp_EnableOIDC : bool;
  scp_SSLRejectHandshake : bool;
  scp_EnableCertManager : bool;
  scp_DynamicSSLReload : bool;
  scp_StaticSSLPath : string;
  scp_DynamicWeightChangesReload : bool;
  scp_IsDirectiveAutoadjustEnabled : bool;
  scp_NginxVersion : string;
  scp_AppProtectBundlePath : string;
  scp_DefaultCABundle : string;
  scp_PLMEnabled : bool
}.

Definition defaultOIDCParams : OIDCParams :=
  {| cpo_PKCETimeout := "90s"; cpo_PKCEZoneSize := "128K"; cpo_IDTokenTimeout := "1h";
     cpo_IDTokenZoneSize := "1M"; cpo_AccessTimeout := "1h"; cpo_AccessZoneSize := "1M";
     cpo_RefreshTimeout := "8h"; cpo_RefreshZoneSize := "1M"; cpo_SIDSTimeout := "8h";
     cpo_SIDSZoneSize := "1M" |}.

Definition NewDefaultConfigParams (isPlus : bool) : ConfigParams :=
  {| cp_AddHeaderInherit := ""; cp_AppRoot := ""; cp_ClientMaxBodySize := "1m";
     cp_ClientBodyBufferSize := ""; cp_DefaultServerAccessLogOff := false; cp_DefaultServerReturn := "404";
     cp_FailTimeout := "10s"; cp_HealthCheckEnabled := false; cp_HealthCheckMandatory := false;
     cp_HealthCheckMandatoryQueue := 0; cp_HSTS := false; cp_HSTSBehindProxy := false;
     cp_HSTSIncludeSubdomains := false; cp_HSTSMaxAge := 2592000; cp_HTTP2 := false; cp_Keepalive := 0;
     cp_LBMethod := "random two least_conn"; cp_LocationSnippets := [];
     cp_MainAccessLog := "/dev/stdout main"; cp_MainAddHeaders := []; cp_DisableForwardedHeaders := false;
     cp_MainErrorLogLevel := "notice"; cp_MainHTTPSnippets := []; cp_MainKeepaliveRequests := 1000;
     cp_MainKeepaliveTimeout := "75s"; cp_MainLogFormat := []; cp_MainLogFormatEscaping := "";
     cp_MainMainSnippets := []; cp_MainOtelLoadModule := false; cp_MainVtsLoadModule := false;
     cp_MainVtsMetricsPort := 10113; cp_MainVtsDetailedCodes := ""; cp_MainVtsShmSize := "10m";
     cp_MainOtelTraceInHTTP := false; cp_MainOtelExporterEndpoint := "";
     cp_MainOtelExporterHeaderName := ""; cp_MainOtelExporterHeaderValue := "";
     cp_MainOtelServiceName := ""; cp_MainServerNamesHashBucketSize := "256";
     cp_MainServerNamesHashMaxSize := "1024"; cp_MainStreamLogFormat := [];
     cp_MainStreamLogFormatEscaping := ""; cp_MainStreamSnippets := []; cp_MainMapHashBucketSize := "256";
     cp_MainMapHashMaxSize := "2048"; cp_MainWorkerConnections := "1024"; cp_MainWorkerCPUAffinity := "";
     cp_MainWorkerProcesses := "auto"; cp_MainWorkerRlimitNofile := ""; cp_MainWorkerShutdownTimeout := "";
     cp_MainClientBodyBufferSize := ""; cp_MaxConns := 0; cp_MaxFails := 1; cp_AppProtectEnable := "";
     cp_AppProtectPolicy := ""; cp_AppProtectLogConf := ""; cp_AppProtectLogEnable := "";
     cp_MainAppProtectFailureModeAction := ""; cp_MainAppProtectCompressedRequestsAction := "";
     cp_MainAppProtectCookieSeed := ""; cp_MainAppProtectCPUThresholds := "";
     cp_MainAppProtectPhysicalMemoryThresholds := ""; cp_MainAppProtectReconnectPeriod := "";
     cp_AppProtectDosResource := ""; cp_MainAppProtectDosLogFormat := [];
     cp_MainAppProtectDosLogFormatEscaping := ""; cp_MainAppProtectDosArbFqdn := "";
     cp_OIDC := defaultOIDCParams; cp_ProxyBuffering := true; cp_ProxyBuffers := "";
     cp_ProxyBufferSize := ""; cp_ProxyBusyBuffersSize := ""; cp_ProxyConnectTimeout := "60s";
     cp_AddHeaders := []; cp_ProxyHideHeaders := []; cp_ProxyMaxTempFileSize := "";
     cp_ProxyPassHeaders := []; cp_ProxySetHeaders := []; cp_ProxyProtocol := false;
     cp_ProxyReadTimeout := "60s"; cp_ProxySendTimeout := "60s"; cp_ProxyNextUpstream := "";
     cp_ProxyNextUpstreamTimeout := ""; cp_ProxyNextUpstreamTries := None; cp_ProxyRedirectFrom := "";
     cp_ProxyRedirectTo := ""; cp_CustomHTTPErrors := []; cp_RedirectToHTTPS := false;
     cp_HTTPRedirectCode := 301; cp_ResolverAddresses := []; cp_ResolverIPV6 := true;
     cp_ResolverTimeout := ""; cp_ResolverValid := ""; cp_ServerSnippets := []; cp_ServerTokens := "on";
     cp_ServerSSLCiphers := ""; cp_ServerSSLPreferServerCiphers := false; cp_SlowStart := "";
     cp_SSLRedirect := true; cp_UpstreamZoneSize := if isPlus then "512k" else "256k";
     cp_UseClusterIP := false; cp_VariablesHashBucketSize := 256; cp_VariablesHashMaxSize := 1024;
     cp_ZoneSync := {| cpz_Enable := false; cpz_Port := 0; cpz_Domain := ""; cpz_ResolverAddresses := []; cpz_ResolverValid := ""; cpz_ResolverIPV6 := None |};
     cp_RealIPHeader := ""; cp_RealIPRecursive := false; cp_SetRealIPFrom := [];
     cp_MainServerSSLCiphers := ""; cp_MainServerSSLDHParam := "";
     cp_MainServerSSLDHParamFileContent := None; cp_MainServerSSLPreferServerCiphers := false;
     cp_MainServerSSLProtocols := ""; cp_IngressTemplate := None; cp_VirtualServerTemplate := None;
     cp_MainTemplate := None; cp_TransportServerTemplate := None; cp_JWTKey := ""; cp_JWTLoginURL := "";
     cp_JWTRealm := ""; cp_JWTToken := ""; cp_BasicAuthSecret := ""; cp_BasicAuthRealm := "";
     cp_Ports := [80]; cp_SSLPorts := [443]; cp_LimitReqRate := "";
     cp_LimitReqKey := "${binary_remote_addr}"; cp_LimitReqZoneSize := "10m"; cp_LimitReqDelay := 0;
     cp_LimitReqNoDelay := false; cp_LimitReqBurst := 0; cp_LimitReqDryRun := false;
     cp_LimitReqLogLevel := "error"; cp_LimitReqRejectCode := 429; cp_LimitReqScale := false;
     cp_WallarmMode := "off"; cp_WallarmModeAllowOverride := "on"; cp_WallarmFallback := "on";
     cp_WallarmApplication := ""; cp_WallarmPartnerClientUUID := ""; cp_WallarmBlockPage := "";
     cp_WallarmParseResponse := "on"; cp_WallarmParseWebsocket := "off"; cp_WallarmUnpackResponse := "on";
     cp_WallarmParserDisable := []; cp_MainWallarmEnabled := false; cp_MainWallarmUpstreamService := "";
     cp_MainWallarmWstoreMaxConns := 2; cp_MainWallarmUpstreamConnectAttempts := 10;
     cp_MainWallarmUpstreamReconnectInterval := "15s"; cp_MainWallarmProcessTimeLimit := 1000;
     cp_MainWallarmProcessTimeLimitBlock := "attack"; cp_MainWallarmRequestMemoryLimit := "0";
     cp_MainWallarmWorkerRlimitVmem := "1g"; cp_MainWallarmMetricsPort := 18080;
     cp_MainWallarmACLExportEnable := "on"; cp_MainWallarmACLExportShmSize := "64M";
     cp_MainWallarmACLExportSampleLimit := 10; cp_MainWallarmACLExportSampleGroupLifetime := 3600;
     cp_MainWallarmACLExportStatsBucketInterval := 60; cp_MainWallarmACLExportStatsBucketLifetime := 1800;
     cp_MainWallarmAPIFwEnabled := false; cp_MainWallarmAPIFwPort := 8088 |}%Z.
