(* ===== verification/VSRouteValidation.v ===== *)
(** Validation of VirtualServers and VirtualServerRoutes
    (pkg/apis/configuration/validation/virtualserver.go), second part: actions,
    splits, matches, error pages, routes, and the two resources. *)
From S2P Require Import Prelude GoStrings Regex Objects ProxyBuffers Directives ValidationLib.
From S2P Require Import ParsingHelpers CommonValidation VSUpstreamValidation.

(** ** Variables allowed in the fields *)
Definition errorPageReturnBodyVariable : list string := ["upstream_status"].
Definition errorPageHeaderValueVariables : list string := ["upstream_status"].
Definition validErrorPageRedirectVariables : list string := ["scheme"; "http_x_forwarded_proto"].
Definition returnBodyVariables : list string :=
  ["request_uri"; "request_method"; "request_body"; "scheme"; "args"; "host"; "request_time";
   "request_length"; "nginx_version"; "pid"; "connection"; "remote_addr"; "remote_port"; "time_iso8601";
   "time_local"; "server_addr"; "server_port"; "server_name"; "server_protocol"; "connections_active";
   "connections_reading"; "connections_writing"; "connections_waiting"].
Definition returnBodySpecialVariables : list string := ["arg_"; "http_"; "cookie_"].
Definition validRedirectVariableNames : list string :=
  ["scheme"; "http_x_forwarded_proto"; "request_uri"; "host"].
Definition actionProxyHeaderVariables : list string :=
  returnBodyVariables ++
  ["ssl_cipher"; "ssl_ciphers"; "ssl_client_cert"; "ssl_client_escaped_cert"; "ssl_client_fingerprint";
   "ssl_client_i_dn"; "ssl_client_i_dn_legacy"; "ssl_client_raw_cert"; "ssl_client_s_dn";
   "ssl_client_s_dn_legacy"; "ssl_client_serial"; "ssl_client_v_end"; "ssl_client_v_remain";
   "ssl_client_v_start"; "ssl_client_verify"; "ssl_curves"; "ssl_early_data"; "ssl_protocol";
   "ssl_server_name"; "ssl_session_id"; "ssl_session_reused"].
Definition actionProxyHeaderSpecialVariables : list string :=
  ["arg_"; "http_"; "cookie_"; "jwt_claim_"; "jwt_header_"].
Definition validIgnoreHeaders : list string :=
  ["X-Accel-Redirect"; "X-Accel-Expires"; "X-Accel-Limit-Rate"; "X-Accel-Buffering"; "X-Accel-Charset";
   "Expires"; "Cache-Control"; "Set-Cookie"; "Vary"].
Definition validVariableNames : list string :=
  ["$args"; "$http2"; "$https"; "$remote_addr"; "$remote_port"; "$query_string"; "$request";
   "$request_body"; "$request_uri"; "$request_method"; "$scheme"].

Section Routes.
Context `{VL : ValidationLib} `{MR : MapRange}.
Variable vsv : VirtualServerValidator.

(** ** Paths of routes *)

Definition validateUnquotedPath (path fieldPath : string) : list FieldError :=
  errorIf (ContainsAny path [35; 34; 96])
    (Invalid fieldPath path "must not include quotes, `#`, or backticks").

(** The modifier ~* or ~ and the white space behind it are stripped. *)
Definition stripRegexModifier (path : string) : string :=
  if HasPrefix path PathModifierRegexIC then TrimLeftSpace (TrimPrefix path PathModifierRegexIC)
  else if HasPrefix path PathModifierRegex then TrimLeftSpace (TrimPrefix path PathModifierRegex)
  else path.

Definition validateRegexPath (path fieldPath : string) : list FieldError :=
  let regex := stripRegexModifier path in
  if negb (allPrintable regex) then [Invalid fieldPath path "must not include non-printable characters"]
  else match regexp2_Compile (UnescapeNGINXToken regex) with
       | Some err => [Invalid fieldPath path ("must be a valid regular expression: " +:+ err)]
       | None =>
           match ValidateEscapedString regex ["*.jpg"; "^/images/image_*.png$"] with
           | Some err => [Invalid fieldPath path err]
           | None => errorIf (ContainsAny regex [13; 10; 96])
                       (Invalid fieldPath path "must not include line breaks or backticks")
           end
       end.

Definition validateRoutePath (path fieldPath : string) : list FieldError :=
  if bool_decide (path = "") then [Required fieldPath ""]
  else if HasPrefix path "^~" then
    let locationPath := TrimLeftSpace (TrimPrefix path "^~") in
    validatePath locationPath fieldPath ++ validateUnquotedPath locationPath fieldPath
  else if HasPrefix path "~" then validateRegexPath path fieldPath
  else if HasPrefix path "/" then validatePath path fieldPath ++ validateUnquotedPath path fieldPath
  else if HasPrefix path "=" then
    let locationPath := TrimLeftSpace (TrimPrefix path "=") in
    validatePath locationPath fieldPath ++ validateUnquotedPath locationPath fieldPath
  else [Invalid fieldPath path "must start with /, ~, = or ^~"].

(** ** Actions *)

Definition validateReferencedUpstream (name fieldPath : string) (upstreamNames : gset string)
    : list FieldError :=
  match validateUpstreamName name fieldPath with
  | [] => errorIf (negb (bool_decide (name ∈ upstreamNames))) (NotFound fieldPath name)
  | errs => errs
  end.

Definition validateRedirectURL (redirectURL fieldPath : string) (validVars : list string)
    : list FieldError :=
  if bool_decide (redirectURL = "") then [Required fieldPath "must specify a url"]
  else if negb (Contains redirectURL "://")
  then [Invalid fieldPath redirectURL
          "must contain the protocol with '://', for example http://, https:// or ${scheme}://"]
  else match ValidateEscapedString redirectURL ["http://www.nginx.com"; "${scheme}://${host}/green/";
           escapedQuote +:+ "http://www.nginx.com" +:+ escapedQuote] with
       | Some err => [Invalid fieldPath redirectURL err]
       | None => validateStringWithVariables redirectURL fieldPath [] validVars (vsv_isPlus vsv)
       end.

Definition validateActionRedirect (redirect : ActionRedirect) (fieldPath : string)
    (validVars : list string) : list FieldError :=
  validateRedirectURL (ar_URL redirect) (Child fieldPath "url") validVars
  ++ (if (ar_Code redirect =? 0)%Z then []
      else validateRedirectStatusCode (ar_Code redirect) (Child fieldPath "code")).

Definition validateActionReturnCode (code : Z) (fieldPath : string) : list FieldError :=
  if between 200 299 code || between 400 599 code then []
  else [Invalid fieldPath (fmtInt code)
          "must be a valid status code either 2XX, 4XX or 5XX, for example, 200 or 402."].

(** actionReturnTypeRegexp *)
Definition actionReturnTypeRegexp : regex :=
  RStar (RAlt (RNotIn [one 59; one 123; one 125; one 34; one 92]) (RCat (RChar 92) (RNotIn [one 10]))).
Definition validateActionReturnType (returnType fieldPath : string) : list FieldError :=
  if MatchString actionReturnTypeRegexp returnType then []
  else [Invalid fieldPath returnType
          (RegexError ("must have all '" +:+ String dquote "' (double quotes), '{', '}' or ';' escaped and must not end with an unescaped '\' (backslash)")
             ("([^;\{\}" +:+ String dquote "\\]|\\.)*") ["type/subtype"; "application/json"])].

Definition validateEscapedStringWithVariables (body fieldPath : string)
    (specialValidVars validVars : list string) (isPlus : bool) : list FieldError :=
  match ValidateEscapedString body
    ["Hello World! \n"; escapedQuote +:+ "${request_uri}" +:+ escapedQuote +:+ " is unavailable. \n"] with
  | Some err => [Invalid fieldPath body err]
  | None => []
  end ++ validateStringWithVariables body fieldPath specialValidVars validVars isPlus.

Definition validateActionReturn (r : ActionReturn) (fieldPath : string)
    (specialValidVars validVars : list string) : list FieldError :=
  if bool_decide (art_Body r = "") then [Required (Child fieldPath "body") ""]
  else
    validateEscapedStringWithVariables (art_Body r) (Child fieldPath "body") specialValidVars validVars
      (vsv_isPlus vsv)
    ++ (if bool_decide (art_Type r = "") then []
        else validateActionReturnType (art_Type r) (Child fieldPath "type"))
    ++ (if (art_Code r =? 0)%Z then [] else validateActionReturnCode (art_Code r) (Child fieldPath "code")).

(** A dollar is followed by a digit or ends the string. *)
Fixpoint dollarsNumbered (s : string) : bool :=
  match s with
  | EmptyString => true
  | String c s' =>
      (if ceqb c 36 then match s' with
                         | EmptyString => true
                         | String e _ => inRanges digitRanges e
                         end else true) && dollarsNumbered s'
  end.
Definition validateStringNoVariables (s fieldPath : string) : list FieldError :=
  errorIf (negb (dollarsNumbered s)) (Invalid fieldPath s "`$` character can be only followed by a number").

Definition validateActionProxyRewritePath (rewritePath fieldPath : string) : list FieldError :=
  if bool_decide (rewritePath = "") then []
  else validateStringNoVariables rewritePath fieldPath ++ validatePath rewritePath fieldPath
       ++ validateUnquotedPath rewritePath fieldPath.
Definition validateActionProxyRewritePathForRegexp (rewritePath fieldPath : string) : list FieldError :=
  if bool_decide (rewritePath = "") then []
  else validateStringNoVariables rewritePath fieldPath
       ++ whenSet (λ err, [Invalid fieldPath rewritePath err])
            (ValidateEscapedString rewritePath ["/rewrite$1"; "/images"]).

Definition validateActionProxyHeader (h : Header) (fieldPath : string) : list FieldError :=
  headerNameErrors (h_Name h) fieldPath
  ++ validateEscapedStringWithVariables (h_Value h) (Child fieldPath "value")
       actionProxyHeaderSpecialVariables actionProxyHeaderVariables (vsv_isPlus vsv).

Definition validateActionProxyRequestHeaders (requestHeaders : option ProxyRequestHeaders)
    (fieldPath : string) : list FieldError :=
  whenSet (λ rh, eachIndexed (λ i h, validateActionProxyHeader h (Index fieldPath i)) (prh_Set rh))
    requestHeaders.

Definition validateIgnoreHeaders (ignoreHeaders : list string) (fieldPath : string) : list FieldError :=
  eachIndexed (λ i h, errorIf (negb (bool_decide (h ∈ validIgnoreHeaders)))
    (Invalid (Index fieldPath i) h "not a valid ignore header name")) ignoreHeaders.

Definition validateActionProxyResponseHeaders (responseHeaders : option ProxyResponseHeaders)
    (fieldPath : string) : list FieldError :=
  whenSet (λ rh,
    eachIndexed (λ i h, invalids (Index (Child fieldPath "hide") i) h (IsHTTPHeaderName h)) (prs_Hide rh)
    ++ eachIndexed (λ i h, invalids (Index (Child fieldPath "pass") i) h (IsHTTPHeaderName h)) (prs_Pass rh)
    ++ eachIndexed (λ i h, validateActionProxyHeader (ah_Header h) (Index (Child fieldPath "add") i))
         (prs_Add rh)
    ++ validateIgnoreHeaders (prs_Ignore rh) (Child fieldPath "ignore")) responseHeaders.

Definition validateActionProxy (p : ActionProxy) (fieldPath : string) (upstreamNames : gset string)
    (path : string) (internal : bool) : list FieldError :=
  validateReferencedUpstream (ap_Upstream p) (Child fieldPath "upstream") upstreamNames
  ++ validateActionProxyRequestHeaders (ap_RequestHeaders p) (Child fieldPath "requestHeaders")
  ++ validateActionProxyResponseHeaders (ap_ResponseHeaders p) (Child fieldPath "responseHeaders")
  ++ (if HasPrefix path "~" || internal
      then validateActionProxyRewritePathForRegexp (ap_RewritePath p) (Child fieldPath "rewritePath")
      else validateActionProxyRewritePath (ap_RewritePath p) (Child fieldPath "rewritePath")).

Definition countActions (a : Action) : nat :=
  (if bool_decide (a_Pass a = "") then 0 else 1)
  + (if a_Redirect a is Some _ then 1 else 0)
  + (if a_Return a is Some _ then 1 else 0)
  + (if a_Proxy a is Some _ then 1 else 0).

Definition validateAction (a : Action) (fieldPath : string) (upstreamNames : gset string)
    (path : string) (internal : bool) : list FieldError :=
  if negb (Nat.eqb (countActions a) 1)
  then [Required fieldPath "action must specify exactly one of `pass`, `redirect`, `return` or `proxy`"]
  else
    (if bool_decide (a_Pass a = "") then []
     else validateReferencedUpstream (a_Pass a) (Child fieldPath "pass") upstreamNames)
    ++ whenSet (λ r, validateActionRedirect r (Child fieldPath "redirect") validRedirectVariableNames)
         (a_Redirect a)
    ++ whenSet (λ r,
         validateActionReturn r (Child fieldPath "return") returnBodySpecialVariables returnBodyVariables
         ++ eachIndexed (λ i h, validateHeader h (Index (Child (Child fieldPath "return") "headers") i))
              (art_Headers r)) (a_Return a)
    ++ whenSet (λ p, validateActionProxy p (Child fieldPath "proxy") upstreamNames path internal) (a_Proxy a).

(** ** Splits, matches, error pages *)

Definition validateSplits (splits : list TrafficSplit) (fieldPath : string) (upstreamNames : gset string)
    (path : string) : list FieldError :=
  if Nat.ltb (length splits) 2 then [Invalid fieldPath "" "must include at least 2 splits"]
  else
    eachIndexed (λ i s,
      invalids (Child (Index fieldPath i) "weight") (fmtInt (sp_Weight s)) (IsInRange (sp_Weight s) 0 100)
      ++ match sp_Action s with
         | None => [Required (Child (Index fieldPath i) "action") ""]
         | Some a => validateAction a (Child (Index fieldPath i) "action") upstreamNames path true
         end) splits
    ++ errorIf (negb (foldr Z.add 0 (sp_Weight <$> splits) =? 100)%Z)
         (Invalid fieldPath "" "the sum of the weights of all splits must be equal to 100").

Definition validateVariableName (name fieldPath : string) : list FieldError :=
  if negb (HasPrefix name "$") then [Invalid fieldPath name "must start with `$`"]
  else errorIf (negb (bool_decide (name ∈ validVariableNames)))
         (Invalid fieldPath name "is not allowed or is not an NGINX variable").

Definition isValidMatchValue (value : string) : list string :=
  match ValidateEscapedString value ["value-123"] with Some err => [err] | None => [] end.

(** The number of the fields that are set *)
Definition countSet (fields : list string) : nat := length (filter (λ f, f ≠ "") fields).

Definition validateCondition (c : Condition) (fieldPath : string) : list FieldError :=
  (if bool_decide (cn_Header c = "") then []
   else invalids (Child fieldPath "header") (cn_Header c) (IsHTTPHeaderName (cn_Header c)))
  ++ (if bool_decide (cn_Cookie c = "") then []
      else invalids (Child fieldPath "cookie") (cn_Cookie c) (isCookieName (cn_Cookie c)))
  ++ (if bool_decide (cn_Argument c = "") then []
      else invalids (Child fieldPath "argument") (cn_Argument c) (isArgumentName (cn_Argument c)))
  ++ (if bool_decide (cn_Variable c = "") then []
      else validateVariableName (cn_Variable c) (Child fieldPath "variable"))
  ++ errorIf (negb (Nat.eqb (countSet [cn_Header c; cn_Cookie c; cn_Argument c; cn_Variable c]) 1))
       (Invalid fieldPath "" "must specify exactly one of: `header`, `cookie`, `argument` or `variable`")
  ++ invalids (Child fieldPath "value") (cn_Value c) (isValidMatchValue (cn_Value c)).

Definition validateMatch (m : Match) (fieldPath : string) (upstreamNames : gset string) (path : string)
    : list FieldError :=
  match mt_Conditions m with
  | [] => [Required (Child fieldPath "conditions") "must specify at least one condition"]
  | cs => eachIndexed (λ i c, validateCondition c (Index (Child fieldPath "conditions") i)) cs
  end
  ++ whenSet (λ a, validateAction a (Child fieldPath "action") upstreamNames path true) (mt_Action m)
  ++ match mt_Splits m with
     | [] => []
     | splits => validateSplits splits (Child fieldPath "splits") upstreamNames path
     end
  ++ errorIf (negb (Nat.eqb ((if mt_Action m is Some _ then 1 else 0)
                              + (if mt_Splits m is _ :: _ then 1 else 0)) 1))
       (Invalid fieldPath "" "must specify exactly one of `action` or `splits`").

Definition errorPageHasRequiredFields (e : ErrorPage) : bool :=
  Nat.eqb ((if ep_Return e is Some _ then 1 else 0) + (if ep_Redirect e is Some _ then 1 else 0)) 1.

Definition validateErrorPageHeader (h : Header) (fieldPath : string) : list FieldError :=
  headerNameErrors (h_Name h) fieldPath
  ++ whenSet (λ err, [Invalid (Child fieldPath "value") (h_Value h) err])
       (ValidateEscapedString (h_Value h) ["value"; escapedQuote +:+ "${status}" +:+ escapedQuote])
  ++ validateStringWithVariables (h_Value h) (Child fieldPath "value") [] errorPageHeaderValueVariables
       (vsv_isPlus vsv).

Definition validateErrorPageReturn (r : ActionReturn) (fieldPath : string) : list FieldError :=
  validateActionReturn r fieldPath [] errorPageReturnBodyVariable
  ++ eachIndexed (λ i h, validateErrorPageHeader h (Index (Child fieldPath "headers") i)) (art_Headers r).
Definition validateErrorPageRedirect (r : ActionRedirect) (fieldPath : string) : list FieldError :=
  validateActionRedirect r fieldPath validErrorPageRedirectVariables.

Definition validateErrorPage (e : ErrorPage) (fieldPath : string) : list FieldError :=
  if negb (errorPageHasRequiredFields e)
  then [Required fieldPath "must specify exactly one of `redirect` or `return`"]
  else match ep_Codes e with
       | [] => [Required (Child fieldPath "codes") "must include at least 1 status code in `codes`"]
       | codes =>
           eachIndexed (λ i c, invalids (Index (Child fieldPath "codes") i) (fmtInt c) (IsInRange c 300 599)) codes
           ++ whenSet (λ r, validateErrorPageReturn r (Child fieldPath "return")) (ep_Return e)
           ++ whenSet (λ r, validateErrorPageRedirect r (Child fieldPath "redirect")) (ep_Redirect e)
       end.

(** ** Routes *)

Definition validateRouteField (value fieldPath : string) : list FieldError :=
  invalids fieldPath value (IsQualifiedName value).

Definition validateRouteSelector (matchLabels : gmap string string) (fieldPath : string)
    : list FieldError :=
  if bool_decide (matchLabels = ∅)
  then [Required (Child fieldPath "matchLabels") "must specify at least one label"]
  else validateLabels matchLabels (Child fieldPath "matchLabels")
       ++ (range "validateRouteSelector" matchLabels ≫= λ kv,
             errorIf (bool_decide (kv.2 = ""))
               (Invalid (Key (Child fieldPath "matchLabels") kv.1) kv.2 "label value must be non-empty")).

(** fieldCount of validateRoute *)
Definition routeFieldCount (r : Route) (isRouteFieldForbidden : bool) : nat :=
  (if r_Action r is Some _ then 1 else 0)
  + (if r_Splits r is _ :: _ then 1 else 0)
  + (if r_RouteSelector r is Some _ then 1 else 0)
  + (if bool_decide (r_Route r = "") || isRouteFieldForbidden then 0 else 1).

Definition validateRoute (r : Route) (fieldPath : string) (upstreamNames : gset string)
    (isRouteFieldForbidden : bool) (namespace : string) : list FieldError :=
  validateRoutePath (r_Path r) (Child fieldPath "path")
  ++ validatePolicies (r_Policies r) (Child fieldPath "policies") namespace
  ++ whenSet (λ a, validateAction a (Child fieldPath "action") upstreamNames (r_Path r) false) (r_Action r)
  ++ match r_Splits r with
     | [] => []
     | splits => validateSplits splits (Child fieldPath "splits") upstreamNames (r_Path r)
     end
  ++ eachIndexed (λ i m, validateMatch m (Index (Child fieldPath "matches") i) upstreamNames (r_Path r))
       (r_Matches r)
  ++ whenSet (λ sel, validateRouteSelector sel (Child fieldPath "routeSelector")) (r_RouteSelector r)
  ++ eachIndexed (λ i e, validateErrorPage e (Index (Child fieldPath "errorPages") i)) (default [] (r_ErrorPages r))
  ++ (if bool_decide (r_Route r = "") then []
      else if isRouteFieldForbidden then [Forbidden (Child fieldPath "route") "is not allowed"]
      else validateRouteField (r_Route r) (Child fieldPath "route"))
  ++ errorIf (negb (Nat.eqb (routeFieldCount r isRouteFieldForbidden) 1))
       (Invalid fieldPath ""
          (if isRouteFieldForbidden || (if r_Matches r is _ :: _ then true else false)
           then "must specify exactly one of `action` or `splits`"
           else "must specify exactly one of `action`, `splits`, `route` or `routeSelector`"))
  ++ (if bool_decide (r_AddHeaderInherit r = "") then []
      else validateAddHeaderInherit (r_AddHeaderInherit r) (Child fieldPath "add-header-inherit"))
  ++ validateDos (vsv_isDosEnabled vsv) (r_Dos r) (Child fieldPath "dos").

(** A route with no other errors claims its normalised path: the errors and the
    paths seen *)
Definition claimRoutePath (routeErrs : list FieldError) (path fieldPath : string) (allPaths : gset string)
    : list FieldError * gset string :=
  match routeErrs with
  | [] => if bool_decide (NormalizePath path ∈ allPaths)
          then ([Duplicate (Child fieldPath "path") path], allPaths)
          else ([], {[NormalizePath path]} ∪ allPaths)
  | errs => (errs, allPaths)
  end.

(** The loop over routes with their paths *)
Fixpoint validateRoutesFrom (check : Route → string → list FieldError) (fieldPath : string) (i : nat)
    (allPaths : gset string) (routes : list Route) : list FieldError :=
  match routes with
  | [] => []
  | r :: rest =>
      let idxPath := Index fieldPath i in
      let '(errs, allPaths) := claimRoutePath (check r idxPath) (r_Path r) idxPath allPaths in
      errs ++ validateRoutesFrom check fieldPath (S i) allPaths rest
  end.

(** vsrCategories: for each VirtualServerRoute reference the categories of the
    paths that lead to it, with their positions *)
Definition addCategory (namespace : string) (m : gmap string (list (string * nat))) (ir : nat * Route)
    : gmap string (list (string * nat)) :=
  let '(i, r) := ir in
  if bool_decide (r_Route r = "") then m
  else
    let routeRef := if HasNamespace (r_Route r) then r_Route r else namespace +:+ "/" +:+ r_Route r in
    <[routeRef := default [] (m !! routeRef) ++ [(subrouteModifierCategory (r_Path r), i)]]> m.

Definition mixedCategoryErrors (routes : list Route) (fieldPath : string)
    (e : string * list (string * nat)) : list FieldError :=
  match e.2 with
  | (first, _) :: rest =>
      rest ≫= λ info,
        errorIf (negb (bool_decide (info.1 = first)))
          (Invalid (Child (Index fieldPath info.2) "path") (default "" (r_Path <$> routes !! info.2))
             ("routes referencing the same VirtualServerRoute '" +:+ e.1
              +:+ "' must use the same modifier type, but got '" +:+ first +:+ "' and '" +:+ info.1 +:+ "'"))
  | [] => []
  end.

Definition validateVirtualServerRoutes (routes : list Route) (fieldPath : string)
    (upstreamNames : gset string) (namespace : string) : list FieldError :=
  validateRoutesFrom (λ r idxPath, validateRoute r idxPath upstreamNames false namespace) fieldPath 0 ∅ routes
  ++ (range "vsrCategories" (foldl (addCategory namespace) ∅ (imap pair routes))
        ≫= mixedCategoryErrors routes fieldPath).

(** ** VirtualServers *)

Definition validateVirtualServerSpec (vs : VirtualServer) (fieldPath namespace : string)
    : list FieldError :=
  let '(upstreamErrs, upstreamNames) := validateUpstreams vsv (vs_Upstreams vs) (Child fieldPath "upstreams") in
  validateHost (vs_Host vs) (Child fieldPath "host")
  ++ validateVSTLS vsv (vs_TLS vs) (Child fieldPath "tls")
  ++ validatePolicies (vs_Policies vs) (Child fieldPath "policies") namespace
  ++ upstreamErrs
  ++ validateVirtualServerRoutes (vs_Routes vs) (Child fieldPath "routes") upstreamNames namespace
  ++ validateDos (vsv_isDosEnabled vsv) (vs_Dos vs) (Child fieldPath "dos")
  ++ validateExternalDNS vsv (vs_ExternalDNS vs) (Child fieldPath "externalDNS")
  ++ (if bool_decide (vs_AddHeaderInherit vs = "") then []
      else validateAddHeaderInherit (vs_AddHeaderInherit vs) (Child fieldPath "add-header-inherit")).

(** ValidateVirtualServer *)
Definition vsErrors (vs : VirtualServer) : list FieldError :=
  validateVirtualServerSpec vs "spec" (om_Namespace (vs_Meta vs)).
Definition ValidateVirtualServer (vs : VirtualServer) : option string := ToAggregate (vsErrors vs).

(** ** VirtualServerRoutes *)

Definition validateVirtualServerRouteHost (host virtualServerHost fieldPath : string) : list FieldError :=
  validateHost host fieldPath
  ++ errorIf (negb (bool_decide (virtualServerHost = "")) && negb (bool_decide (host = virtualServerHost)))
       (Invalid fieldPath host ("must be equal to '" +:+ virtualServerHost +:+ "'")).

Definition validateSubroutesStandalone (routes : list Route) (fieldPath : string)
    (upstreamNames : gset string) (namespace : string) : list FieldError :=
  let typeErrs :=
    match routes with
    | r0 :: rest =>
        let cat0 := subrouteModifierCategory (r_Path r0) in
        eachIndexed (λ i r,
          errorIf (negb (bool_decide (subrouteModifierCategory (r_Path r) = cat0)))
            (Invalid (Child (Index fieldPath (i + 1)) "path") (r_Path r)
               ("all subroutes must use the same path modifier type; got '" +:+ cat0 +:+ "' and '"
                +:+ subrouteModifierCategory (r_Path r) +:+ "'"))) rest
    | [] => []
    end in
  match typeErrs with
  | [] => validateRoutesFrom (λ r idxPath, validateRoute r idxPath upstreamNames true namespace) fieldPath 0 ∅ routes
  | _ => typeErrs
  end.

Definition validateSubroutesExact (routes : list Route) (fieldPath vsPath : string)
    (upstreamNames : gset string) (namespace : string) : list FieldError :=
  match routes with
  | [r] =>
      if negb (bool_decide (NormalizePath (r_Path r) = NormalizePath vsPath))
      then [Invalid (Child (Index fieldPath 0) "path") (r_Path r)
              ("must have the same path as the referenced VirtualServer route path '" +:+ vsPath +:+ "'")]
      else validateRoute r (Index fieldPath 0) upstreamNames true namespace
  | _ => [Invalid fieldPath "subroutes" "must have only one subroute if exact match is being used"]
  end.

(** The duplicate check of validateSubroutesRegex *)
Fixpoint duplicatePaths (fieldPath : string) (i : nat) (allPaths : gset string) (routes : list Route)
    : list FieldError :=
  match routes with
  | [] => []
  | r :: rest =>
      errorIf (bool_decide (NormalizePath (r_Path r) ∈ allPaths))
        (Duplicate (Child (Index fieldPath i) "path") (r_Path r))
      ++ duplicatePaths fieldPath (S i) ({[NormalizePath (r_Path r)]} ∪ allPaths) rest
  end.

Definition validateSubroutesRegex (routes : list Route) (fieldPath : string) (upstreamNames : gset string)
    (vsPaths : list string) (namespace : string) : list FieldError :=
  match duplicatePaths fieldPath 0 ∅ routes with
  | [] =>
      let subrouteSet : gset string := list_to_set ((λ r, NormalizePath (r_Path r)) <$> routes) in
      let vsPathSet : gset string := list_to_set (NormalizePath <$> vsPaths) in
      let coverErrs :=
        (vsPaths ≫= λ p,
           errorIf (negb (bool_decide (NormalizePath p ∈ subrouteSet)))
             (Invalid fieldPath "subroutes" ("subroute with path '" +:+ p
                +:+ "' is missing; all VS route paths must be covered by VSR subroutes")))
        ++ eachIndexed (λ i r,
             errorIf (negb (bool_decide (NormalizePath (r_Path r) ∈ vsPathSet)))
               (Invalid (Child (Index fieldPath i) "path") (r_Path r) ("subroute path '" +:+ r_Path r
                  +:+ "' is not referenced by any VS route; all VSR subroutes must be referenced"))) routes in
      match coverErrs with
      | [] => eachIndexed (λ i r, validateRoute r (Index fieldPath i) upstreamNames true namespace) routes
      | _ => coverErrs
      end
  | errs => errs
  end.

Definition validateSubroutesPrefix (routes : list Route) (fieldPath : string) (upstreamNames : gset string)
    (vsPath namespace : string) : list FieldError :=
  let normVSPath := NormalizePath vsPath in
  validateRoutesFrom (λ r idxPath,
    validateRoute r idxPath upstreamNames true namespace
    ++ errorIf (negb (bool_decide (normVSPath = "")) && negb (HasPrefix (NormalizePath (r_Path r)) normVSPath))
         (Invalid (Child idxPath "path") (r_Path r) ("must start with '" +:+ vsPath +:+ "'")))
    fieldPath 0 ∅ routes.

Definition validateVirtualServerRouteSubroutes (routes : list Route) (fieldPath : string)
    (upstreamNames : gset string) (vsPaths : list string) (namespace : string) : list FieldError :=
  match vsPaths with
  | [] => validateSubroutesStandalone routes fieldPath upstreamNames namespace
  | firstPath :: rest =>
      if (if rest is _ :: _ then true else false) && negb (forallb (λ p, HasPrefix p "~") vsPaths)
      then [Invalid fieldPath "subroutes" "multiple VS route paths are only supported for regex routes"]
      else if isRegexOrExactMatch firstPath then
        if HasPrefix firstPath "=" then validateSubroutesExact routes fieldPath firstPath upstreamNames namespace
        else validateSubroutesRegex routes fieldPath upstreamNames vsPaths namespace
      else validateSubroutesPrefix routes fieldPath upstreamNames firstPath namespace
  end.

Definition validateVirtualServerRouteSpec (vsr : VirtualServerRoute) (fieldPath virtualServerHost : string)
    (vsPaths : list string) (namespace : string) : list FieldError :=
  let '(upstreamErrs, upstreamNames) := validateUpstreams vsv (vsr_Upstreams vsr) (Child fieldPath "upstreams") in
  validateVirtualServerRouteHost (vsr_Host vsr) virtualServerHost (Child fieldPath "host")
  ++ upstreamErrs
  ++ validateVirtualServerRouteSubroutes (vsr_Subroutes vsr) (Child fieldPath "subroutes") upstreamNames vsPaths
       namespace.

(** ValidateVirtualServerRoute and ValidateVirtualServerRouteForVirtualServer *)
Definition vsrErrors (vsr : VirtualServerRoute) (virtualServerHost : string) (vsPaths : list string)
    : list FieldError :=
  validateVirtualServerRouteSpec vsr "spec" virtualServerHost vsPaths (om_Namespace (vsr_Meta vsr)).
Definition ValidateVirtualServerRoute (vsr : VirtualServerRoute) : option string :=
  ToAggregate (vsrErrors vsr "" []).
Definition ValidateVirtualServerRouteForVirtualServer (vsr : VirtualServerRoute)
    (virtualServerHost : string) (vsPaths : list string) : option string :=
  ToAggregate (vsrErrors vsr virtualServerHost vsPaths).
End Routes.
