(* ===== verification/Resources.v ===== *)
(** The configuration resources of internal/k8s/configuration.go: Ingress,
    VirtualServer and TransportServer configurations behind the [Resource]
    interface, the precedence rule [Wins], the change test [IsEqual], and the
    store of mutable resource objects that the hosts, the new resources and the
    changes all point into. *)
From S2P Require Import Prelude GoStrings Objects.

(** ** Precedence *)

(** chooseObjectMetaWinner: the older object wins; objects created at the same
    time are ordered by UID, the greater one winning. *)
Definition chooseObjectMetaWinner (meta1 meta2 : ObjectMeta) : bool :=
  if bool_decide (om_CreationTimestamp meta1 = om_CreationTimestamp meta2)
  then String.ltb (om_UID meta2) (om_UID meta1)
  else bool_decide (om_CreationTimestamp meta1 < om_CreationTimestamp meta2)%Z.

Definition compareObjectMetas (meta1 meta2 : ObjectMeta) : bool :=
  bool_decide (om_Namespace meta1 = om_Namespace meta2)
  && bool_decide (om_Name meta1 = om_Name meta2)
  && bool_decide (om_Generation meta1 = om_Generation meta2).

Definition compareObjectMetasWithAnnotations (meta1 meta2 : ObjectMeta) : bool :=
  compareObjectMetas meta1 meta2
  && bool_decide (om_Annotations meta1 = om_Annotations meta2).

(** ** Resource types *)

Record MinionConfiguration := {
  mc_Ingress : Ingress;
  mc_ValidPaths : gmap string bool
}.

Definition NewMinionConfiguration (ing : Ingress) : MinionConfiguration :=
  {| mc_Ingress := ing; mc_ValidPaths := ∅ |}.

Record IngressConfiguration := {
  ic_Ingress : Ingress;
  ic_IsMaster : bool;
  ic_Minions : list MinionConfiguration;
  ic_ValidHosts : gmap string bool;
  ic_Warnings : list string;
  ic_ChildWarnings : gmap string (list string)
}.

Definition NewRegularIngressConfiguration (ing : Ingress) : IngressConfiguration :=
  {| ic_Ingress := ing; ic_IsMaster := false; ic_Minions := []; ic_ValidHosts := ∅;
     ic_Warnings := []; ic_ChildWarnings := ∅ |}.

Definition NewMasterIngressConfiguration (ing : Ingress) (minions : list MinionConfiguration)
    (childWarnings : gmap string (list string)) : IngressConfiguration :=
  {| ic_Ingress := ing; ic_IsMaster := true; ic_Minions := minions; ic_ValidHosts := ∅;
     ic_Warnings := []; ic_ChildWarnings := childWarnings |}.

Record VirtualServerConfiguration := {
  vsc_VirtualServer : VirtualServer;
  vsc_VirtualServerRoutes : list VirtualServerRoute;
  vsc_VirtualServerRouteSelectors : gmap string (list string);
  vsc_Warnings : list string;
  vsc_HTTPPort : Z;
  vsc_HTTPSPort : Z;
  vsc_HTTPIPv4 : string;
  vsc_HTTPIPv6 : string;
  vsc_HTTPSIPv4 : string;
  vsc_HTTPSIPv6 : string
}.

Definition NewVirtualServerConfiguration (vs : VirtualServer) (vsrs : list VirtualServerRoute)
    (vsrSelectors : gmap string (list string)) (warnings : list string)
    : VirtualServerConfiguration :=
  {| vsc_VirtualServer := vs; vsc_VirtualServerRoutes := vsrs;
     vsc_VirtualServerRouteSelectors := vsrSelectors; vsc_Warnings := warnings;
     vsc_HTTPPort := 0; vsc_HTTPSPort := 0; vsc_HTTPIPv4 := ""; vsc_HTTPIPv6 := "";
     vsc_HTTPSIPv4 := ""; vsc_HTTPSIPv6 := "" |}.

Record TransportServerConfiguration := {
  tsc_ListenerPort : Z;
  tsc_IPv4 : string;
  tsc_IPv6 : string;
  tsc_TransportServer : TransportServer;
  tsc_Warnings : list string
}.

Definition NewTransportServerConfiguration (ts : TransportServer) : TransportServerConfiguration :=
  {| tsc_ListenerPort := 0; tsc_IPv4 := ""; tsc_IPv6 := "";
     tsc_TransportServer := ts; tsc_Warnings := [] |}.

(** The implementations of the [Resource] interface. *)
Inductive Resource :=
  | RIngress (ic : IngressConfiguration)
  | RVirtualServer (vsc : VirtualServerConfiguration)
  | RTransportServer (tsc : TransportServerConfiguration).

#[export] Instance MinionConfiguration_eq_dec : EqDecision MinionConfiguration.
Proof. solve_decision. Defined.
#[export] Instance IngressConfiguration_eq_dec : EqDecision IngressConfiguration.
Proof. solve_decision. Defined.
#[export] Instance VirtualServerConfiguration_eq_dec : EqDecision VirtualServerConfiguration.
Proof. solve_decision. Defined.
#[export] Instance TransportServerConfiguration_eq_dec : EqDecision TransportServerConfiguration.
Proof. solve_decision. Defined.
#[export] Instance Resource_eq_dec : EqDecision Resource.
Proof. solve_decision. Defined.

(** ** The Resource interface *)

Definition ingressKind : string := "Ingress".
Definition virtualServerKind : string := "VirtualServer".
Definition virtualServerRouteKind : string := "VirtualServerRoute".
Definition transportServerKind : string := "TransportServer".

Definition GetObjectMeta (r : Resource) : ObjectMeta :=
  match r with
  | RIngress ic => ing_Meta (ic_Ingress ic)
  | RVirtualServer vsc => vs_Meta (vsc_VirtualServer vsc)
  | RTransportServer tsc => ts_Meta (tsc_TransportServer tsc)
  end.

Definition kindOf (r : Resource) : string :=
  match r with
  | RIngress _ => ingressKind
  | RVirtualServer _ => virtualServerKind
  | RTransportServer _ => transportServerKind
  end.

Definition GetKeyWithKind (r : Resource) : string :=
  kindOf r +:+ "/" +:+ getResourceKey (GetObjectMeta r).

Definition Wins (r other : Resource) : bool :=
  chooseObjectMetaWinner (GetObjectMeta r) (GetObjectMeta other).

(** AddWarning of the three implementations *)
Definition addWarning (warning : string) (r : Resource) : Resource :=
  match r with
  | RIngress ic => RIngress
      {| ic_Ingress := ic_Ingress ic; ic_IsMaster := ic_IsMaster ic;
         ic_Minions := ic_Minions ic; ic_ValidHosts := ic_ValidHosts ic;
         ic_Warnings := ic_Warnings ic ++ [warning]; ic_ChildWarnings := ic_ChildWarnings ic |}
  | RVirtualServer v => RVirtualServer
      {| vsc_VirtualServer := vsc_VirtualServer v;
         vsc_VirtualServerRoutes := vsc_VirtualServerRoutes v;
         vsc_VirtualServerRouteSelectors := vsc_VirtualServerRouteSelectors v;
         vsc_Warnings := vsc_Warnings v ++ [warning];
         vsc_HTTPPort := vsc_HTTPPort v; vsc_HTTPSPort := vsc_HTTPSPort v;
         vsc_HTTPIPv4 := vsc_HTTPIPv4 v; vsc_HTTPIPv6 := vsc_HTTPIPv6 v;
         vsc_HTTPSIPv4 := vsc_HTTPSIPv4 v; vsc_HTTPSIPv6 := vsc_HTTPSIPv6 v |}
  | RTransportServer t => RTransportServer
      {| tsc_ListenerPort := tsc_ListenerPort t; tsc_IPv4 := tsc_IPv4 t; tsc_IPv6 := tsc_IPv6 t;
         tsc_TransportServer := tsc_TransportServer t;
         tsc_Warnings := tsc_Warnings t ++ [warning] |}
  end.

(** The loop that compares two slices by object meta, index by index. *)
Fixpoint compareSlices {A} (eqb : A → A → bool) (l1 l2 : list A) : bool :=
  match l1, l2 with
  | [], [] => true
  | a :: l1', b :: l2' => eqb a b && compareSlices eqb l1' l2'
  | _, _ => false
  end.

Definition ingressIsEqual (ic other : IngressConfiguration) : bool :=
  compareObjectMetasWithAnnotations (ing_Meta (ic_Ingress ic)) (ing_Meta (ic_Ingress other))
  && bool_decide (ic_ValidHosts ic = ic_ValidHosts other)
  && bool_decide (ic_IsMaster ic = ic_IsMaster other)
  && compareSlices (λ a b, compareObjectMetasWithAnnotations
                             (ing_Meta (mc_Ingress a)) (ing_Meta (mc_Ingress b)))
       (ic_Minions ic) (ic_Minions other).

(** The comparison of the VirtualServerRouteSelectors maps: same number of
    selectors, and for each of them as many routes, every one of the other's
    being among ours. *)
Definition selectorsEqual (s1 s2 : gmap string (list string)) : bool :=
  Nat.eqb (size s1) (size s2)
  && forallb (λ '(selector, routes),
        match s2 !! selector with
        | None => false
        | Some otherRoutes =>
            Nat.eqb (length routes) (length otherRoutes)
            && forallb (λ r, bool_decide (r ∈ routes)) otherRoutes
        end) (map_to_list s1).

Definition virtualServerIsEqual (vsc other : VirtualServerConfiguration) : bool :=
  compareObjectMetas (vs_Meta (vsc_VirtualServer vsc)) (vs_Meta (vsc_VirtualServer other))
  && compareSlices (λ a b, compareObjectMetas (vsr_Meta a) (vsr_Meta b))
       (vsc_VirtualServerRoutes vsc) (vsc_VirtualServerRoutes other)
  && selectorsEqual (vsc_VirtualServerRouteSelectors vsc) (vsc_VirtualServerRouteSelectors other).

Definition transportServerIsEqual (tsc other : TransportServerConfiguration) : bool :=
  compareObjectMetas (ts_Meta (tsc_TransportServer tsc)) (ts_Meta (tsc_TransportServer other))
  && bool_decide (tsc_ListenerPort tsc = tsc_ListenerPort other).

Definition IsEqual (r other : Resource) : bool :=
  match r, other with
  | RIngress a, RIngress b => ingressIsEqual a b
  | RVirtualServer a, RVirtualServer b => virtualServerIsEqual a b
  | RTransportServer a, RTransportServer b => transportServerIsEqual a b
  | _, _ => false
  end.

(** The hosts a resource asks for. *)
Definition claimsOf (r : Resource) : list string :=
  match r with
  | RIngress ic => ir_Host <$> ing_Rules (ic_Ingress ic)
  | RVirtualServer vsc => [vs_Host (vsc_VirtualServer vsc)]
  | RTransportServer tsc => [ts_Host (tsc_TransportServer tsc)]
  end.

(** ** The store of resource objects

    Go code holds resources by pointer: the host map, the map of new resources
    and the changes share them, and AddWarning and the writes to ValidHosts are
    seen through all of them.  A pointer is an index into the store. *)
Abbreviation loc := nat (only parsing).
Abbreviation store := (list Resource) (only parsing).

Definition AddWarning (l : loc) (warning : string) (h : store) : store :=
  alter (addWarning warning) l h.

(** What a mutation of a resource object never changes: everything but its
    warnings and its ValidHosts. *)
Definition core (r : Resource) : Resource :=
  match r with
  | RIngress ic => RIngress
      {| ic_Ingress := ic_Ingress ic; ic_IsMaster := ic_IsMaster ic;
         ic_Minions := ic_Minions ic; ic_ValidHosts := ∅;
         ic_Warnings := []; ic_ChildWarnings := ic_ChildWarnings ic |}
  | RVirtualServer v => RVirtualServer
      {| vsc_VirtualServer := vsc_VirtualServer v;
         vsc_VirtualServerRoutes := vsc_VirtualServerRoutes v;
         vsc_VirtualServerRouteSelectors := vsc_VirtualServerRouteSelectors v;
         vsc_Warnings := [];
         vsc_HTTPPort := vsc_HTTPPort v; vsc_HTTPSPort := vsc_HTTPSPort v;
         vsc_HTTPIPv4 := vsc_HTTPIPv4 v; vsc_HTTPIPv6 := vsc_HTTPIPv6 v;
         vsc_HTTPSIPv4 := vsc_HTTPSIPv4 v; vsc_HTTPSIPv6 := vsc_HTTPSIPv6 v |}
  | RTransportServer t => RTransportServer
      {| tsc_ListenerPort := tsc_ListenerPort t; tsc_IPv4 := tsc_IPv4 t; tsc_IPv6 := tsc_IPv6 t;
         tsc_TransportServer := tsc_TransportServer t; tsc_Warnings := [] |}
  end.

(** [store_le h h']: [h'] extends [h]; every object of [h] is still there with
    the same core. *)
Definition store_le (h h' : store) : Prop :=
  ∀ l r, h !! l = Some r → ∃ r', h' !! l = Some r' ∧ core r' = core r.

#[export] Instance store_le_preorder : PreOrder store_le.
Proof.
  split.
  - intros h l r Hl. by exists r.
  - intros h1 h2 h3 H12 H23 l r Hl.
    destruct (H12 l r Hl) as (r2 & Hl2 & Hc2).
    destruct (H23 l r2 Hl2) as (r3 & Hl3 & Hc3).
    exists r3. split; [done|congruence].
Qed.

Lemma store_le_snoc h r : store_le h (h ++ [r]).
Proof. intros l x Hl. exists x. split; [by apply lookup_app_l_Some|done]. Qed.

Lemma core_addWarning w r : core (addWarning w r) = core r.
Proof. by destruct r. Qed.

Lemma store_le_alter f l h :
  (∀ r, core (f r) = core r) → store_le h (alter f l h).
Proof.
  intros Hf k r Hk. destruct (decide (l = k)) as [->|Hne].
  - exists (f r). rewrite list_lookup_alter_eq, Hk. split; [done|apply Hf].
  - exists r. by rewrite list_lookup_alter_ne.
Qed.

Lemma store_le_AddWarning l w h : store_le h (AddWarning l w h).
Proof. apply store_le_alter. apply core_addWarning. Qed.

#[export] Hint Resolve store_le_snoc store_le_AddWarning : nic.
#[export] Hint Extern 1 (store_le ?x ?x) => reflexivity : nic.

(** Everything that identifies a resource is a function of its core. *)
Lemma core_meta r r' : core r = core r' → GetObjectMeta r = GetObjectMeta r'.
Proof. destruct r, r'; intros H; simplify_eq/=; congruence. Qed.
Lemma core_kind r r' : core r = core r' → kindOf r = kindOf r'.
Proof. destruct r, r'; intros H; simplify_eq/=; done. Qed.
Lemma core_key r r' : core r = core r' → GetKeyWithKind r = GetKeyWithKind r'.
Proof.
  intros H. unfold GetKeyWithKind. by rewrite (core_meta _ _ H), (core_kind _ _ H).
Qed.
Lemma core_wins r1 r1' r2 r2' :
  core r1 = core r1' → core r2 = core r2' → Wins r1 r2 = Wins r1' r2'.
Proof.
  intros H1 H2. unfold Wins. by rewrite (core_meta _ _ H1), (core_meta _ _ H2).
Qed.
Lemma core_claims r r' : core r = core r' → claimsOf r = claimsOf r'.
Proof. destruct r, r'; intros H; simplify_eq/=; congruence. Qed.

Lemma store_le_Some h h' l : store_le h h' → is_Some (h !! l) → is_Some (h' !! l).
Proof. intros Hle [r Hr]. destruct (Hle l r Hr) as (r' & ? & _). by exists r'. Qed.

Lemma store_le_length h h' : store_le h h' → length h ≤ length h'.
Proof.
  intros Hle. destruct (decide (length h = 0)) as [->|Hne]; [lia|].
  assert (is_Some (h !! pred (length h))) as Hs by (apply lookup_lt_is_Some; lia).
  apply (store_le_Some _ _ _ Hle), lookup_lt_is_Some in Hs. lia.
Qed.

(** ** The precedence order *)

Lemma string_compare_refl s : String.compare s s = Eq.
Proof.
  induction s as [|c s IH]; simpl; [done|].
  unfold Ascii.compare. by rewrite N.compare_refl.
Qed.

Lemma string_ltb_irrefl s : String.ltb s s = false.
Proof. unfold String.ltb. by rewrite string_compare_refl. Qed.

Lemma string_ltb_leb s t : String.ltb s t = negb (String.leb t s).
Proof.
  unfold String.ltb, String.leb. rewrite String.compare_antisym.
  by destruct (String.compare t s).
Qed.

Lemma string_leb_trans s t u :
  String.leb s t = true → String.leb t u = true → String.leb s u = true.
Proof.
  intros H1%Is_true_true H2%Is_true_true. apply Is_true_true.
  exact (transitivity (R := String.le) H1 H2).
Qed.

Lemma string_ltb_total s t : String.ltb s t = false → String.ltb t s = false → s = t.
Proof.
  rewrite !string_ltb_leb. intros H1%negb_false_iff H2%negb_false_iff.
  by apply String.leb_antisym.
Qed.

Lemma choose_irrefl m : chooseObjectMetaWinner m m = false.
Proof.
  unfold chooseObjectMetaWinner. rewrite bool_decide_eq_true_2 by done.
  apply string_ltb_irrefl.
Qed.

(** Losing is transitive: the precedence is a strict weak order. *)
Lemma choose_neg_trans a b c :
  chooseObjectMetaWinner a b = false → chooseObjectMetaWinner b c = false →
  chooseObjectMetaWinner a c = false.
Proof.
  unfold chooseObjectMetaWinner. rewrite !string_ltb_leb.
  repeat case_bool_decide; try (exfalso; lia); try done;
    rewrite ?bool_decide_eq_false; try lia.
  rewrite !negb_false_iff. intros H1' H2'. eapply string_leb_trans; eauto.
Qed.

Lemma choose_asym a b :
  chooseObjectMetaWinner a b = true → chooseObjectMetaWinner b a = false.
Proof.
  unfold chooseObjectMetaWinner. rewrite !string_ltb_leb.
  repeat case_bool_decide; try (exfalso; lia); try done.
  - rewrite negb_true_iff, negb_false_iff. intros Hf.
    destruct (String.leb_total (om_UID b) (om_UID a)) as [Ht|Ht]; [done|congruence].
Qed.

(** Two objects neither of which wins have the same creation time and UID. *)
Lemma choose_total a b :
  chooseObjectMetaWinner a b = false → chooseObjectMetaWinner b a = false →
  om_CreationTimestamp a = om_CreationTimestamp b ∧ om_UID a = om_UID b.
Proof.
  unfold chooseObjectMetaWinner.
  repeat case_bool_decide; try (exfalso; lia); try done.
  intros H1' H2'. split; [done|]. by apply string_ltb_total.
Qed.

(** ** IsEqual *)

Lemma compareObjectMetas_spec a b :
  compareObjectMetas a b = true ↔
  om_Namespace a = om_Namespace b ∧ om_Name a = om_Name b ∧ om_Generation a = om_Generation b.
Proof.
  unfold compareObjectMetas. rewrite !andb_true_iff, !bool_decide_eq_true. tauto.
Qed.

Lemma compareSlices_refl {A} (eqb : A → A → bool) l :
  (∀ a, eqb a a = true) → compareSlices eqb l l = true.
Proof. intros Hr. induction l; simpl; [done|]. by rewrite Hr, IHl. Qed.

Lemma compareObjectMetas_refl m : compareObjectMetas m m = true.
Proof. by apply compareObjectMetas_spec. Qed.

Lemma compareWithAnnotations_refl m : compareObjectMetasWithAnnotations m m = true.
Proof.
  unfold compareObjectMetasWithAnnotations.
  by rewrite compareObjectMetas_refl, bool_decide_eq_true_2.
Qed.

Lemma selectorsEqual_refl s : selectorsEqual s s = true.
Proof.
  unfold selectorsEqual. rewrite Nat.eqb_refl. simpl.
  apply forallb_forall. intros [sel routes] Hin%list_elem_of_In%elem_of_map_to_list.
  rewrite Hin, Nat.eqb_refl. simpl. apply forallb_forall.
  intros r Hr%list_elem_of_In. by apply bool_decide_eq_true_2.
Qed.

Lemma IsEqual_refl r : IsEqual r r = true.
Proof.
  destruct r as [ic|v|t]; simpl.
  - unfold ingressIsEqual. rewrite compareWithAnnotations_refl, !bool_decide_eq_true_2 by done.
    apply compareSlices_refl. intros; apply compareWithAnnotations_refl.
  - unfold virtualServerIsEqual. rewrite compareObjectMetas_refl, selectorsEqual_refl.
    rewrite compareSlices_refl; [done|]. intros; apply compareObjectMetas_refl.
  - unfold transportServerIsEqual. by rewrite compareObjectMetas_refl, bool_decide_eq_true_2.
Qed.

(** Equal resources have the same key. *)
Lemma IsEqual_key r r' : IsEqual r r' = true → GetKeyWithKind r = GetKeyWithKind r'.
Proof.
  assert (∀ m m', compareObjectMetas m m' = true → getResourceKey m = getResourceKey m') as Hm.
  { intros m m' (H1 & H2 & _)%compareObjectMetas_spec. unfold getResourceKey. congruence. }
  unfold GetKeyWithKind. destruct r, r'; simpl; try done.
  - unfold ingressIsEqual, compareObjectMetasWithAnnotations.
    intros [[[[H _]%andb_true_iff _]%andb_true_iff _]%andb_true_iff _]%andb_true_iff.
    by rewrite (Hm _ _ H).
  - unfold virtualServerIsEqual. intros [[H _]%andb_true_iff _]%andb_true_iff.
    by rewrite (Hm _ _ H).
  - unfold transportServerIsEqual. intros [H _]%andb_true_iff. by rewrite (Hm _ _ H).
Qed.

Lemma IsEqual_ValidHosts ic r' :
  IsEqual (RIngress ic) r' = true →
  ∃ ic', r' = RIngress ic' ∧ ic_ValidHosts ic = ic_ValidHosts ic'.
Proof.
  destruct r'; simpl; try done. unfold ingressIsEqual.
  intros [[[_ H]%andb_true_iff _]%andb_true_iff _]%andb_true_iff.
  apply bool_decide_eq_true in H. eauto.
Qed.

(** Resources of one kind have equal keys exactly when their namespaced names
    agree; the kind is part of the key. *)
Lemma key_kind_inj r r' :
  GetKeyWithKind r = GetKeyWithKind r' →
  kindOf r = kindOf r' ∧ getResourceKey (GetObjectMeta r) = getResourceKey (GetObjectMeta r').
Proof.
  unfold GetKeyWithKind.
  destruct r, r'; unfold kindOf, ingressKind, virtualServerKind, transportServerKind;
    try (intros H; discriminate H);
    intros H; (split; [done|]);
    apply string_app_inj_l in H; by apply (string_app_inj_l "/") in H.
Qed.
