(* ===== verification/ConfigState.v ===== *)
(** The state of k8s.Configuration (internal/k8s/configuration.go), the
    validators it is built with, and what it relies on them for. *)
From S2P Require Import Prelude GoStrings Objects ProxyBuffers Resources.

(** The key of the listener map. *)
Record listenerHostKey := { lhk_ListenerName : string; lhk_Host : string }.

#[export] Instance listenerHostKey_eq_dec : EqDecision listenerHostKey.
Proof. solve_decision. Defined.
#[export] Program Instance listenerHostKey_countable : Countable listenerHostKey :=
  inj_countable' (λ k, (lhk_ListenerName k, lhk_Host k))
                 (λ p, {| lhk_ListenerName := p.1; lhk_Host := p.2 |}) _.
Next Obligation. by intros []. Qed.

(** used for sorting *)
Definition lhk_String (k : listenerHostKey) : string :=
  lhk_ListenerName k +:+ "|" +:+ lhk_Host k.

(** ** Problems and changes *)

Record ConfigurationProblem := {
  cp_Object : Object;
  cp_IsError : bool;
  cp_Reason : string;
  cp_Message : string
}.

#[export] Instance ConfigurationProblem_eq_dec : EqDecision ConfigurationProblem.
Proof. solve_decision. Defined.

Definition compareConfigurationProblems (p1 p2 : ConfigurationProblem) : bool :=
  bool_decide (cp_IsError p1 = cp_IsError p2)
  && bool_decide (cp_Reason p1 = cp_Reason p2)
  && bool_decide (cp_Message p1 = cp_Message p2).

Inductive Operation := Delete | AddOrUpdate.

#[export] Instance Operation_eq_dec : EqDecision Operation.
Proof. solve_decision. Defined.

(** A change points to its resource. *)
Record ResourceChange := {
  rc_Op : Operation;
  rc_Resource : loc;
  rc_Error : string
}.

#[export] Instance ResourceChange_eq_dec : EqDecision ResourceChange.
Proof. solve_decision. Defined.

(** Event reasons, internal/logger/events.go *)
Definition EventReasonRejected : string := "Rejected".
Definition EventReasonIgnored : string := "Ignored".
Definition EventReasonNoIngressMasterFound : string := "NoIngressMasterFound".
Definition EventReasonNoVirtualServerFound : string := "NoVirtualServerFound".

(** ** Configuration

    The struct is kept in three parts: the feature flags, which never change;
    the objects (only valid resources with the matching IngressClass are
    stored), which the AddOrUpdate*/Delete* methods change and the rebuild
    reads; and the derived state the rebuild writes. *)
Record Flags := {
  f_isPlus : bool;
  f_appProtectEnabled : bool;
  f_appProtectDosEnabled : bool;
  f_isTLSPassthroughEnabled : bool;
  f_snippetsEnabled : bool;
  f_isCertManagerEnabled : bool;
  f_isIPV6Disabled : bool;
  f_isDirectiveAutoadjustEnabled : bool;
  f_allowEmptyIngressHost : bool
}.

Record Objects := {
  o_ingresses : gmap string Ingress;
  o_virtualServers : gmap string VirtualServer;
  o_virtualServerRoutes : gmap string VirtualServerRoute;
  o_transportServers : gmap string TransportServer;
  (* host -> keys of the minions of that host: map[string]map[string]bool used
     as a set, only [true] is ever stored *)
  o_minionsByHost : gmap string (gset string);
  o_globalConfiguration : option GlobalConfiguration;
  o_listenerMap : gmap string Listener
}.

Record Configuration := {
  c_flags : Flags;
  c_objects : Objects;
  c_store : store;
  c_hosts : gmap string loc;
  c_listenerHosts : gmap listenerHostKey loc;
  c_hostProblems : gmap string ConfigurationProblem;
  c_listenerProblems : gmap string ConfigurationProblem;
  (* the map the service and endpoint reference checkers share *)
  c_policyServices : gmap string string;
  c_startupComplete : bool
}.

(** NewConfiguration *)
Definition NewConfiguration (fl : Flags) : Configuration :=
  {| c_flags := fl;
     c_objects := {| o_ingresses := ∅; o_virtualServers := ∅; o_virtualServerRoutes := ∅;
                     o_transportServers := ∅; o_minionsByHost := ∅;
                     o_globalConfiguration := None; o_listenerMap := ∅ |};
     c_store := []; c_hosts := ∅; c_listenerHosts := ∅;
     c_hostProblems := ∅; c_listenerProblems := ∅;
     c_policyServices := ∅; c_startupComplete := false |}.

(** Field updates *)
Definition set_objects (c : Configuration) (o : Objects) : Configuration :=
  {| c_flags := c_flags c; c_objects := o; c_store := c_store c; c_hosts := c_hosts c;
     c_listenerHosts := c_listenerHosts c; c_hostProblems := c_hostProblems c;
     c_listenerProblems := c_listenerProblems c; c_policyServices := c_policyServices c;
     c_startupComplete := c_startupComplete c |}.

Definition set_ingresses (o : Objects) m : Objects :=
  {| o_ingresses := m; o_virtualServers := o_virtualServers o;
     o_virtualServerRoutes := o_virtualServerRoutes o; o_transportServers := o_transportServers o;
     o_minionsByHost := o_minionsByHost o; o_globalConfiguration := o_globalConfiguration o;
     o_listenerMap := o_listenerMap o |}.
Definition set_virtualServers (o : Objects) m : Objects :=
  {| o_ingresses := o_ingresses o; o_virtualServers := m;
     o_virtualServerRoutes := o_virtualServerRoutes o; o_transportServers := o_transportServers o;
     o_minionsByHost := o_minionsByHost o; o_globalConfiguration := o_globalConfiguration o;
     o_listenerMap := o_listenerMap o |}.
Definition set_virtualServerRoutes (o : Objects) m : Objects :=
  {| o_ingresses := o_ingresses o; o_virtualServers := o_virtualServers o;
     o_virtualServerRoutes := m; o_transportServers := o_transportServers o;
     o_minionsByHost := o_minionsByHost o; o_globalConfiguration := o_globalConfiguration o;
     o_listenerMap := o_listenerMap o |}.
Definition set_transportServers (o : Objects) m : Objects :=
  {| o_ingresses := o_ingresses o; o_virtualServers := o_virtualServers o;
     o_virtualServerRoutes := o_virtualServerRoutes o; o_transportServers := m;
     o_minionsByHost := o_minionsByHost o; o_globalConfiguration := o_globalConfiguration o;
     o_listenerMap := o_listenerMap o |}.
Definition set_minionsByHost (o : Objects) m : Objects :=
  {| o_ingresses := o_ingresses o; o_virtualServers := o_virtualServers o;
     o_virtualServerRoutes := o_virtualServerRoutes o; o_transportServers := o_transportServers o;
     o_minionsByHost := m; o_globalConfiguration := o_globalConfiguration o;
     o_listenerMap := o_listenerMap o |}.
Definition set_globalConfiguration (o : Objects) gc : Objects :=
  {| o_ingresses := o_ingresses o; o_virtualServers := o_virtualServers o;
     o_virtualServerRoutes := o_virtualServerRoutes o; o_transportServers := o_transportServers o;
     o_minionsByHost := o_minionsByHost o; o_globalConfiguration := gc;
     o_listenerMap := o_listenerMap o |}.
Definition set_listenerMap (o : Objects) m : Objects :=
  {| o_ingresses := o_ingresses o; o_virtualServers := o_virtualServers o;
     o_virtualServerRoutes := o_virtualServerRoutes o; o_transportServers := o_transportServers o;
     o_minionsByHost := o_minionsByHost o; o_globalConfiguration := o_globalConfiguration o;
     o_listenerMap := m |}.

(** ** What the configuration is built with *)

(** The validators ([None] is a nil error, [Some text] the error's text) and
    the ingress-class filter.  ValidateGlobalConfiguration replaces the
    listeners of its argument by the valid ones, so it returns the new object. *)
Class Validators := {
  hasCorrectIngressClass : Object → bool;
  validateIngress : Flags → Ingress → option string;
  ValidateVirtualServer : VirtualServer → option string;
  ValidateVirtualServerRoute : VirtualServerRoute → option string;
  ValidateVirtualServerRouteForVirtualServer :
    VirtualServerRoute → string → list string → option string;
  ValidateTransportServer : TransportServer → option string;
  ValidateGlobalConfiguration : GlobalConfiguration → GlobalConfiguration * option string
}.

(** HasCorrectIngressClass of the controller: an Ingress must name the class of
    the controller, in the annotation or in the field; another resource may also
    name none. *)
Definition ingressClassKey : string := "kubernetes.io/ingress.class".
Definition HasCorrectIngressClass (ingressClass : string) (obj : Object) : bool :=
  let orNone class := bool_decide (class = ingressClass) || bool_decide (class = "") in
  match obj with
  | OIngress ing =>
      let class := annotation (ing_Meta ing) ingressClassKey in
      let class := if bool_decide (class = "") then default class (ing_IngressClassName ing) else class in
      bool_decide (class = ingressClass)
  | OVirtualServer vs => orNone (vs_IngressClass vs)
  | OVirtualServerRoute vsr => orNone (vsr_IngressClass vsr)
  | OTransportServer ts => orNone (ts_IngressClass ts)
  end.

(** The label selectors of k8s.io/apimachinery: LabelSelectorAsSelector gives an
    error, or a selector with its String and its Matches. *)
Class LabelSelectors := {
  LabelSelectorAsSelector :
    gmap string string → string + (string * (gmap string string → bool));
  LabelSelector_String : gmap string string → string
}.

(** What a stored Ingress must look like for the rebuild to index its rules,
    paths and backends without a bounds or nil check of its own. *)
Record wf_ingress (ing : Ingress) : Prop := {
  wf_rules : ing_Rules ing ≠ [];
  wf_hosts : NoDup (ir_Host <$> ing_Rules ing);
  wf_minion : isMinion ing = true →
    ∃ r ps, ing_Rules ing = [r] ∧ ir_HTTP r = Some ps ∧ ps ≠ [];
  wf_challenge : isChallengeIngress ing = true →
    ∃ r p svc, ing_Rules ing = [r] ∧ ir_HTTP r = Some [p] ∧
      ib_Service (ip_Backend p) = Some svc;
  wf_defaultBackend : ∀ b, ing_DefaultBackend ing = Some b → ib_Service b ≠ None;
  wf_backends : ∀ r ps p, r ∈ ing_Rules ing → ir_HTTP r = Some ps → p ∈ ps →
    ib_Service (ip_Backend p) ≠ None
}.

(** The promise of the Ingress validator to the configuration. *)
Class IngressValidatorLaws `{Validators} := {
  validateIngress_wf : ∀ fl ing, validateIngress fl ing = None → wf_ingress ing
}.

(** Conditions that make the pure lookups of the rebuild total. *)
Record wf_objects (o : Objects) : Prop := {
  wfo_ing : ∀ k ing, o_ingresses o !! k = Some ing → wf_ingress ing;
  wfo_ing_key : ∀ k ing, o_ingresses o !! k = Some ing → k = getResourceKey (ing_Meta ing);
  wfo_vs_key : ∀ k vs, o_virtualServers o !! k = Some vs → k = getResourceKey (vs_Meta vs);
  wfo_vsr_key : ∀ k vsr, o_virtualServerRoutes o !! k = Some vsr → k = getResourceKey (vsr_Meta vsr);
  wfo_ts_key : ∀ k ts, o_transportServers o !! k = Some ts → k = getResourceKey (ts_Meta ts);
  wfo_ts_name : ∀ k ts, o_transportServers o !! k = Some ts →
    slashes (om_Namespace (ts_Meta ts)) = 0 ∧ slashes (om_Name (ts_Meta ts)) = 0
}.

(** Listeners: the assignment of TransportServers to the listeners of the
    GlobalConfiguration (buildListenerHostsAndTSConfigurations), the custom
    listeners of VirtualServers (buildListenersForVSConfiguration) and the
    listener map (setGlobalConfigListenerMap) of internal/k8s/configuration.go. *)

(** setGlobalConfigListenerMap: the last listener of a name wins *)
Definition setGlobalConfigListenerMap (o : Objects) : Objects :=
  set_listenerMap o
    match o_globalConfiguration o with
    | None => ∅
    | Some gc => foldl (λ m l, <[l_Name l := l]> m) ∅ (gc_Listeners gc)
    end.

(** The first listener with the name and protocol a TransportServer asks for. *)
Fixpoint findListener (want : TransportServerListener) (ls : list Listener) : option Listener :=
  match ls with
  | [] => None
  | l :: rest =>
      if bool_decide (tsl_Name want = l_Name l) && bool_decide (tsl_Protocol want = l_Protocol l)
      then Some l else findListener want rest
  end.

Definition tsc_setListener (l : Listener) (t : TransportServerConfiguration)
    : TransportServerConfiguration :=
  {| tsc_ListenerPort := l_Port l; tsc_IPv4 := l_IPv4 l; tsc_IPv6 := l_IPv6 l;
     tsc_TransportServer := tsc_TransportServer t; tsc_Warnings := tsc_Warnings t |}.

(** The configuration a TransportServer gets: its listener's port and
    addresses when the GlobalConfiguration has that listener. *)
Definition tsConfigFor (o : Objects) (ts : TransportServer)
    : TransportServerConfiguration * option Listener :=
  let tsc := NewTransportServerConfiguration ts in
  match o_globalConfiguration o with
  | None => (tsc, None)
  | Some gc =>
      match findListener (ts_Listener ts) (gc_Listeners gc) with
      | None => (tsc, None)
      | Some l => (tsc_setListener l tsc, Some l)
      end
  end.

Definition isTLSPassthroughTS (ts : TransportServer) : bool :=
  bool_decide (tsl_Protocol (ts_Listener ts) = TLSPassthroughListenerProtocol).

(** The state of the loop: the store, newListenerHosts, newTSConfigs. *)
Definition listenerState : Type :=
  store * gmap listenerHostKey loc * gmap string loc.

(** One TransportServer of the loop of buildListenerHostsAndTSConfigurations *)
Definition addTransportServer (o : Objects) (st : listenerState)
    (e : string * TransportServer) : option listenerState :=
  let '(h, newListenerHosts, newTSConfigs) := st in
  let '(key, ts) := e in
  if isTLSPassthroughTS ts then Some st
  else
    let '(tsc, found) := tsConfigFor o ts in
    let l := length h in
    let h := h ++ [RTransportServer tsc] in
    let newTSConfigs := <[key := l]> newTSConfigs in
    match found with
    | None => Some (h, newListenerHosts, newTSConfigs)
    | Some listener =>
        let listenerKey := {| lhk_ListenerName := l_Name listener; lhk_Host := ts_Host ts |} in
        match newListenerHosts !! listenerKey with
        | None => Some (h, <[listenerKey := l]> newListenerHosts, newTSConfigs)
        | Some hl =>
            holder ← h !! hl;
            let warning := "listener " +:+ l_Name listener +:+ " and host " +:+ ts_Host ts
                           +:+ " are taken by another resource" in
            if negb (Wins holder (RTransportServer tsc)) then
              Some (AddWarning hl warning h, <[listenerKey := l]> newListenerHosts, newTSConfigs)
            else Some (AddWarning l warning h, newListenerHosts, newTSConfigs)
        end
    end.

Definition buildListenerHostsAndTSConfigurations `{MapRange} (o : Objects) (h : store)
    : option listenerState :=
  foldM (addTransportServer o) (h, ∅, ∅)
    (range "buildListenerHostsAndTSConfigurations" (o_transportServers o)).

(** ** Custom listeners of a VirtualServer *)

(** assignListener: the port and addresses of the listener when it is an HTTP
    listener of the right SSL kind *)
Definition assignListener (o : Objects) (listenerName : string) (isSSL : bool)
    : option Listener :=
  match o_listenerMap o !! listenerName with
  | Some l =>
      if bool_decide (l_Protocol l = HTTPProtocol) && Bool.eqb (l_Ssl l) isSSL
      then Some l else None
  | None => None
  end.

Definition buildListenersForVSConfiguration (o : Objects) (v : VirtualServerConfiguration)
    : VirtualServerConfiguration :=
  match vs_Listener (vsc_VirtualServer v), o_globalConfiguration o with
  | Some vl, Some _ =>
      let http := assignListener o (vsl_HTTP vl) false in
      let https := assignListener o (vsl_HTTPS vl) true in
      {| vsc_VirtualServer := vsc_VirtualServer v;
         vsc_VirtualServerRoutes := vsc_VirtualServerRoutes v;
         vsc_VirtualServerRouteSelectors := vsc_VirtualServerRouteSelectors v;
         vsc_Warnings := vsc_Warnings v;
         vsc_HTTPPort := from_option l_Port (vsc_HTTPPort v) http;
         vsc_HTTPSPort := from_option l_Port (vsc_HTTPSPort v) https;
         vsc_HTTPIPv4 := from_option l_IPv4 (vsc_HTTPIPv4 v) http;
         vsc_HTTPIPv6 := from_option l_IPv6 (vsc_HTTPIPv6 v) http;
         vsc_HTTPSIPv4 := from_option l_IPv4 (vsc_HTTPSIPv4 v) https;
         vsc_HTTPSIPv6 := from_option l_IPv6 (vsc_HTTPSIPv6 v) https |}
  | _, _ => v
  end.

(** isListenerInCorrectBlock *)
Definition isListenerInCorrectBlock (o : Objects) (listenerName : string) (expectedSsl : bool)
    : bool :=
  match o_listenerMap o !! listenerName with
  | Some l => Bool.eqb (l_Ssl l) expectedSsl
  | None => true
  end.
