(* ===== verification/IngressValidation.v ===== *)
(** Validation of Ingress resources (validateIngress and the spec validators of
    internal/k8s/validation.go), and the promise it makes to the
    configuration: an accepted Ingress has the shape the rebuild relies on. *)
From S2P Require Import Prelude GoStrings Objects ProxyBuffers Resources ConfigState.
From S2P Require Import Regex ValidationLib CommonValidation.

(** ** Paths *)

(** [\s] of Go's regular expressions *)
Definition isRegexpSpace (c : Ascii.ascii) : bool := existsb (ceqb c) [9; 10; 12; 13; 32].

(** pathRegexp.MatchString: ^/[^\s;]*$ *)
Definition pathRegexp_MatchString (s : string) : bool :=
  match s with
  | String c rest => ceqb c 47 && forallBytes (λ c, negb (isRegexpSpace c) && negb (ceqb c 59)) rest
  | EmptyString => false
  end.

(** curlyBracesFmtRegexp: the contents of the shortest brace pairs, left to
    right; a line feed ends the search of a closing brace *)
Fixpoint closingBrace (s : string) : option (string * string) :=
  match s with
  | EmptyString => None
  | String c s' =>
      if ceqb c 125 then Some ("", s')
      else if ceqb c 10 then None
      else '(inside, rest) ← closingBrace s'; Some (String c inside, rest)
  end.

Fixpoint bracesContents (fuel : nat) (s : string) : list string :=
  match fuel with
  | 0 => []
  | S fuel' =>
      match s with
      | EmptyString => []
      | String c s' =>
          if ceqb c 123 then
            match closingBrace s' with
            | Some (inside, rest) => inside :: bracesContents fuel' rest
            | None => bracesContents fuel' s'
            end
          else bracesContents fuel' s'
      end
  end.

Definition isAlpha (c : Ascii.ascii) : bool :=
  let n := Ascii.nat_of_ascii c in
  (Nat.leb 65 n && Nat.leb n 90) || (Nat.leb 97 n && Nat.leb n 122).
Definition hasAlpha (s : string) : bool := negb (forallBytes (λ c, negb (isAlpha c)) s).

Definition validateCurlyBraces (path fieldPath : string) : list FieldError :=
  if existsb hasAlpha (bracesContents (String.length path) path)
  then [Invalid fieldPath path "must not include curly braces containing alphabetical characters"]
  else [].

(** illegalKeywordFmtRegexp: ^/etc/|^/root(?:/|$)|^/var(?:/|$)|\\n|\\r$ *)
Fixpoint containsBackslashN (s : string) : bool :=
  match s with
  | String c ((String d _) as s') => (ceqb c 92 && ceqb d 110) || containsBackslashN s'
  | _ => false
  end.
Fixpoint endsWithBackslashR (s : string) : bool :=
  match s with
  | String c s' =>
      match s' with
      | String d EmptyString => ceqb c 92 && ceqb d 114
      | _ => endsWithBackslashR s'
      end
  | EmptyString => false
  end.
Definition illegalKeyword (s : string) : bool :=
  HasPrefix s "/etc/" || HasPrefix s "/root/" || bool_decide (s = "/root")
  || HasPrefix s "/var/" || bool_decide (s = "/var")
  || containsBackslashN s || endsWithBackslashR s.

Definition validateIllegalKeywords (path fieldPath : string) : list FieldError :=
  if illegalKeyword path then [Invalid fieldPath path "must not contain invalid paths"] else [].

(** ** What the validator is built with: the library functions, and the annotation
    validators (validateIngressAnnotations and validateProxyRedirectPair). *)
Class IngressValidatorParams := {
  IV_lib :: ValidationLib;
  annotationErrors : Flags → Ingress → list FieldError
}.

Section Validate.
Context `{P : IngressValidatorParams}.

(** pathFmt and pathErrMsg *)
Definition pathFmt : string := "/[^\s;]*".
Definition pathErrMsg : string :=
  "must start with / and must not include any whitespace character or `;`".

Definition validateRegexPath (path fieldPath : string) : list FieldError :=
  match regexp2_Compile path with
  | Some err => [Invalid fieldPath path ("must be a valid regular expression: " +:+ err)]
  | None =>
      match ValidateEscapedString path ["*.jpg"; "^/images/image_*.png$"] with
      | Some err => [Invalid fieldPath path err]
      | None => []
      end
  end.

Definition validatePath (path : string) (pathType : option string) (fieldPath : string)
    : list FieldError :=
  if bool_decide (path = "") && bool_decide (pathType = Some "ImplementationSpecific") then []
  else if bool_decide (path = "") then
    [Required fieldPath "path is required for Exact and Prefix PathTypes"]
  else if HasPrefix path "//" then
    [Invalid fieldPath path "protocol-relative URIs not allowed, must not start with '//'"]
  else if existsb (λ seg, bool_decide (seg = "..")) (pathSegments path) then
    [Invalid fieldPath path "path traversal not allowed, path must not contain '..' segments"]
  else if negb (pathRegexp_MatchString path) then
    [Invalid fieldPath path (RegexError pathErrMsg pathFmt ["/"; "/path"; "/path/subpath-123"])]
  else if negb (allPrintable path) then
    [Invalid fieldPath path "must not include non-printable characters"]
  else validateRegexPath path fieldPath ++ validateCurlyBraces path fieldPath
       ++ validateIllegalKeywords path fieldPath.

Definition validateBackend (backend : IngressBackend) (fieldPath : string) : list FieldError :=
  if ib_HasResource backend then
    [Forbidden (Child fieldPath "resource") "resource backends are not supported"]
  else match ib_Service backend with
       | None => [Required (Child fieldPath "service") "service backend must be specified"]
       | Some _ => []
       end.

(** The paths of one rule, numbered from [j]. *)
Fixpoint validatePaths (idxRule : string) (j : nat) (paths : list HTTPIngressPath)
    : list FieldError :=
  match paths with
  | [] => []
  | p :: rest =>
      let idxPath := Index (Child (Child idxRule "http") "paths") j in
      validatePath (ip_Path p) (ip_PathType p) (Child idxPath "path")
      ++ validateBackend (ip_Backend p) (Child idxPath "backend")
      ++ validatePaths idxRule (S j) rest
  end.

(** The host of one rule, with the hosts seen so far and whether one of them
    was empty. *)
Definition validateRuleHost (allowEmptyHost : bool) (idxRule host : string)
    (st : gset string * bool) : list FieldError * (gset string * bool) :=
  let '(allHosts, hasEmptyHost) := st in
  if bool_decide (host = "") then
    if negb allowEmptyHost then ([Required (Child idxRule "host") ""], st)
    else if hasEmptyHost then ([Duplicate (Child idxRule "host") ""], st)
    else ([], (allHosts, true))
  else if bool_decide (host ∈ allHosts) then ([Duplicate (Child idxRule "host") host], st)
  else ([], ({[host]} ∪ allHosts, hasEmptyHost)).

Fixpoint validateRules (fieldPath : string) (allowEmptyHost : bool) (i : nat)
    (st : gset string * bool) (rules : list IngressRule) : list FieldError :=
  match rules with
  | [] => []
  | r :: rest =>
      let idxRule := Index (Child fieldPath "rules") i in
      let '(hostErrs, st') := validateRuleHost allowEmptyHost idxRule (ir_Host r) st in
      hostErrs
      ++ from_option (validatePaths idxRule 0) [] (ir_HTTP r)
      ++ validateRules fieldPath allowEmptyHost (S i) st' rest
  end.

Definition validateIngressSpec (ing : Ingress) (fieldPath : string) (allowEmptyHost : bool)
    : list FieldError :=
  let allErrs := from_option (λ b, validateBackend b (Child fieldPath "defaultBackend")) []
                   (ing_DefaultBackend ing) in
  if bool_decide (ing_Rules ing = []) then allErrs ++ [Required (Child fieldPath "rules") ""]
  else allErrs ++ validateRules fieldPath allowEmptyHost 0 (∅, false) (ing_Rules ing).

Definition validateMasterSpec (ing : Ingress) (fieldPath : string) : list FieldError :=
  match ing_Rules ing with
  | [r] =>
      match ir_HTTP r with
      | Some ((_ :: _) as ps) =>
          [TooMany (Child (Child (Index (Child fieldPath "rules") 0) "http") "paths") (length ps) 0]
      | _ => []
      end
  | rs => [TooMany (Child fieldPath "rules") (length rs) 1]
  end.

Definition validateMinionSpec (ing : Ingress) (fieldPath : string) : list FieldError :=
  let allErrs := match ing_TLS ing with
                 | [] => []
                 | tls => [TooMany (Child fieldPath "tls") (length tls) 0]
                 end in
  match ing_Rules ing with
  | [r] =>
      match ir_HTTP r with
      | Some (_ :: _) => allErrs
      | _ => allErrs ++ [Required (Child (Child (Index (Child fieldPath "rules") 0) "http") "paths")
                           "must include at least one path"]
      end
  | rs => allErrs ++ [TooMany (Child fieldPath "rules") (length rs) 1]
  end.

Definition validateChallengeIngress (ing : Ingress) (fieldPath : string) : list FieldError :=
  match ing_Rules ing with
  | [r] =>
      match ir_HTTP r with
      | Some [p] =>
          match ib_Service (ip_Backend p) with
          | None => [Required (Child fieldPath "rules.HTTP.Paths[0].Backend.Service")
                       "challenge Ingress must have a Backend Service defined"]
          | Some svc =>
              if bool_decide (isb_PortName svc = "") then []
              else [Forbidden (Child fieldPath "rules.HTTP.Paths[0].Backend.Service.Port.Name")
                      "challenge Ingress must have a Backend Service Port Number defined, not Name"]
          end
      | _ => [Forbidden (Child fieldPath "rules.HTTP.Paths")
                "challenge Ingress must have exactly 1 path defined"]
      end
  | _ => [Forbidden (Child fieldPath "rules") "challenge Ingress must have exactly 1 rule defined"]
  end.

Definition hasEmptyHostRule (ing : Ingress) : bool :=
  existsb (λ r, bool_decide (ir_Host r = "")) (ing_Rules ing).

Definition validateHostlessIngress (ing : Ingress) (specPath : string) : list FieldError :=
  concat (imap (λ i tls, concat (imap (λ j host,
    if bool_decide (host = "")
    then [Forbidden (Index (Child (Index (Child specPath "tls") i) "hosts") j)
            "empty host is not allowed in tls.hosts; TLS for the default catch-all server is configured via the -default-server-tls-secret CLI flag"]
    else []) (it_Hosts tls))) (ing_TLS ing)).

(** validateIngress *)
Definition validateIngressErrors (fl : Flags) (ing : Ingress) : list FieldError :=
  let allowEmptyHost := f_allowEmptyIngressHost fl in
  annotationErrors fl ing
  ++ validateIngressSpec ing "spec" allowEmptyHost
  ++ (if allowEmptyHost && hasEmptyHostRule ing then validateHostlessIngress ing "spec" else [])
  ++ (if isMaster ing then validateMasterSpec ing "spec"
      else if isMinion ing then validateMinionSpec ing "spec" else [])
  ++ (if isChallengeIngress ing then validateChallengeIngress ing "spec" else []).

(** validateIngress(...).ToAggregate(): the nil error for no errors *)
Definition validateIngressAggregate (fl : Flags) (ing : Ingress) : option string :=
  match validateIngressErrors fl ing with
  | [] => None
  | errs => Some (ToAggregate_Error errs)
  end.

(** ** Accepted Ingresses are well formed *)

(** The hosts are distinct and differ from those seen before. *)
Lemma validateRules_hosts fieldPath allow i st rules :
  validateRules fieldPath allow i st rules = [] →
  NoDup (ir_Host <$> rules) ∧
  ∀ r, r ∈ rules → (ir_Host r = "" → st.2 = false) ∧ (ir_Host r ≠ "" → ir_Host r ∉ st.1).
Proof.
  revert i st. induction rules as [|r rules IH]; intros i [seen e] Hv.
  - split; [constructor|set_solver].
  - cbn [validateRules] in Hv.
    destruct (validateRuleHost allow _ (ir_Host r) (seen, e)) as [hostErrs st'] eqn:Hh.
    apply app_eq_nil in Hv as [-> Hv]. apply app_eq_nil in Hv as [_ Hv].
    apply IH in Hv as [Hnd Hall]. unfold validateRuleHost in Hh.
    assert (ir_Host r ∉ ir_Host <$> rules ∧ (ir_Host r = "" → e = false) ∧
            (ir_Host r ≠ "" → ir_Host r ∉ seen) ∧
            (∀ x, x ∈ rules → (ir_Host x = "" → e = false) ∧ (ir_Host x ≠ "" → ir_Host x ∉ seen)))
      as (Hfresh & Hr1 & Hr2 & Hx).
    { case_bool_decide as He; [destruct allow, e; simplify_eq/=|].
      - split_and!; try done.
        + intros (x & Heq & Hin)%list_elem_of_fmap. destruct (Hall x Hin) as [Hc _].
          simpl in Hc. discriminate Hc. congruence.
        + intros x Hin. destruct (Hall x Hin). split; [done|naive_solver].
      - case_bool_decide as Hs; simplify_eq. simpl in Hall. split_and!; try done.
        + intros (x & Heq & Hin)%list_elem_of_fmap. destruct (Hall x Hin) as [_ Hc].
          rewrite <- Heq in Hc. apply Hc; set_solver.
        + intros x Hin. destruct (Hall x Hin) as [Hc1 Hc2]. split; [done|]. set_solver. }
    split; [by apply NoDup_cons|]. intros x [->|Hin]%elem_of_cons; [done|by apply Hx].
Qed.

(** An accepted backend is a service, and so is the backend of every path. *)
Lemma validateBackend_service b fieldPath : validateBackend b fieldPath = [] → ib_Service b ≠ None.
Proof. unfold validateBackend. by destruct (ib_HasResource b), (ib_Service b). Qed.

Lemma validatePaths_backends idxRule j ps p :
  validatePaths idxRule j ps = [] → p ∈ ps → ib_Service (ip_Backend p) ≠ None.
Proof.
  revert j. induction ps as [|q ps IH]; intros j Hv Hin; [by apply elem_of_nil in Hin|].
  cbn [validatePaths] in Hv. apply app_eq_nil in Hv as [_ Hv].
  apply app_eq_nil in Hv as [Hb Hv].
  apply elem_of_cons in Hin as [->|Hin]; eauto using validateBackend_service.
Qed.

Lemma validateRules_backends fieldPath allow i st rules r ps p :
  validateRules fieldPath allow i st rules = [] → r ∈ rules → ir_HTTP r = Some ps → p ∈ ps →
  ib_Service (ip_Backend p) ≠ None.
Proof.
  revert i st. induction rules as [|q rules IH]; intros i st Hv Hin Hps Hp; [by apply elem_of_nil in Hin|].
  cbn [validateRules] in Hv. destruct (validateRuleHost allow _ (ir_Host q) st) as [hostErrs st'].
  apply app_eq_nil in Hv as [_ Hv]. apply app_eq_nil in Hv as [Hpaths Hv].
  apply elem_of_cons in Hin as [->|Hin]; [|by eauto].
  rewrite Hps in Hpaths. eauto using validatePaths_backends.
Qed.

Lemma validateIngressErrors_wf fl ing : validateIngressErrors fl ing = [] → wf_ingress ing.
Proof.
  unfold validateIngressErrors. intros Hv.
  apply app_eq_nil in Hv as [_ Hv]. apply app_eq_nil in Hv as [Hspec Hv].
  apply app_eq_nil in Hv as [_ Hv]. apply app_eq_nil in Hv as [Hmm Hch].
  unfold validateIngressSpec in Hspec. case_bool_decide as Hrules.
  { by apply app_eq_nil in Hspec as [_ ?]. }
  apply app_eq_nil in Hspec as [Hdef Hspec].
  pose proof (validateRules_hosts _ _ _ _ _ Hspec) as [Hnd _].
  split; [done|done|..].
  - intros Hmin. rewrite Hmin in Hmm. destruct (isMaster ing) eqn:Hmas.
    { unfold isMaster, isMinion in *. apply bool_decide_eq_true in Hmas, Hmin. congruence. }
    unfold validateMinionSpec in Hmm. destruct (ing_Rules ing) as [|r [|]];
      [by apply app_eq_nil in Hmm as [_ ?]| |by apply app_eq_nil in Hmm as [_ ?]].
    destruct (ir_HTTP r) as [[|p ps]|] eqn:Hp; try (by apply app_eq_nil in Hmm as [_ ?]).
    by exists r, (p :: ps).
  - intros Hc. rewrite Hc in Hch. unfold validateChallengeIngress in Hch.
    destruct (ing_Rules ing) as [|r [|]]; try done.
    destruct (ir_HTTP r) as [[|p [|]]|] eqn:Hp; try done.
    destruct (ib_Service (ip_Backend p)) as [svc|] eqn:Hs; [|done]. by exists r, p, svc.
  - intros b Hb. rewrite Hb in Hdef. eauto using validateBackend_service.
  - intros r ps p Hr Hps Hp. eauto using validateRules_backends.
Qed.
End Validate.

(** ** The controller's validators

    The configuration with validateIngress as its Ingress validator; the other
    validators are those of [other]. *)
Definition controllerValidators `{P : IngressValidatorParams} (other : Validators)
    : Validators :=
  {| hasCorrectIngressClass := @hasCorrectIngressClass other;
     validateIngress := validateIngressAggregate;
     ValidateVirtualServer := @ValidateVirtualServer other;
     ValidateVirtualServerRoute := @ValidateVirtualServerRoute other;
     ValidateVirtualServerRouteForVirtualServer := @ValidateVirtualServerRouteForVirtualServer other;
     ValidateTransportServer := @ValidateTransportServer other;
     ValidateGlobalConfiguration := @ValidateGlobalConfiguration other |}.

#[export] Instance controllerValidators_laws `{P : IngressValidatorParams} (other : Validators)
    : @IngressValidatorLaws (controllerValidators other).
Proof.
  split. intros fl ing. simpl. unfold validateIngressAggregate.
  destruct (validateIngressErrors fl ing) eqn:Hv; [|done]. intros _. by eapply validateIngressErrors_wf.
Qed.
