(* ===== verification/GlobalConfigurationValidation.v ===== *)
(** Validation of the GlobalConfiguration resource
    (pkg/apis/configuration/validation/globalconfiguration.go): the listeners
    that are kept and the errors reported for the others. *)
From S2P Require Import Prelude GoStrings Objects ProxyBuffers Resources ConfigState.
From S2P Require Import Regex ValidationLib CommonValidation.

Inductive ipType := ipv4 | ipv6.

Definition allowedProtocols : list string := ["HTTP"; "TCP"; "UDP"].

(** getIP *)
Definition getIP (t : ipType) (l : Listener) : string :=
  match t with
  | ipv4 => if bool_decide (l_IPv4 l = "") then "0.0.0.0" else l_IPv4 l
  | ipv6 => if bool_decide (l_IPv6 l = "") then "::" else l_IPv6 l
  end.

(** map[IP]map[Port][]Protocol: the protocols of an address and port; a missing
    inner map reads as an empty one *)
Abbreviation combinations := (gmap (string * Z) (list string)).

(** Whether two protocols cannot share an address and port: the switch of
    checkIPPortProtocolConflicts *)
Definition protocolsConflict (protocol existing : string) : bool :=
  if bool_decide (protocol = "HTTP") || bool_decide (protocol = "TCP")
  then bool_decide (existing = "HTTP") || bool_decide (existing = "TCP")
  else bool_decide (protocol = "UDP") && bool_decide (existing = "UDP").

Definition checkIPPortProtocolConflicts (comb : combinations) (t : ipType) (l : Listener)
    (fieldPath : string) : option FieldError :=
  let ip := getIP t l in
  if existsb (protocolsConflict (l_Protocol l)) (default [] (comb !! (ip, l_Port l)))
  then Some (Invalid (Child fieldPath "protocol") (l_Protocol l)
    ("Listener " +:+ l_Name l +:+ ": Duplicated ip:port protocol combination " +:+ ip +:+ ":"
     +:+ fmtInt (l_Port l) +:+ " " +:+ l_Protocol l))
  else None.

Definition updatePortProtocolCombinations (comb : combinations) (t : ipType) (l : Listener)
    : combinations :=
  let k := (getIP t l, l_Port l) in
  <[k := default [] (comb !! k) ++ [l_Protocol l]]> comb.

Section Validate.
Context `{VL : ValidationLib}.
Variable forbiddenListenerPorts : gset Z.

Definition validateGlobalConfigurationListenerName (name fieldPath : string) : list FieldError :=
  if bool_decide (name = TLSPassthroughListenerName)
  then [Forbidden fieldPath "is the name of a built-in listener"]
  else validateDNS1035Label name fieldPath.

Definition validateListenerPort (name : string) (port : Z) (fieldPath : string)
    : list FieldError :=
  if bool_decide (port ∈ forbiddenListenerPorts) then
    [Forbidden fieldPath ("Listener " +:+ name +:+ ": port " +:+ fmtInt port +:+ " is forbidden")]
  else (λ msg, Invalid fieldPath (fmtInt port) msg) <$> IsValidPortNum port.

Definition validateListenerProtocol (protocol fieldPath : string) : list FieldError :=
  if bool_decide (protocol ∈ allowedProtocols) then []
  else [Invalid fieldPath protocol
          ("must specify a valid protocol. Accepted values: " +:+ Join "," (sortStrings allowedProtocols))].

Definition validateListenerIPv4 (ip fieldPath : string) : list FieldError :=
  if bool_decide (ip = "") then []
  else match ParseIPSloppy ip with
       | Some true => []
       | _ => [Invalid fieldPath ip "must be a valid IPv4 address"]
       end.

Definition validateListenerIPv6 (ip fieldPath : string) : list FieldError :=
  if bool_decide (ip = "") then []
  else match ParseIPSloppy ip with
       | Some false => []
       | _ => [Invalid fieldPath ip "must be a valid IPv6 address"]
       end.

Definition validateListener (l : Listener) (fieldPath : string) : list FieldError :=
  validateGlobalConfigurationListenerName (l_Name l) (Child fieldPath "name")
  ++ validateListenerPort (l_Name l) (l_Port l) (Child fieldPath "port")
  ++ validateListenerProtocol (l_Protocol l) (Child fieldPath "protocol")
  ++ validateListenerIPv4 (l_IPv4 l) (Child fieldPath "ipv4")
  ++ validateListenerIPv6 (l_IPv6 l) (Child fieldPath "ipv6").

(** The state of the loop of getValidListeners *)
Record gcState := {
  gs_valid : list Listener;
  gs_errs : list FieldError;
  gs_names : gset string;
  gs_ipv4 : combinations;
  gs_ipv6 : combinations
}.

(** One listener, number [i] *)
Definition addListener (fieldPath : string) (st : gcState) (il : nat * Listener) : gcState :=
  let '(i, l) := il in
  let idxPath := Index fieldPath i in
  match validateListener l idxPath with
  | (_ :: _) as errs =>
      {| gs_valid := gs_valid st; gs_errs := gs_errs st ++ errs; gs_names := gs_names st;
         gs_ipv4 := gs_ipv4 st; gs_ipv6 := gs_ipv6 st |}
  | [] =>
      if bool_decide (l_Name l ∈ gs_names st) then
        {| gs_valid := gs_valid st;
           gs_errs := gs_errs st ++ [Duplicate (Child idxPath "name") (l_Name l)];
           gs_names := gs_names st; gs_ipv4 := gs_ipv4 st; gs_ipv6 := gs_ipv6 st |}
      else
        let names := {[l_Name l]} ∪ gs_names st in
        match checkIPPortProtocolConflicts (gs_ipv4 st) ipv4 l fieldPath with
        | Some err =>
            {| gs_valid := gs_valid st; gs_errs := gs_errs st ++ [err]; gs_names := names;
               gs_ipv4 := updatePortProtocolCombinations (gs_ipv4 st) ipv4 l;
               gs_ipv6 := gs_ipv6 st |}
        | None =>
            match checkIPPortProtocolConflicts (gs_ipv6 st) ipv6 l fieldPath with
            | Some err =>
                {| gs_valid := gs_valid st; gs_errs := gs_errs st ++ [err]; gs_names := names;
                   gs_ipv4 := gs_ipv4 st;
                   gs_ipv6 := updatePortProtocolCombinations (gs_ipv6 st) ipv6 l |}
            | None =>
                {| gs_valid := gs_valid st ++ [l]; gs_errs := gs_errs st; gs_names := names;
                   gs_ipv4 := updatePortProtocolCombinations (gs_ipv4 st) ipv4 l;
                   gs_ipv6 := updatePortProtocolCombinations (gs_ipv6 st) ipv6 l |}
            end
        end
  end.

Definition getValidListeners (listeners : list Listener) (fieldPath : string)
    : list Listener * list FieldError :=
  let st := foldl (addListener fieldPath)
              {| gs_valid := []; gs_errs := []; gs_names := ∅; gs_ipv4 := ∅; gs_ipv6 := ∅ |}
              (imap pair listeners) in
  (gs_valid st, gs_errs st).

(** ValidateGlobalConfiguration: the object with its valid listeners, and the
    error *)
Definition validateGlobalConfiguration (gc : GlobalConfiguration)
    : GlobalConfiguration * option string :=
  let '(valid, errs) := getValidListeners (gc_Listeners gc) (Child "spec" "listeners") in
  ({| gc_Meta := gc_Meta gc; gc_Listeners := valid |},
   match errs with [] => None | _ => Some (ToAggregate_Error errs) end).

(** ** What the valid listeners look like *)

(** A listener without errors of its own *)
Definition validListener (l : Listener) : bool := bool_decide (validateListener l "" = []).

Lemma fmap_nil_path {A B} (f g : A → B) (l : list A) : f <$> l = [] ↔ g <$> l = [].
Proof. by destruct l. Qed.

(** Whether there are errors does not depend on the path they are reported at. *)
Lemma validateListener_path l p : validateListener l p = [] ↔ validListener l = true.
Proof.
  unfold validListener. rewrite bool_decide_eq_true. unfold validateListener. rewrite !app_nil.
  assert (∀ n q q', validateGlobalConfigurationListenerName n q = [] →
                    validateGlobalConfigurationListenerName n q' = []) as H1.
  { intros n q q'. unfold validateGlobalConfigurationListenerName, validateDNS1035Label.
    case_bool_decide; [done|]. case_bool_decide; [done|]. apply fmap_nil_path. }
  assert (∀ n pt q q', validateListenerPort n pt q = [] → validateListenerPort n pt q' = []) as H2.
  { intros n pt q q'. unfold validateListenerPort. case_bool_decide; [done|]. apply fmap_nil_path. }
  assert (∀ pr q q', validateListenerProtocol pr q = [] → validateListenerProtocol pr q' = []) as H3.
  { intros pr q q'. unfold validateListenerProtocol. by case_bool_decide. }
  assert (∀ ip q q', validateListenerIPv4 ip q = [] → validateListenerIPv4 ip q' = []) as H4.
  { intros ip q q'. unfold validateListenerIPv4. case_bool_decide; [done|]. by repeat case_match. }
  assert (∀ ip q q', validateListenerIPv6 ip q = [] → validateListenerIPv6 ip q' = []) as H5.
  { intros ip q q'. unfold validateListenerIPv6. case_bool_decide; [done|]. by repeat case_match. }
  split; intros (E1 & E2 & E3 & E4 & E5); split_and!; eauto.
Qed.

(** Two listeners that NGINX cannot both bind *)
Definition listenersConflict (l1 l2 : Listener) : Prop :=
  (∃ t, getIP t l1 = getIP t l2) ∧ l_Port l1 = l_Port l2 ∧
  protocolsConflict (l_Protocol l1) (l_Protocol l2) = true.

Record listenersOk (ls : list Listener) : Prop := {
  lok_each : ∀ l, l ∈ ls → validListener l = true;
  lok_names : NoDup (l_Name <$> ls);
  lok_conflicts : ∀ i j l1 l2, i ≠ j → ls !! i = Some l1 → ls !! j = Some l2 →
    ¬ listenersConflict l1 l2
}.

(** The combinations recorded for the listeners [ls] *)
Definition records (comb : combinations) (t : ipType) (ls : list Listener) : Prop :=
  ∀ l, l ∈ ls → l_Protocol l ∈ default [] (comb !! (getIP t l, l_Port l)).

Lemma records_update comb t ls l :
  records comb t ls → records (updatePortProtocolCombinations comb t l) t ls.
Proof.
  intros Hr l' Hl'. specialize (Hr l' Hl'). unfold updatePortProtocolCombinations. cbv zeta.
  destruct (decide ((getIP t l, l_Port l) = (getIP t l', l_Port l'))) as [Heq|Hne].
  - rewrite Heq, lookup_insert_eq. simpl. set_solver.
  - by rewrite lookup_insert_ne.
Qed.

Lemma records_add comb t ls l :
  records comb t ls → records (updatePortProtocolCombinations comb t l) t (ls ++ [l]).
Proof.
  intros Hr l' [Hl'| ->%list_elem_of_singleton]%elem_of_app;
    [by apply (records_update comb t ls l Hr)|].
  unfold updatePortProtocolCombinations. cbv zeta. rewrite lookup_insert_eq. simpl. set_solver.
Qed.

Lemma check_None comb t l p ls :
  records comb t ls → checkIPPortProtocolConflicts comb t l p = None →
  ∀ l', l' ∈ ls → getIP t l' = getIP t l → l_Port l' = l_Port l →
    protocolsConflict (l_Protocol l) (l_Protocol l') = false.
Proof.
  intros Hr Hc l' Hl' Hip Hport. unfold checkIPPortProtocolConflicts in Hc.
  destruct (existsb _ _) eqn:He; [done|].
  specialize (Hr l' Hl'). rewrite Hip, Hport in Hr.
  apply not_true_is_false. intros Ht. apply not_true_iff_false in He. apply He.
  apply existsb_exists. exists (l_Protocol l'). split; [by apply list_elem_of_In|done].
Qed.

Lemma protocolsConflict_sym p q : protocolsConflict p q = protocolsConflict q p.
Proof. unfold protocolsConflict. by repeat case_bool_decide; simplify_eq. Qed.

(** The invariant of the loop *)
Record gcInv (pre : list Listener) (st : gcState) : Prop := {
  gi_sub : gs_valid st `sublist_of` pre;
  gi_ok : listenersOk (gs_valid st);
  gi_names : ∀ l, l ∈ gs_valid st → l_Name l ∈ gs_names st;
  gi_ipv4 : records (gs_ipv4 st) ipv4 (gs_valid st);
  gi_ipv6 : records (gs_ipv6 st) ipv6 (gs_valid st);
  gi_errs : gs_errs st = [] → gs_valid st = pre
}.

Lemma listenersOk_snoc ls l :
  listenersOk ls → validListener l = true → l_Name l ∉ l_Name <$> ls →
  (∀ l', l' ∈ ls → ¬ listenersConflict l' l) → listenersOk (ls ++ [l]).
Proof.
  intros [He Hn Hc] Hl Hname Hconf.
  assert (∀ l', l' ∈ ls → ¬ listenersConflict l l') as Hconf'.
  { intros l' Hl' ([t ?] & ? & Hp). apply (Hconf l' Hl'). split; [by exists t|].
    split; [done|]. by rewrite protocolsConflict_sym. }
  split.
  - intros l' [?| ->%list_elem_of_singleton]%elem_of_app; auto.
  - rewrite fmap_app. apply NoDup_app. split; [done|]. split; [|apply NoDup_singleton].
    intros x Hx ->%list_elem_of_singleton. done.
  - intros i j l1 l2 Hij Hi Hj. rewrite lookup_snoc_Some in Hi, Hj.
    destruct Hi as [[_ Hi]|[-> <-]], Hj as [[_ Hj]|[-> <-]]; try done.
    + by eapply Hc.
    + apply Hconf. by eapply list_elem_of_lookup_2.
    + apply Hconf'. by eapply list_elem_of_lookup_2.
Qed.

Lemma addListener_inv p pre st i l :
  gcInv pre st → gcInv (pre ++ [l]) (addListener p st (i, l)).
Proof.
  intros [Hsub Hok Hn H4 H6 He]. unfold addListener.
  assert (gs_valid st `sublist_of` pre ++ [l]) as Hsub' by by apply sublist_inserts_r.
  destruct (validateListener l (Index p i)) as [|e errs] eqn:Hv.
  2: { split; simpl; try done. by intros [_ ?]%app_nil. }
  apply validateListener_path in Hv.
  case_bool_decide as Hname.
  { split; simpl; try done. by intros [_ ?]%app_nil. }
  destruct (checkIPPortProtocolConflicts (gs_ipv4 st) ipv4 l p) eqn:Hc4.
  { split; simpl; try done; [set_solver|by apply records_update|].
    by intros [_ ?]%app_nil. }
  destruct (checkIPPortProtocolConflicts (gs_ipv6 st) ipv6 l p) eqn:Hc6.
  { split; simpl; try done; [set_solver|by apply records_update|].
    by intros [_ ?]%app_nil. }
  split; simpl.
  - by apply sublist_app.
  - apply listenersOk_snoc; [done|done| |].
    + intros (l' & Heq & Hl')%list_elem_of_fmap. apply Hname. rewrite Heq. by apply Hn.
    + intros l' Hl' ([[] Hip] & Hport & Hp); rewrite protocolsConflict_sym in Hp.
      * by rewrite (check_None _ _ _ _ _ H4 Hc4 l' Hl' Hip Hport) in Hp.
      * by rewrite (check_None _ _ _ _ _ H6 Hc6 l' Hl' Hip Hport) in Hp.
  - set_solver.
  - by apply records_add.
  - by apply records_add.
  - intros Hx. by rewrite (He Hx).
Qed.

Lemma getValidListeners_inv p ls :
  gcInv ls (foldl (addListener p)
    {| gs_valid := []; gs_errs := []; gs_names := ∅; gs_ipv4 := ∅; gs_ipv6 := ∅ |} (imap pair ls)).
Proof.
  induction ls as [|l ls IH] using rev_ind.
  - split; simpl; try done; try by intros ? ?%elem_of_nil.
    split; [by intros ? ?%elem_of_nil|constructor|done].
  - rewrite imap_app, foldl_app. simpl. by apply addListener_inv.
Qed.

(** What the combinations hold comes from the listeners seen. *)
Definition recordsOnly (comb : combinations) (t : ipType) (ls : list Listener) : Prop :=
  ∀ k q, q ∈ default [] (comb !! k) → ∃ l, l ∈ ls ∧ k = (getIP t l, l_Port l) ∧ q = l_Protocol l.

Lemma recordsOnly_add comb t ls l :
  recordsOnly comb t ls → recordsOnly (updatePortProtocolCombinations comb t l) t (ls ++ [l]).
Proof.
  intros Hr k q. unfold updatePortProtocolCombinations. cbv zeta.
  destruct (decide ((getIP t l, l_Port l) = k)) as [<-|Hne].
  - rewrite lookup_insert_eq. simpl. rewrite elem_of_app, list_elem_of_singleton.
    intros [Hq| ->]; [|exists l; split; [set_solver|done]].
    destruct (Hr _ _ Hq) as (l' & ? & ?). exists l'. split; [set_solver|done].
  - rewrite lookup_insert_ne by done. intros Hq. destruct (Hr _ _ Hq) as (l' & ? & ?).
    exists l'. split; [set_solver|done].
Qed.

(** Acceptable listeners are all kept. *)
Lemma foldl_addListener_ok p ls :
  listenersOk ls →
  let st := foldl (addListener p)
    {| gs_valid := []; gs_errs := []; gs_names := ∅; gs_ipv4 := ∅; gs_ipv6 := ∅ |} (imap pair ls) in
  gs_valid st = ls ∧ gs_errs st = [] ∧ gs_names st = list_to_set (l_Name <$> ls) ∧
  recordsOnly (gs_ipv4 st) ipv4 ls ∧ recordsOnly (gs_ipv6 st) ipv6 ls.
Proof.
  induction ls as [|l ls IH] using rev_ind; intros Hok.
  - cbn. split_and!; try done; intros k q; rewrite lookup_empty; by intros ?%elem_of_nil.
  - assert (listenersOk ls) as Hok'.
    { destruct Hok as [H1 H2 H3]. split.
      - intros; apply H1; set_solver.
      - rewrite fmap_app in H2. by apply NoDup_app in H2 as [? _].
      - intros i j l1 l2 Hij Hi Hj. apply (H3 i j); [done|by apply lookup_app_l_Some..]. }
    specialize (IH Hok'). cbv zeta in *. rewrite imap_app, foldl_app.
    destruct (foldl _ _ (imap pair ls)) as [valid errs names c4 c6]. cbn [gs_valid gs_errs gs_names gs_ipv4 gs_ipv6] in IH.
    destruct IH as (-> & -> & -> & H4 & H6).
    assert (∀ l', l' ∈ ls → ¬ listenersConflict l l') as Hconf.
    { intros l' [i Hi]%list_elem_of_lookup. apply (lok_conflicts _ Hok (length ls) i).
      - apply lookup_lt_Some in Hi. lia.
      - by rewrite lookup_app_r, Nat.sub_diag by lia.
      - by apply lookup_app_l_Some. }
    assert (∀ comb t, recordsOnly comb t ls → checkIPPortProtocolConflicts comb t l p = None) as Hchk.
    { intros comb t Hr. unfold checkIPPortProtocolConflicts. destruct (existsb _ _) eqn:He; [|done].
      apply existsb_exists in He as (q & Hq%list_elem_of_In & Hpc).
      destruct (Hr _ _ Hq) as (l' & Hl' & [= Hip Hport] & ->). exfalso. apply (Hconf l' Hl').
      split; [by exists t|]. done. }
    cbn [imap foldl].
    match goal with |- context [addListener p ?st (?i, l)] =>
      assert (addListener p st (i, l) =
        {| gs_valid := ls ++ [l]; gs_errs := [];
           gs_names := {[l_Name l]} ∪ list_to_set (l_Name <$> ls);
           gs_ipv4 := updatePortProtocolCombinations c4 ipv4 l;
           gs_ipv6 := updatePortProtocolCombinations c6 ipv6 l |}) as -> end.
    { unfold addListener.
      rewrite (proj2 (validateListener_path l _)) by (apply (lok_each _ Hok); set_solver).
      rewrite bool_decide_eq_false_2; [by cbn [gs_ipv4 gs_ipv6]; rewrite (Hchk c4 ipv4), (Hchk c6 ipv6)|].
      cbn [gs_names]. pose proof (lok_names _ Hok) as Hnd. rewrite fmap_app in Hnd.
      apply NoDup_app in Hnd as (_ & Hd & _). intros Hin%elem_of_list_to_set.
      by apply (Hd _ Hin), list_elem_of_singleton. }
    cbn [gs_valid gs_errs gs_names gs_ipv4 gs_ipv6]. split_and!; try done.
    + rewrite fmap_app, list_to_set_app_L. csimpl. set_solver.
    + by apply recordsOnly_add.
    + by apply recordsOnly_add.
Qed.
End Validate.
