(* ===== verification/TransportServerValidation.v ===== *)
(** Validation of TransportServers
    (pkg/apis/configuration/validation/transportserver.go). *)
From S2P Require Import Prelude GoStrings Regex Objects ProxyBuffers Directives Resources.
From S2P Require Import ConfigState.
From S2P Require Import ValidationLib ParsingHelpers CommonValidation.
From S2P Require Import VSUpstreamValidation VSRouteValidation GlobalConfigurationValidation.

Record TransportServerValidator := {
  tsv_tlsPassthrough : bool;
  tsv_snippetsEnabled : bool;
  tsv_isPlus : bool
}.

Definition nginxStreamLoadBalanceValidInput : list string :=
  ["round_robin"; "least_conn"; "random"; "random two"; "random two least_conn"].
Definition nginxPlusStreamLoadBalanceValidInput : list string :=
  ["round_robin"; "least_conn"; "random"; "random two"; "random two least_conn"; "random least_conn";
   "least_time connect"; "least_time first_byte"; "least_time last_byte"; "least_time last_byte inflight"].
Definition loadBalancingVariables : list string := ["remote_addr"].

(** hashMethodRegexp *)
Definition hashMethodRegexp : regex :=
  RCats [RLit "hash "; RGroup (RPlus (RNotIn spaceRanges)); ROpt (RLit " consistent")].

(** hexLiteralRegexp.  The bound counts runes; on bytes the verdict of
    validateHexString is the same, because two bytes that are hex digits are two
    runes, and a rune of several bytes has none. *)
Definition hexLiteralRegexp : regex := RCats [RLit "\x"; RGroup (RUpTo 2 (RNotIn [one 10]))].
Definition isHexDigit (c : Ascii.ascii) : bool := inRanges [(48, 57); (65, 70); (97, 102)] c.

(** The error of the first hex literal without two hex digits *)
Definition validateHexString (s : string) : option string :=
  head (omap (λ m : string * list string,
    let digits := default "" (head m.2) in
    if Nat.eqb (String.length digits) 2 && forallBytes isHexDigit digits then None
    else Some ("hex literal '" +:+ m.1 +:+ "' must contain two hex digits"))
    (FindAllStringSubmatch hexLiteralRegexp s)).

Definition isPotentialTLSPassthroughListener (l : TransportServerListener) : bool :=
  bool_decide (tsl_Name l = TLSPassthroughListenerName)
  || bool_decide (tsl_Protocol l = TLSPassthroughListenerProtocol).

Section TransportServers.
Context `{VL : ValidationLib}.
Variable tsv : TransportServerValidator.

(** ** Listeners, hosts, TLS, snippets *)

Definition validateTLSPassthroughListener (l : TransportServerListener) (fieldPath : string)
    : list FieldError :=
  if negb (tsv_tlsPassthrough tsv) then [Forbidden fieldPath "TLS Passthrough is not enabled"]
  else if bool_decide (tsl_Name l = TLSPassthroughListenerName)
          && negb (bool_decide (tsl_Protocol l = TLSPassthroughListenerProtocol))
  then [Invalid (Child fieldPath "protocol") (tsl_Protocol l)
          ("must be '" +:+ TLSPassthroughListenerProtocol +:+ "' for the built-in "
           +:+ TLSPassthroughListenerName +:+ " listener")]
  else if bool_decide (tsl_Protocol l = TLSPassthroughListenerProtocol)
          && negb (bool_decide (tsl_Name l = TLSPassthroughListenerName))
  then [Invalid (Child fieldPath "name") (tsl_Name l)
          ("must be '" +:+ TLSPassthroughListenerName +:+ "' for a listener with the protocol "
           +:+ TLSPassthroughListenerProtocol)]
  else [].

Definition validateListenerName (name fieldPath : string) : list FieldError :=
  validateDNS1035Label name fieldPath.
Definition validateRegularListener (l : TransportServerListener) (fieldPath : string) : list FieldError :=
  validateListenerName (tsl_Name l) (Child fieldPath "name")
  ++ validateListenerProtocol (tsl_Protocol l) (Child fieldPath "protocol").
Definition validateTransportListener (l : TransportServerListener) (fieldPath : string) : list FieldError :=
  if isPotentialTLSPassthroughListener l then validateTLSPassthroughListener l fieldPath
  else validateRegularListener l fieldPath.

(** tls == nil || tls.Secret == "" *)
Definition noSecret (tls : option string) : bool :=
  match tls with None => true | Some s => bool_decide (s = "") end.

Definition validateTransportServerHost (host fieldPath : string) (isTLSPassthroughListener : bool)
    (protocol : string) (tls : option string) : list FieldError :=
  if bool_decide (protocol = "UDP") then
    errorIf (negb (bool_decide (host = "")))
      (Forbidden fieldPath "host field is not allowed for UDP TransportServers")
  else if negb (bool_decide (host = "")) then
    if negb isTLSPassthroughListener then
      if noSecret tls
      then [Required fieldPath
              "must specify spec.tls.secret when host is specified for non-TLS Passthrough TransportServers"]
      else validateHost host fieldPath
    else if negb (noSecret tls)
    then [Required fieldPath "must not specify spec.tls.secret when host using TLS Passthrough"]
    else validateHost host fieldPath
  else errorIf isTLSPassthroughListener
         (Required fieldPath "must specify host for TLS Passthrough TransportServers").

(** validateTLS *)
Definition validateTSTLS (tls : option string) (isTLSPassthroughListener : bool) (fieldPath : string)
    (hostSpecified : bool) : list FieldError :=
  if isTLSPassthroughListener then
    errorIf (negb (bool_decide (tls = None)))
      (Forbidden fieldPath "cannot specify tls for TLS Passthrough TransportServers")
  else if hostSpecified then
    if noSecret tls
    then [Required fieldPath "must specify spec.tls.secret when host is specified, and the TransportServer is not using the TLS Passthrough listener"]
    else validateSecretName (default "" tls) (Child fieldPath "secret")
  else if negb (noSecret tls) then validateSecretName (default "" tls) (Child fieldPath "secret")
  else [].

Definition validateSnippets (snippet fieldPath : string) (snippetsEnabled : bool) : list FieldError :=
  errorIf (negb snippetsEnabled && negb (bool_decide (snippet = "")))
    (Forbidden fieldPath "snippet specified but snippets feature is not enabled").

(** ** Upstreams *)

Definition validateHashLoadBalancingMethod (method fieldPath : string) (isPlus : bool) : list FieldError :=
  match ValidateDirectiveValue method with
  | Some err => [Invalid fieldPath method err]
  | None =>
      match FindStringSubmatch hashMethodRegexp method with
      | Some [hashKey] =>
          (if Contains hashKey "$"
           then validateStringWithVariables hashKey fieldPath [] loadBalancingVariables isPlus else [])
          ++ whenSet (λ err, [Invalid fieldPath method ("invalid value for hash: " +:+ err)])
               (ValidateEscapedString method [])
      | _ => [Invalid fieldPath method ("invalid value for load balancing method: " +:+ method)]
      end
  end.

Definition validateLoadBalancingMethod (method0 fieldPath : string) (isPlus : bool) : list FieldError :=
  if bool_decide (method0 = "") then []
  else
    let method := TrimSpace method0 in
    if HasPrefix method "hash" then validateHashLoadBalancingMethod method fieldPath isPlus
    else
      let validMethodValues := if isPlus then nginxPlusStreamLoadBalanceValidInput
                               else nginxStreamLoadBalanceValidInput in
      errorIf (negb (bool_decide (method ∈ validMethodValues)))
        (Invalid fieldPath method ("load balancing method is not valid: " +:+ method)).

Definition validateMatchSend (send fieldPath : string) : list FieldError :=
  if bool_decide (send = "") then []
  else match ValidateEscapedString send [] with
       | Some err => [Invalid fieldPath send err]
       | None => whenSet (λ err, [Invalid fieldPath send err]) (validateHexString send)
       end.
Definition validateMatchExpect (expect fieldPath : string) : list FieldError :=
  if bool_decide (expect = "") then []
  else match ValidateEscapedString expect [] with
       | Some err => [Invalid fieldPath expect err]
       | None =>
           if HasPrefix expect "~" then
             let expr := if HasPrefix expect "~*" then TrimPrefix expect "~*" else TrimPrefix expect "~" in
             whenSet (λ err, [Invalid fieldPath expr ("must be a valid regular expression: " +:+ err)])
               (regexp_Compile expr)
           else whenSet (λ err, [Invalid fieldPath expect err]) (validateHexString expect)
       end.
Definition validateHealthCheckMatch (m : option TransportServerMatch) (fieldPath : string)
    : list FieldError :=
  whenSet (λ m, validateMatchExpect (tsm_Expect m) (Child fieldPath "expect")
                ++ validateMatchSend (tsm_Send m) (Child fieldPath "send")) m.

Definition validateTSUpstreamHealthChecks (hc : option TransportServerHealthCheck) (fieldPath : string)
    : list FieldError :=
  whenSet (λ hc,
    validateTime (thc_Timeout hc) (Child fieldPath "timeout")
    ++ validateTime (thc_Interval hc) (Child fieldPath "interval")
    ++ validateTime (thc_Jitter hc) (Child fieldPath "jitter")
    ++ validatePositiveIntOrZero (thc_Fails hc) (Child fieldPath "fails")
    ++ validatePositiveIntOrZero (thc_Passes hc) (Child fieldPath "passes")
    ++ (if (0 <? thc_Port hc)%Z
        then invalids (Child fieldPath "port") (fmtInt (thc_Port hc)) (IsValidPortNum (thc_Port hc)) else [])
    ++ validateHealthCheckMatch (thc_Match hc) (Child fieldPath "match")) hc.

(** What validateTransportServerUpstreams checks of one upstream besides its name *)
Definition validateTSUpstreamFields (u : TransportServerUpstream) (idxPath : string) : list FieldError :=
  validateServiceName (tsu_Service u) (Child idxPath "service")
  ++ validatePositiveIntOrZeroFromPointer (tsu_MaxFails u) (Child idxPath "maxFails")
  ++ validatePositiveIntOrZeroFromPointer (tsu_MaxConns u) (Child idxPath "maxConns")
  ++ validateTime (tsu_FailTimeout u) (Child idxPath "failTimeout")
  ++ invalids (Child idxPath "port") (fmtInt (tsu_Port u)) (IsValidPortNum (tsu_Port u))
  ++ validateTSUpstreamHealthChecks (tsu_HealthCheck u) (Child idxPath "healthChecks")
  ++ validateLoadBalancingMethod (tsu_LoadBalancingMethod u) (Child idxPath "loadBalancingMethod")
       (tsv_isPlus tsv)
  ++ validateBackup (tsu_Backup u) (tsu_BackupPort u) (tsu_LoadBalancingMethod u) idxPath.

Fixpoint validateTSUpstreamsFrom (fieldPath : string) (i : nat) (names : gset string)
    (us : list TransportServerUpstream) : list FieldError * gset string :=
  match us with
  | [] => ([], names)
  | u :: rest =>
      let idxPath := Index fieldPath i in
      let '(nameErrs, names) := claimName (tsu_Name u) (Child idxPath "name") names in
      let '(restErrs, names) := validateTSUpstreamsFrom fieldPath (S i) names rest in
      (nameErrs ++ validateTSUpstreamFields u idxPath ++ restErrs, names)
  end.
Definition validateTransportServerUpstreams (us : list TransportServerUpstream) (fieldPath : string)
    : list FieldError * gset string := validateTSUpstreamsFrom fieldPath 0 ∅ us.

(** ** Parameters and action *)

Definition validateUDPUpstreamParameter (parameter : option Z) (fieldPath protocol : string)
    : list FieldError :=
  if negb (bool_decide (parameter = None)) && negb (bool_decide (protocol = "UDP"))
  then [Forbidden fieldPath "is not allowed for non-UDP TransportServers"]
  else validatePositiveIntOrZeroFromPointer parameter fieldPath.
Definition validateTransportServerUpstreamParameters (p : option UpstreamParameters)
    (fieldPath protocol : string) : list FieldError :=
  whenSet (λ p,
    validateUDPUpstreamParameter (upp_UDPRequests p) (Child fieldPath "udpRequests") protocol
    ++ validateUDPUpstreamParameter (upp_UDPResponses p) (Child fieldPath "udpResponses") protocol
    ++ validateTime (upp_ConnectTimeout p) (Child fieldPath "connectTimeout")
    ++ validateTime (upp_NextUpstreamTimeout p) (Child fieldPath "nextUpstreamTimeout")
    ++ validatePositiveIntOrZero (upp_NextUpstreamTries p) (Child fieldPath "nextUpstreamTries")) p.
Definition validateSessionParameters (timeout : option string) (fieldPath : string) : list FieldError :=
  whenSet (λ t, validateTime t (Child fieldPath "timeout")) timeout.
Definition validateTransportServerAction (pass fieldPath : string) (upstreamNames : gset string)
    : list FieldError :=
  if bool_decide (pass = "") then [Required fieldPath "must specify pass"]
  else validateReferencedUpstream pass (Child fieldPath "pass") upstreamNames.

Definition validateTransportServerSpec (ts : TransportServer) (fieldPath : string) : list FieldError :=
  let isTLSPassthroughListener := isPotentialTLSPassthroughListener (ts_Listener ts) in
  let protocol := tsl_Protocol (ts_Listener ts) in
  let '(upstreamErrs, upstreamNames) :=
    validateTransportServerUpstreams (ts_Upstreams ts) (Child fieldPath "upstreams") in
  validateTransportListener (ts_Listener ts) (Child fieldPath "listener")
  ++ validateTransportServerHost (ts_Host ts) (Child fieldPath "host") isTLSPassthroughListener protocol
       (ts_TLSSecret ts)
  ++ upstreamErrs
  ++ validateTransportServerUpstreamParameters (ts_UpstreamParameters ts)
       (Child fieldPath "upstreamParameters") protocol
  ++ validateSessionParameters (ts_SessionParameters ts) (Child fieldPath "sessionParameters")
  ++ match ts_Action ts with
     | None => [Required (Child fieldPath "action") "must specify action"]
     | Some pass => validateTransportServerAction pass (Child fieldPath "action") upstreamNames
     end
  ++ validateSnippets (ts_ServerSnippets ts) (Child fieldPath "serverSnippets") (tsv_snippetsEnabled tsv)
  ++ validateSnippets (ts_StreamSnippets ts) (Child fieldPath "streamSnippets") (tsv_snippetsEnabled tsv)
  ++ validateTSTLS (ts_TLSSecret ts) isTLSPassthroughListener (Child fieldPath "tls")
       (negb (bool_decide (ts_Host ts = ""))).

(** ValidateTransportServer *)
Definition tsErrors (ts : TransportServer) : list FieldError := validateTransportServerSpec ts "spec".
Definition ValidateTransportServer (ts : TransportServer) : option string := ToAggregate (tsErrors ts).
End TransportServers.
