(* ===== verification/Minions.v ===== *)
(** Mergeable Ingresses: the minionsByHost index (updateMinionIndex,
    removeMinionFromIndex) and the distribution of paths among the minions of a
    host (buildMinionConfigs) of internal/k8s/configuration.go. *)
From S2P Require Import Prelude GoStrings Objects ProxyBuffers Resources ConfigState.

(** ** The index *)

(** removeMinionFromIndex: the first host, in the order the loop visits them,
    whose set holds the key loses it; an emptied set is removed. *)
Fixpoint removeMinionFromHosts (key : string) (entries : list (string * gset string))
    (idx : gmap string (gset string)) : gmap string (gset string) :=
  match entries with
  | [] => idx
  | (host, keys) :: rest =>
      if decide (key ∈ keys) then
        let keys' := keys ∖ {[key]} in
        if decide (keys' = ∅) then delete host idx else <[host := keys']> idx
      else removeMinionFromHosts key rest idx
  end.

Definition removeMinionFromIndex `{MapRange} (key : string)
    (idx : gmap string (gset string)) : gmap string (gset string) :=
  removeMinionFromHosts key (range "removeMinionFromIndex" idx) idx.

(** updateMinionIndex: [None] for a nil Ingress *)
Definition updateMinionIndex `{MapRange} (key : string) (ing : option Ingress)
    (idx : gmap string (gset string)) : gmap string (gset string) :=
  let idx := removeMinionFromIndex key idx in
  match ing with
  | Some ing =>
      match isMinion ing, ing_Rules ing with
      | true, r0 :: _ =>
          let host := ir_Host r0 in
          <[host := {[key]} ∪ default ∅ (idx !! host)]> idx
      | _, _ => idx
      end
  | None => idx
  end.

(** ** Paths of the minions

    Pointers to the minion configurations are indices into the list under
    construction; the minion being processed is its last element. *)
Definition setValidPath (path : string) (b : bool) (mc : MinionConfiguration) : MinionConfiguration :=
  {| mc_Ingress := mc_Ingress mc; mc_ValidPaths := <[path := b]> (mc_ValidPaths mc) |}.

Record minionState := {
  ms_configs : list MinionConfiguration;
  ms_paths : gmap string nat;
  ms_warnings : gmap string (list string)
}.

Definition appendChildWarning (key warning : string) (cw : gmap string (list string))
    : gmap string (list string) :=
  <[key := default [] (cw !! key) ++ [warning]]> cw.

(** One path of the minion at index [i]. *)
Definition claimPath (i : nat) (ingress : Ingress) (st : minionState) (p : HTTPIngressPath)
    : option minionState :=
  let path := ip_Path p in
  match ms_paths st !! path with
  | None => Some
      {| ms_configs := alter (setValidPath path true) i (ms_configs st);
         ms_paths := <[path := i]> (ms_paths st);
         ms_warnings := ms_warnings st |}
  | Some j =>
      holder ← ms_configs st !! j;
      let warning := "path " +:+ path +:+ " is taken by another resource" in
      if negb (chooseObjectMetaWinner (ing_Meta (mc_Ingress holder)) (ing_Meta ingress)) then
        Some {| ms_configs := alter (setValidPath path false) j
                                (alter (setValidPath path true) i (ms_configs st));
                ms_paths := <[path := i]> (ms_paths st);
                ms_warnings := appendChildWarning (getResourceKey (ing_Meta (mc_Ingress holder)))
                                 warning (ms_warnings st) |}
      else
        Some {| ms_configs := ms_configs st;
                ms_paths := ms_paths st;
                ms_warnings := appendChildWarning (getResourceKey (ing_Meta ingress))
                                 warning (ms_warnings st) |}
  end.

(** One minion; [None] when it has no rule or a rule without HTTP. *)
Definition addMinion (ingresses : gmap string Ingress) (st : minionState) (minionKey : string)
    : option minionState :=
  match ingresses !! minionKey with
  | None => Some st
  | Some ingress =>
      let i := length (ms_configs st) in
      let st := {| ms_configs := ms_configs st ++ [NewMinionConfiguration ingress];
                   ms_paths := ms_paths st; ms_warnings := ms_warnings st |} in
      r0 ← head (ing_Rules ingress);
      paths ← ir_HTTP r0;
      foldM (claimPath i ingress) st paths
  end.

(** buildMinionConfigs *)
Definition buildMinionConfigs (o : Objects) (masterHost : string)
    : option (list MinionConfiguration * gmap string (list string)) :=
  let minionKeys := default ∅ (o_minionsByHost o !! masterHost) in
  let sortedKeys := sortStrings (elements minionKeys) in
  st ← foldM (addMinion (o_ingresses o))
         {| ms_configs := []; ms_paths := ∅; ms_warnings := ∅ |} sortedKeys;
  Some (ms_configs st, ms_warnings st).

(** ** The index is exact *)

(** The host a minion is indexed under. *)
Definition minionHost (ing : Ingress) : option string :=
  if isMinion ing then ir_Host <$> head (ing_Rules ing) else None.

Definition inIndex (idx : gmap string (gset string)) (host key : string) : Prop :=
  ∃ keys, idx !! host = Some keys ∧ key ∈ keys.

(** Every minion is indexed under its host and nothing else is; no empty set
    is kept. *)
Record index_ok (ingresses : gmap string Ingress) (idx : gmap string (gset string)) : Prop := {
  index_exact : ∀ host key,
    inIndex idx host key ↔ ∃ ing, ingresses !! key = Some ing ∧ minionHost ing = Some host;
  index_nonempty : ∀ host keys, idx !! host = Some keys → keys ≠ ∅
}.

Section Index.
Context `{MR : MapRange}.
Implicit Types (idx : gmap string (gset string)) (ingresses : gmap string Ingress).

Lemma index_ok_unique ingresses idx host host' key :
  index_ok ingresses idx → inIndex idx host key → inIndex idx host' key → host = host'.
Proof.
  intros [Hex _] (i & H1 & H2)%Hex (i' & H1' & H2')%Hex. congruence.
Qed.

Lemma removeMinionFromHosts_cases key entries idx :
  (∃ host keys, (host, keys) ∈ entries ∧ key ∈ keys ∧
     removeMinionFromHosts key entries idx =
       if decide (keys ∖ {[key]} = ∅) then delete host idx else <[host := keys ∖ {[key]}]> idx)
  ∨ ((∀ host keys, (host, keys) ∈ entries → key ∉ keys) ∧
     removeMinionFromHosts key entries idx = idx).
Proof.
  induction entries as [|[host keys] rest IH]; simpl.
  - right. split; [set_solver|done].
  - case_decide as Hin.
    + left. exists host, keys. split; [set_solver|]. split; [done|]. by repeat case_decide.
    + destruct IH as [(h' & k' & H1 & H2 & H3)|[H1 H2]].
      * left. exists h', k'. split; [set_solver|]. done.
      * right. split; [|done]. intros h' k' [[= -> ->]|Hr]%elem_of_cons; [done|by eapply H1].
Qed.

(** Removing a key removes it from the host it is under, and only there. *)
Lemma removeMinionFromIndex_spec ingresses idx key host k :
  index_ok ingresses idx →
  inIndex (removeMinionFromIndex key idx) host k ↔ inIndex idx host k ∧ k ≠ key.
Proof.
  intros Hok. unfold removeMinionFromIndex.
  destruct (removeMinionFromHosts_cases key (range "removeMinionFromIndex" idx) idx)
    as [(h0 & ks & Hin%elem_of_range & Hk & ->)|[Hno ->]].
  - assert (inIndex idx h0 key) as Hkey by (exists ks; done).
    unfold inIndex at 1. destruct (decide (host = h0)) as [->|Hne].
    + case_decide as Hempty.
      * rewrite lookup_delete_eq. split; [by intros (? & ? & _)|].
        intros [(ks' & Hks' & Hin') Hne]. simplify_eq.
        assert (k ∈ ks ∖ {[key]}) as Hx by set_solver. rewrite Hempty in Hx. set_solver.
      * rewrite lookup_insert_eq. split.
        -- intros (? & [= <-] & Hx). split; [exists ks; set_solver|set_solver].
        -- intros [(ks' & ? & ?) ?]. simplify_eq. eexists. split; [done|set_solver].
    + assert ((if decide (ks ∖ {[key]} = ∅) then delete h0 idx
               else <[h0:=ks ∖ {[key]}]> idx) !! host = idx !! host) as ->.
      { case_decide; [by rewrite lookup_delete_ne|by rewrite lookup_insert_ne]. }
      split; [|by intros [? _]]. intros Hx. split; [done|]. intros ->.
      apply Hne. by eapply (index_ok_unique _ _ _ _ key).
  - split; [|by intros [? _]]. intros (ks & Hks & Hin). split; [by exists ks|].
    intros ->. eapply Hno; [by apply elem_of_range|done].
Qed.

Lemma removeMinionFromIndex_nonempty ingresses idx key host ks :
  index_ok ingresses idx → removeMinionFromIndex key idx !! host = Some ks → ks ≠ ∅.
Proof.
  intros [_ Hne]. unfold removeMinionFromIndex.
  destruct (removeMinionFromHosts_cases key (range "removeMinionFromIndex" idx) idx)
    as [(h0 & k0 & _ & _ & ->)|[_ ->]]; [|by apply Hne].
  case_decide as Hd; destruct (decide (host = h0)) as [->|];
    rewrite ?lookup_delete_eq, ?lookup_delete_ne, ?lookup_insert_eq, ?lookup_insert_ne by done;
    try by eauto.
  intros [= <-]. done.
Qed.

Lemma removeMinionFromIndex_ok ingresses idx key :
  index_ok ingresses idx → index_ok (delete key ingresses) (removeMinionFromIndex key idx).
Proof.
  intros Hok. split.
  - intros host k. rewrite (removeMinionFromIndex_spec ingresses) by done.
    destruct Hok as [Hex _]. rewrite Hex. split.
    + intros [(i & Hi & Hm) Hne]. exists i. by rewrite lookup_delete_ne.
    + intros (i & [Hne Hi]%lookup_delete_Some & Hm). eauto.
  - intros host ks. by eapply removeMinionFromIndex_nonempty.
Qed.

Lemma updateMinionIndex_None_ok ingresses idx key :
  index_ok ingresses idx → index_ok (delete key ingresses) (updateMinionIndex key None idx).
Proof. apply removeMinionFromIndex_ok. Qed.

Lemma updateMinionIndex_Some_ok ingresses idx key ing :
  index_ok ingresses idx →
  index_ok (<[key := ing]> ingresses) (updateMinionIndex key (Some ing) idx).
Proof.
  intros Hok%(removeMinionFromIndex_ok _ _ key). unfold updateMinionIndex.
  rewrite <- insert_delete_eq.
  set (idx' := removeMinionFromIndex key idx) in *.
  set (ings' := delete key ingresses) in *.
  assert (∀ k i, ings' !! k = Some i → k ≠ key) as Hfresh
    by (intros k i [? _]%lookup_delete_Some; congruence).
  assert (match isMinion ing, ing_Rules ing with
          | true, r0 :: _ => minionHost ing = Some (ir_Host r0)
          | _, _ => minionHost ing = None end) as Hhost.
  { unfold minionHost. destruct (isMinion ing), (ing_Rules ing); done. }
  assert (minionHost ing = None → index_ok (<[key := ing]> ings') idx') as Hnone.
  { intros Hn. destruct Hok as [Hex Hne]. split; [|done]. intros host k. rewrite Hex.
    split; intros (i & Hi & Hm).
    - exists i. rewrite lookup_insert_ne; [done|]. by apply not_eq_sym, (Hfresh k i).
    - apply lookup_insert_Some in Hi as [[-> <-]|[? Hi]]; [congruence|eauto]. }
  destruct (isMinion ing); [|by apply Hnone].
  destruct (ing_Rules ing) as [|r0 rs]; [by apply Hnone|].
  set (hh := ir_Host r0) in *.
  destruct Hok as [Hex Hne]. split.
  - intros host k. destruct (decide (host = hh)) as [->|Hneq].
    + unfold inIndex. rewrite lookup_insert_eq. split.
      * intros (? & [= <-] & [->%elem_of_singleton|Hin]%elem_of_union).
        -- exists ing. by rewrite lookup_insert_eq.
        -- destruct (idx' !! hh) as [ks|] eqn:Hks; simpl in Hin; [|set_solver].
           destruct (proj1 (Hex hh k)) as (i & Hi & Hm); [by exists ks|].
           exists i. rewrite lookup_insert_ne; [done|]. by apply not_eq_sym, (Hfresh k i).
      * intros (i & [[-> ->]|[? Hi]]%lookup_insert_Some & Hm).
        -- eexists. split; [done|set_solver].
        -- destruct (proj2 (Hex hh k)) as (ks & Hks & Hin); [eauto|].
           eexists. split; [done|]. rewrite Hks. set_solver.
    + unfold inIndex. rewrite lookup_insert_ne by done. fold (inIndex idx' host k).
      rewrite Hex. split; intros (i & Hi & Hm).
      * exists i. rewrite lookup_insert_ne; [done|]. by apply not_eq_sym, (Hfresh k i).
      * apply lookup_insert_Some in Hi as [[-> ->]|[? Hi]]; [congruence|eauto].
  - intros host ks. destruct (decide (host = hh)) as [->|Hneq].
    + rewrite lookup_insert_eq. intros [= <-]. set_solver.
    + rewrite lookup_insert_ne by done. apply Hne.
Qed.
End Index.

(** The scan over all Ingresses that the index replaces. *)
Definition scanMinionKeys (ingresses : gmap string Ingress) (host : string) : list string :=
  filter (λ k, (ingresses !! k ≫= minionHost) = Some host) (sortedKeys ingresses).

Definition buildMinionConfigsByScan (o : Objects) (masterHost : string)
    : option (list MinionConfiguration * gmap string (list string)) :=
  st ← foldM (addMinion (o_ingresses o))
         {| ms_configs := []; ms_paths := ∅; ms_warnings := ∅ |}
         (scanMinionKeys (o_ingresses o) masterHost);
  Some (ms_configs st, ms_warnings st).

Lemma Sorted_filter {A} (R : relation A) `{!Transitive R} (P : A → Prop) `{!∀ x, Decision (P x)}
    (l : list A) : Sorted R l → Sorted R (filter P l).
Proof.
  intros Hs%Sorted_StronglySorted; [|done]. apply StronglySorted_Sorted.
  induction Hs as [|a l Hs IH Hall]; [constructor|]. rewrite filter_cons.
  case_decide; [|done]. constructor; [done|].
  apply Forall_forall. intros x [_ Hx]%list_elem_of_filter.
  rewrite Forall_forall in Hall. by apply Hall.
Qed.

Lemma indexed_keys_scan (ingresses : gmap string Ingress) idx host :
  index_ok ingresses idx →
  sortStrings (elements (default ∅ (idx !! host))) = scanMinionKeys ingresses host.
Proof.
  intros [Hex _]. apply (Sorted_unique String.le).
  - apply sortStrings_sorted.
  - apply Sorted_filter; [apply _|apply sortStrings_sorted].
  - rewrite sortStrings_perm. apply NoDup_Permutation.
    + apply NoDup_elements.
    + apply NoDup_filter, NoDup_sortedKeys.
    + intros k. rewrite elem_of_elements. unfold scanMinionKeys.
      rewrite list_elem_of_filter, elem_of_sortedKeys.
      assert (k ∈ default ∅ (idx !! host) ↔ inIndex idx host k) as ->.
      { unfold inIndex. destruct (idx !! host); simpl; [naive_solver|]. set_solver. }
      rewrite Hex. split.
      * intros (i & Hi & Hm). rewrite Hi. simpl. split; [done|by exists i].
      * intros [Hb [i Hi]]. exists i. rewrite Hi in Hb. done.
Qed.

(** The lookup in the index gives what the scan over all Ingresses gives. *)
Lemma buildMinionConfigs_scan o host :
  index_ok (o_ingresses o) (o_minionsByHost o) →
  buildMinionConfigs o host = buildMinionConfigsByScan o host.
Proof.
  intros Hok. unfold buildMinionConfigs, buildMinionConfigsByScan.
  by rewrite (indexed_keys_scan (o_ingresses o)).
Qed.

(** ** Every path has one owner *)

Definition minionPaths (ing : Ingress) : list string :=
  match head (ing_Rules ing) with
  | Some r => from_option (fmap ip_Path) [] (ir_HTTP r)
  | None => []
  end.

Abbreviation minionMeta mc := (ing_Meta (mc_Ingress mc)) (only parsing).

(** The loop invariant: [cl] lists the (minion, path) pairs processed so far. *)
Record paths_ok (st : minionState) (cl : list (nat * string)) : Prop := {
  po_owner : ∀ p j, ms_paths st !! p = Some j → (j, p) ∈ cl;
  po_best : ∀ i p, (i, p) ∈ cl → ∃ j ci cj,
    ms_paths st !! p = Some j ∧ ms_configs st !! i = Some ci ∧ ms_configs st !! j = Some cj ∧
    chooseObjectMetaWinner (minionMeta ci) (minionMeta cj) = false;
  po_valid : ∀ i ci p, ms_configs st !! i = Some ci →
    (mc_ValidPaths ci !! p = Some true ↔ ms_paths st !! p = Some i)
}.

Lemma alter_setValidPath_ingress p b i (l : list MinionConfiguration) :
  mc_Ingress <$> alter (setValidPath p b) i l = mc_Ingress <$> l.
Proof.
  apply list_eq. intros k. rewrite !list_lookup_fmap.
  destruct (decide (i = k)) as [->|].
  - rewrite list_lookup_alter_eq. by destruct (l !! k).
  - by rewrite list_lookup_alter_ne.
Qed.

(** Configurations with the same Ingresses satisfy the same comparisons. *)
Lemma same_ingress_lookup (l l' : list MinionConfiguration) i c :
  mc_Ingress <$> l' = mc_Ingress <$> l → l !! i = Some c →
  ∃ c', l' !! i = Some c' ∧ mc_Ingress c' = mc_Ingress c.
Proof.
  intros Heq Hi. assert ((mc_Ingress <$> l') !! i = Some (mc_Ingress c)) as Hx.
  { rewrite Heq, list_lookup_fmap, Hi. done. }
  apply list_lookup_fmap_Some in Hx as (c' & ? & ?). eauto.
Qed.

Lemma po_best_transfer (l l' : list MinionConfiguration) (paths : gmap string nat) i p j ci cj :
  mc_Ingress <$> l' = mc_Ingress <$> l →
  paths !! p = Some j → l !! i = Some ci → l !! j = Some cj →
  chooseObjectMetaWinner (minionMeta ci) (minionMeta cj) = false →
  ∃ j' ci' cj', paths !! p = Some j' ∧ l' !! i = Some ci' ∧ l' !! j' = Some cj' ∧
    chooseObjectMetaWinner (minionMeta ci') (minionMeta cj') = false.
Proof.
  intros Heq Hj Hci Hcj Hw.
  destruct (same_ingress_lookup _ _ i ci Heq Hci) as (ci' & ? & Hi).
  destruct (same_ingress_lookup _ _ j cj Heq Hcj) as (cj' & ? & Hj').
  exists j, ci', cj'. by rewrite Hi, Hj'.
Qed.

Lemma lookup_setValidPath p b q mc :
  mc_ValidPaths (setValidPath p b mc) !! q =
  if decide (p = q) then Some b else mc_ValidPaths mc !! q.
Proof. simpl. apply lookup_insert. Qed.

Section ClaimPath.
Variables (i : nat) (ing : Ingress) (st : minionState) (p : HTTPIngressPath)
          (cl : list (nat * string)) (ci : MinionConfiguration).
Hypothesis Hok : paths_ok st cl.
Hypothesis Hi : ms_configs st !! i = Some ci.
Hypothesis Hing : mc_Ingress ci = ing.
Hypothesis Hnew : (i, ip_Path p) ∉ cl.

Lemma claimPath_free :
  ms_paths st !! ip_Path p = None →
  paths_ok {| ms_configs := alter (setValidPath (ip_Path p) true) i (ms_configs st);
              ms_paths := <[ip_Path p := i]> (ms_paths st); ms_warnings := ms_warnings st |}
           (cl ++ [(i, ip_Path p)]).
Proof.
  intros Hfree. destruct Hok as [Hown Hbest Hval]. split; simpl.
  - intros q j [[<- <-]|[Hne Hj]]%lookup_insert_Some; [set_solver|].
    apply elem_of_app. left. by apply Hown.
  - intros i' q [Hin|[= -> ->]%list_elem_of_singleton]%elem_of_app.
    + destruct (Hbest i' q Hin) as (j & c1 & c2 & Hj & Hc1 & Hc2 & Hw).
      eapply (po_best_transfer (ms_configs st)); [apply alter_setValidPath_ingress|..]; eauto.
      rewrite lookup_insert_ne; [done|]. intros <-. congruence.
    + eapply (po_best_transfer (ms_configs st)) with (ci := ci) (cj := ci);
        [apply alter_setValidPath_ingress|..]; eauto.
      * by rewrite lookup_insert_eq.
      * apply choose_irrefl.
  - intros k ck q (y & Hy & ->)%alter_lookup_Some.
    case_decide as Hik; [subst k|].
    + rewrite lookup_setValidPath, lookup_insert.
      case_decide; [naive_solver|]. by apply Hval.
    + rewrite (Hval _ _ _ Hy), lookup_insert. case_decide; [|done]. subst q.
      rewrite Hfree. naive_solver.
Qed.

Lemma claimPath_taken j holder :
  ms_paths st !! ip_Path p = Some j → ms_configs st !! j = Some holder →
  chooseObjectMetaWinner (minionMeta holder) (ing_Meta ing) = false →
  paths_ok {| ms_configs := alter (setValidPath (ip_Path p) false) j
                              (alter (setValidPath (ip_Path p) true) i (ms_configs st));
              ms_paths := <[ip_Path p := i]> (ms_paths st); ms_warnings := ms_warnings st |}
           (cl ++ [(i, ip_Path p)]).
Proof.
  intros Hj Hh Hw. destruct Hok as [Hown Hbest Hval].
  assert (j ≠ i) as Hji by (intros ->; apply Hnew, (Hown _ _ Hj)).
  assert (mc_Ingress <$> alter (setValidPath (ip_Path p) false) j
            (alter (setValidPath (ip_Path p) true) i (ms_configs st))
          = mc_Ingress <$> ms_configs st) as Heq by by rewrite !alter_setValidPath_ingress.
  split; simpl.
  - intros q k [[<- <-]|[Hne Hk]]%lookup_insert_Some; [set_solver|].
    apply elem_of_app. left. by apply Hown.
  - intros i' q [Hin|[= -> ->]%list_elem_of_singleton]%elem_of_app.
    + destruct (Hbest i' q Hin) as (k & c1 & c2 & Hk & Hc1 & Hc2 & Hw').
      destruct (decide (ip_Path p = q)) as [<-|Hne].
      * simplify_eq. eapply (po_best_transfer (ms_configs st)) with (ci := c1) (cj := ci); [done|..]; eauto.
        -- by rewrite lookup_insert_eq.
        -- by eapply choose_neg_trans.
      * eapply (po_best_transfer (ms_configs st)); [done|..]; eauto.
        by rewrite lookup_insert_ne.
    + eapply (po_best_transfer (ms_configs st)) with (ci := ci) (cj := ci); [done|..]; eauto.
      * simpl. by rewrite lookup_insert_eq.
      * apply choose_irrefl.
  - intros k ck q (y & (z & Hz & ->)%alter_lookup_Some & ->)%alter_lookup_Some.
    rewrite lookup_insert.
    destruct (decide (j = k)) as [->|Hjk]; [rewrite decide_False by done|destruct (decide (i = k)) as [->|Hik]].
    + rewrite lookup_setValidPath. case_decide; [naive_solver|]. by apply Hval.
    + rewrite lookup_setValidPath. case_decide; [naive_solver|]. by apply Hval.
    + rewrite (Hval _ _ _ Hz). case_decide; [subst q|done]. rewrite Hj. naive_solver.
Qed.

Lemma claimPath_ok :
  ∃ st', claimPath i ing st p = Some st' ∧ paths_ok st' (cl ++ [(i, ip_Path p)]) ∧
         mc_Ingress <$> ms_configs st' = mc_Ingress <$> ms_configs st.
Proof.
  unfold claimPath. destruct (ms_paths st !! ip_Path p) as [j|] eqn:Hj.
  - destruct Hok as [Hown Hbest Hval].
    destruct (Hbest j (ip_Path p)) as (j' & cj & ? & Hj' & Hcj & _); [by apply Hown|].
    rewrite Hcj. simpl.
    destruct (chooseObjectMetaWinner _ _) eqn:Hw; simpl; eexists; (split; [done|]); simpl.
    + split; [|done]. split; simpl.
      * intros q k Hk. apply elem_of_app. left. by apply Hown.
      * intros i' q [Hin|[= -> ->]%list_elem_of_singleton]%elem_of_app; [by apply Hbest|].
        exists j, ci, cj. rewrite Hing. by apply choose_asym in Hw.
      * done.
    + split; [|by rewrite !alter_setValidPath_ingress].
      destruct (claimPath_taken j cj Hj Hcj Hw) as [H1 H2 H3]. split; simpl in *; done.
  - eexists. split; [done|]. split; [|apply alter_setValidPath_ingress].
    by apply claimPath_free.
Qed.
End ClaimPath.

Definition minionClaims (i : nat) (ing : Ingress) : list (nat * string) :=
  pair i <$> minionPaths ing.

Lemma paths_ok_lt st cl i p : paths_ok st cl → (i, p) ∈ cl → i < length (ms_configs st).
Proof.
  intros [_ Hb _] Hin. destruct (Hb i p Hin) as (j & ci & cj & _ & Hi & _).
  by apply lookup_lt_Some in Hi.
Qed.

Lemma paths_ok_snoc st cl ing :
  paths_ok st cl →
  paths_ok {| ms_configs := ms_configs st ++ [NewMinionConfiguration ing];
              ms_paths := ms_paths st; ms_warnings := ms_warnings st |} cl.
Proof.
  intros Hok. pose proof (paths_ok_lt st cl) as Hlt. destruct Hok as [Ho Hb Hv]. split; simpl.
  - done.
  - intros i p Hin. destruct (Hb i p Hin) as (j & ci & cj & Hj & Hi & Hcj & Hw).
    exists j, ci, cj. by rewrite !lookup_app_l by (by eapply lookup_lt_Some).
  - intros i ci p [Hi|[Hge Hi]]%lookup_app_Some; [by apply Hv|].
    apply list_lookup_singleton_Some in Hi as [Heq <-]. simpl. rewrite lookup_empty.
    split; [done|]. intros Hp%Ho%Hlt; [lia|by split].
Qed.

Lemma foldM_claimPath_ok i ing st cl ps ci :
  paths_ok st cl → ms_configs st !! i = Some ci → mc_Ingress ci = ing →
  (∀ p, (i, p) ∉ cl) → NoDup (ip_Path <$> ps) →
  ∃ st', foldM (claimPath i ing) st ps = Some st' ∧
         paths_ok st' (cl ++ (pair i <$> (ip_Path <$> ps))) ∧
         mc_Ingress <$> ms_configs st' = mc_Ingress <$> ms_configs st.
Proof.
  intros Hok Hi Hing Hnew Hnd.
  apply (foldM_prefix_ind (λ pre x,
           paths_ok x (cl ++ (pair i <$> (ip_Path <$> pre))) ∧
           mc_Ingress <$> ms_configs x = mc_Ingress <$> ms_configs st)).
  - simpl. by rewrite app_nil_r.
  - intros pre p post x -> [Hx Hxi].
    destruct (same_ingress_lookup _ _ i ci Hxi Hi) as (ci' & Hci' & Heq).
    destruct (claimPath_ok i ing x p (cl ++ (pair i <$> (ip_Path <$> pre))) ci')
      as (x' & Hc & Hok' & Hxi'); [done|done|congruence| |].
    + rewrite elem_of_app. intros [Hc|Hc]; [by eapply Hnew|].
      apply list_elem_of_fmap in Hc as (q & [= <-] & Hin).
      rewrite fmap_app, fmap_cons in Hnd. apply NoDup_app in Hnd as (_ & Hd & _).
      apply (Hd (ip_Path p)); set_solver.
    + exists x'. split; [done|]. rewrite !fmap_app, app_assoc. simpl.
      split; [done|congruence].
Qed.

Lemma addMinion_ok ingresses st cl key ing r ps :
  paths_ok st cl → ingresses !! key = Some ing →
  head (ing_Rules ing) = Some r → ir_HTTP r = Some ps → NoDup (ip_Path <$> ps) →
  ∃ st', addMinion ingresses st key = Some st' ∧
         paths_ok st' (cl ++ minionClaims (length (ms_configs st)) ing) ∧
         mc_Ingress <$> ms_configs st' = (mc_Ingress <$> ms_configs st) ++ [ing].
Proof.
  intros Hok Hkey Hr Hps Hnd. unfold addMinion. rewrite Hkey, Hr. simpl. rewrite Hps. simpl.
  set (st0 := {| ms_configs := _ |}).
  destruct (foldM_claimPath_ok (length (ms_configs st)) ing st0 cl ps (NewMinionConfiguration ing))
    as (st' & Hf & Hok' & Heq).
  - by apply paths_ok_snoc.
  - apply lookup_app_Some. right. by rewrite Nat.sub_diag.
  - done.
  - intros p Hin%(paths_ok_lt st); [lia|done].
  - done.
  - exists st'. split; [done|]. split.
    + unfold minionClaims, minionPaths. by rewrite Hr, Hps.
    + rewrite Heq. simpl. by rewrite fmap_app.
Qed.

(** The minions of a host, in the order of their keys. *)
Definition minionsOf (ingresses : gmap string Ingress) (host : string) : list Ingress :=
  omap (λ k, ingresses !! k) (scanMinionKeys ingresses host).

(** The claims of the minions numbered from [n]. *)
Fixpoint allClaims (n : nat) (ings : list Ingress) : list (nat * string) :=
  match ings with
  | [] => []
  | ing :: rest => minionClaims n ing ++ allClaims (S n) rest
  end.

Lemma allClaims_app n l1 l2 :
  allClaims n (l1 ++ l2) = allClaims n l1 ++ allClaims (n + length l1) l2.
Proof.
  revert n. induction l1 as [|a l1 IH]; intros n; simpl.
  - by rewrite Nat.add_0_r.
  - rewrite IH, <- app_assoc. do 2 f_equal. f_equal. lia.
Qed.

Lemma elem_of_allClaims n ings i p :
  (i, p) ∈ allClaims n ings ↔ ∃ k ing, i = n + k ∧ ings !! k = Some ing ∧ p ∈ minionPaths ing.
Proof.
  revert n. induction ings as [|a ings IH]; intros n; simpl.
  - split; [set_solver|]. intros (k & ing & _ & H & _). by rewrite lookup_nil in H.
  - rewrite elem_of_app, IH. unfold minionClaims. split.
    + intros [(q & [= -> ->] & Hq)%list_elem_of_fmap|(k & ing & -> & Hk & Hp)].
      * exists 0, a. split; [lia|done].
      * exists (S k), ing. split; [lia|done].
    + intros ([|k] & ing & -> & Hk & Hp); simpl in Hk.
      * simplify_eq. left. apply list_elem_of_fmap. exists p. split; [f_equal; lia|done].
      * right. exists k, ing. split; [lia|done].
Qed.

Lemma buildMinionConfigs_paths_ok o host :
  wf_objects o → index_ok (o_ingresses o) (o_minionsByHost o) →
  (∀ ing, ing ∈ minionsOf (o_ingresses o) host → NoDup (minionPaths ing)) →
  ∃ st, buildMinionConfigs o host = Some (ms_configs st, ms_warnings st) ∧
        mc_Ingress <$> ms_configs st = minionsOf (o_ingresses o) host ∧
        paths_ok st (allClaims 0 (minionsOf (o_ingresses o) host)).
Proof.
  intros Hwf Hidx Hnd. rewrite buildMinionConfigs_scan by done. unfold buildMinionConfigsByScan.
  set (keys := scanMinionKeys _ _) in *.
  destruct (foldM_prefix_ind (λ pre x,
      mc_Ingress <$> ms_configs x = omap (λ k, o_ingresses o !! k) pre ∧
      paths_ok x (allClaims 0 (omap (λ k, o_ingresses o !! k) pre)))
    (addMinion (o_ingresses o)) keys {| ms_configs := []; ms_paths := ∅; ms_warnings := ∅ |})
    as (st & Hst & Heq & Hok).
  - split; [done|]. split; simpl; [by intros ?? ?%lookup_empty_Some|set_solver|done].
  - intros pre k post x Hkeys [Hx Hok].
    assert (k ∈ keys) as Hk by (rewrite Hkeys; set_solver).
    apply list_elem_of_filter in Hk as [Hb _].
    destruct (o_ingresses o !! k) as [ing|] eqn:Hing; simpl in Hb; [|done].
    assert (isMinion ing = true) as Hmin by (unfold minionHost in Hb; by destruct (isMinion ing)).
    destruct (wf_minion _ (wfo_ing _ Hwf _ _ Hing) Hmin) as (r & ps & Hrules & Hps & _).
    destruct (addMinion_ok (o_ingresses o) x _ k ing r ps Hok) as (x' & Ha & Hok' & Hx').
    { done. } { by rewrite Hrules. } { done. }
    { assert (ing ∈ minionsOf (o_ingresses o) host) as Hin%Hnd.
      { apply list_elem_of_omap. exists k. fold keys. rewrite Hkeys. split; [set_solver|done]. }
      unfold minionPaths in Hin. rewrite Hrules in Hin. simpl in Hin. by rewrite Hps in Hin. }
    exists x'. split; [done|]. rewrite omap_app. simpl. rewrite Hing.
    split; [congruence|]. rewrite allClaims_app. simpl. rewrite app_nil_r.
    by rewrite <- (length_fmap mc_Ingress (ms_configs x)), Hx in Hok'.
  - exists st. rewrite Hst. done.
Qed.

(** A path a minion lists twice ends up marked invalid: at the second
    occurrence the holder is the minion itself, which neither wins against
    itself nor keeps the mark the first occurrence set. *)
Lemma claimPath_twice i ing st p ci :
  ms_paths st !! ip_Path p = None → ms_configs st !! i = Some ci → mc_Ingress ci = ing →
  ∃ st' ci', foldM (claimPath i ing) st [p; p] = Some st' ∧
    ms_configs st' !! i = Some ci' ∧ mc_ValidPaths ci' !! ip_Path p = Some false.
Proof.
  intros Hfree Hi <-. simpl. unfold claimPath. cbv zeta. rewrite Hfree. simpl.
  rewrite lookup_insert_eq. simpl. rewrite list_lookup_alter_eq, Hi. simpl.
  rewrite choose_irrefl. simpl. eexists _, _. split; [done|]. simpl.
  rewrite !list_lookup_alter_eq, Hi. simpl. split; [done|].
  rewrite lookup_setValidPath. by rewrite decide_True.
Qed.

(** buildMinionConfigs never panics on well-formed objects. *)
Lemma claimPath_total i ing st p :
  (∀ q j, ms_paths st !! q = Some j → j < length (ms_configs st)) →
  i < length (ms_configs st) →
  ∃ st', claimPath i ing st p = Some st' ∧ length (ms_configs st') = length (ms_configs st) ∧
         (∀ q j, ms_paths st' !! q = Some j → j < length (ms_configs st')).
Proof.
  intros Hlt Hi. unfold claimPath. cbv zeta.
  assert (∀ q j, <[ip_Path p := i]> (ms_paths st) !! q = Some j → j < length (ms_configs st)) as Hins.
  { intros q j [[_ <-]|[_ ?]]%lookup_insert_Some; eauto. }
  destruct (ms_paths st !! ip_Path p) as [j|] eqn:Hj.
  - destruct (lookup_lt_is_Some_2 (ms_configs st) j) as [holder Hh]; [by eapply Hlt|].
    rewrite Hh. simpl. case_match; eexists; (split; [done|]); simpl; rewrite ?length_alter; eauto.
  - eexists. split; [done|]. simpl. rewrite length_alter. eauto.
Qed.

Lemma buildMinionConfigs_total o host :
  wf_objects o → index_ok (o_ingresses o) (o_minionsByHost o) →
  is_Some (buildMinionConfigs o host).
Proof.
  intros Hwf Hidx. rewrite buildMinionConfigs_scan by done. unfold buildMinionConfigsByScan.
  destruct (foldM_ind (λ st, ∀ q j, ms_paths st !! q = Some j → j < length (ms_configs st))
    (addMinion (o_ingresses o)) (scanMinionKeys (o_ingresses o) host)
    {| ms_configs := []; ms_paths := ∅; ms_warnings := ∅ |}) as (st & Hst & _).
  - simpl. intros q j H. by rewrite lookup_empty in H.
  - intros k st [Hb _]%list_elem_of_filter Hlt. unfold addMinion.
    destruct (o_ingresses o !! k) as [ing|] eqn:Hing; [|eauto]. simpl in Hb.
    assert (isMinion ing = true) as Hmin by (unfold minionHost in Hb; by destruct (isMinion ing)).
    destruct (wf_minion _ (wfo_ing _ Hwf _ _ Hing) Hmin) as (r & ps & -> & Hps & _).
    simpl. rewrite Hps. simpl.
    set (st0 := {| ms_configs := _ |}).
    destruct (foldM_ind (λ x, length (ms_configs x) = S (length (ms_configs st)) ∧
        ∀ q j, ms_paths x !! q = Some j → j < length (ms_configs x))
      (claimPath (length (ms_configs st)) ing) ps st0) as (st' & Hst' & _ & Hlt');
      [| |by exists st'].
    + simpl. rewrite length_app. simpl. split; [lia|]. intros q j Hq%Hlt. lia.
    + intros p x _ [Hlen Hx].
      destruct (claimPath_total (length (ms_configs st)) ing x p) as (x' & ? & ? & ?);
        [done|lia|]. exists x'. split; [done|]. split; [lia|done].
  - rewrite Hst. by eexists.
Qed.
