(* ===== verification/VSRoutes.v ===== *)
(** The VirtualServerRoutes of a VirtualServer: buildVirtualServerRoutes and
    the functions it is made of (internal/k8s/configuration.go). *)
From S2P Require Import Prelude GoStrings Objects ProxyBuffers Resources ConfigState.
From S2P Require Import CommonValidation.

(** namespace/name of a VSR, as the code prints it *)
Definition vsrNsName (vsr : VirtualServerRoute) : string :=
  om_Namespace (vsr_Meta vsr) +:+ "/" +:+ om_Name (vsr_Meta vsr).

(** The key a route refers to: its own namespace if it names one, else the
    namespace of the VirtualServer. *)
Definition routeVSRKey (vsNamespace route : string) : string :=
  if HasNamespace route then route else vsNamespace +:+ "/" +:+ route.

Record regexVSREntry := {
  re_vsr : VirtualServerRoute;
  re_paths : list string;
  re_firstSeenIdx : nat
}.

Record vsrCollection := {
  col_vsrs : list VirtualServerRoute;
  col_regexEntries : gmap string regexVSREntry;
  col_vsrSelectors : gmap string (list string);
  col_warnings : list string
}.

(** The order sort.Slice uses on the collected regex entries. *)
Definition entry_le (e1 e2 : string * regexVSREntry) : Prop :=
  re_firstSeenIdx e1.2 ≤ re_firstSeenIdx e2.2.
#[export] Instance entry_le_dec : RelDecision entry_le.
Proof. unfold entry_le. solve_decision. Defined.
#[export] Instance entry_le_total : Total entry_le.
Proof. intros e1 e2. unfold entry_le. lia. Qed.
#[export] Instance entry_le_trans : Transitive entry_le.
Proof. intros e1 e2 e3. unfold entry_le. lia. Qed.

Definition col_warn (col : vsrCollection) (ws : list string) : vsrCollection :=
  {| col_vsrs := col_vsrs col; col_regexEntries := col_regexEntries col;
     col_vsrSelectors := col_vsrSelectors col; col_warnings := col_warnings col ++ ws |}.

(** deduplicateVSRSlice *)
Fixpoint deduplicateVSRs (vsNamespace vsName : string) (seen : gset string)
    (vsrs : list VirtualServerRoute) : list VirtualServerRoute * list string :=
  match vsrs with
  | [] => ([], [])
  | vsr :: rest =>
      let nsName := vsrNsName vsr in
      if decide (nsName ∈ seen) then
        let '(res, ws) := deduplicateVSRs vsNamespace vsName seen rest in
        (res, ("VS " +:+ vsNamespace +:+ "/" +:+ vsName +:+
               " has duplicate VirtualServerRoutes " +:+ nsName) :: ws)
      else
        let '(res, ws) := deduplicateVSRs vsNamespace vsName ({[nsName]} ∪ seen) rest in
        (vsr :: res, ws)
  end.
Definition deduplicateVSRSlice (vsrs : list VirtualServerRoute) (vsNamespace vsName : string)
    : list VirtualServerRoute * list string :=
  deduplicateVSRs vsNamespace vsName ∅ vsrs.

(** ** validateDuplicateVSRPaths *)

(** The state of its first loop: the owner of every normalised path, the
    warnings, and the keys of the VSRs to remove. *)
Record dupState := {
  ds_paths : gmap string string;
  ds_warnings : list string;
  ds_remove : list string
}.

Definition dupStep (st : dupState) (p : VirtualServerRoute * Route) : dupState :=
  let '(vsr, subroute) := p in
  let normPath := NormalizePath (r_Path subroute) in
  match ds_paths st !! normPath with
  | Some path =>
      let subRoutes := if bool_decide (vsrNsName vsr = path) then path
                       else vsrNsName vsr +:+ " and " +:+ path in
      {| ds_paths := ds_paths st;
         ds_warnings := ds_warnings st ++
           ["path " +:+ r_Path subroute +:+ " has conflicting subroutes on " +:+ subRoutes];
         ds_remove := ds_remove st ++ [getResourceKeyWithKind virtualServerRouteKind (vsr_Meta vsr)] |}
  | None =>
      {| ds_paths := <[normPath := vsrNsName vsr]> (ds_paths st);
         ds_warnings := ds_warnings st; ds_remove := ds_remove st |}
  end.

(** removeFromVSRSlice at the first element with the key, if there is one *)
Fixpoint removeVSR (key : string) (vsrs : list VirtualServerRoute) : list VirtualServerRoute :=
  match vsrs with
  | [] => []
  | vsr :: rest =>
      if bool_decide (getResourceKeyWithKind virtualServerRouteKind (vsr_Meta vsr) = key)
      then rest else vsr :: removeVSR key rest
  end.

Definition allSubroutes (vsrs : list VirtualServerRoute) : list (VirtualServerRoute * Route) :=
  vsrs ≫= λ vsr, pair vsr <$> vsr_Subroutes vsr.

Definition validateDuplicateVSRPaths (vsrs : list VirtualServerRoute)
    : list VirtualServerRoute * list string :=
  let st := foldl dupStep {| ds_paths := ∅; ds_warnings := []; ds_remove := [] |}
              (allSubroutes vsrs) in
  (foldl (λ l k, removeVSR k l) vsrs (ds_remove st), ds_warnings st).

(** syncVSRSelectors *)
Definition syncVSRSelectors (vsrSelectors : gmap string (list string))
    (vsrs : list VirtualServerRoute) : gmap string (list string) :=
  let finalKeys := vsrNsName <$> vsrs in
  (λ keys, filter (λ k, k ∈ finalKeys) keys) <$> vsrSelectors.

Section Collect.
Context `{MR : MapRange} `{V : Validators} `{LS : LabelSelectors}.
Variable o : Objects.

(** validateVSRs *)
Definition validateVSRs (r : Route) (vsHost vsNamespace : string)
    : list VirtualServerRoute * list string :=
  let vsrKey := routeVSRKey vsNamespace (r_Route r) in
  match o_virtualServerRoutes o !! vsrKey with
  | None => ([], ["VirtualServerRoute " +:+ vsrKey +:+ " doesn't exist or invalid"])
  | Some vsr =>
      match ValidateVirtualServerRouteForVirtualServer vsr vsHost [r_Path r] with
      | Some err => ([], ["VirtualServerRoute " +:+ vsrKey +:+ " is invalid: " +:+ err])
      | None => ([vsr], [])
      end
  end.

(** One VSR of the loop of validateVSRSelectors: (vsrs, keys, warnings) *)
Definition selectorStep (matches : gmap string string → bool) (vsHost path : string)
    (st : list VirtualServerRoute * list string * list string)
    (e : string * VirtualServerRoute) : list VirtualServerRoute * list string * list string :=
  let '(vsrs, keys, warnings) := st in
  let '(vsrKey, vsr) := e in
  if matches (om_Labels (vsr_Meta vsr)) then
    match ValidateVirtualServerRouteForVirtualServer vsr vsHost [path] with
    | Some err =>
        (vsrs, keys, warnings ++ ["VirtualServerRoute " +:+ vsrKey +:+ " is invalid: " +:+ err])
    | None => (vsrs ++ [vsr], keys ++ [vsrKey], warnings)
    end
  else st.

(** validateVSRSelectors; [site] names the occurrence of its map loop *)
Definition validateVSRSelectors (site : string) (matchLabels : gmap string string)
    (path vsHost : string)
    : list VirtualServerRoute * gmap string (list string) * list string :=
  match LabelSelectorAsSelector matchLabels with
  | inl err =>
      ([], ∅, ["VirtualServerRoute LabelSelector " +:+ LabelSelector_String matchLabels
               +:+ " is invalid: " +:+ err])
  | inr (selectorStr, matches) =>
      let '(vsrs, keys, warnings) :=
        foldl (selectorStep matches vsHost path) ([], [], [])
          (range site (o_virtualServerRoutes o)) in
      (vsrs, {[selectorStr := sortStrings keys]}, warnings)
  end.

(** The loop that adds validated VSRs to the collection, skipping those
    already seen: shared by collectNonRegexNamedRoute and collectSelectorRoute. *)
Definition addSeen (vs : VirtualServer) (st : vsrCollection * gset string)
    (vsr : VirtualServerRoute) : vsrCollection * gset string :=
  let '(col, seen) := st in
  let nsName := vsrNsName vsr in
  if decide (nsName ∈ seen) then
    (col_warn col ["VS " +:+ om_Namespace (vs_Meta vs) +:+ "/" +:+ om_Name (vs_Meta vs) +:+
                   " has duplicate VirtualServerRoutes " +:+ nsName], seen)
  else
    ({| col_vsrs := col_vsrs col ++ [vsr]; col_regexEntries := col_regexEntries col;
        col_vsrSelectors := col_vsrSelectors col; col_warnings := col_warnings col |},
     {[nsName]} ∪ seen).

(** collectRegexNamedRoute; [seenPaths] is regexSeenPaths *)
Definition collectRegexNamedRoute (vs : VirtualServer) (routeName path : string)
    (routeIdx : nat) (col : vsrCollection) (seenPaths : gmap string (gset string))
    : vsrCollection * gmap string (gset string) :=
  let normPath := NormalizePath path in
  let vsrKey := routeVSRKey (om_Namespace (vs_Meta vs)) routeName in
  match o_virtualServerRoutes o !! vsrKey with
  | None =>
      (col_warn col ["VirtualServerRoute " +:+ vsrKey +:+ " doesn't exist or invalid"], seenPaths)
  | Some vsr =>
      match col_regexEntries col !! vsrKey with
      | Some entry =>
          let seen := default ∅ (seenPaths !! vsrKey) in
          if decide (normPath ∈ seen) then (col, seenPaths)
          else
            ({| col_vsrs := col_vsrs col;
                col_regexEntries :=
                  <[vsrKey := {| re_vsr := re_vsr entry; re_paths := re_paths entry ++ [path];
                                 re_firstSeenIdx := re_firstSeenIdx entry |}]>
                    (col_regexEntries col);
                col_vsrSelectors := col_vsrSelectors col; col_warnings := col_warnings col |},
             <[vsrKey := {[normPath]} ∪ seen]> seenPaths)
      | None =>
          ({| col_vsrs := col_vsrs col;
              col_regexEntries :=
                <[vsrKey := {| re_vsr := vsr; re_paths := [path]; re_firstSeenIdx := routeIdx |}]>
                  (col_regexEntries col);
              col_vsrSelectors := col_vsrSelectors col; col_warnings := col_warnings col |},
           <[vsrKey := {[normPath]}]> seenPaths)
      end
  end.

(** collectNonRegexNamedRoute *)
Definition collectNonRegexNamedRoute (vs : VirtualServer) (r : Route)
    (col : vsrCollection) (seenVSRs : gset string) : vsrCollection * gset string :=
  let '(validVsrs, vsrWarnings) := validateVSRs r (vs_Host vs) (om_Namespace (vs_Meta vs)) in
  foldl (addSeen vs) (col_warn col vsrWarnings, seenVSRs) validVsrs.

(** collectSelectorRoute *)
Definition collectSelectorRoute (site : string) (vs : VirtualServer)
    (matchLabels : gmap string string) (r : Route)
    (col : vsrCollection) (seenVSRs : gset string) : vsrCollection * gset string :=
  let '(validVsrs, selectors, vsrWarnings) :=
    validateVSRSelectors site matchLabels (r_Path r) (vs_Host vs) in
  let col := col_warn col vsrWarnings in
  let col := {| col_vsrs := col_vsrs col; col_regexEntries := col_regexEntries col;
                col_vsrSelectors := selectors ∪ col_vsrSelectors col;
                col_warnings := col_warnings col |} in
  foldl (addSeen vs) (col, seenVSRs) validVsrs.

(** The loop of classifyAndCollectVSRs from route index [i] on. *)
Fixpoint classifyRoutes (vs : VirtualServer) (i : nat) (routes : list Route)
    (col : vsrCollection) (seenPaths : gmap string (gset string)) (seenVSRs : gset string)
    : vsrCollection :=
  match routes with
  | [] => col
  | r :: rest =>
      let isRegex := HasPrefix (r_Path r) "~" in
      if negb (bool_decide (r_Route r = "")) then
        if isRegex then
          let '(col, seenPaths) :=
            collectRegexNamedRoute vs (r_Route r) (r_Path r) i col seenPaths in
          classifyRoutes vs (S i) rest col seenPaths seenVSRs
        else
          let '(col, seenVSRs) := collectNonRegexNamedRoute vs r col seenVSRs in
          classifyRoutes vs (S i) rest col seenPaths seenVSRs
      else match r_RouteSelector r with
      | Some matchLabels =>
          let site := "validateVSRSelectors/" +:+ getResourceKey (vs_Meta vs)
                      +:+ "/" +:+ pretty i in
          let '(col, seenVSRs) := collectSelectorRoute site vs matchLabels r col seenVSRs in
          classifyRoutes vs (S i) rest col seenPaths seenVSRs
      | None => classifyRoutes vs (S i) rest col seenPaths seenVSRs
      end
  end.

Definition classifyAndCollectVSRs (vs : VirtualServer) : vsrCollection :=
  classifyRoutes vs 0 (vs_Routes vs)
    {| col_vsrs := []; col_regexEntries := ∅; col_vsrSelectors := ∅; col_warnings := [] |} ∅ ∅.

(** validateAndBuildRegexVSRs: the entries in the order their routes appear *)
Definition sortedEntries (vs : VirtualServer) (entries : gmap string regexVSREntry)
    : list (string * regexVSREntry) :=
  merge_sort entry_le
    (range ("validateAndBuildRegexVSRs/" +:+ getResourceKey (vs_Meta vs)) entries).

Definition regexStep (vsHost : string) (st : list VirtualServerRoute * list string)
    (ek : string * regexVSREntry) : list VirtualServerRoute * list string :=
  match ValidateVirtualServerRouteForVirtualServer (re_vsr ek.2) vsHost (re_paths ek.2) with
  | Some err => (st.1, st.2 ++ ["VirtualServerRoute " +:+ ek.1 +:+ " is invalid: " +:+ err])
  | None => (st.1 ++ [re_vsr ek.2], st.2)
  end.

Definition validateAndBuildRegexVSRs (vs : VirtualServer) (entries : gmap string regexVSREntry)
    (vsHost : string) : list VirtualServerRoute * list string :=
  foldl (regexStep vsHost) ([], []) (sortedEntries vs entries).

(** buildVirtualServerRoutes *)
Definition buildVirtualServerRoutes (vs : VirtualServer)
    : list VirtualServerRoute * gmap string (list string) * list string :=
  let collected := classifyAndCollectVSRs vs in
  let '(regexVsrs, regexWarnings) :=
    validateAndBuildRegexVSRs vs (col_regexEntries collected) (vs_Host vs) in
  let '(vsrs, dupWarnings) :=
    deduplicateVSRSlice (col_vsrs collected ++ regexVsrs)
      (om_Namespace (vs_Meta vs)) (om_Name (vs_Meta vs)) in
  let '(vsrs, pathWarnings) := validateDuplicateVSRPaths vsrs in
  (vsrs, syncVSRSelectors (col_vsrSelectors collected) vsrs,
   col_warnings collected ++ regexWarnings ++ dupWarnings ++ pathWarnings).
End Collect.

(** ** What buildVirtualServerRoutes guarantees *)

Definition vsrKeyWithKind (vsr : VirtualServerRoute) : string :=
  getResourceKeyWithKind virtualServerRouteKind (vsr_Meta vsr).

Lemma vsrKeyWithKind_eq vsr : vsrKeyWithKind vsr = "VirtualServerRoute/" +:+ vsrNsName vsr.
Proof. done. Qed.

(** *** Duplicates *)
Lemma deduplicateVSRs_spec ns name seen vsrs :
  let res := (deduplicateVSRs ns name seen vsrs).1 in
  sublist res vsrs ∧ NoDup (vsrNsName <$> res) ∧ ∀ v, v ∈ res → vsrNsName v ∉ seen.
Proof.
  revert seen. induction vsrs as [|v vsrs IH]; intros seen; simpl.
  - split; [constructor|]. split; [constructor|set_solver].
  - case_decide as Hin.
    + specialize (IH seen). destruct (deduplicateVSRs ns name seen vsrs) as [res ws]. simpl in *.
      destruct IH as (H1 & H2 & H3). split; [by apply sublist_cons|done].
    + specialize (IH ({[vsrNsName v]} ∪ seen)).
      destruct (deduplicateVSRs ns name _ vsrs) as [res ws]. simpl in *.
      destruct IH as (H1 & H2 & H3). split; [by apply sublist_skip|]. split.
      * apply NoDup_cons. split; [|done]. intros (v' & Heq & Hv')%list_elem_of_fmap.
        apply (H3 v' Hv'). set_solver.
      * intros v' [->|Hv']%elem_of_cons; [done|]. apply H3 in Hv'. set_solver.
Qed.

Lemma removeVSR_filter key vsrs :
  NoDup (vsrKeyWithKind <$> vsrs) → removeVSR key vsrs = filter (λ v, vsrKeyWithKind v ≠ key) vsrs.
Proof.
  induction vsrs as [|v vsrs IH]; [done|]. csimpl. intros [Hv Hnd]%NoDup_cons.
  fold (vsrKeyWithKind v). rewrite filter_cons. destruct (decide (vsrKeyWithKind v = key)) as [Heq|Hne].
  - rewrite bool_decide_eq_true_2 by done. rewrite decide_False by naive_solver.
    symmetry. apply filter_id_in. intros x Hx Hk. apply Hv.
    rewrite Heq, <- Hk. apply list_elem_of_fmap. eauto.
  - rewrite bool_decide_eq_false_2, decide_True by done. by rewrite IH.
Qed.

Lemma removeVSRs_filter ks vsrs :
  NoDup (vsrKeyWithKind <$> vsrs) →
  foldl (λ l k, removeVSR k l) vsrs ks = filter (λ v, vsrKeyWithKind v ∉ ks) vsrs.
Proof.
  revert vsrs. induction ks as [|k ks IH]; intros vsrs Hnd; simpl.
  - symmetry. apply filter_id_in. set_solver.
  - rewrite removeVSR_filter by done. rewrite IH.
    + rewrite <- (filter_filter_in (λ v, vsrKeyWithKind v ≠ k) (λ v, vsrKeyWithKind v ∉ k :: ks))
        by set_solver.
      apply filter_ext_in. intros x [? ?]%list_elem_of_filter. set_solver.
    + eapply sublist_NoDup; [exact Hnd|]. apply fmap_sublist, sublist_filter.
Qed.

(** *** Conflicting paths *)
Definition normPathOf (p : VirtualServerRoute * Route) : string := NormalizePath (r_Path p.2).

Lemma dupStep_spec ps :
  let st := foldl dupStep {| ds_paths := ∅; ds_warnings := []; ds_remove := [] |} ps in
  (∀ p, is_Some (ds_paths st !! p) ↔ p ∈ normPathOf <$> ps) ∧
  NoDup (normPathOf <$> filter (λ x, vsrKeyWithKind x.1 ∉ ds_remove st) ps).
Proof.
  refine (foldl_prefix_ind (λ pre st,
    (∀ p, is_Some (ds_paths st !! p) ↔ p ∈ normPathOf <$> pre) ∧
    NoDup (normPathOf <$> filter (λ x, vsrKeyWithKind x.1 ∉ ds_remove st) pre)) dupStep ps _ _ _).
  - split; [|constructor]. intros p. cbn [ds_paths]. rewrite lookup_empty. split; [by intros [? ?]|set_solver].
  - intros pre [vsr sub] post st _ [Hp Hnd]. unfold dupStep.
    fold (normPathOf (vsr, sub)). set (np := normPathOf (vsr, sub)) in *.
    change (NormalizePath (r_Path sub)) with np.
    destruct (ds_paths st !! np) as [path|] eqn:Hnp; cbn [ds_paths ds_remove]; rewrite filter_app, !fmap_app.
    + split.
      * intros p. rewrite Hp. simpl. fold np. rewrite elem_of_app, list_elem_of_singleton.
        split; [by left|]. intros [?| ->]; [done|]. apply Hp. by exists path.
      * rewrite filter_cons, filter_nil. rewrite decide_False by (unfold vsrKeyWithKind; set_solver).
        rewrite app_nil_r. eapply sublist_NoDup; [exact Hnd|]. apply fmap_sublist.
        rewrite <- (filter_filter_in (λ x : VirtualServerRoute * Route, vsrKeyWithKind x.1 ∉ ds_remove st)
          (λ x : VirtualServerRoute * Route, vsrKeyWithKind x.1 ∉ ds_remove st ++
             [getResourceKeyWithKind virtualServerRouteKind (vsr_Meta vsr)])) by set_solver.
        apply sublist_filter.
    + assert (np ∉ normPathOf <$> pre) as Hfresh by (rewrite <- Hp, Hnp; by intros [? ?]).
      split.
      * intros p. simpl. fold np. rewrite elem_of_app, list_elem_of_singleton, lookup_insert_is_Some.
        rewrite Hp. destruct (decide (np = p)); naive_solver.
      * rewrite filter_cons, filter_nil. apply NoDup_app. split_and!; [done| |case_decide; csimpl; [apply NoDup_singleton|constructor]].
        intros p Hin1 Hin2.
        assert (p ∈ normPathOf <$> pre) as Hpre.
        { eapply elem_of_submseteq; [exact Hin1|]. apply sublist_submseteq, fmap_sublist, sublist_filter. }
        case_decide; [|set_solver]. csimpl in Hin2. apply list_elem_of_singleton in Hin2 as ->. done.
Qed.

Lemma allSubroutes_filter (ks : list string) vsrs :
  allSubroutes (filter (λ v, vsrKeyWithKind v ∉ ks) vsrs) =
  filter (λ x, vsrKeyWithKind x.1 ∉ ks) (allSubroutes vsrs).
Proof.
  unfold allSubroutes. induction vsrs as [|v vsrs IH]; [done|]. rewrite filter_cons. csimpl.
  rewrite filter_app, <- IH. case_decide as Hv.
  - csimpl. f_equal. symmetry. apply filter_id_in.
    by intros ? (s & -> & _)%list_elem_of_fmap.
  - assert (filter (λ x : VirtualServerRoute * Route, vsrKeyWithKind x.1 ∉ ks) (pair v <$> vsr_Subroutes v) = [])
      as ->; [|done].
    apply filter_nil_in. intros ? (s & -> & _)%list_elem_of_fmap. simpl. auto.
Qed.

Lemma validateDuplicateVSRPaths_spec vsrs :
  NoDup (vsrKeyWithKind <$> vsrs) →
  let res := (validateDuplicateVSRPaths vsrs).1 in
  sublist res vsrs ∧ NoDup (normPathOf <$> allSubroutes res).
Proof.
  intros Hnd. unfold validateDuplicateVSRPaths. cbn zeta. cbn [fst].
  set (st := foldl dupStep _ _). rewrite removeVSRs_filter by done. split; [apply sublist_filter|].
  rewrite allSubroutes_filter. apply dupStep_spec.
Qed.

(** *** Every kept route is stored and valid for the VirtualServer *)
Section Kept.
Context `{MR : MapRange} `{V : Validators} `{LS : LabelSelectors}.
Variables (o : Objects) (vs : VirtualServer).

(** the route names the VirtualServerRoute by its key, or selects it by its labels *)
Definition namesVSR (r : Route) (key : string) : Prop :=
  r_Route r ≠ "" ∧ routeVSRKey (om_Namespace (vs_Meta vs)) (r_Route r) = key.
Definition selectsVSR (r : Route) (vsr : VirtualServerRoute) : Prop :=
  r_Route r = "" ∧ ∃ ml sel matches, r_RouteSelector r = Some ml ∧ LabelSelectorAsSelector ml = inr (sel, matches) ∧
    matches (om_Labels (vsr_Meta vsr)) = true.
Definition regexRoute (r : Route) : Prop := HasPrefix (r_Path r) "~" = true.

(** The paths with which a VirtualServerRoute is validated: the path of one route of the
    VirtualServer that leads to it, or those of all the routes with a regular expression
    that name it, up to the normalisation of paths. *)
Definition pathsOf (routes : list Route) (key : string) (vsr : VirtualServerRoute) (paths : list string) : Prop :=
  (∃ r, r ∈ routes ∧ (namesVSR r key ∨ selectsVSR r vsr) ∧ paths = [r_Path r]) ∨
  (paths ≠ [] ∧ (∀ path, path ∈ paths → ∃ r, r ∈ routes ∧ namesVSR r key ∧ regexRoute r ∧ r_Path r = path) ∧
   ∀ r, r ∈ routes → namesVSR r key → regexRoute r → NormalizePath (r_Path r) ∈ NormalizePath <$> paths).

Definition validFor (vsr : VirtualServerRoute) : Prop :=
  ∃ key paths, o_virtualServerRoutes o !! key = Some vsr ∧ pathsOf (vs_Routes vs) key vsr paths ∧
    ValidateVirtualServerRouteForVirtualServer vsr (vs_Host vs) paths = None.

Lemma validateVSRs_valid r vsr :
  r ∈ vs_Routes vs → r_Route r ≠ "" →
  vsr ∈ (validateVSRs o r (vs_Host vs) (om_Namespace (vs_Meta vs))).1 → validFor vsr.
Proof.
  intros Hr Hn. unfold validateVSRs. repeat case_match; simpl; try set_solver.
  intros ->%list_elem_of_singleton. eexists _, [r_Path r]. split_and!; [eassumption| |done].
  left. exists r. split_and!; [done|by left|done].
Qed.

Lemma selectorStep_valid r ml sel matches es st :
  r ∈ vs_Routes vs → r_Route r = "" → r_RouteSelector r = Some ml → LabelSelectorAsSelector ml = inr (sel, matches) →
  (∀ k v, (k, v) ∈ es → o_virtualServerRoutes o !! k = Some v) →
  (∀ v, v ∈ st.1.1 → validFor v) →
  ∀ v, v ∈ (foldl (selectorStep matches (vs_Host vs) (r_Path r)) st es).1.1 → validFor v.
Proof.
  intros Hr Hn Hml Hsel. revert st. induction es as [|[k e] es IH]; intros [[vsrs keys] ws] Hes Hst; [done|].
  cbn [foldl]. apply IH; [intros; apply Hes; set_solver|]. unfold selectorStep.
  repeat case_match; simpl in *; try done.
  intros v [?|Hv]%elem_of_app; [by apply Hst|]. apply list_elem_of_singleton in Hv as ->.
  exists k, [r_Path r]. split_and!; [apply Hes; set_solver| |done].
  left. exists r. split_and!; [done|right; split; [done|by exists ml, sel, matches]|done].
Qed.

Lemma validateVSRSelectors_valid site r ml vsr :
  r ∈ vs_Routes vs → r_Route r = "" → r_RouteSelector r = Some ml →
  vsr ∈ (validateVSRSelectors o site ml (r_Path r) (vs_Host vs)).1.1 → validFor vsr.
Proof.
  intros Hr Hn Hml. unfold validateVSRSelectors.
  destruct (LabelSelectorAsSelector ml) as [?|[sel matches]] eqn:Hsel; [simpl; set_solver|].
  pose proof (selectorStep_valid r ml sel matches (range site (o_virtualServerRoutes o)) ([], [], []) Hr Hn Hml Hsel) as Hs.
  destruct (foldl _ _ _) as [[vsrs keys] ws]. simpl in *. intros Hin. apply Hs; [|set_solver|done].
  intros k v. by rewrite elem_of_range.
Qed.

(** the regular expressions collected from the routes [pre] *)
Definition entriesOf (pre : list Route) (entries : gmap string regexVSREntry) (seenPaths : gmap string (gset string)) : Prop :=
  (∀ k e, entries !! k = Some e →
     o_virtualServerRoutes o !! k = Some (re_vsr e) ∧ re_paths e ≠ [] ∧
     (∀ path, path ∈ re_paths e → ∃ r, r ∈ pre ∧ namesVSR r k ∧ regexRoute r ∧ r_Path r = path) ∧
     ∀ x, x ∈ default ∅ (seenPaths !! k) → x ∈ NormalizePath <$> re_paths e) ∧
  (∀ r k, r ∈ pre → namesVSR r k → regexRoute r → is_Some (o_virtualServerRoutes o !! k) →
     ∃ e, entries !! k = Some e ∧ NormalizePath (r_Path r) ∈ NormalizePath <$> re_paths e).

Lemma entriesOf_other pre r entries sp :
  ¬ (r_Route r ≠ "" ∧ regexRoute r) → entriesOf pre entries sp → entriesOf (pre ++ [r]) entries sp.
Proof.
  intros Hr [H1 H2]. split.
  - intros k e He. destruct (H1 k e He) as (? & ? & Hp & ?). split_and!; [done..| |done].
    intros path Hpath. destruct (Hp path Hpath) as (r' & ? & ?). exists r'. set_solver.
  - intros r' k [Hin| ->%list_elem_of_singleton]%elem_of_app; [by apply H2|]. intros [? ?] ?. by destruct Hr.
Qed.

(** a further route whose path is one of those of its key, which only gain paths *)
Lemma entriesOf_step pre r key entries entries' sp sp' :
  namesVSR r key → regexRoute r → entriesOf pre entries sp →
  (∀ k, k ≠ key → entries' !! k = entries !! k ∧ sp' !! k = sp !! k) →
  (∀ vsr, o_virtualServerRoutes o !! key = Some vsr → ∃ e, entries' !! key = Some e ∧ re_vsr e = vsr ∧
     NormalizePath (r_Path r) ∈ NormalizePath <$> re_paths e ∧
     (∀ path, path ∈ re_paths e → path = r_Path r ∨ ∃ e0, entries !! key = Some e0 ∧ path ∈ re_paths e0) ∧
     (∀ e0, entries !! key = Some e0 → re_paths e0 ⊆ re_paths e) ∧
     ∀ x, x ∈ default ∅ (sp' !! key) → x ∈ NormalizePath <$> re_paths e) →
  (o_virtualServerRoutes o !! key = None → entries' !! key = None) →
  entriesOf (pre ++ [r]) entries' sp'.
Proof.
  intros Hname Hrx [H1 H2] Hother Hkey Hnone. split.
  - intros k e He. destruct (decide (k = key)) as [->|Hne].
    + destruct (o_virtualServerRoutes o !! key) as [vsr|] eqn:Ho; [|by rewrite Hnone in He].
      destruct (Hkey vsr eq_refl) as (e1 & He1 & <- & Hn & Hp & _ & Hs). rewrite He in He1. injection He1 as <-.
      split_and!; [done|by intros Hnil; rewrite Hnil in Hn; set_solver| |done].
      intros path [->|(e0 & He0 & Hp0)]%Hp; [exists r; set_solver|].
      destruct (H1 key e0 He0) as (_ & _ & Hp1 & _). destruct (Hp1 path Hp0) as (r' & ? & ?). exists r'. set_solver.
    + destruct (Hother k Hne) as [He' Hs']. rewrite He' in He. rewrite Hs'. destruct (H1 k e He) as (? & ? & Hp & ?).
      split_and!; [done..| |done]. intros path Hpath. destruct (Hp path Hpath) as (r' & ? & ?). exists r'. set_solver.
  - intros r' k Hin Hn' Hrx' [vsr Hvsr]. destruct (decide (k = key)) as [->|Hne].
    + destruct (Hkey vsr Hvsr) as (e & He & _ & Hn & _ & Hsub & _). exists e. split; [done|].
      apply elem_of_app in Hin as [Hin| ->%list_elem_of_singleton]; [|done].
      destruct (H2 r' key Hin Hn' Hrx') as (e0 & He0 & Hp0); [by eexists|].
      apply list_elem_of_fmap in Hp0 as (x & -> & Hx). apply list_elem_of_fmap. exists x. split; [done|]. by apply (Hsub e0).
    + apply elem_of_app in Hin as [Hin| ->%list_elem_of_singleton].
      * destruct (Hother k Hne) as [-> _]. by apply H2; [..|eexists].
      * destruct Hn' as [_ Hk'], Hname as [_ Hk]. congruence.
Qed.

Lemma collectRegexNamedRoute_entries pre r i col sp col' sp' :
  r_Route r ≠ "" → regexRoute r → entriesOf pre (col_regexEntries col) sp →
  collectRegexNamedRoute o vs (r_Route r) (r_Path r) i col sp = (col', sp') →
  entriesOf (pre ++ [r]) (col_regexEntries col') sp' ∧ col_vsrs col' = col_vsrs col.
Proof.
  intros Hn Hrx Hent. set (key := routeVSRKey (om_Namespace (vs_Meta vs)) (r_Route r)).
  assert (namesVSR r key) as Hname by done. pose proof Hent as [Hent1 _].
  unfold collectRegexNamedRoute. fold key. destruct (o_virtualServerRoutes o !! key) as [vsr|] eqn:Ho.
  2: { intros [= <- <-]. split; [|done]. eapply entriesOf_step; [done..|congruence|]. intros _.
       destruct (col_regexEntries col !! key) as [e|] eqn:He; [|done]. destruct (Hent1 key e He). congruence. }
  destruct (col_regexEntries col !! key) as [e|] eqn:He; [destruct (Hent1 key e He) as (Hvsr & _ & _ & Hseen); case_decide as Hd|];
    intros [= <- <-]; (split; [|done]); (eapply (entriesOf_step _ _ key); [done..| | |congruence]); simpl.
  - done.
  - intros vsr' Hvsr'. rewrite Ho in Hvsr'. injection Hvsr' as <-. exists e. split_and!; [done|congruence|by apply Hseen|eauto|by intros ? ?; simplify_eq|done].
  - intros k Hne. by rewrite !lookup_insert_ne by done.
  - intros vsr' Hvsr'. rewrite Ho in Hvsr'. injection Hvsr' as <-. eexists. rewrite !lookup_insert_eq. split_and!; [done|simpl; congruence|simpl..].
    + rewrite fmap_app. set_solver.
    + intros path [?| ->%list_elem_of_singleton]%elem_of_app; eauto.
    + intros e0 He0. simplify_eq. set_solver.
    + intros x. rewrite fmap_app. intros [->%elem_of_singleton|Hx]%elem_of_union; [set_solver|]. apply Hseen in Hx. set_solver.
  - intros k Hne. by rewrite !lookup_insert_ne by done.
  - intros vsr' Hvsr'. rewrite Ho in Hvsr'. injection Hvsr' as <-. eexists. rewrite !lookup_insert_eq. split_and!; [done|done|simpl; set_solver..].
Qed.

Lemma addSeen_valid col seen vsrs :
  (∀ v, v ∈ col_vsrs col → validFor v) → (∀ v, v ∈ vsrs → validFor v) →
  let col' := (foldl (addSeen vs) (col, seen) vsrs).1 in
  (∀ v, v ∈ col_vsrs col' → validFor v) ∧ col_regexEntries col' = col_regexEntries col.
Proof.
  revert col seen. induction vsrs as [|v vsrs IH]; intros col seen Hc Hv; [done|].
  cbn [foldl]. assert (∃ col1 seen1, addSeen vs (col, seen) v = (col1, seen1) ∧ (∀ x, x ∈ col_vsrs col1 → validFor x) ∧
    col_regexEntries col1 = col_regexEntries col) as (col1 & seen1 & -> & Hc1 & He1).
  { unfold addSeen. case_decide; do 2 eexists; (split_and!; [done| |done]); simpl; set_solver. }
  rewrite <-He1. apply IH; set_solver.
Qed.

Lemma classifyRoutes_valid routes : ∀ pre i col seenPaths seenVSRs,
  vs_Routes vs = pre ++ routes → (∀ v, v ∈ col_vsrs col → validFor v) → entriesOf pre (col_regexEntries col) seenPaths →
  let col' := classifyRoutes o vs i routes col seenPaths seenVSRs in
  (∀ v, v ∈ col_vsrs col' → validFor v) ∧ ∃ sp, entriesOf (vs_Routes vs) (col_regexEntries col') sp.
Proof.
  induction routes as [|r routes IH]; intros pre i col sp sv Heq Hv He.
  { rewrite app_nil_r in Heq. rewrite Heq. split; [done|by exists sp]. }
  assert (r ∈ vs_Routes vs) as Hr by (rewrite Heq; set_solver). rewrite cons_middle, app_assoc in Heq.
  cbn [classifyRoutes]. case_bool_decide as Hn; cbn [negb].
  - destruct (r_RouteSelector r) as [ml|] eqn:Hml; [|apply (IH (pre ++ [r])); [done..|apply entriesOf_other; [tauto|done]]].
    destruct (collectSelectorRoute o _ vs ml r col sv) as [col' sv'] eqn:Hcol.
    unfold collectSelectorRoute in Hcol.
    match type of Hcol with context [validateVSRSelectors o ?site ml ?p ?hst] =>
      pose proof (validateVSRSelectors_valid site r ml) as Hvv;
      destruct (validateVSRSelectors o site ml p hst) as [[vv sel] ws] end.
    apply (f_equal fst) in Hcol. cbn [fst] in Hcol. subst col'.
    match goal with |- context [foldl (addSeen vs) (?c, sv) vv] =>
      destruct (addSeen_valid c sv vv) as [Hvs Hes]; [done|intros v Hin; by apply Hvv|] end.
    apply (IH (pre ++ [r])); [done|exact Hvs|]. rewrite Hes. apply entriesOf_other; [tauto|done].
  - destruct (HasPrefix (r_Path r) "~") eqn:Hrx.
    + destruct (collectRegexNamedRoute o vs (r_Route r) (r_Path r) i col sp) as [col' sp'] eqn:Hcol.
      destruct (collectRegexNamedRoute_entries pre r i col sp col' sp' Hn Hrx He Hcol) as [He' Hvs'].
      apply (IH (pre ++ [r])); [done|by rewrite Hvs'|done].
    + destruct (collectNonRegexNamedRoute o vs r col sv) as [col' sv'] eqn:Hcol.
      unfold collectNonRegexNamedRoute in Hcol. pose proof (validateVSRs_valid r) as Hvv.
      destruct (validateVSRs o r (vs_Host vs) (om_Namespace (vs_Meta vs))) as [vv ws].
      apply (f_equal fst) in Hcol. cbn [fst] in Hcol. subst col'.
      match goal with |- context [foldl (addSeen vs) (?c, sv) vv] =>
        destruct (addSeen_valid c sv vv) as [Hvs Hes]; [done|intros v Hin; by apply Hvv|] end.
      apply (IH (pre ++ [r])); [done|exact Hvs|]. rewrite Hes.
      apply entriesOf_other; [|done]. unfold regexRoute. rewrite Hrx. by intros [_ ?].
Qed.

Lemma regexVSRs_valid entries sp vsr :
  entriesOf (vs_Routes vs) entries sp →
  vsr ∈ (validateAndBuildRegexVSRs vs entries (vs_Host vs)).1 → validFor vsr.
Proof.
  intros [Hent Hcov]. unfold validateAndBuildRegexVSRs.
  assert (∀ k e, (k, e) ∈ sortedEntries vs entries → entries !! k = Some e) as Hs.
  { intros k e. unfold sortedEntries. rewrite merge_sort_Permutation. apply elem_of_range. }
  assert (∀ es st, (∀ k e, (k, e) ∈ es → entries !! k = Some e) → (∀ v, v ∈ st.1 → validFor v) →
    ∀ v, v ∈ (foldl (regexStep (vs_Host vs)) st es).1 → validFor v) as Hfold.
  { intros es. induction es as [|[k e] es IH]; intros st He Hst; [done|]. cbn [foldl].
    apply IH; [intros; apply He; set_solver|]. unfold regexStep. case_match eqn:Hval; simpl in *; [done|].
    intros v [?| ->%list_elem_of_singleton]%elem_of_app; [by apply Hst|].
    assert (entries !! k = Some e) as Hk by (apply He; set_solver). destruct (Hent k e Hk) as (Ho & Hne & Hp & _).
    exists k, (re_paths e). split_and!; [done| |done]. right. split_and!; [done..|].
    intros r Hr Hn Hrx. destruct (Hcov r k Hr Hn Hrx) as (e' & He' & Hin); [by eexists|]. congruence. }
  apply Hfold; [done|set_solver].
Qed.

Lemma buildVirtualServerRoutes_spec vsrs selectors ws :
  buildVirtualServerRoutes o vs = (vsrs, selectors, ws) →
  NoDup (vsrNsName <$> vsrs) ∧ NoDup (normPathOf <$> allSubroutes vsrs) ∧
  (∀ vsr, vsr ∈ vsrs → validFor vsr) ∧
  (∀ sel keys k, selectors !! sel = Some keys → k ∈ keys → k ∈ vsrNsName <$> vsrs).
Proof.
  unfold buildVirtualServerRoutes.
  pose proof (classifyRoutes_valid (vs_Routes vs) [] 0
    {| col_vsrs := []; col_regexEntries := ∅; col_vsrSelectors := ∅; col_warnings := [] |} ∅ ∅ eq_refl) as Hcol.
  cbv zeta in Hcol. fold (classifyAndCollectVSRs o vs) in Hcol. set (col := classifyAndCollectVSRs o vs) in *.
  destruct Hcol as [Hc1 [sp Hc2]]; [simpl; set_solver|split; simpl; set_solver|].
  pose proof (λ v, regexVSRs_valid (col_regexEntries col) sp v Hc2) as Hregex.
  destruct (validateAndBuildRegexVSRs vs (col_regexEntries col) (vs_Host vs)) as [rv rw]. simpl in Hregex.
  pose proof (deduplicateVSRs_spec (om_Namespace (vs_Meta vs)) (om_Name (vs_Meta vs)) ∅
                (col_vsrs col ++ rv)) as Hdd.
  unfold deduplicateVSRSlice. destruct (deduplicateVSRs _ _ ∅ (col_vsrs col ++ rv)) as [dv dw].
  simpl in Hdd. destruct Hdd as (Hsub & Hnd & _).
  assert (NoDup (vsrKeyWithKind <$> dv)) as Hndk.
  { assert (vsrKeyWithKind <$> dv = (λ k, "VirtualServerRoute/" +:+ k) <$> (vsrNsName <$> dv)) as ->
      by (rewrite <- list_fmap_compose; by apply list_fmap_ext).
    apply NoDup_fmap_inj_on; [|done]. intros x y _ _. apply string_app_inj_l. }
  pose proof (validateDuplicateVSRPaths_spec dv Hndk) as Hpaths.
  destruct (validateDuplicateVSRPaths dv) as [fv fw]. simpl in Hpaths. destruct Hpaths as [Hsub2 Hnp].
  intros [= <- <- <-]. split_and!.
  - eapply sublist_NoDup; [exact Hnd|]. by apply fmap_sublist.
  - done.
  - intros vsr Hv. assert (vsr ∈ col_vsrs col ++ rv) as [?|?]%elem_of_app; [|by apply Hc1|by apply Hregex].
    eapply elem_of_submseteq; [exact Hv|]. apply sublist_submseteq. by trans dv.
  - intros sel keys k. unfold syncVSRSelectors. rewrite lookup_fmap.
    intros (ks & _ & ->)%fmap_Some [Hk _]%list_elem_of_filter. done.
Qed.
End Kept.
