(* ===== verification/Hosts.v ===== *)
(** The host map: buildHostsAndResources, the cert-manager challenge Ingresses
    it converts, and updateActiveHostsForIngresses
    (internal/k8s/configuration.go). *)
From S2P Require Import Prelude GoStrings Objects ProxyBuffers Resources ConfigState Minions.
From S2P Require Import VSRoutes.

(** ** Challenge Ingresses *)

(** Configuration.isChallengeIngress *)
Definition isChallenge (fl : Flags) (ing : Ingress) : bool :=
  f_isCertManagerEnabled fl && isChallengeIngress ing.

(** isChallengeIngressOwnerVs *)
Definition isChallengeIngressOwnerVs (o : Objects) (host : string) : bool :=
  existsb (λ key, match o_virtualServers o !! key with
                  | Some vs => bool_decide (host = vs_Host vs)
                  | None => false
                  end) (sortedKeys (o_virtualServers o)).

(** The VirtualServerRoute literal of convertIngressToVSR.  The port number is
    an int32 converted to uint16. *)
Definition challengeVSR (ing : Ingress) (rule : IngressRule) (p : HTTPIngressPath)
    (svc : IngressServiceBackend) : VirtualServerRoute :=
  {| vsr_Meta := {| om_Namespace := om_Namespace (ing_Meta ing); om_Name := om_Name (ing_Meta ing);
                    om_UID := ""; om_CreationTimestamp := 0; om_Generation := 0;
                    om_Annotations := None; om_Labels := ∅ |};
     vsr_IngressClass := ""; vsr_Host := ir_Host rule;
     vsr_Upstreams := [ plainUpstream "challenge" (isb_Name svc) (isb_PortNumber svc mod 2 ^ 16)%Z ];
     vsr_Subroutes := [ passRoute (ip_Path p) "challenge" ] |}.

(** convertIngressToVSR: the outer option is a panic, the inner one the nil VSR *)
Definition convertIngressToVSR (o : Objects) (ing : Ingress) : option (option VirtualServerRoute) :=
  rule ← head (ing_Rules ing);
  if negb (isChallengeIngressOwnerVs o (ir_Host rule)) then Some None
  else
    paths ← ir_HTTP rule;
    p ← head paths;
    svc ← ib_Service (ip_Backend p);
    Some (Some (challengeVSR ing rule p svc)).

(** ** Hosts *)

Definition hostWarning (host : string) : string := "host " +:+ host +:+ " is taken by another resource".

(** A resource claims a host: the holder keeps it if it wins, else the newcomer
    takes it; the loser gets a warning. *)
Definition takeHost (l : loc) (st : store * gmap string loc) (host : string)
    : option (store * gmap string loc) :=
  let '(h, newHosts) := st in
  match newHosts !! host with
  | None => Some (h, <[host := l]> newHosts)
  | Some hl =>
      holder ← h !! hl;
      resource ← h !! l;
      if negb (Wins holder resource)
      then Some (AddWarning hl (hostWarning host) h, <[host := l]> newHosts)
      else Some (AddWarning l (hostWarning host) h, newHosts)
  end.

(** The state of buildHostsAndResources: the store, newHosts and newResources. *)
Record buildState := {
  b_store : store;
  b_hosts : gmap string loc;
  b_resources : gmap string loc
}.

(** A new resource object: allocated, entered in newResources, and its hosts
    claimed in order. *)
Definition addResource (st : buildState) (r : Resource) : option buildState :=
  let l := length (b_store st) in
  '(h, hosts) ← foldM (takeHost l) (b_store st ++ [r], b_hosts st) (claimsOf r);
  Some {| b_store := h; b_hosts := hosts;
          b_resources := <[GetKeyWithKind r := l]> (b_resources st) |}.

Section Build.
Context `{MR : MapRange} `{V : Validators} `{LS : LabelSelectors}.
Variable fl : Flags.
Variable o : Objects.

(** The IngressConfiguration of a regular or master Ingress *)
Definition ingressResource (ing : Ingress) : option Resource :=
  if isMaster ing then
    rule ← head (ing_Rules ing);
    '(minions, childWarnings) ← buildMinionConfigs o (ir_Host rule);
    Some (RIngress (NewMasterIngressConfiguration ing minions childWarnings))
  else Some (RIngress (NewRegularIngressConfiguration ing)).

(** Step 1: one Ingress *)
Definition addIngress (st : buildState * list VirtualServerRoute) (key : string)
    : option (buildState * list VirtualServerRoute) :=
  let '(b, challengesVSR) := st in
  ing ← o_ingresses o !! key;
  if isMinion ing then Some st
  else
    converted ← (if isChallenge fl ing then convertIngressToVSR o ing else Some None);
    match converted with
    | Some vsr => Some (b, challengesVSR ++ [vsr])
    | None =>
        r ← ingressResource ing;
        b' ← addResource b r;
        Some (b', challengesVSR)
    end.

(** The VirtualServerConfiguration of a VirtualServer *)
Definition virtualServerResource (challengesVSR : list VirtualServerRoute) (vs : VirtualServer)
    : Resource :=
  let '(vsrs, vsrSelectors, warnings) := buildVirtualServerRoutes o vs in
  let vsrs := vsrs ++ filter (λ vsr, vs_Host vs = vsr_Host vsr) challengesVSR in
  RVirtualServer (buildListenersForVSConfiguration o
    (NewVirtualServerConfiguration vs vsrs vsrSelectors warnings)).

(** Step 2: one VirtualServer *)
Definition addVirtualServer (challengesVSR : list VirtualServerRoute) (b : buildState)
    (key : string) : option buildState :=
  vs ← o_virtualServers o !! key;
  addResource b (virtualServerResource challengesVSR vs).

(** Step 3: one TransportServer *)
Definition addTLSPassthrough (b : buildState) (key : string) : option buildState :=
  ts ← o_transportServers o !! key;
  if negb (bool_decide (tsl_Name (ts_Listener ts) = TLSPassthroughListenerName))
     && negb (bool_decide (tsl_Protocol (ts_Listener ts) = TLSPassthroughListenerProtocol))
  then Some b
  else addResource b (RTransportServer (NewTransportServerConfiguration ts)).

(** buildHostsAndResources; new objects are allocated in the store [h] *)
Definition buildHostsAndResources (h : store) : option buildState :=
  '(b1, challengesVSR) ← foldM addIngress ({| b_store := h; b_hosts := ∅; b_resources := ∅ |}, [])
                           (sortedKeys (o_ingresses o));
  b2 ← foldM (addVirtualServer challengesVSR) b1 (sortedKeys (o_virtualServers o));
  if f_isTLSPassthroughEnabled fl
  then foldM addTLSPassthrough b2 (sortedKeys (o_transportServers o))
  else Some b2.
End Build.

(** ** updateActiveHostsForIngresses *)

Definition setValidHost (host : string) (b : bool) (r : Resource) : Resource :=
  match r with
  | RIngress ic => RIngress
      {| ic_Ingress := ic_Ingress ic; ic_IsMaster := ic_IsMaster ic; ic_Minions := ic_Minions ic;
         ic_ValidHosts := <[host := b]> (ic_ValidHosts ic);
         ic_Warnings := ic_Warnings ic; ic_ChildWarnings := ic_ChildWarnings ic |}
  | _ => r
  end.

(** One host of one Ingress; [None] is the nil dereference of hosts[rule.Host] *)
Definition updateActiveHost (hosts : gmap string loc) (l : loc) (h : store) (host : string)
    : option store :=
  hl ← hosts !! host;
  res ← h !! hl;
  r ← h !! l;
  Some (alter (setValidHost host (bool_decide (GetKeyWithKind res = GetKeyWithKind r))) l h).

Definition updateActiveHostsForResource (hosts : gmap string loc) (h : store) (e : string * loc)
    : option store :=
  r ← h !! e.2;
  match r with
  | RIngress _ => foldM (updateActiveHost hosts e.2) h (claimsOf r)
  | _ => Some h
  end.

Definition updateActiveHostsForIngresses `{MapRange} (hosts : gmap string loc)
    (resources : gmap string loc) (h : store) : option store :=
  foldM (updateActiveHostsForResource hosts) h
    (range "updateActiveHostsForIngresses" resources).

(** ** Abstract specification of host ownership

    Every object asks for some hosts; a claimant is its key, its meta and its
    hosts, and the owner of a host is found by letting the claimants take it
    one after the other. *)
Record claimant := {
  cl_key : string;
  cl_meta : ObjectMeta;
  cl_hosts : list string
}.

Definition claimantOf (r : Resource) : claimant :=
  {| cl_key := GetKeyWithKind r; cl_meta := GetObjectMeta r; cl_hosts := claimsOf r |}.

Abbreviation owner := (string * ObjectMeta)%type (only parsing).

Definition absTake (c : claimant) (m : gmap string owner) (host : string) : gmap string owner :=
  match m !! host with
  | Some holder =>
      if chooseObjectMetaWinner holder.2 (cl_meta c) then m
      else <[host := (cl_key c, cl_meta c)]> m
  | None => <[host := (cl_key c, cl_meta c)]> m
  end.

Definition absAdd (m : gmap string owner) (c : claimant) : gmap string owner :=
  foldl (absTake c) m (cl_hosts c).

Definition absHosts (cs : list claimant) : gmap string owner := foldl absAdd ∅ cs.

(** The Ingresses that are converted into a VSR of a VirtualServer. *)
Definition isConverted (fl : Flags) (o : Objects) (ing : Ingress) : bool :=
  isChallenge fl ing &&
  match head (ing_Rules ing) with
  | Some r => isChallengeIngressOwnerVs o (ir_Host r)
  | None => false
  end.

(** The claimants of a configuration: regular and master Ingresses that are not
    converted, then VirtualServers, then TLS Passthrough TransportServers. *)
Definition ingressClaimant (fl : Flags) (o : Objects) (key : string) : option claimant :=
  ing ← o_ingresses o !! key;
  if isMinion ing || isConverted fl o ing then None
  else Some {| cl_key := getResourceKeyWithKind ingressKind (ing_Meta ing);
               cl_meta := ing_Meta ing; cl_hosts := ir_Host <$> ing_Rules ing |}.

Definition vsClaimant (o : Objects) (key : string) : option claimant :=
  vs ← o_virtualServers o !! key;
  Some {| cl_key := getResourceKeyWithKind virtualServerKind (vs_Meta vs);
          cl_meta := vs_Meta vs; cl_hosts := [vs_Host vs] |}.

Definition tsClaimant (o : Objects) (key : string) : option claimant :=
  ts ← o_transportServers o !! key;
  if negb (bool_decide (tsl_Name (ts_Listener ts) = TLSPassthroughListenerName))
     && negb (bool_decide (tsl_Protocol (ts_Listener ts) = TLSPassthroughListenerProtocol))
  then None
  else Some {| cl_key := getResourceKeyWithKind transportServerKind (ts_Meta ts);
               cl_meta := ts_Meta ts; cl_hosts := [ts_Host ts] |}.

Definition hostClaimants (fl : Flags) (o : Objects) : list claimant :=
  omap (ingressClaimant fl o) (sortedKeys (o_ingresses o))
  ++ omap (vsClaimant o) (sortedKeys (o_virtualServers o))
  ++ (if f_isTLSPassthroughEnabled fl
      then omap (tsClaimant o) (sortedKeys (o_transportServers o)) else []).

(** *** Properties of the specification *)

Definition claims (cs : list claimant) (c : claimant) (host : string) : Prop :=
  c ∈ cs ∧ host ∈ cl_hosts c.

Record abs_ok (m : gmap string owner) (C : claimant → string → Prop) : Prop := {
  ao_owner : ∀ host k mt, m !! host = Some (k, mt) →
    ∃ c, C c host ∧ cl_key c = k ∧ cl_meta c = mt;
  ao_best : ∀ c host, C c host → ∃ k mt,
    m !! host = Some (k, mt) ∧ chooseObjectMetaWinner (cl_meta c) mt = false
}.

Lemma absTake_ok m C c host :
  abs_ok m C → abs_ok (absTake c m host) (λ c' h', C c' h' ∨ (c' = c ∧ h' = host)).
Proof.
  intros [Ho Hb].
  assert (abs_ok (<[host := (cl_key c, cl_meta c)]> m) (λ c' h', (C c' h' ∧ h' ≠ host) ∨
     (c' = c ∧ h' = host))) as Hins.
  { split.
    - intros h' k mt [[<- [= <- <-]]|[Hne Hm]]%lookup_insert_Some; [eauto 10|].
      destruct (Ho _ _ _ Hm) as (c' & ? & ? & ?). exists c'. eauto.
    - intros c' h' [[HC Hne]|[-> ->]].
      + rewrite lookup_insert_ne by done. by apply Hb.
      + rewrite lookup_insert_eq. eexists _, _. split; [done|apply choose_irrefl]. }
  unfold absTake. destruct (m !! host) as [[k0 m0]|] eqn:Hm; simpl.
  - destruct (chooseObjectMetaWinner m0 (cl_meta c)) eqn:Hw.
    + split.
      * intros h' k mt Hm'. destruct (Ho _ _ _ Hm') as (c' & ? & ?). eauto.
      * intros c' h' [HC|[-> ->]]; [by apply Hb|].
        exists k0, m0. split; [done|]. by apply choose_asym.
    + destruct Hins as [Ho' Hb']. split.
      * intros h' k mt Hm'. destruct (Ho' _ _ _ Hm') as (c' & [[? ?]|?] & ?); eauto.
      * intros c' h' [HC|?]; [|by apply Hb'; right].
        destruct (decide (h' = host)) as [->|Hne]; [|by apply Hb'; left].
        destruct (Hb _ _ HC) as (k1 & m1 & Hm1 & Hw1). simplify_eq.
        rewrite lookup_insert_eq. eexists _, _. split; [done|]. by eapply choose_neg_trans.
  - destruct Hins as [Ho' Hb']. split.
    + intros h' k mt Hm'. destruct (Ho' _ _ _ Hm') as (c' & [[? ?]|?] & ?); eauto.
    + intros c' h' [HC|?]; [|by apply Hb'; right].
      apply Hb'. left. split; [done|]. intros ->.
      destruct (Hb _ _ HC) as (? & ? & ? & _). congruence.
Qed.

Lemma abs_ok_iff m (C C' : claimant → string → Prop) :
  (∀ c h, C c h ↔ C' c h) → abs_ok m C → abs_ok m C'.
Proof.
  intros Hiff [Ho Hb]. split.
  - intros h k mt (c & HC & ?)%Ho. exists c. by rewrite <- Hiff.
  - intros c h HC. apply Hb. by apply Hiff.
Qed.

Lemma absAdd_ok m C c :
  abs_ok m C → abs_ok (absAdd m c) (λ c' h', C c' h' ∨ (c' = c ∧ h' ∈ cl_hosts c)).
Proof.
  intros Hok. unfold absAdd.
  apply (foldl_prefix_ind (λ pre x, abs_ok x (λ c' h', C c' h' ∨ (c' = c ∧ h' ∈ pre)))).
  - eapply abs_ok_iff; [|exact Hok]. set_solver.
  - intros pre host post x _ Hx. eapply abs_ok_iff; [|by apply absTake_ok].
    intros c' h'. simpl. rewrite elem_of_app, list_elem_of_singleton. tauto.
Qed.

Lemma absHosts_ok cs : abs_ok (absHosts cs) (claims cs).
Proof.
  unfold absHosts.
  apply (foldl_prefix_ind (λ pre x, abs_ok x (claims pre))).
  - split; [intros h k mt H; by rewrite lookup_empty in H|]. intros c h [Hc _]. set_solver.
  - intros pre c post x _ Hx. eapply abs_ok_iff; [|by apply absAdd_ok].
    intros c' h'. unfold claims. simpl. rewrite elem_of_app, list_elem_of_singleton.
    naive_solver.
Qed.

(** ** The build refines the specification *)

Definition validHostsOf (r : Resource) : gmap string bool :=
  match r with RIngress ic => ic_ValidHosts ic | _ => ∅ end.

(** The store [h] is the old store [h0], untouched, followed by the new
    resources [rs], changed at most in their warnings. *)
Record store_rel (h0 : store) (rs : list Resource) (h : store) : Prop := {
  sr_length : length h = length h0 + length rs;
  sr_old : ∀ l, l < length h0 → h !! l = h0 !! l;
  sr_new : ∀ i r, rs !! i = Some r → ∃ r', h !! (length h0 + i) = Some r' ∧
    core r' = core r ∧ validHostsOf r' = validHostsOf r
}.

(** The host map [hosts] points to new resources that claim their hosts, and
    gives the owners of [m]. *)
Definition hosts_rel (n : nat) (rs : list Resource) (hosts : gmap string loc)
    (m : gmap string owner) : Prop :=
  ∀ host, match hosts !! host with
          | Some l => ∃ i r, l = n + i ∧ rs !! i = Some r ∧ host ∈ claimsOf r ∧
                        m !! host = Some (GetKeyWithKind r, GetObjectMeta r)
          | None => m !! host = None
          end.

Definition resources_rel (n : nat) (rs : list Resource) (resources : gmap string loc) : Prop :=
  ∀ k l, resources !! k = Some l ↔
    ∃ i r, l = n + i ∧ rs !! i = Some r ∧ GetKeyWithKind r = k.

Record build_rel (h0 : store) (rs : list Resource) (b : buildState) (m : gmap string owner) : Prop := {
  br_store : store_rel h0 rs (b_store b);
  br_hosts : hosts_rel (length h0) rs (b_hosts b) m;
  br_resources : resources_rel (length h0) rs (b_resources b)
}.

Lemma validHostsOf_addWarning w r : validHostsOf (addWarning w r) = validHostsOf r.
Proof. by destruct r. Qed.

Section Simulation.
Variable h0 : store.
Abbreviation n := (length h0) (only parsing).
Implicit Types (rs : list Resource) (h : store) (hosts : gmap string loc).

Lemma store_rel_AddWarning rs h j w :
  store_rel h0 rs h → store_rel h0 rs (AddWarning (n + j) w h).
Proof.
  intros [Hlen Hold Hnew]. unfold AddWarning. split.
  - by rewrite length_alter.
  - intros l Hl. rewrite list_lookup_alter_ne by lia. by apply Hold.
  - intros i r Hi. destruct (Hnew i r Hi) as (r' & Hr' & Hc & Hv).
    destruct (decide (j = i)) as [->|].
    + rewrite list_lookup_alter_eq, Hr'. eexists. split; [done|].
      by rewrite core_addWarning, validHostsOf_addWarning.
    + rewrite list_lookup_alter_ne by lia. eauto.
Qed.

Lemma hosts_rel_insert rs hosts m host i r :
  hosts_rel n rs hosts m → rs !! i = Some r → host ∈ claimsOf r →
  hosts_rel n rs (<[host := n + i]> hosts) (<[host := (GetKeyWithKind r, GetObjectMeta r)]> m).
Proof.
  intros Hrel Hi Hin host'. destruct (decide (host = host')) as [<-|Hne].
  - rewrite !lookup_insert_eq. eauto 10.
  - rewrite !lookup_insert_ne by done. apply Hrel.
Qed.

Lemma takeHost_sim rs h hosts m i r host :
  store_rel h0 rs h → hosts_rel n rs hosts m → rs !! i = Some r → host ∈ claimsOf r →
  ∃ h' hosts', takeHost (n + i) (h, hosts) host = Some (h', hosts') ∧
    store_rel h0 rs h' ∧ hosts_rel n rs hosts' (absTake (claimantOf r) m host).
Proof.
  intros Hs Hh Hi Hin. pose proof (Hh host) as Hhost. unfold takeHost, absTake.
  destruct (hosts !! host) as [hl|] eqn:Hl.
  - destruct Hhost as (j & rj & -> & Hj & _ & Hm). rewrite Hm.
    destruct (sr_new _ _ _ Hs j rj Hj) as (holder & Hholder & Hc & _).
    destruct (sr_new _ _ _ Hs i r Hi) as (r' & Hr' & Hc' & _).
    rewrite Hholder. simpl. rewrite Hr'. simpl. rewrite (core_wins _ _ _ _ Hc Hc').
    unfold Wins. destruct (chooseObjectMetaWinner _ _); simpl;
      eexists _, _; (split; [done|]); split; auto using store_rel_AddWarning.
    by apply hosts_rel_insert.
  - rewrite Hhost. eexists _, _. split; [done|]. split; [done|]. by apply hosts_rel_insert.
Qed.

Lemma takeHosts_sim rs h hosts m i r :
  store_rel h0 rs h → hosts_rel n rs hosts m → rs !! i = Some r →
  ∃ h' hosts', foldM (takeHost (n + i)) (h, hosts) (claimsOf r) = Some (h', hosts') ∧
    store_rel h0 rs h' ∧ hosts_rel n rs hosts' (absAdd m (claimantOf r)).
Proof.
  intros Hs Hh Hi. unfold absAdd. change (cl_hosts (claimantOf r)) with (claimsOf r).
  destruct (foldM_prefix_ind (λ pre st, store_rel h0 rs st.1 ∧
      hosts_rel n rs st.2 (foldl (absTake (claimantOf r)) m pre))
    (takeHost (n + i)) (claimsOf r) (h, hosts)) as ([h' hosts'] & Hf & Hs' & Hh'); [done| |eauto].
  intros pre host post [h1 hosts1] Hc [Hs1 Hh1]. rewrite foldl_app. simpl in *.
  destruct (takeHost_sim rs h1 hosts1 (foldl (absTake (claimantOf r)) m pre) i r host)
    as (h2 & hosts2 & ? & ? & ?); [done..|rewrite Hc; set_solver|]. by exists (h2, hosts2).
Qed.

Lemma store_rel_snoc rs h r : store_rel h0 rs h → store_rel h0 (rs ++ [r]) (h ++ [r]).
Proof.
  intros [Hlen Hold Hnew]. split.
  - rewrite !length_app. simpl. lia.
  - intros l Hl. rewrite lookup_app_l by lia. by apply Hold.
  - intros i x [Hi|[Hge Hi]]%lookup_app_Some.
    + destruct (Hnew i x Hi) as (r' & Hr' & ?). exists r'. split; [|done].
      by apply lookup_app_l_Some.
    + apply list_lookup_singleton_Some in Hi as [Hz <-]. exists r. split; [|done].
      apply lookup_app_Some. right. split; [lia|]. by replace (_ - _) with 0 by lia.
Qed.

Lemma hosts_rel_snoc rs hosts m r : hosts_rel n rs hosts m → hosts_rel n (rs ++ [r]) hosts m.
Proof.
  intros Hrel host. specialize (Hrel host). destruct (hosts !! host); [|done].
  destruct Hrel as (i & x & ? & Hi & ?). exists i, x. split; [done|].
  split; [by apply lookup_app_l_Some|done].
Qed.

Lemma resources_rel_snoc rs resources r :
  GetKeyWithKind r ∉ GetKeyWithKind <$> rs → resources_rel n rs resources →
  resources_rel n (rs ++ [r]) (<[GetKeyWithKind r := n + length rs]> resources).
Proof.
  intros Hfresh Hrel k l. split.
  - intros [[<- <-]|[Hne (i & x & -> & Hi & Hk)%Hrel]]%lookup_insert_Some.
    + exists (length rs), r. split; [done|]. split; [|done].
      apply lookup_app_Some. right. by rewrite Nat.sub_diag.
    + exists i, x. split; [done|]. split; [by apply lookup_app_l_Some|done].
  - intros (i & x & -> & [Hi|[Hge Hi]]%lookup_app_Some & <-).
    + rewrite lookup_insert_ne; [apply Hrel; eauto|]. intros Heq. apply Hfresh.
      rewrite Heq. apply list_elem_of_fmap. exists x. split; [done|]. by eapply list_elem_of_lookup_2.
    + apply list_lookup_singleton_Some in Hi as [Hz <-].
      replace i with (length rs) by lia. by rewrite lookup_insert_eq.
Qed.

(** One resource: a step of the build is a step of the specification. *)
Lemma addResource_sim rs b m r :
  build_rel h0 rs b m → GetKeyWithKind r ∉ GetKeyWithKind <$> rs →
  ∃ b', addResource b r = Some b' ∧ build_rel h0 (rs ++ [r]) b' (absAdd m (claimantOf r)).
Proof.
  intros [Hs Hh Hr] Hfresh. unfold addResource.
  rewrite (sr_length _ _ _ Hs).
  destruct (takeHosts_sim (rs ++ [r]) (b_store b ++ [r]) (b_hosts b) m (length rs) r)
    as (h' & hosts' & Hf & Hs' & Hh').
  - by apply store_rel_snoc.
  - by apply hosts_rel_snoc.
  - apply lookup_app_Some. right. by rewrite Nat.sub_diag.
  - rewrite Hf. simpl. eexists. split; [done|]. split; simpl; [done|done|].
    by apply resources_rel_snoc.
Qed.

Lemma addResources_sim rs rs2 b m :
  build_rel h0 rs b m → NoDup (GetKeyWithKind <$> rs ++ rs2) →
  ∃ b', foldM addResource b rs2 = Some b' ∧
    build_rel h0 (rs ++ rs2) b' (foldl absAdd m (claimantOf <$> rs2)).
Proof.
  revert rs b m. induction rs2 as [|r rs2 IH]; intros rs b m Hb Hnd; simpl.
  - exists b. by rewrite app_nil_r.
  - assert (GetKeyWithKind r ∉ GetKeyWithKind <$> rs) as Hfresh.
    { rewrite fmap_app in Hnd. apply NoDup_app in Hnd as (_ & Hd & _).
      intros Hin. apply (Hd _ Hin). rewrite fmap_cons. set_solver. }
    destruct (addResource_sim rs b m r Hb Hfresh) as (b1 & -> & Hb1). simpl.
    destruct (IH (rs ++ [r]) b1 _ Hb1) as (b2 & Hf & Hb2).
    { by rewrite <- app_assoc. }
    exists b2. split; [done|]. by rewrite <- app_assoc in Hb2.
Qed.
End Simulation.

(** *** The resources a build creates, as a function of the objects *)
Section NewResources.
Context `{MR : MapRange} `{V : Validators} `{LS : LabelSelectors}.
Variable fl : Flags.
Variable o : Objects.

Definition newIngressResource (key : string) : option Resource :=
  ing ← o_ingresses o !! key;
  if isMinion ing || isConverted fl o ing then None else ingressResource o ing.

Definition challengeOf (key : string) : option VirtualServerRoute :=
  ing ← o_ingresses o !! key;
  if negb (isMinion ing) && isChallenge fl ing
  then mjoin (convertIngressToVSR o ing) else None.

Definition challenges : list VirtualServerRoute :=
  omap challengeOf (sortedKeys (o_ingresses o)).

Definition newVSResource (key : string) : option Resource :=
  vs ← o_virtualServers o !! key; Some (virtualServerResource o challenges vs).

Definition newTSResource (key : string) : option Resource :=
  ts ← o_transportServers o !! key;
  if negb (bool_decide (tsl_Name (ts_Listener ts) = TLSPassthroughListenerName))
     && negb (bool_decide (tsl_Protocol (ts_Listener ts) = TLSPassthroughListenerProtocol))
  then None else Some (RTransportServer (NewTransportServerConfiguration ts)).

Definition newResourceList : list Resource :=
  omap newIngressResource (sortedKeys (o_ingresses o))
  ++ omap newVSResource (sortedKeys (o_virtualServers o))
  ++ (if f_isTLSPassthroughEnabled fl
      then omap newTSResource (sortedKeys (o_transportServers o)) else []).

Hypothesis Hwf : wf_objects o.
Hypothesis Hidx : index_ok (o_ingresses o) (o_minionsByHost o).

Lemma challenge_cases ing :
  wf_ingress ing →
  (if isChallenge fl ing then convertIngressToVSR o ing else Some None) =
  Some (if isConverted fl o ing then mjoin (convertIngressToVSR o ing) else None) ∧
  (isConverted fl o ing = true → is_Some (mjoin (convertIngressToVSR o ing))).
Proof.
  intros Hing. unfold isConverted. destruct (isChallenge fl ing) eqn:Hch; [|done]. simpl.
  unfold isChallenge in Hch. apply andb_true_iff in Hch as [_ Hch].
  destruct (wf_challenge _ Hing Hch) as (r & p & svc & Hr & Hp & Hsvc).
  unfold convertIngressToVSR. rewrite Hr. simpl.
  destruct (isChallengeIngressOwnerVs o (ir_Host r)); simpl; [|done].
  rewrite Hp. simpl. rewrite Hsvc. simpl. eauto.
Qed.

Lemma ingressResource_total ing :
  wf_ingress ing → ∃ r, ingressResource o ing = Some r ∧
    (∃ ic, r = RIngress ic ∧ ic_Ingress ic = ing ∧ ic_ValidHosts ic = ∅).
Proof.
  intros Hing. unfold ingressResource. destruct (isMaster ing); [|eauto 10].
  destruct (ing_Rules ing) as [|r rs] eqn:Hr; [by destruct (wf_rules _ Hing)|]. simpl.
  destruct (buildMinionConfigs_total o (ir_Host r) Hwf Hidx) as [[ms cw] ->]. simpl. eauto 10.
Qed.

(** The loop over the Ingresses. *)
Lemma addIngresses_eq b ch l :
  (∀ k, k ∈ l → is_Some (o_ingresses o !! k)) →
  foldM (addIngress fl o) (b, ch) l =
  (b' ← foldM addResource b (omap newIngressResource l); Some (b', ch ++ omap challengeOf l)).
Proof.
  revert b ch. induction l as [|k l IH]; intros b ch Hk; simpl; [by rewrite app_nil_r|].
  destruct (Hk k) as [ing Hing]; [set_solver|].
  assert (∀ k, k ∈ l → is_Some (o_ingresses o !! k)) as Hk' by (intros; apply Hk; set_solver).
  unfold newIngressResource at 1, challengeOf at 1. rewrite Hing. simpl.
  destruct (isMinion ing); simpl; [by apply IH|].
  pose proof (wfo_ing _ Hwf _ _ Hing) as Hwfi.
  destruct (challenge_cases ing Hwfi) as [-> Hsome]. simpl.
  assert ((if isChallenge fl ing then mjoin (convertIngressToVSR o ing) else None) =
          (if isConverted fl o ing then mjoin (convertIngressToVSR o ing) else None)) as ->.
  { destruct (challenge_cases ing Hwfi) as [Heq _].
    destruct (isChallenge fl ing) eqn:Hch; [|unfold isConverted; by rewrite Hch].
    rewrite Heq. simpl. by destruct (isConverted fl o ing); simpl; [|done]; destruct (mjoin _). }
  destruct (isConverted fl o ing).
  - destruct Hsome as [v Hv]; [done|]. rewrite Hv. simpl. rewrite (IH b (ch ++ [v]) Hk').
    rewrite <- app_assoc. done.
  - destruct (ingressResource_total ing Hwfi) as (r & -> & _). simpl.
    destruct (addResource b r); simpl; [by apply IH|done].
Qed.

Lemma buildHostsAndResources_eq h :
  buildHostsAndResources fl o h =
  foldM addResource {| b_store := h; b_hosts := ∅; b_resources := ∅ |} newResourceList.
Proof.
  unfold buildHostsAndResources, newResourceList. rewrite !foldM_app.
  rewrite addIngresses_eq by (intros k; by rewrite elem_of_sortedKeys). simpl.
  destruct (foldM addResource _ (omap newIngressResource _)) as [b1|]; [simpl|done].
  rewrite foldM_app. rewrite <- (foldM_omap newVSResource).
  rewrite (foldM_ext (addVirtualServer o _)
    (λ x k, match newVSResource k with Some c => addResource x c | None => Some x end)).
  2: { intros x k [vs Hvs]%elem_of_sortedKeys. unfold addVirtualServer, newVSResource.
       by rewrite Hvs. }
  destruct (foldM _ b1 _) as [b2|]; [simpl|done].
  destruct (f_isTLSPassthroughEnabled fl); [|done]. rewrite <- (foldM_omap newTSResource).
  apply foldM_ext. intros x k [ts Hts]%elem_of_sortedKeys.
  unfold addTLSPassthrough, newTSResource. rewrite Hts. simpl. by case_match.
Qed.

Lemma newIngressResource_claimant key :
  claimantOf <$> newIngressResource key = ingressClaimant fl o key.
Proof.
  unfold newIngressResource, ingressClaimant.
  destruct (o_ingresses o !! key) as [ing|] eqn:Hing; simpl; [|done].
  case_match; [done|].
  destruct (ingressResource_total ing (wfo_ing _ Hwf _ _ Hing)) as (r & -> & ic & -> & Hic & _).
  simpl. unfold claimantOf, GetKeyWithKind, getResourceKeyWithKind. simpl. by rewrite Hic.
Qed.

Lemma newVSResource_claimant key : claimantOf <$> newVSResource key = vsClaimant o key.
Proof.
  unfold newVSResource, vsClaimant. destruct (o_virtualServers o !! key) as [vs|]; [|done]. simpl.
  unfold virtualServerResource. destruct (buildVirtualServerRoutes o vs) as [[vsrs sel] ws].
  unfold claimantOf, GetKeyWithKind, getResourceKeyWithKind, buildListenersForVSConfiguration.
  simpl. by repeat case_match.
Qed.

Lemma newTSResource_claimant key : claimantOf <$> newTSResource key = tsClaimant o key.
Proof.
  unfold newTSResource, tsClaimant. destruct (o_transportServers o !! key) as [ts|]; [|done]. simpl.
  by case_match.
Qed.

Lemma newResourceList_claimants : claimantOf <$> newResourceList = hostClaimants fl o.
Proof.
  unfold newResourceList, hostClaimants. rewrite !fmap_app. f_equal; [|f_equal].
  - rewrite list_fmap_omap. apply omap_ext_in. intros k _. apply newIngressResource_claimant.
  - rewrite list_fmap_omap. apply omap_ext_in. intros k _. apply newVSResource_claimant.
  - destruct (f_isTLSPassthroughEnabled fl); [|done].
    rewrite list_fmap_omap. apply omap_ext_in. intros k _. apply newTSResource_claimant.
Qed.
End NewResources.

(** *** Keys identify resources *)
Lemma NoDup_keyed_omap {A} (key : A → string) (pre : string) (f : string → option A) (l : list string) :
  (∀ k a, f k = Some a → key a = pre +:+ k) → NoDup l → NoDup (key <$> omap f l).
Proof.
  intros Hkey Hnd. induction Hnd as [|k l Hk Hnd IH]; [constructor|]. csimpl.
  destruct (f k) as [a|] eqn:Hf; [|done]. csimpl. apply NoDup_cons. split; [|done].
  intros (a' & Heq & (k' & Hin & Hf')%list_elem_of_omap)%list_elem_of_fmap.
  rewrite (Hkey _ _ Hf), (Hkey _ _ Hf') in Heq. apply string_app_inj_l in Heq. congruence.
Qed.

Lemma ingressClaimant_key fl o key c :
  wf_objects o → ingressClaimant fl o key = Some c → cl_key c = "Ingress/" +:+ key.
Proof.
  intros Hwf. unfold ingressClaimant. destruct (o_ingresses o !! key) as [ing|] eqn:H; simpl; [|done].
  case_match; [done|]. intros [= <-]. simpl. by rewrite (wfo_ing_key _ Hwf _ _ H).
Qed.

Lemma vsClaimant_key o key c :
  wf_objects o → vsClaimant o key = Some c → cl_key c = "VirtualServer/" +:+ key.
Proof.
  intros Hwf. unfold vsClaimant. destruct (o_virtualServers o !! key) as [vs|] eqn:H; simpl; [|done].
  intros [= <-]. simpl. by rewrite (wfo_vs_key _ Hwf _ _ H).
Qed.

Lemma tsClaimant_key o key c :
  wf_objects o → tsClaimant o key = Some c → cl_key c = "TransportServer/" +:+ key.
Proof.
  intros Hwf. unfold tsClaimant. destruct (o_transportServers o !! key) as [ts|] eqn:H; simpl; [|done].
  case_match; [done|]. intros [= <-]. simpl. by rewrite (wfo_ts_key _ Hwf _ _ H).
Qed.

Lemma NoDup_hostClaimants fl o : wf_objects o → NoDup (cl_key <$> hostClaimants fl o).
Proof.
  intros Hwf. unfold hostClaimants. rewrite !fmap_app.
  assert (∀ (f : string → option claimant) (l : list string) pre k, (∀ key c, f key = Some c → cl_key c = pre +:+ key) →
    k ∈ cl_key <$> omap f l → ∃ s, k = pre +:+ s) as Hpre.
  { intros f l pre k Hf (c & -> & (key & _ & Hc)%list_elem_of_omap)%list_elem_of_fmap.
    exists key. by apply Hf. }
  pose proof (λ key c, ingressClaimant_key fl o key c Hwf) as Hi.
  pose proof (λ key c, vsClaimant_key o key c Hwf) as Hv.
  pose proof (λ key c, tsClaimant_key o key c Hwf) as Ht.
  apply NoDup_app; split_and!; [by eapply NoDup_keyed_omap, NoDup_sortedKeys| |].
  - intros k (s & ->)%(Hpre _ _ _ _ Hi) [(s' & Hs)%(Hpre _ _ _ _ Hv)|Hin]%elem_of_app; [done|].
    destruct (f_isTLSPassthroughEnabled fl); [|set_solver].
    by apply (Hpre _ _ _ _ Ht) in Hin as (s' & Hs).
  - apply NoDup_app; split_and!; [by eapply NoDup_keyed_omap, NoDup_sortedKeys| |].
    + intros k (s & ->)%(Hpre _ _ _ _ Hv) Hin. destruct (f_isTLSPassthroughEnabled fl); [|set_solver].
      by apply (Hpre _ _ _ _ Ht) in Hin as (s' & Hs).
    + destruct (f_isTLSPassthroughEnabled fl); [|constructor].
      by eapply NoDup_keyed_omap, NoDup_sortedKeys.
Qed.

Section BuildRefines.
Context `{MR : MapRange} `{V : Validators} `{LS : LabelSelectors}.
Variables (fl : Flags) (o : Objects).
Hypothesis Hwf : wf_objects o.
Hypothesis Hidx : index_ok (o_ingresses o) (o_minionsByHost o).

Lemma NoDup_newResourceList : NoDup (GetKeyWithKind <$> newResourceList fl o).
Proof.
  change GetKeyWithKind with (cl_key ∘ claimantOf). rewrite list_fmap_compose.
  rewrite newResourceList_claimants by done. by apply NoDup_hostClaimants.
Qed.

(** The build succeeds, leaves the old store alone, creates the resources of
    the objects, and its host map is that of the specification. *)
Lemma buildHostsAndResources_refines h :
  ∃ b, buildHostsAndResources fl o h = Some b ∧
       build_rel h (newResourceList fl o) b (absHosts (hostClaimants fl o)).
Proof.
  rewrite buildHostsAndResources_eq by done.
  destruct (addResources_sim h [] (newResourceList fl o)
              {| b_store := h; b_hosts := ∅; b_resources := ∅ |} ∅) as (b & Hb & Hrel).
  - split; simpl; [split; simpl; [lia|done|]|..].
    + intros i r Hi. by rewrite lookup_nil in Hi.
    + intros host. by rewrite lookup_empty.
    + intros k l. rewrite lookup_empty. split; [done|]. intros (i & r & _ & Hi & _).
      by rewrite lookup_nil in Hi.
  - apply NoDup_newResourceList.
  - exists b. split; [done|]. by rewrite newResourceList_claimants in Hrel.
Qed.

(** New resources start without valid hosts. *)
Lemma newResourceList_validHosts r : r ∈ newResourceList fl o → validHostsOf r = ∅.
Proof.
  unfold newResourceList. rewrite !elem_of_app, !list_elem_of_omap.
  intros [(k & _ & Hk)|[(k & _ & Hk)|Hin]].
  - unfold newIngressResource in Hk.
    destruct (o_ingresses o !! k) as [ing|] eqn:Hing; simpl in Hk; [|done]. case_match; [done|].
    destruct (ingressResource_total o Hwf Hidx ing (wfo_ing _ Hwf _ _ Hing))
      as (r' & Hr & ic & -> & _ & Hv). rewrite Hr in Hk. by injection Hk as <-.
  - unfold newVSResource, virtualServerResource in Hk.
    destruct (o_virtualServers o !! k); simpl in Hk; [|done]. case_match_all. done.
  - destruct (f_isTLSPassthroughEnabled fl); [|set_solver].
    apply list_elem_of_omap in Hin as (k & _ & Hk). unfold newTSResource in Hk.
    destruct (o_transportServers o !! k); simpl in Hk; [|done]. case_match; [done|].
    by simplify_eq.
Qed.
End BuildRefines.

(** ** updateActiveHostsForIngresses marks exactly the owned hosts *)

Definition owns (m : gmap string owner) (r : Resource) (host : string) : bool :=
  bool_decide (fst <$> m !! host = Some (GetKeyWithKind r)).

(** The ValidHosts of a resource that claims [hosts]. *)
Definition markHosts (m : gmap string owner) (r : Resource) (hosts : list string)
    : gmap string bool := foldl (λ v host, <[host := owns m r host]> v) ∅ hosts.

Definition activeHosts (m : gmap string owner) (r : Resource) : gmap string bool :=
  match r with RIngress _ => markHosts m r (claimsOf r) | _ => ∅ end.

Lemma lookup_markHosts m r hosts host :
  markHosts m r hosts !! host = if decide (host ∈ hosts) then Some (owns m r host) else None.
Proof.
  unfold markHosts.
  refine (foldl_prefix_ind (λ pre v, v !! host =
    if decide (host ∈ pre) then Some (owns m r host) else None) _ hosts ∅ _ _).
  - by rewrite lookup_empty, decide_False by set_solver.
  - intros pre b post v _ IH. destruct (decide (host = b)) as [->|Hne].
    + rewrite lookup_insert_eq, decide_True; [done|set_solver].
    + rewrite lookup_insert_ne by done. rewrite IH. by repeat case_decide; set_solver.
Qed.

Lemma core_setValidHost host b r : core (setValidHost host b r) = core r.
Proof. by destruct r. Qed.

(** The store while the hosts are marked: [valid] gives the ValidHosts of the
    new resources. *)
Record marked_rel (h0 : store) (rs : list Resource) (valid : nat → Resource → gmap string bool)
    (h : store) : Prop := {
  mr_length : length h = length h0 + length rs;
  mr_old : ∀ l, l < length h0 → h !! l = h0 !! l;
  mr_new : ∀ i r, rs !! i = Some r → ∃ r', h !! (length h0 + i) = Some r' ∧
    core r' = core r ∧ validHostsOf r' = valid i r
}.

Lemma marked_rel_ext h0 rs v v' h :
  (∀ i r, rs !! i = Some r → v i r = v' i r) → marked_rel h0 rs v h → marked_rel h0 rs v' h.
Proof.
  intros Hv [H1 H2 H3]. split; [done|done|]. intros i r Hi.
  destruct (H3 i r Hi) as (r' & ? & ? & ?). exists r'. rewrite <- Hv by done. done.
Qed.

Section Active.
Context `{MR : MapRange}.
Variables (h0 : store) (rs : list Resource) (hosts : gmap string loc) (m : gmap string owner).
Abbreviation n := (length h0) (only parsing).
Hypothesis Hh : hosts_rel n rs hosts m.
Hypothesis Hcl : ∀ i r host, rs !! i = Some r → host ∈ claimsOf r → is_Some (m !! host).

Definition upd (v : nat → Resource → gmap string bool) (i : nat) (x : gmap string bool)
    : nat → Resource → gmap string bool :=
  λ j r, if decide (i = j) then x else v j r.

Lemma updateActiveHost_ok v h i r ic host :
  rs !! i = Some r → r = RIngress ic → host ∈ claimsOf r → marked_rel h0 rs v h →
  ∃ h', updateActiveHost hosts (n + i) h host = Some h' ∧
    marked_rel h0 rs (upd v i (<[host := owns m r host]> (v i r))) h'.
Proof.
  intros Hi Hr Hin [Hlen Hold Hnew]. pose proof (Hh host) as Hhost.
  destruct (Hcl i r host Hi Hin) as [w Hw]. unfold updateActiveHost.
  destruct (hosts !! host) as [hl|]; [|congruence].
  destruct Hhost as (j & rj & -> & Hj & _ & Hm). simpl.
  destruct (Hnew j rj Hj) as (rj' & -> & Hcj & _). simpl.
  destruct (Hnew i r Hi) as (r' & Hr' & Hc & Hv). rewrite Hr'. simpl.
  eexists. split; [done|].
  assert (bool_decide (GetKeyWithKind rj' = GetKeyWithKind r') = owns m r host) as ->.
  { unfold owns. rewrite Hm, (core_key _ _ Hcj), (core_key _ _ Hc). simpl.
    apply bool_decide_ext. split; congruence. }
  split.
  - by rewrite length_alter.
  - intros l Hl. rewrite list_lookup_alter_ne by lia. by apply Hold.
  - intros k rk Hk. destruct (Hnew k rk Hk) as (rk' & Hrk' & Hck & Hvk). unfold upd.
    destruct (decide (i = k)) as [<-|Hne].
    + simplify_eq. rewrite list_lookup_alter_eq, Hr'. eexists. split; [done|].
      rewrite core_setValidHost. split; [done|].
      destruct r' as [ic'| |]; simpl in Hc; [|done..]. simpl in *. by rewrite Hvk.
    + rewrite list_lookup_alter_ne by lia. eauto.
Qed.

Lemma updateActiveHosts_ok v h i r ic :
  rs !! i = Some r → r = RIngress ic → marked_rel h0 rs v h → v i r = ∅ →
  ∃ h', foldM (updateActiveHost hosts (n + i)) h (claimsOf r) = Some h' ∧
    marked_rel h0 rs (upd v i (activeHosts m r)) h'.
Proof.
  intros Hi Hr Hm Hv0.
  destruct (foldM_prefix_ind (λ pre x, marked_rel h0 rs (upd v i (markHosts m r pre)) x)
    (updateActiveHost hosts (n + i)) (claimsOf r) h) as (h' & Hf & Hok).
  - eapply marked_rel_ext; [|exact Hm]. intros j rj Hj. unfold upd. case_decide; [|done].
    subst. rewrite Hi in Hj. by injection Hj as <-.
  - intros pre host post x Hpre Hx.
    destruct (updateActiveHost_ok (upd v i (markHosts m r pre)) x i r ic host Hi Hr)
      as (x' & Hu & Hx'); [rewrite Hpre; set_solver|done|].
    exists x'. split; [done|]. eapply marked_rel_ext; [|exact Hx'].
    intros j rj Hj. unfold upd. case_decide; [|done]. rewrite decide_True by done.
    unfold markHosts. by rewrite foldl_app.
  - exists h'. split; [done|]. subst r. done.
Qed.

Lemma updateActiveHostsForResource_ok v h k i r :
  rs !! i = Some r → v i r = ∅ → marked_rel h0 rs v h →
  ∃ h', updateActiveHostsForResource hosts h (k, n + i) = Some h' ∧
    marked_rel h0 rs (upd v i (activeHosts m r)) h'.
Proof.
  intros Hi Hv Hm. unfold updateActiveHostsForResource. simpl.
  destruct (mr_new _ _ _ _ Hm i r Hi) as (r' & -> & Hc & _). simpl.
  destruct r' as [ic'| |]; destruct r as [ic| |]; try done.
  - rewrite (core_claims _ _ Hc). by eapply updateActiveHosts_ok.
  - exists h. split; [done|]. eapply marked_rel_ext; [|exact Hm]. intros j rj Hj. unfold upd.
    case_decide; [|done]. simplify_eq. done.
  - exists h. split; [done|]. eapply marked_rel_ext; [|exact Hm]. intros j rj Hj. unfold upd.
    case_decide; [|done]. simplify_eq. done.
Qed.

Lemma updateActiveHostsForIngresses_ok resources h :
  resources_rel n rs resources → store_rel h0 rs h → (∀ r, r ∈ rs → validHostsOf r = ∅) →
  ∃ h', updateActiveHostsForIngresses hosts resources h = Some h' ∧
    marked_rel h0 rs (λ _ r, activeHosts m r) h'.
Proof.
  intros Hres [Hlen Hold Hnew] Hempty. unfold updateActiveHostsForIngresses.
  set (es := range _ resources).
  assert (∀ k l, (k, l) ∈ es ↔ resources !! k = Some l) as Hes by (intros; apply elem_of_range).
  assert (NoDup es.*1) as Hnd by apply NoDup_range_keys.
  set (valid := λ (pre : list (string * loc)) (i : nat) r,
    if decide (GetKeyWithKind r ∈ pre.*1) then activeHosts m r else ∅).
  destruct (foldM_prefix_ind (λ pre x, marked_rel h0 rs (valid pre) x)
    (updateActiveHostsForResource hosts) es h) as (h' & Hf & Hok).
  - split; [done|done|]. intros i r Hi. destruct (Hnew i r Hi) as (r' & ? & ? & Hv).
    exists r'. unfold valid. rewrite decide_False by set_solver. split_and!; [done..|].
    rewrite Hv. apply Hempty. by eapply list_elem_of_lookup_2.
  - intros pre [k l] post x Hpre Hx.
    assert (resources !! k = Some l) as Hkl by (apply Hes; rewrite Hpre; set_solver).
    apply Hres in Hkl as (i & r & -> & Hi & <-).
    assert (GetKeyWithKind r ∉ pre.*1) as Hfresh.
    { intros Hin. rewrite Hpre, fmap_app in Hnd. apply NoDup_app in Hnd as (_ & Hd & _).
      apply (Hd _ Hin). set_solver. }
    destruct (updateActiveHostsForResource_ok (valid pre) x (GetKeyWithKind r) i r)
      as (x' & Hu & Hx'); [done| |done|].
    + unfold valid. by rewrite decide_False.
    + exists x'. split; [done|]. eapply marked_rel_ext; [|exact Hx'].
      intros j rj Hj. unfold upd, valid. rewrite fmap_app. simpl.
      destruct (decide (i = j)) as [<-|Hne].
      * simplify_eq. rewrite decide_True by set_solver. done.
      * assert (GetKeyWithKind rj ≠ GetKeyWithKind r) as Hkne.
        { intros Heq. apply Hne.
          assert (resources !! GetKeyWithKind r = Some (n + i)) by (apply Hres; eauto).
          assert (resources !! GetKeyWithKind r = Some (n + j)) by (apply Hres; eauto).
          simplify_eq. lia. }
        apply decide_ext. set_solver.
  - exists h'. split; [done|]. eapply marked_rel_ext; [|exact Hok]. intros i r Hi. unfold valid.
    rewrite decide_True; [done|]. apply list_elem_of_fmap. exists (GetKeyWithKind r, n + i).
    split; [done|]. apply Hes, Hres. eauto.
Qed.
End Active.
