(* ===== verification/Changes.v ===== *)
(** Changes: the comparison of the old and the new host and listener maps
    (detectChangesInHosts, detectChangesInListenerHosts), the changes they give
    (createResourceChangesForHosts, createResourceChangesForListeners) and
    their reduction to one change per resource (squashResourceChanges), of
    internal/k8s/configuration.go. *)
From S2P Require Import Prelude GoStrings Objects ProxyBuffers Resources ConfigState.

(** Following a pointer stored in a map: [None] is a nil dereference. *)
Definition derefAt `{Countable K} (h : store) (m : gmap K loc) (k : K) : option (loc * Resource) :=
  l ← m !! k; r ← h !! l; Some (l, r).

(** ** Detection *)

(** The number of times a host of both maps is appended to updatedHosts. *)
Definition hostUpdates (oldR newR : Resource) : nat :=
  if negb (IsEqual oldR newR) then 1
  else match newR, oldR with
  | RVirtualServer newVsc, RVirtualServer oldVsc =>
      (if negb (bool_decide (vsc_HTTPPort newVsc = vsc_HTTPPort oldVsc))
          || negb (bool_decide (vsc_HTTPSPort newVsc = vsc_HTTPSPort oldVsc)) then 1 else 0)
      + (if negb (bool_decide (vsc_HTTPIPv4 newVsc = vsc_HTTPIPv4 oldVsc)) then 1 else 0)
      + (if negb (bool_decide (vsc_HTTPIPv6 newVsc = vsc_HTTPIPv6 oldVsc)) then 1 else 0)
  | _, _ => 0
  end.

Definition detectUpdatedHost (h : store) (oldHosts newHosts : gmap string loc)
    (acc : list string) (host : string) : option (list string) :=
  match oldHosts !! host with
  | None => Some acc
  | Some ol =>
      oldR ← h !! ol;
      '(_, newR) ← derefAt h newHosts host;
      Some (acc ++ replicate (hostUpdates oldR newR) host)
  end.

(** detectChangesInHosts: (removedHosts, updatedHosts, addedHosts) *)
Definition detectChangesInHosts (h : store) (oldHosts newHosts : gmap string loc)
    : option (list string * list string * list string) :=
  let removed := filter (λ k, newHosts !! k = None) (sortedKeys oldHosts) in
  let added := filter (λ k, oldHosts !! k = None) (sortedKeys newHosts) in
  updated ← foldM (detectUpdatedHost h oldHosts newHosts) [] (sortedKeys newHosts);
  Some (removed, updated, added).

(** getSortedListenerHostKeys *)
Definition lhk_le (k1 k2 : listenerHostKey) : Prop := String.le (lhk_String k1) (lhk_String k2).
#[export] Instance lhk_le_dec : RelDecision lhk_le.
Proof. unfold lhk_le. solve_decision. Defined.
Definition getSortedListenerHostKeys {A} (m : gmap listenerHostKey A) : list listenerHostKey :=
  merge_sort lhk_le (map_to_list m).*1.

Definition detectUpdatedListener (h : store) (oldLH newLH : gmap listenerHostKey loc)
    (acc : list listenerHostKey) (key : listenerHostKey) : option (list listenerHostKey) :=
  match oldLH !! key with
  | None => Some acc
  | Some ol =>
      oldConfig ← h !! ol;
      '(_, newConfig) ← derefAt h newLH key;
      Some (if negb (IsEqual oldConfig newConfig) then acc ++ [key] else acc)
  end.

(** detectChangesInListenerHosts *)
Definition detectChangesInListenerHosts (h : store) (oldLH newLH : gmap listenerHostKey loc)
    : option (list listenerHostKey * list listenerHostKey * list listenerHostKey) :=
  let removed := filter (λ k, newLH !! k = None) (getSortedListenerHostKeys oldLH) in
  let added := filter (λ k, oldLH !! k = None) (getSortedListenerHostKeys newLH) in
  updated ← foldM (detectUpdatedListener h oldLH newLH) [] (getSortedListenerHostKeys newLH);
  Some (removed, updated, added).

(** ** Creation

    createResourceChangesForHosts and createResourceChangesForListeners have
    the same body over a different key type. *)
Definition mkChange (op : Operation) (l : loc) : ResourceChange :=
  {| rc_Op := op; rc_Resource := l; rc_Error := "" |}.

Section Create.
Context `{Countable K}.
Variable h : store.

Definition changeForRemoved (oldM : gmap K loc) (deletes : list ResourceChange) (k : K)
    : option (list ResourceChange) :=
  '(l, _) ← derefAt h oldM k; Some (deletes ++ [mkChange Delete l]).

Definition changeForUpdated (oldM newM : gmap K loc)
    (st : list ResourceChange * list ResourceChange) (k : K)
    : option (list ResourceChange * list ResourceChange) :=
  let '(deletes, changes) := st in
  '(ol, oldR) ← derefAt h oldM k;
  '(nl, newR) ← derefAt h newM k;
  Some (if negb (bool_decide (GetKeyWithKind oldR = GetKeyWithKind newR))
        then deletes ++ [mkChange Delete ol] else deletes,
        changes ++ [mkChange AddOrUpdate nl]).

Definition changeForAdded (newM : gmap K loc) (changes : list ResourceChange) (k : K)
    : option (list ResourceChange) :=
  '(l, _) ← derefAt h newM k; Some (changes ++ [mkChange AddOrUpdate l]).

Definition createResourceChanges (removed updated added : list K) (oldM newM : gmap K loc)
    : option (list ResourceChange) :=
  deletes ← foldM (changeForRemoved oldM) [] removed;
  '(deletes, changes) ← foldM (changeForUpdated oldM newM) (deletes, []) updated;
  changes ← foldM (changeForAdded newM) changes added;
  Some (deletes ++ changes).
End Create.

Definition createResourceChangesForHosts (h : store) (removed updated added : list string)
    (oldHosts newHosts : gmap string loc) : option (list ResourceChange) :=
  createResourceChanges h removed updated added oldHosts newHosts.

Definition createResourceChangesForListeners (h : store)
    (removed updated added : list listenerHostKey)
    (oldListeners newListeners : gmap listenerHostKey loc) : option (list ResourceChange) :=
  createResourceChanges h removed updated added oldListeners newListeners.

(** ** Squashing *)

Definition changeKey (h : store) (c : ResourceChange) : option string :=
  r ← h !! rc_Resource c; Some (GetKeyWithKind r).

(** First loop: the changes of every resource, in order. *)
Definition groupChange (m : gmap string (list ResourceChange)) (kc : string * ResourceChange)
    : gmap string (list ResourceChange) :=
  <[kc.1 := default [] (m !! kc.1) ++ [kc.2]]> m.

(** Second loop, over (deletes, updates, changesPerResource). *)
Definition squashStep
    (st : list ResourceChange * list ResourceChange * gmap string (list ResourceChange))
    (kc : string * ResourceChange)
    : option (list ResourceChange * list ResourceChange * gmap string (list ResourceChange)) :=
  let '(deletes, updates, changesPerResource) := st in
  match changesPerResource !! kc.1 with
  | None => Some st
  | Some resChanges =>
      squashedChanged ← last resChanges;
      Some (match rc_Op squashedChanged with
            | Delete => (deletes ++ [squashedChanged], updates, delete kc.1 changesPerResource)
            | AddOrUpdate => (deletes, updates ++ [squashedChanged], delete kc.1 changesPerResource)
            end)
  end.

Definition squashKeyed (kcs : list (string * ResourceChange)) : option (list ResourceChange) :=
  '(deletes, updates, _) ← foldM squashStep ([], [], foldl groupChange ∅ kcs) kcs;
  Some (deletes ++ updates).

Definition squashResourceChanges (h : store) (changes : list ResourceChange)
    : option (list ResourceChange) :=
  kcs ← mapM (λ c, k ← changeKey h c; Some (k, c)) changes;
  squashKeyed kcs.

(** The loop of rebuildHosts and rebuildListenerHosts that makes the changes
    refer to the latest version of their resources. *)
Definition refreshChange (h : store) (latest : gmap string loc) (c : ResourceChange)
    : option ResourceChange :=
  key ← changeKey h c;
  Some match latest !! key with
       | Some l => {| rc_Op := rc_Op c; rc_Resource := l; rc_Error := rc_Error c |}
       | None => c
       end.

(** ** Squashing keeps the last change of every resource

    The reference: the keys in the order of their first change, the last change
    of each, the deletions moved to the front. *)
Definition uniqueKeys (ks : list string) : list string :=
  foldl (λ acc k, if decide (k ∈ acc) then acc else acc ++ [k]) [] ks.

Definition changesFor (k : string) (kcs : list (string * ResourceChange)) : list ResourceChange :=
  snd <$> filter (λ kc, kc.1 = k) kcs.

Definition lastChange (kcs : list (string * ResourceChange)) (k : string)
    : option (string * ResourceChange) :=
  c ← last (changesFor k kcs); Some (k, c).

Definition isOp (op : Operation) (kc : string * ResourceChange) : Prop := rc_Op kc.2 = op.
#[export] Instance isOp_dec op kc : Decision (isOp op kc).
Proof. unfold isOp. apply _. Defined.

Definition squashSpec (kcs : list (string * ResourceChange)) : list (string * ResourceChange) :=
  let ls := omap (lastChange kcs) (uniqueKeys kcs.*1) in
  filter (isOp Delete) ls ++ filter (isOp AddOrUpdate) ls.

Lemma uniqueKeys_snoc ks k :
  uniqueKeys (ks ++ [k]) = if decide (k ∈ uniqueKeys ks) then uniqueKeys ks else uniqueKeys ks ++ [k].
Proof. unfold uniqueKeys. by rewrite foldl_app. Qed.

Lemma elem_of_uniqueKeys ks k : k ∈ uniqueKeys ks ↔ k ∈ ks.
Proof.
  induction ks as [|x ks IH] using rev_ind; [done|]. rewrite uniqueKeys_snoc.
  case_decide; set_solver.
Qed.

Lemma NoDup_uniqueKeys ks : NoDup (uniqueKeys ks).
Proof.
  induction ks as [|x ks IH] using rev_ind; [constructor|]. rewrite uniqueKeys_snoc.
  case_decide; [done|]. apply NoDup_app. split_and!; [done|set_solver|apply NoDup_singleton].
Qed.

Lemma changesFor_app k l1 l2 : changesFor k (l1 ++ l2) = changesFor k l1 ++ changesFor k l2.
Proof. unfold changesFor. by rewrite filter_app, fmap_app. Qed.

Lemma changesFor_singleton k k' c :
  changesFor k [(k', c)] = if decide (k' = k) then [c] else [].
Proof. unfold changesFor. rewrite filter_cons, filter_nil. simpl. by case_decide. Qed.

Lemma elem_of_changesFor k c kcs : c ∈ changesFor k kcs ↔ (k, c) ∈ kcs.
Proof.
  unfold changesFor. rewrite list_elem_of_fmap. split.
  - intros ([k' c'] & -> & [Hk Hin]%list_elem_of_filter). simpl in *. by subst.
  - intros Hin. exists (k, c). split; [done|]. by apply list_elem_of_filter.
Qed.

Lemma changesFor_nonempty k kcs : k ∈ kcs.*1 ↔ changesFor k kcs ≠ [].
Proof.
  rewrite list_elem_of_fmap. split.
  - intros ([k' c] & -> & Hin) Hnil. simpl in *.
    apply (elem_of_changesFor k' c) in Hin. rewrite Hnil in Hin. set_solver.
  - intros Hne. destruct (changesFor k kcs) as [|c cs] eqn:Hcs; [done|].
    exists (k, c). split; [done|]. apply elem_of_changesFor. rewrite Hcs. set_solver.
Qed.

Lemma lookup_groupChange kcs k :
  foldl groupChange ∅ kcs !! k =
  match changesFor k kcs with [] => None | cs => Some cs end.
Proof.
  refine (foldl_prefix_ind (λ pre m, m !! k =
    match changesFor k pre with [] => None | cs => Some cs end) _ kcs ∅ _ _).
  - done.
  - intros pre [k' c] post m _ IH. rewrite changesFor_app. unfold groupChange. simpl.
    destruct (decide (k' = k)) as [->|Hne].
    + rewrite lookup_insert_eq, IH, changesFor_singleton, decide_True by done.
      by destruct (changesFor k pre).
    + rewrite lookup_insert_ne, IH, changesFor_singleton, decide_False by done.
      by rewrite app_nil_r.
Qed.

Lemma lastChange_Some kcs k : k ∈ kcs.*1 → ∃ c, lastChange kcs k = Some (k, c).
Proof.
  intros Hne%changesFor_nonempty. unfold lastChange.
  destruct (last (changesFor k kcs)) as [c|] eqn:Hl; [by exists c|]. by apply last_None in Hl.
Qed.

(** The two loops compute the reference. *)
Lemma squashKeyed_eq kcs : squashKeyed kcs = Some (snd <$> squashSpec kcs).
Proof.
  unfold squashKeyed.
  set (ls := λ pre : list (string * ResourceChange), omap (lastChange kcs) (uniqueKeys pre.*1)).
  destruct (foldM_prefix_ind (λ pre st,
      st.1.1 = snd <$> filter (isOp Delete) (ls pre) ∧
      st.1.2 = snd <$> filter (isOp AddOrUpdate) (ls pre) ∧
      ∀ k, st.2 !! k = if decide (k ∈ pre.*1) then None else foldl groupChange ∅ kcs !! k)
    squashStep kcs ([], [], foldl groupChange ∅ kcs)) as ([[ds us] m] & Hf & Hd & Hu & _).
  - split_and!; [done|done|]. intros k. by rewrite decide_False by set_solver.
  - intros pre [k c] post [[ds us] m] Hkcs (Hd & Hu & Hm). simpl in *.
    assert (ls (pre ++ [(k, c)]) = if decide (k ∈ pre.*1) then ls pre
              else ls pre ++ option_list (lastChange kcs k)) as Hls.
    { unfold ls. rewrite fmap_app. simpl. rewrite uniqueKeys_snoc.
      rewrite (decide_ext _ (k ∈ pre.*1)) by apply elem_of_uniqueKeys.
      case_decide; [done|]. rewrite omap_app. f_equal. }
    unfold squashStep. simpl. rewrite Hm. case_decide as Hin.
    + eexists. split; [done|]. simpl. rewrite Hls. split_and!; [done|done|].
      intros k'. rewrite Hm. apply decide_ext. rewrite fmap_app. set_solver.
    + rewrite lookup_groupChange.
      assert (k ∈ kcs.*1) as Hk by (rewrite Hkcs, fmap_app; set_solver).
      destruct (lastChange_Some kcs k Hk) as (c' & Hc'). rewrite Hls, Hc'.
      pose proof Hc' as Hlast. unfold lastChange in Hlast.
      destruct (changesFor k kcs) as [|c0 cs] eqn:Hcs; [done|]. 
      destruct (last (c0 :: cs)) as [c1|]; [|done]. simpl in Hlast. injection Hlast as ->. simpl.
      assert (∀ k', delete k m !! k' = if decide (k' ∈ pre.*1 ++ [k]) then None
                else foldl groupChange ∅ kcs !! k') as Hm'.
      { intros k'. destruct (decide (k = k')) as [<-|Hne].
        - rewrite lookup_delete_eq, decide_True; [done|set_solver].
        - rewrite lookup_delete_ne, Hm by done. apply decide_ext. set_solver. }
      eexists. split; [done|]. rewrite !filter_app, !fmap_app. simpl.
      destruct (rc_Op c') eqn:Hop; simpl; (split_and!; [..|exact Hm']).
      all: rewrite ?filter_cons, ?filter_nil; case_decide as Hx; unfold isOp in Hx; simpl in *;
           rewrite ?app_nil_r; congruence.
  - rewrite Hf. simpl in *. subst. unfold squashSpec. by rewrite fmap_app.
Qed.

Lemma elem_of_squashSpec kcs k c : (k, c) ∈ squashSpec kcs ↔ last (changesFor k kcs) = Some c.
Proof.
  unfold squashSpec. rewrite elem_of_app, !list_elem_of_filter, !list_elem_of_omap.
  assert (∀ k', lastChange kcs k' = Some (k, c) ↔ k' = k ∧ last (changesFor k kcs) = Some c) as Hl.
  { intros k'. unfold lastChange. destruct (last (changesFor k' kcs)) eqn:H; simpl.
    - split; [intros [= -> ->]; done|]. intros [-> ?]. congruence.
    - split; [done|]. intros [-> ?]. congruence. }
  split.
  - intros [[_ (k' & _ & Hk')]|[_ (k' & _ & Hk')]]; by apply Hl in Hk' as [_ ?].
  - intros Hlast. assert (k ∈ uniqueKeys kcs.*1) as Hk.
    { apply elem_of_uniqueKeys, changesFor_nonempty. intros Hnil. by rewrite Hnil in Hlast. }
    assert (∃ k', k' ∈ uniqueKeys kcs.*1 ∧ lastChange kcs k' = Some (k, c)) as Hx.
    { exists k. split; [done|]. by apply Hl. }
    unfold isOp. simpl. destruct (rc_Op c); auto.
Qed.

Lemma NoDup_squashSpec kcs : NoDup (squashSpec kcs).*1.
Proof.
  assert (∀ ks, NoDup ks → NoDup (omap (lastChange kcs) ks).*1) as Hnd.
  { intros ks Hks. induction Hks as [|k ks Hk Hks IH]; [constructor|]. csimpl.
    destruct (lastChange kcs k) as [[k' c]|] eqn:Hl; [|done]. csimpl. apply NoDup_cons. split; [|done].
    unfold lastChange in Hl. destruct (last _); simplify_eq/=.
    intros ([k'' c''] & -> & (k2 & Hin & Hl2)%list_elem_of_omap)%list_elem_of_fmap.
    unfold lastChange in Hl2. destruct (last _) in Hl2; simplify_eq/=. done. }
  specialize (Hnd _ (NoDup_uniqueKeys kcs.*1)). unfold squashSpec.
  set (ls := omap _ _) in *. clearbody ls. rewrite fmap_app. apply NoDup_app. split_and!.
  - eapply sublist_NoDup; [exact Hnd|]. apply fmap_sublist, sublist_filter.
  - intros k ([k1 c1] & -> & [H1 Hin1]%list_elem_of_filter)%list_elem_of_fmap
      ([k2 c2] & Heq & [H2 Hin2]%list_elem_of_filter)%list_elem_of_fmap. simpl in Heq. subst k2.
    assert ((k1, c1) = (k1, c2)) as [= <-].
    { apply list_elem_of_lookup in Hin1 as [i1 Hi1], Hin2 as [i2 Hi2].
      assert (i1 = i2) as <-; [|congruence].
      eapply (NoDup_lookup ls.*1); [done| |]; rewrite list_lookup_fmap.
      - by rewrite Hi1.
      - by rewrite Hi2. }
    unfold isOp in *. simpl in *. congruence.
  - eapply sublist_NoDup; [exact Hnd|]. apply fmap_sublist, sublist_filter.
Qed.

(** Pairing the changes with the keys of their resources. *)
Definition keyed (h : store) (kcs : list (string * ResourceChange)) : Prop :=
  ∀ k c, (k, c) ∈ kcs → changeKey h c = Some k.

Lemma squashResourceChanges_eq h kcs :
  keyed h kcs → squashResourceChanges h (snd <$> kcs) = Some (snd <$> squashSpec kcs).
Proof.
  intros Hk. unfold squashResourceChanges.
  assert (mapM (λ c, k ← changeKey h c; Some (k, c)) kcs.*2 = Some kcs) as ->.
  { apply mapM_fmap_Forall_Some, Forall_forall. intros [k c] Hin. simpl. by rewrite (Hk k c). }
  apply squashKeyed_eq.
Qed.

Lemma keyed_squashSpec h kcs : keyed h kcs → keyed h (squashSpec kcs).
Proof.
  intros Hk k c Hl%elem_of_squashSpec. apply Hk, elem_of_changesFor.
  by apply last_Some_elem_of.
Qed.

(** ** The effect of a list of changes

    The deployed configuration: for the key of a resource, the version of it
    that was handed over last.  A deletion removes the entry, an update sets it. *)
Definition applyChange (h : store) (D : gmap string Resource) (c : ResourceChange)
    : gmap string Resource :=
  match h !! rc_Resource c with
  | None => D
  | Some r =>
      match rc_Op c with
      | Delete => delete (GetKeyWithKind r) D
      | AddOrUpdate => <[GetKeyWithKind r := r]> D
      end
  end.

Definition applyChanges (h : store) (D : gmap string Resource) (cs : list ResourceChange)
    : gmap string Resource := foldl (applyChange h) D cs.

(** What one change leaves at the key of its resource. *)
Definition changeResult (h : store) (c : ResourceChange) : option Resource :=
  match rc_Op c with Delete => None | AddOrUpdate => h !! rc_Resource c end.

Lemma applyChange_lookup h D c k k' :
  changeKey h c = Some k →
  applyChange h D c !! k' = if decide (k' = k) then changeResult h c else D !! k'.
Proof.
  unfold changeKey, applyChange, changeResult. destruct (h !! rc_Resource c) as [r|]; simpl; [|done].
  intros [= <-]. destruct (rc_Op c); case_decide; subst;
    rewrite ?lookup_delete_eq, ?lookup_insert_eq, ?lookup_delete_ne, ?lookup_insert_ne by done; done.
Qed.

Lemma applyChanges_other h D kcs k :
  keyed h kcs → k ∉ kcs.*1 → applyChanges h D kcs.*2 !! k = D !! k.
Proof.
  revert D. induction kcs as [|[k0 c0] kcs IH]; intros D Hk Hin; [done|].
  change (applyChanges h (applyChange h D c0) kcs.*2 !! k = D !! k). csimpl in Hin. rewrite IH; [|intros ???; apply Hk; set_solver|set_solver].
  rewrite (applyChange_lookup _ _ _ k0); [|apply Hk; set_solver].
  rewrite decide_False; [done|set_solver].
Qed.

Lemma applyChanges_lookup h D kcs k c :
  keyed h kcs → NoDup kcs.*1 → (k, c) ∈ kcs → applyChanges h D kcs.*2 !! k = changeResult h c.
Proof.
  revert D. induction kcs as [|[k0 c0] kcs IH]; intros D Hk Hnd Hin; [set_solver|].
  csimpl in Hnd. apply NoDup_cons in Hnd as [Hk0 Hnd].
  assert (keyed h kcs) as Hk' by (intros ???; apply Hk; set_solver).
  apply elem_of_cons in Hin as [[= -> ->]|Hin].
  - change (applyChanges h (applyChange h D c0) kcs.*2 !! k0 = changeResult h c0).
    rewrite applyChanges_other by done.
    rewrite (applyChange_lookup _ _ _ k0); [|apply Hk; set_solver]. by rewrite decide_True.
  - unfold applyChanges. csimpl. by apply IH.
Qed.

(** ** Detection, creation and squashing give one exact change per resource *)
Section Diff.
Context `{Countable K}.
Variables (h : store) (oldM newM : gmap K loc) (stale : Resource → Resource → bool).

Definition holds (M : gmap K loc) (k : K) (r : Resource) : Prop :=
  ∃ l, M !! k = Some l ∧ h !! l = Some r.

(** Pointers are valid, and a resource is one object. *)
Record map_ok (M : gmap K loc) : Prop := {
  mo_valid : ∀ k l, M !! k = Some l → is_Some (h !! l);
  mo_unique : ∀ k1 k2 l1 l2 r1 r2, M !! k1 = Some l1 → M !! k2 = Some l2 →
    h !! l1 = Some r1 → h !! l2 = Some r2 → GetKeyWithKind r1 = GetKeyWithKind r2 → l1 = l2
}.

(** Some place was held by resource [key] and no longer is. *)
Definition lost (key : string) : Prop :=
  ∃ k r, holds oldM k r ∧ GetKeyWithKind r = key ∧
    ¬ ∃ r', holds newM k r' ∧ GetKeyWithKind r' = key.

(** Some place is held by resource [key] and was free or held by an outdated
    version. *)
Definition gained (key : string) : Prop :=
  ∃ k r, holds newM k r ∧ GetKeyWithKind r = key ∧
    ¬ ∃ r', holds oldM k r' ∧ stale r' r = false.

(** One change per key; an update exactly for the resources that gained, a
    deletion exactly for those that only lost. *)
Record exact_changes (kcs : list (string * ResourceChange)) : Prop := {
  ec_keyed : keyed h kcs;
  ec_nodup : NoDup kcs.*1;
  ec_update : ∀ k c, (k, c) ∈ kcs → rc_Op c = AddOrUpdate →
    gained k ∧ ∃ p, newM !! p = Some (rc_Resource c);
  ec_delete : ∀ k c, (k, c) ∈ kcs → rc_Op c = Delete → lost k ∧ ¬ gained k;
  ec_complete : ∀ k, gained k ∨ lost k → k ∈ kcs.*1
}.

(** What [D] has deployed for [key] is what the holder of a place of [M]
    with that key should have deployed: an up-to-date version of it, or
    nothing when it holds no place. *)
Definition deployedAt (M : gmap K loc) (D : gmap string Resource) (key : string) : Prop :=
  match D !! key with
  | Some r => ∃ k r', holds M k r' ∧ GetKeyWithKind r' = key ∧ stale r r' = false
  | None => ¬ ∃ k r', holds M k r' ∧ GetKeyWithKind r' = key
  end.

Hypothesis stale_refl : ∀ r, stale r r = false.
Hypothesis stale_trans : ∀ r1 r2 r3,
  stale r1 r2 = false → stale r2 r3 = false → stale r1 r3 = false.
Hypothesis stale_key : ∀ r r', stale r r' = false → GetKeyWithKind r = GetKeyWithKind r'.

(** A resource that keeps one of its places up to date keeps all of them. *)
Definition keeps_all : Prop := ∀ k r r' k2 r2,
  holds oldM k r → holds newM k r' → stale r r' = false →
  holds oldM k2 r2 → GetKeyWithKind r2 = GetKeyWithKind r →
  ∃ r2', holds newM k2 r2' ∧ GetKeyWithKind r2' = GetKeyWithKind r'.

Hypothesis Hold : map_ok oldM.
Hypothesis Hnew : map_ok newM.

Lemma holds_fun M k r r' : holds M k r → holds M k r' → r = r'.
Proof. intros (l & ? & ?) (l' & ? & ?). congruence. Qed.

Lemma holds_same_key M k1 k2 r1 r2 : map_ok M →
  holds M k1 r1 → holds M k2 r2 → GetKeyWithKind r1 = GetKeyWithKind r2 → r1 = r2.
Proof.
  intros HM (l1 & H1 & Hr1) (l2 & H2 & Hr2) Heq.
  assert (l1 = l2) as <- by (eapply mo_unique; eauto). congruence.
Qed.

Lemma holds_total M k : map_ok M → is_Some (M !! k) → ∃ r, holds M k r.
Proof.
  intros HM [l Hl]. destruct (mo_valid _ HM _ _ Hl) as [r Hr]. exists r, l. done.
Qed.

Lemma holds_dec M k : map_ok M → (∃ r, holds M k r) ∨ M !! k = None.
Proof.
  intros HM. destruct (M !! k) eqn:Hk; [left|by right]. by apply holds_total; [|exists n].
Qed.

(** Applying exact changes brings the deployed configuration up to date. *)
Lemma exact_changes_sync kcs D key :
  keeps_all → exact_changes kcs → deployedAt oldM D key →
  deployedAt newM (applyChanges h D kcs.*2) key.
Proof.
  intros Hkeep [Hk Hnd Hu Hd Hc] HD. unfold deployedAt in *.
  destruct (decide (key ∈ kcs.*1)) as [Hin|Hout].
  - apply list_elem_of_fmap in Hin as ([k c] & -> & Hin). simpl.
    rewrite (applyChanges_lookup _ _ _ k c) by done. unfold changeResult.
    destruct (rc_Op c) eqn:Hop.
    + destruct (Hd _ _ Hin Hop) as [(k2 & r2 & Hh2 & Hk2 & Hno) Hng].
      intros (p & r & Hh & Hr).
      destruct (holds_dec oldM p Hold) as [[r0 Hr0]|Hnone].
      * destruct (stale r0 r) eqn:Hs.
        -- apply Hng. exists p, r. split_and!; [done..|]. intros (r' & Hr' & Hs').
           rewrite (holds_fun _ _ _ _ Hr' Hr0) in Hs'. congruence.
        -- destruct (Hkeep p r0 r k2 r2) as (r2' & ? & ?); [done..| |].
           { apply stale_key in Hs. congruence. }
           apply Hno. exists r2'. split; [done|congruence].
      * apply Hng. exists p, r. split_and!; [done..|]. intros (r' & (l & ? & _) & _). congruence.
    + destruct (Hu _ _ Hin Hop) as [_ [p Hp]]. specialize (Hk _ _ Hin). unfold changeKey in Hk.
      destruct (h !! rc_Resource c) as [r|] eqn:Hr; simpl in Hk; [|done]. simplify_eq.
      exists p, r. split_and!; [by eexists|done|apply stale_refl].
  - rewrite applyChanges_other by done.
    assert (¬ gained key ∧ ¬ lost key) as [Hng Hnl] by (split; intros ?; apply Hout, Hc; auto).
    destruct (D !! key) as [r|].
    + destruct HD as (k & r' & Hh & Hkey & Hs).
      destruct (holds_dec newM k Hnew) as [[nr Hnr]|Hnone].
      * destruct (decide (GetKeyWithKind nr = key)) as [Hkn|Hkn].
        -- destruct (stale r' nr) eqn:Hs'.
           ++ destruct Hng. exists k, nr. split_and!; [done..|]. intros (x & Hx & Hsx).
              rewrite (holds_fun _ _ _ _ Hx Hh) in Hsx. congruence.
           ++ exists k, nr. eauto.
        -- destruct Hnl. exists k, r'. split_and!; [done..|]. intros (x & Hx & Hkx).
           rewrite (holds_fun _ _ _ _ Hx Hnr) in Hkx. done.
      * destruct Hnl. exists k, r'. split_and!; [done..|]. intros (x & (l & ? & _) & _). congruence.
    + intros (p & r & Hh & Hr). apply Hng. exists p, r. split_and!; [done..|].
      intros (r' & Hr' & Hs). apply HD. exists p, r'. split; [done|].
      apply stale_key in Hs. congruence.
Qed.

(** *** The created changes *)
Section Created.
Variables removed updated added : list K.
Hypothesis Hrem : ∀ k, k ∈ removed ↔ is_Some (oldM !! k) ∧ newM !! k = None.
Hypothesis Hadd : ∀ k, k ∈ added ↔ is_Some (newM !! k) ∧ oldM !! k = None.
Hypothesis Hupd : ∀ k, k ∈ updated ↔
  ∃ r r', holds oldM k r ∧ holds newM k r' ∧ stale r r' = true.

Definition keyAt (M : gmap K loc) (k : K) : option string :=
  '(_, r) ← derefAt h M k; Some (GetKeyWithKind r).

Definition deletedAt (k : K) : option loc :=
  if decide (keyAt oldM k = keyAt newM k) then None else oldM !! k.

(** The pointer found at a place, with the change and the key of its resource. *)
Definition keyedChange (op : Operation) (l : loc) : option (string * ResourceChange) :=
  r ← h !! l; Some (GetKeyWithKind r, mkChange op l).

Definition deletions : list (string * ResourceChange) :=
  omap (keyedChange Delete) (omap (λ k, oldM !! k) removed ++ omap deletedAt updated).
Definition updates : list (string * ResourceChange) :=
  omap (keyedChange AddOrUpdate) (omap (λ k, newM !! k) (updated ++ added)).

Lemma derefAt_holds M k r : holds M k r → ∃ l, M !! k = Some l ∧ h !! l = Some r ∧
  derefAt h M k = Some (l, r).
Proof.
  intros (l & Hl & Hr). exists l. unfold derefAt. rewrite Hl. simpl. by rewrite Hr.
Qed.

Lemma omap_keyedChange_snd op (ls : list loc) :
  (∀ l, l ∈ ls → is_Some (h !! l)) → (omap (keyedChange op) ls).*2 = mkChange op <$> ls.
Proof using Type.
  clear - h op ls. induction ls as [|l ls IH]; intros Hl; [done|]. csimpl. unfold keyedChange at 1.
  destruct (Hl l) as [r ->]; [set_solver|]. csimpl. f_equal. apply IH. intros; apply Hl; set_solver.
Qed.

Lemma foldM_removed ds :
  foldM (changeForRemoved h oldM) ds removed =
  Some (ds ++ (mkChange Delete <$> omap (λ k, oldM !! k) removed)).
Proof using Hold Hrem.
  assert (∀ k, k ∈ removed → ∃ r, holds oldM k r) as Hr.
  { intros k [Hk _]%Hrem. by apply holds_total. }
  clear - Hr. revert ds. induction removed as [|k ks IH]; intros ds; [by rewrite app_nil_r|].
  csimpl. destruct (Hr k) as [r (l & Hl & _ & Hd)%derefAt_holds]; [set_solver|].
  unfold changeForRemoved at 2. rewrite Hd, Hl. simpl.
  rewrite IH by (intros; apply Hr; set_solver). by rewrite <- app_assoc.
Qed.

Lemma foldM_updated ds us :
  foldM (changeForUpdated h oldM newM) (ds, us) updated =
  Some (ds ++ (mkChange Delete <$> omap deletedAt updated),
        us ++ (mkChange AddOrUpdate <$> omap (λ k, newM !! k) updated)).
Proof using Hold Hnew Hupd.
  assert (∀ k, k ∈ updated → ∃ r r', holds oldM k r ∧ holds newM k r') as Hr.
  { intros k (r & r' & ? & ? & _)%Hupd. eauto. }
  clear - Hr. revert ds us. induction updated as [|k ks IH]; intros ds us; [by rewrite !app_nil_r|].
  rewrite foldM_cons. destruct (Hr k) as (r & r' & (l & Hl & _ & Hd)%derefAt_holds &
                              (l' & Hl' & _ & Hd')%derefAt_holds); [set_solver|].
  assert (changeForUpdated h oldM newM (ds, us) k =
    Some (ds ++ (mkChange Delete <$> option_list (deletedAt k)), us ++ [mkChange AddOrUpdate l'])) as ->.
  { unfold changeForUpdated, deletedAt, keyAt. rewrite Hd, Hd', Hl. simpl.
    destruct (decide (GetKeyWithKind r = GetKeyWithKind r')) as [Heq|Hne].
    - rewrite decide_True, bool_decide_eq_true_2 by congruence. simpl. by rewrite app_nil_r.
    - by rewrite decide_False, bool_decide_eq_false_2 by congruence. }
  cbn [mbind option_bind]. rewrite IH by (intros; apply Hr; set_solver). csimpl. rewrite Hl'.
  destruct (deletedAt k); csimpl; by rewrite <- ?app_assoc.
Qed.

Lemma foldM_added us :
  foldM (changeForAdded h newM) us added =
  Some (us ++ (mkChange AddOrUpdate <$> omap (λ k, newM !! k) added)).
Proof using Hnew Hadd.
  assert (∀ k, k ∈ added → ∃ r, holds newM k r) as Hr.
  { intros k [Hk _]%Hadd. by apply holds_total. }
  clear - Hr. revert us. induction added as [|k ks IH]; intros us; [by rewrite app_nil_r|].
  csimpl. destruct (Hr k) as [r (l & Hl & _ & Hd)%derefAt_holds]; [set_solver|].
  unfold changeForAdded at 2. rewrite Hd, Hl. simpl.
  rewrite IH by (intros; apply Hr; set_solver). by rewrite <- app_assoc.
Qed.

Lemma createResourceChanges_eq :
  createResourceChanges h removed updated added oldM newM = Some (deletions ++ updates).*2.
Proof using Hold Hnew Hrem Hadd Hupd.
  unfold createResourceChanges. rewrite foldM_removed. simpl. rewrite foldM_updated. simpl.
  rewrite foldM_added. simpl. f_equal. unfold deletions, updates.
  rewrite fmap_app, !omap_keyedChange_snd.
  - by rewrite omap_app, !fmap_app.
  - intros l (k & _ & Hk)%list_elem_of_omap. by eapply (mo_valid _ Hnew).
  - intros l [(k & _ & Hk)%list_elem_of_omap|(k & _ & Hk)%list_elem_of_omap]%elem_of_app.
    + by eapply (mo_valid _ Hold).
    + unfold deletedAt in Hk. case_decide; [done|]. by eapply (mo_valid _ Hold).
Qed.

Lemma elem_of_keyedChanges op (ls : list loc) k c :
  (k, c) ∈ omap (keyedChange op) ls ↔
  ∃ l r, l ∈ ls ∧ h !! l = Some r ∧ k = GetKeyWithKind r ∧ c = mkChange op l.
Proof.
  rewrite list_elem_of_omap. unfold keyedChange. split.
  - intros (l & Hl & Hx). destruct (h !! l) as [r|] eqn:Hr; simpl in Hx; [|done].
    simplify_eq. eauto 10.
  - intros (l & r & Hl & Hr & -> & ->). exists l. by rewrite Hr.
Qed.

Lemma keyAt_Some M k key : keyAt M k = Some key ↔ ∃ r, holds M k r ∧ GetKeyWithKind r = key.
Proof.
  unfold keyAt, derefAt, holds. split.
  - destruct (M !! k) as [l|]; simpl; [|done]. destruct (h !! l) as [r|] eqn:Hr; simpl; [|done].
    intros [= <-]. eauto.
  - intros (r & (l & Hl & Hr) & <-). rewrite Hl. simpl. by rewrite Hr.
Qed.

Lemma keyAt_holds M k r : holds M k r → keyAt M k = Some (GetKeyWithKind r).
Proof using Type. intros Hr. apply keyAt_Some. eauto. Qed.

Lemma deletions_lost k : k ∈ deletions.*1 ↔ lost k.
Proof.
  rewrite list_elem_of_fmap. split.
  - intros ([k' c] & -> & (l & r & Hl & Hr & -> & ->)%elem_of_keyedChanges). simpl.
    apply elem_of_app in Hl as [(p & [_ Hp]%Hrem & Hpl)%list_elem_of_omap|
                                (p & Hp & Hpl)%list_elem_of_omap].
    + exists p, r. split_and!; [by exists l|done|]. intros (r' & (l' & ? & _) & _). congruence.
    + unfold deletedAt in Hpl. case_decide as Hk; [done|].
      exists p, r. split_and!; [by exists l|done|].
      intros Hx%keyAt_Some. apply Hk. rewrite Hx. apply keyAt_Some. exists r.
      split; [by exists l|done].
  - intros (p & r & Hh & <- & Hno). pose proof Hh as (l & Hl & Hr).
    exists (GetKeyWithKind r, mkChange Delete l). split; [done|]. apply elem_of_keyedChanges.
    exists l, r. split_and!; [|done..]. apply elem_of_app. rewrite !list_elem_of_omap.
    destruct (holds_dec newM p Hnew) as [[r' Hr']|Hnone].
    + right. exists p.
      assert (GetKeyWithKind r' ≠ GetKeyWithKind r) as Hkne by (intros ?; apply Hno; eauto).
      split.
      * apply Hupd. exists r, r'. split_and!; [done..|].
        destruct (stale r r') eqn:Hs; [done|]. apply stale_key in Hs. congruence.
      * unfold deletedAt. rewrite decide_False; [done|].
        rewrite (proj2 (keyAt_Some oldM p _) (ex_intro _ r (conj Hh eq_refl))).
        intros Heq. symmetry in Heq. apply keyAt_Some in Heq as (r2 & Hr2 & ?).
        rewrite (holds_fun _ _ _ _ Hr2 Hr') in *. congruence.
    + left. exists p. split; [|done]. apply Hrem. split; [by exists l|done].
Qed.

Lemma updates_gained k : k ∈ updates.*1 ↔ gained k.
Proof.
  rewrite list_elem_of_fmap. split.
  - intros ([k' c] & -> & (l & r & Hl & Hr & -> & ->)%elem_of_keyedChanges). simpl.
    apply list_elem_of_omap in Hl as (p & [Hp|Hp]%elem_of_app & Hpl).
    + apply Hupd in Hp as (r0 & r1 & H0 & H1 & Hs). exists p, r.
      assert (holds newM p r) as Hh by (by exists l).
      rewrite (holds_fun _ _ _ _ H1 Hh) in Hs.
      split_and!; [done..|]. intros (x & Hx & Hsx). rewrite (holds_fun _ _ _ _ Hx H0) in Hsx. congruence.
    + apply Hadd in Hp as [_ Hp]. exists p, r. split_and!; [by exists l|done|].
      intros (x & (l' & ? & _) & _). congruence.
  - intros (p & r & Hh & <- & Hno). pose proof Hh as (l & Hl & Hr).
    exists (GetKeyWithKind r, mkChange AddOrUpdate l). split; [done|]. apply elem_of_keyedChanges.
    exists l, r. split_and!; [|done..]. apply list_elem_of_omap. exists p. split; [|done].
    apply elem_of_app. destruct (holds_dec oldM p Hold) as [[r' Hr']|Hnone].
    + left. apply Hupd. exists r', r. split_and!; [done..|].
      destruct (stale r' r) eqn:Hs; [done|]. destruct Hno. eauto.
    + right. apply Hadd. split; [by exists l|done].
Qed.

Lemma keyed_created : keyed h (deletions ++ updates).
Proof.
  intros k c [(l & r & _ & Hr & -> & ->)%elem_of_keyedChanges|
              (l & r & _ & Hr & -> & ->)%elem_of_keyedChanges]%elem_of_app;
    unfold changeKey; simpl; by rewrite Hr.
Qed.

(** The last change of a key: an update if there is one. *)
Lemma last_created k c :
  last (changesFor k (deletions ++ updates)) = Some c →
  ((k, c) ∈ updates ∧ rc_Op c = AddOrUpdate) ∨
  ((k, c) ∈ deletions ∧ rc_Op c = Delete ∧ k ∉ updates.*1).
Proof.
  rewrite changesFor_app, last_app. destruct (last (changesFor k updates)) as [c'|] eqn:Hl.
  - intros [= ->]. left. apply last_Some_elem_of, elem_of_changesFor in Hl. split; [done|].
    by apply elem_of_keyedChanges in Hl as (? & ? & _ & _ & _ & ->).
  - intros Hd. right. apply last_Some_elem_of, elem_of_changesFor in Hd. split_and!; [done|..].
    + by apply elem_of_keyedChanges in Hd as (? & ? & _ & _ & _ & ->).
    + rewrite changesFor_nonempty. apply last_None in Hl. intros Hx. by apply Hx.
Qed.

Lemma created_exact : exact_changes (squashSpec (deletions ++ updates)).
Proof.
  split.
  - apply keyed_squashSpec, keyed_created.
  - apply NoDup_squashSpec.
  - intros k c Hin%elem_of_squashSpec%last_created Hop.
    destruct Hin as [[Hin _]|(_ & ? & _)]; [|congruence]. split.
    + apply updates_gained, list_elem_of_fmap. by exists (k, c).
    + apply elem_of_keyedChanges in Hin as (l & r & Hl & _ & _ & ->). simpl.
      apply list_elem_of_omap in Hl as (p & _ & Hp). by exists p.
  - intros k c Hin%elem_of_squashSpec%last_created Hop.
    destruct Hin as [[_ ?]|(Hin & _ & Hno)]; [congruence|]. split.
    + apply deletions_lost, list_elem_of_fmap. by exists (k, c).
    + by rewrite <- updates_gained.
  - intros k Hk. assert (k ∈ (deletions ++ updates).*1) as Hin.
    { rewrite fmap_app, elem_of_app, deletions_lost, updates_gained. tauto. }
    apply changesFor_nonempty in Hin.
    destruct (last (changesFor k (deletions ++ updates))) as [c|] eqn:Hl.
    + apply elem_of_squashSpec in Hl. apply list_elem_of_fmap. by exists (k, c).
    + by apply last_None in Hl.
Qed.
End Created.

(** *** Refreshing the changes *)

(** The map of the latest versions agrees with [newM] on the keys of resources. *)
Definition latest_ok (latest : gmap string loc) : Prop :=
  ∀ key l, latest !! key = Some l →
    (∃ l' r', h !! l' = Some r' ∧ GetKeyWithKind r' = key) →
    (∃ r, h !! l = Some r ∧ GetKeyWithKind r = key) ∧
    (∀ p r', holds newM p r' → GetKeyWithKind r' = key → newM !! p = Some l).

Definition refreshed (latest : gmap string loc) (kc : string * ResourceChange)
    : string * ResourceChange :=
  (kc.1, match latest !! kc.1 with
         | Some l => {| rc_Op := rc_Op kc.2; rc_Resource := l; rc_Error := rc_Error kc.2 |}
         | None => kc.2
         end).

Lemma refresh_eq latest kcs :
  keyed h kcs →
  mapM (refreshChange h latest) kcs.*2 = Some (refreshed latest <$> kcs).*2.
Proof.
  intros Hk. apply mapM_Some. rewrite <- list_fmap_compose. apply Forall2_fmap.
  apply Forall_Forall2_diag, Forall_forall. intros [k c] Hin. simpl. unfold refreshChange.
  by rewrite (Hk _ _ Hin).
Qed.

Lemma refreshed_exact latest kcs :
  latest_ok latest → exact_changes kcs → exact_changes (refreshed latest <$> kcs).
Proof.
  intros Hlat [Hk Hnd Hu Hd Hc].
  assert ((refreshed latest <$> kcs).*1 = kcs.*1) as Hkeys.
  { rewrite <- list_fmap_compose. by apply list_fmap_ext. }
  assert (∀ k c, (k, c) ∈ refreshed latest <$> kcs →
    ∃ c0 l r, (k, c0) ∈ kcs ∧ rc_Op c = rc_Op c0 ∧ h !! l = Some r ∧ GetKeyWithKind r = k ∧
      (c = c0 ∨ latest !! k = Some (rc_Resource c))) as Hinv.
  { intros k c ([k0 c0] & [= -> ->] & Hin)%list_elem_of_fmap. specialize (Hk _ _ Hin).
    unfold changeKey in Hk. destruct (h !! rc_Resource c0) as [r|] eqn:Hr; simpl in Hk; [|done].
    injection Hk as Hk. exists c0, (rc_Resource c0), r.
    destruct (latest !! k0) eqn:Hl; split_and!; eauto. }
  split.
  - intros k c (c0 & l0 & r0 & Hin & _ & Hl0 & Hr0 & [->|Hl])%Hinv; [by apply Hk|].
    destruct (Hlat _ _ Hl) as [(r & Hr & Hkr) _]; [by exists l0, r0|]. unfold changeKey. rewrite Hr. simpl. congruence.
  - by rewrite Hkeys.
  - intros k c (c0 & l0 & r0 & Hin & Hop & Hl0 & Hr0 & Hcc)%Hinv Hadd'. rewrite Hop in Hadd'.
    destruct (Hu _ _ Hin Hadd') as [Hg [p Hp]]. split; [done|].
    destruct Hcc as [->|Hl]; [by exists p|]. exists p.
    destruct (Hlat _ _ Hl) as [_ Hl']; [by exists l0, r0|]. specialize (Hk _ _ Hin). unfold changeKey in Hk.
    destruct (h !! rc_Resource c0) as [r|] eqn:Hr; simpl in Hk; [|done]. injection Hk as Hk.
    apply (Hl' p r); [by exists (rc_Resource c0)|done].
  - intros k c (c0 & _ & _ & Hin & Hop & _)%Hinv Hdel. apply (Hd _ c0 Hin). congruence.
  - by rewrite Hkeys.
Qed.
End Diff.

(** ** Detection for hosts and for listeners *)

Lemma compareObjectMetas_trans a b c :
  compareObjectMetas a b = true → compareObjectMetas b c = true → compareObjectMetas a c = true.
Proof. rewrite !compareObjectMetas_spec. intuition congruence. Qed.

Lemma compareWithAnnotations_trans a b c :
  compareObjectMetasWithAnnotations a b = true → compareObjectMetasWithAnnotations b c = true →
  compareObjectMetasWithAnnotations a c = true.
Proof.
  unfold compareObjectMetasWithAnnotations.
  rewrite !andb_true_iff, !bool_decide_eq_true. intros [H1 ->] [H2 ->]. split; [|done].
  by eapply compareObjectMetas_trans.
Qed.

Lemma compareSlices_trans {A} (eqb : A → A → bool) l1 l2 l3 :
  (∀ a b c, eqb a b = true → eqb b c = true → eqb a c = true) →
  compareSlices eqb l1 l2 = true → compareSlices eqb l2 l3 = true → compareSlices eqb l1 l3 = true.
Proof.
  intros Ht. revert l2 l3. induction l1 as [|a l1 IH]; intros [|b l2] [|c l3]; simpl; try done.
  rewrite !andb_true_iff. intros [? ?] [? ?]. split; [by eapply Ht|by eapply IH].
Qed.

Lemma selectorsEqual_spec s1 s2 :
  selectorsEqual s1 s2 = true ↔
  size s1 = size s2 ∧ ∀ sel r1, s1 !! sel = Some r1 →
    ∃ r2, s2 !! sel = Some r2 ∧ length r1 = length r2 ∧ r2 ⊆ r1.
Proof.
  unfold selectorsEqual. rewrite andb_true_iff, Nat.eqb_eq, forallb_forall. f_equiv. split.
  - intros Hall sel r1 Hs%elem_of_map_to_list%list_elem_of_In.
    specialize (Hall _ Hs). simpl in Hall. destruct (s2 !! sel) as [r2|]; [|done].
    apply andb_true_iff in Hall as [?%Nat.eqb_eq Hsub]. exists r2. split_and!; [done..|].
    intros x Hx%list_elem_of_In. rewrite forallb_forall in Hsub.
    by apply Hsub, bool_decide_eq_true in Hx.
  - intros Hall [sel r1] Hin%list_elem_of_In%elem_of_map_to_list.
    destruct (Hall _ _ Hin) as (r2 & -> & Hlen & Hsub). rewrite andb_true_iff, Nat.eqb_eq.
    split; [done|]. apply forallb_forall. intros x Hx%list_elem_of_In.
    apply bool_decide_eq_true. by apply Hsub.
Qed.

Lemma selectorsEqual_trans s1 s2 s3 :
  selectorsEqual s1 s2 = true → selectorsEqual s2 s3 = true → selectorsEqual s1 s3 = true.
Proof.
  rewrite !selectorsEqual_spec. intros [Hz1 H1] [Hz2 H2]. split; [congruence|].
  intros sel r1 Hr1. destruct (H1 _ _ Hr1) as (r2 & Hr2 & ? & ?).
  destruct (H2 _ _ Hr2) as (r3 & ? & ? & ?). exists r3. split_and!; [done|congruence|set_solver].
Qed.

Lemma IsEqual_trans r1 r2 r3 :
  IsEqual r1 r2 = true → IsEqual r2 r3 = true → IsEqual r1 r3 = true.
Proof.
  destruct r1, r2, r3; simpl; try done.
  - unfold ingressIsEqual. rewrite !andb_true_iff, !bool_decide_eq_true.
    intros [[[H1 ->] ->] H2] [[[H3 ->] ->] H4]. split_and!; [|done|done|].
    + by eapply compareWithAnnotations_trans.
    + eapply compareSlices_trans; [|done|done]. intros *. apply compareWithAnnotations_trans.
  - unfold virtualServerIsEqual. rewrite !andb_true_iff.
    intros [[H1 H2] H3] [[H4 H5] H6]. split_and!.
    + by eapply compareObjectMetas_trans.
    + eapply compareSlices_trans; [|done|done]. intros *. apply compareObjectMetas_trans.
    + by eapply selectorsEqual_trans.
  - unfold transportServerIsEqual. rewrite !andb_true_iff, !bool_decide_eq_true.
    intros [H1 ->] [H2 ->]. split; [|done]. by eapply compareObjectMetas_trans.
Qed.

Definition hostStale (oldR newR : Resource) : bool := negb (hostUpdates oldR newR =? 0).
Definition listenerStale (oldR newR : Resource) : bool := negb (IsEqual oldR newR).

Definition samePorts (r r' : Resource) : Prop :=
  match r, r' with
  | RVirtualServer v, RVirtualServer v' =>
      vsc_HTTPPort v' = vsc_HTTPPort v ∧ vsc_HTTPSPort v' = vsc_HTTPSPort v ∧
      vsc_HTTPIPv4 v' = vsc_HTTPIPv4 v ∧ vsc_HTTPIPv6 v' = vsc_HTTPIPv6 v
  | _, _ => True
  end.

Lemma hostStale_false r r' : hostStale r r' = false ↔ IsEqual r r' = true ∧ samePorts r r'.
Proof.
  unfold hostStale, hostUpdates. rewrite negb_false_iff, Nat.eqb_eq.
  destruct (IsEqual r r') eqn:He; simpl; [|naive_solver].
  destruct r, r'; simpl; try naive_solver.
  repeat case_bool_decide; simpl; naive_solver.
Qed.

Lemma hostStale_refl r : hostStale r r = false.
Proof. apply hostStale_false. split; [apply IsEqual_refl|]. by destruct r. Qed.
Lemma hostStale_trans r1 r2 r3 :
  hostStale r1 r2 = false → hostStale r2 r3 = false → hostStale r1 r3 = false.
Proof.
  rewrite !hostStale_false. intros [H1 P1] [H2 P2]. split; [by eapply IsEqual_trans|].
  destruct r1, r2, r3; simpl in *; try done. naive_solver congruence.
Qed.
Lemma hostStale_key r r' : hostStale r r' = false → GetKeyWithKind r = GetKeyWithKind r'.
Proof. intros [H _]%hostStale_false. by apply IsEqual_key. Qed.

Lemma listenerStale_refl r : listenerStale r r = false.
Proof. unfold listenerStale. by rewrite IsEqual_refl. Qed.
Lemma listenerStale_trans r1 r2 r3 :
  listenerStale r1 r2 = false → listenerStale r2 r3 = false → listenerStale r1 r3 = false.
Proof. unfold listenerStale. rewrite !negb_false_iff. apply IsEqual_trans. Qed.
Lemma listenerStale_key r r' : listenerStale r r' = false → GetKeyWithKind r = GetKeyWithKind r'.
Proof. unfold listenerStale. rewrite negb_false_iff. apply IsEqual_key. Qed.

Section Detect.
Context `{Countable K}.
Variables (h : store) (oldM newM : gmap K loc) (stale : Resource → Resource → bool).
Hypothesis Hold : map_ok h oldM.
Hypothesis Hnew : map_ok h newM.

(** The loop that collects the updated places: [count] times each. *)
Lemma detect_updated (step : list K → K → option (list K)) (count : Resource → Resource → nat) ks :
  (∀ acc k, k ∈ ks → oldM !! k = None → step acc k = Some acc) →
  (∀ acc k r r', holds h oldM k r → holds h newM k r' →
     step acc k = Some (acc ++ replicate (count r r') k)) →
  (∀ r r', count r r' = 0 ↔ stale r r' = false) →
  (∀ k, k ∈ ks ↔ is_Some (newM !! k)) →
  ∃ upd, foldM step [] ks = Some upd ∧
    ∀ k, k ∈ upd ↔ ∃ r r', holds h oldM k r ∧ holds h newM k r' ∧ stale r r' = true.
Proof.
  intros Hnone Hsome Hcount Hks.
  destruct (foldM_prefix_ind (λ pre acc, ∀ k, k ∈ acc ↔
      k ∈ pre ∧ ∃ r r', holds h oldM k r ∧ holds h newM k r' ∧ stale r r' = true)
    step ks []) as (upd & Hf & Hu).
  - set_solver.
  - intros pre k post acc Hpre IH.
    assert (k ∈ ks) as Hk by (rewrite Hpre; set_solver).
    destruct (holds_total _ newM k Hnew (proj1 (Hks k) Hk)) as [r' Hr'].
    destruct (holds_dec _ oldM k Hold) as [[r Hr]|Hno].
    + rewrite (Hsome _ _ _ _ Hr Hr'). eexists. split; [done|].
      intros k0. rewrite !elem_of_app, IH, list_elem_of_singleton. split.
      * intros [[? ?]|[? Hc]%elem_of_replicate]; [eauto|]. subst k0. split; [by right|].
        exists r, r'. split_and!; [done..|]. destruct (stale r r') eqn:Hs; [done|].
        apply Hcount in Hs. lia.
      * intros [[Hin| ->] Hx]; [by left|]. destruct Hx as (x & x' & Hx & Hx' & Hs). right.
        rewrite (holds_fun _ _ _ _ _ Hx Hr), (holds_fun _ _ _ _ _ Hx' Hr') in Hs.
        apply elem_of_replicate. split; [done|]. intros Hz%Hcount. congruence.
    + rewrite Hnone by done. eexists. split; [done|]. intros k0.
      rewrite IH, elem_of_app, list_elem_of_singleton. split; [naive_solver|].
      intros [[Hin| ->] Hx]; [done|]. destruct Hx as (x & x' & (l & ? & _) & _). congruence.
  - exists upd. split; [done|]. intros k. rewrite Hu. split; [naive_solver|].
    intros Hx. split; [|done]. destruct Hx as (x & x' & _ & (l & Hl & _) & _).
    apply Hks. by exists l.
Qed.
End Detect.

(** What the three lists of places say. *)
Definition detected `{Countable K} (h : store) (oldM newM : gmap K loc)
    (stale : Resource → Resource → bool) (removed updated added : list K) : Prop :=
  (∀ k, k ∈ removed ↔ is_Some (oldM !! k) ∧ newM !! k = None) ∧
  (∀ k, k ∈ added ↔ is_Some (newM !! k) ∧ oldM !! k = None) ∧
  (∀ k, k ∈ updated ↔ ∃ r r', holds h oldM k r ∧ holds h newM k r' ∧ stale r r' = true).

Lemma detectChangesInHosts_spec h oldHosts newHosts :
  map_ok h oldHosts → map_ok h newHosts →
  ∃ removed updated added,
    detectChangesInHosts h oldHosts newHosts = Some (removed, updated, added) ∧
    detected h oldHosts newHosts hostStale removed updated added.
Proof.
  intros Hold Hnew.
  destruct (detect_updated h oldHosts newHosts hostStale Hold Hnew
    (detectUpdatedHost h oldHosts newHosts) hostUpdates (sortedKeys newHosts)) as (upd & Hf & Hu).
  - intros acc k _ Hk. unfold detectUpdatedHost. by rewrite Hk.
  - intros acc k r r' (l & Hl & Hr) (l' & Hl' & Hr'). unfold detectUpdatedHost, derefAt.
    rewrite Hl, Hr. simpl. rewrite Hl'. simpl. by rewrite Hr'.
  - intros r r'. unfold hostStale. by rewrite negb_false_iff, Nat.eqb_eq.
  - intros k. apply elem_of_sortedKeys.
  - unfold detectChangesInHosts. rewrite Hf. simpl. eexists _, _, _. split; [done|].
    split_and!; try done; intros k; rewrite list_elem_of_filter, elem_of_sortedKeys; tauto.
Qed.

Lemma elem_of_sortedListenerKeys {A} (m : gmap listenerHostKey A) k :
  k ∈ getSortedListenerHostKeys m ↔ is_Some (m !! k).
Proof.
  unfold getSortedListenerHostKeys. rewrite merge_sort_Permutation, list_elem_of_fmap. split.
  - intros ([k' x] & -> & Hx%elem_of_map_to_list). by exists x.
  - intros [x Hx]. exists (k, x). split; [done|]. by apply elem_of_map_to_list.
Qed.

Lemma detectChangesInListenerHosts_spec h oldLH newLH :
  map_ok h oldLH → map_ok h newLH →
  ∃ removed updated added,
    detectChangesInListenerHosts h oldLH newLH = Some (removed, updated, added) ∧
    detected h oldLH newLH listenerStale removed updated added.
Proof.
  intros Hold Hnew.
  destruct (detect_updated h oldLH newLH listenerStale Hold Hnew (detectUpdatedListener h oldLH newLH)
    (λ r r', if IsEqual r r' then 0 else 1) (getSortedListenerHostKeys newLH)) as (upd & Hf & Hu).
  - intros acc k _ Hk. unfold detectUpdatedListener. by rewrite Hk.
  - intros acc k r r' (l & Hl & Hr) (l' & Hl' & Hr'). unfold detectUpdatedListener, derefAt.
    rewrite Hl, Hr. simpl. rewrite Hl'. simpl. rewrite Hr'. simpl.
    destruct (IsEqual r r'); simpl; [by rewrite app_nil_r|done].
  - intros r r'. unfold listenerStale. by destruct (IsEqual r r').
  - intros k. apply elem_of_sortedListenerKeys.
  - unfold detectChangesInListenerHosts. rewrite Hf. simpl. eexists _, _, _. split; [done|].
    split_and!; try done; intros k; rewrite list_elem_of_filter, elem_of_sortedListenerKeys; tauto.
Qed.

(** ** The changes of a rebuild *)

(** Deletions come before updates. *)
Definition deletesFirst (kcs : list (string * ResourceChange)) : Prop :=
  ∃ ds us, kcs = ds ++ us ∧ Forall (isOp Delete) ds ∧ Forall (isOp AddOrUpdate) us.

Lemma deletesFirst_squash kcs : deletesFirst (squashSpec kcs).
Proof.
  eexists _, _. split; [done|]. split; apply Forall_forall; intros x [Hx _]%list_elem_of_filter; done.
Qed.

Lemma deletesFirst_refreshed latest kcs : deletesFirst kcs → deletesFirst (refreshed latest <$> kcs).
Proof.
  intros (ds & us & -> & Hd & Hu). exists (refreshed latest <$> ds), (refreshed latest <$> us).
  split; [by rewrite fmap_app|].
  split; apply Forall_fmap; [eapply Forall_impl; [exact Hd|]|eapply Forall_impl; [exact Hu|]];
    intros [k c]; unfold isOp, refreshed; simpl; by case_match.
Qed.

Lemma changes_exact `{Countable K} (h : store) (oldM newM : gmap K loc) stale
    (removed updated added : list K) latest :
  (∀ r r', stale r r' = false → GetKeyWithKind r = GetKeyWithKind r') →
  map_ok h oldM → map_ok h newM → latest_ok h newM latest →
  detected h oldM newM stale removed updated added →
  ∃ changes kcs,
    createResourceChanges h removed updated added oldM newM = Some changes ∧
    squashResourceChanges h changes = Some kcs.*2 ∧
    mapM (refreshChange h latest) kcs.*2 = Some (refreshed latest <$> kcs).*2 ∧
    exact_changes h oldM newM stale (refreshed latest <$> kcs) ∧
    deletesFirst (refreshed latest <$> kcs).
Proof.
  intros Hkey Hold Hnew Hlat (Hr & Ha & Hu).
  pose proof (created_exact h oldM newM stale Hkey Hold Hnew removed updated added Hr Ha Hu) as Hex.
  set (kcs := deletions h oldM newM removed updated ++ updates h newM updated added) in *.
  exists kcs.*2, (squashSpec kcs). split_and!.
  - apply (createResourceChanges_eq h oldM newM stale Hold Hnew); done.
  - apply squashResourceChanges_eq, keyed_created.
  - apply refresh_eq, Hex.
  - by apply refreshed_exact.
  - apply deletesFirst_refreshed, deletesFirst_squash.
Qed.
