(* ===== verification/Problems.v ===== *)
(** Problems: resources without an active host or listener, orphan minions,
    orphan or ignored VirtualServerRoutes, misconfigured listeners, and the
    detection of new or changed problems (internal/k8s/configuration.go). *)
From S2P Require Import Prelude GoStrings Objects ProxyBuffers Resources ConfigState Minions.
From S2P Require Import Changes.

Definition mkProblem (obj : Object) (reason message : string) : ConfigurationProblem :=
  {| cp_Object := obj; cp_IsError := false; cp_Reason := reason; cp_Message := message |}.

(** detectChangesInProblems *)
Definition isNewProblem (newProblems oldProblems : gmap string ConfigurationProblem)
    (key : string) : option ConfigurationProblem :=
  newP ← newProblems !! key;
  match oldProblems !! key with
  | None => Some newP
  | Some oldP => if compareConfigurationProblems newP oldP then None else Some newP
  end.

Definition detectChangesInProblems (newProblems oldProblems : gmap string ConfigurationProblem)
    : list ConfigurationProblem :=
  omap (isNewProblem newProblems oldProblems) (sortedKeys newProblems).

(** One TransportServerConfiguration of addProblemsForTSConfigsWithoutActiveListener *)
Definition problemForTSConfig (h : store) (listenerHosts : gmap listenerHostKey loc)
    (problems : gmap string ConfigurationProblem) (e : string * loc)
    : option (gmap string ConfigurationProblem) :=
  r ← h !! e.2;
  match r with
  | RTransportServer tsc =>
      let ts := tsc_TransportServer tsc in
      let listenerName := tsl_Name (ts_Listener ts) in
      let host := ts_Host ts in
      let hostDescription := if bool_decide (host = "") then "empty host" else host in
      match listenerHosts !! {| lhk_ListenerName := listenerName; lhk_Host := host |} with
      | None => Some (<[GetKeyWithKind r :=
          mkProblem (OTransportServer ts) EventReasonRejected
            ("Listener " +:+ listenerName +:+ " doesn't exist")]> problems)
      | Some hl =>
          holder ← h !! hl;
          Some (if negb (IsEqual r holder)
                then <[GetKeyWithKind r :=
                  mkProblem (OTransportServer ts) EventReasonRejected
                    ("Listener " +:+ listenerName +:+ " with host " +:+ hostDescription
                     +:+ " is taken by another resource")]> problems
                else problems)
      end
  | _ => None
  end.

Definition addProblemsForTSConfigsWithoutActiveListener `{MapRange} (h : store)
    (listenerHosts : gmap listenerHostKey loc) (tsConfigs : gmap string loc)
    (problems : gmap string ConfigurationProblem) : option (gmap string ConfigurationProblem) :=
  foldM (problemForTSConfig h listenerHosts) problems
    (range "addProblemsForTSConfigsWithoutActiveListener" tsConfigs).

(** One resource of addProblemsForResourcesWithoutActiveHost *)
Definition problemForResource (h : store) (hosts : gmap string loc)
    (problems : gmap string ConfigurationProblem) (e : string * loc)
    : option (gmap string ConfigurationProblem) :=
  r ← h !! e.2;
  match r with
  | RIngress ic =>
      let atLeastOneValidHost := existsb snd (map_to_list (ic_ValidHosts ic)) in
      Some (if negb atLeastOneValidHost
            then <[GetKeyWithKind r := mkProblem (OIngress (ic_Ingress ic)) EventReasonRejected
                     "All hosts are taken by other resources"]> problems
            else problems)
  | RVirtualServer vsc =>
      '(_, res) ← derefAt h hosts (vs_Host (vsc_VirtualServer vsc));
      Some (if negb (bool_decide (GetKeyWithKind res = GetKeyWithKind r))
            then <[GetKeyWithKind r :=
                     mkProblem (OVirtualServer (vsc_VirtualServer vsc)) EventReasonRejected
                       "Host is taken by another resource"]> problems
            else problems)
  | RTransportServer tsc =>
      '(_, res) ← derefAt h hosts (ts_Host (tsc_TransportServer tsc));
      Some (if negb (bool_decide (GetKeyWithKind res = GetKeyWithKind r))
            then <[GetKeyWithKind r :=
                     mkProblem (OTransportServer (tsc_TransportServer tsc)) EventReasonRejected
                       "Host is taken by another resource"]> problems
            else problems)
  end.

Definition addProblemsForResourcesWithoutActiveHost `{MapRange} (h : store)
    (hosts : gmap string loc) (resources : gmap string loc)
    (problems : gmap string ConfigurationProblem) : option (gmap string ConfigurationProblem) :=
  foldM (problemForResource h hosts) problems
    (range "addProblemsForResourcesWithoutActiveHost" resources).

(** The warning a VirtualServer with custom listeners deserves, if any: the
    chain of tests of addWarningsForVirtualServersWithMissConfiguredListeners. *)
Definition listenerWarning (o : Objects) (vl : VirtualServerListener) : option string :=
  match o_globalConfiguration o with
  | None => Some "Listeners defined, but no GlobalConfiguration is deployed"
  | Some _ =>
      if negb (isListenerInCorrectBlock o (vsl_HTTP vl) false) then
        Some ("Listener " +:+ vsl_HTTP vl +:+
          " can't be use in `listener.http` context as SSL is enabled for that listener.")
      else if negb (isListenerInCorrectBlock o (vsl_HTTPS vl) true) then
        Some ("Listener " +:+ vsl_HTTPS vl +:+
          " can't be use in `listener.https` context as SSL is not enabled for that listener.")
      else if negb (bool_decide (vsl_HTTP vl = ""))
              && bool_decide (o_listenerMap o !! vsl_HTTP vl = None) then
        Some ("Listener " +:+ vsl_HTTP vl +:+ " is not defined in GlobalConfiguration")
      else if negb (bool_decide (vsl_HTTPS vl = ""))
              && bool_decide (o_listenerMap o !! vsl_HTTPS vl = None) then
        Some ("Listener " +:+ vsl_HTTPS vl +:+ " is not defined in GlobalConfiguration")
      else None
  end.

Definition warnMissConfigured (o : Objects) (hosts : gmap string loc) (h : store)
    (e : string * loc) : option store :=
  r ← h !! e.2;
  match r with
  | RVirtualServer vsc =>
      match vs_Listener (vsc_VirtualServer vsc) with
      | None => Some h
      | Some vl =>
          match listenerWarning o vl with
          | None => Some h
          | Some msg =>
              hl ← hosts !! vs_Host (vsc_VirtualServer vsc);
              Some (AddWarning hl msg h)
          end
      end
  | _ => Some h
  end.

Definition addWarningsForVirtualServersWithMissConfiguredListeners `{MapRange} (o : Objects)
    (hosts : gmap string loc) (resources : gmap string loc) (h : store) : option store :=
  foldM (warnMissConfigured o hosts) h
    (range "addWarningsForVirtualServersWithMissConfiguredListeners" resources).

(** addProblemsForOrphanMinions; the inner loop ranges over a set of keys and
    only writes the entry of its own key *)
Definition orphanMinion (o : Objects) (problems : gmap string ConfigurationProblem) (key : string)
    : gmap string ConfigurationProblem :=
  match o_ingresses o !! key with
  | None => problems
  | Some ing =>
      <[getResourceKeyWithKind ingressKind (ing_Meta ing) :=
          mkProblem (OIngress ing) EventReasonNoIngressMasterFound
            "Ingress master is invalid or doesn't exist"]> problems
  end.

Definition hasMaster (h : store) (hosts : gmap string loc) (host : string) : bool :=
  match derefAt h hosts host with
  | Some (_, RIngress ic) => ic_IsMaster ic
  | _ => false
  end.

Definition addProblemsForOrphanMinions `{MapRange} (o : Objects) (h : store)
    (hosts : gmap string loc) (problems : gmap string ConfigurationProblem)
    : gmap string ConfigurationProblem :=
  foldl (λ ps '(host, minionKeys),
           if hasMaster h hosts host then ps
           else foldl (orphanMinion o) ps (elements minionKeys))
    problems (range "addProblemsForOrphanMinions" (o_minionsByHost o)).

(** addProblemsForOrphanOrIgnoredVsrs *)
Definition vsrProblem (o : Objects) (h : store) (hosts : gmap string loc)
    (problems : gmap string ConfigurationProblem) (key : string)
    : gmap string ConfigurationProblem :=
  match o_virtualServerRoutes o !! key with
  | None => problems
  | Some vsr =>
      let k := getResourceKeyWithKind virtualServerRouteKind (vsr_Meta vsr) in
      match derefAt h hosts (vsr_Host vsr) with
      | Some (_, RVirtualServer vsConfig) =>
          let found := existsb (λ v,
            bool_decide (om_Namespace (vsr_Meta vsr) = om_Namespace (vsr_Meta v))
            && bool_decide (om_Name (vsr_Meta vsr) = om_Name (vsr_Meta v)))
            (vsc_VirtualServerRoutes vsConfig) in
          if found then problems
          else <[k := mkProblem (OVirtualServerRoute vsr) EventReasonIgnored
                 ("VirtualServer " +:+ getResourceKey (vs_Meta (vsc_VirtualServer vsConfig))
                  +:+ " ignores VirtualServerRoute")]> problems
      | _ => <[k := mkProblem (OVirtualServerRoute vsr) EventReasonNoVirtualServerFound
                 "VirtualServer is invalid or doesn't exist"]> problems
      end
  end.

Definition addProblemsForOrphanOrIgnoredVsrs (o : Objects) (h : store) (hosts : gmap string loc)
    (problems : gmap string ConfigurationProblem) : gmap string ConfigurationProblem :=
  foldl (vsrProblem o h hosts) problems (sortedKeys (o_virtualServerRoutes o)).

(** ** What the problems say *)

(** The problem of a resource, given the host map: none while it holds a host. *)
Definition resourceProblem (h : store) (hosts : gmap string loc) (r : Resource)
    : option ConfigurationProblem :=
  match r with
  | RIngress ic =>
      if existsb snd (map_to_list (ic_ValidHosts ic)) then None
      else Some (mkProblem (OIngress (ic_Ingress ic)) EventReasonRejected
                   "All hosts are taken by other resources")
  | RVirtualServer vsc =>
      if bool_decide (keyAt h hosts (vs_Host (vsc_VirtualServer vsc)) = Some (GetKeyWithKind r))
      then None
      else Some (mkProblem (OVirtualServer (vsc_VirtualServer vsc)) EventReasonRejected
                   "Host is taken by another resource")
  | RTransportServer tsc =>
      if bool_decide (keyAt h hosts (ts_Host (tsc_TransportServer tsc)) = Some (GetKeyWithKind r))
      then None
      else Some (mkProblem (OTransportServer (tsc_TransportServer tsc)) EventReasonRejected
                   "Host is taken by another resource")
  end.

Section ResourceProblems.
Context `{MR : MapRange}.
Variables (h : store) (hosts : gmap string loc) (resources : gmap string loc).
Hypothesis Hres : ∀ k l, resources !! k = Some l →
  ∃ r, h !! l = Some r ∧ GetKeyWithKind r = k ∧
    ∀ host, host ∈ claimsOf r → ∃ r', holds h hosts host r'.

Definition entryProblem (e : string * loc) : option ConfigurationProblem :=
  r ← h !! e.2; resourceProblem h hosts r.

Lemma problemForResource_eq ps k l :
  resources !! k = Some l →
  problemForResource h hosts ps (k, l) = Some (insertEntry fst entryProblem ps (k, l)).
Proof.
  intros (r & Hr & Hk & Hcl)%Hres. unfold problemForResource, insertEntry, entryProblem. simpl.
  rewrite Hr. simpl. destruct r as [ic|v|t]; cbn [resourceProblem].
  - destruct (existsb _ _); simpl; congruence.
  - destruct (Hcl (vs_Host (vsc_VirtualServer v))) as (r' & Hr'); [set_solver|].
    rewrite (keyAt_holds _ _ _ _ Hr').
    destruct (derefAt_holds _ _ _ _ Hr') as (l' & _ & _ & ->). cbn [mbind option_bind].
    rewrite <- Hk.
    destruct (decide (GetKeyWithKind r' = GetKeyWithKind (RVirtualServer v))) as [Heq|Hne].
    + by rewrite !bool_decide_eq_true_2 by congruence.
    + by rewrite !bool_decide_eq_false_2 by congruence.
  - destruct (Hcl (ts_Host (tsc_TransportServer t))) as (r' & Hr'); [set_solver|].
    rewrite (keyAt_holds _ _ _ _ Hr').
    destruct (derefAt_holds _ _ _ _ Hr') as (l' & _ & _ & ->). cbn [mbind option_bind].
    rewrite <- Hk.
    destruct (decide (GetKeyWithKind r' = GetKeyWithKind (RTransportServer t))) as [Heq|Hne].
    + by rewrite !bool_decide_eq_true_2 by congruence.
    + by rewrite !bool_decide_eq_false_2 by congruence.
Qed.

Lemma resourceProblems_lookup ps0 :
  ∃ ps, addProblemsForResourcesWithoutActiveHost h hosts resources ps0 = Some ps ∧
    (∀ k, resources !! k = None → ps !! k = ps0 !! k) ∧
    (∀ k l r, resources !! k = Some l → h !! l = Some r →
       ps !! k = match resourceProblem h hosts r with Some p => Some p | None => ps0 !! k end).
Proof.
  set (es := range "addProblemsForResourcesWithoutActiveHost" resources).
  assert (∀ k l, (k, l) ∈ es ↔ resources !! k = Some l) as Hes by (intros; apply elem_of_range).
  exists (foldl (insertEntry fst entryProblem) ps0 es).
  split; [|split].
  - apply foldM_total. intros ps [k l] Hin%Hes. by apply problemForResource_eq.
  - intros k Hk. apply foldl_insertEntry_out. intros [k' l] Hin%Hes ?. simpl in *. congruence.
  - intros k l r Hk Hr.
    change k with (fst (k, l)) at 1. rewrite foldl_insertEntry_in.
    + unfold entryProblem. simpl. by rewrite Hr.
    + intros [k' l'] Hin%Hes ?. simpl in *. congruence.
    + by apply Hes.
Qed.
End ResourceProblems.

(** *** Orphan minions *)
Definition orphanProblem (ing : Ingress) : ConfigurationProblem :=
  mkProblem (OIngress ing) EventReasonNoIngressMasterFound
    "Ingress master is invalid or doesn't exist".

Section Orphans.
Context `{MR : MapRange}.
Variables (o : Objects) (h : store) (hosts : gmap string loc).
Hypothesis Hwf : wf_objects o.
Hypothesis Hidx : index_ok (o_ingresses o) (o_minionsByHost o).

(** The keys of the minions of the hosts without a master. *)
Definition orphanKeys : list string :=
  range "addProblemsForOrphanMinions" (o_minionsByHost o) ≫= λ '(host, minionKeys),
    if hasMaster h hosts host then [] else elements minionKeys.

Lemma elem_of_orphanKeys key :
  key ∈ orphanKeys ↔ ∃ ing host, o_ingresses o !! key = Some ing ∧
    minionHost ing = Some host ∧ hasMaster h hosts host = false.
Proof.
  unfold orphanKeys. rewrite list_elem_of_bind. split.
  - intros ([host keys] & Hin & Hr%elem_of_range). simpl in Hin.
    destruct (hasMaster h hosts host) eqn:Hm; [set_solver|].
    apply elem_of_elements in Hin.
    destruct (proj1 (index_exact _ _ Hidx host key)) as (ing & ? & ?); [by exists keys|eauto].
  - intros (ing & host & Hi & Hm & Hno).
    destruct (proj2 (index_exact _ _ Hidx host key)) as (keys & Hk & Hin); [eauto|].
    exists (host, keys). rewrite elem_of_range. split; [|done]. simpl. rewrite Hno.
    by apply elem_of_elements.
Qed.

Lemma orphanMinion_eq ps key :
  orphanMinion o ps key =
  insertEntry (λ k, "Ingress/" +:+ k) (λ k, orphanProblem <$> o_ingresses o !! k) ps key.
Proof.
  unfold orphanMinion, insertEntry. destruct (o_ingresses o !! key) as [ing|] eqn:Hi; [|done]. simpl.
  by rewrite (wfo_ing_key _ Hwf _ _ Hi).
Qed.

Lemma addProblemsForOrphanMinions_eq ps :
  addProblemsForOrphanMinions o h hosts ps =
  foldl (insertEntry (λ k, "Ingress/" +:+ k) (λ k, orphanProblem <$> o_ingresses o !! k)) ps orphanKeys.
Proof.
  unfold addProblemsForOrphanMinions, orphanKeys.
  generalize (range "addProblemsForOrphanMinions" (o_minionsByHost o)) as es.
  intros es. revert ps. induction es as [|[host keys] es IH]; intros ps; [done|]. csimpl.
  rewrite IH, foldl_app. f_equal. destruct (hasMaster h hosts host); [done|].
  generalize (elements keys). intros ks. revert ps. clear IH.
  induction ks as [|k ks IHk]; intros ps; [done|]. simpl. by rewrite orphanMinion_eq, IHk.
Qed.

Lemma orphanMinions_minion ps key ing host :
  o_ingresses o !! key = Some ing → minionHost ing = Some host →
  addProblemsForOrphanMinions o h hosts ps !! ("Ingress/" +:+ key) =
  if hasMaster h hosts host then ps !! ("Ingress/" +:+ key) else Some (orphanProblem ing).
Proof.
  intros Hi Hm. rewrite addProblemsForOrphanMinions_eq. destruct (hasMaster h hosts host) eqn:Hh.
  - apply foldl_insertEntry_out. intros k Hk Heq. apply string_app_inj_l in Heq. subst.
    apply elem_of_orphanKeys in Hk as (ing' & host' & ? & ? & ?). congruence.
  - rewrite (foldl_insertEntry_in (λ k, "Ingress/" +:+ k)) with (e := key).
    + by rewrite Hi.
    + intros k _ Heq. by apply string_app_inj_l in Heq.
    + apply elem_of_orphanKeys. eauto.
Qed.

Lemma orphanMinions_other ps k :
  (∀ key ing, k = "Ingress/" +:+ key → o_ingresses o !! key = Some ing → minionHost ing = None) →
  addProblemsForOrphanMinions o h hosts ps !! k = ps !! k.
Proof.
  intros Hk. rewrite addProblemsForOrphanMinions_eq. apply foldl_insertEntry_out.
  intros key (ing & host & Hi & Hm & _)%elem_of_orphanKeys Heq.
  rewrite (Hk key ing) in Hm by done. done.
Qed.
End Orphans.

(** *** VirtualServerRoutes *)
Definition vsrProblemOf (h : store) (hosts : gmap string loc) (vsr : VirtualServerRoute)
    : option ConfigurationProblem :=
  match derefAt h hosts (vsr_Host vsr) with
  | Some (_, RVirtualServer vsConfig) =>
      if existsb (λ v, bool_decide (om_Namespace (vsr_Meta vsr) = om_Namespace (vsr_Meta v))
            && bool_decide (om_Name (vsr_Meta vsr) = om_Name (vsr_Meta v)))
            (vsc_VirtualServerRoutes vsConfig)
      then None
      else Some (mkProblem (OVirtualServerRoute vsr) EventReasonIgnored
             ("VirtualServer " +:+ getResourceKey (vs_Meta (vsc_VirtualServer vsConfig))
              +:+ " ignores VirtualServerRoute"))
  | _ => Some (mkProblem (OVirtualServerRoute vsr) EventReasonNoVirtualServerFound
             "VirtualServer is invalid or doesn't exist")
  end.

Section VSRProblems.
Variables (o : Objects) (h : store) (hosts : gmap string loc).
Hypothesis Hwf : wf_objects o.

Lemma vsrProblem_eq ps key :
  vsrProblem o h hosts ps key =
  insertEntry (λ k, "VirtualServerRoute/" +:+ k)
    (λ k, vsr ← o_virtualServerRoutes o !! k; vsrProblemOf h hosts vsr) ps key.
Proof.
  unfold vsrProblem, insertEntry, vsrProblemOf.
  destruct (o_virtualServerRoutes o !! key) as [vsr|] eqn:Hv; simpl; [|done].
  rewrite (wfo_vsr_key _ Hwf _ _ Hv). by repeat case_match.
Qed.

Lemma addProblemsForVsrs_eq ps :
  addProblemsForOrphanOrIgnoredVsrs o h hosts ps =
  foldl (insertEntry (λ k, "VirtualServerRoute/" +:+ k)
    (λ k, vsr ← o_virtualServerRoutes o !! k; vsrProblemOf h hosts vsr)) ps
    (sortedKeys (o_virtualServerRoutes o)).
Proof.
  unfold addProblemsForOrphanOrIgnoredVsrs. generalize (sortedKeys (o_virtualServerRoutes o)).
  intros ks. revert ps. induction ks as [|k ks IH]; intros ps; [done|]. simpl.
  by rewrite vsrProblem_eq, IH.
Qed.

Lemma vsrProblems_vsr ps key vsr :
  o_virtualServerRoutes o !! key = Some vsr →
  addProblemsForOrphanOrIgnoredVsrs o h hosts ps !! ("VirtualServerRoute/" +:+ key) =
  match vsrProblemOf h hosts vsr with
  | Some p => Some p
  | None => ps !! ("VirtualServerRoute/" +:+ key)
  end.
Proof.
  intros Hv. rewrite addProblemsForVsrs_eq.
  rewrite (foldl_insertEntry_in (λ k, "VirtualServerRoute/" +:+ k)) with (e := key).
  - by rewrite Hv.
  - intros k _ Heq. by apply string_app_inj_l in Heq.
  - apply elem_of_sortedKeys. by exists vsr.
Qed.

Lemma vsrProblems_other ps k :
  (∀ key, k ≠ "VirtualServerRoute/" +:+ key) →
  addProblemsForOrphanOrIgnoredVsrs o h hosts ps !! k = ps !! k.
Proof.
  intros Hk. rewrite addProblemsForVsrs_eq. apply foldl_insertEntry_out.
  intros key _ Heq. by destruct (Hk key).
Qed.
End VSRProblems.

(** ** detectChangesInProblems reports the new and the changed problems *)
Lemma elem_of_detectChangesInProblems newP oldP p :
  p ∈ detectChangesInProblems newP oldP ↔
  ∃ k, newP !! k = Some p ∧
    (oldP !! k = None ∨ ∃ q, oldP !! k = Some q ∧ compareConfigurationProblems p q = false).
Proof.
  unfold detectChangesInProblems. rewrite list_elem_of_omap. unfold isNewProblem. split.
  - intros (k & _ & Hk). exists k. destruct (newP !! k) as [p'|]; simpl in Hk; [|done].
    destruct (oldP !! k) as [q|]; [|naive_solver].
    destruct (compareConfigurationProblems p' q) eqn:Hc; simplify_eq. eauto.
  - intros (k & Hk & Hold). exists k. split; [apply elem_of_sortedKeys; by eexists|]. rewrite Hk. simpl.
    destruct Hold as [->|(q & -> & ->)]; done.
Qed.

Lemma detectChangesInProblems_same ps : detectChangesInProblems ps ps = [].
Proof.
  apply elem_of_nil_inv. intros p (k & Hk & [?|(q & Hq & Hc)])%elem_of_detectChangesInProblems;
    [congruence|]. simplify_eq. unfold compareConfigurationProblems in Hc.
  by rewrite !bool_decide_eq_true_2 in Hc.
Qed.
