(* ===== verification/Configuration.v ===== *)
(** k8s.Configuration: the rebuild of hosts and listeners and the operations
    the controller calls (internal/k8s/configuration.go).  An operation gives
    [None] for a run-time panic. *)
From S2P Require Import Prelude GoStrings Objects ProxyBuffers Resources ConfigState Minions.
From S2P Require Import VSRoutes Hosts Changes Problems.

Definition result : Type := Configuration * list ResourceChange * list ConfigurationProblem.

Section Ops.
Context `{MR : MapRange} `{V : Validators} `{LS : LabelSelectors}.

(** rebuildListenerHosts *)
Definition rebuildListenerHosts (c : Configuration) : option result :=
  '(h, newListenerHosts, newTSConfigs) ←
    buildListenerHostsAndTSConfigurations (c_objects c) (c_store c);
  '(removed, updated, added) ←
    detectChangesInListenerHosts h (c_listenerHosts c) newListenerHosts;
  changes ← createResourceChangesForListeners h removed updated added
              (c_listenerHosts c) newListenerHosts;
  changes ← squashResourceChanges h changes;
  changes ← mapM (refreshChange h newTSConfigs) changes;
  newProblems ← addProblemsForTSConfigsWithoutActiveListener h newListenerHosts newTSConfigs ∅;
  let newOrUpdatedProblems := detectChangesInProblems newProblems (c_listenerProblems c) in
  Some ({| c_flags := c_flags c; c_objects := c_objects c; c_store := h; c_hosts := c_hosts c;
           c_listenerHosts := newListenerHosts; c_hostProblems := c_hostProblems c;
           c_listenerProblems := newProblems; c_policyServices := c_policyServices c;
           c_startupComplete := c_startupComplete c |},
        changes, newOrUpdatedProblems).

(** rebuildHosts *)
Definition rebuildHosts (c : Configuration) : option result :=
  let o := c_objects c in
  b ← buildHostsAndResources (c_flags c) o (c_store c);
  let newHosts := b_hosts b in
  let newResources := b_resources b in
  h ← updateActiveHostsForIngresses newHosts newResources (b_store b);
  '(removedHosts, updatedHosts, addedHosts) ← detectChangesInHosts h (c_hosts c) newHosts;
  changes ← createResourceChangesForHosts h removedHosts updatedHosts addedHosts
              (c_hosts c) newHosts;
  changes ← squashResourceChanges h changes;
  changes ← mapM (refreshChange h newResources) changes;
  newProblems ← addProblemsForResourcesWithoutActiveHost h newHosts newResources ∅;
  let newProblems := addProblemsForOrphanMinions o h newHosts newProblems in
  let newProblems := addProblemsForOrphanOrIgnoredVsrs o h newHosts newProblems in
  h ← addWarningsForVirtualServersWithMissConfiguredListeners o newHosts newResources h;
  let newOrUpdatedProblems := detectChangesInProblems newProblems (c_hostProblems c) in
  Some ({| c_flags := c_flags c; c_objects := o; c_store := h; c_hosts := newHosts;
           c_listenerHosts := c_listenerHosts c; c_hostProblems := newProblems;
           c_listenerProblems := c_listenerProblems c; c_policyServices := c_policyServices c;
           c_startupComplete := c_startupComplete c |},
        changes, newOrUpdatedProblems).

(** The loop that attaches a validation error to the first change of the
    rejected resource; the flag tells whether there was one. *)
Fixpoint attachError (h : store) (key err : string) (changes : list ResourceChange)
    : option (list ResourceChange * bool) :=
  match changes with
  | [] => Some ([], false)
  | ch :: rest =>
      k ← changeKey h ch;
      if bool_decide (k = key)
      then Some ({| rc_Op := rc_Op ch; rc_Resource := rc_Resource ch; rc_Error := err |} :: rest,
                 true)
      else '(rest', found) ← attachError h key err rest; Some (ch :: rest', found)
  end.

Definition rejection (obj : Object) (message : string) : ConfigurationProblem :=
  {| cp_Object := obj; cp_IsError := true; cp_Reason := EventReasonRejected; cp_Message := message |}.

(** The tail of an AddOrUpdate operation of a resource that can hold hosts:
    a validation error goes to the change of the resource, or is reported as
    a problem when the resource has no change. *)
Definition reportError (key err : string) (p : ConfigurationProblem) (res : result)
    : option result :=
  let '(c, changes, problems) := res in
  attachError (c_store c) key err changes ≫= λ x : list ResourceChange * bool,
  let '(changes', found) := x in
  Some (c, changes', if found then problems else problems ++ [p]).

(** AddOrUpdateIngress *)
Definition AddOrUpdateIngress (ing : Ingress) (c : Configuration) : option result :=
  let key := getResourceKey (ing_Meta ing) in
  let o := c_objects c in
  let remove := set_minionsByHost (set_ingresses o (delete key (o_ingresses o)))
                  (updateMinionIndex key None (o_minionsByHost o)) in
  let '(o', validationError) :=
    if negb (hasCorrectIngressClass (OIngress ing)) then (remove, None)
    else match validateIngress (c_flags c) ing with
         | Some err => (remove, Some err)
         | None => (set_minionsByHost (set_ingresses o (<[key := ing]> (o_ingresses o)))
                      (updateMinionIndex key (Some ing) (o_minionsByHost o)), None)
         end in
  let c := set_objects c o' in
  let problem err := rejection (OIngress ing) err in
  if negb (c_startupComplete c)
  then Some (c, [], from_option (λ err, [problem err]) [] validationError)
  else
    res ← rebuildHosts c;
    match validationError with
    | None => Some res
    | Some err =>
        reportError (getResourceKeyWithKind ingressKind (ing_Meta ing)) err (problem err) res
    end.

(** DeleteIngress *)
Definition DeleteIngress (key : string) (c : Configuration) : option result :=
  let o := c_objects c in
  match o_ingresses o !! key with
  | None => Some (c, [], [])
  | Some _ =>
      let c := set_objects c
                 (set_minionsByHost (set_ingresses o (delete key (o_ingresses o)))
                    (removeMinionFromIndex key (o_minionsByHost o))) in
      if negb (c_startupComplete c) then Some (c, [], []) else rebuildHosts c
  end.

(** balanceUpstreamProxies *)
Definition balanceUpstreamProxies (fl : Flags) (us : list Upstream) : list Upstream :=
  (λ u, BalanceProxiesForUpstreams u (f_isDirectiveAutoadjustEnabled fl)) <$> us.

Definition balanceVS (fl : Flags) (vs : VirtualServer) : VirtualServer :=
  {| vs_Meta := vs_Meta vs; vs_IngressClass := vs_IngressClass vs; vs_Host := vs_Host vs;
     vs_Listener := vs_Listener vs; vs_TLS := vs_TLS vs; vs_Gunzip := vs_Gunzip vs;
     vs_Policies := vs_Policies vs; vs_Upstreams := balanceUpstreamProxies fl (vs_Upstreams vs);
     vs_Routes := vs_Routes vs; vs_HTTPSnippets := vs_HTTPSnippets vs;
     vs_ServerSnippets := vs_ServerSnippets vs; vs_AddHeaderInherit := vs_AddHeaderInherit vs;
     vs_Dos := vs_Dos vs; vs_ExternalDNS := vs_ExternalDNS vs |}.

Definition balanceVSR (fl : Flags) (vsr : VirtualServerRoute) : VirtualServerRoute :=
  {| vsr_Meta := vsr_Meta vsr; vsr_IngressClass := vsr_IngressClass vsr; vsr_Host := vsr_Host vsr;
     vsr_Upstreams := balanceUpstreamProxies fl (vsr_Upstreams vsr);
     vsr_Subroutes := vsr_Subroutes vsr |}.

(** AddOrUpdateVirtualServer *)
Definition AddOrUpdateVirtualServer (vs : VirtualServer) (c : Configuration) : option result :=
  let key := getResourceKey (vs_Meta vs) in
  let o := c_objects c in
  let remove := set_virtualServers o (delete key (o_virtualServers o)) in
  let '(o', validationError) :=
    if negb (hasCorrectIngressClass (OVirtualServer vs)) then (remove, None)
    else match ValidateVirtualServer vs with
         | Some err => (remove, Some err)
         | None => (set_virtualServers o
                      (<[key := balanceVS (c_flags c) vs]> (o_virtualServers o)), None)
         end in
  let c := set_objects c o' in
  let problem err := rejection (OVirtualServer vs)
    ("VirtualServer " +:+ key +:+ " was rejected with error: " +:+ err) in
  if negb (c_startupComplete c)
  then Some (c, [], from_option (λ err, [problem err]) [] validationError)
  else
    res ← rebuildHosts c;
    match validationError with
    | None => Some res
    | Some err =>
        reportError (getResourceKeyWithKind virtualServerKind (vs_Meta vs)) err (problem err) res
    end.

(** DeleteVirtualServer *)
Definition DeleteVirtualServer (key : string) (c : Configuration) : option result :=
  let o := c_objects c in
  match o_virtualServers o !! key with
  | None => Some (c, [], [])
  | Some _ =>
      let c := set_objects c (set_virtualServers o (delete key (o_virtualServers o))) in
      if negb (c_startupComplete c) then Some (c, [], []) else rebuildHosts c
  end.

(** AddOrUpdateVirtualServerRoute *)
Definition AddOrUpdateVirtualServerRoute (vsr : VirtualServerRoute) (c : Configuration)
    : option result :=
  let key := getResourceKey (vsr_Meta vsr) in
  let o := c_objects c in
  let remove := set_virtualServerRoutes o (delete key (o_virtualServerRoutes o)) in
  let '(o', validationError) :=
    if negb (hasCorrectIngressClass (OVirtualServerRoute vsr)) then (remove, None)
    else match ValidateVirtualServerRoute vsr with
         | Some err => (remove, Some err)
         | None => (set_virtualServerRoutes o
                      (<[key := balanceVSR (c_flags c) vsr]> (o_virtualServerRoutes o)), None)
         end in
  let c := set_objects c o' in
  let problem err := rejection (OVirtualServerRoute vsr)
    ("VirtualServerRoute " +:+ key +:+ " was rejected with error: " +:+ err) in
  if negb (c_startupComplete c)
  then Some (c, [], from_option (λ err, [problem err]) [] validationError)
  else
    '(c', changes, problems) ← rebuildHosts c;
    Some (c', changes,
          match validationError with
          | None => problems
          | Some err => problems ++ [problem err]
          end).

(** DeleteVirtualServerRoute *)
Definition DeleteVirtualServerRoute (key : string) (c : Configuration) : option result :=
  let o := c_objects c in
  match o_virtualServerRoutes o !! key with
  | None => Some (c, [], [])
  | Some _ =>
      let c := set_objects c (set_virtualServerRoutes o (delete key (o_virtualServerRoutes o))) in
      if negb (c_startupComplete c) then Some (c, [], []) else rebuildHosts c
  end.

(** The rebuild of the listeners followed, when [hosts] is set, by that of
    the hosts, with their changes and problems appended. *)
Definition rebuildListenersThenHosts (hosts : bool) (c : Configuration) : option result :=
  '(c1, changes1, problems1) ← rebuildListenerHosts c;
  if hosts then
    '(c2, changes2, problems2) ← rebuildHosts c1;
    Some (c2, changes1 ++ changes2, problems1 ++ problems2)
  else Some (c1, changes1, problems1).

(** AddOrUpdateGlobalConfiguration; the last component is the validation error *)
Definition AddOrUpdateGlobalConfiguration (gc : GlobalConfiguration) (c : Configuration)
    : option (result * option string) :=
  let '(gc', validationErr) := ValidateGlobalConfiguration gc in
  let c := set_objects c
    (setGlobalConfigListenerMap (set_globalConfiguration (c_objects c) (Some gc'))) in
  res ← rebuildListenersThenHosts (c_startupComplete c) c;
  Some (res, validationErr).

(** DeleteGlobalConfiguration *)
Definition DeleteGlobalConfiguration (c : Configuration) : option result :=
  let c := set_objects c
    (setGlobalConfigListenerMap (set_globalConfiguration (c_objects c) None)) in
  rebuildListenersThenHosts (c_startupComplete c) c.

(** GetGlobalConfiguration *)
Definition GetGlobalConfiguration (c : Configuration) : option GlobalConfiguration :=
  o_globalConfiguration (c_objects c).

(** AddOrUpdateTransportServer *)
Definition AddOrUpdateTransportServer (ts : TransportServer) (c : Configuration)
    : option result :=
  let key := getResourceKey (ts_Meta ts) in
  let o := c_objects c in
  let remove := set_transportServers o (delete key (o_transportServers o)) in
  let '(o', validationErr) :=
    if negb (hasCorrectIngressClass (OTransportServer ts)) then (remove, None)
    else match ValidateTransportServer ts with
         | Some err => (remove, Some err)
         | None => (set_transportServers o (<[key := ts]> (o_transportServers o)), None)
         end in
  let c := set_objects c o' in
  res ← rebuildListenersThenHosts
          (f_isTLSPassthroughEnabled (c_flags c) && c_startupComplete c) c;
  match validationErr with
  | None => Some res
  | Some err =>
      reportError (getResourceKeyWithKind transportServerKind (ts_Meta ts)) err
        (rejection (OTransportServer ts)
           ("TransportServer " +:+ key +:+ " was rejected with error: " +:+ err)) res
  end.

(** DeleteTransportServer *)
Definition DeleteTransportServer (key : string) (c : Configuration) : option result :=
  let o := c_objects c in
  match o_transportServers o !! key with
  | None => Some (c, [], [])
  | Some _ =>
      let c := set_objects c (set_transportServers o (delete key (o_transportServers o))) in
      rebuildListenersThenHosts
        (f_isTLSPassthroughEnabled (c_flags c) && c_startupComplete c) c
  end.

(** CompleteStartup *)
Definition CompleteStartup (c : Configuration) : option result :=
  rebuildHosts
    {| c_flags := c_flags c; c_objects := c_objects c; c_store := c_store c;
       c_hosts := c_hosts c; c_listenerHosts := c_listenerHosts c;
       c_hostProblems := c_hostProblems c; c_listenerProblems := c_listenerProblems c;
       c_policyServices := c_policyServices c; c_startupComplete := true |}.

(** UpdatePolicyServiceRef, DeletePolicyServiceRef *)
Definition set_policyServices (c : Configuration) (m : gmap string string) : Configuration :=
  {| c_flags := c_flags c; c_objects := c_objects c; c_store := c_store c;
     c_hosts := c_hosts c; c_listenerHosts := c_listenerHosts c;
     c_hostProblems := c_hostProblems c; c_listenerProblems := c_listenerProblems c;
     c_policyServices := m; c_startupComplete := c_startupComplete c |}.

Definition UpdatePolicyServiceRef (policyNamespace policyName authServiceName : string)
    (c : Configuration) : Configuration :=
  set_policyServices c
    (<[policyNamespace +:+ "/" +:+ policyName := authServiceName]> (c_policyServices c)).

Definition DeletePolicyServiceRef (policyNamespace policyName : string) (c : Configuration)
    : Configuration :=
  set_policyServices c (delete (policyNamespace +:+ "/" +:+ policyName) (c_policyServices c)).
End Ops.
