(* ===== verification/References.v ===== *)
(** Which resources reference a Secret, Service, Policy or App Protect object:
    the checkers of internal/k8s/reference_checkers.go and the searches of
    k8s.Configuration that use them (internal/k8s/configuration.go).

    A checker method gives [None] for the nil dereference it would panic with;
    [checker_total] is the promise of a checker to the searches: no panic on an
    Ingress that the validator accepted. *)
From S2P Require Import Prelude GoStrings Objects ProxyBuffers Resources ConfigState Changes.

(** [for ... { if cond { return true } }; return false] with a condition that
    may panic *)
Fixpoint anyM {A} (f : A → option bool) (l : list A) : option bool :=
  match l with
  | [] => Some false
  | x :: l' => b ← f x; if (b : bool) then Some true else anyM f l'
  end.

Lemma anyM_pure {A} (f : A → option bool) (g : A → bool) l :
  (∀ x, x ∈ l → f x = Some (g x)) → anyM f l = Some (existsb g l).
Proof.
  induction l as [|x l IH]; intros Hf; [done|]. cbn [anyM existsb].
  rewrite Hf by set_solver. cbn [mbind option_bind]. rewrite IH by set_solver. by destruct (g x).
Qed.

Lemma anyM_total {A} (f : A → option bool) l :
  (∀ x, x ∈ l → is_Some (f x)) → is_Some (anyM f l).
Proof.
  intros Hf. rewrite (anyM_pure f (λ x, default false (f x))); [eauto|].
  intros x Hx. by destruct (Hf x Hx) as [b ->].
Qed.

Lemma existsb_spec {A} (f : A → bool) l : existsb f l = true ↔ ∃ x, x ∈ l ∧ f x = true.
Proof.
  rewrite existsb_exists. split; intros (x & Hin & Hx); exists x; split; try done;
    by apply list_elem_of_In.
Qed.

(** ** The interface resourceReferenceChecker *)
Record resourceReferenceChecker := {
  IsReferencedByIngress : string → string → Ingress → option bool;
  IsReferencedByMinion : string → string → Ingress → option bool;
  IsReferencedByVirtualServer : string → string → VirtualServer → option bool;
  IsReferencedByVirtualServerRoute : string → string → VirtualServerRoute → option bool;
  IsReferencedByTransportServer : string → string → TransportServer → option bool
}.

Record checker_total (rc : resourceReferenceChecker) : Prop := {
  ct_ingress : ∀ ns n ing, wf_ingress ing → is_Some (IsReferencedByIngress rc ns n ing);
  ct_minion : ∀ ns n ing, wf_ingress ing → is_Some (IsReferencedByMinion rc ns n ing);
  ct_vs : ∀ ns n vs, is_Some (IsReferencedByVirtualServer rc ns n vs);
  ct_vsr : ∀ ns n vsr, is_Some (IsReferencedByVirtualServerRoute rc ns n vsr);
  ct_ts : ∀ ns n ts, is_Some (IsReferencedByTransportServer rc ns n ts)
}.

(** Annotation names of internal/configs/annotations.go *)
Definition PoliciesAnnotation : string := "nginx.org/policies".
Definition PoliciesAnnotationPlus : string := "nginx.com/policies".
Definition JWTKeyAnnotation : string := "nginx.com/jwt-key".
Definition BasicAuthSecretAnnotation : string := "nginx.org/basic-auth-secret".
Definition AppProtectPolicyAnnotation : string := "appprotect.f5.com/app-protect-policy".
Definition AppProtectLogConfAnnotation : string := "appprotect.f5.com/app-protect-security-log".
Definition AppProtectDosProtectedAnnotation : string :=
  "appprotectdos.f5.com/app-protect-dos-resource".

(** ** Secrets *)

Definition secretByMinion (isPlus : bool) (ns name : string) (ing : Ingress) : bool :=
  if negb (bool_decide (om_Namespace (ing_Meta ing) = ns)) then false
  else (isPlus && bool_decide (annotationExists (ing_Meta ing) JWTKeyAnnotation = Some name))
       || bool_decide (annotationExists (ing_Meta ing) BasicAuthSecretAnnotation = Some name).

Definition secretByIngress (isPlus : bool) (ns name : string) (ing : Ingress) : bool :=
  if negb (bool_decide (om_Namespace (ing_Meta ing) = ns)) then false
  else existsb (λ tls, bool_decide (it_SecretName tls = name)) (ing_TLS ing)
       || (isPlus && bool_decide (annotationExists (ing_Meta ing) JWTKeyAnnotation = Some name))
       || bool_decide (annotationExists (ing_Meta ing) BasicAuthSecretAnnotation = Some name).

Definition secretByVirtualServer (ns name : string) (vs : VirtualServer) : bool :=
  if negb (bool_decide (om_Namespace (vs_Meta vs) = ns)) then false
  else bool_decide (tls_Secret <$> vs_TLS vs = Some name).

Definition secretByTransportServer (ns name : string) (ts : TransportServer) : bool :=
  if negb (bool_decide (om_Namespace (ts_Meta ts) = ns)) then false
  else bool_decide (ts_TLSSecret ts = Some name).

Definition newSecretReferenceChecker (isPlus : bool) : resourceReferenceChecker :=
  {| IsReferencedByIngress := λ ns n ing, Some (secretByIngress isPlus ns n ing);
     IsReferencedByMinion := λ ns n ing, Some (secretByMinion isPlus ns n ing);
     IsReferencedByVirtualServer := λ ns n vs, Some (secretByVirtualServer ns n vs);
     IsReferencedByVirtualServerRoute := λ _ _ _, Some false;
     IsReferencedByTransportServer := λ ns n ts, Some (secretByTransportServer ns n ts) |}.

(** ** Services *)

(** policies.GetPolicyRefsFromAnnotation *)
Definition policyRefOf (namespace policyName : string) : PolicyReference :=
  let policyName := TrimSpace policyName in
  match Split slash policyName with
  | [ns; name] => {| pr_Name := name; pr_Namespace := ns |}
  | _ => {| pr_Name := policyName; pr_Namespace := namespace |}
  end.
Definition GetPolicyRefsFromAnnotation (value namespace : string) : list PolicyReference :=
  policyRefOf namespace <$> Split comma value.

(** The namespace of a policy reference of an object in [ownerNamespace] *)
Definition policyNamespaceOf (p : PolicyReference) (ownerNamespace : string) : string :=
  if bool_decide (pr_Namespace p = "") then ownerNamespace else pr_Namespace p.

Definition isPolicyServiceReferenced (policyServices : gmap string string)
    (svcNamespace svcName : string) (policies : list PolicyReference) (ownerNamespace : string)
    : bool :=
  if bool_decide (policyServices = ∅) then false
  else existsb (λ p,
    let policyNamespace := policyNamespaceOf p ownerNamespace in
    match policyServices !! (policyNamespace +:+ "/" +:+ pr_Name p) with
    | None => false
    | Some authServiceName =>
        bool_decide (ParseServiceReference authServiceName policyNamespace = (svcNamespace, svcName))
    end) policies.

(** [backend.Service.Name == svcName], which dereferences Service *)
Definition backendIs (svcName : string) (b : IngressBackend) : option bool :=
  svc ← ib_Service b; Some (bool_decide (isb_Name svc = svcName)).

Definition serviceByBackends (svcName : string) (ing : Ingress) : option bool :=
  byDefault ← from_option (backendIs svcName) (Some false) (ing_DefaultBackend ing);
  if (byDefault : bool) then Some true
  else anyM (λ r, from_option (anyM (λ p, backendIs svcName (ip_Backend p))) (Some false) (ir_HTTP r))
         (ing_Rules ing).

Definition serviceByIngress (policyServices : gmap string string)
    (svcNamespace svcName : string) (ing : Ingress) : option bool :=
  let ns := om_Namespace (ing_Meta ing) in
  byBackend ← (if bool_decide (ns = svcNamespace) then serviceByBackends svcName ing
               else Some false);
  if (byBackend : bool) then Some true
  else Some (match annotationExists (ing_Meta ing) PoliciesAnnotation with
             | Some value => isPolicyServiceReferenced policyServices svcNamespace svcName
                               (GetPolicyRefsFromAnnotation value ns) ns
             | None => false
             end).

Definition serviceByVirtualServer (hasClusterIP : bool) (policyServices : gmap string string)
    (svcNamespace svcName : string) (vs : VirtualServer) : bool :=
  let ns := om_Namespace (vs_Meta vs) in
  existsb (λ u,
    if hasClusterIP && u_UseClusterIP u then false
    else bool_decide (ParseServiceReference (u_Service u) ns = (svcNamespace, svcName))
         || (bool_decide (ns = svcNamespace) && bool_decide (u_Backup u = svcName)))
    (vs_Upstreams vs)
  || isPolicyServiceReferenced policyServices svcNamespace svcName (vs_Policies vs) ns
  || existsb (λ r, isPolicyServiceReferenced policyServices svcNamespace svcName (r_Policies r) ns)
       (vs_Routes vs).

Definition serviceByVirtualServerRoute (hasClusterIP : bool)
    (policyServices : gmap string string) (svcNamespace svcName : string)
    (vsr : VirtualServerRoute) : bool :=
  let ns := om_Namespace (vsr_Meta vsr) in
  existsb (λ u,
    if hasClusterIP && u_UseClusterIP u then false
    else bool_decide (ParseServiceReference (u_Service u) ns = (svcNamespace, svcName)))
    (vsr_Upstreams vsr)
  || existsb (λ r, isPolicyServiceReferenced policyServices svcNamespace svcName (r_Policies r) ns)
       (vsr_Subroutes vsr).

Definition serviceByTransportServer (svcNamespace svcName : string) (ts : TransportServer)
    : bool :=
  if negb (bool_decide (om_Namespace (ts_Meta ts) = svcNamespace)) then false
  else existsb (λ u, bool_decide (tsu_Service u = svcName) || bool_decide (tsu_Backup u = svcName))
         (ts_Upstreams ts).

Definition newServiceReferenceChecker (hasClusterIP : bool) (policyServices : gmap string string)
    : resourceReferenceChecker :=
  {| IsReferencedByIngress := serviceByIngress policyServices;
     IsReferencedByMinion := serviceByIngress policyServices;
     IsReferencedByVirtualServer := λ ns n vs,
       Some (serviceByVirtualServer hasClusterIP policyServices ns n vs);
     IsReferencedByVirtualServerRoute := λ ns n vsr,
       Some (serviceByVirtualServerRoute hasClusterIP policyServices ns n vsr);
     IsReferencedByTransportServer := λ ns n ts, Some (serviceByTransportServer ns n ts) |}.

(** ** Policies *)

Definition isPolicyReferenced (policies : list PolicyReference)
    (resourceNamespace policyNamespace policyName : string) : bool :=
  existsb (λ p, bool_decide (pr_Name p = policyName)
                && bool_decide (policyNamespaceOf p resourceNamespace = policyNamespace)) policies.

Definition policyByAnnotation (policyNamespace policyName : string) (ing : Ingress)
    (key : string) : bool :=
  match annotationExists (ing_Meta ing) key with
  | None => false
  | Some value =>
      existsb (λ p, let p := TrimSpace p in
        bool_decide (p = FormatResourceReference policyNamespace policyName)
        || (bool_decide (policyNamespace = om_Namespace (ing_Meta ing))
            && bool_decide (p = policyName))) (Split comma value)
  end.

Definition policyByIngress (policyNamespace policyName : string) (ing : Ingress) : bool :=
  existsb (policyByAnnotation policyNamespace policyName ing)
    [PoliciesAnnotation; PoliciesAnnotationPlus].

Definition policyByVirtualServer (policyNamespace policyName : string) (vs : VirtualServer)
    : bool :=
  let ns := om_Namespace (vs_Meta vs) in
  isPolicyReferenced (vs_Policies vs) ns policyNamespace policyName
  || existsb (λ r, isPolicyReferenced (r_Policies r) ns policyNamespace policyName) (vs_Routes vs).

Definition policyByVirtualServerRoute (policyNamespace policyName : string)
    (vsr : VirtualServerRoute) : bool :=
  existsb (λ r, isPolicyReferenced (r_Policies r) (om_Namespace (vsr_Meta vsr))
                  policyNamespace policyName) (vsr_Subroutes vsr).

Definition newPolicyReferenceChecker : resourceReferenceChecker :=
  {| IsReferencedByIngress := λ ns n ing, Some (policyByIngress ns n ing);
     IsReferencedByMinion := λ ns n ing, Some (policyByIngress ns n ing);
     IsReferencedByVirtualServer := λ ns n vs, Some (policyByVirtualServer ns n vs);
     IsReferencedByVirtualServerRoute := λ ns n vsr, Some (policyByVirtualServerRoute ns n vsr);
     IsReferencedByTransportServer := λ _ _ _, Some false |}.

(** ** App Protect and App Protect DoS *)

(** [res == namespace+"/"+name || (namespace == owner && res == name)] *)
Definition refersTo (namespace name owner res : string) : bool :=
  bool_decide (res = namespace +:+ "/" +:+ name)
  || (bool_decide (namespace = owner) && bool_decide (res = name)).

Definition appProtectByIngress (key ns name : string) (ing : Ingress) : bool :=
  match annotationExists (ing_Meta ing) key with
  | None => false
  | Some resName =>
      existsb (refersTo ns name (om_Namespace (ing_Meta ing))) (Split comma resName)
  end.

Definition newAppProtectResourceReferenceChecker (key : string) : resourceReferenceChecker :=
  {| IsReferencedByIngress := λ ns n ing, Some (appProtectByIngress key ns n ing);
     IsReferencedByMinion := λ _ _ _, Some false;
     IsReferencedByVirtualServer := λ _ _ _, Some false;
     IsReferencedByVirtualServerRoute := λ _ _ _, Some false;
     IsReferencedByTransportServer := λ _ _ _, Some false |}.

Definition dosByIngress (key ns name : string) (ing : Ingress) : bool :=
  match annotationExists (ing_Meta ing) key with
  | None => false
  | Some res => refersTo ns name (om_Namespace (ing_Meta ing)) res
  end.

Definition dosByVirtualServer (ns name : string) (vs : VirtualServer) : bool :=
  let refers := refersTo ns name (om_Namespace (vs_Meta vs)) in
  refers (vs_Dos vs) || existsb (λ r, refers (r_Dos r)) (vs_Routes vs).

Definition dosByVirtualServerRoute (ns name : string) (vsr : VirtualServerRoute) : bool :=
  existsb (λ r, refersTo ns name (om_Namespace (vsr_Meta vsr)) (r_Dos r)) (vsr_Subroutes vsr).

Definition newDosResourceReferenceChecker (key : string) : resourceReferenceChecker :=
  {| IsReferencedByIngress := λ ns n ing, Some (dosByIngress key ns n ing);
     IsReferencedByMinion := λ _ _ _, Some false;
     IsReferencedByVirtualServer := λ ns n vs, Some (dosByVirtualServer ns n vs);
     IsReferencedByVirtualServerRoute := λ ns n vsr, Some (dosByVirtualServerRoute ns n vsr);
     IsReferencedByTransportServer := λ _ _ _, Some false |}.

(** ** Rate-limit scaling *)

(** The range over the annotations looks for one key. *)
Definition ratelimitByIngress (ing : Ingress) : bool :=
  bool_decide (annotationExists (ing_Meta ing) "nginx.org/limit-req-scale" = Some "true").

Definition ratelimitScalingAnnotationChecker : resourceReferenceChecker :=
  {| IsReferencedByIngress := λ _ _ ing, Some (ratelimitByIngress ing);
     IsReferencedByMinion := λ _ _ ing, Some (ratelimitByIngress ing);
     IsReferencedByVirtualServer := λ _ _ _, Some false;
     IsReferencedByVirtualServerRoute := λ _ _ _, Some false;
     IsReferencedByTransportServer := λ _ _ _, Some false |}.

(** ** The searches *)

(** Whether a resource of the configuration, or a part of it, references the
    object *)
Definition resourceReferences (rc : resourceReferenceChecker) (namespace name : string)
    (r : Resource) : option bool :=
  match r with
  | RIngress ic =>
      b ← IsReferencedByIngress rc namespace name (ic_Ingress ic);
      if (b : bool) then Some true
      else anyM (λ fm, IsReferencedByMinion rc namespace name (mc_Ingress fm)) (ic_Minions ic)
  | RVirtualServer vsc =>
      b ← IsReferencedByVirtualServer rc namespace name (vsc_VirtualServer vsc);
      if (b : bool) then Some true
      else anyM (IsReferencedByVirtualServerRoute rc namespace name) (vsc_VirtualServerRoutes vsc)
  | RTransportServer tsc => IsReferencedByTransportServer rc namespace name (tsc_TransportServer tsc)
  end.

(** One iteration of either loop *)
Definition searchStep (rc : resourceReferenceChecker) (namespace name : string) (h : store)
    (result : list loc) (l : loc) : option (list loc) :=
  r ← h !! l;
  b ← resourceReferences rc namespace name r;
  Some (if (b : bool) then result ++ [l] else result).

(** The resources in the order of the search: the holder of each host, then of
    each listener and host *)
Definition hostHolders (c : Configuration) : list loc :=
  omap (c_hosts c !!.) (sortedKeys (c_hosts c)).
Definition listenerHolders (c : Configuration) : list loc :=
  omap (c_listenerHosts c !!.) (getSortedListenerHostKeys (c_listenerHosts c)).

Definition findResourcesForResourceReference (namespace name : string)
    (checker : resourceReferenceChecker) (c : Configuration) : option (list loc) :=
  result ← foldM (searchStep checker namespace name (c_store c)) [] (hostHolders c);
  foldM (searchStep checker namespace name (c_store c)) result (listenerHolders c).

Definition serviceReferenceChecker (c : Configuration) : resourceReferenceChecker :=
  newServiceReferenceChecker false (c_policyServices c).
Definition endpointReferenceChecker (c : Configuration) : resourceReferenceChecker :=
  newServiceReferenceChecker true (c_policyServices c).

Definition FindResourcesForService (svcNamespace svcName : string) (c : Configuration) :=
  findResourcesForResourceReference svcNamespace svcName (serviceReferenceChecker c) c.
Definition FindResourcesForEndpoints (ns name : string) (c : Configuration) :=
  findResourcesForResourceReference ns name (endpointReferenceChecker c) c.
Definition FindResourcesForSecret (ns name : string) (c : Configuration) :=
  findResourcesForResourceReference ns name (newSecretReferenceChecker (f_isPlus (c_flags c))) c.
Definition FindResourcesForPolicy (ns name : string) (c : Configuration) :=
  findResourcesForResourceReference ns name newPolicyReferenceChecker c.
Definition FindResourcesForAppProtectPolicyAnnotation (ns name : string) (c : Configuration) :=
  findResourcesForResourceReference ns name
    (newAppProtectResourceReferenceChecker AppProtectPolicyAnnotation) c.
Definition FindResourcesForAppProtectLogConfAnnotation (ns name : string) (c : Configuration) :=
  findResourcesForResourceReference ns name
    (newAppProtectResourceReferenceChecker AppProtectLogConfAnnotation) c.
Definition FindResourcesForAppProtectDosProtected (ns name : string) (c : Configuration) :=
  findResourcesForResourceReference ns name
    (newDosResourceReferenceChecker AppProtectDosProtectedAnnotation) c.
Definition FindIngressesWithRatelimitScaling (svcNamespace : string) (c : Configuration) :=
  findResourcesForResourceReference svcNamespace "" ratelimitScalingAnnotationChecker c.

(** The service checks of single objects *)
Definition IsServiceReferencedByVirtualServer (ns name : string) (vs : VirtualServer)
    (c : Configuration) := IsReferencedByVirtualServer (serviceReferenceChecker c) ns name vs.
Definition IsServiceReferencedByVirtualServerRoute (ns name : string) (vsr : VirtualServerRoute)
    (c : Configuration) := IsReferencedByVirtualServerRoute (serviceReferenceChecker c) ns name vsr.
Definition IsServiceReferencedByIngress (ns name : string) (ing : Ingress) (c : Configuration) :=
  IsReferencedByIngress (serviceReferenceChecker c) ns name ing.
Definition IsServiceReferencedByMinion (ns name : string) (ing : Ingress) (c : Configuration) :=
  IsReferencedByMinion (serviceReferenceChecker c) ns name ing.

(** The queries of k8s.Configuration over its deployed resources: GetResources,
    GetResourcesWithFilter and GetTransportServerMetrics
    (internal/k8s/configuration.go). *)

Record resourceFilter := {
  rf_Ingresses : bool;
  rf_VirtualServers : bool;
  rf_TransportServers : bool
}.

(** The type switch of GetResourcesWithFilter *)
Definition passes (filter : resourceFilter) (r : Resource) : bool :=
  match r with
  | RIngress _ => rf_Ingresses filter
  | RVirtualServer _ => rf_VirtualServers filter
  | RTransportServer _ => rf_TransportServers filter
  end.

(** [resources[r.GetKeyWithKind()] = r], for the resources that pass *)
Definition collect (h : store) (pass : Resource → bool) (resources : gmap string loc) (l : loc)
    : option (gmap string loc) :=
  r ← h !! l; Some (if pass r then <[GetKeyWithKind r := l]> resources else resources).

Section Queries.
Context `{MR : MapRange}.

Definition GetResourcesWithFilter (filter : resourceFilter) (c : Configuration)
    : option (list loc) :=
  resources ← foldM (collect (c_store c) (passes filter)) ∅
                (range "GetResources/hosts" (c_hosts c)).*2;
  resources ← (if rf_TransportServers filter
               then foldM (collect (c_store c) (λ _, true)) resources
                      (range "GetResources/listenerHosts" (c_listenerHosts c)).*2
               else Some resources);
  mapM (λ key, (resources : gmap string loc) !! key) (sortedKeys resources).

Definition GetResources (c : Configuration) : option (list loc) :=
  GetResourcesWithFilter
    {| rf_Ingresses := true; rf_VirtualServers := true; rf_TransportServers := true |} c.

Record TransportServerMetrics := {
  TotalTLSPassthrough : nat;
  TotalTCP : nat;
  TotalUDP : nat
}.

Definition countPassthrough (h : store) (n : nat) (l : loc) : option nat :=
  r ← h !! l; Some (match r with RTransportServer _ => S n | _ => n end).

Definition countProtocol (h : store) (st : nat * nat) (l : loc) : option (nat * nat) :=
  let '(tcp, udp) := st in
  r ← h !! l;
  match r with
  | RTransportServer tsc =>
      Some (if bool_decide (tsl_Protocol (ts_Listener (tsc_TransportServer tsc)) = "TCP")
            then (S tcp, udp) else (tcp, S udp))
  | _ => None
  end.

Definition GetTransportServerMetrics (c : Configuration) : option TransportServerMetrics :=
  passthrough ← (if f_isTLSPassthroughEnabled (c_flags c)
                 then foldM (countPassthrough (c_store c)) 0
                        (range "GetTransportServerMetrics/hosts" (c_hosts c)).*2
                 else Some 0);
  '(tcp, udp) ← foldM (countProtocol (c_store c)) (0, 0)
                  (range "GetTransportServerMetrics/listenerHosts" (c_listenerHosts c)).*2;
  Some {| TotalTLSPassthrough := passthrough; TotalTCP := tcp; TotalUDP := udp |}.
End Queries.

(** ** What the collecting loops give *)

Lemma foldM_collect_eq h pass m ls :
  (∀ l, l ∈ ls → is_Some (h !! l)) →
  ∃ m', foldM (collect h pass) m ls = Some m' ∧
    (∀ k l, m' !! k = Some l → m !! k = Some l ∨
       l ∈ ls ∧ ∃ r, h !! l = Some r ∧ pass r = true ∧ GetKeyWithKind r = k) ∧
    (∀ k, is_Some (m' !! k) ↔ is_Some (m !! k) ∨
       ∃ l r, l ∈ ls ∧ h !! l = Some r ∧ pass r = true ∧ GetKeyWithKind r = k).
Proof.
  revert m. induction ls as [|l ls IH]; intros m Hv.
  - exists m. split; [done|]. split; [auto|]. intros k. split; [auto|].
    intros [?|(l & r & Hin & _)]; [done|by apply elem_of_nil in Hin].
  - destruct (Hv l) as [r Hr]; [set_solver|]. rewrite foldM_cons.
    assert (collect h pass m l = Some (if pass r then <[GetKeyWithKind r := l]> m else m)) as ->
      by (unfold collect; by rewrite Hr).
    cbn [mbind option_bind].
    destruct (IH (if pass r then <[GetKeyWithKind r := l]> m else m)) as (m' & -> & Hs & Hd);
      [intros; apply Hv; set_solver|].
    exists m'. split; [done|]. split.
    + intros k l' Hk. destruct (Hs k l' Hk) as [Hm|(? & r' & ?)]; [|right; set_solver].
      destruct (pass r) eqn:Hp; [|auto].
      apply lookup_insert_Some in Hm as [[<- <-]|[_ ?]]; [|auto].
      right. split; [set_solver|eauto].
    + intros k. rewrite Hd. destruct (pass r) eqn:Hp.
      * rewrite lookup_insert_is_Some. split.
        -- intros [[<-|[_ ?]]|(l' & r' & ? & ?)]; [right|by left|right].
           ++ exists l, r. set_solver.
           ++ exists l', r'. set_solver.
        -- intros [?|(l' & r' & [->|?]%elem_of_cons & ?)].
           ++ left. destruct (decide (GetKeyWithKind r = k)); auto.
           ++ left. left. naive_solver.
           ++ right. eauto.
      * split; (intros [?|(l' & r' & Hin & Hl' & ? & ?)]; [by left|]).
        -- right. exists l', r'. set_solver.
        -- apply elem_of_cons in Hin as [->|?]; [congruence|]. right. eauto 6.
Qed.

(** The distinct resources of a list of holders, by key. *)
Lemma mapM_lookup_sortedKeys (m : gmap string loc) :
  ∃ ls, mapM (λ key, m !! key) (sortedKeys m) = Some ls ∧
    Forall2 (λ k l, m !! k = Some l) (sortedKeys m) ls.
Proof.
  assert (is_Some (mapM (λ key, m !! key) (sortedKeys m))) as [ls Hls].
  { apply mapM_is_Some, Forall_forall. intros k Hk. by apply elem_of_sortedKeys in Hk. }
  exists ls. split; [done|]. by apply mapM_Some.
Qed.
