(* ===== verification/HostRebuild.v ===== *)
(** Correctness of rebuildHosts: it never panics on well-formed objects, the
    host map is that of the ownership specification, the changes it returns are
    exact, and the problems are those of the objects without a host. *)
From S2P Require Import Prelude GoStrings Objects ProxyBuffers Resources ConfigState Minions.
From S2P Require Import VSRoutes Hosts Changes Problems Configuration.

(** ** Stores that differ in warnings only *)
Definition noWarnings (r : Resource) : Resource :=
  match r with
  | RIngress ic => RIngress
      {| ic_Ingress := ic_Ingress ic; ic_IsMaster := ic_IsMaster ic;
         ic_Minions := ic_Minions ic; ic_ValidHosts := ic_ValidHosts ic;
         ic_Warnings := []; ic_ChildWarnings := ic_ChildWarnings ic |}
  | _ => core r
  end.

Definition ssim (h h' : store) : Prop := noWarnings <$> h = noWarnings <$> h'.

#[export] Instance ssim_equiv : Equivalence ssim.
Proof.
  split.
  - intros h. reflexivity.
  - intros h h' H. by symmetry.
  - intros h1 h2 h3 H1 H2. unfold ssim in *. congruence.
Qed.

Lemma ssim_AddWarning l w h : ssim h (AddWarning l w h).
Proof.
  unfold ssim, AddWarning. apply list_eq. intros k. rewrite !list_lookup_fmap.
  destruct (decide (l = k)) as [->|].
  - rewrite list_lookup_alter_eq. destruct (h !! k) as [r|]; [|done]. by destruct r.
  - by rewrite list_lookup_alter_ne.
Qed.

Lemma ssim_lookup h h' l r : ssim h h' → h !! l = Some r →
  ∃ r', h' !! l = Some r' ∧ noWarnings r = noWarnings r'.
Proof.
  intros Hs Hl. assert ((noWarnings <$> h') !! l = Some (noWarnings r)) as Hx
    by (rewrite <- Hs, list_lookup_fmap, Hl; done).
  apply list_lookup_fmap_Some in Hx as (r' & ? & ?). eauto.
Qed.

Lemma noWarnings_core r r' : noWarnings r = noWarnings r' → core r = core r'.
Proof. destruct r, r'; simpl; intros; simplify_eq/=; f_equal; congruence. Qed.

Lemma noWarnings_key r r' : noWarnings r = noWarnings r' → GetKeyWithKind r = GetKeyWithKind r'.
Proof. intros H. by apply core_key, noWarnings_core. Qed.

Lemma noWarnings_validHosts r r' : noWarnings r = noWarnings r' → validHostsOf r = validHostsOf r'.
Proof. destruct r, r'; simpl; intros; simplify_eq/=; congruence. Qed.

Lemma hostStale_noWarnings r r' : hostStale r r' = hostStale (noWarnings r) (noWarnings r').
Proof. by destruct r, r'. Qed.

Lemma listenerStale_noWarnings r r' :
  listenerStale r r' = listenerStale (noWarnings r) (noWarnings r').
Proof. by destruct r, r'. Qed.

Section Ssim.
Context `{Countable K}.
Implicit Types M oldM newM : gmap K loc.

Lemma holds_ssim h h' M k r : ssim h h' → holds h M k r →
  ∃ r', holds h' M k r' ∧ noWarnings r = noWarnings r'.
Proof.
  intros Hs (l & Hl & Hr). destruct (ssim_lookup _ _ _ _ Hs Hr) as (r' & Hr' & Hn).
  exists r'. split; [by exists l|done].
Qed.

Lemma map_ok_ssim h h' M : ssim h h' → map_ok h M → map_ok h' M.
Proof.
  intros Hs [Hv Hu]. symmetry in Hs. split.
  - intros k l Hl. destruct (Hv _ _ Hl) as [r Hr]. symmetry in Hs.
    destruct (ssim_lookup _ _ _ _ Hs Hr) as (r' & ? & _). by exists r'.
  - intros k1 k2 l1 l2 r1 r2 H1 H2 Hr1 Hr2 Heq.
    destruct (ssim_lookup _ _ _ _ Hs Hr1) as (r1' & Hr1' & Hn1).
    destruct (ssim_lookup _ _ _ _ Hs Hr2) as (r2' & Hr2' & Hn2).
    eapply (Hu k1 k2); [done..|]. apply noWarnings_key in Hn1, Hn2. congruence.
Qed.

Variable stale : Resource → Resource → bool.
Hypothesis Hst : ∀ r r', stale r r' = stale (noWarnings r) (noWarnings r').

Lemma lost_ssim h h' oldM newM k : ssim h h' → lost h oldM newM k → lost h' oldM newM k.
Proof.
  intros Hs (p & r & Hr & Hk & Hno).
  destruct (holds_ssim _ _ _ _ _ Hs Hr) as (r' & Hr' & Hn). apply noWarnings_key in Hn.
  exists p, r'. split_and!; [done|congruence|]. intros (x & Hx & Hkx). symmetry in Hs.
  destruct (holds_ssim _ _ _ _ _ Hs Hx) as (x' & Hx' & Hnx). apply noWarnings_key in Hnx.
  apply Hno. exists x'. split; [done|congruence].
Qed.

Lemma gained_ssim h h' oldM newM k :
  ssim h h' → gained h oldM newM stale k → gained h' oldM newM stale k.
Proof.
  intros Hs (p & r & Hr & Hk & Hno).
  destruct (holds_ssim _ _ _ _ _ Hs Hr) as (r' & Hr' & Hn).
  exists p, r'. split_and!; [done|apply noWarnings_key in Hn; congruence|].
  intros (x & Hx & Hsx). symmetry in Hs.
  destruct (holds_ssim _ _ _ _ _ Hs Hx) as (x' & Hx' & Hnx).
  apply Hno. exists x'. split; [done|]. rewrite Hst in *. congruence.
Qed.

Lemma exact_changes_ssim h h' oldM newM kcs :
  ssim h h' → exact_changes h oldM newM stale kcs → exact_changes h' oldM newM stale kcs.
Proof.
  intros Hs [Hk Hnd Hu Hd Hc]. pose proof Hs as Hs'. symmetry in Hs'. split.
  - intros k c Hin. specialize (Hk _ _ Hin). unfold changeKey in *.
    destruct (h !! rc_Resource c) as [r|] eqn:Hr; simpl in Hk; [|done].
    destruct (ssim_lookup _ _ _ _ Hs Hr) as (r' & -> & Hn). simpl.
    apply noWarnings_key in Hn. congruence.
  - done.
  - intros k c Hin Hop. destruct (Hu _ _ Hin Hop) as [? ?]. split; [by eapply gained_ssim|done].
  - intros k c Hin Hop. destruct (Hd _ _ Hin Hop) as [? Hng]. split; [by eapply lost_ssim|].
    intros ?. apply Hng. by eapply gained_ssim.
  - intros k [?|?]; apply Hc; [left; by eapply gained_ssim|right; by eapply lost_ssim].
Qed.
End Ssim.

(** ** The invariant of the host map *)

(** Pointers are valid and unique per resource; a host is held by a resource
    that asks for it; the ValidHosts of an Ingress that holds a host are the
    hosts it holds. *)
Record hosts_ok (h : store) (hosts : gmap string loc) : Prop := {
  ho_map : map_ok h hosts;
  ho_claims : ∀ host r, holds h hosts host r → host ∈ claimsOf r;
  ho_valid : ∀ host ic, holds h hosts host (RIngress ic) → ∀ host',
    ic_ValidHosts ic !! host' = Some true ↔ keyAt h hosts host' = Some (GetKeyWithKind (RIngress ic))
}.

Lemma keyAt_ssim `{Countable K} h h' (M : gmap K loc) k : ssim h h' → keyAt h M k = keyAt h' M k.
Proof.
  intros Hs. unfold keyAt, derefAt. destruct (M !! k) as [l|]; simpl; [|done].
  destruct (h !! l) as [r|] eqn:Hr; simpl.
  - destruct (ssim_lookup _ _ _ _ Hs Hr) as (r' & -> & Hn%noWarnings_key). simpl. by rewrite Hn.
  - destruct (h' !! l) as [r'|] eqn:Hr'; simpl; [|done]. symmetry in Hs.
    destruct (ssim_lookup _ _ _ _ Hs Hr') as (? & ? & _). congruence.
Qed.

Lemma hosts_ok_ssim h h' hosts : ssim h h' → hosts_ok h hosts → hosts_ok h' hosts.
Proof.
  intros Hs [Hm Hc Hv]. pose proof Hs as Hs'. symmetry in Hs'. split.
  - by eapply map_ok_ssim.
  - intros host r Hr. destruct (holds_ssim _ _ _ _ _ Hs' Hr) as (r' & Hr' & Hn%noWarnings_core).
    rewrite (core_claims _ _ Hn). by apply Hc.
  - intros host ic Hr host'. destruct (holds_ssim _ _ _ _ _ Hs' Hr) as (r' & Hr' & Hn).
    rewrite <- (keyAt_ssim h h' hosts) by done. rewrite (noWarnings_key _ _ Hn).
    destruct r' as [ic'| |]; [|done..].
    apply noWarnings_validHosts in Hn. simpl in Hn. rewrite Hn. by eapply Hv.
Qed.

(** Only the part of the store the pointers reach matters. *)
Lemma holds_frame `{Countable K} h h' (M : gmap K loc) k r :
  (∀ l, l < length h → h' !! l = h !! l) → map_ok h M → holds h' M k r ↔ holds h M k r.
Proof.
  intros Hf [Hv _]. unfold holds. split; intros (l & Hl & Hr); exists l; (split; [done|]);
    destruct (Hv _ _ Hl) as [x Hx]; pose proof (lookup_lt_Some _ _ _ Hx) as Hlt;
    specialize (Hf _ Hlt); congruence.
Qed.

Lemma map_ok_frame `{Countable K} h h' (M : gmap K loc) :
  (∀ l, l < length h → h' !! l = h !! l) → map_ok h M → map_ok h' M.
Proof.
  intros Hf [Hv Hu].
  assert (∀ k l, M !! k = Some l → h' !! l = h !! l) as Heq.
  { intros k l Hl. apply Hf. destruct (Hv _ _ Hl) as [r Hr]. by eapply lookup_lt_Some. }
  split.
  - intros k l Hl. rewrite (Heq _ _ Hl). eauto.
  - intros k1 k2 l1 l2 r1 r2 H1 H2. rewrite (Heq _ _ H1), (Heq _ _ H2). eauto.
Qed.

Lemma keyAt_frame `{Countable K} h h' (M : gmap K loc) k :
  (∀ l, l < length h → h' !! l = h !! l) → map_ok h M → keyAt h' M k = keyAt h M k.
Proof.
  intros Hf Hm. apply option_eq. intros key. rewrite !keyAt_Some.
  setoid_rewrite (holds_frame h h' M k); done.
Qed.

Lemma lost_frame `{Countable K} h h' (oldM newM : gmap K loc) key :
  (∀ l, l < length h → h' !! l = h !! l) → map_ok h oldM → map_ok h newM →
  lost h' oldM newM key ↔ lost h oldM newM key.
Proof.
  intros Hf Ho Hn. unfold lost. setoid_rewrite (holds_frame h h' oldM); [|done..].
  by setoid_rewrite (holds_frame h h' newM).
Qed.

Lemma gained_frame `{Countable K} h h' (oldM newM : gmap K loc) stale key :
  (∀ l, l < length h → h' !! l = h !! l) → map_ok h oldM → map_ok h newM →
  gained h' oldM newM stale key ↔ gained h oldM newM stale key.
Proof.
  intros Hf Ho Hn. unfold gained. setoid_rewrite (holds_frame h h' oldM); [|done..].
  by setoid_rewrite (holds_frame h h' newM).
Qed.

Lemma keyed_frame h h' kcs : (∀ l, l < length h → h' !! l = h !! l) → keyed h kcs → keyed h' kcs.
Proof.
  intros Hf Hk k c Hin. specialize (Hk _ _ Hin). unfold changeKey in *.
  destruct (h !! rc_Resource c) as [r|] eqn:Hr; simpl in Hk; [|done].
  rewrite Hf by (by eapply lookup_lt_Some). by rewrite Hr.
Qed.

Lemma exact_changes_frame `{Countable K} h h' (oldM newM : gmap K loc) stale kcs :
  (∀ l, l < length h → h' !! l = h !! l) → map_ok h oldM → map_ok h newM →
  exact_changes h oldM newM stale kcs → exact_changes h' oldM newM stale kcs.
Proof.
  intros Hf Ho Hn [Hk Hnd Hu Hd Hc]. split; [by eapply keyed_frame|done|..].
  - intros k c. rewrite (gained_frame h) by done. apply Hu.
  - intros k c. rewrite (gained_frame h), (lost_frame h) by done. apply Hd.
  - intros k. rewrite (gained_frame h), (lost_frame h) by done. apply Hc.
Qed.

Lemma deployedAt_frame `{Countable K} h h' stale (M : gmap K loc) D key :
  (∀ l, l < length h → h' !! l = h !! l) → map_ok h M →
  deployedAt h' stale M D key ↔ deployedAt h stale M D key.
Proof.
  intros Hf Hm. unfold deployedAt. destruct (D !! key); by setoid_rewrite (holds_frame h h' M).
Qed.

Lemma hosts_ok_frame h h' hosts :
  (∀ l, l < length h → h' !! l = h !! l) → hosts_ok h hosts → hosts_ok h' hosts.
Proof.
  intros Hf [Hm Hc Hv]. split.
  - by eapply map_ok_frame.
  - intros host r Hr%(holds_frame h); eauto.
  - intros host ic Hr%(holds_frame h) host'; [|done..].
    rewrite (keyAt_frame h) by done. by eapply Hv.
Qed.

(** ** The host map a build gives *)
Section NewHosts.
Variables (h0 : store) (rs : list Resource) (h : store) (hosts : gmap string loc)
          (m : gmap string owner).
Abbreviation n := (length h0) (only parsing).
Hypothesis Hh : hosts_rel n rs hosts m.
Hypothesis Hs : marked_rel h0 rs (λ _ r, activeHosts m r) h.
Hypothesis Hnd : NoDup (GetKeyWithKind <$> rs).

Lemma rs_key_inj i j r r' :
  rs !! i = Some r → rs !! j = Some r' → GetKeyWithKind r = GetKeyWithKind r' → i = j.
Proof.
  intros Hi Hj Heq. eapply (NoDup_lookup (GetKeyWithKind <$> rs)); [done| |];
    rewrite list_lookup_fmap.
  - by rewrite Hi.
  - rewrite Hj. simpl. by rewrite Heq.
Qed.

Lemma hosts_rel_holds host r' : holds h hosts host r' → ∃ i r,
  hosts !! host = Some (n + i) ∧ rs !! i = Some r ∧ core r' = core r ∧
  validHostsOf r' = activeHosts m r ∧ host ∈ claimsOf r ∧
  m !! host = Some (GetKeyWithKind r, GetObjectMeta r).
Proof.
  intros (l & Hl & Hr'). pose proof (Hh host) as Hx. rewrite Hl in Hx.
  destruct Hx as (i & r & -> & Hi & Hin & Hm).
  destruct (mr_new _ _ _ _ Hs i r Hi) as (r'' & Hr'' & Hc & Hv). exists i, r.
  rewrite Hr' in Hr''. simplify_eq. done.
Qed.

Lemma keyAt_hosts_rel host : keyAt h hosts host = fst <$> m !! host.
Proof.
  unfold keyAt, derefAt. pose proof (Hh host) as Hx.
  destruct (hosts !! host) as [l|]; [|by rewrite Hx].
  destruct Hx as (i & r & -> & Hi & _ & ->). simpl.
  destruct (mr_new _ _ _ _ Hs i r Hi) as (r' & -> & Hc & _). simpl. by rewrite (core_key _ _ Hc).
Qed.

Lemma hosts_rel_is_Some host : is_Some (m !! host) → ∃ r, holds h hosts host r.
Proof.
  intros [w Hw]. pose proof (Hh host) as Hx. destruct (hosts !! host) as [l|] eqn:Hl; [|congruence].
  destruct Hx as (i & r & -> & Hi & _). destruct (mr_new _ _ _ _ Hs i r Hi) as (r' & ? & _).
  exists r', (n + i). done.
Qed.

Lemma new_hosts_ok : hosts_ok h hosts.
Proof.
  split; [split|..].
  - intros host l Hl. pose proof (Hh host) as Hx. rewrite Hl in Hx.
    destruct Hx as (i & r & -> & Hi & _). destruct (mr_new _ _ _ _ Hs i r Hi) as (r' & ? & _).
    by exists r'.
  - intros k1 k2 l1 l2 r1 r2 H1 H2 Hr1 Hr2 Heq.
    destruct (hosts_rel_holds k1 r1) as (i1 & x1 & Hl1 & Hi1 & Hc1 & _); [by exists l1|].
    destruct (hosts_rel_holds k2 r2) as (i2 & x2 & Hl2 & Hi2 & Hc2 & _); [by exists l2|].
    assert (i1 = i2) as ->; [|congruence]. eapply rs_key_inj; [done..|].
    by rewrite <- (core_key _ _ Hc1), <- (core_key _ _ Hc2).
  - intros host r Hr. destruct (hosts_rel_holds host r Hr) as (i & x & _ & _ & Hc & _ & Hin & _).
    by rewrite (core_claims _ _ Hc).
  - intros host ic Hr host'.
    destruct (hosts_rel_holds host _ Hr) as (i & x & _ & Hi & Hc & Hv & _).
    rewrite keyAt_hosts_rel. simpl in Hv. rewrite Hv.
    assert (∃ icx, x = RIngress icx) as [icx ->] by (destruct x; simpl in Hc; eauto; done).
    unfold activeHosts. rewrite lookup_markHosts, (core_key _ _ Hc).
    unfold owns. case_decide as Hin.
    + rewrite (inj_iff Some), bool_decide_eq_true. done.
    + split; [done|]. intros Hm. destruct Hin. pose proof (Hh host') as Hx.
      destruct (hosts !! host'); [|by rewrite Hx in Hm].
      destruct Hx as (j & rj & _ & Hj & Hclaim & Hmj). rewrite Hmj in Hm. simplify_eq/=.
      assert (j = i) as -> by (by eapply rs_key_inj). by simplify_eq.
Qed.

Lemma new_latest_ok resources : resources_rel n rs resources → latest_ok h hosts resources.
Proof.
  intros Hres key l (i & r & -> & Hi & <-)%Hres _.
  destruct (mr_new _ _ _ _ Hs i r Hi) as (r' & Hr' & Hc & _). split.
  - exists r'. split; [done|]. by apply core_key.
  - intros p rp Hp Hk. destruct (hosts_rel_holds p rp Hp) as (j & x & Hl & Hj & Hcj & _).
    rewrite Hl. do 2 f_equal. eapply rs_key_inj; [done..|]. rewrite <- (core_key _ _ Hcj). done.
Qed.
End NewHosts.

(** An up-to-date Ingress holds the hosts its old version held; the other
    resources hold one host. *)
Lemma hosts_keep_all h oldHosts newHosts :
  hosts_ok h oldHosts → hosts_ok h newHosts → keeps_all h oldHosts newHosts hostStale.
Proof.
  intros [Hm Hc Hv] [Hm' Hc' Hv'] k r r' k2 r2 Hr Hr' Hst Hr2 Heq.
  pose proof (holds_same_key _ _ _ _ _ _ Hm Hr2 Hr Heq) as ->.
  pose proof (hostStale_key _ _ Hst) as Hkey.
  apply hostStale_false in Hst as [He _].
  assert (k2 = k → ∃ r2', holds h newHosts k2 r2' ∧ GetKeyWithKind r2' = GetKeyWithKind r') as Hsame
    by (intros ->; eauto).
  destruct r as [ic|v|t].
  - destruct (IsEqual_ValidHosts _ _ He) as (ic' & -> & Hvh).
    assert (ic_ValidHosts ic !! k2 = Some true) as Hx.
    { apply (Hv _ _ Hr). by apply keyAt_holds. }
    rewrite Hvh in Hx. apply (Hv' _ _ Hr') in Hx. by apply keyAt_Some.
  - apply Hsame. pose proof (Hc _ _ Hr) as H1. pose proof (Hc _ _ Hr2) as H2. set_solver.
  - apply Hsame. pose proof (Hc _ _ Hr) as H1. pose proof (Hc _ _ Hr2) as H2. set_solver.
Qed.

(** ** Problems, from the ownership specification *)

Definition noHostMessage (r : Resource) : string :=
  match r with
  | RIngress _ => "All hosts are taken by other resources"
  | _ => "Host is taken by another resource"
  end.

Definition objectOf (r : Resource) : Object :=
  match r with
  | RIngress ic => OIngress (ic_Ingress ic)
  | RVirtualServer v => OVirtualServer (vsc_VirtualServer v)
  | RTransportServer t => OTransportServer (tsc_TransportServer t)
  end.

(** A resource has a problem exactly when it owns none of the hosts it claims. *)
Definition ownershipProblem (m : gmap string owner) (r : Resource) : option ConfigurationProblem :=
  if existsb (owns m r) (claimsOf r) then None
  else Some (mkProblem (objectOf r) EventReasonRejected (noHostMessage r)).

Lemma existsb_markHosts m r hosts :
  existsb snd (map_to_list (markHosts m r hosts)) = existsb (owns m r) hosts.
Proof.
  apply eq_bool_prop_intro. rewrite !Is_true_true, !existsb_exists. split.
  - intros ([host b] & Hin & Hb). simpl in Hb. subst b.
    apply list_elem_of_In, elem_of_map_to_list in Hin. rewrite lookup_markHosts in Hin.
    case_decide; simplify_eq. exists host. split; [by apply list_elem_of_In|done].
  - intros (host & Hin & Ho). exists (host, true). split; [|done].
    apply list_elem_of_In, elem_of_map_to_list. rewrite lookup_markHosts, decide_True, Ho; [done|].
    by apply list_elem_of_In.
Qed.

Lemma core_object r r' : core r = core r' → objectOf r = objectOf r'.
Proof. destruct r, r'; simpl; intros; simplify_eq/=; f_equal; congruence. Qed.

Lemma core_owns m r r' host : core r = core r' → owns m r host = owns m r' host.
Proof. intros Hc. unfold owns. by rewrite (core_key _ _ Hc). Qed.

Lemma ownershipProblem_core m r r' : core r = core r' → ownershipProblem m r = ownershipProblem m r'.
Proof.
  intros Hc. unfold ownershipProblem. rewrite (core_claims _ _ Hc), (core_object _ _ Hc).
  assert (noHostMessage r = noHostMessage r') as -> by (by destruct r, r').
  assert (existsb (owns m r) (claimsOf r') = existsb (owns m r') (claimsOf r')) as ->; [|done].
  induction (claimsOf r') as [|x l IH]; [done|]. simpl. by rewrite IH, (core_owns m r r').
Qed.

Lemma resourceProblem_ownership h hosts m r' r :
  (∀ host, keyAt h hosts host = fst <$> m !! host) →
  core r' = core r → validHostsOf r' = activeHosts m r →
  resourceProblem h hosts r' = ownershipProblem m r.
Proof.
  intros Hk Hc Hv. rewrite <- (ownershipProblem_core m _ _ Hc). unfold ownershipProblem.
  destruct r' as [ic|v|t]; cbn [resourceProblem].
  - simpl in Hv. rewrite Hv.
    assert (∃ icx, r = RIngress icx) as [icx ->] by (destruct r; simpl in Hc; eauto; done).
    unfold activeHosts. rewrite existsb_markHosts.
    rewrite <- (core_claims _ _ Hc).
    assert (∀ l, existsb (owns m (RIngress icx)) l = existsb (owns m (RIngress ic)) l) as ->; [|done].
    intros l. induction l as [|x l IH]; [done|]. simpl. by rewrite IH, (core_owns m _ _ _ Hc).
  - rewrite Hk. simpl. rewrite orb_false_r. done.
  - rewrite Hk. simpl. rewrite orb_false_r. done.
Qed.

Lemma derefAt_ssim h h' (M : gmap string loc) k : ssim h h' →
  match derefAt h M k, derefAt h' M k with
  | Some (l, r), Some (l', r') => l = l' ∧ noWarnings r = noWarnings r'
  | None, None => True
  | _, _ => False
  end.
Proof.
  intros Hs. unfold derefAt. destruct (M !! k) as [l|]; simpl; [|done].
  destruct (h !! l) as [r|] eqn:Hr; simpl.
  - destruct (ssim_lookup _ _ _ _ Hs Hr) as (r' & -> & ?). done.
  - destruct (h' !! l) as [r'|] eqn:Hr'; simpl; [|done]. symmetry in Hs.
    destruct (ssim_lookup _ _ _ _ Hs Hr') as (? & ? & _). congruence.
Qed.

Lemma hasMaster_ssim h h' M host : ssim h h' → hasMaster h M host = hasMaster h' M host.
Proof.
  intros Hs. unfold hasMaster. pose proof (derefAt_ssim h h' M host Hs) as Hd.
  destruct (derefAt h M host) as [[l r]|], (derefAt h' M host) as [[l' r']|]; try done.
  destruct Hd as [_ Hn]. destruct r, r'; simpl in Hn; simplify_eq/=; congruence.
Qed.

Lemma vsrProblemOf_ssim h h' M vsr : ssim h h' → vsrProblemOf h M vsr = vsrProblemOf h' M vsr.
Proof.
  intros Hs. unfold vsrProblemOf. pose proof (derefAt_ssim h h' M (vsr_Host vsr) Hs) as Hd.
  destruct (derefAt h M _) as [[l r]|], (derefAt h' M _) as [[l' r']|]; try done.
  destruct Hd as [_ Hn]. destruct r, r'; simpl in Hn; simplify_eq/=; try done.
  assert (vsc_VirtualServerRoutes vsc = vsc_VirtualServerRoutes vsc0) as -> by congruence.
  assert (vsc_VirtualServer vsc = vsc_VirtualServer vsc0) as -> by congruence. done.
Qed.

(** ** The misconfigured-listener warnings change nothing but warnings *)
Lemma warnMissConfigured_ok `{MapRange} o hosts resources h n :
  (∀ k l, resources !! k = Some l → ∃ r, h !! l = Some r ∧
     ∀ host, host ∈ claimsOf r → is_Some (hosts !! host)) →
  (∀ host l, hosts !! host = Some l → n ≤ l) →
  ∃ h', addWarningsForVirtualServersWithMissConfiguredListeners o hosts resources h = Some h' ∧
    ssim h h' ∧ (∀ l, l < n → h' !! l = h !! l).
Proof.
  intros Hres Hhosts. apply (foldM_ind (λ x, ssim h x ∧ ∀ l, l < n → x !! l = h !! l)).
  - split; [reflexivity|done].
  - intros [k l] x Hin%elem_of_range [Hs Hf]. destruct (Hres _ _ Hin) as (r & Hr & Hcl).
    destruct (ssim_lookup _ _ _ _ Hs Hr) as (r' & Hr' & Hn). unfold warnMissConfigured. simpl.
    rewrite Hr'. simpl. destruct r' as [|v|]; [eauto| |eauto].
    destruct (vs_Listener (vsc_VirtualServer v)) as [vl|]; [|eauto].
    destruct (listenerWarning o vl) as [msg|]; [|eauto].
    apply noWarnings_core, core_claims in Hn.
    destruct (Hcl (vs_Host (vsc_VirtualServer v))) as [hl Hhl]; [rewrite Hn; set_solver|].
    rewrite Hhl. simpl. eexists. split; [done|]. split.
    + by rewrite Hs, <- ssim_AddWarning.
    + intros l' Hl'. unfold AddWarning. apply Hhosts in Hhl.
      rewrite list_lookup_alter_ne by lia. by apply Hf.
Qed.

(** ** rebuildHosts *)
Section RebuildHosts.
Context `{MR : MapRange} `{V : Validators} `{LS : LabelSelectors}.

(** The owners of the hosts and the resources of a configuration. *)
Definition ownersOf (c : Configuration) : gmap string owner :=
  absHosts (hostClaimants (c_flags c) (c_objects c)).
Definition resourcesOf (c : Configuration) : list Resource :=
  newResourceList (c_flags c) (c_objects c).

(** What a rebuild gives: [c] before, [c'] after, [kcs] the changes with the
    keys of their resources. *)
Record rebuilt (c c' : Configuration) (kcs : list (string * ResourceChange)) : Prop := {
  rb_flags : c_flags c' = c_flags c;
  rb_objects : c_objects c' = c_objects c;
  rb_listenerHosts : c_listenerHosts c' = c_listenerHosts c;
  rb_listenerProblems : c_listenerProblems c' = c_listenerProblems c;
  rb_policyServices : c_policyServices c' = c_policyServices c;
  rb_startup : c_startupComplete c' = c_startupComplete c;
  rb_store : marked_rel (c_store c) (resourcesOf c) (λ _ r, activeHosts (ownersOf c) r) (c_store c');
  rb_hosts : hosts_rel (length (c_store c)) (resourcesOf c) (c_hosts c') (ownersOf c);
  rb_changes : exact_changes (c_store c') (c_hosts c) (c_hosts c') hostStale kcs;
  rb_deletesFirst : deletesFirst kcs;
  rb_problem_resource : ∀ r, r ∈ resourcesOf c →
    c_hostProblems c' !! GetKeyWithKind r = ownershipProblem (ownersOf c) r;
  rb_problem_minion : ∀ key ing host,
    o_ingresses (c_objects c) !! key = Some ing → minionHost ing = Some host →
    c_hostProblems c' !! ("Ingress/" +:+ key) =
    if hasMaster (c_store c') (c_hosts c') host then None else Some (orphanProblem ing);
  rb_problem_vsr : ∀ key vsr, o_virtualServerRoutes (c_objects c) !! key = Some vsr →
    c_hostProblems c' !! ("VirtualServerRoute/" +:+ key) =
    vsrProblemOf (c_store c') (c_hosts c') vsr;
  rb_problem_only : ∀ k p, c_hostProblems c' !! k = Some p →
    (∃ r, r ∈ resourcesOf c ∧ k = GetKeyWithKind r) ∨
    (∃ key ing host, k = "Ingress/" +:+ key ∧ o_ingresses (c_objects c) !! key = Some ing ∧
       minionHost ing = Some host) ∨
    (∃ key vsr, k = "VirtualServerRoute/" +:+ key ∧
       o_virtualServerRoutes (c_objects c) !! key = Some vsr)
}.

Section Given.
Variable c : Configuration.
Hypothesis Hwf : wf_objects (c_objects c).
Hypothesis Hidx : index_ok (o_ingresses (c_objects c)) (o_minionsByHost (c_objects c)).

Lemma resourcesOf_claims r host :
  r ∈ resourcesOf c → host ∈ claimsOf r → is_Some (ownersOf c !! host).
Proof.
  intros Hr Hin. destruct (ao_best _ _ (absHosts_ok (hostClaimants (c_flags c) (c_objects c)))
    (claimantOf r) host) as (k & mt & Hm & _).
  - split; [|done]. rewrite <- newResourceList_claimants by done. apply list_elem_of_fmap. eauto.
  - by exists (k, mt).
Qed.

(** No resource has the key of a minion. *)
Lemma resourcesOf_not_minion r key ing :
  r ∈ resourcesOf c → GetKeyWithKind r = "Ingress/" +:+ key →
  o_ingresses (c_objects c) !! key = Some ing → minionHost ing = None.
Proof.
  intros Hr Hk Hi.
  assert (claimantOf r ∈ hostClaimants (c_flags c) (c_objects c)) as Hin.
  { rewrite <- newResourceList_claimants by done. apply list_elem_of_fmap. eauto. }
  assert (cl_key (claimantOf r) = "Ingress/" +:+ key) as Hkey by done.
  revert Hin Hkey. generalize (claimantOf r). intros cl Hin Hkey.
  unfold hostClaimants in Hin.
  rewrite !elem_of_app, !list_elem_of_omap in Hin.
  destruct Hin as [(k & _ & Hc)|[(k & _ & Hc)|Hin]].
  - rewrite (ingressClaimant_key _ _ _ _ Hwf Hc) in Hkey. apply string_app_inj_l in Hkey as ->.
    unfold ingressClaimant in Hc. rewrite Hi in Hc. simpl in Hc. unfold minionHost.
    by destruct (isMinion ing).
  - by rewrite (vsClaimant_key _ _ _ Hwf Hc) in Hkey.
  - destruct (f_isTLSPassthroughEnabled (c_flags c)); [|set_solver].
    apply list_elem_of_omap in Hin as (k & _ & Hc).
    by rewrite (tsClaimant_key _ _ _ Hwf Hc) in Hkey.
Qed.

Lemma kind_not_vsr r key : GetKeyWithKind r ≠ "VirtualServerRoute/" +:+ key.
Proof. by destruct r. Qed.

(** The problem maps of the three passes combined. *)
Lemma host_problems h hosts resources :
  hosts_rel (length (c_store c)) (resourcesOf c) hosts (ownersOf c) →
  marked_rel (c_store c) (resourcesOf c) (λ _ r, activeHosts (ownersOf c) r) h →
  resources_rel (length (c_store c)) (resourcesOf c) resources →
  ∃ ps0, addProblemsForResourcesWithoutActiveHost h hosts resources ∅ = Some ps0 ∧
  let ps := addProblemsForOrphanOrIgnoredVsrs (c_objects c) h hosts
              (addProblemsForOrphanMinions (c_objects c) h hosts ps0) in
  (∀ r, r ∈ resourcesOf c → ps !! GetKeyWithKind r = ownershipProblem (ownersOf c) r) ∧
  (∀ key ing host, o_ingresses (c_objects c) !! key = Some ing → minionHost ing = Some host →
     ps !! ("Ingress/" +:+ key) =
     if hasMaster h hosts host then None else Some (orphanProblem ing)) ∧
  (∀ key vsr, o_virtualServerRoutes (c_objects c) !! key = Some vsr →
     ps !! ("VirtualServerRoute/" +:+ key) = vsrProblemOf h hosts vsr) ∧
  (∀ k p, ps !! k = Some p →
    (∃ r, r ∈ resourcesOf c ∧ k = GetKeyWithKind r) ∨
    (∃ key ing host, k = "Ingress/" +:+ key ∧ o_ingresses (c_objects c) !! key = Some ing ∧
       minionHost ing = Some host) ∨
    (∃ key vsr, k = "VirtualServerRoute/" +:+ key ∧
       o_virtualServerRoutes (c_objects c) !! key = Some vsr)).
Proof.
  intros Hh Hs Hres.
  destruct (resourceProblems_lookup h hosts resources) with (ps0 := ∅ : gmap string ConfigurationProblem)
    as (ps0 & Hps & Hout & Hin).
  { intros k l (i & r & -> & Hi & <-)%Hres.
    destruct (mr_new _ _ _ _ Hs i r Hi) as (r' & Hr' & Hc & _). exists r'.
    split_and!; [done|by apply core_key|]. intros host Hcl. rewrite (core_claims _ _ Hc) in Hcl.
    eapply hosts_rel_is_Some; [done..|]. eapply resourcesOf_claims; [|done].
    by eapply list_elem_of_lookup_2. }
  exists ps0. split; [done|]. cbn zeta.
  assert (∀ key ing host, o_ingresses (c_objects c) !! key = Some ing →
    minionHost ing = Some host → resources !! ("Ingress/" +:+ key) = None) as Hminion.
  { intros key ing host Hi Hm. apply eq_None_not_Some. intros [l Hl].
    apply Hres in Hl as (i & r & -> & Hr & Hk).
    rewrite (resourcesOf_not_minion r key ing) in Hm; [done|by eapply list_elem_of_lookup_2|done..]. }
  assert (∀ key, resources !! ("VirtualServerRoute/" +:+ key) = None) as Hvsr.
  { intros key. apply eq_None_not_Some. intros [l Hl].
    apply Hres in Hl as (i & r & -> & Hr & Hk). by apply kind_not_vsr in Hk. }
  split_and!.
  - intros r Hr. rewrite vsrProblems_other by (done || apply kind_not_vsr).
    rewrite orphanMinions_other; [|done..|].
    2: { intros key ing Hk Hi. by eapply resourcesOf_not_minion. }
    apply list_elem_of_lookup in Hr as [i Hi].
    destruct (mr_new _ _ _ _ Hs i r Hi) as (r' & Hr' & Hc & Hv).
    rewrite (Hin _ (length (c_store c) + i) r'); [|apply Hres; eauto|done].
    rewrite (resourceProblem_ownership h hosts (ownersOf c) r' r); [|by eapply keyAt_hosts_rel|done..].
    rewrite lookup_empty. by destruct (ownershipProblem _ _).
  - intros key ing host Hi Hm. rewrite vsrProblems_other by done.
    rewrite (orphanMinions_minion _ _ _ Hwf Hidx _ _ _ _ Hi Hm).
    rewrite Hout by (by eapply Hminion). by rewrite lookup_empty.
  - intros key vsr Hv. rewrite (vsrProblems_vsr _ _ _ Hwf _ _ _ Hv).
    rewrite orphanMinions_other by done. rewrite Hout by done. rewrite lookup_empty.
    by destruct (vsrProblemOf _ _ _).
  - intros k p. rewrite addProblemsForVsrs_eq by done. intros Hk.
    apply foldl_insertEntry_Some in Hk as [Hk|(key & _ & <- & Hv)].
    + rewrite addProblemsForOrphanMinions_eq in Hk by done.
      apply foldl_insertEntry_Some in Hk as [Hk|(key & Hkey & <- & _)].
      * left. destruct (resources !! k) as [l|] eqn:Hl.
        -- apply Hres in Hl as (i & r & _ & Hi & <-). exists r.
           split; [by eapply list_elem_of_lookup_2|done].
        -- by rewrite Hout, lookup_empty in Hk.
      * right. left. apply elem_of_orphanKeys in Hkey as (ing & host & ? & ? & _); [eauto 10|done..].
    + right. right. destruct (o_virtualServerRoutes (c_objects c) !! key) as [vsr|] eqn:Hvsr';
        [|done]. eauto.
Qed.

Hypothesis Hhosts : hosts_ok (c_store c) (c_hosts c).

Lemma rebuildHosts_spec : ∃ c' kcs,
  rebuildHosts c = Some (c', kcs.*2, detectChangesInProblems (c_hostProblems c') (c_hostProblems c)) ∧
  rebuilt c c' kcs.
Proof.
  unfold rebuildHosts. cbn zeta.
  destruct (buildHostsAndResources_refines (c_flags c) (c_objects c) Hwf Hidx (c_store c))
    as (b & -> & [Hbs Hbh Hbr]). cbn [mbind option_bind].
  destruct (updateActiveHostsForIngresses_ok (c_store c) (resourcesOf c) (b_hosts b) (ownersOf c))
    with (resources := b_resources b) (h := b_store b) as (h1 & -> & Hm1);
    [done| |done|done| |cbn [mbind option_bind]].
  { intros i r host Hi. apply resourcesOf_claims. by eapply list_elem_of_lookup_2. }
  { intros r Hr. by eapply newResourceList_validHosts. }
  pose proof (NoDup_newResourceList (c_flags c) (c_objects c) Hwf Hidx) as Hnd.
  pose proof (new_hosts_ok (c_store c) (resourcesOf c) h1 (b_hosts b) (ownersOf c) Hbh Hm1 Hnd) as Hnew.
  assert (hosts_ok h1 (c_hosts c)) as Hold
    by (eapply hosts_ok_frame; [|exact Hhosts]; intros; by eapply mr_old).
  destruct (detectChangesInHosts_spec h1 (c_hosts c) (b_hosts b)) as (rm & up & ad & -> & Hdet);
    [apply Hold|apply Hnew|cbn [mbind option_bind]].
  destruct (changes_exact h1 (c_hosts c) (b_hosts b) hostStale rm up ad (b_resources b))
    as (changes & kcs & Hcr & Hsq & Hrf & Hex & Hdf);
    [apply hostStale_key|apply Hold|apply Hnew|by eapply new_latest_ok|done|].
  unfold createResourceChangesForHosts. rewrite Hcr. cbn [mbind option_bind]. rewrite Hsq.
  cbn [mbind option_bind]. rewrite Hrf. cbn [mbind option_bind].
  destruct (host_problems h1 (b_hosts b) (b_resources b) Hbh Hm1 Hbr) as (ps0 & -> & Hps).
  cbn [mbind option_bind]. cbn zeta in Hps.
  destruct (warnMissConfigured_ok (c_objects c) (b_hosts b) (b_resources b) h1 (length (c_store c)))
    as (h2 & -> & Hsim & Hf).
  { intros k l (i & r & -> & Hi & <-)%Hbr.
    destruct (mr_new _ _ _ _ Hm1 i r Hi) as (r' & Hr' & Hc & _). exists r'. split; [done|].
    intros host Hin. rewrite (core_claims _ _ Hc) in Hin.
    destruct (hosts_rel_is_Some _ _ _ _ _ Hbh Hm1 host) as (rr & l & Hl & _); [|by exists l].
    eapply resourcesOf_claims; [|done]. by eapply list_elem_of_lookup_2. }
  { intros host l Hl. pose proof (Hbh host) as Hx. rewrite Hl in Hx.
    destruct Hx as (i & r & -> & _). lia. }
  cbn [mbind option_bind].
  match goal with |- ∃ _ _, Some (?x, _, _) = _ ∧ _ =>
    exists x, (refreshed (b_resources b) <$> kcs) end.
  split; [reflexivity|].
  destruct Hps as (H1 & H2 & H3 & H4). split; simpl; try done.
  - destruct Hm1 as [Hlen Hol Hne]. split.
    + rewrite <- (length_fmap noWarnings h2), <- Hsim, length_fmap. done.
    + intros l Hl. rewrite Hf by done. by apply Hol.
    + intros i r Hi. destruct (Hne i r Hi) as (r' & Hr' & Hc & Hv).
      destruct (ssim_lookup _ _ _ _ Hsim Hr') as (r2 & ? & Hn). exists r2. split_and!; [done|..].
      * apply noWarnings_core in Hn. congruence.
      * apply noWarnings_validHosts in Hn. congruence.
  - eapply exact_changes_ssim; [apply hostStale_noWarnings|exact Hsim|exact Hex].
  - intros key ing host Hi Hm. rewrite <- (hasMaster_ssim h1 h2) by done. by apply H2.
  - intros key vsr Hv. rewrite <- (vsrProblemOf_ssim h1 h2) by done. by apply H3.
Qed.
End Given.
End RebuildHosts.
