(* ===== verification/ListenerRebuild.v ===== *)
(** Correctness of rebuildListenerHosts: it never panics, the holder of a
    listener and host is a TransportServer no other claimant beats whatever the
    order of the map iteration, its changes are exact, and its problems are
    those of the TransportServers that hold nothing. *)
From S2P Require Import Prelude GoStrings Objects ProxyBuffers Resources ConfigState Minions.
From S2P Require Import VSRoutes Hosts Changes Problems Configuration HostRebuild.

(** The resource and the listener key of a TransportServer. *)
Definition tsResource (o : Objects) (ts : TransportServer) : Resource :=
  RTransportServer (tsConfigFor o ts).1.

Definition wantedKey (ts : TransportServer) : listenerHostKey :=
  {| lhk_ListenerName := tsl_Name (ts_Listener ts); lhk_Host := ts_Host ts |}.

(** The GlobalConfiguration has the listener, with the protocol, the
    TransportServer asks for. *)
Definition listenerFound (o : Objects) (ts : TransportServer) : bool :=
  match (tsConfigFor o ts).2 with Some _ => true | None => false end.

Lemma findListener_Some want ls l :
  findListener want ls = Some l → l ∈ ls ∧ l_Name l = tsl_Name want ∧ l_Protocol l = tsl_Protocol want.
Proof.
  induction ls as [|x ls IH]; simpl; [done|]. case_match eqn:Hc.
  - intros [= ->]. apply andb_true_iff in Hc as [?%bool_decide_eq_true ?%bool_decide_eq_true].
    split; [set_solver|done].
  - intros (? & ? & ?)%IH. split; [set_solver|done].
Qed.

Lemma tsConfigFor_listener o ts l : (tsConfigFor o ts).2 = Some l → l_Name l = tsl_Name (ts_Listener ts).
Proof.
  unfold tsConfigFor. repeat case_match; simpl; try done. intros [= <-].
  by apply findListener_Some in H0 as (_ & ? & _).
Qed.

Lemma tsResource_meta o ts : GetObjectMeta (tsResource o ts) = ts_Meta ts.
Proof. unfold tsResource, tsConfigFor. by repeat case_match. Qed.

Lemma tsResource_ts o ts : tsc_TransportServer (tsConfigFor o ts).1 = ts.
Proof. unfold tsConfigFor. by repeat case_match. Qed.

(** ** The loop *)
Section Loop.
Variables (o : Objects) (h0 : store).
Abbreviation n := (length h0) (only parsing).

Record lis_rel (es : list (string * TransportServer)) (st : listenerState) : Prop := {
  lr_length : length st.1.1 = n + length es;
  lr_old : ∀ l, l < n → st.1.1 !! l = h0 !! l;
  lr_new : ∀ i key ts, es !! i = Some (key, ts) →
    ∃ r, st.1.1 !! (n + i) = Some r ∧ core r = core (tsResource o ts);
  lr_holder : ∀ k l, st.1.2 !! k = Some l → ∃ i key ts, l = n + i ∧ es !! i = Some (key, ts) ∧
    listenerFound o ts = true ∧ wantedKey ts = k;
  lr_best : ∀ i key ts, es !! i = Some (key, ts) → listenerFound o ts = true →
    ∃ j key' ts', st.1.2 !! wantedKey ts = Some (n + j) ∧ es !! j = Some (key', ts') ∧
      chooseObjectMetaWinner (ts_Meta ts) (ts_Meta ts') = false;
  lr_configs : ∀ key l, st.2 !! key = Some l ↔ ∃ i ts, l = n + i ∧ es !! i = Some (key, ts)
}.

(** The new object is allocated and entered in newTSConfigs. *)
Lemma lis_rel_alloc es h lh cfgs key ts :
  lis_rel es (h, lh, cfgs) → key ∉ es.*1 →
  length (h ++ [tsResource o ts]) = n + length (es ++ [(key, ts)]) ∧
  (∀ l, l < n → (h ++ [tsResource o ts]) !! l = h0 !! l) ∧
  (∀ i k t, (es ++ [(key, ts)]) !! i = Some (k, t) →
    ∃ r, (h ++ [tsResource o ts]) !! (n + i) = Some r ∧ core r = core (tsResource o t)) ∧
  (∀ k l, <[key := n + length es]> cfgs !! k = Some l ↔
    ∃ i t, l = n + i ∧ (es ++ [(key, ts)]) !! i = Some (k, t)).
Proof.
  intros [Hlen Hold Hnew _ _ Hcfg] Hfresh. simpl in *. split_and!.
  - rewrite !length_app. simpl. lia.
  - intros l Hl. rewrite lookup_app_l by lia. by apply Hold.
  - intros i k t [Hi|[Hge Hi]]%lookup_app_Some.
    + destruct (Hnew _ _ _ Hi) as (r & Hr & ?). exists r. split; [by apply lookup_app_l_Some|done].
    + apply list_lookup_singleton_Some in Hi as [Hz [= <- <-]]. exists (tsResource o ts).
      split; [|done]. apply lookup_app_Some. right. split; [lia|]. by replace (_ - _) with 0 by lia.
  - intros k l. split.
    + intros [[<- <-]|[Hne (i & t & -> & Hi)%Hcfg]]%lookup_insert_Some.
      * exists (length es), ts. split; [done|]. apply lookup_app_Some. right. by rewrite Nat.sub_diag.
      * exists i, t. split; [done|]. by apply lookup_app_l_Some.
    + intros (i & t & -> & [Hi|[Hge Hi]]%lookup_app_Some).
      * rewrite lookup_insert_ne; [apply Hcfg; eauto|]. intros ->. apply Hfresh.
        apply list_elem_of_fmap. exists (k, t). split; [done|]. by eapply list_elem_of_lookup_2.
      * apply list_lookup_singleton_Some in Hi as [Hz [= <- <-]].
        replace i with (length es) by lia. by rewrite lookup_insert_eq.
Qed.

Lemma lookup_AddWarning_core l w h k r :
  h !! k = Some r → ∃ r', AddWarning l w h !! k = Some r' ∧ core r' = core r.
Proof. intros Hk. by apply (store_le_AddWarning l w h k r). Qed.

Lemma lis_rel_warn es h lh cfgs j w :
  lis_rel es (h, lh, cfgs) → lis_rel es (AddWarning (n + j) w h, lh, cfgs).
Proof.
  intros [Hlen Hold Hnew Hh Hb Hc]. simpl in *. split; simpl; try done.
  - unfold AddWarning. by rewrite length_alter.
  - intros l Hl. unfold AddWarning. rewrite list_lookup_alter_ne by lia. by apply Hold.
  - intros i key ts Hi. destruct (Hnew _ _ _ Hi) as (r & Hr & Hcr).
    destruct (lookup_AddWarning_core (n + j) w h _ _ Hr) as (r' & ? & ?). exists r'.
    split; [done|congruence].
Qed.

Section Step.
Variables (es : list (string * TransportServer)) (h : store) (lh : gmap listenerHostKey loc)
          (cfgs : gmap string loc) (key : string) (ts : TransportServer).
Hypothesis Hrel : lis_rel es (h, lh, cfgs).
Hypothesis Hfresh : key ∉ es.*1.
Abbreviation es' := (es ++ [(key, ts)]) (only parsing).
Abbreviation h' := (h ++ [tsResource o ts]) (only parsing).
Abbreviation cfgs' := (<[key := n + length es]> cfgs) (only parsing).

Lemma lookup_last : es' !! length es = Some (key, ts).
Proof. apply lookup_app_Some. right. by rewrite Nat.sub_diag. Qed.

Lemma lookup_inv i k t : es' !! i = Some (k, t) →
  es !! i = Some (k, t) ∨ (i = length es ∧ k = key ∧ t = ts).
Proof.
  intros [Hi|[Hge Hi]]%lookup_app_Some; [by left|].
  apply list_lookup_singleton_Some in Hi as [Hz [= <- <-]]. right. split; [lia|done].
Qed.

(** The newcomer has no listener or its place is held by a better one. *)
Lemma lis_rel_keep :
  (listenerFound o ts = true → ∃ j k t, lh !! wantedKey ts = Some (n + j) ∧
     es !! j = Some (k, t) ∧ chooseObjectMetaWinner (ts_Meta ts) (ts_Meta t) = false) →
  lis_rel es' (h', lh, cfgs').
Proof using Hrel Hfresh.
  intros Hkeep. destruct (lis_rel_alloc es h lh cfgs key ts Hrel Hfresh) as (H1 & H2 & H3 & H4).
  destruct Hrel as [_ _ _ Hholder Hbest _]. simpl in *. split; simpl; try done.
  - intros k l (i & k0 & t & ? & ? & ?)%Hholder. exists i, k0, t.
    split; [done|]. split; [by apply lookup_app_l_Some|done].
  - intros i k t [Hi|(-> & -> & ->)]%lookup_inv Hf.
    + destruct (Hbest _ _ _ Hi Hf) as (j & k' & t' & ? & ? & ?). exists j, k', t'.
      split; [done|]. split; [by apply lookup_app_l_Some|done].
    + destruct (Hkeep Hf) as (j & k' & t' & ? & ? & ?). exists j, k', t'.
      split; [done|]. split; [by apply lookup_app_l_Some|done].
Qed.

(** The place is free or the newcomer is not beaten by its holder. *)
Lemma lis_rel_take :
  listenerFound o ts = true →
  (∀ l, lh !! wantedKey ts = Some l → ∃ j k t, l = n + j ∧ es !! j = Some (k, t) ∧
     chooseObjectMetaWinner (ts_Meta t) (ts_Meta ts) = false) →
  lis_rel es' (h', <[wantedKey ts := n + length es]> lh, cfgs').
Proof using Hrel Hfresh.
  intros Hf Htake. destruct (lis_rel_alloc es h lh cfgs key ts Hrel Hfresh) as (H1 & H2 & H3 & H4).
  destruct Hrel as [_ _ _ Hholder Hbest _]. simpl in *. split; simpl; try done.
  - intros k l [[<- <-]|[_ (i & k0 & t & ? & ? & ?)%Hholder]]%lookup_insert_Some.
    + exists (length es), key, ts. split; [done|]. split; [apply lookup_last|done].
    + exists i, k0, t. split; [done|]. split; [by apply lookup_app_l_Some|done].
  - intros i k t [Hi|(-> & -> & ->)]%lookup_inv Hft.
    + destruct (Hbest _ _ _ Hi Hft) as (j & k' & t' & Hj & Hes & Hw).
      destruct (decide (wantedKey t = wantedKey ts)) as [Heq|Hne].
      * rewrite Heq in *. destruct (Htake _ Hj) as (j2 & k2 & t2 & Hl2 & Hes2 & Hw2).
        assert (j2 = j) as -> by lia. simplify_eq.
        exists (length es), key, ts. rewrite lookup_insert_eq. split; [done|].
        split; [apply lookup_last|]. by eapply choose_neg_trans.
      * exists j, k', t'. rewrite lookup_insert_ne by done. split; [done|].
        split; [by apply lookup_app_l_Some|done].
    + exists (length es), key, ts. rewrite lookup_insert_eq. split; [done|].
      split; [apply lookup_last|apply choose_irrefl].
Qed.
End Step.

Lemma addTransportServer_ok es st key ts :
  lis_rel es st → key ∉ es.*1 →
  ∃ st', addTransportServer o st (key, ts) = Some st' ∧
    lis_rel (if isTLSPassthroughTS ts then es else es ++ [(key, ts)]) st'.
Proof.
  intros Hrel Hfresh. destruct st as [[h lh] cfgs]. unfold addTransportServer.
  destruct (isTLSPassthroughTS ts); [eauto|].
  pose proof (tsConfigFor_listener o ts) as Hname.
  destruct (tsConfigFor o ts) as [tsc found] eqn:Hts. simpl in Hname.
  assert (tsResource o ts = RTransportServer tsc) as Hres by (unfold tsResource; by rewrite Hts).
  assert (listenerFound o ts = if found then true else false) as Hfound
    by (unfold listenerFound; by rewrite Hts).
  rewrite <- Hres. pose proof Hrel as [Hlen _ Hnew Hholder _ _]. simpl in *. rewrite Hlen.
  destruct found as [ls|].
  2: { eexists. split; [done|]. apply lis_rel_keep; [done..|]. congruence. }
  rewrite (Hname ls eq_refl). fold (wantedKey ts).
  destruct (lh !! wantedKey ts) as [hl|] eqn:Hhl.
  2: { eexists. split; [done|]. apply lis_rel_take; [done..|]. intros; congruence. }
  destruct (Hholder _ _ Hhl) as (j & k & t & -> & Hj & _ & _).
  destruct (Hnew _ _ _ Hj) as (holder & Hh & Hc).
  rewrite (lookup_app_l_Some _ _ _ _ Hh). simpl.
  assert (Wins holder (tsResource o ts) = chooseObjectMetaWinner (ts_Meta t) (ts_Meta ts)) as ->.
  { unfold Wins. rewrite (core_meta _ (tsResource o t) Hc), !tsResource_meta. done. }
  destruct (chooseObjectMetaWinner (ts_Meta t) (ts_Meta ts)) eqn:Hw; simpl;
    eexists; (split; [done|]); apply lis_rel_warn.
  - apply lis_rel_keep; [done..|]. intros _. exists j, k, t. by apply choose_asym in Hw.
  - apply lis_rel_take; [done..|]. intros l Hl. rewrite Hhl in Hl. injection Hl as <-. eauto 10.
Qed.
End Loop.

(** ** The whole loop *)
Definition listenerEntries `{MapRange} (o : Objects) : list (string * TransportServer) :=
  filter (λ e, isTLSPassthroughTS e.2 = false)
    (range "buildListenerHostsAndTSConfigurations" (o_transportServers o)).

Section Build.
Context `{MR : MapRange}.
Variables (o : Objects) (h0 : store).

Lemma elem_of_listenerEntries key ts :
  (key, ts) ∈ listenerEntries o ↔
  o_transportServers o !! key = Some ts ∧ isTLSPassthroughTS ts = false.
Proof. unfold listenerEntries. rewrite list_elem_of_filter, elem_of_range. simpl. tauto. Qed.

Lemma NoDup_listenerEntries : NoDup (listenerEntries o).*1.
Proof.
  eapply sublist_NoDup; [apply (NoDup_range_keys "buildListenerHostsAndTSConfigurations" (o_transportServers o))|]. apply fmap_sublist, sublist_filter.
Qed.

Lemma buildListenerHosts_rel :
  ∃ st, buildListenerHostsAndTSConfigurations o h0 = Some st ∧ lis_rel o h0 (listenerEntries o) st.
Proof.
  unfold buildListenerHostsAndTSConfigurations, listenerEntries.
  set (es := range _ (o_transportServers o)).
  apply (foldM_prefix_ind (λ pre st,
    lis_rel o h0 (filter (λ e, isTLSPassthroughTS e.2 = false) pre) st)).
  - rewrite filter_nil. split; simpl; try done.
    intros key l. rewrite lookup_empty. split; [done|]. by intros (i & ts & _ & ?).
  - intros pre [key ts] post st Hes Hrel. rewrite filter_app, filter_cons, filter_nil.
    destruct (addTransportServer_ok o h0 _ st key ts Hrel) as (st' & Ha & Hrel').
    + intros ([k t] & Hk & [_ Hin]%list_elem_of_filter)%list_elem_of_fmap. simpl in Hk. subst k.
      pose proof (NoDup_range_keys "buildListenerHostsAndTSConfigurations" (o_transportServers o)) as Hnd.
      fold es in Hnd. rewrite Hes, fmap_app in Hnd. apply NoDup_app in Hnd as (_ & Hd & _).
      apply (Hd key); [|set_solver]. apply list_elem_of_fmap. by exists (key, t).
    + exists st'. split; [done|]. simpl. destruct (isTLSPassthroughTS ts) eqn:Hp.
      * rewrite decide_False by done. by rewrite app_nil_r.
      * by rewrite decide_True.
Qed.
End Build.

(** ** The invariant of the listener map: valid pointers to TransportServers,
    each holding the place it asks for. *)
Record listeners_ok (h : store) (lh : gmap listenerHostKey loc) : Prop := {
  lo_map : map_ok h lh;
  lo_place : ∀ k r, holds h lh k r → ∃ tsc, r = RTransportServer tsc ∧
    wantedKey (tsc_TransportServer tsc) = k
}.

Lemma core_tsResource r o ts :
  core r = core (tsResource o ts) → ∃ tsc, r = RTransportServer tsc ∧ tsc_TransportServer tsc = ts ∧
    tsc_ListenerPort tsc = tsc_ListenerPort (tsConfigFor o ts).1.
Proof.
  unfold tsResource. destruct r as [| |tsc]; [done..|]. intros Hc. exists tsc.
  pose proof (tsResource_ts o ts). simpl in Hc. injection Hc as ????. split_and!; congruence.
Qed.

Lemma listeners_keep_all h oldLH newLH :
  listeners_ok h oldLH → listeners_ok h newLH → keeps_all h oldLH newLH listenerStale.
Proof.
  intros [Hm Hp] _ k r r' k2 r2 Hr Hr' Hst Hr2 Heq.
  pose proof (holds_same_key _ _ _ _ _ _ Hm Hr2 Hr Heq) as ->.
  destruct (Hp _ _ Hr) as (tsc & -> & <-). destruct (Hp _ _ Hr2) as (tsc2 & [= <-] & <-). eauto.
Qed.

Section NewListeners.
Context `{MR : MapRange}.
Variables (o : Objects) (h0 h : store) (lh : gmap listenerHostKey loc) (cfgs : gmap string loc).
Hypothesis Hwf : wf_objects o.
Hypothesis Hrel : lis_rel o h0 (listenerEntries o) (h, lh, cfgs).
Abbreviation n := (length h0) (only parsing).

Lemma tsResource_key key ts :
  o_transportServers o !! key = Some ts → GetKeyWithKind (tsResource o ts) = "TransportServer/" +:+ key.
Proof.
  intros Hts. unfold GetKeyWithKind. rewrite tsResource_meta.
  by rewrite (wfo_ts_key _ Hwf _ _ Hts).
Qed.

Lemma entries_lookup i key ts :
  listenerEntries o !! i = Some (key, ts) → o_transportServers o !! key = Some ts.
Proof. intros Hi%list_elem_of_lookup_2. by apply elem_of_listenerEntries in Hi as [? _]. Qed.

Lemma listener_holds k r : holds h lh k r → ∃ i key ts,
  lh !! k = Some (n + i) ∧ listenerEntries o !! i = Some (key, ts) ∧
  core r = core (tsResource o ts) ∧ listenerFound o ts = true ∧ wantedKey ts = k.
Proof.
  intros (l & Hl & Hr). destruct (lr_holder _ _ _ _ Hrel _ _ Hl) as (i & key & ts & -> & Hi & Hf & Hw).
  destruct (lr_new _ _ _ _ Hrel _ _ _ Hi) as (r' & Hr' & Hc). simpl in Hr'.
  rewrite Hr in Hr'. injection Hr' as <-. eauto 10.
Qed.

Lemma entries_inj i j key ts ts' :
  listenerEntries o !! i = Some (key, ts) → listenerEntries o !! j = Some (key, ts') → i = j.
Proof.
  intros Hi Hj. eapply (NoDup_lookup (listenerEntries o).*1); [apply NoDup_listenerEntries| |];
    rewrite list_lookup_fmap; [by rewrite Hi|by rewrite Hj].
Qed.

Lemma new_listeners_ok : listeners_ok h lh.
Proof.
  split; [split|].
  - intros k l Hl. destruct (lr_holder _ _ _ _ Hrel _ _ Hl) as (i & key & ts & -> & Hi & _).
    destruct (lr_new _ _ _ _ Hrel _ _ _ Hi) as (r & ? & _). by exists r.
  - intros k1 k2 l1 l2 r1 r2 H1 H2 Hr1 Hr2 Heq.
    destruct (listener_holds k1 r1) as (i1 & key1 & t1 & Hl1 & Hi1 & Hc1 & _); [by exists l1|].
    destruct (listener_holds k2 r2) as (i2 & key2 & t2 & Hl2 & Hi2 & Hc2 & _); [by exists l2|].
    rewrite (core_key _ _ Hc1), (core_key _ _ Hc2) in Heq.
    rewrite (tsResource_key key1), (tsResource_key key2) in Heq by (by eapply entries_lookup).
    apply string_app_inj_l in Heq as ->.
    assert (i1 = i2) as -> by (by eapply entries_inj). congruence.
  - intros k r (i & key & ts & _ & _ & Hc & _ & Hw)%listener_holds.
    destruct (core_tsResource _ _ _ Hc) as (tsc & -> & <- & _). eauto.
Qed.

(** newTSConfigs is keyed by namespace and name, the changes by kind,
    namespace and name: the refresh never finds an entry. *)
Lemma ts_configs_no_kind r : cfgs !! GetKeyWithKind r = None.
Proof.
  apply eq_None_not_Some. intros [l Hl].
  apply (lr_configs _ _ _ _ Hrel) in Hl as (i & ts & _ & Hi%entries_lookup).
  destruct (wfo_ts_name _ Hwf _ _ Hi) as [Hns Hname].
  apply (wfo_ts_key _ Hwf) in Hi. apply (f_equal slashes) in Hi. revert Hi.
  unfold GetKeyWithKind, getResourceKey. rewrite !slashes_app, Hns, Hname.
  change (slashes "/") with 1. lia.
Qed.

Lemma listener_latest_ok : latest_ok h lh cfgs.
Proof. intros key l Hl (l' & r' & _ & <-). by rewrite ts_configs_no_kind in Hl. Qed.

Lemma listener_refreshed kcs : keyed h kcs → refreshed cfgs <$> kcs = kcs.
Proof.
  intros Hk. rewrite <- (list_fmap_id kcs) at 2. apply list_fmap_ext.
  intros i [k c] Hi%list_elem_of_lookup_2%Hk. unfold refreshed. simpl. unfold changeKey in Hi.
  destruct (h !! rc_Resource c) as [r|]; simpl in Hi; [|done]. injection Hi as <-.
  by rewrite ts_configs_no_kind.
Qed.

(** The problem of a TransportServer, from the holder of the place it wants. *)
Definition listenerProblem (ts : TransportServer) : option ConfigurationProblem :=
  match keyAt h lh (wantedKey ts) with
  | None => Some (mkProblem (OTransportServer ts) EventReasonRejected
      ("Listener " +:+ tsl_Name (ts_Listener ts) +:+ " doesn't exist"))
  | Some k =>
      if bool_decide (k = GetKeyWithKind (tsResource o ts)) then None
      else Some (mkProblem (OTransportServer ts) EventReasonRejected
        ("Listener " +:+ tsl_Name (ts_Listener ts) +:+ " with host "
         +:+ (if bool_decide (ts_Host ts = "") then "empty host" else ts_Host ts)
         +:+ " is taken by another resource"))
  end.

Definition entryListenerProblem (e : string * loc) : option ConfigurationProblem :=
  ts ← o_transportServers o !! e.1; listenerProblem ts.

Lemma problemForTSConfig_eq ps key l :
  cfgs !! key = Some l →
  problemForTSConfig h lh ps (key, l) =
  Some (insertEntry (λ e, "TransportServer/" +:+ e.1) entryListenerProblem ps (key, l)).
Proof.
  intros Hl. apply (lr_configs _ _ _ _ Hrel) in Hl as (i & ts & -> & Hi).
  destruct (lr_new _ _ _ _ Hrel _ _ _ Hi) as (r & Hr & Hc). simpl in Hr.
  pose proof (entries_lookup _ _ _ Hi) as Hts.
  unfold problemForTSConfig, insertEntry, entryListenerProblem. simpl. rewrite Hr, Hts. simpl.
  pose proof (core_key _ _ Hc) as Hkey. rewrite (tsResource_key key ts Hts) in Hkey.
  destruct (core_tsResource _ _ _ Hc) as (tsc & -> & <- & _).
  set (ts := tsc_TransportServer tsc) in *. fold (wantedKey ts).
  unfold listenerProblem. rewrite (tsResource_key key ts Hts).
  destruct (lh !! wantedKey ts) as [hl|] eqn:Hhl.
  - destruct (mo_valid _ _ (lo_map _ _ new_listeners_ok) _ _ Hhl) as [holder Hh].
    rewrite Hh. cbn [mbind option_bind]. rewrite (keyAt_holds h lh _ holder) by (by exists hl).
    destruct (decide (GetKeyWithKind holder = "TransportServer/" +:+ key)) as [Heq|Hne].
    + rewrite (bool_decide_eq_true_2 (GetKeyWithKind holder = _)) by done.
      destruct (listener_holds (wantedKey ts) holder) as (j & key' & t & Hl' & Hj & Hcj & _);
        [by exists hl|].
      rewrite (core_key _ _ Hcj), (tsResource_key key') in Heq by (by eapply entries_lookup).
      apply string_app_inj_l in Heq as ->.
      assert (j = i) as -> by (by eapply entries_inj). simplify_eq.
      by rewrite IsEqual_refl.
    + rewrite (bool_decide_eq_false_2 (GetKeyWithKind holder = _)) by done.
      assert (IsEqual (RTransportServer tsc) holder = false) as ->.
      { apply not_true_is_false. intros He%IsEqual_key. congruence. }
      simpl. by rewrite Hkey.
  - assert (keyAt h lh (wantedKey ts) = None) as ->.
    { unfold keyAt, derefAt. by rewrite Hhl. }
    by rewrite Hkey.
Qed.

Lemma listener_problems :
  ∃ ps, addProblemsForTSConfigsWithoutActiveListener h lh cfgs ∅ = Some ps ∧
    (∀ key ts, o_transportServers o !! key = Some ts → isTLSPassthroughTS ts = false →
       ps !! ("TransportServer/" +:+ key) = listenerProblem ts) ∧
    (∀ k p, ps !! k = Some p → ∃ key ts, k = "TransportServer/" +:+ key ∧
       o_transportServers o !! key = Some ts ∧ isTLSPassthroughTS ts = false).
Proof.
  set (es := range "addProblemsForTSConfigsWithoutActiveListener" cfgs).
  assert (∀ k l, (k, l) ∈ es ↔ cfgs !! k = Some l) as Hes by (intros; apply elem_of_range).
  exists (foldl (insertEntry (λ e, "TransportServer/" +:+ e.1) entryListenerProblem) ∅ es).
  split_and!.
  - apply foldM_total. intros ps [k l] Hin%Hes. by apply problemForTSConfig_eq.
  - intros key ts Hts Hp.
    assert (∃ l, cfgs !! key = Some l) as [l Hl].
    { assert ((key, ts) ∈ listenerEntries o) as [i Hi]%list_elem_of_lookup
        by (by apply elem_of_listenerEntries). exists (n + i). apply (lr_configs _ _ _ _ Hrel). eauto. }
    rewrite (foldl_insertEntry_in (λ e : string * loc, "TransportServer/" +:+ e.1))
      with (e := (key, l)).
    + unfold entryListenerProblem. simpl. rewrite Hts. simpl. rewrite lookup_empty.
      by destruct (listenerProblem ts).
    + intros [k' l'] Hin'%Hes Heq. simpl in *. apply string_app_inj_l in Heq as ->. congruence.
    + by apply Hes.
  - intros k p Hk. apply foldl_insertEntry_Some in Hk as [?|([key l] & Hin%Hes & <- & _)]; [done|].
    apply (lr_configs _ _ _ _ Hrel) in Hin as (i & ts & _ & Hi%list_elem_of_lookup_2).
    apply elem_of_listenerEntries in Hi as [? ?]. simpl. eauto.
Qed.
End NewListeners.

(** ** rebuildListenerHosts *)
Section RebuildListeners.
Context `{MR : MapRange}.

Record listenersRebuilt (c c' : Configuration) (kcs : list (string * ResourceChange)) : Prop := {
  lb_flags : c_flags c' = c_flags c;
  lb_objects : c_objects c' = c_objects c;
  lb_hosts : c_hosts c' = c_hosts c;
  lb_hostProblems : c_hostProblems c' = c_hostProblems c;
  lb_policyServices : c_policyServices c' = c_policyServices c;
  lb_startup : c_startupComplete c' = c_startupComplete c;
  lb_rel : ∃ cfgs, lis_rel (c_objects c) (c_store c) (listenerEntries (c_objects c))
             (c_store c', c_listenerHosts c', cfgs);
  lb_changes : exact_changes (c_store c') (c_listenerHosts c) (c_listenerHosts c') listenerStale kcs;
  lb_deletesFirst : deletesFirst kcs;
  lb_problem : ∀ key ts, o_transportServers (c_objects c) !! key = Some ts →
    isTLSPassthroughTS ts = false →
    c_listenerProblems c' !! ("TransportServer/" +:+ key) =
    listenerProblem (c_objects c) (c_store c') (c_listenerHosts c') ts;
  lb_problem_only : ∀ k p, c_listenerProblems c' !! k = Some p → ∃ key ts,
    k = "TransportServer/" +:+ key ∧ o_transportServers (c_objects c) !! key = Some ts ∧
    isTLSPassthroughTS ts = false
}.

Lemma rebuildListenerHosts_spec c :
  wf_objects (c_objects c) → listeners_ok (c_store c) (c_listenerHosts c) →
  ∃ c' kcs, rebuildListenerHosts c =
      Some (c', kcs.*2, detectChangesInProblems (c_listenerProblems c') (c_listenerProblems c)) ∧
    listenersRebuilt c c' kcs.
Proof.
  intros Hwf Hold. unfold rebuildListenerHosts.
  destruct (buildListenerHosts_rel (c_objects c) (c_store c)) as ([[h lh] cfgs] & -> & Hrel).
  cbn [mbind option_bind].
  pose proof (new_listeners_ok _ _ _ _ _ Hwf Hrel) as Hnew.
  assert (map_ok h (c_listenerHosts c)) as Hold'.
  { eapply map_ok_frame; [|apply Hold]. intros; by eapply (lr_old _ _ _ _ Hrel). }
  destruct (detectChangesInListenerHosts_spec h (c_listenerHosts c) lh) as (rm & up & ad & -> & Hdet);
    [done|apply Hnew|cbn [mbind option_bind]].
  destruct (changes_exact h (c_listenerHosts c) lh listenerStale rm up ad cfgs)
    as (changes & kcs & Hcr & Hsq & Hrf & Hex & Hdf);
    [apply listenerStale_key|done|apply Hnew|by eapply listener_latest_ok|done|].
  unfold createResourceChangesForListeners. rewrite Hcr. cbn [mbind option_bind]. rewrite Hsq.
  cbn [mbind option_bind]. rewrite Hrf. cbn [mbind option_bind].
  destruct (listener_problems _ _ _ _ _ Hwf Hrel) as (ps & -> & Hp1 & Hp2). cbn [mbind option_bind].
  match goal with |- ∃ _ _, Some (?x, _, _) = _ ∧ _ => exists x, (refreshed cfgs <$> kcs) end.
  split; [reflexivity|]. split; simpl; try done. by exists cfgs.
Qed.
End RebuildListeners.
