(* ===== verification/Operations.v ===== *)
(** The operations of k8s.Configuration as a state machine: the requests the
    controller issues, the invariant every reachable configuration satisfies,
    and what holds of the changes and problems each request returns. *)
From S2P Require Import Prelude GoStrings Objects ProxyBuffers Resources ConfigState Minions.
From S2P Require Import VSRoutes Hosts Changes Problems Configuration HostRebuild.
From S2P Require Import ListenerRebuild.

(** ** Updates of the objects *)

Definition objects_ok (o : Objects) : Prop :=
  wf_objects o ∧ index_ok (o_ingresses o) (o_minionsByHost o).

Section ObjectUpdates.
Context `{MR : MapRange}.
Variable o : Objects.
Hypothesis Hok : objects_ok o.

Lemma objects_ok_insert_ingress ing :
  wf_ingress ing →
  let key := getResourceKey (ing_Meta ing) in
  objects_ok (set_minionsByHost (set_ingresses o (<[key := ing]> (o_ingresses o)))
                (updateMinionIndex key (Some ing) (o_minionsByHost o))).
Proof.
  intros Hing key. destruct Hok as [[] Hidx]. split; [split; simpl; try done|].
  - intros k i [[<- <-]|[_ ?]]%lookup_insert_Some; eauto.
  - intros k i [[<- <-]|[_ ?]]%lookup_insert_Some; eauto.
  - by apply updateMinionIndex_Some_ok.
Qed.

Lemma objects_ok_delete_ingress key :
  objects_ok (set_minionsByHost (set_ingresses o (delete key (o_ingresses o)))
                (removeMinionFromIndex key (o_minionsByHost o))).
Proof.
  destruct Hok as [[] Hidx]. split; [split; simpl; try done|].
  - intros k i [_ ?]%lookup_delete_Some. eauto.
  - intros k i [_ ?]%lookup_delete_Some. eauto.
  - by apply removeMinionFromIndex_ok.
Qed.

Lemma objects_ok_virtualServers m :
  (∀ k vs, m !! k = Some vs → k = getResourceKey (vs_Meta vs)) →
  objects_ok (set_virtualServers o m).
Proof. intros Hm. destruct Hok as [[] Hidx]. by split; [split|]. Qed.

Lemma objects_ok_virtualServerRoutes m :
  (∀ k vsr, m !! k = Some vsr → k = getResourceKey (vsr_Meta vsr)) →
  objects_ok (set_virtualServerRoutes o m).
Proof. intros Hm. destruct Hok as [[] Hidx]. by split; [split|]. Qed.

Lemma objects_ok_transportServers m :
  (∀ k ts, m !! k = Some ts → k = getResourceKey (ts_Meta ts) ∧
     slashes (om_Namespace (ts_Meta ts)) = 0 ∧ slashes (om_Name (ts_Meta ts)) = 0) →
  objects_ok (set_transportServers o m).
Proof.
  intros Hm. destruct Hok as [[] Hidx]. split; [split|]; simpl; try done; naive_solver.
Qed.

Lemma objects_ok_globalConfiguration gc :
  objects_ok (setGlobalConfigListenerMap (set_globalConfiguration o gc)).
Proof. destruct Hok as [[] Hidx]. by split; [split|]. Qed.
End ObjectUpdates.

(** ** The state machine *)
Inductive request :=
  | ReqAddOrUpdateIngress (ing : Ingress)
  | ReqDeleteIngress (key : string)
  | ReqAddOrUpdateVirtualServer (vs : VirtualServer)
  | ReqDeleteVirtualServer (key : string)
  | ReqAddOrUpdateVirtualServerRoute (vsr : VirtualServerRoute)
  | ReqDeleteVirtualServerRoute (key : string)
  | ReqAddOrUpdateTransportServer (ts : TransportServer)
  | ReqDeleteTransportServer (key : string)
  | ReqAddOrUpdateGlobalConfiguration (gc : GlobalConfiguration)
  | ReqDeleteGlobalConfiguration
  | ReqCompleteStartup
  | ReqUpdatePolicyServiceRef (ns name svc : string)
  | ReqDeletePolicyServiceRef (ns name : string).

(** Kubernetes names have no slash. *)
Definition wf_request (req : request) : Prop :=
  match req with
  | ReqAddOrUpdateTransportServer ts =>
      slashes (om_Namespace (ts_Meta ts)) = 0 ∧ slashes (om_Name (ts_Meta ts)) = 0
  | _ => True
  end.

Section Machine.
Context `{MR : MapRange} `{V : Validators} `{LS : LabelSelectors}.

Definition exec (req : request) (c : Configuration) : option result :=
  match req with
  | ReqAddOrUpdateIngress ing => AddOrUpdateIngress ing c
  | ReqDeleteIngress key => DeleteIngress key c
  | ReqAddOrUpdateVirtualServer vs => AddOrUpdateVirtualServer vs c
  | ReqDeleteVirtualServer key => DeleteVirtualServer key c
  | ReqAddOrUpdateVirtualServerRoute vsr => AddOrUpdateVirtualServerRoute vsr c
  | ReqDeleteVirtualServerRoute key => DeleteVirtualServerRoute key c
  | ReqAddOrUpdateTransportServer ts => AddOrUpdateTransportServer ts c
  | ReqDeleteTransportServer key => DeleteTransportServer key c
  | ReqAddOrUpdateGlobalConfiguration gc => fst <$> AddOrUpdateGlobalConfiguration gc c
  | ReqDeleteGlobalConfiguration => DeleteGlobalConfiguration c
  | ReqCompleteStartup => CompleteStartup c
  | ReqUpdatePolicyServiceRef ns name svc => Some (UpdatePolicyServiceRef ns name svc c, [], [])
  | ReqDeletePolicyServiceRef ns name => Some (DeletePolicyServiceRef ns name c, [], [])
  end.

(** The configurations the controller can reach. *)
Inductive reachable (fl : Flags) : Configuration → Prop :=
  | reach_new : reachable fl (NewConfiguration fl)
  | reach_step c req c' changes problems :
      reachable fl c → wf_request req → exec req c = Some (c', changes, problems) →
      reachable fl c'.

(** The invariant of the state machine. *)
Record config_inv (c : Configuration) : Prop := {
  ci_objects : objects_ok (c_objects c);
  ci_hosts : hosts_ok (c_store c) (c_hosts c);
  ci_listeners : listeners_ok (c_store c) (c_listenerHosts c);
  ci_passthrough : f_isTLSPassthroughEnabled (c_flags c) = false →
    ∀ host r, holds (c_store c) (c_hosts c) host r → kindOf r ≠ transportServerKind
}.

(** The host map is that of the current objects: every host has the owner the
    specification gives it, in its current version. *)
Record hosts_current (c : Configuration) : Prop := {
  hc_hosts : ∀ host, match c_hosts c !! host with
    | Some l => ∃ r' r, c_store c !! l = Some r' ∧ r ∈ resourcesOf c ∧ core r' = core r ∧
                  validHostsOf r' = activeHosts (ownersOf c) r ∧
                  ownersOf c !! host = Some (GetKeyWithKind r, GetObjectMeta r)
    | None => ownersOf c !! host = None
    end;
  hc_problem_resource : ∀ r, r ∈ resourcesOf c →
    c_hostProblems c !! GetKeyWithKind r = ownershipProblem (ownersOf c) r;
  hc_problem_minion : ∀ key ing host,
    o_ingresses (c_objects c) !! key = Some ing → minionHost ing = Some host →
    c_hostProblems c !! ("Ingress/" +:+ key) =
    if hasMaster (c_store c) (c_hosts c) host then None else Some (orphanProblem ing);
  hc_problem_vsr : ∀ key vsr, o_virtualServerRoutes (c_objects c) !! key = Some vsr →
    c_hostProblems c !! ("VirtualServerRoute/" +:+ key) =
    vsrProblemOf (c_store c) (c_hosts c) vsr;
  hc_problem_only : ∀ k p, c_hostProblems c !! k = Some p →
    (∃ r, r ∈ resourcesOf c ∧ k = GetKeyWithKind r) ∨
    (∃ key ing host, k = "Ingress/" +:+ key ∧ o_ingresses (c_objects c) !! key = Some ing ∧
       minionHost ing = Some host) ∨
    (∃ key vsr, k = "VirtualServerRoute/" +:+ key ∧
       o_virtualServerRoutes (c_objects c) !! key = Some vsr)
}.

(** ** The two rebuilds keep the invariant *)

Lemma listeners_ok_frame h h' lh :
  (∀ l, l < length h → h' !! l = h !! l) → listeners_ok h lh → listeners_ok h' lh.
Proof.
  intros Hf [Hm Hp]. split; [by eapply map_ok_frame|].
  intros k r Hr%(holds_frame h); eauto.
Qed.

(** Without TLS Passthrough no TransportServer asks for a host. *)
Lemma resourcesOf_no_ts c r :
  f_isTLSPassthroughEnabled (c_flags c) = false → r ∈ resourcesOf c → objects_ok (c_objects c) →
  kindOf r ≠ transportServerKind.
Proof.
  intros Hfl Hin [Hwf Hidx]. unfold resourcesOf, newResourceList in Hin. rewrite Hfl, app_nil_r in Hin.
  apply elem_of_app in Hin as [(k & _ & Hk)%list_elem_of_omap|(k & _ & Hk)%list_elem_of_omap].
  - unfold newIngressResource in Hk.
    destruct (o_ingresses (c_objects c) !! k) as [ing|] eqn:Hi; simpl in Hk; [|done]. case_match; [done|].
    destruct (ingressResource_total (c_objects c) Hwf Hidx ing (wfo_ing _ Hwf _ _ Hi))
      as (r' & Hr & ic & -> & _). rewrite Hr in Hk. by injection Hk as <-.
  - unfold newVSResource, virtualServerResource in Hk.
    destruct (o_virtualServers (c_objects c) !! k); simpl in Hk; [|done]. case_match_all. done.
Qed.

Lemma rebuilt_inv c c' kcs : config_inv c → rebuilt c c' kcs → config_inv c'.
Proof.
  intros [[Hwf Hidx] Hh Hl Hp] Hrb. split.
  - rewrite (rb_objects _ _ _ Hrb). done.
  - eapply new_hosts_ok; [apply (rb_hosts _ _ _ Hrb)|apply (rb_store _ _ _ Hrb)|].
    by apply NoDup_newResourceList.
  - rewrite (rb_listenerHosts _ _ _ Hrb). eapply listeners_ok_frame; [|exact Hl].
    apply (rb_store _ _ _ Hrb).
  - rewrite (rb_flags _ _ _ Hrb). intros Hfl host r Hr.
    destruct (hosts_rel_holds _ _ _ _ _ (rb_hosts _ _ _ Hrb) (rb_store _ _ _ Hrb) host r Hr)
      as (i & x & _ & Hi & Hc & _). rewrite (core_kind _ _ Hc).
    eapply (resourcesOf_no_ts c); [done| |done]. by eapply list_elem_of_lookup_2.
Qed.

Lemma rebuilt_resources c c' kcs : rebuilt c c' kcs →
  resourcesOf c' = resourcesOf c ∧ ownersOf c' = ownersOf c.
Proof.
  intros Hrb. unfold resourcesOf, ownersOf. by rewrite (rb_flags _ _ _ Hrb), (rb_objects _ _ _ Hrb).
Qed.

Lemma rebuilt_current c c' kcs : rebuilt c c' kcs → hosts_current c'.
Proof.
  intros Hrb. pose proof (rebuilt_resources _ _ _ Hrb) as [Hr Ho].
  destruct Hrb as [? Hobj ? ? ? ? Hs Hh ? ? P1 P2 P3 P4].
  split; rewrite ?Hr, ?Ho, ?Hobj; try done.
  intros host. pose proof (Hh host) as Hx. destruct (c_hosts c' !! host) as [l|]; [|done].
  destruct Hx as (i & r & -> & Hi & _ & Hm). destruct (mr_new _ _ _ _ Hs i r Hi) as (r' & ? & ? & ?).
  exists r', r. split_and!; try done. by eapply list_elem_of_lookup_2.
Qed.

Lemma listenersRebuilt_inv c c' kcs : config_inv c → listenersRebuilt c c' kcs → config_inv c'.
Proof.
  intros [[Hwf Hidx] Hh Hl Hp] Hrb. destruct (lb_rel _ _ _ Hrb) as [cfgs Hrel]. split.
  - rewrite (lb_objects _ _ _ Hrb). done.
  - rewrite (lb_hosts _ _ _ Hrb). eapply hosts_ok_frame; [|exact Hh].
    apply (lr_old _ _ _ _ Hrel).
  - by eapply new_listeners_ok.
  - rewrite (lb_flags _ _ _ Hrb), (lb_hosts _ _ _ Hrb). intros Hfl host r Hr.
    apply (Hp Hfl host).
    apply (holds_frame (c_store c) (c_store c')); [apply (lr_old _ _ _ _ Hrel)|apply Hh|done].
Qed.

(** ** Attaching a validation error *)
Definition withError (err : string) (c : ResourceChange) : ResourceChange :=
  {| rc_Op := rc_Op c; rc_Resource := rc_Resource c; rc_Error := err |}.

Fixpoint attachKeyed (key err : string) (kcs : list (string * ResourceChange))
    : list (string * ResourceChange) :=
  match kcs with
  | [] => []
  | (k, c) :: rest =>
      if decide (k = key) then (k, withError err c) :: rest else (k, c) :: attachKeyed key err rest
  end.

Lemma attachError_eq h key err kcs :
  keyed h kcs →
  attachError h key err kcs.*2 = Some ((attachKeyed key err kcs).*2, bool_decide (key ∈ kcs.*1)).
Proof.
  induction kcs as [|[k c] kcs IH]; intros Hk; [done|]. csimpl.
  rewrite (Hk k c) by set_solver. simpl. destruct (decide (k = key)) as [->|Hne].
  - rewrite !bool_decide_eq_true_2 by set_solver. done.
  - rewrite (bool_decide_eq_false_2 (k = key)) by done.
    rewrite IH by (intros ???; apply Hk; set_solver). simpl.
    do 2 f_equal. apply bool_decide_ext. set_solver.
Qed.

Lemma applyChanges_attach h D key err kcs :
  applyChanges h D (attachKeyed key err kcs).*2 = applyChanges h D kcs.*2.
Proof.
  revert D. induction kcs as [|[k c] kcs IH]; intros D; [done|]. csimpl.
  case_decide; [done|]. unfold applyChanges in *. csimpl. apply IH.
Qed.

Lemma attachKeyed_keys key err kcs : (attachKeyed key err kcs).*1 = kcs.*1.
Proof.
  induction kcs as [|[k c] kcs IH]; [done|]. csimpl. case_decide; [done|]. csimpl. by rewrite IH.
Qed.

Lemma elem_of_attachKeyed key err kcs k c :
  (k, c) ∈ attachKeyed key err kcs →
  ∃ c0, (k, c0) ∈ kcs ∧ rc_Op c0 = rc_Op c ∧ rc_Resource c0 = rc_Resource c.
Proof.
  induction kcs as [|[k0 c0] kcs IH]; simpl; [set_solver|]. case_decide as Hk.
  - intros [[= -> ->]|Hin]%elem_of_cons; [exists c0|exists c]; set_solver.
  - intros [[= -> ->]|(x & ? & ?)%IH]%elem_of_cons; [exists c0|exists x]; set_solver.
Qed.

Lemma exact_changes_attach `{Countable K} h (oldM newM : gmap K loc) stale key err kcs :
  exact_changes h oldM newM stale kcs → exact_changes h oldM newM stale (attachKeyed key err kcs).
Proof.
  intros [Hk Hnd Hu Hd Hc]. split; rewrite ?attachKeyed_keys; try done.
  - intros k c (c0 & Hin & _ & Hr)%elem_of_attachKeyed. specialize (Hk _ _ Hin).
    unfold changeKey in *. by rewrite Hr in Hk.
  - intros k c (c0 & Hin & Hop & Hr)%elem_of_attachKeyed. rewrite <- Hop, <- Hr. by apply Hu.
  - intros k c (c0 & Hin & Hop & Hr)%elem_of_attachKeyed. rewrite <- Hop. by apply Hd.
Qed.

(** ** Requests that only touch hosts *)

(** The tail shared by the Ingress, VirtualServer and VirtualServerRoute
    operations: nothing before the startup completes, a rebuild after. *)
Lemma rebuildHosts_inv c :
  config_inv c → ∃ c' kcs,
    rebuildHosts c = Some (c', kcs.*2, detectChangesInProblems (c_hostProblems c') (c_hostProblems c)) ∧
    rebuilt c c' kcs ∧ config_inv c'.
Proof.
  intros Hinv. pose proof Hinv as [[Hwf Hidx] Hh _ _].
  destruct (rebuildHosts_spec c Hwf Hidx Hh) as (c' & kcs & ? & Hrb). exists c', kcs.
  split_and!; [done|done|by eapply rebuilt_inv].
Qed.

Lemma rebuildListeners_inv c :
  config_inv c → ∃ c' kcs,
    rebuildListenerHosts c =
      Some (c', kcs.*2, detectChangesInProblems (c_listenerProblems c') (c_listenerProblems c)) ∧
    listenersRebuilt c c' kcs ∧ config_inv c'.
Proof.
  intros Hinv. pose proof Hinv as [[Hwf Hidx] _ Hl _].
  destruct (rebuildListenerHosts_spec c Hwf Hl) as (c' & kcs & ? & Hrb).
  exists c', kcs. split_and!; [done|done|by eapply listenersRebuilt_inv].
Qed.

Lemma config_inv_objects c o :
  config_inv c → objects_ok o → config_inv (set_objects c o).
Proof. intros [_ Hh Hl Hp] Ho. by split. Qed.

(** [full_inv]: the invariant, and hosts up to date once the startup is complete. *)
Definition full_inv (c : Configuration) : Prop :=
  config_inv c ∧ (c_startupComplete c = true → hosts_current c).

Definition good (res : option result) : Prop :=
  ∃ c' changes problems, res = Some (c', changes, problems) ∧ full_inv c'.

Lemma reportError_ok c kcs ps key err p :
  keyed (c_store c) kcs →
  reportError key err p (c, kcs.*2, ps) =
  Some (c, (attachKeyed key err kcs).*2, if decide (key ∈ kcs.*1) then ps else ps ++ [p]).
Proof.
  intros Hk. unfold reportError. rewrite attachError_eq by done. simpl. by case_decide;
    [rewrite bool_decide_eq_true_2|rewrite bool_decide_eq_false_2].
Qed.

(** The changes of a request that touches hosts only: exact, the deletions
    first; the objects of the old store are left alone. *)
Definition hostStep (c c' : Configuration) (changes : list ResourceChange) : Prop :=
  ∃ kcs, changes = kcs.*2 ∧
    exact_changes (c_store c') (c_hosts c) (c_hosts c') hostStale kcs ∧ deletesFirst kcs ∧
    (∀ l, l < length (c_store c) → c_store c' !! l = c_store c !! l) ∧
    c_listenerHosts c' = c_listenerHosts c ∧ c_flags c' = c_flags c.

Definition hostGood (c : Configuration) (res : option result) : Prop :=
  ∃ c' changes problems, res = Some (c', changes, problems) ∧ full_inv c' ∧ hostStep c c' changes.

Lemma hostGood_good c res : hostGood c res → good res.
Proof. intros (c' & ch & ps & ? & ? & _). by eexists _, _, _. Qed.

Lemma exact_changes_nothing `{Countable K} h (M : gmap K loc) stale :
  (∀ r, stale r r = false) → exact_changes h M M stale [].
Proof.
  intros Hrefl. split.
  - intros k c Hin. set_solver.
  - constructor.
  - intros k c Hin. set_solver.
  - intros k c Hin. set_solver.
  - intros k [(p & r & Hr & _ & Hno)|(p & r & Hr & Hk & Hno)]; destruct Hno; eauto.
Qed.

Lemma hostStep_nothing c c' :
  c_store c' = c_store c → c_hosts c' = c_hosts c → c_listenerHosts c' = c_listenerHosts c →
  c_flags c' = c_flags c → hostStep c c' [].
Proof.
  intros Hs Hh Hl Hfl. exists []. split; [done|]. rewrite Hh, Hs.
  split; [apply exact_changes_nothing, hostStale_refl|]. split; [|done]. by exists [], [].
Qed.

Lemma attachKeyed_app key err l us :
  attachKeyed key err (l ++ us) =
  if decide (key ∈ l.*1) then attachKeyed key err l ++ us else l ++ attachKeyed key err us.
Proof.
  induction l as [|[k c] l IH]; [by rewrite decide_False by set_solver|]. csimpl.
  rewrite IH. repeat case_decide; set_solver.
Qed.

Lemma deletesFirst_attach key err kcs : deletesFirst kcs → deletesFirst (attachKeyed key err kcs).
Proof.
  intros (ds & us & -> & Hd & Hu).
  assert (∀ op l, Forall (isOp op) l → Forall (isOp op) (attachKeyed key err l)) as Hop.
  { intros op l Hl. apply Forall_forall. intros [k c] (c0 & Hin & Hc & _)%elem_of_attachKeyed.
    rewrite Forall_forall in Hl. specialize (Hl _ Hin). unfold isOp in *. simpl in *. congruence. }
  rewrite attachKeyed_app. case_decide; [exists (attachKeyed key err ds), us|exists ds, (attachKeyed key err us)];
    split_and!; auto.
Qed.

Lemma hostStep_rebuilt c c1 c' kcs :
  c_store c1 = c_store c → c_hosts c1 = c_hosts c → c_listenerHosts c1 = c_listenerHosts c →
  c_flags c1 = c_flags c → rebuilt c1 c' kcs → hostStep c c' kcs.*2.
Proof.
  intros Hs Hh Hl Hfl Hrb. exists kcs. split; [done|]. rewrite <- Hh, <- Hs, <- Hl, <- Hfl.
  split; [apply (rb_changes _ _ _ Hrb)|]. split; [apply (rb_deletesFirst _ _ _ Hrb)|].
  split_and!; [apply (rb_store _ _ _ Hrb)|apply (rb_listenerHosts _ _ _ Hrb)|apply (rb_flags _ _ _ Hrb)].
Qed.

Lemma hostStep_attach c c1 c' kcs key err :
  c_store c1 = c_store c → c_hosts c1 = c_hosts c → c_listenerHosts c1 = c_listenerHosts c →
  c_flags c1 = c_flags c → rebuilt c1 c' kcs → hostStep c c' (attachKeyed key err kcs).*2.
Proof.
  intros Hs Hh Hl Hfl Hrb. exists (attachKeyed key err kcs). split; [done|]. rewrite <- Hh, <- Hs, <- Hl, <- Hfl.
  split; [apply exact_changes_attach, (rb_changes _ _ _ Hrb)|].
  split; [apply deletesFirst_attach, (rb_deletesFirst _ _ _ Hrb)|].
  split_and!; [apply (rb_store _ _ _ Hrb)|apply (rb_listenerHosts _ _ _ Hrb)|apply (rb_flags _ _ _ Hrb)].
Qed.

Lemma good_rebuildHosts c c1 :
  config_inv c1 → c_store c1 = c_store c → c_hosts c1 = c_hosts c →
  c_listenerHosts c1 = c_listenerHosts c → c_flags c1 = c_flags c → hostGood c (rebuildHosts c1).
Proof.
  intros Hinv Hs Hh Hl Hfl. destruct (rebuildHosts_inv c1 Hinv) as (c' & kcs & -> & Hrb & Hinv').
  eexists _, _, _. split; [done|]. split; [|by apply (hostStep_rebuilt c c1)].
  split; [done|]. intros _. by eapply rebuilt_current.
Qed.

(** The tail of the Ingress and VirtualServer operations. *)
Lemma good_hostOp c o' key (verr : option string) (problem : string → ConfigurationProblem) :
  config_inv c → objects_ok o' →
  let c1 := set_objects c o' in
  hostGood c (if negb (c_startupComplete c1)
        then Some (c1, [], from_option (λ err, [problem err]) [] verr)
        else res ← rebuildHosts c1;
             match verr with
             | None => Some res
             | Some err => reportError key err (problem err) res
             end).
Proof.
  intros Hinv Ho c1. assert (config_inv c1) as Hinv1 by (by apply config_inv_objects).
  destruct (c_startupComplete c1) eqn:Hst; cbn [negb].
  - destruct (rebuildHosts_inv c1 Hinv1) as (c' & kcs & -> & Hrb & Hinv'). cbn [mbind option_bind].
    assert (full_inv c') as Hfull by (split; [done|]; intros _; by eapply rebuilt_current).
    destruct verr as [err|].
    + rewrite reportError_ok by apply (rb_changes _ _ _ Hrb). eexists _, _, _.
      split; [done|]. split; [done|]. by apply (hostStep_attach c c1).
    + eexists _, _, _. split; [done|]. split; [done|]. by apply (hostStep_rebuilt c c1).
  - eexists _, _, _. split; [done|]. split; [|by apply hostStep_nothing]. split; [done|congruence].
Qed.

(** ** Every request succeeds and keeps the invariant *)
Context `{Laws : !IngressValidatorLaws}.

(** The objects an AddOrUpdate operation stores, separated from its tail. *)
Ltac split_objects Ho :=
  match goal with |- hostGood _ (let '(_, _) := ?x in _) =>
    let o' := fresh "o'" in let verr := fresh "verr" in
    assert (objects_ok x.1) as Ho; [|destruct x as [o' verr]; cbn [fst] in Ho; cbv zeta] end.

Lemma good_AddOrUpdateIngress ing c : full_inv c → hostGood c (AddOrUpdateIngress ing c).
Proof.
  intros [Hinv _]. pose proof (ci_objects _ Hinv) as Ho. unfold AddOrUpdateIngress.
  split_objects Ho'.
  - destruct (hasCorrectIngressClass (OIngress ing)); simpl;
      [destruct (validateIngress (c_flags c) ing) as [err|] eqn:Hv|].
    + by apply objects_ok_delete_ingress.
    + apply objects_ok_insert_ingress; [done|]. by eapply validateIngress_wf.
    + by apply objects_ok_delete_ingress.
  - by apply good_hostOp.
Qed.

Lemma good_deleteHostOp c o' :
  full_inv c → objects_ok o' →
  hostGood c (let c1 := set_objects c o' in
        if negb (c_startupComplete c1) then Some (c1, [], []) else rebuildHosts c1).
Proof.
  intros [Hinv _] Ho. cbv zeta.
  assert (config_inv (set_objects c o')) as Hinv' by (by apply config_inv_objects).
  destruct (c_startupComplete (set_objects c o')) eqn:Hst; cbn [negb].
  - by apply good_rebuildHosts.
  - eexists _, _, _. split; [done|]. split; [|by apply hostStep_nothing]. split; [done|congruence].
Qed.

Lemma good_nothing c : full_inv c → hostGood c (Some (c, [], [])).
Proof.
  intros H. eexists _, _, _. split; [done|]. split; [done|]. by apply hostStep_nothing.
Qed.

Lemma good_DeleteIngress key c : full_inv c → hostGood c (DeleteIngress key c).
Proof.
  intros Hf. unfold DeleteIngress. case_match; [|by apply good_nothing].
  apply (good_deleteHostOp c); [done|]. apply objects_ok_delete_ingress, Hf.
Qed.

Lemma good_AddOrUpdateVirtualServer vs c : full_inv c → hostGood c (AddOrUpdateVirtualServer vs c).
Proof.
  intros [Hinv _]. pose proof (ci_objects _ Hinv) as Ho. unfold AddOrUpdateVirtualServer.
  split_objects Ho'.
  - destruct (hasCorrectIngressClass (OVirtualServer vs)); simpl;
      [destruct (ValidateVirtualServer vs)|]; apply objects_ok_virtualServers; try done; intros k v.
    + intros [_ ?]%lookup_delete_Some. by apply (wfo_vs_key _ (proj1 Ho)).
    + intros [[<- <-]|[_ ?]]%lookup_insert_Some; [done|]. by apply (wfo_vs_key _ (proj1 Ho)).
    + intros [_ ?]%lookup_delete_Some. by apply (wfo_vs_key _ (proj1 Ho)).
  - by apply (good_hostOp c _ _ verr (λ err, rejection (OVirtualServer vs) _)).
Qed.

Lemma good_DeleteVirtualServer key c : full_inv c → hostGood c (DeleteVirtualServer key c).
Proof.
  intros Hf. unfold DeleteVirtualServer. destruct (o_virtualServers _ !! key); [|by apply good_nothing].
  apply (good_deleteHostOp c); [done|]. apply objects_ok_virtualServers; [apply Hf|].
  intros k x [_ ?]%lookup_delete_Some. by apply (wfo_vs_key _ (proj1 (ci_objects _ (proj1 Hf)))).
Qed.

Lemma good_AddOrUpdateVirtualServerRoute vsr c :
  full_inv c → hostGood c (AddOrUpdateVirtualServerRoute vsr c).
Proof.
  intros [Hinv _]. pose proof (ci_objects _ Hinv) as Ho. unfold AddOrUpdateVirtualServerRoute.
  split_objects Ho'.
  { destruct (hasCorrectIngressClass (OVirtualServerRoute vsr)); simpl;
      [destruct (ValidateVirtualServerRoute vsr)|]; apply objects_ok_virtualServerRoutes; try done;
      intros k v.
    - intros [_ ?]%lookup_delete_Some. by apply (wfo_vsr_key _ (proj1 Ho)).
    - intros [[<- <-]|[_ ?]]%lookup_insert_Some; [done|]. by apply (wfo_vsr_key _ (proj1 Ho)).
    - intros [_ ?]%lookup_delete_Some. by apply (wfo_vsr_key _ (proj1 Ho)). }
  assert (config_inv (set_objects c o')) as Hinv' by (by apply config_inv_objects).
  destruct (c_startupComplete (set_objects c o')) eqn:Hst; cbn [negb].
  - destruct (rebuildHosts_inv _ Hinv') as (c' & kcs & -> & Hrb & Hc'). cbn [mbind option_bind].
    eexists _, _, _. split; [done|]. split; [|by apply (hostStep_rebuilt c (set_objects c o'))].
    split; [done|]. intros _. by eapply rebuilt_current.
  - eexists _, _, _. split; [done|]. split; [|by apply hostStep_nothing]. split; [done|congruence].
Qed.

Lemma good_DeleteVirtualServerRoute key c : full_inv c → hostGood c (DeleteVirtualServerRoute key c).
Proof.
  intros Hf. unfold DeleteVirtualServerRoute. destruct (o_virtualServerRoutes _ !! key); [|by apply good_nothing].
  apply (good_deleteHostOp c); [done|]. apply objects_ok_virtualServerRoutes; [apply Hf|].
  intros k x [_ ?]%lookup_delete_Some. by apply (wfo_vsr_key _ (proj1 (ci_objects _ (proj1 Hf)))).
Qed.

(** ** Requests that touch listeners *)

(** Growing the store does not matter to the host map. *)
Lemma hosts_current_frame c c' :
  hosts_ok (c_store c) (c_hosts c) → hosts_current c →
  (∀ l, l < length (c_store c) → c_store c' !! l = c_store c !! l) →
  c_hosts c' = c_hosts c → c_hostProblems c' = c_hostProblems c →
  resourcesOf c' = resourcesOf c → ownersOf c' = ownersOf c →
  o_ingresses (c_objects c') = o_ingresses (c_objects c) →
  o_virtualServerRoutes (c_objects c') = o_virtualServerRoutes (c_objects c) →
  hosts_current c'.
Proof.
  intros [[Hv _] _ _] [H1 H2 H3 H4 H5] Hf Hh Hp Hr Ho Hi Hvsr.
  assert (∀ host l, c_hosts c !! host = Some l → c_store c' !! l = c_store c !! l) as Hl.
  { intros host l Hl. apply Hf. destruct (Hv _ _ Hl) as [x Hx]. by eapply lookup_lt_Some. }
  assert (∀ host, derefAt (c_store c') (c_hosts c) host = derefAt (c_store c) (c_hosts c) host) as Hd.
  { intros host. unfold derefAt. destruct (c_hosts c !! host) as [l|] eqn:Hx; [|done]. simpl.
    by rewrite (Hl _ _ Hx). }
  split; rewrite ?Hh, ?Hp, ?Hr, ?Ho, ?Hi, ?Hvsr; try done.
  - intros host. specialize (H1 host). destruct (c_hosts c !! host) as [l|] eqn:Hx; [|done].
    by rewrite (Hl _ _ Hx).
  - intros key ing host. unfold hasMaster. rewrite Hd. apply H3.
  - intros key vsr. unfold vsrProblemOf. rewrite Hd. apply H4.
Qed.

(** The changes of any request: those of the listeners, then those of the
    hosts, each exact and with its deletions first. *)
Record stepOf (c c' : Configuration) (kcs1 kcs2 : list (string * ResourceChange)) : Prop := {
  st_listeners : exact_changes (c_store c') (c_listenerHosts c) (c_listenerHosts c') listenerStale kcs1;
  st_hosts : exact_changes (c_store c') (c_hosts c) (c_hosts c') hostStale kcs2;
  st_first1 : deletesFirst kcs1;
  st_first2 : deletesFirst kcs2;
  st_frame : ∀ l, l < length (c_store c) → c_store c' !! l = c_store c !! l;
  st_flags : c_flags c' = c_flags c
}.

Definition stepGood (c : Configuration) (res : option result) : Prop :=
  ∃ c' kcs1 kcs2 problems, res = Some (c', (kcs1 ++ kcs2).*2, problems) ∧ full_inv c' ∧
    stepOf c c' kcs1 kcs2.

Lemma hostGood_stepGood c res : hostGood c res → stepGood c res.
Proof.
  intros (c' & changes & ps & -> & Hf & kcs & -> & Hex & Hd & Hfr & Hl & Hfl).
  exists c', [], kcs, ps. split; [done|]. split; [done|]. split; try done.
  - rewrite Hl. apply exact_changes_nothing, listenerStale_refl.
  - by exists [], [].
Qed.

Lemma stepGood_good c res : stepGood c res → good res.
Proof. intros (c' & k1 & k2 & ps & ? & ? & _). by eexists _, _, _. Qed.

Lemma stepOf_keyed c c' kcs1 kcs2 : stepOf c c' kcs1 kcs2 → keyed (c_store c') (kcs1 ++ kcs2).
Proof.
  intros [H1 H2 _ _ _ _] k ch [Hin|Hin]%elem_of_app; [by apply H1|by apply H2].
Qed.

Lemma stepOf_attach c c' kcs1 kcs2 key err :
  stepOf c c' kcs1 kcs2 → ∃ kcs1' kcs2',
    attachKeyed key err (kcs1 ++ kcs2) = kcs1' ++ kcs2' ∧ stepOf c c' kcs1' kcs2'.
Proof.
  intros [H1 H2 H3 H4 H5 H6]. rewrite attachKeyed_app. case_decide.
  - eexists _, _. split; [done|]. split; auto using exact_changes_attach, deletesFirst_attach.
  - eexists _, _. split; [done|]. split; auto using exact_changes_attach, deletesFirst_attach.
Qed.

Lemma rebuildListenersThenHosts_ok b c :
  config_inv c → (b = false → c_startupComplete c = true → hosts_current c) →
  stepGood c (rebuildListenersThenHosts b c).
Proof.
  intros Hinv Hcur. unfold rebuildListenersThenHosts.
  destruct (rebuildListeners_inv c Hinv) as (c1 & kcs1 & -> & Hrb & Hinv1). cbn [mbind option_bind].
  destruct (lb_rel _ _ _ Hrb) as [cfgs Hrel].
  pose proof (lr_old _ _ _ _ Hrel) as Hf1. simpl in Hf1. destruct b.
  - destruct (rebuildHosts_inv c1 Hinv1) as (c2 & kcs2 & -> & Hrb2 & Hinv2). cbn [mbind option_bind].
    pose proof (mr_old _ _ _ _ (rb_store _ _ _ Hrb2)) as Hf2.
    eexists c2, kcs1, kcs2, _. rewrite fmap_app. split; [done|]. split.
    { split; [done|]. intros _. by eapply rebuilt_current. }
    split; [|rewrite <- (lb_hosts _ _ _ Hrb); apply (rb_changes _ _ _ Hrb2)
            |apply (lb_deletesFirst _ _ _ Hrb)|apply (rb_deletesFirst _ _ _ Hrb2)| |].
    + rewrite (rb_listenerHosts _ _ _ Hrb2).
      eapply exact_changes_frame; [exact Hf2| | |apply (lb_changes _ _ _ Hrb)].
      * eapply map_ok_frame; [exact Hf1|]. apply Hinv.
      * apply Hinv1.
    + intros l Hl. rewrite Hf2; [by apply Hf1|].
      pose proof (lr_length _ _ _ _ Hrel) as Hlen. simpl in Hlen. lia.
    + by rewrite (rb_flags _ _ _ Hrb2), (lb_flags _ _ _ Hrb).
  - eexists c1, kcs1, [], _. rewrite !app_nil_r. split; [done|]. split.
    + split; [done|]. intros Hst. rewrite (lb_startup _ _ _ Hrb) in Hst.
      eapply hosts_current_frame; [apply Hinv|by apply Hcur|..].
      * apply Hf1.
      * apply (lb_hosts _ _ _ Hrb).
      * apply (lb_hostProblems _ _ _ Hrb).
      * unfold resourcesOf. by rewrite (lb_flags _ _ _ Hrb), (lb_objects _ _ _ Hrb).
      * unfold ownersOf. by rewrite (lb_flags _ _ _ Hrb), (lb_objects _ _ _ Hrb).
      * by rewrite (lb_objects _ _ _ Hrb).
      * by rewrite (lb_objects _ _ _ Hrb).
    + split; [apply (lb_changes _ _ _ Hrb)| |apply (lb_deletesFirst _ _ _ Hrb)|by exists [], []|done|
               apply (lb_flags _ _ _ Hrb)].
      rewrite (lb_hosts _ _ _ Hrb). apply exact_changes_nothing, hostStale_refl.
Qed.

(** TransportServers are claimants of hosts only with TLS Passthrough. *)
Lemma hosts_current_transportServers c m :
  config_inv c → f_isTLSPassthroughEnabled (c_flags c) = false →
  (c_startupComplete c = true → hosts_current c) →
  c_startupComplete c = true → hosts_current (set_objects c (set_transportServers (c_objects c) m)).
Proof.
  intros Hinv Hfl Hcur Hst. eapply (hosts_current_frame c); try done.
  - apply Hinv.
  - by apply Hcur.
  - unfold resourcesOf, newResourceList. simpl. by rewrite Hfl.
  - unfold ownersOf, hostClaimants. simpl. by rewrite Hfl.
Qed.

(** Only the objects differ. *)
Lemma stepGood_objects c o' res : stepGood (set_objects c o') res → stepGood c res.
Proof.
  intros (c' & k1 & k2 & ps & -> & Hf & [H1 H2 H3 H4 H5 H6]). by exists c', k1, k2, ps.
Qed.

Lemma good_listenerOp c m (verr : option string) key (p : string → ConfigurationProblem) :
  full_inv c → objects_ok (set_transportServers (c_objects c) m) →
  let c1 := set_objects c (set_transportServers (c_objects c) m) in
  stepGood c (res ← rebuildListenersThenHosts (f_isTLSPassthroughEnabled (c_flags c1) && c_startupComplete c1) c1;
        match verr with None => Some res | Some err => reportError key err (p err) res end).
Proof.
  intros [Hinv Hcur] Ho c1. apply (stepGood_objects c (set_transportServers (c_objects c) m)). fold c1.
  destruct (rebuildListenersThenHosts_ok (f_isTLSPassthroughEnabled (c_flags c1) && c_startupComplete c1) c1)
    as (c' & kcs1 & kcs2 & ps & -> & Hfull & Hstep).
  - by apply config_inv_objects.
  - intros Hb Hst. simpl in Hb, Hst. rewrite Hst, andb_true_r in Hb.
    by apply hosts_current_transportServers.
  - cbn [mbind option_bind].
    destruct verr as [err|]; [|by exists c', kcs1, kcs2, ps].
    rewrite reportError_ok by (by eapply stepOf_keyed).
    destruct (stepOf_attach c1 c' kcs1 kcs2 key err Hstep) as (k1 & k2 & -> & Hstep').
    by eexists c', k1, k2, _.
Qed.

Lemma good_AddOrUpdateTransportServer ts c :
  full_inv c → wf_request (ReqAddOrUpdateTransportServer ts) →
  stepGood c (AddOrUpdateTransportServer ts c).
Proof.
  intros Hf Hname. pose proof (ci_objects _ (proj1 Hf)) as Ho. unfold AddOrUpdateTransportServer.
  assert (∀ k t, o_transportServers (c_objects c) !! k = Some t → k = getResourceKey (ts_Meta t) ∧
     slashes (om_Namespace (ts_Meta t)) = 0 ∧ slashes (om_Name (ts_Meta t)) = 0) as Hts.
  { intros k t Ht. split; [by apply (wfo_ts_key _ (proj1 Ho))|by eapply (wfo_ts_name _ (proj1 Ho))]. }
  destruct (hasCorrectIngressClass (OTransportServer ts)); cbn [negb];
    [destruct (ValidateTransportServer ts) as [err|]|].
  - apply (good_listenerOp c _ (Some err) _ (λ err, rejection (OTransportServer ts) _)); [done|].
    apply objects_ok_transportServers; [done|]. intros k t [_ ?]%lookup_delete_Some. by apply Hts.
  - apply (good_listenerOp c _ None "" (λ err, rejection (OTransportServer ts) err)); [done|].
    apply objects_ok_transportServers; [done|].
    intros k t [[<- <-]|[_ ?]]%lookup_insert_Some; [done|by apply Hts].
  - apply (good_listenerOp c _ None "" (λ err, rejection (OTransportServer ts) err)); [done|].
    apply objects_ok_transportServers; [done|]. intros k t [_ ?]%lookup_delete_Some. by apply Hts.
Qed.

Lemma good_DeleteTransportServer key c : full_inv c → stepGood c (DeleteTransportServer key c).
Proof.
  intros Hf. pose proof (ci_objects _ (proj1 Hf)) as Ho. unfold DeleteTransportServer.
  destruct (o_transportServers (c_objects c) !! key); [|by apply hostGood_stepGood, good_nothing].
  eapply stepGood_objects, rebuildListenersThenHosts_ok.
  - apply config_inv_objects; [apply Hf|]. apply objects_ok_transportServers; [done|].
    intros k x [_ ?]%lookup_delete_Some.
    split; [by apply (wfo_ts_key _ (proj1 Ho))|by eapply (wfo_ts_name _ (proj1 Ho))].
  - intros Hb Hst. simpl in Hb, Hst. rewrite Hst, andb_true_r in Hb.
    apply hosts_current_transportServers; try done; apply Hf.
Qed.

Lemma good_globalConfiguration gc c :
  full_inv c →
  let c1 := set_objects c (setGlobalConfigListenerMap (set_globalConfiguration (c_objects c) gc)) in
  stepGood c (rebuildListenersThenHosts (c_startupComplete c1) c1).
Proof.
  intros Hf c1. eapply stepGood_objects, rebuildListenersThenHosts_ok.
  - apply config_inv_objects; [apply Hf|]. apply objects_ok_globalConfiguration, Hf.
  - intros Hb Hst. congruence.
Qed.

Lemma good_CompleteStartup c : full_inv c → hostGood c (CompleteStartup c).
Proof. intros [[Ho Hh Hl Hp] _]. by apply good_rebuildHosts. Qed.

Lemma good_policy c m : full_inv c → full_inv (set_policyServices c m).
Proof.
  intros [[Ho Hh Hl Hp] Hcur]. split; [by split|]. intros Hst. by eapply (hosts_current_frame c); auto.
Qed.

(** The requests that leave the listeners alone. *)
Definition hostRequest (req : request) : bool :=
  match req with
  | ReqAddOrUpdateTransportServer _ | ReqDeleteTransportServer _
  | ReqAddOrUpdateGlobalConfiguration _ | ReqDeleteGlobalConfiguration => false
  | _ => true
  end.

Lemma exec_hostGood req c : full_inv c → hostRequest req = true → hostGood c (exec req c).
Proof.
  intros Hf Hreq. destruct req; try discriminate Hreq; simpl.
  - by apply good_AddOrUpdateIngress.
  - by apply good_DeleteIngress.
  - by apply good_AddOrUpdateVirtualServer.
  - by apply good_DeleteVirtualServer.
  - by apply good_AddOrUpdateVirtualServerRoute.
  - by apply good_DeleteVirtualServerRoute.
  - by apply good_CompleteStartup.
  - eexists _, _, _. split; [done|]. split; [by apply good_policy|by apply hostStep_nothing].
  - eexists _, _, _. split; [done|]. split; [by apply good_policy|by apply hostStep_nothing].
Qed.

Lemma exec_stepGood req c : full_inv c → wf_request req → stepGood c (exec req c).
Proof.
  intros Hf Hreq. destruct (hostRequest req) eqn:Hh; [by apply hostGood_stepGood, exec_hostGood|].
  destruct req; try discriminate Hh; simpl.
  - by apply good_AddOrUpdateTransportServer.
  - by apply good_DeleteTransportServer.
  - unfold AddOrUpdateGlobalConfiguration. destruct (ValidateGlobalConfiguration gc) as [gc' verr].
    destruct (good_globalConfiguration (Some gc') c Hf) as (c' & k1 & k2 & ps & Hx & ? & ?).
    rewrite Hx. by exists c', k1, k2, ps.
  - by apply good_globalConfiguration.
Qed.

Lemma exec_good req c : full_inv c → wf_request req → good (exec req c).
Proof. intros Hf Hreq. by eapply stepGood_good, exec_stepGood. Qed.

Lemma full_inv_new fl : full_inv (NewConfiguration fl).
Proof.
  split; [|done]. split; simpl.
  - split; [by split|]. split; [|done]. intros host key. unfold inIndex. simpl. split.
    + intros (keys & Hk & _). by rewrite lookup_empty in Hk.
    + intros (ing & Hi & _). by rewrite lookup_empty in Hi.
  - split; [split|..]; try done; by intros ? ? (l & ? & _).
  - split; [split|]; try done; by intros ? ? (l & ? & _).
  - by intros _ host r (l & ? & _).
Qed.

Lemma reachable_inv fl c : reachable fl c → full_inv c.
Proof.
  induction 1 as [|c req c' changes problems Hreach IH Hreq Hexec]; [apply full_inv_new|].
  destruct (exec_good req c IH Hreq) as (c2 & ch & ps & Heq & Hinv). congruence.
Qed.

(** Runs of several requests, with the changes they return. *)
Definition run1 (st : Configuration * list ResourceChange) (req : request)
    : option (Configuration * list ResourceChange) :=
  '(c, changes, _) ← exec req st.1; Some (c, st.2 ++ changes).

Definition runs (reqs : list request) (c : Configuration) : option Configuration :=
  fst <$> foldM run1 (c, []) reqs.

Lemma foldM_run1_reachable fl reqs st st' :
  reachable fl st.1 → Forall wf_request reqs → foldM run1 st reqs = Some st' → reachable fl st'.1.
Proof.
  revert st. induction reqs as [|req reqs IH]; intros [c ch] Hr Hwf Hrun; simpl in Hrun.
  - by simplify_eq.
  - apply Forall_cons in Hwf as [Hreq Hwf]. unfold run1 in Hrun at 2. simpl in Hrun.
    destruct (exec req c) as [[[c1 ch1] ps]|] eqn:He; [|done].
    eapply IH; [|done|exact Hrun]. by eapply reach_step.
Qed.

Lemma runs_reachable fl reqs c :
  Forall wf_request reqs → runs reqs (NewConfiguration fl) = Some c → reachable fl c.
Proof.
  intros Hwf. unfold runs. destruct (foldM _ _ _) as [st|] eqn:Hf; [|done]. intros [= <-].
  apply (foldM_run1_reachable fl reqs (NewConfiguration fl, []) st); [apply reach_new|done|done].
Qed.
End Machine.
