(* ===== verification/Scenario.v ===== *)
(** A concrete environment and concrete objects, on which the theorems of the
    configuration are evaluated. *)
From S2P Require Import Prelude GoStrings Objects ProxyBuffers Resources ConfigState.
From S2P Require Import Regex ValidationLib IngressValidation Minions VSRoutes.
From S2P Require Import Hosts Changes Problems.
From S2P Require Import Configuration HostRebuild ListenerRebuild Operations.

(** No annotation errors. *)
#[export] Instance sampleParams : IngressValidatorParams :=
  {| IV_lib := sampleLib; annotationErrors := λ _ _, [] |}.

(** A VirtualServer without host is invalid; the other objects are valid. *)
Definition sampleOther : Validators :=
  {| hasCorrectIngressClass := λ _, true;
     validateIngress := λ _ _, None;
     ValidateVirtualServer := λ vs, if bool_decide (vs_Host vs = "") then Some "host is required" else None;
     ValidateVirtualServerRoute := λ _, None;
     ValidateVirtualServerRouteForVirtualServer := λ vsr host _,
       if bool_decide (vsr_Host vsr = host) then None else Some "host mismatch";
     ValidateTransportServer := λ _, None;
     ValidateGlobalConfiguration := λ gc, (gc, None) |}.
#[export] Instance sampleValidators : Validators := controllerValidators sampleOther.
#[export] Instance sampleLaws : IngressValidatorLaws := controllerValidators_laws sampleOther.

(** Selectors that match on the label app. *)
#[export] Instance sampleSelectors : LabelSelectors :=
  {| LabelSelectorAsSelector := λ ls,
       inr (default "" (ls !! "app"), λ labels, bool_decide (labels !! "app" = ls !! "app"));
     LabelSelector_String := λ ls, default "" (ls !! "app") |}.
#[export] Existing Instance default_range.

Definition sampleFlags : Flags :=
  {| f_isPlus := false; f_appProtectEnabled := false; f_appProtectDosEnabled := false;
     f_isTLSPassthroughEnabled := true; f_snippetsEnabled := false; f_isCertManagerEnabled := false;
     f_isIPV6Disabled := false; f_isDirectiveAutoadjustEnabled := false;
     f_allowEmptyIngressHost := false |}.

Definition sampleMeta (name uid : string) (created : Z) : ObjectMeta :=
  {| om_Namespace := "default"; om_Name := name; om_UID := uid; om_CreationTimestamp := created;
     om_Generation := 1; om_Annotations := None; om_Labels := ∅ |}.

Definition samplePath (path : string) : HTTPIngressPath :=
  {| ip_Path := path; ip_PathType := Some "Prefix";
     ip_Backend := {| ib_Service := Some {| isb_Name := "svc"; isb_PortName := ""; isb_PortNumber := 80 |};
                      ib_HasResource := false |} |}.

(** An Ingress with the given hosts. *)
Definition sampleIngress (name uid : string) (created : Z) (hosts : list string) : Ingress :=
  {| ing_Meta := sampleMeta name uid created; ing_IngressClassName := None; ing_DefaultBackend := None;
     ing_TLS := [];
     ing_Rules := (λ h, {| ir_Host := h; ir_HTTP := Some [samplePath "/"] |}) <$> hosts |}.

(** A master or minion of one host. *)
Definition sampleMergeable (kind name uid : string) (created : Z) (host : string)
    (paths : list string) : Ingress :=
  {| ing_Meta := {| om_Namespace := "default"; om_Name := name; om_UID := uid;
                    om_CreationTimestamp := created; om_Generation := 1;
                    om_Annotations := Some {["nginx.org/mergeable-ingress-type" := kind]};
                    om_Labels := ∅ |};
     ing_IngressClassName := None; ing_DefaultBackend := None;
     ing_TLS := [];
     ing_Rules := [{| ir_Host := host;
                      ir_HTTP := if bool_decide (paths = []) then None else Some (samplePath <$> paths) |}] |}.

Definition sampleVS (name uid : string) (created : Z) (host : string) : VirtualServer :=
  {| vs_Meta := sampleMeta name uid created; vs_IngressClass := ""; vs_Host := host;
     vs_Listener := None; vs_TLS := None; vs_Gunzip := false; vs_Policies := []; vs_Upstreams := [];
     vs_Routes := []; vs_HTTPSnippets := ""; vs_ServerSnippets := ""; vs_AddHeaderInherit := "";
     vs_Dos := ""; vs_ExternalDNS := noExternalDNS |}.

Definition sampleTS (name uid : string) (created : Z) (listener protocol host : string)
    : TransportServer :=
  {| ts_Meta := sampleMeta name uid created; ts_IngressClass := ""; ts_TLSSecret := None;
     ts_Listener := {| tsl_Name := listener; tsl_Protocol := protocol |};
     ts_ServerSnippets := ""; ts_StreamSnippets := ""; ts_Host := host; ts_Upstreams := [];
     ts_UpstreamParameters := None; ts_SessionParameters := None; ts_Action := None |}.

Definition sampleGC : GlobalConfiguration :=
  {| gc_Meta := sampleMeta "gc" "u-gc" 0;
     gc_Listeners := [ {| l_Name := "tcp"; l_Protocol := "TCP"; l_Port := 5353; l_IPv4 := "";
                          l_IPv6 := ""; l_Ssl := false |} ] |}.

(** Two Ingresses and two VirtualServers; x.com is wanted by three of them. *)
Definition sampleRequests : list request :=
  [ ReqAddOrUpdateIngress (sampleIngress "a" "u1" 5 ["x.com"; "y.com"]);
    ReqAddOrUpdateGlobalConfiguration sampleGC;
    ReqAddOrUpdateTransportServer (sampleTS "t" "u9" 1 "tcp" "TCP" "");
    ReqCompleteStartup;
    ReqAddOrUpdateVirtualServer (sampleVS "b" "u2" 3 "x.com");
    ReqAddOrUpdateVirtualServer (sampleVS "c" "u0" 3 "x.com");
    ReqAddOrUpdateIngress (sampleMergeable "minion" "m" "u4" 7 "z.com" ["/p"; "/q"]) ].

Definition sampleConfig : Configuration :=
  default (NewConfiguration sampleFlags) (runs sampleRequests (NewConfiguration sampleFlags)).

Lemma sampleConfig_runs :
  runs sampleRequests (NewConfiguration sampleFlags) = Some sampleConfig.
Proof. vm_compute. reflexivity. Qed.

Lemma sampleConfig_reachable : reachable sampleFlags sampleConfig.
Proof.
  apply (runs_reachable sampleFlags sampleRequests); [|apply sampleConfig_runs].
  repeat constructor.
Qed.
