(* ===== verification/ConfigurationCorrect.v ===== *)
(** The properties of the configuration as a whole, for every reachable state:
    host ownership, the exactness of the changes it hands to the controller,
    the problems it reports, and the behaviour of the error paths. *)
From S2P Require Import Prelude GoStrings Objects ProxyBuffers Resources ConfigState.
From S2P Require Import IngressValidation Minions VSRoutes Hosts Changes Problems.
From S2P Require Import Configuration HostRebuild ListenerRebuild Operations Scenario.

Lemma core_claimant r r' : core r = core r' → claimantOf r = claimantOf r'.
Proof.
  intros Hc. unfold claimantOf. by rewrite (core_key _ _ Hc), (core_meta _ _ Hc), (core_claims _ _ Hc).
Qed.

Section Properties.
Context `{MR : MapRange} `{V : Validators} `{LS : LabelSelectors} `{Laws : !IngressValidatorLaws}.

Abbreviation claimantsOf c := (hostClaimants (c_flags c) (c_objects c)) (only parsing).

Lemma reachable_current fl c :
  reachable fl c → c_startupComplete c = true → config_inv c ∧ hosts_current c.
Proof. intros Hr Hst. destruct (reachable_inv fl c Hr) as [Hinv Hcur]. auto. Qed.

Lemma current_claimant c r :
  config_inv c → r ∈ resourcesOf c → claimantOf r ∈ claimantsOf c.
Proof.
  intros [[Hwf Hidx] _ _ _] Hr. rewrite <- newResourceList_claimants by done.
  apply list_elem_of_fmap. eauto.
Qed.

Lemma current_keyAt c host :
  hosts_current c → keyAt (c_store c) (c_hosts c) host = fst <$> ownersOf c !! host.
Proof.
  intros [Hh _ _ _ _]. specialize (Hh host). unfold keyAt, derefAt.
  destruct (c_hosts c !! host) as [l|]; [|by rewrite Hh].
  destruct Hh as (r' & r & Hl & _ & Hc & _ & ->). simpl. rewrite Hl. simpl.
  by rewrite (core_key _ _ Hc).
Qed.

(** C1.  Host ownership.  In every reachable configuration that has completed
    its startup, a host has an owner exactly when some stored object claims
    it, and the owner is a claimant that no other claimant beats (older
    creation time, then greater UID). *)
Theorem host_owner_unbeaten fl c :
  reachable fl c → c_startupComplete c = true →
  ∀ host,
    (is_Some (c_hosts c !! host) ↔ ∃ cl, claims (claimantsOf c) cl host) ∧
    ∀ l, c_hosts c !! host = Some l → ∃ r,
      c_store c !! l = Some r ∧ claims (claimantsOf c) (claimantOf r) host ∧
      ∀ cl, claims (claimantsOf c) cl host →
        chooseObjectMetaWinner (cl_meta cl) (GetObjectMeta r) = false.
Proof.
  intros Hreach Hst host. destruct (reachable_current fl c Hreach Hst) as [Hinv Hcur].
  pose proof (hc_hosts _ Hcur host) as Hh.
  destruct (absHosts_ok (claimantsOf c)) as [Ho Hb]. split.
  - split.
    + intros [l Hl]. rewrite Hl in Hh. destruct Hh as (r' & r & _ & _ & _ & _ & Hm).
      destruct (Ho _ _ _ Hm) as (cl & Hcl & _). eauto.
    + intros (cl & Hcl). destruct (Hb _ _ Hcl) as (k & mt & Hm & _).
      destruct (c_hosts c !! host); [eauto|]. unfold ownersOf in Hh. congruence.
  - intros l Hl. rewrite Hl in Hh. destruct Hh as (r' & r & Hr' & Hr & Hc & _ & Hm).
    exists r'. split; [done|]. rewrite (core_claimant _ _ Hc), (core_meta _ _ Hc). split.
    + split; [by apply current_claimant|].
      assert (holds (c_store c) (c_hosts c) host r') as Hholds by (by exists l).
      apply (ho_claims _ _ (ci_hosts _ Hinv)) in Hholds. by rewrite (core_claims _ _ Hc) in Hholds.
    + intros cl Hcl. destruct (Hb _ _ Hcl) as (k & mt & Hm' & Hw). unfold ownersOf in Hm.
      rewrite Hm in Hm'. injection Hm' as <- <-. done.
Qed.
End Properties.

(** x.com is wanted by the Ingress a and the VirtualServers b and c; b is as
    old as c and has the greater UID. *)
Lemma host_owner_unbeaten_witness :
  c_startupComplete sampleConfig = true ∧
  keyAt (c_store sampleConfig) (c_hosts sampleConfig) "x.com" = Some "VirtualServer/default/b" ∧
  (is_Some (c_hosts sampleConfig !! "x.com") ↔
   ∃ cl, claims (hostClaimants (c_flags sampleConfig) (c_objects sampleConfig)) cl "x.com").
Proof.
  split; [vm_compute; reflexivity|]. split; [vm_compute; reflexivity|].
  apply (host_owner_unbeaten sampleFlags sampleConfig sampleConfig_reachable).
  vm_compute. reflexivity.
Defined.

(** The claimants depend on the Ingresses, VirtualServers and TransportServers only. *)
Lemma hostClaimants_objects fl o1 o2 :
  o_ingresses o1 = o_ingresses o2 → o_virtualServers o1 = o_virtualServers o2 →
  o_transportServers o1 = o_transportServers o2 → hostClaimants fl o1 = hostClaimants fl o2.
Proof.
  intros Hi Hv Ht. unfold hostClaimants. rewrite Hi, Hv, Ht. f_equal; [|f_equal].
  - apply omap_ext_in. intros k _. unfold ingressClaimant, isConverted, isChallengeIngressOwnerVs.
    by rewrite Hi, Hv.
  - apply omap_ext_in. intros k _. unfold vsClaimant. by rewrite Hv.
  - destruct (f_isTLSPassthroughEnabled fl); [|done].
    apply omap_ext_in. intros k _. unfold tsClaimant. by rewrite Ht.
Qed.

(** C2.  Once the startup is complete (before, no host has an owner), the owner of
    every host is a function of the stored Ingresses, VirtualServers and
    TransportServers and of the flags: it does not depend on the order in which
    the objects arrived, on what was stored before, on whether they arrived before
    or after the startup, or on the iteration order Go's maps happened to use. *)
Theorem host_owners_history_independent (MR1 MR2 : MapRange) (V : Validators) (LS : LabelSelectors)
    (Laws : IngressValidatorLaws) fl c1 c2 :
  @reachable MR1 V LS fl c1 → @reachable MR2 V LS fl c2 →
  c_startupComplete c1 = true → c_startupComplete c2 = true →
  c_flags c1 = c_flags c2 →
  o_ingresses (c_objects c1) = o_ingresses (c_objects c2) →
  o_virtualServers (c_objects c1) = o_virtualServers (c_objects c2) →
  o_transportServers (c_objects c1) = o_transportServers (c_objects c2) →
  ∀ host, keyAt (c_store c1) (c_hosts c1) host = keyAt (c_store c2) (c_hosts c2) host.
Proof.
  intros H1 H2 Hst1 Hst2 Hfl Hi Hv Ht host.
  destruct (reachable_current (MR := MR1) fl c1 H1 Hst1) as [_ Hc1].
  destruct (reachable_current (MR := MR2) fl c2 H2 Hst2) as [_ Hc2].
  rewrite (current_keyAt (MR := MR1)), (current_keyAt (MR := MR2)) by done.
  unfold ownersOf. by rewrite Hfl, (hostClaimants_objects _ _ (c_objects c2)).
Qed.

(** The same objects, all of them after the startup and in another order. *)
Definition sampleRequests2 : list request :=
  [ ReqCompleteStartup;
    ReqAddOrUpdateVirtualServer (sampleVS "c" "u0" 3 "x.com");
    ReqAddOrUpdateIngress (sampleMergeable "minion" "m" "u4" 7 "z.com" ["/p"; "/q"]);
    ReqAddOrUpdateVirtualServer (sampleVS "b" "u2" 3 "x.com");
    ReqAddOrUpdateTransportServer (sampleTS "t" "u9" 1 "tcp" "TCP" "");
    ReqAddOrUpdateIngress (sampleIngress "a" "u1" 5 ["x.com"; "y.com"]) ].
Definition sampleConfig2 : Configuration :=
  default (NewConfiguration sampleFlags) (runs sampleRequests2 (NewConfiguration sampleFlags)).

Lemma sampleConfig2_reachable : reachable sampleFlags sampleConfig2.
Proof.
  apply (runs_reachable sampleFlags sampleRequests2); [repeat constructor|].
  vm_compute. reflexivity.
Qed.

Lemma host_owners_history_independent_witness :
  keyAt (c_store sampleConfig) (c_hosts sampleConfig) "x.com" =
  keyAt (c_store sampleConfig2) (c_hosts sampleConfig2) "x.com".
Proof.
  apply (host_owners_history_independent default_range default_range sampleValidators
    sampleSelectors sampleLaws sampleFlags sampleConfig sampleConfig2
    sampleConfig_reachable sampleConfig2_reachable); vm_compute; reflexivity.
Defined.

Section Properties2.
Context `{MR : MapRange} `{V : Validators} `{LS : LabelSelectors} `{Laws : !IngressValidatorLaws}.

(** C3.  No request makes the configuration panic: in every reachable state
    every request returns, and the state it leaves satisfies the invariant
    again (pointers into the store are valid, an Ingress lists as valid the
    hosts it holds, the minion index is exact, every stored Ingress has the
    shape the rebuild indexes into). *)
Theorem exec_never_panics fl c req :
  reachable fl c → wf_request req →
  ∃ c' changes problems, exec req c = Some (c', changes, problems) ∧ config_inv c'.
Proof.
  intros Hr Hreq. destruct (exec_good req c (reachable_inv fl c Hr) Hreq) as (c' & ch & ps & ? & [? _]).
  eauto 10.
Qed.
End Properties2.

Lemma exec_never_panics_witness :
  ∃ c' changes problems,
    exec (ReqDeleteVirtualServer "default/b") sampleConfig = Some (c', changes, problems) ∧ config_inv c'.
Proof.
  apply (exec_never_panics sampleFlags sampleConfig (ReqDeleteVirtualServer "default/b")
    sampleConfig_reachable). exact I.
Defined.

(** ** Changes *)

(** Applying the changes of every request to what is deployed, the way
    processChanges of the controller does. *)
Definition deployStep `{MapRange} `{Validators} `{LabelSelectors}
    (st : Configuration * gmap string Resource) (req : request)
    : option (Configuration * gmap string Resource) :=
  '(c', changes, _) ← exec req st.1; Some (c', applyChanges (c_store c') st.2 changes).

Definition isTSKey (key : string) : bool := String.prefix "TransportServer/" key.

Lemma isTSKey_ts key : isTSKey ("TransportServer/" +:+ key) = true.
Proof. unfold isTSKey. simpl. by destruct key. Qed.

Lemma isTSKey_kind r : isTSKey (GetKeyWithKind r) = true ↔ kindOf r = transportServerKind.
Proof. destruct r; simpl; try done. split; [done|]. intros _. apply isTSKey_ts. Qed.

Section Sync.
Context `{MR : MapRange} `{V : Validators} `{LS : LabelSelectors} `{Laws : !IngressValidatorLaws}.

(** C4.  Exact changes.  Whatever the request, the changes it returns are
    those of the listeners followed by those of the hosts; each group has at
    most one change per resource, an update exactly for the resources that
    took over a place or whose version there is outdated, a deletion exactly
    for those that only lost places, and the deletions before the updates.  The
    two groups are not merged: a TransportServer that moves between the TLS
    Passthrough listener and another one is in both. *)
Theorem request_changes_exact fl c req c' changes problems :
  reachable fl c → wf_request req → exec req c = Some (c', changes, problems) →
  ∃ kcs1 kcs2, changes = (kcs1 ++ kcs2).*2 ∧
    exact_changes (c_store c') (c_listenerHosts c) (c_listenerHosts c') listenerStale kcs1 ∧
    exact_changes (c_store c') (c_hosts c) (c_hosts c') hostStale kcs2 ∧
    deletesFirst kcs1 ∧ deletesFirst kcs2.
Proof.
  intros Hr Hreq He.
  destruct (exec_stepGood req c (reachable_inv fl c Hr) Hreq)
    as (c2 & k1 & k2 & ps & He2 & _ & [H1 H2 H3 H4 _ _]).
  rewrite He in He2. simplify_eq. exists k1, k2. done.
Qed.

Lemma listener_changes_ts c c' kcs1 kcs2 k :
  config_inv c → config_inv c' → stepOf c c' kcs1 kcs2 → k ∈ kcs1.*1 → isTSKey k = true.
Proof.
  intros Hinv Hinv' [[Hk Hnd Hu Hd Hc] _ _ _ Hfr _] ([k0 ch] & -> & Hin)%list_elem_of_fmap. simpl.
  assert (listeners_ok (c_store c') (c_listenerHosts c)) as Hl
    by (eapply listeners_ok_frame; [exact Hfr|apply Hinv]).
  destruct (rc_Op ch) eqn:Hop.
  - destruct (Hd _ _ Hin Hop) as [(p & r & Hr & <- & _) _].
    destruct (lo_place _ _ Hl _ _ Hr) as (tsc & -> & _). by apply isTSKey_kind.
  - destruct (Hu _ _ Hin Hop) as [(p & r & Hr & <- & _) _].
    destruct (lo_place _ _ (ci_listeners _ Hinv') _ _ Hr) as (tsc & -> & _). by apply isTSKey_kind.
Qed.

Lemma host_changes_no_ts c c' kcs1 kcs2 k :
  config_inv c → config_inv c' → f_isTLSPassthroughEnabled (c_flags c) = false →
  stepOf c c' kcs1 kcs2 → k ∈ kcs2.*1 → isTSKey k = false.
Proof.
  intros Hinv Hinv' Hfl [_ [Hk Hnd Hu Hd Hc] _ _ Hfr Hfl'] ([k0 ch] & -> & Hin)%list_elem_of_fmap. simpl.
  assert (∀ r, kindOf r ≠ transportServerKind → isTSKey (GetKeyWithKind r) = false) as Hkind.
  { intros r Hr. apply not_true_is_false. by rewrite isTSKey_kind. }
  destruct (rc_Op ch) eqn:Hop.
  - destruct (Hd _ _ Hin Hop) as [(p & r & Hr & <- & _) _]. apply Hkind.
    apply (ci_passthrough _ Hinv Hfl p).
    apply (holds_frame (c_store c) (c_store c')); [done|apply Hinv|done].
  - destruct (Hu _ _ Hin Hop) as [(p & r & Hr & <- & _) _]. apply Hkind.
    rewrite <- Hfl' in Hfl. by apply (ci_passthrough _ Hinv' Hfl p).
Qed.

(** The state of the deployment between requests. *)
Definition inSync (st : Configuration * gmap string Resource) : Prop :=
  full_inv st.1 ∧
  (∀ key, isTSKey key = false → deployedAt (c_store st.1) hostStale (c_hosts st.1) st.2 key) ∧
  (f_isTLSPassthroughEnabled (c_flags st.1) = false → ∀ key, isTSKey key = true →
     deployedAt (c_store st.1) listenerStale (c_listenerHosts st.1) st.2 key).

Lemma deployedAt_lookup `{Countable K} h stale (M : gmap K loc) D D' key :
  D !! key = D' !! key → deployedAt h stale M D key → deployedAt h stale M D' key.
Proof. unfold deployedAt. by intros ->. Qed.

Lemma applyChanges_app h D l1 l2 :
  applyChanges h D (l1 ++ l2) = applyChanges h (applyChanges h D l1) l2.
Proof. unfold applyChanges. by rewrite foldl_app. Qed.

Lemma deployStep_inSync st req :
  inSync st → wf_request req → ∃ st', deployStep st req = Some st' ∧ inSync st' ∧
    c_flags st'.1 = c_flags st.1.
Proof.
  destruct st as [c D]. intros (Hf & Hh & Hl) Hreq. simpl in *. unfold deployStep. simpl.
  destruct (exec_stepGood req c Hf Hreq) as (c' & k1 & k2 & ps & -> & Hf' & Hstep).
  cbn [mbind option_bind]. eexists. split; [done|]. pose proof Hf as [Hinv _].
  pose proof Hf' as [Hinv' _]. pose proof Hstep as [E1 E2 _ _ Hfr Hfl].
  rewrite fmap_app, applyChanges_app. split; [|done]. split; [done|]. simpl. split.
  - intros key Hkey.
    apply (exact_changes_sync (c_store c') (c_hosts c) (c_hosts c') hostStale); try done.
    + apply hostStale_refl.
    + apply hostStale_trans.
    + apply hostStale_key.
    + eapply map_ok_frame; [exact Hfr|apply Hinv].
    + apply Hinv'.
    + apply hosts_keep_all; [eapply hosts_ok_frame; [exact Hfr|apply Hinv]|apply Hinv'].
    + apply (deployedAt_lookup _ _ _ D).
      * symmetry. apply applyChanges_other; [apply E1|].
        intros Hin. rewrite (listener_changes_ts c c' k1 k2) in Hkey; done.
      * rewrite (deployedAt_frame (c_store c)); [by apply Hh|exact Hfr|apply Hinv].
  - rewrite Hfl. intros Hp key Hkey.
    eapply (deployedAt_lookup _ _ _ (applyChanges (c_store c') D k1.*2)).
    { symmetry. apply applyChanges_other; [apply E2|].
      intros Hin. rewrite (host_changes_no_ts c c' k1 k2) in Hkey; done. }
    apply (exact_changes_sync (c_store c') (c_listenerHosts c) (c_listenerHosts c') listenerStale); try done.
    + apply listenerStale_refl.
    + apply listenerStale_trans.
    + apply listenerStale_key.
    + eapply map_ok_frame; [exact Hfr|apply Hinv].
    + apply Hinv'.
    + apply listeners_keep_all; [eapply listeners_ok_frame; [exact Hfr|apply Hinv]|apply Hinv'].
    + rewrite (deployedAt_frame (c_store c)); [by apply Hl|exact Hfr|apply Hinv].
Qed.

Lemma deployment_inSync fl reqs :
  Forall wf_request reqs →
  ∃ st, foldM deployStep (NewConfiguration fl, ∅) reqs = Some st ∧ inSync st ∧ c_flags st.1 = fl.
Proof.
  intros Hwf.
  apply (foldM_ind (λ st, inSync st ∧ c_flags st.1 = fl) deployStep reqs (NewConfiguration fl, ∅)).
  - split; [|done]. split; [apply full_inv_new|].
    assert (∀ `{Countable K} h stale (key : string),
      deployedAt (K := K) h stale ∅ (∅ : gmap string Resource) key) as Hempty.
    { intros K ? ? h stale key. unfold deployedAt. rewrite lookup_empty.
      intros (k & r & (l & Hl & _) & _). by rewrite lookup_empty in Hl. }
    split; intros; apply Hempty.
  - intros req st Hin [Hs Hfl]. rewrite Forall_forall in Hwf.
    destruct (deployStep_inSync st req Hs (Hwf _ Hin)) as (st' & ? & ? & Hfl').
    exists st'. split; [done|]. split; [done|congruence].
Qed.

(** C5.  Deployment in sync.  Start from nothing, run any requests and apply
    the changes each of them returns.  The run succeeds, and at its end every
    Ingress and VirtualServer that holds a host is deployed in a version that
    does not differ from the current one in anything the configuration
    compares (IsEqual, and what it overlooks is not part of the statement), and
    no other is deployed; the same holds of TransportServers and listeners when
    TLS Passthrough is off.  With TLS Passthrough nothing is claimed of
    TransportServers. *)
Theorem deployment_in_sync fl reqs :
  Forall wf_request reqs →
  ∃ c D, foldM deployStep (NewConfiguration fl, ∅) reqs = Some (c, D) ∧
    (∀ key, isTSKey key = false → deployedAt (c_store c) hostStale (c_hosts c) D key) ∧
    (f_isTLSPassthroughEnabled fl = false → ∀ key, isTSKey key = true →
       deployedAt (c_store c) listenerStale (c_listenerHosts c) D key).
Proof.
  intros Hwf. destruct (deployment_inSync fl reqs Hwf) as ([c D] & Hrun & (_ & Hh & Hl) & Hfl).
  exists c, D. simpl in *. rewrite Hfl in Hl. done.
Qed.
End Sync.

Lemma request_changes_exact_witness :
  ∃ c' changes problems,
    exec (ReqDeleteVirtualServer "default/b") sampleConfig = Some (c', changes, problems) ∧
    rc_Op <$> changes = [Delete; AddOrUpdate] ∧
    ∃ kcs1 kcs2, changes = (kcs1 ++ kcs2).*2 ∧
      exact_changes (c_store c') (c_listenerHosts sampleConfig) (c_listenerHosts c') listenerStale kcs1 ∧
      exact_changes (c_store c') (c_hosts sampleConfig) (c_hosts c') hostStale kcs2 ∧
      deletesFirst kcs1 ∧ deletesFirst kcs2.
Proof.
  destruct (exec (ReqDeleteVirtualServer "default/b") sampleConfig) as [[[c' changes] problems]|] eqn:He;
    [|vm_compute in He; discriminate He].
  exists c', changes, problems. split; [reflexivity|]. split.
  - assert ((λ x : result, rc_Op <$> x.1.2) <$>
              exec (ReqDeleteVirtualServer "default/b") sampleConfig
            = Some [Delete; AddOrUpdate]) as Hops by (vm_compute; reflexivity).
    rewrite He in Hops. by injection Hops.
  - apply (request_changes_exact sampleFlags sampleConfig (ReqDeleteVirtualServer "default/b")
      c' changes problems sampleConfig_reachable I He).
Defined.

(** with TLS Passthrough off, so that both halves apply: the TransportServer t is deployed *)
Definition listenerFlags : Flags :=
  {| f_isPlus := false; f_appProtectEnabled := false; f_appProtectDosEnabled := false;
     f_isTLSPassthroughEnabled := false; f_snippetsEnabled := false; f_isCertManagerEnabled := false;
     f_isIPV6Disabled := false; f_isDirectiveAutoadjustEnabled := false; f_allowEmptyIngressHost := false |}.
Lemma deployment_in_sync_witness :
  ∃ c D, foldM deployStep (NewConfiguration listenerFlags, ∅) sampleRequests = Some (c, D) ∧
    (∀ key, isTSKey key = false → deployedAt (c_store c) hostStale (c_hosts c) D key) ∧
    (∀ key, isTSKey key = true → deployedAt (c_store c) listenerStale (c_listenerHosts c) D key) ∧
    is_Some (D !! "TransportServer/default/t") ∧ is_Some (D !! "VirtualServer/default/b").
Proof.
  destruct (deployment_in_sync listenerFlags sampleRequests) as (c & D & Hrun & Hh & Hl); [repeat constructor|].
  exists c, D. split; [exact Hrun|]. split; [exact Hh|]. split; [apply Hl; reflexivity|].
  apply (f_equal (fmap (M:=option) (λ st, (bool_decide (is_Some (st.2 !! "TransportServer/default/t")),
                                           bool_decide (is_Some (st.2 !! "VirtualServer/default/b")))))) in Hrun.
  cbn [fmap option_fmap option_map snd] in Hrun. vm_compute (fmap _ _) in Hrun. injection Hrun as H1 H2.
  split; apply (bool_decide_eq_true_1 _); symmetry; assumption.
Defined.
