(* ===== verification/Resync.v ===== *)
(** Rebuilding from unchanged objects is silent: no changes and no new
    problems.  This is what the periodic resync of the informers relies on. *)
From S2P Require Import Prelude GoStrings Objects ProxyBuffers Resources ConfigState.
From S2P Require Import IngressValidation Minions VSRoutes Hosts Changes Problems.
From S2P Require Import Configuration HostRebuild ListenerRebuild Operations Scenario.

Lemma noWarnings_of r r' :
  core r = core r' → validHostsOf r = validHostsOf r' → noWarnings r = noWarnings r'.
Proof. destruct r, r'; simpl; intros; simplify_eq/=; f_equal; congruence. Qed.

Lemma index_ok_eq ings idx1 idx2 : index_ok ings idx1 → index_ok ings idx2 → idx1 = idx2.
Proof.
  assert (∀ i1 i2 host ks, index_ok ings i1 → index_ok ings i2 → i1 !! host = Some ks →
    ∃ ks', i2 !! host = Some ks' ∧ ks ⊆ ks') as Hsub.
  { intros i1 i2 host ks [E1 N1] [E2 N2] Hk.
    assert (∀ k, k ∈ ks → inIndex i2 host k) as Hin.
    { intros k Hks. apply E2, E1. by exists ks. }
    destruct (set_choose_L ks (N1 _ _ Hk)) as [k0 Hk0].
    destruct (Hin _ Hk0) as (ks' & Hks' & _). exists ks'. split; [done|].
    intros k Hks. destruct (Hin _ Hks) as (ks2 & ? & ?). congruence. }
  intros H1 H2. apply map_eq. intros host.
  destruct (idx1 !! host) as [k1|] eqn:E1, (idx2 !! host) as [k2|] eqn:E2; try done.
  - destruct (Hsub idx1 idx2 host k1 H1 H2 E1) as (k2' & ? & ?).
    destruct (Hsub idx2 idx1 host k2 H2 H1 E2) as (k1' & ? & ?). simplify_eq.
    f_equal. apply set_eq. set_solver.
  - destruct (Hsub idx1 idx2 host k1 H1 H2 E1) as (? & ? & _). congruence.
  - destruct (Hsub idx2 idx1 host k2 H2 H1 E2) as (? & ? & _). congruence.
Qed.

Section Resync.
Context `{MR : MapRange} `{V : Validators} `{LS : LabelSelectors}.

(** Old and new holders of a host are the same resource in the same version. *)
Lemma rebuilt_same_holder c c' kcs :
  config_inv c → hosts_current c → rebuilt c c' kcs → ∀ host,
  match derefAt (c_store c') (c_hosts c) host, derefAt (c_store c') (c_hosts c') host with
  | Some (_, r), Some (_, r') => noWarnings r = noWarnings r'
  | None, None => True
  | _, _ => False
  end.
Proof.
  intros [[Hwf Hidx] Hh _ _] Hcur Hrb host.
  pose proof (hc_hosts _ Hcur host) as Hold. pose proof (rb_hosts _ _ _ Hrb host) as Hnew.
  pose proof (NoDup_newResourceList (c_flags c) (c_objects c) Hwf Hidx) as Hnd.
  unfold derefAt. destruct (c_hosts c !! host) as [l|] eqn:Hl.
  - destruct Hold as (r' & r & Hr' & Hr & Hc & Hv & Hm).
    destruct (c_hosts c' !! host) as [l2|]; [|congruence].
    destruct Hnew as (i & x & -> & Hi & _ & Hm2).
    destruct (mr_new _ _ _ _ (rb_store _ _ _ Hrb) i x Hi) as (x' & Hx' & Hcx & Hvx). simpl.
    rewrite (mr_old _ _ _ _ (rb_store _ _ _ Hrb)) by (by eapply lookup_lt_Some).
    rewrite Hr', Hx'. simpl. rewrite Hm in Hm2.
    assert (r = x) as ->.
    { apply list_elem_of_lookup in Hr as [j Hj].
      assert (i = j) as ->; [|congruence].
      eapply (rs_key_inj (resourcesOf c)); [done..|congruence]. }
    apply noWarnings_of; congruence.
  - destruct (c_hosts c' !! host) as [l2|]; [|done]. destruct Hnew as (i & x & _ & _ & _ & ?). congruence.
Qed.

Lemma rebuilt_no_changes c c' kcs :
  config_inv c → hosts_current c → rebuilt c c' kcs → kcs = [].
Proof.
  intros Hinv Hcur Hrb. pose proof (rebuilt_same_holder c c' kcs Hinv Hcur Hrb) as Hsame.
  destruct (rb_changes _ _ _ Hrb) as [_ _ Hu Hd _].
  assert (∀ k, ¬ gained (c_store c') (c_hosts c) (c_hosts c') hostStale k) as Hng.
  { intros k (p & r & Hr & _ & Hno). specialize (Hsame p).
    destruct (derefAt_holds _ _ _ _ Hr) as (l & _ & _ & Hd'). rewrite Hd' in Hsame.
    destruct (derefAt (c_store c') (c_hosts c) p) as [[l0 r0]|] eqn:H0; [|done].
    apply Hno. exists r0. split.
    - unfold derefAt in H0. destruct (c_hosts c !! p) eqn:Hp; simpl in H0; [|done].
      destruct (c_store c' !! n) eqn:Hn; simpl in H0; [|done]. simplify_eq. by exists l0.
    - rewrite hostStale_noWarnings, Hsame, <- hostStale_noWarnings. apply hostStale_refl. }
  assert (∀ k, ¬ lost (c_store c') (c_hosts c) (c_hosts c') k) as Hnl.
  { intros k (p & r & Hr & Hk & Hno). specialize (Hsame p).
    destruct (derefAt_holds _ _ _ _ Hr) as (l & _ & _ & Hd'). rewrite Hd' in Hsame.
    destruct (derefAt (c_store c') (c_hosts c') p) as [[l0 r0]|] eqn:H0; [|done].
    apply Hno. exists r0. apply noWarnings_key in Hsame. split; [|congruence].
    unfold derefAt in H0. destruct (c_hosts c' !! p) eqn:Hp; simpl in H0; [|done].
    destruct (c_store c' !! n) eqn:Hn; simpl in H0; [|done]. simplify_eq. by exists l0. }
  destruct kcs as [|[k ch] kcs]; [done|]. exfalso. destruct (rc_Op ch) eqn:Hop.
  - apply (Hnl k). eapply (Hd k ch); [set_solver|done].
  - apply (Hng k). eapply (Hu k ch); [set_solver|done].
Qed.

Lemma rebuilt_same_problems c c' kcs :
  config_inv c → hosts_current c → rebuilt c c' kcs → c_hostProblems c' = c_hostProblems c.
Proof.
  intros Hinv Hcur Hrb. pose proof (rebuilt_same_holder c c' kcs Hinv Hcur Hrb) as Hsame.
  assert (∀ host, derefAt (c_store c') (c_hosts c) host = derefAt (c_store c) (c_hosts c) host) as Hd.
  { intros host. unfold derefAt. destruct (c_hosts c !! host) as [l|] eqn:Hl; [|done]. simpl.
    rewrite (mr_old _ _ _ _ (rb_store _ _ _ Hrb)); [done|].
    destruct (mo_valid _ _ (ho_map _ _ (ci_hosts _ Hinv)) _ _ Hl) as [x Hx]. by eapply lookup_lt_Some. }
  assert (∀ host, hasMaster (c_store c') (c_hosts c') host = hasMaster (c_store c) (c_hosts c) host) as Hm.
  { intros host. specialize (Hsame host). rewrite Hd in Hsame. unfold hasMaster.
    destruct (derefAt (c_store c) (c_hosts c) host) as [[? r]|],
             (derefAt (c_store c') (c_hosts c') host) as [[? r']|]; try done.
    destruct r, r'; simpl in Hsame; simplify_eq/=; congruence. }
  assert (∀ vsr, vsrProblemOf (c_store c') (c_hosts c') vsr = vsrProblemOf (c_store c) (c_hosts c) vsr) as Hv.
  { intros vsr. specialize (Hsame (vsr_Host vsr)). rewrite Hd in Hsame. unfold vsrProblemOf.
    destruct (derefAt (c_store c) (c_hosts c) _) as [[? r]|],
             (derefAt (c_store c') (c_hosts c') _) as [[? r']|]; try done.
    destruct r, r'; simpl in Hsame; simplify_eq/=; try done.
    assert (vsc_VirtualServerRoutes vsc = vsc_VirtualServerRoutes vsc0) as -> by congruence.
    assert (vsc_VirtualServer vsc = vsc_VirtualServer vsc0) as -> by congruence. done. }
  assert (∀ k, (∃ r, r ∈ resourcesOf c ∧ k = GetKeyWithKind r) ∨
    (∃ key ing host, k = "Ingress/" +:+ key ∧ o_ingresses (c_objects c) !! key = Some ing ∧
       minionHost ing = Some host) ∨
    (∃ key vsr, k = "VirtualServerRoute/" +:+ key ∧
       o_virtualServerRoutes (c_objects c) !! key = Some vsr) →
    c_hostProblems c' !! k = c_hostProblems c !! k) as Heq.
  { intros k [(r & Hr & ->)|[(key & ing & host & -> & Hi & Hmh)|(key & vsr & -> & Hvsr)]].
    - by rewrite (rb_problem_resource _ _ _ Hrb), (hc_problem_resource _ Hcur).
    - by rewrite (rb_problem_minion _ _ _ Hrb _ _ _ Hi Hmh), (hc_problem_minion _ Hcur _ _ _ Hi Hmh), Hm.
    - by rewrite (rb_problem_vsr _ _ _ Hrb _ _ Hvsr), (hc_problem_vsr _ Hcur _ _ Hvsr), Hv. }
  apply map_eq. intros k. destruct (c_hostProblems c' !! k) as [p|] eqn:H1.
  - rewrite <- H1. apply Heq. by eapply (rb_problem_only _ _ _ Hrb).
  - destruct (c_hostProblems c !! k) as [q|] eqn:H2; [|done].
    rewrite <- H1, <- H2. apply Heq. by eapply (hc_problem_only _ Hcur).
Qed.

Lemma rebuild_silent c :
  config_inv c → hosts_current c → ∃ c', rebuildHosts c = Some (c', [], []).
Proof.
  intros Hinv Hcur. destruct (rebuildHosts_inv c Hinv) as (c' & kcs & Hrun & Hrb & _).
  exists c'. rewrite Hrun, (rebuilt_no_changes c c' kcs Hinv Hcur Hrb),
    (rebuilt_same_problems c c' kcs Hinv Hcur Hrb). by rewrite detectChangesInProblems_same.
Qed.

Context `{Laws : !IngressValidatorLaws}.

(** A resync is silent.  Adding again an Ingress that is stored and still
    valid returns no changes and no problems. *)
Theorem resync_ingress_silent fl c ing :
  reachable fl c → c_startupComplete c = true →
  o_ingresses (c_objects c) !! getResourceKey (ing_Meta ing) = Some ing →
  hasCorrectIngressClass (OIngress ing) = true → validateIngress (c_flags c) ing = None →
  ∃ c', AddOrUpdateIngress ing c = Some (c', [], []).
Proof.
  intros Hr Hst Hing Hclass Hval. destruct (reachable_inv fl c Hr) as [Hinv Hcur].
  unfold AddOrUpdateIngress. rewrite Hclass, Hval. cbn [negb].
  assert (set_objects c (set_minionsByHost
      (set_ingresses (c_objects c) (<[getResourceKey (ing_Meta ing):=ing]> (o_ingresses (c_objects c))))
      (updateMinionIndex (getResourceKey (ing_Meta ing)) (Some ing) (o_minionsByHost (c_objects c)))) = c)
    as ->.
  { pose proof (proj2 (ci_objects _ Hinv)) as Hidx.
    rewrite (insert_id _ _ _ Hing).
    assert (updateMinionIndex (getResourceKey (ing_Meta ing)) (Some ing) (o_minionsByHost (c_objects c))
            = o_minionsByHost (c_objects c)) as ->.
    { eapply (index_ok_eq (o_ingresses (c_objects c))); [|done].
      rewrite <- (insert_id _ _ _ Hing) at 1. by apply updateMinionIndex_Some_ok. }
    destruct c as [? [] ? ? ? ? ? ? ?]. done. }
  rewrite Hst. cbn [negb]. destruct (rebuild_silent c Hinv (Hcur Hst)) as [c' ->].
  by exists c'.
Qed.
End Resync.

Lemma resync_ingress_silent_witness :
  ∃ c', AddOrUpdateIngress (sampleIngress "a" "u1" 5 ["x.com"; "y.com"]) sampleConfig = Some (c', [], []).
Proof.
  apply (resync_ingress_silent sampleFlags sampleConfig); [apply sampleConfig_reachable|..];
    vm_compute; reflexivity.
Defined.
