(* ===== verification/ProblemsCorrect.v ===== *)
(** What the configuration reports: the problems of objects that got nothing,
    and the errors of rejected objects. *)
From S2P Require Import Prelude GoStrings Objects ProxyBuffers Resources ConfigState.
From S2P Require Import IngressValidation Minions VSRoutes Hosts Changes Problems.
From S2P Require Import Configuration HostRebuild ListenerRebuild Operations Scenario.

(** The key that owns a host, [None] for a free host. *)
Definition hostOwner (c : Configuration) (host : string) : option string :=
  keyAt (c_store c) (c_hosts c) host.

Section Problems.
Context `{MR : MapRange} `{V : Validators} `{LS : LabelSelectors} `{Laws : !IngressValidatorLaws}.

Lemma current_owner c host : hosts_current c → hostOwner c host = fst <$> ownersOf c !! host.
Proof.
  intros [Hh _ _ _ _]. specialize (Hh host). unfold hostOwner, keyAt, derefAt.
  destruct (c_hosts c !! host) as [l|]; [|by rewrite Hh].
  destruct Hh as (r' & r & Hl & _ & Hc & _ & ->). simpl. rewrite Hl. simpl.
  by rewrite (core_key _ _ Hc).
Qed.

Lemma stored_vs_resource c key vs :
  objects_ok (c_objects c) → o_virtualServers (c_objects c) !! key = Some vs →
  ∃ r, r ∈ resourcesOf c ∧ GetKeyWithKind r = "VirtualServer/" +:+ key ∧
    objectOf r = OVirtualServer vs ∧ claimsOf r = [vs_Host vs] ∧
    noHostMessage r = "Host is taken by another resource".
Proof.
  intros [Hwf Hidx] Hvs.
  set (r := virtualServerResource (c_objects c) (challenges (c_flags c) (c_objects c)) vs).
  assert (newVSResource (c_flags c) (c_objects c) key = Some r) as Hr
    by (unfold newVSResource; by rewrite Hvs).
  assert (r ∈ resourcesOf c) as Hin.
  { unfold resourcesOf, newResourceList. rewrite !elem_of_app, !list_elem_of_omap. right. left.
    exists key. split; [apply elem_of_sortedKeys; by exists vs|done]. }
  exists r. split; [done|].
  pose proof (newVSResource_claimant (c_flags c) (c_objects c) key) as Hcl. rewrite Hr in Hcl. simpl in Hcl.
  symmetry in Hcl. pose proof (vsClaimant_key _ _ _ Hwf Hcl) as Hk. simpl in Hk.
  split; [done|]. unfold r, virtualServerResource.
  destruct (buildVirtualServerRoutes (c_objects c) vs) as [[vsrs sel] ws].
  unfold buildListenersForVSConfiguration. simpl. by repeat case_match.
Qed.

Lemma stored_ingress_resource c key ing :
  objects_ok (c_objects c) → o_ingresses (c_objects c) !! key = Some ing →
  isMinion ing = false → isConverted (c_flags c) (c_objects c) ing = false →
  ∃ r, r ∈ resourcesOf c ∧ GetKeyWithKind r = "Ingress/" +:+ key ∧
    objectOf r = OIngress ing ∧ claimsOf r = ir_Host <$> ing_Rules ing ∧
    noHostMessage r = "All hosts are taken by other resources".
Proof.
  intros [Hwf Hidx] Hing Hmin Hconv.
  destruct (ingressResource_total (c_objects c) Hwf Hidx ing (wfo_ing _ Hwf _ _ Hing))
    as (r & Hr & ic & -> & <- & _).
  assert (newIngressResource (c_flags c) (c_objects c) key = Some (RIngress ic)) as Hn.
  { unfold newIngressResource. rewrite Hing. simpl. by rewrite Hmin, Hconv. }
  exists (RIngress ic). split_and!; try done.
  - unfold resourcesOf, newResourceList. rewrite !elem_of_app, !list_elem_of_omap. left.
    exists key. split; [apply elem_of_sortedKeys; by eexists|done].
  - pose proof (newIngressResource_claimant (c_flags c) (c_objects c) Hwf Hidx key) as Hcl.
    rewrite Hn in Hcl. symmetry in Hcl. by apply (ingressClaimant_key _ _ _ _ Hwf) in Hcl.
Qed.

Lemma owns_hostOwner c r host :
  hosts_current c → owns (ownersOf c) r host = bool_decide (hostOwner c host = Some (GetKeyWithKind r)).
Proof. intros Hcur. unfold owns. by rewrite current_owner. Qed.

(** The host problems are exact.  In a reachable configuration after the
    startup: a VirtualServer has a problem exactly when it does not own its
    host; an Ingress (neither a minion nor a converted challenge) exactly
    when it owns none of its hosts; a minion exactly when its host has no
    master; a VirtualServerRoute exactly when no VirtualServer owns its host
    or the owner does not use it; nothing else has a problem. *)
Theorem host_problems_exact fl c :
  reachable fl c → c_startupComplete c = true →
  (∀ key vs, o_virtualServers (c_objects c) !! key = Some vs →
     c_hostProblems c !! ("VirtualServer/" +:+ key) =
     if bool_decide (hostOwner c (vs_Host vs) = Some ("VirtualServer/" +:+ key)) then None
     else Some (mkProblem (OVirtualServer vs) EventReasonRejected "Host is taken by another resource")) ∧
  (∀ key ing, o_ingresses (c_objects c) !! key = Some ing → isMinion ing = false →
     isConverted (c_flags c) (c_objects c) ing = false →
     c_hostProblems c !! ("Ingress/" +:+ key) =
     if existsb (λ r, bool_decide (hostOwner c (ir_Host r) = Some ("Ingress/" +:+ key))) (ing_Rules ing)
     then None
     else Some (mkProblem (OIngress ing) EventReasonRejected "All hosts are taken by other resources")) ∧
  (∀ key ing host, o_ingresses (c_objects c) !! key = Some ing → minionHost ing = Some host →
     c_hostProblems c !! ("Ingress/" +:+ key) =
     if hasMaster (c_store c) (c_hosts c) host then None else Some (orphanProblem ing)) ∧
  (∀ key vsr, o_virtualServerRoutes (c_objects c) !! key = Some vsr →
     c_hostProblems c !! ("VirtualServerRoute/" +:+ key) = vsrProblemOf (c_store c) (c_hosts c) vsr) ∧
  (∀ k p, c_hostProblems c !! k = Some p →
     (∃ r, r ∈ resourcesOf c ∧ k = GetKeyWithKind r) ∨
     (∃ key ing host, k = "Ingress/" +:+ key ∧ o_ingresses (c_objects c) !! key = Some ing ∧
        minionHost ing = Some host) ∨
     (∃ key vsr, k = "VirtualServerRoute/" +:+ key ∧
        o_virtualServerRoutes (c_objects c) !! key = Some vsr)).
Proof.
  intros Hr Hst. destruct (reachable_inv fl c Hr) as [Hinv Hcur]. specialize (Hcur Hst).
  pose proof (ci_objects _ Hinv) as Ho. split_and!.
  - intros key vs Hvs. destruct (stored_vs_resource c key vs Ho Hvs) as (r & Hin & Hk & Hobj & Hcl & Hmsg).
    rewrite <- Hk, (hc_problem_resource _ Hcur r Hin). unfold ownershipProblem.
    rewrite Hcl, Hobj, Hmsg. cbn [existsb]. by rewrite orb_false_r, owns_hostOwner.
  - intros key ing Hing Hm Hcv.
    destruct (stored_ingress_resource c key ing Ho Hing Hm Hcv) as (r & Hin & Hk & Hobj & Hcl & Hmsg).
    rewrite <- Hk, (hc_problem_resource _ Hcur r Hin). unfold ownershipProblem.
    rewrite Hcl, Hobj, Hmsg.
    assert (∀ l, existsb (owns (ownersOf c) r) (ir_Host <$> l) =
            existsb (λ x, bool_decide (hostOwner c (ir_Host x) = Some (GetKeyWithKind r))) l)
      as ->; [|done].
    intros l. induction l as [|x l IH]; [done|]. csimpl. by rewrite IH, owns_hostOwner.
  - apply (hc_problem_minion _ Hcur).
  - apply (hc_problem_vsr _ Hcur).
  - apply (hc_problem_only _ Hcur).
Qed.
End Problems.

(** In the sample configuration the VirtualServer c lost x.com to b, the
    Ingress a keeps y.com, and the minion m has no master. *)
Lemma host_problems_exact_witness :
  c_startupComplete sampleConfig = true ∧
  hostOwner sampleConfig "x.com" = Some "VirtualServer/default/b" ∧
  c_hostProblems sampleConfig !! "VirtualServer/default/c" =
    Some (mkProblem (OVirtualServer (sampleVS "c" "u0" 3 "x.com")) EventReasonRejected
            "Host is taken by another resource") ∧
  c_hostProblems sampleConfig !! "Ingress/default/m" =
    Some (orphanProblem (sampleMergeable "minion" "m" "u4" 7 "z.com" ["/p"; "/q"])).
Proof.
  assert (c_startupComplete sampleConfig = true) as Hst by (vm_compute; reflexivity).
  destruct (host_problems_exact sampleFlags sampleConfig sampleConfig_reachable Hst)
    as (Hvs & _ & Hmin & _).
  split; [exact Hst|]. split; [vm_compute; reflexivity|]. split.
  - etransitivity; [apply (Hvs "default/c" (sampleVS "c" "u0" 3 "x.com"))|]; vm_compute; reflexivity.
  - etransitivity; [apply (Hmin "default/m" (sampleMergeable "minion" "m" "u4" 7 "z.com" ["/p"; "/q"])
      "z.com")|]; vm_compute; reflexivity.
Defined.

Section Rejected.
Context `{MR : MapRange} `{V : Validators} `{LS : LabelSelectors} `{Laws : !IngressValidatorLaws}.

Lemma resource_vs_stored c r key :
  objects_ok (c_objects c) → r ∈ resourcesOf c → GetKeyWithKind r = "VirtualServer/" +:+ key →
  is_Some (o_virtualServers (c_objects c) !! key).
Proof.
  intros [Hwf Hidx] Hr Hk.
  assert (claimantOf r ∈ hostClaimants (c_flags c) (c_objects c)) as Hin.
  { rewrite <- newResourceList_claimants by done. apply list_elem_of_fmap. eauto. }
  assert (cl_key (claimantOf r) = "VirtualServer/" +:+ key) as Hkey by done.
  revert Hin Hkey. generalize (claimantOf r). intros cl Hin Hkey.
  unfold hostClaimants in Hin. rewrite !elem_of_app, !list_elem_of_omap in Hin.
  destruct Hin as [(k & _ & Hc)|[(k & _ & Hc)|Hin]].
  - by rewrite (ingressClaimant_key _ _ _ _ Hwf Hc) in Hkey.
  - rewrite (vsClaimant_key _ _ _ Hwf Hc) in Hkey. apply string_app_inj_l in Hkey as ->.
    unfold vsClaimant in Hc. destruct (o_virtualServers (c_objects c) !! key); [eauto|done].
  - destruct (f_isTLSPassthroughEnabled (c_flags c)); [|set_solver].
    apply list_elem_of_omap in Hin as (k & _ & Hc).
    by rewrite (tsClaimant_key _ _ _ Hwf Hc) in Hkey.
Qed.

Lemma elem_of_attachKeyed_key key err kcs :
  key ∈ kcs.*1 → ∃ ch, (key, ch) ∈ kcs ∧ (key, withError err ch) ∈ attachKeyed key err kcs.
Proof.
  induction kcs as [|[k c] kcs IH]; [set_solver|]. csimpl. intros Hin. case_decide as Hk.
  - subst. exists c. set_solver.
  - destruct IH as (ch & ? & ?); [set_solver|]. exists ch. set_solver.
Qed.

(** C17.  A rejected VirtualServer is removed and its error is reported once:
    on the deletion of the version that held the host, or, when there is no
    such change, as the last of the returned problems. *)
Theorem rejected_virtualServer_reported fl c vs err :
  reachable fl c →
  hasCorrectIngressClass (OVirtualServer vs) = true → ValidateVirtualServer vs = Some err →
  let key := getResourceKey (vs_Meta vs) in
  let kind := getResourceKeyWithKind virtualServerKind (vs_Meta vs) in
  ∃ c' changes problems, AddOrUpdateVirtualServer vs c = Some (c', changes, problems) ∧
    o_virtualServers (c_objects c') !! key = None ∧
    ((∃ ch, ch ∈ changes ∧ changeKey (c_store c') ch = Some kind ∧ rc_Op ch = Delete ∧
        rc_Error ch = err) ∨
     ((∀ ch, ch ∈ changes → changeKey (c_store c') ch ≠ Some kind) ∧
      last problems = Some (rejection (OVirtualServer vs)
        ("VirtualServer " +:+ key +:+ " was rejected with error: " +:+ err)))).
Proof.
  intros Hr Hclass Hval key kind. destruct (reachable_inv fl c Hr) as [Hinv _].
  unfold AddOrUpdateVirtualServer. rewrite Hclass, Hval. cbn [negb].
  set (c1 := set_objects c _).
  assert (config_inv c1) as Hinv1.
  { apply config_inv_objects; [done|]. apply objects_ok_virtualServers; [apply Hinv|].
    intros k v [_ ?]%lookup_delete_Some. by apply (wfo_vs_key _ (proj1 (ci_objects _ Hinv))). }
  assert (o_virtualServers (c_objects c1) !! key = None) as Hgone by (apply lookup_delete_eq).
  destruct (c_startupComplete c1); cbn [negb].
  2: { eexists _, _, _. split; [done|]. split; [done|]. right. split; [set_solver|done]. }
  destruct (rebuildHosts_inv c1 Hinv1) as (c' & kcs & -> & Hrb & Hinv'). cbn [mbind option_bind].
  fold kind. pose proof (rb_changes _ _ _ Hrb) as Hex.
  rewrite reportError_ok by apply Hex. eexists _, _, _. split; [done|].
  split; [by rewrite (rb_objects _ _ _ Hrb)|].
  pose proof (exact_changes_attach _ _ _ _ kind err _ Hex) as Hex'. case_decide as Hin.
  - left. destruct (elem_of_attachKeyed_key kind err kcs Hin) as (ch & Hch & Hch').
    exists (withError err ch). split_and!; [|by apply Hex'| |done].
    + apply list_elem_of_fmap. by exists (kind, withError err ch).
    + simpl. destruct (rc_Op ch) eqn:Hop; [done|]. exfalso.
      destruct (ec_update _ _ _ _ _ Hex _ _ Hch Hop) as [(p & r & Hholds & Hk & _) _].
      destruct (hosts_rel_holds _ _ _ _ _ (rb_hosts _ _ _ Hrb) (rb_store _ _ _ Hrb) p r Hholds)
        as (i & x & _ & Hi & Hc & _). rewrite (core_key _ _ Hc) in Hk.
      destruct (resource_vs_stored c1 x key) as [y Hy]; [apply Hinv1|by eapply list_elem_of_lookup_2|done|].
      congruence.
  - right. split; [|apply last_snoc].
    intros ch ([k ch'] & -> & Hch)%list_elem_of_fmap. cbn [snd]. rewrite (ec_keyed _ _ _ _ _ Hex' _ _ Hch).
    intros [= ->]. apply Hin. rewrite <- (attachKeyed_keys kind err kcs).
    apply list_elem_of_fmap. by exists (kind, ch').
Qed.
End Rejected.

(** b, which owns x.com, is updated to a version without a host. *)
Lemma rejected_virtualServer_reported_witness :
  ∃ c' changes problems,
    AddOrUpdateVirtualServer (sampleVS "b" "u2" 3 "") sampleConfig = Some (c', changes, problems) ∧
    o_virtualServers (c_objects c') !! "default/b" = None ∧
    ((∃ ch, ch ∈ changes ∧ changeKey (c_store c') ch = Some "VirtualServer/default/b" ∧
        rc_Op ch = Delete ∧ rc_Error ch = "host is required") ∨
     ((∀ ch, ch ∈ changes → changeKey (c_store c') ch ≠ Some "VirtualServer/default/b") ∧
      last problems = Some (rejection (OVirtualServer (sampleVS "b" "u2" 3 ""))
        ("VirtualServer " +:+ "default/b" +:+ " was rejected with error: " +:+ "host is required")))).
Proof.
  apply (rejected_virtualServer_reported sampleFlags sampleConfig (sampleVS "b" "u2" 3 "")
    "host is required" sampleConfig_reachable); vm_compute; reflexivity.
Defined.
