(* ===== verification/ComponentProperties.v ===== *)
(** Properties of the parts of the configuration: the minion index and the
    distribution of paths, the routes of a VirtualServer, the reduction of
    changes, the change test. *)
From S2P Require Import Prelude GoStrings Regex Objects ProxyBuffers ValidationLib.
From S2P Require Import CommonValidation Resources ConfigState IngressValidation.
From S2P Require Import GlobalConfigurationValidation Minions VSRoutes Hosts Changes Problems.
From S2P Require Import Configuration HostRebuild ListenerRebuild Operations Scenario.

(** C19.  The routes of a VirtualServer are consistent.  Whatever the objects
    and the VirtualServer: no VirtualServerRoute is listed twice; no two of the
    subroutes listed have the same normalised path; every VirtualServerRoute
    listed is stored and was accepted for the VirtualServer's host with the path
    of one of its routes that leads to it, by name or by its labels, or with the
    paths of all its routes with a regular expression that name it ([validFor]);
    a selector only names listed VirtualServerRoutes. *)
Theorem vs_routes_consistent `{MapRange} `{Validators} `{LabelSelectors} o vs :
  let '(vsrs, selectors, _) := buildVirtualServerRoutes o vs in
  NoDup (vsrNsName <$> vsrs) ∧
  NoDup ((λ p, NormalizePath (r_Path p.2)) <$> allSubroutes vsrs) ∧
  (∀ vsr, vsr ∈ vsrs → validFor o vs vsr) ∧
  (∀ sel keys k, selectors !! sel = Some keys → k ∈ keys → k ∈ vsrNsName <$> vsrs).
Proof.
  destruct (buildVirtualServerRoutes o vs) as [[vsrs selectors] ws] eqn:Hb.
  by apply buildVirtualServerRoutes_spec in Hb.
Qed.

(** The minion index is exact.  In every reachable configuration the
    minions found through minionsByHost are those a scan of all Ingresses in
    key order finds, for every host. *)
Theorem minion_index_is_scan `{MapRange} `{Validators} `{LabelSelectors} `{!IngressValidatorLaws} fl c host :
  reachable fl c →
  buildMinionConfigs (c_objects c) host = buildMinionConfigsByScan (c_objects c) host.
Proof.
  intros Hr. destruct (reachable_inv fl c Hr) as [[[_ Hidx] _ _ _] _]. by apply buildMinionConfigs_scan.
Qed.

Lemma minion_index_is_scan_witness :
  buildMinionConfigs (c_objects sampleConfig) "z.com" = buildMinionConfigsByScan (c_objects sampleConfig) "z.com" ∧
  (length ∘ fst) <$> buildMinionConfigs (c_objects sampleConfig) "z.com" = Some 1.
Proof.
  split; [|vm_compute; reflexivity].
  apply (minion_index_is_scan sampleFlags sampleConfig "z.com" sampleConfig_reachable).
Defined.

(** C20.  Every path of a master has one owner.  If no minion of the host lists
    a path twice, then for every path that some minion lists exactly one minion
    has it marked valid, and no minion that lists it beats that one. *)
Theorem minion_path_one_owner `{MapRange} `{Validators} `{LabelSelectors} `{!IngressValidatorLaws} fl c host :
  reachable fl c →
  (∀ ing, ing ∈ minionsOf (o_ingresses (c_objects c)) host → NoDup (minionPaths ing)) →
  ∃ configs warnings, buildMinionConfigs (c_objects c) host = Some (configs, warnings) ∧
    mc_Ingress <$> configs = minionsOf (o_ingresses (c_objects c)) host ∧
    ∀ i mc path, configs !! i = Some mc → path ∈ minionPaths (mc_Ingress mc) →
      ∃ j mcj, configs !! j = Some mcj ∧ mc_ValidPaths mcj !! path = Some true ∧
        chooseObjectMetaWinner (ing_Meta (mc_Ingress mc)) (ing_Meta (mc_Ingress mcj)) = false ∧
        ∀ j' mcj', configs !! j' = Some mcj' → mc_ValidPaths mcj' !! path = Some true → j' = j.
Proof.
  intros Hr Hnd. destruct (reachable_inv fl c Hr) as [[[Hwf Hidx] _ _ _] _].
  destruct (buildMinionConfigs_paths_ok (c_objects c) host Hwf Hidx Hnd) as (st & Hb & Hing & [Ho Hbst Hv]).
  exists (ms_configs st), (ms_warnings st). split; [done|]. split; [done|].
  intros i mc path Hi Hp.
  destruct (Hbst i path) as (j & ci & cj & Hj & Hci & Hcj & Hw).
  { apply elem_of_allClaims. exists i, (mc_Ingress mc). split; [done|]. split; [|done].
    by rewrite <- Hing, list_lookup_fmap, Hi. }
  simplify_eq. exists j, cj. split; [done|]. split; [by apply (Hv j)|]. split; [done|].
  intros j' mcj' Hj' Hval. apply (Hv _ _ _ Hj') in Hval. congruence.
Qed.

(** Two minions of m.com that both list /b; the older one keeps it. *)
Definition minionRequests : list request :=
  [ ReqAddOrUpdateIngress (sampleMergeable "master" "boss" "u1" 1 "m.com" []);
    ReqAddOrUpdateIngress (sampleMergeable "minion" "m1" "u2" 9 "m.com" ["/a"; "/b"]);
    ReqAddOrUpdateIngress (sampleMergeable "minion" "m2" "u3" 4 "m.com" ["/b"; "/c"]);
    ReqCompleteStartup ].
Definition minionConfig : Configuration :=
  default (NewConfiguration sampleFlags) (runs minionRequests (NewConfiguration sampleFlags)).

Lemma minionConfig_reachable : reachable sampleFlags minionConfig.
Proof.
  apply (runs_reachable sampleFlags minionRequests); [repeat constructor|]. vm_compute. reflexivity.
Qed.

Lemma minion_path_one_owner_witness :
  (λ r : list MinionConfiguration * gmap string (list string),
     (λ mc, mc_ValidPaths mc !! "/b") <$> r.1) <$> buildMinionConfigs (c_objects minionConfig) "m.com"
    = Some [Some false; Some true] ∧
  ∃ configs warnings, buildMinionConfigs (c_objects minionConfig) "m.com" = Some (configs, warnings) ∧
    mc_Ingress <$> configs = minionsOf (o_ingresses (c_objects minionConfig)) "m.com" ∧
    ∀ i mc path, configs !! i = Some mc → path ∈ minionPaths (mc_Ingress mc) →
      ∃ j mcj, configs !! j = Some mcj ∧ mc_ValidPaths mcj !! path = Some true ∧
        chooseObjectMetaWinner (ing_Meta (mc_Ingress mc)) (ing_Meta (mc_Ingress mcj)) = false ∧
        ∀ j' mcj', configs !! j' = Some mcj' → mc_ValidPaths mcj' !! path = Some true → j' = j.
Proof.
  split; [vm_compute; reflexivity|].
  apply (minion_path_one_owner sampleFlags minionConfig "m.com" minionConfig_reachable).
  assert (minionsOf (o_ingresses (c_objects minionConfig)) "m.com" =
    [sampleMergeable "minion" "m1" "u2" 9 "m.com" ["/a"; "/b"];
     sampleMergeable "minion" "m2" "u3" 4 "m.com" ["/b"; "/c"]]) as -> by (vm_compute; reflexivity).
  intros ing Hing. apply (bool_decide_unpack _).
  repeat (apply elem_of_cons in Hing as [->|Hing]; [vm_compute; exact I|]).
  by apply not_elem_of_nil in Hing.
Defined.

(** A path listed twice by one minion is lost.  When a minion lists a
    path that nobody else claimed two times (as Exact and as Prefix), the
    second occurrence finds the minion itself as the holder: the path ends up
    marked invalid although no other resource wants it. *)
Theorem duplicate_path_of_minion_lost i ing st p ci :
  ms_paths st !! ip_Path p = None → ms_configs st !! i = Some ci → mc_Ingress ci = ing →
  ∃ st' ci', foldM (claimPath i ing) st [p; p] = Some st' ∧
    ms_configs st' !! i = Some ci' ∧ mc_ValidPaths ci' !! ip_Path p = Some false.
Proof. apply claimPath_twice. Qed.

Lemma duplicate_path_of_minion_lost_witness :
  let ing := sampleMergeable "minion" "m" "u" 1 "m.com" ["/a"; "/a"] in
  let st := {| ms_configs := [NewMinionConfiguration ing]; ms_paths := ∅; ms_warnings := ∅ |} in
  ∃ st' ci', foldM (claimPath 0 ing) st [samplePath "/a"; samplePath "/a"] = Some st' ∧
    ms_configs st' !! 0 = Some ci' ∧ mc_ValidPaths ci' !! "/a" = Some false.
Proof.
  intros ing st.
  apply (duplicate_path_of_minion_lost 0 ing st (samplePath "/a") (NewMinionConfiguration ing));
    vm_compute; reflexivity.
Defined.

(** squashResourceChanges computes its reference: the resources in the
    order of their first change, one change each, the last one, with the
    deletions moved to the front. *)
Theorem squash_is_reference h kcs :
  keyed h kcs →
  squashResourceChanges h kcs.*2 = Some (squashSpec kcs).*2 ∧
  NoDup (squashSpec kcs).*1 ∧ deletesFirst (squashSpec kcs) ∧
  ∀ k c, (k, c) ∈ squashSpec kcs ↔ last (changesFor k kcs) = Some c.
Proof.
  intros Hk. split; [by apply squashResourceChanges_eq|]. split; [apply NoDup_squashSpec|].
  split; [apply deletesFirst_squash|]. apply elem_of_squashSpec.
Qed.

Lemma squash_is_reference_witness :
  let h := [RVirtualServer (NewVirtualServerConfiguration (sampleVS "a" "u" 1 "x.com") [] ∅ []);
            RVirtualServer (NewVirtualServerConfiguration (sampleVS "b" "u" 1 "y.com") [] ∅ [])] in
  let kcs := [("VirtualServer/default/a", mkChange AddOrUpdate 0);
              ("VirtualServer/default/b", mkChange AddOrUpdate 1);
              ("VirtualServer/default/b", mkChange Delete 1)] in
  squashSpec kcs = [("VirtualServer/default/b", mkChange Delete 1);
                    ("VirtualServer/default/a", mkChange AddOrUpdate 0)] ∧
  squashResourceChanges h kcs.*2 = Some (squashSpec kcs).*2.
Proof.
  intros h kcs. split; [vm_compute; reflexivity|].
  apply (squash_is_reference h kcs).
  intros k c Hin. repeat (apply elem_of_cons in Hin as [[= -> ->]|Hin]; [reflexivity|]).
  by apply not_elem_of_nil in Hin.
Defined.

(** Some address changes go unnoticed: a VirtualServer whose HTTPS
    listener moves to another address, and a TransportServer whose listener
    does, compare equal to their old versions, so no change is produced. *)
Theorem address_changes_unnoticed v t ip4 ip6 :
  hostUpdates (RVirtualServer v) (RVirtualServer
    {| vsc_VirtualServer := vsc_VirtualServer v;
       vsc_VirtualServerRoutes := vsc_VirtualServerRoutes v;
       vsc_VirtualServerRouteSelectors := vsc_VirtualServerRouteSelectors v;
       vsc_Warnings := vsc_Warnings v; vsc_HTTPPort := vsc_HTTPPort v; vsc_HTTPSPort := vsc_HTTPSPort v;
       vsc_HTTPIPv4 := vsc_HTTPIPv4 v; vsc_HTTPIPv6 := vsc_HTTPIPv6 v;
       vsc_HTTPSIPv4 := ip4; vsc_HTTPSIPv6 := ip6 |}) = 0 ∧
  listenerStale (RTransportServer t) (RTransportServer
    {| tsc_ListenerPort := tsc_ListenerPort t; tsc_IPv4 := ip4; tsc_IPv6 := ip6;
       tsc_TransportServer := tsc_TransportServer t; tsc_Warnings := tsc_Warnings t |}) = false.
Proof.
  split.
  - unfold hostUpdates.
    pose proof (IsEqual_refl (RVirtualServer v)) as He. simpl in He.
    unfold IsEqual, virtualServerIsEqual in *. simpl. rewrite He. simpl.
    by rewrite !bool_decide_eq_true_2.
  - unfold listenerStale. pose proof (IsEqual_refl (RTransportServer t)) as He. simpl in He.
    unfold IsEqual, transportServerIsEqual in *. simpl. by rewrite He.
Qed.

(** The properties of the assignment of TransportServers to listeners. *)

(** A TransportServer that asks for the place [k] of an existing listener. *)
Definition wants (o : Objects) (k : listenerHostKey) (key : string) (ts : TransportServer) : Prop :=
  o_transportServers o !! key = Some ts ∧ isTLSPassthroughTS ts = false ∧
  listenerFound o ts = true ∧ wantedKey ts = k.

Section Owner.
Context `{MR : MapRange}.
Variables (o : Objects) (h0 h : store) (lh : gmap listenerHostKey loc) (cfgs : gmap string loc).
Hypothesis Hwf : wf_objects o.
Hypothesis Hrel : lis_rel o h0 (listenerEntries o) (h, lh, cfgs).

Lemma listener_owner k :
  match keyAt h lh k with
  | Some kind => ∃ key ts, kind = "TransportServer/" +:+ key ∧ wants o k key ts ∧
      ∀ key' ts', wants o k key' ts' → chooseObjectMetaWinner (ts_Meta ts') (ts_Meta ts) = false
  | None => ¬ ∃ key ts, wants o k key ts
  end.
Proof.
  assert (∀ key ts, wants o k key ts → ∃ j key' ts', lh !! k = Some (length h0 + j) ∧
    listenerEntries o !! j = Some (key', ts') ∧
    chooseObjectMetaWinner (ts_Meta ts) (ts_Meta ts') = false) as Hbest.
  { intros key ts (Hts & Hp & Hf & <-).
    assert ((key, ts) ∈ listenerEntries o) as [i Hi]%list_elem_of_lookup
      by (by apply elem_of_listenerEntries). by eapply (lr_best _ _ _ _ Hrel). }
  destruct (keyAt h lh k) as [kind|] eqn:Hk.
  - apply keyAt_Some in Hk as (r & Hr & <-).
    destruct (listener_holds o h0 h lh cfgs Hrel k r Hr) as (i & key & ts & Hl & Hi & Hc & Hf & Hw).
    pose proof (entries_lookup o i key ts Hi) as Hts.
    exists key, ts. split_and!.
    + by rewrite (core_key _ _ Hc), (tsResource_key o Hwf key ts).
    + apply list_elem_of_lookup_2, elem_of_listenerEntries in Hi as [_ ?]. done.
    + intros key' ts' Hw'. destruct (Hbest _ _ Hw') as (j & key2 & ts2 & Hj & Hj' & Hwin).
      assert (j = i) as -> by (rewrite Hl in Hj; injection Hj; lia). by simplify_eq.
  - intros (key & ts & Hw). destruct (Hbest _ _ Hw) as (j & key2 & ts2 & Hj & Hj' & _).
    destruct (lr_new _ _ _ _ Hrel _ _ _ Hj') as (r & Hr & _). simpl in Hr.
    unfold keyAt, derefAt in Hk. rewrite Hj in Hk. simpl in Hk. by rewrite Hr in Hk.
Qed.
End Owner.

(** Listener ownership.  Whatever orders Go's map iterations use, the
    holder of a listener and host is a TransportServer that asks for it and
    that no other such TransportServer beats, the place is free only when
    nobody asks for it, and two runs with different orders give it to the same
    TransportServer when no two of them have the same creation time and UID. *)
Theorem listener_owner_order_independent (MR1 MR2 : MapRange) (V : Validators) (LS : LabelSelectors)
    (Laws : IngressValidatorLaws) fl c :
  @reachable MR1 V LS fl c →
  (∀ k1 k2 t1 t2, o_transportServers (c_objects c) !! k1 = Some t1 →
     o_transportServers (c_objects c) !! k2 = Some t2 →
     om_CreationTimestamp (ts_Meta t1) = om_CreationTimestamp (ts_Meta t2) →
     om_UID (ts_Meta t1) = om_UID (ts_Meta t2) → k1 = k2) →
  ∃ c1 ch1 ps1 c2 ch2 ps2,
    @rebuildListenerHosts MR1 c = Some (c1, ch1, ps1) ∧
    @rebuildListenerHosts MR2 c = Some (c2, ch2, ps2) ∧
    ∀ k, keyAt (c_store c1) (c_listenerHosts c1) k = keyAt (c_store c2) (c_listenerHosts c2) k ∧
      match keyAt (c_store c1) (c_listenerHosts c1) k with
      | Some kind => ∃ key ts, kind = "TransportServer/" +:+ key ∧ wants (c_objects c) k key ts ∧
          ∀ key' ts', wants (c_objects c) k key' ts' →
            chooseObjectMetaWinner (ts_Meta ts') (ts_Meta ts) = false
      | None => ¬ ∃ key ts, wants (c_objects c) k key ts
      end.
Proof.
  intros Hr Huniq. destruct (reachable_inv (MR := MR1) fl c Hr) as [[[Hwf _] _ Hl _] _].
  destruct (rebuildListenerHosts_spec (MR := MR1) c Hwf Hl) as (c1 & kcs1 & E1 & Hb1).
  destruct (rebuildListenerHosts_spec (MR := MR2) c Hwf Hl) as (c2 & kcs2 & E2 & Hb2).
  exists c1, kcs1.*2. eexists. exists c2, kcs2.*2. eexists. split; [exact E1|]. split; [exact E2|].
  destruct (lb_rel _ _ _ Hb1) as [cfgs1 R1]. destruct (lb_rel _ _ _ Hb2) as [cfgs2 R2].
  intros k. pose proof (listener_owner (MR := MR1) _ _ _ _ _ Hwf R1 k) as O1.
  pose proof (listener_owner (MR := MR2) _ _ _ _ _ Hwf R2 k) as O2. split; [|done].
  destruct (keyAt (c_store c1) (c_listenerHosts c1) k) as [k1|],
           (keyAt (c_store c2) (c_listenerHosts c2) k) as [k2|]; try done.
  - destruct O1 as (key1 & t1 & -> & W1 & B1), O2 as (key2 & t2 & -> & W2 & B2).
    destruct (choose_total (ts_Meta t1) (ts_Meta t2)) as [Ht Hu]; [by eapply B2|by eapply B1|].
    do 2 f_equal. eapply Huniq; [apply W1|apply W2|done|done].
  - destruct O1 as (key & ts & _ & W & _). destruct O2. eauto.
  - destruct O2 as (key & ts & _ & W & _). destruct O1. eauto.
Qed.

Lemma listener_owner_order_independent_witness :
  ∃ c1 ch1 ps1 c2 ch2 ps2,
    @rebuildListenerHosts default_range sampleConfig = Some (c1, ch1, ps1) ∧
    @rebuildListenerHosts default_range sampleConfig = Some (c2, ch2, ps2) ∧
    ∀ k, keyAt (c_store c1) (c_listenerHosts c1) k = keyAt (c_store c2) (c_listenerHosts c2) k ∧
      match keyAt (c_store c1) (c_listenerHosts c1) k with
      | Some kind => ∃ key ts, kind = "TransportServer/" +:+ key ∧ wants (c_objects sampleConfig) k key ts ∧
          ∀ key' ts', wants (c_objects sampleConfig) k key' ts' →
            chooseObjectMetaWinner (ts_Meta ts') (ts_Meta ts) = false
      | None => ¬ ∃ key ts, wants (c_objects sampleConfig) k key ts
      end.
Proof.
  apply (listener_owner_order_independent default_range default_range sampleValidators sampleSelectors
    sampleLaws sampleFlags sampleConfig sampleConfig_reachable).
  intros k1 k2 t1 t2.
  assert (o_transportServers (c_objects sampleConfig) =
          {["default/t" := sampleTS "t" "u9" 1 "tcp" "TCP" ""]}) as -> by (vm_compute; reflexivity).
  intros [<- _]%lookup_singleton_Some [<- _]%lookup_singleton_Some _ _. reflexivity.
Defined.

(** The refresh of listener changes has no effect: newTSConfigs is keyed
    by namespace/name while the changes are looked up by kind/namespace/name,
    so a deletion keeps pointing to the old TransportServerConfiguration. *)
Theorem listener_refresh_is_noop (MR : MapRange) (V : Validators) (LS : LabelSelectors)
    (Laws : IngressValidatorLaws) fl c h lh cfgs r :
  reachable fl c →
  buildListenerHostsAndTSConfigurations (c_objects c) (c_store c) = Some (h, lh, cfgs) →
  cfgs !! GetKeyWithKind r = None.
Proof.
  intros Hr Hb. destruct (reachable_inv fl c Hr) as [[[Hwf _] _ _ _] _].
  destruct (buildListenerHosts_rel (c_objects c) (c_store c)) as (st & Hb' & Hrel).
  rewrite Hb in Hb'. injection Hb' as <-. by eapply ts_configs_no_kind.
Qed.

Lemma listener_refresh_is_noop_witness :
  ∃ h lh cfgs,
    buildListenerHostsAndTSConfigurations (c_objects sampleConfig) (c_store sampleConfig)
      = Some (h, lh, cfgs) ∧
    is_Some (cfgs !! "default/t") ∧
    cfgs !! GetKeyWithKind (RTransportServer (NewTransportServerConfiguration
              (sampleTS "t" "u9" 1 "tcp" "TCP" ""))) = None.
Proof.
  destruct (buildListenerHostsAndTSConfigurations (c_objects sampleConfig) (c_store sampleConfig))
    as [[[h lh] cfgs]|] eqn:Hb; [|vm_compute in Hb; discriminate Hb].
  exists h, lh, cfgs. split; [reflexivity|]. split.
  - assert (((λ x : listenerState, x.2) <$>
        buildListenerHostsAndTSConfigurations (c_objects sampleConfig) (c_store sampleConfig)) ≫=
        (λ m, m !! "default/t") = Some (length (c_store sampleConfig))) as Hx by (vm_compute; reflexivity).
    rewrite Hb in Hx. simpl in Hx. rewrite Hx. eauto.
  - apply (listener_refresh_is_noop default_range sampleValidators sampleSelectors sampleLaws
      sampleFlags sampleConfig h lh cfgs _ sampleConfig_reachable Hb).
Defined.

(** ** A TransportServer that moves from TLS Passthrough to a TCP listener *)
Definition passthroughRequests : list request :=
  [ ReqAddOrUpdateGlobalConfiguration sampleGC; ReqCompleteStartup;
    ReqAddOrUpdateTransportServer
      (sampleTS "ts" "u5" 1 "tls-passthrough" "TLS_PASSTHROUGH" "app.com") ].

(** The changes of a TransportServer that moves from TLS Passthrough to a
    TCP listener are its addition to the listener followed by its deletion from
    the host: applied in that order, they leave it with no configuration
    although it holds the listener. *)
Theorem passthrough_to_listener_deletes :
  let ts := sampleTS "ts" "u5" 1 "tcp" "TCP" "" in
  ∃ c c' changes problems,
    runs passthroughRequests (NewConfiguration sampleFlags) = Some c ∧
    AddOrUpdateTransportServer ts c = Some (c', changes, problems) ∧
    problems = [] ∧
    (λ ch, (rc_Op ch, changeKey (c_store c') ch)) <$> changes =
      [(AddOrUpdate, Some "TransportServer/default/ts"); (Delete, Some "TransportServer/default/ts")] ∧
    keyAt (c_store c') (c_listenerHosts c') {| lhk_ListenerName := "tcp"; lhk_Host := "" |} =
      Some "TransportServer/default/ts" ∧
    ∀ D, applyChanges (c_store c') D changes !! "TransportServer/default/ts" = None.
Proof.
  intros ts.
  destruct (runs passthroughRequests (NewConfiguration sampleFlags)) as [c|] eqn:Hr;
    [|vm_compute in Hr; discriminate Hr].
  vm_compute in Hr. injection Hr as <-.
  eexists _, _, _, _. split; [reflexivity|]. split; [vm_compute; reflexivity|].
  split; [reflexivity|]. split; [vm_compute; reflexivity|]. split; [vm_compute; reflexivity|].
  intros D. unfold applyChanges, applyChange. simpl. apply lookup_delete_eq.
Qed.

(** Properties of the GlobalConfiguration validator and of the listener map the
    configuration builds from what it keeps. *)

Section Properties.
Context `{VL : ValidationLib} `{LL : !ValidationLaws}.
Variable forbidden : gset Z.

Lemma validListener_facts l :
  validListener forbidden l = true →
  l_Name l ≠ TLSPassthroughListenerName ∧ l_Name l ≠ "" ∧
  (1 <= l_Port l <= 65535)%Z ∧ l_Port l ∉ forbidden ∧ l_Protocol l ∈ allowedProtocols.
Proof.
  unfold validListener. rewrite bool_decide_eq_true. unfold validateListener. rewrite !app_nil.
  intros (Hn & Hp & Hpr & _).
  unfold validateGlobalConfigurationListenerName, validateDNS1035Label in Hn.
  unfold validateListenerPort in Hp. unfold validateListenerProtocol in Hpr.
  repeat case_bool_decide; try done. split_and!; try done; apply IsValidPortNum_range;
    by destruct (IsValidPortNum (l_Port l)).
Qed.

Lemma getValidListeners_ok p ls :
  listenersOk forbidden ls → getValidListeners forbidden ls p = (ls, []).
Proof.
  intros Hok. unfold getValidListeners. cbv zeta.
  destruct (foldl_addListener_ok forbidden p ls Hok) as (-> & -> & _). done.
Qed.

(** C22.  Listeners of the GlobalConfiguration.  The listeners the validator
    keeps are some of the given ones in their order; each has a non-empty name
    other than that of the built-in listener, a port from 1 to 65535 that is
    not forbidden and an allowed protocol; names are unique; and no two of them
    share a port and an IPv4 or IPv6 address with protocols that need the same
    socket.  No error is reported exactly when all the given listeners are
    acceptable, and they are then all kept; validating the kept listeners again
    keeps them all. *)
Theorem valid_listeners ls fieldPath valid errs :
  getValidListeners forbidden ls fieldPath = (valid, errs) →
  valid `sublist_of` ls ∧
  (∀ l, l ∈ valid → l_Name l ≠ TLSPassthroughListenerName ∧ l_Name l ≠ "" ∧
     (1 <= l_Port l <= 65535)%Z ∧ l_Port l ∉ forbidden ∧ l_Protocol l ∈ allowedProtocols) ∧
  NoDup (l_Name <$> valid) ∧
  (∀ i j l1 l2, i ≠ j → valid !! i = Some l1 → valid !! j = Some l2 → ¬ listenersConflict l1 l2) ∧
  (errs = [] ↔ listenersOk forbidden ls) ∧ (errs = [] → valid = ls) ∧
  getValidListeners forbidden valid fieldPath = (valid, []).
Proof.
  unfold getValidListeners at 1. cbv zeta. intros [= <- <-].
  destruct (getValidListeners_inv forbidden fieldPath ls) as [Hsub Hok _ _ _ Herr].
  pose proof Hok as [He Hn Hc]. split_and!; try done.
  - intros l Hl. by apply validListener_facts, He.
  - split.
    + intros Hx. by rewrite <- (Herr Hx).
    + intros Hls. pose proof (getValidListeners_ok fieldPath ls Hls) as Hx.
      unfold getValidListeners in Hx. cbv zeta in Hx. by injection Hx.
  - by apply getValidListeners_ok.
Qed.

(** The listener map is lossless.  After a GlobalConfiguration is
    validated and stored, the map from listener names to listeners that
    VirtualServers use holds each kept listener under its name, and nothing
    else. *)
Theorem listener_map_lossless o gc name l :
  let o' := setGlobalConfigListenerMap
              (set_globalConfiguration o (Some (validateGlobalConfiguration forbidden gc).1)) in
  o_listenerMap o' !! name = Some l ↔
  l ∈ gc_Listeners (validateGlobalConfiguration forbidden gc).1 ∧ l_Name l = name.
Proof.
  cbn zeta. unfold setGlobalConfigListenerMap.
  cbn [o_listenerMap set_listenerMap set_globalConfiguration o_globalConfiguration].
  assert (NoDup (l_Name <$> gc_Listeners (validateGlobalConfiguration forbidden gc).1)) as Hnd.
  { unfold validateGlobalConfiguration, getValidListeners. cbv zeta. simpl.
    apply (getValidListeners_inv forbidden "spec.listeners" (gc_Listeners gc)). }
  revert Hnd. generalize (gc_Listeners (validateGlobalConfiguration forbidden gc).1). intros ls.
  induction ls as [|l' ls IH] using rev_ind; intros Hnd.
  - cbn [foldl]. rewrite lookup_empty. split; [done|]. by intros [?%elem_of_nil _].
  - rewrite fmap_app in Hnd. apply NoDup_app in Hnd as (Hnd & Hd & _). specialize (IH Hnd).
    rewrite foldl_app. simpl. rewrite lookup_insert_Some, IH, elem_of_app, list_elem_of_singleton.
    split.
    + intros [[<- <-]|[Hne [? ?]]]; auto.
    + intros [[Hin| ->] <-]; [|by left]. right. split; [|done]. intros Heq.
      apply (Hd (l_Name l)); [by apply list_elem_of_fmap_2|]. rewrite <- Heq. by apply list_elem_of_singleton.
Qed.
End Properties.

(** ** A concrete environment *)
#[local] Existing Instance sampleLib.
#[local] Existing Instance sampleLib_laws.

Definition sampleListener (name protocol : string) (port : Z) : Listener :=
  {| l_Name := name; l_Protocol := protocol; l_Port := port; l_IPv4 := ""; l_IPv6 := "";
     l_Ssl := false |}.

(** The second listener needs the socket of the first, the third does not. *)
Definition sampleListeners : list Listener :=
  [sampleListener "dns-tcp" "TCP" 53; sampleListener "web" "HTTP" 53; sampleListener "dns-udp" "UDP" 53].

Lemma valid_listeners_witness :
  ∃ valid errs, getValidListeners ∅ sampleListeners "spec.listeners" = (valid, errs) ∧
    l_Name <$> valid = ["dns-tcp"; "dns-udp"] ∧
    (errs = [] ↔ listenersOk ∅ sampleListeners) ∧
    getValidListeners ∅ valid "spec.listeners" = (valid, []).
Proof.
  eexists _, _. split; [reflexivity|]. split; [vm_compute; reflexivity|].
  destruct (valid_listeners ∅ sampleListeners "spec.listeners" _ _ eq_refl)
    as (_ & _ & _ & _ & He & _ & Hi). split; [exact He|exact Hi].
Defined.
