(* ===== verification/ReferencesCorrect.v ===== *)
(** Properties of the searches and queries of the configuration. *)
From S2P Require Import Prelude GoStrings Objects ProxyBuffers Resources ConfigState.
From S2P Require Import IngressValidation Minions VSRoutes Hosts Changes Problems.
From S2P Require Import Configuration HostRebuild ListenerRebuild Operations Scenario.
From S2P Require Import ConfigurationCorrect References.

(** ** The checkers keep their promise *)

Lemma backendIs_total svc b : ib_Service b ≠ None → is_Some (backendIs svc b).
Proof. unfold backendIs. destruct (ib_Service b); simpl; [eauto|done]. Qed.

Lemma serviceByBackends_total svc ing : wf_ingress ing → is_Some (serviceByBackends svc ing).
Proof.
  intros Hwf. unfold serviceByBackends.
  assert (is_Some (from_option (backendIs svc) (Some false) (ing_DefaultBackend ing))) as [b ->].
  { destruct (ing_DefaultBackend ing) eqn:Hb; simpl; [|eauto].
    by eapply backendIs_total, wf_defaultBackend. }
  simpl. destruct b; [eauto|]. apply anyM_total. intros r Hr.
  destruct (ir_HTTP r) as [ps|] eqn:Hps; simpl; [|eauto]. apply anyM_total. intros p Hp.
  by eapply backendIs_total, wf_backends.
Qed.

Lemma serviceByIngress_total ps ns n ing :
  wf_ingress ing → is_Some (serviceByIngress ps ns n ing).
Proof.
  intros Hwf. unfold serviceByIngress.
  assert (is_Some (if bool_decide (om_Namespace (ing_Meta ing) = ns)
                   then serviceByBackends n ing else Some false)) as [b ->].
  { case_bool_decide; [by apply serviceByBackends_total|eauto]. }
  simpl. destruct b; eauto.
Qed.

(** The checkers of a configuration *)
Definition checkersOf (c : Configuration) : list resourceReferenceChecker :=
  [ serviceReferenceChecker c; endpointReferenceChecker c;
    newSecretReferenceChecker (f_isPlus (c_flags c)); newPolicyReferenceChecker;
    newAppProtectResourceReferenceChecker AppProtectPolicyAnnotation;
    newAppProtectResourceReferenceChecker AppProtectLogConfAnnotation;
    newDosResourceReferenceChecker AppProtectDosProtectedAnnotation;
    ratelimitScalingAnnotationChecker ].

Lemma checkersOf_total c rc : rc ∈ checkersOf c → checker_total rc.
Proof.
  unfold checkersOf. intros Hrc.
  repeat (apply elem_of_cons in Hrc as [->|Hrc]; [split; simpl; eauto using serviceByIngress_total|]).
  by apply elem_of_nil in Hrc.
Qed.

(** ** The resources of the hosts are built from accepted Ingresses *)

Lemma buildMinionConfigs_stored o host configs warnings mc :
  buildMinionConfigs o host = Some (configs, warnings) → mc ∈ configs →
  ∃ k, o_ingresses o !! k = Some (mc_Ingress mc).
Proof.
  unfold buildMinionConfigs. intros Hb Hin.
  destruct (foldM _ _ _) as [st|] eqn:Hf; simplify_eq/=.
  set (stored := λ st, ∀ ing, ing ∈ mc_Ingress <$> ms_configs st → ∃ k, o_ingresses o !! k = Some ing).
  assert (stored st) as Hst.
  { eapply (foldM_preserves stored _ _ _ _); [| |exact Hf]; [|by intros ? ?%elem_of_nil].
    intros x k z _ Hx. unfold addMinion. destruct (o_ingresses o !! k) as [ing|] eqn:Hk; [|by intros [= <-]].
    destruct (head _) as [r|]; [|done]. simpl. destruct (ir_HTTP r) as [ps|]; [|done]. simpl.
    eapply (foldM_preserves stored).
    - intros y p y' _ Hy. unfold claimPath. destruct (ms_paths y !! ip_Path p) as [j|].
      + destruct (ms_configs y !! j); [|done]. simpl. case_match; intros [= <-]; [|done].
        intros i. simpl. rewrite !alter_setValidPath_ingress. apply Hy.
      + intros [= <-] i. simpl. rewrite alter_setValidPath_ingress. apply Hy.
    - intros i. simpl. rewrite fmap_app, elem_of_app. csimpl. rewrite list_elem_of_singleton.
      intros [?| ->]; eauto. }
  apply Hst. apply list_elem_of_fmap. eauto.
Qed.

Section Searches.
Context `{MR : MapRange} `{V : Validators} `{LS : LabelSelectors} `{Laws : !IngressValidatorLaws}.

Lemma newResourceList_ingress fl o ic :
  wf_objects o → RIngress ic ∈ newResourceList fl o →
  wf_ingress (ic_Ingress ic) ∧ ∀ mc, mc ∈ ic_Minions ic → wf_ingress (mc_Ingress mc).
Proof.
  intros Hwf Hin. unfold newResourceList in Hin.
  rewrite !elem_of_app, !list_elem_of_omap in Hin. destruct Hin as [(k & _ & Hk)|[(k & _ & Hk)|Hin]].
  - unfold newIngressResource in Hk. destruct (o_ingresses o !! k) as [ing|] eqn:Hi; [|done]. simpl in Hk.
    case_match; [done|]. unfold ingressResource in Hk. destruct (isMaster ing).
    + destruct (head _) as [r|]; [|done]. simpl in Hk.
      destruct (buildMinionConfigs o (ir_Host r)) as [[ms ws]|] eqn:Hb; simplify_eq/=.
      split; [by eapply wfo_ing|]. intros mc Hmc.
      destruct (buildMinionConfigs_stored _ _ _ _ _ Hb Hmc) as [k' Hk']. by eapply wfo_ing.
    + simplify_eq/=. split; [by eapply wfo_ing|]. by intros mc ?%elem_of_nil.
  - unfold newVSResource, virtualServerResource in Hk. destruct (o_virtualServers o !! k) as [vs|]; [|done].
    simpl in Hk. destruct (buildVirtualServerRoutes o vs) as [[? ?] ?]. by simplify_eq.
  - case_match; [|by apply elem_of_nil in Hin]. apply list_elem_of_omap in Hin as (k & _ & Hk).
    unfold newTSResource in Hk. destruct (o_transportServers o !! k); [|done]. simpl in Hk.
    case_match; by simplify_eq.
Qed.

Lemma resourceReferences_total fl c rc ns name host r :
  reachable fl c → c_startupComplete c = true → checker_total rc →
  holds (c_store c) (c_hosts c) host r → is_Some (resourceReferences rc ns name r).
Proof.
  intros Hreach Hst [Hi Hm Hv Hr Ht] (l & Hl & Hlr).
  destruct (reachable_current fl c Hreach Hst) as [[[Hwf _] _ _ _] Hcur].
  pose proof (hc_hosts _ Hcur host) as Hh. rewrite Hl in Hh.
  destruct Hh as (r' & r0 & Hr' & Hr0 & Hc & _). rewrite Hlr in Hr'. injection Hr' as <-.
  destruct r as [ic|vsc|tsc]; simpl.
  - destruct r0 as [ic0| |]; [|done..]. injection Hc as Hc1 Hc2 Hc3 _.
    destruct (newResourceList_ingress _ _ _ Hwf Hr0) as [Hw1 Hw2]. rewrite Hc1, Hc3.
    destruct (Hi ns name (ic_Ingress ic0) Hw1) as [b ->]. simpl. destruct b; [eauto|].
    apply anyM_total. intros mc Hmc. by apply Hm, Hw2.
  - destruct (Hv ns name (vsc_VirtualServer vsc)) as [b ->]. simpl. destruct b; [eauto|].
    apply anyM_total. auto.
  - apply Ht.
Qed.

(** The loop of the search. *)
Lemma foldM_searchStep rc ns name h acc ls :
  (∀ l, l ∈ ls → ∃ r, h !! l = Some r ∧ is_Some (resourceReferences rc ns name r)) →
  foldM (searchStep rc ns name h) acc ls =
  Some (acc ++ filter (λ l, (h !! l) ≫= resourceReferences rc ns name = Some true) ls).
Proof.
  revert acc. induction ls as [|l ls IH]; intros acc Hls; [simpl; by rewrite app_nil_r|].
  destruct (Hls l) as (r & Hr & [b Hb]); [set_solver|]. rewrite foldM_cons.
  assert (searchStep rc ns name h acc l = Some (if b then acc ++ [l] else acc)) as ->
    by (unfold searchStep; rewrite Hr; simpl; by rewrite Hb).
  cbn [mbind option_bind]. rewrite IH by (intros; apply Hls; set_solver).
  rewrite filter_cons, Hr. simpl. rewrite Hb. destruct b.
  - rewrite decide_True by done. by rewrite <- app_assoc.
  - rewrite decide_False by done. done.
Qed.

Lemma elem_of_hostHolders c l : l ∈ hostHolders c ↔ ∃ host, c_hosts c !! host = Some l.
Proof.
  unfold hostHolders. rewrite list_elem_of_omap. split; [naive_solver|].
  intros [host Hh]. exists host. split; [|done]. apply elem_of_sortedKeys. eauto.
Qed.

Lemma elem_of_listenerHolders c l : l ∈ listenerHolders c ↔ ∃ k, c_listenerHosts c !! k = Some l.
Proof.
  unfold listenerHolders. rewrite list_elem_of_omap. split; [naive_solver|].
  intros [k Hk]. exists k. split; [|done]. unfold getSortedListenerHostKeys.
  rewrite merge_sort_Permutation. apply list_elem_of_fmap. exists (k, l). split; [done|].
  by apply elem_of_map_to_list.
Qed.

(** What a search finds. *)
Lemma search_finds fl c rc ns name :
  reachable fl c → c_startupComplete c = true → rc ∈ checkersOf c →
  ∃ result, findResourcesForResourceReference ns name rc c = Some result ∧
    ∀ l, l ∈ result ↔
      ((∃ host, c_hosts c !! host = Some l) ∨ (∃ k, c_listenerHosts c !! k = Some l)) ∧
      ∃ r, c_store c !! l = Some r ∧ resourceReferences rc ns name r = Some true.
Proof.
  intros Hreach Hst Hrc%checkersOf_total. destruct (reachable_inv fl c Hreach) as [Hinv _].
  eexists. split.
  - unfold findResourcesForResourceReference. rewrite foldM_searchStep; [cbn [mbind option_bind];
      rewrite foldM_searchStep; [reflexivity|]|].
    + intros l [k Hk]%elem_of_listenerHolders.
      destruct (mo_valid _ _ (lo_map _ _ (ci_listeners _ Hinv)) _ _ Hk) as [r Hr].
      exists r. split; [done|].
      destruct (lo_place _ _ (ci_listeners _ Hinv) k r) as (tsc & -> & _); [by exists l|].
      simpl. apply (ct_ts _ Hrc).
    + intros l [host Hl]%elem_of_hostHolders.
      destruct (mo_valid _ _ (ho_map _ _ (ci_hosts _ Hinv)) _ _ Hl) as [r Hr].
      exists r. split; [done|]. eapply resourceReferences_total; [done..|]. by exists l.
  - intros l. simpl. rewrite elem_of_app, !list_elem_of_filter, elem_of_hostHolders,
      elem_of_listenerHolders, bind_Some. naive_solver.
Qed.


(** ** GetResources *)

Lemma elem_of_range_values `{Countable K} {A} site (m : gmap K A) x :
  x ∈ (range site m).*2 ↔ ∃ k, m !! k = Some x.
Proof.
  rewrite list_elem_of_fmap. split.
  - intros ([k y] & -> & Hin). exists k. by apply elem_of_range in Hin.
  - intros [k Hk]. exists (k, x). split; [done|]. by apply elem_of_range.
Qed.

Lemma GetResources_spec fl c :
  reachable fl c →
  ∃ m ls, GetResources c = Some ls ∧ Forall2 (λ k l, m !! k = Some l) (sortedKeys m) ls ∧
    (∀ k l, m !! k = Some l →
       (∃ r, c_store c !! l = Some r ∧ GetKeyWithKind r = k) ∧
       ((∃ host, c_hosts c !! host = Some l) ∨ (∃ k', c_listenerHosts c !! k' = Some l))) ∧
    (∀ k, is_Some (m !! k) ↔
       (∃ host r, holds (c_store c) (c_hosts c) host r ∧ GetKeyWithKind r = k) ∨
       (∃ k' r, holds (c_store c) (c_listenerHosts c) k' r ∧ GetKeyWithKind r = k)).
Proof.
  intros Hreach. destruct (reachable_inv fl c Hreach) as [Hinv _].
  unfold GetResources, GetResourcesWithFilter. cbn [rf_TransportServers].
  destruct (foldM_collect_eq (c_store c) (passes {| rf_Ingresses := true; rf_VirtualServers := true;
      rf_TransportServers := true |}) ∅ (range "GetResources/hosts" (c_hosts c)).*2)
    as (m1 & -> & Hs1 & Hd1).
  { intros l [host Hl]%elem_of_range_values. apply (mo_valid _ _ (ho_map _ _ (ci_hosts _ Hinv)) _ _ Hl). }
  cbn [mbind option_bind].
  destruct (foldM_collect_eq (c_store c) (λ _, true) m1
      (range "GetResources/listenerHosts" (c_listenerHosts c)).*2) as (m2 & -> & Hs2 & Hd2).
  { intros l [k Hl]%elem_of_range_values.
    apply (mo_valid _ _ (lo_map _ _ (ci_listeners _ Hinv)) _ _ Hl). }
  cbn [mbind option_bind]. destruct (mapM_lookup_sortedKeys m2) as (ls & Hls & Hall).
  exists m2, ls. split; [done|]. split; [done|]. setoid_rewrite elem_of_range_values in Hs1.
  setoid_rewrite elem_of_range_values in Hs2. split.
  - intros k l Hk. apply Hs2 in Hk as [Hk|(? & r & ? & _ & ?)]; [|eauto].
    apply Hs1 in Hk as [Hk|(? & r & ? & _ & ?)]; [by rewrite lookup_empty in Hk|eauto].
  - intros k. rewrite Hd2, Hd1, lookup_empty. setoid_rewrite elem_of_range_values. unfold holds. split.
    + intros [[[? ?]|(l & r & [host ?] & ? & _ & ?)]|(l & r & [k' ?] & ? & _ & ?)]; [done|..].
      * left. exists host, r. eauto.
      * right. exists k', r. eauto.
    + intros [(host & r & (l & ? & ?) & ?)|(k' & r & (l & ? & ?) & ?)].
      * left. right. exists l, r. split_and!; eauto. by destruct r.
      * right. exists l, r. eauto.
Qed.

Lemma deploy_reachable fl reqs st :
  Forall wf_request reqs → foldM deployStep (NewConfiguration fl, ∅) reqs = Some st →
  reachable fl st.1.
Proof.
  intros Hwf. apply (foldM_preserves (λ st, reachable fl st.1)); [|apply reach_new].
  intros [c D] req st' Hin Hr. unfold deployStep. simpl.
  destruct (exec req c) as [[[c' changes] problems]|] eqn:He; [|done]. intros [= <-].
  eapply reach_step; [done|by eapply Forall_forall|done].
Qed.

(** GetResources lists the deployment.  Without TLS Passthrough, after
    any requests whose changes were applied as they came, GetResources returns
    one resource per deployed key, in the order of the keys. *)
Theorem getResources_is_deployment fl reqs :
  f_isTLSPassthroughEnabled fl = false → Forall wf_request reqs →
  ∃ c D ls rs, foldM deployStep (NewConfiguration fl, ∅) reqs = Some (c, D) ∧
    GetResources c = Some ls ∧ mapM (c_store c !!.) ls = Some rs ∧
    GetKeyWithKind <$> rs = sortedKeys D.
Proof.
  intros Hfl Hwf.
  destruct (deployment_inSync fl reqs Hwf) as ([c D] & Hrun & (_ & Hh & Hl) & Hfl').
  simpl in *. rewrite Hfl' in Hl.
  assert (reachable fl c) as Hreach by exact (deploy_reachable fl reqs _ Hwf Hrun).
  destruct (reachable_inv fl c Hreach) as [Hinv _].
  destruct (GetResources_spec fl c Hreach) as (m & ls & Hget & Hall & Hval & Hdom).
  assert (∀ k, is_Some (m !! k) ↔ is_Some (D !! k)) as HmD.
  { intros k. rewrite Hdom. destruct (isTSKey k) eqn:Hts.
    - specialize (Hl Hfl k Hts). unfold deployedAt in Hl. destruct (D !! k) as [r|].
      + destruct Hl as (k' & r' & ? & ? & _). split; [eauto|]. intros _. right. eauto.
      + split; [|by intros []]. intros [(host & r & Hr & <-)|?]; [|done].
        apply isTSKey_kind in Hts. rewrite <- Hfl' in Hfl.
        by destruct (ci_passthrough _ Hinv Hfl host r Hr).
    - specialize (Hh k Hts). unfold deployedAt in Hh. destruct (D !! k) as [r|].
      + destruct Hh as (k' & r' & ? & ? & _). split; [eauto|]. intros _. left. eauto.
      + split; [|by intros []]. intros [?|(k' & r & Hr & <-)]; [done|].
        destruct (lo_place _ _ (ci_listeners _ Hinv) _ _ Hr) as (tsc & -> & _).
        by rewrite (proj2 (isTSKey_kind _)) in Hts. }
  assert (∃ rs, mapM (c_store c !!.) ls = Some rs ∧ GetKeyWithKind <$> rs = sortedKeys m)
    as (rs & Hrs & Hkeys).
  { clear Hget HmD. revert Hall. generalize (sortedKeys m). clear -Hval. intros ks. revert ls.
    induction ks as [|k ks IH]; intros ls Hall; inversion Hall as [|? l ? ls' Hk Hall']; subst.
    - by exists [].
    - destruct (Hval _ _ Hk) as [(r & Hr & Hkr) _]. destruct (IH _ Hall') as (rs & Hrs & Hkeys).
      exists (r :: rs). split.
      + cbn [mapM]. rewrite Hr. cbn [mbind option_bind]. by rewrite Hrs.
      + rewrite fmap_cons. by rewrite Hkr, Hkeys. }
  exists c, D, ls, rs. split_and!; [done..|]. rewrite Hkeys. by apply sortedKeys_ext.
Qed.
End Searches.

(** ** Policies of an Ingress *)

(** Two readers of the policies annotation.  The policy checker looks for
    the texts namespace/name and name in the comma-separated list; the
    configurator parses the same list into references.  They agree on every
    policy whose namespace and name have no slash: the checker finds the policy
    exactly when one of the parsed references is that policy. *)
Theorem policy_checker_matches_parser ing key value ns name :
  containsByte slash ns = false → containsByte slash name = false →
  annotationExists (ing_Meta ing) key = Some value →
  policyByAnnotation ns name ing key = true ↔
  {| pr_Name := name; pr_Namespace := ns |} ∈
    GetPolicyRefsFromAnnotation value (om_Namespace (ing_Meta ing)).
Proof.
  intros Hns Hname Hval. unfold policyByAnnotation, GetPolicyRefsFromAnnotation. rewrite Hval.
  rewrite existsb_spec, list_elem_of_fmap.
  assert (∀ p, bool_decide (TrimSpace p = FormatResourceReference ns name)
        || (bool_decide (ns = om_Namespace (ing_Meta ing)) && bool_decide (TrimSpace p = name)) = true
      ↔ {| pr_Name := name; pr_Namespace := ns |} = policyRefOf (om_Namespace (ing_Meta ing)) p) as Hp.
  { intros p. unfold policyRefOf. generalize (TrimSpace p). clear p Hval. intros p.
    rewrite orb_true_iff, andb_true_iff, !bool_decide_eq_true.
    destruct (Split slash p) as [|a [|b [|c l]]] eqn:Hs.
    - by apply Split_nil in Hs.
    - split; [|naive_solver]. intros [->|[-> ->]]; [|done].
      rewrite (Split_format ns name) in Hs by done. done.
    - apply Split_two in Hs as (-> & Ha & Hb). split.
      + intros [Heq|[_ <-]]; [|by rewrite containsByte_format in Hname].
        pose proof (Split_format ns name Hns Hname) as Hx. rewrite <- Heq in Hx.
        change (a +:+ "/" +:+ b) with (FormatResourceReference a b) in Hx.
        rewrite (Split_format a b Ha Hb) in Hx. by simplify_eq.
      + intros [= -> ->]. by left.
    - split; [|intros [= -> ->]].
      + intros [->|[-> ->]]; [|by rewrite Split_no_sep in Hs].
        rewrite (Split_format ns name) in Hs by done. done.
      + by rewrite Split_no_sep in Hs. }
  split.
  - intros (p & Hin & Hx%Hp). by exists p.
  - intros (p & Hx & Hin). exists p. split; [done|]. by apply Hp.
Qed.

(** ** Services *)

Definition setBackup (b : string) (u : Upstream) : Upstream :=
  {| u_Name := u_Name u; u_Service := u_Service u; u_Subselector := u_Subselector u;
     u_Port := u_Port u; u_LBMethod := u_LBMethod u; u_FailTimeout := u_FailTimeout u;
     u_MaxFails := u_MaxFails u; u_MaxConns := u_MaxConns u; u_Keepalive := u_Keepalive u;
     u_ProxyConnectTimeout := u_ProxyConnectTimeout u; u_ProxyReadTimeout := u_ProxyReadTimeout u;
     u_ProxySendTimeout := u_ProxySendTimeout u; u_ProxyNextUpstream := u_ProxyNextUpstream u;
     u_ProxyNextUpstreamTimeout := u_ProxyNextUpstreamTimeout u;
     u_ProxyNextUpstreamTries := u_ProxyNextUpstreamTries u; u_ProxyBuffering := u_ProxyBuffering u;
     u_ProxyBuffers := u_ProxyBuffers u; u_ProxyBufferSize := u_ProxyBufferSize u;
     u_ProxyBusyBuffersSize := u_ProxyBusyBuffersSize u;
     u_ClientMaxBodySize := u_ClientMaxBodySize u;
     u_ClientBodyBufferSize := u_ClientBodyBufferSize u; u_TLS := u_TLS u;
     u_HealthCheck := u_HealthCheck u; u_SlowStart := u_SlowStart u; u_Queue := u_Queue u;
     u_SessionCookie := u_SessionCookie u; u_UseClusterIP := u_UseClusterIP u; u_NTLM := u_NTLM u;
     u_Type := u_Type u; u_Backup := b; u_BackupPort := u_BackupPort u |}.

(** Backup services.  A VirtualServer references the backup service of
    each of its upstreams, except that the endpoints checker skips upstreams
    that use the cluster IP; for a VirtualServerRoute, whose upstreams have
    backup services too, the checker never looks at them: its answer is the
    same whatever the backups are. *)
Theorem backup_services_of_routes_ignored hasClusterIP policyServices ns svc :
  (∀ vs u, u ∈ vs_Upstreams vs → om_Namespace (vs_Meta vs) = ns → u_Backup u = svc →
     hasClusterIP && u_UseClusterIP u = false →
     serviceByVirtualServer hasClusterIP policyServices ns svc vs = true) ∧
  (∀ meta class host us subroutes backup,
     serviceByVirtualServerRoute hasClusterIP policyServices ns svc
       {| vsr_Meta := meta; vsr_IngressClass := class; vsr_Host := host;
          vsr_Upstreams := setBackup backup <$> us; vsr_Subroutes := subroutes |} =
     serviceByVirtualServerRoute hasClusterIP policyServices ns svc
       {| vsr_Meta := meta; vsr_IngressClass := class; vsr_Host := host; vsr_Upstreams := us;
          vsr_Subroutes := subroutes |}).
Proof.
  split.
  - intros vs u Hu Hns Hb Hc. unfold serviceByVirtualServer.
    apply orb_true_iff. left. apply orb_true_iff. left. apply existsb_spec. exists u. split; [done|].
    rewrite Hc, Hns, Hb, (bool_decide_eq_true_2 (ns = ns)), (bool_decide_eq_true_2 (svc = svc)) by done.
    apply orb_true_r.
  - intros meta class host us subroutes backup. unfold serviceByVirtualServerRoute. simpl. f_equal.
    induction us as [|u us IH]; [done|]. rewrite fmap_cons. cbn [existsb]. by rewrite IH.
Qed.

(** ** Witnesses *)


Definition plainFlags : Flags :=
  {| f_isPlus := false; f_appProtectEnabled := false; f_appProtectDosEnabled := false;
     f_isTLSPassthroughEnabled := false; f_snippetsEnabled := false; f_isCertManagerEnabled := false;
     f_isIPV6Disabled := false; f_isDirectiveAutoadjustEnabled := false;
     f_allowEmptyIngressHost := false |}.

Lemma getResources_is_deployment_witness :
  ∃ c D ls rs, foldM deployStep (NewConfiguration plainFlags, ∅) sampleRequests = Some (c, D) ∧
    GetResources c = Some ls ∧ mapM (c_store c !!.) ls = Some rs ∧
    GetKeyWithKind <$> rs = sortedKeys D.
Proof.
  apply (getResources_is_deployment plainFlags sampleRequests); [reflexivity|]. repeat constructor.
Defined.

Definition policyIngress : Ingress :=
  {| ing_Meta := {| om_Namespace := "default"; om_Name := "cafe"; om_UID := "u";
                    om_CreationTimestamp := 1; om_Generation := 1;
                    om_Annotations := Some {[ PoliciesAnnotation := "a, other/b" ]};
                    om_Labels := ∅ |};
     ing_IngressClassName := None; ing_DefaultBackend := None; ing_TLS := []; ing_Rules := [] |}.

Lemma policy_checker_matches_parser_witness :
  policyByAnnotation "other" "b" policyIngress PoliciesAnnotation = true ↔
  {| pr_Name := "b"; pr_Namespace := "other" |} ∈ GetPolicyRefsFromAnnotation "a, other/b" "default".
Proof.
  apply (policy_checker_matches_parser policyIngress PoliciesAnnotation "a, other/b" "other" "b");
    vm_compute; reflexivity.
Defined.
