(* ===== verification/ProxyBuffersCorrect.v ===== *)
(** Properties of the proxy buffer settings of internal/validation/data_types.go:
    sizes survive printing and parsing, and balanced settings satisfy the rules
    of NGINX and are balanced already. *)
From S2P Require Import Prelude GoStrings Objects ProxyBuffers.

Local Open Scope Z_scope.

(** ** Printed numbers and sizes: digits, unit letters and the minus sign *)

Definition plainByte (c : Ascii.ascii) : bool :=
  isDigit c || ceqb c 107 || ceqb c 109 || ceqb c 103 || ceqb c 45.

Fixpoint plain (s : string) : bool :=
  match s with
  | EmptyString => true
  | String c s' => plainByte c && plain s'
  end.

(** What the string functions see of a plain byte. *)
Lemma plainByte_facts c : plainByte c = true →
  lowerByte c = c ∧ (128 <=? Ascii.nat_of_ascii c)%nat = false ∧
  existsb (ceqb c) [9; 10; 11; 12; 13; 32]%nat = false ∧
  Forall (λ n, ceqb c n = false) [128; 133; 154; 159; 160; 168; 169; 175; 194; 196; 225; 226; 227]%nat.
Proof.
  destruct c as [[] [] [] [] [] [] [] []]; vm_compute; intros H; try discriminate H;
    (split_and!; [reflexivity..|]); repeat constructor.
Qed.

Ltac plain_facts H :=
  let H' := fresh "Hplain" in
  pose proof (plainByte_facts _ H) as H'; rewrite !Forall_cons in H'; destruct_and! H'.

Lemma plain_app s t : plain (s +:+ t) = plain s && plain t.
Proof.
  induction s as [|c s IH]; [done|]. change (String c s +:+ t) with (String c (s +:+ t)).
  cbn [plain]. by rewrite IH, andb_assoc.
Qed.

Lemma spaceRune_plain c s : plainByte c = true → spaceRune (String c s) = 0%nat.
Proof.
  intros Hc. plain_facts Hc. unfold spaceRune.
  repeat match goal with H : _ = false |- _ => rewrite H; clear H end.
  destruct s as [|b [|b' s]]; reflexivity.
Qed.

Lemma spaceRuneRev_plain c s : plainByte c = true → spaceRuneRev (String c s) = 0%nat.
Proof.
  intros Hc. pose proof (spaceRune_plain c "" Hc) as Hrune1. plain_facts Hc.
  assert (∀ b, (spaceRune (String b (String c "")) =? 2)%nat = false) as Hrune2.
  { intros b. unfold spaceRune. case_match; [done|].
    repeat match goal with H : ceqb c _ = false |- _ => rewrite H; clear H end.
    by rewrite andb_false_r. }
  assert (∀ b b', (spaceRune (String b' (String b (String c ""))) =? 3)%nat = false) as Hrune3.
  { intros b b'. unfold spaceRune. case_match; [done|]. case_match; [done|].
    assert (existsb (ceqb c) [168; 169; 175]%nat = false) as ->.
    { cbn. by repeat match goal with H : ceqb c _ = false |- _ => rewrite H; clear H end. }
    repeat match goal with H : _ = false |- _ => rewrite H; clear H end.
    cbn [andb orb]. by rewrite !andb_false_r. }
  destruct s as [|b [|b' s]]; cbn [spaceRuneRev]; [done|by rewrite Hrune2|by rewrite Hrune3, Hrune2].
Qed.

Lemma revBytes_snoc s c : revBytes (s +:+ String c "") = String c (revBytes s).
Proof. by rewrite revBytes_app. Qed.

Lemma plain_snoc_inv s : plain s = true → s = "" ∨ ∃ t c, s = t +:+ String c "" ∧ plainByte c = true.
Proof.
  induction s as [|c s IH]; [by left|]. cbn. intros [Hc Hs]%andb_prop. right.
  destruct (IH Hs) as [->|(t & d & -> & Hd)]; [by exists "", c|]. by exists (String c t), d.
Qed.

Lemma TrimSpace_ends c s d :
  plainByte c = true → plainByte d = true →
  TrimSpace (String c s +:+ String d "") = String c s +:+ String d "".
Proof.
  intros Hc Hd. unfold TrimSpace, TrimLeftSpace. cbv zeta.
  change (String c s +:+ String d "") with (String c (s +:+ String d "")).
  cbn [trimLeftFuel String.length]. rewrite spaceRune_plain by done.
  change (String c (s +:+ String d "")) with (String c s +:+ String d "").
  rewrite revBytes_snoc. destruct (String.length _) eqn:Hl; [by destruct s|].
  cbn [trimRevFuel]. rewrite spaceRuneRev_plain by done.
  rewrite <- revBytes_snoc. apply revBytes_rev.
Qed.

Lemma ToLower_plain s : plain s = true → ToLower s = s.
Proof.
  induction s as [|c s IH]; [done|]. cbn [plain]. intros [Hc Hs]%andb_prop. specialize (IH Hs).
  plain_facts Hc. destruct s as [|b [|b' s]]; cbn [ToLower] in *.
  - congruence.
  - repeat match goal with H : ceqb c _ = false |- _ => rewrite H; clear H end.
    cbn [andb]. congruence.
  - repeat match goal with H : ceqb c _ = false |- _ => rewrite H; clear H end.
    cbn [andb]. congruence.
Qed.

Lemma lastByte_snoc s c : lastByte (s +:+ String c "") = Some c.
Proof.
  induction s as [|d s IH]; [done|].
  change (String d s +:+ String c "") with (String d (s +:+ String c "")).
  cbn [lastByte]. destruct (s +:+ String c "") eqn:Hs; [by destruct s|done].
Qed.

Lemma initBytes_snoc s c : initBytes (s +:+ String c "") = s.
Proof.
  induction s as [|d s IH]; [done|].
  change (String d s +:+ String c "") with (String d (s +:+ String c "")).
  cbn [initBytes]. destruct (s +:+ String c "") eqn:Hs; [by destruct s|]. by rewrite IH.
Qed.

(** ** Decimal numbers *)

Lemma digitChar_val d : 0 <= d < 10 → digitVal (digitChar d) = Some d ∧ plainByte (digitChar d) = true.
Proof.
  intros Hd. assert (d ∈ [0;1;2;3;4;5;6;7;8;9]) as Hin by (rewrite !elem_of_cons; lia).
  clear Hd. revert d Hin. apply Forall_forall. repeat constructor.
Qed.

(** [fmtDigits] puts the digits of [n] in front of [acc]. *)
Lemma fmtDigits_spec fuel n acc :
  0 <= n < 2 ^ Z.of_nat fuel → (0 < fuel)%nat →
  ∃ ds k, fmtDigits fuel n acc = ds +:+ acc ∧ ds ≠ "" ∧ plain ds = true ∧ 0 <= k ∧
    ∀ a t, parseDigits a (ds +:+ t) = parseDigits (a * 10 ^ k + n) t.
Proof.
  revert n acc. induction fuel as [|fuel IH]; intros n acc Hn Hf; [lia|]. cbn [fmtDigits].
  destruct (digitChar_val (n mod 10)) as [Hv Hp]; [apply Z.mod_pos_bound; lia|].
  rewrite Nat2Z.inj_succ, Z.pow_succ_r in Hn by lia.
  destruct (Z.ltb_spec n 10) as [Hlt|Hge].
  - exists (String (digitChar (n mod 10)) ""), 1. split; [done|]. split; [done|].
    split; [cbn [plain]; by rewrite Hp|]. split; [lia|]. intros a t.
    change (String (digitChar (n mod 10)) "" +:+ t) with (String (digitChar (n mod 10)) t).
    cbn [parseDigits]. rewrite Hv. cbn [mbind option_bind]. f_equal.
    rewrite Z.mod_small by lia. lia.
  - destruct (IH (n / 10) (String (digitChar (n mod 10)) acc)) as (ds & k & -> & Hne & Hpl & Hk & Hparse).
    { split; [apply Z.div_pos; lia|]. apply Z.div_lt_upper_bound; lia. }
    { destruct fuel; [simpl in Hn|]; lia. }
    exists (ds +:+ String (digitChar (n mod 10)) ""), (k + 1). split_and!; [|by destruct ds|..|lia|].
    + by rewrite string_app_assoc.
    + rewrite plain_app, Hpl. cbn [plain]. by rewrite Hp.
    + intros a t. rewrite string_app_assoc, Hparse.
      change (String (digitChar (n mod 10)) "" +:+ t) with (String (digitChar (n mod 10)) t).
      cbn [parseDigits]. rewrite Hv. cbn [mbind option_bind]. f_equal.
      rewrite Z.pow_add_r by lia. pose proof (Z.div_mod n 10). lia.
Qed.

Lemma fmtUint_spec n :
  0 <= n → ∃ c ds, fmtUint n = String c ds ∧ plainByte c = true ∧ plain ds = true ∧
    parseDigits 0 (fmtUint n) = Some n.
Proof.
  intros Hn. unfold fmtUint.
  destruct (fmtDigits_spec (S (Z.to_nat (Z.log2 n))) n "") as (ds & k & -> & Hne & Hp & Hk & Hparse); [|lia|].
  { split; [done|]. rewrite Nat2Z.inj_succ, Z2Nat.id by apply Z.log2_nonneg.
    destruct (decide (n = 0)) as [->|]; [simpl; lia|]. apply Z.log2_spec. lia. }
  destruct ds as [|c ds]; [done|]. cbn [plain] in Hp. apply andb_prop in Hp as [Hc Hds].
  exists c, ds. rewrite Hparse, string_app_nil_r. split_and!; try done.
Qed.

Lemma ParseUint_fmtUint n : 0 <= n < 2 ^ 64 → ParseUint (fmtUint n) = Some n.
Proof.
  intros Hn. destruct (fmtUint_spec n) as (c & ds & Heq & _ & _ & Hp); [lia|].
  unfold ParseUint. rewrite Heq in *. rewrite Hp. cbn [mbind option_bind].
  by rewrite (proj2 (Z.ltb_lt _ _)) by lia.
Qed.

(** ** Sizes *)

Definition unitOf (c : Ascii.ascii) : option Z :=
  if ceqb c 107 then Some 1024
  else if ceqb c 109 then Some (1024 * 1024)
  else if ceqb c 103 then Some (1024 * 1024 * 1024) else None.

(** Parsing a printed number with its unit *)
Lemma parseSizeToBytes_printed n c m :
  0 <= n < 2 ^ 64 → unitOf c = Some m → parseSizeToBytes (fmtUint n +:+ String c "") = u64_mul n m.
Proof.
  intros Hn Hu. destruct (fmtUint_spec n) as (d & ds & Heq & Hd & Hds & _); [lia|].
  assert (plainByte c = true) as Hc.
  { unfold unitOf in Hu. unfold plainByte. repeat case_match; simplify_eq; by rewrite ?orb_true_r. }
  unfold parseSizeToBytes. rewrite bool_decide_eq_false_2 by (by rewrite Heq). cbv zeta.
  assert (ToLower (TrimSpace (fmtUint n +:+ String c "")) = fmtUint n +:+ String c "") as ->.
  { rewrite Heq, TrimSpace_ends by done. apply ToLower_plain. rewrite plain_app. cbn [plain].
    by rewrite Hd, Hds, Hc. }
  rewrite lastByte_snoc, initBytes_snoc. unfold unitOf in Hu.
  repeat case_match; simplify_eq; by rewrite ParseUint_fmtUint in * by lia; simplify_eq.
Qed.

Lemma bytesToSizeString_printed n :
  0 <= n < 2 ^ 64 - 1023 →
  ∃ k c m, bytesToSizeString n = fmtUint k +:+ String c "" ∧ unitOf c = Some m ∧ 0 <= k < 2 ^ 64 ∧
    k * m = 1024 * ((n + 1023) / 1024).
Proof.
  intros Hn. unfold bytesToSizeString.
  destruct (Z.eqb_spec n 0) as [->|]; [by exists 0, (byte_at 107), 1024|].
  destruct (Z.eqb_spec (n mod (1024 * 1024 * 1024)) 0);
    [exists (n / (1024 * 1024 * 1024)), (byte_at 103), (1024 * 1024 * 1024); split_and!; try done; Z.div_mod_to_equations; lia|].
  destruct (Z.eqb_spec (n mod (1024 * 1024)) 0);
    [exists (n / (1024 * 1024)), (byte_at 109), (1024 * 1024); split_and!; try done; Z.div_mod_to_equations; lia|].
  destruct (Z.eqb_spec (n mod 1024) 0);
    [exists (n / 1024), (byte_at 107), 1024; split_and!; try done; Z.div_mod_to_equations; lia|].
  exists ((n + 1023) / 1024), (byte_at 107), 1024. unfold u64_add, u64.
  rewrite Z.mod_small by lia. split_and!; try done; Z.div_mod_to_equations; lia.
Qed.

(** Parsing what was printed gives the size rounded up to a kilobyte. *)
Lemma parse_bytesToSizeString n :
  0 <= n < 2 ^ 64 - 1023 →
  parseSizeToBytes (bytesToSizeString n) = 1024 * ((n + 1023) / 1024).
Proof.
  intros Hn. destruct (bytesToSizeString_printed n Hn) as (k & c & m & -> & Hm & Hk & Hkm).
  rewrite (parseSizeToBytes_printed k c m) by done. unfold u64_mul, u64. rewrite Hkm.
  apply Z.mod_small. Z.div_mod_to_equations; lia.
Qed.

Lemma parse_bytesToSizeString_exact n :
  0 <= n < 2 ^ 64 → n mod 1024 = 0 → parseSizeToBytes (bytesToSizeString n) = n.
Proof.
  intros Hn Hm. rewrite parse_bytesToSizeString; Z.div_mod_to_equations; lia.
Qed.

Lemma bytesToSizeString_plain n :
  0 <= n < 2 ^ 64 - 1023 →
  ∃ c s d, bytesToSizeString n = String c s +:+ String d "" ∧ plainByte c = true ∧ plain s = true ∧
    plainByte d = true.
Proof.
  intros Hn. destruct (bytesToSizeString_printed n Hn) as (k & d & m & -> & Hm & Hk & _).
  destruct (fmtUint_spec k) as (c & s & -> & Hc & Hs & _); [lia|]. exists c, s, d. split_and!; try done.
  unfold unitOf in Hm. unfold plainByte. repeat case_match; simplify_eq; by rewrite ?orb_true_r.
Qed.

(** ** Two fields *)

(** Printable ASCII bytes but the space *)
Definition visibleByte (c : Ascii.ascii) : bool :=
  (33 <=? Ascii.nat_of_ascii c)%nat && (Ascii.nat_of_ascii c <=? 126)%nat.
Definition visible (s : string) : bool := forallBytes visibleByte s.

Lemma spaceRune_visible c s : visibleByte c = true → spaceRune (String c s) = 0%nat.
Proof.
  intros Hc. destruct s as [|b [|b' s]]; revert Hc;
    destruct c as [[] [] [] [] [] [] [] []]; vm_compute; intros H; try discriminate H; reflexivity.
Qed.

Lemma plain_visible s : plain s = true → visible s = true.
Proof.
  unfold visible. induction s as [|c s IH]; [done|]. cbn [plain forallBytes]. intros [Hc Hs]%andb_prop.
  rewrite IH by done. rewrite andb_true_r. revert Hc.
  destruct c as [[] [] [] [] [] [] [] []]; vm_compute; intros H; try discriminate H; reflexivity.
Qed.

Lemma fieldsGo_visible fuel cur a t :
  visible a = true →
  fieldsGo (String.length a + fuel) cur (a +:+ t) = fieldsGo fuel (cur +:+ a) t.
Proof.
  unfold visible. revert cur. induction a as [|c a IH]; intros cur Hp.
  - by rewrite string_app_nil_r.
  - cbn [forallBytes] in Hp. apply andb_prop in Hp as [Hc Ha].
    change (String c a +:+ t) with (String c (a +:+ t)). cbn [String.length Nat.add fieldsGo].
    rewrite spaceRune_visible by done. rewrite IH by done. by rewrite string_app_assoc.
Qed.

Lemma fieldsGo_space fuel c a b :
  fieldsGo (S fuel) (String c a) (String (byte_at 32) b) = String c a :: fieldsGo fuel "" b.
Proof. by destruct b as [|? []]. Qed.

Lemma length_append s t : String.length (s +:+ t) = (String.length s + String.length t)%nat.
Proof.
  induction s as [|c s IH]; [done|]. change (String c s +:+ t) with (String c (s +:+ t)).
  cbn [String.length]. by rewrite IH.
Qed.

Lemma Fields_visible a b :
  visible a = true → visible b = true → a ≠ "" → b ≠ "" → Fields (a +:+ " " +:+ b) = [a; b].
Proof.
  intros Ha Hb Hna Hnb. unfold Fields.
  rewrite length_append, <- Nat.add_succ_r, fieldsGo_visible by done.
  change ("" +:+ a) with a. destruct a as [|ca a]; [done|].
  change (" " +:+ b) with (String (byte_at 32) b). rewrite fieldsGo_space. f_equal.
  cbn [String.length]. rewrite <- (Nat.add_1_r (String.length b)).
  rewrite <- (string_app_nil_r b) at 2. rewrite fieldsGo_visible by done.
  change ("" +:+ b) with b. by destruct b.
Qed.

Lemma Fields_two a b :
  plain a = true → plain b = true → a ≠ "" → b ≠ "" → Fields (a +:+ " " +:+ b) = [a; b].
Proof. intros Ha Hb. by apply Fields_visible; apply plain_visible. Qed.

Lemma parseProxyBuffers_printed n s :
  0 <= n < 2 ^ 64 → 0 <= s < 2 ^ 64 → s mod 1024 = 0 →
  parseProxyBuffers (fmtUint n +:+ " " +:+ bytesToSizeString s) = (n, s).
Proof.
  intros Hn Hs Hm. assert (s < 2 ^ 64 - 1023) as Hs' by (Z.div_mod_to_equations; lia).
  pose proof (ParseUint_fmtUint n Hn) as Hparse.
  destruct (fmtUint_spec n) as (c & ds & Heq & Hc & Hds & _); [lia|].
  pose proof (parse_bytesToSizeString_exact s Hs Hm) as Hsize.
  destruct (bytesToSizeString_plain s) as (c' & s' & d & Heq' & Hc' & Hs'' & Hd); [lia|].
  unfold parseProxyBuffers. rewrite bool_decide_eq_false_2 by (rewrite Heq; done).
  assert (TrimSpace (fmtUint n +:+ " " +:+ bytesToSizeString s) = fmtUint n +:+ " " +:+ bytesToSizeString s) as ->.
  { rewrite Heq, Heq'. 
    assert (String c ds +:+ " " +:+ String c' s' +:+ String d "" =
            String c (ds +:+ " " +:+ String c' s') +:+ String d "") as ->.
    { change (String c ds) with (String c "" +:+ ds). rewrite !string_app_assoc. 
      change (String c (ds +:+ " " +:+ String c' s')) with (String c "" +:+ (ds +:+ " " +:+ String c' s')).
      by rewrite !string_app_assoc. }
    by apply TrimSpace_ends. }
  rewrite Fields_two; [by rewrite Hparse, Hsize|..].
  - rewrite Heq. cbn [plain]. by rewrite Hc.
  - rewrite Heq', plain_app. cbn [plain]. by rewrite Hc', Hs'', Hd.
  - by rewrite Heq.
  - by rewrite Heq'.
Qed.

(** ** Balancing *)

(** A parsed size is a uint64 and a whole number of kilobytes. *)
Lemma parseSizeToBytes_range s :
  0 <= parseSizeToBytes s < 2 ^ 64 ∧ parseSizeToBytes s mod 1024 = 0.
Proof.
  assert (∀ k m, 0 <= u64_mul k (1024 * m) < 2 ^ 64 ∧ u64_mul k (1024 * m) mod 1024 = 0) as Hmul.
  { intros k m. unfold u64_mul, u64. split; [apply Z.mod_pos_bound; lia|].
    rewrite Z.mod_mod_divide by (by exists (2 ^ 54)).
    by rewrite Z.mul_comm, <- Z.mul_assoc, Z.mul_comm, Z_mod_mult. }
  unfold parseSizeToBytes. case_bool_decide; [done|]. cbv zeta.
  destruct (lastByte _); [|done].
  destruct (ceqb _ 107); [destruct (ParseUint _) as [k|]; [apply (Hmul k 1)|done]|].
  destruct (ceqb _ 109); [destruct (ParseUint _) as [k|]; [apply (Hmul k 1024)|done]|].
  destruct (ceqb _ 103); destruct (ParseUint _) as [k|];
    [apply (Hmul k (1024 * 1024))|done|apply (Hmul k 1024)|done].
Qed.

(** The rules of NGINX, as the comment of BalanceProxyValues lists them:
    [number] buffers of [size] bytes, proxy_buffer_size and
    proxy_busy_buffers_size. *)
Record nginxRules (number size bufferSize busySize : Z) : Prop := {
  nr_number : 2 <= number <= 1024;
  nr_busy_min : Z.max bufferSize size <= busySize;
  nr_busy_max : busySize <= number * size - size;
  nr_buffer_max : bufferSize <= number * size - size
}.

(** Sizes that BalanceProxyValues handles without overflow *)
Record sizesOk (size bufferSize busySize : Z) : Prop := {
  so_size : 0 <= size < 2 ^ 54 ∧ size mod 1024 = 0;
  so_buffer : 0 <= bufferSize ∧ bufferSize mod 1024 = 0;
  so_busy : 0 <= busySize ∧ busySize mod 1024 = 0
}.

Definition printed (number size bufferSize busySize : Z) (mods : list string)
    : string * string * string * list string :=
  (fmtUint number +:+ " " +:+ bytesToSizeString size, bytesToSizeString bufferSize,
   bytesToSizeString busySize, mods).

Lemma validateBufferConstraints_range n :
  2 <= (validateBufferConstraints n).1 <= 1024 ∧
  (2 <= n <= 1024 → validateBufferConstraints n = (n, [])).
Proof.
  unfold validateBufferConstraints, minNGINXBufferCount, maxNGINXBufferCount.
  destruct (Z.ltb_spec n 2); cbn; [split; [done|lia]|].
  destruct (Z.ltb_spec 1024 n); cbn; [split; [done|lia]|]. split; [lia|done].
Qed.

Lemma maxAllowed_exact n s :
  2 <= n <= 1024 → 0 <= s < 2 ^ 54 → u64_sub (u64_mul s n) s = n * s - s.
Proof.
  intros Hn Hs. unfold u64_sub, u64_mul, u64.
  rewrite (Z.mod_small (s * n)) by nia. rewrite Z.mod_small by nia. lia.
Qed.

Lemma applyBufferSizeConstraints_eq p b s m :
  (applyBufferSizeConstraints p b s m).1 =
  (Z.min p m, Z.max (Z.min b m) (Z.max s (Z.min p m))).
Proof.
  unfold applyBufferSizeConstraints.
  destruct (Z.ltb_spec m p), (Z.ltb_spec m b), (Z.ltb_spec s m), (Z.ltb_spec s p);
    repeat match goal with |- context [?x <? ?y] => destruct (Z.ltb_spec x y) end;
    cbn; f_equal; lia.
Qed.

Lemma mod_min a b k : a mod k = 0 → b mod k = 0 → Z.min a b mod k = 0.
Proof. intros. by destruct (Z.min_spec a b) as [[_ ->]|[_ ->]]. Qed.

Lemma mod_max a b k : a mod k = 0 → b mod k = 0 → Z.max a b mod k = 0.
Proof. intros. by destruct (Z.max_spec a b) as [[_ ->]|[_ ->]]. Qed.

Lemma applyBufferSizeConstraints_rules n s p0 b0 p b mods :
  2 <= n <= 1024 → sizesOk s p0 b0 →
  applyBufferSizeConstraints p0 b0 s (n * s - s) = (p, b, mods) →
  nginxRules n s p b ∧ sizesOk s p b.
Proof.
  intros Hn [[Hs Hsm] [Hp Hpm] [Hb Hbm]] Heq.
  pose proof (applyBufferSizeConstraints_eq p0 b0 s (n * s - s)) as Hx. rewrite Heq in Hx.
  cbn [fst] in Hx. injection Hx as -> ->.
  assert ((n * s - s) mod 1024 = 0) as Hmax.
  { replace (n * s - s) with ((n - 1) * s) by lia. by rewrite Z.mul_mod, Hsm, Z.mul_0_r by lia. }
  assert (s <= n * s - s) as Hle by nia. clear Heq.
  split; split; try done; revert Hmax Hle; generalize (n * s - s); intros m Hmax Hle; try lia;
    (split; [lia|]); auto using mod_min, mod_max.
Qed.

Lemma applyBufferSizeConstraints_fixed n s p b :
  nginxRules n s p b → applyBufferSizeConstraints p b s (n * s - s) = (p, b, []).
Proof.
  intros [Hn H1 H2 H3]. unfold applyBufferSizeConstraints.
  rewrite !(proj2 (Z.ltb_ge (n * s - s) _)) by lia.
  destruct (Z.ltb_spec s p); (rewrite (proj2 (Z.ltb_ge b _)) by lia); done.
Qed.

(** The sizes BalanceProxyValues starts from *)
Lemma parseBufferSizes_ok pbs busy s :
  0 <= s < 2 ^ 54 ∧ s mod 1024 = 0 →
  sizesOk s (parseBufferSizes pbs busy s).1 (parseBufferSizes pbs busy s).2.
Proof.
  intros Hs. unfold parseBufferSizes.
  pose proof (parseSizeToBytes_range pbs). pose proof (parseSizeToBytes_range busy).
  split; [done|..]; cbn; case_bool_decide; lia.
Qed.

Lemma parseProxyBuffers_size pb :
  0 <= (parseProxyBuffers pb).2 ∧ (parseProxyBuffers pb).2 mod 1024 = 0.
Proof.
  unfold parseProxyBuffers. case_bool_decide; [done|].
  destruct (Fields _) as [|p0 [|p1 []]]; try done. destruct (ParseUint p0); [|done].
  cbn. pose proof (parseSizeToBytes_range p1). lia.
Qed.

Lemma Balance_result pb pbs busy :
  ¬ (pb = "" ∧ pbs = "" ∧ busy = "") → (parseProxyBuffers pb).2 < 2 ^ 54 →
  ∃ n s p b mods, BalanceProxyValues pb pbs busy true = printed n s p b mods ∧
    nginxRules n s p b ∧ sizesOk s p b.
Proof.
  intros Hne Hlt. unfold BalanceProxyValues. cbn [negb].
  destruct (bool_decide (pb = "") && bool_decide (pbs = "") && bool_decide (busy = "")) eqn:He.
  { exfalso. apply Hne. rewrite !andb_true_iff, !bool_decide_eq_true in He. tauto. }
  pose proof (parseProxyBuffers_size pb) as Hs0.
  destruct (parseProxyBuffers pb) as [n0 s0]. cbn [fst snd] in *.
  assert (∃ n1 s, (if bool_decide (pb = "")
       && (negb (bool_decide (pbs = "")) || negb (bool_decide (busy = "")))
      then (minNGINXBufferCount, 4 * 1024) else (n0, s0)) = (n1, s) ∧
      0 <= s < 2 ^ 54 ∧ s mod 1024 = 0) as (n1 & s & -> & Hs).
  { case_match; eexists _, _; (split; [reflexivity|]); [done|lia]. }
  pose proof (validateBufferConstraints_range n1) as [Hn _].
  destruct (validateBufferConstraints n1) as [n mods1]. cbn [fst] in Hn.
  pose proof (parseBufferSizes_ok pbs busy s Hs) as Hok.
  destruct (parseBufferSizes pbs busy s) as [p0 b0]. cbn [fst snd] in Hok.
  rewrite maxAllowed_exact by (lia || tauto).
  destruct (applyBufferSizeConstraints p0 b0 s (n * s - s)) as [[p b] mods2] eqn:Happ.
  exists n, s, p, b, (mods1 ++ mods2). split; [done|].
  by apply (applyBufferSizeConstraints_rules n s p0 b0 p b mods2).
Qed.

Lemma Balance_fixed n s p b :
  nginxRules n s p b → sizesOk s p b →
  BalanceProxyValues (fmtUint n +:+ " " +:+ bytesToSizeString s) (bytesToSizeString p)
    (bytesToSizeString b) true = printed n s p b [].
Proof.
  intros Hr Hok. pose proof Hr as [Hn Hb1 Hb2 Hp]. pose proof Hok as [[Hs Hsm] [Hp0 Hpm] [Hb0 Hbm]].
  assert (n * s - s < 2 ^ 64) by nia.
  unfold BalanceProxyValues. cbn [negb].
  destruct (fmtUint_spec n) as (c & ds & Heq & _); [lia|].
  rewrite (bool_decide_eq_false_2 (fmtUint n +:+ " " +:+ bytesToSizeString s = "")) by (by rewrite Heq).
  cbn [andb]. rewrite parseProxyBuffers_printed by (lia || done).
  rewrite (proj2 (validateBufferConstraints_range n) Hn). unfold parseBufferSizes.
  destruct (bytesToSizeString_plain p) as (? & ? & ? & Heqp & _); [Z.div_mod_to_equations; lia|].
  destruct (bytesToSizeString_plain b) as (? & ? & ? & Heqb & _); [Z.div_mod_to_equations; lia|].
  rewrite (bool_decide_eq_false_2 (bytesToSizeString p = "")) by (by rewrite Heqp).
  rewrite (bool_decide_eq_false_2 (bytesToSizeString b = "")) by (by rewrite Heqb).
  rewrite !parse_bytesToSizeString_exact by (lia || done).
  rewrite maxAllowed_exact by lia. by rewrite applyBufferSizeConstraints_fixed.
Qed.

(** Sizes survive printing.  Below the last kilobyte of uint64, parsing a
    printed size gives the size rounded up to a kilobyte, exactly the size when
    it is a whole number of kilobytes; and a size parsed from any text prints
    to a text of the same size. *)
Theorem size_round_trip n s :
  0 <= n < 2 ^ 64 - 1023 →
  parseSizeToBytes (bytesToSizeString n) = 1024 * ((n + 1023) / 1024) ∧
  (n mod 1024 = 0 → parseSizeToBytes (bytesToSizeString n) = n) ∧
  parseSizeToBytes (bytesToSizeString (parseSizeToBytes s)) = parseSizeToBytes s.
Proof.
  intros Hn. split; [by apply parse_bytesToSizeString|]. split.
  - intros Hm. apply parse_bytesToSizeString_exact; [lia|done].
  - destruct (parseSizeToBytes_range s). by apply parse_bytesToSizeString_exact.
Qed.

Lemma size_round_trip_witness :
  parseSizeToBytes (bytesToSizeString 5000) = 1024 * ((5000 + 1023) / 1024) ∧
  (5000 mod 1024 = 0 → parseSizeToBytes (bytesToSizeString 5000) = 5000) ∧
  parseSizeToBytes (bytesToSizeString (parseSizeToBytes " 3G ")) = parseSizeToBytes " 3G ".
Proof. apply (size_round_trip 5000 " 3G "). lia. Defined.

(** C21.  Balanced settings.  With auto-adjust on, some setting given and
    buffers below 2^54 bytes, what BalanceProxyValues prints satisfies the
    rules of NGINX when it is read back: 2 to 1024 buffers,
    proxy_busy_buffers_size at least proxy_buffer_size and one buffer, and both
    at most all buffers but one. *)
Theorem balanced_values_obey_nginx pb pbs busy :
  ¬ (pb = "" ∧ pbs = "" ∧ busy = "") → (parseProxyBuffers pb).2 < 2 ^ 54 →
  let '(pb', pbs', busy', _) := BalanceProxyValues pb pbs busy true in
  let '(number, size) := parseProxyBuffers pb' in
  nginxRules number size (parseSizeToBytes pbs') (parseSizeToBytes busy').
Proof.
  intros Hne Hlt. destruct (Balance_result pb pbs busy Hne Hlt) as (n & s & p & b & mods & -> & Hr & Hok).
  pose proof Hr as [Hn Hb1 Hb2 Hp]. pose proof Hok as [[Hs Hsm] [Hp0 Hpm] [Hb0 Hbm]].
  assert (n * s - s < 2 ^ 64) by nia. unfold printed.
  rewrite parseProxyBuffers_printed by (lia || done).
  by rewrite !parse_bytesToSizeString_exact by (lia || done).
Qed.

Lemma balanced_values_obey_nginx_witness :
  BalanceProxyValues "1 8k" "64k" "4k" true =
    ("2 8k", "8k", "8k", ["adjusted proxy_buffers number from 1 to 2";
      "adjusted proxy_buffer_size because it was too large for proxy_buffers"]) ∧
  let '(pb', pbs', busy', _) := BalanceProxyValues "1 8k" "64k" "4k" true in
  let '(number, size) := parseProxyBuffers pb' in
  nginxRules number size (parseSizeToBytes pbs') (parseSizeToBytes busy').
Proof.
  split; [vm_compute; reflexivity|].
  apply (balanced_values_obey_nginx "1 8k" "64k" "4k"); [by intros [? _]|vm_compute; reflexivity].
Defined.

(** Balancing is idempotent: balanced settings are left as they are, and
    nothing is reported as modified. *)
Theorem balance_idempotent pb pbs busy pb' pbs' busy' mods :
  (parseProxyBuffers pb).2 < 2 ^ 54 →
  BalanceProxyValues pb pbs busy true = (pb', pbs', busy', mods) →
  BalanceProxyValues pb' pbs' busy' true = (pb', pbs', busy', []).
Proof.
  intros Hlt Heq. destruct (decide (pb = "" ∧ pbs = "" ∧ busy = "")) as [(-> & -> & ->)|Hne].
  { vm_compute in Heq. by injection Heq as <- <- <- <-. }
  destruct (Balance_result pb pbs busy Hne Hlt) as (n & s & p & b & ms & Hres & Hr & Hok).
  rewrite Hres in Heq. unfold printed in Heq. injection Heq as <- <- <- _. by apply Balance_fixed.
Qed.

Lemma balance_idempotent_witness :
  BalanceProxyValues "2 8k" "8k" "8k" true = ("2 8k", "8k", "8k", []).
Proof.
  apply (balance_idempotent "1 8k" "64k" "4k" "2 8k" "8k" "8k"
    ["adjusted proxy_buffers number from 1 to 2";
     "adjusted proxy_buffer_size because it was too large for proxy_buffers"]); vm_compute; reflexivity.
Defined.

(** Sizes wrap around.  A size printed with a unit parses to the product
    modulo 2^64; so balancing turns buffers of 2^54 kilobytes into buffers of 0
    bytes, and the sizes asked for beside them into 0 bytes too. *)
Theorem size_wraps_around n :
  0 <= n < 2 ^ 64 →
  parseSizeToBytes (fmtUint n +:+ "k") = (n * 1024) mod 2 ^ 64 ∧
  parseSizeToBytes (fmtUint n +:+ "m") = (n * (1024 * 1024)) mod 2 ^ 64 ∧
  parseSizeToBytes (fmtUint n +:+ "g") = (n * (1024 * 1024 * 1024)) mod 2 ^ 64 ∧
  BalanceProxyValues "8 18014398509481984k" "16k" "16k" true =
    ("8 0k", "0k", "0k", ["adjusted proxy_buffer_size because it was too large for proxy_buffers";
                          "adjusted proxy_busy_buffers_size because it was too large"]).
Proof.
  intros Hn. split_and!; [by apply parseSizeToBytes_printed..|]. vm_compute. reflexivity.
Qed.

Lemma size_wraps_around_witness : parseSizeToBytes (fmtUint (2 ^ 54 + 3) +:+ "k") = 3072.
Proof.
  destruct (size_wraps_around (2 ^ 54 + 3)) as [H _]; [lia|]. rewrite H. vm_compute. reflexivity.
Defined.

(** ** Upstreams *)

Lemma TrimSpace_nonempty c s : plainByte c = true → TrimSpace (String c s) ≠ "".
Proof.
  intros Hc. unfold TrimSpace, TrimLeftSpace. cbv zeta. cbn [trimLeftFuel String.length].
  rewrite spaceRune_plain by done.
  assert (∀ fuel t, ∃ t', trimRevFuel fuel (t +:+ String c "") = t' +:+ String c "") as Hkeep.
  { induction fuel as [|fuel IH]; intros t; cbn [trimRevFuel]; [by exists t|].
    destruct (spaceRuneRev (t +:+ String c "")) as [|k] eqn:Hk; [by exists t|].
    assert (∃ t', dropBytes (S k) (t +:+ String c "") = t' +:+ String c "") as [t' ->]; [|apply IH].
    pose proof (λ s, spaceRune_plain c s Hc) as Hz.
    destruct t as [|a [|b [|d t]]].
    - change ("" +:+ String c "") with (String c "") in Hk. by rewrite spaceRuneRev_plain in Hk.
    - change (String a "" +:+ String c "") with (String a (String c "")) in *.
      cbn [spaceRuneRev] in Hk. rewrite Hz in Hk. cbn [Nat.eqb] in Hk.
      unfold spaceRune in Hk. case_match; [|done]. injection Hk as <-. by exists "".
    - change (String a (String b "") +:+ String c "") with (String a (String b (String c ""))) in *.
      cbn [spaceRuneRev] in Hk. rewrite Hz in Hk. cbn [Nat.eqb] in Hk.
      case_match; [injection Hk as <-; by exists ""|].
      unfold spaceRune in Hk. case_match; [|done]. injection Hk as <-. by exists (String b "").
    - change (String a (String b (String d t)) +:+ String c "")
        with (String a (String b (String d (t +:+ String c "")))) in *.
      cbn [spaceRuneRev] in Hk. case_match; [injection Hk as <-; by exists t|].
      case_match; [injection Hk as <-; by exists (String d t)|].
      unfold spaceRune in Hk. case_match; [|done]. injection Hk as <-. by exists (String b (String d t)). }
  assert (revBytes (String c s) = revBytes s +:+ String c "") as ->.
  { rewrite <- (revBytes_rev (revBytes s +:+ String c "")). f_equal.
    by rewrite revBytes_snoc, revBytes_rev. }
  destruct (Hkeep (String.length (String c s)) (revBytes s)) as [t' ->]. by rewrite revBytes_snoc.
Qed.

Lemma ToLower_nonempty s : s ≠ "" → ToLower s ≠ "".
Proof. intros Hs. destruct s as [|a [|b [|c s]]]; cbn [ToLower]; [done|..]; by repeat case_match. Qed.

Lemma parseDigits_nonneg s a n : 0 <= a → parseDigits a s = Some n → 0 <= n.
Proof.
  revert a. induction s as [|c s IH]; intros a Ha; cbn [parseDigits]; [by intros [= <-]|].
  destruct (digitVal c) as [d|] eqn:Hd; [|done]. cbn [mbind option_bind]. apply IH.
  unfold digitVal in Hd. cbv zeta in Hd. destruct (_ && _) eqn:Hr; [|done]. injection Hd as <-.
  apply andb_prop in Hr as [?%Z.leb_le _]. lia.
Qed.

Lemma newNumberSizeConfig_nonempty n size :
  default "8 4k" (newNumberSizeConfig (fmtInt n +:+ " " +:+ size) true) ≠ "".
Proof.
  assert (∃ c t, fmtInt n +:+ " " +:+ size = String c t ∧ plainByte c = true) as (c & t & -> & Hc).
  { unfold fmtInt. destruct (Z.ltb_spec n 0).
    - by eexists _, _.
    - destruct (fmtUint_spec n) as (c & ds & -> & Hc & _); [done|]. by eexists _, _. }
  unfold newNumberSizeConfig. cbv zeta.
  rewrite bool_decide_eq_false_2 by (by apply ToLower_nonempty, TrimSpace_nonempty).
  destruct (Fields _) as [|p0 [|p1 []]]; try done.
  destruct (ParseUint p0) as [k|] eqn:Hp; [|done]. cbn [mbind option_bind].
  destruct (NewSizeWithUnit p1 true) as [sz|]; [|done]. cbn [mbind option_bind negb default].
  assert (0 <= k) as Hk.
  { unfold ParseUint in Hp. destruct p0; [done|]. revert Hp. generalize (String a p0). intros s Hp.
    destruct (parseDigits 0 s) as [m|] eqn:Hm; [|done]. cbn [mbind option_bind] in Hp.
    case_match; [|done]. injection Hp as <-. eapply parseDigits_nonneg; [|done]. done. }
  destruct (fmtUint_spec k Hk) as (d & ds & -> & _). done.
Qed.

Lemma Atoi_fmtUint n : 0 <= n < 2 ^ 63 → Atoi (fmtUint n) = Some n.
Proof.
  intros Hn. destruct (fmtUint_spec n) as (c & ds & Heq & _ & _ & Hp); [lia|].
  assert (ceqb c 45 = false ∧ ceqb c 43 = false) as [H1 H2].
  { rewrite Heq in Hp. cbn [parseDigits] in Hp. destruct (digitVal c) as [d|] eqn:Hd; [|done].
    clear -Hd. revert Hd. destruct c as [[] [] [] [] [] [] [] []]; vm_compute; intros; done. }
  unfold Atoi. rewrite Heq in *. rewrite H1, H2, Hp. cbn [mbind option_bind].
  by rewrite (proj2 (Z.ltb_lt _ _)) by lia.
Qed.

(** Upstreams.  With auto-adjust on, the buffers an upstream ends up with
    satisfy the rules of NGINX, whatever its number, size, proxy_buffer_size
    and proxy_busy_buffers_size were, as long as the size of a buffer is below
    2^54 bytes; an upstream without buffers is left alone. *)
Theorem balanced_upstream_obeys_nginx u :
  match u_ProxyBuffers u with
  | None => BalanceProxiesForUpstreams u true = u
  | Some b =>
      (parseProxyBuffers (default "8 4k"
         (newNumberSizeConfig (fmtInt (ub_Number b) +:+ " " +:+ ub_Size b) true))).2 < 2 ^ 54 →
      ∃ b', u_ProxyBuffers (BalanceProxiesForUpstreams u true) = Some b' ∧
        nginxRules (ub_Number b') (parseSizeToBytes (ub_Size b'))
          (parseSizeToBytes (u_ProxyBufferSize (BalanceProxiesForUpstreams u true)))
          (parseSizeToBytes (u_ProxyBusyBuffersSize (BalanceProxiesForUpstreams u true)))
  end.
Proof.
  unfold BalanceProxiesForUpstreams. destruct (u_ProxyBuffers u) as [buf|]; [|done]. intros Hlt.
  cbn [negb]. cbv zeta. pose proof (newNumberSizeConfig_nonempty (ub_Number buf) (ub_Size buf)) as Hne.
  revert Hlt Hne. generalize (default "8 4k"
    (newNumberSizeConfig (fmtInt (ub_Number buf) +:+ " " +:+ ub_Size buf) true)).
  generalize (default "4k" (NewSizeWithUnit (u_ProxyBufferSize u) true)).
  generalize (default "4k" (NewSizeWithUnit (u_ProxyBusyBuffersSize u) true)).
  intros busy pbs pb Hlt Hne.
  destruct (Balance_result pb pbs busy) as (n & s & p & b & mods & -> & Hr & Hok); [tauto|done|].
  unfold printed. cbn [setProxies u_ProxyBuffers u_ProxyBufferSize u_ProxyBusyBuffersSize].
  eexists. split; [reflexivity|].
  pose proof Hr as [Hn Hb1 Hb2 Hp]. pose proof Hok as [[Hs Hsm] [Hp0 Hpm] [Hb0 Hbm]].
  assert (n * s - s < 2 ^ 64) by nia.
  destruct (fmtUint_spec n) as (c & ds & Heq & Hc & Hds & _); [lia|].
  destruct (bytesToSizeString_plain s) as (c' & s' & d & Heq' & Hc' & Hs' & Hd); [lia|].
  rewrite bool_decide_eq_false_2 by (by rewrite Heq).
  rewrite Fields_two.
  - rewrite Atoi_fmtUint by lia. cbn [ub_Number ub_Size]. rewrite Z.min_l by lia.
    by rewrite !parse_bytesToSizeString_exact by (lia || done).
  - rewrite Heq. cbn [plain]. by rewrite Hc.
  - rewrite Heq', plain_app. cbn [plain]. by rewrite Hc', Hs', Hd.
  - by rewrite Heq.
  - by rewrite Heq'.
Qed.
