(* ===== verification/IngressValidationCorrect.v ===== *)
(** Properties of the Ingress validator: what an accepted Ingress is promised to
    be, and what its paths cannot contain. *)
From S2P Require Import Prelude GoStrings Objects ProxyBuffers Resources ConfigState.
From S2P Require Import Regex ValidationLib CommonValidation IngressValidation.
From S2P Require Import Minions VSRoutes Hosts Changes.
From S2P Require Import Problems Configuration HostRebuild ListenerRebuild Operations Scenario.

(** ** Segments of a path *)

(** [w] occurs in [s] with a separator, or the end of [s], on either side *)
Definition segment (w s : string) : Prop :=
  ∃ a b, s = a +:+ w +:+ b ∧
    (a = "" ∨ ∃ a' c, a = a' +:+ String c "" ∧ isSegmentSep c = true) ∧
    (b = "" ∨ ∃ b' c, b = String c b' ∧ isSegmentSep c = true).

(** The pieces of [splitSegments] in order, with the separators between them *)
Lemma splitSegments_nonempty s : splitSegments s ≠ [].
Proof. destruct s; simpl; [done|]. by repeat case_match. Qed.

Lemma splitSegments_app_sep a c b :
  isSegmentSep c = true →
  splitSegments (a +:+ String c b) = splitSegments a ++ splitSegments b.
Proof.
  intros Hc. induction a as [|d a IH].
  - change ("" +:+ String c b) with (String c b). cbn [splitSegments]. by rewrite Hc.
  - change (String d a +:+ String c b) with (String d (a +:+ String c b)). cbn [splitSegments].
    rewrite IH. destruct (isSegmentSep d); [done|].
    destruct (splitSegments a) eqn:Ha; [by apply splitSegments_nonempty in Ha|done].
Qed.

Lemma splitSegments_plain w : forallBytes (λ c, negb (isSegmentSep c)) w = true → splitSegments w = [w].
Proof.
  induction w as [|c w IH]; simpl; [done|]. intros [Hc Hw]%andb_prop.
  apply negb_true_iff in Hc. by rewrite Hc, IH.
Qed.

Lemma segment_splitSegments w s :
  forallBytes (λ c, negb (isSegmentSep c)) w = true → segment w s → w ∈ splitSegments s.
Proof.
  intros Hw (a & b & -> & Ha & Hb).
  assert (w ∈ splitSegments (w +:+ b)) as Hin.
  { destruct Hb as [->|(b' & c & -> & Hc)].
    - rewrite string_app_nil_r, splitSegments_plain by done. set_solver.
    - rewrite splitSegments_app_sep, splitSegments_plain by done. set_solver. }
  destruct Ha as [->|(a' & c & -> & Hc)]; [done|].
  rewrite string_app_assoc. change (String c "" +:+ w +:+ b) with (String c (w +:+ b)).
  rewrite splitSegments_app_sep by done. set_solver.
Qed.

(** Every double quote is escaped: reading the text as NGINX reads a quoted
    string, byte after byte with a backslash escaping the next byte, never
    reaches the closing quote. *)
Fixpoint quoteCloses (s : string) : bool :=
  match s with
  | EmptyString => false
  | String c s' =>
      if ceqb c 34 then true
      else if ceqb c 92 then match s' with EmptyString => false | String _ s'' => quoteCloses s'' end
      else quoteCloses s'
  end.

Lemma escapedString_quote s : escapedString s = true → quoteCloses s = false.
Proof.
  remember (String.length s) as n eqn:Hn. revert s Hn.
  induction n as [n IH] using lt_wf_ind. intros s ->.
  destruct s as [|c s]; [done|]. cbn [escapedString quoteCloses].
  destruct (ceqb c 34); [done|]. destruct (ceqb c 92).
  - destruct s as [|d s]; [done|]. intros [_ Hs]%andb_prop. eapply (IH (String.length s)); [|done|done].
    simpl. lia.
  - intros Hs. eapply (IH (String.length s)); [|done|done]. simpl. lia.
Qed.

Section Validator.
Context `{P : IngressValidatorParams}.

Lemma existsb_false_notin {A} (f : A → bool) l x : existsb f l = false → x ∈ l → f x = false.
Proof.
  intros He Hx. apply not_true_is_false. intros Hf. apply not_true_iff_false in He.
  apply He, existsb_exists. exists x. split; [by apply list_elem_of_In|done].
Qed.

Lemma validatePath_accepts path pathType fieldPath :
  validatePath path pathType fieldPath = [] → path ≠ "" →
  HasPrefix path "//" = false ∧
  existsb (λ seg, bool_decide (seg = "..")) (pathSegments path) = false ∧
  pathRegexp_MatchString path = true ∧ allPrintable path = true ∧ escapedString path = true ∧
  illegalKeyword path = false.
Proof.
  unfold validatePath. intros Hv Hne. rewrite (bool_decide_eq_false_2 _ Hne) in Hv. cbn [andb] in Hv.
  destruct (HasPrefix path "//"); [done|]. destruct (existsb _ _); [done|].
  destruct (pathRegexp_MatchString path); [|done]. destruct (allPrintable path); [|done].
  cbn [negb] in Hv. apply app_eq_nil in Hv as [Hr Hv]. apply app_eq_nil in Hv as [_ Hk].
  unfold validateRegexPath, ValidateEscapedString in Hr. unfold validateIllegalKeywords in Hk.
  destruct (regexp2_Compile path); [done|]. rewrite escapedString_regexp in Hr.
  destruct (escapedString path); [|done].
  by destruct (illegalKeyword path).
Qed.

(** C23.  Accepted paths.  A path that the validator accepts is empty (only with
    the path type ImplementationSpecific), or starts with one slash and not
    two, has no white space and no semicolon, has no segment [..] between
    slashes or backslashes, cannot close a quoted NGINX string it is written
    into, and does not point into /etc/, /root or /var. *)
Theorem accepted_path_safe path pathType fieldPath :
  validatePath path pathType fieldPath = [] →
  (path = "" ∧ pathType = Some "ImplementationSpecific") ∨
  (∃ rest, path = String slash rest ∧ HasPrefix rest "/" = false ∧
   (∀ c, containsByte c rest = true → isRegexpSpace c = false ∧ c ≠ byte_at 59) ∧
   ¬ segment ".." path ∧ quoteCloses path = false ∧
   HasPrefix path "/etc/" = false ∧ HasPrefix path "/root/" = false ∧ path ≠ "/root" ∧
   HasPrefix path "/var/" = false ∧ path ≠ "/var").
Proof.
  intros Hv. destruct (decide (path = "")) as [->|Hne].
  { left. split; [done|]. unfold validatePath in Hv. case_bool_decide; [|done]. cbn in Hv.
    by case_bool_decide. }
  right. destruct (validatePath_accepts _ _ _ Hv Hne) as (Hpp & Hseg & Hre & _ & Hesc & Hill).
  destruct path as [|c rest]; [done|]. cbn [pathRegexp_MatchString] in Hre.
  apply andb_prop in Hre as [Hc Hrest].
  assert (c = slash) as ->.
  { clear -Hc. destruct c as [[] [] [] [] [] [] [] []]; vm_compute in Hc; try discriminate Hc. reflexivity. }
  exists rest. unfold illegalKeyword in Hill. rewrite !orb_false_iff in Hill.
  destruct Hill as ((((((H1 & H2) & H3) & H4) & H5) & _) & _).
  apply bool_decide_eq_false in H3, H5. split_and!; try done.
  - intros d Hd. pose proof (proj1 (forallBytes_spec _ _) Hrest d Hd) as Hx. cbn beta in Hx.
    apply andb_prop in Hx as [?%negb_true_iff Hs%negb_true_iff]. split; [done|]. by intros ->.
  - intros Hs. apply segment_splitSegments in Hs; [|done].
    assert (".." ∈ pathSegments (String slash rest)) as Hin.
    { unfold pathSegments. apply list_elem_of_filter. done. }
    pose proof (existsb_false_notin _ _ _ Hseg Hin) as Hx. cbn beta in Hx.
    by apply bool_decide_eq_false in Hx.
  - by apply escapedString_quote.
Qed.

(** C24.  Accepted Ingresses.  An Ingress without validation errors has the
    shape the configuration relies on: at least one rule, distinct hosts, for a
    minion one rule with paths, for a challenge Ingress one path with a service,
    and a service behind every backend. *)
Theorem accepted_ingress_well_formed fl ing :
  validateIngressErrors fl ing = [] →
  ing_Rules ing ≠ [] ∧ NoDup (ir_Host <$> ing_Rules ing) ∧
  (isMinion ing = true → ∃ r ps, ing_Rules ing = [r] ∧ ir_HTTP r = Some ps ∧ ps ≠ []) ∧
  (isChallengeIngress ing = true → ∃ r p svc, ing_Rules ing = [r] ∧ ir_HTTP r = Some [p] ∧
     ib_Service (ip_Backend p) = Some svc) ∧
  (∀ b, ing_DefaultBackend ing = Some b → ib_Service b ≠ None) ∧
  (∀ r ps p, r ∈ ing_Rules ing → ir_HTTP r = Some ps → p ∈ ps → ib_Service (ip_Backend p) ≠ None).
Proof. intros Hv. apply validateIngressErrors_wf in Hv as []. by split_and!. Qed.
End Validator.

Lemma accepted_path_safe_witness :
  ∃ rest, "/coffee" = String slash rest ∧ ¬ segment ".." "/coffee" ∧ quoteCloses "/coffee" = false.
Proof.
  destruct (accepted_path_safe "/coffee" (Some "Prefix") "path") as [[? _]|(rest & ? & _ & _ & ? & ? & _)];
    [vm_compute; reflexivity|discriminate|]. by exists rest.
Defined.

Lemma accepted_ingress_well_formed_witness :
  NoDup (ir_Host <$> ing_Rules (sampleIngress "a" "u1" 5 ["x.com"; "y.com"])).
Proof.
  destruct (accepted_ingress_well_formed sampleFlags (sampleIngress "a" "u1" 5 ["x.com"; "y.com"]))
    as (_ & H & _); [vm_compute; reflexivity|exact H].
Defined.
