(* ===== verification/TokenizerCorrect.v ===== *)
(** Properties of the NGINX configuration tokenizer: printing and tokenizing is
    the identity, and a quoted value never becomes syntax. *)
From S2P Require Import Prelude GoStrings Tokenizer.

(** ** Printing *)

(** A value between double quotes, with quotes and backslashes escaped *)
Fixpoint escapeBytes (v : string) : string :=
  match v with
  | EmptyString => ""
  | String c v' =>
      if (c =c chQuote) || (c =c chBackslash) then String chBackslash (String c (escapeBytes v'))
      else String c (escapeBytes v')
  end.
Definition quoteWord (v : string) : string := String chQuote (escapeBytes v +:+ String chQuote "").

Fixpoint printWords (ws : list string) : string :=
  match ws with
  | [] => ""
  | w :: ws' => quoteWord w +:+ " " +:+ printWords ws'
  end.

(** A configuration: directives and blocks *)
Inductive conf :=
  | CNil
  | CDirective (words : list string) (rest : conf)
  | CBlock (words : list string) (body rest : conf).

Fixpoint printConf (c : conf) : string :=
  match c with
  | CNil => ""
  | CDirective ws rest => printWords ws +:+ String chSemi (printConf rest)
  | CBlock ws body rest =>
      printWords ws +:+ String chOpen (printConf body +:+ String chClose (printConf rest))
  end.

(** The statements of a configuration at a depth *)
Fixpoint flatten (d : Z) (c : conf) : list Statement :=
  match c with
  | CNil => []
  | CDirective ws rest => {| st_depth := d; st_words := ws |} :: flatten d rest
  | CBlock ws body rest =>
      {| st_depth := d; st_words := ws ++ ["{"] |} :: flatten (d + 1) body ++
      {| st_depth := d; st_words := ["}"] |} :: flatten d rest
  end.

Fixpoint wf_conf (c : conf) : Prop :=
  match c with
  | CNil => True
  | CDirective ws rest => ws ≠ [] ∧ wf_conf rest
  | CBlock ws body rest => ws ≠ [] ∧ wf_conf body ∧ wf_conf rest
  end.

(** ** Feeding *)

Lemma feed_app z a b :
  feed z (a +:+ b) = match feed z a with inl e => inl e | inr z' => feed z' b end.
Proof.
  revert z. induction a as [|c a IH]; intros z; [done|]. simpl. destruct (next z c); [done|]. apply IH.
Qed.

Lemma feed_step z c b z' : next z c = inr z' → feed z (String c b) = feed z' b.
Proof. simpl. by intros ->. Qed.

(** Inside a double-quoted value *)
Definition quoting (st : list Statement) (ws : list string) (d : Z) (token : string) : confTokenizer :=
  {| tk_statements := st; tk_words := ws; tk_token := token; tk_depth := d; tk_inToken := true;
     tk_quote := Some chQuote; tk_escaped := false; tk_needSpace := false; tk_comment := false;
     tk_variable := false |}.

(** After its closing quote *)
Definition quoted (st : list Statement) (ws : list string) (d : Z) (token : string) : confTokenizer :=
  {| tk_statements := st; tk_words := ws; tk_token := token; tk_depth := d; tk_inToken := true;
     tk_quote := None; tk_escaped := false; tk_needSpace := true; tk_comment := false; tk_variable := false |}.

(** At the start of a token *)
Definition ready (st : list Statement) (ws : list string) (d : Z) : confTokenizer :=
  {| tk_statements := st; tk_words := ws; tk_token := ""; tk_depth := d; tk_inToken := false;
     tk_quote := None; tk_escaped := false; tk_needSpace := false; tk_comment := false; tk_variable := false |}.

Lemma next_in_quote st ws d t c :
  (c =c chQuote) = false → (c =c chBackslash) = false →
  next (quoting st ws d t) c = inr (quoting st ws d (t +:+ String c "")).
Proof. intros Hq Hb. unfold next. simpl. unfold inQuote. by rewrite Hb, Hq. Qed.

Lemma feed_escaped st ws d t v :
  feed (quoting st ws d t) (escapeBytes v) = inr (quoting st ws d (t +:+ v)).
Proof.
  revert t. induction v as [|c v IH]; intros t; [by rewrite string_app_nil_r|]. cbn [escapeBytes].
  assert (t +:+ String c v = (t +:+ String c "") +:+ v) as -> by (by rewrite string_app_assoc).
  destruct ((c =c chQuote) || (c =c chBackslash)) eqn:Hc.
  - rewrite (feed_step _ _ _ (set_escaped (quoting st ws d t) true)) by done.
    rewrite (feed_step _ _ _ (quoting st ws d (t +:+ String c ""))); [apply IH|].
    unfold next. simpl. unfold writeEscaped. apply orb_true_iff in Hc as [Hc|Hc]; rewrite Hc, ?orb_true_r; done.
  - apply orb_false_iff in Hc as [Hq Hb]. erewrite feed_step by (by apply next_in_quote). apply IH.
Qed.

(** From the start of a token a quoted value is read as it is. *)
Definition tokenStart (z : confTokenizer) : Prop :=
  tk_token z = "" ∧ tk_inToken z = false ∧ tk_quote z = None ∧ tk_escaped z = false ∧
  tk_needSpace z = false ∧ tk_comment z = false.

Lemma feed_quoteWord z v :
  tokenStart z → feed z (quoteWord v) = inr (quoted (tk_statements z) (tk_words z) (tk_depth z) v).
Proof.
  destruct z as [st ws t d it q e ns cm vr]. intros (Ht & Hi & Hq & He & Hn & Hc). cbn in Ht, Hi, Hq, He, Hn, Hc. subst.
  cbn [tk_statements tk_words tk_depth].
  unfold quoteWord. rewrite (feed_step _ _ _ (quoting st ws d "")) by done.
  by rewrite feed_app, feed_escaped.
Qed.

Lemma ready_start st ws d : tokenStart (ready st ws d).
Proof. by repeat split. Qed.

Lemma feed_printWords st ws d l :
  feed (ready st ws d) (printWords l) = inr (ready st (ws ++ l) d).
Proof.
  revert ws. induction l as [|w l IH]; intros ws; [by rewrite app_nil_r|]. cbn [printWords].
  rewrite feed_app, feed_quoteWord by apply ready_start. cbn [tk_statements tk_words tk_depth ready].
  change (" " +:+ printWords l) with (String chSpace (printWords l)). 
  rewrite (feed_step _ _ _ (ready st (ws ++ [w]) d)) by done.
  by rewrite IH, <- app_assoc.
Qed.

(** ** Round trip *)

Lemma feed_printConf c st d :
  wf_conf c → (0 ≤ d)%Z → feed (ready st [] d) (printConf c) = inr (ready (st ++ flatten d c) [] d).
Proof.
  revert st d. induction c as [|ws rest IH|ws body IHb rest IH]; intros st d Hwf Hd; cbn [printConf flatten].
  - by rewrite app_nil_r.
  - destruct Hwf as [Hws Hwf]. rewrite feed_app, feed_printWords. cbn [app].
    rewrite (feed_step _ _ _ (ready (st ++ [{| st_depth := d; st_words := ws |}]) [] d)) by (by destruct ws).
    rewrite IH by done. by rewrite <- app_assoc.
  - destruct Hwf as (Hws & Hb & Hr). rewrite feed_app, feed_printWords. cbn [app].
    rewrite (feed_step _ _ _ (ready (st ++ [{| st_depth := d; st_words := ws ++ ["{"] |}]) [] (d + 1)))
      by (by destruct ws).
    rewrite feed_app, IHb by (done || lia). set (st' := (st ++ _) ++ _).
    rewrite (feed_step _ _ _ (ready (st' ++ [{| st_depth := d; st_words := ["}"] |}]) [] d)).
    2:
    { change (next (ready st' [] (d + 1)) chClose) with (closeBlock (ready st' [] (d + 1))).
      unfold closeBlock. cbn [flushToken tk_inToken ready tk_words tk_depth].
      replace (d + 1 - 1)%Z with d by lia. by rewrite (proj2 (Z.ltb_ge d 0)). }
    rewrite IH by done. unfold st'. by rewrite <- !app_assoc.
Qed.

(** C31.  Tokenizing a printed configuration gives back its statements, with the
    words byte for byte, whatever bytes they hold, and the depths of the blocks. *)
Theorem tokenize_print_round_trip c :
  wf_conf c → Tokenize (printConf c) = inr (flatten 0 c).
Proof.
  intros Hwf. unfold Tokenize. change newTokenizer with (ready [] [] 0). by rewrite feed_printConf.
Qed.

Lemma tokenize_print_round_trip_witness :
  Tokenize (printConf (CBlock ["location"; "/a;{}\$"] (CDirective ["return"; "}"] CNil) CNil)) =
  inr (flatten 0 (CBlock ["location"; "/a;{}\$"] (CDirective ["return"; "}"] CNil) CNil)).
Proof. apply tokenize_print_round_trip. by split. Defined.

(** ** Values as data

    Two runs that differ in the bytes of one quoted argument stay in step. *)

(** Shape looks at whether a word is an open brace. *)
Definition sameBrace (v w : string) : Prop := v = "{" ↔ w = "{".

(** Words that Shape does not tell apart *)
Definition sameWords (l k : list string) : Prop := head l = head k ∧ Forall2 sameBrace l k.

Definition sameStatement (s t : Statement) : Prop :=
  st_depth s = st_depth t ∧ sameWords (st_words s) (st_words t).

Record inStep (z1 z2 : confTokenizer) : Prop := {
  step_flags : z2 = set_text z1 (tk_statements z2) (tk_words z2) (tk_token z2) (tk_depth z1);
  step_statements : Forall2 sameStatement (tk_statements z1) (tk_statements z2);
  step_words : sameWords (tk_words z1) (tk_words z2);
  step_token : tk_token z1 = tk_token z2 ∨
    tk_words z1 ≠ [] ∧ sameBrace (tk_token z1) (tk_token z2) ∧ tk_needSpace z1 = true ∧ tk_inToken z1 = true ∧
    tk_quote z1 = None ∧ tk_escaped z1 = false ∧ tk_comment z1 = false
}.

(** The same between a closing quote and the end of its token *)
Record loose (z1 z2 : confTokenizer) : Prop := {
  loose_flags : z2 = set_text z1 (tk_statements z2) (tk_words z2) (tk_token z2) (tk_depth z1);
  loose_statements : Forall2 sameStatement (tk_statements z1) (tk_statements z2);
  loose_words : sameWords (tk_words z1) (tk_words z2);
  loose_token : tk_token z1 = tk_token z2 ∨
    tk_words z1 ≠ [] ∧ sameBrace (tk_token z1) (tk_token z2) ∧ tk_inToken z1 = true
}.

Lemma inStep_loose z1 z2 : inStep z1 z2 → loose z1 z2.
Proof. intros [Hf Hs Hw Ht]. split; [done..|]. destruct Ht as [Ht|(? & ? & _ & ? & _)]; auto. Qed.

Definition inStepResult (r1 r2 : tokenError + confTokenizer) : Prop :=
  match r1, r2 with
  | inl e1, inl e2 => e1 = e2
  | inr z1, inr z2 => inStep z1 z2
  | _, _ => False
  end.

Lemma sameWords_nil l k : sameWords l k → l = [] ↔ k = [].
Proof. intros [_ H]. by inversion H. Qed.

Lemma sameWords_snoc l k v w :
  sameWords l k → sameBrace v w → v = w ∨ l ≠ [] → sameWords (l ++ [v]) (k ++ [w]).
Proof.
  intros [Hh Hf] Hb Hvw. split; [|by apply Forall2_app; [|constructor]].
  inversion Hf; subst; [|done]. destruct Hvw as [->|?]; done.
Qed.

Lemma sameWords_refl l : sameWords l l.
Proof. split; [done|]. induction l; by constructor. Qed.

Lemma sameStatements_refl l : Forall2 sameStatement l l.
Proof. induction l; constructor; [|done]. split; [done|apply sameWords_refl]. Qed.

Lemma flushToken_inStep z1 z2 : loose z1 z2 → inStep (flushToken z1) (flushToken z2).
Proof.
  intros [Hf Hs Hw Ht]. unfold flushToken. rewrite Hf. simpl. destruct (tk_inToken z1) eqn:Hi.
  - split; simpl; [done|done| |by left].
    apply sameWords_snoc; [done|destruct Ht as [->|Ht]; [done|apply Ht]|]. destruct Ht as [->|Ht]; [by left|right; apply Ht].
  - destruct Ht as [Ht|(_ & _ & ?)]; [|congruence]. split; simpl; auto.
Qed.

Lemma flushToken_token z1 z2 : loose z1 z2 → tk_token (flushToken z1) = tk_token (flushToken z2).
Proof.
  intros [Hf _ _ Ht]. unfold flushToken. rewrite Hf. simpl. destruct (tk_inToken z1) eqn:Hi; [done|]. simpl.
  destruct Ht as [Ht|(_ & _ & ?)]; [done|congruence].
Qed.

(** Statements are added on both sides. *)
Lemma addStatement_inStep z1 z2 s1 s2 d :
  inStep z1 z2 → tk_token z1 = tk_token z2 → sameStatement s1 s2 →
  inStep (set_text z1 (tk_statements z1 ++ [s1]) [] (tk_token z1) d)
         (set_text z2 (tk_statements z2 ++ [s2]) [] (tk_token z2) d).
Proof.
  intros [Hf Hs Hw _] Ht Hst. split; simpl.
  - rewrite Hf. done.
  - by apply Forall2_app; [|constructor].
  - done.
  - by left.
Qed.

Lemma sameWords_braces l k x : sameWords l k → l ≠ [] → sameWords (l ++ [x]) (k ++ [x]).
Proof. intros H Hl. apply sameWords_snoc; [done|done|by right]. Qed.

Lemma flushStatement_inStep z1 z2 : loose z1 z2 → inStepResult (flushStatement z1) (flushStatement z2).
Proof.
  intros H. unfold flushStatement. pose proof (flushToken_token z1 z2 H) as Ht. apply flushToken_inStep in H.
  pose proof (step_words _ _ H) as Hw. pose proof (f_equal tk_depth (step_flags _ _ H)) as Hd. simpl in Hd. rewrite Hd.
  destruct (tk_words (flushToken z1)) as [|a l] eqn:E1, (tk_words (flushToken z2)) as [|b k] eqn:E2;
    try (destruct Hw as [_ Hw]; by inversion Hw).
  apply addStatement_inStep; [done|done|]. by split.
Qed.

Lemma openBlock_inStep z1 z2 : loose z1 z2 → inStepResult (openBlock z1) (openBlock z2).
Proof.
  intros H. unfold openBlock. pose proof (flushToken_token z1 z2 H) as Ht. apply flushToken_inStep in H.
  pose proof (step_words _ _ H) as Hw. pose proof (f_equal tk_depth (step_flags _ _ H)) as Hd. simpl in Hd. rewrite Hd.
  destruct (tk_words (flushToken z1)) as [|a l] eqn:E1, (tk_words (flushToken z2)) as [|b k] eqn:E2;
    try (destruct Hw as [_ Hw]; by inversion Hw).
  apply addStatement_inStep; [done|done|]. split; [done|]. by apply sameWords_braces.
Qed.

Lemma closeBlock_inStep z1 z2 : loose z1 z2 → inStepResult (closeBlock z1) (closeBlock z2).
Proof.
  intros H. unfold closeBlock. pose proof (flushToken_token z1 z2 H) as Ht. apply flushToken_inStep in H.
  pose proof (step_words _ _ H) as Hw. pose proof (f_equal tk_depth (step_flags _ _ H)) as Hd. simpl in Hd. rewrite Hd.
  destruct (tk_words (flushToken z1)) as [|a l] eqn:E1, (tk_words (flushToken z2)) as [|b k] eqn:E2;
    try (destruct Hw as [_ Hw]; by inversion Hw).
  destruct (_ <? 0)%Z; [done|]. apply addStatement_inStep; [done|done|]. split; [done|apply sameWords_refl].
Qed.

(** Runs with equal tokens: everything but statements and words is equal. *)
Lemma inStep_equal z1 z2 :
  inStep z1 z2 → tk_token z1 = tk_token z2 →
  z2 = set_text z1 (tk_statements z2) (tk_words z2) (tk_token z1) (tk_depth z1) ∧
  Forall2 sameStatement (tk_statements z1) (tk_statements z2) ∧ sameWords (tk_words z1) (tk_words z2).
Proof. intros [Hf Hs Hw _] ->. by rewrite <- Hf. Qed.

Lemma inStep_intro z st ws :
  Forall2 sameStatement (tk_statements z) st → sameWords (tk_words z) ws →
  inStep z (set_text z st ws (tk_token z) (tk_depth z)).
Proof. intros Hs Hw. split; simpl; auto. Qed.

Lemma outsideQuote_inStep z1 z2 c :
  inStep z1 z2 → tk_token z1 = tk_token z2 → inStepResult (outsideQuote z1 c) (outsideQuote z2 c).
Proof.
  intros H Ht. apply inStep_equal in H as (-> & Hs & Hw); [|done].
  set (st := tk_statements z2) in *. set (ws := tk_words z2) in *. clearbody st ws. clear Ht.
  unfold outsideQuote. cbn [tk_variable set_text].
  destruct ((c =c chOpen) && tk_variable z1).
  { apply (inStep_intro (write z1 c)); done. }
  assert (inStep (set_variable z1 false) (set_variable (set_text z1 st ws (tk_token z1) (tk_depth z1)) false)) as H
    by (by apply (inStep_intro (set_variable z1 false))).
  unfold classifyOutsideQuote. cbn [tk_inToken set_variable set_flags set_text].
  destruct (isSpace c); [by apply flushToken_inStep, inStep_loose|].
  destruct (c =c chSemi); [by apply flushStatement_inStep, inStep_loose|].
  destruct (c =c chOpen); [by apply openBlock_inStep, inStep_loose|].
  destruct ((c =c chClose) && tk_inToken z1); [by apply (inStep_intro (write (set_variable z1 false) c))|].
  destruct (c =c chClose); [by apply closeBlock_inStep, inStep_loose|].
  destruct ((c =c chHash) && negb (tk_inToken z1)); [by apply (inStep_intro (set_comment (set_variable z1 false) true))|].
  destruct (c =c chBackslash);
    [by apply (inStep_intro (set_inToken (set_escaped (set_variable z1 false) true) true))|].
  destruct (((c =c chQuote) || (c =c chApos)) && negb (tk_inToken z1));
    [by apply (inStep_intro (set_inToken (set_quote (set_variable z1 false) (Some c)) true))|].
  destruct (c =c chDollar); [by apply (inStep_intro (write (set_variable (set_variable z1 false) true) c))|].
  by apply (inStep_intro (write (set_variable z1 false) c)).
Qed.

Lemma afterQuote_inStep z1 z2 c : inStep z1 z2 → inStepResult (afterQuote z1 c) (afterQuote z2 c).
Proof.
  intros H. unfold afterQuote.
  assert (loose (set_needSpace z1 false) (set_needSpace z2 false)) as Hl.
  { apply inStep_loose in H as [Hf Hs Hw Ht]. rewrite Hf. by split. }
  destruct (isSpace c); [by apply flushToken_inStep|].
  destruct (c =c chSemi); [by apply flushStatement_inStep|].
  destruct (c =c chOpen); [by apply openBlock_inStep|].
  destruct (c =c chParen); [|done].
  pose proof (flushToken_token _ _ Hl) as Ht. apply flushToken_inStep in Hl.
  apply inStep_equal in Hl as (Heq & Hs & Hw); [|done]. rewrite Heq.
  by apply (inStep_intro (write (flushToken (set_needSpace z1 false)) c)).
Qed.

(** Both runs take the same step. *)
Lemma next_inStep z1 z2 c : inStep z1 z2 → inStepResult (next z1 c) (next z2 c).
Proof.
  intros H. unfold next. pose proof (step_flags _ _ H) as Hf.
  assert (tk_comment z2 = tk_comment z1) as -> by (by rewrite Hf).
  assert (tk_escaped z2 = tk_escaped z1) as -> by (by rewrite Hf).
  assert (tk_quote z2 = tk_quote z1) as -> by (by rewrite Hf).
  assert (tk_needSpace z2 = tk_needSpace z1) as -> by (by rewrite Hf).
  destruct (tk_needSpace z1 && negb (tk_comment z1) && negb (tk_escaped z1) && bool_decide (tk_quote z1 = None)) eqn:Hpend.
  { apply andb_true_iff in Hpend as [[[Hn Hc]%andb_true_iff He]%andb_true_iff Hq].
    apply negb_true_iff in Hc, He. apply bool_decide_eq_true in Hq. rewrite Hn, Hc, He, Hq. by apply afterQuote_inStep. }
  assert (tk_token z1 = tk_token z2) as Ht.
  { destruct (step_token _ _ H) as [|(_ & _ & Hn & _ & Hq & He & Hc)]; [done|].
    by rewrite Hn, Hc, He, Hq in Hpend. }
  pose proof (inStep_equal _ _ H Ht) as (Heq & Hs & Hw).
  destruct (tk_comment z1) eqn:Hc.
  { rewrite Heq. destruct (c =c chLF); [by apply (inStep_intro (set_comment z1 false))|by apply inStep_intro]. }
  destruct (tk_escaped z1) eqn:He.
  { rewrite Heq. unfold writeEscaped. repeat case_match;
      first [by apply (inStep_intro (write (set_escaped z1 false) _))
            |by apply (inStep_intro (write (write (set_escaped z1 false) chBackslash) c))]. }
  destruct (tk_quote z1) as [q|] eqn:Hq.
  { rewrite Heq. unfold inQuote. destruct (c =c chBackslash); [by apply (inStep_intro (set_escaped z1 true))|].
    destruct (c =c q); [by apply (inStep_intro (set_needSpace (set_quote z1 None) true))|].
    by apply (inStep_intro (writeByte z1 c)). }
  destruct (tk_needSpace z1); [done|]. by apply outsideQuote_inStep.
Qed.

Lemma feed_inStep z1 z2 b : inStep z1 z2 → inStepResult (feed z1 b) (feed z2 b).
Proof.
  revert z1 z2. induction b as [|c b IH]; intros z1 z2 H; [done|]. simpl.
  pose proof (next_inStep z1 z2 c H) as Hn. unfold inStepResult in Hn.
  destruct (next z1 c), (next z2 c); try done. by apply IH.
Qed.

(** Shape does not tell statements in step apart. *)
Lemma sameWords_last l k : sameWords l k → (last l = Some "{" ↔ last k = Some "{") ∧ (last l = None ↔ last k = None).
Proof.
  intros [_ H]. induction H as [|x y l k Hb Hf IH]; [done|].
  inversion Hf; subst; [|exact IH]. unfold sameBrace in Hb. simpl. naive_solver.
Qed.

Lemma shapeStep_same st s t : sameStatement s t → shapeStep st s = shapeStep st t.
Proof.
  intros (Hd & Hw). unfold shapeStep. destruct st as [shape data]. rewrite Hd, (proj1 Hw).
  destruct (sameWords_last _ _ Hw) as [H1 H2]. destruct (head (st_words t)); [|done]. cbn.
  destruct (last (st_words s)) as [u|], (last (st_words t)) as [v|]; [|naive_solver..]. cbn.
  assert (bool_decide (u = "{") = bool_decide (v = "{")) as -> by (apply bool_decide_ext; naive_solver). done.
Qed.

Lemma foldM_shape st l k : Forall2 sameStatement l k → foldM shapeStep st l = foldM shapeStep st k.
Proof.
  intros H. revert st. induction H as [|s t l k Hs _ IH]; intros st; [done|]. simpl.
  rewrite (shapeStep_same st s t Hs). destruct (shapeStep st t); [apply IH|done].
Qed.

Lemma atEnd_inStep z1 z2 : inStep z1 z2 →
  match atEnd z1, atEnd z2 with
  | inl e1, inl e2 => e1 = e2
  | inr l, inr k => Forall2 sameStatement l k
  | _, _ => False
  end.
Proof.
  intros [Hf Hs Hw _]. unfold atEnd. rewrite Hf. simpl.
  assert (bool_decide (tk_words z2 ≠ []) = bool_decide (tk_words z1 ≠ [])) as ->.
  { apply bool_decide_ext. by rewrite (sameWords_nil _ _ Hw). }
  destruct (_ || _); [done|]. by destruct (negb _).
Qed.

(** A quoted value is data.  At a place where NGINX expects an argument of a
    directive, two configurations that differ only in the value between the quotes
    have the same shape (or the same error), whatever bytes the values hold and
    whatever follows; the one exception is the value of a single open brace, which
    Shape takes for the opening of a block. *)
Theorem quoted_value_keeps_shape a b z v w :
  feed newTokenizer a = inr z → tokenStart z → tk_words z ≠ [] → v ≠ "{" → w ≠ "{" →
  Shape (a +:+ quoteWord v +:+ b) = Shape (a +:+ quoteWord w +:+ b).
Proof.
  intros Ha Hz Hws Hv Hw. unfold Shape, Tokenize. rewrite !feed_app, Ha, !feed_app, !feed_quoteWord by done.
  set (z1 := quoted _ _ _ v). set (z2 := quoted _ _ _ w).
  assert (inStep z1 z2) as H.
  { unfold z1, z2. split; simpl; [done| | |right; by split_and!; [|unfold sameBrace; naive_solver|..]].
    - apply sameStatements_refl.
    - apply sameWords_refl. }
  pose proof (feed_inStep z1 z2 b H) as Hf. unfold inStepResult in Hf.
  destruct (feed z1 b) as [e1|y1], (feed z2 b) as [e2|y2]; try done; [by subst|].
  pose proof (atEnd_inStep y1 y2 Hf) as He.
  destruct (atEnd y1) as [e1|l], (atEnd y2) as [e2|k]; try done; [by subst|]. by rewrite (foldM_shape _ l k He).
Qed.

Section Witness.
Let prefix : string := "server { location / { return 200 ".

Lemma quoted_value_keeps_shape_witness :
  Shape (prefix +:+ quoteWord "ok" +:+ "; } }") = Shape (prefix +:+ quoteWord "x; } evil { }" +:+ "; } }").
Proof.
  eapply quoted_value_keeps_shape; [vm_compute; reflexivity|by repeat split|done..].
Defined.
End Witness.

(** The exception: a quoted brace after a data directive hides the directives of
    the next block. *)
Example quoted_brace_changes_shape :
  Shape ("map " +:+ quoteWord "{" +:+ "; server { listen 80; }") = Some (inr ["0:map"; "0:server"; "1:<entry>"; "0:}"]) ∧
  Shape ("map " +:+ quoteWord "x" +:+ "; server { listen 80; }") = Some (inr ["0:map"; "0:server"; "1:listen"; "0:}"]).
Proof. vm_compute. done. Qed.
