(* ===== verification/DirectivesCorrect.v ===== *)
(** The escaping contracts of internal/validation/nginx.go, proved against the
    tokenizer: what a validator accepts cannot end the directive it is rendered
    into, open or close a block, or start another statement, and the words the
    tokenizer reads are those the contract promises. *)
From S2P Require Import Prelude GoStrings Regex ProxyBuffers Tokenizer Directives.
From S2P Require Import TokenizerCorrect.

(** ** Bytes and runes *)

Lemma byteVal_range c : (0 <= byteVal c < 256)%Z.
Proof. unfold byteVal. pose proof (Ascii.nat_ascii_bounded c). lia. Qed.

Lemma eqb_byte c n : n < 256 → (c =c byte_at n) = (byteVal c =? Z.of_nat n)%Z.
Proof.
  intros Hn. unfold byteVal. destruct (Ascii.eqb_spec c (byte_at n)) as [->|Hne].
  - unfold byte_at. rewrite Ascii.nat_ascii_embedding by done. by rewrite Z.eqb_refl.
  - symmetry. apply Z.eqb_neq. intros Heq%Nat2Z.inj. apply Hne. unfold byte_at.
    by rewrite <- Heq, Ascii.ascii_nat_embedding.
Qed.

Lemma ceqb_byte c n : ceqb c n = (byteVal c =? Z.of_nat n)%Z.
Proof.
  unfold ceqb, byteVal. destruct (Nat.eqb_spec (Ascii.nat_of_ascii c) n) as [->|Hne].
  - by rewrite Z.eqb_refl.
  - symmetry. apply Z.eqb_neq. lia.
Qed.

(** A byte below 128 is a rune; the other runes are made of bytes from 128. *)
Definition highBytes (u : string) : bool := forallBytes (λ c, (128 <=? byteVal c)%Z) u.

Lemma between_true lo hi z : between lo hi z = true ↔ (lo <= z <= hi)%Z.
Proof. unfold between. rewrite andb_true_iff, !Z.leb_le. done. Qed.

Inductive decoded (s : string) : Z → nat → Prop :=
  | DecodedLow c s' : s = String c s' → (byteVal c < 128)%Z → decoded s (byteVal c) 1
  | DecodedHigh u r : s = u +:+ dropBytes (String.length u) s → u ≠ "" → highBytes u = true →
      (128 <= r)%Z → (r = RuneError ∧ String.length u = 1 ∨ encodeRune r = u) →
      decoded s r (String.length u).

Lemma byteOf_byteVal c z : z = byteVal c → byteOf z = c.
Proof. intros ->. unfold byteOf, byteVal. by rewrite Nat2Z.id, Ascii.ascii_nat_embedding. Qed.

Ltac byte_ranges :=
  repeat match goal with
  | H : _ && _ = true |- _ => apply andb_true_iff in H as [? ?]
  | H : between _ _ _ = true |- _ => apply between_true in H
  | H : (_ <? _)%Z = false |- _ => apply Z.ltb_ge in H
  | H : (_ <? _)%Z = true |- _ => apply Z.ltb_lt in H
  end.

Lemma decoded_error c s : (128 <= byteVal c)%Z → decoded (String c s) RuneError 1.
Proof.
  intros Hc. apply (DecodedHigh _ (String c "")); [by destruct s|done| |done|by left].
  unfold highBytes. cbn [forallBytes]. by rewrite (proj2 (Z.leb_le _ _) Hc).
Qed.

Lemma decoded_encoded (u s : string) r :
  u ≠ "" → highBytes u = true → (128 <= r)%Z → encodeRune r = u →
  decoded (u +:+ s) r (String.length u).
Proof.
  intros Hu Hh Hr He. apply DecodedHigh; try done; [|by right]. f_equal.
  clear. induction u as [|c u IH]; [by destruct s|]. exact IH.
Qed.

Ltac rune_arith := Z.to_euclidean_division_equations; lia.

Lemma encode2 c0 c1 r :
  (194 <= byteVal c0 <= 223)%Z → (128 <= byteVal c1 <= 191)%Z →
  r = ((byteVal c0 - 192) * 64 + (byteVal c1 - 128))%Z →
  (128 <= r)%Z ∧ encodeRune r = String c0 (String c1 "").
Proof.
  intros H0 H1 Hr. assert (128 <= r < 2048)%Z as Hrange by lia. split; [lia|]. unfold encodeRune.
  rewrite (proj2 (Z.ltb_ge _ _)), (proj2 (Z.ltb_lt _ _)) by lia.
  rewrite (byteOf_byteVal c0), (byteOf_byteVal c1); [done|rune_arith|rune_arith].
Qed.

Lemma encode3 c0 c1 c2 r :
  (224 <= byteVal c0 <= 239)%Z → (128 <= byteVal c1 <= 191)%Z → (128 <= byteVal c2 <= 191)%Z →
  (byteVal c0 = 224 → 160 <= byteVal c1)%Z →
  r = ((byteVal c0 - 224) * 4096 + (byteVal c1 - 128) * 64 + (byteVal c2 - 128))%Z →
  (128 <= r)%Z ∧ encodeRune r = String c0 (String c1 (String c2 "")).
Proof.
  intros H0 H1 H2 H3 Hr. assert (2048 <= r < 65536)%Z as Hrange by lia. split; [lia|].
  unfold encodeRune. rewrite (proj2 (Z.ltb_ge _ 128)), (proj2 (Z.ltb_ge _ 2048)), (proj2 (Z.ltb_lt _ _)) by lia.
  rewrite (byteOf_byteVal c0), (byteOf_byteVal c1), (byteOf_byteVal c2); [done|rune_arith..].
Qed.

Lemma encode4 c0 c1 c2 c3 r :
  (240 <= byteVal c0 <= 244)%Z → (128 <= byteVal c1 <= 191)%Z → (128 <= byteVal c2 <= 191)%Z →
  (128 <= byteVal c3 <= 191)%Z → (byteVal c0 = 240 → 144 <= byteVal c1)%Z →
  r = ((byteVal c0 - 240) * 262144 + (byteVal c1 - 128) * 4096 + (byteVal c2 - 128) * 64
       + (byteVal c3 - 128))%Z →
  (128 <= r)%Z ∧ encodeRune r = String c0 (String c1 (String c2 (String c3 ""))).
Proof.
  intros H0 H1 H2 H3 H4 Hr. assert (65536 <= r)%Z as Hrange by lia. split; [lia|].
  unfold encodeRune.
  rewrite (proj2 (Z.ltb_ge _ 128)), (proj2 (Z.ltb_ge _ 2048)), (proj2 (Z.ltb_ge _ 65536)) by lia.
  rewrite (byteOf_byteVal c0), (byteOf_byteVal c1), (byteOf_byteVal c2), (byteOf_byteVal c3);
    [done|rune_arith..].
Qed.

Lemma highBytes_cons c u : highBytes (String c u) = (128 <=? byteVal c)%Z && highBytes u.
Proof. done. Qed.

Ltac high_bytes := repeat (rewrite highBytes_cons, (proj2 (Z.leb_le _ _)) by lia); done.

Lemma decodeRune_spec s r n : decodeRune s = Some (r, n) → decoded s r n.
Proof.
  destruct s as [|c0 s1]; [done|]. unfold decodeRune.
  destruct (byteVal c0 <? 128)%Z eqn:Hlow; byte_ranges.
  { intros [= <- <-]. by eapply DecodedLow. }
  assert (∀ r' n', Some (RuneError, 1) = Some (r', n') → decoded (String c0 s1) r' n') as Hbad
    by (intros ? ? [= <- <-]; by apply decoded_error).
  destruct s1 as [|c1 s2]; [apply Hbad|]. destruct (between 194 223 (byteVal c0)) eqn:H2; byte_ranges.
  { destruct (between 128 191 (byteVal c1)) eqn:H3; [|apply Hbad]. byte_ranges. intros [= <- <-].
    destruct (encode2 c0 c1 _ H2 H3 eq_refl) as [? ?].
    apply (decoded_encoded (String c0 (String c1 "")) s2); try done. high_bytes. }
  destruct s2 as [|c2 s3]; [apply Hbad|]. destruct (between 224 239 (byteVal c0)) eqn:H3; byte_ranges.
  { destruct (_ && _) eqn:H4; [|apply Hbad]. byte_ranges. intros [= <- <-].
    assert (128 <= byteVal c1 <= 191)%Z by (repeat case_match; lia).
    edestruct (encode3 c0 c1 c2) as [? ?]; [done|done|done| |reflexivity|].
    { intros Heq. rewrite Heq in *. simpl in *. lia. }
    apply (decoded_encoded (String c0 (String c1 (String c2 ""))) s3); try done. high_bytes. }
  destruct s3 as [|c3 s4]; [apply Hbad|]. destruct (_ && _) eqn:H4; [|apply Hbad]. byte_ranges.
  intros [= <- <-]. assert (128 <= byteVal c1 <= 191)%Z by (repeat case_match; lia).
  edestruct (encode4 c0 c1 c2 c3) as [? ?]; [done|done|done|done| |reflexivity|].
  { intros Heq. rewrite Heq in *. simpl in *. lia. }
  apply (decoded_encoded (String c0 (String c1 (String c2 (String c3 "")))) s4); try done. high_bytes.
Qed.

Lemma dropBytes_app u s : dropBytes (String.length u) (u +:+ s) = s.
Proof. induction u as [|c u IH]; [by destruct s|]. exact IH. Qed.

(** Induction on the runes of a string, with its validity *)
Lemma runes_ind (P : string → list Z → bool → Prop) :
  P "" [] true →
  (∀ c s l v, (byteVal c < 128)%Z → P s l v → P (String c s) (byteVal c :: l) v) →
  (∀ u s r l v b, u ≠ "" → highBytes u = true → (128 <= r)%Z → (b = true → encodeRune r = u) →
     P s l v → P (u +:+ s) (r :: l) (b && v)) →
  ∀ s, P s (runesOf s) (ValidString s).
Proof.
  intros H0 Hlow Hhigh s. unfold runesOf, ValidString. generalize (Nat.le_refl (String.length s)).
  generalize (String.length s) at 2 3 4 as fuel.
  intros fuel; revert s. induction fuel as [|fuel IH]; intros s Hlen.
  { destruct s; [done|]. cbn in Hlen. lia. }
  cbn [runesFuel validUTF8Fuel]. destruct s as [|c0 s0] eqn:Hs; [done|]. rewrite <- Hs in *.
  destruct (decodeRune s) as [[r n]|] eqn:Hd.
  2: { exfalso. revert Hd. rewrite Hs. unfold decodeRune. by repeat case_match. }
  destruct (decodeRune_spec _ _ _ Hd) as [c s' -> Hc|u r Heq Hu Hh Hr Henc].
  - replace (negb _) with true.
    2: { symmetry. apply negb_true_iff, andb_false_iff. left. apply Z.eqb_neq. unfold RuneError. lia. }
    cbn [andb]. apply Hlow; [done|]. change (dropBytes 1 (String c s')) with s'. apply IH.
    cbn [String.length] in Hlen. lia.
  - rewrite Heq at 1. apply Hhigh; try done.
    + intros Hb. destruct Henc as [[-> Hl]|?]; [|done]. rewrite Hl in Hb. done.
    + apply IH. rewrite Heq in Hlen. rewrite string_app_length in Hlen.
      destruct u; [done|]. cbn [String.length] in *. lia.
Qed.

(** ** The scanner of directive values against the tokenizer *)

Definition state (st : list Statement) (ws : list string) (tok : string) (d : Z) (inToken : bool)
    (quote : option Ascii.ascii) (escaped needSpace variable : bool) : confTokenizer :=
  {| tk_statements := st; tk_words := ws; tk_token := tok; tk_depth := d; tk_inToken := inToken;
     tk_quote := quote; tk_escaped := escaped; tk_needSpace := needSpace; tk_comment := false;
     tk_variable := variable |}.

(** The scanner and the tokenizer are at the same place: outside quotes, after
    a backslash, inside a quoted argument, or behind one.  [ws] are the words of
    the statement so far. *)
Inductive sim (st : list Statement) (d : Z) : list string → directiveScanner → confTokenizer → Prop :=
  | SimOut ws tok it v : (it = false → tok = "") →
      sim st d ws {| ds_quote := None; ds_escaped := false; ds_tokenBoundary := negb it; ds_needSpace := false |}
          (state st ws tok d it None false false v)
  | SimEscaped ws tok b v :
      sim st d ws {| ds_quote := None; ds_escaped := true; ds_tokenBoundary := b; ds_needSpace := false |}
          (state st ws tok d true None true false v)
  | SimQuote ws tok b q e : q = chQuote ∨ q = chApos →
      sim st d ws {| ds_quote := Some (byteVal q); ds_escaped := e; ds_tokenBoundary := b; ds_needSpace := false |}
          (state st ws tok d true (Some q) e false false)
  | SimNeed ws tok b :
      sim st d ws {| ds_quote := None; ds_escaped := false; ds_tokenBoundary := b; ds_needSpace := true |}
          (state st ws tok d true None false true false).

Lemma writeEscaped_state st ws tok d q v c :
  ∃ tok', writeEscaped (state st ws tok d true q false false v) c = state st ws tok' d true q false false v.
Proof. unfold writeEscaped. repeat case_match; by eexists. Qed.

(** The tests of the tokenizer in terms of the scanner's *)
Ltac byte_tests :=
  unfold isSpace, chSpace, chTab, chCR, chLF, chSemi, chOpen, chClose, chHash, chBackslash, chQuote,
    chApos, chDollar, chParen, isNginxSpace, rSpace, rTab, rCR, rLF, rSemi, rOpen, rClose, rHash,
    rBackslash, rQuote, rApos, rBacktick in *;
  rewrite ?eqb_byte in * by lia;
  repeat match goal with
  | |- context [Z.of_nat ?n] => let z := eval vm_compute in (Z.of_nat n) in change (Z.of_nat n) with z
  | H : context [Z.of_nat ?n] |- _ =>
      let z := eval vm_compute in (Z.of_nat n) in change (Z.of_nat n) with z in H
  end.

Ltac prefix_done := first [reflexivity | by apply prefix_app_r | by eexists].

Lemma sim_outside st d ws tok it v c s' :
  (it = false → tok = "") →
  scan {| ds_quote := None; ds_escaped := false; ds_tokenBoundary := negb it; ds_needSpace := false |}
       (byteVal c) = inr s' →
  ∃ z' ws', next (state st ws tok d it None false false v) c = inr z' ∧ sim st d ws' s' z' ∧
    (isSpace c = false → ws' = ws ∧ tk_inToken z' = true) ∧ ws `prefix_of` ws'.
Proof.
  intros Hit. unfold scan, outsideQuote. cbn [ds_escaped ds_quote ds_needSpace ds_tokenBoundary].
  destruct (_ || _) eqn:Hbrk; [done|]. apply orb_false_iff in Hbrk as [[Hcr Hlf]%orb_false_iff Hbt].
  unfold next. cbn [tk_comment tk_escaped tk_quote tk_needSpace state].
  unfold Tokenizer.outsideQuote, classifyOutsideQuote. cbn [tk_variable tk_inToken state set_variable set_flags].
  destruct (isNginxSpace (byteVal c)) eqn:Hsp.
  { intros [= <-]. assert (isSpace c = true) as Hs by (byte_tests; exact Hsp).
    assert ((c =c chOpen) = false) as -> by (byte_tests; apply Z.eqb_neq; intros Heq; by rewrite Heq in Hsp).
    cbn [andb]. rewrite Hs. destruct it.
    - do 2 eexists. split; [done|]. split; [by apply (SimOut _ _ _ "" false)|split; [done|prefix_done]].
    - rewrite Hit by done. do 2 eexists. split; [done|]. split; [by apply (SimOut _ _ _ "" false)|split; [done|prefix_done]]. }
  assert (isSpace c = false) as Hs by (byte_tests; exact Hsp). rewrite Hs.
  destruct (byteVal c =? rBackslash)%Z eqn:Hbs.
  { intros [= <-]. byte_tests. apply Z.eqb_eq in Hbs. rewrite Hbs. cbn.
    do 2 eexists. split; [done|]. split; [constructor|split; [done|prefix_done]]. }
  destruct ((byteVal c =? rApos)%Z || (byteVal c =? rQuote)%Z) eqn:Hq.
  { intros [= <-]. assert (c = chQuote ∨ c = chApos) as Hc.
    { apply orb_true_iff in Hq as [Hq|Hq]; [right|left]; apply Ascii.eqb_eq; byte_tests; done. }
    destruct Hc as [-> | ->], it; cbn; do 2 eexists; (split; [done|]); (split; [first [by apply (SimQuote _ _ _ _ _ chQuote); left | by apply (SimQuote _ _ _ _ _ chApos); right
            |by apply (SimOut _ _ _ _ true)]|split; [done|prefix_done]]). }
  destruct ((byteVal c =? rHash)%Z || (byteVal c =? rSemi)%Z || (byteVal c =? rOpen)%Z
            || (byteVal c =? rClose)%Z) eqn:Hdel; [done|]. intros [= <-].
  rewrite !orb_false_iff in Hdel. destruct Hdel as [[[Hh Hsm] Hop] Hcl].
  apply orb_false_iff in Hq as [Hap Hqt]. byte_tests. rewrite Hsm, Hop, Hcl, Hh, Hbs, Hap, Hqt. cbn [andb orb].
  destruct (byteVal c =? 36)%Z; do 2 eexists; (split; [done|]); (split; [by apply (SimOut _ _ _ _ true)|split; [done|prefix_done]]).
Qed.

(** One byte *)
Lemma sim_step st d ws s z c s' :
  sim st d ws s z → scan s (byteVal c) = inr s' →
  ∃ z' ws', next z c = inr z' ∧ sim st d ws' s' z' ∧
    (isSpace c = false → ws' = ws ∧ tk_inToken z' = true) ∧ ws `prefix_of` ws'.
Proof.
  intros Hsim. destruct Hsim as [ws tok it v Hit|ws tok b v|ws tok b q e Hq|ws tok b];
    [by apply sim_outside|..]; unfold scan, outsideQuote, insideQuote;
    cbn [ds_escaped ds_quote ds_needSpace ds_tokenBoundary];
    (destruct (_ || _) eqn:Hbrk; [done|]); intros Hs'.
  - injection Hs' as <-. destruct (writeEscaped_state st ws tok d None v c) as [tok' Hw].
    unfold next. cbn [tk_comment tk_escaped state].
    change (set_escaped _ false) with (state st ws tok d true None false false v). rewrite Hw.
    do 2 eexists. split; [done|]. split; [by apply (SimOut _ _ _ _ true)|split; [done|prefix_done]].
  - destruct e.
    { injection Hs' as <-. destruct (writeEscaped_state st ws tok d (Some q) false c) as [tok' Hw].
      unfold next. cbn [tk_comment tk_escaped state].
      change (set_escaped _ false) with (state st ws tok d true (Some q) false false false). rewrite Hw.
      do 2 eexists. split; [done|]. split; [by constructor|split; [done|prefix_done]]. }
    injection Hs' as <-. unfold next. cbn [tk_comment tk_escaped tk_quote state]. unfold inQuote.
    replace (c =c q) with (byteVal c =? byteVal q)%Z.
    2: { destruct (Ascii.eqb_spec c q) as [->|Hne]; [by rewrite Z.eqb_refl|]. apply Z.eqb_neq.
         intros Heq. apply Hne. rewrite <- (byteOf_byteVal c _ eq_refl), Heq. by apply byteOf_byteVal. }
    replace (c =c chBackslash) with (byteVal c =? rBackslash)%Z by (byte_tests; done).
    destruct (byteVal c =? rBackslash)%Z; [|destruct (byteVal c =? byteVal q)%Z];
      do 2 eexists; (split; [done|]); (split; [by constructor|split; [done|prefix_done]]).
  - unfold next. cbn [tk_comment tk_escaped tk_quote tk_needSpace state]. unfold afterQuote.
    destruct (isNginxSpace (byteVal c)) eqn:Hsp; [|done]. injection Hs' as <-.
    assert (isSpace c = true) as -> by (byte_tests; exact Hsp).
    do 2 eexists. split; [done|]. split; [by apply (SimOut _ _ _ "" false)|split; [done|prefix_done]].
Qed.

Fixpoint scanBytes (s : directiveScanner) (t : string) : string + directiveScanner :=
  match t with
  | EmptyString => inr s
  | String c t' => match scan s (byteVal c) with
                   | inl err => inl err
                   | inr s' => scanBytes s' t'
                   end
  end.

Lemma scanBytes_app s a b :
  scanBytes s (a +:+ b) = match scanBytes s a with inl e => inl e | inr s' => scanBytes s' b end.
Proof.
  revert s. induction a as [|c a IH]; intros s; [done|].
  change (String c a +:+ b) with (String c (a +:+ b)). cbn [scanBytes].
  destruct (scan s (byteVal c)); [done|]. apply IH.
Qed.

(** All runes from 128 are alike, and a second one changes nothing. *)
Lemma scan_high st d ws s z r1 r2 s' :
  sim st d ws s z → (128 <= r1)%Z → (128 <= r2)%Z → scan s r1 = inr s' →
  scan s r2 = inr s' ∧ scan s' r2 = inr s'.
Proof.
  intros Hsim H1 H2.
  assert (∀ r k, (128 <= r)%Z → (k < 128)%Z → (r =? k)%Z = false) as Hk by (intros; apply Z.eqb_neq; lia).
  assert (∀ q, q = chQuote ∨ q = chApos → (byteVal q < 128)%Z) as Hlow by (intros q [-> | ->]; done).
  destruct Hsim as [ws tok it v Hit|ws tok b v|ws tok b q [] Hq|ws tok b];
    unfold scan, outsideQuote, insideQuote, isNginxSpace, rSpace, rTab, rCR, rLF, rSemi, rOpen, rClose,
      rHash, rBackslash, rQuote, rApos, rBacktick;
    cbn [ds_escaped ds_quote ds_needSpace ds_tokenBoundary];
    rewrite ?(Hk r1), ?(Hk r2) by (done || lia || by apply Hlow);
    cbn [orb negb]; intros Hs'; try done;
    injection Hs' as <-; cbn [ds_escaped ds_quote ds_needSpace ds_tokenBoundary set_boundary orb negb];
    by rewrite ?(Hk r1), ?(Hk r2) by (done || lia || by apply Hlow).
Qed.

Lemma scanBytes_high st d u : ∀ ws s z r s',
  sim st d ws s z → u ≠ "" → highBytes u = true → (128 <= r)%Z → scan s r = inr s' → scanBytes s u = inr s'.
Proof.
  induction u as [|c u IH]; [done|]. intros ws s z r s' Hsim _ Hu Hr Hs'.
  rewrite highBytes_cons in Hu. apply andb_true_iff in Hu as [Hc%Z.leb_le Hu].
  destruct (scan_high _ _ _ _ _ _ _ _ Hsim Hr Hc Hs') as [Hs1 Hs2]. cbn [scanBytes]. rewrite Hs1.
  destruct u as [|c' u]; [done|]. destruct (sim_step _ _ _ _ _ _ _ Hsim Hs1) as (z' & ws' & _ & Hsim' & _).
  exact (IH _ _ _ _ _ Hsim' ltac:(done) Hu Hc Hs2).
Qed.

Lemma scanAll_bytes st d t ws s z s' :
  sim st d ws s z → scanAll s (runesOf t) = inr s' → scanBytes s t = inr s'.
Proof.
  revert ws s z. apply (runes_ind (λ t l _, ∀ ws s z, sim st d ws s z → scanAll s l = inr s' → scanBytes s t = inr s')).
  - done.
  - intros c t' l _ Hc IH ws s z Hsim. cbn [scanAll scanBytes].
    destruct (scan s (byteVal c)) as [|s1] eqn:Hs1; [done|].
    destruct (sim_step _ _ _ _ _ _ _ Hsim Hs1) as (z' & ws' & _ & Hsim' & _). by eapply IH.
  - intros u t' r l _ _ Hu Hh Hr _ IH ws s z Hsim. cbn [scanAll].
    destruct (scan s r) as [|s1] eqn:Hs1; [done|]. intros Hl.
    rewrite scanBytes_app, (scanBytes_high _ _ _ _ _ _ _ _ Hsim Hu Hh Hr Hs1).
    assert (∃ ws' z', sim st d ws' s1 z') as (ws' & z' & Hsim').
    { destruct u as [|c u]; [done|]. rewrite highBytes_cons in Hh. apply andb_true_iff in Hh as [Hc%Z.leb_le _].
      destruct (scan_high _ _ _ _ _ _ _ _ Hsim Hr Hc Hs1) as [Hs2 _].
      destruct (sim_step _ _ _ _ _ _ _ Hsim Hs2) as (z' & ws' & _ & Hsim' & _). eauto. }
    by eapply IH.
Qed.

(** ** Braced variables *)

Lemma next_variable_char st ws tok d v c :
  isNginxVariableChar c = true →
  next (state st ws tok d true None false false v) c =
  inr (state st ws (tok +:+ String c "") d true None false false false).
Proof. destruct c as [[] [] [] [] [] [] [] []]; try done; by intros _. Qed.

Lemma next_variable_char_quoted st ws tok d q c :
  q = chQuote ∨ q = chApos → isNginxVariableChar c = true →
  next (state st ws tok d true (Some q) false false false) c =
  inr (state st ws (tok +:+ String c "") d true (Some q) false false false).
Proof. intros [-> | ->]; destruct c as [[] [] [] [] [] [] [] []]; try done; by intros _. Qed.

Lemma feed_variable_chars st ws d q name : ∀ tok v,
  (q = None ∨ v = false ∧ (q = Some chQuote ∨ q = Some chApos)) →
  forallBytes isNginxVariableChar name = true →
  ∃ tok' v', feed (state st ws tok d true q false false v) name = inr (state st ws tok' d true q false false v')
    ∧ (v = false → v' = false).
Proof.
  induction name as [|c name IH]; intros tok v Hq Hname; [by exists tok, v|].
  cbn [forallBytes] in Hname. apply andb_true_iff in Hname as [Hc Hname].
  assert (next (state st ws tok d true q false false v) c =
          inr (state st ws (tok +:+ String c "") d true q false false false)) as Hn.
  { destruct Hq as [->|[-> [-> | ->]]]; [by apply next_variable_char|..];
      apply next_variable_char_quoted; auto. }
  destruct (IH (tok +:+ String c "") false) as (tok' & v' & Hf & Hv'); [naive_solver|done|].
  exists tok', v'. split; [|auto]. by rewrite (feed_step _ _ _ _ Hn).
Qed.

Lemma sim_variable st d ws s z s1 c name :
  sim st d ws s z → ds_escaped s = false → scanBytes s "$variable" = inr s1 →
  isNginxVariableStart c = true → forallBytes isNginxVariableChar name = true →
  ∃ z1, feed z (String chDollar (String chOpen (String c (name +:+ String chClose "")))) = inr z1 ∧
    sim st d ws s1 z1 ∧ ds_escaped s1 = false ∧ tk_inToken z1 = true.
Proof.
  intros Hsim Hesc Hs1 Hc Hname.
  assert (forallBytes isNginxVariableChar (String c name) = true) as Hcn.
  { cbn [forallBytes]. unfold isNginxVariableChar at 1. by rewrite Hc. }
  destruct Hsim as [ws tok it v Hit|ws tok b v|ws tok b q e Hq|ws tok b]; [| done | | done].
  - assert (s1 = {| ds_quote := None; ds_escaped := false; ds_tokenBoundary := false; ds_needSpace := false |})
      as -> by (destruct it; by injection Hs1).
    rewrite (feed_step _ _ _ (state st ws (tok +:+ String chDollar "") d true None false false true)) by (by destruct it, v).
    rewrite (feed_step _ _ _ (state st ws ((tok +:+ String chDollar "") +:+ String chOpen "") d true None false false true)) by done.
    change (String c (name +:+ String chClose "")) with (String c name +:+ String chClose "").
    destruct (feed_variable_chars st ws d None (String c name) ((tok +:+ String chDollar "") +:+ String chOpen "") true)
      as (tok' & v' & Hf & _); [by left|done|].
    rewrite feed_app, Hf. rewrite (feed_step _ _ _ (state st ws (tok' +:+ String chClose "") d true None false false false))
      by (by destruct v'). eexists. split; [done|]. split; [|done]. by apply (SimOut _ _ _ _ true).
  - cbn in Hesc. subst e.
    assert (s1 = {| ds_quote := Some (byteVal q); ds_escaped := false; ds_tokenBoundary := b; ds_needSpace := false |})
      as -> by (destruct Hq as [-> | ->]; by injection Hs1).
    rewrite (feed_step _ _ _ (state st ws (tok +:+ String chDollar "") d true (Some q) false false false))
      by (by destruct Hq as [-> | ->]).
    rewrite (feed_step _ _ _ (state st ws ((tok +:+ String chDollar "") +:+ String chOpen "") d true (Some q) false false false))
      by (by destruct Hq as [-> | ->]).
    change (String c (name +:+ String chClose "")) with (String c name +:+ String chClose "").
    destruct (feed_variable_chars st ws d (Some q) (String c name) ((tok +:+ String chDollar "") +:+ String chOpen "") false)
      as (tok' & v' & Hf & Hv'); [naive_solver|done|].
    rewrite Hv' in Hf by done.
    rewrite feed_app, Hf. rewrite (feed_step _ _ _ (state st ws (tok' +:+ String chClose "") d true (Some q) false false false))
      by (by destruct Hq as [-> | ->]). eexists. split; [done|]. split; [|done]. by constructor.
Qed.

(** What a braced variable looks like, and the text behind it *)
Lemma bracedNginxVariableEnd_spec before rest after :
  bracedNginxVariableEnd before rest = Some after →
  isEscaped before = false ∧ ∃ c name, isNginxVariableStart c = true ∧
    forallBytes isNginxVariableChar name = true ∧
    rest = String chDollar (String chOpen (String c (name +:+ String chClose ""))) +:+ after.
Proof.
  assert (∀ c n, n < 256 → ceqb c n = true → c = byte_at n) as Hceqb.
  { intros c n Hn. unfold ceqb. intros Hc%Nat.eqb_eq. unfold byte_at.
    by rewrite <- Hc, Ascii.ascii_nat_embedding. }
  unfold bracedNginxVariableEnd. destruct rest as [|dl [|b [|c rest]]]; try done.
  destruct (_ && _) eqn:Ht; [|done]. rewrite !andb_true_iff in Ht.
  destruct Ht as [[[Hd%Hceqb Hb%Hceqb] He%negb_true_iff] Hc]; [|lia..]. subst dl b.
  assert (∃ name, forallBytes isNginxVariableChar name = true ∧
            rest = name +:+ dropWhileBytes isNginxVariableChar rest) as (name & Hname & Hrest).
  { clear. induction rest as [|c rest (name & Hn & Hr)]; [by exists ""|]. cbn [dropWhileBytes].
    destruct (isNginxVariableChar c) eqn:Hc; [|by exists ""]. exists (String c name).
    cbn [forallBytes]. rewrite Hc, Hn. split; [done|].
    change (String c name +:+ ?t) with (String c (name +:+ t)). by f_equal. }
  destruct (dropWhileBytes _ rest) as [|e rest']; [done|].
  destruct (ceqb e 125) eqn:Hcl; [|done]. intros [= <-]. apply Hceqb in Hcl as ->; [|lia].
  split; [done|]. exists c, name. split_and!; [done|done|].
  change (String chDollar _ +:+ rest') with
    (String chDollar (String chOpen (String c ((name +:+ String chClose "") +:+ rest')))).
  rewrite string_app_assoc. by rewrite Hrest.
Qed.

Lemma advance_last p c t before :
  advance (String.length (p +:+ String c "")) ((p +:+ String c "") +:+ t) before =
  String c (advance (String.length p) (p +:+ String c t) before).
Proof. revert before. induction p as [|e p IH]; intros before; [done|]. cbn. apply IH. Qed.

Lemma isEscaped_cons c before :
  isEscaped (String c before) = ceqb c 92 && negb (isEscaped before).
Proof. unfold isEscaped. cbn [backslashes]. destruct (ceqb c 92); [|done]. by rewrite Nat.odd_succ, <- Nat.negb_odd. Qed.

(** The scanner is behind a backslash exactly when the text says so. *)
Lemma scan_escaped s c s' :
  scan s (byteVal c) = inr s' → ds_escaped s' = ceqb c 92 && negb (ds_escaped s).
Proof.
  rewrite ceqb_byte. change (Z.of_nat 92) with rBackslash. unfold scan. destruct (_ || _); [done|].
  destruct s as [q [] b n]; cbn [ds_escaped ds_quote negb]; [intros [= <-]; by rewrite andb_false_r|].
  rewrite andb_true_r. destruct q as [q|].
  - unfold insideQuote. intros [= <-]. destruct (byteVal c =? rBackslash)%Z; [done|].
    by destruct (byteVal c =? q)%Z.
  - unfold outsideQuote. cbn [ds_needSpace ds_escaped ds_tokenBoundary ds_quote].
    destruct (isNginxSpace (byteVal c)) eqn:Hsp; destruct n; try done.
    1, 2: intros [= <-]; destruct (byteVal c =? rBackslash)%Z eqn:Hb; [|done];
      apply Z.eqb_eq in Hb; by rewrite Hb in Hsp.
    destruct (byteVal c =? rBackslash)%Z; [by intros [= <-]|].
    repeat case_match; try done; by intros [= <-].
Qed.

Definition noSpaces (t : string) : bool := forallBytes (λ c, negb (isSpace c)) t.

Lemma mask_feed st d fuel : ∀ before rest ws s z s',
  String.length rest ≤ fuel → sim st d ws s z → ds_escaped s = isEscaped before →
  scanBytes s (maskFuel fuel before rest) = inr s' →
  ∃ z' ws', feed z rest = inr z' ∧ sim st d ws' s' z' ∧
    (noSpaces rest = true → ws' = ws ∧ (tk_inToken z = true ∨ rest ≠ "" → tk_inToken z' = true)) ∧
    ws `prefix_of` ws'.
Proof.
  induction fuel as [|fuel IH]; intros before rest ws s z s' Hlen Hsim Hesc Hs.
  { destruct rest; [|cbn in Hlen; lia]. injection Hs as <-. exists z, ws. split_and!; naive_solver. }
  destruct rest as [|c rest]; [injection Hs as <-; exists z, ws; split_and!; naive_solver|].
  cbn [maskFuel] in Hs. destruct (bracedNginxVariableEnd before (String c rest)) as [after|] eqn:Hb.
  - destruct (bracedNginxVariableEnd_spec _ _ _ Hb) as (He & c' & name & Hc' & Hname & Heq).
    rewrite scanBytes_app in Hs. destruct (scanBytes s "$variable") as [|s1] eqn:Hs1; [done|].
    rewrite <- Hesc in He.
    destruct (sim_variable _ _ _ _ _ _ _ _ Hsim He Hs1 Hc' Hname) as (z1 & Hf & Hsim1 & He1 & Hit).
    rewrite Heq in *. rewrite feed_app, Hf. rewrite string_app_length in Hlen, Hs.
    edestruct IH as (z' & ws' & Hf' & Hsim' & Hns & Hpre); [|exact Hsim1| |exact Hs|].
    + cbn in Hlen. lia.
    + rewrite He1. rewrite Nat.add_sub.
      change (String chDollar (String chOpen (String c' (name +:+ String chClose ""))))
        with (String chDollar (String chOpen (String c' name)) +:+ String chClose "").
      rewrite advance_last, isEscaped_cons. done.
    + exists z', ws'. split; [done|]. split; [done|]. split; [|done]. unfold noSpaces. rewrite forallBytes_app.
      intros [_ Hsp]%andb_true_iff. destruct (Hns Hsp) as [-> Hi]. split; [done|]. auto.
  - cbn [scanBytes] in Hs. destruct (scan s (byteVal c)) as [|s1] eqn:Hs1; [done|].
    destruct (sim_step _ _ _ _ _ _ _ Hsim Hs1) as (z1 & ws1 & Hn & Hsim1 & Hns1 & Hpre1).
    edestruct IH as (z' & ws' & Hf' & Hsim' & Hns & Hpre); [|exact Hsim1| |exact Hs|].
    + cbn in Hlen. lia.
    + by rewrite (scan_escaped _ _ _ Hs1), isEscaped_cons, Hesc.
    + exists z', ws'. split; [by rewrite (feed_step _ _ _ _ Hn)|]. split; [done|].
      split; [|by etrans]. unfold noSpaces. cbn [forallBytes]. intros [Hc%negb_true_iff Hsp]%andb_true_iff.
      destruct (Hns1 Hc) as [-> Hi1]. destruct (Hns Hsp) as [-> Hi]. split; [done|]. auto.
Qed.

(** At the end of an accepted value the semicolon ends the statement. *)
Lemma sim_end st d ws s z :
  sim st d ws s z → scanEnd s = None → ws ≠ [] ∨ tk_inToken z = true →
  ∃ args, feed z ";" = inr (ready (st ++ [{| st_depth := d; st_words := ws ++ args |}]) [] d) ∧
    length args ≤ 1 ∧ (tk_inToken z = true → length args = 1).
Proof.
  intros Hsim He Hne. destruct Hsim as [ws tok it v Hit|ws tok b v|ws tok b q [] Hq|ws tok b]; try done.
  - destruct it.
    + exists [tok]. split; [|done]. cbn. destruct v, ws; done.
    + exists []. rewrite (Hit eq_refl), app_nil_r. split; [|split; [cbn; lia|done]].
      destruct v, ws; naive_solver.
  - exists [tok]. split; [|done]. by destruct ws.
Qed.

(** The scanner stops at a line break. *)
Definition noBreaks (t : string) : bool := forallBytes (λ c, negb ((c =c chCR) || (c =c chLF))) t.

Lemma scan_noBreak s c s' : scan s (byteVal c) = inr s' → (c =c chCR) || (c =c chLF) = false.
Proof.
  unfold scan. destruct (_ || _) eqn:Hb; [done|]. apply orb_false_iff in Hb as [Hb _]. intros _.
  byte_tests. exact Hb.
Qed.

Lemma mask_noBreaks fuel : ∀ before rest s s',
  String.length rest ≤ fuel → scanBytes s (maskFuel fuel before rest) = inr s' → noBreaks rest = true.
Proof.
  induction fuel as [|fuel IH]; intros before rest s s' Hlen Hs.
  { destruct rest; [done|cbn in Hlen; lia]. }
  destruct rest as [|c rest]; [done|]. cbn [maskFuel] in Hs.
  destruct (bracedNginxVariableEnd before (String c rest)) as [after|] eqn:Hb.
  - destruct (bracedNginxVariableEnd_spec _ _ _ Hb) as (_ & c' & name & Hc' & Hname & Heq).
    rewrite scanBytes_app in Hs. destruct (scanBytes s "$variable") as [|s1]; [done|].
    rewrite Heq in *. unfold noBreaks. rewrite forallBytes_app. apply andb_true_iff. split.
    + change (String chDollar _) with (String chDollar (String chOpen (String c' name)) +:+ String chClose "").
      rewrite forallBytes_app. apply andb_true_iff. split; [|done].
      assert (∀ e, isNginxVariableChar e = true → negb ((e =c chCR) || (e =c chLF)) = true) as Hvar
        by (intros e; destruct e as [[] [] [] [] [] [] [] []]; done).
      change (forallBytes (λ c, negb ((c =c chCR) || (c =c chLF))) (String c' name) = true).
      cbn [forallBytes]. rewrite Hvar by (unfold isNginxVariableChar; by rewrite Hc').
      by eapply forallBytes_mono.
    + rewrite string_app_length in Hlen. eapply (IH _ after); [|exact Hs]. cbn in Hlen. lia.
  - cbn [scanBytes] in Hs. destruct (scan s (byteVal c)) as [|s1] eqn:Hs1; [done|].
    unfold noBreaks. cbn [forallBytes]. rewrite (scan_noBreak _ _ _ Hs1).
    eapply (IH _ rest); [|exact Hs]. cbn in Hlen. lia.
Qed.

Lemma directive_value_noSpaces value :
  ValidateDirectiveValue value = None → ContainsAny value [35; 92; 32; 9] = false → noSpaces value = true.
Proof.
  unfold ValidateDirectiveValue. case_bool_decide; [done|].
  destruct (scanAll _ _) as [|s] eqn:Hs; [done|]. intros _ Hany.
  assert (sim [] 0 [] startScanner (ready [] [] 0)) as Hsim by (by apply (SimOut _ _ _ "" false)).
  apply (scanAll_bytes _ _ _ _ _ _ _ Hsim) in Hs.
  pose proof (mask_noBreaks (String.length value) "" value _ _ (Nat.le_refl _) Hs) as Hnb. clear -Hany Hnb.
  induction value as [|c value IH]; [done|]. cbn [ContainsAny] in Hany.
  apply orb_false_iff in Hany as [Hc Hany]. unfold noBreaks, noSpaces in *. cbn [forallBytes] in *.
  apply andb_true_iff in Hnb as [Hb Hnb]. rewrite IH by done. rewrite andb_true_r.
  apply negb_true_iff in Hb. apply negb_true_iff. unfold isSpace. cbn [existsb] in Hc.
  rewrite !orb_false_iff in *. rewrite !ceqb_byte in Hc. byte_tests. naive_solver.
Qed.

(** A value that ValidateDirectiveValue accepts, fed behind some words *)
Lemma directive_value_feed value st d ws :
  ValidateDirectiveValue value = None →
  ∃ s z' new, feed (ready st ws d) value = inr z' ∧ sim st d (ws ++ new) s z' ∧ scanEnd s = None ∧
    (noSpaces value = true → new = [] ∧ (value ≠ "" → tk_inToken z' = true)).
Proof.
  unfold ValidateDirectiveValue. case_bool_decide; [done|].
  destruct (scanAll _ _) as [|s] eqn:Hs; [done|]. intros Hend.
  assert (sim st d ws startScanner (ready st ws d)) as Hsim by (by apply (SimOut _ _ _ "" false)).
  apply (scanAll_bytes _ _ _ _ _ _ _ Hsim) in Hs.
  destruct (mask_feed st d (String.length value) "" value ws _ _ _ (Nat.le_refl _) Hsim eq_refl Hs)
    as (z' & ws' & Hf & Hsim' & Hns & [new ->]).
  exists s, z', new. split_and!; try done. intros Hsp. destruct (Hns Hsp) as [Hw Hi].
  split; [|auto]. rewrite <- (app_nil_r ws) in Hw at 2. by apply (inj (app ws)) in Hw.
Qed.

(** A value behind the words of a directive, up to the semicolon *)
Lemma directive_value_statement value st d ws :
  ValidateDirectiveValue value = None → ws ≠ [] →
  ∃ args, feed (ready st ws d) (value +:+ ";") =
    inr (ready (st ++ [{| st_depth := d; st_words := ws ++ args |}]) [] d) ∧
    (ValidateDirectiveToken value = None → length args = 1).
Proof.
  intros Hv Hws. destruct (directive_value_feed value st d ws Hv) as (s & z' & new & Hf & Hsim & Hend & Hns).
  destruct (sim_end _ _ _ _ _ Hsim Hend) as (args & Hsemi & _ & Hone); [left; by destruct ws|].
  exists (new ++ args). rewrite feed_app, Hf, Hsemi, app_assoc. split; [done|].
  intros Htok. unfold ValidateDirectiveToken in Htok. case_bool_decide as Hne; [done|].
  rewrite Hv in Htok. destruct (ContainsAny value _) eqn:Hany; [done|].
  destruct Hns as [-> Hi].
  - apply (directive_value_noSpaces value); done.
  - rewrite app_nil_l. by apply Hone, Hi.
Qed.

(** C40.  Directive values.  A value that ValidateDirectiveValue accepts, rendered
    unquoted behind the name and arguments of a directive and followed by a
    semicolon, is read by the tokenizer as further arguments of that directive:
    one statement is added, at the same depth, its words start with those given,
    and the tokenizer is ready for the next statement.  Quotes, escapes, braced
    variables and multi-byte runes included.  If ValidateDirectiveToken accepts
    the value, it is exactly one argument. *)
Theorem directive_value_contained value st d ws :
  ValidateDirectiveValue value = None → ws ≠ [] →
  ∃ args, feed (ready st ws d) (value +:+ ";") =
    inr (ready (st ++ [{| st_depth := d; st_words := ws ++ args |}]) [] d) ∧
    (ValidateDirectiveToken value = None → length args = 1).
Proof. apply directive_value_statement. Qed.

(** ** The contents of quoted arguments *)

Definition unescapedByte (c : Ascii.ascii) : string :=
  if (c =c chQuote) || (c =c chApos) || (c =c chBackslash) then String c ""
  else if c =c byte_at 116 then String chTab ""
  else if c =c byte_at 114 then String chCR ""
  else if c =c byte_at 110 then String chLF ""
  else String chBackslash (String c "").

(** UnescapeNGINXToken on bytes, behind a backslash or not *)
Fixpoint unescapeBytes (escaped : bool) (v : string) : string :=
  match v with
  | EmptyString => if escaped then String chBackslash "" else ""
  | String c v' =>
      if escaped then unescapedByte c +:+ unescapeBytes false v'
      else if c =c chBackslash then unescapeBytes true v'
      else String c (unescapeBytes false v')
  end.

(** Every quote [q] is escaped and no escape is left open. *)
Fixpoint balanced (q : Ascii.ascii) (escaped : bool) (v : string) : bool :=
  match v with
  | EmptyString => negb escaped
  | String c v' =>
      if escaped then balanced q false v'
      else if c =c chBackslash then balanced q true v'
      else negb (c =c q) && balanced q false v'
  end.

Lemma writeEscaped_unescaped st ws tok d q c :
  writeEscaped (state st ws tok d true q false false false) c =
  state st ws (tok +:+ unescapedByte c) d true q false false false.
Proof.
  unfold writeEscaped, unescapedByte. repeat case_match; try done.
  change (String chBackslash (String c "")) with (String chBackslash "" +:+ String c "").
  by rewrite <- string_app_assoc.
Qed.

Lemma feed_balanced st ws d q v : ∀ e tok,
  balanced q e v = true →
  feed (state st ws tok d true (Some q) e false false) v =
  inr (state st ws (tok +:+ unescapeBytes e v) d true (Some q) false false false).
Proof.
  induction v as [|c v IH]; intros e tok Hb; cbn [balanced unescapeBytes] in *.
  { destruct e; [done|]. by rewrite string_app_nil_r. }
  destruct e.
  - rewrite (feed_step _ _ _ (state st ws (tok +:+ unescapedByte c) d true (Some q) false false false))
      by (rewrite <- writeEscaped_unescaped; done).
    by rewrite IH, string_app_assoc.
  - destruct (c =c chBackslash) eqn:Hc.
    + rewrite (feed_step _ _ _ (state st ws tok d true (Some q) true false false)); [by apply IH|].
      unfold next. cbn [tk_comment tk_escaped tk_quote state]. unfold inQuote. by rewrite Hc.
    + apply andb_true_iff in Hb as [Hq%negb_true_iff Hb].
      rewrite (feed_step _ _ _ (state st ws (tok +:+ String c "") d true (Some q) false false false)).
      * by rewrite IH, string_app_assoc.
      * unfold next. cbn [tk_comment tk_escaped tk_quote state]. unfold inQuote. by rewrite Hc, Hq.
Qed.

(** A balanced value between quotes is one argument. *)
Lemma feed_quoted_argument st ws d q v :
  q = chQuote ∨ q = chApos → balanced q false v = true →
  feed (ready st ws d) (String q (v +:+ String q ";")) =
  inr (ready (st ++ [{| st_depth := d; st_words := ws ++ [unescapeBytes false v] |}]) [] d).
Proof.
  intros Hq Hb. rewrite (feed_step _ _ _ (state st ws "" d true (Some q) false false false))
    by (by destruct Hq as [-> | ->]).
  rewrite feed_app, feed_balanced by done. change ("" +:+ ?t) with t.
  destruct Hq as [-> | ->]; by destruct ws.
Qed.

Lemma high_tests c :
  (128 <= byteVal c)%Z → (∀ n, n < 128 → (c =c byte_at n) = false).
Proof. intros Hc n Hn. rewrite eqb_byte by lia. apply Z.eqb_neq. lia. Qed.

Lemma unescapeBytes_high u t :
  highBytes u = true → unescapeBytes false (u +:+ t) = u +:+ unescapeBytes false t.
Proof.
  induction u as [|c u IH]; [done|]. rewrite highBytes_cons. intros [Hc%Z.leb_le Hu]%andb_true_iff.
  change (String c u +:+ t) with (String c (u +:+ t)). cbn [unescapeBytes]. unfold chBackslash.
  rewrite (high_tests c Hc) by lia. by rewrite IH.
Qed.

Lemma unescapedByte_low c : (byteVal c < 128)%Z → unescaped (byteVal c) = unescapedByte c.
Proof. destruct c as [[] [] [] [] [] [] [] []]; try (vm_compute; by intros ?). all: intros ?; done. Qed.

Lemma encodeRune_low c : (byteVal c < 128)%Z → encodeRune (byteVal c) = String c "".
Proof. intros Hc. unfold encodeRune. rewrite (proj2 (Z.ltb_lt _ _) Hc). by rewrite (byteOf_byteVal c _ eq_refl). Qed.

(** UnescapeNGINXToken works byte for byte on valid UTF-8. *)
Lemma UnescapeNGINXToken_bytes v : ValidString v = true → UnescapeNGINXToken v = unescapeBytes false v.
Proof.
  unfold UnescapeNGINXToken. intros Hv. enough (
    unescapeBytes false v = unescapeRunes (runesOf v) ∧
    unescapeBytes true v = match runesOf v with
                           | [] => String chBackslash ""
                           | next :: rest => unescaped next +:+ unescapeRunes rest
                           end) as [-> _] by done.
  revert Hv. apply (runes_ind (λ t l ok, ok = true → unescapeBytes false t = unescapeRunes l ∧
    unescapeBytes true t = match l with
                           | [] => String chBackslash ""
                           | next :: rest => unescaped next +:+ unescapeRunes rest
                           end)).
  - done.
  - intros c t l ok Hc IH Hok. destruct (IH Hok) as [IH1 IH2]. cbn [unescapeBytes unescapeRunes].
    rewrite unescapedByte_low, encodeRune_low by done. split; [|by rewrite IH1].
    replace (c =c chBackslash) with (byteVal c =? rBackslash)%Z by (byte_tests; done).
    destruct (byteVal c =? rBackslash)%Z eqn:Hb; cbn [negb]; [|by rewrite IH1].
    rewrite IH2. destruct l; [|done]. apply Z.eqb_eq in Hb.
    by rewrite <- (byteOf_byteVal c _ eq_refl), Hb.
  - intros u t r l ok b Hu Hh Hr Henc IH [Hb Hok]%andb_true_iff. destruct (IH Hok) as [IH1 _].
    specialize (Henc Hb). cbn [unescapeRunes].
    assert (∀ k, (k < 128)%Z → (r =? k)%Z = false) as Hk by (intros; apply Z.eqb_neq; lia).
    unfold unescaped, rBackslash, rQuote, rApos. rewrite !Hk by lia. cbn [negb orb]. rewrite Henc.
    split; [by rewrite unescapeBytes_high, IH1|].
    destruct u as [|c u]; [done|]. rewrite highBytes_cons in Hh. apply andb_true_iff in Hh as [Hc%Z.leb_le Hh].
    change (String c u +:+ t) with (String c (u +:+ t)). cbn [unescapeBytes].
    rewrite unescapeBytes_high, IH1 by done. unfold unescapedByte, chQuote, chApos, chBackslash.
    rewrite !(high_tests c Hc) by lia. cbn [orb]. by rewrite !string_app_assoc.
Qed.

Lemma balanced_high q u t e :
  (byteVal q < 128)%Z → u ≠ "" → highBytes u = true → balanced q e (u +:+ t) = balanced q false t.
Proof.
  intros Hq. revert e. induction u as [|c u IH]; [done|]. intros e _. rewrite highBytes_cons.
  intros [Hc%Z.leb_le Hu]%andb_true_iff. change (String c u +:+ t) with (String c (u +:+ t)).
  cbn [balanced]. unfold chBackslash. rewrite (high_tests c Hc) by lia.
  replace (c =c q) with false by (symmetry; apply Ascii.eqb_neq; intros ->; lia). cbn [negb andb].
  destruct u as [|c' u]; [by destruct e|]. destruct e; by apply IH.
Qed.

Lemma quotedValue_balanced q msg v :
  (byteVal q < 128)%Z → quotedValue (byteVal q) msg false (runesOf v) = None → balanced q false v = true.
Proof.
  intros Hq. generalize false. apply (runes_ind (λ t l _, ∀ e, quotedValue (byteVal q) msg e l = None → balanced q e t = true)).
  - by intros [].
  - intros c t l _ Hc IH e. cbn [quotedValue balanced]. destruct (_ || _); [done|]. destruct e; [apply IH|].
    replace (c =c chBackslash) with (byteVal c =? rBackslash)%Z by (byte_tests; done).
    destruct (byteVal c =? rBackslash)%Z; [apply IH|].
    destruct (Ascii.eqb_spec c q) as [->|Hne]; [by rewrite Z.eqb_refl|].
    destruct (Z.eqb_spec (byteVal c) (byteVal q)); [done|]. apply IH.
  - intros u t r l _ _ Hu Hh Hr _ IH e. cbn [quotedValue].
    assert (∀ k, (k < 128)%Z → (r =? k)%Z = false) as Hk by (intros; apply Z.eqb_neq; lia).
    unfold rCR, rLF, rBackslash. rewrite !Hk by (done || lia). cbn [orb]. rewrite balanced_high by done.
    destruct e; apply IH.
Qed.

(** Quoted values.  A valid UTF-8 value that ValidateQuotedDirectiveValue
    accepts, rendered between double quotes, is one argument of its directive,
    and the argument is what UnescapeNGINXToken computes; the same holds for
    ValidateSingleQuotedDirectiveValue and single quotes. *)
Theorem quoted_value_is_one_argument value st d ws :
  ValidString value = true →
  let read q := feed (ready st ws d) (String q (value +:+ String q ";")) =
    inr (ready (st ++ [{| st_depth := d; st_words := ws ++ [UnescapeNGINXToken value] |}]) [] d) in
  (ValidateQuotedDirectiveValue value = None → read chQuote) ∧
  (ValidateSingleQuotedDirectiveValue value = None → read chApos).
Proof.
  intros Hv read. unfold read. rewrite UnescapeNGINXToken_bytes by done. split; intros Hq;
    (apply feed_quoted_argument; [auto|]); by eapply quotedValue_balanced.
Qed.

Lemma directive_value_contained_witness :
  ValidateDirectiveValue "${request_uri} consistent" = None ∧
  ∃ args, feed (ready [] ["hash"] 1) ("${request_uri} consistent" +:+ ";") =
    inr (ready ([] ++ [{| st_depth := 1; st_words := ["hash"] ++ args |}]) [] 1).
Proof.
  split; [vm_compute; reflexivity|].
  destruct (directive_value_contained "${request_uri} consistent" [] 1 ["hash"]) as (args & H & _);
    [vm_compute; reflexivity|discriminate|]. by exists args.
Defined.

Lemma quoted_value_is_one_argument_witness :
  UnescapeNGINXToken "a\.b\tc; }" ≠ "a\.b\tc; }" ∧
  feed (ready [] ["return"] 0) (String chQuote ("a\.b\tc; }" +:+ String chQuote ";")) =
    inr (ready ([] ++ [{| st_depth := 0; st_words := ["return"] ++ [UnescapeNGINXToken "a\.b\tc; }"] |}]) [] 0).
Proof.
  split; [discriminate|].
  apply (quoted_value_is_one_argument "a\.b\tc; }" [] 0 ["return"]); vm_compute; reflexivity.
Defined.
