(* ===== verification/VSValidationCorrect.v ===== *)
(** What the validators of VirtualServers, VirtualServerRoutes and
    TransportServers promise of the resources they accept. *)
From S2P Require Import Prelude GoStrings Regex Objects ProxyBuffers Directives Resources.
From S2P Require Import ConfigState.
From S2P Require Import ValidationLib ParsingHelpers CommonValidation.
From S2P Require Import VSUpstreamValidation VSRouteValidation GlobalConfigurationValidation.
From S2P Require Import TransportServerValidation Tokenizer TokenizerCorrect.
From S2P Require Import DirectivesCorrect.

Section Accepted.
Context `{VL : ValidationLib} `{LL : !ValidationLaws} `{MR : MapRange}.

(** ** Names of upstreams *)

Lemma validateUpstreamName_ok name fp : validateUpstreamName name fp = [] → Matches dns1035Label name.
Proof.
  unfold validateUpstreamName, validateDNS1035Label. case_bool_decide; [done|]. intros H'. noerrors.
  by apply IsDNS1035Label_sound.
Qed.

Lemma claimName_ok name fp names names' :
  claimName name fp names = ([], names') →
  Matches dns1035Label name ∧ name ∉ names ∧ names' = {[name]} ∪ names.
Proof.
  unfold claimName. destruct (validateUpstreamName name fp) eqn:Hv; [|done].
  apply validateUpstreamName_ok in Hv. case_bool_decide; [done|]. by intros [= <-].
Qed.

(** The names collected are those of the upstreams, which are distinct. *)
Lemma validateUpstreamsFrom_ok vsv fp i names us names' :
  validateUpstreamsFrom vsv fp i names us = ([], names') →
  NoDup (u_Name <$> us) ∧ (∀ u, u ∈ us → u_Name u ∉ names) ∧
  names' = list_to_set (u_Name <$> us) ∪ names ∧
  (∀ u, u ∈ us → Matches dns1035Label (u_Name u) ∧ ∃ idx, validateUpstreamFields vsv u idx = []).
Proof.
  revert i names names'. induction us as [|u us IH]; intros i names names'; cbn [validateUpstreamsFrom].
  { intros [= <-]. split_and!; [constructor|set_solver|set_solver|by intros ? ?%elem_of_nil]. }
  destruct (claimName _ _ names) as [nameErrs names1] eqn:Hc.
  destruct (validateUpstreamsFrom vsv fp (S i) names1 us) as [restErrs names2] eqn:Hr.
  intros [= He <-]. noerrors. subst.
  apply claimName_ok in Hc as (Hm & Hfresh & ->).
  apply IH in Hr as (Hnd & Hnot & -> & Hall). csimpl. split_and!.
  - apply NoDup_cons. split; [|done]. intros (u' & Heq & Hu')%list_elem_of_fmap.
    apply (Hnot u' Hu'). rewrite <- Heq. set_solver.
  - intros u' [->|Hu']%elem_of_cons; [done|]. specialize (Hnot u' Hu'). set_solver.
  - set_solver.
  - intros u' [->|Hu']%elem_of_cons; [eauto|by apply Hall].
Qed.

Lemma validateUpstreams_ok vsv us fp names :
  validateUpstreams vsv us fp = ([], names) →
  NoDup (u_Name <$> us) ∧ names = list_to_set (u_Name <$> us) ∧
  (∀ u, u ∈ us → Matches dns1035Label (u_Name u) ∧ ∃ idx, validateUpstreamFields vsv u idx = []).
Proof.
  intros (Hnd & _ & -> & Hall)%validateUpstreamsFrom_ok. split_and!; [done|set_solver|done].
Qed.

(** ** Actions *)

(** The upstreams an action sends requests to *)
Definition actionUpstreams (a : Action) : list string :=
  (if bool_decide (a_Pass a = "") then [] else [a_Pass a])
  ++ match a_Proxy a with Some p => [ap_Upstream p] | None => [] end.
(** All actions of a route: its own, and those of its splits and matches *)
Definition splitActions (splits : list TrafficSplit) : list Action := omap sp_Action splits.
Definition matchActions (m : Match) : list Action := option_list (mt_Action m) ++ splitActions (mt_Splits m).
Definition routeActions (r : Route) : list Action :=
  option_list (r_Action r) ++ splitActions (r_Splits r) ++ (r_Matches r ≫= matchActions).

Lemma validateReferencedUpstream_ok name fp names :
  validateReferencedUpstream name fp names = [] → name ∈ names.
Proof.
  unfold validateReferencedUpstream. destruct (validateUpstreamName name fp); [|done].
  intros H'. by noerrors.
Qed.

(** An action specifies one thing, sends requests to known upstreams, and redirects
    to URLs with a protocol. *)
Definition actionOk (names : gset string) (a : Action) : Prop :=
  countActions a = 1 ∧ (∀ u, u ∈ actionUpstreams a → u ∈ names) ∧
  ∀ rd, a_Redirect a = Some rd → Contains (ar_URL rd) "://" = true.

Lemma validateRedirectURL_ok vsv url fp vars : validateRedirectURL vsv url fp vars = [] → Contains url "://" = true.
Proof. unfold validateRedirectURL. case_bool_decide; [done|]. by destruct (Contains url _). Qed.

Lemma validateAction_ok vsv a fp names path internal :
  validateAction vsv a fp names path internal = [] →
  actionOk names a.
Proof.
  unfold validateAction. destruct (Nat.eqb_spec (countActions a) 1) as [Hc|]; [|done]. cbn [negb].
  intros H'. noerrors. split_and!; [done| |].
  2:{ intros rd Hrd. rewrite Hrd in *. cbn [whenSet] in *. unfold validateActionRedirect in *. noerrors.
      by eapply validateRedirectURL_ok. }
  unfold actionUpstreams. intros u [Hu|Hu]%elem_of_app.
  - case_bool_decide; [by apply elem_of_nil in Hu|]. apply list_elem_of_singleton in Hu as ->.
    by eapply validateReferencedUpstream_ok.
  - destruct (a_Proxy a) as [p|]; [|by apply elem_of_nil in Hu]. apply list_elem_of_singleton in Hu as ->.
    cbn [whenSet] in H'. unfold validateActionProxy in H'. noerrors. by eapply validateReferencedUpstream_ok.
Qed.

Definition wf_splits (splits : list TrafficSplit) : Prop :=
  splits ≠ [] → 2 ≤ length splits ∧ foldr Z.add 0%Z (sp_Weight <$> splits) = 100%Z ∧
    ∀ s, s ∈ splits → (0 <= sp_Weight s <= 100)%Z ∧ is_Some (sp_Action s).

Lemma validateSplits_ok vsv splits fp names path :
  validateSplits vsv splits fp names path = [] →
  wf_splits splits ∧
  ∀ a, a ∈ splitActions splits → actionOk names a.
Proof.
  unfold validateSplits. destruct (Nat.ltb_spec (length splits) 2) as [|Hlen]; [done|]. intros H'.
  noerrors. apply Z.eqb_eq in H'.
  assert (∀ s, s ∈ splits → (0 <= sp_Weight s <= 100)%Z ∧
    ∃ a, sp_Action s = Some a ∧ actionOk names a) as Hs.
  { intros s Hs. destruct (eachIndexed_elem _ _ _ H Hs) as [i Hi]. noerrors.
    apply IsInRange_range in H0. split; [done|]. destruct (sp_Action s) as [a|]; [|done].
    exists a. split; [done|]. by eapply validateAction_ok. }
  split.
  - intros _. split_and!; [done|done|]. intros s (Hw & a & Ha & _)%Hs. split; [done|]. by exists a.
  - intros a (s & (_ & a' & Ha' & Hok)%Hs & Ha)%list_elem_of_omap.
    by replace a with a' by congruence.
Qed.

Lemma validateMatch_ok vsv m fp names path :
  validateMatch vsv m fp names path = [] →
  mt_Conditions m ≠ [] ∧ wf_splits (mt_Splits m) ∧ (mt_Splits m = [] → is_Some (mt_Action m)) ∧
  ∀ a, a ∈ matchActions m → actionOk names a.
Proof.
  unfold validateMatch. intros H'. noerrors.
  assert (wf_splits (mt_Splits m) ∧ ∀ a, a ∈ splitActions (mt_Splits m) →
            actionOk names a) as [Hw Hs].
  { destruct (mt_Splits m) eqn:Hsp; [split; [done|by intros ? ?%elem_of_nil]|]. by eapply validateSplits_ok. }
  split_and!; [by destruct (mt_Conditions m)|done| |].
  { intros Heq. rewrite Heq in *. destruct (mt_Action m); [by eexists|done]. }
  intros a [Ha|Ha]%elem_of_app; [|by apply Hs].
  destruct (mt_Action m) as [a'|]; [|by apply elem_of_nil in Ha].
  apply list_elem_of_singleton in Ha as ->. by eapply validateAction_ok.
Qed.

(** ** Routes *)

(** an error page returns, or redirects to a URL with a protocol *)
Definition wf_errorPage (e : ErrorPage) : Prop :=
  match ep_Redirect e with
  | Some rd => Contains (ar_URL rd) "://" = true
  | None => is_Some (ep_Return e)
  end.
Lemma validateErrorPage_ok vsv e fp : validateErrorPage vsv e fp = [] → wf_errorPage e.
Proof.
  unfold validateErrorPage, errorPageHasRequiredFields, wf_errorPage.
  destruct (ep_Return e), (ep_Redirect e); try done. simpl. destruct (ep_Codes e); [done|].
  intros H'. noerrors. unfold validateErrorPageRedirect, validateActionRedirect in *. noerrors.
  by eapply validateRedirectURL_ok.
Qed.

(** Exactly one of action, splits, route and routeSelector; splits that add up;
    matches with conditions and a target; every action sends to a known upstream *)
Record wf_route (names : gset string) (forbidden : bool) (r : Route) : Prop := {
  wr_one : routeFieldCount r forbidden = 1;
  wr_path : r_Path r ≠ "";
  wr_splits : wf_splits (r_Splits r);
  wr_matches : ∀ m, m ∈ r_Matches r →
    mt_Conditions m ≠ [] ∧ wf_splits (mt_Splits m) ∧ (mt_Splits m = [] → is_Some (mt_Action m));
  wr_actions : ∀ a, a ∈ routeActions r → actionOk names a;
  wr_errorPages : ∀ e, e ∈ default [] (r_ErrorPages r) → wf_errorPage e;
  wr_subroute : forbidden = true → r_Route r = ""
}.

Lemma validateRoute_ok vsv r fp names forbidden ns :
  validateRoute vsv r fp names forbidden ns = [] → wf_route names forbidden r.
Proof.
  unfold validateRoute. intros H'. noerrors.
  rename H into Hpath, H1 into Hact, H2 into Hsplits, H3 into Hmatches, H5 into Hpages, H6 into Hroute, H7 into Hcount.
  apply Nat.eqb_eq in Hcount.
  assert (wf_splits (r_Splits r) ∧ ∀ a, a ∈ splitActions (r_Splits r) →
            actionOk names a) as [Hw Hs].
  { destruct (r_Splits r) eqn:Hsp; [split; [done|by intros ? ?%elem_of_nil]|]. by eapply validateSplits_ok. }
  split; [done| |done| | | |].
  - intros Heq. unfold validateRoutePath in Hpath. by rewrite Heq in Hpath.
  - intros m Hm. destruct (eachIndexed_elem _ _ _ Hmatches Hm) as [i Hi].
    apply validateMatch_ok in Hi as (? & ? & ? & _). done.
  - intros a [Ha|[Ha|Ha]%elem_of_app]%elem_of_app.
    + destruct (r_Action r) as [a'|]; [|by apply elem_of_nil in Ha].
      apply list_elem_of_singleton in Ha as ->. by eapply validateAction_ok.
    + by apply Hs.
    + apply list_elem_of_bind in Ha as (m & Ha & Hm).
      destruct (eachIndexed_elem _ _ _ Hmatches Hm) as [i Hi].
      apply validateMatch_ok in Hi as (_ & _ & _ & Hall). by apply Hall.
  - intros e He. destruct (eachIndexed_elem _ _ _ Hpages He) as [i Hi]. by eapply validateErrorPage_ok.
  - intros ->. destruct (decide (r_Route r = "")) as [|Hr]; [done|]. by rewrite bool_decide_eq_false_2 in Hroute.
Qed.

(** The loop over routes: every route is checked, and the normalised paths are
    distinct and new. *)
Lemma validateRoutesFrom_ok check fp i seen routes :
  validateRoutesFrom check fp i seen routes = [] →
  (∀ r, r ∈ routes → ∃ idx, check r idx = []) ∧
  NoDup ((λ r, NormalizePath (r_Path r)) <$> routes) ∧
  (∀ r, r ∈ routes → NormalizePath (r_Path r) ∉ seen).
Proof.
  revert i seen. induction routes as [|r routes IH]; intros i seen; cbn [validateRoutesFrom].
  { intros _. split_and!; [by intros ? ?%elem_of_nil|constructor|by intros ? ?%elem_of_nil]. }
  destruct (claimRoutePath _ _ _ seen) as [errs seen1] eqn:Hc. intros H'. noerrors. subst errs.
  unfold claimRoutePath in Hc. destruct (check r (Index fp i)) eqn:Hck; [|done].
  case_bool_decide as Hfresh; [done|]. injection Hc as <-.
  apply IH in H' as (Hall & Hnd & Hnew). csimpl. split_and!.
  - intros r' [->|Hr']%elem_of_cons; eauto.
  - apply NoDup_cons. split; [|done]. intros (r' & Heq & Hr')%list_elem_of_fmap.
    apply (Hnew r' Hr'). rewrite <- Heq. set_solver.
  - intros r' [->|Hr']%elem_of_cons; [done|]. specialize (Hnew r' Hr'). set_solver.
Qed.

(** ** References to VirtualServerRoutes *)

Definition vsrRefOf (namespace : string) (r : Route) : string :=
  if HasNamespace (r_Route r) then r_Route r else namespace +:+ "/" +:+ r_Route r.

Lemma addCategory_keeps ns l m ref x :
  x ∈ default [] (m !! ref) → x ∈ default [] (foldl (addCategory ns) m l !! ref).
Proof.
  revert m. induction l as [|[i r] l IH]; intros m Hx; [done|]. cbn [foldl]. apply IH.
  unfold addCategory. case_bool_decide; [done|].
  set (ref' := if HasNamespace _ then _ else _). destruct (decide (ref = ref')) as [->|Hne].
  - rewrite lookup_insert_eq. cbn. apply elem_of_app. by left.
  - by rewrite lookup_insert_ne.
Qed.

Lemma addCategory_elem ns l m i r :
  (i, r) ∈ l → r_Route r ≠ "" →
  (subrouteModifierCategory (r_Path r), i) ∈ default [] (foldl (addCategory ns) m l !! vsrRefOf ns r).
Proof.
  revert m. induction l as [|[j r'] l IH]; intros m; [by intros ?%elem_of_nil|].
  intros [[= <- <-]|Hin]%elem_of_cons Hr; cbn [foldl]; [|by apply IH].
  apply addCategory_keeps. unfold addCategory. rewrite bool_decide_eq_false_2 by done.
  fold (vsrRefOf ns r). rewrite lookup_insert_eq. cbn. apply elem_of_app. right. by constructor.
Qed.

Lemma mixedCategoryErrors_ok routes fp e x y :
  mixedCategoryErrors routes fp e = [] → x ∈ e.2 → y ∈ e.2 → x.1 = y.1.
Proof.
  unfold mixedCategoryErrors. destruct e as [ref [|[first k] infos]]; cbn; [by intros _ ?%elem_of_nil|].
  rewrite bind_nil. intros Hall.
  assert (∀ z : string * nat, z ∈ (first, k) :: infos → z.1 = first) as Hz.
  { intros z [->|Hz]%elem_of_cons; [done|]. specialize (Hall z Hz). by noerrors. }
  intros Hx%Hz Hy%Hz. congruence.
Qed.

Lemma validateVirtualServerRoutes_ok vsv routes fp names ns :
  validateVirtualServerRoutes vsv routes fp names ns = [] →
  NoDup ((λ r, NormalizePath (r_Path r)) <$> routes) ∧
  (∀ r, r ∈ routes → wf_route names false r) ∧
  (∀ r1 r2, r1 ∈ routes → r2 ∈ routes → r_Route r1 ≠ "" → r_Route r2 ≠ "" →
     vsrRefOf ns r1 = vsrRefOf ns r2 →
     subrouteModifierCategory (r_Path r1) = subrouteModifierCategory (r_Path r2)).
Proof.
  unfold validateVirtualServerRoutes. intros H'. noerrors.
  apply validateRoutesFrom_ok in H as (Hall & Hnd & _). split_and!; [done| |].
  - intros r Hr. destruct (Hall r Hr) as [idx Hi]. by eapply validateRoute_ok.
  - intros r1 r2 Hr1 Hr2 Hne1 Hne2 Href.
    set (m := foldl (addCategory ns) ∅ (imap pair routes)) in H'.
    assert (∀ r, r ∈ routes → r_Route r ≠ "" → ∃ i,
              (subrouteModifierCategory (r_Path r), i) ∈ default [] (m !! vsrRefOf ns r)) as Hcat.
    { intros r (i & Hi)%list_elem_of_lookup Hne. exists i. apply addCategory_elem; [|done].
      apply list_elem_of_lookup. exists i. by rewrite list_lookup_imap, Hi. }
    destruct (Hcat r1 Hr1 Hne1) as [i1 H1]. destruct (Hcat r2 Hr2 Hne2) as [i2 H2].
    rewrite Href in H1. destruct (m !! vsrRefOf ns r2) as [infos|] eqn:Hm; [|by apply elem_of_nil in H1].
    rewrite bind_nil in H'. specialize (H' (vsrRefOf ns r2, infos)).
    apply (mixedCategoryErrors_ok routes fp _ (_, i1) (_, i2) (H' ltac:(by apply elem_of_range)) H1 H2).
Qed.

(** ** Hosts and ports *)

Lemma validateHost_ok host fp :
  validateHost host fp = [] → Matches dns1123Subdomain host ∨ Matches wildcardDNS1123Subdomain host.
Proof.
  unfold validateHost. case_bool_decide; [done|]. destruct (HasPrefix host wildcardPrefix); intros H'; noerrors.
  - right. by apply IsWildcardDNS1123Subdomain_sound.
  - left. by apply IsDNS1123Subdomain_sound.
Qed.

Lemma validateUpstreamFields_port vsv u idx :
  validateUpstreamFields vsv u idx = [] → (1 <= u_Port u <= 65535)%Z.
Proof. unfold validateUpstreamFields. intros H'. noerrors. by apply IsValidPortNum_range. Qed.

Record wf_virtualServer (vs : VirtualServer) : Prop := {
  wv_host : Matches dns1123Subdomain (vs_Host vs) ∨ Matches wildcardDNS1123Subdomain (vs_Host vs);
  wv_names : NoDup (u_Name <$> vs_Upstreams vs);
  wv_upstreams u : u ∈ vs_Upstreams vs → Matches dns1035Label (u_Name u) ∧ (1 <= u_Port u <= 65535)%Z;
  wv_paths : NoDup ((λ r, NormalizePath (r_Path r)) <$> vs_Routes vs);
  wv_routes r : r ∈ vs_Routes vs → wf_route (list_to_set (u_Name <$> vs_Upstreams vs)) false r;
  wv_modifiers r1 r2 : r1 ∈ vs_Routes vs → r2 ∈ vs_Routes vs → r_Route r1 ≠ "" → r_Route r2 ≠ "" →
    vsrRefOf (om_Namespace (vs_Meta vs)) r1 = vsrRefOf (om_Namespace (vs_Meta vs)) r2 →
    subrouteModifierCategory (r_Path r1) = subrouteModifierCategory (r_Path r2)
}.

Lemma vsErrors_wf vsv vs : vsErrors vsv vs = [] → wf_virtualServer vs.
Proof.
  unfold vsErrors, validateVirtualServerSpec. destruct (validateUpstreams _ _ _) as [uerrs names] eqn:Hu.
  intros H'. noerrors. subst uerrs. apply validateUpstreams_ok in Hu as (Hnd & -> & Hus).
  apply validateVirtualServerRoutes_ok in H3 as (Hnp & Hwf & Hcat).
  split; [by eapply validateHost_ok|done| |done|done|done].
  intros u Hin. destruct (Hus u Hin) as [? [idx Hi]]. split; [done|]. by eapply validateUpstreamFields_port.
Qed.

(** Accepted VirtualServers.  If ValidateVirtualServer reports no error, the
    host is a DNS name, plain or wildcard; the upstreams have distinct DNS-1035
    names and ports from 1 to 65535; the normalised paths of the routes are
    distinct; every route has exactly one of action, splits, route and
    routeSelector, its splits are at least two with weights that add up to 100,
    and every action, also inside splits and matches, specifies one thing and
    sends requests only to upstreams of the VirtualServer; matches have conditions
    and a target, error pages a return or a redirect; and the paths that lead to one VirtualServerRoute have the same kind of modifier. *)
Theorem accepted_virtualServer_well_formed vsv vs :
  VSRouteValidation.ValidateVirtualServer vsv vs = None → wf_virtualServer vs.
Proof. intros Hv%ToAggregate_nil. by eapply vsErrors_wf. Qed.

(** ** VirtualServerRoutes *)

Lemma duplicatePaths_ok fp i seen routes :
  duplicatePaths fp i seen routes = [] →
  NoDup ((λ r, NormalizePath (r_Path r)) <$> routes) ∧
  (∀ r, r ∈ routes → NormalizePath (r_Path r) ∉ seen).
Proof.
  revert i seen. induction routes as [|r routes IH]; intros i seen; cbn [duplicatePaths].
  { intros _. split; [constructor|by intros ? ?%elem_of_nil]. }
  intros H'. noerrors. apply IH in H' as [Hnd Hnew]. csimpl. split.
  - apply NoDup_cons. split; [|done]. intros (r' & Heq & Hr')%list_elem_of_fmap.
    apply (Hnew r' Hr'). rewrite <- Heq. set_solver.
  - intros r' [->|Hr']%elem_of_cons; [done|]. specialize (Hnew r' Hr'). set_solver.
Qed.

(** How the subroutes fit the paths of the VirtualServer that lead to them: for
    regular expressions the normalised paths are the same set, an exact path has
    one subroute with that path, and below a prefix every path starts with it;
    alone, the subroutes have the same kind of modifier. *)
Definition subroutesFit (vsPaths : list string) (routes : list Route) : Prop :=
  match vsPaths with
  | [] => ∀ r1 r2, r1 ∈ routes → r2 ∈ routes →
            subrouteModifierCategory (r_Path r1) = subrouteModifierCategory (r_Path r2)
  | p :: rest =>
      if HasPrefix p "~" then
        ∀ path, path ∈ NormalizePath <$> vsPaths ↔ path ∈ (λ r, NormalizePath (r_Path r)) <$> routes
      else rest = [] ∧
        if HasPrefix p "=" then ∃ r, routes = [r] ∧ NormalizePath (r_Path r) = NormalizePath p
        else ∀ r, r ∈ routes → NormalizePath p = "" ∨ HasPrefix (NormalizePath (r_Path r)) (NormalizePath p) = true
  end.

Definition goodSubroutes (names : gset string) (vsPaths : list string) (routes : list Route) : Prop :=
  NoDup ((λ r, NormalizePath (r_Path r)) <$> routes) ∧
  (∀ r, r ∈ routes → wf_route names true r) ∧ subroutesFit vsPaths routes.

Lemma validateSubroutesStandalone_ok vsv routes fp names ns :
  validateSubroutesStandalone vsv routes fp names ns = [] → goodSubroutes names [] routes.
Proof.
  unfold validateSubroutesStandalone. set (typeErrs := match routes with [] => _ | _ => _ end).
  destruct typeErrs eqn:Ht; [|done]. intros (Hall & Hnd & _)%validateRoutesFrom_ok.
  split_and!; [done| |].
  - intros r Hr. destruct (Hall r Hr) as [idx Hi]. by eapply validateRoute_ok.
  - unfold typeErrs in Ht. destruct routes as [|r0 rest]; [by intros ? ? ?%elem_of_nil|].
    assert (∀ r, r ∈ r0 :: rest →
      subrouteModifierCategory (r_Path r) = subrouteModifierCategory (r_Path r0)) as Hcat.
    { intros r [->|Hr]%elem_of_cons; [done|]. destruct (eachIndexed_elem _ _ _ Ht Hr) as [i Hi]. by noerrors. }
    intros r1 r2 H1%Hcat H2%Hcat. congruence.
Qed.

Lemma validateSubroutesExact_ok vsv routes fp p names ns :
  HasPrefix p "~" = false → HasPrefix p "=" = true →
  validateSubroutesExact vsv routes fp p names ns = [] → goodSubroutes names [p] routes.
Proof.
  intros Hp1 Hp2. unfold validateSubroutesExact. destruct routes as [|r [|]]; [done| |done].
  case_bool_decide as Heq; [|done]. cbn [negb]. intros Hr%validateRoute_ok.
  split_and!; [apply NoDup_singleton|by intros ? ->%list_elem_of_singleton|].
  unfold subroutesFit. rewrite Hp1, Hp2. eauto.
Qed.

Lemma validateSubroutesRegex_ok vsv routes fp names p rest ns :
  HasPrefix p "~" = true →
  validateSubroutesRegex vsv routes fp names (p :: rest) ns = [] → goodSubroutes names (p :: rest) routes.
Proof.
  intros Hp. unfold validateSubroutesRegex. destruct (duplicatePaths fp 0 ∅ routes) eqn:Hdup; [|done].
  apply duplicatePaths_ok in Hdup as [Hnd _].
  destruct (_ ++ _) eqn:Hc; [|done]. intros Hall. apply app_nil in Hc as [Hc1 Hc2].
  split_and!; [done| |].
  - intros r Hr. destruct (eachIndexed_elem _ _ _ Hall Hr) as [idx Hi]. by eapply validateRoute_ok.
  - unfold subroutesFit. rewrite Hp. rewrite bind_nil in Hc1. intros path. split.
    + intros (q & -> & Hq)%list_elem_of_fmap. specialize (Hc1 q Hq). noerrors. by apply elem_of_list_to_set in Hc1.
    + intros (r & -> & Hr)%list_elem_of_fmap. destruct (eachIndexed_elem _ _ _ Hc2 Hr) as [i Hi].
      noerrors. by apply elem_of_list_to_set in Hi.
Qed.

Lemma validateSubroutesPrefix_ok vsv routes fp names p ns :
  HasPrefix p "~" = false → HasPrefix p "=" = false →
  validateSubroutesPrefix vsv routes fp names p ns = [] → goodSubroutes names [p] routes.
Proof.
  intros Hp1 Hp2 (Hall & Hnd & _)%validateRoutesFrom_ok. split_and!; [done| |].
  - intros r Hr. destruct (Hall r Hr) as [idx Hi]. noerrors. by eapply validateRoute_ok.
  - unfold subroutesFit. rewrite Hp1, Hp2. split; [done|]. intros r Hr.
    destruct (Hall r Hr) as [idx Hi]. noerrors. apply andb_false_iff in Hi as [Hi|Hi]; noerrors; auto.
Qed.

Lemma validateSubroutes_ok vsv routes fp names vsPaths ns :
  validateVirtualServerRouteSubroutes vsv routes fp names vsPaths ns = [] → goodSubroutes names vsPaths routes.
Proof.
  unfold validateVirtualServerRouteSubroutes. destruct vsPaths as [|p rest]; [apply validateSubroutesStandalone_ok|].
  destruct (_ && _) eqn:Hmulti; [done|]. unfold isRegexOrExactMatch.
  destruct (HasPrefix p "~") eqn:Hp1; cbn [orb].
  - destruct (HasPrefix p "=") eqn:Hp2; [|by apply validateSubroutesRegex_ok].
    by destruct p as [|[[] [] [] [] [] [] [] []] p].
  - assert (rest = []) as ->.
    { destruct rest; [done|]. cbn [forallb] in Hmulti. by rewrite Hp1 in Hmulti. }
    destruct (HasPrefix p "=") eqn:Hp2; [by apply validateSubroutesExact_ok|by apply validateSubroutesPrefix_ok].
Qed.

Record wf_virtualServerRoute (vsHost : string) (vsPaths : list string) (vsr : VirtualServerRoute) : Prop := {
  wvr_host : vsHost = "" ∨ vsr_Host vsr = vsHost;
  wvr_names : NoDup (u_Name <$> vsr_Upstreams vsr);
  wvr_paths : NoDup ((λ r, NormalizePath (r_Path r)) <$> vsr_Subroutes vsr);
  wvr_routes r : r ∈ vsr_Subroutes vsr → wf_route (list_to_set (u_Name <$> vsr_Upstreams vsr)) true r;
  wvr_fit : subroutesFit vsPaths (vsr_Subroutes vsr)
}.

Lemma vsrErrors_wf vsv vsr vsHost vsPaths :
  vsrErrors vsv vsr vsHost vsPaths = [] → wf_virtualServerRoute vsHost vsPaths vsr.
Proof.
  unfold vsrErrors, validateVirtualServerRouteSpec. destruct (validateUpstreams _ _ _) as [uerrs names] eqn:Hu.
  intros H'. noerrors. subst uerrs. apply validateUpstreams_ok in Hu as (Hnd & -> & _).
  apply validateSubroutes_ok in H' as (? & ? & ?). split; try done.
  unfold validateVirtualServerRouteHost in H. noerrors. apply andb_false_iff in H as [H|H]; noerrors; auto.
Qed.

(** Accepted VirtualServerRoutes.  A VirtualServerRoute that is accepted for
    the host and the paths of a VirtualServer has that host, distinct upstream
    names, subroutes with distinct normalised paths that send requests only to
    its own upstreams and refer to no further VirtualServerRoute, and its
    subroutes fit the paths of the VirtualServer. *)
Theorem accepted_virtualServerRoute_fits vsv vsr vsHost vsPaths :
  VSRouteValidation.ValidateVirtualServerRouteForVirtualServer vsv vsr vsHost vsPaths = None →
  wf_virtualServerRoute vsHost vsPaths vsr.
Proof. intros Hv%ToAggregate_nil. by eapply vsrErrors_wf. Qed.

(** ** Strings with variables *)

(** Plain bytes, and variables in braces whose names satisfy [ok] *)
Inductive varString (ok : string → Prop) : string → Prop :=
  | VNil : varString ok ""
  | VByte c s : c ≠ byte_at 36 → varString ok s → varString ok (String c s)
  | VVar name s : ok name → containsByte (byte_at 125) name = false → varString ok s →
      varString ok ("${" +:+ name +:+ "}" +:+ s).

Lemma varString_mono (ok ok' : string → Prop) s :
  (∀ n, ok n → ok' n) → varString ok s → varString ok' s.
Proof. intros Hok. induction 1; [apply VNil|by apply VByte|apply VVar; auto]. Qed.

(** A match of nginxVariableRegexp is a variable in braces with its name. *)
Lemma nginxVariable_captures text caps :
  Captures nginxVariableRegexp text caps →
  ∃ name, text = "${" +:+ name +:+ "}" ∧ caps = [name] ∧ containsByte (byte_at 125) name = false.
Proof.
  unfold nginxVariableRegexp. cbn [RCats].
  inversion 1 as [| |? ? s1 s2 c1 c2 H1 H2| | | |]; subst.
  inversion H2 as [| |? ? s3 s4 c3 c4 H3 H4| | | |]; subst.
  inversion H4 as [| |? ? s5 s6 c5 c6 H5 H6| | | |]; subst.
  inversion H6; subst. inversion H5 as [|? e He| | | | |]; subst.
  inversion H3 as [| | | | | |? ? ? H7]; subst. inversion H7 as [| | | | |? ? H8|]; subst.
  cbn [RLit] in H1. inversion H1 as [| |? ? t1 t2 d1 d2 G1 G2| | | |]; subst.
  inversion G2 as [| |? ? t3 t4 d3 d4 G3 G4| | | |]; subst. inversion G4; subst.
  inversion G1 as [|? x1 Hx1| | | | |]; subst. inversion G3 as [|? x2 Hx2| | | | |]; subst.
  apply Ascii.eqb_eq in Hx1, Hx2. subst. exists s3. split_and!; [|done|].
  - apply ceqb_eq in He. rewrite <- (Ascii.ascii_nat_embedding e), He, string_app_nil_r. done.
  - apply Matches_star_class in H8. destruct (containsByte (byte_at 125) s3) eqn:Hb; [|done].
    pose proof (proj1 (forallBytes_spec _ _) H8 _ Hb) as Hx. by vm_compute in Hx.
Qed.

Lemma HasPrefix_byte c s : HasPrefix s (String c "") = true → ∃ s', s = String c s'.
Proof.
  destruct s as [|e s]; [done|]. unfold HasPrefix. cbn [String.prefix].
  destruct (Ascii.ascii_dec c e) as [->|]; [eauto|done].
Qed.

Lemma Contains_split s :
  Contains s "}" = true → ∃ name rest, s = name +:+ "}" +:+ rest ∧ containsByte (byte_at 125) name = false.
Proof.
  induction s as [|c s IH]; cbn [Contains]; [done|].
  destruct (decide (c = byte_at 125)) as [->|Hne].
  - intros _. by exists "", s.
  - intros [Hp|Hs]%orb_true_iff.
    + apply HasPrefix_byte in Hp as [s' [= -> _]]. done.
    + destruct (IH Hs) as (name & rest & -> & Hb). exists (String c name), rest. split; [done|].
      cbn [containsByte]. rewrite Hb, bool_decide_eq_false_2 by congruence. done.
Qed.

(** Where a dollar is followed by braces, the expression matches. *)
Lemma nginxVariable_runs s :
  HasPrefix s "{" = true → Contains s "}" = true → runs nginxVariableRegexp (String (byte_at 36) s) ≠ [].
Proof.
  intros [s' ->]%HasPrefix_byte Hc. rename s' into s.
  assert (Contains s "}" = true) as Hs by (cbn [Contains] in Hc; exact Hc).
  destruct (Contains_split s Hs) as (name & rest & -> & Hb).
  assert (Matches nginxVariableRegexp ("${" +:+ name +:+ "}")) as Hm.
  { unfold nginxVariableRegexp. cbn [RCats]. apply Matches_cat. exists "${", (name +:+ "}").
    split_and!; [done|by apply Matches_lit|]. apply Matches_cat. exists name, "}". split_and!; [done| |].
    - apply Matches_group, Matches_star_class, forallBytes_spec. intros c Hcb.
      rewrite inRanges_one. cbn [existsb inRanges]. rewrite orb_false_r. apply negb_true_iff.
      destruct (ceqb c 125) eqn:Heq; [|done]. apply ceqb_eq in Heq.
      rewrite <- (Ascii.ascii_nat_embedding c), Heq in Hcb. unfold byte_at in Hb. by rewrite Hb in Hcb.
    - apply Matches_cat. exists "}", "". split_and!; [done| |by constructor].
      apply Matches_class. by exists (byte_at 125). }
  destruct (runs_complete _ _ rest Hm) as [caps Hin]. intros Heq.
  rewrite !string_app_assoc in Hin.
  change ("${" +:+ name +:+ "}" +:+ rest) with
    (String (byte_at 36) (String (Ascii.Ascii true true false true true true true false) (name +:+ "}" +:+ rest)))
    in Hin.
  rewrite Heq in Hin. by apply elem_of_nil in Hin.
Qed.

Lemma dollarsBraced_app a b : dollarsBraced (a +:+ b) = true → dollarsBraced b = true.
Proof.
  induction a as [|c a IH]; [done|]. change (String c a +:+ b) with (String c (a +:+ b)).
  cbn [dollarsBraced]. intros [_ Hb]%andb_true_iff. by apply IH.
Qed.

Lemma captures_varString (ok : string → Prop) fuel s :
  String.length s ≤ fuel → dollarsBraced s = true →
  (∀ m, m ∈ findAll fuel nginxVariableRegexp s → ok (default "" (head m.2))) → varString ok s.
Proof.
  revert s. induction fuel as [|fuel IH]; intros s Hlen Hd Hall.
  { destruct s; [constructor|cbn in Hlen; lia]. }
  cbn [findAll] in Hall. destruct (head (runs nginxVariableRegexp s)) as [x|] eqn:Hh.
  - apply head_Some_elem_of in Hh. destruct (runs_sound _ _ _ Hh) as [Hs _].
    destruct (nginxVariable_captures _ _ (runs_captures _ _ _ Hh)) as (name & Ht & Hcap & Hb).
    rewrite Ht, !string_app_assoc in Hs. rewrite Hs. constructor; [|done|].
    + specialize (Hall (run_text x, run_caps x)). rewrite Hcap in Hall. apply Hall. by left.
    + apply IH.
      * rewrite Hs in Hlen. rewrite !string_app_length in Hlen. cbn in Hlen. lia.
      * rewrite Hs in Hd. by do 3 apply dollarsBraced_app in Hd.
      * intros m Hm. apply Hall. by right.
  - destruct s as [|c s]; [constructor|]. cbn [dollarsBraced] in Hd. apply andb_true_iff in Hd as [Hc Hd].
    constructor; [|apply IH; [cbn in Hlen; lia|done|done]]. intros ->. cbn in Hc.
    apply andb_true_iff in Hc as [Hp Hct]. apply (nginxVariable_runs s Hp Hct).
    destruct (runs _ _); [done|discriminate].
Qed.

(** ** Names of variables *)

Lemma cutAt_spec sep s a b : cutAt sep s = Some (a, b) → s = a +:+ String sep b.
Proof.
  revert a. induction s as [|c s IH]; intros a; cbn [cutAt]; [done|].
  destruct (Ascii.eqb_spec c sep) as [->|]; [by intros [= <- <-]|].
  destruct (cutAt sep s) as [[a' b']|] eqn:Hc; [|done]. intros [= <- <-]. by rewrite (IH a' eq_refl).
Qed.

Lemma SplitN_two sep s a b : SplitN sep s 2 = [a; b] → s = a +:+ String sep b.
Proof.
  cbn. destruct (cutAt sep s) as [[a' b']|] eqn:Hc; [|done]. intros [= <- <-]. by apply cutAt_spec.
Qed.

Lemma SplitN_three sep s a b c : SplitN sep s 3 = [a; b; c] → s = (a +:+ String sep b) +:+ String sep c.
Proof.
  cbn. destruct (cutAt sep s) as [[a' b']|] eqn:Hc; [|done].
  destruct (cutAt sep b') as [[a'' b'']|] eqn:Hc'; [|done]. intros [= <- <- <-].
  apply cutAt_spec in Hc, Hc'. subst. by rewrite string_app_assoc.
Qed.

Definition wordString (s : string) : bool := forallBytes isWordByte s.

Lemma wordRegexp_word s : MatchString wordRegexp s = true → wordString s = true.
Proof.
  intros Hm%MatchString_spec%Matches_alphabet. eapply forallBytes_mono; [|exact Hm].
  intros c. cbn. by rewrite orb_diag.
Qed.

Lemma Contains_byte_free c s : Contains s (String c "") = false → containsByte c s = false.
Proof.
  induction s as [|e s IH]; cbn [Contains containsByte]; [done|]. intros [Hp Hs]%orb_false_iff.
  rewrite IH by done. rewrite orb_false_r. apply bool_decide_eq_false. intros ->.
  unfold HasPrefix in Hp. cbn [String.prefix] in Hp. destruct (Ascii.ascii_dec e e); [|done].
  by destruct s.
Qed.

Lemma headerLike_word v : isValidSpecialHeaderLikeVariable v = [] → wordString v = true.
Proof.
  unfold isValidSpecialHeaderLikeVariable. destruct (IsHTTPHeaderName _) eqn:Hh; [|done].
  destruct (Contains v "-") eqn:Hd; [done|]. intros _.
  apply IsHTTPHeaderName_sound, Matches_alphabet in Hh. apply Contains_byte_free in Hd.
  revert Hh Hd. clear. induction v as [|c v IH]; [done|]. cbn [underscoresToDashes forallBytes containsByte].
  intros [Hc Hv]%andb_true_iff [Hne Hd]%orb_false_iff. unfold wordString. cbn [forallBytes].
  apply bool_decide_eq_false in Hne. apply andb_true_iff. split; [|by apply IH].
  revert Hc Hne. clear. destruct c as [[] [] [] [] [] [] [] []]; vm_compute; done.
Qed.

Lemma parseSpecialVariable_ok nVar fp name value :
  parseSpecialVariable nVar fp = inr (name, value) → nVar = name +:+ String underscore value.
Proof.
  unfold parseSpecialVariable. destruct (_ || _).
  - destruct (SplitN underscore nVar 3) as [|p0 [|p1 [|p2 []]]] eqn:Hs; try done. intros [= <- <-].
    by apply SplitN_three in Hs.
  - destruct (SplitN underscore nVar 2) as [|p0 [|p1 []]] eqn:Hs; try done. intros [= <- <-].
    by apply SplitN_two in Hs.
Qed.

Lemma wordMatch_word value (msgs : list string) :
  msgs ≠ [] → (if MatchString wordRegexp value then [] else msgs) = [] → wordString value = true.
Proof. intros ?. destruct (MatchString _ value) eqn:Hm; [|done]. by intros _; apply wordRegexp_word. Qed.

Lemma special_variable_word nVar fp isPlus :
  validateSpecialVariable nVar fp isPlus = [] → wordString nVar = true.
Proof.
  unfold validateSpecialVariable. destruct (parseSpecialVariable nVar fp) as [errs|[name value]] eqn:Hp.
  { intros ->. revert Hp. unfold parseSpecialVariable. by repeat case_match. }
  apply parseSpecialVariable_ok in Hp as ->. intros Hv.
  assert (wordString name = true ∧ wordString value = true) as [Hn Hw].
  { revert Hv. repeat case_bool_decide; subst; cbn [orb]; try done; try (destruct isPlus; [|done]);
      cbn [negb]; intros Hv%invalids_nil; (split; [done|]);
      first [by apply headerLike_word | unfold isArgumentName, isCookieName in *; eapply wordMatch_word; [|eassumption]; done]. }
  unfold wordString in *. rewrite forallBytes_app, Hn. cbn [forallBytes]. by rewrite Hw.
Qed.

Lemma captureVariables_elem m s :
  m ∈ findAll (String.length s) nginxVariableRegexp s → default "" (head m.2) ∈ captureVariables s.
Proof. intros Hm. unfold captureVariables, FindAllStringSubmatch. apply list_elem_of_fmap. by exists m. Qed.

(** What may stand between the braces of a variable *)
Definition variableAllowed (specialVars validVars : list string) (name : string) : Prop :=
  name ∈ validVars ∨ wordString name = true ∧ ∃ p, p ∈ specialVars ∧ HasPrefix name p = true.

Lemma validateStringWithVariables_ok str fp specialVars validVars isPlus :
  validateStringWithVariables str fp specialVars validVars isPlus = [] →
  varString (variableAllowed specialVars validVars) str.
Proof.
  unfold validateStringWithVariables. destruct (HasSuffix str "$"); [done|].
  destruct (dollarsBraced str) eqn:Hd; [|done]. cbn [negb]. rewrite bind_nil. intros Hall.
  apply (captures_varString _ (String.length str)); [done|done|]. intros m Hm%captureVariables_elem.
  specialize (Hall _ Hm). cbn beta in Hall. revert Hall. generalize (default "" (head m.2)). intros name.
  destruct (existsb (HasPrefix name) specialVars) eqn:He.
  - intros Hw%special_variable_word. apply existsb_exists in He as (p & Hp & Hpre).
    right. split; [done|]. exists p. by rewrite list_elem_of_In.
  - unfold validateVariable. case_bool_decide; [by left|done].
Qed.

(** An escaped string keeps the quotes it is put into closed. *)
Lemma escapedString_balanced v : escapedString v = true → balanced chQuote false v = true.
Proof.
  remember (String.length v) as n eqn:Hn. revert v Hn.
  induction n as [n IH] using lt_wf_ind. intros v ->. destruct v as [|c v]; [done|].
  cbn [escapedString balanced]. rewrite !ceqb_byte. 
  assert ((c =c chBackslash) = (byteVal c =? Z.of_nat 92)%Z) as -> by (by apply eqb_byte; lia).
  assert ((c =c chQuote) = (byteVal c =? Z.of_nat 34)%Z) as -> by (by apply eqb_byte; lia).
  destruct (byteVal c =? Z.of_nat 34)%Z; [done|]. destruct (byteVal c =? Z.of_nat 92)%Z.
  - destruct v as [|e v]; [done|]. intros [_ Hv]%andb_true_iff. cbn [balanced].
    eapply IH; [|done|done]. cbn. lia.
  - intros Hv. cbn [negb andb]. eapply IH; [|done|done]. cbn. lia.
Qed.

(** Return bodies and header values.  A valid UTF-8 string that
    validateEscapedStringWithVariables accepts (the body of a return action, the
    value of a header) consists of plain text and of variables in braces; each
    variable is one of the listed ones or a word with a listed special prefix, and
    no other dollar occurs.  Rendered between double quotes it is one argument of
    its directive, with the escapes resolved. *)
Theorem escaped_string_with_variables_contained body fp specialVars validVars isPlus st d ws :
  validateEscapedStringWithVariables body fp specialVars validVars isPlus = [] → ValidString body = true →
  varString (variableAllowed specialVars validVars) body ∧
  feed (ready st ws d) (String chQuote (body +:+ String chQuote ";")) =
    inr (ready (st ++ [{| st_depth := d; st_words := ws ++ [UnescapeNGINXToken body] |}]) [] d).
Proof.
  unfold validateEscapedStringWithVariables. intros He Hv. noerrors.
  split; [by eapply validateStringWithVariables_ok|].
  destruct (ValidateEscapedString _ _) eqn:Hesc; [done|]. apply ValidateEscapedString_spec in Hesc.
  rewrite UnescapeNGINXToken_bytes by done. apply feed_quoted_argument; [by left|].
  by apply escapedString_balanced.
Qed.

(** ** TransportServers *)

Lemma validateTSUpstreamsFrom_ok tsv fp i names us names' :
  validateTSUpstreamsFrom tsv fp i names us = ([], names') →
  NoDup (tsu_Name <$> us) ∧ (∀ u, u ∈ us → tsu_Name u ∉ names) ∧
  names' = list_to_set (tsu_Name <$> us) ∪ names ∧
  (∀ u, u ∈ us → Matches dns1035Label (tsu_Name u) ∧ (1 <= tsu_Port u <= 65535)%Z).
Proof.
  revert i names names'. induction us as [|u us IH]; intros i names names'; cbn [validateTSUpstreamsFrom].
  { intros [= <-]. split_and!; [constructor|set_solver|set_solver|by intros ? ?%elem_of_nil]. }
  destruct (claimName _ _ names) as [nameErrs names1] eqn:Hc.
  destruct (validateTSUpstreamsFrom tsv fp (S i) names1 us) as [restErrs names2] eqn:Hr.
  intros [= He <-]. unfold validateTSUpstreamFields in He. noerrors. subst.
  apply claimName_ok in Hc as (Hm & Hfresh & ->).
  apply IH in Hr as (Hnd & Hnot & -> & Hall). csimpl. split_and!.
  - apply NoDup_cons. split; [|done]. intros (u' & Heq & Hu')%list_elem_of_fmap.
    apply (Hnot u' Hu'). rewrite <- Heq. set_solver.
  - intros u' [->|Hu']%elem_of_cons; [done|]. specialize (Hnot u' Hu'). set_solver.
  - set_solver.
  - intros u' [->|Hu']%elem_of_cons; [|by apply Hall]. split; [done|]. by apply IsValidPortNum_range.
Qed.

(** Listener, host and TLS of a TransportServer agree. *)
Definition listenerAgrees (ts : TransportServer) : Prop :=
  let l := ts_Listener ts in
  (tsl_Name l = TLSPassthroughListenerName ↔ tsl_Protocol l = TLSPassthroughListenerProtocol) ∧
  (tsl_Protocol l = TLSPassthroughListenerProtocol → ts_Host ts ≠ "" ∧ ts_TLSSecret ts = None) ∧
  (tsl_Protocol l ≠ TLSPassthroughListenerProtocol →
     Matches dns1035Label (tsl_Name l) ∧ tsl_Protocol l ∈ allowedProtocols) ∧
  (tsl_Protocol l = "UDP" → ts_Host ts = "") ∧
  (ts_Host ts ≠ "" → tsl_Protocol l = TLSPassthroughListenerProtocol ∨
     ∃ secret, ts_TLSSecret ts = Some secret ∧ Matches dns1123Subdomain secret).

Lemma validateListenerProtocol_ok p fp : validateListenerProtocol p fp = [] → p ∈ allowedProtocols.
Proof. unfold validateListenerProtocol. by case_bool_decide. Qed.

Lemma noSecret_false tls : noSecret tls = false → ∃ secret, tls = Some secret ∧ secret ≠ "".
Proof. destruct tls; cbn; [|done]. intros. noerrors. eauto. Qed.

Lemma validateSecretName_ok s fp : s ≠ "" → validateSecretName s fp = [] → Matches dns1123Subdomain s.
Proof.
  intros Hs. unfold validateSecretName, validateK8SName. rewrite bool_decide_false by done.
  intros ?%invalids_nil. by apply IsDNS1123Subdomain_sound.
Qed.

Lemma listener_validated_agrees tsv ts lp hp tp :
  let pass := isPotentialTLSPassthroughListener (ts_Listener ts) in
  validateTransportListener tsv (ts_Listener ts) lp = [] →
  validateTransportServerHost (ts_Host ts) hp pass (tsl_Protocol (ts_Listener ts)) (ts_TLSSecret ts) = [] →
  validateTSTLS (ts_TLSSecret ts) pass tp (negb (bool_decide (ts_Host ts = ""))) = [] →
  listenerAgrees ts.
Proof.
  unfold listenerAgrees, validateTransportListener, isPotentialTLSPassthroughListener.
  destruct (ts_Listener ts) as [name protocol]. cbn [tsl_Name tsl_Protocol].
  destruct (bool_decide (name = _) || _) eqn:Hp; cbn zeta.
  - unfold validateTLSPassthroughListener. cbn [tsl_Name tsl_Protocol].
    intros Hl. assert (name = TLSPassthroughListenerName ∧ protocol = TLSPassthroughListenerProtocol) as [-> ->].
    { revert Hp Hl. destruct (negb _); [done|]. by repeat case_bool_decide. }
    unfold validateTransportServerHost, validateTSTLS.
    cbn [negb]. rewrite (bool_decide_false (_ = "UDP")) by done. intros Hh Ht. noerrors.
    split_and!; try done; try by left. intros _. split; [|done]. intros He. by rewrite He in Hh.
  - apply orb_false_iff in Hp as [Hn Hq]. noerrors. unfold validateRegularListener, validateListenerName.
    cbn [tsl_Name tsl_Protocol]. intros Hl Hh Ht. noerrors.
    apply validateListenerProtocol_ok in Hl. split_and!; try done.
    + intros _. split; [|done]. by eapply validateUpstreamName_ok.
    + intros ->. unfold validateTransportServerHost in Hh. rewrite bool_decide_true in Hh by done. by noerrors.
    + intros Hhost. right. unfold validateTSTLS in Ht. rewrite (bool_decide_false (ts_Host ts = "")) in Ht by done.
      cbn [negb] in Ht. destruct (noSecret _) eqn:Hs; [done|].
      apply noSecret_false in Hs as (secret & Heq & Hne). rewrite Heq in *. exists secret. split; [done|].
      by eapply validateSecretName_ok.
Qed.

(** Accepted TransportServers.  If ValidateTransportServer reports no error,
    the built-in TLS Passthrough listener is used exactly with its protocol, then
    with a host and without TLS termination; another listener has a DNS-1035 name
    and the protocol TCP, UDP or HTTP; UDP goes without a host, and a host on another
    listener with a TLS secret; the upstreams have distinct DNS-1035 names and
    ports from 1 to 65535, and the action passes to one of them. *)
Theorem accepted_transportServer_well_formed tsv ts :
  TransportServerValidation.ValidateTransportServer tsv ts = None →
  listenerAgrees ts ∧
  NoDup (tsu_Name <$> ts_Upstreams ts) ∧
  (∀ u, u ∈ ts_Upstreams ts → Matches dns1035Label (tsu_Name u) ∧ (1 <= tsu_Port u <= 65535)%Z) ∧
  ∃ pass u, ts_Action ts = Some pass ∧ u ∈ ts_Upstreams ts ∧ tsu_Name u = pass.
Proof.
  intros Hv%ToAggregate_nil. revert Hv.
  unfold tsErrors, validateTransportServerSpec, validateTransportServerUpstreams.
  destruct (validateTSUpstreamsFrom _ _ _ _ _) as [uerrs names] eqn:Hu. intros H'. noerrors. subst uerrs.
  apply validateTSUpstreamsFrom_ok in Hu as (Hnd & _ & -> & Hus).
  split_and!; [by eapply listener_validated_agrees|done|done|].
  destruct (ts_Action ts) as [pass|]; [|done]. exists pass.
  match goal with H : validateTransportServerAction _ _ _ = [] |- _ => rename H into Hact end.
  unfold validateTransportServerAction in Hact. destruct (bool_decide (pass = "")); [done|].
  apply validateReferencedUpstream_ok in Hact as Hin.
  rewrite union_empty_r_L in Hin. apply elem_of_list_to_set, list_elem_of_fmap in Hin as (u & -> & Hu). eauto.
Qed.
End Accepted.

(** ** Examples *)

Section Examples.
#[local] Existing Instance sampleLib.
#[local] Existing Instance sampleLib_laws.
#[local] Existing Instance default_range.

Definition openVSV : VirtualServerValidator :=
  {| vsv_isPlus := false; vsv_isDosEnabled := false; vsv_isCertManagerEnabled := false;
     vsv_isExternalDNSEnabled := false; vsv_isDirectiveAutoadjustEnabled := false |}.
Definition openTSV : TransportServerValidator :=
  {| tsv_tlsPassthrough := true; tsv_snippetsEnabled := false; tsv_isPlus := false |}.
Definition cafeMeta (name : string) : ObjectMeta :=
  {| om_Namespace := "default"; om_Name := name; om_UID := name; om_CreationTimestamp := 1;
     om_Generation := 1; om_Annotations := None; om_Labels := ∅ |}.

Definition splitRoute (path u1 u2 : string) : Route :=
  {| r_Path := path; r_Policies := []; r_Route := ""; r_RouteSelector := None; r_Action := None;
     r_Splits := [ {| sp_Weight := 20; sp_Action := Some (passAction u1) |};
                   {| sp_Weight := 80; sp_Action := Some (passAction u2) |} ];
     r_Matches := []; r_ErrorPages := None; r_LocationSnippets := ""; r_AddHeaderInherit := ""; r_Dos := "" |}.
Definition delegateRoute (path route : string) : Route :=
  {| r_Path := path; r_Policies := []; r_Route := route; r_RouteSelector := None; r_Action := None;
     r_Splits := []; r_Matches := []; r_ErrorPages := None; r_LocationSnippets := "";
     r_AddHeaderInherit := ""; r_Dos := "" |}.

Definition cafeVS : VirtualServer :=
  {| vs_Meta := cafeMeta "cafe"; vs_IngressClass := ""; vs_Host := "cafe.example.com";
     vs_Listener := None; vs_TLS := None; vs_Gunzip := false; vs_Policies := [];
     vs_Upstreams := [plainUpstream "tea" "tea-svc" 80; plainUpstream "coffee" "coffee-svc" 8080];
     vs_Routes := [passRoute "/tea" "tea"; splitRoute "/both" "tea" "coffee"; delegateRoute "/deli" "deli"];
     vs_HTTPSnippets := ""; vs_ServerSnippets := ""; vs_AddHeaderInherit := "";
     vs_Dos := ""; vs_ExternalDNS := noExternalDNS |}.
Definition deliVSR : VirtualServerRoute :=
  {| vsr_Meta := cafeMeta "deli"; vsr_IngressClass := ""; vsr_Host := "cafe.example.com";
     vsr_Upstreams := [plainUpstream "soup" "soup-svc" 80];
     vsr_Subroutes := [passRoute "/deli/soup" "soup"] |}.
Definition dnsTS : TransportServer :=
  {| ts_Meta := cafeMeta "dns"; ts_IngressClass := ""; ts_TLSSecret := None;
     ts_Listener := {| tsl_Name := "dns-udp"; tsl_Protocol := "UDP" |};
     ts_ServerSnippets := ""; ts_StreamSnippets := ""; ts_Host := "";
     ts_Upstreams := [ {| tsu_Name := "dns"; tsu_Service := "coredns"; tsu_Port := 5353;
                          tsu_FailTimeout := ""; tsu_MaxFails := None; tsu_MaxConns := None;
                          tsu_HealthCheck := None; tsu_LoadBalancingMethod := ""; tsu_Backup := "";
                          tsu_BackupPort := None |} ];
     ts_UpstreamParameters := None; ts_SessionParameters := None; ts_Action := Some "dns" |}.

Lemma accepted_virtualServer_well_formed_witness :
  VSRouteValidation.ValidateVirtualServer openVSV cafeVS = None ∧ wf_virtualServer cafeVS.
Proof.
  split; [vm_compute; reflexivity|].
  apply (accepted_virtualServer_well_formed openVSV cafeVS). vm_compute. reflexivity.
Defined.

Lemma accepted_virtualServerRoute_fits_witness :
  wf_virtualServerRoute "cafe.example.com" ["/deli"] deliVSR ∧
  VSRouteValidation.ValidateVirtualServerRouteForVirtualServer openVSV deliVSR "cafe.example.com" ["/grill"] ≠ None.
Proof.
  split; [|vm_compute; discriminate].
  apply (accepted_virtualServerRoute_fits openVSV deliVSR). vm_compute. reflexivity.
Defined.

Lemma escaped_string_with_variables_contained_witness :
  varString (variableAllowed ["arg_"] ["request_uri"]) "no \${request_uri} for ${arg_user}; sorry" ∧
  feed (ready [] ["return"; "404"] 2)
    (String chQuote ("no \${request_uri} for ${arg_user}; sorry" +:+ String chQuote ";")) =
    inr (ready [{| st_depth := 2;
                   st_words := ["return"; "404"; "no \${request_uri} for ${arg_user}; sorry"] |}] [] 2).
Proof.
  apply (escaped_string_with_variables_contained "no \${request_uri} for ${arg_user}; sorry" "body"
           ["arg_"] ["request_uri"] false [] 2 ["return"; "404"]); vm_compute; reflexivity.
Defined.

Lemma accepted_transportServer_well_formed_witness :
  TransportServerValidation.ValidateTransportServer openTSV dnsTS = None ∧ listenerAgrees dnsTS.
Proof.
  split; [vm_compute; reflexivity|].
  apply (accepted_transportServer_well_formed openTSV dnsTS). vm_compute. reflexivity.
Defined.
End Examples.
