(* ===== verification/PolicyValidationCorrect.v ===== *)
(** What ValidatePolicy promises of the policies it accepts. *)
From S2P Require Import Prelude GoStrings Regex Objects ProxyBuffers Directives ValidationLib.
From S2P Require Import ParsingHelpers CommonValidation VSUpstreamValidation HostValidation.
From S2P Require Import PolicyValues Tokenizer TokenizerCorrect DirectivesCorrect.
From S2P Require Import VSValidationCorrect PolicyObjects PolicyValidation.
From S2P Require Import PolicySpecValidation.

(** What the validators of the values of policies promise: a value rendered into
    the configuration stays inside its directive. *)

(** ** The text that ReplaceAllString leaves *)

Definition maskVariables : string → string := ReplaceAllString nginxVariableRegexp "$variable".

(** No braced variable starts anywhere in the text. *)
Fixpoint noVariables (s : string) : Prop :=
  match s with
  | EmptyString => True
  | String c s' => runs nginxVariableRegexp (String c s') = [] ∧ noVariables s'
  end.

(** A run of the expression is a braced name, and what follows it. *)
Lemma variable_run s x :
  x ∈ runs nginxVariableRegexp s →
  ∃ name, run_text x = "${" +:+ name +:+ "}" ∧ containsByte (byte_at 125) name = false ∧
    s = "${" +:+ name +:+ "}" +:+ run_rest x.
Proof.
  intros Hx. destruct (runs_sound _ _ _ Hx) as [Hs _].
  destruct (nginxVariable_captures _ _ (runs_captures _ _ _ Hx)) as (name & Ht & _ & Hb).
  exists name. split_and!; [done|done|]. rewrite Hs, Ht. by rewrite !string_app_assoc.
Qed.

Lemma no_close_no_runs s : containsByte (byte_at 125) s = false → runs nginxVariableRegexp s = [].
Proof.
  intros Hc. destruct (runs nginxVariableRegexp s) as [|x l] eqn:Hr; [done|].
  destruct (variable_run s x) as (name & _ & _ & Hs); [rewrite Hr; by left|].
  rewrite Hs, !containsByte_app in Hc. cbn in Hc. by rewrite !orb_true_r in Hc.
Qed.

(** Without a closing brace nothing is replaced. *)
Lemma replaceAll_no_close fuel s :
  containsByte (byte_at 125) s = false → replaceAll fuel nginxVariableRegexp "$variable" s = s.
Proof.
  revert s. induction fuel as [|fuel IH]; intros s Hs; [done|]. cbn [replaceAll].
  rewrite no_close_no_runs by done. cbn [head]. destruct s as [|c s]; [done|].
  cbn [containsByte] in Hs. apply orb_false_iff in Hs as [_ Hs]. by rewrite IH.
Qed.

Lemma noVariables_no_close s : containsByte (byte_at 125) s = false → noVariables s.
Proof.
  induction s as [|c s IH]; [done|]. intros Hs. split; [by apply no_close_no_runs|]. apply IH.
  cbn [containsByte] in Hs. by apply orb_false_iff in Hs as [_ Hs].
Qed.

(** A text that does not start with a dollar and an opening brace has no run. *)
Lemma no_runs_start c s :
  (c = byte_at 36 → HasPrefix s "{" = false) → runs nginxVariableRegexp (String c s) = [].
Proof.
  intros Hc. destruct (runs nginxVariableRegexp (String c s)) as [|x l] eqn:Hr; [done|].
  destruct (variable_run (String c s) x) as (name & _ & _ & Hs); [rewrite Hr; by left|].
  change ("${" +:+ ?t) with (String (byte_at 36) (String (byte_at 123) t)) in Hs.
  injection Hs as -> ->. specialize (Hc eq_refl). cbn in Hc. by destruct (name +:+ "}" +:+ run_rest x).
Qed.

Lemma noVariables_variable s : noVariables s → noVariables ("$variable" +:+ s).
Proof. intros Hs. repeat (split; [by apply no_runs_start|]). exact Hs. Qed.

Lemma HasPrefix_cons c s : HasPrefix (String c s) (String c "") = true.
Proof. unfold HasPrefix. cbn [String.prefix]. destruct (Ascii.ascii_dec c c); [|done]. by destruct s. Qed.

Lemma containsByte_Contains c s : containsByte c s = true → Contains s (String c "") = true.
Proof.
  induction s as [|e s IH]; [done|]. cbn [containsByte Contains].
  intros [->%bool_decide_eq_true|Hs]%orb_true_iff; [by rewrite HasPrefix_cons|].
  rewrite IH by done. apply orb_true_r.
Qed.

Lemma replaceAll_open fuel s :
  HasPrefix (replaceAll (S fuel) nginxVariableRegexp "$variable" s) "{" = true → HasPrefix s "{" = true.
Proof.
  cbn [replaceAll]. intros (t & Ht)%HasPrefix_byte.
  destruct (head _) as [x|]; [cbn in Ht; discriminate|]. destruct s as [|c s]; [done|].
  injection Ht as -> _. apply HasPrefix_cons.
Qed.

(** Replacing leaves no braced variable. *)
Lemma replaceAll_noVariables fuel s :
  String.length s ≤ fuel → noVariables (replaceAll fuel nginxVariableRegexp "$variable" s).
Proof.
  revert s. induction fuel as [|fuel IH]; intros s Hlen; [destruct s; [done|cbn in Hlen; lia]|].
  cbn [replaceAll]. destruct (head (runs nginxVariableRegexp s)) as [x|] eqn:Hh.
  - apply head_Some_elem_of, variable_run in Hh as (name & _ & _ & Hs). apply noVariables_variable, IH.
    rewrite Hs, !string_app_length in Hlen. cbn in Hlen. lia.
  - destruct s as [|c s]; [done|]. cbn in Hlen. split; [|apply IH; lia].
    destruct (containsByte (byte_at 125) s) eqn:Hclose.
    + apply no_runs_start. intros ->. destruct fuel as [|fuel]; [destruct s; [done|cbn in Hlen; lia]|].
      apply not_true_iff_false. intros Hp%replaceAll_open.
      apply (nginxVariable_runs s Hp (containsByte_Contains _ _ Hclose)). by destruct (runs _ _).
    + rewrite replaceAll_no_close by done. by destruct (runs _ _).
Qed.

(** Masking does nothing to a text without braced variables. *)
Lemma mask_noVariables fuel before s :
  String.length s ≤ fuel → noVariables s → maskFuel fuel before s = s.
Proof.
  revert before s. induction fuel as [|fuel IH]; intros before s Hlen Hs; [destruct s; [done|cbn in Hlen; lia]|].
  destruct s as [|c s]; [done|]. cbn [maskFuel]. destruct Hs as [Hr Hs]. cbn in Hlen.
  destruct (bracedNginxVariableEnd before (String c s)) as [after|] eqn:Hb; [|by rewrite IH by (done || lia)].
  destruct (bracedNginxVariableEnd_spec _ _ _ Hb) as (_ & c' & name & _ & _ & Heq).
  exfalso. change (String chDollar ?t +:+ after) with (String (byte_at 36) (t +:+ after)) in Heq.
  injection Heq as -> ->. revert Hr. apply nginxVariable_runs; [apply HasPrefix_cons|].
  apply containsByte_Contains. change (String chOpen ?t +:+ after) with (String chOpen (t +:+ after)).
  change (String c' ?t +:+ after) with (String c' (t +:+ after)). rewrite string_app_assoc.
  cbn [containsByte]. rewrite containsByte_app. cbn. by rewrite !orb_true_r.
Qed.

(** ** Variables that are not escaped *)

(** No dollar in front of an opening brace is behind an unescaped backslash;
    [escaped] says whether the text starts behind one. *)
Fixpoint unescapedVariables (escaped : bool) (s : string) : bool :=
  match s with
  | EmptyString => true
  | String c s' => negb (escaped && ceqb c 36 && HasPrefix s' "{")
                   && unescapedVariables (ceqb c 92 && negb escaped) s'
  end.

Lemma unescapedVariables_app u v e :
  unescapedVariables e (u +:+ String chClose v) = true → unescapedVariables false v = true.
Proof.
  revert e. induction u as [|c u IH]; intros e.
  - change ("" +:+ String chClose v) with (String chClose v). cbn [unescapedVariables].
    by intros [_ Hv]%andb_true_iff.
  - change (String c u +:+ ?t) with (String c (u +:+ t)). cbn [unescapedVariables].
    intros [_ Hv]%andb_true_iff. by apply IH in Hv.
Qed.

Lemma nginxVariableName_spec name :
  MatchString nginxVariableNameRegexp name = true →
  ∃ c name', name = String c name' ∧ isNginxVariableStart c = true ∧
    forallBytes isNginxVariableChar name' = true.
Proof.
  intros (s1 & s2 & -> & (c & -> & Hc)%Matches_class & Hs%Matches_star_class)%MatchString_spec%Matches_cat.
  exists c, s2. split; [done|]. split; [destruct c as [[] [] [] [] [] [] [] []]; by vm_compute in Hc |- *|].
  eapply forallBytes_mono; [|exact Hs]. intros e. destruct e as [[] [] [] [] [] [] [] []]; by vm_compute.
Qed.

(** ** The name between the braces *)

Lemma TrimPrefix_app p s : TrimPrefix (p +:+ s) p = s.
Proof. unfold TrimPrefix, HasPrefix. by rewrite prefix_app, dropBytes_app. Qed.

(** ** Values with variables *)

Section Variables.
Context `{VL : ValidationLib}.

Lemma variableErrors_ok value fp name :
  variableErrors value fp ("${" +:+ name +:+ "}") = [] → MatchString nginxVariableNameRegexp name = true.
Proof.
  unfold variableErrors. rewrite TrimPrefix_app, TrimSuffix_app. intros Hn. noerrors.
  apply orb_false_iff in Hn as [Hn _]. by apply negb_false_iff in Hn.
Qed.

(** The scanner on the masked text and the tokenizer on the text agree. *)
Lemma replace_feed st d fuel value fp : ∀ rest ws s z s',
  String.length rest ≤ fuel → sim st d ws s z → unescapedVariables (ds_escaped s) rest = true →
  (∀ m, m ∈ findAll fuel nginxVariableRegexp rest → variableErrors value fp m.1 = []) →
  scanBytes s (replaceAll fuel nginxVariableRegexp "$variable" rest) = inr s' →
  ∃ z' ws', feed z rest = inr z' ∧ sim st d ws' s' z' ∧ ws `prefix_of` ws'.
Proof.
  induction fuel as [|fuel IH]; intros rest ws s z s' Hlen Hsim Hesc Hvars Hs.
  { destruct rest; [|cbn in Hlen; lia]. injection Hs as <-. by exists z, ws. }
  cbn [replaceAll] in Hs. cbn [findAll] in Hvars.
  destruct (head (runs nginxVariableRegexp rest)) as [x|] eqn:Hh.
  - apply head_Some_elem_of, variable_run in Hh as (name & Ht & _ & Hrest).
    assert (variableErrors value fp (run_text x) = []) as Hname by (apply (Hvars (run_text x, run_caps x)); by left).
    rewrite Ht in Hname. apply variableErrors_ok, nginxVariableName_spec in Hname as (c & name' & -> & Hc & Hname').
    rewrite scanBytes_app in Hs. destruct (scanBytes s "$variable") as [|s1] eqn:Hs1; [done|].
    assert (ds_escaped s = false) as He.
    { rewrite Hrest in Hesc. change ("${" +:+ ?t) with (String chDollar (String chOpen t)) in Hesc.
      cbn [unescapedVariables] in Hesc. apply andb_true_iff in Hesc as [Hesc _].
      change (String chOpen ?t) with (String (byte_at 123) t) in Hesc. rewrite HasPrefix_cons in Hesc.
      by destruct (ds_escaped s). }
    destruct (sim_variable _ _ _ _ _ _ _ _ Hsim He Hs1 Hc Hname') as (z1 & Hf & Hsim1 & He1 & _).
    edestruct (IH (run_rest x)) as (z' & ws' & Hf' & Hsim' & Hpre); [|exact Hsim1| | |exact Hs|].
    + rewrite Hrest, !string_app_length in Hlen. cbn in Hlen. lia.
    + rewrite He1. rewrite Hrest in Hesc.
      change ("${" +:+ String c name' +:+ "}" +:+ run_rest x)
        with ("${" +:+ String c name' +:+ String chClose (run_rest x)) in Hesc.
      rewrite <- string_app_assoc in Hesc. by apply unescapedVariables_app in Hesc.
    + intros m Hm. apply Hvars. by right.
    + exists z', ws'. split; [|done]. rewrite Hrest, <- !string_app_assoc, feed_app.
      change (("${" +:+ String c name') +:+ "}")
        with (String chDollar (String chOpen (String c (name' +:+ String chClose "")))).
      by rewrite Hf.
  - destruct rest as [|c rest]; [injection Hs as <-; by exists z, ws|].
    cbn [scanBytes] in Hs. destruct (scan s (byteVal c)) as [|s1] eqn:Hs1; [done|].
    destruct (sim_step _ _ _ _ _ _ _ Hsim Hs1) as (z1 & ws1 & Hn & Hsim1 & _ & Hpre1).
    cbn [unescapedVariables] in Hesc. apply andb_true_iff in Hesc as [_ Hesc].
    edestruct (IH rest) as (z' & ws' & Hf' & Hsim' & Hpre); [|exact Hsim1| | |exact Hs|].
    + cbn in Hlen. lia.
    + by rewrite (scan_escaped _ _ _ Hs1).
    + exact Hvars.
    + exists z', ws'. split; [by rewrite (feed_step _ _ _ _ Hn)|]. split; [done|by etrans].
Qed.

(** An accepted value, fed behind the words of a directive *)
Lemma value_with_variables_feed value fp st d ws :
  validateDirectiveValueWithVariables value fp = [] → unescapedVariables false value = true → ws ≠ [] →
  ∃ args, feed (ready st ws d) (value +:+ ";") =
    inr (ready (st ++ [{| st_depth := d; st_words := ws ++ args |}]) [] d).
Proof.
  unfold validateDirectiveValueWithVariables. intros Hv Hesc Hws. noerrors. rename H into Hvars.
  assert (ValidateDirectiveValue (maskVariables value) = None) as Hd.
  { unfold maskVariables. by destruct (ValidateDirectiveValue _). }
  unfold ValidateDirectiveValue in Hd. case_bool_decide; [done|].
  destruct (scanAll _ _) as [|s] eqn:Hs; [done|].
  unfold maskBracedNginxVariables in Hs. rewrite mask_noVariables in Hs
    by (done || apply replaceAll_noVariables; done).
  assert (sim st d ws startScanner (ready st ws d)) as Hsim by (by apply (SimOut _ _ _ "" false)).
  apply (scanAll_bytes _ _ _ _ _ _ _ Hsim) in Hs.
  destruct (replace_feed st d (String.length value) value fp value ws _ _ s (Nat.le_refl _) Hsim Hesc)
    as (z' & ws' & Hf & Hsim' & [new ->]); [|exact Hs|].
  - intros m Hm. rewrite bind_nil in Hvars. apply Hvars. apply list_elem_of_fmap. eauto.
  - destruct (sim_end _ _ _ _ _ Hsim' Hd) as (args & Hsemi & _); [left; by destruct ws|].
    exists (new ++ args). by rewrite feed_app, Hf, Hsemi, app_assoc.
Qed.
End Variables.

Lemma whenNonEmpty_nil s errs : whenNonEmpty s errs = [] ↔ (s ≠ "" → errs = []).
Proof. unfold whenNonEmpty. case_bool_decide; naive_solver. Qed.

(** ** Exactly one kind *)

Section Kinds.
Context `{VL : ValidationLib} `{UL : URLLib}.

(** The options that the kind of a policy needs *)
Definition featureEnabled (cfg : PolicyValidationConfig) (kind : string) : bool :=
  if bool_decide (kind = "jwt") then pvc_IsPlus cfg
  else if bool_decide (kind ∈ ["oidc"; "oidcNative"]) then pvc_IsPlus cfg && pvc_EnableOIDC cfg
  else if bool_decide (kind = "waf") then pvc_IsPlus cfg && pvc_EnableAppProtect cfg
  else true.

(** A gate is open exactly when the features are enabled, and it never stops the
    validation without an error. *)
Lemma gate_spec pf p cfg :
  pf ∈ policyFields →
  (pf_gateCheck pf p cfg = ([], false) ↔ featureEnabled cfg (pf_name pf) = true) ∧
  ((pf_gateCheck pf p cfg).2 = true → (pf_gateCheck pf p cfg).1 ≠ []).
Proof.
  intros Hpf. repeat (apply elem_of_cons in Hpf as [->|Hpf]; [cbn|]); [..|by apply elem_of_nil in Hpf];
    try (by split; [split|]); destruct cfg as [[] [] [] ?]; by split; [split|].
Qed.

(** The fields of a policy that are set *)
Definition setFields (spec : PolicySpec) : list policyFieldValidator :=
  filter (λ pf, pf_isSet pf spec = true) policyFields.

Lemma policyFieldsLoop_spec spec p cfg fields : (∀ pf, pf ∈ fields → pf ∈ policyFields) → ∀ errs n k,
  policyFieldsLoop spec p cfg fields errs n = ([], Some k) ↔
  errs = [] ∧ k = n + length (filter (λ pf, pf_isSet pf spec = true) fields) ∧
  ∀ pf, pf ∈ filter (λ pf, pf_isSet pf spec = true) fields →
    featureEnabled cfg (pf_name pf) = true ∧ pf_validate pf spec p cfg = [].
Proof.
  induction fields as [|pf fields IH]; intros Hin errs n k; cbn [policyFieldsLoop].
  { cbn. split; [intros [= -> ->]|intros (-> & -> & _)]; [|by rewrite Nat.add_0_r].
    split_and!; [done|lia|]. by intros pf ?%elem_of_nil. }
  assert (∀ pf, pf ∈ fields → pf ∈ policyFields) as Hin' by (intros pf' Hpf'; apply Hin; by right).
  rewrite filter_cons. destruct (pf_isSet pf spec) eqn:Hset; cbn [negb decide]; [|by apply IH].
  destruct (gate_spec pf p cfg) as [Hopen Hstop]; [apply Hin; by left|].
  rewrite decide_True by done.
  destruct (pf_gateCheck pf p cfg) as [gateErrs stop]. cbn [fst snd] in Hstop. destruct stop.
  - split; [done|]. intros (_ & _ & Hall). destruct (Hall pf ltac:(by left)) as [Hf _].
    by apply Hopen in Hf.
  - rewrite IH by done. rewrite !app_nil. setoid_rewrite elem_of_cons. split.
    + intros ((-> & -> & Hv) & -> & Hall). split_and!; [done|cbn; lia|].
      intros pf' [->|Hpf']; [|by apply Hall]. split; [by apply Hopen|done].
    + intros (-> & -> & Hall). destruct (Hall pf) as [Hf Hv]; [by left|]. apply Hopen in Hf as [= ->].
      split_and!; [done|done|done|cbn; lia|]. auto.
Qed.

Lemma policyFieldsLoop_stop spec p cfg fields : (∀ pf, pf ∈ fields → pf ∈ policyFields) → ∀ errs n errs',
  policyFieldsLoop spec p cfg fields errs n = (errs', None) → errs' ≠ [].
Proof.
  induction fields as [|pf fields IH]; intros Hin errs n errs'; cbn [policyFieldsLoop]; [done|].
  assert (∀ pf, pf ∈ fields → pf ∈ policyFields) as Hin' by (intros pf' Hpf'; apply Hin; by right).
  destruct (pf_isSet pf spec); cbn [negb]; [|by apply IH].
  destruct (gate_spec pf p cfg) as [_ Hstop]; [apply Hin; by left|].
  destruct (pf_gateCheck pf p cfg) as [gateErrs []]; [|by apply IH].
  intros [= <-]. intros [_ ->]%app_nil. by apply Hstop.
Qed.

Lemma policyFieldsLoop_one spec p cfg :
  policyFieldsLoop spec p cfg policyFields [] 0 = ([], Some 1) ↔
  ∃ pf, setFields spec = [pf] ∧ featureEnabled cfg (pf_name pf) = true ∧ pf_validate pf spec p cfg = [].
Proof.
  rewrite policyFieldsLoop_spec by done. unfold setFields. split.
  - intros (_ & Hlen & Hall). destruct (filter _ policyFields) as [|pf [|]]; try done.
    exists pf. split; [done|]. apply Hall. by left.
  - intros (pf & -> & Hf). split_and!; [done|done|]. by intros pf' ->%list_elem_of_singleton.
Qed.

Lemma policySpec_accepted spec p cfg :
  validatePolicySpec spec p cfg = [] ↔
  ∃ pf, setFields spec = [pf] ∧ featureEnabled cfg (pf_name pf) = true ∧ pf_validate pf spec p cfg = [].
Proof.
  rewrite <- policyFieldsLoop_one. unfold validatePolicySpec.
  destruct (policyFieldsLoop _ _ _ _ _ _) as [errs [k|]] eqn:Hl.
  - rewrite app_nil, errorIf_nil, negb_false_iff, Nat.eqb_eq.
    split; [by intros [-> ->]|by intros [= -> ->]].
  - apply policyFieldsLoop_stop in Hl; [|done]. split; [done|by intros [= -> ?]].
Qed.

(** C36.  Kinds of policies.  ValidatePolicy accepts a policy exactly when one of
    its fifteen fields is set, the features this field needs are enabled (NGINX
    Plus for jwt; NGINX Plus and -enable-oidc for oidc and oidcNative; NGINX Plus
    and -enable-app-protect for waf), and the validator of the field accepts it. *)
Theorem policy_accepted_iff policy cfg :
  ValidatePolicy policy cfg = None ↔
  ∃ pf, setFields (pol_Spec policy) = [pf] ∧
    featureEnabled cfg (pf_name pf) = true ∧ pf_validate pf (pol_Spec policy) "spec" cfg = [].
Proof.
  unfold ValidatePolicy. rewrite <- policySpec_accepted. split; [apply ToAggregate_nil|by intros ->].
Qed.
End Kinds.

(** ** Well-formed policies *)

(** A token of a JWT policy is one variable: an argument, a header or a cookie. *)
Definition jwtVariable (token : string) : Prop :=
  ∃ name, token = String dollar name ∧ wordString name = true ∧
    existsb (HasPrefix name) jwtTokenSpecialVariables = true.

Definition wf_condition (isPlus : bool) (c : RateLimitCondition) : Prop :=
  (is_Some (rlc_JWT c) ↔ rlc_Variables c = None) ∧ (is_Some (rlc_JWT c) → isPlus = true) ∧
  ∀ vars, rlc_Variables c = Some vars → vars ≠ [] ∧ ∀ v, v ∈ vars →
    ∃ name, vc_Name v = String dollar name ∧
      variableAllowed rateLimitKeySpecialVariables rateLimitKeyVariables name.

Definition wf_rateLimit (isPlus : bool) (rl : RateLimit) : Prop :=
  Matches policyRateRegexp (rl_Rate rl) ∧
  Matches sizeRegexp (TrimSpace (rl_ZoneSize rl)) ∧
  (∀ n, Atoi (TrimSuffix (ToLower (rl_ZoneSize rl)) "k") = Some n → (32 <= n)%Z) ∧
  varString (variableAllowed rateLimitKeySpecialVariables rateLimitKeyVariables) (rl_Key rl) ∧
  (∀ n, rl_Delay rl = Some n ∨ rl_Burst rl = Some n → (0 < n)%Z) ∧
  (∀ code, rl_RejectCode rl = Some code → (400 <= code <= 599)%Z) ∧
  (∀ c, rl_Condition rl = Some c → wf_condition isPlus c).

(** Exactly one list of addresses and blocks *)
Definition wf_accessControl `{URLLib} (ac : AccessControl) : Prop :=
  (is_Some (ac_Allow ac) ↔ ac_Deny ac = None) ∧
  ∀ ips ip, ac_Allow ac = Some ips ∨ ac_Deny ac = Some ips → ip ∈ ips → net_ParseCIDR ip = None ∨ net_ParseIP ip = true.

(** A realm has no variable, and no quote that would end the argument it is rendered in. *)
Definition realmText (realm : string) : Prop :=
  containsByte dollar realm = false ∧ balanced chQuote false realm = true.
Definition wf_basicAuth (basic : BasicAuth) : Prop :=
  Matches dns1123Subdomain (ba_Secret basic) ∧ realmText (ba_Realm basic).

(** Either a secret, or a JWKS URI with a key cache *)
Definition wf_jwt (jwt : JWTAuth) : Prop :=
  jwt_Realm jwt ≠ "" ∧ realmText (jwt_Realm jwt) ∧
  (jwt_Token jwt ≠ "" → jwtVariable (jwt_Token jwt)) ∧
  (Matches dns1123Subdomain (jwt_Secret jwt) ∧ jwt_JwksURI jwt = "" ∧ jwt_KeyCache jwt = "" ∧
     jwt_SNIEnabled jwt = false ∧ jwt_SNIName jwt = ""
   ∨ jwt_Secret jwt = "" ∧ jwt_JwksURI jwt ≠ "" ∧ jwt_KeyCache jwt ≠ "" ∧
     (jwt_TrustedCertSecret jwt ≠ "" → jwt_SSLVerify jwt = true)).

Definition wf_ingressMTLS (im : IngressMTLS) : Prop :=
  Matches dns1123Subdomain (im_ClientCertSecret im) ∧
  (im_CrlFileName im = "/" ∨ containsByte slash (im_CrlFileName im) = false) ∧
  im_CrlFileName im ∉ ["."; ".."] ∧
  im_VerifyClient im ∈ [""; "on"; "off"; "optional"; "optional_no_ca"] ∧
  ∀ n, im_VerifyDepth im = Some n → (0 <= n)%Z.

Definition wf_egressMTLS (em : EgressMTLS) : Prop :=
  (em_VerifyServer em = true → Matches dns1123Subdomain (em_TrustedCertSecret em)) ∧
  ∀ n, em_VerifyDepth em = Some n → (0 <= n)%Z.

Definition wf_oidc (oidc : OIDC) : Prop :=
  oidc_AuthEndpoint oidc ≠ "" ∧ oidc_TokenEndpoint oidc ≠ "" ∧ oidc_JWKSURI oidc ≠ "" ∧ oidc_ClientID oidc ≠ "" ∧
  (oidc_PKCEEnable oidc = true ↔ oidc_ClientSecret oidc = "") ∧
  (oidc_PostLogoutRedirectURI oidc ≠ "" → oidc_EndSessionEndpoint oidc ≠ "").

Definition wf_oidcNative `{URLLib} (o : OIDCNative) : Prop :=
  (∃ u, url_Parse (on_Issuer o) = inr u ∧ url_Scheme u = "https" ∧ url_HasUser u = false ∧
        url_RawQuery u = "" ∧ url_Fragment u = "") ∧
  (on_PKCE o = "on" → on_ClientSecret o = "") ∧ (on_PKCE o = "off" → on_ClientSecret o ≠ "").

Definition wf_apiKey (ak : APIKey) : Prop :=
  Matches dns1123Subdomain (ak_ClientSecret ak) ∧
  ∃ si, ak_SuppliedIn ak = Some si ∧ (is_Some (si_Header si) ∨ is_Some (si_Query si)) ∧
    (∀ l h, si_Header si = Some l → h ∈ l → Matches httpHeaderName h) ∧
    (∀ l q, si_Query si = Some l → q ∈ l → wordString q = true).

(** The security policy is given at most once, and the logs in the same way. *)
Definition bundleMode (waf : WAF) : Prop := waf_ApBundle waf ≠ "" ∨ is_Some (waf_ApBundleSource waf).
Definition wf_log (bundles : Prop) (log : SecurityLog) : Prop :=
  (slog_ApLogConf log ≠ "" → ¬ bundles ∧ slog_ApLogBundle log = "" ∧ slog_ApLogBundleSource log = None) ∧
  (slog_ApLogBundle log ≠ "" → bundles ∧ slog_ApLogBundleSource log = None) ∧
  (is_Some (slog_ApLogBundleSource log) → bundles).
Definition wf_waf (waf : WAF) : Prop :=
  (waf_ApPolicy waf ≠ "" → ¬ bundleMode waf) ∧
  (waf_ApBundle waf ≠ "" → waf_ApBundleSource waf = None) ∧
  (∀ log, waf_SecurityLog waf = Some log → wf_log (bundleMode waf) log) ∧
  (∀ logs log, waf_SecurityLogs waf = Some logs → log ∈ logs → wf_log (bundleMode waf) log).

Definition wf_cache (isPlus : bool) (cache : Cache) : Prop :=
  forallBytes (inRanges (alnumRanges ++ [one 95; one 45])) (cache_CacheZoneName cache) = true ∧
  (cache_AllowedCodes cache = [FromString "any"] ∨
   ∀ code, code ∈ cache_AllowedCodes cache → ∃ n, code = FromInt n ∧ (100 <= n <= 599)%Z) ∧
  (∀ m, m ∈ cache_AllowedMethods cache → m ∈ ["GET"; "HEAD"; "POST"]) ∧
  NoDup (cache_CacheUseStale cache) ∧
  (cache_CachePurgeAllow cache ≠ [] → isPlus = true).

Definition wf_cors (cors : CORS) : Prop :=
  NoDup (cors_AllowOrigin cors) ∧
  (∀ o, o ∈ cors_AllowOrigin cors → ContainsDangerousChars o = false) ∧
  (∀ m, m ∈ cors_AllowMethods cors → m ∈ validCORSMethods) ∧
  (∀ h, h ∈ cors_AllowHeaders cors → h = "*" ∨ isValidHeaderName h = true ∧ isForbiddenRequestHeader h = false) ∧
  (∀ h, h ∈ cors_ExposeHeaders cors → h = "*" ∨ isValidHeaderName h = true ∧ isForbiddenResponseHeader h = false).

Definition wf_wallarm (w : Wallarm) : Prop :=
  wal_Mode w ≠ "" ∧ (∀ p, p ∈ wal_ParserDisable w → ToLower p ∈ validWallarmParsers).

Definition wf_externalAuth (enableSnippets : bool) (ea : ExternalAuth) : Prop :=
  (ea_AuthSnippets ea ≠ "" → enableSnippets = true) ∧
  (∃ ns name, referenceParts (ea_AuthServiceName ea) = Some (ns, name) ∧ Matches dns1035Label name) ∧
  (ea_SSLVerify ea = true → ea_SSLEnabled ea = true) ∧
  (ea_TrustedCertSecret ea ≠ "" → ea_SSLVerify ea = true).

Definition wf_hsts (hsts : HSTS) : Prop :=
  ∃ maxAge, hsts_MaxAge hsts = Some maxAge ∧ (0 <= maxAge)%Z ∧
    (hsts_Preload hsts = true → hsts_IncludeSubDomains hsts = true ∧ (minAgeValueForPreload <= maxAge)%Z).

Definition wf_policy `{URLLib} (cfg : PolicyValidationConfig) (spec : PolicySpec) : Prop :=
  (∀ x, ps_AccessControl spec = Some x → wf_accessControl x) ∧
  (∀ x, ps_BasicAuth spec = Some x → wf_basicAuth x) ∧
  (∀ x, ps_RateLimit spec = Some x → wf_rateLimit (pvc_IsPlus cfg) x) ∧
  (∀ x, ps_JWTAuth spec = Some x → wf_jwt x) ∧
  (∀ x, ps_IngressMTLS spec = Some x → wf_ingressMTLS x) ∧
  (∀ x, ps_EgressMTLS spec = Some x → wf_egressMTLS x) ∧
  (∀ x, ps_OIDC spec = Some x → wf_oidc x) ∧
  (∀ x, ps_OIDCNative spec = Some x → wf_oidcNative x) ∧
  (∀ x, ps_APIKey spec = Some x → wf_apiKey x) ∧
  (∀ x, ps_WAF spec = Some x → wf_waf x) ∧
  (∀ x, ps_Cache spec = Some x → wf_cache (pvc_IsPlus cfg) x) ∧
  (∀ x, ps_CORS spec = Some x → wf_cors x) ∧
  (∀ x, ps_Wallarm spec = Some x → wf_wallarm x) ∧
  (∀ x, ps_ExternalAuth spec = Some x → wf_externalAuth (pvc_EnableSnippets cfg) x) ∧
  (∀ x, ps_HSTS spec = Some x → wf_hsts x).

Section WellFormed.
Context `{VL : ValidationLib} `{LL : !ValidationLaws} `{UL : URLLib}.

Lemma accepted_field {A} name (get : PolicySpec → option A) gate validate spec p cfg x :
  validatePolicySpec spec p cfg = [] → policyField name get gate validate ∈ policyFields →
  get spec = Some x → validate x (Child p name) cfg = [].
Proof.
  intros (pf & Hpf & _ & Hv)%policySpec_accepted Hin Hx.
  assert (policyField name get gate validate ∈ setFields spec) as Hset.
  { apply list_elem_of_filter. split; [|done]. cbn. apply bool_decide_eq_true. eauto. }
  rewrite Hpf in Hset. apply list_elem_of_singleton in Hset as <-. cbn in Hv. by rewrite Hx in Hv.
Qed.

Lemma validateSecretName_nil s fp : s ≠ "" → validateSecretName s fp = [] → Matches dns1123Subdomain s.
Proof.
  intros Hne. unfold validateSecretName, validateK8SName. rewrite bool_decide_eq_false_2 by done.
  intros H'. noerrors. by apply IsDNS1123Subdomain_sound.
Qed.

(** *** Rate limits *)

Lemma validateSize_ok size fp : size ≠ "" → validateSize size fp = [] → Matches sizeRegexp (TrimSpace size).
Proof.
  intros Hne. unfold validateSize. rewrite bool_decide_eq_false_2 by done. destruct (negb _); [done|].
  unfold ParseSize. destruct (MatchString sizeRegexp _) eqn:Hm; [|done]. intros _. by apply MatchString_spec.
Qed.

Lemma specialOrListed_ok name fp isPlus specialVars validVars :
  (if existsb (HasPrefix name) specialVars then validateSpecialVariable name fp isPlus
   else validateVariable name validVars fp) = [] →
  variableAllowed specialVars validVars name.
Proof.
  destruct (existsb (HasPrefix name) specialVars) eqn:He.
  - intros Hw%special_variable_word. apply existsb_exists in He as (q & Hq & Hpre).
    right. split; [done|]. exists q. by rewrite list_elem_of_In.
  - unfold validateVariable. case_bool_decide; [by left|done].
Qed.

Lemma variableCondition_ok c fp isPlus :
  validateRateLimitVariableCondition c fp isPlus = [] →
  ∃ name, vc_Name c = String dollar name ∧
    variableAllowed rateLimitKeySpecialVariables rateLimitKeyVariables name.
Proof.
  unfold validateRateLimitVariableCondition. intros [Hn _]%app_nil. revert Hn.
  destruct (_ || _) eqn:Ht; [done|]. apply orb_false_iff in Ht as [_ Hp%negb_false_iff].
  apply HasPrefix_byte in Hp as [name Hname]. rewrite Hname.
  change (TrimPrefix _ "$") with (TrimPrefix ("$" +:+ name) "$"). rewrite TrimPrefix_app.
  intros Hn%specialOrListed_ok. by exists name.
Qed.

Lemma rateLimitCondition_ok c fp isPlus : validateRateLimitCondition c fp isPlus = [] → wf_condition isPlus c.
Proof.
  unfold validateRateLimitCondition. intros H'. noerrors. rename H into Hone, H0 into Htwo, H1 into Hjwt.
  apply andb_false_iff in Hone, Htwo. rewrite !negb_false_iff, !bool_decide_eq_true in Hone.
  rewrite !bool_decide_eq_false in Htwo. split_and!.
  - destruct (rlc_JWT c), (rlc_Variables c); naive_solver.
  - intros [j Hj]. rewrite Hj in Hjwt. cbn in Hjwt. noerrors. done.
  - intros vars Hvars. rewrite Hvars in H'. cbn in H'. noerrors. apply Nat.eqb_neq in H. split; [by intros ->|].
    intros v Hv. destruct (eachIndexed_elem _ _ _ H' Hv) as [i Hi]. by eapply variableCondition_ok.
Qed.

Lemma rateLimit_ok rl fp isPlus : validateRateLimit rl fp isPlus = [] → wf_rateLimit isPlus rl.
Proof.
  unfold validateRateLimit. intros H'. noerrors.
  rename H into Hzone, H0 into Hrate, H1 into Hkey, H2 into Hdelay, H3 into Hburst, H5 into Hcode.
  split_and!.
  - unfold validateRate in Hrate. case_bool_decide; [done|]. destruct (MatchString _ _) eqn:Hm; [|done].
    by apply MatchString_spec.
  - unfold validateRateLimitZoneSize in Hzone. case_bool_decide; [done|]. noerrors. by eapply validateSize_ok.
  - unfold validateRateLimitZoneSize in Hzone. case_bool_decide; [done|]. noerrors. intros n Hn.
    rewrite Hn in Hzone. apply orb_false_iff in Hzone as [Hlt _]. by apply Z.ltb_ge in Hlt.
  - unfold validateRateLimitKey in Hkey. case_bool_decide; [done|]. noerrors.
    by eapply validateStringWithVariables_ok.
  - rewrite whenSet_nil in Hdelay, Hburst. intros n [Hn|Hn]; [apply Hdelay in Hn|apply Hburst in Hn];
      unfold validatePositiveInt in Hn; noerrors; by apply Z.leb_gt in Hn.
  - rewrite whenSet_nil in Hcode. intros code Hc%Hcode. noerrors.
    apply orb_false_iff in Hc as [?%Z.ltb_ge ?%Z.ltb_ge]. lia.
  - rewrite whenSet_nil in H'. intros c Hc%H'. by eapply rateLimitCondition_ok.
Qed.

(** *** Authentication *)

Lemma validateJWTToken_ok token fp : token ≠ "" → validateJWTToken token fp = [] → jwtVariable token.
Proof.
  intros Hne. unfold validateJWTToken. rewrite bool_decide_eq_false_2 by done.
  destruct (Nat.eqb_spec (length (Split dollar token)) 2) as [Hlen|]; [|done]. cbn [negb].
  destruct (existsb _ _) eqn:Hp; [|done]. cbn [negb]. intros Hw%special_variable_word.
  destruct token as [|c token]; [done|]. cbn [dropBytes] in *. exists token.
  assert (containsByte dollar token = false) as Hfree.
  { destruct (containsByte dollar token) eqn:Hc; [|done].
    pose proof (proj1 (forallBytes_spec _ _) Hw _ Hc) as Hd. by vm_compute in Hd. }
  destruct (decide (c = dollar)) as [->|Hcd]; [done|].
  rewrite Split_no_sep in Hlen; [done|]. cbn [containsByte]. rewrite Hfree, bool_decide_eq_false_2 by congruence. done.
Qed.

(** A text without bare quotes, and without a backslash at its end *)
Lemma realm_balanced s : MatchString realmFmtRegexp s = true → balanced chQuote false s = true.
Proof.
  rewrite MatchString_spec. unfold realmFmtRegexp. revert s. apply Matches_star_ind; [done|].
  intros s t [(c & -> & Hc)%Matches_class|(x & y & -> & (c & -> & Hc)%Matches_class &
    (e & -> & He)%Matches_class)%Matches_cat]%Matches_alt _ _ IH.
  - change (String c "" +:+ t) with (String c t). cbn [balanced].
    rewrite IH. revert Hc. clear. destruct c as [[] [] [] [] [] [] [] []]; by vm_compute.
  - change ((String c "" +:+ String e "") +:+ t) with (String c (String e t)). cbn [balanced].
    rewrite IH. revert Hc. clear. destruct c as [[] [] [] [] [] [] [] []]; by vm_compute.
Qed.
Lemma validateRealm_ok realm fp : validateRealm realm fp = [] → realmText realm.
Proof.
  unfold validateRealm. destruct (MatchString realmFmtRegexp realm) eqn:Hm; [|done]. intros _.
  split; [|by apply realm_balanced]. apply MatchString_spec, Matches_alphabet in Hm.
  destruct (containsByte dollar realm) eqn:Hc; [|done].
  pose proof (proj1 (forallBytes_spec _ _) Hm _ Hc) as Hd. by vm_compute in Hd.
Qed.

Lemma accessControl_ok ac fp : validateAccessControl ac fp = [] → wf_accessControl ac.
Proof.
  unfold validateAccessControl. cbv zeta. intros H'. noerrors. rewrite !whenSet_nil in *.
  rename H into Hallow, H0 into Hdeny. split; [by destruct (ac_Allow ac), (ac_Deny ac)|].
  intros ips ip Hips Hip.
  assert (∃ i, validateIPorCIDR ip i = []) as [i Hi].
  { destruct Hips as [Hips%Hallow|Hips%Hdeny]; destruct (eachIndexed_elem _ _ _ Hips Hip) as [i Hi]; eauto. }
  unfold validateIPorCIDR in Hi. case_bool_decide; [by left|]. right. by destruct (net_ParseIP ip).
Qed.

Lemma basicAuth_ok basic fp : validateBasic basic fp = [] → wf_basicAuth basic.
Proof.
  unfold validateBasic. case_bool_decide; [done|]. intros [Hr Hs]%app_nil. rewrite whenNonEmpty_nil in Hr.
  split; [by eapply validateSecretName_nil|]. destruct (decide (ba_Realm basic = "")) as [->|Hne]; [done|].
  by eapply validateRealm_ok, Hr.
Qed.

Lemma jwt_ok jwt fp : validateJWT jwt fp = [] → wf_jwt jwt.
Proof.
  unfold validateJWT. case_bool_decide; [done|]. intros [Hr%validateRealm_ok H']%app_nil.
  split; [done|]. split; [done|]. revert H'.
  case_bool_decide as Hs; case_bool_decide as Hu; try done.
  - unfold validateJWTJwks. intros H'. noerrors. rewrite whenNonEmpty_nil in *. split.
    + intros Ht. by eapply validateJWTToken_ok; auto.
    + right. split_and!; [done|done|done|]. intros Hc%H'. noerrors. done.
  - unfold validateJWTSecret. intros H'. noerrors. rewrite !whenNonEmpty_nil in *. split.
    + intros Ht. by eapply validateJWTToken_ok; auto.
    + left. split; [by eapply validateSecretName_nil|]. split; [done|].
      split; [destruct (decide (jwt_KeyCache jwt = "")); [done|naive_solver]|].
      destruct (jwt_SNIEnabled jwt); [done|]. rewrite whenNonEmpty_nil in H'.
      split; [done|]. destruct (decide (jwt_SNIName jwt = "")); [done|naive_solver].
Qed.

(** The pieces between separators contain none. *)
Lemma Split_elem_free sep s w : w ∈ Split sep s → containsByte sep w = false.
Proof.
  revert w. induction s as [|c s IH]; intros w; cbn [Split].
  - by intros ->%list_elem_of_singleton.
  - case_bool_decide as Hc; [intros [->|?]%elem_of_cons; auto|].
    destruct (Split sep s) as [|w' ws] eqn:Hs; [by apply Split_nil in Hs|].
    intros [->|Hw]%elem_of_cons; [|by apply IH; right]. cbn [containsByte].
    rewrite IH by (by left). by rewrite bool_decide_eq_false_2 by congruence.
Qed.

Lemma Base_no_slash name : Base name = name → name = "/" ∨ containsByte slash name = false.
Proof.
  unfold Base. case_bool_decide as He; [by intros <-|].
  destruct (last _) as [w|] eqn:Hl; cbn; [|by left]. intros <-. right.
  apply last_Some_elem_of, list_elem_of_filter in Hl as [_ Hl]. by apply Split_elem_free in Hl.
Qed.

Lemma validateCRLFileName_ok name fp :
  validateCRLFileName name fp = [] → (name = "/" ∨ containsByte slash name = false) ∧ name ∉ ["."; ".."].
Proof.
  unfold validateCRLFileName. case_bool_decide as Hn; [intros _; rewrite Hn; set_solver|]. intros H'. noerrors.
  rewrite !orb_false_iff in *. destruct_and!. noerrors. split; [by apply Base_no_slash|set_solver].
Qed.

Lemma ingressMTLS_ok im fp : validateIngressMTLS im fp = [] → wf_ingressMTLS im.
Proof.
  unfold validateIngressMTLS. case_bool_decide; [done|]. intros H'. noerrors. rewrite whenSet_nil in H'.
  split; [by eapply validateSecretName_nil|].
  match goal with H : validateCRLFileName _ _ = [] |- _ => apply validateCRLFileName_ok in H as [Hcrl Hdot] end.
  split_and!; [done|done| |].
  - unfold validateIngressMTLSVerifyClient, ValidateParameter in *. case_bool_decide as Hv; [rewrite Hv; set_solver|].
    case_bool_decide; [by right|done].
  - intros n Hn%H'. unfold validatePositiveIntOrZero in Hn. noerrors. by apply Z.ltb_ge in Hn.
Qed.

Lemma egressMTLS_ok em fp : validateEgressMTLS em fp = [] → wf_egressMTLS em.
Proof.
  unfold validateEgressMTLS. intros [_ H']%app_nil. destruct (_ && _) eqn:Hv; [done|]. noerrors.
  rewrite whenSet_nil in *. split.
  - intros Ht. rewrite Ht in Hv. cbn in Hv. noerrors. by eapply validateSecretName_nil.
  - intros n Hn. match goal with H : ∀ x, em_VerifyDepth em = Some x → _ |- _ => apply H in Hn end.
    unfold validatePositiveIntOrZero in Hn. noerrors. by apply Z.ltb_ge in Hn.
Qed.

Lemma validatePKCE_ok pkce secret fp : validatePKCE pkce secret fp = [] → pkce = true ↔ secret = "".
Proof. unfold validatePKCE. destruct pkce; case_bool_decide; cbn; naive_solver. Qed.

Lemma oidc_ok oidc fp : validateOIDC oidc fp = [] → wf_oidc oidc.
Proof.
  unfold validateOIDC. repeat (case_bool_decide; [done|]). destruct (_ && _) eqn:Hp; [done|].
  intros [Hk%validatePKCE_ok _]%app_nil. split_and!; [done..|]. intros Hne Hend. rewrite Hend in Hp.
  rewrite bool_decide_eq_true_2, bool_decide_eq_false_2 in Hp by done. done.
Qed.

Lemma issuerURL_ok issuer fp :
  validateIssuerURL issuer fp = [] →
  ∃ u, url_Parse issuer = inr u ∧ url_Scheme u = "https" ∧ url_HasUser u = false ∧
       url_RawQuery u = "" ∧ url_Fragment u = "".
Proof.
  unfold validateIssuerURL. destruct (ContainsWhitespaceOrQuotes _); [done|].
  destruct (url_Parse issuer) as [|u]; [done|]. intros H'. exists u. split; [done|]. revert H'.
  repeat (case_bool_decide; cbn [negb orb]; try done). by destruct (url_HasUser u).
Qed.

Lemma oidcNative_ok o fp : validateOIDCNative o fp = [] → wf_oidcNative o.
Proof.
  unfold validateOIDCNative. repeat (case_bool_decide as Hne; [done|]; clear Hne). intros H'. noerrors.
  split; [by eapply issuerURL_ok|].
  split; intros Hp; rewrite Hp in H'; repeat (case_bool_decide; try done); apply validatePKCE_ok in H';
    naive_solver.
Qed.

Lemma apiKey_ok ak fp : validateAPIKey ak fp = [] → wf_apiKey ak.
Proof.
  unfold validateAPIKey. destruct (ak_SuppliedIn ak) as [si|] eqn:Hsi; [|done]. intros H'. noerrors.
  rewrite whenSet_nil in *. case_bool_decide as Hs; [done|].
  split; [by eapply validateSecretName_nil|]. exists si. split; [done|]. split_and!.
  - destruct (si_Header si), (si_Query si); first [by left|by right|done].
  - intros l h Hl Hh. match goal with H : ∀ x, si_Header si = Some x → _ |- _ => specialize (H l Hl) end.
    rewrite bind_nil in *. match goal with H : ∀ x, x ∈ l → _ |- _ => specialize (H h Hh) end. noerrors.
    by apply IsHTTPHeaderName_sound.
  - intros l q Hl Hq. match goal with H : ∀ x, si_Query si = Some x → _ |- _ => specialize (H l Hl) end.
    match goal with H : eachIndexed _ l = [] |- _ => destruct (eachIndexed_elem _ _ _ H Hq) as [i Hi] end.
    noerrors. unfold isArgumentName in Hi. by eapply wordMatch_word; [|exact Hi].
Qed.

(** *** WAF *)

Lemma exclusive_nil fp msg fields :
  exclusive fp msg fields = [] →
  length (omap (λ f : string * option string, (λ v, (f.1, v)) <$> f.2) fields) ≤ 1.
Proof.
  unfold exclusive. destruct (Nat.ltb_spec 1 (length (omap (λ f : string * option string, (λ v, (f.1, v)) <$> f.2) fields))); [|done].
  destruct (omap _ _); [cbn in *; lia|done].
Qed.

(** Of three fields at most one is set. *)
Lemma exclusive_three fp msg n1 s1 n2 s2 n3 (bs : option BundleSource) :
  exclusive fp msg [(n1, nonEmpty s1); (n2, nonEmpty s2); (n3, bs_URL <$> bs)] = [] →
  (s1 ≠ "" → s2 = "" ∧ bs = None) ∧ (s2 ≠ "" → bs = None).
Proof.
  intros Hx%exclusive_nil. unfold nonEmpty in Hx.
  destruct (decide (s1 = "")), (decide (s2 = "")), bs;
    repeat rewrite ?bool_decide_eq_true_2, ?bool_decide_eq_false_2 in Hx by done; cbn in Hx; naive_solver lia.
Qed.

Lemma logConf_ok log fp b (bundles : Prop) :
  (b = true ↔ bundles) → validateLogConf log fp b = [] → wf_log bundles log.
Proof.
  intros Hb. unfold validateLogConf. intros H'. noerrors. rewrite !whenNonEmpty_nil, whenSet_nil in *.
  match goal with H : exclusive _ _ _ = [] |- _ => apply exclusive_three in H as [Hc Hbu] end.
  split_and!.
  - intros Hne. destruct (Hc Hne) as [-> ->]. rewrite <- Hb. split_and!; [|done|done].
    match goal with H : slog_ApLogConf log ≠ "" → _ |- _ => specialize (H Hne) end. noerrors. by subst.
  - intros Hne. split; [|by apply Hbu]. apply Hb.
    match goal with H : slog_ApLogBundle log ≠ "" → _ ++ _ = [] |- _ => specialize (H Hne) end. by noerrors.
  - intros [bs Hbs]. apply Hb.
    match goal with H : ∀ x, slog_ApLogBundleSource log = Some x → _ |- _ => specialize (H bs Hbs) end. by noerrors.
Qed.

Lemma waf_ok waf fp : validateWAF waf fp = [] → wf_waf waf.
Proof.
  unfold validateWAF. intros H'. noerrors. rewrite !whenSet_nil in *.
  match goal with H : exclusive _ _ _ = [] |- _ => apply exclusive_three in H as [Hp Hbu] end.
  assert (negb (bool_decide (waf_ApBundle waf = "")) || bool_decide (is_Some (waf_ApBundleSource waf)) = true
          ↔ bundleMode waf) as Hmode.
  { unfold bundleMode. by rewrite orb_true_iff, negb_true_iff, bool_decide_eq_true, bool_decide_eq_false. }
  split_and!.
  - intros Hne [Hb|[bs Hb]]; destruct (Hp Hne) as [? Hnone]; [done|]. by rewrite Hnone in Hb.
  - done.
  - intros log Hlog. eapply logConf_ok; [exact Hmode|]. eauto.
  - intros logs log Hlogs Hlog. specialize (H' logs Hlogs). unfold validateLogConfs in H'.
    destruct (eachIndexed_elem _ _ _ H' Hlog) as [i Hi]. by eapply logConf_ok; [exact Hmode|].
Qed.

(** *** Cache *)

Lemma useStale_ok fp seen params :
  useStaleParams fp seen params = [] → NoDup params ∧ ∀ x, x ∈ params → x ∉ seen.
Proof.
  revert seen. induction params as [|x params IH]; intros seen; cbn [useStaleParams].
  { intros _. split; [constructor|]. by intros ? ?%elem_of_nil. }
  intros H'. noerrors. destruct (IH _ H') as [Hnd Hns]. split.
  - constructor; [|done]. intros Hx%Hns. set_solver.
  - intros y [->|Hy]%elem_of_cons; [done|]. apply Hns in Hy. set_solver.
Qed.

Lemma cacheCodes_ok cache fp :
  validateCacheAllowedCodes cache fp = [] →
  cache_AllowedCodes cache = [FromString "any"] ∨
  ∀ code, code ∈ cache_AllowedCodes cache → ∃ n, code = FromInt n ∧ (100 <= n <= 599)%Z.
Proof.
  unfold validateCacheAllowedCodes.
  destruct (existsb isAny (cache_AllowedCodes cache)) eqn:Hany; rewrite ?andb_true_r, ?andb_false_r.
  - destruct (Nat.eqb_spec (length (cache_AllowedCodes cache)) 0) as [H0|H0].
    { apply nil_length_inv in H0. by rewrite H0 in Hany. }
    destruct (Nat.eqb_spec (length (cache_AllowedCodes cache)) 1) as [H1|H1]; intros H'.
    + left. destruct (cache_AllowedCodes cache) as [|code []]; try done. cbn in Hany.
      rewrite orb_false_r in Hany. unfold isAny in Hany. by repeat case_match; simplify_eq.
    + exfalso. apply existsb_exists in Hany as (code & Hin%list_elem_of_In & Hcode).
      destruct (eachIndexed_elem _ _ _ H' Hin) as [i Hi]. rewrite Hcode in Hi. cbn [andb] in Hi. noerrors.
      apply Nat.ltb_ge in Hi. lia.
  - destruct (Nat.eqb_spec (length (cache_AllowedCodes cache)) 0) as [H0|H0].
    { apply nil_length_inv in H0. rewrite H0. intros _. right. by intros ? ?%elem_of_nil. }
    intros H'. right. intros code Hcode. destruct (eachIndexed_elem _ _ _ H' Hcode) as [i Hi].
    destruct code as [n|]; [|done]. exists n. split; [done|]. noerrors.
    apply orb_false_iff in Hi as [?%Z.ltb_ge ?%Z.ltb_ge]. lia.
Qed.

Lemma cache_ok cache fp isPlus : validateCache cache fp isPlus = [] → wf_cache isPlus cache.
Proof.
  unfold validateCache. intros H'. noerrors. split_and!.
  - unfold validateCacheZoneName in *. rewrite whenNonEmpty_nil in *.
    destruct (decide (cache_CacheZoneName cache = "")) as [->|Hne]; [done|].
    match goal with H : cache_CacheZoneName cache ≠ "" → _ |- _ => specialize (H Hne) end. noerrors.
    match goal with H : MatchString cacheZoneNameRegexp _ = true |- _ => apply MatchString_spec, Matches_alphabet in H as Ha end.
    eapply forallBytes_mono; [|exact Ha]. intros c. cbn [alphabet cacheZoneNameRegexp RPlus RIn].
    by rewrite orb_diag.
  - by eapply cacheCodes_ok.
  - intros m Hm. match goal with H : validateCacheMethods _ _ = [] |- _ => destruct (eachIndexed_elem _ _ _ H Hm) as [i Hi] end.
    by noerrors.
  - by eapply useStale_ok.
  - intros Hne. destruct isPlus; [done|].
    match goal with H : validateCachePlusFeatures _ _ _ = [] |- _ => revert H end.
    unfold validateCachePlusFeatures. by destruct (cache_CachePurgeAllow cache).
Qed.

(** *** CORS, Wallarm, external authentication, HSTS *)

Lemma corsOrigins_ok fp i seen origins :
  corsOriginsFrom fp i seen origins = [] →
  NoDup origins ∧ ∀ o, o ∈ origins → seen !! o = None ∧ ContainsDangerousChars o = false.
Proof.
  revert i seen. induction origins as [|o origins IH]; intros i seen; cbn [corsOriginsFrom].
  { intros _. split; [constructor|]. by intros ? ?%elem_of_nil. }
  destruct (seen !! o) eqn:Hseen; [done|]. intros H'. noerrors. destruct (IH _ _ H') as [Hnd Hall]. split.
  - constructor; [|done]. intros Ho%Hall. destruct Ho as [Ho _]. by rewrite lookup_insert_eq in Ho.
  - intros o' [->|Ho]%elem_of_cons; [done|]. destruct (Hall o' Ho) as [Hl Hd]. split; [|done].
    by apply lookup_insert_None in Hl as [? _].
Qed.

Lemma corsHeaders_ok forbidden msg headers fp h :
  corsHeaders forbidden msg headers fp = [] → h ∈ headers →
  h = "*" ∨ isValidHeaderName h = true ∧ forbidden h = false.
Proof.
  unfold corsHeaders. intros Hall Hh. destruct (eachIndexed_elem _ _ _ Hall Hh) as [i Hi].
  case_bool_decide; [by left|]. right. unfold validateHeaderName in Hi. by noerrors.
Qed.

Lemma cors_ok cors fp : validateCORS cors fp = [] → wf_cors cors.
Proof.
  unfold validateCORS. intros H'. noerrors.
  match goal with H : validateCORSOrigins _ _ = [] |- _ => apply corsOrigins_ok in H as [Hnd Hall] end.
  split_and!.
  - done.
  - intros o Ho. by apply Hall.
  - unfold validateCORSMethods in *. noerrors. intros m Hm.
    match goal with H : eachIndexed _ _ = [] |- _ => destruct (eachIndexed_elem _ _ _ H Hm) as [i Hi] end.
    by noerrors.
  - intros h Hh. by eapply corsHeaders_ok.
  - intros h Hh. by eapply corsHeaders_ok.
Qed.

Lemma wallarm_ok w fp : validateWallarm w fp = [] → wf_wallarm w.
Proof.
  unfold validateWallarm. intros H'. noerrors. split; [done|]. intros q Hq.
  match goal with H : eachIndexed _ _ = [] |- _ => destruct (eachIndexed_elem _ _ _ H Hq) as [i Hi] end.
  by noerrors.
Qed.

Lemma externalAuthSSL_ok ea fp :
  validateExternalAuthSSLFields ea fp = [] →
  (ea_SSLVerify ea = true → ea_SSLEnabled ea = true) ∧
  (ea_TrustedCertSecret ea ≠ "" → ea_SSLVerify ea = true).
Proof.
  unfold validateExternalAuthSSLFields. case_bool_decide as Hs; [|destruct (referenceParts _) as [[ns name]|]; [|done]];
    intros H'; noerrors; (split; [destruct (ea_SSLVerify ea), (ea_SSLEnabled ea); naive_solver|naive_solver]).
Qed.

Lemma externalAuth_ok ea fp snippets : validateExternalAuth ea fp snippets = [] → wf_externalAuth snippets ea.
Proof.
  unfold validateExternalAuth. destruct (referenceParts _) as [[ns name]|] eqn:Href; [|done].
  intros H'. noerrors. apply externalAuthSSL_ok in H' as [Hv Ht]. split_and!; [| |done|done].
  - intros Hne. destruct snippets; [done|]. rewrite bool_decide_eq_false_2 in * by done. done.
  - exists ns, name. split; [done|]. unfold validateServiceName, validateDNS1035Label in *.
    case_bool_decide; [done|]. noerrors. by apply IsDNS1035Label_sound.
Qed.

Lemma hsts_ok hsts fp : validateHSTS hsts fp = [] → wf_hsts hsts.
Proof.
  unfold validateHSTS. destruct (hsts_MaxAge hsts) as [maxAge|] eqn:Hm; [|done].
  unfold validatePositiveIntOrZero. intros H'. noerrors.
  match goal with H : (maxAge <? 0)%Z = false |- _ => apply Z.ltb_ge in H end.
  exists maxAge. split_and!; [done|done|]. intros Hp. rewrite Hp in H'. noerrors. by apply Z.ltb_ge in H'.
Qed.

Lemma policySpec_wf spec p cfg : validatePolicySpec spec p cfg = [] → wf_policy cfg spec.
Proof.
  intros Hok.
  assert (∀ A name (get : PolicySpec → option A) gate validate x,
    policyField name get gate validate ∈ policyFields → get spec = Some x →
    validate x (Child p name) cfg = []) as Hget by (intros; by eapply accepted_field).
  split_and!; intros x Hx; [eapply accessControl_ok|eapply basicAuth_ok|eapply rateLimit_ok|eapply jwt_ok|eapply ingressMTLS_ok|eapply egressMTLS_ok
    |eapply oidc_ok|eapply oidcNative_ok|eapply apiKey_ok|eapply waf_ok|eapply cache_ok|eapply cors_ok
    |eapply wallarm_ok|eapply externalAuth_ok|eapply hsts_ok];
    (eapply Hget in Hx; [exact Hx|]); repeat first [by left|right].
Qed.

(** C37.  Policies.  A policy that ValidatePolicy accepts has, for each of the fifteen
    kinds, these properties: access control has exactly one of allow and deny, of
    addresses and blocks; a basic policy names a secret, and a realm has no variable
    and no bare quote; the zone size of a rate limit is a size, of 32 or more when it
    is a number, with or without a [k] (a plain number is not converted to kilobytes),
    its rate is a number without leading zeros per second or minute, delay and burst
    are positive, the reject code lies in 400..599, and its key is plain text and
    allowed variables; a JWT policy has a secret or a JWKS URI with a key cache, and
    its token is one argument, header or cookie variable; a CRL name is its own base
    name, so it has no slash, except for the name of a single slash, which passes; server
    verification has a CA; OIDC endpoints are given, PKCE and client secrets exclude
    each other; an issuer is https without user, query or fragment; the names of
    API keys are header and argument names; WAF policies and logs are given once and
    consistently; cache codes are [any] or lie in 100..599; CORS origins are distinct
    and free of dangerous characters, methods and headers are known and allowed; a
    Wallarm policy has a mode and known parsers; the name of an authentication
    service, after an optional namespace, is a DNS label, snippets are enabled;
    HSTS preload covers subdomains and a year. *)
Theorem accepted_policy_well_formed policy cfg :
  ValidatePolicy policy cfg = None → wf_policy cfg (pol_Spec policy).
Proof. intros Hok%ToAggregate_nil. by eapply policySpec_wf. Qed.
End WellFormed.
