(* ===== verification/PolicyContained.v ===== *)
(** Which values of accepted policies stay inside the directives that they are
    rendered into, and which do not. *)
From S2P Require Import Prelude GoStrings Regex Objects ProxyBuffers Directives ValidationLib.
From S2P Require Import ParsingHelpers CommonValidation VSUpstreamValidation.

From S2P Require Import HostValidation PolicyObjects PolicyValues PolicyValidation.
From S2P Require Import PolicySpecValidation.
From S2P Require Import Tokenizer TokenizerCorrect DirectivesCorrect VSValidationCorrect.
From S2P Require Import PolicyValidationCorrect.

(** ** Values stay inside their directives *)

(** The values that the templates render bare, as arguments of a directive *)
Definition bareValues (spec : PolicySpec) : list string :=
  option_list (rl_Key <$> ps_RateLimit spec)
  ++ filter (λ v, v ≠ "")
       (from_option (λ c, cache_CacheKey c ::
          from_option (λ k, ccond_NoCache k ++ ccond_Bypass k) [] (cache_Conditions c)) [] (ps_Cache spec)).
(** The values that are one bare argument *)
Definition tokenValues (spec : PolicySpec) : list string :=
  filter (λ v, v ≠ "") (option_list (im_CrlFileName <$> ps_IngressMTLS spec))
  ++ from_option (λ w, slog_LogDest <$> option_list (waf_SecurityLog w) ++ default [] (waf_SecurityLogs w)) []
       (ps_WAF spec).
(** The values between double quotes *)
Definition quotedValues (spec : PolicySpec) : list string :=
  option_list (jwt_Realm <$> ps_JWTAuth spec)
  ++ from_option (λ o, [oidc_AuthEndpoint o; oidc_TokenEndpoint o; oidc_JWKSURI o; oidc_ClientID o;
                        oidc_EndSessionEndpoint o; Join "&" (default [] (oidc_AuthExtraArgs o))]) []
       (ps_OIDC spec).

Lemma quoted_balanced v : ValidateQuotedDirectiveValue v = None → balanced chQuote false v = true.
Proof. by apply (quotedValue_balanced chQuote). Qed.

Section Contained.
Context `{VL : ValidationLib} `{LL : !ValidationLaws} `{UL : URLLib}.

Lemma validateURL_balanced v fp : validateURL v fp = [] → balanced chQuote false v = true.
Proof.
  unfold validateURL. destruct (ValidateQuotedDirectiveValue v) eqn:Hq; [done|]. intros _.
  by apply quoted_balanced.
Qed.

Lemma bareValue_ok spec p cfg v :
  validatePolicySpec spec p cfg = [] → v ∈ bareValues spec → ∃ fp, validateDirectiveValueWithVariables v fp = [].
Proof.
  intros Hok [Hv|[Hne Hv]%list_elem_of_filter]%elem_of_app.
  - destruct (ps_RateLimit spec) as [rl|] eqn:Hrl; [|by apply elem_of_nil in Hv].
    apply list_elem_of_singleton in Hv as ->.
    eapply accepted_field in Hrl; [|exact Hok|right; by left]. cbv beta in Hrl. unfold validateRateLimit in Hrl. noerrors.
    match goal with H : validateRateLimitKey _ _ _ = [] |- _ => unfold validateRateLimitKey in H end.
    case_bool_decide; [done|]. noerrors. eauto.
  - destruct (ps_Cache spec) as [cache|] eqn:Hc; [|by apply elem_of_nil in Hv].
    eapply accepted_field in Hc; [|exact Hok|do 11 right; by left].
    cbv beta in Hc. unfold validateCache, escapedDirectiveValue in Hc. noerrors.
    rewrite !whenNonEmpty_nil, !whenSet_nil in *. apply elem_of_cons in Hv as [->|Hv].
    + match goal with H : cache_CacheKey cache ≠ "" → _ |- _ => specialize (H Hne) end. noerrors. eauto.
    + destruct (cache_Conditions cache) as [k|]; [|by apply elem_of_nil in Hv].
      match goal with H : ∀ x, Some k = Some x → _ |- _ => specialize (H k eq_refl); cbv zeta in H end. noerrors.
      apply elem_of_app in Hv as [Hv|Hv];
        match goal with H : eachIndexed _ ?l = [], Hv : _ ∈ ?l |- _ => destruct (eachIndexed_elem _ _ _ H Hv) as [i Hi] end;
        rewrite whenNonEmpty_nil in Hi; specialize (Hi Hne); noerrors; eauto.
Qed.

Lemma logDest_ok log fp b : validateLogConf log fp b = [] → ValidateDirectiveToken (slog_LogDest log) = None.
Proof. unfold validateLogConf. intros H'. noerrors. by destruct (ValidateDirectiveToken _). Qed.

Lemma tokenValue_ok spec p cfg v :
  validatePolicySpec spec p cfg = [] → v ∈ tokenValues spec → ValidateDirectiveToken v = None.
Proof.
  intros Hok [[Hne Hv]%list_elem_of_filter|Hv]%elem_of_app.
  - destruct (ps_IngressMTLS spec) as [im|] eqn:Him; [|by apply elem_of_nil in Hv].
    apply list_elem_of_singleton in Hv as ->.
    eapply accepted_field in Him; [|exact Hok|do 4 right; by left]. cbv beta in Him. unfold validateIngressMTLS in Him.
    case_bool_decide; [done|]. noerrors.
    match goal with H : validateCRLFileName _ _ = [] |- _ => unfold validateCRLFileName in H end.
    rewrite bool_decide_eq_false_2 in * by done. noerrors. rewrite !orb_false_iff in *. destruct_and!. by noerrors.
  - destruct (ps_WAF spec) as [waf|] eqn:Hwaf; [|by apply elem_of_nil in Hv].
    eapply accepted_field in Hwaf; [|exact Hok|do 10 right; by left]. cbv beta in Hwaf. unfold validateWAF in Hwaf. noerrors.
    rewrite !whenSet_nil in *. apply list_elem_of_fmap in Hv as (log & -> & [Hv|Hv]%elem_of_app).
    + destruct (waf_SecurityLog waf) as [log'|]; [|by apply elem_of_nil in Hv].
      apply list_elem_of_singleton in Hv as ->. eapply logDest_ok; eauto.
    + destruct (waf_SecurityLogs waf) as [logs|]; [|by apply elem_of_nil in Hv].
      specialize (Hwaf logs eq_refl). destruct (eachIndexed_elem _ _ _ Hwaf Hv) as [i Hi]. by eapply logDest_ok.
Qed.

Lemma quotedValue_ok spec p cfg v :
  validatePolicySpec spec p cfg = [] → v ∈ quotedValues spec → balanced chQuote false v = true.
Proof.
  intros Hok [Hv|Hv]%elem_of_app.
  - destruct (ps_JWTAuth spec) as [jwt|] eqn:Hj; [|by apply elem_of_nil in Hv].
    apply list_elem_of_singleton in Hv as ->.
    eapply accepted_field in Hj; [|exact Hok|do 2 right; by left]. cbv beta in Hj. unfold validateJWT in Hj.
    case_bool_decide; [done|]. apply app_nil in Hj as [Hr _]. unfold validateRealm in Hr.
    destruct (MatchString realmFmtRegexp _) eqn:Hm; [|done]. by apply realm_balanced.
  - destruct (ps_OIDC spec) as [o|] eqn:Ho; [|by apply elem_of_nil in Hv].
    eapply accepted_field in Ho; [|exact Hok|do 7 right; by left]. cbv beta in Ho. unfold validateOIDC in Ho.
    do 4 (case_bool_decide; [done|]). destruct (_ && _); [done|]. noerrors. rewrite !whenNonEmpty_nil, !whenSet_nil in *.
    cbn [from_option] in Hv. rewrite !elem_of_cons in Hv. destruct Hv as [->|[->|[->|[->|[->|[->|[]%elem_of_nil]]]]]];
      try (by eapply validateURL_balanced).
    + match goal with H : validateClientID _ _ = [] |- _ => unfold validateClientID, isValidHeaderValue in H end.
      apply realm_balanced. change realmFmtRegexp with headerValueFmtRegexp.
      destruct (MatchString headerValueFmtRegexp _); [done|]. by rewrite bool_decide_eq_false_2 in * by done.
    + destruct (decide (oidc_EndSessionEndpoint o = "")) as [->|Hne]; [done|]. eapply validateURL_balanced. eauto.
    + destruct (oidc_AuthExtraArgs o) as [args|]; [|done]. cbn [default].
      match goal with H : ∀ x, Some args = Some x → _ |- _ => specialize (H args eq_refl) end.
      unfold validateQueryString in *. destruct (ValidateQuotedDirectiveValue _) eqn:Hq; [done|]. by apply quoted_balanced.
Qed.

(** C38.  Values of policies in the configuration.  In a policy that ValidatePolicy
    accepts, a rate-limit key, a cache key or a cache condition rendered bare
    behind the words of a directive only adds arguments to it, provided none of
    its braced variables is escaped; a CRL file name or a log destination is
    exactly one argument; a JWT realm, an OIDC endpoint, client id or extra
    arguments between double quotes are one argument, with the escapes resolved. *)
Theorem accepted_policy_values_contained policy cfg st d ws :
  ValidatePolicy policy cfg = None → ws ≠ [] →
  let statement args := inr (ready (st ++ [{| st_depth := d; st_words := ws ++ args |}]) [] d) in
  (∀ v, v ∈ bareValues (pol_Spec policy) → unescapedVariables false v = true →
     ∃ args, feed (ready st ws d) (v +:+ ";") = statement args) ∧
  (∀ v, v ∈ tokenValues (pol_Spec policy) → ∃ arg, feed (ready st ws d) (v +:+ ";") = statement [arg]) ∧
  (∀ v, v ∈ quotedValues (pol_Spec policy) →
     feed (ready st ws d) (String chQuote (v +:+ String chQuote ";")) = statement [unescapeBytes false v]).
Proof.
  intros Hok%ToAggregate_nil Hws statement. split_and!; intros v Hv.
  - intros Hesc. destruct (bareValue_ok _ _ _ _ Hok Hv) as [fp Hf]. by eapply value_with_variables_feed.
  - pose proof (tokenValue_ok _ _ _ _ Hok Hv) as Ht.
    destruct (directive_value_statement v st d ws) as (args & Hf & Hlen); [|done|].
    + unfold ValidateDirectiveToken in Ht. case_bool_decide; [done|]. by destruct (ValidateDirectiveValue v).
    + destruct args as [|arg []]; [by specialize (Hlen Ht)| |by specialize (Hlen Ht)]. by exists arg.
  - apply feed_quoted_argument; [by left|]. by eapply quotedValue_ok.
Qed.
End Contained.

(** ** Values that do not stay inside *)

Definition policyMeta : ObjectMeta :=
  {| om_Namespace := "default"; om_Name := "policy"; om_UID := "1"; om_CreationTimestamp := 0;
     om_Generation := 1; om_Annotations := None; om_Labels := ∅ |}.
Definition rateLimitPolicy (key : string) : Policy :=
  {| pol_Meta := policyMeta;
     pol_Spec :=
       {| ps_IngressClass := ""; ps_AccessControl := None;
          ps_RateLimit := Some {| rl_Rate := "10r/s"; rl_Key := key; rl_Delay := Some 5%Z; rl_NoDelay := None;
            rl_Burst := Some 20%Z; rl_ZoneSize := "10M"; rl_DryRun := None; rl_LogLevel := "warn";
            rl_RejectCode := Some 429%Z; rl_Scale := false; rl_Condition := None |};
          ps_JWTAuth := None; ps_BasicAuth := None; ps_IngressMTLS := None; ps_EgressMTLS := None;
          ps_OIDC := None; ps_OIDCNative := None; ps_WAF := None; ps_Wallarm := None; ps_APIKey := None;
          ps_Cache := None; ps_CORS := None; ps_ExternalAuth := None; ps_HSTS := None |} |}.
Definition wallarmPolicy (blockPage : string) : Policy :=
  {| pol_Meta := policyMeta;
     pol_Spec :=
       {| ps_IngressClass := ""; ps_AccessControl := None; ps_RateLimit := None; ps_JWTAuth := None;
          ps_BasicAuth := None; ps_IngressMTLS := None; ps_EgressMTLS := None; ps_OIDC := None;
          ps_OIDCNative := None; ps_WAF := None;
          ps_Wallarm := Some {| wal_Mode := "block"; wal_ModeAllowOverride := "on"; wal_Fallback := "on";
            wal_Application := None; wal_PartnerClientUUID := ""; wal_BlockPage := blockPage;
            wal_ParseResponse := "on"; wal_ParseWebsocket := "off"; wal_UnpackResponse := "on";
            wal_ParserDisable := ["JSON"] |};
          ps_APIKey := None; ps_Cache := None; ps_CORS := None; ps_ExternalAuth := None; ps_HSTS := None |} |}.

(** *** Two gaps of the validation *)

(** A rate-limit key whose variable is behind a backslash is accepted, because
    validateDirectiveValueWithVariables masks it before the directive value is
    checked; rendered behind limit_req_zone it opens a block. *)
Example escaped_variable_opens_block `{VL : ValidationLib} `{UL : URLLib} cfg st d :
  ValidatePolicy (rateLimitPolicy "\${request_uri}") cfg = None ∧
  ∃ z, feed (ready st ["limit_req_zone"] d) "\${request_uri} zone=z:10M rate=10r/s;" = inr z ∧ tk_depth z = (d + 1)%Z.
Proof. split; [destruct cfg as [[] [] [] []]; by vm_compute|]. eexists. split; [vm_compute; reflexivity|done]. Qed.
(** A Wallarm block page is checked for its first byte only: one with a brace is
    accepted, and the directive it is rendered into is not read as one. *)
Example block_page_not_contained `{VL : ValidationLib} `{UL : URLLib} cfg st d :
  ValidatePolicy (wallarmPolicy "/blocked{") cfg = None ∧
  feed (ready st ["wallarm_block_page"] d) "/blocked{;" = inl UnexpectedSemicolon.
Proof. split; [destruct cfg as [[] [] [] []]; by vm_compute|by vm_compute]. Qed.

(** ** Examples *)

Section Examples.
#[local] Existing Instance sampleLib.
#[local] Existing Instance sampleLib_laws.
#[local] Instance noURLs : URLLib :=
  {| url_Parse := λ _, inl "no URL"; url_ParseQuery := λ _, None; netip_ParseAddr := λ _, None;
     net_SplitHostPort := λ _, None; net_ParseIP := λ _, false; net_ParseCIDR := λ _, Some "no CIDR" |}.
Definition ossConfig : PolicyValidationConfig :=
  {| pvc_IsPlus := false; pvc_EnableOIDC := false; pvc_EnableAppProtect := false; pvc_EnableSnippets := false |}.

Lemma accepted_policy_well_formed_witness :
  wf_policy ossConfig (pol_Spec (rateLimitPolicy "${binary_remote_addr}${http_x_id}")).
Proof.
  apply (accepted_policy_well_formed (rateLimitPolicy "${binary_remote_addr}${http_x_id}") ossConfig).
  vm_compute. reflexivity.
Defined.

Lemma accepted_policy_values_contained_witness :
  ∃ args, feed (ready [] ["limit_req_zone"] 1) ("${binary_remote_addr}${http_x_id}" +:+ ";") =
    inr (ready [{| st_depth := 1; st_words := "limit_req_zone" :: args |}] [] 1).
Proof.
  destruct (accepted_policy_values_contained (rateLimitPolicy "${binary_remote_addr}${http_x_id}") ossConfig
              [] 1 ["limit_req_zone"]) as (Hbare & _); [vm_compute; reflexivity|done|].
  apply (Hbare "${binary_remote_addr}${http_x_id}"); [left|reflexivity].
Defined.
End Examples.
