(* ===== verification/DeployedCorrect.v ===== *)
(** The configuration composed with the validators of the repository: what is
    stored passed validation, so the VirtualServers, VirtualServerRoutes and
    TransportServers the configuration hands to the controller are well formed. *)
From S2P Require Import Prelude GoStrings Regex Objects ProxyBuffers Directives Resources.
From S2P Require Import ConfigState.
From S2P Require Import ValidationLib ParsingHelpers CommonValidation.
From S2P Require Import VSUpstreamValidation VSRouteValidation IngressValidation.
From S2P Require Import GlobalConfigurationValidation TransportServerValidation Minions.
From S2P Require Import VSRoutes.
From S2P Require Import Hosts Changes Problems Configuration HostRebuild.
From S2P Require Import ListenerRebuild.
From S2P Require Import Operations Scenario ConfigurationCorrect.
From S2P Require Import VSValidationCorrect.

(** ** The objects behind a request *)

Section Stored.
Context `{MR : MapRange} `{V : Validators} `{LS : LabelSelectors}.

(** What the configuration stores of the objects it was given: those of the right
    class that passed validation, the upstreams with balanced buffers. *)
Record validatedObjects (fl : Flags) (o : Objects) : Prop := {
  vo_ingress k ing : o_ingresses o !! k = Some ing →
    hasCorrectIngressClass (OIngress ing) = true ∧ validateIngress fl ing = None;
  vo_virtualServer k vs : o_virtualServers o !! k = Some vs →
    ∃ vs0, vs = balanceVS fl vs0 ∧ hasCorrectIngressClass (OVirtualServer vs0) = true ∧
      ConfigState.ValidateVirtualServer vs0 = None;
  vo_virtualServerRoute k vsr : o_virtualServerRoutes o !! k = Some vsr →
    ∃ vsr0, vsr = balanceVSR fl vsr0 ∧ hasCorrectIngressClass (OVirtualServerRoute vsr0) = true ∧
      ConfigState.ValidateVirtualServerRoute vsr0 = None;
  vo_transportServer k ts : o_transportServers o !! k = Some ts →
    hasCorrectIngressClass (OTransportServer ts) = true ∧ ConfigState.ValidateTransportServer ts = None
}.

Definition keeps (fl : Flags) (o : Objects) (res : option result) : Prop :=
  ∀ c' changes problems, res = Some (c', changes, problems) → c_objects c' = o ∧ c_flags c' = fl.

(** Takes apart a sequence of binds, tuples included, that is known to succeed. *)
Ltac binds H :=
  repeat match type of H with
  | (_ ≫= _) = Some _ => apply bind_Some in H as (? & _ & H)
  | (let '(_, _) := ?x in _) = Some _ => destruct x
  end.

Lemma keeps_rebuildHosts c : keeps (c_flags c) (c_objects c) (rebuildHosts c).
Proof. intros c' ch ps. unfold rebuildHosts. intros H. binds H. by injection H as <- _ _. Qed.

Lemma keeps_rebuildListenerHosts c : keeps (c_flags c) (c_objects c) (rebuildListenerHosts c).
Proof. intros c' ch ps. unfold rebuildListenerHosts. intros H. binds H. by injection H as <- _ _. Qed.

Lemma keeps_rebuildListenersThenHosts b c :
  keeps (c_flags c) (c_objects c) (rebuildListenersThenHosts b c).
Proof.
  intros c' ch ps. unfold rebuildListenersThenHosts. intros [[[c1 ch1] ps1] [H1 H]]%bind_Some.
  apply keeps_rebuildListenerHosts in H1 as [<- <-]. destruct b; [|by simplify_eq].
  apply bind_Some in H as [[[c2 ch2] ps2] [H2 H]]. apply keeps_rebuildHosts in H2. by simplify_eq.
Qed.

Lemma keeps_reportError fl o res (verr : option string) key p :
  keeps fl o res →
  keeps fl o (x ← res; match verr with None => Some x | Some err => reportError key err (p err) x end).
Proof.
  intros Hk c' ch ps [[[c1 ch1] ps1] [H1 H]]%bind_Some. apply Hk in H1. destruct verr; [|by simplify_eq].
  unfold reportError in H. apply bind_Some in H as [[ch2 found] [_ H]]. by simplify_eq.
Qed.

Lemma keeps_hostOp c o' (verr : option string) key p :
  let c1 := set_objects c o' in
  keeps (c_flags c) o' (if negb (c_startupComplete c1)
        then Some (c1, [], from_option (λ err, [p err]) [] verr)
        else res ← rebuildHosts c1;
             match verr with None => Some res | Some err => reportError key err (p err) res end).
Proof.
  cbn zeta. destruct (negb _); [by intros c' ch ps [= <- _ _]|].
  apply keeps_reportError, (keeps_rebuildHosts (set_objects c o')).
Qed.

(** ** Every request keeps it *)

Lemma validated_ingresses fl o m idx :
  validatedObjects fl o →
  (∀ k ing, m !! k = Some ing → o_ingresses o !! k = Some ing ∨
     hasCorrectIngressClass (OIngress ing) = true ∧ validateIngress fl ing = None) →
  validatedObjects fl (set_minionsByHost (set_ingresses o m) idx).
Proof. intros [] Hm. split; cbn; eauto. intros k ing [?|?]%Hm; eauto. Qed.

Lemma validated_virtualServers fl o m :
  validatedObjects fl o →
  (∀ k vs, m !! k = Some vs → o_virtualServers o !! k = Some vs ∨
     ∃ vs0, vs = balanceVS fl vs0 ∧ hasCorrectIngressClass (OVirtualServer vs0) = true ∧
       ConfigState.ValidateVirtualServer vs0 = None) →
  validatedObjects fl (set_virtualServers o m).
Proof. intros [] Hm. split; cbn; eauto. intros k vs [?|?]%Hm; eauto. Qed.

Lemma validated_virtualServerRoutes fl o m :
  validatedObjects fl o →
  (∀ k vsr, m !! k = Some vsr → o_virtualServerRoutes o !! k = Some vsr ∨
     ∃ vsr0, vsr = balanceVSR fl vsr0 ∧ hasCorrectIngressClass (OVirtualServerRoute vsr0) = true ∧
       ConfigState.ValidateVirtualServerRoute vsr0 = None) →
  validatedObjects fl (set_virtualServerRoutes o m).
Proof. intros [] Hm. split; cbn; eauto. intros k vsr [?|?]%Hm; eauto. Qed.

Lemma validated_transportServers fl o m :
  validatedObjects fl o →
  (∀ k ts, m !! k = Some ts → o_transportServers o !! k = Some ts ∨
     hasCorrectIngressClass (OTransportServer ts) = true ∧ ConfigState.ValidateTransportServer ts = None) →
  validatedObjects fl (set_transportServers o m).
Proof. intros [] Hm. split; cbn; eauto. intros k ts [?|?]%Hm; eauto. Qed.

Lemma validated_globalConfiguration fl o gc :
  validatedObjects fl o → validatedObjects fl (setGlobalConfigListenerMap (set_globalConfiguration o gc)).
Proof. by intros []. Qed.

Lemma deleted_or {A} (m : gmap string A) (Q : Prop) key k x :
  delete key m !! k = Some x → m !! k = Some x ∨ Q.
Proof. intros [_ ?]%lookup_delete_Some. by left. Qed.
Lemma inserted_or {A} (m : gmap string A) (Q : Prop) key y k x :
  (x = y → Q) → <[key := y]> m !! k = Some x → m !! k = Some x ∨ Q.
Proof. intros Hy [[_ <-]|[_ ?]]%lookup_insert_Some; [right; by apply Hy|by left]. Qed.

(** What a request leaves stored is validated. *)
Definition keepsValidated (fl : Flags) (res : option result) : Prop :=
  ∃ o, validatedObjects fl o ∧ keeps fl o res.

Lemma keepsValidated_deleteOp c o' :
  validatedObjects (c_flags c) o' →
  keepsValidated (c_flags c) (let c1 := set_objects c o' in
    if negb (c_startupComplete c1) then Some (c1, [], []) else rebuildHosts c1).
Proof.
  intros Ho. exists o'. split; [done|]. cbn zeta. destruct (negb _); [by intros c' ch ps [= <- _ _]|].
  apply (keeps_rebuildHosts (set_objects c o')).
Qed.

Lemma keepsValidated_same c ch ps : validatedObjects (c_flags c) (c_objects c) →
  keepsValidated (c_flags c) (Some (c, ch, ps)).
Proof. intros Ho. exists (c_objects c). split; [done|]. by intros c' ch' ps' [= <- _ _]. Qed.

(** The stored objects of an AddOrUpdate operation, separated from its tail *)
Ltac split_stored H :=
  match goal with |- keepsValidated ?fl (let '(_, _) := ?x in _) =>
    let o' := fresh "o'" in let verr := fresh "verr" in
    assert (validatedObjects fl x.1) as H; [|destruct x as [o' verr]; cbn [fst] in H; cbv zeta; exists o';
      split; [exact H|]] end.

Lemma validated_AddOrUpdateIngress ing c :
  validatedObjects (c_flags c) (c_objects c) → keepsValidated (c_flags c) (AddOrUpdateIngress ing c).
Proof.
  intros Ho. unfold AddOrUpdateIngress. split_stored H.
  - destruct (hasCorrectIngressClass (OIngress ing)) eqn:Hc; cbn [negb];
      [destruct (validateIngress (c_flags c) ing) eqn:Hv|]; apply validated_ingresses; try done; intros k i.
    + apply deleted_or.
    + apply inserted_or. by intros ->.
    + apply deleted_or.
  - apply keeps_hostOp.
Qed.

Lemma validated_AddOrUpdateVirtualServer vs c :
  validatedObjects (c_flags c) (c_objects c) → keepsValidated (c_flags c) (AddOrUpdateVirtualServer vs c).
Proof.
  intros Ho. unfold AddOrUpdateVirtualServer. split_stored H.
  - destruct (hasCorrectIngressClass (OVirtualServer vs)) eqn:Hc; cbn [negb];
      [destruct (ConfigState.ValidateVirtualServer vs) eqn:Hv|]; apply validated_virtualServers; try done;
      intros k v.
    + by apply deleted_or.
    + apply inserted_or. intros ->. eauto.
    + by apply deleted_or.
  - apply (keeps_hostOp c o' verr _ (λ err, rejection (OVirtualServer vs) _)).
Qed.

Lemma validated_AddOrUpdateVirtualServerRoute vsr c :
  validatedObjects (c_flags c) (c_objects c) →
  keepsValidated (c_flags c) (AddOrUpdateVirtualServerRoute vsr c).
Proof.
  intros Ho. unfold AddOrUpdateVirtualServerRoute. split_stored H.
  - destruct (hasCorrectIngressClass (OVirtualServerRoute vsr)) eqn:Hc; cbn [negb];
      [destruct (ConfigState.ValidateVirtualServerRoute vsr) eqn:Hv|];
      apply validated_virtualServerRoutes; try done; intros k v.
    + by apply deleted_or.
    + apply inserted_or. intros ->. eauto.
    + by apply deleted_or.
  - destruct (negb _); [by intros c' ch ps [= <- _ _]|].
    intros c' ch ps [[[c1 ch1] ps1] [H1 H2]]%bind_Some.
    apply (keeps_rebuildHosts (set_objects c o')) in H1. by simplify_eq.
Qed.

Lemma validated_AddOrUpdateTransportServer ts c :
  validatedObjects (c_flags c) (c_objects c) → keepsValidated (c_flags c) (AddOrUpdateTransportServer ts c).
Proof.
  intros Ho. unfold AddOrUpdateTransportServer. split_stored H.
  - destruct (hasCorrectIngressClass (OTransportServer ts)) eqn:Hc; cbn [negb];
      [destruct (ConfigState.ValidateTransportServer ts) eqn:Hv|]; apply validated_transportServers;
      try done; intros k v.
    + by apply deleted_or.
    + apply inserted_or. by intros ->.
    + by apply deleted_or.
  - apply (keeps_reportError _ _ _ verr _ (λ err, rejection (OTransportServer ts) _)).
    apply (keeps_rebuildListenersThenHosts _ (set_objects c o')).
Qed.

Lemma exec_validated req c :
  validatedObjects (c_flags c) (c_objects c) → keepsValidated (c_flags c) (exec req c).
Proof.
  intros Ho. destruct req; cbn [exec].
  - by apply validated_AddOrUpdateIngress.
  - unfold DeleteIngress. case_match; [|by apply keepsValidated_same].
    apply keepsValidated_deleteOp, validated_ingresses; [done|]. intros k ?. apply deleted_or.
  - by apply validated_AddOrUpdateVirtualServer.
  - unfold DeleteVirtualServer. destruct (_ !! key); [|by apply keepsValidated_same].
    apply keepsValidated_deleteOp, validated_virtualServers; [done|]. intros k ?. by apply deleted_or.
  - by apply validated_AddOrUpdateVirtualServerRoute.
  - unfold DeleteVirtualServerRoute. destruct (_ !! key); [|by apply keepsValidated_same].
    apply keepsValidated_deleteOp, validated_virtualServerRoutes; [done|]. intros k ?. by apply deleted_or.
  - by apply validated_AddOrUpdateTransportServer.
  - unfold DeleteTransportServer. destruct (_ !! key); [|by apply keepsValidated_same].
    eexists. split; [|apply (keeps_rebuildListenersThenHosts _ (set_objects c _))].
    apply validated_transportServers; [done|]. intros k ?. by apply deleted_or.
  - unfold AddOrUpdateGlobalConfiguration. destruct (ConfigState.ValidateGlobalConfiguration gc) as [gc' verr].
    eexists. split; [by apply (validated_globalConfiguration _ (c_objects c) (Some gc'))|].
    intros c' ch ps ([res e] & (x & Hx & [= -> _])%bind_Some & Heq)%fmap_Some. cbn in Heq. subst res.
    by apply keeps_rebuildListenersThenHosts in Hx.
  - unfold DeleteGlobalConfiguration. eexists.
    split; [by apply (validated_globalConfiguration _ (c_objects c) None)|apply (keeps_rebuildListenersThenHosts _ (set_objects c _))].
  - exists (c_objects c). split; [done|]. unfold CompleteStartup.
    match goal with |- keeps _ _ (rebuildHosts ?c1) => apply (keeps_rebuildHosts c1) end.
  - by apply (keepsValidated_same (set_policyServices c _)).
  - by apply (keepsValidated_same (set_policyServices c _)).
Qed.

Lemma reachable_validated fl c : reachable fl c → c_flags c = fl ∧ validatedObjects fl (c_objects c).
Proof.
  induction 1 as [|c req c' changes problems _ [Hfl Ho] _ Hexec]; [done|]. subst fl.
  destruct (exec_validated req c Ho) as (o & Hv & Hk). apply Hk in Hexec as [<- ->]. done.
Qed.
End Stored.

(** ** The validators of the repository *)

(** The options the controller creates its validators with *)
Record ControllerOptions := {
  co_ingressClass : string;
  co_vsv : VirtualServerValidator;
  co_tsv : TransportServerValidator;
  co_forbiddenPorts : gset Z
}.

(** The configuration of the controller validates with the repository's code. *)
Definition repositoryValidators `{MR : MapRange} `{P : IngressValidatorParams} (opts : ControllerOptions)
    : Validators :=
  {| hasCorrectIngressClass := HasCorrectIngressClass (co_ingressClass opts);
     validateIngress := validateIngressAggregate;
     ConfigState.ValidateVirtualServer := VSRouteValidation.ValidateVirtualServer (co_vsv opts);
     ConfigState.ValidateVirtualServerRoute := VSRouteValidation.ValidateVirtualServerRoute (co_vsv opts);
     ConfigState.ValidateVirtualServerRouteForVirtualServer :=
       VSRouteValidation.ValidateVirtualServerRouteForVirtualServer (co_vsv opts);
     ConfigState.ValidateTransportServer := TransportServerValidation.ValidateTransportServer (co_tsv opts);
     ConfigState.ValidateGlobalConfiguration := validateGlobalConfiguration (co_forbiddenPorts opts) |}.

#[export] Instance repositoryValidators_laws `{MR : MapRange} `{P : IngressValidatorParams} opts :
  @IngressValidatorLaws (repositoryValidators opts).
Proof.
  split. intros fl ing. cbn. unfold validateIngressAggregate.
  destruct (validateIngressErrors fl ing) eqn:Hv; [|done]. intros _. by eapply validateIngressErrors_wf.
Qed.

Section Deployed.
Context `{MR : MapRange} `{P : IngressValidatorParams} `{LL : !ValidationLaws} `{LS : LabelSelectors}.
Variable opts : ControllerOptions.
#[local] Instance repositoryV : Validators := repositoryValidators opts.

Lemma balanced_names fl us : u_Name <$> balanceUpstreamProxies fl us = u_Name <$> us.
Proof.
  unfold balanceUpstreamProxies. rewrite <- list_fmap_compose. apply list_fmap_ext.
  intros i u _. cbn. unfold BalanceProxiesForUpstreams. by repeat case_match.
Qed.

Lemma balanced_elem fl us u :
  u ∈ balanceUpstreamProxies fl us → ∃ u0, u0 ∈ us ∧ u_Name u = u_Name u0 ∧ u_Port u = u_Port u0.
Proof.
  intros (u0 & -> & Hu0)%list_elem_of_fmap. exists u0. split; [done|].
  unfold BalanceProxiesForUpstreams. by repeat case_match.
Qed.

(** Balancing the buffers keeps a VirtualServer well formed. *)
Lemma balanceVS_wf fl vs : wf_virtualServer vs → wf_virtualServer (balanceVS fl vs).
Proof.
  intros []. split; cbn; rewrite ?balanced_names; try done.
  intros u (u0 & Hu0 & -> & ->)%balanced_elem. eauto.
Qed.

(** The VirtualServer resources of a build come from stored VirtualServers. *)
Lemma resourcesOf_virtualServer c vsc :
  objects_ok (c_objects c) → RVirtualServer vsc ∈ resourcesOf c →
  ∃ k vs, o_virtualServers (c_objects c) !! k = Some vs ∧
    RVirtualServer vsc = virtualServerResource (c_objects c) (challenges (c_flags c) (c_objects c)) vs.
Proof.
  intros [Hwf Hidx]. unfold resourcesOf, newResourceList.
  intros [(k & _ & Hk)%list_elem_of_omap|[(k & _ & Hk)%list_elem_of_omap|Hts]%elem_of_app]%elem_of_app.
  - unfold newIngressResource in Hk.
    destruct (o_ingresses (c_objects c) !! k) as [ing|] eqn:Hi; simpl in Hk; [|done]. case_match; [done|].
    destruct (ingressResource_total (c_objects c) Hwf Hidx ing (wfo_ing _ Hwf _ _ Hi))
      as (r' & Hr & ic & -> & _). rewrite Hr in Hk. by simplify_eq.
  - unfold newVSResource in Hk. destruct (o_virtualServers (c_objects c) !! k) as [vs|] eqn:Hvs; [|done].
    exists k, vs. split; [done|]. by injection Hk as <-.
  - destruct (f_isTLSPassthroughEnabled _); [|by apply elem_of_nil in Hts].
    apply list_elem_of_omap in Hts as (k & _ & Hk). unfold newTSResource in Hk.
    destruct (o_transportServers _ !! k); cbn in Hk; [|done]. by destruct (_ && _).
Qed.

(** Its parts: the VirtualServer itself, VirtualServerRoutes that were accepted for
    it, and those made from challenge Ingresses *)
Lemma virtualServerResource_parts o ch vs vsc :
  RVirtualServer vsc = virtualServerResource o ch vs →
  vsc_VirtualServer vsc = vs ∧
  ∀ vsr, vsr ∈ vsc_VirtualServerRoutes vsc → validFor o vs vsr ∨ vsr ∈ ch ∧ vs_Host vs = vsr_Host vsr.
Proof.
  unfold virtualServerResource. destruct (buildVirtualServerRoutes o vs) as [[vsrs selectors] ws] eqn:Hb.
  apply buildVirtualServerRoutes_spec in Hb as (_ & _ & Hvalid & _). intros [= ->].
  assert (∀ v, vsc_VirtualServer (buildListenersForVSConfiguration o v) = vsc_VirtualServer v ∧
    vsc_VirtualServerRoutes (buildListenersForVSConfiguration o v) = vsc_VirtualServerRoutes v) as Hsame.
  { intros v. unfold buildListenersForVSConfiguration. by repeat case_match. }
  destruct (Hsame (NewVirtualServerConfiguration vs
    (vsrs ++ filter (λ vsr, vs_Host vs = vsr_Host vsr) ch) selectors ws)) as [-> ->].
  split; [done|]. intros vsr [Hv|Hv]%elem_of_app; [left; by apply Hvalid|].
  apply list_elem_of_filter in Hv as [? ?]. by right.
Qed.

Lemma deployed_wf fl c host l vsc :
  reachable fl c → c_startupComplete c = true →
  c_hosts c !! host = Some l → c_store c !! l = Some (RVirtualServer vsc) →
  let vs := vsc_VirtualServer vsc in
  wf_virtualServer vs ∧
  ∀ vsr, vsr ∈ vsc_VirtualServerRoutes vsc →
    (∃ key paths, o_virtualServerRoutes (c_objects c) !! key = Some vsr ∧ pathsOf vs (vs_Routes vs) key vsr paths ∧
       wf_virtualServerRoute (vs_Host vs) paths vsr) ∨
    (vs_Host vs = vsr_Host vsr ∧ ∃ key ing, o_ingresses (c_objects c) !! key = Some ing ∧
       isChallenge fl ing = true ∧ convertIngressToVSR (c_objects c) ing = Some (Some vsr)).
Proof.
  intros Hreach Hst Hhost Hl. destruct (reachable_current fl c Hreach Hst) as [Hinv Hcur].
  destruct (reachable_validated fl c Hreach) as [Hfl Hval].
  pose proof (hc_hosts _ Hcur host) as Hh. rewrite Hhost in Hh.
  destruct Hh as (r' & r & Hr' & Hr & Hcore & _). rewrite Hl in Hr'. injection Hr' as <-.
  destruct r as [|vsc2|]; try done. injection Hcore as Hvs Hvsrs _ _ _ _ _ _ _.
  destruct (resourcesOf_virtualServer c vsc2 (ci_objects _ Hinv) Hr) as (k & vs & Hk & Hres).
  destruct (virtualServerResource_parts _ _ _ _ Hres) as [Heq Hparts]. cbn zeta.
  rewrite Hvs, Hvsrs, Heq. split.
  - destruct (vo_virtualServer _ _ Hval _ _ Hk) as (vs0 & -> & _ & Hok).
    apply balanceVS_wf, (vsErrors_wf (co_vsv opts)), ToAggregate_nil, Hok.
  - intros vsr [(key & paths & Hkey & Hpaths & Hok)|[Hch Hsame]]%Hparts.
    + left. exists key, paths. split_and!; [done|done|]. apply (vsrErrors_wf (co_vsv opts)), ToAggregate_nil, Hok.
    + right. split; [done|]. apply list_elem_of_omap in Hch as (key & _ & Hkey).
      unfold challengeOf in Hkey. destruct (o_ingresses (c_objects c) !! key) as [ing|] eqn:Hing; [|done].
      cbn in Hkey. rewrite Hfl in Hkey. destruct (negb (isMinion ing)), (isChallenge fl ing) eqn:Hc; try done.
      exists key, ing. split_and!; [done|done|]. by destruct (convertIngressToVSR _ ing) as [[]|]; simplify_eq/=.
Qed.

(** C16.  What is deployed is well formed.  With the repository's validators, after
    startup, a VirtualServer that owns a host in a reachable configuration is well
    formed, and every VirtualServerRoute attached to it is stored and well formed
    for the host and the paths of routes of the VirtualServer that lead to it, or
    was made from the ingress of an ACME challenge for the same host.  The paths
    ([pathsOf]) are the path of one route that names the VirtualServerRoute or
    selects it by its labels, or those of all routes with a regular expression
    that name it. *)
Theorem deployed_virtualServer_well_formed fl c host l vsc :
  reachable fl c → c_startupComplete c = true →
  c_hosts c !! host = Some l → c_store c !! l = Some (RVirtualServer vsc) →
  let vs := vsc_VirtualServer vsc in
  wf_virtualServer vs ∧
  ∀ vsr, vsr ∈ vsc_VirtualServerRoutes vsc →
    (∃ key paths, o_virtualServerRoutes (c_objects c) !! key = Some vsr ∧ pathsOf vs (vs_Routes vs) key vsr paths ∧
       wf_virtualServerRoute (vs_Host vs) paths vsr) ∨
    (vs_Host vs = vsr_Host vsr ∧ ∃ key ing, o_ingresses (c_objects c) !! key = Some ing ∧
       isChallenge fl ing = true ∧ convertIngressToVSR (c_objects c) ing = Some (Some vsr)).
Proof. apply deployed_wf. Qed.
End Deployed.

(** ** An example: a VirtualServer with a VirtualServerRoute *)
Definition cafeOptions : ControllerOptions :=
  {| co_ingressClass := "nginx"; co_vsv := openVSV; co_tsv := openTSV; co_forbiddenPorts := ∅ |}.
Definition cafeRequests : list request :=
  [ ReqAddOrUpdateVirtualServerRoute deliVSR; ReqAddOrUpdateTransportServer dnsTS; ReqCompleteStartup;
    ReqAddOrUpdateVirtualServer cafeVS ].
Definition cafeConfig : Configuration :=
  default (NewConfiguration sampleFlags)
    (@runs _ (repositoryValidators cafeOptions) _ cafeRequests (NewConfiguration sampleFlags)).

Lemma cafeConfig_reachable : @reachable _ (repositoryValidators cafeOptions) _ sampleFlags cafeConfig.
Proof.
  apply (runs_reachable sampleFlags cafeRequests); [repeat constructor|]. vm_compute. reflexivity.
Qed.

Lemma deployed_virtualServer_well_formed_witness :
  ∃ l vsc, c_hosts cafeConfig !! "cafe.example.com" = Some l ∧
    c_store cafeConfig !! l = Some (RVirtualServer vsc) ∧
    wf_virtualServer (vsc_VirtualServer vsc) ∧ length (vsc_VirtualServerRoutes vsc) = 1.
Proof.
  destruct (c_hosts cafeConfig !! "cafe.example.com") as [l|] eqn:Hl; [|by vm_compute in Hl].
  destruct (c_store cafeConfig !! l) as [[|vsc|]|] eqn:Hs;
    [vm_compute in Hl; injection Hl as <-; by vm_compute in Hs| |
     vm_compute in Hl; injection Hl as <-; by vm_compute in Hs|
     vm_compute in Hl; injection Hl as <-; by vm_compute in Hs].
  exists l, vsc. split_and!; [done|done| |].
  - apply (@deployed_virtualServer_well_formed _ sampleParams sampleLib_laws _ cafeOptions sampleFlags cafeConfig
             "cafe.example.com" l vsc cafeConfig_reachable); [vm_compute; reflexivity|exact Hl|exact Hs].
  - vm_compute in Hl. injection Hl as <-. vm_compute in Hs. by injection Hs as <-.
Defined.
