(* ===== verification/AppProtect.v ===== *)
(** appprotect.ConfigurationImpl (internal/k8s/appprotect/app_protect_configuration.go)
    with the validators it calls (pkg/apis/configuration/validation/appprotect.go
    and appprotect_common.go): App Protect policies, log configurations and user
    signatures, and how the signatures decide which policies are valid.

    A pointer to a PolicyEx, LogConfEx or UserSigEx is the key of the map entry
    that holds it.  [None] is a run-time panic. *)
From S2P Require Import Prelude GoStrings Objects ProxyBuffers Resources ConfigState.

(** ** Unstructured objects of k8s.io/apimachinery *)

(** A value of a JSON map, and an element of a JSON list, as far as the code
    looks into them *)
Inductive jsonValue := JString (s : string) | JOther.
Inductive jsonItem := JMap (m : gmap string jsonValue) | JNotMap.

(** The accessors the code calls.  An error is its text; NestedString is only
    used where a validated object gives no error, so its error reads as not
    found.  time.Parse gives the error's text or the instant. *)
Class UnstructuredAPI := {
  Unstructured : Type;
  un_Meta : Unstructured → ObjectMeta;
  NestedMap : Unstructured → list string → string + bool;
  NestedSlice : Unstructured → list string → string + option (list jsonItem);
  NestedFieldNoCopy : Unstructured → list string → string + bool;
  NestedString : Unstructured → list string → option string;
  timeParse : string → string + Z
}.

(** Kubernetes gives no two objects the same UID: objects with the same UID are
    versions of one object. *)
Class UnstructuredLaws `{UnstructuredAPI} := {
  uid_unique : ∀ o1 o2 : Unstructured, om_UID (un_Meta o1) = om_UID (un_Meta o2) →
    getResourceKey (un_Meta o1) = getResourceKey (un_Meta o2)
}.

(** reasons for invalidity *)
Definition failedValidationErrorMsg : string := "validation failed".
Definition missingUserSigErrorMsg : string := "policy has unsatisfied signature requirements".
Definition duplicatedTagsErrorMsg : string := "duplicate tag set".
Definition invalidTimestampErrorMsg : string := "invalid timestamp".

Record RevTimes := { rt_Min : option Z; rt_Max : option Z }.
Record SignatureReq := { sr_Tag : string; sr_RevTimes : option RevTimes }.

(** ** Required fields *)
Definition appProtectPolicyRequiredFields : list (list string) := [["spec"; "policy"]].
Definition appProtectLogConfRequiredFields : list (list string) :=
  [["spec"; "content"]; ["spec"; "filter"]].
Definition appProtectUserSigRequiredSlices : list (list string) := [["spec"; "signatures"]].
Definition appProtectPolicyExtRefs : list (list string) :=
  (λ f, ["spec"; "policy"; f]) <$>
  ["modificationsReference"; "blockingSettingReference"; "signatureSettingReference";
   "serverTechnologyReference"; "headerReference"; "cookieReference"; "dataGuardReference";
   "filetypeReference"; "methodReference"; "generalReference"; "parameterReference";
   "sensitiveParameterReference"; "jsonProfileReference"; "xmlProfileReference";
   "whitelistIpReference"; "responsePageReference"; "characterSetReference";
   "cookieSettingsReference"; "headerSettingsReference"; "jsonValidationFileReference";
   "xmlValidationFileReference"; "signatureSetReference"; "signatureReference"; "urlReference";
   "threatCampaignReference"].

Section AppProtect.
Context `{API : UnstructuredAPI}.

Record PolicyEx := {
  pol_Obj : Unstructured;
  pol_SignatureReqs : list SignatureReq;
  pol_IsValid : bool;
  pol_ErrorMsg : string
}.
Record LogConfEx := { lc_Obj : Unstructured; lc_IsValid : bool; lc_ErrorMsg : string }.
Record UserSigEx := {
  sig_Obj : Unstructured;
  sig_Tag : string;
  sig_RevTime : option Z;
  sig_IsValid : bool;
  sig_ErrorMsg : string
}.

Definition pol_setInvalid (reason : string) (p : PolicyEx) : PolicyEx :=
  {| pol_Obj := pol_Obj p; pol_SignatureReqs := pol_SignatureReqs p; pol_IsValid := false;
     pol_ErrorMsg := reason |}.
Definition pol_setValid (p : PolicyEx) : PolicyEx :=
  {| pol_Obj := pol_Obj p; pol_SignatureReqs := pol_SignatureReqs p; pol_IsValid := true;
     pol_ErrorMsg := "" |}.
Definition sig_setInvalid (reason : string) (s : UserSigEx) : UserSigEx :=
  {| sig_Obj := sig_Obj s; sig_Tag := sig_Tag s; sig_RevTime := sig_RevTime s;
     sig_IsValid := false; sig_ErrorMsg := reason |}.
Definition sig_setValid (s : UserSigEx) : UserSigEx :=
  {| sig_Obj := sig_Obj s; sig_Tag := sig_Tag s; sig_RevTime := sig_RevTime s;
     sig_IsValid := true; sig_ErrorMsg := "" |}.

Inductive apResource := APolicy (p : PolicyEx) | ALogConf (l : LogConfEx) | AUserSig (s : UserSigEx).
Record Change := { ch_Op : Operation; ch_Resource : apResource }.
Record Problem := { pb_Object : Unstructured; pb_Reason : string; pb_Message : string }.
Record UserSigChange := {
  usc_PolicyDeletions : list Unstructured;
  usc_PolicyAddsOrUpdates : list Unstructured;
  usc_UserSigs : list Unstructured
}.
Record ConfigurationImpl := {
  ap_Policies : gmap string PolicyEx;
  ap_LogConfs : gmap string LogConfEx;
  ap_UserSigs : gmap string UserSigEx
}.
Definition newConfigurationImpl : ConfigurationImpl :=
  {| ap_Policies := ∅; ap_LogConfs := ∅; ap_UserSigs := ∅ |}.

(** appprotectcommon.GetNsName *)
Definition GetNsName (o : Unstructured) : string :=
  om_Namespace (un_Meta o) +:+ "/" +:+ om_Name (un_Meta o).

(** ** Validation: [None] is a nil error *)

Fixpoint ValidateRequiredFields (o : Unstructured) (fieldsList : list (list string))
    : option string :=
  match fieldsList with
  | [] => None
  | fields :: rest =>
      match NestedMap o fields with
      | inl err => Some ("error checking for required field map[]: " +:+ err)
      | inr false => Some "required field map[] not found"
      | inr true => ValidateRequiredFields o rest
      end
  end.

Fixpoint ValidateRequiredSlices (o : Unstructured) (fieldsList : list (list string))
    : option string :=
  match fieldsList with
  | [] => None
  | fields :: rest =>
      match NestedSlice o fields with
      | inl err => Some ("error checking for required field []: " +:+ err)
      | inr None => Some "required field [] not found"
      | inr (Some _) => ValidateRequiredSlices o rest
      end
  end.

(** checkForExtRefs: the error; the references found are only logged *)
Fixpoint checkForExtRefs (o : Unstructured) (refs : list (list string)) : option string :=
  match refs with
  | [] => None
  | ref :: rest =>
      match NestedFieldNoCopy o ref with
      | inl err => Some ("error validating App Protect Policy " +:+ om_Name (un_Meta o) +:+ ": " +:+ err)
      | inr _ => checkForExtRefs o rest
      end
  end.

Definition ValidateAppProtectPolicy (o : Unstructured) : option string :=
  let wrap err := "error validating App Protect Policy " +:+ om_Name (un_Meta o) +:+ ": " +:+ err in
  match ValidateRequiredFields o appProtectPolicyRequiredFields with
  | Some err => Some (wrap err)
  | None => wrap <$> checkForExtRefs o appProtectPolicyExtRefs
  end.

Definition ValidateAppProtectLogConf (o : Unstructured) : option string :=
  (λ err, "error validating App Protect Log Configuration " +:+ om_Name (un_Meta o) +:+ ": " +:+ err)
    <$> ValidateRequiredFields o appProtectLogConfRequiredFields.

Definition ValidateAppProtectUserSig (o : Unstructured) : option string :=
  (λ err, "error validating App Protect User Signature " +:+ om_Name (un_Meta o) +:+ ": " +:+ err)
    <$> ValidateRequiredSlices o appProtectUserSigRequiredSlices.

(** ** Policies *)

(** One bound of buildRevTimes: a missing key is no bound, a value that is not
    a string is a panic, a text that is no time an error *)
Definition revTime (requirement : gmap string jsonValue) (key message : string)
    : option (string + option Z) :=
  match requirement !! key with
  | None => Some (inr None)
  | Some (JString s) =>
      Some (match timeParse s with
            | inl err => inl (message +:+ err)
            | inr t => inr (Some t)
            end)
  | Some JOther => None
  end.

Definition buildRevTimes (requirement : gmap string jsonValue) : option (string + RevTimes) :=
  minRev ← revTime requirement "minRevisionDatetime" "Error Parsing time from minRevisionDatetime ";
  match minRev with
  | inl err => Some (inl err)
  | inr minRevTime =>
      maxRev ← revTime requirement "maxRevisionDatetime" "Error Parsing time from maxRevisionDatetime  ";
      Some (match maxRev with
            | inl err => inl err
            | inr maxRevTime => inr {| rt_Min := minRevTime; rt_Max := maxRevTime |}
            end)
  end.

(** The loop over the signature requirements: an error or the requirements *)
Fixpoint signatureReqs (list : list jsonItem) (sigReqs : Datatypes.list SignatureReq)
    : option (string + Datatypes.list SignatureReq) :=
  match list with
  | [] => Some (inr sigReqs)
  | JNotMap :: _ => None
  | JMap requirement :: rest =>
      match requirement !! "tag" with
      | None => signatureReqs rest sigReqs
      | Some reqTag =>
          timeReq ← buildRevTimes requirement;
          match timeReq with
          | inl err => Some (inl err)
          | inr times =>
              match reqTag with
              | JOther => None
              | JString tag =>
                  signatureReqs rest (sigReqs ++ [{| sr_Tag := tag; sr_RevTimes := Some times |}])
              end
          end
      end
  end.

Definition createAppProtectPolicyEx (o : Unstructured) : option (PolicyEx * option string) :=
  let invalid msg := {| pol_Obj := o; pol_SignatureReqs := []; pol_IsValid := false;
                        pol_ErrorMsg := msg |} in
  let name := om_Name (un_Meta o) in
  match ValidateAppProtectPolicy o with
  | Some err => Some (invalid failedValidationErrorMsg,
                      Some ("Error validating policy " +:+ name +:+ ": " +:+ err))
  | None =>
      match NestedSlice o ["spec"; "policy"; "signature-requirements"] with
      | inl err => Some (invalid failedValidationErrorMsg,
                         Some ("Error retrieving Signature requirements from " +:+ name +:+ ": " +:+ err))
      | inr found =>
          reqs ← signatureReqs (default [] found) [];
          Some (match reqs with
                | inl err => (invalid invalidTimestampErrorMsg,
                              Some ("Error creating time requirements from " +:+ name +:+ ": " +:+ err))
                | inr sigReqs => ({| pol_Obj := o; pol_SignatureReqs := sigReqs;
                                     pol_IsValid := true; pol_ErrorMsg := "" |}, None)
                end)
      end
  end.

Definition createAppProtectLogConfEx (o : Unstructured) : LogConfEx * option string :=
  match ValidateAppProtectLogConf o with
  | Some err => ({| lc_Obj := o; lc_IsValid := false; lc_ErrorMsg := failedValidationErrorMsg |}, Some err)
  | None => ({| lc_Obj := o; lc_IsValid := true; lc_ErrorMsg := "" |}, None)
  end.

(** ** User signatures *)

Definition createAppProtectUserSigEx (o : Unstructured) : UserSigEx * option string :=
  match ValidateAppProtectUserSig o with
  | Some _ => ({| sig_Obj := o; sig_Tag := ""; sig_RevTime := None; sig_IsValid := false;
                  sig_ErrorMsg := failedValidationErrorMsg |}, Some failedValidationErrorMsg)
  | None =>
      let sTag := default "" (NestedString o ["spec"; "tag"]) in
      match NestedString o ["spec"; "revisionDatetime"] with
      | Some revTimeString =>
          match timeParse revTimeString with
          | inl _ => ({| sig_Obj := o; sig_Tag := ""; sig_RevTime := None; sig_IsValid := false;
                         sig_ErrorMsg := invalidTimestampErrorMsg |}, Some invalidTimestampErrorMsg)
          | inr revTime => ({| sig_Obj := o; sig_Tag := sTag; sig_RevTime := Some revTime;
                               sig_IsValid := true; sig_ErrorMsg := "" |}, None)
          end
      | None => ({| sig_Obj := o; sig_Tag := sTag; sig_RevTime := None; sig_IsValid := true;
                    sig_ErrorMsg := "" |}, None)
      end
  end.

Definition isReqSatisfiedByUserSig (sigReq : SignatureReq) (sig : UserSigEx) : bool :=
  if bool_decide (sig_Tag sig = "") || negb (bool_decide (sig_Tag sig = sr_Tag sigReq)) then false
  else match sr_RevTimes sigReq, sig_RevTime sig with
       | None, _ | _, None => bool_decide (sig_Tag sig = sr_Tag sigReq)
       | Some times, Some t =>
           match rt_Min times, rt_Max times with
           | Some mn, Some mx => (t <? mx)%Z && (mn <? t)%Z
           | None, Some mx => (t <? mx)%Z
           | Some mn, None => (mn <? t)%Z
           | None, None => false
           end
       end.

Context `{MR : MapRange}.

Definition isReqSatisfiedByUserSigs (sigReq : SignatureReq) (sigs : gmap string UserSigEx) : bool :=
  existsb (λ e : string * UserSigEx, isReqSatisfiedByUserSig sigReq e.2 && sig_IsValid e.2)
    (range "isReqSatisfiedByUserSigs" sigs).

Definition verifyPolicyAgainstUserSigs (sigs : gmap string UserSigEx) (policy : PolicyEx) : bool :=
  forallb (λ sigreq, isReqSatisfiedByUserSigs sigreq sigs) (pol_SignatureReqs policy).

(** appProtectUserSigSlice.Less *)
Definition Less (a b : UserSigEx) : bool :=
  let m1 := un_Meta (sig_Obj a) in let m2 := un_Meta (sig_Obj b) in
  if bool_decide (om_CreationTimestamp m1 = om_CreationTimestamp m2)
  then String.ltb (om_UID m2) (om_UID m1)
  else bool_decide (om_CreationTimestamp m1 < om_CreationTimestamp m2)%Z.

(** The order sort.Sort puts the entries in *)
Definition entry_sorted (a b : string * UserSigEx) : Prop := Less b.2 a.2 = false.
#[export] Instance entry_sorted_dec : RelDecision entry_sorted.
Proof. intros a b. unfold entry_sorted. apply _. Defined.

(** ** Signatures with the same tag *)

(** One signature of the first loop of detectDuplicateTags *)
Definition groupSig (tmp : gmap string (list (string * UserSigEx))) (e : string * UserSigEx)
    : gmap string (list (string * UserSigEx)) :=
  if bool_decide (sig_ErrorMsg e.2 = failedValidationErrorMsg) then tmp
  else <[sig_Tag e.2 := default [] (tmp !! sig_Tag e.2) ++ [e]]> tmp.

Definition detectDuplicateTags (sigs : gmap string UserSigEx) : list (list (string * UserSigEx)) :=
  let tmp := foldl groupSig ∅ (range "detectDuplicateTags" sigs) in
  (filter (λ kv : string * list (string * UserSigEx), kv.1 ≠ "")
     (range "detectDuplicateTags/tags" tmp)).*2.

(** One loser of reconcileUserSigs; the state is the signatures, the changes and
    the problems *)
Definition rejectLoser
    (st : gmap string UserSigEx * list Change * list Problem) (e : string * UserSigEx)
    : gmap string UserSigEx * list Change * list Problem :=
  let '(sigs, changes, problems) := st in
  let '(key, sig) := e in
  if sig_IsValid sig then
    let sig' := sig_setInvalid duplicatedTagsErrorMsg sig in
    (<[key := sig']> sigs, changes ++ [{| ch_Op := Delete; ch_Resource := AUserSig sig' |}],
     problems ++ [{| pb_Object := sig_Obj sig; pb_Reason := EventReasonRejected;
                     pb_Message := duplicatedTagsErrorMsg |}])
  else st.

(** One group of signatures; [None] for the empty group *)
Definition reconcileGroup
    (st : gmap string UserSigEx * list Change * list Problem) (group : list (string * UserSigEx))
    : option (gmap string UserSigEx * list Change * list Problem) :=
  let '(sigs, changes, problems) := st in
  match merge_sort entry_sorted group with
  | [] => None
  | (key, winner) :: losers =>
      let '(sigs1, changes1) :=
        if negb (sig_IsValid winner)
        then (<[key := sig_setValid winner]> sigs,
              changes ++ [{| ch_Op := AddOrUpdate; ch_Resource := AUserSig (sig_setValid winner) |}])
        else (sigs, changes) in
      Some (foldl rejectLoser (sigs1, changes1, problems) losers)
  end.

Definition reconcileUserSigs (sigs : gmap string UserSigEx)
    : option (gmap string UserSigEx * list Change * list Problem) :=
  foldM reconcileGroup (sigs, [], []) (detectDuplicateTags sigs).

(** One policy of verifyPolicies *)
Definition verifyPolicy (sigs : gmap string UserSigEx)
    (st : gmap string PolicyEx * list Change * list Problem) (e : string * PolicyEx)
    : gmap string PolicyEx * list Change * list Problem :=
  let '(policies, changes, problems) := st in
  let '(key, pol) := e in
  let '(pol1, policies1, changes1) :=
    if negb (pol_IsValid pol) && bool_decide (pol_ErrorMsg pol = missingUserSigErrorMsg)
       && verifyPolicyAgainstUserSigs sigs pol
    then (pol_setValid pol, <[key := pol_setValid pol]> policies,
          changes ++ [{| ch_Op := AddOrUpdate; ch_Resource := APolicy (pol_setValid pol) |}])
    else (pol, policies, changes) in
  if pol_IsValid pol1 && negb (verifyPolicyAgainstUserSigs sigs pol1)
  then let pol2 := pol_setInvalid missingUserSigErrorMsg pol1 in
       (<[key := pol2]> policies1, changes1 ++ [{| ch_Op := Delete; ch_Resource := APolicy pol2 |}],
        problems ++ [{| pb_Object := pol_Obj pol1; pb_Reason := EventReasonRejected;
                        pb_Message := missingUserSigErrorMsg |}])
  else (policies1, changes1, problems).

Definition verifyPolicies (sigs : gmap string UserSigEx) (policies : gmap string PolicyEx)
    : gmap string PolicyEx * list Change * list Problem :=
  foldl (verifyPolicy sigs) (policies, [], []) (range "verifyPolicies" policies).

Definition getAllUserSigObjects (sigs : gmap string UserSigEx) : list Unstructured :=
  omap (λ e : string * UserSigEx, if sig_IsValid e.2 then Some (sig_Obj e.2) else None)
    (range "getAllUserSigObjects" sigs).

Definition policyObjs (op : Operation) (changes : list Change) : list Unstructured :=
  omap (λ c, match ch_Resource c with
             | APolicy p => if bool_decide (ch_Op c = op) then Some (pol_Obj p) else None
             | _ => None
             end) changes.

(** buildUserSigChangeAndProblems: the new state, the change and the problems to
    append *)
Definition buildUserSigChangeAndProblems (ci : ConfigurationImpl)
    : option (ConfigurationImpl * UserSigChange * list Problem) :=
  '(sigs, reconChanges, reconProblems) ← reconcileUserSigs (ap_UserSigs ci);
  let '(policies, verChanges, verProblems) := verifyPolicies sigs (ap_Policies ci) in
  let changes := reconChanges ++ verChanges in
  Some ({| ap_Policies := policies; ap_LogConfs := ap_LogConfs ci; ap_UserSigs := sigs |},
        {| usc_PolicyDeletions := policyObjs Delete changes;
           usc_PolicyAddsOrUpdates := policyObjs AddOrUpdate changes;
           usc_UserSigs := getAllUserSigObjects sigs |},
        reconProblems ++ verProblems).

(** ** Operations *)

Definition set_Policies (ci : ConfigurationImpl) m : ConfigurationImpl :=
  {| ap_Policies := m; ap_LogConfs := ap_LogConfs ci; ap_UserSigs := ap_UserSigs ci |}.
Definition set_LogConfs (ci : ConfigurationImpl) m : ConfigurationImpl :=
  {| ap_Policies := ap_Policies ci; ap_LogConfs := m; ap_UserSigs := ap_UserSigs ci |}.
Definition set_UserSigs (ci : ConfigurationImpl) m : ConfigurationImpl :=
  {| ap_Policies := ap_Policies ci; ap_LogConfs := ap_LogConfs ci; ap_UserSigs := m |}.

Definition AddOrUpdatePolicy (o : Unstructured) (ci : ConfigurationImpl)
    : option (ConfigurationImpl * list Change * list Problem) :=
  let resNsName := GetNsName o in
  '(policy, err) ← createAppProtectPolicyEx o;
  let store p := set_Policies ci (<[resNsName := p]> (ap_Policies ci)) in
  Some (match err with
        | Some msg =>
            (store policy, [{| ch_Op := Delete; ch_Resource := APolicy policy |}],
             [{| pb_Object := o; pb_Reason := EventReasonRejected; pb_Message := msg |}])
        | None =>
            if verifyPolicyAgainstUserSigs (ap_UserSigs ci) policy
            then (store policy, [{| ch_Op := AddOrUpdate; ch_Resource := APolicy policy |}], [])
            else
              let policy := pol_setInvalid missingUserSigErrorMsg policy in
              (store policy, [{| ch_Op := Delete; ch_Resource := APolicy policy |}],
               [{| pb_Object := o; pb_Reason := EventReasonRejected;
                   pb_Message := missingUserSigErrorMsg |}])
        end).

Definition AddOrUpdateLogConf (o : Unstructured) (ci : ConfigurationImpl)
    : ConfigurationImpl * list Change * list Problem :=
  let '(logConf, err) := createAppProtectLogConfEx o in
  let ci := set_LogConfs ci (<[GetNsName o := logConf]> (ap_LogConfs ci)) in
  match err with
  | Some msg =>
      (ci, [{| ch_Op := Delete; ch_Resource := ALogConf logConf |}],
       [{| pb_Object := o; pb_Reason := EventReasonRejected; pb_Message := msg |}])
  | None => (ci, [{| ch_Op := AddOrUpdate; ch_Resource := ALogConf logConf |}], [])
  end.

Definition AddOrUpdateUserSig (o : Unstructured) (ci : ConfigurationImpl)
    : option (ConfigurationImpl * UserSigChange * list Problem) :=
  let '(userSig, err) := createAppProtectUserSigEx o in
  let ci := set_UserSigs ci (<[GetNsName o := userSig]> (ap_UserSigs ci)) in
  let problems := match err with
                  | Some msg => [{| pb_Object := o; pb_Reason := EventReasonRejected; pb_Message := msg |}]
                  | None => []
                  end in
  '(ci, change, more) ← buildUserSigChangeAndProblems ci;
  Some (ci, change, problems ++ more).

(** GetAppResource: the object or the error *)
Definition appResult (valid : bool) (o : Unstructured) (msg : string) : string + Unstructured :=
  if valid then inr o else inl msg.
Definition GetAppResource (kind key : string) (ci : ConfigurationImpl) : string + Unstructured :=
  if bool_decide (kind = "APPolicy") then
    match ap_Policies ci !! key with
    | Some p => appResult (pol_IsValid p) (pol_Obj p) (pol_ErrorMsg p)
    | None => inl ("app protect Policy " +:+ key +:+ " not found")
    end
  else if bool_decide (kind = "APLogConf") then
    match ap_LogConfs ci !! key with
    | Some l => appResult (lc_IsValid l) (lc_Obj l) (lc_ErrorMsg l)
    | None => inl ("app protect LogConf " +:+ key +:+ " not found")
    end
  else if bool_decide (kind = "APUserSig") then
    match ap_UserSigs ci !! key with
    | Some s => appResult (sig_IsValid s) (sig_Obj s) (sig_ErrorMsg s)
    | None => inl ("app protect UserSig " +:+ key +:+ " not found")
    end
  else inl ("unknown app protect resource kind " +:+ kind).

Definition DeletePolicy (key : string) (ci : ConfigurationImpl)
    : ConfigurationImpl * list Change * list Problem :=
  match ap_Policies ci !! key with
  | Some p => (set_Policies ci (delete key (ap_Policies ci)),
               [{| ch_Op := Delete; ch_Resource := APolicy p |}], [])
  | None => (ci, [], [])
  end.

Definition DeleteLogConf (key : string) (ci : ConfigurationImpl)
    : ConfigurationImpl * list Change * list Problem :=
  match ap_LogConfs ci !! key with
  | Some l => (set_LogConfs ci (delete key (ap_LogConfs ci)),
               [{| ch_Op := Delete; ch_Resource := ALogConf l |}], [])
  | None => (ci, [], [])
  end.

Definition DeleteUserSig (key : string) (ci : ConfigurationImpl)
    : option (ConfigurationImpl * UserSigChange * list Problem) :=
  match ap_UserSigs ci !! key with
  | Some _ => buildUserSigChangeAndProblems (set_UserSigs ci (delete key (ap_UserSigs ci)))
  | None => Some (ci, {| usc_PolicyDeletions := []; usc_PolicyAddsOrUpdates := []; usc_UserSigs := [] |}, [])
  end.
End AppProtect.
