(* ===== verification/AppProtectSignatures.v ===== *)
(** App Protect user signatures: one pass of reconcileUserSigs leaves, for every
    tag, exactly the oldest signature valid; what the pass changes and reports. *)
From S2P Require Import Prelude GoStrings Objects ProxyBuffers Resources ConfigState.
From S2P Require Import AppProtect.

Section Signatures.
Context `{API : UnstructuredAPI} `{Laws : !UnstructuredLaws} `{MR : MapRange}.

(** ** The order of signatures *)

Lemma Less_choose a b :
  Less a b = chooseObjectMetaWinner (un_Meta (sig_Obj a)) (un_Meta (sig_Obj b)).
Proof. reflexivity. Qed.

#[local] Instance entry_sorted_total : Total entry_sorted.
Proof.
  intros a b. unfold entry_sorted. rewrite !Less_choose.
  destruct (chooseObjectMetaWinner (un_Meta (sig_Obj b.2)) _) eqn:Hc; [right|by left].
  by apply choose_asym.
Qed.

#[local] Instance entry_sorted_trans : Transitive entry_sorted.
Proof.
  intros a b c. unfold entry_sorted. rewrite !Less_choose. intros H1 H2. by eapply choose_neg_trans.
Qed.

(** The signature as it is created from its object *)
Definition createdSig (o : Unstructured) : UserSigEx := (createAppProtectUserSigEx o).1.

Lemma createdSig_obj o : sig_Obj (createdSig o) = o.
Proof. unfold createdSig, createAppProtectUserSigEx. by repeat case_match. Qed.

Lemma createdSig_tag o :
  sig_Tag (createdSig o) ≠ "" → sig_IsValid (createdSig o) = true ∧ sig_ErrorMsg (createdSig o) = "".
Proof. unfold createdSig, createAppProtectUserSigEx. by repeat case_match. Qed.

(** No signature with the same tag is older. *)
Definition unbeaten (sigs : gmap string UserSigEx) (s : UserSigEx) : Prop :=
  map_Forall (λ _ s', sig_Tag s' = sig_Tag s → Less s' s = false) sigs.
#[local] Instance unbeaten_dec sigs s : Decision (unbeaten sigs s).
Proof. unfold unbeaten. apply _. Defined.

Definition settle (sigs : gmap string UserSigEx) (s : UserSigEx) : UserSigEx :=
  if bool_decide (sig_Tag s = "") then s
  else if bool_decide (unbeaten sigs s) then sig_setValid s
  else sig_setInvalid duplicatedTagsErrorMsg s.

(** Signatures before they are reconciled: each is created from its object, and
    one with a tag is valid or was rejected as a duplicate. *)
Definition sig_pre (k : string) (s : UserSigEx) : Prop :=
  k = GetNsName (sig_Obj s) ∧
  (sig_Tag s = "" → s = createdSig (sig_Obj s)) ∧
  (sig_Tag s ≠ "" → s = sig_setValid (createdSig (sig_Obj s)) ∨
                    s = sig_setInvalid duplicatedTagsErrorMsg (createdSig (sig_Obj s))).

Definition sigs_pre (sigs : gmap string UserSigEx) : Prop := map_Forall sig_pre sigs.

Definition sigs_ok (sigs : gmap string UserSigEx) : Prop :=
  sigs_pre sigs ∧ ∀ k s, sigs !! k = Some s → s = settle sigs s.

Lemma sig_setValid_id s : sig_IsValid s = true → sig_ErrorMsg s = "" → s = sig_setValid s.
Proof. destruct s; simpl; intros; by subst. Qed.

Lemma sig_pre_created o : sig_pre (GetNsName o) (createdSig o).
Proof.
  split; [by rewrite createdSig_obj|]. rewrite createdSig_obj. split; [done|]. intros Ht. left.
  destruct (createdSig_tag o Ht) as [Hv Hm]. by apply sig_setValid_id.
Qed.

Lemma sig_pre_fields k s :
  sig_pre k s → sig_Tag s = sig_Tag (createdSig (sig_Obj s)) ∧ sig_RevTime s = sig_RevTime (createdSig (sig_Obj s)).
Proof.
  intros (_ & H1 & H2). destruct (decide (sig_Tag s = "")) as [Ht|Ht].
  - by rewrite <- (H1 Ht).
  - destruct (H2 Ht) as [Heq|Heq]; rewrite Heq at 1 3; done.
Qed.

Lemma sig_pre_settle sigs k s : sig_pre k s → sig_pre k (settle sigs s).
Proof.
  intros Hs. pose proof (sig_pre_fields k s Hs) as [Ht Hr]. destruct Hs as (Hk & H1 & H2).
  unfold settle. case_bool_decide as He; [by split|].
  assert (∀ b m, {| sig_Obj := sig_Obj s; sig_Tag := sig_Tag s; sig_RevTime := sig_RevTime s;
                    sig_IsValid := b; sig_ErrorMsg := m |} =
                 {| sig_Obj := sig_Obj (createdSig (sig_Obj s)); sig_Tag := sig_Tag (createdSig (sig_Obj s));
                    sig_RevTime := sig_RevTime (createdSig (sig_Obj s)); sig_IsValid := b;
                    sig_ErrorMsg := m |}) as Hx by (intros; rewrite createdSig_obj; congruence).
  case_bool_decide; (split; [done|]); split; try done; intros _; [left|right]; apply Hx.
Qed.

(** A valid signature with a tag carries no message, an invalid one was a
    duplicate. *)
Lemma sig_pre_status k s :
  sig_pre k s → sig_Tag s ≠ "" →
  sig_ErrorMsg s ≠ failedValidationErrorMsg ∧
  (sig_IsValid s = true → sig_setValid s = s) ∧
  (sig_IsValid s = false → sig_setInvalid duplicatedTagsErrorMsg s = s).
Proof.
  intros (_ & _ & H2) Ht. destruct (H2 Ht) as [->| ->]; split_and!; try done; intros _;
    unfold sig_setValid, sig_setInvalid; simpl; done.
Qed.

(** ** Groups of signatures with the same tag *)

Lemma NoDup_range_filter {A} (P : string * A → Prop) `{!∀ x, Decision (P x)} site (m : gmap string A) :
  NoDup (filter P (range site m)).*1.
Proof.
  eapply sublist_NoDup; [apply (NoDup_range_keys site m)|].
  apply fmap_sublist, sublist_filter.
Qed.

Definition groupOf (t : string) (es : list (string * UserSigEx)) : list (string * UserSigEx) :=
  filter (λ e : string * UserSigEx, sig_Tag e.2 = t ∧ sig_ErrorMsg e.2 ≠ failedValidationErrorMsg) es.

Lemma lookup_groupSigs es t :
  foldl groupSig ∅ es !! t = match groupOf t es with [] => None | g => Some g end.
Proof.
  induction es as [|e es IH] using rev_ind; [done|].
  rewrite foldl_app. cbn [foldl]. unfold groupSig at 1. unfold groupOf in *. rewrite filter_app, filter_cons, filter_nil.
  case_bool_decide as Hm.
  { rewrite decide_False by tauto. by rewrite app_nil_r. }
  destruct (decide (sig_Tag e.2 = t)) as [<-|Hne].
  - rewrite lookup_insert_eq, IH, decide_True by done. by destruct (filter _ es).
  - rewrite lookup_insert_ne, decide_False, app_nil_r by tauto. done.
Qed.

(** The groups [detectDuplicateTags] gives, with their tags *)
Definition tagGroups (sigs : gmap string UserSigEx) : list (string * list (string * UserSigEx)) :=
  filter (λ kv : string * list (string * UserSigEx), kv.1 ≠ "")
    (range "detectDuplicateTags/tags" (foldl groupSig ∅ (range "detectDuplicateTags" sigs))).

Lemma NoDup_tagGroups sigs : NoDup (tagGroups sigs).*1.
Proof.
  apply NoDup_range_filter.
Qed.

Lemma elem_of_tagGroups sigs t g :
  sigs_pre sigs → (t, g) ∈ tagGroups sigs ↔ t ≠ "" ∧ g ≠ [] ∧ g = groupOf t (range "detectDuplicateTags" sigs).
Proof.
  intros Hpre. unfold tagGroups. rewrite list_elem_of_filter, elem_of_range, lookup_groupSigs. simpl.
  destruct (groupOf t _) eqn:Hg; naive_solver.
Qed.

Lemma elem_of_groupOf sigs t k s :
  sigs_pre sigs → t ≠ "" →
  (k, s) ∈ groupOf t (range "detectDuplicateTags" sigs) ↔ sigs !! k = Some s ∧ sig_Tag s = t.
Proof.
  intros Hpre Ht. unfold groupOf. rewrite list_elem_of_filter, elem_of_range. simpl. split; [naive_solver|].
  intros [Hk <-]. split; [|done]. split; [done|]. by apply (sig_pre_status k s (Hpre k s Hk)).
Qed.

Lemma NoDup_groupOf sigs t : NoDup (groupOf t (range "detectDuplicateTags" sigs)).*1.
Proof.
  apply NoDup_range_filter.
Qed.
(** ** Sweeps: loops that rewrite each entry of a map at most once *)

Section Sweep.
Context {X C P : Type} (step : gmap string X * list C * list P → string * X → gmap string X * list C * list P).
Context (g : X → X) (fc : X → list C) (fp : X → list P) (ok : string → X → Prop).
Hypothesis step_ok : ∀ m c p k x, m !! k = Some x → ok k x →
  step (m, c, p) (k, x) = (<[k := g x]> m, c ++ fc x, p ++ fp x).

Lemma sweep m c p l :
  NoDup l.*1 → (∀ k x, (k, x) ∈ l → m !! k = Some x ∧ ok k x) →
  ∃ m', foldl step (m, c, p) l = (m', c ++ (l ≫= λ e, fc e.2), p ++ (l ≫= λ e, fp e.2)) ∧
    (∀ k x, (k, x) ∈ l → m' !! k = Some (g x)) ∧ (∀ k, k ∉ l.*1 → m' !! k = m !! k).
Proof.
  revert m c p. induction l as [|[k x] l IH]; intros m c p Hnd Hin; simpl.
  { exists m. rewrite !app_nil_r. split_and!; [done| |done]. intros k x. by rewrite elem_of_nil. }
  apply NoDup_cons in Hnd as [Hk Hnd]. destruct (Hin k x) as [Hm Hok]; [set_solver|].
  rewrite (step_ok m c p k x Hm Hok).
  edestruct (IH (<[k := g x]> m) (c ++ fc x) (p ++ fp x) Hnd) as (m' & Heq & Hl & Hn).
  { intros k' x' Hin'. destruct (Hin k' x') as [? ?]; [set_solver|]. split; [|done].
    rewrite lookup_insert_ne; [done|]. intros ->. apply Hk, list_elem_of_fmap. by exists (k', x'). }
  exists m'. rewrite Heq, <- !app_assoc. split_and!; [done| |].
  - intros k' x' [[= -> ->]|Hin']%elem_of_cons; [|by apply Hl].
    rewrite Hn by done. apply lookup_insert_eq.
  - intros k' Hk'. rewrite Hn by set_solver. rewrite lookup_insert_ne; [done|]. set_solver.
Qed.
End Sweep.

(** ** reconcileUserSigs *)

Definition duplicateProblem (s : UserSigEx) : Problem :=
  {| pb_Object := sig_Obj s; pb_Reason := EventReasonRejected; pb_Message := duplicatedTagsErrorMsg |}.

Definition loserChanges (s : UserSigEx) : list Change :=
  if sig_IsValid s
  then [{| ch_Op := Delete; ch_Resource := AUserSig (sig_setInvalid duplicatedTagsErrorMsg s) |}] else [].

Definition loserProblems (s : UserSigEx) : list Problem :=
  if sig_IsValid s then [duplicateProblem s] else [].

Lemma rejectLoser_step m c p k s :
  m !! k = Some s → sig_pre k s ∧ sig_Tag s ≠ "" →
  rejectLoser (m, c, p) (k, s) =
    (<[k := sig_setInvalid duplicatedTagsErrorMsg s]> m, c ++ loserChanges s, p ++ loserProblems s).
Proof.
  intros Hk [Hs Ht]. unfold rejectLoser, loserChanges, loserProblems.
  destruct (sig_IsValid s) eqn:Hv; [done|].
  destruct (sig_pre_status k s Hs Ht) as (_ & _ & ->); [|done]. by rewrite insert_id, !app_nil_r.
Qed.

(** The head of a sorted group is unbeaten, the others are beaten by it. *)
Lemma sorted_group sigs t :
  sigs_pre sigs → t ≠ "" → groupOf t (range "detectDuplicateTags" sigs) ≠ [] →
  ∃ k w losers, merge_sort entry_sorted (groupOf t (range "detectDuplicateTags" sigs)) = (k, w) :: losers ∧
    NoDup ((k, w) :: losers).*1 ∧
    (∀ k' s, (k', s) ∈ (k, w) :: losers ↔ sigs !! k' = Some s ∧ sig_Tag s = t) ∧
    unbeaten sigs w ∧ ∀ k' s, (k', s) ∈ losers → ¬ unbeaten sigs s.
Proof.
  intros Hpre Ht Hne.
  pose proof (merge_sort_Permutation entry_sorted (groupOf t (range "detectDuplicateTags" sigs))) as Hperm.
  pose proof (StronglySorted_merge_sort entry_sorted (groupOf t (range "detectDuplicateTags" sigs))) as Hs.
  destruct (merge_sort entry_sorted _) as [|[k w] losers]; [by apply Permutation_nil_l in Hperm|].
  apply StronglySorted_inv in Hs as [_ Hw]. rewrite Forall_forall in Hw.
  assert (∀ k' s, (k', s) ∈ (k, w) :: losers ↔ sigs !! k' = Some s ∧ sig_Tag s = t) as Hin.
  { intros k' s. rewrite Hperm. by apply elem_of_groupOf. }
  pose proof (NoDup_groupOf sigs t) as Hnd. rewrite <- Hperm in Hnd.
  exists k, w, losers. split_and!; [done..| |].
  - intros k' s Hk' Hst. assert ((k', s) ∈ (k, w) :: losers) as [[= -> ->]|Hl]%elem_of_cons
      by (apply Hin; destruct (proj1 (Hin k w)); [set_solver|]; split; congruence).
    + rewrite Less_choose. apply choose_irrefl.
    + apply (Hw (k', s) Hl).
  - intros k' s Hl Hun. apply NoDup_cons in Hnd as [Hk _].
    destruct (proj1 (Hin k w)) as [Hkw Hwt]; [set_solver|].
    destruct (proj1 (Hin k' s)) as [Hks Hst]; [set_solver|].
    pose proof (Hun k w Hkw ltac:(congruence)) as H1. pose proof (Hw (k', s) Hl) as H2.
    unfold entry_sorted in H2. rewrite Less_choose in *. simpl in H2.
    destruct (choose_total _ _ H1 H2) as [_ Huid]. apply uid_unique in Huid.
    apply Hk, list_elem_of_fmap. exists (k', s). split; [|done]. simpl.
    destruct (Hpre k w Hkw) as [-> _], (Hpre k' s Hks) as [-> _]. apply Huid.
Qed.

Definition isSigChange (c : Change) : Prop := match ch_Resource c with AUserSig _ => True | _ => False end.

Lemma winner_step k w (m : gmap string UserSigEx) (c : list Change) :
  sig_pre k w → sig_Tag w ≠ "" → m !! k = Some w →
  ∃ cs, (if negb (sig_IsValid w)
         then (<[k := sig_setValid w]> m,
               c ++ [{| ch_Op := AddOrUpdate; ch_Resource := AUserSig (sig_setValid w) |}])
         else (m, c)) = (<[k := sig_setValid w]> m, c ++ cs) ∧ Forall isSigChange cs.
Proof.
  intros Hw Ht Hk. destruct (sig_pre_status k w Hw Ht) as (_ & Hv & _).
  destruct (sig_IsValid w); simpl; [exists []|eexists; split; [done|by repeat constructor]].
  by rewrite Hv, insert_id, app_nil_r.
Qed.

(** What the new problems of the signatures with the tags in scope are *)
Definition rejectedNow (sigs : gmap string UserSigEx) (scope : string → Prop) (q : Problem) : Prop :=
  ∃ k s, sigs !! k = Some s ∧ scope (sig_Tag s) ∧ sig_Tag s ≠ "" ∧ sig_IsValid s = true ∧
    ¬ unbeaten sigs s ∧ q = duplicateProblem s.

Lemma settle_winner sigs s : sig_Tag s ≠ "" → unbeaten sigs s → settle sigs s = sig_setValid s.
Proof. intros Ht Hu. unfold settle. by rewrite bool_decide_false, bool_decide_true. Qed.

Lemma settle_loser sigs s :
  sig_Tag s ≠ "" → ¬ unbeaten sigs s → settle sigs s = sig_setInvalid duplicatedTagsErrorMsg s.
Proof. intros Ht Hu. unfold settle. by rewrite !bool_decide_false. Qed.

Lemma reconcileGroup_ok sigs t m c p :
  sigs_pre sigs → t ≠ "" → groupOf t (range "detectDuplicateTags" sigs) ≠ [] →
  (∀ k s, sigs !! k = Some s → sig_Tag s = t → m !! k = Some s) →
  ∃ m' cs ps, reconcileGroup (m, c, p) (groupOf t (range "detectDuplicateTags" sigs)) = Some (m', c ++ cs, p ++ ps) ∧
    (∀ k s, sigs !! k = Some s → sig_Tag s = t → m' !! k = Some (settle sigs s)) ∧
    (∀ k, (∀ s, sigs !! k = Some s → sig_Tag s ≠ t) → m' !! k = m !! k) ∧
    Forall isSigChange cs ∧ (∀ q, q ∈ ps ↔ rejectedNow sigs (λ t', t' = t) q).
Proof.
  intros Hpre Ht Hne Hm. unfold reconcileGroup.
  destruct (sorted_group sigs t Hpre Ht Hne) as (k & w & losers & -> & [Hk Hnd]%NoDup_cons & Hin & Hwin & Hlose).
  destruct (proj1 (Hin k w)) as [Hkw Hwt]; [set_solver|].
  destruct (winner_step k w m c) as (cs0 & -> & Hcs0); [by apply Hpre|congruence|by apply Hm|].
  assert (∀ k' s, (k', s) ∈ losers → k' ≠ k) as Hkne.
  { intros k' s Hks ->. apply Hk, list_elem_of_fmap. by exists (k, s). }
  edestruct (sweep rejectLoser (sig_setInvalid duplicatedTagsErrorMsg) loserChanges loserProblems
    (λ k s, sig_pre k s ∧ sig_Tag s ≠ "") rejectLoser_step (<[k := sig_setValid w]> m) (c ++ cs0) p losers Hnd)
    as (m' & -> & Hl & Hn).
  { intros k' s Hks. destruct (proj1 (Hin k' s)) as [Hk' Hst]; [set_solver|].
    rewrite lookup_insert_ne by (symmetry; by eapply Hkne).
    split; [auto|split; [by apply Hpre|congruence]]. }
  exists m', (cs0 ++ (losers ≫= λ e, loserChanges e.2)), (losers ≫= λ e, loserProblems e.2).
  rewrite app_assoc. split_and!; [done|..].
  - intros k' s Hk' Hst. assert ((k', s) ∈ (k, w) :: losers) as [[= -> ->]|Hin']%elem_of_cons by by apply Hin.
    + rewrite Hn, lookup_insert_eq, settle_winner by (done || congruence). done.
    + rewrite (Hl k' s Hin'), settle_loser by (eauto || congruence). done.
  - intros k' Hk'. rewrite Hn, lookup_insert_ne; [done|..].
    + intros ->. by apply (Hk' w).
    + intros [[k'' s] [-> Hs]]%list_elem_of_fmap. destruct (proj1 (Hin k'' s)) as [? ?]; [set_solver|]. by apply (Hk' s).
  - apply Forall_app. split; [done|]. apply Forall_forall. intros ch [[k' s] [Hch _]]%list_elem_of_bind.
    unfold loserChanges in Hch. simpl in Hch. destruct (sig_IsValid s); [|by apply elem_of_nil in Hch].
    apply list_elem_of_singleton in Hch. by subst.
  - intros q. unfold rejectedNow, loserProblems. rewrite list_elem_of_bind. split.
    + intros ([k' s] & Hq & Hks). destruct (proj1 (Hin k' s)) as [? ?]; [set_solver|]. simpl in Hq.
      destruct (sig_IsValid s) eqn:Hv; [|by apply elem_of_nil in Hq]. apply list_elem_of_singleton in Hq.
      exists k', s. split_and!; eauto; congruence.
    + intros (k' & s & Hk' & Hst & _ & Hv & Hun & ->).
      assert ((k', s) ∈ (k, w) :: losers) as [[= -> ->]|Hin']%elem_of_cons by by apply Hin.
      * done.
      * exists (k', s). simpl. rewrite Hv. split; [by apply list_elem_of_singleton|done].
Qed.
Lemma reconcile_groups sigs ts :
  sigs_pre sigs → NoDup ts →
  (∀ t, t ∈ ts → t ≠ "" ∧ groupOf t (range "detectDuplicateTags" sigs) ≠ []) →
  ∀ m c p, (∀ k s, sigs !! k = Some s → sig_Tag s ∈ ts → m !! k = Some s) →
  ∃ m' cs ps,
    foldM reconcileGroup (m, c, p) ((λ t, groupOf t (range "detectDuplicateTags" sigs)) <$> ts)
      = Some (m', c ++ cs, p ++ ps) ∧
    (∀ k s, sigs !! k = Some s → sig_Tag s ∈ ts → m' !! k = Some (settle sigs s)) ∧
    (∀ k, (∀ s, sigs !! k = Some s → sig_Tag s ∉ ts) → m' !! k = m !! k) ∧
    Forall isSigChange cs ∧ (∀ q, q ∈ ps ↔ rejectedNow sigs (.∈ ts) q).
Proof.
  intros Hpre. induction ts as [|t ts IH]; intros Hnd Hts m c p Hm; cbn [fmap list_fmap].
  { exists m, [], []. rewrite !app_nil_r. unfold rejectedNow. split_and!; try done.
    - intros k s _ []%elem_of_nil.
    - intros q. rewrite elem_of_nil. setoid_rewrite elem_of_nil. naive_solver. }
  apply NoDup_cons in Hnd as [Ht Hnd]. destruct (Hts t) as [Hte Hg]; [by left|].
  destruct (reconcileGroup_ok sigs t m c p Hpre Hte Hg) as (m1 & cs1 & ps1 & Hr & Hin1 & Hout1 & Hc1 & Hp1).
  { intros k s Hk Hst. apply Hm; [done|]. rewrite Hst. by left. }
  edestruct (IH Hnd) as (m' & cs & ps & Hrec & Hin & Hout & Hc & Hp).
  { intros t' Ht'. apply Hts. by right. }
  { intros k s Hk Hst. rewrite Hout1; [by apply Hm; [|right]|]. intros s' Hk' Hs'; by simplify_eq. }
  rewrite foldM_cons, Hr. cbn [mbind option_bind]. rewrite Hrec.
  exists m', (cs1 ++ cs), (ps1 ++ ps). rewrite !app_assoc. split_and!; [done|..].
  - intros k s Hk [Hst|Hst]%elem_of_cons; [|by apply Hin].
    rewrite Hout; [by apply Hin1|]. intros s' Hk' Hs'; by simplify_eq.
  - intros k Hk. rewrite Hout, Hout1; [done|..]; intros s Hks Hst; apply (Hk s Hks); rewrite ?Hst; set_solver.
  - by apply Forall_app.
  - intros q. rewrite elem_of_app, Hp1, Hp. unfold rejectedNow. setoid_rewrite elem_of_cons. naive_solver.
Qed.

(** One pass settles every signature, touches only signatures and reports
    exactly the signatures that lose their validity. *)
Lemma reconcileUserSigs_ok sigs :
  sigs_pre sigs →
  ∃ cs ps, reconcileUserSigs sigs = Some (settle sigs <$> sigs, cs, ps) ∧
    Forall isSigChange cs ∧ (∀ q, q ∈ ps ↔ rejectedNow sigs (λ _, True) q).
Proof.
  intros Hpre. unfold reconcileUserSigs.
  assert (detectDuplicateTags sigs =
    (λ t, groupOf t (range "detectDuplicateTags" sigs)) <$> (tagGroups sigs).*1) as ->.
  { change (detectDuplicateTags sigs) with (tagGroups sigs).*2. rewrite <- list_fmap_compose.
    apply list_fmap_ext. intros i [t g] Hi%list_elem_of_lookup_2.
    by apply elem_of_tagGroups in Hi as (_ & _ & ->). }
  assert (∀ t, t ∈ (tagGroups sigs).*1 ↔ t ≠ "" ∧ groupOf t (range "detectDuplicateTags" sigs) ≠ []) as Hts.
  { intros t. rewrite list_elem_of_fmap. split.
    - intros ([t' g] & -> & Hin). by apply elem_of_tagGroups in Hin as (? & ? & ->).
    - intros [? ?]. exists (t, groupOf t (range "detectDuplicateTags" sigs)). split; [done|].
      by apply elem_of_tagGroups. }
  assert (∀ k s, sigs !! k = Some s → sig_Tag s ≠ "" → sig_Tag s ∈ (tagGroups sigs).*1) as Hscope.
  { intros k s Hk Ht. apply Hts. split; [done|]. intros Hnil.
    apply (not_elem_of_nil (k, s)). rewrite <- Hnil. by apply elem_of_groupOf. }
  destruct (reconcile_groups sigs _ Hpre (NoDup_tagGroups sigs) (λ t, proj1 (Hts t)) sigs [] [])
    as (m' & cs & ps & -> & Hin & Hout & Hc & Hp); [done|].
  exists cs, ps. split_and!; [|done|].
  - do 3 f_equal. apply map_eq. intros k. rewrite lookup_fmap. destruct (sigs !! k) as [s|] eqn:Hk; simpl.
    + destruct (decide (sig_Tag s = "")) as [He|He].
      * rewrite Hout, Hk; [|intros s' ? ?%Hts; simplify_eq; naive_solver].
        unfold settle. by rewrite bool_decide_true.
      * apply Hin; eauto.
    + by rewrite Hout, Hk by (intros; simplify_eq).
  - intros q. rewrite Hp. unfold rejectedNow. naive_solver.
Qed.
(** ** Settled signatures *)

Lemma settle_obj sigs s : sig_Obj (settle sigs s) = sig_Obj s ∧ sig_Tag (settle sigs s) = sig_Tag s.
Proof. unfold settle. by repeat case_bool_decide. Qed.

(** Whether a signature is beaten depends on objects and tags only. *)
Lemma unbeaten_ext sigs1 sigs2 s1 s2 :
  (∀ k a, sigs1 !! k = Some a → ∃ b, sigs2 !! k = Some b ∧ sig_Obj a = sig_Obj b ∧ sig_Tag a = sig_Tag b) →
  sig_Obj s1 = sig_Obj s2 → sig_Tag s1 = sig_Tag s2 → unbeaten sigs2 s2 → unbeaten sigs1 s1.
Proof.
  intros Hs Ho Ht H2 k a Hk Hat. destruct (Hs k a Hk) as (b & Hb & Hob & Htb).
  rewrite Less_choose, Hob, Ho, <- Less_choose. apply (H2 k b Hb). congruence.
Qed.

Lemma settled_ok sigs : sigs_pre sigs → sigs_ok (settle sigs <$> sigs).
Proof.
  intros Hpre. split.
  - intros k s. rewrite lookup_fmap, fmap_Some. intros (s' & Hk & ->). by apply sig_pre_settle, Hpre.
  - intros k s. rewrite lookup_fmap, fmap_Some. intros (s' & Hk & ->).
    assert (unbeaten (settle sigs <$> sigs) (settle sigs s') ↔ unbeaten sigs s') as Hiff.
    { split; apply unbeaten_ext; try apply settle_obj; try (symmetry; apply settle_obj).
      - intros k' a Ha. exists (settle sigs a). rewrite lookup_fmap, Ha. split; [done|].
        split; symmetry; apply settle_obj.
      - intros k' a. rewrite lookup_fmap, fmap_Some. intros (b & Hb & ->). exists b.
        split; [done|]. apply settle_obj. }
    unfold settle at 2. rewrite (bool_decide_ext _ _ Hiff), (proj2 (settle_obj sigs s')).
    case_bool_decide as He; [done|]. unfold settle. rewrite (bool_decide_false _ He).
    by case_bool_decide.
Qed.

Lemma sig_pre_same k s1 s2 :
  sig_pre k s1 → sig_pre k s2 → sig_Obj s1 = sig_Obj s2 →
  sig_Tag s1 = sig_Tag s2 ∧ sig_RevTime s1 = sig_RevTime s2.
Proof.
  intros [H1 H1']%sig_pre_fields [H2 H2']%sig_pre_fields Ho. by rewrite H1, H1', H2, H2', Ho.
Qed.

Lemma sigs_ok_determined sigs1 sigs2 :
  sigs_ok sigs1 → sigs_ok sigs2 → sig_Obj <$> sigs1 = sig_Obj <$> sigs2 → sigs1 = sigs2.
Proof.
  intros [Hp1 Hs1] [Hp2 Hs2] Hobj.
  assert (∀ k, sig_Obj <$> sigs1 !! k = sig_Obj <$> sigs2 !! k) as Hk.
  { intros k. by rewrite <- !lookup_fmap, Hobj. }
  assert (∀ k a, sigs1 !! k = Some a →
    ∃ b, sigs2 !! k = Some b ∧ sig_Obj a = sig_Obj b ∧ sig_Tag a = sig_Tag b) as H12.
  { intros k a Ha. specialize (Hk k). rewrite Ha in Hk. destruct (sigs2 !! k) as [b|] eqn:Hb; simplify_eq/=.
    exists b. split_and!; [done..|]. by apply (sig_pre_same k a b (Hp1 k a Ha) (Hp2 k b Hb)). }
  assert (∀ k a, sigs2 !! k = Some a →
    ∃ b, sigs1 !! k = Some b ∧ sig_Obj a = sig_Obj b ∧ sig_Tag a = sig_Tag b) as H21.
  { intros k a Ha. specialize (Hk k). rewrite Ha in Hk. destruct (sigs1 !! k) as [b|] eqn:Hb; simplify_eq/=.
    exists b. split_and!; [done..|]. by apply (sig_pre_same k a b (Hp2 k a Ha) (Hp1 k b Hb)). }
  apply map_eq. intros k. destruct (sigs1 !! k) as [a|] eqn:Ha.
  - destruct (H12 k a Ha) as (b & Hb & Ho & Ht). rewrite Hb. f_equal.
    assert (unbeaten sigs1 a ↔ unbeaten sigs2 b) as Hiff by (split; by apply unbeaten_ext).
    destruct (sig_pre_same k a b (Hp1 k a Ha) (Hp2 k b Hb) Ho) as [_ Hr].
    rewrite (Hs1 k a Ha), (Hs2 k b Hb). unfold settle. rewrite (bool_decide_ext _ _ Hiff), Ht.
    case_bool_decide as He.
    + destruct (Hp1 k a Ha) as (_ & -> & _), (Hp2 k b Hb) as (_ & -> & _); congruence.
    + unfold sig_setValid, sig_setInvalid. by rewrite Ho, Ht, Hr.
  - destruct (sigs2 !! k) as [b|] eqn:Hb; [|done]. destruct (H21 k b Hb) as (? & ? & _). congruence.
Qed.
End Signatures.
