(* ===== verification/AppProtectCorrect.v ===== *)
(** App Protect policies and the operations of appprotect.ConfigurationImpl: the
    validity of signatures and policies is a function of the stored objects, and
    the changes a signature request reports for policies are exact. *)
From S2P Require Import Prelude GoStrings Objects ProxyBuffers Resources ConfigState.
From S2P Require Import AppProtect AppProtectSignatures.

Section Correct.
Context `{API : UnstructuredAPI} `{Laws : !UnstructuredLaws} `{MR : MapRange}.

(** ** Policies as they are created *)

Lemma created_policy o p err :
  createAppProtectPolicyEx o = Some (p, err) →
  pol_Obj p = o ∧
  match err with
  | None => pol_IsValid p = true ∧ pol_ErrorMsg p = ""
  | Some _ => pol_IsValid p = false ∧ pol_ErrorMsg p ≠ missingUserSigErrorMsg
  end.
Proof.
  unfold createAppProtectPolicyEx. intros H. repeat case_match; simplify_option_eq; repeat case_match; simplify_eq; done.
Qed.

Lemma pol_setValid_id p : pol_IsValid p = true → pol_ErrorMsg p = "" → pol_setValid p = p.
Proof. destruct p; simpl; intros; by subst. Qed.

Lemma pol_setInvalid_id p m : pol_IsValid p = false → pol_ErrorMsg p = m → pol_setInvalid m p = p.
Proof. destruct p; simpl; intros; by subst. Qed.

(** A stored policy is its created form, or that form rejected for missing
    signatures. *)
Definition pol_pre (k : string) (p : PolicyEx) : Prop :=
  k = GetNsName (pol_Obj p) ∧
  ∃ p0 err, createAppProtectPolicyEx (pol_Obj p) = Some (p0, err) ∧
    (p = p0 ∨ err = None ∧ p = pol_setInvalid missingUserSigErrorMsg p0).

(** A policy that parsed, whatever its signatures *)
Definition parsed (p : PolicyEx) : bool :=
  pol_IsValid p || bool_decide (pol_ErrorMsg p = missingUserSigErrorMsg).

Lemma pol_pre_status k p :
  pol_pre k p →
  (pol_IsValid p = true → pol_setValid p = p) ∧
  (pol_IsValid p = false → pol_ErrorMsg p = missingUserSigErrorMsg →
     pol_setInvalid missingUserSigErrorMsg p = p) ∧
  (parsed p = true ↔ ∃ p0, createAppProtectPolicyEx (pol_Obj p) = Some (p0, None)).
Proof.
  intros (_ & p0 & err & Hc & Hp). pose proof (created_policy _ _ _ Hc) as [_ Herr]. split_and!.
  - intros Hv. destruct Hp as [->|[-> ->]]; [|done]. destruct err; destruct Herr; [congruence|].
    by apply pol_setValid_id.
  - apply pol_setInvalid_id.
  - unfold parsed. rewrite Hc. destruct Hp as [->|[-> ->]].
    + destruct err, Herr as [Hv Hm]; rewrite Hv; simpl; [|naive_solver].
      rewrite bool_decide_false by done. naive_solver.
    + simpl. split; [eauto|done].
Qed.

(** The verdict of verifyPolicies on one policy *)
Definition verified (sigs : gmap string UserSigEx) (p : PolicyEx) : PolicyEx :=
  if parsed p then
    if verifyPolicyAgainstUserSigs sigs p then pol_setValid p
    else pol_setInvalid missingUserSigErrorMsg p
  else p.

Definition missingProblem (p : PolicyEx) : Problem :=
  {| pb_Object := pol_Obj p; pb_Reason := EventReasonRejected; pb_Message := missingUserSigErrorMsg |}.

Definition polChanges (sigs : gmap string UserSigEx) (p : PolicyEx) : list Change :=
  if bool_decide (pol_IsValid p = pol_IsValid (verified sigs p)) then []
  else [{| ch_Op := if pol_IsValid p then Delete else AddOrUpdate; ch_Resource := APolicy (verified sigs p) |}].

Definition polProblems (sigs : gmap string UserSigEx) (p : PolicyEx) : list Problem :=
  if pol_IsValid p && negb (pol_IsValid (verified sigs p)) then [missingProblem p] else [].

Lemma verifyPolicy_step sigs m c q k p :
  m !! k = Some p → pol_pre k p →
  verifyPolicy sigs (m, c, q) (k, p) =
    (<[k := verified sigs p]> m, c ++ polChanges sigs p, q ++ polProblems sigs p).
Proof.
  intros Hk Hp. destruct (pol_pre_status k p Hp) as (Hval & Hinv & _).
  unfold verifyPolicy, polChanges, polProblems, verified, parsed.
  destruct (pol_IsValid p) eqn:Hv; simpl.
  - rewrite ?Hv. destruct (verifyPolicyAgainstUserSigs sigs p); simpl; [|done].
    by rewrite ?Hval, ?insert_id, ?app_nil_r.
  - case_bool_decide as Hm; simpl; [|rewrite Hv; simpl; by rewrite insert_id, !app_nil_r].
    destruct (verifyPolicyAgainstUserSigs sigs p) eqn:Hs; simpl.
    { change (verifyPolicyAgainstUserSigs sigs (pol_setValid p)) with (verifyPolicyAgainstUserSigs sigs p).
      by rewrite Hs, app_nil_r. }
    rewrite Hv. simpl. by rewrite Hinv, insert_id, !app_nil_r.
Qed.

Lemma verifyPolicies_ok sigs pols :
  map_Forall pol_pre pols →
  ∃ cs ps, verifyPolicies sigs pols = (verified sigs <$> pols, cs, ps) ∧
    cs = (range "verifyPolicies" pols ≫= λ e, polChanges sigs e.2) ∧
    ps = (range "verifyPolicies" pols ≫= λ e, polProblems sigs e.2).
Proof.
  intros Hpre. unfold verifyPolicies.
  destruct (sweep (verifyPolicy sigs) (verified sigs) (polChanges sigs) (polProblems sigs) pol_pre
    (verifyPolicy_step sigs) pols [] [] (range "verifyPolicies" pols)) as (m' & -> & Hin & Hout).
  - apply NoDup_range_keys.
  - intros k p Hp%elem_of_range. split; [done|]. by apply Hpre.
  - eexists _, _. split; [|done]. do 2 f_equal. apply map_eq. intros k. rewrite lookup_fmap.
    destruct (pols !! k) as [p|] eqn:Hk; simpl.
    + apply Hin. by apply elem_of_range.
    + rewrite Hout, Hk; [done|]. intros ([k' p] & -> & He)%list_elem_of_fmap.
      apply elem_of_range in He. simpl in Hk. congruence.
Qed.
(** ** Reachable configurations *)

Inductive apRequest :=
  | ReqPolicy (o : Unstructured) | ReqLogConf (o : Unstructured) | ReqUserSig (o : Unstructured)
  | ReqDelPolicy (key : string) | ReqDelLogConf (key : string) | ReqDelUserSig (key : string).

(** The CRD's schema: requirements are maps whose tag and dates are strings. *)
Definition wf_requirement (i : jsonItem) : Prop :=
  match i with
  | JNotMap => False
  | JMap m => ∀ f, f ∈ ["tag"; "minRevisionDatetime"; "maxRevisionDatetime"] → m !! f ≠ Some JOther
  end.

Definition wf_apRequest (r : apRequest) : Prop :=
  match r with
  | ReqPolicy o => ∀ items, NestedSlice o ["spec"; "policy"; "signature-requirements"] = inr (Some items) →
      Forall wf_requirement items
  | _ => True
  end.

Definition apStep (r : apRequest) (ci : ConfigurationImpl) : option ConfigurationImpl :=
  match r with
  | ReqPolicy o => '(ci', _, _) ← AddOrUpdatePolicy o ci; Some ci'
  | ReqLogConf o => Some (AddOrUpdateLogConf o ci).1.1
  | ReqUserSig o => '(ci', _, _) ← AddOrUpdateUserSig o ci; Some ci'
  | ReqDelPolicy k => Some (DeletePolicy k ci).1.1
  | ReqDelLogConf k => Some (DeleteLogConf k ci).1.1
  | ReqDelUserSig k => '(ci', _, _) ← DeleteUserSig k ci; Some ci'
  end.

Inductive apReachable : ConfigurationImpl → Prop :=
  | ap_init : apReachable newConfigurationImpl
  | ap_step ci r ci' : apReachable ci → apStep r ci = Some ci' → apReachable ci'.

Record ap_ok (ci : ConfigurationImpl) : Prop := {
  ok_sigs : sigs_ok (ap_UserSigs ci);
  ok_pre : map_Forall pol_pre (ap_Policies ci);
  ok_verified : map_Forall (λ _ p, p = verified (ap_UserSigs ci) p) (ap_Policies ci);
  ok_logConfs : map_Forall (λ k l, k = GetNsName (lc_Obj l) ∧ l = (createAppProtectLogConfEx (lc_Obj l)).1)
                  (ap_LogConfs ci)
}.

Lemma revTime_total m f msg : m !! f ≠ Some JOther → is_Some (revTime m f msg).
Proof. intros H. unfold revTime. destruct (m !! f) as [[]|]; eauto; done. Qed.

Lemma buildRevTimes_total m : wf_requirement (JMap m) → is_Some (buildRevTimes m).
Proof.
  intros H. unfold buildRevTimes.
  destruct (revTime_total m "minRevisionDatetime" "Error Parsing time from minRevisionDatetime ") as [[e|t] ->];
    [apply H; set_solver|by eauto|]. cbn.
  destruct (revTime_total m "maxRevisionDatetime" "Error Parsing time from maxRevisionDatetime  ") as [x ->];
    [apply H; set_solver|by eauto].
Qed.

Lemma signatureReqs_total items acc : Forall wf_requirement items → is_Some (signatureReqs items acc).
Proof.
  intros H. revert acc. induction H as [|[m|] items Hm _ IH]; intros acc; simpl; [by eauto| |done].
  destruct (m !! "tag") as [reqTag|] eqn:Ht; [|apply IH].
  destruct (buildRevTimes_total m Hm) as [[e|t] ->]; simpl; [by eauto|].
  destruct reqTag; [apply IH|]. exfalso. apply (Hm "tag"); [by left|done].
Qed.

Lemma createPolicy_total o : wf_apRequest (ReqPolicy o) → is_Some (createAppProtectPolicyEx o).
Proof.
  intros H. unfold createAppProtectPolicyEx. destruct (ValidateAppProtectPolicy o); [by eauto|].
  destruct (NestedSlice _ _) as [e|found] eqn:Hn; [by eauto|].
  destruct (signatureReqs_total (default [] found) []) as [x ->]; [|by eauto].
  destruct found as [items|]; [by apply H|constructor].
Qed.

Lemma sigs_pre_insert sigs o :
  sigs_pre sigs → sigs_pre (<[GetNsName o := createdSig o]> sigs).
Proof. intros H. apply map_Forall_insert_2; [apply sig_pre_created|done]. Qed.

(** What buildUserSigChangeAndProblems does to the signatures and the policies *)
Lemma build_ok ci :
  sigs_pre (ap_UserSigs ci) → map_Forall pol_pre (ap_Policies ci) →
  let sigs := settle (ap_UserSigs ci) <$> ap_UserSigs ci in
  ∃ change problems,
    buildUserSigChangeAndProblems ci =
      Some ({| ap_Policies := verified sigs <$> ap_Policies ci; ap_LogConfs := ap_LogConfs ci;
               ap_UserSigs := sigs |}, change, problems) ∧
    usc_PolicyDeletions change =
      policyObjs Delete (range "verifyPolicies" (ap_Policies ci) ≫= λ e, polChanges sigs e.2) ∧
    usc_PolicyAddsOrUpdates change =
      policyObjs AddOrUpdate (range "verifyPolicies" (ap_Policies ci) ≫= λ e, polChanges sigs e.2) ∧
    usc_UserSigs change = getAllUserSigObjects sigs ∧
    ∀ q, q ∈ problems ↔ rejectedNow (ap_UserSigs ci) (λ _, True) q ∨
      q ∈ range "verifyPolicies" (ap_Policies ci) ≫= λ e, polProblems sigs e.2.
Proof.
  intros Hs Hp sigs. unfold buildUserSigChangeAndProblems.
  destruct (reconcileUserSigs_ok _ Hs) as (cs & ps & -> & Hcs & Hps). cbn [mbind option_bind]. fold sigs.
  destruct (verifyPolicies_ok sigs _ Hp) as (cs' & ps' & -> & -> & ->).
  assert (∀ op, policyObjs op cs = []) as Hnil.
  { intros op. unfold policyObjs. clear -Hcs. induction Hcs as [|c cs Hc _ IH]; [done|]. simpl.
    unfold isSigChange in Hc. by destruct (ch_Resource c). }
  eexists _, _. split; [done|]. cbn. unfold policyObjs in *. rewrite !omap_app, !Hnil.
  split_and!; [done..|]. intros q. by rewrite elem_of_app, Hps.
Qed.
Lemma pol_pre_verified sigs k p : pol_pre k p → pol_pre k (verified sigs p).
Proof.
  intros Hp. pose proof (pol_pre_status k p Hp) as (_ & _ & Hparsed).
  destruct Hp as (Hk & p0 & err & Hc & Hp). unfold verified.
  destruct (parsed p); [|by split; [|exists p0, err]].
  destruct (proj1 Hparsed eq_refl) as [p1 Hc1]. rewrite Hc in Hc1. simplify_eq.
  destruct (created_policy _ _ _ Hc) as [_ [Hv Hm]].
  assert (pol_setValid p = p1 ∧ pol_setInvalid missingUserSigErrorMsg p = pol_setInvalid missingUserSigErrorMsg p1)
    as [H1 H2].
  { destruct Hp as [->|[_ ->]]; (split; [|done]); [by apply pol_setValid_id|].
    destruct p1; simpl in *; by subst. }
  destruct (verifyPolicyAgainstUserSigs sigs p); (split; [done|]); exists p1, None; simpl; auto.
Qed.

Lemma verified_idemp sigs p : verified sigs (verified sigs p) = verified sigs p.
Proof.
  unfold verified. destruct (parsed p) eqn:Hp; [|by rewrite Hp].
  destruct (verifyPolicyAgainstUserSigs sigs p) eqn:Hv; unfold parsed; simpl.
  - change (verifyPolicyAgainstUserSigs sigs (pol_setValid p)) with (verifyPolicyAgainstUserSigs sigs p). by rewrite Hv.
  - change (verifyPolicyAgainstUserSigs sigs (pol_setInvalid missingUserSigErrorMsg p))
      with (verifyPolicyAgainstUserSigs sigs p). by rewrite Hv.
Qed.

Lemma AddOrUpdatePolicy_ok o ci p0 err :
  createAppProtectPolicyEx o = Some (p0, err) →
  ∃ cs ps, AddOrUpdatePolicy o ci =
    Some (set_Policies ci (<[GetNsName o := verified (ap_UserSigs ci) p0]> (ap_Policies ci)), cs, ps).
Proof.
  intros Hc. unfold AddOrUpdatePolicy. rewrite Hc. cbn [mbind option_bind].
  destruct (created_policy _ _ _ Hc) as [Ho Herr]. unfold verified, parsed. destruct err as [e|]; destruct Herr as [Hv Hm].
  - rewrite Hv, bool_decide_false by done. simpl. eauto.
  - rewrite Hv. simpl. destruct (verifyPolicyAgainstUserSigs _ p0); rewrite ?pol_setValid_id by done; eauto.
Qed.

Lemma ap_ok_build ci ci' change problems :
  sigs_pre (ap_UserSigs ci) → map_Forall pol_pre (ap_Policies ci) →
  map_Forall (λ k l, k = GetNsName (lc_Obj l) ∧ l = (createAppProtectLogConfEx (lc_Obj l)).1) (ap_LogConfs ci) →
  buildUserSigChangeAndProblems ci = Some (ci', change, problems) → ap_ok ci'.
Proof.
  intros Hs Hp Hl Hb. destruct (build_ok ci Hs Hp) as (c & q & Hb' & _). rewrite Hb in Hb'. simplify_eq.
  split; cbn; [by apply settled_ok|..|done]; apply map_Forall_lookup; intros k p;
    rewrite lookup_fmap, fmap_Some; intros (p' & Hk & ->).
  - by apply pol_pre_verified, Hp.
  - by rewrite verified_idemp.
Qed.

(** the policy of the request is parsed without a panic *)
Definition parsable (r : apRequest) : Prop :=
  match r with ReqPolicy o => is_Some (createAppProtectPolicyEx o) | _ => True end.
Lemma wf_parsable r : wf_apRequest r → parsable r.
Proof. destruct r; [apply createPolicy_total|done..]. Qed.
Lemma apStep_parsable r ci ci' : apStep r ci = Some ci' → parsable r.
Proof.
  destruct r; simpl; try done. unfold AddOrUpdatePolicy. destruct (createAppProtectPolicyEx _); [by eauto|done].
Qed.
(** Such requests never panic and keep the invariant. *)
Lemma apStep_ok r ci : ap_ok ci → parsable r → ∃ ci', apStep r ci = Some ci' ∧ ap_ok ci'.
Proof.
  intros Hok Hr. destruct r as [o|o|o|k|k|k]; simpl.
  - destruct Hr as [[p0 err] Hc].
    destruct (AddOrUpdatePolicy_ok o ci p0 err Hc) as (cs & ps & ->). eexists; split; [done|].
    destruct Hok as [H1 H2 H3 H4]. destruct (created_policy _ _ _ Hc) as [Ho _].
    split; cbn; [done| | |done]; apply map_Forall_insert_2; try done; [|by rewrite verified_idemp].
    apply pol_pre_verified. split; [by rewrite Ho|]. rewrite Ho. eauto.
  - eexists; split; [done|]. unfold AddOrUpdateLogConf. destruct Hok as [H1 H2 H3 H4].
    destruct (createAppProtectLogConfEx o) as [l err] eqn:Hl.
    assert (lc_Obj l = o) as Ho by (unfold createAppProtectLogConfEx in Hl; by case_match; simplify_eq).
    assert (ap_ok (set_LogConfs ci (<[GetNsName o := l]> (ap_LogConfs ci)))) by
      (split; cbn; [done..|]; apply map_Forall_insert_2; [by rewrite Ho, Hl|done]).
    by destruct err.
  - unfold AddOrUpdateUserSig. destruct (createAppProtectUserSigEx o) as [s err] eqn:Hs.
    assert (s = createdSig o) as -> by (unfold createdSig; by rewrite Hs).
    destruct Hok as [[H1 _] H2 H3 H4]. apply (sigs_pre_insert _ o) in H1.
    edestruct (build_ok (set_UserSigs ci (<[GetNsName o := createdSig o]> (ap_UserSigs ci)))) as (c & q & Hb & _);
      [done..|].
    rewrite Hb. eexists; split; [done|]. by eapply ap_ok_build in Hb.
  - eexists; split; [done|]. unfold DeletePolicy. destruct (_ !! k); [|done].
    destruct Hok as [H1 H2 H3 H4]. split; cbn; [done| | |done]; by apply map_Forall_delete.
  - eexists; split; [done|]. unfold DeleteLogConf. destruct (_ !! k); [|done].
    destruct Hok as [H1 H2 H3 H4]. split; cbn; [done..|]. by apply map_Forall_delete.
  - unfold DeleteUserSig. destruct (_ !! k); [|by eauto].
    destruct Hok as [[H1 _] H2 H3 H4].
    assert (sigs_pre (delete k (ap_UserSigs ci))) by by apply map_Forall_delete.
    edestruct (build_ok (set_UserSigs ci (delete k (ap_UserSigs ci)))) as (c & q & Hb & _); [done..|].
    rewrite Hb. eexists; split; [done|]. by eapply ap_ok_build in Hb.
Qed.

Lemma apReachable_ok ci : apReachable ci → ap_ok ci.
Proof.
  induction 1 as [|ci r ci' _ IH Hstep].
  - split; cbn; try apply map_Forall_empty. split; [apply map_Forall_empty|]. intros k s. by rewrite lookup_empty.
  - destruct (apStep_ok r ci IH (apStep_parsable _ _ _ Hstep)) as (? & ? & ?). congruence.
Qed.
(** ** Properties *)

Lemma isReqSatisfiedByUserSigs_spec r sigs :
  isReqSatisfiedByUserSigs r sigs = true ↔
  ∃ k s, sigs !! k = Some s ∧ isReqSatisfiedByUserSig r s = true ∧ sig_IsValid s = true.
Proof.
  unfold isReqSatisfiedByUserSigs. rewrite existsb_exists. setoid_rewrite <- list_elem_of_In. split.
  - intros ([k s] & Hin & [? ?]%andb_true_iff). exists k, s. by rewrite <- elem_of_range.
  - intros (k & s & Hk & Hr & Hv). exists (k, s). rewrite elem_of_range. split; [done|]. simpl. by rewrite Hr, Hv.
Qed.

Lemma verifyPolicy_spec sigs p :
  verifyPolicyAgainstUserSigs sigs p = true ↔
  ∀ r, r ∈ pol_SignatureReqs p →
    ∃ k s, sigs !! k = Some s ∧ isReqSatisfiedByUserSig r s = true ∧ sig_IsValid s = true.
Proof.
  unfold verifyPolicyAgainstUserSigs. rewrite forallb_forall. setoid_rewrite <- list_elem_of_In.
  by setoid_rewrite isReqSatisfiedByUserSigs_spec.
Qed.

Lemma pol_pre_reqs k p p0 err :
  pol_pre k p → createAppProtectPolicyEx (pol_Obj p) = Some (p0, err) → pol_SignatureReqs p = pol_SignatureReqs p0.
Proof. intros (_ & p1 & err1 & Hc & Hp) Hc'. rewrite Hc in Hc'. simplify_eq. by destruct Hp as [->|[_ ->]]. Qed.

Lemma verified_valid sigs k p :
  pol_pre k p →
  pol_IsValid (verified sigs p) = true ↔
  ∃ p0, createAppProtectPolicyEx (pol_Obj p) = Some (p0, None) ∧
    ∀ r, r ∈ pol_SignatureReqs p0 →
      ∃ k s, sigs !! k = Some s ∧ isReqSatisfiedByUserSig r s = true ∧ sig_IsValid s = true.
Proof.
  intros Hp. destruct (pol_pre_status k p Hp) as (_ & _ & Hparsed). split.
  - unfold verified. intros Hv. assert (parsed p = true) as Hpa.
    { destruct (parsed p) eqn:Hpa; [done|]. unfold parsed in Hpa. rewrite Hv in Hpa. done. }
    rewrite Hpa in Hv. apply Hparsed in Hpa as [p0 Hc]. exists p0. split; [done|].
    rewrite <- (pol_pre_reqs k p p0 None Hp Hc). apply verifyPolicy_spec.
    by destruct (verifyPolicyAgainstUserSigs sigs p).
  - intros (p0 & Hc & Hr). unfold verified. rewrite (proj2 Hparsed) by eauto.
    rewrite <- (pol_pre_reqs k p p0 None Hp Hc) in Hr. by rewrite (proj2 (verifyPolicy_spec sigs p) Hr).
Qed.

Lemma settled_valid sigs k s :
  sigs_ok sigs → sigs !! k = Some s → sig_Tag s ≠ "" → sig_IsValid s = true ↔ unbeaten sigs s.
Proof.
  intros [_ Hs] Hk Ht. rewrite (Hs k s Hk) at 1. unfold settle. rewrite bool_decide_false by done.
  by case_bool_decide.
Qed.

Lemma beats_others sigs k s :
  sigs_pre sigs → sigs !! k = Some s →
  unbeaten sigs s ↔ ∀ k' s', sigs !! k' = Some s' → sig_Tag s' = sig_Tag s → k' ≠ k → Less s s' = true.
Proof.
  intros Hpre Hk. split.
  - intros Hun k' s' Hk' Ht Hne. destruct (Less s s') eqn:Hl; [done|]. exfalso. apply Hne.
    pose proof (Hun k' s' Hk' Ht) as Hl'. rewrite Less_choose in Hl, Hl'.
    destruct (choose_total _ _ Hl Hl') as [_ Huid]. apply uid_unique in Huid.
    destruct (Hpre k s Hk) as [-> _], (Hpre k' s' Hk') as [-> _]. symmetry. apply Huid.
  - intros H k' s' Hk' Ht. destruct (decide (k' = k)) as [->|Hne].
    + simplify_eq. rewrite Less_choose. apply choose_irrefl.
    + rewrite Less_choose. apply choose_asym. rewrite <- Less_choose. by apply (H k').
Qed.

Lemma valid_iff_oldest sigs k s :
  sigs_ok sigs → sigs !! k = Some s → sig_Tag s ≠ "" →
  sig_IsValid s = true ↔
  ∀ k' s', sigs !! k' = Some s' → sig_Tag s' = sig_Tag s → k' ≠ k → Less s s' = true.
Proof. intros Hs Hk Ht. rewrite (settled_valid _ k) by done. apply beats_others; [apply Hs|done]. Qed.

(** C25.  In every reachable App Protect configuration a signature with a tag is
    valid exactly when it is older (by creation time, then UID) than every other
    stored signature with that tag, so no tag has two valid signatures; and a
    policy is valid exactly when its object parses and every signature it requires
    is provided by a valid signature. *)
Theorem ap_validity_determined ci :
  apReachable ci →
  (∀ k s, ap_UserSigs ci !! k = Some s → sig_Tag s ≠ "" →
     sig_IsValid s = true ↔
     ∀ k' s', ap_UserSigs ci !! k' = Some s' → sig_Tag s' = sig_Tag s → k' ≠ k → Less s s' = true) ∧
  (∀ k1 k2 s1 s2, ap_UserSigs ci !! k1 = Some s1 → ap_UserSigs ci !! k2 = Some s2 →
     sig_Tag s1 ≠ "" → sig_Tag s1 = sig_Tag s2 → sig_IsValid s1 = true → sig_IsValid s2 = true → k1 = k2) ∧
  (∀ k p, ap_Policies ci !! k = Some p →
     pol_IsValid p = true ↔
     ∃ p0, createAppProtectPolicyEx (pol_Obj p) = Some (p0, None) ∧
       ∀ r, r ∈ pol_SignatureReqs p0 →
         ∃ k s, ap_UserSigs ci !! k = Some s ∧ isReqSatisfiedByUserSig r s = true ∧ sig_IsValid s = true).
Proof.
  intros [Hs Hp Hv _]%apReachable_ok. pose proof (proj1 Hs) as Hpre. split_and!.
  - intros k s Hk Ht. by apply valid_iff_oldest.
  - intros k1 k2 s1 s2 H1 H2 Ht1 Ht Hv1 Hv2. destruct (decide (k1 = k2)) as [|Hne]; [done|exfalso].
    pose proof (proj1 (valid_iff_oldest _ k1 s1 Hs H1 Ht1) Hv1 k2 s2 H2 (eq_sym Ht) (not_eq_sym Hne)) as Hl1.
    rewrite Ht in Ht1. pose proof (proj1 (valid_iff_oldest _ k2 s2 Hs H2 Ht1) Hv2 k1 s1 H1 Ht Hne) as Hl2.
    rewrite Less_choose in Hl1, Hl2. apply choose_asym in Hl1. congruence.
  - intros k p Hk. rewrite (Hv k p Hk) at 1. by apply (verified_valid _ k), Hp.
Qed.

(** Equal objects, equal policies: the created form decides *)
Lemma pol_determined sigs k p1 p2 :
  pol_pre k p1 → pol_pre k p2 → p1 = verified sigs p1 → p2 = verified sigs p2 →
  pol_Obj p1 = pol_Obj p2 → p1 = p2.
Proof.
  intros H1 H2 Hv1 Hv2 Ho. pose proof (pol_pre_status k p1 H1) as (_ & _ & Hp1).
  pose proof (pol_pre_status k p2 H2) as (_ & _ & Hp2). rewrite Ho in Hp1.
  destruct H1 as (_ & q1 & e1 & Hc1 & Hq1), H2 as (_ & q2 & e2 & Hc2 & Hq2).
  rewrite Ho, Hc2 in Hc1. simplify_eq.
  assert (pol_SignatureReqs p1 = pol_SignatureReqs p2) as Hr by (by destruct Hq1 as [->|[_ ->]], Hq2 as [->|[_ ->]]).
  assert (parsed p1 = parsed p2) as Hpa by (apply eq_bool_prop_intro; rewrite !Is_true_true, Hp1, Hp2; reflexivity).
  rewrite Hv1, Hv2. unfold verified. unfold verifyPolicyAgainstUserSigs. rewrite Hr, Hpa.
  destruct (parsed p2) eqn:Hp; [unfold pol_setValid, pol_setInvalid; by rewrite Ho, Hr|].
  destruct Hq1 as [->|[-> ->]]; [destruct Hq2 as [->|[-> ->]]; [done|done]|done].
Qed.

(** C26.  The App Protect configuration does not depend on its history: two
    configurations that requests led to and that hold the same policy, log
    configuration and signature objects are equal, verdicts and error messages
    included.  No request panics, unless it is a policy with a signature
    requirement that is no map, or whose tag or date is no string
    ([wf_apRequest]): createAppProtectPolicyEx asserts these types unchecked. *)
Theorem ap_history_independent ci1 ci2 :
  apReachable ci1 → apReachable ci2 →
  (∀ r, wf_apRequest r → is_Some (apStep r ci1)) ∧
  (pol_Obj <$> ap_Policies ci1 = pol_Obj <$> ap_Policies ci2 →
   lc_Obj <$> ap_LogConfs ci1 = lc_Obj <$> ap_LogConfs ci2 →
   sig_Obj <$> ap_UserSigs ci1 = sig_Obj <$> ap_UserSigs ci2 → ci1 = ci2).
Proof.
  intros H1%apReachable_ok H2%apReachable_ok. split.
  { intros r Hr. destruct (apStep_ok r ci1 H1 (wf_parsable r Hr)) as (? & ? & _). eauto. }
  intros Hp Hl Hs. destruct H1 as [Hs1 Hp1 Hv1 Hl1], H2 as [Hs2 Hp2 Hv2 Hl2].
  pose proof (sigs_ok_determined _ _ Hs1 Hs2 Hs) as Hsigs. rewrite <- Hsigs in Hv2.
  destruct ci1 as [P1 L1 S1], ci2 as [P2 L2 S2]; cbn in *. f_equal; [| |done]; apply map_eq; intros k.
  - pose proof (f_equal (.!! k) Hp) as Hk. cbn in Hk. rewrite !lookup_fmap in Hk.
    destruct (P1 !! k) as [p1|] eqn:E1, (P2 !! k) as [p2|] eqn:E2; simplify_eq/=; [|done]. f_equal.
    by eapply pol_determined; eauto.
  - pose proof (f_equal (.!! k) Hl) as Hk. cbn in Hk. rewrite !lookup_fmap in Hk.
    destruct (L1 !! k) as [l1|] eqn:E1, (L2 !! k) as [l2|] eqn:E2; simplify_eq/=; [|done]. f_equal.
    destruct (Hl1 k l1 E1) as [_ ->], (Hl2 k l2 E2) as [_ ->]. congruence.
Qed.

Lemma verified_obj sigs p : pol_Obj (verified sigs p) = pol_Obj p.
Proof. unfold verified. by repeat case_match. Qed.

Lemma elem_of_policyObjs sigs op (pols : gmap string PolicyEx) o :
  o ∈ policyObjs op (range "verifyPolicies" pols ≫= λ e, polChanges sigs e.2) ↔
  ∃ k p, pols !! k = Some p ∧ pol_IsValid p ≠ pol_IsValid (verified sigs p) ∧
    op = (if pol_IsValid p then Delete else AddOrUpdate) ∧ o = pol_Obj p.
Proof.
  unfold policyObjs. rewrite list_elem_of_omap. unfold polChanges. split.
  - intros (c & ([k p] & Hc & Hin%elem_of_range)%list_elem_of_bind & Ho). simpl in Hc.
    destruct (decide (pol_IsValid p = pol_IsValid (verified sigs p))) as [He|Hne].
    { rewrite bool_decide_true in Hc by done. by apply elem_of_nil in Hc. }
    rewrite bool_decide_false in Hc by done. apply list_elem_of_singleton in Hc as ->.
    cbn in Ho. case_bool_decide; simplify_eq. rewrite verified_obj. eauto 10.
  - intros (k & p & Hk & Hne & -> & ->).
    exists {| ch_Op := if pol_IsValid p then Delete else AddOrUpdate; ch_Resource := APolicy (verified sigs p) |}.
    split; [|cbn; by rewrite bool_decide_true, verified_obj].
    apply list_elem_of_bind. exists (k, p). rewrite elem_of_range. split; [|done]. simpl.
    rewrite bool_decide_false by done. by apply list_elem_of_singleton.
Qed.

Lemma GetAppResource_policy k ci :
  GetAppResource "APPolicy" k ci =
  match ap_Policies ci !! k with
  | Some p => appResult (pol_IsValid p) (pol_Obj p) (pol_ErrorMsg p)
  | None => inl ("app protect Policy " +:+ k +:+ " not found")
  end.
Proof. done. Qed.

Lemma GetAppResource_userSig k ci o :
  GetAppResource "APUserSig" k ci = inr o ↔
  ∃ s, ap_UserSigs ci !! k = Some s ∧ sig_IsValid s = true ∧ o = sig_Obj s.
Proof.
  change (GetAppResource "APUserSig" k ci) with
    (match ap_UserSigs ci !! k with
     | Some s => appResult (sig_IsValid s) (sig_Obj s) (sig_ErrorMsg s)
     | None => inl ("app protect UserSig " +:+ k +:+ " not found")
     end).
  unfold appResult. destruct (_ !! k) as [s|]; [|by split; [|intros (? & ? & _)]].
  destruct (sig_IsValid s) eqn:Hv; split; try done.
  - intros [= <-]. eauto.
  - by intros (s' & [= <-] & _ & ->).
  - intros (s' & [= <-] & ? & _). congruence.
Qed.

Lemma elem_of_allUserSigs sigs o :
  o ∈ getAllUserSigObjects sigs ↔ ∃ k s, sigs !! k = Some s ∧ sig_IsValid s = true ∧ o = sig_Obj s.
Proof.
  unfold getAllUserSigObjects. rewrite list_elem_of_omap. split.
  - intros ([k s] & Hin%elem_of_range & Ho). simpl in Ho. destruct (sig_IsValid s) eqn:Hv; [|done]. injection Ho as <-. eauto.
  - intros (k & s & Hk & Hv & ->). exists (k, s). rewrite elem_of_range. simpl. by rewrite Hv.
Qed.

(** A policy whose verdict [verified] changes is seen to change by GetAppResource. *)
Lemma verdict_change ci ci' sigs k p :
  ap_ok ci → ap_Policies ci' = verified sigs <$> ap_Policies ci → ap_Policies ci !! k = Some p →
  (pol_IsValid p = true → pol_IsValid (verified sigs p) = false →
     GetAppResource "APPolicy" k ci = inr (pol_Obj p) ∧
     GetAppResource "APPolicy" k ci' = inl missingUserSigErrorMsg) ∧
  (pol_IsValid p = false → pol_IsValid (verified sigs p) = true →
     GetAppResource "APPolicy" k ci = inl missingUserSigErrorMsg ∧
     GetAppResource "APPolicy" k ci' = inr (pol_Obj p)).
Proof.
  intros Hok Hci' Hk. rewrite !GetAppResource_policy, Hci', lookup_fmap, Hk. cbn.
  unfold appResult. rewrite verified_obj. split; intros H1 H2; rewrite H1, H2; split; try done.
  - unfold verified, parsed in *. rewrite H1 in *. simpl in *. by destruct (verifyPolicyAgainstUserSigs sigs p).
  - unfold verified, parsed in H2. rewrite H1 in H2. simpl in H2.
    case_bool_decide as Hm; [by rewrite Hm|congruence].
Qed.

(** The signature requests: an addition or update, or the deletion of a
    signature the configuration holds *)
Definition signatureRequest (r : apRequest) (ci : ConfigurationImpl)
    : option (ConfigurationImpl * UserSigChange * list Problem) :=
  match r with
  | ReqUserSig o => AddOrUpdateUserSig o ci
  | ReqDelUserSig k => DeleteUserSig k ci
  | _ => None
  end.
Definition heldSignature (r : apRequest) (ci : ConfigurationImpl) : Prop :=
  match r with
  | ReqUserSig _ => True
  | ReqDelUserSig k => is_Some (ap_UserSigs ci !! k)
  | _ => False
  end.

Lemma signatureRequest_build r ci :
  ap_ok ci → heldSignature r ci →
  ∃ ci0 extra, sigs_pre (ap_UserSigs ci0) ∧ ap_Policies ci0 = ap_Policies ci ∧
    signatureRequest r ci = ('(ci', change, more) ← buildUserSigChangeAndProblems ci0; Some (ci', change, extra ++ more)).
Proof.
  intros [[Hs _] Hp _ _] Hr. destruct r as [| |o| | |k]; try done; simpl.
  - unfold AddOrUpdateUserSig. destruct (createAppProtectUserSigEx o) as [s err] eqn:Hc.
    assert (s = createdSig o) as -> by (unfold createdSig; by rewrite Hc).
    eexists (set_UserSigs ci _), _. split_and!; [|done..]. by apply sigs_pre_insert.
  - unfold DeleteUserSig. destruct Hr as [s ->].
    exists (set_UserSigs ci (delete k (ap_UserSigs ci))), []. split_and!; [by apply map_Forall_delete|done|].
    by destruct (buildUserSigChangeAndProblems _) as [[[? ?] ?]|].
Qed.

(** A request for a signature (an addition, an update or the deletion of a
    stored signature) returns, and its change is exact: the deleted policies are
    those that GetAppResource gave before and refuses now for a missing signature,
    the added ones those refused before and given now, and the listed signatures
    are the valid ones. *)
Theorem usersig_change_exact ci r :
  apReachable ci → heldSignature r ci →
  ∃ ci' change problems, signatureRequest r ci = Some (ci', change, problems) ∧
    (∀ o, o ∈ usc_PolicyDeletions change ↔
       ∃ k, GetAppResource "APPolicy" k ci = inr o ∧
            GetAppResource "APPolicy" k ci' = inl missingUserSigErrorMsg) ∧
    (∀ o, o ∈ usc_PolicyAddsOrUpdates change ↔
       ∃ k, GetAppResource "APPolicy" k ci = inl missingUserSigErrorMsg ∧
            GetAppResource "APPolicy" k ci' = inr o) ∧
    (∀ o, o ∈ usc_UserSigs change ↔ ∃ k, GetAppResource "APUserSig" k ci' = inr o).
Proof.
  intros Hok%apReachable_ok Hr.
  destruct (signatureRequest_build r ci Hok Hr) as (ci0 & extra & Hs & Hpol & ->).
  destruct (build_ok ci0 Hs) as (change & problems & -> & Hdel & Hadd & Hsigs & _).
  { rewrite Hpol. apply Hok. }
  eexists _, change, (extra ++ problems). split; [done|]. rewrite Hdel, Hadd, Hsigs, Hpol.
  set (sigs := settle (ap_UserSigs ci0) <$> ap_UserSigs ci0) in *. set (ci' := Build_ConfigurationImpl _ _ _).
  pose proof (λ k p, verdict_change ci ci' sigs k p Hok eq_refl) as Hverdict.
  split_and!; intros o; [rewrite elem_of_policyObjs|rewrite elem_of_policyObjs|].
  - split.
    + intros (k & p & Hk & Hne & Hop & ->). exists k. apply (Hverdict k p Hk); destruct (pol_IsValid p), (pol_IsValid (verified sigs p)); done.
    + intros (k & H1 & H2). rewrite GetAppResource_policy in H1, H2.
      cbn in H2. rewrite lookup_fmap in H2. destruct (ap_Policies ci !! k) as [p|] eqn:Hk; [|done].
      cbn in H2. unfold appResult in *. exists k, p.
      destruct (pol_IsValid p) eqn:Hv, (pol_IsValid (verified sigs p)) eqn:Hv'; simplify_eq; done.
  - split.
    + intros (k & p & Hk & Hne & Hop & ->). exists k. apply (Hverdict k p Hk); destruct (pol_IsValid p), (pol_IsValid (verified sigs p)); done.
    + intros (k & H1 & H2). rewrite GetAppResource_policy in H1, H2.
      cbn in H2. rewrite lookup_fmap in H2. destruct (ap_Policies ci !! k) as [p|] eqn:Hk; [|done].
      cbn in H2. unfold appResult in *. exists k, p. rewrite verified_obj in H2.
      destruct (pol_IsValid p) eqn:Hv, (pol_IsValid (verified sigs p)) eqn:Hv'; simplify_eq; done.
  - rewrite elem_of_allUserSigs. by setoid_rewrite GetAppResource_userSig.
Qed.

(** Deleting a signature the configuration does not hold (one created and
    deleted before its first sync) changes nothing, yet the change returned lists
    no signature at all although some are valid; RefreshAppProtectUserSigs
    writes the listed signatures and removes all others. *)
Theorem unknown_signature_deletion_lists_none ci key k o :
  ap_UserSigs ci !! key = None → GetAppResource "APUserSig" k ci = inr o →
  ∃ ci' change, DeleteUserSig key ci = Some (ci', change, []) ∧
    GetAppResource "APUserSig" k ci' = inr o ∧ usc_UserSigs change = [].
Proof. intros Hk Hg. unfold DeleteUserSig. rewrite Hk. eauto. Qed.

(** A requirement that names a tag and no dates is never met by a signature that
    has a revision date: createAppProtectPolicyEx always sets the bounds record. *)
Lemma undated_requirement_unmet o p0 r s t :
  createAppProtectPolicyEx o = Some (p0, None) → r ∈ pol_SignatureReqs p0 →
  sr_RevTimes r = Some {| rt_Min := None; rt_Max := None |} → sig_RevTime s = Some t →
  isReqSatisfiedByUserSig r s = false.
Proof. intros _ _ Hr Hs. unfold isReqSatisfiedByUserSig. rewrite Hr, Hs. by case_match. Qed.
End Correct.

(** ** A concrete cluster *)

Module ApSample.
(** Objects with the fields the code reads; the UID is derived from the name. *)
Record obj := {
  o_name : string; o_created : Z; o_tag : option string; o_rev : option string; o_reqs : list jsonItem
}.

Definition meta (o : obj) : ObjectMeta :=
  {| om_Namespace := "default"; om_Name := o_name o; om_UID := o_name o; om_CreationTimestamp := o_created o;
     om_Generation := 1; om_Annotations := None; om_Labels := ∅ |}.

Definition parseYear (s : string) : string + Z :=
  if bool_decide (s = "2019-01-01T00:00:00Z") then inr 2019%Z
  else if bool_decide (s = "2020-01-01T00:00:00Z") then inr 2020%Z
  else if bool_decide (s = "2021-01-01T00:00:00Z") then inr 2021%Z
  else inl "cannot parse".

Definition api : UnstructuredAPI := {|
  Unstructured := obj;
  un_Meta := meta;
  NestedMap := λ _ _, inr true;
  NestedSlice := λ o fields,
    inr (if bool_decide (fields = ["spec"; "signatures"]) then Some []
         else if bool_decide (fields = ["spec"; "policy"; "signature-requirements"]) then Some (o_reqs o)
         else None);
  NestedFieldNoCopy := λ _ _, inr false;
  NestedString := λ o fields,
    if bool_decide (fields = ["spec"; "tag"]) then o_tag o
    else if bool_decide (fields = ["spec"; "revisionDatetime"]) then o_rev o else None;
  timeParse := parseYear
|}.

#[export] Instance api_instance : UnstructuredAPI := api.
#[export] Instance range_instance : MapRange := default_range.

#[export] Instance api_laws : UnstructuredLaws.
Proof. split. intros o1 o2 H. cbn in H. unfold getResourceKey. cbn. by rewrite H. Qed.

Definition sig (name : string) (created : Z) (tag : string) (rev : option string) : obj :=
  {| o_name := name; o_created := created; o_tag := Some tag; o_rev := rev; o_reqs := [] |}.

(** A policy that requires tag Fruits with a revision after 2019 *)
Definition policy : obj :=
  {| o_name := "pol"; o_created := 1; o_tag := None; o_rev := None;
     o_reqs := [JMap {["tag" := JString "Fruits"; "minRevisionDatetime" := JString "2019-01-01T00:00:00Z"]}] |}.

(** The policy, a signature that satisfies it, and a younger duplicate *)
Definition requests : list (@apRequest api) :=
  [ReqPolicy policy; ReqUserSig (sig "s1" 5 "Fruits" (Some "2020-01-01T00:00:00Z"));
   ReqUserSig (sig "s2" 7 "Fruits" None)].

Definition state (n : nat) : ConfigurationImpl :=
  default newConfigurationImpl (foldM (λ ci r, apStep r ci) newConfigurationImpl (take n requests)).

Lemma policy_wf : wf_apRequest (ReqPolicy policy).
Proof.
  intros items. cbn. intros [= <-]. repeat constructor. intros f Hf. simpl.
  repeat (apply elem_of_cons in Hf as [->|Hf]; [vm_compute; congruence|]). by apply elem_of_nil in Hf.
Qed.

Lemma run_reachable l ci :
  apReachable ci → apReachable (default newConfigurationImpl (foldM (λ ci r, apStep r ci) ci l)).
Proof.
  revert ci. induction l as [|r l IH]; intros ci Hci; [done|].
  simpl. destruct (apStep r ci) as [ci'|] eqn:Hs; [|constructor]. apply IH. by econstructor.
Qed.
Lemma state_reachable n : apReachable (state n).
Proof.
  apply run_reachable. constructor.
Qed.

(** the same objects in another order, after a signature that came and went *)
Definition otherRequests : list (@apRequest api) :=
  [ReqUserSig (sig "s2" 7 "Fruits" None); ReqUserSig (sig "s0" 3 "Fruits" None); ReqPolicy policy;
   ReqUserSig (sig "s1" 5 "Fruits" (Some "2020-01-01T00:00:00Z")); ReqDelUserSig "default/s0"].
Definition otherState : ConfigurationImpl :=
  default newConfigurationImpl (foldM (λ ci r, apStep r ci) newConfigurationImpl otherRequests).
Lemma otherState_reachable : apReachable otherState.
Proof. apply run_reachable. constructor. Qed.
End ApSample.

Section Witnesses.
Import ApSample.

Lemma ap_validity_determined_witness :
  ap_UserSigs (state 3) !! "default/s1" ≠ None ∧
  (∀ k p, ap_Policies (state 3) !! k = Some p →
     pol_IsValid p = true ↔
     ∃ p0, createAppProtectPolicyEx (pol_Obj p) = Some (p0, None) ∧
       ∀ r, r ∈ pol_SignatureReqs p0 →
         ∃ k s, ap_UserSigs (state 3) !! k = Some s ∧ isReqSatisfiedByUserSig r s = true ∧ sig_IsValid s = true).
Proof.
  split; [vm_compute; discriminate|]. apply (ap_validity_determined (state 3) (state_reachable 3)).
Defined.

Lemma ap_history_independent_witness :
  is_Some (apStep (ReqPolicy policy) (state 3)) ∧ state 3 = otherState ∧
  GetAppResource "APPolicy" "default/pol" otherState = inr policy.
Proof.
  split; [|split].
  - apply (ap_history_independent (state 3) otherState); [apply state_reachable|apply otherState_reachable|apply policy_wf].
  - apply (ap_history_independent (state 3) otherState);
      [apply state_reachable|apply otherState_reachable|vm_compute; reflexivity..].
  - vm_compute. reflexivity.
Defined.

Lemma usersig_change_exact_witness :
  ∃ ci' change problems,
    signatureRequest (ReqUserSig (sig "s1" 5 "Fruits" (Some "2020-01-01T00:00:00Z"))) (state 1)
      = Some (ci', change, problems) ∧
    (∀ o, o ∈ usc_PolicyDeletions change ↔
       ∃ k, GetAppResource "APPolicy" k (state 1) = inr o ∧
            GetAppResource "APPolicy" k ci' = inl missingUserSigErrorMsg) ∧
    (∀ o, o ∈ usc_PolicyAddsOrUpdates change ↔
       ∃ k, GetAppResource "APPolicy" k (state 1) = inl missingUserSigErrorMsg ∧
            GetAppResource "APPolicy" k ci' = inr o) ∧
    (∀ o, o ∈ usc_UserSigs change ↔ ∃ k, GetAppResource "APUserSig" k ci' = inr o).
Proof. apply (usersig_change_exact (state 1)); [apply state_reachable|done]. Defined.

Lemma unknown_signature_deletion_lists_none_witness :
  ∃ ci' change, DeleteUserSig "default/gone" (state 2) = Some (ci', change, []) ∧
    GetAppResource "APUserSig" "default/s1" ci' = inr (sig "s1" 5 "Fruits" (Some "2020-01-01T00:00:00Z")) ∧
    usc_UserSigs change = [].
Proof.
  apply (unknown_signature_deletion_lists_none (state 2) "default/gone" "default/s1"); vm_compute; reflexivity.
Defined.

(** The policy is refused until the signature arrives. *)
Example policy_waits_for_signature :
  GetAppResource "APPolicy" "default/pol" (state 1) = inl missingUserSigErrorMsg ∧
  GetAppResource "APPolicy" "default/pol" (state 2) = inr policy ∧
  GetAppResource "APUserSig" "default/s2" (state 3) = inl duplicatedTagsErrorMsg.
Proof. vm_compute. done. Qed.
End Witnesses.
