(* ===== verification/AppProtectDos.v ===== *)
(** appprotectdos.Configuration
    (internal/k8s/appprotectdos/app_protect_dos_configuration.go) with the
    validators it calls (pkg/apis/dos/validation/dos.go): DoS policies, DoS log
    configurations and the protected resources that refer to them. *)
From S2P Require Import Prelude GoStrings Regex Objects ProxyBuffers Resources ConfigState.
From S2P Require Import ValidationLib ParsingHelpers Directives CommonValidation.
From S2P Require Import HostValidation AppProtect.

(** ** DosProtectedResource (pkg/apis/dos/v1beta1/types.go) *)
Record ApDosMonitor := { adm_URI : string; adm_Protocol : string; adm_Timeout : Z }.
Record DosSecurityLog := { dsl_Enable : bool; dsl_ApDosLogConf : string; dsl_DosLogDest : string }.
Record DosProtectedResource := {
  dpr_Meta : ObjectMeta;
  dpr_Enable : bool;
  dpr_Name : string;
  dpr_ApDosMonitor : option ApDosMonitor;
  dpr_DosAccessLogDest : string;
  dpr_ApDosPolicy : string;
  dpr_DosSecurityLog : option DosSecurityLog;
  dpr_AllowList : list string              (* the IPWithMask of each entry *)
}.

(** unstructured.RemoveNestedField on a field outside the metadata *)
Class DosLib `{API : UnstructuredAPI} := {
  RemoveNestedField : Unstructured → list string → Unstructured
}.
Class DosLaws `{DL : DosLib} := {
  RemoveNestedField_meta o fields : head fields = Some "spec" →
    un_Meta (RemoveNestedField o fields) = un_Meta o
}.

Definition appProtectDosPolicyRequiredFields : list (list string) := [["spec"]].
Definition appProtectDosLogConfRequiredFields : list (list string) := [["spec"; "filter"]].
Definition maxNameLength : nat := 63.

(** validDNSRegex, validIPRegex and validLocalhostRegex of dos.go *)
Definition dosDNSRegex : regex :=
  RCats [RIn alnumRanges; RRange 1 62 (RIn alnumDash); RChar 46;
         RStar (RCat (RRange 1 63 (RIn alnumDash)) (RChar 46));
         RRange 2 6 (RIn letterRanges); port_regexp].
Definition dosIPRegex : regex :=
  RCats [RExactly 3 (RCat (RRange 1 3 (RIn digitRanges)) (RChar 46)); RRange 1 3 (RIn digitRanges);
         port_regexp].
Definition dosLocalhostRegex : regex := RCat (RLit "localhost") port_regexp.
Definition uriRegexp : regex :=
  RPlus (RNotIn (spaceRanges ++ [one 59; one 123; one 125; one 36; one 96])).
Definition validMonitorProtocol : list string := ["http1"; "http2"; "grpc"; "websocket"].

Section DosValidation.
Context `{VL : ValidationLib} `{UL : URLLib} `{DL : DosLib}.

(** ** Validators: [None] is the nil error *)

Definition validateResourceReference (ref : string) : option string :=
  match IsQualifiedName ref with
  | [] => None
  | _ => Some ("reference name is invalid: " +:+ ref)
  end.

Definition validateAppProtectDosLogDest (dstAntn : string) : option string :=
  if bool_decide (dstAntn = "stderr") then None
  else if MatchString dosIPRegex dstAntn || MatchString dosDNSRegex dstAntn
          || MatchString dosLocalhostRegex dstAntn
  then chunkPort (Split colon dstAntn) "invalid log destination: "
  else Some ("invalid log destination: " +:+ dstAntn
             +:+ ", must follow format: <ip-address | localhost | dns name>:<port> or stderr").

Definition validateAppProtectDosName (name : string) : option string :=
  if Nat.ltb maxNameLength (String.length name) then Some "app Protect Dos Name max length is 63"
  else ValidateEscapedString name ["protected-object-one"].

Definition validateAppProtectDosMonitor (m : ApDosMonitor) : option string :=
  if negb (MatchString uriRegexp (adm_URI m)) then Some "app Protect Dos Monitor must have valid URI"
  else match url_Parse (adm_URI m) with
       | inl _ => Some "app Protect Dos Monitor must have valid URL"
       | inr _ =>
           match ValidateEscapedString (adm_URI m) ["http://www.example.com"] with
           | Some err => Some err
           | None =>
               if bool_decide (adm_Protocol m = "") then None
               else match ValidateParameter (adm_Protocol m) validMonitorProtocol "dosMonitorProtocol" with
                    | [] => None
                    | errs => Some ("app Protect Dos Monitor Protocol must be: " +:+ ToAggregate_Error errs)
                    end
           end
       end.

Definition isValidIPWithMask (ipWithMask : string) : bool := bool_decide (net_ParseCIDR ipWithMask = None).
Definition ValidateAppProtectDosAllowList (allowList : list string) : option string :=
  (λ ip, "invalid IP with subnet mask: " +:+ ip)
    <$> head (filter (λ ip, isValidIPWithMask ip = false) allowList).

(** The first of the checks that fails *)
Fixpoint firstError (checks : list (option string)) : option string :=
  match checks with
  | [] => None
  | Some err :: _ => Some err
  | None :: rest => firstError rest
  end.

Definition ValidateDosProtectedResource (protected : DosProtectedResource) : option string :=
  let invalid field err :=
    "error validating DosProtectedResource: " +:+ om_Name (dpr_Meta protected) +:+ " invalid field: "
    +:+ field +:+ " err: " +:+ err in
  if bool_decide (dpr_Name protected = "")
  then Some ("error validating DosProtectedResource: " +:+ om_Name (dpr_Meta protected)
             +:+ " missing value for field: name")
  else firstError
    [ invalid "name" <$> validateAppProtectDosName (dpr_Name protected);
      invalid "apDosMonitor" <$> (dpr_ApDosMonitor protected ≫= validateAppProtectDosMonitor);
      invalid "allowList" <$> ValidateAppProtectDosAllowList (dpr_AllowList protected);
      invalid "dosAccessLogDest" <$>
        (if bool_decide (dpr_DosAccessLogDest protected = "") then None
         else validateAppProtectDosLogDest (dpr_DosAccessLogDest protected));
      invalid "apDosPolicy" <$>
        (if bool_decide (dpr_ApDosPolicy protected = "") then None
         else validateResourceReference (dpr_ApDosPolicy protected));
      invalid "dosSecurityLog/dosLogDest" <$>
        (dpr_DosSecurityLog protected ≫= λ l, validateAppProtectDosLogDest (dsl_DosLogDest l));
      invalid "dosSecurityLog/apDosLogConf" <$>
        (dpr_DosSecurityLog protected ≫= λ l, validateResourceReference (dsl_ApDosLogConf l)) ].

(** The warning, with the object from which the field was removed *)
Definition checkAppProtectDosLogConfContentField (obj : Unstructured) : string * Unstructured :=
  match NestedMap obj ["spec"; "content"] with
  | inr true => ("the Content field is not supported, defaulting to splunk format.",
                 RemoveNestedField obj ["spec"; "content"])
  | _ => ("", obj)
  end.

Definition ValidateAppProtectDosLogConf (logConf : Unstructured) : string + (string * Unstructured) :=
  match ValidateRequiredFields logConf appProtectDosLogConfRequiredFields with
  | Some err => inl ("error validating App Protect Dos Log Configuration " +:+ om_Name (un_Meta logConf)
                     +:+ ": " +:+ err)
  | None => inr (checkAppProtectDosLogConfContentField logConf)
  end.

Definition ValidateAppProtectDosPolicy (policy : Unstructured) : option string :=
  (λ err, "error validating DosPolicy " +:+ om_Name (un_Meta policy) +:+ ": " +:+ err)
    <$> ValidateRequiredFields policy appProtectDosPolicyRequiredFields.
End DosValidation.

(** ** The configuration *)

Section DosConfiguration.
Context `{VL : ValidationLib} `{UL : URLLib} `{DL : DosLib} `{MR : MapRange}.

Record DosPolicyEx := { dp_Obj : Unstructured; dp_IsValid : bool; dp_ErrorMsg : string }.
Record DosLogConfEx := { dl_Obj : Unstructured; dl_IsValid : bool; dl_ErrorMsg : string }.
Record DosProtectedResourceEx := {
  dx_Obj : DosProtectedResource;
  dx_IsValid : bool;
  dx_ErrorMsg : string
}.

Inductive dosResource :=
  | DPolicy (p : DosPolicyEx)
  | DLogConf (l : DosLogConfEx)
  | DProtected (p : DosProtectedResourceEx).
Record DosChange := { dc_Op : Operation; dc_Resource : dosResource }.
Inductive dosObject := DObject (o : Unstructured) | DProtectedObject (p : DosProtectedResource).
Record DosProblem := { dpb_Object : dosObject; dpb_Reason : string; dpb_Message : string }.

(** Configuration *)
Record DosConfiguration := {
  dos_Policies : gmap string DosPolicyEx;
  dos_LogConfs : gmap string DosLogConfEx;
  dos_Protected : gmap string DosProtectedResourceEx;
  dos_isDosEnabled : bool
}.
Definition NewDosConfiguration (isDosEnabled : bool) : DosConfiguration :=
  {| dos_Policies := ∅; dos_LogConfs := ∅; dos_Protected := ∅; dos_isDosEnabled := isDosEnabled |}.

Definition set_dosPolicies (ci : DosConfiguration) (m : gmap string DosPolicyEx) : DosConfiguration :=
  {| dos_Policies := m; dos_LogConfs := dos_LogConfs ci; dos_Protected := dos_Protected ci;
     dos_isDosEnabled := dos_isDosEnabled ci |}.
Definition set_dosLogConfs (ci : DosConfiguration) (m : gmap string DosLogConfEx) : DosConfiguration :=
  {| dos_Policies := dos_Policies ci; dos_LogConfs := m; dos_Protected := dos_Protected ci;
     dos_isDosEnabled := dos_isDosEnabled ci |}.
Definition set_dosProtected (ci : DosConfiguration) (m : gmap string DosProtectedResourceEx)
    : DosConfiguration :=
  {| dos_Policies := dos_Policies ci; dos_LogConfs := dos_LogConfs ci; dos_Protected := m;
     dos_isDosEnabled := dos_isDosEnabled ci |}.

(** The Ex and the error *)
Definition createAppProtectDosPolicyEx (policyObj : Unstructured) : DosPolicyEx * option string :=
  match ValidateAppProtectDosPolicy policyObj with
  | Some err => ({| dp_Obj := policyObj; dp_IsValid := false;
                    dp_ErrorMsg := "failed to store ApDosPolicy: " +:+ err |}, Some err)
  | None => ({| dp_Obj := policyObj; dp_IsValid := true; dp_ErrorMsg := "" |}, None)
  end.

Definition createAppProtectDosLogConfEx (logConfObj : Unstructured) : DosLogConfEx * option string :=
  match ValidateAppProtectDosLogConf logConfObj with
  | inl err => ({| dl_Obj := logConfObj; dl_IsValid := false;
                   dl_ErrorMsg := "failed to store ApDosLogconf: " +:+ err |}, Some err)
  | inr (warning, obj) => ({| dl_Obj := obj; dl_IsValid := true; dl_ErrorMsg := warning |}, None)
  end.

Definition createDosProtectedResourceEx (protectedConf : DosProtectedResource)
    : DosProtectedResourceEx * option string :=
  match ValidateDosProtectedResource protectedConf with
  | Some err => ({| dx_Obj := protectedConf; dx_IsValid := false;
                    dx_ErrorMsg := "failed to store DosProtectedResource: " +:+ err |}, Some err)
  | None => ({| dx_Obj := protectedConf; dx_IsValid := true; dx_ErrorMsg := "" |}, None)
  end.

Definition getPolicy (ci : DosConfiguration) (key : string) : string + Unstructured :=
  match dos_Policies ci !! key with
  | None => inl ("DosPolicy " +:+ key +:+ " not found")
  | Some ex => if dp_IsValid ex then inr (dp_Obj ex) else inl (dp_ErrorMsg ex)
  end.
Definition getLogConf (ci : DosConfiguration) (key : string) : string + Unstructured :=
  match dos_LogConfs ci !! key with
  | None => inl ("DosLogConf " +:+ key +:+ " not found")
  | Some ex => if dl_IsValid ex then inr (dl_Obj ex) else inl (dl_ErrorMsg ex)
  end.
Definition getDosProtected (ci : DosConfiguration) (key : string) : string + DosProtectedResource :=
  match dos_Protected ci !! key with
  | Some ex => if dx_IsValid ex then inr (dx_Obj ex) else inl (dx_ErrorMsg ex)
  | None => inl ("DosProtectedResource " +:+ key +:+ " not found")
  end.

Definition getNsName (defaultNamespace name : string) : string :=
  if HasNamespace name then name else defaultNamespace +:+ "/" +:+ name.

Definition dprKey (p : DosProtectedResource) : string :=
  om_Namespace (dpr_Meta p) +:+ "/" +:+ om_Name (dpr_Meta p).

(** The references of a protected resource, resolved in its namespace *)
Definition policyReference (p : DosProtectedResource) : option string :=
  if bool_decide (dpr_ApDosPolicy p = "") then None
  else Some (getNsName (om_Namespace (dpr_Meta p)) (dpr_ApDosPolicy p)).
Definition logConfReference (p : DosProtectedResource) : option string :=
  l ← dpr_DosSecurityLog p;
  if bool_decide (dsl_ApDosLogConf l = "") then None
  else Some (getNsName (om_Namespace (dpr_Meta p)) (dsl_ApDosLogConf l)).

Definition rejectProtected (ex : DosProtectedResourceEx) (message : string)
    : list DosChange * list DosProblem :=
  ([{| dc_Op := Delete; dc_Resource := DProtected ex |}],
   [{| dpb_Object := DProtectedObject (dx_Obj ex); dpb_Reason := EventReasonRejected;
       dpb_Message := message |}]).

Definition AddOrUpdateDosProtectedResource (protectedConf : DosProtectedResource) (ci : DosConfiguration)
    : DosConfiguration * (list DosChange * list DosProblem) :=
  let '(ex, err) := createDosProtectedResourceEx protectedConf in
  let ci := set_dosProtected ci (<[dprKey protectedConf := ex]> (dos_Protected ci)) in
  (ci,
   match err with
   | Some err => rejectProtected ex err
   | None =>
       match policyReference protectedConf ≫= λ ref,
               match getPolicy ci ref with
               | inl err => Some ("dos protected refers (" +:+ ref +:+ ") to an invalid DosPolicy: " +:+ err)
               | inr _ => None
               end with
       | Some message => rejectProtected ex message
       | None =>
           match logConfReference protectedConf ≫= λ ref,
                   match getLogConf ci ref with
                   | inl err => Some ("dos protected refers (" +:+ ref +:+ ") to an invalid DosLogConf: " +:+ err)
                   | inr _ => None
                   end with
           | Some message => rejectProtected ex message
           | None => ([{| dc_Op := AddOrUpdate; dc_Resource := DProtected ex |}], [])
           end
       end
   end).

(** key == ref || key == namespace + "/" + ref *)
Definition mentions (key : string) (p : DosProtectedResource) (ref : string) : bool :=
  bool_decide (key = ref) || bool_decide (key = om_Namespace (dpr_Meta p) +:+ "/" +:+ ref).

Definition GetDosProtectedThatReferencedDosPolicy (ci : DosConfiguration) (key : string)
    : list DosProtectedResource :=
  filter (λ p, mentions key p (dpr_ApDosPolicy p) = true)
    ((λ kv, dx_Obj kv.2) <$> range "GetDosProtectedThatReferencedDosPolicy" (dos_Protected ci)).
Definition GetDosProtectedThatReferencedDosLogConf (ci : DosConfiguration) (key : string)
    : list DosProtectedResource :=
  filter (λ p, from_option (λ l, mentions key p (dsl_ApDosLogConf l)) false (dpr_DosSecurityLog p) = true)
    ((λ kv, dx_Obj kv.2) <$> range "GetDosProtectedThatReferencedDosLogConf" (dos_Protected ci)).

(** The loop over the protected resources that refer to a changed object *)
Fixpoint refreshProtected (ps : list DosProtectedResource)
    (st : DosConfiguration * (list DosChange * list DosProblem))
    : DosConfiguration * (list DosChange * list DosProblem) :=
  match ps with
  | [] => st
  | p :: rest =>
      let '(ci, (changes, problems)) := st in
      let '(ci, (proChanges, proProblems)) := AddOrUpdateDosProtectedResource p ci in
      refreshProtected rest (ci, (changes ++ proChanges, problems ++ proProblems))
  end.

(** The change and the problems of storing an object, from its error *)
Definition stored (resource : dosResource) (obj : Unstructured) (err : option string)
    : list DosChange * list DosProblem :=
  match err with
  | None => ([{| dc_Op := AddOrUpdate; dc_Resource := resource |}], [])
  | Some err => ([{| dc_Op := Delete; dc_Resource := resource |}],
                 [{| dpb_Object := DObject obj; dpb_Reason := EventReasonRejected; dpb_Message := err |}])
  end.

(** AddOrUpdatePolicy *)
Definition AddOrUpdateDosPolicy (policyObj : Unstructured) (ci : DosConfiguration)
    : DosConfiguration * (list DosChange * list DosProblem) :=
  let resNsName := GetNsName policyObj in
  let '(policy, err) := createAppProtectDosPolicyEx policyObj in
  let ci := set_dosPolicies ci (<[resNsName := policy]> (dos_Policies ci)) in
  refreshProtected (GetDosProtectedThatReferencedDosPolicy ci resNsName)
    (ci, stored (DPolicy policy) policyObj err).

(** AddOrUpdateLogConf *)
Definition AddOrUpdateDosLogConf (logConfObj : Unstructured) (ci : DosConfiguration)
    : DosConfiguration * (list DosChange * list DosProblem) :=
  let resNsName := GetNsName logConfObj in
  let '(logConf, err) := createAppProtectDosLogConfEx logConfObj in
  let ci := set_dosLogConfs ci (<[resNsName := logConf]> (dos_LogConfs ci)) in
  refreshProtected (GetDosProtectedThatReferencedDosLogConf ci resNsName)
    (ci, stored (DLogConf logConf) logConfObj err).

(** DeletePolicy *)
Definition DeleteDosPolicy (key : string) (ci : DosConfiguration)
    : DosConfiguration * (list DosChange * list DosProblem) :=
  let '(ci, changes) :=
    match dos_Policies ci !! key with
    | Some ex => (set_dosPolicies ci (delete key (dos_Policies ci)),
                  [{| dc_Op := Delete; dc_Resource := DPolicy ex |}])
    | None => (ci, [])
    end in
  refreshProtected (GetDosProtectedThatReferencedDosPolicy ci key) (ci, (changes, [])).

(** DeleteLogConf *)
Definition DeleteDosLogConf (key : string) (ci : DosConfiguration)
    : DosConfiguration * (list DosChange * list DosProblem) :=
  let '(ci, changes) :=
    match dos_LogConfs ci !! key with
    | Some ex => (set_dosLogConfs ci (delete key (dos_LogConfs ci)),
                  [{| dc_Op := Delete; dc_Resource := DLogConf ex |}])
    | None => (ci, [])
    end in
  refreshProtected (GetDosProtectedThatReferencedDosLogConf ci key) (ci, (changes, [])).

Definition DeleteProtectedResource (key : string) (ci : DosConfiguration)
    : DosConfiguration * (list DosChange * list DosProblem) :=
  match dos_Protected ci !! key with
  | Some ex => (set_dosProtected ci (delete key (dos_Protected ci)),
                ([{| dc_Op := Delete; dc_Resource := DProtected ex |}], []))
  | None => (ci, ([], []))
  end.

(** configs.DosEx *)
Record DosEx := {
  de_DosProtected : DosProtectedResource;
  de_DosPolicy : option Unstructured;
  de_DosLogConf : option Unstructured
}.

(** The object behind an optional reference *)
Definition resolve (get : string → string + Unstructured) (missing : string) (ref : option string)
    : string + option Unstructured :=
  match ref with
  | None => inr None
  | Some key => match get key with
                | inl err => inl (missing +:+ err)
                | inr o => inr (Some o)
                end
  end.

Definition GetValidDosEx (ci : DosConfiguration) (parentNamespace nsName : string) : string + DosEx :=
  let key := getNsName parentNamespace nsName in
  if negb (dos_isDosEnabled ci)
  then inl ("DosProtectedResource is referenced but Dos feature is not enabled. resource: " +:+ key)
  else match dos_Protected ci !! key with
       | None => inl ("DosProtectedResource " +:+ key +:+ " not found")
       | Some ex =>
           if negb (dx_IsValid ex) then inl (dx_ErrorMsg ex)
           else match resolve (getPolicy ci) "DosProtectedResource references a missing DosPolicy: "
                        (policyReference (dx_Obj ex)) with
                | inl err => inl err
                | inr pol =>
                    match resolve (getLogConf ci) "DosProtectedResource references a missing DosLogConf: "
                            (logConfReference (dx_Obj ex)) with
                    | inl err => inl err
                    | inr log => inr {| de_DosProtected := dx_Obj ex; de_DosPolicy := pol;
                                        de_DosLogConf := log |}
                    end
                end
       end.
End DosConfiguration.
