(* ===== verification/AppProtectDosCorrect.v ===== *)
(** Properties of the App Protect DoS configuration: the changes it returns keep
    what is deployed in sync with what it serves. *)
From S2P Require Import Prelude GoStrings Regex Objects ProxyBuffers Resources ConfigState.
From S2P Require Import ValidationLib ParsingHelpers Directives CommonValidation.
From S2P Require Import HostValidation AppProtect AppProtectDos.

Section Dos.
Context `{VL : ValidationLib} `{UL : URLLib} `{DL : DosLib} `{LL : !DosLaws} `{MR : MapRange}.

(** ** The state machine *)
Inductive dosRequest :=
  | DosAddOrUpdatePolicy (o : Unstructured)
  | DosDeletePolicy (key : string)
  | DosAddOrUpdateLogConf (o : Unstructured)
  | DosDeleteLogConf (key : string)
  | DosAddOrUpdateProtected (p : DosProtectedResource)
  | DosDeleteProtected (key : string).

Definition dosExec (req : dosRequest) (ci : DosConfiguration)
    : DosConfiguration * (list DosChange * list DosProblem) :=
  match req with
  | DosAddOrUpdatePolicy o => AddOrUpdateDosPolicy o ci
  | DosDeletePolicy key => DeleteDosPolicy key ci
  | DosAddOrUpdateLogConf o => AddOrUpdateDosLogConf o ci
  | DosDeleteLogConf key => DeleteDosLogConf key ci
  | DosAddOrUpdateProtected p => AddOrUpdateDosProtectedResource p ci
  | DosDeleteProtected key => DeleteProtectedResource key ci
  end.

(** What a controller that applies the changes in order has deployed: the keys of
    the resources whose last change is an addition *)
Inductive dosKey := KPolicy (key : string) | KLogConf (key : string) | KProtected (key : string).
#[local] Instance dosKey_eq_dec : EqDecision dosKey.
Proof. solve_decision. Defined.

Definition dosKeyOf (r : dosResource) : dosKey :=
  match r with
  | DPolicy p => KPolicy (GetNsName (dp_Obj p))
  | DLogConf l => KLogConf (GetNsName (dl_Obj l))
  | DProtected p => KProtected (dprKey (dx_Obj p))
  end.

Definition applyDosChange (D : dosKey → bool) (c : DosChange) : dosKey → bool :=
  λ k, if decide (k = dosKeyOf (dc_Resource c))
       then match dc_Op c with AddOrUpdate => true | Delete => false end
       else D k.

Fixpoint dosRun (reqs : list dosRequest) (ci : DosConfiguration) (D : dosKey → bool)
    : DosConfiguration * (dosKey → bool) :=
  match reqs with
  | [] => (ci, D)
  | req :: rest =>
      let '(ci', (changes, _)) := dosExec req ci in
      dosRun rest ci' (foldl applyDosChange D changes)
  end.

(** ** What is served *)
Definition isInr {A B} (x : A + B) : bool := match x with inl _ => false | inr _ => true end.

Definition refFound (get : string → string + Unstructured) (ref : option string) : bool :=
  match ref with None => true | Some key => isInr (get key) end.
Definition protectedServed (ci : DosConfiguration) (key : string) : bool :=
  match dos_Protected ci !! key with
  | None => false
  | Some ex => dx_IsValid ex && refFound (getPolicy ci) (policyReference (dx_Obj ex))
               && refFound (getLogConf ci) (logConfReference (dx_Obj ex))
  end.
Definition served (ci : DosConfiguration) (k : dosKey) : bool :=
  match k with
  | KPolicy key => isInr (getPolicy ci key)
  | KLogConf key => isInr (getLogConf ci key)
  | KProtected key => protectedServed ci key
  end.

Lemma GetValidDosEx_served ci ns key :
  dos_isDosEnabled ci = true → HasNamespace key = true →
  isInr (GetValidDosEx ci ns key) = protectedServed ci key.
Proof.
  intros He Hk. unfold GetValidDosEx, getNsName, protectedServed. rewrite He, Hk. cbn [negb].
  destruct (dos_Protected ci !! key) as [ex|]; [|done]. destruct (dx_IsValid ex); [|done]. cbn [negb andb].
  unfold resolve, refFound. by repeat case_match.
Qed.

(** ** The invariant *)
Record dosInv (ci : DosConfiguration) : Prop := {
  di_policy k ex : dos_Policies ci !! k = Some ex → GetNsName (dp_Obj ex) = k;
  di_logConf k ex : dos_LogConfs ci !! k = Some ex → GetNsName (dl_Obj ex) = k;
  di_protected k ex : dos_Protected ci !! k = Some ex →
    dprKey (dx_Obj ex) = k ∧ ex = (createDosProtectedResourceEx (dx_Obj ex)).1
}.

Definition inSyncAt (ci : DosConfiguration) (D : dosKey → bool) (k : dosKey) : Prop := D k = served ci k.

Lemma createDosProtectedResourceEx_obj p : dx_Obj (createDosProtectedResourceEx p).1 = p.
Proof. unfold createDosProtectedResourceEx. by case_match. Qed.

(** The change of a protected resource says whether it is served. *)
Lemma protected_change p ci :
  let ex := (createDosProtectedResourceEx p).1 in
  let ci' := set_dosProtected ci (<[dprKey p := ex]> (dos_Protected ci)) in
  ∃ problems, AddOrUpdateDosProtectedResource p ci =
    (ci', ([{| dc_Op := if protectedServed ci' (dprKey p) then AddOrUpdate else Delete;
               dc_Resource := DProtected ex |}], problems)).
Proof.
  unfold AddOrUpdateDosProtectedResource. destruct (createDosProtectedResourceEx p) as [ex err] eqn:Hc.
  assert (dx_Obj ex = p) as Hobj by (by rewrite <- (createDosProtectedResourceEx_obj p), Hc).
  assert (dx_IsValid ex = bool_decide (err = None)) as Hvalid.
  { revert Hc. unfold createDosProtectedResourceEx. case_match; by intros [= <- <-]. }
  cbn [fst]. set (ci' := set_dosProtected _ _). cbn zeta.
  assert (protectedServed ci' (dprKey p) = bool_decide (err = None)
    && refFound (getPolicy ci') (policyReference p) && refFound (getLogConf ci') (logConfReference p)) as ->.
  { unfold protectedServed. assert (dos_Protected ci' !! dprKey p = Some ex) as -> by apply lookup_insert_eq.
    by rewrite Hvalid, Hobj. }
  unfold rejectProtected, refFound. destruct err; cbn [bool_decide andb]; [eauto|].
  destruct (policyReference p) as [r1|]; cbn [mbind option_bind];
    [destruct (getPolicy ci' r1); cbn [isInr andb]; [eauto|]|];
    (destruct (logConfReference p) as [r2|]; cbn [mbind option_bind];
      [destruct (getLogConf ci' r2); cbn [isInr andb]|]; eauto).
Qed.

Lemma protectedServed_other ci k ex k' :
  k ≠ k' → protectedServed (set_dosProtected ci (<[k := ex]> (dos_Protected ci))) k' = protectedServed ci k'.
Proof. intros Hne. unfold protectedServed. cbn. by rewrite lookup_insert_ne. Qed.

(** Storing a protected resource puts it in sync and leaves the others alone. *)
Lemma protected_step p ci D :
  dosInv ci →
  let '(ci', (changes, _)) := AddOrUpdateDosProtectedResource p ci in
  dosInv ci' ∧ dos_isDosEnabled ci' = dos_isDosEnabled ci ∧
  inSyncAt ci' (foldl applyDosChange D changes) (KProtected (dprKey p)) ∧
  ∀ k, inSyncAt ci D k → inSyncAt ci' (foldl applyDosChange D changes) k.
Proof.
  intros [H1 H2 H3]. destruct (protected_change p ci) as [problems ->]. cbn [foldl].
  set (ex := (createDosProtectedResourceEx p).1). set (ci' := set_dosProtected _ _).
  assert (dosKeyOf (DProtected ex) = KProtected (dprKey p)) as Hkey
    by (unfold ex; cbn [dosKeyOf]; by rewrite createDosProtectedResourceEx_obj).
  set (D' := applyDosChange D _).
  assert (∀ k, D' k = if decide (k = KProtected (dprKey p)) then protectedServed ci' (dprKey p) else D k) as HD.
  { intros k. unfold D', applyDosChange. cbn [dc_Resource dc_Op]. rewrite Hkey.
    case_decide; [|done]. by destruct (protectedServed ci' _). }
  assert (inSyncAt ci' D' (KProtected (dprKey p))) as Hp.
  { unfold inSyncAt. rewrite HD. by rewrite decide_True. }
  split_and!; [|done|done|].
  - split; try done. cbn [ci' dos_Protected set_dosProtected].
    intros k x [[<- <-]|[_ ?]]%lookup_insert_Some; [|by apply H3].
    unfold ex. by rewrite createDosProtectedResourceEx_obj.
  - intros k Hk. destruct (decide (k = KProtected (dprKey p))) as [->|Hne]; [done|].
    unfold inSyncAt. rewrite HD, decide_False by done. rewrite Hk.
    destruct k as [key|key|key]; try done. cbn [served]. symmetry. apply protectedServed_other. congruence.
Qed.

(** Storing again what is stored changes nothing. *)
Lemma protected_again p ci :
  dos_Protected ci !! dprKey p = Some (createDosProtectedResourceEx p).1 →
  (AddOrUpdateDosProtectedResource p ci).1 = ci.
Proof.
  intros Hl. destruct (protected_change p ci) as [problems ->]. cbn [fst].
  rewrite insert_id by done. by destruct ci.
Qed.

(** The loop over referring resources puts them in sync. *)
Lemma refresh_sync ps ci changes problems D :
  dosInv ci → (∀ p, p ∈ ps → dos_Protected ci !! dprKey p = Some (createDosProtectedResourceEx p).1) →
  ∃ changes' problems', refreshProtected ps (ci, (changes, problems)) = (ci, (changes', problems')) ∧
    (∀ p, p ∈ ps → inSyncAt ci (foldl applyDosChange D changes') (KProtected (dprKey p))) ∧
    (∀ k, inSyncAt ci (foldl applyDosChange D changes) k → inSyncAt ci (foldl applyDosChange D changes') k).
Proof.
  intros Hinv. revert changes problems. induction ps as [|p ps IH]; intros changes problems Hst; cbn [refreshProtected].
  { exists changes, problems. split_and!; [done|by intros ? ?%elem_of_nil|done]. }
  pose proof (protected_step p ci (foldl applyDosChange D changes) Hinv) as Hstep.
  pose proof (protected_again p ci (Hst p ltac:(by left))) as Hsame.
  destruct (AddOrUpdateDosProtectedResource p ci) as [ci' [ch pr]]. cbn [fst] in Hsame. subst ci'.
  destruct Hstep as (_ & _ & Hp & Hothers). rewrite <- foldl_app in Hp, Hothers.
  destruct (IH (changes ++ ch) (problems ++ pr)) as (ch' & pr' & -> & Hps & Hk).
  { intros q Hq. apply Hst. by right. }
  exists ch', pr'. split_and!; [done| |auto].
  intros q [->|Hq]%elem_of_cons; auto.
Qed.

(** ** Objects that protected resources refer to *)

Lemma getNsName_mentions key p ref : getNsName (om_Namespace (dpr_Meta p)) ref = key → mentions key p ref = true.
Proof.
  unfold getNsName, mentions. destruct (HasNamespace ref); intros <-.
  - by rewrite bool_decide_eq_true_2.
  - rewrite (bool_decide_eq_true_2 (_ = om_Namespace _ +:+ _)) by done. apply orb_true_r.
Qed.

Lemma policyReference_mentions key p :
  policyReference p = Some key → mentions key p (dpr_ApDosPolicy p) = true.
Proof. unfold policyReference. case_bool_decide; [done|]. intros [= ?]. by apply getNsName_mentions. Qed.
Lemma logConfReference_mentions key p :
  logConfReference p = Some key →
  from_option (λ l, mentions key p (dsl_ApDosLogConf l)) false (dpr_DosSecurityLog p) = true.
Proof.
  unfold logConfReference. destruct (dpr_DosSecurityLog p) as [l|]; cbn; [|done].
  case_bool_decide; [done|]. intros [= ?]. by apply getNsName_mentions.
Qed.

Lemma stored_protected ci site p :
  dosInv ci → p ∈ ((λ kv, dx_Obj kv.2) <$> range site (dos_Protected ci)) ↔
  dos_Protected ci !! dprKey p = Some (createDosProtectedResourceEx p).1.
Proof.
  intros Hinv. rewrite list_elem_of_fmap. split.
  - intros ([k ex] & -> & Hk). rewrite range_perm, elem_of_map_to_list in Hk.
    destruct (di_protected _ Hinv _ _ Hk) as [<- Heq]. cbn. by rewrite <- Heq.
  - intros Hk. exists (dprKey p, (createDosProtectedResourceEx p).1). cbn.
    rewrite createDosProtectedResourceEx_obj. split; [done|].
    rewrite range_perm. by apply elem_of_map_to_list.
Qed.

(** A configuration after an update of the objects that are referred to, and the
    protected resources that were looked at again *)
Lemma refresh_all ci D changes problems ps :
  dosInv ci →
  (∀ p, p ∈ ps → dos_Protected ci !! dprKey p = Some (createDosProtectedResourceEx p).1) →
  (∀ k, inSyncAt ci (foldl applyDosChange D changes) k ∨ ∃ p, p ∈ ps ∧ k = KProtected (dprKey p)) →
  ∃ changes' problems', refreshProtected ps (ci, (changes, problems)) = (ci, (changes', problems')) ∧
    ∀ k, inSyncAt ci (foldl applyDosChange D changes') k.
Proof.
  intros Hinv Hst Hk. destruct (refresh_sync ps ci changes problems D Hinv Hst) as (ch & pr & -> & Hps & Hothers).
  exists ch, pr. split; [done|]. intros k. destruct (Hk k) as [?|(p & Hp & ->)]; auto.
Qed.

(** What a request must do *)
Definition dosGood (D : dosKey → bool) (enabled : bool) (res : DosConfiguration * (list DosChange * list DosProblem))
    : Prop :=
  dosInv res.1 ∧ dos_isDosEnabled res.1 = enabled ∧ ∀ k, inSyncAt res.1 (foldl applyDosChange D res.2.1) k.

Section Requests.
Variables (ci : DosConfiguration) (D : dosKey → bool).
Hypothesis Hinv : dosInv ci.
Hypothesis Hsync : ∀ k, inSyncAt ci D k.

(** Exchanging the policies: [changes] puts the policies in sync, and the
    protected resources that refer to a changed key are looked at again. *)
Lemma policies_exchanged m key changes problems :
  (∀ k ex, m !! k = Some ex → GetNsName (dp_Obj ex) = k) →
  (∀ k, k ≠ key → m !! k = dos_Policies ci !! k) →
  let ci' := set_dosPolicies ci m in
  (∀ k, foldl applyDosChange D changes k =
     if decide (k = KPolicy key) then isInr (getPolicy ci' key) else D k) →
  dosGood D (dos_isDosEnabled ci)
    (refreshProtected (GetDosProtectedThatReferencedDosPolicy ci' key) (ci', (changes, problems))).
Proof.
  intros Hm Hother ci' HD. assert (dosInv ci') as Hinv' by (by destruct Hinv).
  destruct (refresh_all ci' D changes problems (GetDosProtectedThatReferencedDosPolicy ci' key)) as (ch & pr & -> & Hk).
  - done.
  - intros p [_ Hp]%list_elem_of_filter. by eapply stored_protected.
  - intros k. destruct (decide (k = KPolicy key)) as [->|Hne].
    { left. unfold inSyncAt. rewrite HD. by rewrite decide_True. }
    unfold inSyncAt. rewrite HD, decide_False by done. rewrite (Hsync k).
    destruct k as [k|k|k]; cbn [served].
    + left. unfold getPolicy. cbn. by rewrite Hother by congruence.
    + by left.
    + unfold protectedServed. cbn [ci' dos_Protected set_dosPolicies].
      destruct (dos_Protected ci !! k) as [ex|] eqn:Hex; [|by left].
      destruct (decide (policyReference (dx_Obj ex) = Some key)) as [Href|Href].
      * right. exists (dx_Obj ex). destruct (di_protected _ Hinv _ _ Hex) as [<- Heq]. split; [|done].
        apply list_elem_of_filter. split; [by apply policyReference_mentions|].
        apply stored_protected; [done|]. cbn [ci' dos_Protected set_dosPolicies]. by rewrite Hex, <- Heq.
      * left. do 2 f_equal. unfold refFound. destruct (policyReference (dx_Obj ex)) as [r|]; [|done].
        unfold getPolicy. cbn. by rewrite Hother by congruence.
  - by split_and!.
Qed.

Lemma logConfs_exchanged m key changes problems :
  (∀ k ex, m !! k = Some ex → GetNsName (dl_Obj ex) = k) →
  (∀ k, k ≠ key → m !! k = dos_LogConfs ci !! k) →
  let ci' := set_dosLogConfs ci m in
  (∀ k, foldl applyDosChange D changes k =
     if decide (k = KLogConf key) then isInr (getLogConf ci' key) else D k) →
  dosGood D (dos_isDosEnabled ci)
    (refreshProtected (GetDosProtectedThatReferencedDosLogConf ci' key) (ci', (changes, problems))).
Proof.
  intros Hm Hother ci' HD. assert (dosInv ci') as Hinv' by (by destruct Hinv).
  destruct (refresh_all ci' D changes problems (GetDosProtectedThatReferencedDosLogConf ci' key)) as (ch & pr & -> & Hk).
  - done.
  - intros p [_ Hp]%list_elem_of_filter. by eapply stored_protected.
  - intros k. destruct (decide (k = KLogConf key)) as [->|Hne].
    { left. unfold inSyncAt. rewrite HD. by rewrite decide_True. }
    unfold inSyncAt. rewrite HD, decide_False by done. rewrite (Hsync k).
    destruct k as [k|k|k]; cbn [served].
    + by left.
    + left. unfold getLogConf. cbn. by rewrite Hother by congruence.
    + unfold protectedServed. cbn [ci' dos_Protected set_dosLogConfs].
      destruct (dos_Protected ci !! k) as [ex|] eqn:Hex; [|by left].
      destruct (decide (logConfReference (dx_Obj ex) = Some key)) as [Href|Href].
      * right. exists (dx_Obj ex). destruct (di_protected _ Hinv _ _ Hex) as [<- Heq]. split; [|done].
        apply list_elem_of_filter. split; [by apply logConfReference_mentions|].
        apply stored_protected; [done|]. cbn [ci' dos_Protected set_dosLogConfs]. by rewrite Hex, <- Heq.
      * left. f_equal. unfold refFound. destruct (logConfReference (dx_Obj ex)) as [r|]; [|done].
        unfold getLogConf. cbn. by rewrite Hother by congruence.
  - by split_and!.
Qed.

Lemma good_AddOrUpdateDosPolicy o : dosGood D (dos_isDosEnabled ci) (AddOrUpdateDosPolicy o ci).
Proof.
  unfold AddOrUpdateDosPolicy. destruct (createAppProtectDosPolicyEx o) as [ex err] eqn:Hc.
  assert (dp_Obj ex = o ∧ dp_IsValid ex = bool_decide (err = None)) as [Ho Hv].
  { revert Hc. unfold createAppProtectDosPolicyEx. case_match; by intros [= <- <-]. }
  destruct (stored (DPolicy ex) o err) as [changes problems] eqn:Hst.
  apply policies_exchanged.
  - intros k x [[<- <-]|[_ ?]]%lookup_insert_Some; [by rewrite Ho|by eapply di_policy].
  - intros k Hne. by rewrite lookup_insert_ne.
  - intros k. unfold getPolicy. cbn [dos_Policies set_dosPolicies]. rewrite lookup_insert_eq, Hv.
    destruct err; injection Hst as <- _; cbn [foldl]; unfold applyDosChange; cbn [dosKeyOf dc_Resource dc_Op];
      rewrite Ho; by case_decide.
Qed.

Lemma createAppProtectDosLogConfEx_meta o :
  GetNsName (dl_Obj (createAppProtectDosLogConfEx o).1) = GetNsName o.
Proof.
  unfold createAppProtectDosLogConfEx, ValidateAppProtectDosLogConf, checkAppProtectDosLogConfContentField.
  repeat case_match; simplify_eq/=; try done. unfold GetNsName. by rewrite RemoveNestedField_meta.
Qed.

Lemma good_AddOrUpdateDosLogConf o : dosGood D (dos_isDosEnabled ci) (AddOrUpdateDosLogConf o ci).
Proof.
  unfold AddOrUpdateDosLogConf. pose proof (createAppProtectDosLogConfEx_meta o) as Ho.
  destruct (createAppProtectDosLogConfEx o) as [ex err] eqn:Hc. cbn [fst] in Ho.
  assert (dl_IsValid ex = bool_decide (err = None)) as Hv.
  { revert Hc. unfold createAppProtectDosLogConfEx. repeat case_match; by intros [= <- <-]. }
  destruct (stored (DLogConf ex) o err) as [changes problems] eqn:Hst.
  apply logConfs_exchanged.
  - intros k x [[<- <-]|[_ ?]]%lookup_insert_Some; [done|by eapply di_logConf].
  - intros k Hne. by rewrite lookup_insert_ne.
  - intros k. unfold getLogConf. cbn [dos_LogConfs set_dosLogConfs]. rewrite lookup_insert_eq, Hv.
    destruct err; injection Hst as <- _; cbn [foldl]; unfold applyDosChange; cbn [dosKeyOf dc_Resource dc_Op];
      rewrite Ho; by case_decide.
Qed.

Lemma set_dosPolicies_id : set_dosPolicies ci (dos_Policies ci) = ci.
Proof. by destruct ci. Qed.
Lemma set_dosLogConfs_id : set_dosLogConfs ci (dos_LogConfs ci) = ci.
Proof. by destruct ci. Qed.

Lemma good_DeleteDosPolicy key : dosGood D (dos_isDosEnabled ci) (DeleteDosPolicy key ci).
Proof.
  unfold DeleteDosPolicy. destruct (dos_Policies ci !! key) as [ex|] eqn:Hex.
  - apply policies_exchanged.
    + intros k x [_ ?]%lookup_delete_Some. by eapply di_policy.
    + intros k Hne. by rewrite lookup_delete_ne.
    + intros k. unfold getPolicy. cbn [dos_Policies set_dosPolicies]. rewrite lookup_delete_eq. cbn [foldl isInr].
      unfold applyDosChange. cbn [dosKeyOf dc_Resource dc_Op]. by rewrite (di_policy _ Hinv _ _ Hex).
  - rewrite <- set_dosPolicies_id at 2 3. apply policies_exchanged; [apply Hinv|done|].
    intros k. cbn [foldl]. case_decide; [subst k|done]. rewrite (Hsync (KPolicy key)). cbn [served].
    by rewrite set_dosPolicies_id.
Qed.

Lemma good_DeleteDosLogConf key : dosGood D (dos_isDosEnabled ci) (DeleteDosLogConf key ci).
Proof.
  unfold DeleteDosLogConf. destruct (dos_LogConfs ci !! key) as [ex|] eqn:Hex.
  - apply logConfs_exchanged.
    + intros k x [_ ?]%lookup_delete_Some. by eapply di_logConf.
    + intros k Hne. by rewrite lookup_delete_ne.
    + intros k. unfold getLogConf. cbn [dos_LogConfs set_dosLogConfs]. rewrite lookup_delete_eq. cbn [foldl isInr].
      unfold applyDosChange. cbn [dosKeyOf dc_Resource dc_Op]. by rewrite (di_logConf _ Hinv _ _ Hex).
  - rewrite <- set_dosLogConfs_id at 2 3. apply logConfs_exchanged; [apply Hinv|done|].
    intros k. cbn [foldl]. case_decide; [subst k|done]. rewrite (Hsync (KLogConf key)). cbn [served].
    by rewrite set_dosLogConfs_id.
Qed.

Lemma good_protected p : dosGood D (dos_isDosEnabled ci) (AddOrUpdateDosProtectedResource p ci).
Proof.
  pose proof (protected_step p ci D Hinv) as Hs.
  destruct (AddOrUpdateDosProtectedResource p ci) as [ci' [ch pr]]. destruct Hs as (? & ? & ? & Hall).
  split_and!; [done|done|]. intros k. apply Hall, Hsync.
Qed.

Lemma good_DeleteProtectedResource key : dosGood D (dos_isDosEnabled ci) (DeleteProtectedResource key ci).
Proof.
  unfold DeleteProtectedResource. destruct (dos_Protected ci !! key) as [ex|] eqn:Hex; [|by split_and!].
  destruct (di_protected _ Hinv _ _ Hex) as [Hkey _]. split_and!; cbn [fst snd]; [|done|].
  - destruct Hinv as [? ? H3]. split; try done. cbn. intros k x [_ ?]%lookup_delete_Some. by apply H3.
  - intros k. unfold inSyncAt. cbn [foldl]. unfold applyDosChange. cbn [dosKeyOf dc_Resource dc_Op]. rewrite Hkey.
    case_decide as Hk; [subst k|rewrite (Hsync k)].
    + cbn. unfold protectedServed. cbn. by rewrite lookup_delete_eq.
    + destruct k as [k|k|k]; try done. cbn. unfold protectedServed. cbn. by rewrite lookup_delete_ne by congruence.
Qed.

Lemma dosExec_good req : dosGood D (dos_isDosEnabled ci) (dosExec req ci).
Proof.
  destruct req; cbn [dosExec]; [apply good_AddOrUpdateDosPolicy|apply good_DeleteDosPolicy|
    apply good_AddOrUpdateDosLogConf|apply good_DeleteDosLogConf|apply good_protected|
    apply good_DeleteProtectedResource].
Qed.
End Requests.

Lemma dosRun_sync reqs : ∀ ci D, dosInv ci → (∀ k, inSyncAt ci D k) →
  ∀ ci' D', dosRun reqs ci D = (ci', D') →
  dosInv ci' ∧ dos_isDosEnabled ci' = dos_isDosEnabled ci ∧ ∀ k, inSyncAt ci' D' k.
Proof.
  induction reqs as [|req reqs IH]; intros ci D Hinv Hs ci' D'; cbn [dosRun]; [by intros [= <- <-]|].
  pose proof (dosExec_good ci D Hinv Hs req) as Hg. destruct (dosExec req ci) as [ci1 [ch pr]].
  destruct Hg as (Hi & <- & Hk). by apply IH.
Qed.

(** C27.  DoS protection is deployed exactly where it is served.  After any requests
    to an enabled DoS configuration whose changes were applied in order, a
    protected resource is deployed exactly when GetValidDosEx gives it, with its
    valid policy and log configuration; a policy or log configuration exactly when
    it is stored and valid.  In particular an object that becomes invalid or is
    deleted takes down the resources that refer to it, and they come back with it. *)
Theorem dos_deployment_in_sync reqs ci D :
  dosRun reqs (NewDosConfiguration true) (λ _, false) = (ci, D) →
  (∀ ns name, D (KProtected (ns +:+ "/" +:+ name)) = isInr (GetValidDosEx ci ns (ns +:+ "/" +:+ name))) ∧
  (∀ key, D (KPolicy key) = isInr (getPolicy ci key)) ∧
  (∀ key, D (KLogConf key) = isInr (getLogConf ci key)).
Proof.
  intros Hrun. destruct (dosRun_sync reqs (NewDosConfiguration true) (λ _, false)) with (ci' := ci) (D' := D)
    as (_ & He & Hk); [done|by intros []|done|].
  split_and!; [|apply (λ key, Hk (KPolicy key))|apply (λ key, Hk (KLogConf key))].
  intros ns name. rewrite (Hk (KProtected _)). symmetry. apply GetValidDosEx_served; [done|].
  unfold HasNamespace. rewrite !containsByte_app. cbn. by rewrite orb_true_r.
Qed.
End Dos.

(** ** Examples *)
Section Examples.
(** An object is its metadata and whether it has a spec. *)
#[local] Instance plainAPI : UnstructuredAPI :=
  {| Unstructured := ObjectMeta * bool; un_Meta := fst; NestedMap := λ o _, inr o.2;
     NestedSlice := λ _ _, inr None; NestedFieldNoCopy := λ _ _, inr false; NestedString := λ _ _, None;
     timeParse := λ _, inl "" |}.
#[local] Instance plainDos : DosLib :=
  {| RemoveNestedField := λ o _, o |}.
#[local] Instance plainDos_laws : DosLaws.
Proof. by split. Qed.
#[local] Instance plainURL : URLLib :=
  {| url_Parse := λ _, inl ""; url_ParseQuery := λ _, None; netip_ParseAddr := λ _, None;
     net_SplitHostPort := λ _, None; net_ParseIP := λ _, false; net_ParseCIDR := λ _, None |}.
#[local] Existing Instance sampleLib.
#[local] Existing Instance default_range.

Definition dosMeta (name : string) : ObjectMeta :=
  {| om_Namespace := "default"; om_Name := name; om_UID := name; om_CreationTimestamp := 1;
     om_Generation := 1; om_Annotations := None; om_Labels := ∅ |}.
Definition webProtected : DosProtectedResource :=
  {| dpr_Meta := dosMeta "web"; dpr_Enable := true; dpr_Name := "web"; dpr_ApDosMonitor := None;
     dpr_DosAccessLogDest := "stderr"; dpr_ApDosPolicy := "block"; dpr_DosSecurityLog := None;
     dpr_AllowList := [] |}.
Definition blockPolicy : @Unstructured plainAPI := (dosMeta "block", true).

(** Without its policy the resource is rejected, with it deployed. *)
Lemma dos_deployment_in_sync_witness :
  let run reqs := dosRun reqs (NewDosConfiguration true) (λ _, false) in
  (run [DosAddOrUpdateProtected webProtected]).2 (KProtected "default/web") = false ∧
  (run [DosAddOrUpdateProtected webProtected; DosAddOrUpdatePolicy blockPolicy]).2 (KProtected "default/web") = true ∧
  isInr (GetValidDosEx (run [DosAddOrUpdateProtected webProtected; DosAddOrUpdatePolicy blockPolicy]).1
    "default" "default/web") = true.
Proof.
  cbn zeta. split; [vm_compute; reflexivity|].
  set (reqs := [DosAddOrUpdateProtected webProtected; DosAddOrUpdatePolicy blockPolicy]).
  assert (dosRun reqs (NewDosConfiguration true) (λ _, false) =
    ((dosRun reqs (NewDosConfiguration true) (λ _, false)).1,
     (dosRun reqs (NewDosConfiguration true) (λ _, false)).2)) as Hrun by apply surjective_pairing.
  destruct (dos_deployment_in_sync reqs _ _ Hrun) as [H _]. specialize (H "default" "web").
  change ("default" +:+ "/" +:+ "web") with "default/web" in H.
  split; [vm_compute; reflexivity|]. etransitivity; [symmetry; exact H|]. vm_compute. reflexivity.
Defined.
End Examples.
