(* ===== verification/NginxManager.v ===== *)
(** LocalManager (internal/nginx/manager.go, utils.go, verify.go): the files the
    controller writes for NGINX, `nginx -t` and reloads.

    The file system is a map from paths to contents.  What the operating system
    and the nginx binary answer is the parameter [NginxAPI].  [None] is
    nl.Fatalf: the process exits. *)
From S2P Require Import Prelude GoStrings.

(** ** path *)

(** path.Clean on the segments of a path: [stack] is the reversed output *)
Fixpoint cleanSegments (rooted : bool) (segments stack : list string) : list string :=
  match segments with
  | [] => reverse stack
  | seg :: rest =>
      if bool_decide (seg = "") || bool_decide (seg = ".") then cleanSegments rooted rest stack
      else if bool_decide (seg = "..") then
        match stack with
        | top :: stack' => if bool_decide (top = "..") then cleanSegments rooted rest (".." :: stack)
                           else cleanSegments rooted rest stack'
        | [] => cleanSegments rooted rest (if rooted then [] else [".."])
        end
      else cleanSegments rooted rest (seg :: stack)
  end.

Definition pathClean (p : string) : string :=
  let rooted := HasPrefix p "/" in
  let body := Join "/" (cleanSegments rooted (Split slash p) []) in
  if rooted then "/" +:+ body else if bool_decide (body = "") then "." else body.

Definition pathJoin (elem : list string) : string :=
  match filter (λ e, e ≠ "") elem with
  | [] => ""
  | l => pathClean (Join "/" l)
  end.

(** ** The operating system and the nginx binary *)

Notation FS := (gmap string string).

(** createFileAndWrite: os.Create fails and leaves the file as it was, or the
    write fails and leaves some contents *)
Inductive writeResult := WriteOk | CreateFailed (err : string) | WriteFailed (partial err : string).

Class NginxAPI := {
  (** standard error and exit error of [nginx -t -q]; [None] is exit status 0 *)
  nginxRun : FS → option (string * string);
  (** error of [nginx -s reload] *)
  reloadCommand : FS → option string;
  (** error of WaitForCorrectVersion *)
  waitForVersion : FS → Z → option string;
  readable : FS → string → bool;
  writeOutcome : FS → string → string → writeResult;
  removeFault : FS → string → option string;
  renameFault : FS → string → string → option string;
  (** some step of createFileAndWriteAtomically fails *)
  atomicWriteFails : FS → string → bool
}.

Section NginxManager.
Context `{API : NginxAPI}.

Definition ReadFile (fs : FS) (p : string) : option string :=
  if readable fs p then fs !! p else None.

(** os.Remove and os.Rename: the new files and the error *)
Definition osRemove (fs : FS) (p : string) : FS * option string :=
  match fs !! p with
  | None => (fs, Some ("remove " +:+ p +:+ ": no such file or directory"))
  | Some _ => match removeFault fs p with
              | Some err => (fs, Some err)
              | None => (delete p fs, None)
              end
  end.

Definition osRename (fs : FS) (p q : string) : FS * option string :=
  match fs !! p with
  | None => (fs, Some ("rename " +:+ p +:+ " " +:+ q +:+ ": no such file or directory"))
  | Some content => match renameFault fs p q with
                    | Some err => (fs, Some err)
                    | None => (<[q := content]> (delete p fs), None)
                    end
  end.

Definition createFileAndWrite (fs : FS) (name content : string) : FS * option string :=
  match writeOutcome fs name content with
  | WriteOk => (<[name := content]> fs, None)
  | CreateFailed err => (fs, Some ("failed to open " +:+ name +:+ ": " +:+ err))
  | WriteFailed partial err => (<[name := partial]> fs, Some ("failed to write to " +:+ name +:+ ": " +:+ err))
  end.

(** The file appears under its name only when it is complete. *)
Definition createFileAndWriteAtomically (fs : FS) (filename content : string) : option FS :=
  if atomicWriteFails fs filename then None else Some (<[filename := content]> fs).

(** ** nginx -t *)

Definition newline : Ascii.ascii := byte_at 10.

(** The loop over the lines of standard error *)
Definition filterTestLines (errOutput : string) : list string :=
  omap (λ line0,
    let line := TrimSpace line0 in
    if bool_decide (line = "") then None
    else if HasPrefix line "nginx: configuration file" && HasSuffix line "test failed" then None
    else Some line) (Split newline errOutput).

Definition nginxTestError (fs : FS) : option string :=
  match nginxRun fs with
  | None => None
  | Some (stderr, err) =>
      let errOutput := TrimSpace stderr in
      let plain := "nginx configuration test failed: " +:+ err in
      if bool_decide (errOutput = "") then Some plain
      else match filterTestLines errOutput with
           | [] => Some plain
           | filtered => Some (Join "; " filtered)
           end
  end.

(** ** Files of the local manager *)

Record LocalPaths := {
  confdPath : string;
  streamConfdPath : string;
  secretsPath : string;
  mainConfFilename : string;
  defaultServerConfFilename : string;
  configVersionFilename : string;
  tlsPassthroughHostsFilename : string;
  oidcConfPath : string
}.

Definition NewLocalManager (confPath : string) : LocalPaths :=
  {| confdPath := pathJoin [confPath; "conf.d"];
     streamConfdPath := pathJoin [confPath; "stream-conf.d"];
     secretsPath := pathJoin [confPath; "secrets"];
     mainConfFilename := pathJoin [confPath; "nginx.conf"];
     defaultServerConfFilename := pathJoin [confPath; "conf.d"; "_default-server.conf"];
     configVersionFilename := pathJoin [confPath; "config-version.conf"];
     tlsPassthroughHostsFilename := pathJoin [confPath; "tls-passthrough-hosts.conf"];
     oidcConfPath := pathJoin [confPath; "oidc-conf.d"] |}.

Context (paths : LocalPaths).

Definition getFilenameForConfig (name : string) : string := pathJoin [confdPath paths; name +:+ ".conf"].
Definition getFilenameForStreamConfig (name : string) : string :=
  pathJoin [streamConfdPath paths; name +:+ ".conf"].
Definition getFilenameForOIDCConfig (name : string) : string := pathJoin [oidcConfPath paths; name +:+ ".conf"].
Definition GetFilenameForSecret (name : string) : string := pathJoin [secretsPath paths; name].

Definition configContentsChanged (fs : FS) (filename content : string) : bool :=
  match ReadFile fs (pathClean filename) with
  | Some currentContent => negb (bool_decide (content = currentContent))
  | None => true
  end.

(** createConfig: the new files and whether the contents changed *)
Definition createConfig (fs : FS) (filename content : string) : option (FS * bool) :=
  let configChanged := configContentsChanged fs filename content in
  match createFileAndWrite fs filename content with
  | (fs', None) => Some (fs', configChanged)
  | (_, Some _) => None
  end.

Definition deleteConfig (fs : FS) (filename : string) : FS := (osRemove fs filename).1.

Definition LocalCreateMainConfig (fs : FS) (content : string) : option (FS * bool) :=
  createConfig fs (mainConfFilename paths) content.
Definition LocalCreateConfig (fs : FS) (name content : string) : option (FS * bool) :=
  createConfig fs (getFilenameForConfig name) content.
Definition LocalCreateStreamConfig (fs : FS) (name content : string) : option (FS * bool) :=
  createConfig fs (getFilenameForStreamConfig name) content.
Definition CreateOIDCConfig (fs : FS) (name content : string) : option (FS * bool) :=
  createConfig fs (getFilenameForOIDCConfig name) content.
Definition CreateTLSPassthroughHostsConfig (fs : FS) (content : string) : option (FS * bool) :=
  createConfig fs (tlsPassthroughHostsFilename paths) content.
Definition DeleteConfig (fs : FS) (name : string) : FS := deleteConfig fs (getFilenameForConfig name).
Definition DeleteStreamConfig (fs : FS) (name : string) : FS := deleteConfig fs (getFilenameForStreamConfig name).
Definition DeleteOIDCConfig (fs : FS) (name : string) : FS := deleteConfig fs (getFilenameForOIDCConfig name).

(** CreateSecret returns the name of the file; DeleteSecret only warns *)
Definition CreateSecret (fs : FS) (name content : string) : option (FS * string) :=
  let filename := GetFilenameForSecret name in
  fs' ← createFileAndWriteAtomically fs filename content; Some (fs', filename).
Definition DeleteSecret (fs : FS) (name : string) : FS := (osRemove fs (GetFilenameForSecret name)).1.

(** GenerateVersionConfig: the template with the version filled in *)
Definition GenerateVersionConfig (configVersion : Z) : string :=
  let nl := String newline "" in let tab := String (byte_at 9) "" in
  let quote := String (byte_at 34) "" in
  "server {" +:+ nl +:+
  "    listen unix:/var/lib/nginx/nginx-config-version.sock;" +:+ nl +:+
  tab +:+ "access_log off;" +:+ nl +:+ nl +:+
  "    location /configVersion {" +:+ nl +:+
  "        return 200 " +:+ pretty configVersion +:+ ";" +:+ nl +:+
  "    }" +:+ nl +:+ "}" +:+ nl +:+
  "map $http_x_expected_config_version $config_version_mismatch {" +:+ nl +:+
  tab +:+ quote +:+ pretty configVersion +:+ quote +:+ " " +:+ quote +:+ quote +:+ ";" +:+ nl +:+
  tab +:+ "default " +:+ quote +:+ "mismatch" +:+ quote +:+ ";" +:+ nl +:+ "}".

Definition UpdateConfigVersionFile (fs : FS) (configVersion : Z) : option FS :=
  createFileAndWriteAtomically fs (configVersionFilename paths) (GenerateVersionConfig configVersion).

(** Reload: the files, the new version and the error; metrics are not kept *)
Definition Reload (fs : FS) (configVersion : Z) : option (FS * Z * option string) :=
  let configVersion := (configVersion + 1)%Z in
  fs' ← UpdateConfigVersionFile fs configVersion;
  Some (fs', configVersion,
        match reloadCommand fs' with
        | Some err => Some ("nginx reload failed: " +:+ err)
        | None => match waitForVersion fs' configVersion with
                  | Some err => Some ("could not get newest config version: " +:+ err)
                  | None => None
                  end
        end).
End NginxManager.
