(* ===== verification/RollbackManager.v ===== *)
(** ConfigRollbackManager (internal/nginx/rollback_manager.go): writes that are
    validated with `nginx -t` and rolled back, and the batch mode of the startup,
    which validates all files at once and isolates the bad ones.

    The manager's files are part of its state; results of methods are pairs of
    the new manager and the Go result.  [None] is nl.Fatalf. *)
From S2P Require Import Prelude GoStrings NginxManager.

Definition disabledSuffix : string := ".conf.disabled".

Record BatchExclusion := { be_ConfigPath : string; be_ResourceName : string; be_Error : string }.

Record ConfigRollbackManager := {
  cm_files : FS;
  cm_configVersion : Z;
  cm_initialDefaultServerPending : bool;
  cm_batchMode : bool;
  cm_batchFiles : gmap string string;
  cm_batchExcluded : list BatchExclusion;
  cm_preBatchDefaultServer : option string
}.

Definition NewConfigRollbackManager (files : FS) : ConfigRollbackManager :=
  {| cm_files := files; cm_configVersion := 0; cm_initialDefaultServerPending := true;
     cm_batchMode := false; cm_batchFiles := ∅; cm_batchExcluded := []; cm_preBatchDefaultServer := None |}.

Definition set_files (cm : ConfigRollbackManager) (fs : FS) : ConfigRollbackManager :=
  {| cm_files := fs; cm_configVersion := cm_configVersion cm;
     cm_initialDefaultServerPending := cm_initialDefaultServerPending cm; cm_batchMode := cm_batchMode cm;
     cm_batchFiles := cm_batchFiles cm; cm_batchExcluded := cm_batchExcluded cm;
     cm_preBatchDefaultServer := cm_preBatchDefaultServer cm |}.
Definition set_configVersion (cm : ConfigRollbackManager) (v : Z) : ConfigRollbackManager :=
  {| cm_files := cm_files cm; cm_configVersion := v;
     cm_initialDefaultServerPending := cm_initialDefaultServerPending cm; cm_batchMode := cm_batchMode cm;
     cm_batchFiles := cm_batchFiles cm; cm_batchExcluded := cm_batchExcluded cm;
     cm_preBatchDefaultServer := cm_preBatchDefaultServer cm |}.
Definition set_pending (cm : ConfigRollbackManager) (b : bool) : ConfigRollbackManager :=
  {| cm_files := cm_files cm; cm_configVersion := cm_configVersion cm;
     cm_initialDefaultServerPending := b; cm_batchMode := cm_batchMode cm;
     cm_batchFiles := cm_batchFiles cm; cm_batchExcluded := cm_batchExcluded cm;
     cm_preBatchDefaultServer := cm_preBatchDefaultServer cm |}.
Definition set_batchMode (cm : ConfigRollbackManager) (b : bool) : ConfigRollbackManager :=
  {| cm_files := cm_files cm; cm_configVersion := cm_configVersion cm;
     cm_initialDefaultServerPending := cm_initialDefaultServerPending cm; cm_batchMode := b;
     cm_batchFiles := cm_batchFiles cm; cm_batchExcluded := cm_batchExcluded cm;
     cm_preBatchDefaultServer := cm_preBatchDefaultServer cm |}.
Definition set_batchFiles (cm : ConfigRollbackManager) (m : gmap string string) : ConfigRollbackManager :=
  {| cm_files := cm_files cm; cm_configVersion := cm_configVersion cm;
     cm_initialDefaultServerPending := cm_initialDefaultServerPending cm; cm_batchMode := cm_batchMode cm;
     cm_batchFiles := m; cm_batchExcluded := cm_batchExcluded cm;
     cm_preBatchDefaultServer := cm_preBatchDefaultServer cm |}.
Definition set_batchExcluded (cm : ConfigRollbackManager) (l : list BatchExclusion) : ConfigRollbackManager :=
  {| cm_files := cm_files cm; cm_configVersion := cm_configVersion cm;
     cm_initialDefaultServerPending := cm_initialDefaultServerPending cm; cm_batchMode := cm_batchMode cm;
     cm_batchFiles := cm_batchFiles cm; cm_batchExcluded := l;
     cm_preBatchDefaultServer := cm_preBatchDefaultServer cm |}.
Definition set_preBatch (cm : ConfigRollbackManager) (s : option string) : ConfigRollbackManager :=
  {| cm_files := cm_files cm; cm_configVersion := cm_configVersion cm;
     cm_initialDefaultServerPending := cm_initialDefaultServerPending cm; cm_batchMode := cm_batchMode cm;
     cm_batchFiles := cm_batchFiles cm; cm_batchExcluded := cm_batchExcluded cm;
     cm_preBatchDefaultServer := s |}.

(** ** Paths named in an error *)

(** The bytes of a path for nginxTestPathRe: no white space, colon or quote *)
Definition pathByte (c : Ascii.ascii) : bool :=
  negb (existsb (ceqb c) [9; 10; 12; 13; 32; 58; 34; 39]).

Fixpoint takePath (s : string) : string :=
  match s with
  | String c s' => if pathByte c then String c (takePath s') else ""
  | EmptyString => ""
  end.

(** nginxTestPathRe.FindAllString: the leftmost matches of /etc/nginx/ and at
    least one path byte that do not overlap; [skip] bytes belong to the last match *)
Fixpoint findPaths (skip : nat) (s : string) : list string :=
  match s with
  | EmptyString => []
  | String _ s' =>
      match skip with
      | S skip' => findPaths skip' s'
      | O => let m := "/etc/nginx/" in
             let rest := takePath (dropBytes (String.length m) s) in
             if HasPrefix s m && negb (bool_decide (rest = "")) then
               (m +:+ rest) :: findPaths (String.length (m +:+ rest) - 1) s'
             else findPaths 0 s'
      end
  end.

(** strings.TrimRight with the cutset of dot, comma, semicolon and parenthesis *)
Fixpoint trimLeftCut (s : string) : string :=
  match s with
  | String c s' => if existsb (ceqb c) [46; 44; 59; 41] then trimLeftCut s' else s
  | EmptyString => ""
  end.
Definition trimRightCut (s : string) : string := revBytes (trimLeftCut (revBytes s)).

Fixpoint firstTracked (batchFiles : gmap string string) (paths : list string) : string :=
  match paths with
  | [] => ""
  | path :: rest => if bool_decide (is_Some (batchFiles !! path)) then path else firstTracked batchFiles rest
  end.

Definition parsePathFromError (batchFiles : gmap string string) (err : string) : string :=
  firstTracked batchFiles (trimRightCut <$> findPaths 0 err).

Section RollbackManager.
Context `{API : NginxAPI} `{MR : MapRange} (paths : LocalPaths).

Definition testConfig (cm : ConfigRollbackManager) : option string := nginxTestError (cm_files cm).

Definition cmReload (cm : ConfigRollbackManager) : option (ConfigRollbackManager * option string) :=
  '(fs, v, err) ← Reload paths (cm_files cm) (cm_configVersion cm);
  Some (set_configVersion (set_files cm fs) v, err).

(** ** One validated write *)

(** The result of a write: whether the configuration changed, and the error *)
Notation writeRes := (bool * option string)%type.

(** The deletion after a failed validation, except for protected files *)
Definition discard (cm : ConfigRollbackManager) (configPath : string) : ConfigRollbackManager :=
  let protectFromDeletion :=
    bool_decide (configPath = mainConfFilename paths) || bool_decide (configPath = defaultServerConfFilename paths) in
  if protectFromDeletion then cm else set_files cm (deleteConfig (cm_files cm) configPath).

(** The branch of a failed validation *)
Definition rollback (cm : ConfigRollbackManager) (name configPath : string) (backup : option string) (err : string)
    : option (ConfigRollbackManager * writeRes) :=
  match backup with
  | Some old =>
      let '(fs, rollbackErr) := createFileAndWrite (cm_files cm) configPath old in
      let cm := set_files cm fs in
      match rollbackErr with
      | Some _ =>
          Some (discard cm configPath,
                (false, Some ("configuration validation failed and rollback failed for " +:+ name +:+ ": " +:+ err)))
      | None =>
          match testConfig cm with
          | None =>
              '(cm, _) ← cmReload cm;
              Some (cm, (false, Some ("configuration validation failed for " +:+ name +:+
                                      ", rolled back to previous working config: " +:+ err)))
          | Some _ =>
              Some (discard cm configPath,
                    (false, Some ("configuration validation failed and rollback didn't resolve issues for " +:+
                                  name +:+ ": " +:+ err)))
          end
      end
  | None =>
      Some (discard cm configPath,
            (false, Some ("configuration validation failed for " +:+ name +:+ ": " +:+ err)))
  end.

(** The write, its validation, and the rollback *)
Definition writeValidated (cm : ConfigRollbackManager) (name configPath content : string) (backup : option string)
    : option (ConfigRollbackManager * writeRes) :=
  match createFileAndWrite (cm_files cm) configPath content with
  | (_, Some _) => None
  | (fs, None) =>
      let cm := set_files cm fs in
      match testConfig cm with
      | Some err => rollback cm name configPath backup err
      | None => Some (cm, (true, None))
      end
  end.

Definition createConfigWithRollback (cm : ConfigRollbackManager) (name configPath content : string)
    : option (ConfigRollbackManager * writeRes) :=
  match ReadFile (cm_files cm) configPath with
  | Some existingContent =>
      if bool_decide (existingContent = content) then
        match testConfig cm with
        | None => Some (cm, (false, None))
        | Some testErr =>
            Some (cm, (false, Some ("configuration " +:+ name +:+ " was already validated and found invalid: " +:+ testErr)))
        end
      else writeValidated cm name configPath content
             (match testConfig cm with None => Some existingContent | Some _ => None end)
  | None => writeValidated cm name configPath content None
  end.

(** ** Batch mode: writing *)

Definition batchWriteConfig (cm : ConfigRollbackManager) (name configPath content : string)
    : option (ConfigRollbackManager * writeRes) :=
  let record cm := set_batchFiles cm (<[configPath := name]> (cm_batchFiles cm)) in
  let write :=
    match createFileAndWrite (cm_files cm) configPath content with
    | (_, Some _) => None
    | (fs, None) => Some (record (set_files cm fs), (true, None))
    end in
  match ReadFile (cm_files cm) configPath with
  | Some existingContent =>
      if bool_decide (existingContent = content) then Some (record cm, (false, None)) else write
  | None => write
  end.

Definition localResult (cm : ConfigRollbackManager) (r : option (FS * bool))
    : option (ConfigRollbackManager * writeRes) :=
  '(fs, changed) ← r; Some (set_files cm fs, (changed, None)).

Definition CreateMainConfig (cm : ConfigRollbackManager) (content : string)
    : option (ConfigRollbackManager * writeRes) :=
  if (cm_configVersion cm =? 0)%Z then localResult cm (LocalCreateMainConfig paths (cm_files cm) content)
  else createConfigWithRollback cm "nginx.conf" (mainConfFilename paths) content.

Definition CreateConfig (cm : ConfigRollbackManager) (name content : string)
    : option (ConfigRollbackManager * writeRes) :=
  let configPath := getFilenameForConfig paths name in
  if cm_initialDefaultServerPending cm && bool_decide (configPath = defaultServerConfFilename paths) then
    localResult (set_pending cm false) (LocalCreateConfig paths (cm_files cm) name content)
  else if cm_batchMode cm then batchWriteConfig cm name configPath content
  else createConfigWithRollback cm name configPath content.

Definition CreateStreamConfig (cm : ConfigRollbackManager) (name content : string)
    : option (ConfigRollbackManager * writeRes) :=
  let configPath := getFilenameForStreamConfig paths name in
  if cm_batchMode cm then batchWriteConfig cm name configPath content
  else createConfigWithRollback cm name configPath content.

Definition EnableBatchMode (cm : ConfigRollbackManager) : ConfigRollbackManager :=
  set_preBatch (set_batchExcluded (set_batchFiles (set_batchMode cm true) ∅) [])
    (ReadFile (cm_files cm) (defaultServerConfFilename paths)).

(** ** Batch mode: isolation *)

Definition disabledName (p : string) : string := TrimSuffix p ".conf" +:+ disabledSuffix.

Definition disableConfigs (fs : FS) (l : list string) : FS :=
  foldl (λ fs p, (osRename fs p (disabledName p)).1) fs l.
Definition enableConfigs (fs : FS) (l : list string) : FS :=
  foldl (λ fs p, (osRename fs (disabledName p) p).1) fs l.

(** binarySearchBadConfig: the files and the error or the bad file.  The halves
    are shorter than the candidates, so their number is fuel enough. *)
Fixpoint binarySearchFuel (fuel : nat) (fs : FS) (candidates : list string) : FS * (string + string) :=
  match candidates with
  | [] => (fs, inl "empty candidate set")
  | [c] => (fs, inr c)
  | _ =>
      match fuel with
      | O => (fs, inl "")
      | S fuel' =>
          let mid := length candidates / 2 in
          let firstHalf := take mid candidates in
          let secondHalf := drop mid candidates in
          let fs := disableConfigs fs secondHalf in
          match nginxTestError fs with
          | Some _ =>
              let '(fs, res) := binarySearchFuel fuel' fs firstHalf in
              (enableConfigs fs secondHalf, res)
          | None =>
              let fs := enableConfigs fs secondHalf in
              let fs := disableConfigs fs firstHalf in
              let '(fs, res) := binarySearchFuel fuel' fs secondHalf in
              (enableConfigs fs firstHalf, res)
          end
      end
  end.
Definition binarySearchBadConfig (fs : FS) (candidates : list string) : FS * (string + string) :=
  binarySearchFuel (length candidates) fs candidates.

(** excludeConfig: the manager and the error *)
Definition excludeConfig (cm : ConfigRollbackManager) (configPath resourceName reason : string)
    : ConfigRollbackManager * option string :=
  let '(cm, err) :=
    match bool_decide (configPath = defaultServerConfFilename paths), cm_preBatchDefaultServer cm with
    | true, Some snapshot =>
        match createFileAndWrite (cm_files cm) configPath snapshot with
        | (fs, Some err) =>
            (set_files cm fs, Some ("failed to restore pre-batch default server config " +:+ configPath +:+ ": " +:+ err))
        | (fs, None) => (set_preBatch (set_files cm fs) None, None)
        end
    | _, _ =>
        match osRemove (cm_files cm) configPath with
        | (fs, Some err) => (set_files cm fs, Some ("failed to remove excluded config " +:+ configPath +:+ ": " +:+ err))
        | (fs, None) => (set_files cm fs, None)
        end
    end in
  match err with
  | Some e => (cm, Some e)
  | None =>
      (set_batchFiles
         (set_batchExcluded cm (cm_batchExcluded cm ++
            [{| be_ConfigPath := configPath; be_ResourceName := resourceName; be_Error := reason |}]))
         (delete configPath (cm_batchFiles cm)), None)
  end.

Definition candidatePaths (cm : ConfigRollbackManager) : list string :=
  (range "candidatePaths" (cm_batchFiles cm)).*1.

Inductive isolationError :=
  | CannotExclude (path err : string)
  | NoCandidates (testErr : string)
  | SearchFailed (searchErr : string)
  | CapExceeded (maxIterations : nat).

Definition isolationMessage (e : isolationError) : string :=
  match e with
  | CannotExclude path err => "isolation aborted, cannot exclude " +:+ path +:+ ": " +:+ err
  | NoCandidates testErr => "no candidates remaining but nginx -t still fails: " +:+ testErr
  | SearchFailed err => "binary search could not isolate bad config: " +:+ err
  | CapExceeded n => "isolation exceeded iteration cap of " +:+ pretty n +:+ " — file system state may be inconsistent"
  end.

(** One round of isolateBadConfigs: it returns, or goes on with the next round *)
Definition isolateStep (cm : ConfigRollbackManager)
    : ConfigRollbackManager * option (option isolationError) :=
  let exclude cm badPath resourceName testErr :=
    match excludeConfig cm badPath resourceName testErr with
    | (cm, Some err) => (cm, Some (Some (CannotExclude badPath err)))
    | (cm, None) => (cm, None)
    end in
  match testConfig cm with
  | None => (cm, Some None)
  | Some testErr =>
      let badPath := parsePathFromError (cm_batchFiles cm) testErr in
      match (if bool_decide (badPath = "") then None else cm_batchFiles cm !! badPath) with
      | Some resourceName => exclude cm badPath resourceName testErr
      | None =>
          let candidates := candidatePaths cm in
          if bool_decide (length candidates = 0) then (cm, Some (Some (NoCandidates testErr)))
          else
            let '(fs, found) := binarySearchBadConfig (cm_files cm) candidates in
            let cm := set_files cm fs in
            match found with
            | inl searchErr => (cm, Some (Some (SearchFailed searchErr)))
            | inr badFile => exclude cm badFile (default "" (cm_batchFiles cm !! badFile)) testErr
            end
      end
  end.

Fixpoint isolateLoop (maxIterations iter : nat) (cm : ConfigRollbackManager)
    : ConfigRollbackManager * option isolationError :=
  match iter with
  | O => (cm, Some (CapExceeded maxIterations))
  | S iter' =>
      match isolateStep cm with
      | (cm, Some res) => (cm, res)
      | (cm, None) => isolateLoop maxIterations iter' cm
      end
  end.

Definition isolateBadConfigs (cm : ConfigRollbackManager) : ConfigRollbackManager * option isolationError :=
  let maxIterations := size (cm_batchFiles cm) + 10 in
  isolateLoop maxIterations maxIterations cm.

Definition removeAllBatchFiles (cm : ConfigRollbackManager) : ConfigRollbackManager :=
  set_batchFiles
    (set_files cm (foldl (λ fs e, (osRemove fs e.1).1) (cm_files cm) (range "removeAllBatchFiles" (cm_batchFiles cm))))
    ∅.

Definition CompleteBatch (cm : ConfigRollbackManager) : ConfigRollbackManager * option string :=
  let cm := set_batchMode cm false in
  match testConfig cm with
  | None => (set_batchFiles cm ∅, None)
  | Some _ =>
      match isolateBadConfigs cm with
      | (cm, Some err) =>
          (removeAllBatchFiles cm,
           Some ("batch validation failed and isolation could not converge: " +:+ isolationMessage err))
      | (cm, None) => (set_batchFiles cm ∅, None)
      end
  end.
End RollbackManager.

(** File-system facts for the rollback manager: suffixes, the hiding and showing of
    files by disableConfigs and enableConfigs, and the operating system without
    faults. *)

(** ** Names of files NGINX includes, and of disabled files *)

Definition isConf (p : string) : Prop := HasSuffix p ".conf" = true.

Lemma disabledName_conf p : isConf p → disabledName p = p +:+ ".disabled".
Proof.
  intros [x ->]%HasSuffix_spec. unfold disabledName. by rewrite TrimSuffix_app, string_app_assoc.
Qed.


Lemma disabledName_inj p q : isConf p → isConf q → disabledName p = disabledName q → p = q.
Proof. intros Hp Hq. rewrite !disabledName_conf by done. apply string_app_inj_r. Qed.

Lemma disabledName_not_conf p q : isConf p → isConf q → disabledName p ≠ q.
Proof.
  intros Hp [x ->]%HasSuffix_spec. rewrite disabledName_conf by done.
  intros H%(f_equal revBytes). rewrite !revBytes_app in H. done.
Qed.

(** ** An operating system without faults *)

Class Reliable `{NginxAPI} := {
  reliable_read : ∀ fs p, readable fs p = true;
  reliable_write : ∀ fs p c, writeOutcome fs p c = WriteOk;
  reliable_remove : ∀ fs p, removeFault fs p = None;
  reliable_rename : ∀ fs p q, renameFault fs p q = None;
  reliable_atomic : ∀ fs p, atomicWriteFails fs p = false
}.

Section Files.
Context `{API : NginxAPI} `{Rel : !Reliable}.

Lemma ReadFile_reliable fs p : ReadFile fs p = fs !! p.
Proof. unfold ReadFile. by rewrite reliable_read. Qed.

Lemma createFileAndWrite_reliable fs p c : createFileAndWrite fs p c = (<[p := c]> fs, None).
Proof. unfold createFileAndWrite. by rewrite reliable_write. Qed.

Lemma osRemove_reliable fs p : (osRemove fs p).1 = delete p fs.
Proof.
  unfold osRemove. rewrite reliable_remove. destruct (fs !! p) eqn:Hp; [done|].
  symmetry. by apply delete_id.
Qed.

Lemma osRemove_present fs p : is_Some (fs !! p) → osRemove fs p = (delete p fs, None).
Proof. intros [c Hc]. unfold osRemove. by rewrite reliable_remove, Hc. Qed.

(** ** Hidden files

    [hidden fs0 S fs]: the files [fs] are [fs0] with those of [S] under their
    disabled names. *)
Definition hidden (fs0 : FS) (S : list string) (fs : FS) : Prop :=
  (∀ p, p ∈ S → fs !! p = None ∧ fs !! disabledName p = fs0 !! p) ∧
  (∀ q, q ∉ S → (∀ p, p ∈ S → q ≠ disabledName p) → fs !! q = fs0 !! q).

(** No file of [fs0] has the disabled name of a candidate. *)
Definition unshadowed (fs0 : FS) (C : list string) : Prop :=
  ∀ p, p ∈ C → isConf p ∧ fs0 !! disabledName p = None.

Lemma hidden_nil fs : hidden fs [] fs.
Proof. split; [intros p []%elem_of_nil|done]. Qed.

Lemma hidden_nil_eq fs0 fs : hidden fs0 [] fs → fs = fs0.
Proof. intros [_ H]. apply map_eq. intros q. apply H; [apply not_elem_of_nil|intros p []%elem_of_nil]. Qed.

Lemma hidden_perm fs0 S S' fs : S ≡ₚ S' → hidden fs0 S fs → hidden fs0 S' fs.
Proof. intros Hp [H1 H2]. split; [|setoid_rewrite <- Hp; done]. intros p. rewrite <- Hp. apply H1. Qed.

Lemma hidden_shown fs0 S fs p :
  hidden fs0 S fs → unshadowed fs0 S → isConf p → p ∉ S → fs !! p = fs0 !! p.
Proof. intros [_ H] Hs Hp Hn. apply H; [done|]. intros q Hq ->. eapply disabledName_not_conf; [|exact Hp|done]. by apply Hs. Qed.

Lemma hide_one fs0 S fs p :
  hidden fs0 S fs → unshadowed fs0 (p :: S) → p ∉ S →
  hidden fs0 (p :: S) (osRename fs p (disabledName p)).1.
Proof.
  intros HS Hun Hp. pose proof HS as [H1 H2].
  destruct (Hun p ltac:(by left)) as [Hc Hd].
  assert (∀ q, q ∈ S → isConf q) as HSc by (intros q Hq; apply Hun; by right).
  assert (fs !! p = fs0 !! p) as Hfp.
  { eapply hidden_shown; eauto. intros q Hq. apply Hun. by right. }
  assert (fs !! disabledName p = fs0 !! disabledName p) as Hfd.
  { apply H2; [|intros q Hq Heq%disabledName_inj; naive_solver].
    intros Hin. eapply disabledName_not_conf; [exact Hc|by apply HSc|done]. }
  unfold osRename. rewrite Hfp. destruct (fs0 !! p) as [c|] eqn:H0; cbn.
  - rewrite reliable_rename. cbn. assert (p ≠ disabledName p) as Hne.
    { intros Heq. by eapply (disabledName_not_conf p p). }
    split.
    + intros q [->|Hq]%elem_of_cons.
      * rewrite lookup_insert_ne, lookup_delete_eq, lookup_insert_eq by done. by rewrite H0.
      * destruct (H1 q Hq) as [Hq1 Hq2]. split.
        { rewrite lookup_insert_ne; [|intros Heq; eapply disabledName_not_conf; [exact Hc|by apply HSc|exact Heq]].
          rewrite lookup_delete_ne; [done|]. naive_solver. }
        rewrite lookup_insert_ne by (intros Heq%disabledName_inj; naive_solver).
        rewrite lookup_delete_ne; [done|]. intros ->. eapply disabledName_not_conf; [by apply HSc|exact Hc|done].
    + intros q Hq Hqd. rewrite lookup_insert_ne by (intros <-; eapply Hqd; [by left|done]).
      rewrite lookup_delete_ne by (intros ->; apply Hq; by left).
      apply H2; [by intros ?; apply Hq; right|]. intros r Hr. apply Hqd. by right.
  - split.
    + intros q [->|Hq]%elem_of_cons; [|by apply H1]. by rewrite Hfp, Hfd, Hd.
    + intros q Hq Hqd. apply H2; [by intros ?; apply Hq; right|]. intros r Hr. apply Hqd. by right.
Qed.

Lemma show_one fs0 S fs p :
  hidden fs0 (p :: S) fs → unshadowed fs0 (p :: S) → p ∉ S →
  hidden fs0 S (osRename fs (disabledName p) p).1.
Proof.
  intros [H1 H2] Hun Hp. destruct (Hun p ltac:(by left)) as [Hc Hd].
  assert (∀ q, q ∈ S → isConf q) as HSc by (intros q Hq; apply Hun; by right).
  destruct (H1 p ltac:(by left)) as [Hfp Hfd].
  assert (p ≠ disabledName p) as Hne by (intros Heq; by eapply (disabledName_not_conf p p)).
  unfold osRename. rewrite Hfd. destruct (fs0 !! p) as [c|] eqn:H0; cbn.
  - rewrite reliable_rename. cbn. split.
    + intros q Hq. destruct (H1 q ltac:(by right)) as [Hq1 Hq2]. assert (q ≠ p) by naive_solver. split.
      { rewrite lookup_insert_ne by done. rewrite lookup_delete_ne; [done|].
        intros Heq. eapply disabledName_not_conf; [exact Hc|by apply HSc|exact Heq]. }
      rewrite lookup_insert_ne by (intros Heq; eapply disabledName_not_conf; [by apply HSc|exact Hc|by symmetry]).
      rewrite lookup_delete_ne; [done|]. intros Heq%disabledName_inj; naive_solver.
    + intros q Hq Hqd. destruct (decide (q = p)) as [->|Hqp]; [by rewrite lookup_insert_eq|].
      rewrite lookup_insert_ne by done. destruct (decide (q = disabledName p)) as [->|Hqd'].
      { by rewrite lookup_delete_eq. }
      rewrite lookup_delete_ne by done.
      apply H2; [by intros [->|?]%elem_of_cons|]. intros r [->|Hr]%elem_of_cons; [done|]. by apply Hqd.
  - split.
    + intros q Hq. apply H1. by right.
    + intros q Hq Hqd. destruct (decide (q = p)) as [->|Hqp]; [by rewrite Hfp|].
      destruct (decide (q = disabledName p)) as [->|Hqd']; [by rewrite Hfd|].
      apply H2; [by intros [->|?]%elem_of_cons|]. intros r [->|Hr]%elem_of_cons; [done|]. by apply Hqd.
Qed.

Lemma hide_all fs0 S fs l :
  hidden fs0 S fs → unshadowed fs0 (l ++ S) → NoDup (l ++ S) → hidden fs0 (l ++ S) (disableConfigs fs l).
Proof.
  unfold disableConfigs. revert S fs. induction l as [|p l IH]; intros S fs HS Hun Hnd; [done|]. simpl.
  apply NoDup_cons in Hnd as [Hp Hnd].
  apply (hidden_perm fs0 (l ++ p :: S)); [symmetry; apply Permutation_middle|]. apply IH.
  - apply hide_one; [done| |by intros ?; apply Hp, elem_of_app; right].
    intros q Hq. apply Hun. set_solver.
  - intros q Hq. apply Hun. set_solver.
  - rewrite <- Permutation_middle. by apply NoDup_cons.
Qed.

Lemma show_all fs0 S fs l :
  hidden fs0 (l ++ S) fs → unshadowed fs0 (l ++ S) → NoDup (l ++ S) → hidden fs0 S (enableConfigs fs l).
Proof.
  unfold enableConfigs. revert fs. induction l as [|p l IH]; intros fs HS Hun Hnd; [done|]. simpl.
  apply NoDup_cons in Hnd as [Hp Hnd]. apply IH; [|intros q Hq; apply Hun; by right|done].
  by apply show_one.
Qed.
End Files.
