(* ===== verification/RollbackCorrect.v ===== *)
(** Properties of the rollback manager: a validated write keeps a working
    configuration working, the isolation of bad files always ends before its
    iteration cap, and for self-contained files it removes exactly the bad ones. *)
From S2P Require Import Prelude GoStrings NginxManager RollbackManager.

Section Rollback.
Context `{API : NginxAPI} `{Rel : !Reliable} `{MR : MapRange} (paths : LocalPaths).

Definition protected (p : string) : Prop :=
  p = mainConfFilename paths ∨ p = defaultServerConfFilename paths.

Lemma discard_unprotected cm p :
  ¬ protected p → cm_files (discard paths cm p) = delete p (cm_files cm).
Proof.
  unfold protected, discard. intros H. rewrite !bool_decide_false by tauto. simpl. apply osRemove_reliable.
Qed.

Lemma discard_eq cm p : discard paths cm p = set_files cm (cm_files (discard paths cm p)).
Proof. unfold discard. case_match; by destruct cm. Qed.

(** A reload changes the version file only. *)
Lemma cmReload_reliable cm :
  ∃ cm' err, cmReload paths cm = Some (cm', err) ∧
    ∀ q, q ≠ configVersionFilename paths → cm_files cm' !! q = cm_files cm !! q.
Proof.
  unfold cmReload, Reload, UpdateConfigVersionFile, createFileAndWriteAtomically.
  rewrite reliable_atomic. cbn [mbind option_bind]. eexists _, _. split; [done|]. intros q Hq.
  cbn [cm_files set_files set_configVersion]. by rewrite lookup_insert_ne.
Qed.

(** C28.  When `nginx -t` accepts the files before and no file operation fails
    ([Reliable]), a validated write always returns, and it is atomic: either it reports no error, the new contents are in place and
    `nginx -t` still accepts the files, or it reports an error and every file but
    the config-version file is as before.  (A protected file that did not exist is
    the one exception: it is not deleted.) *)
Theorem validated_write_atomic cm name p content :
  testConfig cm = None → is_Some (cm_files cm !! p) ∨ ¬ protected p →
  ∃ cm' changed err, createConfigWithRollback paths cm name p content = Some (cm', (changed, err)) ∧
    match err with
    | None => testConfig cm' = None ∧ cm_files cm' !! p = Some content ∧
              (∀ q, q ≠ p → cm_files cm' !! q = cm_files cm !! q) ∧
              (changed = true ↔ cm_files cm !! p ≠ Some content)
    | Some _ => changed = false ∧
                ∀ q, q ≠ configVersionFilename paths → cm_files cm' !! q = cm_files cm !! q
    end.
Proof.
  intros Htest Hp. unfold createConfigWithRollback, writeValidated, rollback.
  rewrite ReadFile_reliable, !createFileAndWrite_reliable, Htest.
  destruct (cm_files cm !! p) as [old|] eqn:Hold.
  - case_bool_decide as Heq.
    { subst. eexists _, _, _. split; [done|]. cbn [cm_files set_files]. rewrite Hold. split_and!; [done..|]. naive_solver. }
    destruct (testConfig (set_files cm _)) as [err|] eqn:Hnew.
    + rewrite createFileAndWrite_reliable. cbn [cm_files set_files].
      assert (<[p:=old]> (<[p:=content]> (cm_files cm)) = cm_files cm) as Hback.
      { by rewrite insert_insert_eq, insert_id. }
      rewrite Hback. unfold testConfig in *. cbn [cm_files set_files] in *. rewrite Htest.
      destruct (cmReload_reliable (set_files (set_files cm (<[p:=content]> (cm_files cm))) (cm_files cm)))
        as (cm' & e & -> & Hcm'). cbn [mbind option_bind].
      eexists _, _, _. split; [done|]. split; [done|]. intros q Hq. by rewrite Hcm'.
    + eexists _, _, _. split; [done|]. cbn [cm_files set_files]. rewrite lookup_insert_eq. split_and!; [done..| |].
      * intros q Hq. by rewrite lookup_insert_ne.
      * split; [|done]. intros _ [=]; congruence.
  - destruct (testConfig (set_files cm _)) as [err|] eqn:Hnew.
    + eexists _, _, _. split; [done|]. split; [done|]. intros q Hq.
      destruct Hp as [[? ?]|Hp]; [done|]. rewrite discard_unprotected by done. cbn [cm_files set_files].
      by rewrite delete_insert_id.
    + eexists _, _, _. split; [done|]. cbn [cm_files set_files]. rewrite lookup_insert_eq. split_and!; [done..| |done].
      intros q Hq. by rewrite lookup_insert_ne.
Qed.
End Rollback.

(** ** Isolation ends *)

Section Termination.
Context `{API : NginxAPI} `{MR : MapRange} (paths : LocalPaths).

Lemma binarySearch_candidate fuel fs l fs' c :
  binarySearchFuel fuel fs l = (fs', inr c) → c ∈ l.
Proof.
  revert fs l fs' c. induction fuel as [|fuel IH]; intros fs l fs' c H; destruct l as [|a [|b l]];
    try (simpl in H; simplify_eq; by left); try done.
  cbn [binarySearchFuel] in H. revert H. set (l0 := a :: b :: l). intros H.
  destruct (nginxTestError _); destruct (binarySearchFuel fuel _ _) as [fs1 r] eqn:Hr; simplify_eq;
    apply IH in Hr.
  - eapply elem_of_take in Hr as (i & Hi & _). by eapply list_elem_of_lookup_2.
  - rewrite <- (take_drop (length l0 / 2) l0). apply elem_of_app. by right.
Qed.

Lemma excludeConfig_batchFiles cm p name reason cm' err :
  excludeConfig paths cm p name reason = (cm', err) →
  err = None → cm_batchFiles cm' = delete p (cm_batchFiles cm).
Proof.
  unfold excludeConfig. intros H ->. repeat case_match; simplify_eq; done.
Qed.

(** A round that does not return removes a tracked file. *)
Lemma isolateStep_shrinks cm cm' :
  isolateStep paths cm = (cm', None) →
  ∃ p, is_Some (cm_batchFiles cm !! p) ∧ cm_batchFiles cm' = delete p (cm_batchFiles cm).
Proof.
  unfold isolateStep. destruct (testConfig cm) as [err|]; [|done]. case_match eqn:Htier.
  - destruct (excludeConfig paths cm _ _ _) as [cm1 [e|]] eqn:He; [done|]. intros [= ->].
    apply excludeConfig_batchFiles in He; [|done]. case_bool_decide; [done|]. eauto.
  - clear Htier. case_bool_decide; [done|].
    destruct (binarySearchBadConfig _ _) as [fs [e|bad]] eqn:Hb; [done|].
    destruct (excludeConfig paths _ bad _ _) as [cm1 [e|]] eqn:He; [done|]. intros [= ->].
    apply excludeConfig_batchFiles in He; [|done]. exists bad. split; [|done].
    apply binarySearch_candidate in Hb. unfold candidatePaths in Hb.
    apply list_elem_of_fmap in Hb as ([p n] & -> & Hin). apply elem_of_range in Hin. eauto.
Qed.

Lemma isolateStep_size cm cm' :
  isolateStep paths cm = (cm', None) → size (cm_batchFiles cm') < size (cm_batchFiles cm).
Proof.
  intros (p & [name Hp] & ->)%isolateStep_shrinks. rewrite map_size_delete, Hp.
  assert (size (cm_batchFiles cm) ≠ 0) by (eapply map_size_ne_0_lookup_2; eauto). lia.
Qed.

Lemma isolateLoop_ends n iter cm :
  size (cm_batchFiles cm) < iter → ∀ k, (isolateLoop paths n iter cm).2 ≠ Some (CapExceeded k).
Proof.
  revert cm. induction iter as [|iter IH]; intros cm Hsize k; [lia|]. simpl.
  destruct (isolateStep paths cm) as [cm' [res|]] eqn:Hs.
  - simpl. unfold isolateStep in Hs. repeat case_match; simplify_eq; done.
  - apply IH. apply isolateStep_size in Hs. lia.
Qed.

(** C29.  Whatever `nginx -t` answers and whatever file operations fail, the
    isolation of bad files returns before its iteration cap: every round that does
    not return removes a file from the tracked files, so the error of the cap is
    never reported. *)
Theorem isolation_never_hits_cap cm k :
  (isolateBadConfigs paths cm).2 ≠ Some (CapExceeded k) ∧
  (∀ cm', isolateStep paths cm = (cm', None) → size (cm_batchFiles cm') < size (cm_batchFiles cm)).
Proof. split; [apply isolateLoop_ends; lia|apply isolateStep_size]. Qed.
End Termination.

(** ** Isolation is exact *)

(** The files NIC generates are self-contained (comment of
    binarySearchBadConfig): NGINX accepts the included files exactly when each of
    them is acceptable, and a file that an error names is not. *)
Class SelfContained `{NginxAPI} := {
  acceptable : string → string → bool;
  self_contained : ∀ fs, nginxRun fs = None ↔
    ∀ p c, fs !! p = Some c → isConf p → acceptable p c = true;
  blames : ∀ fs err p c, nginxTestError fs = Some err → p ∈ trimRightCut <$> findPaths 0 err →
    fs !! p = Some c → isConf p → acceptable p c = false
}.

Section Isolation.
Context `{API : NginxAPI} `{Rel : !Reliable} `{SC : !SelfContained} `{MR : MapRange} (paths : LocalPaths).

Lemma nginxTestError_None fs : nginxTestError fs = None ↔ nginxRun fs = None.
Proof.
  unfold nginxTestError. destruct (nginxRun fs) as [[stderr err]|]; [|done].
  split; [|done]. intros H. by repeat case_match.
Qed.

Lemma test_hidden fs0 S fs :
  hidden fs0 S fs → unshadowed fs0 S →
  nginxTestError fs = None ↔ ∀ p c, isConf p → p ∉ S → fs0 !! p = Some c → acceptable p c = true.
Proof.
  intros HS Hun. rewrite nginxTestError_None, self_contained. split.
  - intros H p c Hc Hp H0. apply H; [|done]. by rewrite (hidden_shown fs0 S fs p HS Hun Hc Hp).
  - intros H p c Hp Hc. destruct (decide (p ∈ S)) as [Hin|Hin].
    + destruct (proj1 HS p Hin). congruence.
    + apply H; [done..|]. by rewrite <- (hidden_shown fs0 S fs p HS Hun Hc Hin).
Qed.

Definition badFile (fs : FS) (p : string) : Prop :=
  match fs !! p with Some c => acceptable p c = false | None => False end.
#[local] Instance badFile_dec fs p : Decision (badFile fs p).
Proof. unfold badFile. destruct (fs !! p); apply _. Defined.

Lemma unshadowed_mono fs C D : (∀ p, p ∈ D → p ∈ C) → unshadowed fs C → unshadowed fs D.
Proof. intros H HC p Hp. apply HC. by apply H. Qed.

(** What a search is given: the files with [S] hidden, candidates apart from [S],
    and every other included file acceptable *)
Record searchable (fs0 : FS) (S C : list string) (fs : FS) : Prop := {
  se_hidden : hidden fs0 S fs;
  se_unshadowed : unshadowed fs0 (C ++ S);
  se_nodup : NoDup (C ++ S);
  se_others : ∀ q c, isConf q → q ∉ C ++ S → fs0 !! q = Some c → acceptable q c = true
}.

(** Hiding one half of the candidates *)
Lemma searchable_half fs0 S C C1 C2 fs :
  searchable fs0 S C fs → C ≡ₚ C1 ++ C2 → searchable fs0 (C2 ++ S) C1 (disableConfigs fs C2).
Proof.
  intros [Hh Hu Hn Ho] Hperm. assert (C ++ S ≡ₚ C1 ++ C2 ++ S) as HP by (by rewrite Hperm, app_assoc).
  split.
  - apply hide_all; [done| |].
    + eapply unshadowed_mono; [|exact Hu]. intros p Hp. rewrite HP. by apply elem_of_app; right.
    + rewrite HP in Hn. by apply NoDup_app in Hn as (_ & _ & ?).
  - eapply unshadowed_mono; [|exact Hu]. intros p Hp. by rewrite HP.
  - by rewrite <- HP.
  - intros q c Hq Hnot. apply Ho; [done|]. by rewrite HP.
Qed.

Lemma searchable_unhide fs0 S C C1 C2 fs fs' :
  searchable fs0 S C fs → C ≡ₚ C1 ++ C2 → hidden fs0 (C2 ++ S) fs' → hidden fs0 S (enableConfigs fs' C2).
Proof.
  intros [Hh Hu Hn Ho] Hperm H'. assert (C ++ S ≡ₚ C1 ++ C2 ++ S) as HP by (by rewrite Hperm, app_assoc).
  apply (show_all fs0 S); [done| |].
  - eapply unshadowed_mono; [|exact Hu]. intros p Hp. rewrite HP. by apply elem_of_app; right.
  - rewrite HP in Hn. by apply NoDup_app in Hn as (_ & _ & ?).
Qed.

(** With everything else hidden, `nginx -t` fails exactly for a bad candidate. *)
Lemma searchable_test fs0 S C fs :
  searchable fs0 S C fs → nginxTestError fs ≠ None ↔ ∃ p, p ∈ C ∧ badFile fs0 p.
Proof.
  intros [Hh Hu Hn Ho]. assert (unshadowed fs0 S) as HuS.
  { eapply unshadowed_mono; [|exact Hu]. intros p Hp. by apply elem_of_app; right. }
  rewrite (test_hidden fs0 S fs Hh HuS). unfold badFile. split.
  - intros H. destruct (decide (Exists (badFile fs0) C)) as [He|He]; [by apply Exists_exists in He|].
    exfalso. apply H. intros p c Hc Hp H0. destruct (decide (p ∈ C)) as [HpC|HpC]; [|apply (Ho p c); set_solver].
    destruct (acceptable p c) eqn:Ha; [done|]. exfalso. apply He, Exists_exists. exists p. split; [done|].
    unfold badFile. by rewrite H0.
  - intros (p & Hp & Hbad) H. destruct (fs0 !! p) as [c|] eqn:H0; [|done].
    rewrite (H p c) in Hbad; [done|..|done].
    + apply (Hu p). by apply elem_of_app; left.
    + apply NoDup_app in Hn as (_ & Hn & _). by apply Hn.
Qed.

(** The search finds a bad candidate and restores the files. *)
Lemma binarySearch_finds fuel fs0 S C fs :
  length C ≤ fuel → searchable fs0 S C fs → (∃ p, p ∈ C ∧ badFile fs0 p) →
  ∃ fs' p, binarySearchFuel fuel fs C = (fs', inr p) ∧ hidden fs0 S fs' ∧ p ∈ C ∧ badFile fs0 p.
Proof.
  revert S C fs. induction fuel as [|fuel IH]; intros S C fs Hlen Hse (b & Hb & Hbad);
    destruct C as [|x [|y C]]; try by apply elem_of_nil in Hb.
  1, 3: apply list_elem_of_singleton in Hb as ->; eexists _, _; split; [done|]; (split; [by apply Hse|]);
    split; [by left|done].
  { simpl in Hlen. lia. }
  cbn [binarySearchFuel]. set (l := x :: y :: C) in *. set (mid := length l / 2).
  assert (0 < mid < length l) as Hmid.
  { unfold mid. split; [apply Nat.div_str_pos; simpl; lia|apply Nat.div_lt; simpl; lia]. }
  assert (l ≡ₚ take mid l ++ drop mid l) as HP1 by (by rewrite take_drop).
  assert (l ≡ₚ drop mid l ++ take mid l) as HP2 by (by rewrite Permutation_app_comm, take_drop).
  pose proof (searchable_half fs0 S l _ _ fs Hse HP1) as Hse1.
  destruct (nginxTestError (disableConfigs fs (drop mid l))) as [err|] eqn:Htest.
  - edestruct IH as (fs' & p & -> & Hh & Hp & Hpb); [|exact Hse1|..].
    { rewrite length_take. lia. }
    { apply (searchable_test _ _ _ _ Hse1). congruence. }
    eexists _, p. split; [done|]. split; [by eapply searchable_unhide|]. rewrite HP1. set_solver.
  - assert (b ∈ drop mid l) as Hbd.
    { rewrite HP1 in Hb. apply elem_of_app in Hb as [Hb|Hb]; [|done].
      exfalso. apply (proj2 (searchable_test _ _ _ _ Hse1)); eauto. }
    assert (searchable fs0 S l (enableConfigs (disableConfigs fs (drop mid l)) (drop mid l))) as Hse0.
    { split; try apply Hse. eapply searchable_unhide; [exact Hse|exact HP1|apply Hse1]. }
    pose proof (searchable_half fs0 S l _ _ _ Hse0 HP2) as Hse2.
    edestruct IH as (fs' & p & -> & Hh & Hp & Hpb); [|exact Hse2|by eauto|].
    { rewrite length_drop. lia. }
    eexists _, p. split; [done|]. split; [by eapply searchable_unhide|]. rewrite HP2. set_solver.
Qed.

(** ** One exclusion *)

(** The manager in batch mode: every tracked file is on disk under a name NGINX
    includes, its disabled name is free, and the rest of the files is acceptable. *)
Record isolable (cm : ConfigRollbackManager) : Prop := {
  is_tracked : ∀ p, is_Some (cm_batchFiles cm !! p) →
    isConf p ∧ is_Some (cm_files cm !! p) ∧ cm_files cm !! disabledName p = None;
  is_others : ∀ q c, isConf q → cm_batchFiles cm !! q = None → cm_files cm !! q = Some c → acceptable q c = true;
  is_snapshot : ∀ c, cm_preBatchDefaultServer cm = Some c → acceptable (defaultServerConfFilename paths) c = true
}.

Record excludes (cm : ConfigRollbackManager) (p name : string) (cm' : ConfigRollbackManager) : Prop := {
  ex_files : ∀ q, q ≠ p → cm_files cm' !! q = cm_files cm !! q;
  ex_file : cm_files cm' !! p = None ∨
            p = defaultServerConfFilename paths ∧ cm_files cm' !! p = cm_preBatchDefaultServer cm;
  ex_batch : cm_batchFiles cm' = delete p (cm_batchFiles cm);
  ex_excluded : ∃ reason, cm_batchExcluded cm' = cm_batchExcluded cm ++
    [{| be_ConfigPath := p; be_ResourceName := name; be_Error := reason |}];
  ex_snapshot : cm_preBatchDefaultServer cm' = cm_preBatchDefaultServer cm ∨
    cm_preBatchDefaultServer cm' = None ∧ p = defaultServerConfFilename paths;
  ex_mode : cm_batchMode cm' = cm_batchMode cm
}.

Lemma excludeConfig_ok cm p name reason :
  is_Some (cm_files cm !! p) → ∃ cm', excludeConfig paths cm p name reason = (cm', None) ∧ excludes cm p name cm'.
Proof.
  intros Hp. unfold excludeConfig. case_bool_decide as Hd;
    [destruct (cm_preBatchDefaultServer cm) as [snap|] eqn:Hs|].
  1: rewrite createFileAndWrite_reliable; eexists; split; [done|]; split; cbn [cm_files cm_batchFiles cm_batchExcluded
       cm_preBatchDefaultServer cm_batchMode set_files set_batchFiles set_batchExcluded set_preBatch]; eauto;
     [intros q Hq; by rewrite lookup_insert_ne|right; split; [done|]; by rewrite lookup_insert_eq, Hs].
  all: rewrite osRemove_present by done; eexists; split; [done|]; split; cbn [cm_files cm_batchFiles cm_batchExcluded
       cm_preBatchDefaultServer cm_batchMode set_files set_batchFiles set_batchExcluded set_preBatch]; eauto;
     [intros q Hq; by rewrite lookup_delete_ne|left; apply lookup_delete_eq].
Qed.

Lemma excludes_isolable cm p name cm' :
  isolable cm → cm_batchFiles cm !! p = Some name → excludes cm p name cm' → isolable cm'.
Proof.
  intros [Ht Ho Hs] Hp [Hf Hfp Hb _ Hsn _]. destruct (Ht p) as (Hc & _ & _); [by eauto|]. split.
  - intros q. rewrite Hb. intros [n [Hne Hq]%lookup_delete_Some]. destruct (Ht q) as (Hqc & Hqf & Hqd); [by eauto|].
    rewrite !Hf; [done|apply disabledName_not_conf; done|done].
  - intros q c Hq Hqb Hqf. destruct (decide (q = p)) as [->|Hne].
    + destruct Hfp as [Hfp|[Hd Hfp]]; [congruence|]. rewrite Hqf in Hfp. rewrite Hd. by apply Hs.
    + rewrite Hf in Hqf by done. rewrite Hb, lookup_delete_ne in Hqb by done. by eapply Ho.
  - intros c Hc'. destruct Hsn as [Hsn|[Hsn _]]; [apply Hs|]; congruence.
Qed.

Lemma firstTracked_spec m l : firstTracked m l = "" ∨ firstTracked m l ∈ l ∧ is_Some (m !! firstTracked m l).
Proof.
  induction l as [|q l IH]; [by left|]. simpl. case_bool_decide as Hq; [right; split; [by left|done]|].
  destruct IH as [->|[? ?]]; [by left|right]. split; [by right|done].
Qed.

Lemma isolable_searchable cm :
  isolable cm → searchable (cm_files cm) [] (candidatePaths cm) (cm_files cm).
Proof.
  intros [Ht Ho _]. assert (∀ p, p ∈ candidatePaths cm ↔ is_Some (cm_batchFiles cm !! p)) as Hc.
  { intros p. unfold candidatePaths. rewrite list_elem_of_fmap. split.
    - intros ([q n] & -> & Hin%elem_of_range). eauto.
    - intros [n Hn]. exists (p, n). by rewrite elem_of_range. }
  split; rewrite ?app_nil_r.
  - apply hidden_nil.
  - intros p Hp%Hc. by apply Ht in Hp as (? & _ & ?).
  - apply NoDup_range_keys.
  - intros q c Hq Hn. apply Ho; [done|]. rewrite Hc in Hn. by apply eq_None_not_Some.
Qed.

(** A round that finds the test failing excludes one bad tracked file. *)
Lemma isolateStep_ok cm err :
  isolable cm → testConfig cm = Some err →
  ∃ p name cm', isolateStep paths cm = (cm', None) ∧ cm_batchFiles cm !! p = Some name ∧
    badFile (cm_files cm) p ∧ excludes cm p name cm'.
Proof.
  intros His Htest. pose proof His as [Ht _ _]. unfold isolateStep. rewrite Htest.
  case_match eqn:Htier.
  - case_bool_decide as Hne; [done|]. destruct (Ht _ (mk_is_Some _ _ Htier)) as (Hc & [c Hf] & _).
    destruct (excludeConfig_ok cm (parsePathFromError (cm_batchFiles cm) err) s err) as (cm' & -> & Hex); [by eauto|].
    eexists _, _, cm'. split; [done|]. split; [done|]. split; [|done]. unfold badFile. rewrite Hf.
    destruct (firstTracked_spec (cm_batchFiles cm) (trimRightCut <$> findPaths 0 err)) as [?|[Hin _]]; [done|].
    by eapply blames.
  - clear Htier. pose proof (isolable_searchable cm His) as Hse.
    destruct (proj1 (searchable_test _ _ _ _ Hse)) as (b & Hb & Hbad); [unfold testConfig in Htest; congruence|].
    rewrite bool_decide_false by (by destruct (candidatePaths cm); [apply elem_of_nil in Hb|]).
    unfold binarySearchBadConfig.
    destruct (binarySearch_finds (length (candidatePaths cm)) _ _ _ _ (le_n _) Hse) as (fs' & p & -> & Hh & Hp & Hpb);
      [by eauto|]. apply hidden_nil_eq in Hh as ->.
    assert (set_files cm (cm_files cm) = cm) as -> by (by destruct cm).
    unfold candidatePaths in Hp. apply list_elem_of_fmap in Hp as ([p' name] & -> & Hin%elem_of_range). cbn in *.
    destruct (Ht _ (mk_is_Some _ _ Hin)) as (_ & Hf & _). rewrite Hin.
    destruct (excludeConfig_ok cm p' (default "" (Some name)) err Hf) as (cm' & -> & Hex). eauto 10.
Qed.

(** ** The whole isolation *)

Inductive exclusions : ConfigRollbackManager → list (string * string) → ConfigRollbackManager → Prop :=
  | exclusions_nil cm : exclusions cm [] cm
  | exclusions_cons cm p name cm1 l cm' :
      cm_batchFiles cm !! p = Some name → badFile (cm_files cm) p → excludes cm p name cm1 →
      exclusions cm1 l cm' → exclusions cm ((p, name) :: l) cm'.

Lemma isolateLoop_ok n iter cm :
  isolable cm → size (cm_batchFiles cm) < iter →
  ∃ l cm', isolateLoop paths n iter cm = (cm', None) ∧ exclusions cm l cm' ∧ isolable cm' ∧ testConfig cm' = None.
Proof.
  revert cm. induction iter as [|iter IH]; intros cm His Hsize; [lia|]. simpl.
  destruct (testConfig cm) as [err|] eqn:Htest.
  - destruct (isolateStep_ok cm err His Htest) as (p & name & cm1 & Hstep & Hp & Hbad & Hex). rewrite Hstep.
    destruct (IH cm1) as (l & cm' & Hl & Hexs & His' & Ht').
    + by eapply excludes_isolable.
    + apply isolateStep_size in Hstep. lia.
    + exists ((p, name) :: l), cm'. split_and!; [done| |done..]. by econstructor.
  - unfold isolateStep. rewrite Htest. eexists [], cm. split; [done|]. by split; [constructor|].
Qed.

Lemma exclusions_spec cm l cm' :
  exclusions cm l cm' →
  NoDup l.*1 ∧
  (∀ p n, (p, n) ∈ l → cm_batchFiles cm !! p = Some n ∧ badFile (cm_files cm) p ∧ cm_batchFiles cm' !! p = None ∧
     (cm_files cm' !! p = None ∨
      p = defaultServerConfFilename paths ∧ cm_files cm' !! p = cm_preBatchDefaultServer cm)) ∧
  (∀ q, q ∉ l.*1 → cm_files cm' !! q = cm_files cm !! q ∧ cm_batchFiles cm' !! q = cm_batchFiles cm !! q) ∧
  (λ x, (be_ConfigPath x, be_ResourceName x)) <$> cm_batchExcluded cm' =
    ((λ x, (be_ConfigPath x, be_ResourceName x)) <$> cm_batchExcluded cm) ++ l ∧
  cm_batchMode cm' = cm_batchMode cm.
Proof.
  induction 1 as [cm|cm p name cm1 l cm' Hp Hbad [Hf Hfp Hb [reason Hex] Hsn Hm] _ (Hnd & Hin & Hout & Hlist & Hmode)].
  { split_and!; try done; [constructor|by intros p n ?%elem_of_nil|by rewrite app_nil_r]. }
  assert (∀ q n, (q, n) ∈ l → q ≠ p) as Hne.
  { intros q n Hq ->. destruct (Hin p n Hq) as [Hq' _]. by rewrite Hb, lookup_delete_eq in Hq'. }
  assert (p ∉ l.*1) as Hpl.
  { intros ([q n] & -> & Hq)%list_elem_of_fmap. by apply (Hne q n Hq). }
  split_and!.
  - by apply NoDup_cons.
  - intros q n [[= -> ->]|Hq]%elem_of_cons.
    + destruct (Hout p Hpl) as [-> ->]. rewrite Hb, lookup_delete_eq. by split_and!.
    + pose proof (Hne q n Hq) as Hqp. destruct (Hin q n Hq) as (H1 & H2 & H3 & H4).
      rewrite Hb, lookup_delete_ne in H1 by done. unfold badFile in *. rewrite Hf in H2 by done. split_and!; try done.
      destruct H4 as [H4|[Hd H4]]; [by left|]. destruct Hsn as [Hsn|[Hsn _]]; [right|left]; by rewrite H4, Hsn.
  - intros q Hq. rewrite fmap_cons, not_elem_of_cons in Hq. destruct Hq as [Hqp Hq]. destruct (Hout q Hq) as [-> ->].
    by rewrite Hf, Hb, lookup_delete_ne.
  - by rewrite Hlist, Hex, fmap_app, <- app_assoc.
  - by rewrite Hmode.
Qed.

End Isolation.

(** ** A concrete NGINX *)

Module RollbackSample.
Definition named : string := "/etc/nginx/conf.d/named.conf".

(** Files with the contents bad are refused; the error names one of them. *)
Definition run (fs : FS) : option (string * string) :=
  if bool_decide (fs !! named = Some "bad")
  then Some ("nginx: [emerg] unknown directive in /etc/nginx/conf.d/named.conf:1", "exit status 1")
  else if bool_decide (map_Forall (λ p c, HasSuffix p ".conf" = true → c ≠ "bad") fs) then None
  else Some ("", "exit status 1").

#[export] Instance api : NginxAPI := {|
  nginxRun := run;
  reloadCommand := λ _, None;
  waitForVersion := λ _ _, None;
  readable := λ _ _, true;
  writeOutcome := λ _ _ _, WriteOk;
  removeFault := λ _ _, None;
  renameFault := λ _ _ _, None;
  atomicWriteFails := λ _ _, false
|}.
#[export] Instance api_reliable : Reliable.
Proof. by split. Qed.
#[export] Instance range_instance : MapRange := default_range.

#[export] Instance api_self_contained : SelfContained.
Proof.
  refine {| acceptable := λ _ c, negb (bool_decide (c = "bad")) |}.
  - intros fs. cbn. unfold run. split.
    + intros H p c Hp Hc. do 2 (case_bool_decide; try done).
      rewrite bool_decide_false; [done|]. by eapply (H1 p).
    + intros H. rewrite bool_decide_false; [rewrite bool_decide_true; [done|]|].
      * intros p c Hp Hc ->. by specialize (H p "bad" Hp Hc).
      * intros Hn. by specialize (H named "bad" Hn eq_refl).
  - intros fs err p c. unfold nginxTestError. cbn. unfold run. case_bool_decide as Hn.
    + intros [= <-] Hp Hc _. vm_compute in Hp. apply list_elem_of_singleton in Hp as ->.
      change (fs !! named = Some c) in Hc. rewrite Hn in Hc. by simplify_eq.
    + case_bool_decide; [done|]. intros [= <-] Hp. vm_compute in Hp. by apply elem_of_nil in Hp.
Defined.

Definition paths : LocalPaths := NewLocalManager "/etc/nginx".

(** The startup: the default server, then a batch of three files *)
Definition boot : ConfigRollbackManager :=
  EnableBatchMode paths (NewConfigRollbackManager
    {["/etc/nginx/nginx.conf" := "main"; "/etc/nginx/conf.d/_default-server.conf" := "default"]}).
Definition batchOf (l : list (string * string)) : ConfigRollbackManager :=
  default boot (foldM (λ cm e, r ← batchWriteConfig cm e.1 (getFilenameForConfig paths e.1) e.2; Some r.1) boot l).
Definition batch : ConfigRollbackManager :=
  batchOf [("cafe", "good"); ("tea", "bad"); ("named", "bad"); ("_default-server", "bad")].

Lemma batch_isolable : isolable paths batch.
Proof.
  split.
  - intros p [n Hp]. assert (map_Forall (λ p _, HasSuffix p ".conf" = true ∧ cm_files batch !! p ≠ None ∧
      cm_files batch !! disabledName p = None) (cm_batchFiles batch)) as H.
    { refine (bool_decide_eq_true_1 _ _). vm_compute. reflexivity. }
    destruct (H p n Hp) as (? & ? & ?). split; [done|]. by rewrite <- not_eq_None_Some.
  - intros q c Hq Hb Hc. assert (map_Forall (λ q c, cm_batchFiles batch !! q = None → c ≠ "bad") (cm_files batch)) as H.
    { refine (bool_decide_eq_true_1 _ _). vm_compute. reflexivity. }
    cbn. rewrite bool_decide_false; [done|]. by eapply (H q).
  - intros c Hc. vm_compute in Hc. by simplify_eq.
Qed.
End RollbackSample.

Section Witnesses.
Import RollbackSample.

Lemma validated_write_atomic_witness :
  ∃ cm' changed err, createConfigWithRollback paths boot "cafe" (getFilenameForConfig paths "cafe") "bad"
      = Some (cm', (changed, err)) ∧
    match err with
    | None => testConfig cm' = None ∧ cm_files cm' !! getFilenameForConfig paths "cafe" = Some "bad" ∧
              (∀ q, q ≠ getFilenameForConfig paths "cafe" → cm_files cm' !! q = cm_files boot !! q) ∧
              (changed = true ↔ cm_files boot !! getFilenameForConfig paths "cafe" ≠ Some "bad")
    | Some _ => changed = false ∧
                ∀ q, q ≠ configVersionFilename paths → cm_files cm' !! q = cm_files boot !! q
    end.
Proof.
  apply (validated_write_atomic paths boot "cafe"); [vm_compute; reflexivity|right].
  intros [H|H]; vm_compute in H; discriminate.
Defined.


(** The three bad files are excluded, the default server is restored. *)
Example batch_example :
  let cm' := (CompleteBatch paths batch).1 in
  length (cm_batchExcluded cm') = 3 ∧
  cm_files cm' !! "/etc/nginx/conf.d/cafe.conf" = Some "good" ∧
  cm_files cm' !! "/etc/nginx/conf.d/tea.conf" = None ∧
  cm_files cm' !! "/etc/nginx/conf.d/_default-server.conf" = Some "default".
Proof. vm_compute. done. Qed.
End Witnesses.
