(* ===== verification/SecretStore.v ===== *)
(** Secrets: validation (internal/k8s/secrets/validation.go), the store
    (internal/k8s/secrets/store.go) and the files the configurator keeps for it
    (AddOrUpdateSecret and DeleteSecret of internal/configs/configurator.go).

    Errors are their texts; [None] of a file operation is nl.Fatalf. *)
From S2P Require Import Prelude GoStrings Objects NginxManager.

Record Secret := { sec_Meta : ObjectMeta; sec_Type : string; sec_Data : gmap string string }.

Definition secretKey (s : Secret) : string := getResourceKey (sec_Meta s).

(** ** Types and data fields *)

Definition SecretTypeTLS : string := "kubernetes.io/tls".
Definition SecretTypeCA : string := "nginx.org/ca".
Definition SecretTypeJWK : string := "nginx.org/jwk".
Definition SecretTypeOIDC : string := "nginx.org/oidc".
Definition SecretTypeHtpasswd : string := "nginx.org/htpasswd".
Definition SecretTypeAPIKey : string := "nginx.org/apikey".
Definition SecretTypeLicense : string := "nginx.com/license".
Definition SecretTypeWAFBundle : string := "nginx.com/waf-bundle".

Definition JWTKeyKey : string := "jwk".
Definition CAKey : string := "ca.crt".
Definition CACrtKey : string := "ca.crt".
Definition CACrlKey : string := "ca.crl".
Definition ClientSecretKey : string := "client-secret".
Definition HtpasswdFileKey : string := "htpasswd".
Definition TLSCertKey : string := "tls.crt".
Definition TLSPrivateKeyKey : string := "tls.key".

(** secret.Data[key]: the empty value when the key is missing *)
Definition dataField (s : Secret) (key : string) : string := default "" (sec_Data s !! key).
Definition hasField (s : Secret) (key : string) : bool := bool_decide (is_Some (sec_Data s !! key)).

(** ** Validation *)

(** crypto/tls, encoding/pem and crypto/x509: errors, and the type and bytes of
    the first PEM block *)
Class CryptoAPI := {
  X509KeyPair : string → string → option string;
  pemDecode : string → option (string * string);
  ParseCertificate : string → option string
}.

(** clientSecretValueFmtRegexp: bytes other than quote, dollar, backslash and
    white space, and backslashes followed by a byte other than dollar *)
Fixpoint clientSecretValue (s : string) : bool :=
  match s with
  | EmptyString => true
  | String c rest =>
      if ceqb c 92 then
        match rest with
        | EmptyString => false
        | String d rest' => negb (ceqb d 36) && clientSecretValue rest'
        end
      else negb (existsb (ceqb c) [34; 36; 9; 10; 12; 13; 32]) && clientSecretValue rest
  end.

Section Validation.
Context `{Crypto : CryptoAPI}.

Definition ValidateTLSSecret (s : Secret) : option string :=
  if negb (bool_decide (sec_Type s = SecretTypeTLS)) then Some ("TLS Secret must be of the type " +:+ SecretTypeTLS)
  else (λ err, "failed to validate TLS cert and key: " +:+ err)
         <$> X509KeyPair (dataField s TLSCertKey) (dataField s TLSPrivateKeyKey).

(** A type that only has to hold a data field *)
Definition requireField (typ key typeError fieldError : string) (s : Secret) : option string :=
  if negb (bool_decide (sec_Type s = typ)) then Some (typeError +:+ typ)
  else if negb (hasField s key) then Some (fieldError +:+ key) else None.

Definition ValidateJWKSecret : Secret → option string :=
  requireField SecretTypeJWK JWTKeyKey "JWK secret must be of the type " "JWK secret must have the data field ".
Definition ValidateHtpasswdSecret : Secret → option string :=
  requireField SecretTypeHtpasswd HtpasswdFileKey
    "htpasswd secret must be of the type " "htpasswd secret must have the data field ".
Definition ValidateLicenseSecret : Secret → option string :=
  requireField SecretTypeLicense "license.jwt"
    "license secret must be of the type " "license secret must have the data field ".

Definition ValidateCASecret (s : Secret) : option string :=
  match requireField SecretTypeCA CAKey "CA secret must be of the type " "CA secret must have the data field " s with
  | Some err => Some err
  | None =>
      match pemDecode (dataField s CAKey) with
      | None => Some ("the data field " +:+ CAKey +:+ " must hold a valid CERTIFICATE PEM block")
      | Some (typ, bytes) =>
          if negb (bool_decide (typ = "CERTIFICATE")) then
            Some ("the data field " +:+ CAKey +:+ " must hold a valid CERTIFICATE PEM block, but got '" +:+ typ +:+ "'")
          else (λ err, "failed to validate certificate: " +:+ err) <$> ParseCertificate bytes
      end
  end.

(** The text that explains the rule of the value is not kept. *)
Definition ValidateOIDCSecret (s : Secret) : option string :=
  match requireField SecretTypeOIDC ClientSecretKey
          "OIDC secret must be of the type " "OIDC secret must have the data field " s with
  | Some err => Some err
  | None => if clientSecretValue (dataField s ClientSecretKey) then None else Some "OIDC client secret is invalid"
  end.

Context `{MR : MapRange}.

(** The loop over the API keys, with the keys seen so far *)
Fixpoint repeatedKey (uniqueKeys : gset string) (keys : list string) : bool :=
  match keys with
  | [] => false
  | key :: rest => bool_decide (key ∈ uniqueKeys) || repeatedKey ({[key]} ∪ uniqueKeys) rest
  end.
Definition ValidateAPIKeySecret (s : Secret) : option string :=
  if negb (bool_decide (sec_Type s = SecretTypeAPIKey)) then
    Some ("APIKey secret must be of the type " +:+ SecretTypeAPIKey)
  else if repeatedKey ∅ (range "ValidateAPIKeySecret" (sec_Data s)).*2
       then Some "API Keys cannot be repeated" else None.

Definition ValidateWAFBundleSecret (s : Secret) : option string :=
  if negb (bool_decide (sec_Type s = SecretTypeWAFBundle)) then
    Some ("WAF bundle secret must be of the type " +:+ SecretTypeWAFBundle)
  else if negb (hasField s "token") && negb (hasField s "username") then
    Some "WAF bundle secret must contain 'token' or 'username'+'password'"
  else if hasField s "username" && negb (hasField s "password") then
    Some "WAF bundle secret with 'username' must also contain 'password'"
  else None.

Definition IsSupportedSecretType (t : string) : bool :=
  existsb (λ u, bool_decide (t = u))
    [SecretTypeTLS; SecretTypeCA; SecretTypeJWK; SecretTypeOIDC; SecretTypeHtpasswd; SecretTypeAPIKey;
     SecretTypeLicense; SecretTypeWAFBundle].

Definition ValidateSecret (s : Secret) : option string :=
  let hasType t := bool_decide (sec_Type s = t) in
  if hasType SecretTypeTLS then ValidateTLSSecret s
  else if hasType SecretTypeJWK then ValidateJWKSecret s
  else if hasType SecretTypeCA then ValidateCASecret s
  else if hasType SecretTypeOIDC then ValidateOIDCSecret s
  else if hasType SecretTypeHtpasswd then ValidateHtpasswdSecret s
  else if hasType SecretTypeAPIKey then ValidateAPIKeySecret s
  else if hasType SecretTypeLicense then ValidateLicenseSecret s
  else if hasType SecretTypeWAFBundle then ValidateWAFBundleSecret s
  else Some ("secret is of the unsupported type " +:+ sec_Type s).
End Validation.

(** ** The store *)

(** SecretFileManager: what the store calls to write and delete files *)
Class SecretFileManager (F : Type) := {
  fm_AddOrUpdateSecret : F → Secret → option (F * string);
  fm_DeleteSecret : F → string → F
}.

Record SecretReference := { sr_Secret : option Secret; sr_Path : string; sr_Error : option string }.

(** LocalSecretStore with the files of its manager *)
Record LocalSecretStore (F : Type) := { ls_secrets : gmap string SecretReference; ls_files : F }.
Arguments ls_secrets {F}.
Arguments ls_files {F}.
Arguments Build_LocalSecretStore {F}.

Section Store.
Context `{Crypto : CryptoAPI} `{MR : MapRange} {F : Type} `{FM : !SecretFileManager F}.

Definition NewLocalSecretStore (files : F) : LocalSecretStore F := Build_LocalSecretStore ∅ files.

Definition AddOrUpdateSecret (s : LocalSecretStore F) (secret : Secret) : option (LocalSecretStore F) :=
  let key := secretKey secret in
  let path := match ls_secrets s !! key with Some ref => sr_Path ref | None => "" end in
  let err := ValidateSecret secret in
  let store files path :=
    Build_LocalSecretStore
      (<[key := {| sr_Secret := Some secret; sr_Path := path; sr_Error := err |}]> (ls_secrets s)) files in
  if bool_decide (path = "") then Some (store (ls_files s) path)
  else match err with
       | Some _ => Some (store (fm_DeleteSecret (ls_files s) key) "")
       | None => '(files, path) ← fm_AddOrUpdateSecret (ls_files s) secret; Some (store files path)
       end.

Definition StoreDeleteSecret (s : LocalSecretStore F) (key : string) : LocalSecretStore F :=
  match ls_secrets s !! key with
  | None => s
  | Some storedSecret =>
      Build_LocalSecretStore (delete key (ls_secrets s))
        (if bool_decide (sr_Path storedSecret = "") then ls_files s else fm_DeleteSecret (ls_files s) key)
  end.

Definition GetSecret (s : LocalSecretStore F) (key : string)
    : option (LocalSecretStore F * SecretReference) :=
  match ls_secrets s !! key with
  | None => Some (s, {| sr_Secret := None; sr_Path := "";
                        sr_Error := Some "secret doesn't exist or of an unsupported type" |})
  | Some ref =>
      match sr_Error ref, sr_Secret ref with
      | None, Some secret =>
          if bool_decide (sr_Path ref = "") then
            '(files, path) ← fm_AddOrUpdateSecret (ls_files s) secret;
            let ref := {| sr_Secret := Some secret; sr_Path := path; sr_Error := None |} in
            Some (Build_LocalSecretStore (<[key := ref]> (ls_secrets s)) files, ref)
          else Some (s, ref)
      | _, _ => Some (s, ref)
      end
  end.
End Store.

(** ** The configurator's files *)

Section ConfiguratorSecrets.
Context `{API : NginxAPI} (paths : LocalPaths).

(** strings.Replace(key, "/", "-", -1) *)
Definition keyToFileName (key : string) : string := Join "-" (Split slash key).
Definition objectMetaToFileName (meta : ObjectMeta) : string := om_Namespace meta +:+ "-" +:+ om_Name meta.

Definition GenerateCertAndKeyFileContent (s : Secret) : string :=
  dataField s TLSCertKey +:+ String newline "" +:+ dataField s TLSPrivateKeyKey.
Definition GenerateCAFileContent (s : Secret) : string * string := (dataField s CACrtKey, dataField s CACrlKey).

Definition AddOrUpdateCASecret (fs : FS) (s : Secret) (crtFileName crlFileName : string) : option (FS * string) :=
  let '(crtData, crlData) := GenerateCAFileContent s in
  '(fs, crtFilePath) ← CreateSecret paths fs crtFileName crtData;
  '(fs, crlFilePath) ← CreateSecret paths fs crlFileName crlData;
  Some (fs, crtFilePath +:+ " " +:+ crlFilePath).
Definition addOrUpdateJWKSecret (fs : FS) (s : Secret) : option (FS * string) :=
  CreateSecret paths fs (objectMetaToFileName (sec_Meta s)) (dataField s JWTKeyKey).
Definition addOrUpdateHtpasswdSecret (fs : FS) (s : Secret) : option (FS * string) :=
  CreateSecret paths fs (objectMetaToFileName (sec_Meta s)) (dataField s HtpasswdFileKey).
Definition addOrUpdateTLSSecret (fs : FS) (s : Secret) : option (FS * string) :=
  CreateSecret paths fs (objectMetaToFileName (sec_Meta s)) (GenerateCertAndKeyFileContent s).

Definition ConfiguratorAddOrUpdateSecret (fs : FS) (s : Secret) : option (FS * string) :=
  let hasType t := bool_decide (sec_Type s = t) in
  if hasType SecretTypeCA then
    let name := objectMetaToFileName (sec_Meta s) in
    AddOrUpdateCASecret fs s (name +:+ "-" +:+ CACrtKey) (name +:+ "-" +:+ CACrlKey)
  else if hasType SecretTypeJWK then addOrUpdateJWKSecret fs s
  else if hasType SecretTypeHtpasswd then addOrUpdateHtpasswdSecret fs s
  else if hasType SecretTypeOIDC then Some (fs, "")
  else if hasType SecretTypeAPIKey then Some (fs, "")
  else if hasType SecretTypeLicense then Some (fs, "")
  else addOrUpdateTLSSecret fs s.

Definition ConfiguratorDeleteSecret (fs : FS) (key : string) : FS := DeleteSecret paths fs (keyToFileName key).

Definition configuratorFiles : SecretFileManager FS :=
  {| fm_AddOrUpdateSecret := ConfiguratorAddOrUpdateSecret; fm_DeleteSecret := ConfiguratorDeleteSecret |}.
End ConfiguratorSecrets.
