(* ===== verification/SecretStoreCorrect.v ===== *)
(** Properties of the secret store: against the contract of a file manager it
    always serves the latest version of a secret from files that hold it; the
    configurator's files satisfy the contract for secrets whose file names differ. *)
From S2P Require Import Prelude GoStrings Objects NginxManager RollbackManager.
From S2P Require Import SecretStore.

(** ** The contract of a file manager *)

Class SecretFilesContract (F : Type) `{!SecretFileManager F} := {
  (** the files at a path hold a secret *)
  holds : F → Secret → string → Prop;
  (** the files of two keys have nothing in common *)
  independent : string → string → Prop;
  wf_secret : Secret → Prop;
  add_total : ∀ f s, is_Some (fm_AddOrUpdateSecret f s);
  add_holds : ∀ f s f' p, wf_secret s → fm_AddOrUpdateSecret f s = Some (f', p) → holds f' s p;
  add_frame : ∀ f s f' p s' p', wf_secret s → wf_secret s' → independent (secretKey s) (secretKey s') →
    fm_AddOrUpdateSecret f s = Some (f', p) → holds f s' p' → holds f' s' p';
  delete_frame : ∀ f k s' p', wf_secret s' → independent k (secretKey s') →
    holds f s' p' → holds (fm_DeleteSecret f k) s' p'
}.

Section Client.
Context `{Crypto : CryptoAPI} `{MR : MapRange} {F : Type} `{FM : !SecretFileManager F} `{SFC : !SecretFilesContract F}.

(** ** Sequences of operations, and the abstract map of secrets they describe *)

Inductive storeOp := OpAdd (s : Secret) | OpDelete (key : string) | OpGet (key : string).

Definition storeStep (st : LocalSecretStore F) (op : storeOp) : option (LocalSecretStore F) :=
  match op with
  | OpAdd s => AddOrUpdateSecret st s
  | OpDelete k => Some (StoreDeleteSecret st k)
  | OpGet k => '(st', _) ← GetSecret st k; Some st'
  end.

Definition latest (m : gmap string Secret) (op : storeOp) : gmap string Secret :=
  match op with
  | OpAdd s => <[secretKey s := s]> m
  | OpDelete k => delete k m
  | OpGet _ => m
  end.

(** Operations on well-formed secrets whose keys are in [K] *)
Definition op_in (K : list string) (op : storeOp) : Prop :=
  match op with
  | OpAdd s => wf_secret s ∧ secretKey s ∈ K
  | OpDelete k | OpGet k => k ∈ K
  end.

Definition apart (K : list string) : Prop := ∀ k k', k ∈ K → k' ∈ K → k ≠ k' → independent k k'.

(** The store implements the map [m]. *)
Definition store_ok (K : list string) (m : gmap string Secret) (st : LocalSecretStore F) : Prop :=
  (∀ k, sr_Secret <$> ls_secrets st !! k = Some <$> m !! k) ∧
  (∀ k ref s, ls_secrets st !! k = Some ref → sr_Secret ref = Some s →
     k = secretKey s ∧ k ∈ K ∧ wf_secret s ∧ sr_Error ref = ValidateSecret s ∧
     (sr_Path ref ≠ "" → sr_Error ref = None ∧ holds (ls_files st) s (sr_Path ref))).

Lemma store_ok_frame K m st k files ref s :
  store_ok K m st → k = secretKey s → k ∈ K → wf_secret s →
  sr_Secret ref = Some s → sr_Error ref = ValidateSecret s →
  (sr_Path ref ≠ "" → sr_Error ref = None ∧ holds files s (sr_Path ref)) →
  (∀ k' s' p, k' = secretKey s' → k' ∈ K → wf_secret s' → k' ≠ k → holds (ls_files st) s' p → holds files s' p) →
  store_ok K (<[k := s]> m) (Build_LocalSecretStore (<[k := ref]> (ls_secrets st)) files).
Proof.
  intros [H1 H2] Hk HK Hwf Hs He Hp Hframe. split; simpl.
  - intros k'. destruct (decide (k = k')) as [->|Hne]; [by rewrite !lookup_insert_eq; simpl; rewrite Hs|].
    by rewrite !lookup_insert_ne.
  - intros k' ref' s'. destruct (decide (k = k')) as [<-|Hne].
    + rewrite lookup_insert_eq. intros [= <-] Hs'. rewrite Hs in Hs'. simplify_eq. by split_and!.
    + rewrite lookup_insert_ne by done. intros Hl Hs'. destruct (H2 k' ref' s' Hl Hs') as (? & ? & ? & ? & Hpath).
      split_and!; try done. intros Hpne. destruct (Hpath Hpne). split; [done|]. apply (Hframe k'); auto.
Qed.

Lemma storeStep_ok K m st op :
  apart K → store_ok K m st → op_in K op → ∃ st', storeStep st op = Some st' ∧ store_ok K (latest m op) st'.
Proof.
  intros HK Hst Hop. pose proof Hst as [H1 H2]. destruct op as [s|k|k]; simpl.
  - destruct Hop as [Hwf Hin]. unfold AddOrUpdateSecret.
    set (path := match ls_secrets st !! secretKey s with Some ref => sr_Path ref | None => "" end).
    case_bool_decide as Hpath.
    { eexists; split; [done|]. eapply store_ok_frame; simpl; eauto. by rewrite Hpath. }
    destruct (ValidateSecret s) as [err|] eqn:Hv.
    + eexists; split; [done|]. eapply store_ok_frame; simpl; eauto; [done|].
      intros k' s' p -> Hk' Hwf' Hne Hh. apply delete_frame; [done|by apply HK|done].
    + destruct (add_total (ls_files st) s) as [[files p] Hadd]. rewrite Hadd. cbn.
      eexists; split; [done|]. eapply store_ok_frame; simpl; eauto.
      * intros _. split; [done|]. by eapply add_holds.
      * intros k' s' p' -> Hk' Hwf' Hne Hh. eapply (add_frame (ls_files st) s); eauto.
  - eexists; split; [done|]. unfold StoreDeleteSecret. destruct (ls_secrets st !! k) as [ref0|] eqn:Hk.
    + split; simpl.
      * intros k'. destruct (decide (k = k')) as [->|Hne]; [by rewrite !lookup_delete_eq|]. by rewrite !lookup_delete_ne.
      * intros k' ref s [Hne Hl]%lookup_delete_Some Hs. destruct (H2 k' ref s Hl Hs) as (-> & ? & ? & ? & Hp).
        split_and!; try done. intros Hpne. destruct (Hp Hpne). split; [done|]. case_bool_decide; [done|].
        apply delete_frame; [done|by apply HK|done].
    + specialize (H1 k). rewrite Hk in H1. destruct (m !! k) eqn:Hm; [done|]. by rewrite delete_id.
  - unfold GetSecret. destruct (ls_secrets st !! k) as [ref|] eqn:Hk; [|by eexists].
    destruct (sr_Error ref) eqn:He; [by eexists|]. destruct (sr_Secret ref) as [s|] eqn:Hs; [|by eexists].
    case_bool_decide as Hp; [|by eexists].
    destruct (H2 k ref s Hk Hs) as (-> & ? & ? & Hv & _).
    destruct (add_total (ls_files st) s) as [[files p] Hadd]. rewrite Hadd. cbn. eexists; split; [done|].
    assert (m = <[secretKey s := s]> m) as ->.
    { symmetry. apply insert_id. specialize (H1 (secretKey s)). rewrite Hk in H1. simpl in H1. rewrite Hs in H1.
      destruct (m !! secretKey s); simplify_eq/=; done. }
    eapply store_ok_frame; simpl; eauto; [congruence|..].
    + intros _. split; [done|]. by eapply add_holds.
    + intros k' s' p' -> Hk' Hwf' Hne Hh. eapply (add_frame (ls_files st) s); eauto.
Qed.

Lemma run_ok K ops m st :
  apart K → store_ok K m st → Forall (op_in K) ops →
  ∃ st', foldM storeStep st ops = Some st' ∧ store_ok K (foldl latest m ops) st'.
Proof.
  intros HK Hst Hops. revert m st Hst. induction Hops as [|op ops Hop _ IH]; intros m st Hst; [by eexists|].
  destruct (storeStep_ok K m st op HK Hst Hop) as (st1 & Hs & Hst1). simpl. rewrite Hs. by apply IH.
Qed.

(** C32.  The store refines a map from keys to secrets.  After any sequence of
    additions, updates, deletions and reads of secrets whose file names are apart (see
    [secret_files_collide] for two that are not), reading a key returns: an error and no path for a key that was never
    added or was deleted since, the latest secret and its validation error for an
    invalid one, and for a valid one the latest secret and a path at which the
    files hold exactly that version. *)
Theorem secret_store_serves_latest K ops files k :
  apart K → Forall (op_in K) ops → k ∈ K →
  ∃ st st' ref, foldM storeStep (NewLocalSecretStore files) ops = Some st ∧ GetSecret st k = Some (st', ref) ∧
    match foldl latest ∅ ops !! k with
    | None => sr_Secret ref = None ∧ sr_Path ref = "" ∧ sr_Error ref ≠ None
    | Some s => sr_Secret ref = Some s ∧ sr_Error ref = ValidateSecret s ∧
                match ValidateSecret s with
                | None => holds (ls_files st') s (sr_Path ref)
                | Some _ => sr_Path ref = ""
                end
    end.
Proof.
  intros HK Hops Hk. destruct (run_ok K ops ∅ (NewLocalSecretStore files) HK) as (st & Hrun & Hst); [|done|].
  { split; simpl; [done|]. intros k' ref s. by rewrite lookup_empty. }
  destruct (storeStep_ok K _ st (OpGet k) HK Hst Hk) as (st' & Hget & Hst'). simpl in Hget.
  destruct (GetSecret st k) as [[st1 ref]|] eqn:Hg; [|done]. cbn in Hget. simplify_eq.
  exists st, st', ref. split; [done|]. split; [done|]. simpl in Hst'. destruct Hst as [H1 H2], Hst' as [_ H2'].
  specialize (H1 k). unfold GetSecret in Hg. destruct (ls_secrets st !! k) as [ref0|] eqn:Hl; simpl in H1.
  2: { destruct (foldl latest ∅ ops !! k); [done|]. by simplify_eq. }
  destruct (foldl latest ∅ ops !! k) as [s|] eqn:Hm; [|done]. simpl in H1. injection H1 as Hs. rewrite Hs in Hg.
  destruct (H2 k ref0 s Hl Hs) as (_ & _ & _ & He & Hp). rewrite <- He.
  destruct (sr_Error ref0) as [e|] eqn:He0.
  - simplify_eq. split_and!; [done..|]. destruct (decide (sr_Path ref = "")) as [|Hne]; [done|]. by destruct (Hp Hne).
  - case_bool_decide as Hpath.
    + destruct (add_total (ls_files st) s) as [[files' p] Hadd]. rewrite Hadd in Hg. cbn in Hg. simplify_eq.
      split_and!; try done. simpl. eapply add_holds; [|exact Hadd].
      by destruct (H2 _ _ _ Hl Hs) as (_ & _ & ? & _).
    + simplify_eq. split_and!; [done..|]. by apply Hp.
Qed.
End Client.

(** ** Names of secret files *)

Lemma Split_concat sep s t : Split sep (s +:+ String sep t) = Split sep s ++ Split sep t.
Proof.
  induction s as [|c s IH]; simpl; [by rewrite bool_decide_true|].
  change (String.append s (String sep t)) with (s +:+ String sep t). rewrite IH.
  case_bool_decide; [done|]. destruct (Split sep s) eqn:Hs; [by apply Split_nil in Hs|done].
Qed.

Lemma prefix_nil s : String.prefix "" s = true.
Proof. by destruct s. Qed.

Definition plainSegment (a : string) : Prop :=
  containsByte slash a = false ∧ a ≠ "" ∧ a ≠ "." ∧ a ≠ "..".

Lemma cleanSegments_snoc r l a stack :
  plainSegment a → cleanSegments r (l ++ [a]) stack = cleanSegments r l stack ++ [a].
Proof.
  intros (_ & Ha1 & Ha2 & Ha3). revert stack. induction l as [|x l IH]; intros stack; simpl.
  - rewrite !bool_decide_false by done. simpl. by rewrite reverse_cons.
  - by repeat case_match.
Qed.

Lemma Join_snoc l a : Join "/" (l ++ [a]) = match l with [] => a | _ => Join "/" l +:+ "/" +:+ a end.
Proof.
  induction l as [|x l IH]; [done|]. destruct l as [|y l]; [done|].
  change (Join "/" ((x :: y :: l) ++ [a])) with (x +:+ "/" +:+ Join "/" ((y :: l) ++ [a])). rewrite IH.
  change (Join "/" (x :: y :: l)) with (x +:+ "/" +:+ Join "/" (y :: l)). by rewrite !string_app_assoc.
Qed.

(** path.Join of a directory and a plain name *)
Lemma pathJoin_plain d x :
  d ≠ "" → plainSegment x → pathJoin [d; x] =
    let body := Join "/" (cleanSegments (HasPrefix d "/") (Split slash d) [] ++ [x]) in
    if HasPrefix d "/" then "/" +:+ body else body.
Proof.
  intros Hd Hx. pose proof Hx as (Hs & Hx1 & _). unfold pathJoin.
  rewrite !filter_cons, filter_nil, !decide_True by done. cbn [Join].
  unfold pathClean. change ("/" +:+ x) with (String slash x).
  rewrite Split_concat, (Split_no_sep _ x Hs), cleanSegments_snoc by done.
  assert (HasPrefix (d +:+ String slash x) "/" = HasPrefix d "/") as ->.
  { unfold HasPrefix. destruct d as [|c d]; [done|]. simpl. case_match; [|done]. by rewrite !prefix_nil. }
  destruct (HasPrefix d "/"); [done|]. rewrite bool_decide_false; [done|]. rewrite Join_snoc.
  destruct (cleanSegments _ _ _) as [|y l]; [done|]. intros Heq%(f_equal String.length).
  rewrite !string_app_length in Heq. simpl in Heq. lia.
Qed.
(** It keeps plain names apart. *)
Lemma pathJoin_inj d a b :
  d ≠ "" → plainSegment a → plainSegment b → pathJoin [d; a] = pathJoin [d; b] → a = b.
Proof.
  intros Hd Ha Hb. rewrite (pathJoin_plain d a Hd Ha), (pathJoin_plain d b Hd Hb). cbv zeta. intros Heq.
  assert (Join "/" (cleanSegments (HasPrefix d "/") (Split slash d) [] ++ [a]) =
          Join "/" (cleanSegments (HasPrefix d "/") (Split slash d) [] ++ [b])) as Hbody.
  { destruct (HasPrefix d "/"); [by apply string_app_inj_l in Heq|done]. }
  rewrite !Join_snoc in Hbody. destruct (cleanSegments _ _ _); [done|].
  apply string_app_inj_l in Hbody. by apply (string_app_inj_l "/") in Hbody.
Qed.

(** ** The configurator's files satisfy the contract *)

Section Configurator.
Context `{API : NginxAPI} `{Rel : !Reliable} (paths : LocalPaths) (Hdir : secretsPath paths ≠ "").

#[local] Instance files_manager : SecretFileManager FS := configuratorFiles paths.

Definition secretName (s : Secret) : string := objectMetaToFileName (sec_Meta s).

(** Kubernetes names hold no slash. *)
Definition wf_meta (s : Secret) : Prop :=
  containsByte slash (om_Namespace (sec_Meta s)) = false ∧ containsByte slash (om_Name (sec_Meta s)) = false.

(** The names a key may use *)
Definition keyNames (k : string) : list string :=
  [keyToFileName k; keyToFileName k +:+ "-" +:+ CACrtKey; keyToFileName k +:+ "-" +:+ CACrlKey].

Definition disjointNames (k k' : string) : Prop :=
  plainSegment (keyToFileName k) ∧ ∀ n, n ∈ keyNames k → n ∉ keyNames k'.

(** The files of a secret: names and contents *)
Definition secretFiles (s : Secret) : list (string * string) :=
  let hasType t := bool_decide (sec_Type s = t) in
  if hasType SecretTypeCA then
    [(secretName s +:+ "-" +:+ CACrtKey, dataField s CACrtKey); (secretName s +:+ "-" +:+ CACrlKey, dataField s CACrlKey)]
  else if hasType SecretTypeJWK then [(secretName s, dataField s JWTKeyKey)]
  else if hasType SecretTypeHtpasswd then [(secretName s, dataField s HtpasswdFileKey)]
  else if hasType SecretTypeOIDC || hasType SecretTypeAPIKey || hasType SecretTypeLicense then []
  else [(secretName s, GenerateCertAndKeyFileContent s)].

Definition filesHold (fs : FS) (s : Secret) (p : string) : Prop :=
  p = Join " " ((λ e, GetFilenameForSecret paths e.1) <$> secretFiles s) ∧
  ∀ e, e ∈ secretFiles s → fs !! GetFilenameForSecret paths e.1 = Some e.2.

Lemma wf_secretName s : wf_meta s → keyToFileName (secretKey s) = secretName s.
Proof.
  intros [H1 H2]. unfold keyToFileName.
  change (secretKey s) with (FormatResourceReference (om_Namespace (sec_Meta s)) (om_Name (sec_Meta s))).
  by rewrite (Split_format _ _ H1 H2).
Qed.

Lemma plain_name s : wf_meta s → containsByte slash (secretName s) = false ∧ ∃ x y, secretName s = x +:+ "-" +:+ y.
Proof.
  intros [H1 H2]. unfold secretName, objectMetaToFileName. rewrite !containsByte_app, H1, H2. simpl. eauto.
Qed.

Lemma dashed_plain x y : containsByte slash (x +:+ "-" +:+ y) = false → plainSegment (x +:+ "-" +:+ y).
Proof.
  intros H. split; [done|]. assert (containsByte (byte_at 45) (x +:+ "-" +:+ y) = true) as Hd.
  { rewrite containsByte_app. simpl. apply orb_true_r. }
  split_and!; intros Heq; by rewrite Heq in Hd.
Qed.

Lemma secretFiles_plain s n c : wf_meta s → (n, c) ∈ secretFiles s → plainSegment n ∧ n ∈ keyNames (secretKey s).
Proof.
  intros Hwf Hin. destruct (plain_name s Hwf) as [Hs (x & y & Hn)]. unfold keyNames. rewrite wf_secretName by done.
  assert (plainSegment (secretName s)) as Hp by (rewrite Hn in Hs |- *; by apply dashed_plain).
  assert (∀ suffix, containsByte slash suffix = false → plainSegment (secretName s +:+ "-" +:+ suffix)) as Hp'.
  { intros suffix Hsuf. apply dashed_plain. by rewrite !containsByte_app, Hs, Hsuf. }
  unfold secretFiles in Hin. repeat case_match; rewrite ?elem_of_cons, ?elem_of_nil in Hin;
    destruct_or?; simplify_eq; (split; [try done; by apply Hp'|set_solver]).
Qed.

Lemma CreateSecret_reliable fs n c :
  CreateSecret paths fs n c = Some (<[GetFilenameForSecret paths n := c]> fs, GetFilenameForSecret paths n).
Proof. unfold CreateSecret, createFileAndWriteAtomically. by rewrite reliable_atomic. Qed.

(** Writing a secret writes exactly its files. *)
Lemma add_files fs s :
  ∃ fs', ConfiguratorAddOrUpdateSecret paths fs s =
    Some (fs', Join " " ((λ e, GetFilenameForSecret paths e.1) <$> secretFiles s)) ∧
    fs' = foldl (λ fs e, <[GetFilenameForSecret paths e.1 := e.2]> fs) fs (secretFiles s).
Proof.
  unfold ConfiguratorAddOrUpdateSecret, secretFiles, AddOrUpdateCASecret, addOrUpdateJWKSecret,
    addOrUpdateHtpasswdSecret, addOrUpdateTLSSecret, GenerateCAFileContent.
  repeat case_match; simplify_eq; rewrite ?CreateSecret_reliable; cbn [mbind option_bind];
    rewrite ?CreateSecret_reliable; eexists; (split; [done|done]).
Qed.

Lemma filename_inj n n' : plainSegment n → plainSegment n' →
  GetFilenameForSecret paths n = GetFilenameForSecret paths n' → n = n'.
Proof. by apply pathJoin_inj. Qed.

(** Contents after a sequence of writes *)
Lemma lookup_writes (l : list (string * string)) (fs : FS) q :
  q ∉ (λ e, GetFilenameForSecret paths e.1) <$> l →
  foldl (λ fs e, <[GetFilenameForSecret paths e.1 := e.2]> fs) fs l !! q = fs !! q.
Proof.
  revert fs. induction l as [|e l IH]; intros fs; [done|]. rewrite fmap_cons, not_elem_of_cons. intros [Hne Hq].
  simpl. rewrite IH by done. by rewrite lookup_insert_ne.
Qed.

Lemma lookup_written (l : list (string * string)) (fs : FS) e :
  NoDup ((λ e, GetFilenameForSecret paths e.1) <$> l) → e ∈ l →
  foldl (λ fs e, <[GetFilenameForSecret paths e.1 := e.2]> fs) fs l !! GetFilenameForSecret paths e.1 = Some e.2.
Proof.
  revert fs. induction l as [|e' l IH]; intros fs Hnd; [by intros ?%elem_of_nil|].
  rewrite fmap_cons in Hnd. apply NoDup_cons in Hnd as [Hn Hnd]. intros [->|He]%elem_of_cons; simpl; [|by apply IH].
  rewrite lookup_writes by done. apply lookup_insert_eq.
Qed.

Lemma secretFiles_nodup s : wf_meta s → NoDup ((λ e, GetFilenameForSecret paths e.1) <$> secretFiles s).
Proof.
  intros Hwf. assert (∀ e, e ∈ secretFiles s → plainSegment e.1) as Hp.
  { intros [n c] He. by apply (secretFiles_plain s n c). }
  assert (NoDup (secretFiles s).*1) as Hnd.
  { unfold secretFiles. repeat case_match; simpl; repeat constructor; try (by intros ?%elem_of_nil).
    intros Heq%list_elem_of_singleton. apply string_app_inj_l in Heq. done. }
  induction (secretFiles s) as [|e l IH]; [constructor|]. apply NoDup_cons in Hnd as [Hn Hnd]. constructor.
  - intros (e' & Heq & He')%list_elem_of_fmap. apply filename_inj in Heq; [|apply Hp; by left|apply Hp; by right].
    apply Hn. rewrite Heq. by apply list_elem_of_fmap_2.
  - apply IH; [|done]. intros e' He'. apply Hp. by right.
Qed.

Lemma files_apart k s' q :
  wf_meta s' → disjointNames k (secretKey s') → q ∈ keyNames k → plainSegment q →
  ∀ e, e ∈ secretFiles s' → GetFilenameForSecret paths e.1 ≠ GetFilenameForSecret paths q.
Proof.
  intros Hwf [_ Hdis] Hq Hpq [n c] He Heq. destruct (secretFiles_plain s' n c Hwf He) as [Hn Hin].
  apply filename_inj in Heq; [|done..]. simpl in Heq. subst. by apply (Hdis q).
Qed.

Definition configurator_contract : SecretFilesContract FS.
Proof.
  refine {| holds := filesHold; independent := disjointNames; wf_secret := wf_meta |}.
  - intros f s. destruct (add_files f s) as (fs' & Hadd & _). eexists. exact Hadd.
  - intros f s f' p Hwf Hadd. destruct (add_files f s) as (fs' & Hadd' & Hfs). cbn in Hadd.
    rewrite Hadd in Hadd'. simplify_eq. split; [done|]. intros e He. apply lookup_written; [|done].
    by apply secretFiles_nodup.
  - intros f s f' p s' p' Hwf Hwf' Hind Hadd [Hp Hh]. destruct (add_files f s) as (fs' & Hadd' & Hfs). cbn in Hadd.
    rewrite Hadd in Hadd'. simplify_eq. split; [done|]. intros e He. rewrite lookup_writes; [by apply Hh|].
    intros ([n c] & Heq & Hin)%list_elem_of_fmap. destruct (secretFiles_plain s n c Hwf Hin) as [Hn Hk].
    by eapply (files_apart (secretKey s)).
  - intros f k s' p' Hwf' Hind [Hp Hh]. split; [done|]. intros e He. cbn. unfold ConfiguratorDeleteSecret, DeleteSecret.
    rewrite osRemove_reliable, lookup_delete_ne; [by apply Hh|]. intros Heq.
    eapply (files_apart k s' (keyToFileName k)); eauto; [by left|apply Hind].
Defined.
End Configurator.

(** ** A concrete cluster *)

Module SecretSample.
#[export] Instance api : NginxAPI := {|
  nginxRun := λ _, None; reloadCommand := λ _, None; waitForVersion := λ _ _, None; readable := λ _ _, true;
  writeOutcome := λ _ _ _, WriteOk; removeFault := λ _ _, None; renameFault := λ _ _ _, None;
  atomicWriteFails := λ _ _, false
|}.
#[export] Instance api_reliable : Reliable.
Proof. by split. Qed.
#[export] Instance range_instance : MapRange := default_range.
#[export] Instance crypto : CryptoAPI := {|
  X509KeyPair := λ cert _, if bool_decide (cert = "") then Some "no certificate" else None;
  pemDecode := λ s, Some ("CERTIFICATE", s); ParseCertificate := λ _, None
|}.

Definition paths : LocalPaths := NewLocalManager "/etc/nginx".
#[export] Instance files : SecretFileManager FS := configuratorFiles paths.
Lemma paths_dir : secretsPath paths ≠ "".
Proof. vm_compute. discriminate. Qed.
#[export] Instance contract : SecretFilesContract FS := configurator_contract paths paths_dir.

Definition secret (ns name typ : string) (data : gmap string string) : Secret :=
  {| sec_Meta := {| om_Namespace := ns; om_Name := name; om_UID := ""; om_CreationTimestamp := 0; om_Generation := 0;
                    om_Annotations := None; om_Labels := ∅ |};
     sec_Type := typ; sec_Data := data |}.

Definition tls (cert : string) : Secret :=
  secret "default" "tls" SecretTypeTLS {["tls.crt" := cert; "tls.key" := "key"]}.
Definition ca : Secret := secret "default" "ca" SecretTypeCA {["ca.crt" := "root"]}.

Definition ops : list storeOp := [OpAdd (tls "v1"); OpAdd ca; OpGet "default/tls"; OpGet "default/ca"; OpAdd (tls "v2")].
Definition keys : list string := ["default/tls"; "default/ca"].

Lemma keys_apart : apart keys.
Proof.
  intros k k' Hk Hk' Hne. repeat (apply elem_of_cons in Hk as [->|Hk]; [|try by apply elem_of_nil in Hk]);
    repeat (apply elem_of_cons in Hk' as [->|Hk']; [|try by apply elem_of_nil in Hk']); try done;
    (split; [by split_and!|]); intros n Hn Hn'; vm_compute in Hn, Hn'; set_solver.
Qed.
End SecretSample.

Section Witnesses.
Import SecretSample.

Lemma secret_store_serves_latest_witness :
  ∃ st st' ref, foldM storeStep (NewLocalSecretStore (∅ : FS)) ops = Some st ∧
    GetSecret st "default/tls" = Some (st', ref) ∧
    match foldl latest ∅ ops !! "default/tls" with
    | None => sr_Secret ref = None ∧ sr_Path ref = "" ∧ sr_Error ref ≠ None
    | Some s => sr_Secret ref = Some s ∧ sr_Error ref = ValidateSecret s ∧
                match ValidateSecret s with
                | None => holds (ls_files st') s (sr_Path ref)
                | Some _ => sr_Path ref = ""
                end
    end.
Proof.
  apply (secret_store_serves_latest keys); [apply keys_apart| |by left].
  repeat constructor.
Defined.

(** Secrets of two namespaces share a file: what one reads is the other's. *)
Example secret_files_collide :
  keyToFileName "a-b/c" = keyToFileName "a/b-c" ∧
  match foldM storeStep (NewLocalSecretStore (∅ : FS))
          [OpAdd (secret "a-b" "c" SecretTypeJWK {["jwk" := "first"]}); OpGet "a-b/c";
           OpAdd (secret "a" "b-c" SecretTypeJWK {["jwk" := "second"]}); OpGet "a/b-c"] with
  | Some st => sr_Path <$> ls_secrets st !! "a-b/c" = Some "/etc/nginx/secrets/a-b-c" ∧
               ls_files st !! "/etc/nginx/secrets/a-b-c" = Some "second"
  | None => False
  end.
Proof. vm_compute. done. Qed.

(** The files of a CA secret stay on disk when it is deleted. *)
Example ca_files_left_behind :
  match foldM storeStep (NewLocalSecretStore (∅ : FS)) [OpAdd ca; OpGet "default/ca"; OpDelete "default/ca"] with
  | Some st => ls_secrets st = ∅ ∧ ls_files st !! "/etc/nginx/secrets/default-ca-ca.crt" = Some "root"
  | None => False
  end.
Proof. vm_compute. done. Qed.
End Witnesses.
