(* ===== verification/PolicyConfig.v ===== *)
(** Policy configuration, first part (internal/configs/policy.go, common.go,
    and scaleRatelimit of ingress.go): names, rate limits, caching, CORS and
    API keys.  Each function computes a piece of the configuration of a server
    or a location from a policy that passed validation. *)
From Stdlib Require Import SpecFloat.
From S2P Require Import Prelude GoStrings Regex Objects ProxyBuffers Directives ParsingHelpers.
From S2P Require Import CommonValidation HostValidation PolicyObjects PolicyValues Version2.
From S2P Require Import NginxManager SecretStore.

(** ** Strings *)

(** [strings.ReplaceAll(s, old, new)] for a one-byte [old] *)
Fixpoint ReplaceAll (s : string) (old : Ascii.ascii) (new : string) : string :=
  match s with
  | EmptyString => EmptyString
  | String c s' => (if Ascii.eqb c old then new else String c "") +:+ ReplaceAll s' old new
  end.

Definition dash : Ascii.ascii := byte_at 45.
Definition dollar : Ascii.ascii := byte_at 36.
Definition plusSign : Ascii.ascii := byte_at 43.
Definition quoted (s : string) : string := String dquote "" +:+ s +:+ String dquote "".

(** unicode.ToLower beyond ASCII *)
Class UnicodeLower := { unicodeLower : Z → Z }.
(** [strings.ToLower]: the bytes of an ASCII string, the runes of another *)
Definition StringsToLower `{UnicodeLower} (s : string) : string :=
  if forallBytes (λ c, Nat.ltb (Ascii.nat_of_ascii c) 128) s then ProxyBuffers.ToLower s
  else Join "" ((λ r, if (r <? 128)%Z then ProxyBuffers.ToLower (encodeRune r)
                      else encodeRune (unicodeLower r)) <$> runesOf s).

Definition rfc1123ToSnake (rfc1123String : string) : string := ReplaceAll rfc1123String dash "_".

(** escapeNginxString of common.go *)
Definition escapeNginxString (value : string) : string :=
  ReplaceAll (ReplaceAll value backslash (String backslash (String backslash ""))) dquote escapedQuote.

(** [regexp.QuoteMeta]: the bytes \.+*?()|[]{}^$ get a backslash *)
Definition metaBytes : list nat := [92; 46; 43; 42; 63; 40; 41; 124; 91; 93; 123; 125; 94; 36].
Fixpoint QuoteMeta (s : string) : string :=
  match s with
  | EmptyString => EmptyString
  | String c s' =>
      if existsb (ceqb c) metaBytes then String backslash (String c (QuoteMeta s'))
      else String c (QuoteMeta s')
  end.

(** base64.URLEncoding without padding *)
Definition base64URLChar (n : Z) : Ascii.ascii :=
  byteOf (if (n <? 26)%Z then 65 + n else if (n <? 52)%Z then 71 + n else if (n <? 62)%Z then n - 4
          else if (n =? 62)%Z then 45 else 95)%Z.
Fixpoint base64URL (s : string) : string :=
  match s with
  | String a (String b (String c s')) =>
      let '(a, b, c) := (byteVal a, byteVal b, byteVal c) in
      String (base64URLChar (a / 4)) (String (base64URLChar (a mod 4 * 16 + b / 16))
        (String (base64URLChar (b mod 16 * 4 + c / 64)) (String (base64URLChar (c mod 64)) (base64URL s'))))
  | String a (String b EmptyString) =>
      let '(a, b) := (byteVal a, byteVal b) in
      String (base64URLChar (a / 4)) (String (base64URLChar (a mod 4 * 16 + b / 16))
        (String (base64URLChar (b mod 16 * 4)) ""))
  | String a EmptyString =>
      String (base64URLChar (byteVal a / 4)) (String (base64URLChar (byteVal a mod 4 * 16)) "")
  | EmptyString => ""
  end%Z.

(** ** Values with defaults (virtualserver.go) *)

Definition generateString (s defaultS : string) : string := if bool_decide (s = "") then defaultS else s.
Definition generateBool (s : option bool) (defaultS : bool) : bool := default defaultS s.
Definition generateIntFromPointer (n : option Z) (defaultN : Z) : Z := default defaultN n.

(** ** What the code asks its environment *)
Class PolicyLib := {
  (** hex.EncodeToString of the SHA-256 digest of a text *)
  sha256Hex : string → string;
  (** the error of os.Stat *)
  os_Stat : string → option string;
  (** [int(f)] for an f that int64 cannot hold, which Go leaves to the platform *)
  intOutOfRange : Z
}.

(** ** Who references a policy *)
Record policyOwnerDetails := {
  (** the identity of the owner object, the key of its warnings *)
  od_owner : nat;
  od_ownerName : string;
  od_ownerNamespace : string;
  od_parentNamespace : string;
  od_parentName : string;
  od_parentType : string
}.

Definition parentPrefix (od : policyOwnerDetails) : string :=
  od_parentNamespace od +:+ "_" +:+ od_parentName od +:+ "_" +:+ od_parentType od.
Definition ownerIsParent (od : policyOwnerDetails) : bool :=
  bool_decide (od_parentNamespace od = od_ownerNamespace od)
  && bool_decide (od_parentName od = od_ownerName od).

Section Generators.
Context `{UL : URLLib} `{LT : UnicodeLower} `{PL : PolicyLib} `{MR : MapRange}.

(** ** Rates *)

(** float64 arithmetic: 53 bits of significand, exponents below 1024 *)
Definition float64OfInt (n : Z) : spec_float := binary_normalize 53 1024 n 0 false.
(** [int(f)]: towards zero *)
Definition intOfFloat64 (f : spec_float) : Z :=
  match f with
  | S754_zero _ => 0
  | S754_finite s m e =>
      let t := if (0 <=? e)%Z then (Zpos m * 2 ^ e)%Z else (Zpos m / 2 ^ (- e))%Z in
      let n := if s then (- t)%Z else t in
      if ((- 2 ^ 63 <=? n) && (n <? 2 ^ 63))%Z then n else intOutOfRange
  | _ => intOutOfRange
  end%Z.

Definition scaleRatelimit (ratelimit : string) (replicas : Z) : string :=
  if (replicas <? 1)%Z then ratelimit
  else match FindStringSubmatch rateRegexp ratelimit with
  | Some [m1; unit] =>
      match Atoi m1 with
      | None => ratelimit
      | Some number =>
          let numberf := SFdiv 53 1024 (float64OfInt number) (float64OfInt replicas) in
          if bool_decide (unit = "r/s") && SFltb numberf (float64OfInt 1)
          then fmtInt (intOfFloat64 (SFmul 53 1024 numberf (float64OfInt 60))) +:+ "r/m"
          else fmtInt (intOfFloat64 numberf) +:+ unit
      end
  | _ => ratelimit
  end.

(** ** Rate limiting *)

Definition generateLimitReq (zoneName : string) (rateLimitPol : RateLimit) : LimitReqCfg :=
  let noDelay := generateBool (rl_NoDelay rateLimitPol) false in
  {| lr_ZoneName := zoneName;
     lr_Burst := default 0%Z (rl_Burst rateLimitPol);
     lr_NoDelay := noDelay;
     lr_Delay := if noDelay then 0%Z else default 0%Z (rl_Delay rateLimitPol) |}.

Definition scaleWarning (policy : Policy) : string :=
  "Policy " +:+ om_Namespace (pol_Meta policy) +:+ "/" +:+ om_Name (pol_Meta policy)
  +:+ ": both zone sync and rate limit scale are enabled, the rate limit scale value will not be used.".

(** the zone and the text to log, for the policy and its rate limit *)
Definition generateLimitReqZone (zoneName : string) (policy : Policy) (rateLimitPol : RateLimit)
    (podReplicas : Z) (zoneSync : bool) : LimitReqZoneCfg * string :=
  let '(rate, warningText) :=
    if rl_Scale rateLimitPol then
      if zoneSync then (rl_Rate rateLimitPol, scaleWarning policy)
      else (scaleRatelimit (rl_Rate rateLimitPol) podReplicas, "")
    else (rl_Rate rateLimitPol, "") in
  ({| lrz_Key := rl_Key rateLimitPol; lrz_ZoneName := zoneName;
      lrz_ZoneSize := rl_ZoneSize rateLimitPol; lrz_Rate := rate;
      lrz_GroupValue := ""; lrz_GroupVariable := ""; lrz_PolicyValue := ""; lrz_PolicyResult := "";
      lrz_GroupDefault := false; lrz_GroupSource := ""; lrz_Sync := zoneSync |}, warningText).

Definition generateAuthJwtClaimSetVariable (claim : string) (od : policyOwnerDetails) : string :=
  ReplaceAll ("$jwt_" +:+ parentPrefix od +:+ "_" +:+ Join "_" (Split dot claim)) dash "_".
Definition generateAuthJwtClaimSetClaim (claim : string) : string := Join " " (Split dot claim).
Definition generateAuthJwtClaimSet (c : JWTCondition) (od : policyOwnerDetails) : AuthJWTClaimSetCfg :=
  {| ajcs_Variable := generateAuthJwtClaimSetVariable (jc_Claim c) od;
     ajcs_Claim := generateAuthJwtClaimSetClaim (jc_Claim c) |}.

(** the fields of a zone that put it in a group *)
Definition groupZone (lrz : LimitReqZoneCfg) (value policyValue variable source result : string)
    (dflt : bool) : LimitReqZoneCfg :=
  {| lrz_Key := rfc1123ToSnake ("$" +:+ lrz_ZoneName lrz); lrz_ZoneName := lrz_ZoneName lrz;
     lrz_ZoneSize := lrz_ZoneSize lrz; lrz_Rate := lrz_Rate lrz;
     lrz_GroupValue := value; lrz_GroupVariable := variable; lrz_PolicyValue := policyValue;
     lrz_PolicyResult := result; lrz_GroupDefault := dflt; lrz_GroupSource := source;
     lrz_Sync := lrz_Sync lrz |}.

Definition generateGroupedLimitReqZone (zoneName : string) (policy : Policy) (rateLimitPol : RateLimit)
    (podReplicas : Z) (od : policyOwnerDetails) (zoneSync : bool) (context path : string)
    : LimitReqZoneCfg * string :=
  let '(lrz, warningText) := generateLimitReqZone zoneName policy rateLimitPol podReplicas zoneSync in
  let encPath := base64URL path in
  let key := rl_Key rateLimitPol in
  let lrz1 :=
    match rl_Condition rateLimitPol with
    | Some c =>
        match rlc_JWT c with
        | Some jwt =>
            groupZone lrz (jc_Match jwt)
              ("rl_" +:+ parentPrefix od +:+ "_match_" +:+ StringsToLower (jc_Match jwt))
              (rfc1123ToSnake ("$rl_" +:+ parentPrefix od +:+ "_group_"
                 +:+ StringsToLower (Join "_" (Split dot (jc_Claim jwt))) +:+ "_" +:+ context +:+ "_" +:+ encPath))
              (generateAuthJwtClaimSetVariable (jc_Claim jwt) od) key (rlc_Default c)
        | None => lrz
        end
    | None => lrz
    end in
  let lrz2 :=
    match rl_Condition rateLimitPol with
    | Some c =>
        match rlc_Variables c with
        | Some (variable :: _) =>
            groupZone lrz1 (quoted (vc_Match variable))
              (rfc1123ToSnake ("rl_" +:+ parentPrefix od +:+ "_match_"
                 +:+ StringsToLower (om_Name (pol_Meta policy))))
              (rfc1123ToSnake ("$rl_" +:+ parentPrefix od +:+ "_variable_"
                 +:+ ReplaceAll (vc_Name variable) dollar "" +:+ "_" +:+ context +:+ "_" +:+ encPath))
              (vc_Name variable) key (rlc_Default c)
        | _ => lrz1
        end
    | None => lrz1
    end in
  (lrz2, warningText).

Definition addGroupParameters (m : gmap string MapCfg) (lrz : LimitReqZoneCfg) : gmap string MapCfg :=
  if bool_decide (lrz_GroupVariable lrz = "") then m
  else
    let own := {| pm_Value := lrz_GroupValue lrz; pm_Result := lrz_PolicyValue lrz |} in
    let dflt := if lrz_GroupDefault lrz
                then [{| pm_Value := "default"; pm_Result := lrz_PolicyValue lrz |}] else [] in
    let earlier := from_option mp_Parameters [] (m !! lrz_GroupVariable lrz) in
    <[lrz_GroupVariable lrz :=
        {| mp_Source := lrz_GroupSource lrz; mp_Variable := lrz_GroupVariable lrz;
           mp_Parameters := own :: dflt ++ earlier |}]> m.
Definition generateLRZGroupMaps (rlzs : list LimitReqZoneCfg) : gmap string MapCfg :=
  foldl addGroupParameters ∅ rlzs.

Definition generateLRZPolicyGroupMap (lrz : LimitReqZoneCfg) : MapCfg :=
  {| mp_Source := lrz_GroupVariable lrz;
     mp_Variable := "$" +:+ rfc1123ToSnake (lrz_ZoneName lrz);
     mp_Parameters := [{| pm_Value := "default"; pm_Result := "''" |};
                       {| pm_Value := lrz_PolicyValue lrz; pm_Result := "Val" +:+ lrz_PolicyResult lrz |}] |}.

Definition generateLimitReqOptions (rateLimitPol : RateLimit) : LimitReqOptionsCfg :=
  {| lro_DryRun := generateBool (rl_DryRun rateLimitPol) false;
     lro_LogLevel := generateString (rl_LogLevel rateLimitPol) "error";
     lro_RejectCode := generateIntFromPointer (rl_RejectCode rateLimitPol) 503 |}.

Definition hasDuplicateMapDefaults (m : MapCfg) : bool :=
  Nat.ltb 1 (length (filter (λ p, pm_Value p = "default") (mp_Parameters m))).

(** ** API keys *)
Record apiKeyClient := { akc_ClientID : string; akc_HashedKey : string }.
Definition generateAPIKeyClients (secretData : gmap string string) : list apiKeyClient :=
  (λ '(clientID, apiKey), {| akc_ClientID := clientID; akc_HashedKey := sha256Hex apiKey |})
    <$> range "generateAPIKeyClients" secretData.

(** ** Caching *)
Definition generateCacheConfig (cache : Cache) (od : policyOwnerDetails) : CacheCfg :=
  let uniqueZoneName :=
    if ownerIsParent od then parentPrefix od +:+ "_" +:+ cache_CacheZoneName cache
    else parentPrefix od +:+ "_" +:+ od_ownerNamespace od +:+ "_" +:+ od_ownerName od
         +:+ "_" +:+ cache_CacheZoneName cache in
  let addCode valid code :=
    if bool_decide (cache_Time cache = "") then valid
    else match code with
         | FromString s => <[s := cache_Time cache]> valid
         | FromInt n => <[fmtInt n := cache_Time cache]> valid
         end in
  {| vcache_ZoneName := uniqueZoneName;
     vcache_ZoneSize := cache_CacheZoneSize cache;
     vcache_Levels := cache_Levels cache;
     vcache_Inactive := cache_Inactive cache;
     vcache_UseTempPath := cache_UseTempPath cache;
     vcache_MaxSize := cache_MaxSize cache;
     vcache_MinFree := cache_MinFree cache;
     vcache_ManagerFiles := cache_Manager cache ≫= cman_Files;
     vcache_ManagerSleep := from_option cman_Sleep "" (cache_Manager cache);
     vcache_ManagerThreshold := from_option cman_Threshold "" (cache_Manager cache);
     vcache_CacheKey := generateString (cache_CacheKey cache) "$scheme$proxy_host$request_uri";
     vcache_OverrideUpstreamCache := cache_OverrideUpstreamCache cache;
     vcache_Time := cache_Time cache;
     vcache_Valid := foldl addCode ∅ (cache_AllowedCodes cache);
     vcache_AllowedMethods := cache_AllowedMethods cache;
     vcache_CacheUseStale := cache_CacheUseStale cache;
     vcache_CacheRevalidate := cache_CacheRevalidate cache;
     vcache_CacheBackgroundUpdate := cache_CacheBackgroundUpdate cache;
     vcache_CacheMinUses := cache_CacheMinUses cache;
     vcache_CachePurgeAllow := cache_CachePurgeAllow cache;
     vcache_CacheLock := from_option clock_Enable false (cache_Lock cache);
     vcache_CacheLockTimeout := from_option clock_Timeout "" (cache_Lock cache);
     vcache_CacheLockAge := from_option clock_Age "" (cache_Lock cache);
     vcache_NoCacheConditions := from_option ccond_NoCache [] (cache_Conditions cache);
     vcache_CacheBypassConditions := from_option ccond_Bypass [] (cache_Conditions cache) |}.

(** ** CORS *)
Definition generateCORSVariableName (polKey : string) (od : policyOwnerDetails) : string :=
  let parent := rfc1123ToSnake (od_parentNamespace od) +:+ "_" +:+ rfc1123ToSnake (od_parentName od)
                +:+ "_" +:+ rfc1123ToSnake (od_parentType od) in
  let owner := if ownerIsParent od then ""
    else "_" +:+ rfc1123ToSnake (od_ownerNamespace od) +:+ "_" +:+ rfc1123ToSnake (od_ownerName od) in
  let '(polNamespace, polName, ok) := Cut slash polKey in
  if negb ok || bool_decide (polNamespace = "") || bool_decide (polName = "")
  then "cors_origin_" +:+ parent +:+ owner
  else "cors_origin_" +:+ parent +:+ owner
       +:+ "_" +:+ rfc1123ToSnake polNamespace +:+ "_" +:+ rfc1123ToSnake polName.

Definition isWildcardOrigin (origin : string) : bool :=
  if bool_decide (origin = "*") then false
  else match url_Parse origin with
  | inl _ => false
  | inr u =>
      if negb (bool_decide (url_Scheme u = "http")) && negb (bool_decide (url_Scheme u = "https")) then false
      else if bool_decide (url_Host u = "") then false
      else HasPrefix (url_Host u) "*."
  end.

Definition buildOriginRegex (origin : string) : string :=
  if bool_decide (origin = "*") then origin
  else match url_Parse origin with
  | inl _ => origin
  | inr u =>
      if negb (bool_decide (url_Scheme u = "http")) && negb (bool_decide (url_Scheme u = "https")) then origin
      else if bool_decide (url_Host u = "") then origin
      else if negb (HasPrefix (url_Host u) "*.") then origin
      else "~^" +:+ QuoteMeta (url_Scheme u +:+ "://") +:+ "[^.]+" +:+ String backslash "."
           +:+ QuoteMeta (dropBytes 2 (url_Host u)) +:+ "$"
  end.

Definition originParameter (origin : string) : list ParameterCfg :=
  if bool_decide (origin = "") then []
  else if isWildcardOrigin origin
  then [{| pm_Value := buildOriginRegex origin; pm_Result := "$http_origin" |}]
  else [{| pm_Value := quoted (escapeNginxString origin); pm_Result := escapeNginxString origin |}].
Definition generateCORSOriginMap (origins : list string) (variableName : string) : MapCfg :=
  {| mp_Source := "$http_origin";
     mp_Variable := "$" +:+ variableName;
     mp_Parameters := {| pm_Value := "default"; pm_Result := quoted "" |}
                      :: (origins ≫= originParameter) |}.

Definition alwaysHeader (name value : string) : AddHeaderCfg :=
  {| ah_Header := {| hd_Name := name; hd_Value := value |}; ah_Always := true |}.
Definition joinedHeader (name : string) (values : list string) : list AddHeaderCfg :=
  match values with
  | [] => []
  | _ => [alwaysHeader name (escapeNginxString (Join ", " values))]
  end.
Definition generateCORSHeaders (cors : CORS) (originValue : string) : list AddHeaderCfg :=
  let hasOriginValidation :=
    negb (bool_decide (cors_AllowOrigin cors = [])) && negb (bool_decide (cors_AllowOrigin cors = ["*"])) in
  (if hasOriginValidation then [alwaysHeader "Vary" "Origin"] else [])
  ++ (if bool_decide (originValue = "") then [] else [alwaysHeader "Access-Control-Allow-Origin" originValue])
  ++ joinedHeader "Access-Control-Allow-Methods" (cors_AllowMethods cors)
  ++ joinedHeader "Access-Control-Allow-Headers" (cors_AllowHeaders cors)
  ++ match cors_AllowCredentials cors with
     | Some b => [alwaysHeader "Access-Control-Allow-Credentials" (if b then "true" else "false")]
     | None => []
     end
  ++ joinedHeader "Access-Control-Expose-Headers" (cors_ExposeHeaders cors)
  ++ match cors_MaxAge cors with
     | Some n => [alwaysHeader "Access-Control-Max-Age" (fmtInt n)]
     | None => []
     end.

(** ** App Protect bundles *)
Definition FetchedBundleFilename (ns name suffix : string) : string :=
  "fetched_" +:+ ns +:+ "_" +:+ name +:+ "_" +:+ suffix +:+ ".tgz".
End Generators.

(** The configuration that the policies of one context (a server, a route)
    add up to: policiesCfg and the structs it holds (internal/configs/policy.go),
    the options of its generation, validationResults (validation_results.go) and
    Warnings (warnings.go).

    policiesCfg's Context (which carries the logger) and BundleValidator, set
    once, are left out: the validator is an argument of the operations. *)

(** ** Results of an operation *)
Record validationResults := { vr_isError : bool; vr_warnings : list string }.
Definition newValidationResults : validationResults := {| vr_isError := false; vr_warnings := [] |}.
Definition addWarningf (msg : string) (res : validationResults) : validationResults :=
  {| vr_isError := vr_isError res; vr_warnings := vr_warnings res ++ [msg] |}.
Definition setError (res : validationResults) : validationResults :=
  {| vr_isError := true; vr_warnings := vr_warnings res |}.

(** Warnings by the identity of the object they are about *)
Notation Warnings := (gmap nat (list string)).
Definition AddWarning (w : Warnings) (obj : nat) (msg : string) : Warnings :=
  <[obj := default [] (w !! obj) ++ [msg]]> w.

(** ** The configuration *)
Record rateLimitCfg := {
  rlcfg_Reqs : list LimitReqCfg;
  rlcfg_Zones : list LimitReqZoneCfg;
  rlcfg_GroupMaps : list MapCfg;
  rlcfg_PolicyGroupMaps : list MapCfg;
  rlcfg_Options : LimitReqOptionsCfg;
  rlcfg_AuthJWTClaimSets : list AuthJWTClaimSetCfg
}.
Record jwtAuthCfg := {
  jac_Auth : option JWTAuthCfg;
  jac_List : gmap string JWTAuthCfg;
  jac_JWKSEnabled : bool
}.
Record apiKeyAuth := {
  aka_Enabled : bool;
  aka_Key : option APIKeyCfg;
  aka_Clients : list apiKeyClient;
  aka_ClientMap : gmap string (list apiKeyClient)
}.
Record policiesCfg := {
  pc_Allow : list string;
  pc_Deny : list string;
  pc_RateLimit : rateLimitCfg;
  pc_JWTAuth : jwtAuthCfg;
  pc_ExternalAuth : option ExternalAuthCfg;
  pc_BasicAuth : option BasicAuthCfg;
  pc_IngressMTLS : option IngressMTLSCfg;
  pc_EgressMTLS : option EgressMTLSCfg;
  pc_OIDC : option OIDCCfg;
  pc_OIDCProvider : option OIDCProviderCfg;
  pc_APIKey : apiKeyAuth;
  pc_WAF : option WAFCfg;
  pc_Wallarm : option WallarmCfg;
  pc_Cache : option CacheCfg;
  pc_CORSHeaders : list AddHeaderCfg;
  pc_CORSMap : option MapCfg;
  pc_HSTS : option HSTSCfg;
  pc_ErrorReturn : option ReturnCfg
}.

(** assignment to a field *)
Definition set_Allow (v : list string) (p : policiesCfg) : policiesCfg :=
  {| pc_Allow := v; pc_Deny := pc_Deny p; pc_RateLimit := pc_RateLimit p; pc_JWTAuth := pc_JWTAuth p;
     pc_ExternalAuth := pc_ExternalAuth p; pc_BasicAuth := pc_BasicAuth p;
     pc_IngressMTLS := pc_IngressMTLS p; pc_EgressMTLS := pc_EgressMTLS p; pc_OIDC := pc_OIDC p;
     pc_OIDCProvider := pc_OIDCProvider p; pc_APIKey := pc_APIKey p; pc_WAF := pc_WAF p;
     pc_Wallarm := pc_Wallarm p; pc_Cache := pc_Cache p; pc_CORSHeaders := pc_CORSHeaders p;
     pc_CORSMap := pc_CORSMap p; pc_HSTS := pc_HSTS p; pc_ErrorReturn := pc_ErrorReturn p |}.
Definition set_Deny (v : list string) (p : policiesCfg) : policiesCfg :=
  {| pc_Allow := pc_Allow p; pc_Deny := v; pc_RateLimit := pc_RateLimit p; pc_JWTAuth := pc_JWTAuth p;
     pc_ExternalAuth := pc_ExternalAuth p; pc_BasicAuth := pc_BasicAuth p;
     pc_IngressMTLS := pc_IngressMTLS p; pc_EgressMTLS := pc_EgressMTLS p; pc_OIDC := pc_OIDC p;
     pc_OIDCProvider := pc_OIDCProvider p; pc_APIKey := pc_APIKey p; pc_WAF := pc_WAF p;
     pc_Wallarm := pc_Wallarm p; pc_Cache := pc_Cache p; pc_CORSHeaders := pc_CORSHeaders p;
     pc_CORSMap := pc_CORSMap p; pc_HSTS := pc_HSTS p; pc_ErrorReturn := pc_ErrorReturn p |}.
Definition set_RateLimit (v : rateLimitCfg) (p : policiesCfg) : policiesCfg :=
  {| pc_Allow := pc_Allow p; pc_Deny := pc_Deny p; pc_RateLimit := v; pc_JWTAuth := pc_JWTAuth p;
     pc_ExternalAuth := pc_ExternalAuth p; pc_BasicAuth := pc_BasicAuth p;
     pc_IngressMTLS := pc_IngressMTLS p; pc_EgressMTLS := pc_EgressMTLS p; pc_OIDC := pc_OIDC p;
     pc_OIDCProvider := pc_OIDCProvider p; pc_APIKey := pc_APIKey p; pc_WAF := pc_WAF p;
     pc_Wallarm := pc_Wallarm p; pc_Cache := pc_Cache p; pc_CORSHeaders := pc_CORSHeaders p;
     pc_CORSMap := pc_CORSMap p; pc_HSTS := pc_HSTS p; pc_ErrorReturn := pc_ErrorReturn p |}.
Definition set_JWTAuth (v : jwtAuthCfg) (p : policiesCfg) : policiesCfg :=
  {| pc_Allow := pc_Allow p; pc_Deny := pc_Deny p; pc_RateLimit := pc_RateLimit p; pc_JWTAuth := v;
     pc_ExternalAuth := pc_ExternalAuth p; pc_BasicAuth := pc_BasicAuth p;
     pc_IngressMTLS := pc_IngressMTLS p; pc_EgressMTLS := pc_EgressMTLS p; pc_OIDC := pc_OIDC p;
     pc_OIDCProvider := pc_OIDCProvider p; pc_APIKey := pc_APIKey p; pc_WAF := pc_WAF p;
     pc_Wallarm := pc_Wallarm p; pc_Cache := pc_Cache p; pc_CORSHeaders := pc_CORSHeaders p;
     pc_CORSMap := pc_CORSMap p; pc_HSTS := pc_HSTS p; pc_ErrorReturn := pc_ErrorReturn p |}.
Definition set_ExternalAuth (v : option ExternalAuthCfg) (p : policiesCfg) : policiesCfg :=
  {| pc_Allow := pc_Allow p; pc_Deny := pc_Deny p; pc_RateLimit := pc_RateLimit p;
     pc_JWTAuth := pc_JWTAuth p; pc_ExternalAuth := v; pc_BasicAuth := pc_BasicAuth p;
     pc_IngressMTLS := pc_IngressMTLS p; pc_EgressMTLS := pc_EgressMTLS p; pc_OIDC := pc_OIDC p;
     pc_OIDCProvider := pc_OIDCProvider p; pc_APIKey := pc_APIKey p; pc_WAF := pc_WAF p;
     pc_Wallarm := pc_Wallarm p; pc_Cache := pc_Cache p; pc_CORSHeaders := pc_CORSHeaders p;
     pc_CORSMap := pc_CORSMap p; pc_HSTS := pc_HSTS p; pc_ErrorReturn := pc_ErrorReturn p |}.
Definition set_BasicAuth (v : option BasicAuthCfg) (p : policiesCfg) : policiesCfg :=
  {| pc_Allow := pc_Allow p; pc_Deny := pc_Deny p; pc_RateLimit := pc_RateLimit p;
     pc_JWTAuth := pc_JWTAuth p; pc_ExternalAuth := pc_ExternalAuth p; pc_BasicAuth := v;
     pc_IngressMTLS := pc_IngressMTLS p; pc_EgressMTLS := pc_EgressMTLS p; pc_OIDC := pc_OIDC p;
     pc_OIDCProvider := pc_OIDCProvider p; pc_APIKey := pc_APIKey p; pc_WAF := pc_WAF p;
     pc_Wallarm := pc_Wallarm p; pc_Cache := pc_Cache p; pc_CORSHeaders := pc_CORSHeaders p;
     pc_CORSMap := pc_CORSMap p; pc_HSTS := pc_HSTS p; pc_ErrorReturn := pc_ErrorReturn p |}.
Definition set_IngressMTLS (v : option IngressMTLSCfg) (p : policiesCfg) : policiesCfg :=
  {| pc_Allow := pc_Allow p; pc_Deny := pc_Deny p; pc_RateLimit := pc_RateLimit p;
     pc_JWTAuth := pc_JWTAuth p; pc_ExternalAuth := pc_ExternalAuth p; pc_BasicAuth := pc_BasicAuth p;
     pc_IngressMTLS := v; pc_EgressMTLS := pc_EgressMTLS p; pc_OIDC := pc_OIDC p;
     pc_OIDCProvider := pc_OIDCProvider p; pc_APIKey := pc_APIKey p; pc_WAF := pc_WAF p;
     pc_Wallarm := pc_Wallarm p; pc_Cache := pc_Cache p; pc_CORSHeaders := pc_CORSHeaders p;
     pc_CORSMap := pc_CORSMap p; pc_HSTS := pc_HSTS p; pc_ErrorReturn := pc_ErrorReturn p |}.
Definition set_EgressMTLS (v : option EgressMTLSCfg) (p : policiesCfg) : policiesCfg :=
  {| pc_Allow := pc_Allow p; pc_Deny := pc_Deny p; pc_RateLimit := pc_RateLimit p;
     pc_JWTAuth := pc_JWTAuth p; pc_ExternalAuth := pc_ExternalAuth p; pc_BasicAuth := pc_BasicAuth p;
     pc_IngressMTLS := pc_IngressMTLS p; pc_EgressMTLS := v; pc_OIDC := pc_OIDC p;
     pc_OIDCProvider := pc_OIDCProvider p; pc_APIKey := pc_APIKey p; pc_WAF := pc_WAF p;
     pc_Wallarm := pc_Wallarm p; pc_Cache := pc_Cache p; pc_CORSHeaders := pc_CORSHeaders p;
     pc_CORSMap := pc_CORSMap p; pc_HSTS := pc_HSTS p; pc_ErrorReturn := pc_ErrorReturn p |}.
Definition set_OIDC (v : option OIDCCfg) (p : policiesCfg) : policiesCfg :=
  {| pc_Allow := pc_Allow p; pc_Deny := pc_Deny p; pc_RateLimit := pc_RateLimit p;
     pc_JWTAuth := pc_JWTAuth p; pc_ExternalAuth := pc_ExternalAuth p; pc_BasicAuth := pc_BasicAuth p;
     pc_IngressMTLS := pc_IngressMTLS p; pc_EgressMTLS := pc_EgressMTLS p; pc_OIDC := v;
     pc_OIDCProvider := pc_OIDCProvider p; pc_APIKey := pc_APIKey p; pc_WAF := pc_WAF p;
     pc_Wallarm := pc_Wallarm p; pc_Cache := pc_Cache p; pc_CORSHeaders := pc_CORSHeaders p;
     pc_CORSMap := pc_CORSMap p; pc_HSTS := pc_HSTS p; pc_ErrorReturn := pc_ErrorReturn p |}.
Definition set_OIDCProvider (v : option OIDCProviderCfg) (p : policiesCfg) : policiesCfg :=
  {| pc_Allow := pc_Allow p; pc_Deny := pc_Deny p; pc_RateLimit := pc_RateLimit p;
     pc_JWTAuth := pc_JWTAuth p; pc_ExternalAuth := pc_ExternalAuth p; pc_BasicAuth := pc_BasicAuth p;
     pc_IngressMTLS := pc_IngressMTLS p; pc_EgressMTLS := pc_EgressMTLS p; pc_OIDC := pc_OIDC p;
     pc_OIDCProvider := v; pc_APIKey := pc_APIKey p; pc_WAF := pc_WAF p; pc_Wallarm := pc_Wallarm p;
     pc_Cache := pc_Cache p; pc_CORSHeaders := pc_CORSHeaders p; pc_CORSMap := pc_CORSMap p;
     pc_HSTS := pc_HSTS p; pc_ErrorReturn := pc_ErrorReturn p |}.
Definition set_APIKey (v : apiKeyAuth) (p : policiesCfg) : policiesCfg :=
  {| pc_Allow := pc_Allow p; pc_Deny := pc_Deny p; pc_RateLimit := pc_RateLimit p;
     pc_JWTAuth := pc_JWTAuth p; pc_ExternalAuth := pc_ExternalAuth p; pc_BasicAuth := pc_BasicAuth p;
     pc_IngressMTLS := pc_IngressMTLS p; pc_EgressMTLS := pc_EgressMTLS p; pc_OIDC := pc_OIDC p;
     pc_OIDCProvider := pc_OIDCProvider p; pc_APIKey := v; pc_WAF := pc_WAF p; pc_Wallarm := pc_Wallarm p;
     pc_Cache := pc_Cache p; pc_CORSHeaders := pc_CORSHeaders p; pc_CORSMap := pc_CORSMap p;
     pc_HSTS := pc_HSTS p; pc_ErrorReturn := pc_ErrorReturn p |}.
Definition set_WAF (v : option WAFCfg) (p : policiesCfg) : policiesCfg :=
  {| pc_Allow := pc_Allow p; pc_Deny := pc_Deny p; pc_RateLimit := pc_RateLimit p;
     pc_JWTAuth := pc_JWTAuth p; pc_ExternalAuth := pc_ExternalAuth p; pc_BasicAuth := pc_BasicAuth p;
     pc_IngressMTLS := pc_IngressMTLS p; pc_EgressMTLS := pc_EgressMTLS p; pc_OIDC := pc_OIDC p;
     pc_OIDCProvider := pc_OIDCProvider p; pc_APIKey := pc_APIKey p; pc_WAF := v;
     pc_Wallarm := pc_Wallarm p; pc_Cache := pc_Cache p; pc_CORSHeaders := pc_CORSHeaders p;
     pc_CORSMap := pc_CORSMap p; pc_HSTS := pc_HSTS p; pc_ErrorReturn := pc_ErrorReturn p |}.
Definition set_Wallarm (v : option WallarmCfg) (p : policiesCfg) : policiesCfg :=
  {| pc_Allow := pc_Allow p; pc_Deny := pc_Deny p; pc_RateLimit := pc_RateLimit p;
     pc_JWTAuth := pc_JWTAuth p; pc_ExternalAuth := pc_ExternalAuth p; pc_BasicAuth := pc_BasicAuth p;
     pc_IngressMTLS := pc_IngressMTLS p; pc_EgressMTLS := pc_EgressMTLS p; pc_OIDC := pc_OIDC p;
     pc_OIDCProvider := pc_OIDCProvider p; pc_APIKey := pc_APIKey p; pc_WAF := pc_WAF p; pc_Wallarm := v;
     pc_Cache := pc_Cache p; pc_CORSHeaders := pc_CORSHeaders p; pc_CORSMap := pc_CORSMap p;
     pc_HSTS := pc_HSTS p; pc_ErrorReturn := pc_ErrorReturn p |}.
Definition set_Cache (v : option CacheCfg) (p : policiesCfg) : policiesCfg :=
  {| pc_Allow := pc_Allow p; pc_Deny := pc_Deny p; pc_RateLimit := pc_RateLimit p;
     pc_JWTAuth := pc_JWTAuth p; pc_ExternalAuth := pc_ExternalAuth p; pc_BasicAuth := pc_BasicAuth p;
     pc_IngressMTLS := pc_IngressMTLS p; pc_EgressMTLS := pc_EgressMTLS p; pc_OIDC := pc_OIDC p;
     pc_OIDCProvider := pc_OIDCProvider p; pc_APIKey := pc_APIKey p; pc_WAF := pc_WAF p;
     pc_Wallarm := pc_Wallarm p; pc_Cache := v; pc_CORSHeaders := pc_CORSHeaders p;
     pc_CORSMap := pc_CORSMap p; pc_HSTS := pc_HSTS p; pc_ErrorReturn := pc_ErrorReturn p |}.
Definition set_CORSHeaders (v : list AddHeaderCfg) (p : policiesCfg) : policiesCfg :=
  {| pc_Allow := pc_Allow p; pc_Deny := pc_Deny p; pc_RateLimit := pc_RateLimit p;
     pc_JWTAuth := pc_JWTAuth p; pc_ExternalAuth := pc_ExternalAuth p; pc_BasicAuth := pc_BasicAuth p;
     pc_IngressMTLS := pc_IngressMTLS p; pc_EgressMTLS := pc_EgressMTLS p; pc_OIDC := pc_OIDC p;
     pc_OIDCProvider := pc_OIDCProvider p; pc_APIKey := pc_APIKey p; pc_WAF := pc_WAF p;
     pc_Wallarm := pc_Wallarm p; pc_Cache := pc_Cache p; pc_CORSHeaders := v; pc_CORSMap := pc_CORSMap p;
     pc_HSTS := pc_HSTS p; pc_ErrorReturn := pc_ErrorReturn p |}.
Definition set_CORSMap (v : option MapCfg) (p : policiesCfg) : policiesCfg :=
  {| pc_Allow := pc_Allow p; pc_Deny := pc_Deny p; pc_RateLimit := pc_RateLimit p;
     pc_JWTAuth := pc_JWTAuth p; pc_ExternalAuth := pc_ExternalAuth p; pc_BasicAuth := pc_BasicAuth p;
     pc_IngressMTLS := pc_IngressMTLS p; pc_EgressMTLS := pc_EgressMTLS p; pc_OIDC := pc_OIDC p;
     pc_OIDCProvider := pc_OIDCProvider p; pc_APIKey := pc_APIKey p; pc_WAF := pc_WAF p;
     pc_Wallarm := pc_Wallarm p; pc_Cache := pc_Cache p; pc_CORSHeaders := pc_CORSHeaders p;
     pc_CORSMap := v; pc_HSTS := pc_HSTS p; pc_ErrorReturn := pc_ErrorReturn p |}.
Definition set_HSTS (v : option HSTSCfg) (p : policiesCfg) : policiesCfg :=
  {| pc_Allow := pc_Allow p; pc_Deny := pc_Deny p; pc_RateLimit := pc_RateLimit p;
     pc_JWTAuth := pc_JWTAuth p; pc_ExternalAuth := pc_ExternalAuth p; pc_BasicAuth := pc_BasicAuth p;
     pc_IngressMTLS := pc_IngressMTLS p; pc_EgressMTLS := pc_EgressMTLS p; pc_OIDC := pc_OIDC p;
     pc_OIDCProvider := pc_OIDCProvider p; pc_APIKey := pc_APIKey p; pc_WAF := pc_WAF p;
     pc_Wallarm := pc_Wallarm p; pc_Cache := pc_Cache p; pc_CORSHeaders := pc_CORSHeaders p;
     pc_CORSMap := pc_CORSMap p; pc_HSTS := v; pc_ErrorReturn := pc_ErrorReturn p |}.
Definition set_ErrorReturn (v : option ReturnCfg) (p : policiesCfg) : policiesCfg :=
  {| pc_Allow := pc_Allow p; pc_Deny := pc_Deny p; pc_RateLimit := pc_RateLimit p;
     pc_JWTAuth := pc_JWTAuth p; pc_ExternalAuth := pc_ExternalAuth p; pc_BasicAuth := pc_BasicAuth p;
     pc_IngressMTLS := pc_IngressMTLS p; pc_EgressMTLS := pc_EgressMTLS p; pc_OIDC := pc_OIDC p;
     pc_OIDCProvider := pc_OIDCProvider p; pc_APIKey := pc_APIKey p; pc_WAF := pc_WAF p;
     pc_Wallarm := pc_Wallarm p; pc_Cache := pc_Cache p; pc_CORSHeaders := pc_CORSHeaders p;
     pc_CORSMap := pc_CORSMap p; pc_HSTS := pc_HSTS p; pc_ErrorReturn := v |}.

Definition newPoliciesConfig : policiesCfg :=
  {| pc_Allow := []; pc_Deny := [];
     pc_RateLimit := {| rlcfg_Reqs := []; rlcfg_Zones := []; rlcfg_GroupMaps := [];
                        rlcfg_PolicyGroupMaps := [];
                        rlcfg_Options := {| lro_DryRun := false; lro_LogLevel := ""; lro_RejectCode := 0 |};
                        rlcfg_AuthJWTClaimSets := [] |};
     pc_JWTAuth := {| jac_Auth := None; jac_List := ∅; jac_JWKSEnabled := false |};
     pc_ExternalAuth := None; pc_BasicAuth := None; pc_IngressMTLS := None; pc_EgressMTLS := None;
     pc_OIDC := None; pc_OIDCProvider := None;
     pc_APIKey := {| aka_Enabled := false; aka_Key := None; aka_Clients := []; aka_ClientMap := ∅ |};
     pc_WAF := None; pc_Wallarm := None; pc_Cache := None; pc_CORSHeaders := []; pc_CORSMap := None;
     pc_HSTS := None; pc_ErrorReturn := None |}.

(** ** Options *)

(** validate of bundleValidator: the path of a bundle and the error of reading it *)
Definition bundleValidator : Type := string → string * option string.
Definition internalBundleValidator `{PolicyLib} (bundlePath : string) : bundleValidator :=
  λ bundle, let bundle := pathJoin [bundlePath; bundle] in (bundle, os_Stat bundle).

Record appProtectPolicyResources := {
  apr_Policies : gmap string string;
  apr_LogConfs : gmap string string
}.

Record oidcNativeLocationOwner := { lo_provider : string; lo_role : string }.
#[export] Instance oidcNativeLocationOwner_eq_dec : EqDecision oidcNativeLocationOwner.
Proof. solve_decision. Defined.
Definition ownerString (o : oidcNativeLocationOwner) : string := lo_provider o +:+ ":" +:+ lo_role o.

Definition oidcNativeRoleCallback : string := "callback".
Definition oidcNativeRoleProxy : string := "proxy".
Definition oidcNativeRolePostLogout : string := "post-logout".
Definition oidcNJSRoleReserved : string := "njs-reserved".
Definition oidcNJSOwner : string := "njs".

(** oidcNativeLocations, a map that the contexts of one server share: [None] is
    the nil map.  It is passed from operation to operation. *)
Definition LocationRegistry : Type := option (gmap string oidcNativeLocationOwner).
Definition claimant (locs : LocationRegistry) (path : string) : option oidcNativeLocationOwner :=
  locs ≫= (.!! path).

(** The other options.  A reference of [secretRefs] is never a nil pointer, and
    the callers always pass an apResources. *)
Record policyOptions := {
  po_tls : bool;
  po_zoneSync : bool;
  po_secretRefs : gmap string SecretReference;
  po_apResources : appProtectPolicyResources;
  po_defaultCABundle : string;
  po_replicas : Z;
  po_oidcPolicyName : string;
  po_oidcConfig : option OIDCCfg;
  po_plmEnabled : bool
}.

Definition specContext : string := "spec".
Definition DefaultSecretPath : string := "/etc/nginx/secrets".
Definition defaultLogOutput : string := "syslog:server=localhost:514".
Definition DefaultSigninRedirectBasePath : string := "/oauth2".
Definition oidcNativePostLogoutMessage : string := "You have been logged out." +:+ String newline "".
