(* ===== verification/PolicyConfigAdd.v ===== *)
(** Policy configuration, second part (internal/configs/policy.go): one operation
    per kind of policy, which adds the policy to the configuration of its context,
    and [generatePolicies], which runs them over the references of the context.

    [None] is a panic: a nil pointer, or an index out of range.  What is written to
    the log is left out.  Two maps are shared with the caller and written: the
    registry of OIDC locations, and the policies, because addWAFConfig writes
    securityLogs of the policy object it reads. *)
From S2P Require Import Prelude GoStrings Objects ProxyBuffers HostValidation PolicyObjects.
From S2P Require Import PolicyValues NginxManager SecretStore Version2 PolicyConfig.

Definition failWith (msg : string) : validationResults := setError (addWarningf msg newValidationResults).
Definition warnWith (msg : string) : validationResults := addWarningf msg newValidationResults.

(** ** Secrets *)
Definition secretTypeOf (ref : SecretReference) : string := from_option sec_Type "" (sr_Secret ref).

(** The check of a reference: its secret has the wanted type, and no error.  A
    reference without a secret has no type to compare. *)
Definition secretProblem (what polKey key want invalid : string) (ref : SecretReference) : option string :=
  let secretType := secretTypeOf ref in
  if negb (bool_decide (secretType = "")) && negb (bool_decide (secretType = want))
  then Some (what +:+ " policy " +:+ polKey +:+ " references a secret " +:+ key +:+ " of a wrong type '"
             +:+ secretType +:+ "', must be '" +:+ want +:+ "'")
  else (λ err, invalid +:+ err) <$> sr_Error ref.

(** The path of a CA bundle, which a CRL path may follow *)
Definition firstField (path dflt : string) : string := default dflt (head (Fields path)).

Definition keyOf (namespace name : string) : string := namespace +:+ "/" +:+ name.

Definition IsPolicySupportedOnIngress (pol : Policy) : bool :=
  let s := pol_Spec pol in
  bool_decide (is_Some (ps_AccessControl s)) || bool_decide (is_Some (ps_CORS s))
  || bool_decide (is_Some (ps_ExternalAuth s)) || bool_decide (is_Some (ps_IngressMTLS s))
  || bool_decide (is_Some (ps_EgressMTLS s)) || bool_decide (is_Some (ps_WAF s))
  || bool_decide (is_Some (ps_OIDCNative s)).

Section Operations.
Context `{UL : URLLib} `{LT : UnicodeLower} `{PL : PolicyLib} `{MR : MapRange}.
Implicit Types p : policiesCfg.

(** ** Access control *)
Definition addAccessControlConfig (accessControl : AccessControl) p : policiesCfg * validationResults :=
  let p1 := set_Allow (pc_Allow p ++ default [] (ac_Allow accessControl)) p in
  let p2 := set_Deny (pc_Deny p1 ++ default [] (ac_Deny accessControl)) p1 in
  (p2, if Nat.ltb 0 (length (pc_Allow p2)) && Nat.ltb 0 (length (pc_Deny p2))
       then warnWith "AccessControl policy (or policies) with deny rules is overridden by policy (or policies) with allow rules"
       else newValidationResults).

(** ** Rate limiting *)
Definition overridden (polKey option cur first : string) (differs : bool) (res : validationResults)
    : validationResults :=
  if differs
  then addWarningf ("RateLimit policy " +:+ polKey +:+ " with limit request option " +:+ option +:+ "='" +:+ cur
         +:+ "' is overridden to " +:+ option +:+ "='" +:+ first
         +:+ "' by the first policy reference in this context") res
  else res.
Definition fmtBool (b : bool) : string := if b then "true" else "false".

Definition rateLimitZoneName (policy : Policy) (od : policyOwnerDetails) (zoneSync : bool) : string :=
  let name := rfc1123ToSnake ("pol_rl_" +:+ om_Namespace (pol_Meta policy) +:+ "_" +:+ om_Name (pol_Meta policy)
                              +:+ "_" +:+ parentPrefix od) in
  if zoneSync then name +:+ "_sync" else name.

Definition addRateLimitConfig (policy : Policy) (rateLimit : RateLimit) (od : policyOwnerDetails)
    (podReplicas : Z) (zoneSync : bool) (context path : string) p : policiesCfg * validationResults :=
  let polKey := keyOf (om_Namespace (pol_Meta policy)) (om_Name (pol_Meta policy)) in
  let rlZoneName := rateLimitZoneName policy od zoneSync in
  let rl := pc_RateLimit p in
  let '(zone, policyGroupMaps, claimSets) :=
    match rl_Condition rateLimit with
    | Some condition =>
        let lrz := (generateGroupedLimitReqZone rlZoneName policy rateLimit podReplicas od zoneSync context path).1 in
        (lrz, [generateLRZPolicyGroupMap lrz],
         match rlc_JWT condition with
         | Some jwt => if bool_decide (jc_Claim jwt = "") || bool_decide (jc_Match jwt = "") then []
                       else [generateAuthJwtClaimSet jwt od]
         | None => []
         end)
    | None => ((generateLimitReqZone rlZoneName policy rateLimit podReplicas zoneSync).1, [], [])
    end in
  let reqs := rlcfg_Reqs rl ++ [generateLimitReq rlZoneName rateLimit] in
  let curOptions := generateLimitReqOptions rateLimit in
  let options := if Nat.eqb (length reqs) 1 then curOptions else rlcfg_Options rl in
  (set_RateLimit
     {| rlcfg_Reqs := reqs;
        rlcfg_Zones := rlcfg_Zones rl ++ [zone];
        rlcfg_GroupMaps := rlcfg_GroupMaps rl;
        rlcfg_PolicyGroupMaps := rlcfg_PolicyGroupMaps rl ++ policyGroupMaps;
        rlcfg_Options := options;
        rlcfg_AuthJWTClaimSets := rlcfg_AuthJWTClaimSets rl ++ claimSets |} p,
   overridden polKey "rejectCode" (fmtInt (lro_RejectCode curOptions)) (fmtInt (lro_RejectCode options))
     (negb (lro_RejectCode curOptions =? lro_RejectCode options)%Z)
   (overridden polKey "logLevel" (lro_LogLevel curOptions) (lro_LogLevel options)
     (negb (bool_decide (lro_LogLevel curOptions = lro_LogLevel options)))
   (overridden polKey "dryRun" (fmtBool (lro_DryRun curOptions)) (fmtBool (lro_DryRun options))
     (negb (eqb (lro_DryRun curOptions) (lro_DryRun options))) newValidationResults))).

(** ** JWT *)
Definition set_Auth (auth : JWTAuthCfg) (jwks : bool) p : policiesCfg :=
  set_JWTAuth {| jac_Auth := Some auth; jac_List := jac_List (pc_JWTAuth p);
                 jac_JWKSEnabled := jwks || jac_JWKSEnabled (pc_JWTAuth p) |} p.
Definition noJwksURI : JwksURICfg :=
  {| jwks_JwksScheme := ""; jwks_JwksHost := ""; jwks_JwksPort := ""; jwks_JwksPath := "";
     jwks_JwksSNIName := ""; jwks_JwksSNIEnabled := false; jwks_SSLVerify := false;
     jwks_TrustedCert := ""; jwks_SSLVerifyDepth := 0 |}.

(** The trusted certificate of a policy: a message, or its path.  [dflt] is the
    path used when the reference's own is empty. *)
Definition trustedCertPath (what polKey key dflt : string) (secretRefs : gmap string SecretReference)
    : string + string :=
  match secretRefs !! key with
  | None => inl (what +:+ " policy " +:+ polKey +:+ " references a non-existent trusted cert secret " +:+ key)
  | Some ref =>
      match secretProblem what polKey key SecretTypeCA
        (what +:+ " policy " +:+ polKey +:+ " references an invalid trusted cert secret " +:+ key +:+ ": ") ref with
      | Some msg => inl msg
      | None => inr (firstField (sr_Path ref) dflt)
      end
  end.

Definition addJWTAuthConfig (jwtAuth : JWTAuth) (polKey polNamespace : string)
    (secretRefs : gmap string SecretReference) p : option (policiesCfg * validationResults) :=
  match jac_Auth (pc_JWTAuth p) with
  | Some _ => Some (p, warnWith ("Multiple jwt policies in the same context is not valid. JWT policy " +:+ polKey +:+ " will be ignored"))
  | None =>
      if negb (bool_decide (jwt_Secret jwtAuth = "")) then
        let jwtSecretKey := keyOf polNamespace (jwt_Secret jwtAuth) in
        secretRef ← secretRefs !! jwtSecretKey;
        match secretProblem "JWT" polKey jwtSecretKey SecretTypeJWK
          ("JWT policy " +:+ polKey +:+ " references an invalid secret " +:+ jwtSecretKey +:+ ": ") secretRef with
        | Some msg => Some (p, failWith msg)
        | None =>
            Some (set_Auth {| vjwt_Key := ""; vjwt_Secret := sr_Path secretRef; vjwt_Realm := jwt_Realm jwtAuth;
                              vjwt_Token := jwt_Token jwtAuth; vjwt_KeyCache := ""; vjwt_JwksURI := noJwksURI |} false p,
                  newValidationResults)
        end
      else if negb (bool_decide (jwt_JwksURI jwtAuth = "")) then
        let trusted :=
          if jwt_SSLVerify jwtAuth && negb (bool_decide (jwt_TrustedCertSecret jwtAuth = ""))
          then trustedCertPath "JWT" polKey (keyOf polNamespace (jwt_TrustedCertSecret jwtAuth)) "" secretRefs
          else inr "" in
        match trusted with
        | inl msg => Some (p, failWith msg)
        | inr trustedCert =>
            match url_Parse (jwt_JwksURI jwtAuth) with
            | inl _ => None
            | inr uri =>
                Some (set_Auth
                        {| vjwt_Key := polKey; vjwt_Secret := ""; vjwt_Realm := jwt_Realm jwtAuth;
                           vjwt_Token := jwt_Token jwtAuth; vjwt_KeyCache := jwt_KeyCache jwtAuth;
                           vjwt_JwksURI :=
                             {| jwks_JwksScheme := url_Scheme uri; jwks_JwksHost := url_Hostname uri;
                                jwks_JwksPort := url_Port uri; jwks_JwksPath := url_Path uri;
                                jwks_JwksSNIName := jwt_SNIName jwtAuth;
                                jwks_JwksSNIEnabled := jwt_SNIEnabled jwtAuth;
                                jwks_SSLVerify := jwt_SSLVerify jwtAuth;
                                jwks_TrustedCert := trustedCert;
                                jwks_SSLVerifyDepth := default 1%Z (jwt_SSLVerifyDepth jwtAuth) |} |} true p,
                      newValidationResults)
            end
        end
      else Some (p, newValidationResults)
  end.

(** ** External authentication *)
Definition set_SSL (verify : bool) (depth : Z) (trustedCert sniName : string) (ea : ExternalAuthCfg) : ExternalAuthCfg :=
  {| vea_URI := vea_URI ea; vea_SigninURL := vea_SigninURL ea; vea_Snippets := vea_Snippets ea;
     vea_ServicePorts := vea_ServicePorts ea; vea_SigninRedirectBasePath := vea_SigninRedirectBasePath ea;
     vea_SSLEnabled := vea_SSLEnabled ea; vea_SSLVerify := verify; vea_SSLVerifyDepth := depth;
     vea_SSLTrustedCert := trustedCert; vea_SNIName := sniName |}.

(** writes the SSL fields of p.ExternalAuth, here [ea] *)
Definition configureExternalAuthSSL (externalAuth : ExternalAuth) (polKey polNamespace : string)
    (secretRefs : gmap string SecretReference) (policyOpts : policyOptions) (ea : ExternalAuthCfg)
    : ExternalAuthCfg * validationResults :=
  let sslVerifyDepth := default 1%Z (ea_SSLVerifyDepth externalAuth) in
  let trusted :=
    if negb (bool_decide (ea_TrustedCertSecret externalAuth = "")) then
      let '(secretNS, secretName) := ParseResourceReference (ea_TrustedCertSecret externalAuth) polNamespace in
      trustedCertPath "ExternalAuth" polKey (keyOf secretNS secretName) (po_defaultCABundle policyOpts) secretRefs
    else inr (po_defaultCABundle policyOpts) in
  match trusted with
  | inl msg => (set_SSL true sslVerifyDepth (vea_SSLTrustedCert ea) (vea_SNIName ea) ea, failWith msg)
  | inr trustedCert =>
      let sniName :=
        if negb (bool_decide (ea_SNIName externalAuth = "")) then ea_SNIName externalAuth
        else let '(svcNs, svcName) := ParseServiceReference (ea_AuthServiceName externalAuth) polNamespace in
             svcName +:+ "." +:+ svcNs +:+ ".svc" in
      (set_SSL true sslVerifyDepth trustedCert sniName ea, newValidationResults)
  end.

Definition addExternalAuthConfig (externalAuth : ExternalAuth) (polKey polNamespace polName : string)
    (secretRefs : gmap string SecretReference) (policyOpts : policyOptions) (od : policyOwnerDetails) p
    : policiesCfg * validationResults :=
  match pc_ExternalAuth p with
  | Some _ => (p, warnWith ("Multiple external auth policies in the same context is not valid. External auth policy "
                            +:+ polNamespace +:+ "/" +:+ polName +:+ " will be ignored"))
  | None =>
      let upstreamName :=
        if bool_decide (od_parentType od = "ing")
        then "ing_" +:+ od_parentNamespace od +:+ "_" +:+ od_parentName od +:+ "_exauth_" +:+ polNamespace +:+ "_" +:+ polName
        else od_parentType od +:+ "_exauth_" +:+ polNamespace +:+ "_" +:+ polName in
      let signin := negb (bool_decide (ea_AuthSigninURI externalAuth = "")) in
      let ea :=
        {| vea_URI := Some {| auri_Service := ea_AuthServiceName externalAuth; auri_Upstream := upstreamName;
                              auri_Port := ""; auri_Path := ea_AuthURI externalAuth;
                              auri_InternalPath := "/_external_auth" +:+ ea_AuthURI externalAuth |};
           vea_SigninURL := ea_AuthSigninURI externalAuth;
           vea_Snippets := ea_AuthSnippets externalAuth;
           vea_ServicePorts := ea_AuthServicePorts externalAuth;
           vea_SigninRedirectBasePath :=
             if signin then generateString (ea_AuthSigninRedirectBasePath externalAuth) DefaultSigninRedirectBasePath
             else "";
           vea_SSLEnabled := ea_SSLEnabled externalAuth;
           vea_SSLVerify := false; vea_SSLVerifyDepth := 0; vea_SSLTrustedCert := ""; vea_SNIName := "" |} in
      if ea_SSLEnabled externalAuth && ea_SSLVerify externalAuth then
        let '(ea', sslRes) := configureExternalAuthSSL externalAuth polKey polNamespace secretRefs policyOpts ea in
        (set_ExternalAuth (Some ea') p, sslRes)
      else (set_ExternalAuth (Some ea) p, newValidationResults)
  end.

(** ** Basic authentication *)
Definition addBasicAuthConfig (basicAuth : BasicAuth) (polKey polNamespace : string)
    (secretRefs : gmap string SecretReference) p : option (policiesCfg * validationResults) :=
  match pc_BasicAuth p with
  | Some _ => Some (p, warnWith ("Multiple basic auth policies in the same context is not valid. Basic auth policy "
                                 +:+ polKey +:+ " will be ignored"))
  | None =>
      let basicSecretKey := keyOf polNamespace (ba_Secret basicAuth) in
      secretRef ← secretRefs !! basicSecretKey;
      match secretProblem "Basic Auth" polKey basicSecretKey SecretTypeHtpasswd
        ("Basic Auth policy " +:+ polKey +:+ " references an invalid secret " +:+ basicSecretKey +:+ ": ") secretRef with
      | Some msg => Some (p, failWith msg)
      | None => Some (set_BasicAuth (Some {| vba_Secret := sr_Path secretRef; vba_Realm := ba_Realm basicAuth |}) p,
                      newValidationResults)
      end
  end.

(** ** Mutual TLS *)

(** The key that %q prints has no character to escape. *)
Definition addIngressMTLSConfig (ingressMTLS : IngressMTLS) (polKey polNamespace context : string) (tls : bool)
    (secretRefs : gmap string SecretReference) p : option (policiesCfg * validationResults) :=
  if negb (bool_decide (context = specContext))
  then Some (p, failWith ("IngressMTLS policy " +:+ polKey +:+ " is not allowed in the " +:+ context +:+ " context"))
  else if negb tls then Some (p, failWith ("TLS must be enabled for IngressMTLS policy " +:+ polKey))
  else match pc_IngressMTLS p with
  | Some _ => Some (p, warnWith ("Multiple ingressMTLS policies are not allowed. IngressMTLS policy "
                                 +:+ polKey +:+ " will be ignored"))
  | None =>
      let secretKey := keyOf polNamespace (im_ClientCertSecret ingressMTLS) in
      match secretRefs !! secretKey with
      | None => Some (p, failWith ("IngressMTLS policy " +:+ quoted polKey +:+ " references a non-existent secret " +:+ secretKey))
      | Some secretRef =>
          match secretProblem "IngressMTLS" polKey secretKey SecretTypeCA
            ("IngressMTLS policy " +:+ quoted polKey +:+ " references an invalid secret " +:+ secretKey +:+ ": ") secretRef with
          | Some msg => Some (p, failWith msg)
          | None =>
              let verifyDepth := default 1%Z (im_VerifyDepth ingressMTLS) in
              let verifyClient := generateString (im_VerifyClient ingressMTLS) "on" in
              let caFields := Fields (sr_Path secretRef) in
              secret ← sr_Secret secretRef;
              let hasCrlKey := bool_decide (is_Some (sec_Data secret !! CACrlKey)) in
              let hasFile := negb (bool_decide (im_CrlFileName ingressMTLS = "")) in
              let res := if hasCrlKey && hasFile
                then warnWith ("Both ca.crl in the Secret and ingressMTLS.crlFileName fields cannot be used. ca.crl in "
                               +:+ secretKey +:+ " will be ignored and " +:+ polKey +:+ " will be applied")
                else newValidationResults in
              clientCert ← caFields !! 0;
              clientCrl ← (if hasFile then Some (pathJoin [DefaultSecretPath; Base (im_CrlFileName ingressMTLS)])
                           else if hasCrlKey then caFields !! 1
                           else Some "");
              Some (set_IngressMTLS (Some {| vim_ClientCert := clientCert; vim_ClientCrl := clientCrl;
                                             vim_VerifyClient := verifyClient; vim_VerifyDepth := verifyDepth |}) p, res)
          end
      end
  end.

(** one of the two secrets of an EgressMTLS policy: a message, or its path *)
Definition egressSecret (name polKey polNamespace want : string) (secretRefs : gmap string SecretReference)
    : string + string :=
  if bool_decide (name = "") then inr ""
  else
    let key := keyOf polNamespace name in
    let invalid := "EgressMTLS policy " +:+ polKey +:+ " references an invalid secret " +:+ key +:+ ": " in
    match secretRefs !! key with
    | None => inl (invalid +:+ "secret doesn't exist")
    | Some secretRef =>
        match secretProblem "EgressMTLS" polKey key want invalid secretRef with
        | Some msg => inl msg
        | None => inr (sr_Path secretRef)
        end
    end.

Definition addEgressMTLSConfig (egressMTLS : EgressMTLS) (polKey polNamespace : string)
    (secretRefs : gmap string SecretReference) p : option (policiesCfg * validationResults) :=
  match pc_EgressMTLS p with
  | Some _ => Some (p, warnWith ("Multiple egressMTLS policies in the same context is not valid. EgressMTLS policy "
                                 +:+ polKey +:+ " will be ignored"))
  | None =>
      match egressSecret (em_TLSSecret egressMTLS) polKey polNamespace SecretTypeTLS secretRefs with
      | inl msg => Some (p, failWith msg)
      | inr tlsSecretPath =>
          match egressSecret (em_TrustedCertSecret egressMTLS) polKey polNamespace SecretTypeCA secretRefs with
          | inl msg => Some (p, failWith msg)
          | inr trustedSecretPath =>
              trustedCert ← (if bool_decide (trustedSecretPath = "") then Some ""
                             else head (Fields trustedSecretPath));
              Some (set_EgressMTLS (Some
                {| vem_Certificate := tlsSecretPath; vem_CertificateKey := tlsSecretPath;
                   vem_VerifyServer := em_VerifyServer egressMTLS;
                   vem_VerifyDepth := generateIntFromPointer (em_VerifyDepth egressMTLS) 1;
                   vem_Ciphers := generateString (em_Ciphers egressMTLS) "DEFAULT";
                   vem_Protocols := generateString (em_Protocols egressMTLS) "TLSv1 TLSv1.1 TLSv1.2";
                   vem_TrustedCert := trustedCert;
                   vem_SessionReuse := generateBool (em_SessionReuse egressMTLS) true;
                   vem_ServerName := em_ServerName egressMTLS;
                   vem_SSLName := generateString (em_SSLName egressMTLS) "$proxy_host" |}) p,
                newValidationResults)
          end
      end
  end.
End Operations.
