(* ===== verification/PolicyConfigGenerate.v ===== *)
(** Policy configuration, third part (internal/configs/policy.go): OpenID Connect
    with the registry of its locations, API keys, App Protect, Wallarm, caching,
    CORS and HSTS, and [generatePolicies]. *)
From S2P Require Import Prelude GoStrings Objects ProxyBuffers HostValidation PolicyObjects.
From S2P Require Import PolicyValues NginxManager SecretStore Version2 PolicyConfig.
From S2P Require Import PolicyConfigAdd.

Section Generation.
Context `{UL : URLLib} `{LT : UnicodeLower} `{PL : PolicyLib} `{MR : MapRange}.
Implicit Types p : policiesCfg.

(** ** OpenID Connect, NJS implementation *)

(** The locations of oidc.tmpl *)
Definition njsLocations (redirectURI : string) : list string :=
  [redirectURI; "/_jwks_uri"; "/_token"; "/_refresh"; "/_token_validation"; "/logout";
   "/front_channel_logout"; "/_logout"].
Definition njsOwner (redirectURI path : string) : oidcNativeLocationOwner :=
  {| lo_provider := oidcNJSOwner;
     lo_role := if bool_decide (path = redirectURI) then oidcNativeRoleCallback else oidcNJSRoleReserved |}.
(** the first location that another owner has claimed *)
Definition njsConflict (locs : LocationRegistry) (redirectURI : string) : option (string * oidcNativeLocationOwner) :=
  head (omap (λ path, existing ← claimant locs path;
                      if bool_decide (existing = njsOwner redirectURI path) then None else Some (path, existing))
             (njsLocations redirectURI)).
Definition njsRegister (locs : LocationRegistry) (redirectURI : string) : LocationRegistry :=
  (λ m, foldl (λ m path, <[path := njsOwner redirectURI path]> m) m (njsLocations redirectURI)) <$> locs.

(** The client secret: a message, or the secret.  The type, the error and PKCE
    are looked at in this order. *)
Definition oidcClientSecret (oidc : OIDC) (polKey polNamespace : string)
    (secretRefs : gmap string SecretReference) : option (string + string) :=
  let secretKey := keyOf polNamespace (oidc_ClientSecret oidc) in
  match secretRefs !! secretKey with
  | Some secretRef =>
      let secretType := secretTypeOf secretRef in
      if negb (bool_decide (secretType = "")) && negb (bool_decide (secretType = SecretTypeOIDC))
      then Some (inl ("OIDC policy " +:+ polKey +:+ " references a secret " +:+ secretKey +:+ " of a wrong type '"
                      +:+ secretType +:+ "', must be '" +:+ SecretTypeOIDC +:+ "'"))
      else match sr_Error secretRef, oidc_PKCEEnable oidc with
      | Some err, false =>
          Some (inl ("OIDC policy " +:+ polKey +:+ " references an invalid secret " +:+ secretKey +:+ ": " +:+ err))
      | _, true =>
          Some (inl ("OIDC policy " +:+ polKey +:+ " has a secret and PKCE enabled. Secrets can't be used with PKCE"))
      | None, false =>
          secret ← sr_Secret secretRef;
          Some (inr (dataField secret ClientSecretKey))
      end
  | None =>
      Some (if oidc_PKCEEnable oidc then inr ""
            else inl ("Client secret is required for OIDC policy " +:+ polKey +:+ " when not using PKCE"))
  end.

Definition addOIDCConfig (oidc : OIDC) (polKey polNamespace : string) (policyOpts : policyOptions)
    (locs : LocationRegistry) p : option (policiesCfg * validationResults * LocationRegistry) :=
  let secretRefs := po_secretRefs policyOpts in
  if bool_decide (is_Some (pc_OIDC p)) then
    Some (p, warnWith ("Multiple oidc policies in the same context is not valid. OIDC policy " +:+ polKey
                       +:+ " will be ignored"), locs)
  else if bool_decide (is_Some (pc_OIDCProvider p)) then
    Some (p, failWith ("OIDC (NJS) policy " +:+ polKey
                       +:+ " conflicts with OIDCNative policy in the same context. Only one OIDC implementation can be used per context"),
          locs)
  else if negb (bool_decide (po_oidcPolicyName policyOpts = "")) then
    if negb (bool_decide (po_oidcPolicyName policyOpts = polKey)) then
      Some (p, failWith ("Only one oidc policy is allowed in a VirtualServer and its VirtualServerRoutes. Can't use "
                         +:+ polKey +:+ ". Use " +:+ po_oidcPolicyName policyOpts), locs)
    else Some (set_OIDC (po_oidcConfig policyOpts) p, newValidationResults, locs)
  else
    secret ← oidcClientSecret oidc polKey polNamespace secretRefs;
    match secret with
    | inl msg => Some (p, failWith msg, locs)
    | inr clientSecret =>
        let redirectURI := generateString (oidc_RedirectURI oidc) "/_codexch" in
        let postLogoutRedirectURI := generateString (oidc_PostLogoutRedirectURI oidc) "/_logout" in
        match njsConflict locs redirectURI with
        | Some (path, existing) =>
            Some (p, failWith ("OIDC policy " +:+ polKey +:+ " uses generated location " +:+ path
                               +:+ ", which conflicts with " +:+ ownerString existing), locs)
        | None =>
            let locs := njsRegister locs redirectURI in
            let trusted :=
              if oidc_SSLVerify oidc && negb (bool_decide (oidc_TrustedCertSecret oidc = ""))
              then trustedCertPath "OIDC" polKey (keyOf polNamespace (oidc_TrustedCertSecret oidc))
                     (po_defaultCABundle policyOpts) secretRefs
              else inr (po_defaultCABundle policyOpts) in
            match trusted with
            | inl msg => Some (p, failWith msg, locs)
            | inr trustedCert =>
                Some (set_OIDC (Some
                  {| voidc_AuthEndpoint := oidc_AuthEndpoint oidc;
                     voidc_ClientID := oidc_ClientID oidc;
                     voidc_ClientSecret := clientSecret;
                     voidc_JwksURI := oidc_JWKSURI oidc;
                     voidc_Scope := generateString (oidc_Scope oidc) "openid";
                     voidc_TokenEndpoint := oidc_TokenEndpoint oidc;
                     voidc_EndSessionEndpoint := oidc_EndSessionEndpoint oidc;
                     voidc_RedirectURI := redirectURI;
                     voidc_PostLogoutRedirectURI := postLogoutRedirectURI;
                     voidc_ZoneSyncLeeway := generateIntFromPointer (oidc_ZoneSyncLeeway oidc) 200;
                     voidc_AuthExtraArgs := from_option (Join "&") "" (oidc_AuthExtraArgs oidc);
                     voidc_AccessTokenEnable := oidc_AccessTokenEnable oidc;
                     voidc_PKCEEnable := oidc_PKCEEnable oidc;
                     voidc_TLSVerify := oidc_SSLVerify oidc;
                     voidc_VerifyDepth := default 1%Z (oidc_SSLVerifyDepth oidc);
                     voidc_CAFile := trustedCert;
                     voidc_PolicyName := polKey |}) p, newValidationResults, locs)
            end
        end
    end.

(** ** OpenID Connect, native implementation *)

(** a message, or the client secret *)
Definition resolveOIDCNativeClientSecret (oidcNative : OIDCNative) (polKey polNamespace : string)
    (secretRefs : gmap string SecretReference) : string + string :=
  if bool_decide (on_ClientSecret oidcNative = "") then inr ""
  else
    let secretKey := keyOf polNamespace (on_ClientSecret oidcNative) in
    let invalid := "OIDCNative policy " +:+ polKey +:+ " references an invalid secret " +:+ secretKey +:+ ": " in
    match secretRefs !! secretKey with
    | None => inl ("OIDCNative policy " +:+ polKey +:+ " references a missing secret " +:+ secretKey)
    | Some secretRef =>
        match secretProblem "OIDCNative" polKey secretKey SecretTypeOIDC invalid secretRef with
        | Some msg => inl msg
        | None =>
            match sr_Secret secretRef with
            | None => inl (invalid +:+ "secret doesn't exist")
            | Some secret =>
                match sec_Data secret !! ClientSecretKey with
                | None => inl ("OIDCNative policy " +:+ polKey +:+ " references a secret " +:+ secretKey
                               +:+ " missing '" +:+ ClientSecretKey +:+ "' key")
                | Some clientSecretBytes => inr clientSecretBytes
                end
            end
        end
    end.

(** a message, or the paths of the CA bundle and of its CRL *)
Definition resolveOIDCNativeTrustedCert (oidcNative : OIDCNative) (polKey polNamespace : string)
    (policyOpts : policyOptions) : string + (string * string) :=
  if bool_decide (on_TrustedCertSecret oidcNative = "") then inr (po_defaultCABundle policyOpts, "")
  else
    let trustedCertKey := keyOf polNamespace (on_TrustedCertSecret oidcNative) in
    match po_secretRefs policyOpts !! trustedCertKey with
    | None => inl ("OIDCNative policy " +:+ polKey +:+ " references a missing trusted cert secret " +:+ trustedCertKey)
    | Some trustedCertRef =>
        match secretProblem "OIDCNative" polKey trustedCertKey SecretTypeCA
          ("OIDCNative policy " +:+ polKey +:+ " references an invalid trusted cert secret " +:+ trustedCertKey +:+ ": ")
          trustedCertRef with
        | Some msg => inl msg
        | None =>
            let caFields := Fields (sr_Path trustedCertRef) in
            inr (default (po_defaultCABundle policyOpts) (caFields !! 0), default "" (caFields !! 1))
        end
    end.

(** The check of one location: [inl] is the conflict, [inr true] that the
    location merges with the post-logout location of another provider. *)
Definition checkNativeLocation (locs : LocationRegistry) (providerName path role : string)
    : oidcNativeLocationOwner + bool :=
  if bool_decide (path = "") then inr false
  else match claimant locs path with
  | None => inr false
  | Some existing =>
      if bool_decide (existing = {| lo_provider := providerName; lo_role := role |}) then inr false
      else if bool_decide (role = oidcNativeRolePostLogout)
              && bool_decide (lo_role existing = oidcNativeRolePostLogout) then inr true
      else inl existing
  end.
Fixpoint checkNativeLocations (locs : LocationRegistry) (providerName : string)
    (locations : list (string * string)) (merged : bool) : string * oidcNativeLocationOwner + bool :=
  match locations with
  | [] => inr merged
  | (path, role) :: rest =>
      match checkNativeLocation locs providerName path role with
      | inl existing => inl (path, existing)
      | inr m => checkNativeLocations locs providerName rest (m || merged)
      end
  end.
Definition registerNativeLocation (providerName : string) (postLogout : bool)
    (m : gmap string oidcNativeLocationOwner) (location : string * string) : gmap string oidcNativeLocationOwner :=
  let '(path, role) := location in
  if bool_decide (path = "") || (bool_decide (role = oidcNativeRolePostLogout) && negb postLogout) then m
  else <[path := {| lo_provider := providerName; lo_role := role |}]> m.

Definition validateAndRegisterOIDCNativeLocations (polKey providerName redirectURI postLogoutURI proxyLocation : string)
    (locs : LocationRegistry) : string + (option AuthOIDCReturnLocationCfg * LocationRegistry) :=
  let locations := [(redirectURI, oidcNativeRoleCallback); (postLogoutURI, oidcNativeRolePostLogout);
                    (proxyLocation, oidcNativeRoleProxy)] in
  match checkNativeLocations locs providerName locations false with
  | inl (path, existing) =>
      inl ("OIDCNative policy " +:+ polKey +:+ " uses generated location " +:+ path
           +:+ ", which conflicts with " +:+ ownerString existing)
  | inr merged =>
      let postLogoutLoc :=
        if bool_decide (postLogoutURI = "") || merged then None
        else Some {| rloc_Path := postLogoutURI; rloc_DefaultType := "text/plain";
                     rloc_Return := {| ret_Code := 200; ret_Text := oidcNativePostLogoutMessage |} |} in
      inr (postLogoutLoc,
           (λ m, foldl (registerNativeLocation providerName (bool_decide (is_Some postLogoutLoc))) m locations) <$> locs)
  end.

Definition addOIDCNativeConfig (oidcNative : OIDCNative) (polKey polNamespace : string) (od : policyOwnerDetails)
    (policyOpts : policyOptions) (locs : LocationRegistry) p
    : policiesCfg * validationResults * LocationRegistry :=
  if bool_decide (is_Some (pc_OIDCProvider p)) then
    (p, warnWith ("Multiple oidcNative policies in the same context is not valid. OIDCNative policy " +:+ polKey
                  +:+ " will be ignored"), locs)
  else if bool_decide (is_Some (pc_OIDC p)) then
    (p, failWith ("OIDCNative policy " +:+ polKey
                  +:+ " conflicts with OIDC (NJS) policy in the same context. Only one OIDC implementation can be used per context"),
     locs)
  else match resolveOIDCNativeClientSecret oidcNative polKey polNamespace (po_secretRefs policyOpts) with
  | inl msg => (p, failWith msg, locs)
  | inr clientSecret =>
      match resolveOIDCNativeTrustedCert oidcNative polKey polNamespace policyOpts with
      | inl msg => (p, failWith msg, locs)
      | inr (trustedCertPath, trustedCrlPath) =>
          let polName := (ParseResourceReference polKey polNamespace).2 in
          let providerName := rfc1123ToSnake ("oidc_" +:+ polNamespace +:+ "_" +:+ polName +:+ "_" +:+ parentPrefix od) in
          let redirectURI := generateString (on_RedirectURI oidcNative) ("/oidc_callback_" +:+ providerName) in
          let proxyLocation := "/_oidc_idp_" +:+ providerName in
          let sslVerify := default true (on_SSLVerify oidcNative) in
          let cert := if sslVerify then trustedCertPath else "" in
          match validateAndRegisterOIDCNativeLocations polKey providerName redirectURI
                  (on_PostLogoutRedirectURI oidcNative) proxyLocation locs with
          | inl msg => (p, failWith msg, locs)
          | inr (postLogoutLoc, locs) =>
              (set_OIDCProvider (Some
                {| op_Name := providerName;
                   op_PolicyKey := polKey;
                   op_Issuer := on_Issuer oidcNative;
                   op_ClientID := on_ClientID oidcNative;
                   op_ClientSecret := clientSecret;
                   op_ConfigURL := on_ConfigURL oidcNative;
                   op_CookieName := generateString (on_CookieName oidcNative) ("NGX_OIDC_" +:+ providerName);
                   op_ExtraAuthArgs := on_ExtraAuthArgs oidcNative;
                   op_PKCE := on_PKCE oidcNative;
                   op_RedirectURI := redirectURI;
                   op_LogoutURI := on_LogoutURI oidcNative;
                   op_PostLogoutURI := on_PostLogoutRedirectURI oidcNative;
                   op_FrontChannelLogoutURI := on_FrontChannelLogoutURI oidcNative;
                   op_LogoutTokenHint := on_LogoutTokenHint oidcNative;
                   op_Scope := ReplaceAll (on_Scope oidcNative) plusSign " ";
                   op_SessionStore := "oidc_sessions_" +:+ providerName;
                   op_SessionTimeout := on_SessionTimeout oidcNative;
                   op_SSLCrl := trustedCrlPath;
                   op_SSLTrustedCert := cert;
                   op_SSLVerify := sslVerify;
                   op_SSLName := on_SSLName oidcNative;
                   op_SSLVerifyDepth := default 1%Z (on_SSLVerifyDepth oidcNative);
                   op_Sync := po_zoneSync policyOpts;
                   op_UserInfoEnable := on_UserInfoEnable oidcNative;
                   op_ProxyLocation := proxyLocation;
                   op_ProxyBufferSize := generateString (on_ProxyBufferSize oidcNative) "32k";
                   op_ProxyTrustedCertPath := cert;
                   op_PostLogoutLocation := postLogoutLoc |}) p, newValidationResults, locs)
          end
      end
  end.

(** ** API keys *)
Definition addAPIKeyConfig (apiKey : APIKey) (polKey polNamespace : string) (od : policyOwnerDetails)
    (secretRefs : gmap string SecretReference) p : option (policiesCfg * validationResults) :=
  match aka_Key (pc_APIKey p) with
  | Some _ => Some (p, failWith ("Multiple API Key policies in the same context is not valid. API Key policy "
                                 +:+ polKey +:+ " will be ignored"))
  | None =>
      let secretKey := keyOf polNamespace (ak_ClientSecret apiKey) in
      secretRef ← secretRefs !! secretKey;
      match secretProblem "API Key" polKey secretKey SecretTypeAPIKey
        ("API Key " +:+ polKey +:+ " references an invalid secret " +:+ secretKey +:+ ": ") secretRef with
      | Some msg => Some (p, failWith msg)
      | None =>
          secret ← sr_Secret secretRef;
          polName ← Split slash (rfc1123ToSnake polKey) !! 1;
          suppliedIn ← ak_SuppliedIn apiKey;
          let mapName := "apikey_auth_client_name_" +:+ rfc1123ToSnake (od_parentNamespace od)
            +:+ "_" +:+ rfc1123ToSnake (od_parentName od) +:+ "_" +:+ rfc1123ToSnake (od_parentType od)
            +:+ "_" +:+ polName in
          Some (set_APIKey
                  {| aka_Enabled := true;
                     aka_Key := Some {| vak_Header := default [] (si_Header suppliedIn);
                                        vak_Query := default [] (si_Query suppliedIn);
                                        vak_MapName := mapName |};
                     aka_Clients := generateAPIKeyClients (sec_Data secret);
                     aka_ClientMap := aka_ClientMap (pc_APIKey p) |} p, newValidationResults)
      end
  end.

(** ** App Protect *)

(** a log configuration or the policy of a WAF policy, in the policy's namespace
    when it names none *)
Definition qualify (polNamespace name : string) : string :=
  if HasNamespace name then name else keyOf polNamespace name.
Definition set_ApBundle (bundle : string) (w : WAFCfg) : WAFCfg :=
  {| vwaf_Enable := vwaf_Enable w; vwaf_ApPolicy := vwaf_ApPolicy w; vwaf_ApBundle := bundle;
     vwaf_ApSecurityLogEnable := vwaf_ApSecurityLogEnable w; vwaf_ApLogConf := vwaf_ApLogConf w |}.
Definition set_ApLogConf (enable : bool) (confs : list string) (w : WAFCfg) : WAFCfg :=
  {| vwaf_Enable := vwaf_Enable w; vwaf_ApPolicy := vwaf_ApPolicy w; vwaf_ApBundle := vwaf_ApBundle w;
     vwaf_ApSecurityLogEnable := enable; vwaf_ApLogConf := confs |}.
Definition fetchedBundle (polKey suffix : string) : string :=
  let '(ns, name) := default ("", "") (ParseNamespaceName polKey) in
  FetchedBundleFilename ns name suffix.

(** a bundle that fails to validate is reported; its path is used all the same *)
Definition wafBundle (bv : bundleValidator) (waf : WAF) (polKey : string) (wr : WAFCfg * validationResults)
    : WAFCfg * validationResults :=
  let '(w, res) := wr in
  if bool_decide (waf_ApBundle waf = "") then wr
  else
    let '(bundlePath, err) := bv (waf_ApBundle waf) in
    (set_ApBundle bundlePath w,
     match err with
     | Some _ => setError (addWarningf ("WAF policy " +:+ polKey
         +:+ " references an invalid or non-existing App Protect bundle " +:+ bundlePath) res)
     | None => res
     end).

Definition wafFetchedBundle (bv : bundleValidator) (waf : WAF) (polKey : string) (plmEnabled : bool)
    (wr : WAFCfg * validationResults) : WAFCfg * validationResults :=
  let '(w, res) := wr in
  let usePLMPolicyBundle := plmEnabled && negb (bool_decide (waf_ApPolicy waf = "")) in
  if bool_decide (is_Some (waf_ApBundleSource waf)) || usePLMPolicyBundle then
    let filename := fetchedBundle polKey "policy" in
    let '(bundlePath, err) := bv filename in
    match err with
    | Some _ => (w, setError (addWarningf ("WAF policy " +:+ polKey +:+ ": bundle not yet available (" +:+ filename
                  +:+ ") — WAF inactive until bundle is fetched") res))
    | None => (set_ApBundle bundlePath w, res)
    end
  else wr.

(** one log profile: the entries it adds to ApLogConf *)
Definition wafLog (bv : bundleValidator) (polKey polNamespace : string) (apResources : appProtectPolicyResources)
    (plmEnabled : bool) (idx : nat) (loco : SecurityLog) (acc : list string * validationResults)
    : list string * validationResults :=
  let logDest := generateString (slog_LogDest loco) defaultLogOutput in
  let entry path := path +:+ " " +:+ logDest in
  let usePLMLogBundle := plmEnabled && negb (bool_decide (slog_ApLogConf loco = "")) in
  let '(confs, res) := acc in
  let '(confs, res) :=
    if negb (bool_decide (slog_ApLogConf loco = "")) && negb plmEnabled then
      let logConfKey := qualify polNamespace (slog_ApLogConf loco) in
      match apr_LogConfs apResources !! logConfKey with
      | Some logConfPath => (confs ++ [entry logConfPath], res)
      | None => (confs, setError (addWarningf ("WAF policy " +:+ polKey
                  +:+ " references an invalid or non-existing log config " +:+ logConfKey) res))
      end
    else (confs, res) in
  let '(confs, res) :=
    if negb (bool_decide (slog_ApLogBundle loco = "")) then
      let '(logBundle, err) := bv (slog_ApLogBundle loco) in
      match err with
      | Some _ => (confs, setError (addWarningf ("WAF policy " +:+ polKey
                    +:+ " references an invalid or non-existing log config bundle " +:+ logBundle) res))
      | None => (confs ++ [entry logBundle], res)
      end
    else (confs, res) in
  if bool_decide (is_Some (slog_ApLogBundleSource loco)) || usePLMLogBundle then
    let filename := fetchedBundle polKey ("log_" +:+ fmtInt (Z.of_nat idx)) in
    let '(logBundle, err) := bv filename in
    match err with
    | Some _ => (confs, setError (addWarningf ("WAF policy " +:+ polKey +:+ ": log bundle " +:+ fmtInt (Z.of_nat idx)
                  +:+ " not yet available (" +:+ filename +:+ ") — log profile inactive") res))
    | None => (confs ++ [entry logBundle], res)
    end
  else (confs, res).
Fixpoint wafLogs (bv : bundleValidator) (polKey polNamespace : string) (apResources : appProtectPolicyResources)
    (plmEnabled : bool) (idx : nat) (logs : list SecurityLog) (acc : list string * validationResults)
    : list string * validationResults :=
  match logs with
  | [] => acc
  | loco :: rest =>
      wafLogs bv polKey polNamespace apResources plmEnabled (S idx) rest
        (wafLog bv polKey polNamespace apResources plmEnabled idx loco acc)
  end.

(** the deprecated securityLog becomes the only element of securityLogs *)
Definition migrateSecurityLog (waf : WAF) : WAF :=
  match waf_SecurityLog waf, waf_SecurityLogs waf with
  | Some sl, None =>
      {| waf_Enable := waf_Enable waf; waf_ApPolicy := waf_ApPolicy waf; waf_ApBundle := waf_ApBundle waf;
         waf_ApBundleSource := waf_ApBundleSource waf; waf_SecurityLog := waf_SecurityLog waf;
         waf_SecurityLogs := Some [sl] |}
  | _, _ => waf
  end.

(** The new value of the policy's waf is returned too. *)
Definition addWAFConfig (waf : WAF) (polKey polNamespace : string) (apResources : appProtectPolicyResources)
    (plmEnabled : bool) (bv : bundleValidator) p : policiesCfg * validationResults * WAF :=
  if bool_decide (is_Some (pc_WAF p)) then
    (p, warnWith ("Multiple WAF policies in the same context is not valid. WAF policy " +:+ polKey +:+ " will be ignored"), waf)
  else
    let w0 := {| vwaf_Enable := if waf_Enable waf then "on" else "off"; vwaf_ApPolicy := ""; vwaf_ApBundle := "";
                 vwaf_ApSecurityLogEnable := false; vwaf_ApLogConf := [] |} in
    let apPolKey := qualify polNamespace (waf_ApPolicy waf) in
    let apPolicy :=
      if negb (bool_decide (waf_ApPolicy waf = "")) && negb plmEnabled
      then apr_Policies apResources !! apPolKey else Some "" in
    match apPolicy with
    | None =>
        (set_WAF (Some w0) p,
         failWith ("WAF policy " +:+ polKey +:+ " references an invalid or non-existing App Protect policy " +:+ apPolKey),
         waf)
    | Some apPolPath =>
        let w1 := {| vwaf_Enable := vwaf_Enable w0; vwaf_ApPolicy := apPolPath; vwaf_ApBundle := "";
                     vwaf_ApSecurityLogEnable := false; vwaf_ApLogConf := [] |} in
        let '(w2, res) :=
          wafFetchedBundle bv waf polKey plmEnabled (wafBundle bv waf polKey (w1, newValidationResults)) in
        let waf' := migrateSecurityLog waf in
        match waf_SecurityLogs waf' with
        | Some logs =>
            let '(confs, res) := wafLogs bv polKey polNamespace apResources plmEnabled 0 logs ([], res) in
            (set_WAF (Some (set_ApLogConf true confs w2)) p, res, waf')
        | None => (set_WAF (Some w2) p, res, waf')
        end
    end.

(** ** Wallarm, caching, CORS and HSTS *)
Definition addWallarmConfig (wallarm : Wallarm) (polKey : string) p : policiesCfg * validationResults :=
  if bool_decide (is_Some (pc_Wallarm p)) then
    (p, warnWith ("Multiple Wallarm policies in the same context is not valid. Wallarm policy " +:+ polKey
                  +:+ " will be ignored"))
  else
    (set_Wallarm (Some
       {| vwal_Mode := wal_Mode wallarm; vwal_ModeAllowOverride := wal_ModeAllowOverride wallarm;
          vwal_Fallback := wal_Fallback wallarm;
          vwal_Application := from_option fmtInt "" (wal_Application wallarm);
          vwal_PartnerClientUUID := wal_PartnerClientUUID wallarm; vwal_BlockPage := wal_BlockPage wallarm;
          vwal_ParseResponse := wal_ParseResponse wallarm; vwal_ParseWebsocket := wal_ParseWebsocket wallarm;
          vwal_UnpackResponse := wal_UnpackResponse wallarm; vwal_ParserDisable := wal_ParserDisable wallarm |}) p,
     newValidationResults).

Definition addCacheConfig (cache : Cache) (polKey : string) (od : policyOwnerDetails) p
    : policiesCfg * validationResults :=
  if bool_decide (is_Some (pc_Cache p)) then
    (p, warnWith ("Multiple cache policies in the same context is not valid. Cache policy " +:+ polKey +:+ " will be ignored"))
  else (set_Cache (Some (generateCacheConfig cache od)) p, newValidationResults).

Definition addCORSConfig (cors : CORS) (polKey : string) (od : policyOwnerDetails) p
    : policiesCfg * validationResults :=
  let '(originValue, p1) :=
    match cors_AllowOrigin cors with
    | [] => ("", p)
    | origins =>
        if bool_decide (origins = ["*"]) then ("*", p)
        else match origins with
        | [origin] =>
            if isWildcardOrigin origin then
              let name := generateCORSVariableName polKey od in
              ("$" +:+ name, set_CORSMap (Some (generateCORSOriginMap origins name)) p)
            else (escapeNginxString origin, p)
        | _ =>
            let name := generateCORSVariableName polKey od in
            ("$" +:+ name, set_CORSMap (Some (generateCORSOriginMap origins name)) p)
        end
    end in
  (set_CORSHeaders (generateCORSHeaders cors originValue) p1, newValidationResults).

Definition addHSTSConfig (hsts : HSTS) (polKey context : string) (tls : bool) p : policiesCfg * validationResults :=
  if negb (bool_decide (context = specContext))
  then (p, failWith ("HSTS policy " +:+ polKey +:+ " is not allowed in the " +:+ context +:+ " context"))
  else if negb tls && negb (hsts_BehindProxy hsts)
  then (p, failWith ("TLS must be enabled for HSTS policy " +:+ polKey))
  else if bool_decide (is_Some (pc_HSTS p))
  then (p, warnWith ("Multiple HSTS policies in the same context are not valid. HSTS policy " +:+ polKey +:+ " will be ignored"))
  else match hsts_MaxAge hsts with
  | None => (p, failWith ("HSTS policy " +:+ polKey +:+ " is missing required field maxAge"))
  | Some maxAge =>
      (set_HSTS (Some {| vhsts_MaxAge := maxAge; vhsts_IncludeSubDomains := hsts_IncludeSubDomains hsts;
                         vhsts_BehindProxy := hsts_BehindProxy hsts; vhsts_Preload := hsts_Preload hsts |}) p,
       newValidationResults)
  end.

(** ** generatePolicies *)

(** What the generation of one context reads and does not change *)
Record policyContext := {
  ctx_owner : policyOwnerDetails;
  ctx_context : string;
  ctx_path : string;
  ctx_opts : policyOptions;
  ctx_bundles : bundleValidator
}.
(** The maps it shares with its caller *)
Record sharedMaps := {
  sm_locations : LocationRegistry;
  sm_policies : gmap string Policy
}.
Definition set_locations (locs : LocationRegistry) (sm : sharedMaps) : sharedMaps :=
  {| sm_locations := locs; sm_policies := sm_policies sm |}.
(** the write of addWAFConfig to the policy of a key *)
Definition set_waf (key : string) (waf : WAF) (sm : sharedMaps) : sharedMaps :=
  {| sm_locations := sm_locations sm;
     sm_policies := alter (λ pol,
       {| pol_Meta := pol_Meta pol;
          pol_Spec :=
            let s := pol_Spec pol in
            {| ps_IngressClass := ps_IngressClass s; ps_AccessControl := ps_AccessControl s;
               ps_RateLimit := ps_RateLimit s; ps_JWTAuth := ps_JWTAuth s; ps_BasicAuth := ps_BasicAuth s;
               ps_IngressMTLS := ps_IngressMTLS s; ps_EgressMTLS := ps_EgressMTLS s; ps_OIDC := ps_OIDC s;
               ps_OIDCNative := ps_OIDCNative s; ps_WAF := Some waf; ps_Wallarm := ps_Wallarm s;
               ps_APIKey := ps_APIKey s; ps_Cache := ps_Cache s; ps_CORS := ps_CORS s;
               ps_ExternalAuth := ps_ExternalAuth s; ps_HSTS := ps_HSTS s |} |}) key (sm_policies sm) |}.

(** one case of the switch *)
Definition caseOf {A R} (o : option A) (body : A → R) (next : R) : R :=
  match o with Some x => body x | None => next end.

Definition addPolicy (ctx : policyContext) (key polNamespace polName : string) (pol : Policy) p (sm : sharedMaps)
    : option (policiesCfg * validationResults * sharedMaps) :=
  let s := pol_Spec pol in
  let od := ctx_owner ctx in
  let opts := ctx_opts ctx in
  let refs := po_secretRefs opts in
  let plain pr := Some (pr, sm) in
  let panics r := pr ← r; Some (pr, sm) in
  caseOf (ps_AccessControl s) (λ x, plain (addAccessControlConfig x p)) $
  caseOf (ps_RateLimit s) (λ x, plain (addRateLimitConfig pol x od (po_replicas opts) (po_zoneSync opts)
                                         (ctx_context ctx) (ctx_path ctx) p)) $
  caseOf (ps_JWTAuth s) (λ x, panics (addJWTAuthConfig x key polNamespace refs p)) $
  caseOf (ps_ExternalAuth s) (λ x, plain (addExternalAuthConfig x key polNamespace polName refs opts od p)) $
  caseOf (ps_BasicAuth s) (λ x, panics (addBasicAuthConfig x key polNamespace refs p)) $
  caseOf (ps_IngressMTLS s) (λ x, panics (addIngressMTLSConfig x key polNamespace (ctx_context ctx) (po_tls opts) refs p)) $
  caseOf (ps_EgressMTLS s) (λ x, panics (addEgressMTLSConfig x key polNamespace refs p)) $
  caseOf (ps_OIDC s) (λ x, '(pr, locs) ← addOIDCConfig x key polNamespace opts (sm_locations sm) p;
                           Some (pr, set_locations locs sm)) $
  caseOf (ps_OIDCNative s) (λ x, let '(pr, locs) := addOIDCNativeConfig x key polNamespace od opts (sm_locations sm) p in
                                 Some (pr, set_locations locs sm)) $
  caseOf (ps_APIKey s) (λ x, panics (addAPIKeyConfig x key polNamespace od refs p)) $
  caseOf (ps_WAF s) (λ x, let '(pr, waf) := addWAFConfig x key polNamespace (po_apResources opts) (po_plmEnabled opts)
                                              (ctx_bundles ctx) p in
                          Some (pr, set_waf key waf sm)) $
  caseOf (ps_Wallarm s) (λ x, plain (addWallarmConfig x key p)) $
  caseOf (ps_Cache s) (λ x, plain (addCacheConfig x key od p)) $
  caseOf (ps_CORS s) (λ x, plain (addCORSConfig x key od p)) $
  caseOf (ps_HSTS s) (λ x, plain (addHSTSConfig x key (ctx_context ctx) (po_tls opts) p)) $
  plain (p, newValidationResults).

(** policiesCfg{ErrorReturn: &version2.Return{Code: 500}} *)
Definition errorConfig : policiesCfg := set_ErrorReturn (Some {| ret_Code := 500; ret_Text := "" |}) newPoliciesConfig.

Definition referenceNamespace (od : policyOwnerDetails) (r : PolicyReference) : string :=
  generateString (pr_Namespace r) (od_ownerNamespace od).
Definition referenceKey (od : policyOwnerDetails) (r : PolicyReference) : string :=
  keyOf (referenceNamespace od r) (pr_Name r).

(** The loop over the references: [inl] is an early return. *)
Fixpoint addPolicies (ctx : policyContext) (refs : list PolicyReference) p (w : Warnings) (sm : sharedMaps)
    : option ((policiesCfg + policiesCfg) * Warnings * sharedMaps) :=
  let od := ctx_owner ctx in
  match refs with
  | [] => Some (inr p, w, sm)
  | r :: rest =>
      let key := referenceKey od r in
      match sm_policies sm !! key with
      | None => Some (inl errorConfig, AddWarning w (od_owner od) ("Policy " +:+ key +:+ " is missing or invalid"), sm)
      | Some pol =>
          if bool_decide (od_parentType od = "ing") && negb (IsPolicySupportedOnIngress pol)
          then Some (inl errorConfig,
                     AddWarning w (od_owner od) ("Policy " +:+ key +:+ " is not supported on Ingress resources"), sm)
          else
            '(p, res, sm) ← addPolicy ctx key (referenceNamespace od r) (pr_Name r) pol p sm;
            let w := foldl (λ w msg, AddWarning w (od_owner od) msg) w (vr_warnings res) in
            if vr_isError res then Some (inl errorConfig, w, sm)
            else addPolicies ctx rest p w sm
      end
  end.

(** The group maps of tiered rate limits: [None] when one has two defaults. *)
Fixpoint addGroupMaps (maps : list (string * MapCfg)) (acc : list MapCfg) : option (list MapCfg) :=
  match maps with
  | [] => Some acc
  | (_, v) :: rest => if hasDuplicateMapDefaults v then None else addGroupMaps rest (acc ++ [v])
  end.

Definition generatePolicies (ctx : policyContext) (policyRefs : list PolicyReference) (sm : sharedMaps)
    : option (policiesCfg * Warnings * sharedMaps) :=
  let od := ctx_owner ctx in
  '(r, w, sm) ← addPolicies ctx policyRefs newPoliciesConfig ∅ sm;
  match r with
  | inl config => Some (config, w, sm)
  | inr config =>
      let rl := pc_RateLimit config in
      if Nat.ltb 0 (length (rlcfg_PolicyGroupMaps rl)) then
        match addGroupMaps (range "generatePolicies" (generateLRZGroupMaps (rlcfg_Zones rl))) (rlcfg_GroupMaps rl) with
        | None =>
            Some (errorConfig,
                  AddWarning w (od_owner od) ("Tiered rate-limit Policies on [" +:+ od_ownerNamespace od +:+ "/"
                    +:+ od_ownerName od +:+ "] contain conflicting default values"), sm)
        | Some groupMaps =>
            Some (set_RateLimit
                    {| rlcfg_Reqs := rlcfg_Reqs rl; rlcfg_Zones := rlcfg_Zones rl; rlcfg_GroupMaps := groupMaps;
                       rlcfg_PolicyGroupMaps := rlcfg_PolicyGroupMaps rl; rlcfg_Options := rlcfg_Options rl;
                       rlcfg_AuthJWTClaimSets := rlcfg_AuthJWTClaimSets rl |} config, w, sm)
        end
      else Some (config, w, sm)
  end.
End Generation.
