(* ===== verification/PolicyConfigSpec.v ===== *)
(** What the operations of PolicyConfigAdd and PolicyConfigGenerate do when they
    report no error, kind by kind: the values they write, and the secrets these
    come from. *)
From S2P Require Import Prelude GoStrings Objects ProxyBuffers HostValidation PolicyObjects.
From S2P Require Import PolicyValues NginxManager SecretStore Version2 PolicyConfig.
From S2P Require Import PolicyConfigAdd PolicyConfigGenerate.

(** ** Kinds *)

(** the case of the switch of generatePolicies that a policy takes *)
Inductive policyKind :=
  | KAccessControl | KRateLimit | KJWTAuth | KExternalAuth | KBasicAuth | KIngressMTLS | KEgressMTLS
  | KOIDC | KOIDCNative | KAPIKey | KWAF | KWallarm | KCache | KCORS | KHSTS | KNone.
#[export] Instance policyKind_eq_dec : EqDecision policyKind.
Proof. solve_decision. Defined.

Definition kindOf (pol : Policy) : policyKind :=
  let s := pol_Spec pol in
  caseOf (ps_AccessControl s) (λ _, KAccessControl) $ caseOf (ps_RateLimit s) (λ _, KRateLimit) $
  caseOf (ps_JWTAuth s) (λ _, KJWTAuth) $ caseOf (ps_ExternalAuth s) (λ _, KExternalAuth) $
  caseOf (ps_BasicAuth s) (λ _, KBasicAuth) $ caseOf (ps_IngressMTLS s) (λ _, KIngressMTLS) $
  caseOf (ps_EgressMTLS s) (λ _, KEgressMTLS) $ caseOf (ps_OIDC s) (λ _, KOIDC) $
  caseOf (ps_OIDCNative s) (λ _, KOIDCNative) $ caseOf (ps_APIKey s) (λ _, KAPIKey) $
  caseOf (ps_WAF s) (λ _, KWAF) $ caseOf (ps_Wallarm s) (λ _, KWallarm) $
  caseOf (ps_Cache s) (λ _, KCache) $ caseOf (ps_CORS s) (λ _, KCORS) $ caseOf (ps_HSTS s) (λ _, KHSTS) KNone.

(** whether the configuration has a value for a kind that takes only one *)
Definition slotEmpty (k : policyKind) (p : policiesCfg) : Prop :=
  match k with
  | KJWTAuth => jac_Auth (pc_JWTAuth p) = None
  | KExternalAuth => pc_ExternalAuth p = None
  | KBasicAuth => pc_BasicAuth p = None
  | KIngressMTLS => pc_IngressMTLS p = None
  | KEgressMTLS => pc_EgressMTLS p = None
  | KOIDC => pc_OIDC p = None
  | KOIDCNative => pc_OIDCProvider p = None
  | KAPIKey => aka_Key (pc_APIKey p) = None
  | KWAF => pc_WAF p = None
  | KWallarm => pc_Wallarm p = None
  | KCache => pc_Cache p = None
  | KHSTS => pc_HSTS p = None
  | _ => True
  end.

Definition slotFull (k : policyKind) (p : policiesCfg) : Prop :=
  match k with
  | KJWTAuth => is_Some (jac_Auth (pc_JWTAuth p))
  | KExternalAuth => is_Some (pc_ExternalAuth p)
  | KBasicAuth => is_Some (pc_BasicAuth p)
  | KIngressMTLS => is_Some (pc_IngressMTLS p)
  | KEgressMTLS => is_Some (pc_EgressMTLS p)
  | KOIDC => is_Some (pc_OIDC p)
  | KOIDCNative => is_Some (pc_OIDCProvider p)
  | KAPIKey => is_Some (aka_Key (pc_APIKey p))
  | KWAF => is_Some (pc_WAF p)
  | KWallarm => is_Some (pc_Wallarm p)
  | KCache => is_Some (pc_Cache p)
  | KHSTS => is_Some (pc_HSTS p)
  | _ => True
  end.

(** ** Secrets *)

(** a reference that passed the check for the type [want] *)
Definition fromSecret (refs : gmap string SecretReference) (key want : string) (ref : SecretReference) : Prop :=
  refs !! key = Some ref ∧ sr_Error ref = None ∧ (secretTypeOf ref = "" ∨ secretTypeOf ref = want).
Definition fromTrustedCert (refs : gmap string SecretReference) (key dflt path : string) : Prop :=
  ∃ ref, fromSecret refs key SecretTypeCA ref ∧ path = firstField (sr_Path ref) dflt.

Lemma secretProblem_None what polKey key want invalid refs ref :
  refs !! key = Some ref → secretProblem what polKey key want invalid ref = None → fromSecret refs key want ref.
Proof.
  unfold secretProblem, fromSecret. intros Href H. split; [done|].
  case_match eqn:Ht; [done|]. destruct (sr_Error ref); [done|]. split; [done|].
  apply andb_false_iff in Ht. destruct Ht as [Ht|Ht]; apply negb_false_iff, bool_decide_eq_true in Ht; auto.
Qed.

Lemma trustedCertPath_inr what polKey key dflt refs path :
  trustedCertPath what polKey key dflt refs = inr path → fromTrustedCert refs key dflt path.
Proof.
  unfold trustedCertPath. intros H. case_match eqn:Href; [|done]. case_match eqn:Hp; [done|]. simplify_eq.
  eexists. split; [by eapply secretProblem_None|done].
Qed.

(** The result [H] of an operation, case by case *)
Ltac op_cases H :=
  repeat first
    [ progress simplify_eq/=
    | match type of H with mbind _ ?o = Some _ => destruct o eqn:? end
    | match type of H with context [match ?x with _ => _ end] => destruct x eqn:? end ].
Ltac bools :=
  repeat match goal with
  | H : negb _ = false |- _ => apply negb_false_iff in H
  | H : negb _ = true |- _ => apply negb_true_iff in H
  | H : bool_decide _ = true |- _ => apply bool_decide_eq_true in H
  | H : bool_decide _ = false |- _ => apply bool_decide_eq_false in H
  | H : _ && _ = true |- _ => apply andb_true_iff in H as [? H]
  | H : ¬ is_Some ?o |- _ => apply eq_None_not_Some in H
  end.

Section Spec.
Context `{UL : URLLib} `{LT : UnicodeLower} `{PL : PolicyLib} `{MR : MapRange}.
Implicit Types (p : policiesCfg) (refs : gmap string SecretReference) (key ns : string).

(** ** The values *)

Definition jwtConfigured refs key ns (x : JWTAuth) (v : JWTAuthCfg) : Prop :=
  vjwt_Realm v = jwt_Realm x ∧ vjwt_Token v = jwt_Token x ∧
  if decide (jwt_Secret x = "") then
    vjwt_Key v = key ∧ vjwt_Secret v = "" ∧
    (∃ uri, url_Parse (jwt_JwksURI x) = inr uri ∧
       jwks_JwksScheme (vjwt_JwksURI v) = url_Scheme uri ∧ jwks_JwksHost (vjwt_JwksURI v) = url_Hostname uri ∧
       jwks_JwksPort (vjwt_JwksURI v) = url_Port uri ∧ jwks_JwksPath (vjwt_JwksURI v) = url_Path uri) ∧
    jwks_SSLVerify (vjwt_JwksURI v) = jwt_SSLVerify x ∧
    (jwt_SSLVerify x = true → jwt_TrustedCertSecret x ≠ "" →
       fromTrustedCert refs (keyOf ns (jwt_TrustedCertSecret x)) "" (jwks_TrustedCert (vjwt_JwksURI v)))
  else ∃ ref, fromSecret refs (keyOf ns (jwt_Secret x)) SecretTypeJWK ref ∧ vjwt_Secret v = sr_Path ref.

Definition externalAuthConfigured refs ns (opts : policyOptions) (x : ExternalAuth) (v : ExternalAuthCfg) : Prop :=
  (∃ upstream, vea_URI v = Some {| auri_Service := ea_AuthServiceName x; auri_Upstream := upstream; auri_Port := "";
                                   auri_Path := ea_AuthURI x; auri_InternalPath := "/_external_auth" +:+ ea_AuthURI x |}) ∧
  vea_SigninURL v = ea_AuthSigninURI x ∧ vea_Snippets v = ea_AuthSnippets x ∧
  vea_ServicePorts v = ea_AuthServicePorts x ∧
  vea_SSLEnabled v = ea_SSLEnabled x ∧ vea_SSLVerify v = ea_SSLEnabled x && ea_SSLVerify x ∧
  (ea_SSLEnabled x && ea_SSLVerify x = true →
     vea_SSLVerifyDepth v = default 1%Z (ea_SSLVerifyDepth x) ∧
     if decide (ea_TrustedCertSecret x = "") then vea_SSLTrustedCert v = po_defaultCABundle opts
     else let '(sns, sname) := ParseResourceReference (ea_TrustedCertSecret x) ns in
          fromTrustedCert refs (keyOf sns sname) (po_defaultCABundle opts) (vea_SSLTrustedCert v)).

Definition basicAuthConfigured refs ns (x : BasicAuth) (v : BasicAuthCfg) : Prop :=
  vba_Realm v = ba_Realm x ∧
  ∃ ref, fromSecret refs (keyOf ns (ba_Secret x)) SecretTypeHtpasswd ref ∧ vba_Secret v = sr_Path ref.

Definition ingressMTLSConfigured refs ns (ctx : policyContext) (x : IngressMTLS) (v : IngressMTLSCfg) : Prop :=
  ctx_context ctx = specContext ∧ po_tls (ctx_opts ctx) = true ∧
  vim_VerifyClient v = generateString (im_VerifyClient x) "on" ∧
  vim_VerifyDepth v = default 1%Z (im_VerifyDepth x) ∧
  ∃ ref secret, fromSecret refs (keyOf ns (im_ClientCertSecret x)) SecretTypeCA ref ∧ sr_Secret ref = Some secret ∧
    Fields (sr_Path ref) !! 0 = Some (vim_ClientCert v) ∧
    if decide (im_CrlFileName x = "") then
      if decide (is_Some (sec_Data secret !! CACrlKey)) then Fields (sr_Path ref) !! 1 = Some (vim_ClientCrl v)
      else vim_ClientCrl v = ""
    else vim_ClientCrl v = pathJoin [DefaultSecretPath; Base (im_CrlFileName x)].

Definition egressMTLSConfigured refs ns (x : EgressMTLS) (v : EgressMTLSCfg) : Prop :=
  vem_VerifyServer v = em_VerifyServer x ∧ vem_CertificateKey v = vem_Certificate v ∧
  vem_VerifyDepth v = default 1%Z (em_VerifyDepth x) ∧
  (if decide (em_TLSSecret x = "") then vem_Certificate v = ""
   else ∃ ref, fromSecret refs (keyOf ns (em_TLSSecret x)) SecretTypeTLS ref ∧ vem_Certificate v = sr_Path ref) ∧
  (if decide (em_TrustedCertSecret x = "") then vem_TrustedCert v = ""
   else fromTrustedCert refs (keyOf ns (em_TrustedCertSecret x)) "" (vem_TrustedCert v)).

Definition oidcConfigured refs key ns (opts : policyOptions) (x : OIDC) (v : OIDCCfg) : Prop :=
  voidc_PolicyName v = key ∧ voidc_ClientID v = oidc_ClientID x ∧ voidc_PKCEEnable v = oidc_PKCEEnable x ∧
  voidc_RedirectURI v = generateString (oidc_RedirectURI x) "/_codexch" ∧ voidc_TLSVerify v = oidc_SSLVerify x ∧
  (if oidc_PKCEEnable x then voidc_ClientSecret v = "" ∧ refs !! keyOf ns (oidc_ClientSecret x) = None
   else ∃ ref secret, fromSecret refs (keyOf ns (oidc_ClientSecret x)) SecretTypeOIDC ref ∧
          sr_Secret ref = Some secret ∧ voidc_ClientSecret v = dataField secret ClientSecretKey) ∧
  (if decide (oidc_SSLVerify x = true ∧ oidc_TrustedCertSecret x ≠ "")
   then fromTrustedCert refs (keyOf ns (oidc_TrustedCertSecret x)) (po_defaultCABundle opts) (voidc_CAFile v)
   else voidc_CAFile v = po_defaultCABundle opts).

Definition oidcNativeConfigured refs key ns (opts : policyOptions) (x : OIDCNative) (v : OIDCProviderCfg) : Prop :=
  op_PolicyKey v = key ∧ op_Issuer v = on_Issuer x ∧ op_ClientID v = on_ClientID x ∧
  op_SSLVerify v = default true (on_SSLVerify x) ∧
  (if decide (on_ClientSecret x = "") then op_ClientSecret v = ""
   else ∃ ref secret, fromSecret refs (keyOf ns (on_ClientSecret x)) SecretTypeOIDC ref ∧
          sr_Secret ref = Some secret ∧ sec_Data secret !! ClientSecretKey = Some (op_ClientSecret v)) ∧
  (op_SSLVerify v = true →
   if decide (on_TrustedCertSecret x = "") then op_SSLTrustedCert v = po_defaultCABundle opts
   else fromTrustedCert refs (keyOf ns (on_TrustedCertSecret x)) (po_defaultCABundle opts) (op_SSLTrustedCert v)).

Definition apiKeyConfigured refs ns (x : APIKey) (v : apiKeyAuth) : Prop :=
  aka_Enabled v = true ∧
  ∃ ref secret k s, fromSecret refs (keyOf ns (ak_ClientSecret x)) SecretTypeAPIKey ref ∧ sr_Secret ref = Some secret ∧
    ak_SuppliedIn x = Some s ∧ aka_Key v = Some k ∧
    vak_Header k = default [] (si_Header s) ∧ vak_Query k = default [] (si_Query s) ∧
    aka_Clients v ≡ₚ (λ '(clientID, apiKey), {| akc_ClientID := clientID; akc_HashedKey := sha256Hex apiKey |})
      <$> map_to_list (sec_Data secret).

Definition wafConfigured ns (opts : policyOptions) (x : WAF) (v : WAFCfg) : Prop :=
  vwaf_Enable v = (if waf_Enable x then "on" else "off") ∧
  (if decide (waf_ApPolicy x ≠ "" ∧ po_plmEnabled opts = false)
   then apr_Policies (po_apResources opts) !! qualify ns (waf_ApPolicy x) = Some (vwaf_ApPolicy v)
   else vwaf_ApPolicy v = "") ∧
  vwaf_ApSecurityLogEnable v = bool_decide (is_Some (waf_SecurityLogs (migrateSecurityLog x))).

Definition hstsConfigured (ctx : policyContext) (x : HSTS) (v : HSTSCfg) : Prop :=
  ctx_context ctx = specContext ∧ (po_tls (ctx_opts ctx) = true ∨ hsts_BehindProxy x = true) ∧
  hsts_MaxAge x = Some (vhsts_MaxAge v) ∧ vhsts_IncludeSubDomains v = hsts_IncludeSubDomains x ∧
  vhsts_BehindProxy v = hsts_BehindProxy x ∧ vhsts_Preload v = hsts_Preload x.

Definition wallarmConfigured (x : Wallarm) (v : WallarmCfg) : Prop :=
  vwal_Mode v = wal_Mode x ∧ vwal_ModeAllowOverride v = wal_ModeAllowOverride x ∧
  vwal_Fallback v = wal_Fallback x ∧ vwal_Application v = from_option fmtInt "" (wal_Application x) ∧
  vwal_PartnerClientUUID v = wal_PartnerClientUUID x ∧ vwal_BlockPage v = wal_BlockPage x ∧
  vwal_ParserDisable v = wal_ParserDisable x.

(** ** The effect of an operation on its part of the configuration *)

(** The part is there already and stays, or it is written. *)
Definition written {A} (part : policiesCfg → option A) (write : A → policiesCfg → policiesCfg) (good : A → Prop)
    p p' : Prop :=
  (p' = p ∧ is_Some (part p)) ∨ (part p = None ∧ ∃ v, good v ∧ p' = write v p).

Lemma addBasicAuthConfig_written x key ns refs p p' res :
  addBasicAuthConfig x key ns refs p = Some (p', res) → vr_isError res = false →
  written pc_BasicAuth (set_BasicAuth ∘ Some) (basicAuthConfigured refs ns x) p p'.
Proof.
  unfold addBasicAuthConfig. intros H Herr. op_cases H; [left; eauto|].
  right. split; [done|]. eexists. split; [|done]. split; [done|]. eexists. split; [|done].
  by eapply secretProblem_None.
Qed.

Lemma addJWTAuthConfig_written x key ns refs p p' res :
  addJWTAuthConfig x key ns refs p = Some (p', res) → vr_isError res = false →
  (p' = p ∧ jwt_Secret x = "" ∧ jwt_JwksURI x = "") ∨
  written (λ p, jac_Auth (pc_JWTAuth p)) (λ v, set_Auth v (bool_decide (jwt_Secret x = "")))
    (jwtConfigured refs key ns x) p p'.
Proof.
  unfold addJWTAuthConfig. intros H Herr. op_cases H; bools; [right; left; eauto|..].
  - do 2 right. split; [done|]. eexists. split; [|by rewrite bool_decide_eq_false_2 by done].
    split_and!; [done..|]. rewrite decide_False by done. eexists. split; [by eapply secretProblem_None|done].
  - do 2 right. split; [done|]. eexists. split; [|by rewrite bool_decide_eq_true_2 by done].
    split_and!; [done..|]. rewrite decide_True by done. split_and!; [done..|by eexists|done|].
    intros Hv Ht. rewrite Hv, bool_decide_eq_false_2 in Heqs by done. simpl in Heqs. by eapply trustedCertPath_inr.
  - by left.
Qed.

Lemma addExternalAuthConfig_written x key ns name refs opts od p p' res :
  addExternalAuthConfig x key ns name refs opts od p = (p', res) → vr_isError res = false →
  written pc_ExternalAuth (set_ExternalAuth ∘ Some) (externalAuthConfigured refs ns opts x) p p'.
Proof.
  unfold addExternalAuthConfig. intros H Herr.
  destruct (pc_ExternalAuth p) eqn:Hp; [left; simplify_eq; eauto|]. right. split; [done|].
  destruct (ea_SSLEnabled x && ea_SSLVerify x) eqn:Hssl.
  - destruct (configureExternalAuthSSL _ _ _ _ _ _) as [ea sslRes] eqn:Hc. simplify_eq.
    eexists. split; [|done]. unfold configureExternalAuthSSL in Hc.
    destruct (ParseResourceReference _ _) as [sns sname] eqn:Hpr.
    destruct (ParseServiceReference _ _) as [svcNs svcName].
    unfold externalAuthConfigured. rewrite Hssl, Hpr. case_match eqn:Ht; simplify_eq/=.
    split_and!; [by eexists|done..|]. intros _. split; [done|].
    case_decide as Hd; [rewrite bool_decide_eq_true_2 in Ht by done|rewrite bool_decide_eq_false_2 in Ht by done];
      simplify_eq/=; [done|]. by eapply trustedCertPath_inr.
  - simplify_eq. eexists. split; [|done]. unfold externalAuthConfigured. rewrite Hssl.
    split_and!; [by eexists|done..].
Qed.

Lemma addIngressMTLSConfig_written x key ns ctx refs p p' res :
  addIngressMTLSConfig x key ns (ctx_context ctx) (po_tls (ctx_opts ctx)) refs p = Some (p', res) →
  vr_isError res = false →
  written pc_IngressMTLS (set_IngressMTLS ∘ Some) (ingressMTLSConfigured refs ns ctx x) p p'.
Proof.
  unfold addIngressMTLSConfig. intros H Herr.
  op_cases H; bools; [left; eauto|..].
  all: right; split; [done|]; eexists; split; [|done].
  all: split_and!; [done..|]; do 2 eexists; split_and!; [by eapply secretProblem_None|done|done|].
  match goal with H : (if negb _ then _ else _) = Some _ |- _ => rename H into Hcrl end. clear Herr. simpl.
  case_decide; [rewrite bool_decide_eq_true_2 in Hcrl by done|rewrite bool_decide_eq_false_2 in Hcrl by done];
    simplify_eq/=; [|done].
  case_decide; [by rewrite bool_decide_eq_true_2 in Hcrl by done|].
  rewrite bool_decide_eq_false_2 in Hcrl by done. by simplify_eq.
Qed.

Lemma egressSecret_inr name key ns want refs path :
  egressSecret name key ns want refs = inr path →
  if decide (name = "") then path = ""
  else ∃ ref, fromSecret refs (keyOf ns name) want ref ∧ path = sr_Path ref.
Proof.
  unfold egressSecret. intros H. case_decide as Hn; [by rewrite bool_decide_eq_true_2 in H by done; simplify_eq|].
  rewrite bool_decide_eq_false_2 in H by done. op_cases H. eexists. split; [by eapply secretProblem_None|done].
Qed.

Lemma addEgressMTLSConfig_written x key ns refs p p' res :
  addEgressMTLSConfig x key ns refs p = Some (p', res) → vr_isError res = false →
  written pc_EgressMTLS (set_EgressMTLS ∘ Some) (egressMTLSConfigured refs ns x) p p'.
Proof.
  unfold addEgressMTLSConfig. intros H Herr.
  destruct (pc_EgressMTLS p) eqn:Hp; [left; simplify_eq; eauto|]. right. split; [done|].
  destruct (egressSecret (em_TLSSecret x) _ _ _ _) as [|tls] eqn:Htls; [by simplify_eq/=|].
  destruct (egressSecret (em_TrustedCertSecret x) _ _ _ _) as [|ca] eqn:Hca; [by simplify_eq/=|].
  apply egressSecret_inr in Htls, Hca. apply bind_Some in H as (cert & Hcert & H). simplify_eq.
  eexists. split; [|done]. split_and!; [done..|]. simpl.
  case_decide; [by subst; simplify_eq/=|]. destruct Hca as (ref & Href & ->). exists ref. split; [done|].
  unfold firstField. case_bool_decide as Hpath; simplify_eq; [by rewrite Hpath|by rewrite Hcert].
Qed.

Lemma oidcClientSecret_inr x key ns refs secret :
  oidcClientSecret x key ns refs = Some (inr secret) →
  if oidc_PKCEEnable x then secret = "" ∧ refs !! keyOf ns (oidc_ClientSecret x) = None
  else ∃ ref s, fromSecret refs (keyOf ns (oidc_ClientSecret x)) SecretTypeOIDC ref ∧
         sr_Secret ref = Some s ∧ secret = dataField s ClientSecretKey.
Proof.
  unfold oidcClientSecret. intros H. op_cases H; [|done].
  do 2 eexists. split_and!; [|done..]. split_and!; [done..|].
  match goal with H : _ && _ = false |- _ => apply andb_false_iff in H as [H|H]; bools; auto end.
Qed.

Lemma addOIDCConfig_written x key ns opts locs p p' res locs' :
  addOIDCConfig x key ns opts locs p = Some (p', res, locs') → vr_isError res = false →
  if decide (po_oidcPolicyName opts = "")
  then written pc_OIDC (set_OIDC ∘ Some) (oidcConfigured (po_secretRefs opts) key ns opts x) p p'
  else (p' = p ∧ is_Some (pc_OIDC p)) ∨
       (pc_OIDC p = None ∧ po_oidcPolicyName opts = key ∧ p' = set_OIDC (po_oidcConfig opts) p).
Proof.
  unfold addOIDCConfig. intros H Herr.
  case_bool_decide as Hp; [simplify_eq; case_decide; left; eauto|]. bools.
  case_bool_decide; [by simplify_eq|].
  case_bool_decide as Hname; simpl in H; [rewrite decide_True by done|rewrite decide_False by done]; [right; split; [done|]|].
  - apply bind_Some in H as (secret & Hsecret & H). destruct secret as [msg|secret]; [by simplify_eq|].
    apply oidcClientSecret_inr in Hsecret. destruct (njsConflict _ _) as [[]|]; [by simplify_eq|].
    case_match eqn:Ht; simplify_eq/=. eexists. split; [|done]. split_and!; [done..|]. cbn [voidc_CAFile].
    destruct (decide (oidc_SSLVerify x = true ∧ _)) as [Hd|Hd].
    + destruct Hd as [Hd1 Hd2]. rewrite Hd1, bool_decide_eq_false_2 in Ht by done. simpl in Ht. by eapply trustedCertPath_inr.
    + destruct (oidc_SSLVerify x); simpl in Ht; [|by simplify_eq].
      case_bool_decide; simplify_eq/=; [done|]. by destruct Hd.
  - case_bool_decide as Hkey; simplify_eq/=. auto.
Qed.

Lemma resolveOIDCNativeClientSecret_inr x key ns refs secret :
  resolveOIDCNativeClientSecret x key ns refs = inr secret →
  if decide (on_ClientSecret x = "") then secret = ""
  else ∃ ref s, fromSecret refs (keyOf ns (on_ClientSecret x)) SecretTypeOIDC ref ∧
         sr_Secret ref = Some s ∧ sec_Data s !! ClientSecretKey = Some secret.
Proof.
  unfold resolveOIDCNativeClientSecret. intros H.
  case_decide as Hn; [by rewrite bool_decide_eq_true_2 in H by done; simplify_eq|].
  rewrite bool_decide_eq_false_2 in H by done. op_cases H.
  do 2 eexists. split_and!; [by eapply secretProblem_None|done..].
Qed.

Lemma resolveOIDCNativeTrustedCert_inr x key ns opts cert crl :
  resolveOIDCNativeTrustedCert x key ns opts = inr (cert, crl) →
  if decide (on_TrustedCertSecret x = "") then cert = po_defaultCABundle opts
  else fromTrustedCert (po_secretRefs opts) (keyOf ns (on_TrustedCertSecret x)) (po_defaultCABundle opts) cert.
Proof.
  unfold resolveOIDCNativeTrustedCert. intros H.
  case_decide as Hn; [by rewrite bool_decide_eq_true_2 in H by done; simplify_eq|].
  rewrite bool_decide_eq_false_2 in H by done. op_cases H.
  eexists. split; [by eapply secretProblem_None|]. unfold firstField. by rewrite head_lookup.
Qed.

Lemma addOIDCNativeConfig_written x key ns od opts locs p p' res locs' :
  addOIDCNativeConfig x key ns od opts locs p = (p', res, locs') → vr_isError res = false →
  written pc_OIDCProvider (set_OIDCProvider ∘ Some) (oidcNativeConfigured (po_secretRefs opts) key ns opts x) p p'.
Proof.
  unfold addOIDCNativeConfig. intros H Herr. case_bool_decide as Hp; [simplify_eq; left; eauto|]. bools.
  right. split; [done|]. case_bool_decide; [by simplify_eq|].
  destruct (resolveOIDCNativeClientSecret _ _ _ _) as [|secret] eqn:Hs; [by simplify_eq|].
  destruct (resolveOIDCNativeTrustedCert _ _ _ _) as [|[cert crl]] eqn:Hc; [by simplify_eq|].
  destruct (validateAndRegisterOIDCNativeLocations _ _ _ _ _ _) as [|[loc locs1]]; simplify_eq/=.
  apply resolveOIDCNativeClientSecret_inr in Hs. apply resolveOIDCNativeTrustedCert_inr in Hc.
  eexists. split; [|done]. split_and!; [done..|]. simpl. by intros ->.
Qed.

Lemma addAPIKeyConfig_written x key ns od refs p p' res :
  addAPIKeyConfig x key ns od refs p = Some (p', res) → vr_isError res = false →
  aka_Key (pc_APIKey p) = None ∧ ∃ v, apiKeyConfigured refs ns x v ∧ p' = set_APIKey v p.
Proof.
  unfold addAPIKeyConfig. intros H Herr. op_cases H. split; [done|].
  eexists. split; [|done]. split; [done|]. do 4 eexists. split_and!; [by eapply secretProblem_None|done..|].
  simpl. unfold generateAPIKeyClients. by rewrite range_perm.
Qed.

Lemma wafFetchedBundle_spec bv x key plm w res w' res' :
  wafFetchedBundle bv x key plm (wafBundle bv x key (w, res)) = (w', res') →
  vwaf_Enable w' = vwaf_Enable w ∧ vwaf_ApPolicy w' = vwaf_ApPolicy w ∧
  vwaf_ApSecurityLogEnable w' = vwaf_ApSecurityLogEnable w.
Proof.
  destruct (wafBundle bv x key (w, res)) as [w1 res1] eqn:Hw. unfold wafFetchedBundle, wafBundle in *. intros H.
  op_cases Hw; by op_cases H.
Qed.

Lemma addWAFConfig_written x key ns opts bv p p' res x' :
  addWAFConfig x key ns (po_apResources opts) (po_plmEnabled opts) bv p = (p', res, x') → vr_isError res = false →
  written pc_WAF (set_WAF ∘ Some) (wafConfigured ns opts x) p p'.
Proof.
  unfold addWAFConfig. intros H Herr. case_bool_decide as Hp; [simplify_eq; left; eauto|]. bools.
  right. split; [done|]. case_match eqn:Hpol; [|by simplify_eq].
  destruct (wafFetchedBundle _ _ _ _ _) as [w2 res2] eqn:Hw. apply wafFetchedBundle_spec in Hw as (He & Ha & Hl).
  assert (if decide (waf_ApPolicy x ≠ "" ∧ po_plmEnabled opts = false)
          then apr_Policies (po_apResources opts) !! qualify ns (waf_ApPolicy x) = Some (vwaf_ApPolicy w2)
          else vwaf_ApPolicy w2 = "") as Hap.
  { rewrite Ha. destruct (decide (waf_ApPolicy x ≠ "" ∧ _)) as [Hd|Hd].
    - destruct Hd as [Hd1 Hd2]. rewrite bool_decide_eq_false_2, Hd2 in Hpol by done. done.
    - destruct (po_plmEnabled opts); case_bool_decide; simplify_eq/=; try done. by destruct Hd. }
  destruct (waf_SecurityLogs (migrateSecurityLog x)) as [logs|] eqn:Hlogs.
  - destruct (wafLogs _ _ _ _ _ _ _ _) as [confs res3]. simplify_eq. eexists. split; [|done].
    split_and!; [done..|]. by rewrite Hlogs.
  - simplify_eq. eexists. split; [|done]. split_and!; [done..|]. by rewrite Hlogs, Hl.
Qed.

Lemma addHSTSConfig_written x key ctx p p' res :
  addHSTSConfig x key (ctx_context ctx) (po_tls (ctx_opts ctx)) p = (p', res) → vr_isError res = false →
  written pc_HSTS (set_HSTS ∘ Some) (hstsConfigured ctx x) p p'.
Proof.
  unfold addHSTSConfig. intros H Herr. op_cases H; bools; [by left|].
  right. split; [done|]. eexists. split; [|done]. split_and!; try done.
  match goal with H : _ && _ = false |- _ => apply andb_false_iff in H as [H|H]; bools; auto end.
Qed.
End Spec.
