(* ===== verification/PolicyConfigCorrect.v ===== *)
(** The configuration that generatePolicies computes for the policy references of
    a context: it refuses the traffic or carries out every reference; except for
    CORS, where the last reference decides, later references of a kind are ignored
    with a warning; what a reference configures comes from its policy and from
    secrets without an error. *)
From S2P Require Import Prelude GoStrings Objects ProxyBuffers HostValidation PolicyObjects.
From S2P Require Import PolicyValues NginxManager SecretStore Version2 PolicyConfig.
From S2P Require Import PolicyConfigAdd PolicyConfigGenerate PolicyConfigSpec.

(** ** Configurations that grow *)

Definition keeps {A} (o o' : option A) : Prop := ∀ x, o = Some x → o' = Some x.
#[export] Instance keeps_preorder {A} : PreOrder (@keeps A).
Proof. split; [by intros o x|]. intros a b c H1 H2 x Hx. by apply H2, H1. Qed.
Lemma keeps_None {A} (o o' : option A) : o = None → keeps o o'.
Proof. by intros -> x. Qed.
Lemma keeps_Some {A} (o o' : option A) : keeps o o' → is_Some o → is_Some o'.
Proof. intros H [x Hx]. exists x. by apply H. Qed.
#[export] Hint Resolve keeps_None : nic.

(** Every part of [p] that holds something is in [p'].  CORS is left out: the last
    CORS policy of a context replaces the headers of the others. *)
Record extends (p p' : policiesCfg) : Prop := {
  ext_Allow : pc_Allow p `prefix_of` pc_Allow p';
  ext_Deny : pc_Deny p `prefix_of` pc_Deny p';
  ext_Reqs : rlcfg_Reqs (pc_RateLimit p) `prefix_of` rlcfg_Reqs (pc_RateLimit p');
  ext_Zones : rlcfg_Zones (pc_RateLimit p) `prefix_of` rlcfg_Zones (pc_RateLimit p');
  ext_PolicyGroupMaps :
    rlcfg_PolicyGroupMaps (pc_RateLimit p) `prefix_of` rlcfg_PolicyGroupMaps (pc_RateLimit p');
  ext_Options : rlcfg_Reqs (pc_RateLimit p) ≠ [] → rlcfg_Options (pc_RateLimit p') = rlcfg_Options (pc_RateLimit p);
  ext_Auth : keeps (jac_Auth (pc_JWTAuth p)) (jac_Auth (pc_JWTAuth p'));
  ext_ExternalAuth : keeps (pc_ExternalAuth p) (pc_ExternalAuth p');
  ext_BasicAuth : keeps (pc_BasicAuth p) (pc_BasicAuth p');
  ext_IngressMTLS : keeps (pc_IngressMTLS p) (pc_IngressMTLS p');
  ext_EgressMTLS : keeps (pc_EgressMTLS p) (pc_EgressMTLS p');
  ext_OIDC : keeps (pc_OIDC p) (pc_OIDC p');
  ext_OIDCProvider : keeps (pc_OIDCProvider p) (pc_OIDCProvider p');
  ext_APIKey : is_Some (aka_Key (pc_APIKey p)) → pc_APIKey p' = pc_APIKey p;
  ext_WAF : keeps (pc_WAF p) (pc_WAF p');
  ext_Wallarm : keeps (pc_Wallarm p) (pc_Wallarm p');
  ext_Cache : keeps (pc_Cache p) (pc_Cache p');
  ext_HSTS : keeps (pc_HSTS p) (pc_HSTS p');
  ext_ErrorReturn : pc_ErrorReturn p' = pc_ErrorReturn p
}.
#[export] Instance extends_preorder : PreOrder extends.
Proof.
  split; [by intros p; constructor|]. intros a b c H1 H2. destruct H1, H2.
  constructor; try (by etrans); intros Hx.
  - rewrite ext_Options1; [by apply ext_Options0|]. intros Hy. rewrite Hy in ext_Reqs0.
    by apply prefix_nil_inv in ext_Reqs0.
  - assert (pc_APIKey b = pc_APIKey a) as Hab by auto. rewrite ext_APIKey1; [done|]. by rewrite Hab.
Qed.

Ltac solve_extends :=
  constructor; simpl; auto with nic; try done; try (by apply prefix_app_r).

(** takes the case of a policy's kind *)
Ltac kind_cases :=
  cbv zeta in *;
  repeat match goal with
  | H : caseOf ?o _ _ = _ |- _ => destruct o eqn:?; cbn [caseOf] in *
  | H : caseOf ?o _ _ |- _ => destruct o eqn:?; cbn [caseOf] in *
  | |- caseOf ?o _ _ => destruct o eqn:?; cbn [caseOf] in *
  end.

(** takes the alternatives of an effect *)
Ltac effect_cases :=
  repeat match goal with
  | H : _ ∨ _ |- _ => destruct H as [H|H]
  | H : written _ _ _ _ _ |- _ => destruct H as [H|H]
  | H : if decide _ then _ else _ |- _ => case_decide
  | H : _ ∧ _ |- _ => destruct H
  | H : ∃ _, _ |- _ => destruct H
  end; subst; try done.

Section Correct.
Context `{UL : URLLib} `{LT : UnicodeLower} `{PL : PolicyLib} `{MR : MapRange}.
Implicit Types (p : policiesCfg) (ctx : policyContext) (sm : sharedMaps) (pol : Policy).

(** ** One policy *)

Definition zoneOf ctx pol (x : RateLimit) : LimitReqZoneCfg :=
  let opts := ctx_opts ctx in
  let name := rateLimitZoneName pol (ctx_owner ctx) (po_zoneSync opts) in
  match rl_Condition x with
  | Some _ => (generateGroupedLimitReqZone name pol x (po_replicas opts) (ctx_owner ctx) (po_zoneSync opts)
                 (ctx_context ctx) (ctx_path ctx)).1
  | None => (generateLimitReqZone name pol x (po_replicas opts) (po_zoneSync opts)).1
  end.
Definition reqOf ctx pol (x : RateLimit) : LimitReqCfg :=
  generateLimitReq (rateLimitZoneName pol (ctx_owner ctx) (po_zoneSync (ctx_opts ctx))) x.

Definition rateLimitAdded ctx pol (x : RateLimit) p p' : Prop :=
  let rl := pc_RateLimit p in
  ∃ rl', p' = set_RateLimit rl' p ∧ rlcfg_Reqs rl' = rlcfg_Reqs rl ++ [reqOf ctx pol x] ∧
    rlcfg_Zones rl' = rlcfg_Zones rl ++ [zoneOf ctx pol x] ∧ rlcfg_GroupMaps rl' = rlcfg_GroupMaps rl ∧
    rlcfg_PolicyGroupMaps rl' = rlcfg_PolicyGroupMaps rl
      ++ (if rl_Condition x then [generateLRZPolicyGroupMap (zoneOf ctx pol x)] else []) ∧
    rlcfg_Options rl' =
      match rlcfg_Reqs rl with [] => generateLimitReqOptions x | _ => rlcfg_Options rl end.

Lemma addRateLimitConfig_added ctx pol x p p' res :
  addRateLimitConfig pol x (ctx_owner ctx) (po_replicas (ctx_opts ctx)) (po_zoneSync (ctx_opts ctx))
    (ctx_context ctx) (ctx_path ctx) p = (p', res) →
  rateLimitAdded ctx pol x p p' ∧ vr_isError res = false.
Proof.
  unfold addRateLimitConfig, rateLimitAdded, zoneOf. intros H.
  assert (∀ a b c d e r, vr_isError (overridden a b c d e r) = vr_isError r) as Hover by (by intros ????[]).
  destruct (rl_Condition x); simplify_eq/=; rewrite !Hover; (split; [|done]);
    eexists; (split_and!; [done..|]); simpl; rewrite length_app; destruct (rlcfg_Reqs _); simpl;
    try done; by rewrite Nat.add_comm.
Qed.

(** The headers are the policy's; several origins, or one with a wildcard, are told
    apart by a map. *)
Definition corsConfigured ctx (key : string) (x : CORS) p : Prop :=
  let name := generateCORSVariableName key (ctx_owner ctx) in
  ∃ origin, pc_CORSHeaders p = generateCORSHeaders x origin ∧
    match cors_AllowOrigin x with
    | [] => origin = ""
    | [o] => if decide (o = "*") then origin = "*"
             else if isWildcardOrigin o
             then origin = "$" +:+ name ∧ pc_CORSMap p = Some (generateCORSOriginMap [o] name)
             else origin = escapeNginxString o
    | origins => origin = "$" +:+ name ∧ pc_CORSMap p = Some (generateCORSOriginMap origins name)
    end.
Definition corsAdded ctx (key : string) (x : CORS) p p' : Prop :=
  corsConfigured ctx key x p' ∧ ∃ origin m, p' = set_CORSHeaders (generateCORSHeaders x origin) (set_CORSMap m p).

(** What the operation of a policy does when it reports no error *)
Definition policyAdded ctx (key ns : string) pol p p' : Prop :=
  let s := pol_Spec pol in
  let opts := ctx_opts ctx in
  let refs := po_secretRefs opts in
  caseOf (ps_AccessControl s) (λ x,
    p' = set_Deny (pc_Deny p ++ default [] (ac_Deny x)) (set_Allow (pc_Allow p ++ default [] (ac_Allow x)) p)) $
  caseOf (ps_RateLimit s) (λ x, rateLimitAdded ctx pol x p p') $
  caseOf (ps_JWTAuth s) (λ x, (p' = p ∧ jwt_Secret x = "" ∧ jwt_JwksURI x = "") ∨
    written (λ p, jac_Auth (pc_JWTAuth p)) (λ v, set_Auth v (bool_decide (jwt_Secret x = "")))
      (jwtConfigured refs key ns x) p p') $
  caseOf (ps_ExternalAuth s) (λ x,
    written pc_ExternalAuth (set_ExternalAuth ∘ Some) (externalAuthConfigured refs ns opts x) p p') $
  caseOf (ps_BasicAuth s) (λ x, written pc_BasicAuth (set_BasicAuth ∘ Some) (basicAuthConfigured refs ns x) p p') $
  caseOf (ps_IngressMTLS s) (λ x,
    written pc_IngressMTLS (set_IngressMTLS ∘ Some) (ingressMTLSConfigured refs ns ctx x) p p') $
  caseOf (ps_EgressMTLS s) (λ x, written pc_EgressMTLS (set_EgressMTLS ∘ Some) (egressMTLSConfigured refs ns x) p p') $
  caseOf (ps_OIDC s) (λ x,
    if decide (po_oidcPolicyName opts = "")
    then written pc_OIDC (set_OIDC ∘ Some) (oidcConfigured refs key ns opts x) p p'
    else (p' = p ∧ is_Some (pc_OIDC p)) ∨
         (pc_OIDC p = None ∧ po_oidcPolicyName opts = key ∧ p' = set_OIDC (po_oidcConfig opts) p)) $
  caseOf (ps_OIDCNative s) (λ x,
    written pc_OIDCProvider (set_OIDCProvider ∘ Some) (oidcNativeConfigured refs key ns opts x) p p') $
  caseOf (ps_APIKey s) (λ x,
    aka_Key (pc_APIKey p) = None ∧ ∃ v, apiKeyConfigured refs ns x v ∧ p' = set_APIKey v p) $
  caseOf (ps_WAF s) (λ x, written pc_WAF (set_WAF ∘ Some) (wafConfigured ns opts x) p p') $
  caseOf (ps_Wallarm s) (λ x, written pc_Wallarm (set_Wallarm ∘ Some) (wallarmConfigured x) p p') $
  caseOf (ps_Cache s) (λ x,
    written pc_Cache (set_Cache ∘ Some) (λ v, v = generateCacheConfig x (ctx_owner ctx)) p p') $
  caseOf (ps_CORS s) (λ x, corsAdded ctx key x p p') $
  caseOf (ps_HSTS s) (λ x, written pc_HSTS (set_HSTS ∘ Some) (hstsConfigured ctx x) p p') (p' = p).

Lemma addCORSConfig_added ctx x key p p' res :
  addCORSConfig x key (ctx_owner ctx) p = (p', res) → corsAdded ctx key x p p'.
Proof.
  unfold addCORSConfig. intros H.
  assert (set_CORSMap (pc_CORSMap p) p = p) as Hid by (by destruct p).
  match type of H with context [match ?x with _ => _ end] => destruct x as [origin p1] eqn:Ho end.
  simplify_eq. split.
  - exists origin. split; [done|]. destruct (cors_AllowOrigin x) as [|o [|o' l]]; [by simplify_eq| |].
    + destruct (decide (o = "*")) as [->|Hd]; [rewrite bool_decide_eq_true_2 in Ho by done; by simplify_eq|].
      rewrite bool_decide_eq_false_2 in Ho by congruence. case_match; by simplify_eq.
    + rewrite bool_decide_eq_false_2 in Ho by congruence. by simplify_eq.
  - exists origin. op_cases Ho; first [by eexists | exists (pc_CORSMap p1); by rewrite Hid].
Qed.

Lemma addWallarmConfig_written x key p p' res :
  addWallarmConfig x key p = (p', res) →
  written pc_Wallarm (set_Wallarm ∘ Some) (wallarmConfigured x) p p'.
Proof.
  unfold addWallarmConfig. intros H. case_bool_decide; bools; simplify_eq; [by left|].
  right. split; [done|]. eexists. by split; [|reflexivity].
Qed.

Lemma addCacheConfig_written x key od p p' res :
  addCacheConfig x key od p = (p', res) →
  written pc_Cache (set_Cache ∘ Some) (λ v, v = generateCacheConfig x od) p p'.
Proof.
  unfold addCacheConfig. intros H. case_bool_decide; bools; simplify_eq; [by left|].
  right. split; [done|]. eexists. by split; [|reflexivity].
Qed.

Lemma addPolicy_added ctx key ns name pol p sm p' res sm' :
  addPolicy ctx key ns name pol p sm = Some (p', res, sm') → vr_isError res = false →
  policyAdded ctx key ns pol p p'.
Proof.
  unfold addPolicy, policyAdded. intros H Herr. kind_cases.
  all: try (apply bind_Some in H as ([? ?] & H & ?)); simplify_eq/=.
  - unfold addAccessControlConfig in H. by simplify_eq.
  - by eapply addRateLimitConfig_added.
  - by eapply addJWTAuthConfig_written.
  - by eapply addExternalAuthConfig_written.
  - by eapply addBasicAuthConfig_written.
  - by eapply addIngressMTLSConfig_written.
  - by eapply addEgressMTLSConfig_written.
  - by eapply addOIDCConfig_written.
  - destruct (addOIDCNativeConfig _ _ _ _ _ _ _) as [[] ?] eqn:Ho. simplify_eq. by eapply addOIDCNativeConfig_written.
  - by eapply addAPIKeyConfig_written.
  - destruct (addWAFConfig _ _ _ _ _ _ _) as [[] ?] eqn:Ho. simplify_eq. by eapply addWAFConfig_written.
  - by eapply addWallarmConfig_written.
  - by eapply addCacheConfig_written.
  - by eapply addCORSConfig_added.
  - by eapply addHSTSConfig_written.
  - done.
Qed.

Lemma rateLimitAdded_extends ctx pol x p p' : rateLimitAdded ctx pol x p p' → extends p p'.
Proof.
  intros (rl' & -> & Hr & Hz & _ & Hg & Ho). constructor; simpl; rewrite ?Hr, ?Hz, ?Hg; auto with nic; try done;
    try by apply prefix_app_r.
  intros Hne. rewrite Ho. by destruct (rlcfg_Reqs (pc_RateLimit p)).
Qed.

Lemma policyAdded_extends ctx key ns pol p p' : policyAdded ctx key ns pol p p' → extends p p'.
Proof.
  unfold policyAdded, corsAdded. intros H. kind_cases; [|by eapply rateLimitAdded_extends|..]; effect_cases; try (by solve_extends).
  constructor; simpl; auto with nic; try done. intros [y Hy]. congruence.
Qed.

(** Only a policy of its kind writes a part. *)
Lemma policyAdded_other ctx key ns pol p p' k :
  policyAdded ctx key ns pol p p' → kindOf pol ≠ k → slotEmpty k p → slotEmpty k p'.
Proof.
  unfold policyAdded, kindOf. intros H Hk Hs. kind_cases; unfold rateLimitAdded, corsAdded in *; effect_cases; by destruct k.
Qed.
(** ** The policies while the loop runs *)

(** the write of addWAFConfig *)
Definition migratePolicy pol : Policy :=
  {| pol_Meta := pol_Meta pol;
     pol_Spec :=
       let s := pol_Spec pol in
       {| ps_IngressClass := ps_IngressClass s; ps_AccessControl := ps_AccessControl s;
          ps_RateLimit := ps_RateLimit s; ps_JWTAuth := ps_JWTAuth s; ps_BasicAuth := ps_BasicAuth s;
          ps_IngressMTLS := ps_IngressMTLS s; ps_EgressMTLS := ps_EgressMTLS s; ps_OIDC := ps_OIDC s;
          ps_OIDCNative := ps_OIDCNative s; ps_WAF := migrateSecurityLog <$> ps_WAF s; ps_Wallarm := ps_Wallarm s;
          ps_APIKey := ps_APIKey s; ps_Cache := ps_Cache s; ps_CORS := ps_CORS s;
          ps_ExternalAuth := ps_ExternalAuth s; ps_HSTS := ps_HSTS s |} |}.

Lemma migrateSecurityLog_idem x : migrateSecurityLog (migrateSecurityLog x) = migrateSecurityLog x.
Proof. by destruct x as [???? [] []]. Qed.
Lemma migratePolicy_idem pol : migratePolicy (migratePolicy pol) = migratePolicy pol.
Proof.
  destruct pol as [m s]. unfold migratePolicy. simpl. do 2 f_equal.
  destruct (ps_WAF s); simpl; [by rewrite migrateSecurityLog_idem|done].
Qed.
Lemma kindOf_migrate pol : kindOf (migratePolicy pol) = kindOf pol.
Proof. unfold kindOf. simpl. by destruct (ps_WAF (pol_Spec pol)). Qed.
Lemma supported_migrate pol : IsPolicySupportedOnIngress (migratePolicy pol) = IsPolicySupportedOnIngress pol.
Proof.
  unfold IsPolicySupportedOnIngress. simpl. do 2 f_equal. apply bool_decide_ext. by rewrite fmap_is_Some.
Qed.

Definition migrated sm sm' : Prop :=
  ∀ k, sm_policies sm' !! k = sm_policies sm !! k ∨ sm_policies sm' !! k = migratePolicy <$> sm_policies sm !! k.
#[export] Instance migrated_preorder : PreOrder migrated.
Proof.
  split; [by left|]. intros a b c H1 H2 k.
  destruct (H1 k) as [E1|E1], (H2 k) as [E2|E2]; rewrite E2, E1; auto.
  right. rewrite <-option_fmap_compose. apply option_fmap_ext. intros pol. apply migratePolicy_idem.
Qed.

Lemma migrated_lookup sm sm' k pol :
  migrated sm sm' → sm_policies sm' !! k = Some pol →
  ∃ pol0, sm_policies sm !! k = Some pol0 ∧ (pol = pol0 ∨ pol = migratePolicy pol0).
Proof.
  intros Hm Hk. destruct (Hm k) as [E|E]; rewrite E in Hk; [eauto|].
  apply fmap_Some in Hk as (pol0 & ? & ->). eauto.
Qed.

Lemma addWAFConfig_policy x key ns apr plm bv p p' res x' :
  addWAFConfig x key ns apr plm bv p = (p', res, x') → x' = x ∨ x' = migrateSecurityLog x.
Proof.
  unfold addWAFConfig. intros H. case_bool_decide; [simplify_eq; auto|]. case_match; [|simplify_eq; auto].
  destruct (wafFetchedBundle _ _ _ _ _). case_match; [|simplify_eq; auto]. destruct (wafLogs _ _ _ _ _ _ _ _). simplify_eq; auto.
Qed.

Lemma addPolicy_migrated ctx key ns name pol p sm p' res sm' :
  sm_policies sm !! key = Some pol →
  addPolicy ctx key ns name pol p sm = Some (p', res, sm') → migrated sm sm'.
Proof.
  unfold addPolicy. intros Hk H. kind_cases.
  all: try (apply bind_Some in H as ([? ?] & H & ?)); simplify_eq/=; try done.
  - by left.
  - destruct (addOIDCNativeConfig _ _ _ _ _ _ _) as [[] ?]. simplify_eq. by left.
  - destruct (addWAFConfig _ _ _ _ _ _ _) as [[] x'] eqn:Hw. simplify_eq. apply addWAFConfig_policy in Hw.
    intros k. simpl. destruct (decide (k = key)) as [->|Hne]; [|left; by rewrite lookup_alter_ne].
    rewrite lookup_alter_eq, Hk. simpl. unfold migratePolicy.
    match goal with H : ps_WAF _ = Some _ |- _ => rewrite H end.
    destruct pol as [m []]. simpl in *. destruct Hw as [->| ->]; subst; auto.
Qed.

(** ** What a reference configures *)

(** The parts that the policy of [key] puts into the configuration *)
Definition configuredBy ctx (key ns : string) pol p : Prop :=
  let s := pol_Spec pol in
  let opts := ctx_opts ctx in
  let refs := po_secretRefs opts in
  caseOf (ps_AccessControl s) (λ x, default [] (ac_Allow x) ⊆ pc_Allow p ∧ default [] (ac_Deny x) ⊆ pc_Deny p) $
  caseOf (ps_RateLimit s) (λ x, reqOf ctx pol x ∈ rlcfg_Reqs (pc_RateLimit p) ∧
                                zoneOf ctx pol x ∈ rlcfg_Zones (pc_RateLimit p)) $
  caseOf (ps_JWTAuth s) (λ x, jwt_Secret x ≠ "" ∨ jwt_JwksURI x ≠ "" →
    ∃ v, jac_Auth (pc_JWTAuth p) = Some v ∧ jwtConfigured refs key ns x v) $
  caseOf (ps_ExternalAuth s) (λ x, ∃ v, pc_ExternalAuth p = Some v ∧ externalAuthConfigured refs ns opts x v) $
  caseOf (ps_BasicAuth s) (λ x, ∃ v, pc_BasicAuth p = Some v ∧ basicAuthConfigured refs ns x v) $
  caseOf (ps_IngressMTLS s) (λ x, ∃ v, pc_IngressMTLS p = Some v ∧ ingressMTLSConfigured refs ns ctx x v) $
  caseOf (ps_EgressMTLS s) (λ x, ∃ v, pc_EgressMTLS p = Some v ∧ egressMTLSConfigured refs ns x v) $
  caseOf (ps_OIDC s) (λ x,
    if decide (po_oidcPolicyName opts = "") then ∃ v, pc_OIDC p = Some v ∧ oidcConfigured refs key ns opts x v
    else po_oidcPolicyName opts = key ∧ keeps (po_oidcConfig opts) (pc_OIDC p)) $
  caseOf (ps_OIDCNative s) (λ x, ∃ v, pc_OIDCProvider p = Some v ∧ oidcNativeConfigured refs key ns opts x v) $
  caseOf (ps_APIKey s) (λ x, apiKeyConfigured refs ns x (pc_APIKey p)) $
  caseOf (ps_WAF s) (λ x, ∃ v, pc_WAF p = Some v ∧ wafConfigured ns opts x v) $
  caseOf (ps_Wallarm s) (λ x, ∃ v, pc_Wallarm p = Some v ∧ wallarmConfigured x v) $
  caseOf (ps_Cache s) (λ x, pc_Cache p = Some (generateCacheConfig x (ctx_owner ctx))) $
  caseOf (ps_CORS s) (λ x, corsConfigured ctx key x p) $
  caseOf (ps_HSTS s) (λ x, ∃ v, pc_HSTS p = Some v ∧ hstsConfigured ctx x v) True.

Lemma policyAdded_configuredBy ctx key ns pol p p' :
  policyAdded ctx key ns pol p p' → slotEmpty (kindOf pol) p → configuredBy ctx key ns pol p'.
Proof.
  unfold policyAdded, configuredBy, kindOf. intros H Hs.
  kind_cases; unfold rateLimitAdded, corsAdded in *; simpl in Hs; effect_cases.
  all: try (match goal with H : is_Some (_ _) |- _ => rewrite Hs in H; by destruct H end).
  all: try (eexists; split; [reflexivity|done]).
  - split; apply list_subseteq_app_r; done.
  - simpl. rewrite H0, H1. split; apply elem_of_app; right; by left.
  - intros [?|?]; done.
Qed.

Lemma slotFull_extends k p p' : extends p p' → slotFull k p → slotFull k p'.
Proof.
  intros []. destruct k; simpl; try done; try by apply keeps_Some. intros Hk. by rewrite ext_APIKey0.
Qed.

Lemma prefix_subseteq {A} (l l1 l2 : list A) : l ⊆ l1 → l1 `prefix_of` l2 → l ⊆ l2.
Proof. intros H [k ->]. set_solver. Qed.
Lemma prefix_elem_of {A} (x : A) (l1 l2 : list A) : x ∈ l1 → l1 `prefix_of` l2 → x ∈ l2.
Proof. intros H [k ->]. set_solver. Qed.

(** the headers of CORS and their map stay *)
Definition sameCORS p p' : Prop := pc_CORSHeaders p' = pc_CORSHeaders p ∧ pc_CORSMap p' = pc_CORSMap p.
#[export] Instance sameCORS_preorder : PreOrder sameCORS.
Proof. split; [done|]. intros a b c [] []. split; congruence. Qed.
Lemma configuredBy_extends ctx key ns pol p p' :
  extends p p' → (kindOf pol = KCORS → sameCORS p p') → configuredBy ctx key ns pol p → configuredBy ctx key ns pol p'.
Proof.
  unfold configuredBy, kindOf. intros [] Hcors H. kind_cases; try done.
  all: try (destruct H as (v & Hv & H); exists v; split; [by eauto|done]).
  - destruct H. eauto using prefix_subseteq.
  - destruct H. eauto using prefix_elem_of.
  - intros Hx. destruct (H Hx) as (v & Hv & Hc). eauto.
  - case_decide; [destruct H as (v & Hv & H); eauto|]. destruct H as [? H]. split; [done|]. by etrans.
  - rewrite ext_APIKey0; [done|]. destruct H as (_ & ? & ? & ? & ? & _ & _ & _ & -> & _). eauto.
  - by eauto.
  - destruct (Hcors eq_refl) as [Hh Hm]. unfold corsConfigured. by rewrite Hh, Hm.
Qed.

Lemma configuredBy_migrate ctx key ns pol p :
  configuredBy ctx key ns (migratePolicy pol) p → configuredBy ctx key ns pol p.
Proof.
  unfold configuredBy. destruct pol as [m []]. simpl.
  destruct ps_WAF as [w|]; cbn [fmap option_fmap option_map caseOf]; intros H; [|done].
  kind_cases; try done. destruct H as (v & Hv & (H1 & H2 & H3)). exists v. split; [done|].
  destruct w as [???? [] []]; done.
Qed.
(** ** The loop *)

Definition supportedBy ctx pol : Prop :=
  od_parentType (ctx_owner ctx) = "ing" → IsPolicySupportedOnIngress pol = true.

(** the warnings of an object have the message *)
Definition warns (w : Warnings) (obj : nat) (msg : string) : Prop := ∃ l, w !! obj = Some l ∧ msg ∈ l.
Lemma AddWarning_warns w obj msg : warns (AddWarning w obj msg) obj msg.
Proof. unfold AddWarning, warns. rewrite lookup_insert_eq. eexists. split; [done|]. set_solver. Qed.
Lemma AddWarning_keeps w obj msg obj' msg' : warns w obj' msg' → warns (AddWarning w obj msg) obj' msg'.
Proof.
  intros (l & Hl & Hin). unfold AddWarning, warns. destruct (decide (obj = obj')) as [->|Hne].
  - rewrite lookup_insert_eq, Hl. eexists. split; [done|]. set_solver.
  - rewrite lookup_insert_ne by done. eauto.
Qed.
Lemma AddWarnings_keeps w obj msgs obj' msg' :
  warns w obj' msg' → warns (foldl (λ w msg, AddWarning w obj msg) w msgs) obj' msg'.
Proof. revert w. induction msgs; intros w Hw; simpl; auto using AddWarning_keeps. Qed.
Lemma AddWarnings_warns w obj msgs msg : msg ∈ msgs → warns (foldl (λ w msg, AddWarning w obj msg) w msgs) obj msg.
Proof.
  revert w. induction msgs as [|m msgs IH]; intros w; [by intros ?%elem_of_nil|].
  intros [->|Hin]%elem_of_cons; simpl; [apply AddWarnings_keeps, AddWarning_warns|auto].
Qed.

(** One round that goes on *)
Lemma addPolicies_round ctx r refs p w sm p' w' sm' :
  addPolicies ctx (r :: refs) p w sm = Some (inr p', w', sm') →
  ∃ pol p1 res sm1, let key := referenceKey (ctx_owner ctx) r in
    sm_policies sm !! key = Some pol ∧ supportedBy ctx pol ∧
    addPolicy ctx key (referenceNamespace (ctx_owner ctx) r) (pr_Name r) pol p sm = Some (p1, res, sm1) ∧
    vr_isError res = false ∧
    addPolicies ctx refs p1 (foldl (λ w msg, AddWarning w (od_owner (ctx_owner ctx)) msg) w (vr_warnings res)) sm1
    = Some (inr p', w', sm').
Proof.
  simpl. intros H. case_match eqn:Hk; [|done]. case_match eqn:Hs; [done|].
  apply bind_Some in H as ([[p1 res] sm1] & Hadd & H). destruct (vr_isError res) eqn:Herr; [done|].
  do 4 eexists. split_and!; [done| |done..].
  intros Hing. rewrite bool_decide_eq_true_2 in Hs by done. by apply negb_false_iff in Hs.
Qed.
Lemma addPolicies_cons ctx r refs p w sm p' w' sm' :
  addPolicies ctx (r :: refs) p w sm = Some (inr p', w', sm') →
  ∃ pol p1 w1 sm1, let key := referenceKey (ctx_owner ctx) r in
    sm_policies sm !! key = Some pol ∧ supportedBy ctx pol ∧
    policyAdded ctx key (referenceNamespace (ctx_owner ctx) r) pol p p1 ∧ migrated sm sm1 ∧
    addPolicies ctx refs p1 w1 sm1 = Some (inr p', w', sm').
Proof.
  intros (pol & p1 & res & sm1 & Hk & Hs & Hadd & Herr & H)%addPolicies_round.
  do 4 eexists. split_and!; [done..|by eapply addPolicy_added|by eapply addPolicy_migrated|done].
Qed.

Lemma addPolicies_extends ctx refs p w sm p' w' sm' :
  addPolicies ctx refs p w sm = Some (inr p', w', sm') → extends p p' ∧ migrated sm sm'.
Proof.
  revert p w sm. induction refs as [|r refs IH]; intros p w sm H; [simpl in H; by simplify_eq|].
  apply addPolicies_cons in H as (pol & p1 & w1 & sm1 & _ & _ & Hadd & Hm & H).
  apply IH in H as [He Hm']. apply policyAdded_extends in Hadd. split; by etrans.
Qed.
Lemma addPolicies_warns ctx refs p w sm p' w' sm' obj msg :
  addPolicies ctx refs p w sm = Some (inr p', w', sm') → warns w obj msg → warns w' obj msg.
Proof.
  revert p w sm. induction refs as [|r refs IH]; intros p w sm H Hw; [simpl in H; by simplify_eq|].
  apply addPolicies_round in H as (pol & p1 & res & sm1 & _ & _ & _ & _ & H).
  eapply IH; [exact H|]. by apply AddWarnings_keeps.
Qed.

(** ** References that are configured, ignored or replaced *)

Definition ignoredMsg (what key : string) : string := what +:+ " policy " +:+ key +:+ " will be ignored".

(** the operation [H] found [slot] full and reports [what] *)
Ltac ignored_as H slot what :=
  destruct slot; [|done];
  repeat match type of H with (if ?b then _ else _) = _ => destruct b eqn:?; [|by bools || by simplify_eq] end;
  simplify_eq/=; exists what; apply list_elem_of_singleton;
  unfold ignoredMsg, referenceKey, keyOf; rewrite ?string_app_assoc; reflexivity.

(** A second policy of a kind that takes one is reported and changes nothing. *)
Lemma addPolicy_full ctx r pol p sm p' res sm' :
  let key := referenceKey (ctx_owner ctx) r in
  addPolicy ctx key (referenceNamespace (ctx_owner ctx) r) (pr_Name r) pol p sm = Some (p', res, sm') →
  vr_isError res = false → ¬ slotEmpty (kindOf pol) p →
  ∃ what, ignoredMsg what key ∈ vr_warnings res.
Proof.
  cbv zeta. unfold addPolicy, kindOf. intros H Herr Hs. kind_cases; try (by destruct Hs).
  all: try (apply bind_Some in H as ([? ?] & H & ?)); simplify_eq/=.
  - unfold addJWTAuthConfig in H. ignored_as H (jac_Auth (pc_JWTAuth p)) "Multiple jwt policies in the same context is not valid. JWT".
  - unfold addExternalAuthConfig in H.
    ignored_as H (pc_ExternalAuth p) "Multiple external auth policies in the same context is not valid. External auth".
  - unfold addBasicAuthConfig in H. ignored_as H (pc_BasicAuth p) "Multiple basic auth policies in the same context is not valid. Basic auth".
  - unfold addIngressMTLSConfig in H. destruct (pc_IngressMTLS p) eqn:?; [|done]. op_cases H.
    by exists "Multiple ingressMTLS policies are not allowed. IngressMTLS"; apply list_elem_of_singleton.
  - unfold addEgressMTLSConfig in H. ignored_as H (pc_EgressMTLS p) "Multiple egressMTLS policies in the same context is not valid. EgressMTLS".
  - unfold addOIDCConfig in H. ignored_as H (pc_OIDC p) "Multiple oidc policies in the same context is not valid. OIDC".
  - unfold addOIDCNativeConfig in H. ignored_as H (pc_OIDCProvider p) "Multiple oidcNative policies in the same context is not valid. OIDCNative".
  - unfold addAPIKeyConfig in H. destruct (aka_Key _); [|done]. by simplify_eq.
  - unfold addWAFConfig in H. ignored_as H (pc_WAF p) "Multiple WAF policies in the same context is not valid. WAF".
  - unfold addWallarmConfig in H. ignored_as H (pc_Wallarm p) "Multiple Wallarm policies in the same context is not valid. Wallarm".
  - unfold addCacheConfig in H. ignored_as H (pc_Cache p) "Multiple cache policies in the same context is not valid. Cache".
  - unfold addHSTSConfig in H. destruct (pc_HSTS p); [|done]. op_cases H; bools.
    by exists "Multiple HSTS policies in the same context are not valid. HSTS"; apply list_elem_of_singleton.
Qed.
Lemma slotEmpty_dec k p : slotEmpty k p ∨ ¬ slotEmpty k p.
Proof. destruct k; simpl; try (by left); match goal with |- ?o = None ∨ _ => destruct o; auto end. Qed.

(** the reference has its policy, under its key in [pols] *)
Definition policyOf ctx (pols : gmap string Policy) (r : PolicyReference) : option Policy :=
  pols !! referenceKey (ctx_owner ctx) r.
Definition configuredAt ctx (r : PolicyReference) pol p : Prop :=
  configuredBy ctx (referenceKey (ctx_owner ctx) r) (referenceNamespace (ctx_owner ctx) r) pol p.

(** What becomes of the policy of the reference [r] between [pre] and [post].
    - Its part of the configuration is the one the policy asks for;
    - or the kind takes one policy and an earlier reference has it: that one's part is
      configured, and a warning of the owner says that this policy is ignored;
    - or it is CORS and a later reference replaces its headers. *)
Definition carriedOut ctx (pols : gmap string Policy) (pre : list PolicyReference) (r : PolicyReference)
    (post : list PolicyReference) (w : Warnings) pol p : Prop :=
  configuredAt ctx r pol p ∨
  (kindOf pol ∉ [KAccessControl; KRateLimit; KAPIKey; KCORS; KNone] ∧
   (∃ r0 pol0, r0 ∈ pre ∧ policyOf ctx pols r0 = Some pol0 ∧ kindOf pol0 = kindOf pol ∧ configuredAt ctx r0 pol0 p) ∧
   slotFull (kindOf pol) p ∧
   ∃ what, warns w (od_owner (ctx_owner ctx)) (ignoredMsg what (referenceKey (ctx_owner ctx) r))) ∨
  (kindOf pol = KCORS ∧ ∃ r1 pol1, r1 ∈ post ∧ policyOf ctx pols r1 = Some pol1 ∧ kindOf pol1 = KCORS).

(** every part that is taken is that of one of the references *)
Definition owned ctx (pols : gmap string Policy) (refs : list PolicyReference) p : Prop :=
  ∀ k, ¬ slotEmpty k p →
    ∃ r0 pol0, r0 ∈ refs ∧ policyOf ctx pols r0 = Some pol0 ∧ kindOf pol0 = k ∧ configuredAt ctx r0 pol0 p.

Lemma policyAdded_cors ctx key ns pol p p' : policyAdded ctx key ns pol p p' → kindOf pol ≠ KCORS → sameCORS p p'.
Proof.
  unfold policyAdded, kindOf. intros H Hk. kind_cases; unfold rateLimitAdded in *; effect_cases; by split.
Qed.
Lemma migratePolicy_configuredAt ctx r pol pol0 p :
  pol = pol0 ∨ pol = migratePolicy pol0 → configuredAt ctx r pol p → configuredAt ctx r pol0 p.
Proof. intros [->| ->]; [done|apply configuredBy_migrate]. Qed.
Lemma migratePolicy_kind pol pol0 : pol = pol0 ∨ pol = migratePolicy pol0 → kindOf pol = kindOf pol0.
Proof. intros [->| ->]; [done|apply kindOf_migrate]. Qed.
Lemma migratePolicy_supported ctx pol pol0 : pol = pol0 ∨ pol = migratePolicy pol0 → supportedBy ctx pol → supportedBy ctx pol0.
Proof. intros [->| ->]; [done|]. unfold supportedBy. by rewrite supported_migrate. Qed.

Lemma owned_step ctx sm0 done r pol pol0 p p1 :
  owned ctx (sm_policies sm0) done p → policyOf ctx (sm_policies sm0) r = Some pol0 →
  pol = pol0 ∨ pol = migratePolicy pol0 →
  policyAdded ctx (referenceKey (ctx_owner ctx) r) (referenceNamespace (ctx_owner ctx) r) pol p p1 →
  owned ctx (sm_policies sm0) (done ++ [r]) p1.
Proof.
  intros Hown Hk Hpol Hadd k Hk1. destruct (slotEmpty_dec k p) as [He|Hne].
  - assert (kindOf pol = k) as <-. { destruct (decide (kindOf pol = k)); [done|]. destruct Hk1. by eapply policyAdded_other. }
    exists r, pol0. split_and!; [set_solver|done|by rewrite (migratePolicy_kind _ _ Hpol)|].
    eapply migratePolicy_configuredAt; [exact Hpol|]. by eapply policyAdded_configuredBy.
  - destruct (Hown k Hne) as (r0 & pol1 & Hr0 & Hp0 & Hk0 & Hc). exists r0, pol1. split_and!; [set_solver|done..|].
    eapply configuredBy_extends; [by eapply policyAdded_extends| |exact Hc]. intros Hcors. rewrite Hcors in Hk0. subst k.
    by destruct Hne.
Qed.

(** the headers of CORS change only by a later CORS policy *)
Lemma addPolicies_sameCORS ctx sm0 refs p w sm p' w' sm' :
  migrated sm0 sm → addPolicies ctx refs p w sm = Some (inr p', w', sm') →
  sameCORS p p' ∨ ∃ r1 pol1, r1 ∈ refs ∧ policyOf ctx (sm_policies sm0) r1 = Some pol1 ∧ kindOf pol1 = KCORS.
Proof.
  revert p w sm. induction refs as [|r refs IH]; intros p w sm Hm0 H; [simpl in H; simplify_eq; by left|].
  apply addPolicies_cons in H as (pol & p1 & w1 & sm1 & Hk & _ & Hadd & Hm & H).
  destruct (migrated_lookup _ _ _ _ Hm0 Hk) as (pol0 & Hk0 & Hpol).
  destruct (decide (kindOf pol0 = KCORS)) as [Hc|Hc]; [right; exists r, pol0; split_and!; [by left|done..]|].
  destruct (IH _ _ _ (transitivity Hm0 Hm) H) as [Hs|(r1 & pol1 & Hr1 & ?)]; [left|right; exists r1, pol1; by split; [right|]].
  etrans; [|exact Hs]. eapply policyAdded_cors; [done|]. by rewrite (migratePolicy_kind _ _ Hpol).
Qed.

Lemma slotEmpty_full k p : ¬ slotEmpty k p → slotFull k p ∧ k ∉ [KAccessControl; KRateLimit; KCORS; KNone].
Proof.
  intros H. destruct k; simpl in *; try (by destruct H); (split; [by apply not_eq_None_Some|set_solver]).
Qed.
(** a second API key policy is an error *)
Lemma policyAdded_apiKey ctx key ns pol p p' : policyAdded ctx key ns pol p p' → kindOf pol = KAPIKey → slotEmpty KAPIKey p.
Proof. unfold policyAdded, kindOf. intros H Hk. kind_cases; try done. by destruct H. Qed.
Lemma round_carriedOut ctx sm0 done r refs p w sm pol pol0 p1 res sm1 p' w' sm' :
  migrated sm0 sm → owned ctx (sm_policies sm0) done p →
  policyOf ctx (sm_policies sm0) r = Some pol0 → pol = pol0 ∨ pol = migratePolicy pol0 →
  sm_policies sm !! referenceKey (ctx_owner ctx) r = Some pol →
  addPolicy ctx (referenceKey (ctx_owner ctx) r) (referenceNamespace (ctx_owner ctx) r) (pr_Name r) pol p sm
    = Some (p1, res, sm1) → vr_isError res = false →
  addPolicies ctx refs p1 (foldl (λ w msg, AddWarning w (od_owner (ctx_owner ctx)) msg) w (vr_warnings res)) sm1
    = Some (inr p', w', sm') →
  carriedOut ctx (sm_policies sm0) done r refs w' pol0 p'.
Proof.
  intros Hm0 Hown Hk0 Hpol Hk Hadd Herr H. pose proof (addPolicies_extends _ _ _ _ _ _ _ _ H) as [Hext _].
  pose proof (addPolicy_added _ _ _ _ _ _ _ _ _ _ Hadd Herr) as Hpa.
  pose proof (addPolicy_migrated _ _ _ _ _ _ _ _ _ _ Hk Hadd) as Hm.
  destruct (slotEmpty_dec (kindOf pol) p) as [He|Hne].
  - destruct (addPolicies_sameCORS _ _ _ _ _ _ _ _ _ (transitivity Hm0 Hm) H) as [Hs|Hlater].
    + left. eapply migratePolicy_configuredAt; [exact Hpol|].
      eapply configuredBy_extends; [exact Hext|done|]. by eapply policyAdded_configuredBy.
    + destruct (decide (kindOf pol0 = KCORS)) as [Hc|Hc]; [by do 2 right|]. left.
      eapply migratePolicy_configuredAt; [exact Hpol|].
      eapply configuredBy_extends; [exact Hext|by rewrite (migratePolicy_kind _ _ Hpol)|]. by eapply policyAdded_configuredBy.
  - right; left. destruct (slotEmpty_full _ _ Hne) as [Hfull Hkind].
    destruct (addPolicy_full _ _ _ _ _ _ _ _ Hadd Herr Hne) as [what Hw].
    destruct (Hown _ Hne) as (r0 & pol1 & Hr0 & Hp0 & Hk1 & Hc). rewrite <-(migratePolicy_kind _ _ Hpol).
    pose proof (transitivity (policyAdded_extends _ _ _ _ _ _ Hpa) Hext) as Hext'. split_and!.
    + intros Hin. assert (kindOf pol = KAPIKey) as Hapi by (clear -Hin Hkind; set_solver).
      destruct Hne. rewrite Hapi. by eapply policyAdded_apiKey.
    + exists r0, pol1. split_and!; [done..|]. eapply configuredBy_extends; [exact Hext'| |exact Hc].
      intros Hcors. rewrite Hk1 in Hcors. rewrite Hcors in Hkind. set_solver.
    + by eapply slotFull_extends.
    + exists what. eapply addPolicies_warns; [exact H|]. by apply AddWarnings_warns.
Qed.

(** Every reference of a loop that goes through is carried out. *)
Lemma addPolicies_carriedOut ctx sm0 refs : ∀ done p w sm p' w' sm',
  migrated sm0 sm → owned ctx (sm_policies sm0) done p →
  addPolicies ctx refs p w sm = Some (inr p', w', sm') →
  ∀ pre r post, refs = pre ++ r :: post →
    ∃ pol, policyOf ctx (sm_policies sm0) r = Some pol ∧ supportedBy ctx pol ∧
      carriedOut ctx (sm_policies sm0) (done ++ pre) r post w' pol p'.
Proof.
  induction refs as [|r1 refs IH]; intros done p w sm p' w' sm' Hm0 Hown H pre r post Hrefs; [by destruct pre|].
  apply addPolicies_round in H as (pol & p1 & res & sm1 & Hk & Hs & Hadd & Herr & H).
  destruct (migrated_lookup _ _ _ _ Hm0 Hk) as (pol0 & Hk0 & Hpol).
  destruct pre as [|r0 pre]; simplify_eq/=.
  - exists pol0. rewrite app_nil_r. split_and!; [done|by eapply migratePolicy_supported|]. by eapply round_carriedOut.
  - pose proof (addPolicy_migrated _ _ _ _ _ _ _ _ _ _ Hk Hadd) as Hm.
    rewrite (cons_middle r0 done pre), app_assoc. eapply IH; [by etrans| |exact H|done].
    eapply owned_step; [done..|]. by eapply addPolicy_added.
Qed.

(** ** Errors *)

Definition warned (res : validationResults) : Prop := vr_isError res = true → vr_warnings res ≠ [].
Lemma warned_setError msg res : warned (setError (addWarningf msg res)).
Proof. intros _. simpl. by intros []%app_nil. Qed.
Lemma warned_new : warned newValidationResults.
Proof. done. Qed.
Lemma warned_warn msg : warned (warnWith msg).
Proof. done. Qed.
Lemma warned_fail msg : warned (failWith msg).
Proof. done. Qed.
#[local] Hint Resolve warned_setError warned_new warned_warn warned_fail : nic.

Lemma wafLogs_warned bv key ns apr plm idx logs acc : warned acc.2 → warned (wafLogs bv key ns apr plm idx logs acc).2.
Proof.
  revert idx acc. induction logs as [|l logs IH]; intros idx acc Ha; [done|]. simpl. apply IH.
  unfold wafLog. destruct acc as [confs res]. repeat case_match; simplify_eq/=; auto with nic.
Qed.

Lemma addWAFConfig_warned x key ns apr plm bv p p' res x' :
  addWAFConfig x key ns apr plm bv p = (p', res, x') → warned res.
Proof.
  unfold addWAFConfig. intros H. case_bool_decide; [simplify_eq; auto with nic|].
  case_match; [|simplify_eq; auto with nic].
  destruct (wafFetchedBundle _ _ _ _ _) as [w2 res2] eqn:Hw.
  assert (warned res2) as H2.
  { unfold wafFetchedBundle, wafBundle in Hw. repeat case_match; simplify_eq/=; auto with nic. }
  case_match; [|by simplify_eq]. destruct (wafLogs _ _ _ _ _ _ _ _) as [confs res3] eqn:Hl. simplify_eq.
  pose proof (wafLogs_warned bv key ns apr plm 0 l ([], res2) H2) as Hw3. by rewrite Hl in Hw3.
Qed.

Lemma addPolicy_warned ctx key ns name pol p sm p' res sm' :
  addPolicy ctx key ns name pol p sm = Some (p', res, sm') → warned res.
Proof.
  unfold addPolicy. intros H. kind_cases.
  all: try (apply bind_Some in H as ([? ?] & H & ?)); simplify_eq/=; auto with nic.
  - unfold addAccessControlConfig in H. case_match; simplify_eq; auto with nic.
  - apply addRateLimitConfig_added in H as [_ Herr]. by unfold warned; rewrite Herr.
  - unfold addJWTAuthConfig in H. op_cases H; auto with nic.
  - unfold addExternalAuthConfig, configureExternalAuthSSL in H. repeat case_match; simplify_eq/=; auto with nic.
  - unfold addBasicAuthConfig in H. op_cases H; auto with nic.
  - unfold addIngressMTLSConfig in H. op_cases H; auto with nic. destruct (_ && _); auto with nic.
  - unfold addEgressMTLSConfig in H. op_cases H; auto with nic.
  - unfold addOIDCConfig in H. op_cases H; auto with nic.
  - destruct (addOIDCNativeConfig _ _ _ _ _ _ _) as [[] ?] eqn:Ho. simplify_eq.
    unfold addOIDCNativeConfig in Ho. op_cases Ho; auto with nic.
  - unfold addAPIKeyConfig in H. op_cases H; auto with nic.
  - destruct (addWAFConfig _ _ _ _ _ _ _) as [[] ?] eqn:Ho. simplify_eq. by eapply addWAFConfig_warned.
  - unfold addWallarmConfig in H. op_cases H; auto with nic.
  - unfold addCacheConfig in H. op_cases H; auto with nic.
  - unfold addCORSConfig in H. case_match; simplify_eq; auto with nic.
  - unfold addHSTSConfig in H. op_cases H; auto with nic.
Qed.

Lemma AddWarning_some w obj msg : ∃ msgs, AddWarning w obj msg !! obj = Some (msgs ++ [msg]).
Proof. unfold AddWarning. rewrite lookup_insert_eq. eauto. Qed.

Lemma AddWarnings_some w obj msgs :
  msgs ≠ [] → ∃ l, foldl (λ w msg, AddWarning w obj msg) w msgs !! obj = Some l ∧ l ≠ [].
Proof.
  destruct msgs as [|msg msgs _] using rev_ind; [done|]. intros _. rewrite foldl_snoc.
  destruct (AddWarning_some (foldl (λ w msg, AddWarning w obj msg) w msgs) obj msg) as [l ->].
  eexists. split; [done|]. by intros []%app_nil.
Qed.

(** the owner got a warning *)
Definition ownerWarned ctx (w : Warnings) : Prop := ∃ l, w !! od_owner (ctx_owner ctx) = Some l ∧ l ≠ [].
Lemma AddWarning_owner ctx w msg : ownerWarned ctx (AddWarning w (od_owner (ctx_owner ctx)) msg).
Proof.
  destruct (AddWarning_some w (od_owner (ctx_owner ctx)) msg) as [l Hl]. exists (l ++ [msg]).
  split; [done|]. by intros []%app_nil.
Qed.

Lemma addPolicies_error ctx refs p w sm c w' sm' :
  addPolicies ctx refs p w sm = Some (inl c, w', sm') → c = errorConfig ∧ ownerWarned ctx w'.
Proof.
  revert p w sm. induction refs as [|r refs IH]; intros p w sm H; [done|]. simpl in H.
  case_match eqn:Hk; [|simplify_eq; auto using AddWarning_owner].
  case_match; [simplify_eq; auto using AddWarning_owner|].
  apply bind_Some in H as ([[p1 res] sm1] & Hadd & H).
  destruct (vr_isError res) eqn:Herr; [|by eapply IH]. simplify_eq. split; [done|].
  apply AddWarnings_some. by eapply addPolicy_warned.
Qed.

(** ** generatePolicies *)

(** The configuration is the error, or the loop's with the group maps. *)
Lemma generatePolicies_cases ctx refs sm cfg w sm' :
  generatePolicies ctx refs sm = Some (cfg, w, sm') →
  (cfg = errorConfig ∧ ownerWarned ctx w) ∨
  (∃ p, addPolicies ctx refs newPoliciesConfig ∅ sm = Some (inr p, w, sm') ∧ extends p cfg ∧
        sameCORS p cfg ∧ rlcfg_Zones (pc_RateLimit cfg) = rlcfg_Zones (pc_RateLimit p) ∧
        rlcfg_PolicyGroupMaps (pc_RateLimit cfg) = rlcfg_PolicyGroupMaps (pc_RateLimit p) ∧
        (rlcfg_PolicyGroupMaps (pc_RateLimit p) ≠ [] →
         addGroupMaps (range "generatePolicies" (generateLRZGroupMaps (rlcfg_Zones (pc_RateLimit p))))
           (rlcfg_GroupMaps (pc_RateLimit p)) = Some (rlcfg_GroupMaps (pc_RateLimit cfg)))).
Proof.
  unfold generatePolicies. intros H. apply bind_Some in H as ([[[c|p] w1] sm1] & Hadd & H).
  - simplify_eq. left. by eapply addPolicies_error.
  - case_match eqn:Hg.
    + case_match eqn:Hm; simplify_eq.
      * right. exists p. split_and!; try done.
      * left. split; [done|]. apply AddWarning_owner.
    + simplify_eq. right. exists cfg. split_and!; try done.
      apply Nat.ltb_ge in Hg. by destruct (rlcfg_PolicyGroupMaps (pc_RateLimit cfg)); simpl in Hg; [|lia].
Qed.

Lemma carriedOut_extends ctx pols pre r post w pol p p' :
  extends p p' → sameCORS p p' → carriedOut ctx pols pre r post w pol p → carriedOut ctx pols pre r post w pol p'.
Proof.
  intros He Hs [Hc|[(Hk & (r0 & pol0 & Hr0 & Hp0 & Hk0 & Hc) & Hf & Hw)|Hl]]; [left|right; left|by do 2 right].
  - by eapply configuredBy_extends.
  - split_and!; [done| |by eapply slotFull_extends|done]. exists r0, pol0. split_and!; [done..|]. by eapply configuredBy_extends.
Qed.
Lemma owned_new ctx pols : owned ctx pols [] newPoliciesConfig.
Proof. intros k Hk. destruct Hk. by destruct k. Qed.

(** the references of a context in the policies [pols], all carried out *)
Definition referencesCarriedOut ctx (pols : gmap string Policy) (refs : list PolicyReference) (w : Warnings) cfg : Prop :=
  ∀ pre r post, refs = pre ++ r :: post →
    ∃ pol, policyOf ctx pols r = Some pol ∧ supportedBy ctx pol ∧ carriedOut ctx pols pre r post w pol cfg.

Lemma generatePolicies_carriedOut ctx sm0 refs sm cfg w sm' :
  migrated sm0 sm → generatePolicies ctx refs sm = Some (cfg, w, sm') →
  (cfg = errorConfig ∧ pc_ErrorReturn cfg = Some {| ret_Code := 500; ret_Text := "" |} ∧ ownerWarned ctx w) ∨
  (pc_ErrorReturn cfg = None ∧ referencesCarriedOut ctx (sm_policies sm0) refs w cfg).
Proof.
  intros Hm0 H. apply generatePolicies_cases in H as [[-> Hw]|(p & Hp & He & Hcors & _)]; [by left|]. right. split.
  - rewrite (ext_ErrorReturn _ _ He). apply addPolicies_extends in Hp as [Hx _]. by rewrite (ext_ErrorReturn _ _ Hx).
  - intros pre r post Hrefs.
    destruct (addPolicies_carriedOut _ _ _ [] _ _ _ _ _ _ Hm0 (owned_new _ _) Hp pre r post Hrefs) as (pol & Hk & Hs & Hc).
    exists pol. split_and!; [done..|]. by eapply carriedOut_extends.
Qed.

(** C7.  The policies of a context are carried out or its traffic is refused.
    generatePolicies returns the configuration that answers every request with
    500, and a warning for the owner; or a configuration without an error return
    in which every reference names an existing policy, supported by the kind of
    owner, and one of three things holds of the policy ([carriedOut]).  Its own
    part of the configuration is there ([configuredBy], kind by kind: its
    addresses among the allowed and denied ones, its limit and zone among the
    limits, its credentials, certificates and settings).  Or its kind takes one
    policy in a context, an earlier reference of the kind is configured, and a
    warning for the owner says that this policy is ignored.  Or it is a CORS
    policy and a later reference is one too, whose headers replace its own.
    Access control, rate limit and API key policies are never ignored. *)
Theorem policies_carried_out_or_refused ctx refs sm cfg w sm' :
  generatePolicies ctx refs sm = Some (cfg, w, sm') →
  (cfg = errorConfig ∧ pc_ErrorReturn cfg = Some {| ret_Code := 500; ret_Text := "" |} ∧ ownerWarned ctx w) ∨
  (pc_ErrorReturn cfg = None ∧ referencesCarriedOut ctx (sm_policies sm) refs w cfg).
Proof. by apply generatePolicies_carriedOut. Qed.

End Correct.

(** ** Examples *)

Module PolicySample.
#[export] Instance noURLs : URLLib :=
  {| url_Parse := λ _, inl "no URL"; url_ParseQuery := λ _, None; netip_ParseAddr := λ _, None;
     net_SplitHostPort := λ _, None; net_ParseIP := λ _, false; net_ParseCIDR := λ _, Some "no CIDR" |}.
#[export] Instance lower : UnicodeLower := {| unicodeLower := λ r, r |}.
#[export] Instance lib : PolicyLib := {| sha256Hex := λ s, s; os_Stat := λ _, None; intOutOfRange := 0 |}.
#[export] Instance order : MapRange := default_range.

Definition meta (name : string) : ObjectMeta :=
  {| om_Namespace := "default"; om_Name := name; om_UID := name; om_CreationTimestamp := 1; om_Generation := 1;
     om_Annotations := None; om_Labels := ∅ |}.
Definition accessSpec (ac : option AccessControl) (ba : option BasicAuth) : PolicySpec :=
  {| ps_IngressClass := ""; ps_AccessControl := ac; ps_RateLimit := None; ps_JWTAuth := None;
     ps_BasicAuth := ba; ps_IngressMTLS := None; ps_EgressMTLS := None; ps_OIDC := None;
     ps_OIDCNative := None; ps_WAF := None; ps_Wallarm := None; ps_APIKey := None; ps_Cache := None;
     ps_CORS := None; ps_ExternalAuth := None; ps_HSTS := None |}.
Definition allowLocal : Policy :=
  {| pol_Meta := meta "allow"; pol_Spec := accessSpec (Some {| ac_Allow := Some ["10.0.0.1"]; ac_Deny := None |}) None |}.
Definition passwords : Policy :=
  {| pol_Meta := meta "basic"; pol_Spec := accessSpec None (Some {| ba_Realm := "cafe"; ba_Secret := "users" |}) |}.
Definition otherPasswords : Policy :=
  {| pol_Meta := meta "basic2"; pol_Spec := accessSpec None (Some {| ba_Realm := "bar"; ba_Secret := "users" |}) |}.
Definition usersSecret : Secret :=
  {| sec_Meta := meta "users"; sec_Type := SecretTypeHtpasswd; sec_Data := {["htpasswd" := "admin:x"]} |}.

Definition context (secrets : gmap string SecretReference) : policyContext :=
  {| ctx_owner := {| od_owner := 0; od_ownerName := "cafe"; od_ownerNamespace := "default";
                     od_parentNamespace := "default"; od_parentName := "cafe"; od_parentType := "vs" |};
     ctx_context := specContext; ctx_path := "";
     ctx_opts := {| po_tls := true; po_zoneSync := false; po_secretRefs := secrets;
                    po_apResources := {| apr_Policies := ∅; apr_LogConfs := ∅ |}; po_defaultCABundle := "";
                    po_replicas := 1; po_oidcPolicyName := ""; po_oidcConfig := None; po_plmEnabled := false |};
     ctx_bundles := λ b, (b, None) |}.
Definition withUsers : gmap string SecretReference :=
  {["default/users" := {| sr_Secret := Some usersSecret; sr_Path := "/etc/nginx/secrets/default-users"; sr_Error := None |}]}.
Definition maps : sharedMaps :=
  {| sm_locations := None; sm_policies := {["default/allow" := allowLocal; "default/basic" := passwords]} |}.
Definition reference (name : string) : PolicyReference := {| pr_Name := name; pr_Namespace := "" |}.

(** a second basic authentication policy is ignored with a warning *)
Definition twoPasswords : sharedMaps :=
  {| sm_locations := None; sm_policies := <["default/basic2" := otherPasswords]> (sm_policies maps) |}.
Definition threeReferences : list PolicyReference := [reference "allow"; reference "basic"; reference "basic2"].
Lemma policies_carried_out_or_refused_witness :
  match generatePolicies (context withUsers) threeReferences twoPasswords with
  | Some (cfg, w, _) =>
      carriedOut (context withUsers) (sm_policies twoPasswords) [reference "allow"; reference "basic"] (reference "basic2") []
        w otherPasswords cfg ∧
      pc_Allow cfg = ["10.0.0.1"] ∧ vba_Realm <$> pc_BasicAuth cfg = Some "cafe" ∧
      w !! 0 = Some ["Multiple basic auth policies in the same context is not valid. Basic auth policy default/basic2 will be ignored"]
  | None => False
  end.
Proof.
  destruct (generatePolicies _ _ _) as [[[cfg w] sm]|] eqn:H; [|by vm_compute in H].
  destruct (policies_carried_out_or_refused (context withUsers) threeReferences twoPasswords cfg w sm H) as [(He & _)|(_ & Hall)].
  - exfalso. apply (f_equal (λ r, (pc_ErrorReturn ∘ fst ∘ fst) <$> r)) in H. vm_compute in H. by rewrite He in H.
  - destruct (Hall [reference "allow"; reference "basic"] (reference "basic2") [] eq_refl) as (pol & Hk & _ & Hc).
    vm_compute in Hk. injection Hk as <-. split; [exact Hc|].
    apply (f_equal (λ r, (λ x, (pc_Allow x.1.1, vba_Realm <$> pc_BasicAuth x.1.1, x.1.2 !! 0)) <$> r)) in H.
    vm_compute in H. injection H as H1 H2 H3. exact (conj (eq_sym H1) (conj (eq_sym H2) (eq_sym H3))).
Defined.


(** A policy that does not exist turns every request away. *)
Example missing_policy_refuses :
  match generatePolicies (context ∅) [reference "allow"; reference "gone"] maps with
  | Some (cfg, w, _) => cfg = errorConfig ∧ w !! 0 = Some ["Policy default/gone is missing or invalid"]
  | None => False
  end.
Proof. vm_compute. done. Qed.
End PolicySample.
