(* ===== verification/OIDCLocations.v ===== *)
(** The locations that OpenID Connect policies generate: over all the contexts of a
    server, which share the registry of oidcNativeLocations, no two providers
    render a location of the same path. *)
From S2P Require Import Prelude GoStrings Objects ProxyBuffers HostValidation PolicyObjects.
From S2P Require Import PolicyValues NginxManager SecretStore Version2.
From S2P Require Import PolicyConfig PolicyConfigAdd PolicyConfigGenerate PolicyConfigSpec.
From S2P Require Import PolicyConfigCorrect.

Notation registry := (gmap string oidcNativeLocationOwner).

(** the locations that a native provider renders, with their roles *)
Definition claims (v : OIDCProviderCfg) : list (string * string) :=
  [(op_RedirectURI v, oidcNativeRoleCallback); (op_ProxyLocation v, oidcNativeRoleProxy)]
  ++ match op_PostLogoutLocation v with Some loc => [(rloc_Path loc, oidcNativeRolePostLogout)] | None => [] end.
Definition claimedPaths (v : OIDCProviderCfg) : list string := (claims v).*1.

Definition owned (m : registry) (v : OIDCProviderCfg) : Prop :=
  ∀ path role, (path, role) ∈ claims v → m !! path = Some {| lo_provider := op_Name v; lo_role := role |}.
Definition njsOwned (m : registry) (o : OIDCCfg) : Prop :=
  ∀ path, path ∈ njsLocations (voidc_RedirectURI o) → m !! path = Some (njsOwner (voidc_RedirectURI o) path).

Lemma owned_mono m m' v : m ⊆ m' → owned m v → owned m' v.
Proof. intros Hsub H path role Hin. eapply lookup_weaken; [by apply H|done]. Qed.
Lemma njsOwned_mono m m' o : m ⊆ m' → njsOwned m o → njsOwned m' o.
Proof. intros Hsub H path Hin. eapply lookup_weaken; [by apply H|done]. Qed.

(** ** Writing a list of entries *)

(** entries that agree with a map, written to it, leave what it holds *)
Lemma foldl_insert_spec {A} (f : string → A) (paths : list string) (m : gmap string A) :
  (∀ path x, path ∈ paths → m !! path = Some x → x = f path) →
  m ⊆ foldl (λ m path, <[path := f path]> m) m paths ∧
  ∀ path, path ∈ paths → foldl (λ m path, <[path := f path]> m) m paths !! path = Some (f path).
Proof.
  intros Hagree.
  assert (∀ path, foldl (λ m path, <[path := f path]> m) m paths !! path =
    if decide (path ∈ paths) then Some (f path) else m !! path) as Hl.
  { clear Hagree. revert m. induction paths as [|p0 paths IH]; intros m path; cbn [foldl];
      [by rewrite decide_False by apply not_elem_of_nil|].
    rewrite IH. destruct (decide (path ∈ paths)) as [Hin|Hin]; [by rewrite decide_True by (by right)|].
    rewrite lookup_insert. case_decide as Hp; [subst; by rewrite decide_True by (by left)|].
    rewrite decide_False; [done|]. rewrite elem_of_cons. naive_solver. }
  split.
  - apply map_subseteq_spec. intros path x Hx. rewrite Hl. case_decide as Hin; [|done]. by rewrite (Hagree path x Hin Hx).
  - intros path Hin. rewrite Hl. by rewrite decide_True.
Qed.

(** ** The NJS implementation *)

Lemma njsRegister_spec m redirectURI :
  njsConflict (Some m) redirectURI = None →
  ∃ m', njsRegister (Some m) redirectURI = Some m' ∧ m ⊆ m' ∧
    ∀ path, path ∈ njsLocations redirectURI → m' !! path = Some (njsOwner redirectURI path).
Proof.
  intros Hc. eexists. split; [done|]. apply foldl_insert_spec. intros path x Hin Hx.
  destruct (decide (x = njsOwner redirectURI path)) as [|Hne]; [done|]. exfalso.
  assert ((path, x) ∈ omap (λ path, existing ← claimant (Some m) path;
      if bool_decide (existing = njsOwner redirectURI path) then None else Some (path, existing))
    (njsLocations redirectURI)) as Helem.
  { apply list_elem_of_omap. exists path. split; [done|]. simpl. rewrite Hx. simpl.
    by rewrite bool_decide_eq_false_2. }
  unfold njsConflict in Hc. destruct (omap _ _); [by apply elem_of_nil in Helem|done].
Qed.

(** ** The native implementation *)

Definition ownerOf (name role : string) : oidcNativeLocationOwner := {| lo_provider := name; lo_role := role |}.

Lemma checkNativeLocations_spec locs name locations merged merged' :
  checkNativeLocations locs name locations merged = inr merged' →
  (∀ path role existing, (path, role) ∈ locations → path ≠ "" → claimant locs path = Some existing →
     existing = ownerOf name role ∨
     role = oidcNativeRolePostLogout ∧ lo_role existing = oidcNativeRolePostLogout ∧ merged' = true) ∧
  (merged = true → merged' = true).
Proof.
  revert merged. induction locations as [|[path role] locations IH]; intros merged H; simpl in H.
  { simplify_eq. split; [|done]. by intros ??? ?%elem_of_nil. }
  destruct (checkNativeLocation locs name path role) as [|b] eqn:Hc; [done|].
  destruct (IH _ H) as [Hrest Hm]. split; [|intros ->; apply Hm; by rewrite orb_true_r].
  intros path' role' existing [[= -> ->]|Hin]%elem_of_cons Hne Hex; [|by eapply Hrest].
  unfold checkNativeLocation in Hc. rewrite bool_decide_eq_false_2, Hex in Hc by done.
  case_bool_decide as He; [by left|]. destruct (bool_decide (role = _)) eqn:Hr; [|done].
  destruct (bool_decide (lo_role existing = _)) eqn:Hr'; simplify_eq/=.
  apply bool_decide_eq_true in Hr, Hr'. right. split_and!; [done..|]. by apply Hm.
Qed.

Definition renderedPath (loc : option AuthOIDCReturnLocationCfg) : list string :=
  match loc with Some l => [rloc_Path l] | None => [] end.

Lemma insert_subseteq_agree {A} (m m' : gmap string A) path x :
  m ⊆ m' → (∀ y, m !! path = Some y → y = x) → m ⊆ <[path := x]> m'.
Proof.
  rewrite !map_subseteq_spec. intros Hsub Hagree p y Hy. rewrite lookup_insert. case_decide; [|by apply Hsub].
  subst. by rewrite (Hagree y Hy).
Qed.

Lemma foldl_register_subseteq name post m m' locations :
  m ⊆ m' →
  (∀ path role y, (path, role) ∈ locations → path ≠ "" → (role = oidcNativeRolePostLogout → post = true) →
     m !! path = Some y → y = ownerOf name role) →
  m ⊆ foldl (registerNativeLocation name post) m' locations.
Proof.
  revert m'. induction locations as [|[path role] locations IH]; intros m' Hsub Hagree; [done|]. cbn [foldl].
  apply IH; [|intros; eapply Hagree; [by right|done..]]. unfold registerNativeLocation.
  case_bool_decide; [done|]. case_bool_decide as Hr; [destruct post; [|done]|]; simpl;
    (apply insert_subseteq_agree; [done|]; intros y Hy; eapply Hagree; [by left|done..]).
Qed.

Lemma validateAndRegister_spec key name redirect post proxy m loc locs :
  validateAndRegisterOIDCNativeLocations key name redirect post proxy (Some m) = inr (loc, locs) →
  redirect ≠ "" → proxy ≠ "" →
  ∃ m', locs = Some m' ∧ m ⊆ m' ∧ (∀ l, loc = Some l → rloc_Path l = post) ∧
    (NoDup ([redirect; proxy] ++ renderedPath loc) →
     m' !! redirect = Some (ownerOf name oidcNativeRoleCallback) ∧ m' !! proxy = Some (ownerOf name oidcNativeRoleProxy) ∧
     (is_Some loc → m' !! post = Some (ownerOf name oidcNativeRolePostLogout))).
Proof.
  unfold validateAndRegisterOIDCNativeLocations. intros H Hr Hp.
  destruct (checkNativeLocations _ _ _ _) as [[? ?]|merged] eqn:Hc; [done|].
  apply checkNativeLocations_spec in Hc as [Hc _]. cbn [claimant mbind option_bind] in Hc.
  apply (inj inr), pair_eq in H as [<- <-].
  set (loc := if bool_decide (post = "") || merged then None else _).
  assert (is_Some loc → post ≠ "" ∧ merged = false) as Hloc.
  { subst loc. intros [l Hl]. case_bool_decide; [done|]. by destruct merged. }
  eexists. split; [reflexivity|]. split; [|split].
  - apply foldl_register_subseteq; [done|]. intros path role y Hin Hne Hpl Hy.
    destruct (Hc path role y Hin Hne Hy) as [?|(Hrole & _ & Hm)]; [done|].
    apply Hpl, bool_decide_eq_true, Hloc in Hrole as [_ ?]. congruence.
  - intros l. subst loc. case_match; [done|]. by intros [= <-].
  - intros Hnd. cbn [foldl]. unfold registerNativeLocation.
    rewrite (bool_decide_eq_false_2 _ Hr), (bool_decide_eq_false_2 _ Hp). simpl.
    destruct loc as [l|] eqn:El.
    + destruct (Hloc ltac:(eauto)) as [Hpost _]. rewrite (bool_decide_eq_false_2 _ Hpost). simpl in *.
      assert (rloc_Path l = post) as Hl. { revert El. subst loc. case_match; [done|]. by intros [= <-]. }
      rewrite Hl in Hnd. rewrite !NoDup_cons, !elem_of_cons in Hnd. destruct Hnd as (Hn1 & Hn2 & _).
      rewrite (lookup_insert_ne _ proxy redirect), (lookup_insert_ne _ post redirect), lookup_insert_eq by naive_solver.
      rewrite lookup_insert_eq, (lookup_insert_ne _ proxy post), lookup_insert_eq by naive_solver. done.
    + simpl in *. rewrite !NoDup_cons, !elem_of_cons in Hnd. destruct Hnd as (Hn1 & _ & _).
      rewrite orb_true_r. rewrite (lookup_insert_ne _ proxy redirect), !lookup_insert_eq by naive_solver.
      split_and!; [done..|]. by intros [? ?].
Qed.

(** ** The contexts of a server *)

Section Contexts.
Context `{UL : URLLib} `{LT : UnicodeLower} `{PL : PolicyLib} `{MR : MapRange}.
Implicit Types (p : policiesCfg) (ctx : policyContext) (sm : sharedMaps) (pol : Policy).

(** What is configured has its locations in the registry.  A context that is told
    the name of the server's OIDC policy reuses the configuration of another. *)
Definition located ctx (m : registry) p : Prop :=
  (∀ v, pc_OIDCProvider p = Some v → op_Name v ≠ oidcNJSOwner ∧ (NoDup (claimedPaths v) → owned m v)) ∧
  (po_oidcPolicyName (ctx_opts ctx) = "" → ∀ o, pc_OIDC p = Some o → njsOwned m o).

Lemma located_mono ctx m m' p : m ⊆ m' → located ctx m p → located ctx m' p.
Proof.
  intros Hsub [H1 H2]. split.
  - intros v Hv. destruct (H1 v Hv) as [Hn Ho]. split; [done|]. intros Hd. eapply owned_mono; eauto.
  - intros Hn o Ho. eapply njsOwned_mono; eauto.
Qed.

Lemma addOIDCConfig_located x key ns ctx m p p' res locs :
  addOIDCConfig x key ns (ctx_opts ctx) (Some m) p = Some (p', res, locs) →
  ∃ m', locs = Some m' ∧ m ⊆ m' ∧ (vr_isError res = false → located ctx m p → located ctx m' p').
Proof.
  unfold addOIDCConfig. intros H. case_bool_decide; [simplify_eq; eauto|]. case_bool_decide; [simplify_eq; eauto|].
  case_bool_decide as Hname; cbn [negb] in H.
  - apply bind_Some in H as (secret & _ & H). destruct secret; [simplify_eq; eauto|]. cbv zeta in H.
    destruct (njsConflict (Some m) _) as [[]|] eqn:Hc; [simplify_eq; eauto|].
    destruct (njsRegister_spec _ _ Hc) as (m' & Hreg & Hsub & Hown). rewrite Hreg in H.
    exists m'. case_match; simplify_eq; (split_and!; [done..|]); [done|]. intros _ Hloc.
    destruct (located_mono _ _ _ _ Hsub Hloc) as [Hp _]. split; [exact Hp|]. intros _ o [= <-] path Hin. by apply Hown.
  - case_bool_decide; simpl in H; simplify_eq; [|by eauto]. exists m. split_and!; [done..|]. intros _ [Hp _].
    split; [exact Hp|]. done.
Qed.

Lemma snake_prefix s : rfc1123ToSnake ("oidc_" +:+ s) ≠ oidcNJSOwner.
Proof. unfold rfc1123ToSnake. by cbn. Qed.

Lemma generateString_ne s d : d ≠ "" → generateString s d ≠ "".
Proof. unfold generateString. by case_bool_decide. Qed.

Lemma addOIDCNativeConfig_located x key ns od ctx m p p' res locs :
  addOIDCNativeConfig x key ns od (ctx_opts ctx) (Some m) p = (p', res, locs) →
  ∃ m', locs = Some m' ∧ m ⊆ m' ∧ (vr_isError res = false → located ctx m p → located ctx m' p').
Proof.
  unfold addOIDCNativeConfig. intros H. case_bool_decide; [simplify_eq; eauto|]. case_bool_decide; [simplify_eq; eauto|].
  destruct (resolveOIDCNativeClientSecret _ _ _ _); [simplify_eq; eauto|].
  destruct (resolveOIDCNativeTrustedCert _ _ _ _) as [|[cert crl]]; [simplify_eq; eauto|]. cbv zeta in H.
  destruct (validateAndRegisterOIDCNativeLocations _ _ _ _ _ _) as [|[loc locs1]] eqn:Hv; [simplify_eq; eauto|].
  apply validateAndRegister_spec in Hv as (m' & -> & Hsub & Hpath & Hown); [|by apply generateString_ne|done].
  exists m'. apply pair_eq in H as [H <-]. apply pair_eq in H as [<- <-]. split_and!; [done..|]. intros _ Hloc.
  destruct (located_mono _ _ _ _ Hsub Hloc) as [_ Ho]. split; [|exact Ho].
  intros v Hv. simpl in Hv. apply (inj Some) in Hv. subst v. split; [apply snake_prefix|]. intros Hd path role.
  unfold claimedPaths, claims in *. cbn [op_RedirectURI op_ProxyLocation op_PostLogoutLocation op_Name] in *.
  rewrite fmap_app in Hd.
  assert (NoDup ([generateString (on_RedirectURI x) ("/oidc_callback_" +:+ rfc1123ToSnake ("oidc_" +:+ ns +:+ "_"
    +:+ (ParseResourceReference key ns).2 +:+ "_" +:+ parentPrefix od)); "/_oidc_idp_" +:+ rfc1123ToSnake ("oidc_" +:+ ns +:+ "_"
    +:+ (ParseResourceReference key ns).2 +:+ "_" +:+ parentPrefix od)] ++ renderedPath loc)) as Hnd by (by destruct loc).
  destruct (Hown Hnd) as (Ho1 & Ho2 & Ho3). rewrite elem_of_app, !elem_of_cons, elem_of_nil.
  intros [[[= -> ->]|[[= -> ->]|[]]]|Hl]; [done|done|]. destruct loc as [l|]; [|by apply elem_of_nil in Hl].
  apply list_elem_of_singleton in Hl as [= -> ->]. rewrite (Hpath l eq_refl). apply Ho3. eauto.
Qed.

(** a step that leaves OpenID Connect alone *)
Definition keepsOIDC p p' : Prop := pc_OIDCProvider p' = pc_OIDCProvider p ∧ pc_OIDC p' = pc_OIDC p.
Lemma located_keeps ctx m p p' : keepsOIDC p p' → located ctx m p → located ctx m p'.
Proof. intros [H1 H2]. unfold located. by rewrite H1, H2. Qed.

Lemma addPolicy_located ctx key ns name pol p sm p' res sm' m :
  addPolicy ctx key ns name pol p sm = Some (p', res, sm') → sm_locations sm = Some m →
  ∃ m', sm_locations sm' = Some m' ∧ m ⊆ m' ∧ (vr_isError res = false → located ctx m p → located ctx m' p').
Proof.
  intros H Hm. pose proof H as Hadd. unfold addPolicy in H.
  enough (match kindOf pol with KOIDC | KOIDCNative => True | _ => sm_locations sm' = sm_locations sm end ∧
          match kindOf pol with KOIDC | KOIDCNative => ∃ m', sm_locations sm' = Some m' ∧ m ⊆ m' ∧
            (vr_isError res = false → located ctx m p → located ctx m' p') | _ => True end) as [Hsame Hspec].
  { destruct (kindOf pol) eqn:Hk; try done; exists m; (split_and!; [congruence|done|]); intros Herr Hloc;
      (eapply located_keeps; [|done]); apply addPolicy_added in Hadd; try done;
      unfold policyAdded, kindOf in *; kind_cases; unfold rateLimitAdded, corsAdded in *; effect_cases. }
  unfold kindOf. kind_cases.
  all: try (apply bind_Some in H as ([? ?] & H & ?)); simplify_eq/=; try done.
  - split; [done|]. rewrite Hm in H. by eapply addOIDCConfig_located.
  - split; [done|]. destruct (addOIDCNativeConfig _ _ _ _ _ _ _) as [[p1 res1] locs] eqn:Ho. simplify_eq.
    rewrite Hm in Ho. by eapply addOIDCNativeConfig_located.
  - destruct (addWAFConfig _ _ _ _ _ _ _) as [[] ?]. by simplify_eq.
Qed.

Lemma addPolicies_located ctx refs p w sm r w' sm' m :
  addPolicies ctx refs p w sm = Some (r, w', sm') → sm_locations sm = Some m →
  ∃ m', sm_locations sm' = Some m' ∧ m ⊆ m' ∧
    (∀ p', r = inr p' → located ctx m p → located ctx m' p').
Proof.
  revert p w sm m. induction refs as [|ref refs IH]; intros p w sm m H Hm; simpl in H.
  { simplify_eq. exists m. split_and!; [done..|]. by intros p' [= ->]. }
  case_match eqn:Hk; [|simplify_eq; exists m; (split_and!; [done..|]); by intros p' [=]].
  case_match eqn:Hs; [simplify_eq; exists m; (split_and!; [done..|]); by intros p' [=]|].
  apply bind_Some in H as ([[p1 res] sm1] & Hadd & H).
  destruct (addPolicy_located _ _ _ _ _ _ _ _ _ _ _ Hadd Hm) as (m1 & Hm1 & Hsub & Hloc).
  destruct (vr_isError res).
  - simplify_eq. exists m1. split_and!; [done..|]. by intros p' [=].
  - destruct (IH _ _ _ _ H Hm1) as (m' & Hm' & Hsub' & Hloc'). exists m'. split_and!; [done|by etrans|].
    intros p' -> Hl. by apply Hloc', Hloc.
Qed.

Lemma generatePolicies_located ctx refs sm cfg w sm' m :
  generatePolicies ctx refs sm = Some (cfg, w, sm') → sm_locations sm = Some m →
  ∃ m', sm_locations sm' = Some m' ∧ m ⊆ m' ∧ located ctx m' cfg.
Proof.
  unfold generatePolicies. intros H Hm. apply bind_Some in H as ([[r w1] sm1] & Hadd & H).
  assert (located ctx m newPoliciesConfig) as H0 by done. assert (∀ m', located ctx m' errorConfig) as Herr by done.
  pose proof Hadd as Hcases. apply (addPolicies_located _ _ _ _ _ _ _ _ m) in Hadd as (m' & Hm' & Hsub & Hloc); [|done].
  exists m'. destruct r as [c|p].
  - apply addPolicies_error in Hcases as [-> _]. simplify_eq. auto.
  - specialize (Hloc p eq_refl H0). repeat case_match; simplify_eq; auto.
Qed.

(** The contexts of a server one after the other: its policies, those of its routes
    and of its subroutes.  They share the maps. *)
Fixpoint generateAll (contexts : list (policyContext * list PolicyReference)) sm : option (list policiesCfg * sharedMaps) :=
  match contexts with
  | [] => Some ([], sm)
  | (ctx, refs) :: rest =>
      '(cfg, _, sm) ← generatePolicies ctx refs sm;
      '(cfgs, sm) ← generateAll rest sm;
      Some (cfg :: cfgs, sm)
  end.

Lemma generateAll_located contexts sm cfgs sm' m :
  generateAll contexts sm = Some (cfgs, sm') → sm_locations sm = Some m →
  ∃ m', m ⊆ m' ∧ ∀ i c cfg, contexts !! i = Some c → cfgs !! i = Some cfg → located c.1 m' cfg.
Proof.
  revert sm m cfgs. induction contexts as [|[ctx refs] contexts IH]; intros sm m cfgs H Hm; simpl in H.
  { exists m. split; [done|]. by intros i c cfg ?. }
  apply bind_Some in H as ([[cfg w] sm1] & Hg & H). apply bind_Some in H as ([cfgs1 sm2] & Hrest & H). simplify_eq.
  destruct (generatePolicies_located _ _ _ _ _ _ _ Hg Hm) as (m1 & Hm1 & Hsub & Hloc).
  destruct (IH _ _ _ Hrest Hm1) as (m' & Hsub' & Hall). exists m'. split; [by etrans|].
  intros [|i] c cfg' Hc Hcfg; simpl in *; simplify_eq; [by eapply located_mono|by eapply Hall].
Qed.

(** C14.  No location is rendered twice.  Over all the contexts of a server, which
    share the registry, two native providers of different names, each with
    distinct locations of its own, have no callback, proxy or rendered post-logout
    location in common, and none of them is a location of an NJS configuration that
    was made in its own context (one with an empty oidcPolicyName: the others take
    over the configuration of an earlier context).  A provider can still collide
    with itself, see [own_locations_collide].  A duplicate location would make NGINX reject the whole configuration. *)
Theorem oidc_locations_never_collide contexts sm cfgs sm' i j ci cj cfgi cfgj v :
  generateAll contexts sm = Some (cfgs, sm') → is_Some (sm_locations sm) →
  contexts !! i = Some ci → cfgs !! i = Some cfgi → contexts !! j = Some cj → cfgs !! j = Some cfgj →
  pc_OIDCProvider cfgi = Some v → NoDup (claimedPaths v) →
  (∀ u, pc_OIDCProvider cfgj = Some u → NoDup (claimedPaths u) → op_Name u ≠ op_Name v →
     ∀ path, path ∈ claimedPaths v → path ∉ claimedPaths u) ∧
  (∀ o, pc_OIDC cfgj = Some o → po_oidcPolicyName (ctx_opts cj.1) = "" →
     ∀ path, path ∈ claimedPaths v → path ∉ njsLocations (voidc_RedirectURI o)).
Proof.
  intros Hall [m Hm] Hci Hi Hcj Hj Hv Hnd. destruct (generateAll_located _ _ _ _ _ Hall Hm) as (m' & _ & Hloc).
  destruct (Hloc i ci cfgi Hci Hi) as [Hiv _], (Hloc j cj cfgj Hcj Hj) as [Hju Hjo]. clear Hloc.
  destruct (Hiv v Hv) as [Hne Hown]. specialize (Hown Hnd).
  assert (∀ u path, path ∈ claimedPaths u → ∃ role, (path, role) ∈ claims u) as Hrole.
  { intros u path ([p role] & -> & Hin)%list_elem_of_fmap. eauto. }
  split.
  - intros u Hu Hndu Hnames path (role & Hin)%Hrole (role' & Hin')%Hrole.
    destruct (Hju u Hu) as [_ Hownu]. specialize (Hownu Hndu path role' Hin'). rewrite (Hown path role Hin) in Hownu.
    injection Hownu as ?. congruence.
  - intros o Ho Hname path (role & Hin)%Hrole Hin'. specialize (Hjo Hname o Ho path Hin').
    rewrite (Hown path role Hin) in Hjo. injection Hjo as ? _. done.
Qed.
End Contexts.

(** ** Examples *)

Section Examples.
Import PolicySample.

Definition nativePolicy (name redirect postLogout : string) : Policy :=
  {| pol_Meta := meta name;
     pol_Spec :=
       {| ps_IngressClass := ""; ps_AccessControl := None; ps_RateLimit := None; ps_JWTAuth := None;
          ps_BasicAuth := None; ps_IngressMTLS := None; ps_EgressMTLS := None; ps_OIDC := None;
          ps_OIDCNative := Some {| on_Issuer := "https://idp.example.com"; on_ClientID := name; on_ClientSecret := "";
            on_ConfigURL := ""; on_Scope := "openid"; on_RedirectURI := redirect; on_CookieName := "";
            on_ExtraAuthArgs := ""; on_PKCE := ""; on_LogoutURI := ""; on_PostLogoutRedirectURI := postLogout;
            on_FrontChannelLogoutURI := ""; on_LogoutTokenHint := false; on_SessionTimeout := "";
            on_UserInfoEnable := false; on_TrustedCertSecret := ""; on_SSLVerify := None; on_SSLName := "";
            on_SSLVerifyDepth := None; on_ProxyBufferSize := "" |};
          ps_WAF := None; ps_Wallarm := None; ps_APIKey := None; ps_Cache := None;
          ps_CORS := None; ps_ExternalAuth := None; ps_HSTS := None |} |}.

Definition providers : sharedMaps :=
  {| sm_locations := Some ∅;
     sm_policies := {["default/tea" := nativePolicy "tea" "" "/bye"; "default/coffee" := nativePolicy "coffee" "" "/bye";
                      "default/clash" := nativePolicy "clash" "/bye" "";
                      "default/twice" := nativePolicy "twice" "/same" "/same"]} |}.
Definition routes (names : list string) : list (policyContext * list PolicyReference) :=
  (λ n, (context ∅, [reference n])) <$> names.
Definition pathsOf (names : list string) : list (option (list string)) :=
  match generateAll (routes names) providers with
  | Some (cfgs, _) => (λ cfg, claimedPaths <$> pc_OIDCProvider cfg) <$> cfgs
  | None => []
  end.

(** Two providers share a post-logout page, which the first renders; a callback on
    that page is refused. *)
Example post_logout_merges :
  pathsOf ["tea"; "coffee"; "clash"] =
  [Some ["/oidc_callback_oidc_default_tea_default_cafe_vs"; "/_oidc_idp_oidc_default_tea_default_cafe_vs"; "/bye"];
   Some ["/oidc_callback_oidc_default_coffee_default_cafe_vs"; "/_oidc_idp_oidc_default_coffee_default_cafe_vs"]; None].
Proof. vm_compute. reflexivity. Qed.

(** One provider whose callback is its own post-logout page renders both. *)
Example own_locations_collide :
  pathsOf ["twice"] = [Some ["/same"; "/_oidc_idp_oidc_default_twice_default_cafe_vs"; "/same"]].
Proof. vm_compute. reflexivity. Qed.

Lemma oidc_locations_never_collide_witness :
  match generateAll (routes ["tea"; "coffee"]) providers with
  | Some ([tea; coffee], _) => ∀ v u, pc_OIDCProvider tea = Some v → pc_OIDCProvider coffee = Some u →
      ∀ path, path ∈ claimedPaths v → path ∉ claimedPaths u
  | _ => False
  end.
Proof.
  destruct (generateAll _ _) as [[[|tea [|coffee []]] sm']|] eqn:Hall; try (vm_compute in Hall; discriminate Hall).
  assert ((λ c, (λ v, (op_Name v, claimedPaths v)) <$> pc_OIDCProvider c) <$> [tea; coffee] = 
    [Some ("oidc_default_tea_default_cafe_vs",
           ["/oidc_callback_oidc_default_tea_default_cafe_vs"; "/_oidc_idp_oidc_default_tea_default_cafe_vs"; "/bye"]);
     Some ("oidc_default_coffee_default_cafe_vs",
           ["/oidc_callback_oidc_default_coffee_default_cafe_vs"; "/_oidc_idp_oidc_default_coffee_default_cafe_vs"])]) as Hp.
  { change [tea; coffee] with (from_option fst [] (Some ([tea; coffee], sm'))). rewrite <-Hall. vm_compute. reflexivity. }
  cbn [fmap list_fmap] in Hp. intros v u Hv Hu. rewrite Hv, Hu in Hp. cbn [fmap option_fmap option_map] in Hp.
  pose proof (f_equal (.!! 0) Hp) as [Hn1 Hp1]%(inj Some)%(inj Some)%pair_eq.
  pose proof (f_equal (.!! 1) Hp) as [Hn2 Hp2]%(inj Some)%(inj Some)%pair_eq.
  apply (oidc_locations_never_collide (routes ["tea"; "coffee"]) providers [tea; coffee] sm' 0 1
    (context ∅, [reference "tea"]) (context ∅, [reference "coffee"]) tea coffee v Hall); try reflexivity.
  - by eexists.
  - exact Hv.
  - rewrite Hp1. apply (bool_decide_eq_true_1 (NoDup _)). vm_compute. reflexivity.
  - exact Hu.
  - rewrite Hp2. apply (bool_decide_eq_true_1 (NoDup _)). vm_compute. reflexivity.
  - rewrite Hn1, Hn2. discriminate.
Defined.
End Examples.
