(* ===== verification/TieredLimits.v ===== *)
(** Tiered rate limits: the zones of the conditional rate-limit policies of a context
    are wired to the variable of their condition by two layers of maps.  The group
    map of a variable turns a value of the condition into the name of a tier; the
    map of each zone turns the name of its tier into the key of the zone. *)
From S2P Require Import Prelude GoStrings Objects ProxyBuffers HostValidation PolicyObjects.
From S2P Require Import PolicyValues NginxManager SecretStore Version2.
From S2P Require Import PolicyConfig PolicyConfigAdd PolicyConfigGenerate PolicyConfigSpec.
From S2P Require Import PolicyConfigCorrect.

(** the entries of a zone in the group map of its variable *)
Definition groupParameters (z : LimitReqZoneCfg) : list ParameterCfg :=
  {| pm_Value := lrz_GroupValue z; pm_Result := lrz_PolicyValue z |}
  :: (if lrz_GroupDefault z then [{| pm_Value := "default"; pm_Result := lrz_PolicyValue z |}] else []).
(** the zones of a variable, in order *)
Definition tierOf (variable : string) (zones : list LimitReqZoneCfg) : list LimitReqZoneCfg :=
  filter (λ z, lrz_GroupVariable z = variable) zones.

(** The group map of a variable holds the entries of its zones, the latest first,
    and reads the source of the latest. *)
Lemma generateLRZGroupMaps_spec zones variable :
  variable ≠ "" →
  generateLRZGroupMaps zones !! variable =
  (λ z, {| mp_Source := lrz_GroupSource z; mp_Variable := variable;
           mp_Parameters := reverse (tierOf variable zones) ≫= groupParameters |}) <$> last (tierOf variable zones).
Proof.
  intros Hv. unfold generateLRZGroupMaps, tierOf. induction zones as [|z zones IH] using rev_ind; [done|].
  rewrite foldl_snoc, filter_app. unfold addGroupParameters at 1. rewrite filter_cons, filter_nil.
  case_decide as Hz.
  - rewrite bool_decide_eq_false_2 by congruence. rewrite Hz, lookup_insert_eq, last_snoc, reverse_snoc, IH. simpl. do 2 f_equal.
    unfold groupParameters at 1. simpl. f_equal. f_equal.
    destruct (last (filter _ zones)) as [z'|] eqn:Hl; [done|]. by apply last_None in Hl as ->.
  - rewrite app_nil_r. case_bool_decide; [done|]. by rewrite lookup_insert_ne.
Qed.

Lemma addGroupMaps_spec maps acc groupMaps :
  addGroupMaps maps acc = Some groupMaps →
  groupMaps = acc ++ maps.*2 ∧ ∀ mp, mp ∈ maps.*2 → hasDuplicateMapDefaults mp = false.
Proof.
  revert acc. induction maps as [|[k v] maps IH]; intros acc H; simpl in *.
  { simplify_eq. rewrite app_nil_r. split; [done|]. by intros mp ?%elem_of_nil. }
  destruct (hasDuplicateMapDefaults v) eqn:Hd; [done|]. apply IH in H as [-> Hall]. rewrite <-app_assoc.
  split; [done|]. intros mp [->|?]%elem_of_cons; auto.
Qed.

Section Tiers.
Context `{UL : URLLib} `{LT : UnicodeLower} `{PL : PolicyLib} `{MR : MapRange}.
Implicit Types (p : policiesCfg) (ctx : policyContext) (sm : sharedMaps) (pol : Policy).

(** every conditional zone has the map of its key *)
Definition zonesKeyed p : Prop :=
  ∀ z, z ∈ rlcfg_Zones (pc_RateLimit p) → lrz_GroupVariable z ≠ "" →
    generateLRZPolicyGroupMap z ∈ rlcfg_PolicyGroupMaps (pc_RateLimit p).

Lemma plain_zone name pol x replicas zoneSync : lrz_GroupVariable (generateLimitReqZone name pol x replicas zoneSync).1 = "".
Proof. unfold generateLimitReqZone. by repeat case_match. Qed.

Lemma policyAdded_keyed ctx key ns pol p p' : policyAdded ctx key ns pol p p' → zonesKeyed p → zonesKeyed p'.
Proof.
  intros H Hp. assert (pc_RateLimit p' = pc_RateLimit p ∨ ∃ x, rateLimitAdded ctx pol x p p') as [Heq|(x & rl & -> & _ & Hz & _ & Hm & _)].
  { unfold policyAdded, corsAdded in H. kind_cases; try (right; by eexists); left; effect_cases. }
  - unfold zonesKeyed. by rewrite Heq.
  - intros z. simpl. rewrite Hz, Hm, !elem_of_app, list_elem_of_singleton. intros [Hin| ->] Hv; [left; by apply Hp|].
    unfold zoneOf in *. destruct (rl_Condition x); [right; by left|]. by rewrite plain_zone in Hv.
Qed.

Lemma addPolicies_keyed ctx refs p w sm p' w' sm' :
  addPolicies ctx refs p w sm = Some (inr p', w', sm') → zonesKeyed p → zonesKeyed p'.
Proof.
  revert p w sm. induction refs as [|r refs IH]; intros p w sm H Hp; [simpl in H; by simplify_eq|].
  apply addPolicies_cons in H as (pol & p1 & w1 & sm1 & _ & _ & Hadd & _ & H).
  eapply IH; [done|]. by eapply policyAdded_keyed.
Qed.

(** C15.  Tiered rate limits are wired.  In a configuration without an error return,
    every zone of a conditional rate limit has a map from the name of its tier to
    its key, and its variable has a group map that holds, for each of the zones of
    the variable and no other, the entry from its value to the name of its tier and
    its default entry if it has one; a group map has at most one default.  The map
    reads the source of the latest zone of the variable. *)
Theorem tiered_limits_wired ctx refs sm cfg w sm' z :
  generatePolicies ctx refs sm = Some (cfg, w, sm') → pc_ErrorReturn cfg = None →
  z ∈ rlcfg_Zones (pc_RateLimit cfg) → lrz_GroupVariable z ≠ "" →
  generateLRZPolicyGroupMap z ∈ rlcfg_PolicyGroupMaps (pc_RateLimit cfg) ∧
  ∃ mp final, mp ∈ rlcfg_GroupMaps (pc_RateLimit cfg) ∧
    let tier := tierOf (lrz_GroupVariable z) (rlcfg_Zones (pc_RateLimit cfg)) in
    last tier = Some final ∧ mp_Source mp = lrz_GroupSource final ∧ mp_Variable mp = lrz_GroupVariable z ∧
    mp_Parameters mp = reverse tier ≫= groupParameters ∧
    length (filter (λ e, pm_Value e = "default") (mp_Parameters mp)) ≤ 1.
Proof.
  intros H Herr Hz Hv. apply generatePolicies_cases in H as [[-> _]|(p & Hp & _ & _ & HZ & HP & Hgroups)]; [done|].
  assert (zonesKeyed p) as Hkeyed. { eapply addPolicies_keyed; [done|]. by intros ? ?%elem_of_nil. }
  rewrite HZ in *. rewrite HP. pose proof (Hkeyed z Hz Hv) as Hmap. split; [done|].
  assert (rlcfg_PolicyGroupMaps (pc_RateLimit p) ≠ []) as Hne by (intros He; rewrite He in Hmap; by apply elem_of_nil in Hmap).
  apply Hgroups, addGroupMaps_spec in Hne as [-> Hdup].
  assert (z ∈ tierOf (lrz_GroupVariable z) (rlcfg_Zones (pc_RateLimit p))) as Htier by (by apply list_elem_of_filter).
  destruct (last (tierOf (lrz_GroupVariable z) (rlcfg_Zones (pc_RateLimit p)))) as [final|] eqn:Hl;
    [|apply last_None in Hl; rewrite Hl in Htier; by apply elem_of_nil in Htier].
  pose proof (generateLRZGroupMaps_spec (rlcfg_Zones (pc_RateLimit p)) _ Hv) as Hspec. rewrite Hl in Hspec. simpl in Hspec.
  assert (∃ mp, generateLRZGroupMaps (rlcfg_Zones (pc_RateLimit p)) !! lrz_GroupVariable z = Some mp ∧
    mp ∈ (range "generatePolicies" (generateLRZGroupMaps (rlcfg_Zones (pc_RateLimit p)))).*2) as (mp & Hmp & Hin).
  { eexists. split; [done|]. apply list_elem_of_fmap. eexists (_, _). split; [reflexivity|].
    rewrite range_perm. by apply elem_of_map_to_list. }
  rewrite Hspec in Hmp. injection Hmp as <-. eexists _, final. split; [apply elem_of_app; by right|].
  split_and!; [done..|]. specialize (Hdup _ Hin). unfold hasDuplicateMapDefaults in Hdup. apply Nat.ltb_ge in Hdup. done.
Qed.
End Tiers.

(** ** Examples *)

Section Examples.
Import PolicySample.

Definition tierPolicy (name claim match_ : string) (dflt : bool) : Policy :=
  {| pol_Meta := meta name;
     pol_Spec :=
       {| ps_IngressClass := ""; ps_AccessControl := None;
          ps_RateLimit := Some {| rl_Rate := "10r/s"; rl_Key := "${jwt_claim_sub}"; rl_Delay := None; rl_NoDelay := None;
            rl_Burst := None; rl_ZoneSize := "10M"; rl_DryRun := None; rl_LogLevel := ""; rl_RejectCode := None;
            rl_Scale := false;
            rl_Condition := Some {| rlc_JWT := Some {| jc_Claim := claim; jc_Match := match_ |};
                                    rlc_Variables := None; rlc_Default := dflt |} |};
          ps_JWTAuth := None; ps_BasicAuth := None; ps_IngressMTLS := None; ps_EgressMTLS := None;
          ps_OIDC := None; ps_OIDCNative := None; ps_WAF := None; ps_Wallarm := None; ps_APIKey := None;
          ps_Cache := None; ps_CORS := None; ps_ExternalAuth := None; ps_HSTS := None |} |}.
Definition tiers : sharedMaps :=
  {| sm_locations := None;
     sm_policies := {["default/gold" := tierPolicy "gold" "user.plan" "Gold" false;
                      "default/basic" := tierPolicy "basic" "user.plan" "Basic" true;
                      "default/other" := tierPolicy "other" "user.Plan" "Other" false]} |}.
Definition groupMapsOf (names : list string) : list (string * string * list (string * string)) :=
  match generatePolicies (context ∅) (reference <$> names) tiers with
  | Some (cfg, _, _) =>
      (λ mp, (mp_Source mp, mp_Variable mp, (λ e, (pm_Value e, pm_Result e)) <$> mp_Parameters mp))
        <$> rlcfg_GroupMaps (pc_RateLimit cfg)
  | None => []
  end.

Example two_tiers :
  groupMapsOf ["gold"; "basic"] =
  [("$jwt_default_cafe_vs_user_plan", "$rl_default_cafe_vs_group_user_plan_spec_",
    [("Basic", "rl_default_cafe_vs_match_basic"); ("default", "rl_default_cafe_vs_match_basic");
     ("Gold", "rl_default_cafe_vs_match_gold")])].
Proof. vm_compute. reflexivity. Qed.

(** Claims that differ in case share a group map, which reads the latest claim only:
    the tier of user.plan is looked up in the claim user.Plan. *)
Example claims_of_different_case_share_a_map :
  groupMapsOf ["gold"; "other"] =
  [("$jwt_default_cafe_vs_user_Plan", "$rl_default_cafe_vs_group_user_plan_spec_",
    [("Other", "rl_default_cafe_vs_match_other"); ("Gold", "rl_default_cafe_vs_match_gold")])].
Proof. vm_compute. reflexivity. Qed.

Lemma tiered_limits_wired_witness :
  match generatePolicies (context ∅) [reference "gold"; reference "basic"] tiers with
  | Some (cfg, _, _) => ∀ z, z ∈ rlcfg_Zones (pc_RateLimit cfg) → lrz_GroupVariable z ≠ "" →
      generateLRZPolicyGroupMap z ∈ rlcfg_PolicyGroupMaps (pc_RateLimit cfg) ∧
      ∃ mp, mp ∈ rlcfg_GroupMaps (pc_RateLimit cfg) ∧ mp_Variable mp = lrz_GroupVariable z
  | None => False
  end.
Proof.
  destruct (generatePolicies _ _ _) as [[[cfg w] sm]|] eqn:H; [|by vm_compute in H]. intros z Hz Hv.
  destruct (tiered_limits_wired (context ∅) [reference "gold"; reference "basic"] tiers cfg w sm z H)
    as (Hkey & mp & final & Hin & _ & _ & Hvar & _); [|exact Hz|exact Hv|].
  - change (pc_ErrorReturn cfg) with (from_option (pc_ErrorReturn ∘ fst ∘ fst) None (Some (cfg, w, sm))).
    rewrite <-H. vm_compute. reflexivity.
  - split; [exact Hkey|]. exists mp. split; [exact Hin|exact Hvar].
Defined.
End Examples.
