(* ===== verification/PolicySecrets.v ===== *)
(** How the controller (internal/k8s/controller.go) prepares the generation of
    policies: it resolves the policy references of an object, reads the secrets of
    the policies from the secret store, and finds the policies that a secret
    concerns.  [None] is a store operation that ends the process. *)
From S2P Require Import Prelude GoStrings Objects PolicyObjects ValidationLib HostValidation.
From S2P Require Import PolicyValues PolicyValidation PolicySpecValidation Regex SecretStore.
From S2P Require Import PolicyConfigAdd References.

(** What the controller knows of policies: the namespaces with an informer (every
    one when it watches all), the policies of the informers by key, its ingress
    class and the configuration of validation.  The informers' stores never fail
    and hold no nil objects. *)
Record policyListers := {
  pl_watched : string → bool;
  pl_policies : gmap string Policy;
  pl_ingressClass : string;
  pl_config : PolicyValidationConfig
}.

Definition policyKey (pol : Policy) : string := keyOf (om_Namespace (pol_Meta pol)) (om_Name (pol_Meta pol)).

Definition createPolicyMap (policies : list Policy) : gmap string Policy :=
  foldl (λ m p, <[policyKey p := p]> m) ∅ policies.

Section Controller.
Context `{VL : ValidationLib} `{UL : URLLib} `{UT : UnicodeTables}.

(** HasCorrectIngressClass for a policy *)
Definition HasCorrectIngressClass (lister : policyListers) (pol : Policy) : bool :=
  bool_decide (ps_IngressClass (pol_Spec pol) = pl_ingressClass lister)
  || bool_decide (ps_IngressClass (pol_Spec pol) = "").

(** one reference: an error, or the policy *)
Definition getPolicy (lister : policyListers) (ownerNamespace : string) (p : PolicyReference) : string + Policy :=
  let polNamespace := if bool_decide (pr_Namespace p = "") then ownerNamespace else pr_Namespace p in
  let key := keyOf polNamespace (pr_Name p) in
  if negb (pl_watched lister polNamespace) then inl ("failed to get namespace " +:+ polNamespace)
  else match pl_policies lister !! key with
  | None => inl ("policy " +:+ key +:+ " doesn't exist")
  | Some policy =>
      if negb (HasCorrectIngressClass lister policy)
      then inl ("referenced policy " +:+ key +:+ " has incorrect ingress class: " +:+ ps_IngressClass (pol_Spec policy)
                +:+ " (controller ingress class: " +:+ pl_ingressClass lister +:+ ")")
      else match ValidatePolicy policy (pl_config lister) with
      | Some err => inl ("policy " +:+ key +:+ " is invalid: " +:+ err)
      | None => inr policy
      end
  end.
Definition getPolicies (lister : policyListers) (policies : list PolicyReference) (ownerNamespace : string)
    : list Policy * list string :=
  let results := getPolicy lister ownerNamespace <$> policies in
  (omap (λ r, match r with inr p => Some p | inl _ => None end) results,
   omap (λ r, match r with inl e => Some e | inr _ => None end) results).
End Controller.

Section Secrets.
Context `{Crypto : CryptoAPI} `{MR : MapRange} {F : Type} `{FM : !SecretFileManager F}.

(** ** Reading the secrets of policies *)

(** the store, and the references collected so far *)
Definition reading : Type := LocalSecretStore F * gmap string SecretReference.

(** the reference is kept, and its error returned *)
Definition readSecret (key : string) (rd : reading) : option (reading * option string) :=
  '(store, ref) ← GetSecret rd.1 key;
  Some ((store, <[key := ref]> rd.2), sr_Error ref).

(** reads keys until one has an error *)
Fixpoint readSecrets (keys : list string) (rd : reading) : option (reading * option string) :=
  match keys with
  | [] => Some (rd, None)
  | key :: rest =>
      '(rd, err) ← readSecret key rd;
      match err with
      | Some _ => Some (rd, err)
      | None => readSecrets rest rd
      end
  end.

Definition nsOf (pol : Policy) : string := om_Namespace (pol_Meta pol).
Definition optionalKey (ns name : string) : list string := if bool_decide (name = "") then [] else [keyOf ns name].

(** the keys that each loop below reads for a policy *)
Definition jwtSecretKeys (pol : Policy) : list string :=
  match ps_JWTAuth (pol_Spec pol) with
  | Some x => if bool_decide (jwt_JwksURI x = "") then [keyOf (nsOf pol) (jwt_Secret x)] else []
  | None => []
  end.
Definition basicSecretKeys (pol : Policy) : list string :=
  match ps_BasicAuth (pol_Spec pol) with Some x => [keyOf (nsOf pol) (ba_Secret x)] | None => [] end.
Definition ingressMTLSSecretKeys (pol : Policy) : list string :=
  match ps_IngressMTLS (pol_Spec pol) with Some x => [keyOf (nsOf pol) (im_ClientCertSecret x)] | None => [] end.
Definition egressMTLSSecretKeys (pol : Policy) : list string :=
  match ps_EgressMTLS (pol_Spec pol) with
  | Some x => optionalKey (nsOf pol) (em_TLSSecret x) ++ optionalKey (nsOf pol) (em_TrustedCertSecret x)
  | None => []
  end.
Definition jwtTrustedCertKeys (pol : Policy) : list string :=
  match ps_JWTAuth (pol_Spec pol) with Some x => optionalKey (nsOf pol) (jwt_TrustedCertSecret x) | None => [] end.
Definition oidcSecretKeys (pol : Policy) : list string :=
  match ps_OIDC (pol_Spec pol) with
  | Some x => if oidc_PKCEEnable x then [] else [keyOf (nsOf pol) (oidc_ClientSecret x)]
  | None => []
  end.
Definition oidcNativeSecretKeys (pol : Policy) : list string :=
  match ps_OIDCNative (pol_Spec pol) with Some x => optionalKey (nsOf pol) (on_ClientSecret x) | None => [] end.
Definition oidcNativeTrustedCertKeys (pol : Policy) : list string :=
  match ps_OIDCNative (pol_Spec pol) with Some x => optionalKey (nsOf pol) (on_TrustedCertSecret x) | None => [] end.
Definition oidcTrustedCertKeys (pol : Policy) : list string :=
  match ps_OIDC (pol_Spec pol) with Some x => optionalKey (nsOf pol) (oidc_TrustedCertSecret x) | None => [] end.
Definition externalAuthTrustedCertKeys (pol : Policy) : list string :=
  match ps_ExternalAuth (pol_Spec pol) with
  | Some x =>
      if bool_decide (ea_TrustedCertSecret x = "") then []
      else let '(secretNS, secretName) := ParseServiceReference (ea_TrustedCertSecret x) (nsOf pol) in
           [keyOf secretNS secretName]
  | None => []
  end.
Definition apiKeySecretKeys (pol : Policy) : list string :=
  match ps_APIKey (pol_Spec pol) with Some x => [keyOf (nsOf pol) (ak_ClientSecret x)] | None => [] end.

Definition addJWTSecretRefs (policies : list Policy) := readSecrets (policies ≫= jwtSecretKeys).
Definition addBasicSecretRefs (policies : list Policy) := readSecrets (policies ≫= basicSecretKeys).
(** only the first IngressMTLS policy is looked at *)
Definition addIngressMTLSSecretRefs (policies : list Policy) :=
  readSecrets (take 1 (policies ≫= ingressMTLSSecretKeys)).
Definition addEgressMTLSSecretRefs (policies : list Policy) := readSecrets (policies ≫= egressMTLSSecretKeys).
Definition addJWTTrustedCertSecretRefs (policies : list Policy) := readSecrets (policies ≫= jwtTrustedCertKeys).
Definition addOIDCSecretRefs (policies : list Policy) := readSecrets (policies ≫= oidcSecretKeys).
Definition addOIDCNativeSecretRefs (policies : list Policy) := readSecrets (policies ≫= oidcNativeSecretKeys).
Definition addOIDCNativeTrustedCertSecretRefs (policies : list Policy) :=
  readSecrets (policies ≫= oidcNativeTrustedCertKeys).
Definition addOIDCTrustedCertSecretRefs (policies : list Policy) := readSecrets (policies ≫= oidcTrustedCertKeys).
Definition addExternalAuthTrustedCertSecretRefs (policies : list Policy) :=
  readSecrets (policies ≫= externalAuthTrustedCertKeys).
Definition addAPIKeySecretRefs (policies : list Policy) := readSecrets (policies ≫= apiKeySecretKeys).

(** The calls in their order; the errors are only logged. *)
Fixpoint runAll (adds : list (reading → option (reading * option string))) (rd : reading) : option reading :=
  match adds with
  | [] => Some rd
  | add :: rest => '(rd, _) ← add rd; runAll rest rd
  end.

(** createVirtualServerEx: the policies of spec.policies *)
Definition addSpecSecretRefs (policies : list Policy) : reading → option reading :=
  runAll [addJWTSecretRefs policies; addBasicSecretRefs policies; addIngressMTLSSecretRefs policies;
          addEgressMTLSSecretRefs policies; addJWTTrustedCertSecretRefs policies; addOIDCSecretRefs policies;
          addOIDCNativeSecretRefs policies; addOIDCNativeTrustedCertSecretRefs policies;
          addOIDCTrustedCertSecretRefs policies; addExternalAuthTrustedCertSecretRefs policies;
          addAPIKeySecretRefs policies].
(** the policies of a route or a subroute: no IngressMTLS *)
Definition addRouteSecretRefs (policies : list Policy) : reading → option reading :=
  runAll [addJWTSecretRefs policies; addBasicSecretRefs policies;
          addEgressMTLSSecretRefs policies; addJWTTrustedCertSecretRefs policies; addOIDCSecretRefs policies;
          addOIDCNativeSecretRefs policies; addOIDCNativeTrustedCertSecretRefs policies;
          addOIDCTrustedCertSecretRefs policies; addExternalAuthTrustedCertSecretRefs policies;
          addAPIKeySecretRefs policies].
Context `{VL : ValidationLib} `{UL : URLLib} `{UT : UnicodeTables}.

(** The lists of references of a VirtualServer and its VirtualServerRoutes, with
    the namespace that completes them: routes, then subroutes *)
Definition routeReferences (vs : VirtualServer) (vsrs : list VirtualServerRoute)
    : list (list PolicyReference * string) :=
  ((λ r, (r_Policies r, om_Namespace (vs_Meta vs))) <$> vs_Routes vs)
  ++ (vsrs ≫= λ vsr, (λ sr, (r_Policies sr, om_Namespace (vsr_Meta vsr))) <$> vsr_Subroutes vsr).

Fixpoint addRoutes (lister : policyListers) (routes : list (list PolicyReference * string))
    (policies : list Policy) (rd : reading) : option (list Policy * reading) :=
  match routes with
  | [] => Some (policies, rd)
  | (refs, ns) :: rest =>
      let routePolicies := (getPolicies lister refs ns).1 in
      rd ← addRouteSecretRefs routePolicies rd;
      addRoutes lister rest (policies ++ routePolicies) rd
  end.

(** reads a key and keeps the reference under a name *)
Definition readAs (name key : string) (rd : reading) : option reading :=
  '(store, ref) ← GetSecret rd.1 key; Some (store, <[name := ref]> rd.2).
(** the secret of spec.tls of a VirtualServer or a TransportServer, when it has a name *)
Definition readServerTLS (namespace : string) (secret : option string) (rd : reading) : option reading :=
  match secret with
  | Some secret =>
      if bool_decide (secret = "") then Some rd
      else let scrtKey := keyOf namespace secret in readAs scrtKey scrtKey rd
  | None => Some rd
  end.

(** createVirtualServerEx: its fields SecretRefs and Policies *)
Definition createVirtualServerEx_secrets (lister : policyListers) (vs : VirtualServer) (vsrs : list VirtualServerRoute)
    (store : LocalSecretStore F) : option (gmap string Policy * reading) :=
  let namespace := om_Namespace (vs_Meta vs) in
  rd ← readServerTLS namespace (tls_Secret <$> vs_TLS vs) (store, ∅);
  let policies := (getPolicies lister (vs_Policies vs) namespace).1 in
  rd ← addSpecSecretRefs policies rd;
  '(policies, rd) ← addRoutes lister (routeReferences vs vsrs) policies rd;
  Some (createPolicyMap policies, rd).

(** ** The secrets of an Ingress *)

(** the secret of an annotation *)
Definition readAnnotation (meta : ObjectMeta) (key : string) (rd : reading) : option reading :=
  match annotationExists meta key with
  | Some secretName => readAs secretName (keyOf (om_Namespace meta) secretName) rd
  | None => Some rd
  end.
(** the secret of an entry of spec.tls: without a name, an empty reference *)
Definition readTLS (namespace : string) (rd : reading) (tls : IngressTLS) : option reading :=
  let secretName := it_SecretName tls in
  if bool_decide (secretName = "")
  then Some (rd.1, <[secretName := {| sr_Secret := None; sr_Path := ""; sr_Error := None |}]> rd.2)
  else readAs secretName (keyOf namespace secretName) rd.

(** the references of the two policies annotations *)
Definition ingressPolicyRefs (ing : Ingress) : list PolicyReference :=
  let ns := om_Namespace (ing_Meta ing) in
  let refsOf key :=
    let value := annotation (ing_Meta ing) key in
    if bool_decide (value = "") then [] else GetPolicyRefsFromAnnotation value ns in
  refsOf PoliciesAnnotation ++ refsOf PoliciesAnnotationPlus.

(** createIngressEx: its fields SecretRefs and Policies *)
Definition createIngressEx_secrets (isNginxPlus areCustomResourcesEnabled : bool) (lister : policyListers)
    (ing : Ingress) (store : LocalSecretStore F) : option (gmap string Policy * reading) :=
  let ns := om_Namespace (ing_Meta ing) in
  rd ← foldM (readTLS ns) (store, ∅) (ing_TLS ing);
  rd ← readAnnotation (ing_Meta ing) BasicAuthSecretAnnotation rd;
  let policies := if areCustomResourcesEnabled then (getPolicies lister (ingressPolicyRefs ing) ns).1 else [] in
  rd ← runAll [addIngressMTLSSecretRefs policies; addEgressMTLSSecretRefs policies; addOIDCNativeSecretRefs policies;
               addOIDCNativeTrustedCertSecretRefs policies] rd;
  rd ← (if isNginxPlus then readAnnotation (ing_Meta ing) JWTKeyAnnotation rd else Some rd);
  rd ← runAll [addExternalAuthTrustedCertSecretRefs policies] rd;
  Some (createPolicyMap policies, rd).

(** ** The policies that a secret concerns *)

Definition sourceUses (secretName : string) (bs : option BundleSource) : bool :=
  match bs with
  | Some bs => bool_decide (bs_Secret bs = secretName) || bool_decide (bs_TrustedCertSecret bs = secretName)
  | None => false
  end.
Definition wafBundleUsesSecret (pol : Policy) (waf : WAF) (secretNamespace secretName : string) : bool :=
  if negb (bool_decide (nsOf pol = secretNamespace)) then false
  else sourceUses secretName (waf_ApBundleSource waf)
       || existsb (λ sl, sourceUses secretName (slog_ApLogBundleSource sl)) (default [] (waf_SecurityLogs waf)).

(** a field of the policy is the name, in the policy's namespace *)
Definition namedBy {A} (pol : Policy) (secretNamespace secretName : string) (o : option A) (field : A → string) : bool :=
  match o with
  | Some x => bool_decide (field x = secretName) && bool_decide (nsOf pol = secretNamespace)
  | None => false
  end.

Definition concernsPolicy (secretNamespace secretName : string) (pol : Policy) : bool :=
  let s := pol_Spec pol in
  let here {A} := @namedBy A pol secretNamespace secretName in
  if here (ps_IngressMTLS s) im_ClientCertSecret then true
  else if here (ps_JWTAuth s) jwt_Secret then true
  else if here (ps_JWTAuth s) jwt_TrustedCertSecret then true
  else if here (ps_BasicAuth s) ba_Secret then true
  else if here (ps_EgressMTLS s) em_TLSSecret then true
  else if here (ps_EgressMTLS s) em_TrustedCertSecret then true
  else if here (ps_OIDC s) oidc_ClientSecret then true
  else if here (ps_OIDC s) oidc_TrustedCertSecret then true
  else if here (ps_OIDCNative s) on_ClientSecret then true
  else if here (ps_OIDCNative s) on_TrustedCertSecret then true
  else
    let others :=
      if here (ps_APIKey s) ak_ClientSecret then true
      else match ps_WAF s with
           | Some waf => wafBundleUsesSecret pol waf secretNamespace secretName
           | None => false
           end in
    match ps_ExternalAuth s with
    | Some x =>
        if bool_decide (ea_TrustedCertSecret x = "") then others
        else let '(extAuthNs, extAuthName) := ParseResourceReference (ea_TrustedCertSecret x) (nsOf pol) in
             bool_decide (extAuthName = secretName) && bool_decide (extAuthNs = secretNamespace)
    | None => others
    end.
Definition findPoliciesForSecret (policies : list Policy) (secretNamespace secretName : string) : list Policy :=
  filter (concernsPolicy secretNamespace secretName) policies.
End Secrets.
