(* ===== verification/PolicySecretsCorrect.v ===== *)
(** The secrets that the controller collects for policies: every reference that
    the store gives is usable, and the first policy of each kind that needs one
    finds its secret. *)
From S2P Require Import Prelude GoStrings Regex Objects ProxyBuffers ValidationLib.
From S2P Require Import ParsingHelpers CommonValidation VSUpstreamValidation HostValidation.
From S2P Require Import PolicyObjects PolicyValues PolicyValidation.
From S2P Require Import PolicySpecValidation PolicyValidationCorrect NginxManager.
From S2P Require Import RollbackManager SecretStore SecretStoreCorrect.
From S2P Require Import ProxyBuffersCorrect Version2 PolicyConfig PolicyConfigAdd.
From S2P Require Import PolicyConfigGenerate PolicyConfigSpec PolicyConfigCorrect.
From S2P Require Import PolicySecrets.

(** ** References that can be used *)

(** A reference without an error has its secret, of a known type, and the path of
    a CA secret names two files. *)
Definition refOk (ref : SecretReference) : Prop :=
  sr_Error ref = None → ∃ s, sr_Secret ref = Some s ∧ sec_Type s ≠ "" ∧
    (sec_Type s = SecretTypeCA → ∃ a b rest, Fields (sr_Path ref) = a :: b :: rest).
Definition refsOk (refs : gmap string SecretReference) : Prop := ∀ k ref, refs !! k = Some ref → refOk ref.

(** What the store needs of the paths its file manager returns *)
Class SecretPathsContract (F : Type) `{!SecretFileManager F} := {
  named_secret : Secret → Prop;
  paths_total : ∀ f s, is_Some (fm_AddOrUpdateSecret f s);
  (** the path of a secret does not depend on the files there are *)
  paths_stable : ∀ f f' s, snd <$> fm_AddOrUpdateSecret f s = snd <$> fm_AddOrUpdateSecret f' s;
  paths_ca : ∀ f s f' p, named_secret s → fm_AddOrUpdateSecret f s = Some (f', p) → sec_Type s = SecretTypeCA →
    ∃ a b rest, Fields p = a :: b :: rest
}.

Section Store.
Context `{Crypto : CryptoAPI} `{MR : MapRange} {F : Type} `{FM : !SecretFileManager F} `{SPC : !SecretPathsContract F}.
Implicit Types st : LocalSecretStore F.

Definition store_ready st : Prop :=
  ∀ k ref, ls_secrets st !! k = Some ref → ∃ s, sr_Secret ref = Some s ∧ named_secret s ∧
    sr_Error ref = ValidateSecret s ∧
    (sr_Path ref ≠ "" → sec_Type s = SecretTypeCA → ∃ a b rest, Fields (sr_Path ref) = a :: b :: rest).

Lemma ValidateSecret_type s : ValidateSecret s = None → sec_Type s ≠ "".
Proof. unfold ValidateSecret. intros H Ht. rewrite Ht in H. vm_compute in H. done. Qed.

Lemma store_ready_insert st k ref s files :
  store_ready st → sr_Secret ref = Some s → named_secret s → sr_Error ref = ValidateSecret s →
  (sr_Path ref ≠ "" → sec_Type s = SecretTypeCA → ∃ a b rest, Fields (sr_Path ref) = a :: b :: rest) →
  store_ready (Build_LocalSecretStore (<[k := ref]> (ls_secrets st)) files).
Proof.
  intros Hst Hs Hn He Hp k' ref'. simpl. intros [[-> <-]|[_ Hl]]%lookup_insert_Some; [eauto|]. by eapply Hst.
Qed.

Lemma GetSecret_ready st k :
  store_ready st → ∃ st' ref, GetSecret st k = Some (st', ref) ∧ store_ready st' ∧ refOk ref.
Proof.
  intros Hst. unfold GetSecret. destruct (ls_secrets st !! k) as [ref|] eqn:Hk; [|by do 2 eexists].
  destruct (Hst k ref Hk) as (s & Hs & Hn & He & Hp). destruct (sr_Error ref) as [err|] eqn:Herr.
  { do 2 eexists. split_and!; [done..|]. intros Hno. congruence. }
  rewrite Hs. case_bool_decide as Hpath.
  - destruct (paths_total (ls_files st) s) as [[f p] Hadd]. rewrite Hadd. simpl. do 2 eexists. split; [done|]. split.
    + eapply store_ready_insert; simpl; eauto. intros _. by eapply paths_ca.
    + intros _. exists s. split_and!; [done|by apply ValidateSecret_type|]. by eapply paths_ca.
  - do 2 eexists. split_and!; [done..|]. intros _. exists s. split_and!; [done|by apply ValidateSecret_type|auto].
Qed.

Lemma storeStep_ready st op :
  store_ready st → (∀ s, op = OpAdd s → named_secret s) → ∃ st', storeStep st op = Some st' ∧ store_ready st'.
Proof.
  intros Hst Hop. destruct op as [s|k|k]; simpl.
  - specialize (Hop s eq_refl). unfold AddOrUpdateSecret. case_bool_decide.
    + eexists. split; [done|]. eapply store_ready_insert; simpl; eauto. congruence.
    + destruct (ValidateSecret s) eqn:Hv.
      * eexists. split; [done|]. eapply store_ready_insert; simpl; eauto. done.
      * destruct (paths_total (ls_files st) s) as [[f p] Hadd]. rewrite Hadd. simpl. eexists. split; [done|].
        eapply store_ready_insert; simpl; eauto. intros _. by eapply paths_ca.
  - eexists. split; [done|]. unfold StoreDeleteSecret. case_match; [|done]. intros k' ref'. simpl.
    intros [_ Hl]%lookup_delete_Some. by eapply Hst.
  - destruct (GetSecret_ready st k Hst) as (st' & ref & -> & Hst' & _). by eexists.
Qed.

(** Every store that operations on such secrets lead to is ready. *)
Lemma store_runs_ready ops files :
  (∀ s, OpAdd s ∈ ops → named_secret s) →
  ∃ st, foldM storeStep (NewLocalSecretStore files) ops = Some st ∧ store_ready st.
Proof.
  intros Hops. assert (store_ready (NewLocalSecretStore files)) as H0.
  { intros k ref. simpl. by rewrite lookup_empty. }
  revert H0. generalize (NewLocalSecretStore files). induction ops as [|op ops IH]; intros st Hst; [by eexists|].
  destruct (storeStep_ready st op Hst) as (st1 & Hs & Hst1); [intros s ->; apply Hops; by left|].
  simpl. rewrite Hs. apply IH; [|done]. intros s Hin. apply Hops. by right.
Qed.

(** ** Reading *)

Definition readingOk (rd : reading) : Prop := store_ready rd.1 ∧ refsOk rd.2.

Lemma readSecrets_ok keys rd :
  readingOk rd → ∃ rd' err, readSecrets keys rd = Some (rd', err) ∧ readingOk rd' ∧ dom rd.2 ⊆ dom rd'.2 ∧
    ∀ k, head keys = Some k → k ∈ dom rd'.2.
Proof.
  revert rd. induction keys as [|key keys IH]; intros rd Hrd; [by exists rd, None|]. destruct Hrd as [Hst Hrefs].
  simpl. unfold readSecret. destruct (GetSecret_ready rd.1 key Hst) as (st & ref & -> & Hst' & Href). simpl.
  assert (readingOk (st, <[key := ref]> rd.2)) as Hrd'.
  { split; [done|]. intros k' ref'. simpl. intros [[-> <-]|[_ Hl]]%lookup_insert_Some; [done|by eapply Hrefs]. }
  destruct (sr_Error ref).
  - do 2 eexists. split_and!; [done|done| |]; simpl; [set_solver|]. intros k [= <-]. set_solver.
  - destruct (IH _ Hrd') as (rd' & err & Hrun & Hok & Hsub & _). rewrite Hrun. simpl in Hsub.
    do 2 eexists. split_and!; [done|done| |]; [set_solver|]. intros k [= <-]. set_solver.
Qed.

Lemma runAll_ok keyss rd :
  readingOk rd → ∃ rd', runAll (readSecrets <$> keyss) rd = Some rd' ∧ readingOk rd' ∧ dom rd.2 ⊆ dom rd'.2 ∧
    ∀ keys k, keys ∈ keyss → head keys = Some k → k ∈ dom rd'.2.
Proof.
  revert rd. induction keyss as [|keys keyss IH]; intros rd Hrd.
  { exists rd. split_and!; [done..|]. by intros ?? ?%elem_of_nil. }
  destruct (readSecrets_ok keys rd Hrd) as (rd1 & err & Hr & Hok & Hsub & Hhead).
  destruct (IH rd1 Hok) as (rd2 & Hr2 & Hok2 & Hsub2 & Hhead2). exists rd2. cbn [fmap list_fmap runAll].
  rewrite Hr. cbn [mbind option_bind]. split_and!; [done|done|set_solver|].
  intros keys' k [->|Hin]%elem_of_cons Hk; [|by eapply Hhead2]. apply Hsub2. auto.
Qed.

(** The first policy that reads a JWT secret, a htpasswd file or API keys has its
    secret among the references. *)
Definition firstKeysIn (refs : gmap string SecretReference) (policies : list Policy) : Prop :=
  ∀ keysOf k, keysOf ∈ [jwtSecretKeys; basicSecretKeys; apiKeySecretKeys] →
    head (policies ≫= keysOf) = Some k → k ∈ dom refs.

Lemma firstKeysIn_mono refs refs' policies : dom refs ⊆ dom refs' → firstKeysIn refs policies → firstKeysIn refs' policies.
Proof. intros Hsub H keysOf k Hin Hk. apply Hsub. by eapply H. Qed.

Lemma readAll_first (keyss : list (list string)) policies rd :
  readingOk rd → (∀ keysOf, keysOf ∈ [jwtSecretKeys; basicSecretKeys; apiKeySecretKeys] → policies ≫= keysOf ∈ keyss) →
  ∃ rd', runAll (readSecrets <$> keyss) rd = Some rd' ∧ readingOk rd' ∧ dom rd.2 ⊆ dom rd'.2 ∧ firstKeysIn rd'.2 policies.
Proof.
  intros Hrd Hin. destruct (runAll_ok keyss rd Hrd) as (rd' & Hr & Hok & Hsub & Hhead).
  exists rd'. split_and!; [done..|]. intros keysOf k Hk. eapply Hhead. auto.
Qed.

Ltac solve_keys :=
  intros keysOf; rewrite !elem_of_cons, elem_of_nil;
  intros [->|[->|[->|[]]]]; repeat first [left; reflexivity|right].

Lemma addSpecSecretRefs_ok policies rd :
  readingOk rd → ∃ rd', addSpecSecretRefs policies rd = Some rd' ∧ readingOk rd' ∧ dom rd.2 ⊆ dom rd'.2 ∧
    firstKeysIn rd'.2 policies.
Proof.
  intros Hrd. apply (readAll_first
    [policies ≫= jwtSecretKeys; policies ≫= basicSecretKeys; take 1 (policies ≫= ingressMTLSSecretKeys);
     policies ≫= egressMTLSSecretKeys; policies ≫= jwtTrustedCertKeys; policies ≫= oidcSecretKeys;
     policies ≫= oidcNativeSecretKeys; policies ≫= oidcNativeTrustedCertKeys; policies ≫= oidcTrustedCertKeys;
     policies ≫= externalAuthTrustedCertKeys; policies ≫= apiKeySecretKeys]); [done|solve_keys].
Qed.

Lemma addRouteSecretRefs_ok policies rd :
  readingOk rd → ∃ rd', addRouteSecretRefs policies rd = Some rd' ∧ readingOk rd' ∧ dom rd.2 ⊆ dom rd'.2 ∧
    firstKeysIn rd'.2 policies.
Proof.
  intros Hrd. apply (readAll_first
    [policies ≫= jwtSecretKeys; policies ≫= basicSecretKeys;
     policies ≫= egressMTLSSecretKeys; policies ≫= jwtTrustedCertKeys; policies ≫= oidcSecretKeys;
     policies ≫= oidcNativeSecretKeys; policies ≫= oidcNativeTrustedCertKeys; policies ≫= oidcTrustedCertKeys;
     policies ≫= externalAuthTrustedCertKeys; policies ≫= apiKeySecretKeys]); [done|solve_keys].
Qed.
End Store.

(** ** Resolving references *)

Lemma keyOf_inj ns ns' n n' :
  containsByte slash ns = false → containsByte slash ns' = false → keyOf ns n = keyOf ns' n' → ns = ns' ∧ n = n'.
Proof.
  unfold keyOf. revert ns'. induction ns as [|c ns IH]; intros [|c' ns'] H H' Heq; simpl in *.
  - split; [done|]. by apply (string_app_inj_l "/") in Heq.
  - injection Heq as <- _. by rewrite bool_decide_eq_true_2 in H'.
  - injection Heq as -> _. by rewrite bool_decide_eq_true_2 in H.
  - apply orb_false_iff in H as [_ H], H' as [_ H']. injection Heq as -> Heq.
    destruct (IH ns' H H' Heq) as [-> ->]. done.
Qed.

Section Resolution.
Context `{VL : ValidationLib} `{LL : !ValidationLaws} `{UL : URLLib}.
Implicit Types (lister : policyListers) (pol : Policy).

(** The informers file a policy under its own key; Kubernetes names hold no slash. *)
Definition listerOk lister : Prop :=
  ∀ k pol, pl_policies lister !! k = Some pol → policyKey pol = k ∧ containsByte slash (nsOf pol) = false.
Definition referencesOk (refs : list PolicyReference) (ns : string) : Prop :=
  containsByte slash ns = false ∧ ∀ r, r ∈ refs → containsByte slash (pr_Namespace r) = false.

Definition resolved lister ns (r : PolicyReference) : option Policy :=
  match getPolicy lister ns r with inr p => Some p | inl _ => None end.
Definition refNamespace (ns : string) (r : PolicyReference) : string := generateString (pr_Namespace r) ns.

Lemma getPolicies_resolved lister refs ns : (getPolicies lister refs ns).1 = omap (resolved lister ns) refs.
Proof.
  unfold getPolicies, resolved. simpl. induction refs as [|r refs IH]; [done|]. csimpl. rewrite IH.
  by destruct (getPolicy lister ns r).
Qed.

Lemma resolved_Some lister ns r pol :
  resolved lister ns r = Some pol ↔
  pl_watched lister (refNamespace ns r) = true ∧
  pl_policies lister !! keyOf (refNamespace ns r) (pr_Name r) = Some pol ∧
  HasCorrectIngressClass lister pol = true ∧ ValidatePolicy pol (pl_config lister) = None.
Proof.
  unfold resolved, getPolicy, refNamespace, generateString.
  destruct (pl_watched _ _); simpl; [|by split; [|intros [? _]]].
  destruct (pl_policies _ !! _) as [pol'|]; [|by split; [|intros (_ & ? & _)]].
  destruct (HasCorrectIngressClass lister pol') eqn:Hc; simpl;
    [|split; [done|]; intros (_ & [= ->] & ? & _); congruence].
  destruct (ValidatePolicy pol' _) eqn:Hv; [split; [done|]; intros (_ & [= ->] & _ & ?); congruence|].
  split; [by intros [= ->]|by intros (_ & [= ->] & _)].
Qed.

Lemma createPolicyMap_lookup policies k pol :
  createPolicyMap policies !! k = Some pol → pol ∈ policies ∧ policyKey pol = k.
Proof.
  unfold createPolicyMap. assert (∀ m : gmap string Policy, foldl (λ m p, <[policyKey p := p]> m) m policies !! k = Some pol →
    (pol ∈ policies ∧ policyKey pol = k) ∨ m !! k = Some pol) as H.
  { induction policies as [|q policies IH]; intros m Hl; simpl in Hl; [auto|].
    destruct (IH _ Hl) as [[? ?]|Hq]; [left; split; [by right|done]|].
    apply lookup_insert_Some in Hq as [[Hk ->]|[_ Hm]]; [left; split; [by left|done]|auto]. }
  intros Hl. destruct (H ∅ Hl) as [?|He]; [done|]. by rewrite lookup_empty in He.
Qed.

(** What is found under the key of a reference is what the reference resolves to. *)
Lemma policyMap_resolved lister (contexts : list (list PolicyReference * string)) refs ns r pol :
  listerOk lister → (∀ c, c ∈ contexts → referencesOk c.1 c.2) → (refs, ns) ∈ contexts → r ∈ refs →
  createPolicyMap (contexts ≫= λ c, (getPolicies lister c.1 c.2).1) !! keyOf (refNamespace ns r) (pr_Name r) = Some pol →
  resolved lister ns r = Some pol.
Proof.
  intros Hl Hrefs Hin Hr Hk. apply createPolicyMap_lookup in Hk as [Hpol Hkey].
  apply list_elem_of_bind in Hpol as ([refs' ns'] & Hpol & Hin'). cbn [fst snd] in Hpol.
  rewrite getPolicies_resolved in Hpol. apply list_elem_of_omap in Hpol as (r' & Hr' & Hres).
  apply resolved_Some in Hres as (Hw & Hp & Hc & Hv). apply resolved_Some.
  assert (∀ refs ns r, (refs, ns) ∈ contexts → r ∈ refs → containsByte slash (refNamespace ns r) = false) as Hns.
  { intros refs0 ns0 r0 Hc0 Hr0. destruct (Hrefs _ Hc0) as [H1 H2]. unfold refNamespace, generateString.
    case_bool_decide; [done|by apply H2]. }
  assert (keyOf (refNamespace ns' r') (pr_Name r') = keyOf (refNamespace ns r) (pr_Name r)) as Heq.
  { rewrite <-Hkey. symmetry. by apply Hl in Hp as [-> _]. }
  destruct (keyOf_inj _ _ _ _ (Hns _ _ _ Hin' Hr') (Hns _ _ _ Hin Hr) Heq) as [E1 E2].
  by rewrite <-E1, <-E2.
Qed.

(** ** Accepted policies *)

Definition onlyKind pol : Prop :=
  (is_Some (ps_JWTAuth (pol_Spec pol)) → kindOf pol = KJWTAuth) ∧
  (is_Some (ps_BasicAuth (pol_Spec pol)) → kindOf pol = KBasicAuth) ∧
  (is_Some (ps_APIKey (pol_Spec pol)) → kindOf pol = KAPIKey).

(** What the generation relies on *)
Definition generable pol : Prop :=
  onlyKind pol ∧
  (∀ x, ps_JWTAuth (pol_Spec pol) = Some x →
     (jwt_Secret x ≠ "" ∧ jwt_JwksURI x = "") ∨
     (jwt_Secret x = "" ∧ jwt_JwksURI x ≠ "" ∧ ∃ u, url_Parse (jwt_JwksURI x) = inr u)) ∧
  (∀ x, ps_APIKey (pol_Spec pol) = Some x → is_Some (ak_SuppliedIn x)).

Lemma validateURL_parses name fp : validateURL name fp = [] → ∃ u, url_Parse name = inr u.
Proof. unfold validateURL. repeat case_match; naive_solver. Qed.

(** No two fields are set. *)
Lemma accepted_one_field {A B} n1 n2 (g1 : PolicySpec → option A) (g2 : PolicySpec → option B) gate1 gate2 v1 v2 spec p cfg :
  validatePolicySpec spec p cfg = [] →
  policyField n1 g1 gate1 v1 ∈ policyFields → policyField n2 g2 gate2 v2 ∈ policyFields →
  is_Some (g1 spec) → is_Some (g2 spec) → n1 = n2.
Proof.
  intros (pf & Hpf & _)%policySpec_accepted H1 H2 Hs1 Hs2.
  assert (∀ C n (g : PolicySpec → option C) gate v, policyField n g gate v ∈ policyFields → is_Some (g spec) →
    policyField n g gate v ∈ setFields spec) as Hset.
  { intros C n g gate v Hin Hs. apply list_elem_of_filter. split; [|done]. cbn. by apply bool_decide_eq_true. }
  apply (Hset _ _ _ _ _ H1) in Hs1. apply (Hset _ _ _ _ _ H2) in Hs2. rewrite Hpf in Hs1, Hs2.
  apply list_elem_of_singleton in Hs1, Hs2. rewrite <-Hs2 in Hs1. by apply (f_equal pf_name) in Hs1.
Qed.

Lemma accepted_generable pol cfg : ValidatePolicy pol cfg = None → generable pol.
Proof.
  intros Hok%ToAggregate_nil.
  pose proof (policySpec_wf _ _ _ Hok) as (_ & _ & _ & _ & _ & _ & _ & _ & Hak & _).
  assert (∀ A B n1 n2 (g1 : PolicySpec → option A) (g2 : PolicySpec → option B) gate1 gate2 v1 v2 x y,
    policyField n1 g1 gate1 v1 ∈ policyFields → policyField n2 g2 gate2 v2 ∈ policyFields →
    g1 (pol_Spec pol) = Some x → g2 (pol_Spec pol) = Some y → n1 = n2) as Hone.
  { intros. eapply accepted_one_field; eauto. }
  split_and!.
  - unfold onlyKind, kindOf. split_and!; intros [y Hy]; rewrite ?Hy.
    all: repeat match goal with |- caseOf ?o _ _ = _ => destruct o eqn:?; cbn [caseOf] end; try done.
    all: exfalso.
    all: match goal with H1 : _ (pol_Spec ?q) = Some ?a, H2 : _ (pol_Spec ?q) = Some ?b |- _ =>
           assert_fails (constr_eq a b);
           eassert (_ = _) as Heq by (eapply Hone; [ | |exact H1|exact H2]; repeat first [by left|right]);
           discriminate Heq end.
  - intros x Hx. assert (∃ fp, validateJWT x fp = []) as [fp Hv].
    { eexists. eapply (accepted_field "jwt" ps_JWTAuth jwtGate (λ x p _, validateJWT x p)); [done| |done].
      repeat first [by left|right]. }
    unfold validateJWT in Hv. case_bool_decide; [done|]. apply app_nil in Hv as [_ Hv].
    repeat case_bool_decide; try done; [right|left; done]. split_and!; [done..|].
    unfold validateJWTJwks, validateJWKsURI in Hv. noerrors. by eapply validateURL_parses.
  - intros x Hx. destruct (Hak x Hx) as (_ & si & -> & _). eauto.
Qed.
End Resolution.

(** ** The paths of the configurator *)

Lemma visible_app s t : visible (s +:+ t) = visible s && visible t.
Proof. apply forallBytes_app. Qed.

Lemma visible_Join l : (∀ x, x ∈ l → visible x = true) → visible (Join "/" l) = true.
Proof.
  induction l as [|x l IH]; intros Hl; [done|]. destruct l as [|y l]; [apply Hl; by left|].
  change (Join "/" (x :: y :: l)) with (x +:+ "/" +:+ Join "/" (y :: l)).
  rewrite !visible_app, IH by (intros z Hz; apply Hl; by right). rewrite Hl by (by left). done.
Qed.

Lemma visible_Split s x : visible s = true → x ∈ Split slash s → visible x = true.
Proof.
  unfold visible. revert x. induction s as [|c s IH]; intros x Hs; cbn [Split]; [by intros ->%list_elem_of_singleton|].
  cbn [forallBytes] in Hs. apply andb_prop in Hs as [Hc Hs]. case_bool_decide.
  - intros [->|Hx]%elem_of_cons; auto.
  - destruct (Split slash s) as [|w ws]; [intros ->%list_elem_of_singleton; cbn; by rewrite Hc|].
    intros [->|Hx]%elem_of_cons; [cbn; rewrite Hc; apply IH; [done|by left]|]. apply IH; [done|by right].
Qed.

Lemma visible_clean rooted segments stack x :
  (∀ y, y ∈ segments ∨ y ∈ stack → visible y = true) → x ∈ cleanSegments rooted segments stack → visible x = true.
Proof.
  revert stack. induction segments as [|s segments IH]; intros stack Hall; cbn [cleanSegments].
  { rewrite elem_of_reverse. auto. }
  repeat case_match; apply IH; intros y [Hy|Hy];
    try (apply Hall; rewrite ?elem_of_cons in *; tauto);
    rewrite ?elem_of_cons, ?elem_of_nil in *; subst; destruct_or?; subst; try done;
    try (apply Hall; rewrite ?elem_of_cons in *; tauto).
Qed.

Lemma visible_pathJoin a b : visible a = true → visible b = true → visible (pathJoin [a; b]) = true ∧ (b ≠ "" → pathJoin [a; b] ≠ "").
Proof.
  intros Ha Hb.
  assert (∀ p, visible p = true → visible (pathClean p) = true ∧ pathClean p ≠ "") as Hclean.
  { intros p Hp. unfold pathClean.
    assert (visible (Join "/" (cleanSegments (HasPrefix p "/") (Split slash p) [])) = true) as Hbody.
    { apply visible_Join. intros x. apply visible_clean. intros y [Hy|Hy%elem_of_nil]; [|done]. by eapply visible_Split. }
    destruct (HasPrefix p "/"); [by rewrite visible_app, Hbody|]. by case_bool_decide. }
  assert (visible (a +:+ "/" +:+ b) = true) as Hab by (by rewrite !visible_app, Ha, Hb).
  unfold pathJoin. rewrite !filter_cons, filter_nil.
  destruct (decide (a ≠ "")), (decide (b ≠ "")); cbn [Join];
    [destruct (Hclean _ Hab)|destruct (Hclean _ Ha)|destruct (Hclean _ Hb)|]; by split.
Qed.

Section ConfiguratorPaths.
Context `{API : NginxAPI} `{Rel : !Reliable} (paths : LocalPaths) (Hdir : secretsPath paths ≠ "")
  (Hvis : visible (secretsPath paths) = true).
#[local] Instance configurator_manager : SecretFileManager FS := configuratorFiles paths.

Definition visible_name (s : Secret) : Prop :=
  visible (om_Namespace (sec_Meta s)) = true ∧ visible (om_Name (sec_Meta s)) = true.

Lemma secret_path_visible s suffix :
  visible_name s → visible suffix = true →
  visible (GetFilenameForSecret paths (objectMetaToFileName (sec_Meta s) +:+ "-" +:+ suffix)) = true ∧
  GetFilenameForSecret paths (objectMetaToFileName (sec_Meta s) +:+ "-" +:+ suffix) ≠ "".
Proof.
  intros [Hns Hn] Hs. unfold GetFilenameForSecret, objectMetaToFileName.
  destruct (visible_pathJoin (secretsPath paths)
    ((om_Namespace (sec_Meta s) +:+ "-" +:+ om_Name (sec_Meta s)) +:+ "-" +:+ suffix)) as [H1 H2]; [done| |].
  - by rewrite !visible_app, Hns, Hn, Hs.
  - split; [done|]. apply H2. intros He%(f_equal String.length). rewrite !string_app_length in He. simpl in He. lia.
Qed.

Definition configurator_paths : SecretPathsContract FS.
Proof.
  refine {| named_secret := visible_name |}.
  - intros f s. destruct (add_files paths Hdir f s) as (fs' & Hadd & _). by eexists.
  - intros f f' s. cbn [fm_AddOrUpdateSecret configurator_manager configuratorFiles].
    destruct (add_files paths Hdir f s) as (? & -> & _), (add_files paths Hdir f' s) as (? & -> & _). done.
  - intros f s f' p Hn Hadd Ht. cbn in Hadd. unfold ConfiguratorAddOrUpdateSecret in Hadd.
    rewrite bool_decide_eq_true_2 in Hadd by done. unfold AddOrUpdateCASecret, GenerateCAFileContent in Hadd.
    rewrite (CreateSecret_reliable paths) in Hadd. cbn [mbind option_bind] in Hadd. rewrite (CreateSecret_reliable paths) in Hadd.
    cbn [mbind option_bind] in Hadd. simplify_eq.
    destruct (secret_path_visible s CACrtKey Hn eq_refl) as [H1 H2].
    destruct (secret_path_visible s CACrlKey Hn eq_refl) as [H3 H4].
    do 3 eexists. by apply Fields_visible.
Defined.
End ConfiguratorPaths.
