(* ===== verification/PolicyPanicFree.v ===== *)
(** The controller and the generation of policies together: the secrets that
    createVirtualServerEx collects are enough for generatePolicies, which never
    dereferences a nil pointer or indexes out of range. *)
From S2P Require Import Prelude GoStrings Regex Objects ProxyBuffers ValidationLib.
From S2P Require Import HostValidation PolicyObjects PolicyValues PolicySpecValidation.
From S2P Require Import ProxyBuffersCorrect PolicyValidationCorrect NginxManager SecretStore.
From S2P Require Import SecretStoreCorrect.
From S2P Require Import Version2 PolicyConfig PolicyConfigAdd PolicyConfigGenerate.
From S2P Require Import PolicyConfigSpec PolicyConfigCorrect PolicySecrets.
From S2P Require Import PolicySecretsCorrect.

(** ** One policy *)

Lemma ReplaceAll_slash s : containsByte slash s = true → containsByte slash (rfc1123ToSnake s) = true.
Proof.
  unfold rfc1123ToSnake. induction s as [|c s IH]; [done|]. simpl. intros [Hc|Hc]%orb_true_iff.
  - apply bool_decide_eq_true in Hc as <-. simpl. done.
  - rewrite containsByte_app, IH by done. apply orb_true_r.
Qed.
Lemma Split_second s : containsByte slash s = true → is_Some (Split slash s !! 1).
Proof.
  induction s as [|c s IH]; [done|]. cbn [containsByte Split]. intros [Hc|Hc]%orb_true_iff.
  - apply bool_decide_eq_true in Hc as <-. rewrite bool_decide_eq_true_2 by done.
    destruct (Split slash s) eqn:Hs; [by apply Split_nil in Hs|]. by eexists.
  - apply IH in Hc. case_bool_decide.
    + destruct (Split slash s) eqn:Hs; [by apply Split_nil in Hs|]. by eexists.
    + by destruct (Split slash s).
Qed.

Lemma bind_is_Some {A B} (o : option A) (f : A → option B) : is_Some o → (∀ x, is_Some (f x)) → is_Some (o ≫= f).
Proof. intros [x ->] Hf. apply Hf. Qed.

Section PanicFree.
Context `{UL : URLLib} `{LT : UnicodeLower} `{PL : PolicyLib} `{MR : MapRange}.
Implicit Types (ctx : policyContext) (sm : sharedMaps) (pol : Policy) (p : policiesCfg).

(** the secret that an operation dereferences without looking *)
Definition neededKey (ns : string) pol : option string :=
  match kindOf pol with
  | KJWTAuth => x ← ps_JWTAuth (pol_Spec pol); if bool_decide (jwt_Secret x = "") then None else Some (keyOf ns (jwt_Secret x))
  | KBasicAuth => x ← ps_BasicAuth (pol_Spec pol); Some (keyOf ns (ba_Secret x))
  | KAPIKey => x ← ps_APIKey (pol_Spec pol); Some (keyOf ns (ak_ClientSecret x))
  | _ => None
  end.

Lemma refOk_used refs key want ref :
  refsOk refs → fromSecret refs key want ref → ∃ s, sr_Secret ref = Some s ∧ sec_Type s = want ∧
    (want = SecretTypeCA → ∃ a b rest, Fields (sr_Path ref) = a :: b :: rest).
Proof.
  intros Hrefs (Hk & He & Ht). destruct (Hrefs key ref Hk He) as (s & Hs & Hne & Hca). exists s.
  unfold secretTypeOf in Ht. rewrite Hs in Ht. destruct Ht as [Ht|Ht]; simpl in Ht; [done|]. subst. auto.
Qed.

Lemma addIngressMTLSConfig_total x key ns context tls refs p :
  refsOk refs → is_Some (addIngressMTLSConfig x key ns context tls refs p).
Proof.
  intros Hrefs. unfold addIngressMTLSConfig. do 3 (case_match; [done|]). case_match eqn:Hk; [|done].
  case_match eqn:Hp; [done|]. eapply secretProblem_None in Hp; [|done].
  destruct (refOk_used _ _ _ _ Hrefs Hp) as (secret & -> & _ & Hca). destruct (Hca eq_refl) as (a & b & rest & ->).
  simpl. repeat case_match; done.
Qed.

Lemma addEgressMTLSConfig_total x key ns refs p : refsOk refs → is_Some (addEgressMTLSConfig x key ns refs p).
Proof.
  intros Hrefs. unfold addEgressMTLSConfig. case_match; [done|]. case_match; [done|]. case_match eqn:Hca; [done|].
  apply egressSecret_inr in Hca. case_bool_decide as Hne; [done|]. case_decide; [done|].
  destruct Hca as (ref & Href & ->). destruct (refOk_used _ _ _ _ Hrefs Href) as (s' & _ & _ & Hf).
  destruct (Hf eq_refl) as (a & b & rest & ->). done.
Qed.

Lemma oidcClientSecret_total x key ns refs : refsOk refs → is_Some (oidcClientSecret x key ns refs).
Proof.
  intros Hrefs. unfold oidcClientSecret. case_match eqn:Hk; [|done]. case_match; [done|].
  case_match eqn:He; [by case_match|]. case_match; [done|].
  destruct (Hrefs _ _ Hk He) as (s' & -> & _). done.
Qed.

Lemma addOIDCConfig_total x key ns opts locs p :
  refsOk (po_secretRefs opts) → is_Some (addOIDCConfig x key ns opts locs p).
Proof.
  intros Hrefs. unfold addOIDCConfig. do 2 (case_match; [done|]). case_match; [by case_match|].
  destruct (oidcClientSecret_total x key ns _ Hrefs) as [r ->]. simpl. destruct r; [done|].
  repeat case_match; done.
Qed.

Lemma addBasicAuthConfig_total x key ns refs p :
  (pc_BasicAuth p = None → keyOf ns (ba_Secret x) ∈ dom refs) → is_Some (addBasicAuthConfig x key ns refs p).
Proof.
  intros Hk. unfold addBasicAuthConfig. case_match; [done|].
  destruct (proj1 (elem_of_dom _ _) (Hk eq_refl)) as [ref ->]. simpl. by case_match.
Qed.

Lemma addJWTAuthConfig_total x key ns refs p :
  (jwt_Secret x = "" → jwt_JwksURI x ≠ "" → ∃ u, url_Parse (jwt_JwksURI x) = inr u) →
  (jac_Auth (pc_JWTAuth p) = None → jwt_Secret x ≠ "" → keyOf ns (jwt_Secret x) ∈ dom refs) →
  is_Some (addJWTAuthConfig x key ns refs p).
Proof.
  intros Hu Hk. unfold addJWTAuthConfig. case_match; [done|]. case_bool_decide as Hs; simpl.
  - case_bool_decide as Hj; simpl; [done|]. case_match; [done|]. by destruct (Hu Hs Hj) as [u ->].
  - destruct (proj1 (elem_of_dom _ _) (Hk eq_refl Hs)) as [ref ->]. simpl. by case_match.
Qed.

Lemma addAPIKeyConfig_total x key ns od refs p :
  refsOk refs → containsByte slash key = true → is_Some (ak_SuppliedIn x) →
  (aka_Key (pc_APIKey p) = None → keyOf ns (ak_ClientSecret x) ∈ dom refs) →
  is_Some (addAPIKeyConfig x key ns od refs p).
Proof.
  intros Hrefs Hkey [si Hsi] Hk. unfold addAPIKeyConfig. case_match; [done|].
  destruct (proj1 (elem_of_dom _ _) (Hk eq_refl)) as [ref Href]. rewrite Href. simpl.
  case_match eqn:Hp; [done|]. eapply secretProblem_None in Hp; [|done].
  destruct (refOk_used _ _ _ _ Hrefs Hp) as (secret & -> & _). simpl.
  destruct (Split_second _ (ReplaceAll_slash _ Hkey)) as [n ->]. rewrite Hsi. done.
Qed.

Lemma addPolicy_total ctx key ns name pol p sm :
  refsOk (po_secretRefs (ctx_opts ctx)) → containsByte slash key = true → generable pol →
  (slotEmpty (kindOf pol) p → ∀ k, neededKey ns pol = Some k → k ∈ dom (po_secretRefs (ctx_opts ctx))) →
  is_Some (addPolicy ctx key ns name pol p sm).
Proof.
  intros Hrefs Hkey (_ & Hjwt & Hak) Hneed. unfold addPolicy, neededKey, kindOf in *.
  repeat match goal with |- is_Some (caseOf ?o _ _) => destruct o eqn:?; cbn [caseOf] in * end.
  all: try done.
  all: try (case_match; done).
  - apply bind_is_Some; [|done]. apply addJWTAuthConfig_total.
    + intros Hs Hj. by destruct (Hjwt j eq_refl) as [[? ?]|(_ & _ & Hu)].
    + intros He Hs. apply Hneed; [done|]. simpl. by rewrite bool_decide_eq_false_2.
  - apply bind_is_Some; [|done]. apply addBasicAuthConfig_total. intros He. by apply Hneed.
  - apply bind_is_Some; [|done]. by apply addIngressMTLSConfig_total.
  - apply bind_is_Some; [|done]. by apply addEgressMTLSConfig_total.
  - apply bind_is_Some; [by apply addOIDCConfig_total|]. by intros [? ?].
  - apply bind_is_Some; [|done]. apply addAPIKeyConfig_total; auto.
Qed.

(** ** The loop *)

(** A policy of a kind that dereferences its secret leaves its part written. *)
Definition needsDone pol p : Prop := kindOf pol ∈ [KJWTAuth; KBasicAuth; KAPIKey] → slotFull (kindOf pol) p.

Lemma policyAdded_needsDone ctx key ns pol p p' : generable pol → policyAdded ctx key ns pol p p' → needsDone pol p'.
Proof.
  intros (_ & Hjwt & _) H Hk. unfold policyAdded, kindOf in *. kind_cases; try (by set_solver); effect_cases; simpl; eauto.
  - by destruct (Hjwt j eq_refl) as [[? _]|(_ & ? & _)].
  - unfold apiKeyConfigured in *. naive_solver.
Qed.

Lemma slotFull_not_empty k p : k ∈ [KJWTAuth; KBasicAuth; KAPIKey] → slotFull k p → ¬ slotEmpty k p.
Proof. rewrite !elem_of_cons, elem_of_nil. intros [->|[->|[->|[]]]] [x Hx]; simpl; congruence. Qed.

Lemma generable_migrate pol : generable pol → generable (migratePolicy pol).
Proof. unfold generable, onlyKind. by rewrite kindOf_migrate. Qed.

Lemma needsDone_extends pol p p' : extends p p' → needsDone pol p → needsDone pol p'.
Proof. intros He Hn Hk. eapply slotFull_extends; eauto. Qed.

(** Nothing before a policy whose part is still to be written reads a secret of its kind. *)
Lemma no_earlier_keys (k : policyKind) (keysOf : Policy → list string) (earlier : list Policy) p :
  k ∈ [KJWTAuth; KBasicAuth; KAPIKey] → slotEmpty k p →
  (∀ q, keysOf q ≠ [] → generable q → kindOf q = k) →
  (∀ q, q ∈ earlier → generable q ∧ needsDone q p) → earlier ≫= keysOf = [].
Proof.
  intros Hk Hs Hkeys Hq. induction earlier as [|q earlier IH]; [done|]. csimpl.
  rewrite IH by (intros q' Hq'; apply Hq; by right). rewrite app_nil_r.
  destruct (Hq q) as [Hg Hn]; [by left|]. destruct (keysOf q) eqn:Hkq; [done|].
  assert (kindOf q = k) as Hkind by (apply Hkeys; [by rewrite Hkq|done]). exfalso.
  eapply slotFull_not_empty; [exact Hk| |done]. rewrite <-Hkind in *. by apply Hn.
Qed.

Lemma neededKey_covered refs ns (earlier later : list Policy) pol p k :
  firstKeysIn refs (earlier ++ pol :: later) → generable pol → nsOf pol = ns →
  (∀ q, q ∈ earlier → generable q ∧ needsDone q p) →
  slotEmpty (kindOf pol) p → neededKey ns pol = Some k → k ∈ dom refs.
Proof.
  intros Hfirst Hg <- Hq Hs Hk.
  assert (∀ keysOf, keysOf ∈ [jwtSecretKeys; basicSecretKeys; apiKeySecretKeys] →
    kindOf pol ∈ [KJWTAuth; KBasicAuth; KAPIKey] →
    (∀ q, keysOf q ≠ [] → generable q → kindOf q = kindOf pol) → keysOf pol = [k] → k ∈ dom refs) as Hgo.
  { intros keysOf Hin Hkind Hkeys Hpol. apply (Hfirst keysOf); [done|].
    rewrite bind_app, (no_earlier_keys (kindOf pol) keysOf earlier p) by done. csimpl. by rewrite Hpol. }
  pose proof Hg as (_ & Hjwt & _). unfold neededKey in Hk.
  destruct (kindOf pol) eqn:Hkind; try done; apply bind_Some in Hk as (x & Hx & Hk).
  - case_bool_decide; simplify_eq. apply (Hgo jwtSecretKeys); [by left|set_solver| |].
    + intros q Hne ((H1 & _) & _). apply H1. unfold jwtSecretKeys in Hne. destruct (ps_JWTAuth (pol_Spec q)); [by eexists|done].
    + unfold jwtSecretKeys. rewrite Hx. destruct (Hjwt x Hx) as [[_ ->]|[? _]]; done.
  - simplify_eq. apply (Hgo basicSecretKeys); [set_solver|set_solver| |].
    + intros q Hne ((_ & H1 & _) & _). apply H1. unfold basicSecretKeys in Hne. destruct (ps_BasicAuth (pol_Spec q)); [by eexists|done].
    + unfold basicSecretKeys. by rewrite Hx.
  - simplify_eq. apply (Hgo apiKeySecretKeys); [set_solver|set_solver| |].
    + intros q Hne ((_ & _ & H1) & _). apply H1. unfold apiKeySecretKeys in Hne. destruct (ps_APIKey (pol_Spec q)); [by eexists|done].
    + unfold apiKeySecretKeys. by rewrite Hx.
Qed.

(** The loop goes on: [policies] are those that the references done and to come resolve to. *)
Lemma addPolicies_total ctx (policyOf : PolicyReference → option Policy) sm0 past rest p w sm :
  let refs := po_secretRefs (ctx_opts ctx) in
  refsOk refs → firstKeysIn refs (omap policyOf (past ++ rest)) →
  (∀ r pol, r ∈ past ++ rest → sm_policies sm0 !! referenceKey (ctx_owner ctx) r = Some pol →
     policyOf r = Some pol ∧ generable pol ∧ nsOf pol = referenceNamespace (ctx_owner ctx) r) →
  migrated sm0 sm →
  (∀ r, r ∈ past → ∃ pol, sm_policies sm0 !! referenceKey (ctx_owner ctx) r = Some pol ∧ needsDone pol p) →
  is_Some (addPolicies ctx rest p w sm).
Proof.
  intros refs Hrefs. revert past p w sm. induction rest as [|r rest IH]; intros past p w sm Hfirst Hpol Hm Hdone; [done|].
  simpl. destruct (sm_policies sm !! referenceKey (ctx_owner ctx) r) as [pol'|] eqn:Hk; [|done]. case_match; [done|].
  destruct (migrated_lookup _ _ _ _ Hm Hk) as (pol & Hk0 & Hor).
  destruct (Hpol r pol) as (Hres & Hg & Hns); [set_solver|done|].
  assert (generable pol' ∧ kindOf pol' = kindOf pol) as [Hg' Hkind].
  { destruct Hor as [->| ->]; split; auto using generable_migrate, kindOf_migrate. }
  assert (neededKey (referenceNamespace (ctx_owner ctx) r) pol' = neededKey (referenceNamespace (ctx_owner ctx) r) pol) as Hnk.
  { destruct Hor as [->| ->]; [done|]. unfold neededKey. by rewrite kindOf_migrate. }
  assert (is_Some (addPolicy ctx (referenceKey (ctx_owner ctx) r) (referenceNamespace (ctx_owner ctx) r) (pr_Name r) pol' p sm))
    as [[[p1 res] sm1] Hadd].
  { apply addPolicy_total; [done| |done|].
    - unfold referenceKey, keyOf. rewrite !containsByte_app. simpl. by rewrite orb_true_r.
    - rewrite Hkind, Hnk. intros Hs k Hkey.
      eapply (neededKey_covered _ _ (omap policyOf past) (omap policyOf rest) pol); eauto.
      + rewrite omap_app in Hfirst. csimpl in Hfirst. by rewrite Hres in Hfirst.
      + intros q (r0 & Hr0 & Hq)%list_elem_of_omap. destruct (Hdone r0 Hr0) as (q' & Hk' & Hn).
        destruct (Hpol r0 q') as (Hres' & Hg0 & _); [set_solver|done|]. by simplify_eq. }
  rewrite Hadd. simpl. destruct (vr_isError res) eqn:Herr; [done|].
  apply (IH (past ++ [r])); rewrite <-?app_assoc; [done|done| |].
  - etrans; [done|]. by eapply addPolicy_migrated.
  - apply addPolicy_added in Hadd; [|done].
    intros r0 [Hr0|Hr0%list_elem_of_singleton]%elem_of_app.
    + destruct (Hdone r0 Hr0) as (q & Hq & Hn). exists q. split; [done|].
      eapply needsDone_extends; [by eapply policyAdded_extends|done].
    + subst. exists pol. split; [done|]. eapply policyAdded_needsDone in Hadd; [|done].
      unfold needsDone in *. by rewrite <-Hkind.
Qed.

Lemma generatePolicies_total ctx refs sm :
  is_Some (addPolicies ctx refs newPoliciesConfig ∅ sm) → is_Some (generatePolicies ctx refs sm).
Proof.
  intros [[[r w] sm'] H]. unfold generatePolicies. rewrite H. simpl. repeat case_match; done.
Qed.
End PanicFree.

(** ** A VirtualServer *)

Section VirtualServer.
Context `{Crypto : CryptoAPI} `{MR : MapRange} {F : Type} `{FM : !SecretFileManager F} `{SPC : !SecretPathsContract F}.
Context `{VL : ValidationLib} `{LL : !ValidationLaws} `{UL : URLLib} `{LT : UnicodeLower} `{PL : PolicyLib}.

(** The references for which configuration is generated *)
Definition contexts (vs : VirtualServer) (vsrs : list VirtualServerRoute) : list (list PolicyReference * string) :=
  (vs_Policies vs, om_Namespace (vs_Meta vs)) :: routeReferences vs vsrs.

Lemma addRoutes_ok lister routes policies (rd : reading) :
  readingOk rd → ∃ rd', addRoutes lister routes policies rd =
      Some (policies ++ (routes ≫= λ c, (getPolicies lister c.1 c.2).1), rd') ∧
    readingOk rd' ∧ dom rd.2 ⊆ dom rd'.2 ∧
    ∀ refs ns, (refs, ns) ∈ routes → firstKeysIn rd'.2 (getPolicies lister refs ns).1.
Proof.
  revert policies rd. induction routes as [|[refs ns] routes IH]; intros policies rd Hrd.
  { exists rd. cbn. rewrite app_nil_r. split_and!; [done..|]. by intros ?? ?%elem_of_nil. }
  cbn [addRoutes]. destruct (addRouteSecretRefs_ok (getPolicies lister refs ns).1 rd Hrd) as (rd1 & Hr1 & Hok1 & Hsub1 & Hf1).
  rewrite Hr1. cbn [mbind option_bind].
  destruct (IH (policies ++ (getPolicies lister refs ns).1) rd1 Hok1) as (rd2 & Hr2 & Hok2 & Hsub2 & Hf2).
  exists rd2. rewrite Hr2. cbn [mbind list_bind fst snd]. rewrite <-app_assoc. split_and!; [done|done|set_solver|].
  intros refs' ns' [[= -> ->]|Hin]%elem_of_cons; [by eapply firstKeysIn_mono|by apply Hf2].
Qed.

Lemma readServerTLS_ok ns secret (rd : reading) :
  readingOk rd → ∃ rd', readServerTLS ns secret rd = Some rd' ∧ readingOk rd' ∧
    ∀ name, secret = Some name → name ≠ "" → keyOf ns name ∈ dom rd'.2.
Proof.
  intros [Hst Hrefs]. unfold readServerTLS, readAs. destruct secret as [name|]; [|by exists rd].
  case_bool_decide; [exists rd; split_and!; [done|done|by intros ? [= <-]]|]. cbv zeta.
  destruct (GetSecret_ready rd.1 (keyOf ns name) Hst) as (st & ref & -> & Hst' & Href). simpl. eexists. split; [done|].
  split; [|by intros ? [= <-] _; set_solver].
  split; [done|]. intros k' ref'. simpl. intros [[_ <-]|[_ Hl]]%lookup_insert_Some; [done|by eapply Hrefs].
Qed.

Lemma createVirtualServerEx_secrets_ok lister vs vsrs (store : LocalSecretStore F) :
  store_ready store → ∃ rd, createVirtualServerEx_secrets lister vs vsrs store =
      Some (createPolicyMap (contexts vs vsrs ≫= λ c, (getPolicies lister c.1 c.2).1), rd) ∧ readingOk rd ∧
    (∀ tls, vs_TLS vs = Some tls → tls_Secret tls ≠ "" → keyOf (om_Namespace (vs_Meta vs)) (tls_Secret tls) ∈ dom rd.2) ∧
    ∀ refs ns, (refs, ns) ∈ contexts vs vsrs → firstKeysIn rd.2 (getPolicies lister refs ns).1.
Proof.
  intros Hst. unfold createVirtualServerEx_secrets. cbv zeta.
  assert (readingOk (store, ∅)) as H0 by (split; [done|]; intros k ref; cbn; by rewrite lookup_empty).
  destruct (readServerTLS_ok (om_Namespace (vs_Meta vs)) (tls_Secret <$> vs_TLS vs) (store, ∅) H0) as (rd0 & -> & Hrd0 & Htls).
  cbn [mbind option_bind].
  destruct (addSpecSecretRefs_ok (getPolicies lister (vs_Policies vs) (om_Namespace (vs_Meta vs))).1 rd0 Hrd0)
    as (rd1 & -> & Hok1 & Hsub1 & Hf1). cbn [mbind option_bind].
  destruct (addRoutes_ok lister (routeReferences vs vsrs)
    (getPolicies lister (vs_Policies vs) (om_Namespace (vs_Meta vs))).1 rd1 Hok1) as (rd2 & -> & Hok2 & Hsub2 & Hf2).
  cbn [mbind option_bind]. exists rd2. split_and!; [done..| |].
  { intros tls Heq Hne. apply Hsub2, Hsub1, Htls; [by rewrite Heq|done]. }
  intros refs ns [[= -> ->]|Hin]%elem_of_cons; [by eapply firstKeysIn_mono|by apply Hf2].
Qed.

(** Whatever secrets were added to the store, updated and deleted, and whatever
    policies the informers hold: with the secrets and the policies that
    createVirtualServerEx collects, generatePolicies returns for the references of
    the VirtualServer, of each of its routes and of each subroute, in any order,
    with any other options. *)
Lemma collected_policies_generate lister vs vsrs ops (files : F) :
  listerOk lister → (∀ s, OpAdd s ∈ ops → named_secret s) →
  (∀ c, c ∈ contexts vs vsrs → referencesOk c.1 c.2) →
  ∃ store pm rd, foldM storeStep (NewLocalSecretStore files) ops = Some store ∧
    createVirtualServerEx_secrets lister vs vsrs store = Some (pm, rd) ∧
    (∀ tls, vs_TLS vs = Some tls → tls_Secret tls ≠ "" → keyOf (om_Namespace (vs_Meta vs)) (tls_Secret tls) ∈ dom rd.2) ∧
    ∀ ctx refs sm, (refs, od_ownerNamespace (ctx_owner ctx)) ∈ contexts vs vsrs →
      po_secretRefs (ctx_opts ctx) = rd.2 →
      migrated {| sm_locations := None; sm_policies := pm |} sm →
      is_Some (generatePolicies ctx refs sm).
Proof.
  intros Hl Hnamed Hrefs. destruct (store_runs_ready ops files Hnamed) as (store & Hrun & Hst).
  destruct (createVirtualServerEx_secrets_ok lister vs vsrs store Hst) as (rd & Hex & [_ Hok] & Htls & Hfirst).
  exists store, (createPolicyMap (contexts vs vsrs ≫= λ c, (getPolicies lister c.1 c.2).1)), rd.
  split_and!; [done..|]. intros ctx refs sm Hin Hrd Hm. apply generatePolicies_total.
  apply (addPolicies_total ctx (resolved lister (od_ownerNamespace (ctx_owner ctx)))
           {| sm_locations := None; sm_policies := createPolicyMap (contexts vs vsrs ≫= λ c, (getPolicies lister c.1 c.2).1) |}
           []); rewrite ?Hrd; [done| | |done|by intros ? ?%elem_of_nil].
  - rewrite <-getPolicies_resolved. by apply Hfirst.
  - simpl. intros r pol Hr Hk.
    assert (resolved lister (od_ownerNamespace (ctx_owner ctx)) r = Some pol) as Hres.
    { by eapply (policyMap_resolved lister (contexts vs vsrs)). }
    split; [done|]. apply resolved_Some in Hres as (_ & Hp & _ & Hv).
    split; [by eapply accepted_generable|]. destruct (Hl _ _ Hp) as [Hkey Hns]. unfold policyKey in Hkey.
    destruct (Hrefs _ Hin) as [H1 H2]. apply keyOf_inj in Hkey as [? _]; [done|done|].
    unfold refNamespace, generateString. case_bool_decide; [done|by apply H2].
Qed.
End VirtualServer.

(** ** Examples *)

Section Example.
Import SecretSample PolicySample.
#[local] Existing Instance sampleLib.
#[local] Existing Instance sampleLib_laws.
#[local] Remove Hints order : typeclass_instances.

Lemma secrets_visible : visible (secretsPath paths) = true.
Proof. vm_compute. reflexivity. Qed.
Definition pathsContract : SecretPathsContract FS := configurator_paths paths paths_dir secrets_visible.

Definition lister : policyListers :=
  {| pl_watched := λ _, true; pl_policies := sm_policies maps; pl_ingressClass := "nginx";
     pl_config := {| pvc_IsPlus := false; pvc_EnableOIDC := false; pvc_EnableAppProtect := false;
                     pvc_EnableSnippets := false |} |}.

Lemma lister_ok : listerOk lister.
Proof.
  intros k pol Hk. change (pl_policies lister) with (sm_policies maps) in Hk. unfold maps in Hk. cbn [sm_policies] in Hk.
  apply lookup_insert_Some in Hk as [[<- <-]|[_ [<- <-]%lookup_singleton_Some]]; by vm_compute.
Qed.
End Example.
