(* ===== verification/SecretSync.v ===== *)
(** The synchronisation of a Secret (syncSecret of internal/k8s/controller.go): the
    resources whose configuration is generated again are found by the references
    of the configuration and by the policies that use the secret.  No other
    VirtualServer reads anything that the change of the secret altered. *)
From S2P Require Import Prelude GoStrings Regex Objects ValidationLib CommonValidation.
From S2P Require Import HostValidation VSUpstreamValidation PolicyObjects PolicyValues.
From S2P Require Import PolicyValidation PolicySpecValidation PolicyValidationCorrect.
From S2P Require Import Resources ConfigState.
From S2P Require Import Hosts Changes Configuration References Operations ReferencesCorrect.
From S2P Require Import SecretStore SecretStoreCorrect PolicyConfig PolicyConfigAdd.
From S2P Require Import PolicyConfigGenerate PolicyConfigSpec.
From S2P Require Import PolicySecrets PolicySecretsCorrect PolicyPanicFree PolicyConfigCorrect.
From S2P Require Import NginxManager Scenario.

Section Operations.
Context `{VL : ValidationLib} `{UL : URLLib} `{MR : MapRange}.

(** the valid policies of the informers *)
Definition getAllPolicies (lister : policyListers) : list Policy :=
  filter (λ pol, ValidatePolicy pol (pl_config lister) = None) (range "getAllPolicies" (pl_policies lister)).*2.

Definition getPoliciesForSecret (lister : policyListers) (secretNamespace secretName : string) : list Policy :=
  findPoliciesForSecret (getAllPolicies lister) secretNamespace secretName.

(** the resources of each policy, behind those found before *)
Fixpoint addResourcesForPolicies (c : Configuration) (pols : list Policy) (resources : list loc) : option (list loc) :=
  match pols with
  | [] => Some resources
  | pol :: rest =>
      found ← FindResourcesForPolicy (nsOf pol) (om_Name (pol_Meta pol)) c;
      addResourcesForPolicies c rest (resources ++ found)
  end.

(** the first resource of each key, in order; [encountered] are the keys seen *)
Fixpoint removeDuplicateResources (h : store) (encountered : list string) (resources : list loc) : option (list loc) :=
  match resources with
  | [] => Some []
  | l :: rest =>
      r ← h !! l;
      let key := GetKeyWithKind r in
      if bool_decide (key ∈ encountered) then removeDuplicateResources h encountered rest
      else unique ← removeDuplicateResources h (key :: encountered) rest; Some (l :: unique)
  end.

(** the resources that syncSecret handles *)
Definition resourcesForSecret (areCustomResourcesEnabled : bool) (lister : policyListers) (c : Configuration)
    (namespace name : string) : option (list loc) :=
  resources ← FindResourcesForSecret namespace name c;
  if areCustomResourcesEnabled then
    resources ← addResourcesForPolicies c (getPoliciesForSecret lister namespace name) resources;
    removeDuplicateResources (c_store c) [] resources
  else Some resources.

Context `{Crypto : CryptoAPI} {F : Type} `{FM : !SecretFileManager F}.

(** createTransportServerEx: its field SecretRefs *)
Definition createTransportServerEx_secrets (ts : TransportServer) (secretStore : LocalSecretStore F)
    : option (reading (F := F)) :=
  readServerTLS (om_Namespace (ts_Meta ts)) (ts_TLSSecret ts) (secretStore, ∅).

(** What is collected from the store for an object: policies and secrets by key *)
Definition collected : Type := gmap string Policy * gmap string SecretReference.

(** createMergeableIngresses: the master, then each minion *)
Fixpoint createIngresses (isNginxPlus areCustomResourcesEnabled : bool) (lister : policyListers)
    (ings : list Ingress) (secretStore : LocalSecretStore F) : option (list collected * LocalSecretStore F) :=
  match ings with
  | [] => Some ([], secretStore)
  | ing :: rest =>
      '(pm, rd) ← createIngressEx_secrets isNginxPlus areCustomResourcesEnabled lister ing secretStore;
      '(cs, secretStore) ← createIngresses isNginxPlus areCustomResourcesEnabled lister rest rd.1;
      Some ((pm, rd.2) :: cs, secretStore)
  end.

(** the Ingresses of a configuration: its minions only when it is a master *)
Definition ingressesOf (ic : IngressConfiguration) : list Ingress :=
  ic_Ingress ic :: (if ic_IsMaster ic then mc_Ingress <$> ic_Minions ic else []).

(** createExtendedResources, for one resource *)
Definition createExtendedResource (isNginxPlus areCustomResourcesEnabled : bool) (lister : policyListers)
    (r : Resource) (secretStore : LocalSecretStore F) : option (list collected * LocalSecretStore F) :=
  match r with
  | RVirtualServer vsc =>
      '(pm, rd) ← createVirtualServerEx_secrets lister (vsc_VirtualServer vsc) (vsc_VirtualServerRoutes vsc) secretStore;
      Some ([(pm, rd.2)], rd.1)
  | RIngress ic => createIngresses isNginxPlus areCustomResourcesEnabled lister (ingressesOf ic) secretStore
  | RTransportServer tsc =>
      rd ← createTransportServerEx_secrets (tsc_TransportServer tsc) secretStore;
      Some ([(∅, rd.2)], rd.1)
  end.

(** syncSecret of a key: the store it leaves, the resources that are generated
    again, and the error with which the task is put back in the queue.  [obj] is what
    GetByKey of the lister returns: its error, or the object, [None] of a deleted
    secret.  For a namespace without an informer getNamespacedInformer returns nil,
    which is dereferenced.  Left out: the special secrets (default server, wildcard
    and the like) and the policies with bundles that are put in the queue at the end. *)
Definition syncSecret (areCustomResourcesEnabled : bool) (lister : policyListers) (c : Configuration)
    (key : string) (obj : string + option Secret) (secretStore : LocalSecretStore F)
    : option (LocalSecretStore F * list loc * option string) :=
  match ParseNamespaceName key with
  | None => Some (secretStore, [], None)
  | Some (namespace, name) =>
      if negb (pl_watched lister namespace) then None else
      match obj with
      | inl err => Some (secretStore, [], Some err)
      | inr obj =>
          resources ← resourcesForSecret areCustomResourcesEnabled lister c namespace name;
          match obj with
          | None => Some (StoreDeleteSecret secretStore key, resources, None)
          | Some secret =>
              secretStore ← AddOrUpdateSecret secretStore secret;
              Some (secretStore, resources, None)
          end
      end
  end.
End Operations.

(** ** Stores that differ in one secret *)

Section Agreement.
Context `{Crypto : CryptoAPI} `{MR : MapRange} {F : Type} `{FM : !SecretFileManager F} `{SPC : !SecretPathsContract F}.
Implicit Types (st : LocalSecretStore F) (rd : reading (F := F)).

Definition agreeBut (k : string) st st' : Prop := ∀ k', k' ≠ k → ls_secrets st !! k' = ls_secrets st' !! k'.

(** The readings of two stores that agree but for a key: the first store is ready,
    and the references collected are the same. *)
Definition sameReading (k : string) rd rd' : Prop := store_ready rd.1 ∧ agreeBut k rd.1 rd'.1 ∧ rd.2 = rd'.2.

(** A step that returns, and reads the same from two such stores *)
Definition stable (k : string) (f : reading (F := F) → option (reading (F := F))) : Prop :=
  ∀ rd rd', sameReading k rd rd' → ∃ rd1 rd1', f rd = Some rd1 ∧ f rd' = Some rd1' ∧ sameReading k rd1 rd1'.

Lemma stable_id k : stable k Some.
Proof. intros rd rd' H. by exists rd, rd'. Qed.
Lemma stable_bind k f g : stable k f → stable k g → stable k (λ rd, rd ← f rd; g rd).
Proof.
  intros Hf Hg rd rd' H. destruct (Hf rd rd' H) as (rd1 & rd1' & -> & -> & H1). simpl. by apply Hg.
Qed.
Lemma stable_foldM {A} k (f : reading (F := F) → A → option (reading (F := F))) (l : list A) :
  (∀ x, x ∈ l → stable k (λ rd, f rd x)) → stable k (λ rd, foldM f rd l).
Proof.
  induction l as [|x l IH]; intros Hl; [apply stable_id|].
  apply (stable_bind k (λ rd, f rd x) (λ rd, foldM f rd l)); [apply Hl; by left|]. apply IH. intros y Hy. apply Hl. by right.
Qed.

Lemma agreeBut_insert k st st' key ref f f' :
  agreeBut k st st' →
  agreeBut k (Build_LocalSecretStore (<[key := ref]> (ls_secrets st)) f)
             (Build_LocalSecretStore (<[key := ref]> (ls_secrets st')) f').
Proof. intros H k' Hk'. simpl. rewrite !lookup_insert. case_decide; [done|by apply H]. Qed.

Lemma GetSecret_agree k st st' key st1 ref :
  agreeBut k st st' → key ≠ k → GetSecret st key = Some (st1, ref) →
  ∃ st1', GetSecret st' key = Some (st1', ref) ∧ agreeBut k st1 st1'.
Proof.
  intros Ha Hk H. unfold GetSecret in *. rewrite <-(Ha key Hk).
  destruct (ls_secrets st !! key) as [r|]; [|simplify_eq; eauto].
  destruct (sr_Error r); [simplify_eq; eauto|]. destruct (sr_Secret r) as [s|]; [|simplify_eq; eauto].
  case_bool_decide; [|simplify_eq; eauto].
  apply bind_Some in H as ([f p] & Hadd & H). simplify_eq.
  pose proof (paths_stable (ls_files st) (ls_files st') s) as Hp. rewrite Hadd in Hp. simpl in Hp.
  destruct (paths_total (ls_files st') s) as [[f' p'] Hadd']. rewrite Hadd' in Hp |- *. simplify_eq/=.
  eexists. split; [done|]. by apply agreeBut_insert.
Qed.

(** One secret *)
Lemma GetSecret_same k rd rd' key :
  sameReading k rd rd' → key ≠ k →
  ∃ st st' ref, GetSecret rd.1 key = Some (st, ref) ∧ GetSecret rd'.1 key = Some (st', ref) ∧
    ∀ name, sameReading k (st, <[name := ref]> rd.2) (st', <[name := ref]> rd'.2).
Proof.
  intros (Hr & Ha & He) Hk. destruct (GetSecret_ready rd.1 key Hr) as (st & ref & Hg & Hr' & _).
  destruct (GetSecret_agree _ _ _ _ _ _ Ha Hk Hg) as (st' & Hg' & Ha'). exists st, st', ref. split_and!; [done..|].
  intros name. split_and!; simpl; [done..|by rewrite He].
Qed.

Lemma stable_readAs k name key : key ≠ k → stable k (readAs name key).
Proof.
  intros Hk rd rd' H. destruct (GetSecret_same k rd rd' key H Hk) as (st & st' & ref & Hg & Hg' & Hs).
  unfold readAs. rewrite Hg, Hg'. eauto.
Qed.

Lemma stable_readServerTLS k ns secret :
  (∀ n, secret = Some n → keyOf ns n ≠ k) → stable k (readServerTLS ns secret).
Proof.
  intros Hn. unfold readServerTLS. destruct secret; [|apply stable_id]. case_bool_decide; [apply stable_id|].
  apply stable_readAs. auto.
Qed.

Lemma readSecrets_same k keys rd rd' :
  sameReading k rd rd' → k ∉ keys → ∃ rd1 rd1' err,
    readSecrets keys rd = Some (rd1, err) ∧ readSecrets keys rd' = Some (rd1', err) ∧ sameReading k rd1 rd1'.
Proof.
  revert rd rd'. induction keys as [|key keys IH]; intros rd rd' Hs Hk; simpl in *; [by exists rd, rd', None|].
  apply not_elem_of_cons in Hk as [Hne Hk].
  destruct (GetSecret_same k rd rd' key Hs (not_eq_sym Hne)) as (st & st' & ref & Hg & Hg' & Hsame).
  unfold readSecret. rewrite Hg, Hg'. simpl. destruct (sr_Error ref); [eauto 10|]. by apply IH.
Qed.

Lemma stable_runAll k keyss : (∀ keys, keys ∈ keyss → k ∉ keys) → stable k (runAll (readSecrets <$> keyss)).
Proof.
  induction keyss as [|keys keyss IH]; intros Hk rd rd' H; [by apply stable_id|]. cbn [fmap list_fmap runAll].
  destruct (readSecrets_same k keys rd rd' H) as (rd1 & rd1' & err & -> & -> & H1); [apply Hk; by left|]. cbn.
  apply IH; [|done]. intros keys' Hin. apply Hk. by right.
Qed.

(** every key that the loops read for a policy *)
Definition policyKeys (pol : Policy) : list string :=
  jwtSecretKeys pol ++ basicSecretKeys pol ++ ingressMTLSSecretKeys pol ++ egressMTLSSecretKeys pol
  ++ jwtTrustedCertKeys pol ++ oidcSecretKeys pol ++ oidcNativeSecretKeys pol ++ oidcNativeTrustedCertKeys pol
  ++ oidcTrustedCertKeys pol ++ externalAuthTrustedCertKeys pol ++ apiKeySecretKeys pol.
Definition noneReads (k : string) (policies : list Policy) : Prop := ∀ pol, pol ∈ policies → k ∉ policyKeys pol.

Lemma noneReads_bind k policies (keysOf : Policy → list string) :
  noneReads k policies → (∀ pol, keysOf pol ⊆ policyKeys pol) → k ∉ policies ≫= keysOf.
Proof. intros H Hsub (pol & Hk & Hin)%list_elem_of_bind. by eapply H, Hsub. Qed.

Lemma not_elem_of_take {A} (x : A) n l : x ∉ l → x ∉ take n l.
Proof. intros H (i & Hi & _)%elem_of_take. by apply list_elem_of_lookup_2 in Hi. Qed.

(** a list of loops over policies none of which reads the key *)
Ltac solve_stable :=
  match goal with Hn : noneReads ?k ?policies |- stable ?k (runAll (readSecrets <$> ?keyss)) =>
    apply stable_runAll; intros keys; rewrite !elem_of_cons, elem_of_nil; intros Hin; destruct_or!; subst; try done;
    try apply not_elem_of_take; (apply noneReads_bind; [done|]; intros pol; unfold policyKeys; set_solver)
  end.

Lemma addSpecSecretRefs_stable k policies : noneReads k policies → stable k (addSpecSecretRefs policies).
Proof.
  intros Hn. change (stable k (runAll (readSecrets <$>
    [policies ≫= jwtSecretKeys; policies ≫= basicSecretKeys; take 1 (policies ≫= ingressMTLSSecretKeys);
     policies ≫= egressMTLSSecretKeys; policies ≫= jwtTrustedCertKeys; policies ≫= oidcSecretKeys;
     policies ≫= oidcNativeSecretKeys; policies ≫= oidcNativeTrustedCertKeys; policies ≫= oidcTrustedCertKeys;
     policies ≫= externalAuthTrustedCertKeys; policies ≫= apiKeySecretKeys]))). solve_stable.
Qed.

Lemma addRouteSecretRefs_stable k policies : noneReads k policies → stable k (addRouteSecretRefs policies).
Proof.
  intros Hn. change (stable k (runAll (readSecrets <$>
    [policies ≫= jwtSecretKeys; policies ≫= basicSecretKeys;
     policies ≫= egressMTLSSecretKeys; policies ≫= jwtTrustedCertKeys; policies ≫= oidcSecretKeys;
     policies ≫= oidcNativeSecretKeys; policies ≫= oidcNativeTrustedCertKeys; policies ≫= oidcTrustedCertKeys;
     policies ≫= externalAuthTrustedCertKeys; policies ≫= apiKeySecretKeys]))). solve_stable.
Qed.

Lemma ingressRefs_stable k policies :
  noneReads k policies →
  stable k (runAll [addIngressMTLSSecretRefs policies; addEgressMTLSSecretRefs policies;
                    addOIDCNativeSecretRefs policies; addOIDCNativeTrustedCertSecretRefs policies]) ∧
  stable k (runAll [addExternalAuthTrustedCertSecretRefs policies]).
Proof.
  intros Hn. split.
  - change (stable k (runAll (readSecrets <$> [take 1 (policies ≫= ingressMTLSSecretKeys);
      policies ≫= egressMTLSSecretKeys; policies ≫= oidcNativeSecretKeys; policies ≫= oidcNativeTrustedCertKeys]))).
    solve_stable.
  - change (stable k (runAll (readSecrets <$> [policies ≫= externalAuthTrustedCertKeys]))). solve_stable.
Qed.

Context `{VL : ValidationLib} `{LL : !ValidationLaws} `{UL : URLLib}.

(** Two results that collected the same *)
Definition sameCollected {A} (k : string) (o o' : option (A * LocalSecretStore F)) : Prop :=
  ∃ x st st', o = Some (x, st) ∧ o' = Some (x, st') ∧ store_ready st ∧ agreeBut k st st'.

Lemma addRoutes_stable k lister routes policies rd rd' :
  sameReading k rd rd' → (∀ c, c ∈ routes → noneReads k (getPolicies lister c.1 c.2).1) →
  ∃ ps rd1 rd1', addRoutes lister routes policies rd = Some (ps, rd1) ∧
    addRoutes lister routes policies rd' = Some (ps, rd1') ∧ sameReading k rd1 rd1'.
Proof.
  revert policies rd rd'. induction routes as [|[refs ns] routes IH]; intros policies rd rd' Hs Hn; cbn [addRoutes];
    [by eauto 10|].
  destruct (addRouteSecretRefs_stable k (getPolicies lister refs ns).1 (Hn (refs, ns) ltac:(by left)) rd rd' Hs)
    as (rd1 & rd1' & -> & -> & Hs1).
  cbn [mbind option_bind]. apply IH; [done|]. intros c Hc. apply Hn. by right.
Qed.

(** A VirtualServer that reads no secret of the key *)
Definition vsReadsNot (k : string) lister (vs : VirtualServer) (vsrs : list VirtualServerRoute) : Prop :=
  (∀ tls, vs_TLS vs = Some tls → keyOf (om_Namespace (vs_Meta vs)) (tls_Secret tls) ≠ k) ∧
  ∀ c, c ∈ contexts vs vsrs → noneReads k (getPolicies lister c.1 c.2).1.

Lemma createVirtualServerEx_same k lister vs vsrs st st' :
  store_ready st → agreeBut k st st' → vsReadsNot k lister vs vsrs →
  ∃ pm rd rd', createVirtualServerEx_secrets lister vs vsrs st = Some (pm, rd) ∧
    createVirtualServerEx_secrets lister vs vsrs st' = Some (pm, rd') ∧ sameReading k rd rd'.
Proof.
  intros Hst Ha [Htls Hn]. unfold createVirtualServerEx_secrets. cbv zeta.
  assert (stable k (readServerTLS (om_Namespace (vs_Meta vs)) (tls_Secret <$> vs_TLS vs))) as H0.
  { apply stable_readServerTLS. intros n (tls & Ht & ->)%fmap_Some. by apply Htls. }
  destruct (H0 (st, ∅) (st', ∅)) as (rd0 & rd0' & -> & -> & Hs0); [done|]. cbn [mbind option_bind].
  destruct (addSpecSecretRefs_stable k (getPolicies lister (vs_Policies vs) (om_Namespace (vs_Meta vs))).1
    (Hn (vs_Policies vs, om_Namespace (vs_Meta vs)) ltac:(by left)) rd0 rd0' Hs0) as (rd1 & rd1' & -> & -> & Hs1).
  cbn [mbind option_bind].
  destruct (addRoutes_stable k lister (routeReferences vs vsrs)
    (getPolicies lister (vs_Policies vs) (om_Namespace (vs_Meta vs))).1 rd1 rd1' Hs1) as (ps & rd2 & rd2' & -> & -> & Hs2).
  { intros c Hc. apply Hn. by right. }
  cbn [mbind option_bind]. eauto 10.
Qed.

(** An Ingress that reads no secret of the key *)
Definition ingReadsNot (k : string) (isPlus crd : bool) lister (ing : Ingress) : Prop :=
  let ns := om_Namespace (ing_Meta ing) in
  (∀ tls, tls ∈ ing_TLS ing → keyOf ns (it_SecretName tls) ≠ k) ∧
  (∀ a n, a = BasicAuthSecretAnnotation ∨ isPlus = true ∧ a = JWTKeyAnnotation →
     annotationExists (ing_Meta ing) a = Some n → keyOf ns n ≠ k) ∧
  (crd = true → noneReads k (getPolicies lister (ingressPolicyRefs ing) ns).1).

Lemma stable_readAnnotation k meta a :
  (∀ n, annotationExists meta a = Some n → keyOf (om_Namespace meta) n ≠ k) → stable k (readAnnotation meta a).
Proof.
  intros Hn. unfold readAnnotation. destruct (annotationExists meta a); [|apply stable_id]. apply stable_readAs. auto.
Qed.

Lemma createIngressEx_same k isPlus crd lister ing st st' :
  store_ready st → agreeBut k st st' → ingReadsNot k isPlus crd lister ing →
  ∃ pm rd rd', createIngressEx_secrets isPlus crd lister ing st = Some (pm, rd) ∧
    createIngressEx_secrets isPlus crd lister ing st' = Some (pm, rd') ∧ sameReading k rd rd'.
Proof.
  intros Hst Ha (Htls & Hann & Hpol). unfold createIngressEx_secrets. cbv zeta.
  set (policies := if crd then _ else []).
  assert (noneReads k policies) as Hn by (subst policies; destruct crd; [auto|by intros ? ?%elem_of_nil]).
  destruct (ingressRefs_stable k policies Hn) as [H3 H5].
  assert (stable k (λ rd, foldM (readTLS (om_Namespace (ing_Meta ing))) rd (ing_TLS ing))) as H1.
  { apply stable_foldM. intros tls Hin. unfold readTLS. case_bool_decide.
    - intros rd rd' (? & ? & He). do 2 eexists. split_and!; [done..|]. split_and!; simpl; [done..|by rewrite He].
    - apply stable_readAs. auto. }
  destruct (H1 (st, ∅) (st', ∅)) as (rd1 & rd1' & -> & -> & Hs1); [done|]. cbn [mbind option_bind].
  destruct (stable_readAnnotation k (ing_Meta ing) BasicAuthSecretAnnotation ltac:(intros; eapply Hann; eauto) rd1 rd1' Hs1)
    as (rd2 & rd2' & -> & -> & Hs2). cbn [mbind option_bind].
  destruct (H3 rd2 rd2' Hs2) as (rd3 & rd3' & -> & -> & Hs3). cbn [mbind option_bind].
  assert (stable k (λ rd, if isPlus then readAnnotation (ing_Meta ing) JWTKeyAnnotation rd else Some rd)) as H4.
  { destruct isPlus; [|apply stable_id]. apply stable_readAnnotation. intros; eapply Hann; eauto. }
  destruct (H4 rd3 rd3' Hs3) as (rd4 & rd4' & -> & -> & Hs4). cbn [mbind option_bind].
  destruct (H5 rd4 rd4' Hs4) as (rd5 & rd5' & -> & -> & Hs5). cbn [mbind option_bind]. eauto 10.
Qed.

Lemma createIngresses_same k isPlus crd lister ings st st' :
  store_ready st → agreeBut k st st' → (∀ ing, ing ∈ ings → ingReadsNot k isPlus crd lister ing) →
  sameCollected k (createIngresses isPlus crd lister ings st) (createIngresses isPlus crd lister ings st').
Proof.
  revert st st'. induction ings as [|ing ings IH]; intros st st' Hst Ha Hn; [by exists [], st, st'|].
  cbn [createIngresses].
  destruct (createIngressEx_same k isPlus crd lister ing st st' Hst Ha (Hn ing ltac:(by left)))
    as (pm & rd & rd' & -> & -> & Hr & Ha' & He). cbn [mbind option_bind].
  destruct (IH rd.1 rd'.1 Hr Ha') as (cs & s & s' & -> & -> & Hs & Hs'); [intros i Hi; apply Hn; by right|].
  cbn [mbind option_bind]. rewrite He. by do 3 eexists.
Qed.

(** A resource that reads no secret of the key *)
Definition readsNot (k : string) (isPlus crd : bool) lister (r : Resource) : Prop :=
  match r with
  | RVirtualServer vsc => vsReadsNot k lister (vsc_VirtualServer vsc) (vsc_VirtualServerRoutes vsc)
  | RIngress ic => ∀ ing, ing ∈ ingressesOf ic → ingReadsNot k isPlus crd lister ing
  | RTransportServer tsc =>
      let ts := tsc_TransportServer tsc in ∀ n, ts_TLSSecret ts = Some n → keyOf (om_Namespace (ts_Meta ts)) n ≠ k
  end.

Lemma createExtendedResource_same k isPlus crd lister r st st' :
  store_ready st → agreeBut k st st' → readsNot k isPlus crd lister r →
  sameCollected k (createExtendedResource isPlus crd lister r st) (createExtendedResource isPlus crd lister r st').
Proof.
  intros Hst Ha Hn. destruct r as [ic|vsc|tsc]; cbn [createExtendedResource].
  - by apply createIngresses_same.
  - destruct (createVirtualServerEx_same k lister _ _ st st' Hst Ha Hn) as (pm & rd & rd' & -> & -> & Hr & Ha' & He).
    cbn [mbind option_bind]. rewrite He. by do 3 eexists.
  - unfold createTransportServerEx_secrets.
    destruct (stable_readServerTLS k _ _ Hn (st, ∅) (st', ∅)) as (rd & rd' & -> & -> & Hr & Ha' & He); [done|].
    cbn [mbind option_bind].
    rewrite He. by do 3 eexists.
Qed.
End Agreement.

(** ** The policies that read a secret are found *)

Section Search.
Context `{VL : ValidationLib} `{LL : !ValidationLaws} `{UL : URLLib}.

Lemma ParseResourceReference_plain ref ns ns' n :
  containsByte slash ns = false → ParseResourceReference ref ns = (ns', n) → containsByte slash ns' = false.
Proof.
  intros Hns. unfold ParseResourceReference. case_match; [|by intros [= <- <-]].
  destruct (Split slash ref) as [|a [|b [|? ?]]] eqn:Hs; intros [= <- <-]; try done.
  apply (Split_elem_free slash ref). rewrite Hs. by left.
Qed.

Lemma namedBy_key {A} pol ns name (o : option A) field x :
  o = Some x → containsByte slash (nsOf pol) = false → containsByte slash ns = false →
  keyOf ns name = keyOf (nsOf pol) (field x) → namedBy pol ns name o field = true.
Proof. intros -> Hp Hns [-> ->]%keyOf_inj; [|done..]. simpl. by rewrite !bool_decide_eq_true_2. Qed.

Lemma elem_of_optionalKey k ns n : k ∈ optionalKey ns n → k = keyOf ns n.
Proof. unfold optionalKey. case_bool_decide; [by intros ?%elem_of_nil|by intros ->%list_elem_of_singleton]. Qed.

(** the fields before externalAuth *)
Lemma reading_field_found pol ns name :
  containsByte slash (nsOf pol) = false → containsByte slash ns = false →
  keyOf ns name ∈ policyKeys pol →
  concernsPolicy ns name pol = true ∨
  (∃ x, ps_ExternalAuth (pol_Spec pol) = Some x ∧ keyOf ns name ∈ externalAuthTrustedCertKeys pol) ∨
  (∃ x, ps_APIKey (pol_Spec pol) = Some x ∧ keyOf ns name = keyOf (nsOf pol) (ak_ClientSecret x)).
Proof.
  intros Hp Hns Hk. unfold concernsPolicy. cbv zeta.
  repeat match goal with |- (if ?b then true else _) = true ∨ _ => destruct b eqn:?; [by left|] end. right.
  unfold policyKeys, jwtSecretKeys, basicSecretKeys, ingressMTLSSecretKeys, egressMTLSSecretKeys, jwtTrustedCertKeys,
    oidcSecretKeys, oidcNativeSecretKeys, oidcNativeTrustedCertKeys, oidcTrustedCertKeys, apiKeySecretKeys in Hk.
  rewrite !elem_of_app in Hk.
  assert (∀ A (o : option A) (field : A → string) x, namedBy pol ns name o field = false → o = Some x →
    keyOf ns name = keyOf (nsOf pol) (field x) → False) as Hno.
  { intros A o field x Hf Ho Heq. by rewrite (namedBy_key pol ns name o field x Ho Hp Hns Heq) in Hf. }
  destruct_or! Hk; repeat case_match; rewrite ?elem_of_app, ?elem_of_nil, ?list_elem_of_singleton in Hk; destruct_or? Hk; try done;
    try apply elem_of_optionalKey in Hk; 
    try match goal with Hf : namedBy _ _ _ ?o ?f = false |- _ => by destruct (Hno _ o f _ Hf eq_refl Hk) end; eauto.
  left. unfold externalAuthTrustedCertKeys in *. destruct (ps_ExternalAuth (pol_Spec pol)); [eauto|by apply elem_of_nil in Hk].
Qed.

(** A valid policy whose secret is read is found. *)
Lemma reading_policy_found pol cfg ns name :
  ValidatePolicy pol cfg = None → containsByte slash (nsOf pol) = false → containsByte slash ns = false →
  keyOf ns name ∈ policyKeys pol → concernsPolicy ns name pol = true.
Proof.
  intros Hok%ToAggregate_nil Hp Hns Hk. destruct (reading_field_found pol ns name Hp Hns Hk) as [?|Htail]; [done|].
  unfold concernsPolicy. cbv zeta.
  repeat match goal with |- (if ?b then true else _) = true => destruct b eqn:?; [done|] end.
  destruct Htail as [(x & Hx & Hkey)|(x & Hx & Hkey)].
  - rewrite Hx. unfold externalAuthTrustedCertKeys in Hkey. rewrite Hx in Hkey.
    case_bool_decide; [by apply elem_of_nil in Hkey|]. unfold ParseServiceReference in Hkey.
    destruct (ParseResourceReference _ _) as [ns' n'] eqn:Hr. apply list_elem_of_singleton in Hkey.
    apply keyOf_inj in Hkey as [-> ->]; [by rewrite !bool_decide_eq_true_2|done|by eapply (ParseResourceReference_plain _ (nsOf pol))].
  - destruct (ps_ExternalAuth (pol_Spec pol)) eqn:He.
    + exfalso. eassert ("externalAuth" = "apiKey") as Heq; [|discriminate Heq].
      eapply accepted_one_field; [done| | |by rewrite He|by rewrite Hx]; repeat first [by left|right].
    + by rewrite (namedBy_key pol ns name _ ak_ClientSecret x Hx Hp Hns Hkey).
Qed.
End Search.

(** ** The resources that are generated again *)

Section Found.
Context `{VL : ValidationLib} `{LL : !ValidationLaws} `{UL : URLLib}.
Context `{MR : MapRange} `{V : Validators} `{LS : LabelSelectors} `{Laws : !IngressValidatorLaws}.

Lemma reference_resolves lister refs ns pol :
  listerOk lister → referencesOk refs ns → pol ∈ (getPolicies lister refs ns).1 →
  isPolicyReferenced refs ns (nsOf pol) (om_Name (pol_Meta pol)) = true ∧
  pl_policies lister !! policyKey pol = Some pol ∧ ValidatePolicy pol (pl_config lister) = None.
Proof.
  intros Hl [Hns Hrefs] Hpol. rewrite getPolicies_resolved in Hpol.
  apply list_elem_of_omap in Hpol as (r & Hr & (_ & Hp & _ & Hv)%resolved_Some). destruct (Hl _ _ Hp) as [Hkey Hslash].
  rewrite Hkey. split_and!; [|done..]. unfold policyKey in Hkey.
  apply keyOf_inj in Hkey as [Hn1 Hn2]; [|done|].
  - unfold isPolicyReferenced. apply existsb_spec. exists r. split; [done|]. unfold nsOf. rewrite Hn1, Hn2.
    by rewrite !bool_decide_eq_true_2.
  - unfold refNamespace, generateString. case_bool_decide; [done|by apply Hrefs].
Qed.

Lemma contexts_referenced vsc refs ns pns pname :
  (refs, ns) ∈ contexts (vsc_VirtualServer vsc) (vsc_VirtualServerRoutes vsc) →
  isPolicyReferenced refs ns pns pname = true →
  resourceReferences newPolicyReferenceChecker pns pname (RVirtualServer vsc) = Some true.
Proof.
  intros Hin Href. simpl. destruct (policyByVirtualServer _ _ _) eqn:Hvs; [done|].
  rewrite (anyM_pure _ (policyByVirtualServerRoute pns pname)) by done. f_equal.
  unfold policyByVirtualServer in Hvs. apply orb_false_iff in Hvs as [H1 H2].
  unfold contexts, routeReferences in Hin. rewrite elem_of_cons, elem_of_app in Hin.
  destruct Hin as [[= -> ->]|[Hin|Hin]]; [congruence| |].
  - exfalso. apply list_elem_of_fmap in Hin as (r & [= -> ->] & Hr). apply not_true_iff_false in H2. apply H2.
    apply existsb_spec. eauto.
  - apply list_elem_of_bind in Hin as (vsr & Hin & Hvsr). apply list_elem_of_fmap in Hin as (sr & [= -> ->] & Hsr).
    apply existsb_spec. exists vsr. split; [done|]. apply existsb_spec. eauto.
Qed.

Lemma elem_of_getAllPolicies lister k pol :
  pl_policies lister !! k = Some pol → ValidatePolicy pol (pl_config lister) = None → pol ∈ getAllPolicies lister.
Proof.
  intros Hk Hv. unfold getAllPolicies. apply list_elem_of_filter. split; [done|]. apply elem_of_range_values. eauto.
Qed.

(** holds a host or a listener *)
Definition deployedAt (c : Configuration) (l : loc) : Prop :=
  (∃ host, c_hosts c !! host = Some l) ∨ (∃ k, c_listenerHosts c !! k = Some l).

Lemma addResourcesForPolicies_spec fl c pols resources :
  reachable fl c → c_startupComplete c = true → (∀ l, l ∈ resources → is_Some (c_store c !! l)) →
  ∃ result, addResourcesForPolicies c pols resources = Some result ∧ (∀ l, l ∈ result → is_Some (c_store c !! l)) ∧
    resources ⊆ result ∧
    ∀ pol l r, pol ∈ pols → deployedAt c l → c_store c !! l = Some r →
      resourceReferences newPolicyReferenceChecker (nsOf pol) (om_Name (pol_Meta pol)) r = Some true → l ∈ result.
Proof.
  intros Hreach Hst. revert resources. induction pols as [|pol pols IH]; intros resources Hin.
  { exists resources. split_and!; [done..|]. by intros pol l r ?%elem_of_nil. }
  destruct (search_finds fl c newPolicyReferenceChecker (nsOf pol) (om_Name (pol_Meta pol)) Hreach Hst)
    as (found & Hf & Hspec); [unfold checkersOf; set_solver|].
  destruct (IH (resources ++ found)) as (result & Hr & Hstore & Hsub & Hfound).
  { intros l [?|Hl]%elem_of_app; [auto|]. apply Hspec in Hl as (_ & r & -> & _). eauto. }
  exists result. cbn [addResourcesForPolicies]. unfold FindResourcesForPolicy. rewrite Hf. split_and!; [done..|set_solver|].
  intros pol' l r [->|Hpol]%elem_of_cons Hhost Hl Href; [|by eapply Hfound].
  apply Hsub, elem_of_app. right. apply Hspec. split; [done|eauto].
Qed.

Lemma removeDuplicateResources_spec h encountered resources :
  (∀ l, l ∈ resources → is_Some (h !! l)) →
  ∃ unique, removeDuplicateResources h encountered resources = Some unique ∧ unique ⊆ resources ∧
    ∀ l r, l ∈ resources → h !! l = Some r →
      GetKeyWithKind r ∈ encountered ∨ ∃ l' r', l' ∈ unique ∧ h !! l' = Some r' ∧ GetKeyWithKind r' = GetKeyWithKind r.
Proof.
  revert encountered. induction resources as [|l resources IH]; intros encountered Hin.
  { exists []. split_and!; [done..|]. by intros l r ?%elem_of_nil. }
  destruct (Hin l) as [r Hr]; [by left|]. cbn [removeDuplicateResources]. rewrite Hr. cbn [mbind option_bind].
  case_bool_decide as Henc.
  - destruct (IH encountered) as (unique & -> & Hsub & Hspec); [intros; apply Hin; by right|].
    exists unique. split_and!; [done|set_solver|]. intros l' r' [->|Hl']%elem_of_cons Hr'; [simplify_eq; auto|eauto].
  - destruct (IH (GetKeyWithKind r :: encountered)) as (unique & -> & Hsub & Hspec); [intros; apply Hin; by right|].
    exists (l :: unique). split_and!; [done|set_solver|]. intros l' r' [->|Hl']%elem_of_cons Hr'.
    + right. exists l, r. split_and!; [by left|done|congruence].
    + destruct (Hspec l' r' Hl' Hr') as [[Hk|?]%elem_of_cons|(l2 & r2 & ? & ? & ?)]; [|auto|].
      * right. exists l, r. split_and!; [by left|done|done].
      * right. exists l2, r2. split_and!; [by right|done..].
Qed.

(** The names of a resource's references: Kubernetes names hold no slash, the
    policies of an Ingress have the form that validatePolicyNames asks for, and
    minions have no TLS (validateMinionSpec). *)
Definition ingressRefsOk (ing : Ingress) : Prop :=
  referencesOk (ingressPolicyRefs ing) (om_Namespace (ing_Meta ing)) ∧
  ∀ r, r ∈ ingressPolicyRefs ing → pr_Namespace r ≠ "" ∧ containsByte slash (pr_Name r) = false.
Definition resourceRefsOk (r : Resource) : Prop :=
  match r with
  | RVirtualServer vsc =>
      ∀ x, x ∈ contexts (vsc_VirtualServer vsc) (vsc_VirtualServerRoutes vsc) → referencesOk x.1 x.2
  | RIngress ic =>
      (∀ ing, ing ∈ ingressesOf ic → ingressRefsOk ing) ∧ ∀ mc, mc ∈ ic_Minions ic → ing_TLS (mc_Ingress mc) = []
  | RTransportServer tsc => containsByte slash (om_Namespace (ts_Meta (tsc_TransportServer tsc))) = false
  end.

(** the secrets of the annotations *)
Definition annotatedSecret (isPlus : bool) (ing : Ingress) (name : string) : Prop :=
  annotationExists (ing_Meta ing) BasicAuthSecretAnnotation = Some name ∨
  isPlus = true ∧ annotationExists (ing_Meta ing) JWTKeyAnnotation = Some name.

Lemma secretByIngress_reads isPlus name ing :
  (∃ tls, tls ∈ ing_TLS ing ∧ it_SecretName tls = name) ∨ annotatedSecret isPlus ing name →
  secretByIngress isPlus (om_Namespace (ing_Meta ing)) name ing = true.
Proof.
  unfold secretByIngress. rewrite (bool_decide_eq_true_2 (_ = _)) by done. simpl. rewrite !orb_true_iff.
  intros [(tls & Hin & <-)|[H|[-> H]]]; [left; left|right|left; right]; [|by apply bool_decide_eq_true_2..].
  apply existsb_spec. exists tls. by rewrite bool_decide_eq_true_2.
Qed.
Lemma secretByMinion_reads isPlus name ing :
  annotatedSecret isPlus ing name → secretByMinion isPlus (om_Namespace (ing_Meta ing)) name ing = true.
Proof.
  unfold secretByMinion. rewrite (bool_decide_eq_true_2 (_ = _)) by done. simpl. rewrite orb_true_iff.
  intros [H|[-> H]]; [right|left]; by apply bool_decide_eq_true_2.
Qed.

(** An Ingress of the configuration that reads a secret by its name is found. *)
Lemma ingress_secret_found isPlus name ic ing :
  ing ∈ ingressesOf ic → (∀ mc, mc ∈ ic_Minions ic → ing_TLS (mc_Ingress mc) = []) →
  (∃ tls, tls ∈ ing_TLS ing ∧ it_SecretName tls = name) ∨ annotatedSecret isPlus ing name →
  resourceReferences (newSecretReferenceChecker isPlus) (om_Namespace (ing_Meta ing)) name (RIngress ic) = Some true.
Proof.
  intros Hin Hno Hread. simpl. destruct (secretByIngress _ _ _ (ic_Ingress ic)) eqn:Hi; [done|].
  rewrite (anyM_pure _ (λ mc, secretByMinion isPlus (om_Namespace (ing_Meta ing)) name (mc_Ingress mc))) by done. f_equal.
  apply elem_of_cons in Hin as [->|Hin]; [by rewrite secretByIngress_reads in Hi|].
  destruct (ic_IsMaster ic); [|by apply elem_of_nil in Hin]. apply list_elem_of_fmap in Hin as (mc & -> & Hmc).
  apply existsb_spec. exists mc. split; [done|]. apply secretByMinion_reads.
  destruct Hread as [(tls & Htls & _)|?]; [|done]. rewrite Hno in Htls by done. by apply elem_of_nil in Htls.
Qed.

(** A policy of an Ingress of the configuration is found by its reference. *)
Lemma ingress_policy_found lister ic ing pol :
  listerOk lister → ingressRefsOk ing → ing ∈ ingressesOf ic →
  pol ∈ (getPolicies lister (ingressPolicyRefs ing) (om_Namespace (ing_Meta ing))).1 →
  resourceReferences newPolicyReferenceChecker (nsOf pol) (om_Name (pol_Meta pol)) (RIngress ic) = Some true.
Proof.
  intros Hl [Hrefs Hform] Hin Hpol. destruct (reference_resolves lister _ _ pol Hl Hrefs Hpol) as (Href & Hp & _).
  assert (policyByIngress (nsOf pol) (om_Name (pol_Meta pol)) ing = true) as Hby.
  { apply existsb_spec in Href as (r & Hr & Heq). apply andb_true_iff in Heq as [Hn%bool_decide_eq_true Hns].
    destruct (Hform r Hr) as [Hne Hslash]. unfold policyNamespaceOf in Hns. rewrite (bool_decide_eq_false_2 (pr_Namespace r = "")) in Hns by done.
    apply bool_decide_eq_true in Hns. destruct (Hl _ _ Hp) as [_ Hpns].
    unfold policyByIngress. apply existsb_spec. unfold ingressPolicyRefs in Hr. apply elem_of_app in Hr.
    assert (∀ key, r ∈ (if bool_decide (annotation (ing_Meta ing) key = "") then []
        else GetPolicyRefsFromAnnotation (annotation (ing_Meta ing) key) (om_Namespace (ing_Meta ing))) →
      policyByAnnotation (nsOf pol) (om_Name (pol_Meta pol)) ing key = true) as Hkey.
    { intros key Hk. case_bool_decide; [by apply elem_of_nil in Hk|]. unfold annotation in *.
      destruct (annotationExists (ing_Meta ing) key) as [value|] eqn:Hv; [|done]. simpl in Hk.
      apply (policy_checker_matches_parser ing key value); [done|by rewrite <-Hn|done|].
      destruct r as [rn rns]. simpl in *. by subst. }
    destruct Hr as [Hr|Hr]; apply Hkey in Hr; [exists PoliciesAnnotation|exists PoliciesAnnotationPlus]; (split; [set_solver|done]). }
  simpl. apply elem_of_cons in Hin as [->|Hin]; [by rewrite Hby|]. destruct (policyByIngress _ _ (ic_Ingress ic)); [done|].
  destruct (ic_IsMaster ic); [|by apply elem_of_nil in Hin]. apply list_elem_of_fmap in Hin as (mc & -> & Hmc).
  rewrite (anyM_pure _ (λ mc, policyByIngress (nsOf pol) (om_Name (pol_Meta pol)) (mc_Ingress mc))) by done. f_equal.
  apply existsb_spec. eauto.
Qed.

(** A resource that reads a secret references it, or a policy that the secret
    concerns. *)
Lemma reader_references lister isPlus ns name r :
  listerOk lister → containsByte slash ns = false → resourceRefsOk r →
  resourceReferences (newSecretReferenceChecker isPlus) ns name r ≠ Some true →
  (∀ pol, pol ∈ getPoliciesForSecret lister ns name →
     resourceReferences newPolicyReferenceChecker (nsOf pol) (om_Name (pol_Meta pol)) r ≠ Some true) →
  readsNot (keyOf ns name) isPlus true lister r.
Proof.
  intros Hl Hns Hok Hsec Hpols.
  assert (∀ refs pns pol, referencesOk refs pns → pol ∈ (getPolicies lister refs pns).1 →
    keyOf ns name ∈ policyKeys pol → pol ∈ getPoliciesForSecret lister ns name) as Hconcerns.
  { intros refs pns pol Hr Hpol Hk. destruct (reference_resolves lister refs pns pol Hl Hr Hpol) as (_ & Hp & Hv).
    destruct (Hl _ _ Hp) as [_ Hslash]. unfold getPoliciesForSecret, findPoliciesForSecret. apply list_elem_of_filter.
    split; [|by eapply elem_of_getAllPolicies]. by rewrite (reading_policy_found pol (pl_config lister) ns name). }
  destruct r as [ic|vsc|tsc]; cbn [readsNot resourceRefsOk] in *.
  - destruct Hok as [Hings Hmin]. intros ing Hin. destruct (Hings ing Hin) as [Hrefs Hform]. pose proof Hrefs as [Hslash _].
    assert (∀ n, keyOf (om_Namespace (ing_Meta ing)) n = keyOf ns name →
      (∃ tls, tls ∈ ing_TLS ing ∧ it_SecretName tls = n) ∨ annotatedSecret isPlus ing n → False) as Hno.
    { intros n [<- <-]%keyOf_inj Hread; [|done..]. by apply Hsec, ingress_secret_found. }
    split_and!.
    + intros tls Htls Heq. apply (Hno _ Heq). eauto.
    + intros a n Ha Hann Heq. apply (Hno _ Heq). right. destruct Ha as [->|[? ->]]; [by left|by right].
    + intros _ pol Hpol Hk. apply (Hpols pol); [by eapply Hconcerns|by eapply ingress_policy_found].
  - split.
    + intros tls Htls [Hn1 Hn2]%keyOf_inj; [|by eapply (Hok (_, _)); left|done]. apply Hsec.
      simpl. unfold secretByVirtualServer. rewrite Hn1, Htls. simpl. rewrite Hn2. by rewrite !bool_decide_eq_true_2.
    + intros [refs pns] Hc pol Hpol Hk. pose proof (Hok _ Hc) as Hrefs.
      apply (Hpols pol); [by eapply Hconcerns|]. eapply contexts_referenced; [done|].
      by eapply (reference_resolves lister refs pns).
  - intros n Hn [Hn1 ->]%keyOf_inj; [|done..]. apply Hsec. simpl. unfold secretByTransportServer. rewrite Hn1, Hn.
    by rewrite !bool_decide_eq_true_2.
Qed.

(** The resources that a secret's synchronisation handles are found without a
    panic; a deployed resource that none of them is reads no secret of its name. *)
Lemma resourcesForSecret_covers fl c lister ns name :
  reachable fl c → c_startupComplete c = true → listerOk lister → containsByte slash ns = false →
  ∃ found, resourcesForSecret true lister c ns name = Some found ∧
    ∀ l r, deployedAt c l → c_store c !! l = Some r → resourceRefsOk r →
      (∀ l' r', l' ∈ found → c_store c !! l' = Some r' → GetKeyWithKind r' ≠ GetKeyWithKind r) →
      readsNot (keyOf ns name) (f_isPlus (c_flags c)) true lister r.
Proof.
  intros Hreach Hst Hl Hns. unfold resourcesForSecret, FindResourcesForSecret.
  destruct (search_finds fl c (newSecretReferenceChecker (f_isPlus (c_flags c))) ns name Hreach Hst)
    as (byRef & -> & Hspec); [unfold checkersOf; set_solver|].
  cbn [mbind option_bind].
  destruct (addResourcesForPolicies_spec fl c (getPoliciesForSecret lister ns name) byRef Hreach Hst)
    as (all & -> & Hstore & Hsub & Hpols).
  { intros l Hin. apply Hspec in Hin as (_ & r & -> & _). eauto. }
  cbn [mbind option_bind]. destruct (removeDuplicateResources_spec (c_store c) [] all Hstore) as (found & -> & _ & Hdup).
  exists found. split; [done|]. intros l r Hdep Hr Hrefs Hnot.
  assert (l ∉ all) as Hall.
  { intros Hin. destruct (Hdup l _ Hin Hr) as [?%elem_of_nil|(l' & r' & Hl' & Hr' & Hk)]; [done|].
    by apply (Hnot l' r' Hl' Hr'). }
  apply reader_references; [done..| |].
  - intros Href. apply Hall, Hsub, Hspec. eauto.
  - intros pol Hpol Href. by eapply Hall, Hpols.
Qed.
End Found.

(** ** syncSecret *)

Section Sync.
Context `{VL : ValidationLib} `{LL : !ValidationLaws} `{UL : URLLib}.
Context `{MR : MapRange} `{V : Validators} `{LS : LabelSelectors} `{Laws : !IngressValidatorLaws}.
Context `{Crypto : CryptoAPI} {F : Type} `{FM : !SecretFileManager F} `{SPC : !SecretPathsContract F}.

Lemma AddOrUpdateSecret_agree (st : LocalSecretStore F) s :
  ∃ st', AddOrUpdateSecret st s = Some st' ∧ agreeBut (secretKey s) st st'.
Proof.
  unfold AddOrUpdateSecret. destruct (paths_total (ls_files st) s) as [[f p] Hadd].
  repeat case_match; rewrite ?Hadd; (eexists; split; [done|]); intros k' Hk'; simpl; by rewrite lookup_insert_ne.
Qed.
Lemma DeleteSecret_agree (st : LocalSecretStore F) k : agreeBut k st (StoreDeleteSecret st k).
Proof. unfold StoreDeleteSecret. case_match; [|done]. intros k' Hk'. simpl. by rewrite lookup_delete_ne. Qed.

Lemma ParseNamespaceName_Some key ns name :
  ParseNamespaceName key = Some (ns, name) → key = keyOf ns name ∧ containsByte slash ns = false.
Proof.
  unfold ParseNamespaceName. intros H. destruct (Split slash key) as [|a [|b []]] eqn:Hs; simplify_eq.
  by destruct (Split_two _ _ _ Hs) as (-> & Ha & _).
Qed.

(** the events of a Secret come from the informers of its namespace *)
Definition watchedKey (lister : policyListers) (key : string) : Prop :=
  ∀ ns name, ParseNamespaceName key = Some (ns, name) → pl_watched lister ns = true.

Lemma syncSecret_agree fl c lister key obj (st : LocalSecretStore F) :
  reachable fl c → c_startupComplete c = true → listerOk lister → watchedKey lister key →
  (∀ s, obj = inr (Some s) → secretKey s = key) →
  ∃ st' found requeued, syncSecret true lister c key obj st = Some (st', found, requeued) ∧
    (requeued = None ↔ (is_Some (ParseNamespaceName key) → ∃ o, obj = inr o)) ∧
    (st' = st ∨ agreeBut key st st' ∧ ∃ ns name, key = keyOf ns name ∧ containsByte slash ns = false ∧
       resourcesForSecret true lister c ns name = Some found).
Proof.
  intros Hreach Hst Hl Hw Hobj. unfold syncSecret.
  destruct (ParseNamespaceName key) as [[ns name]|] eqn:Hkey.
  2:{ do 3 eexists. split_and!; [done| |by left]. split; [|done]. intros _ [x Hx]. discriminate Hx. }
  rewrite (Hw ns name Hkey). cbn [negb]. destruct obj as [err|obj].
  { do 3 eexists. split_and!; [done| |by left]. split; [done|]. intros H. destruct H as [o Ho]; [by eexists|]. done. }
  apply ParseNamespaceName_Some in Hkey as [-> Hns].
  destruct (resourcesForSecret_covers fl c lister ns name Hreach Hst Hl Hns) as (found & Hf & _). rewrite Hf.
  cbn [mbind option_bind]. destruct obj as [s|].
  - destruct (AddOrUpdateSecret_agree st s) as (st' & -> & Ha). cbn [mbind option_bind]. do 3 eexists.
    split; [done|]. split; [by split; eauto|]. right. rewrite (Hobj s eq_refl) in Ha. eauto 10.
  - do 3 eexists. split; [done|]. split; [by split; eauto|]. right. eauto 10 using DeleteSecret_agree.
Qed.

(** Every key that is read has a slash. *)
Lemma keyOf_ne ns n : keyOf ns n ≠ "".
Proof. unfold keyOf. by destruct ns. Qed.
Lemma policyKeys_ne pol : "" ∉ policyKeys pol.
Proof.
  assert (∀ ns n, "" ∉ optionalKey ns n) as Hopt.
  { intros ns n H%elem_of_optionalKey. symmetry in H. by apply keyOf_ne in H. }
  assert (∀ ns n, "" ∉ [keyOf ns n]) as Hone.
  { intros ns n H%list_elem_of_singleton. symmetry in H. by apply keyOf_ne in H. }
  unfold policyKeys, jwtSecretKeys, basicSecretKeys, ingressMTLSSecretKeys, egressMTLSSecretKeys, jwtTrustedCertKeys,
    oidcSecretKeys, oidcNativeSecretKeys, oidcNativeTrustedCertKeys, oidcTrustedCertKeys, externalAuthTrustedCertKeys,
    apiKeySecretKeys.
  rewrite !not_elem_of_app. split_and!; repeat case_match; rewrite ?not_elem_of_app; auto using not_elem_of_nil.
Qed.
Lemma readsNot_empty isPlus crd lister r : readsNot "" isPlus crd lister r.
Proof.
  destruct r; cbn [readsNot]; unfold vsReadsNot, ingReadsNot, noneReads; repeat split; intros;
    auto using keyOf_ne, policyKeys_ne.
Qed.

(** C6.  No resource keeps a stale secret.  When a Secret is created, updated or
    deleted in a namespace that has informers, syncSecret returns (with the task
    back in the queue when the lister of secrets fails, and only then), and every deployed VirtualServer, Ingress (with its
    minions) and TransportServer that is not among the resources it generates
    again collects, from the store before and the store after, the same policies
    and the same secret references: its configuration does not depend on what
    changed.  The resources that are generated again come from the references of
    the configuration (FindResourcesForSecret) and, through the policies that use
    the secret (findPoliciesForSecret), from the references to policies of
    VirtualServers, routes, VirtualServerRoutes and Ingress annotations. *)
Theorem secret_sync_reaches_every_reader fl c lister key obj ops (files : F) :
  reachable fl c → c_startupComplete c = true → listerOk lister → watchedKey lister key →
  (∀ s, OpAdd s ∈ ops → named_secret s) → (∀ s, obj = inr (Some s) → secretKey s = key) →
  ∃ st st' found requeued, foldM storeStep (NewLocalSecretStore files) ops = Some st ∧
    syncSecret true lister c key obj st = Some (st', found, requeued) ∧
    (requeued = None ↔ (is_Some (ParseNamespaceName key) → ∃ o, obj = inr o)) ∧
    ∀ l r, deployedAt c l → c_store c !! l = Some r → resourceRefsOk r →
      (∀ l' r', l' ∈ found → c_store c !! l' = Some r' → GetKeyWithKind r' ≠ GetKeyWithKind r) →
      ∃ cs st1 st1',
        createExtendedResource (f_isPlus (c_flags c)) true lister r st = Some (cs, st1) ∧
        createExtendedResource (f_isPlus (c_flags c)) true lister r st' = Some (cs, st1').
Proof.
  intros Hreach Hst Hl Hw Hnamed Hobj. destruct (store_runs_ready ops files Hnamed) as (st & Hrun & Hready).
  destruct (syncSecret_agree fl c lister key obj st Hreach Hst Hl Hw Hobj)
    as (st' & found & requeued & Hsync & Hreq & Hcase).
  exists st, st', found, requeued. split_and!; [done..|]. intros l r Hdep Hr Hrefs Hnot.
  enough (∃ k, agreeBut k st st' ∧ readsNot k (f_isPlus (c_flags c)) true lister r) as (k & Ha & Hno).
  { destruct (createExtendedResource_same k _ true lister r st st' Hready Ha Hno) as (cs & s1 & s2 & -> & -> & _). eauto. }
  destruct Hcase as [->|(Ha & ns & name & -> & Hns & Hf)].
  - exists "". split; [done|]. apply readsNot_empty.
  - exists (keyOf ns name). split; [done|].
    destruct (resourcesForSecret_covers fl c lister ns name Hreach Hst Hl Hns) as (found' & Hf' & Hcov).
    rewrite Hf in Hf'. simplify_eq. by eapply Hcov.
Qed.
End Sync.

(** ** Example *)

Section Example.
Import SecretSample PolicySample.
#[local] Existing Instance sampleLib.
#[local] Existing Instance sampleLib_laws.
#[local] Existing Instance pathsContract.

(** The password file of a policy that no resource references: the VirtualServer of
    x.com reads what it read before. *)
Lemma secret_sync_reaches_every_reader_witness :
  ∃ st st' found, syncSecret true lister sampleConfig "default/users" (inr (Some usersSecret)) st = Some (st', found, None) ∧
    ∃ l r cs st1 st1', c_hosts sampleConfig !! "x.com" = Some l ∧ c_store sampleConfig !! l = Some r ∧
        createExtendedResource false true lister r st = Some (cs, st1) ∧
        createExtendedResource false true lister r st' = Some (cs, st1').
Proof.
  destruct (secret_sync_reaches_every_reader sampleFlags sampleConfig lister "default/users" (inr (Some usersSecret)) [] (∅ : FS))
    as (st & st' & found & requeued & Hst & Hsync & Hreq & Hall).
  - exact sampleConfig_reachable.
  - vm_compute. reflexivity.
  - exact lister_ok.
  - intros ns name _. reflexivity.
  - by intros s ?%elem_of_nil.
  - intros s Hs. injection Hs as <-. vm_compute. reflexivity.
  - destruct Hreq as [_ Hreq]. rewrite Hreq in Hsync by (intros _; eexists; reflexivity).
    exists st, st', found. split; [exact Hsync|]. simpl in Hst. injection Hst as <-.
    destruct (c_hosts sampleConfig !! "x.com") as [l|] eqn:Hl; [|by vm_compute in Hl].
    destruct (c_store sampleConfig !! l) as [[|vsc|]|] eqn:Hv;
      try (vm_compute in Hl; injection Hl as <-; vm_compute in Hv; discriminate Hv).
    exists l, (RVirtualServer vsc). destruct (Hall l (RVirtualServer vsc)) as (cs & st1 & st1' & H1 & H2).
    + left. exists "x.com". exact Hl.
    + exact Hv.
    + vm_compute in Hl. injection Hl as <-. vm_compute in Hv. injection Hv as <-.
      intros x [<-|[]]%list_elem_of_In. split; [reflexivity|]. intros r []%elem_of_nil.
    + vm_compute in Hsync. injection Hsync as <- <-. intros l' r' []%elem_of_nil.
    + exists cs, st1, st1'. exact (conj eq_refl (conj Hv (conj H1 H2))).
Defined.

(** A task that is still in the queue when the informers of its namespace are removed *)
Definition unwatching : policyListers :=
  {| pl_watched := λ ns, negb (bool_decide (ns = "default")); pl_policies := ∅; pl_ingressClass := "nginx";
     pl_config := pl_config lister |}.
Example unwatched_secret_panics obj (st : LocalSecretStore FS) :
  syncSecret true unwatching sampleConfig "default/users" obj st = None.
Proof. reflexivity. Qed.
End Example.
