(* ===== verification/VSUpstreams.v ===== *)
(** The generation of the configuration of a VirtualServer
    (internal/configs/virtualserver.go), first part: what the configurator and the
    extended VirtualServer hold, names, endpoints, upstreams and health checks.

    Objects are told apart by [ownerId], the key of their warnings.  [None] is a
    panic. *)
From S2P Require Import Prelude GoStrings Objects ProxyBuffers ParsingHelpers.
From S2P Require Import PolicyObjects PolicyConfig SecretStore Version2 ConfigParams.

(** ** Outside the repository *)

(** labels.Set.String of k8s.io/apimachinery *)
Class LabelSets := { labelSet_String : gmap string string → string }.

(** [sort.Slice] by a string key: any sorted permutation *)
Class SliceSort := {
  sortSlice : ∀ {A}, (A → string) → list A → list A;
  sortSlice_perm : ∀ {A} (key : A → string) l, sortSlice key l ≡ₚ l;
  sortSlice_sorted : ∀ {A} (key : A → string) l, StronglySorted String.le (key <$> sortSlice key l)
}.

(** ** The configurator *)

(** its warnings are passed from operation to operation *)
Record virtualServerConfigurator := {
  vsc_cfgParams : ConfigParams;
  vsc_isPlus : bool;
  vsc_isWildcardEnabled : bool;
  vsc_isResolverConfigured : bool;
  vsc_isTLSPassthrough : bool;
  vsc_enableSnippets : bool;
  vsc_isIPV6Disabled : bool;
  vsc_DynamicSSLReloadEnabled : bool;
  vsc_StaticSSLPath : string;
  vsc_CABundlePath : string;
  vsc_DynamicWeightChangesReload : bool;
  vsc_bundleValidator : bundleValidator;
  vsc_IngressControllerReplicas : Z;
  vsc_plmEnabled : bool
}.
Definition newVirtualServerConfigurator `{PolicyLib} (cfgParams : ConfigParams) (isPlus isResolverConfigured : bool)
    (staticParams : StaticConfigParams) (isWildcardEnabled : bool) (validator : option bundleValidator)
    : virtualServerConfigurator :=
  {| vsc_cfgParams := cfgParams; vsc_isPlus := isPlus; vsc_isWildcardEnabled := isWildcardEnabled;
     vsc_isResolverConfigured := isResolverConfigured; vsc_isTLSPassthrough := scp_TLSPassthrough staticParams;
     vsc_enableSnippets := scp_EnableSnippets staticParams; vsc_isIPV6Disabled := scp_DisableIPV6 staticParams;
     vsc_DynamicSSLReloadEnabled := scp_DynamicSSLReload staticParams;
     vsc_StaticSSLPath := scp_StaticSSLPath staticParams; vsc_CABundlePath := scp_DefaultCABundle staticParams;
     vsc_DynamicWeightChangesReload := scp_DynamicWeightChangesReload staticParams;
     vsc_bundleValidator := default (internalBundleValidator (scp_AppProtectBundlePath staticParams)) validator;
     vsc_IngressControllerReplicas := 0; vsc_plmEnabled := scp_PLMEnabled staticParams |}.

(** VirtualServerEx, without what only the configurator and metrics read:
    PodsByIP, the unstructured objects and DosProtectedEx.  An entry of Endpoints
    can be a nil slice. *)
Record VirtualServerEx := {
  vsx_VirtualServer : VirtualServer;
  vsx_HTTPPort : Z;
  vsx_HTTPSPort : Z;
  vsx_HTTPIPv4 : string;
  vsx_HTTPIPv6 : string;
  vsx_HTTPSIPv4 : string;
  vsx_HTTPSIPv6 : string;
  vsx_Endpoints : gmap string (option (list string));
  vsx_VirtualServerRoutes : list VirtualServerRoute;
  vsx_VirtualServerSelectorRoutes : gmap string (list string);
  vsx_ExternalNameSvcs : gmap string bool;
  vsx_Policies : gmap string Policy;
  vsx_SecretRefs : gmap string SecretReference;
  vsx_ZoneSync : bool
}.

(** The object a piece of configuration is generated for: the VirtualServer, or
    the VirtualServerRoute at a position of VirtualServerRoutes *)
Inductive ownerObject :=
| OwnerVS (vs : VirtualServer)
| OwnerVSR (i : nat) (vsr : VirtualServerRoute).
Definition ownerId (owner : ownerObject) : nat :=
  match owner with OwnerVS _ => 0 | OwnerVSR i _ => S i end.
Definition ownerMeta (owner : ownerObject) : ObjectMeta :=
  match owner with OwnerVS vs => vs_Meta vs | OwnerVSR _ vsr => vsr_Meta vsr end.

Definition addOwnerWarning (w : Warnings) (owner : ownerObject) (msg : string) : Warnings :=
  AddWarning w (ownerId owner) msg.

(** ** Names *)
Record upstreamNamer := { un_prefix : string; un_namespace : string }.
Definition NewUpstreamNamerForVirtualServer (vs : VirtualServer) : upstreamNamer :=
  {| un_prefix := "vs_" +:+ om_Namespace (vs_Meta vs) +:+ "_" +:+ om_Name (vs_Meta vs);
     un_namespace := om_Namespace (vs_Meta vs) |}.
Definition NewUpstreamNamerForVirtualServerRoute (vs : VirtualServer) (vsr : VirtualServerRoute) : upstreamNamer :=
  {| un_prefix := "vs_" +:+ om_Namespace (vs_Meta vs) +:+ "_" +:+ om_Name (vs_Meta vs) +:+ "_vsr_"
                  +:+ om_Namespace (vsr_Meta vsr) +:+ "_" +:+ om_Name (vsr_Meta vsr);
     un_namespace := om_Namespace (vsr_Meta vsr) |}.
Definition GetNameForUpstream (namer : upstreamNamer) (upstream : string) : string :=
  un_prefix namer +:+ "_" +:+ upstream.
(** the upstream that an action names *)
Definition actionUpstream (action : Action) : string :=
  match a_Proxy action with
  | Some proxy => if bool_decide (ap_Upstream proxy = "") then a_Pass action else ap_Upstream proxy
  | None => a_Pass action
  end.
Definition GetNameForUpstreamFromAction (namer : upstreamNamer) (action : Action) : string :=
  GetNameForUpstream namer (actionUpstream action).

Record VariableNamer := { safeNsName : string }.
Definition NewVSVariableNamer (vs : VirtualServer) : VariableNamer :=
  {| safeNsName := ReplaceAll (om_Namespace (vs_Meta vs) +:+ "_" +:+ om_Name (vs_Meta vs)) dash "_" |}.
Definition vsName (namer : VariableNamer) (rest : string) : string := "vs_" +:+ safeNsName namer +:+ rest.
Definition vsVariable (namer : VariableNamer) (rest : string) : string := String dollar (vsName namer rest).
Definition threeIndices (index i j : Z) : string := fmtInt index +:+ "_" +:+ fmtInt i +:+ "_" +:+ fmtInt j.
Definition GetNameOfKeyvalZoneForSplitClientIndex (namer : VariableNamer) (index : Z) : string :=
  vsName namer ("_keyval_zone_split_clients_" +:+ fmtInt index).
Definition GetNameOfKeyvalForSplitClientIndex (namer : VariableNamer) (index : Z) : string :=
  vsVariable namer ("_keyval_split_clients_" +:+ fmtInt index).
Definition GetNameOfKeyvalKeyForSplitClientIndex (namer : VariableNamer) (index : Z) : string :=
  quoted (vsName namer ("_keyval_key_split_clients_" +:+ fmtInt index)).
Definition GetNameOfMapForSplitClientIndex (namer : VariableNamer) (index : Z) : string :=
  vsVariable namer ("_map_split_clients_" +:+ fmtInt index).
Definition GetNameOfKeyOfMapForWeights (namer : VariableNamer) (index i j : Z) : string :=
  quoted (vsName namer ("_split_clients_" +:+ threeIndices index i j)).
Definition GetNameOfSplitClientsForWeights (namer : VariableNamer) (index i j : Z) : string :=
  vsVariable namer ("_split_clients_" +:+ threeIndices index i j).
Definition GetNameForSplitClientVariable (namer : VariableNamer) (index : Z) : string :=
  vsVariable namer ("_splits_" +:+ fmtInt index).
Definition GetNameForVariableForMatchesRouteMap (namer : VariableNamer) (matchesIndex matchIndex conditionIndex : Z)
    : string :=
  vsVariable namer ("_matches_" +:+ fmtInt matchesIndex +:+ "_match_" +:+ fmtInt matchIndex
                    +:+ "_cond_" +:+ fmtInt conditionIndex).
Definition GetNameForVariableForMatchesRouteMainMap (namer : VariableNamer) (matchesIndex : Z) : string :=
  vsVariable namer ("_matches_" +:+ fmtInt matchesIndex).

(** ** Values *)

(** the value has been validated: ParseTime returns the empty text with an error *)
Definition generateTime (value : string) : string :=
  match ParseTime value with inr parsed => parsed | inl _ => "" end.
Definition generateTimeWithDefault (value defaultValue : string) : string :=
  if bool_decide (value = "") then defaultValue else generateTime value.
Definition generateProxyPassProtocol (enableTLS : bool) : string := if enableTLS then "https" else "http".
Definition generateGRPCPassProtocol (enableTLS : bool) : string := if enableTLS then "grpcs" else "grpc".
Definition generateGRPCPass (grpcEnabled tlsEnabled : bool) (upstreamName : string) : string :=
  if grpcEnabled then generateGRPCPassProtocol tlsEnabled +:+ "://" +:+ upstreamName else "".
Definition isGRPC (protocolType : string) : bool := bool_decide (protocolType = "grpc").
Definition isTLSEnabled (upstream : Upstream) : bool := u_TLS upstream.
Definition generateLBMethod (method defaultMethod : string) : string :=
  if bool_decide (method = "") then defaultMethod
  else if bool_decide (method = "round_robin") then "" else method.
Definition generateSessionCookie (sc : option SessionCookie) : option SessionCookieCfg :=
  match sc with
  | Some sc =>
      if negb (sc_Enable sc) then None
      else Some {| vsck_Enable := true; vsck_Name := sc_Name sc; vsck_Path := sc_Path sc; vsck_Expires := sc_Expires sc;
                   vsck_Domain := sc_Domain sc; vsck_HTTPOnly := sc_HTTPOnly sc; vsck_Secure := sc_Secure sc;
                   vsck_SameSite := sc_SameSite sc |}
  | None => None
  end.
Definition generateStatusMatchName (upstreamName : string) : string := upstreamName +:+ "_match".
Definition generateUpstreamStatusMatch (upstreamName status : string) : StatusMatchCfg :=
  {| smt_Name := generateStatusMatchName upstreamName; smt_Code := status |}.
Definition generateQueueForPlus (upstreamQueue : option UpstreamQueue) (defaultTimeout : string) : option QueueCfg :=
  (λ q, {| vq_Size := uq_Size q; vq_Timeout := generateTimeWithDefault (uq_Timeout q) defaultTimeout |}) <$> upstreamQueue.
Definition upstreamHasKeepalive (upstream : Upstream) (cfgParams : ConfigParams) : bool :=
  negb (default (cp_Keepalive cfgParams) (u_Keepalive upstream) =? 0)%Z.

(** ** Health checks *)
Definition newHealthCheckWithDefaults (upstream : Upstream) (upstreamName : string) (cfgParams : ConfigParams)
    : HealthCheckCfg :=
  {| vhc_Name := upstreamName; vhc_URI := if isGRPC (u_Type upstream) then "" else "/"; vhc_Interval := "5s";
     vhc_Jitter := "0s"; vhc_Fails := 1; vhc_Passes := 1; vhc_Port := 0;
     vhc_ProxyPass := generateProxyPassProtocol (u_TLS upstream) +:+ "://" +:+ upstreamName;
     vhc_ProxyConnectTimeout := generateTimeWithDefault (u_ProxyConnectTimeout upstream) (cp_ProxyConnectTimeout cfgParams);
     vhc_ProxyReadTimeout := generateTimeWithDefault (u_ProxyReadTimeout upstream) (cp_ProxyReadTimeout cfgParams);
     vhc_ProxySendTimeout := generateTimeWithDefault (u_ProxySendTimeout upstream) (cp_ProxySendTimeout cfgParams);
     vhc_Headers := ∅; vhc_Match := "";
     vhc_GRPCPass := generateGRPCPass (isGRPC (u_Type upstream)) (u_TLS upstream) upstreamName;
     vhc_GRPCStatus := None; vhc_GRPCService := ""; vhc_Mandatory := false; vhc_Persistent := false;
     vhc_KeepaliveTime := "60s"; vhc_IsGRPC := isGRPC (u_Type upstream) |}.

Definition generateHealthCheck (upstream : Upstream) (upstreamName : string) (cfgParams : ConfigParams)
    : option HealthCheckCfg :=
  match u_HealthCheck upstream with
  | None => None
  | Some h =>
      if negb (hc_Enable h) then None
      else
        let hc := newHealthCheckWithDefaults upstream upstreamName cfgParams in
        let timeOr value dflt := if bool_decide (value = "") then dflt else generateTime value in
        Some {| vhc_Name := vhc_Name hc;
                vhc_URI := if bool_decide (hc_Path h = "") then vhc_URI hc else hc_Path h;
                vhc_Interval := timeOr (hc_Interval h) (vhc_Interval hc);
                vhc_Jitter := timeOr (hc_Jitter h) (vhc_Jitter hc);
                vhc_Fails := if (0 <? hc_Fails h)%Z then hc_Fails h else vhc_Fails hc;
                vhc_Passes := if (0 <? hc_Passes h)%Z then hc_Passes h else vhc_Passes hc;
                vhc_Port := hc_Port h;
                vhc_ProxyPass :=
                  match hc_TLS h with
                  | Some enable => generateProxyPassProtocol enable +:+ "://" +:+ upstreamName
                  | None => vhc_ProxyPass hc
                  end;
                vhc_ProxyConnectTimeout := timeOr (hc_ConnectTimeout h) (vhc_ProxyConnectTimeout hc);
                vhc_ProxyReadTimeout := timeOr (hc_ReadTimeout h) (vhc_ProxyReadTimeout hc);
                vhc_ProxySendTimeout := timeOr (hc_SendTimeout h) (vhc_ProxySendTimeout hc);
                vhc_Headers := foldl (λ m hd, <[h_Name hd := h_Value hd]> m) (vhc_Headers hc) (hc_Headers h);
                vhc_Match := if bool_decide (hc_StatusMatch h = "") then vhc_Match hc
                             else generateStatusMatchName upstreamName;
                vhc_GRPCPass := vhc_GRPCPass hc; vhc_GRPCStatus := hc_GRPCStatus h; vhc_GRPCService := hc_GRPCService h;
                vhc_Mandatory := hc_Mandatory h; vhc_Persistent := hc_Persistent h;
                vhc_KeepaliveTime := timeOr (hc_KeepaliveTime h) (vhc_KeepaliveTime hc);
                vhc_IsGRPC := vhc_IsGRPC hc |}
  end.

Section Upstreams.
Context `{LS : LabelSets} `{SS : SliceSort} `{PL : PolicyLib}.
Implicit Types (vsc : virtualServerConfigurator) (vsEx : VirtualServerEx) (w : Warnings).

(** ** Endpoints *)
Definition GenerateEndpointsKey (serviceNamespace serviceName : string) (subselector : option (gmap string string))
    (port : Z) : string :=
  let labels := default ∅ subselector in
  if Nat.ltb 0 (size labels)
  then serviceNamespace +:+ "/" +:+ serviceName +:+ "_" +:+ labelSet_String labels +:+ ":" +:+ fmtInt port
  else serviceNamespace +:+ "/" +:+ serviceName +:+ ":" +:+ fmtInt port.
Definition GenerateExternalNameSvcKey (namespace service : string) : string := namespace +:+ "/" +:+ service.

Definition nginx502Server : string := "unix:/var/lib/nginx/nginx-502-server.sock".
Definition nginx418Server : string := "unix:/var/lib/nginx/nginx-418-server.sock".

Definition externalNameWarning (service upstream : string) : string :=
  "Type ExternalName service " +:+ service +:+ " in upstream " +:+ upstream
  +:+ " will be ignored. To use ExternaName services, a resolver must be configured in the ConfigMap".
(** a service of type ExternalName without a resolver *)
Definition unresolvable vsc vsEx (key : string) : bool :=
  bool_decide (is_Some (vsx_ExternalNameSvcs vsEx !! key)) && negb (vsc_isResolverConfigured vsc).

Definition generateEndpointsForUpstream vsc (owner : ownerObject) (namespace : string) (upstream : Upstream) vsEx w
    : list string * Warnings :=
  let '(serviceNamespace, serviceName) := ParseServiceReference (u_Service upstream) namespace in
  let endpointsKey := GenerateEndpointsKey serviceNamespace serviceName (u_Subselector upstream) (u_Port upstream) in
  let externalNameSvcKey := GenerateExternalNameSvcKey namespace (u_Service upstream) in
  let endpoints := mjoin (vsx_Endpoints vsEx !! endpointsKey) in
  let w := if bool_decide (endpoints = Some [])
           then addOwnerWarning w owner ("No endpoints found for service " +:+ u_Service upstream) else w in
  let endpoints := default [] endpoints in
  if negb (vsc_isPlus vsc) && Nat.eqb (length endpoints) 0 then ([nginx502Server], w)
  else if unresolvable vsc vsEx externalNameSvcKey
  then ([], addOwnerWarning w owner (externalNameWarning (u_Service upstream) (u_Name upstream)))
  else (endpoints, w).

Definition generateBackupEndpointsForUpstream vsc (owner : ownerObject) (namespace : string) (upstream : Upstream) vsEx w
    : list string * Warnings :=
  match u_BackupPort upstream with
  | None => ([], w)
  | Some backupPort =>
      if bool_decide (u_Backup upstream = "") then ([], w)
      else if unresolvable vsc vsEx (GenerateExternalNameSvcKey namespace (u_Backup upstream))
      then ([], addOwnerWarning w owner (externalNameWarning (u_Backup upstream) (u_Name upstream)))
      else
        let key := GenerateEndpointsKey namespace (u_Backup upstream) (u_Subselector upstream) backupPort in
        (default [] (mjoin (vsx_Endpoints vsEx !! key)), w)
  end.

(** ** Upstreams *)
Definition getUpstreamResourceLabels (owner : ownerObject) (service : string) : UpstreamLabelsCfg :=
  {| ul_Service := service;
     ul_ResourceType := match owner with OwnerVS _ => "virtualserver" | OwnerVSR _ _ => "virtualserverroute" end;
     ul_ResourceName := om_Name (ownerMeta owner); ul_ResourceNamespace := om_Namespace (ownerMeta owner) |}.

Definition incompatibleLBMethodsForSlowStart : list string :=
  ["random"; "ip_hash"; "random two"; "random two least_conn"; "random two least_time=header";
   "random two least_time=last_byte"].
Definition generateSlowStartForPlus (owner : ownerObject) (upstream : Upstream) (lbMethod : string) w
    : string * Warnings :=
  if bool_decide (u_SlowStart upstream = "") then ("", w)
  else if bool_decide (lbMethod ∈ incompatibleLBMethodsForSlowStart) || HasPrefix lbMethod "hash"
  then ("", addOwnerWarning w owner ("Slow start will be disabled for upstream " +:+ u_Name upstream
              +:+ " because lb method '" +:+ lbMethod +:+ "' is incompatible with slow start"))
  else (generateTime (u_SlowStart upstream), w).

Definition upstreamServers (endpoints : list string) : list UpstreamServerCfg :=
  sortSlice us_Address (Build_UpstreamServerCfg <$> endpoints).

Definition generateUpstream vsc (owner : ownerObject) (upstreamName : string) (upstream : Upstream)
    (isExternalNameSvc : bool) (endpoints backupEndpoints : list string) w : UpstreamCfg * Warnings :=
  let cfgParams := vsc_cfgParams vsc in
  let lbMethod := generateLBMethod (u_LBMethod upstream) (cp_LBMethod cfgParams) in
  let '(slowStart, w) :=
    if vsc_isPlus vsc then generateSlowStartForPlus owner upstream lbMethod w else ("", w) in
  ({| vu_Name := upstreamName;
      vu_Servers := upstreamServers endpoints;
      vu_LBMethod := lbMethod;
      vu_Resolve := isExternalNameSvc;
      vu_Keepalive := generateIntFromPointer (u_Keepalive upstream) (cp_Keepalive cfgParams);
      vu_MaxFails := generateIntFromPointer (u_MaxFails upstream) (cp_MaxFails cfgParams);
      vu_MaxConns := generateIntFromPointer (u_MaxConns upstream) (cp_MaxConns cfgParams);
      vu_SlowStart := slowStart;
      vu_FailTimeout := generateTimeWithDefault (u_FailTimeout upstream) (cp_FailTimeout cfgParams);
      vu_UpstreamZoneSize := cp_UpstreamZoneSize cfgParams;
      vu_Queue := if vsc_isPlus vsc then generateQueueForPlus (u_Queue upstream) "60s" else None;
      vu_SessionCookie := generateSessionCookie (u_SessionCookie upstream);
      vu_UpstreamLabels := getUpstreamResourceLabels owner (u_Service upstream);
      vu_NTLM := if vsc_isPlus vsc then u_NTLM upstream else false;
      vu_BackupServers := upstreamServers backupEndpoints |}, w).

(** What generateUpstreams reads and extends; [crUpstreams] maps the name of an
    upstream to the resource it comes from. *)
Record upstreamsAcc := {
  ua_upstreams : list UpstreamCfg;
  ua_crUpstreams : gmap string Upstream;
  ua_healthChecks : list HealthCheckCfg;
  ua_statusMatches : list StatusMatchCfg
}.
Definition noUpstreams : upstreamsAcc :=
  {| ua_upstreams := []; ua_crUpstreams := ∅; ua_healthChecks := []; ua_statusMatches := [] |}.

Definition generateUpstreams (sslConfig : option SSLCfg) vsc (u : Upstream) (owner : ownerObject)
    (ownerNamespace : string) (namer : upstreamNamer) vsEx (acc : upstreamsAcc) w : upstreamsAcc * Warnings :=
  let w := if (bool_decide (sslConfig = None) || negb (cp_HTTP2 (vsc_cfgParams vsc))) && isGRPC (u_Type u)
           then addOwnerWarning w owner ("gRPC cannot be configured for upstream " +:+ u_Name u
                  +:+ ". gRPC requires enabled HTTP/2 and TLS termination") else w in
  let upstreamName := GetNameForUpstream namer (u_Name u) in
  let '(endpoints, w) := generateEndpointsForUpstream vsc owner ownerNamespace u vsEx w in
  let '(backup, w) :=
    generateBackupEndpointsForUpstream vsc (OwnerVS (vsx_VirtualServer vsEx)) ownerNamespace u vsEx w in
  let isExternalNameSvc :=
    bool_decide (is_Some (vsx_ExternalNameSvcs vsEx !! GenerateExternalNameSvcKey ownerNamespace (u_Service u))) in
  let '(ups, w) := generateUpstream vsc owner upstreamName u isExternalNameSvc endpoints backup w in
  let hc := generateHealthCheck u upstreamName (vsc_cfgParams vsc) in
  ({| ua_upstreams := ua_upstreams acc ++ [ups];
      ua_crUpstreams := <[upstreamName := u]> (ua_crUpstreams acc);
      ua_healthChecks := ua_healthChecks acc ++ option_list hc;
      ua_statusMatches :=
        ua_statusMatches acc ++
        match hc, u_HealthCheck u with
        | Some _, Some h => if bool_decide (hc_StatusMatch h = "") then []
                            else [generateUpstreamStatusMatch upstreamName (hc_StatusMatch h)]
        | _, _ => []
        end |}, w).

(** ** The upstreams that the NGINX Plus API updates *)
Definition createUpstreamForPlus vsc vsEx (owner : ownerObject) (backupNamespace : Upstream → string)
    (namer : upstreamNamer) (acc : list UpstreamCfg * Warnings) (u : Upstream) : option (list UpstreamCfg * Warnings) :=
  let '(upstreams, w) := acc in
  let namespace := om_Namespace (ownerMeta owner) in
  if default false (vsx_ExternalNameSvcs vsEx !! GenerateExternalNameSvcKey namespace (u_Service u)) then Some acc
  else
    let '(serviceNamespace, serviceName) := ParseServiceReference (u_Service u) namespace in
    let endpointsKey := GenerateEndpointsKey serviceNamespace serviceName (u_Subselector u) (u_Port u) in
    let endpoints := default [] (mjoin (vsx_Endpoints vsEx !! endpointsKey)) in
    backupEndpoints ←
      (if bool_decide (u_Backup u = "") then Some []
       else backupPort ← u_BackupPort u;
            let key := GenerateEndpointsKey (backupNamespace u) (u_Backup u) (u_Subselector u) backupPort in
            Some (default [] (mjoin (vsx_Endpoints vsEx !! key))));
    let '(ups, w) :=
      generateUpstream vsc owner (GetNameForUpstream namer (u_Name u)) u false endpoints backupEndpoints w in
    Some (upstreams ++ [ups], w).

(** [None] is the nil pointer of a backup without a port.  The warnings are those
    of a configurator of its own, which are dropped. *)
Definition createUpstreamsForPlus vsEx (baseCfgParams : ConfigParams) (staticParams : StaticConfigParams)
    : option (list UpstreamCfg) :=
  let vs := vsx_VirtualServer vsEx in
  let vsc := newVirtualServerConfigurator baseCfgParams true false staticParams false None in
  acc ← foldM (createUpstreamForPlus vsc vsEx (OwnerVS vs)
                 (λ u, (ParseServiceReference (u_Service u) (om_Namespace (vs_Meta vs))).1)
                 (NewUpstreamNamerForVirtualServer vs))
          ([], ∅) (vs_Upstreams vs);
  acc ← foldM (λ acc ivsr,
                 foldM (createUpstreamForPlus vsc vsEx (OwnerVSR ivsr.1 ivsr.2)
                          (λ _, om_Namespace (vsr_Meta ivsr.2)) (NewUpstreamNamerForVirtualServerRoute vs ivsr.2))
                   acc (vsr_Upstreams ivsr.2))
          acc (imap pair (vsx_VirtualServerRoutes vsEx));
  Some acc.1.

Definition createEndpointsFromUpstream (upstream : UpstreamCfg) : list string := us_Address <$> vu_Servers upstream.

(** nginx.ServerConfig *)
Record ServerConfig := { nsc_MaxFails : Z; nsc_MaxConns : Z; nsc_FailTimeout : string; nsc_SlowStart : string }.
Definition createUpstreamServersConfigForPlus (upstream : UpstreamCfg) : ServerConfig :=
  match vu_Servers upstream with
  | [] => {| nsc_MaxFails := 0; nsc_MaxConns := 0; nsc_FailTimeout := ""; nsc_SlowStart := "" |}
  | _ :: _ => {| nsc_MaxFails := vu_MaxFails upstream; nsc_MaxConns := vu_MaxConns upstream;
                 nsc_FailTimeout := vu_FailTimeout upstream; nsc_SlowStart := vu_SlowStart upstream |}
  end.
End Upstreams.

(** ** Instances *)
Section MergeSlice.
Context {A : Type} (key : A → string).
Definition keyLe (a b : A) : Prop := String.le (key a) (key b).
#[local] Instance keyLe_dec : RelDecision keyLe := λ a b, decide (String.le (key a) (key b)).
#[local] Instance keyLe_total : Total keyLe.
Proof. intros a b. apply (total String.le). Qed.
#[local] Instance keyLe_trans : Transitive keyLe.
Proof. intros a b c. unfold keyLe. apply transitivity. Qed.
Definition mergeSlice (l : list A) : list A := merge_sort keyLe l.
Lemma mergeSlice_perm l : mergeSlice l ≡ₚ l.
Proof. apply merge_sort_Permutation. Qed.
Lemma mergeSlice_sorted l : StronglySorted String.le (key <$> mergeSlice l).
Proof.
  assert (StronglySorted keyLe (mergeSlice l)) as H by (apply StronglySorted_merge_sort; apply _).
  induction H as [|a l' _ IH Hall]; csimpl; constructor; [done|]. by apply Forall_fmap.
Qed.
End MergeSlice.
Definition mergeSlices : SliceSort :=
  {| sortSlice := @mergeSlice; sortSlice_perm := @mergeSlice_perm; sortSlice_sorted := @mergeSlice_sorted |}.
(** labels as key=value, sorted, with commas *)
Definition plainLabels : LabelSets :=
  {| labelSet_String := λ m, Join "," (sortStrings ((λ kv, kv.1 +:+ "=" +:+ kv.2) <$> map_to_list m)) |}.
