(* ===== verification/VSLocations.v ===== *)
(** The generation of the configuration of a VirtualServer
    (internal/configs/virtualserver.go), second part: paths, rewrites, headers,
    error pages and locations.  [None] is a panic: an action or a returned page
    that is nil. *)
From S2P Require Import Prelude GoStrings Regex Objects ProxyBuffers Directives ParsingHelpers.
From S2P Require Import NginxManager.
From S2P Require Import CommonValidation PolicyConfig Version2 ConfigParams VSUpstreams.

(** ** fmt's verb %q: [strconv.Quote] *)
Definition hexDigit (n : Z) : string := String (byteOf (if (n <? 10)%Z then 48 + n else 87 + n)%Z) "".
(** [n] hexadecimal digits *)
Fixpoint hexDigits (n : nat) (r : Z) : string :=
  match n with
  | 0 => ""
  | S n' => hexDigits n' (r / 16) +:+ hexDigit (r mod 16)
  end.
Definition escapeWith (c : string) : string := String backslash c.

Section Quote.
Context `{UT : UnicodeTables}.

Definition quoteRune (r : Z) : string :=
  if (r =? 34)%Z || (r =? 92)%Z then escapeWith (encodeRune r)
  else if IsPrint r then encodeRune r
  else if (r =? 7)%Z then escapeWith "a" else if (r =? 8)%Z then escapeWith "b"
  else if (r =? 12)%Z then escapeWith "f" else if (r =? 10)%Z then escapeWith "n"
  else if (r =? 13)%Z then escapeWith "r" else if (r =? 9)%Z then escapeWith "t"
  else if (r =? 11)%Z then escapeWith "v"
  else if (r <? 32)%Z || (r =? 127)%Z then escapeWith ("x" +:+ hexDigits 2 r)
  else if (r <? 65536)%Z then escapeWith ("u" +:+ hexDigits 4 r)
  else escapeWith ("U" +:+ hexDigits 8 r).
(** a byte that is no rune is printed as a byte; [length s] rounds are enough *)
Fixpoint quoteFuel (fuel : nat) (s : string) : string :=
  match fuel, s with
  | S fuel', String c s' =>
      match decodeRune s with
      | Some (r, n) =>
          if (r =? RuneError)%Z && Nat.eqb n 1
          then escapeWith ("x" +:+ hexDigits 2 (byteVal c)) +:+ quoteFuel fuel' s'
          else quoteRune r +:+ quoteFuel fuel' (dropBytes n s)
      | None => ""
      end
  | _, _ => ""
  end.
Definition quoteBody (s : string) : string := quoteFuel (String.length s) s.
Definition Quote (s : string) : string := quoted (quoteBody s).
(** the text between the quotes *)
Definition escapeForNGINXQuotedString (value : string) : string := quoteBody value.
End Quote.

(** ** Paths and rewrites *)
Definition generatePath (path : string) : string :=
  let rest modifier := TrimLeftSpace (TrimPrefix path modifier) in
  if HasPrefix path "^~" then "^~ " +:+ rest "^~"
  else if HasPrefix path "~*" then "~* " +:+ quoted (rest "~*")
  else if HasPrefix path "~" then "~ " +:+ quoted (rest "~")
  else if HasPrefix path "=" then "= " +:+ rest "="
  else path.

Definition generateRewrites (path : string) (proxy : option ActionProxy) (internal : bool) (originalPath : string)
    (grpcEnabled : bool) : list string :=
  let rewritePath := from_option ap_RewritePath "" proxy in
  if bool_decide (rewritePath = "") then
    (if grpcEnabled && internal then ["^ $request_uri break"] else [])
  else
    let path := if bool_decide (originalPath = "") then path else originalPath in
    let isRegex := HasPrefix path "~" in
    let trimmedPath := TrimSpace (TrimPrefix (TrimPrefix path "~") "*") in
    (if internal then ["^ $request_uri_no_args"] else [])
    ++ (if isRegex then [quoted ("^" +:+ trimmedPath) +:+ " " +:+ quoted rewritePath +:+ " break"]
        else if internal then [quoted ("^" +:+ trimmedPath +:+ "(.*)$") +:+ " " +:+ quoted (rewritePath +:+ "$1") +:+ " break"]
        else []).

Definition generateProxyPassRewrite (path : string) (proxy : option ActionProxy) (internal : bool) : string :=
  match proxy with
  | None => ""
  | Some proxy =>
      if internal then ""
      else if HasPrefix path "/" || HasPrefix path "=" || HasPrefix path "^~" then ap_RewritePath proxy else ""
  end.
Definition generateProxyPass (tlsEnabled : bool) (upstreamName : string) (internal : bool) (proxy : option ActionProxy)
    : string :=
  let proxyPass := generateProxyPassProtocol tlsEnabled +:+ "://" +:+ upstreamName in
  if internal && bool_decide (from_option ap_RewritePath "" proxy = "") then proxyPass +:+ "$request_uri" else proxyPass.

(** ** Values *)
Definition generateSnippets (enableSnippets : bool) (snippet : string) (defaultSnippets : list string) : list string :=
  if negb enableSnippets || bool_decide (snippet = "") then defaultSnippets else Split newline snippet.
Definition generateBuffers (s : option UpstreamBuffers) (defaultS : string) : string :=
  match s with
  | None => defaultS
  | Some b => fmtInt (ub_Number b) +:+ " " +:+ ub_Size b
  end.
Definition generateReturnBlock (text : string) (code defaultCode : Z) : ReturnCfg :=
  {| ret_Code := if (code =? 0)%Z then defaultCode else code; ret_Text := text |}.
Definition generateWallarm (cfg : ConfigParams) : option WallarmCfg :=
  if bool_decide (cp_WallarmMode cfg = "") then None
  else Some {| vwal_Mode := cp_WallarmMode cfg; vwal_ModeAllowOverride := cp_WallarmModeAllowOverride cfg;
               vwal_Fallback := cp_WallarmFallback cfg; vwal_Application := cp_WallarmApplication cfg;
               vwal_PartnerClientUUID := cp_WallarmPartnerClientUUID cfg; vwal_BlockPage := cp_WallarmBlockPage cfg;
               vwal_ParseResponse := cp_WallarmParseResponse cfg; vwal_ParseWebsocket := cp_WallarmParseWebsocket cfg;
               vwal_UnpackResponse := cp_WallarmUnpackResponse cfg; vwal_ParserDisable := cp_WallarmParserDisable cfg |}.
Definition generateProxySSLName (svcName ns : string) : string := svcName +:+ "." +:+ ns +:+ ".svc".
(** the name of the service that an upstream of a namespace proxies to *)
Definition upstreamSSLName (upstream : Upstream) (namespace : string) : string :=
  let '(serviceNamespace, serviceName) := ParseServiceReference (u_Service upstream) namespace in
  generateProxySSLName serviceName serviceNamespace.

(** ** Headers *)
Definition headerCfg (h : Header) : HeaderCfg := {| hd_Name := h_Name h; hd_Value := h_Value h |}.

Definition generateProxyPassRequestHeaders (proxy : option ActionProxy) : bool :=
  default true (p ← proxy; rh ← ap_RequestHeaders p; prh_Pass rh).
Definition responseHeaders (proxy : option ActionProxy) : option ProxyResponseHeaders := proxy ≫= ap_ResponseHeaders.
Definition generateProxyHideHeaders (proxy : option ActionProxy) : list string :=
  from_option prs_Hide [] (responseHeaders proxy).
Definition generateProxyPassHeaders (proxy : option ActionProxy) : list string :=
  from_option prs_Pass [] (responseHeaders proxy).
Definition generateProxyIgnoreHeaders (proxy : option ActionProxy) : string :=
  from_option (λ rh, Join " " (prs_Ignore rh)) "" (responseHeaders proxy).
Definition generateProxyAddHeaders (proxy : option ActionProxy) : list AddHeaderCfg :=
  from_option (λ rh, (λ h, {| Version2.ah_Header := headerCfg (Objects.ah_Header h);
                              Version2.ah_Always := Objects.ah_Always h |}) <$> prs_Add rh)
    [] (responseHeaders proxy).

(** ** Error pages *)
Record errorPageDetails := { epd_pages : option (list ErrorPage); epd_index : Z; epd_owner : ownerObject }.
Definition generateErrorPageName (errPageIndex index : Z) : string :=
  "@error_page_" +:+ fmtInt errPageIndex +:+ "_" +:+ fmtInt index.
Definition generateErrorPageCodes (codes : list Z) : string := Join " " (fmtInt <$> codes).
Definition generateErrorPage (errPageIndex : Z) (i : nat) (e : ErrorPage) : option ErrorPageCfg :=
  match ep_Redirect e with
  | Some redirect =>
      Some {| vep_Name := ar_URL redirect; vep_Codes := generateErrorPageCodes (ep_Codes e);
              vep_ResponseCode := if (ar_Code redirect =? 0)%Z then 301%Z else ar_Code redirect |}
  | None =>
      ret ← ep_Return e;
      Some {| vep_Name := generateErrorPageName errPageIndex (Z.of_nat i);
              vep_Codes := generateErrorPageCodes (ep_Codes e); vep_ResponseCode := art_Code ret |}
  end.
Definition generateErrorPages (errPageIndex : Z) (errorPages : list ErrorPage) : option (list ErrorPageCfg) :=
  mapM (λ ie, generateErrorPage errPageIndex ie.1 ie.2) (imap pair errorPages).
Definition generateErrorPageDetails (errorPages : option (list ErrorPage)) (errorPageLocations : list ErrorPageLocationCfg)
    (owner : ownerObject) : errorPageDetails :=
  {| epd_pages := errorPages; epd_index := Z.of_nat (length errorPageLocations); epd_owner := owner |}.
(** a redirect needs no location *)
Definition generateErrorPageLocation (errPageIndex : Z) (i : nat) (e : ErrorPage) : option (list ErrorPageLocationCfg) :=
  match ep_Redirect e with
  | Some _ => Some []
  | None =>
      ret ← ep_Return e;
      Some [{| epl_Name := generateErrorPageName errPageIndex (Z.of_nat i);
               epl_DefaultType := if bool_decide (art_Type ret = "") then "text/html" else art_Type ret;
               epl_Return := Some (generateReturnBlock (art_Body ret) 0 0);
               epl_Headers := headerCfg <$> art_Headers ret |}]
  end.
Definition generateErrorPageLocations (errPageIndex : Z) (errorPages : list ErrorPage)
    : option (list ErrorPageLocationCfg) :=
  mjoin <$> mapM (λ ie, generateErrorPageLocation errPageIndex ie.1 ie.2) (imap pair errorPages).

Definition grpcConflictingErrors : list Z :=
  [400; 401; 403; 404; 405; 408; 413; 414; 415; 426; 429; 495; 496; 497; 500; 501; 502; 503; 504]%Z.
Definition checkGrpcErrorPageCodes (errorPages : errorPageDetails) (isGRPC : bool) (uName : string) (w : Warnings)
    : Warnings :=
  match epd_pages errorPages with
  | None => w
  | Some pages =>
      if negb isGRPC then w
      else
        let c := pages ≫= λ e, filter (.∈ grpcConflictingErrors) (ep_Codes e) in
        if Nat.ltb 0 (length c)
        then addOwnerWarning w (epd_owner errorPages)
               ("The error page configuration for the upstream " +:+ uName +:+ " is ignored for status code(s) ["
                +:+ Join " " (fmtInt <$> c) +:+ "], which cannot be used for GRPC upstreams.")
        else w
  end.

(** ** Locations *)

Definition noLimitReqOptions : LimitReqOptionsCfg := {| lro_DryRun := false; lro_LogLevel := ""; lro_RejectCode := 0 |}.

(** a location that ends in the server that always answers 418, with the page of
    that code *)
Definition errorPageLocation (path : string) (snippets : list string) (page : ErrorPageCfg) : LocationCfg :=
  {| loc_Path := path; loc_Internal := false; loc_Snippets := snippets; loc_ProxyConnectTimeout := "";
     loc_ProxyReadTimeout := ""; loc_ProxySendTimeout := ""; loc_ClientMaxBodySize := "";
     loc_ClientBodyBufferSize := ""; loc_ProxyMaxTempFileSize := ""; loc_ProxyBuffering := false;
     loc_ProxyBuffers := ""; loc_ProxyBufferSize := ""; loc_ProxyBusyBuffersSize := ""; loc_ProxyPass := "";
     loc_ProxyNextUpstream := ""; loc_ProxyNextUpstreamTimeout := ""; loc_ProxyNextUpstreamTries := 0;
     loc_ProxyInterceptErrors := true; loc_ProxyPassRequestHeaders := false; loc_ProxyPassRequestBody := "";
     loc_ProxySetHeaders := []; loc_ProxyHideHeaders := []; loc_ProxyPassHeaders := [];
     loc_ProxyIgnoreHeaders := ""; loc_ProxyPassRewrite := ""; loc_AddHeaders := []; loc_Rewrites := [];
     loc_HasKeepalive := false; loc_ErrorPages := [page]; loc_ProxySSLName := "";
     loc_InternalProxyPass := "http://" +:+ nginx418Server; loc_Allow := []; loc_Deny := [];
     loc_LimitReqOptions := noLimitReqOptions; loc_LimitReqs := []; loc_JWTAuth := None; loc_OIDCProviderName := "";
     loc_AuthRequestOff := false; loc_ExternalAuth := None; loc_BasicAuth := None; loc_EgressMTLS := None;
     loc_HSTS := None; loc_OIDC := false; loc_APIKey := None; loc_WAF := None; loc_Dos := None; loc_Wallarm := None;
     loc_PoliciesErrorReturn := None; loc_Cache := None; loc_ServiceName := ""; loc_IsVSR := false;
     loc_VSRName := ""; loc_VSRNamespace := ""; loc_GRPCPass := ""; loc_CORSEnabled := false;
     loc_DisableForwardedHeaders := false; loc_AddHeaderInherit := ""; loc_ProxySSLVerify := false;
     loc_ProxySSLVerifyDepth := 0; loc_ProxySSLTrustedCertificate := "" |}.

Definition generateLocationForRedirect (path : string) (locationSnippets : list string) (redirect : ActionRedirect)
    : LocationCfg :=
  errorPageLocation (generatePath path) locationSnippets
    {| vep_Name := ar_URL redirect; vep_Codes := "418";
       vep_ResponseCode := if (ar_Code redirect =? 0)%Z then 301%Z else ar_Code redirect |}.

Definition returnLocationName (retLocIndex : Z) : string := "@return_" +:+ fmtInt retLocIndex.
Definition generateLocationForReturn (path : string) (locationSnippets : list string) (actionReturn : ActionReturn)
    (retLocIndex : Z) : LocationCfg * ReturnLocationCfg :=
  let retLocName := returnLocationName retLocIndex in
  (errorPageLocation (generatePath path) locationSnippets
     {| vep_Name := retLocName; vep_Codes := "418";
        vep_ResponseCode := if (art_Code actionReturn =? 0)%Z then 200%Z else art_Code actionReturn |},
   {| rtl_Name := retLocName;
      rtl_DefaultType := if bool_decide (art_Type actionReturn = "") then "text/plain" else art_Type actionReturn;
      rtl_Return := {| ret_Code := 0; ret_Text := art_Body actionReturn |};
      rtl_Headers := headerCfg <$> art_Headers actionReturn |}).

(** The arguments that the locations of one route share: the snippets, the error
    pages, the path of the route and the VirtualServerRoute it belongs to *)
Record locationContext := {
  lc_cfgParams : ConfigParams;
  lc_errorPages : errorPageDetails;
  lc_originalPath : string;
  lc_locSnippets : string;
  lc_enableSnippets : bool;
  lc_isVSR : bool;
  lc_vsrName : string;
  lc_vsrNamespace : string
}.

Section Locations.
Context `{UL : UnicodeLower}.

Definition generateProxySetHeaders (proxy : option ActionProxy) : list HeaderCfg :=
  let set := from_option prh_Set [] (proxy ≫= ap_RequestHeaders) in
  (headerCfg <$> set)
  ++ (if existsb (λ h, bool_decide (StringsToLower (h_Name h) = "host")) set then []
      else [{| hd_Name := "Host"; hd_Value := "$host" |}]).

Definition generateLocationForProxying (ctx : locationContext) (path upstreamName : string) (upstream : Upstream)
    (internal : bool) (proxySSLName : string) (proxy : option ActionProxy) (locationSnippets : list string)
    (serviceName : string) : option LocationCfg :=
  let cfgParams := lc_cfgParams ctx in
  let pages := default [] (epd_pages (lc_errorPages ctx)) in
  errorPages ← generateErrorPages (epd_index (lc_errorPages ctx)) pages;
  Some {| loc_Path := generatePath path; loc_Internal := internal; loc_Snippets := locationSnippets;
     loc_ProxyConnectTimeout := generateTimeWithDefault (u_ProxyConnectTimeout upstream) (cp_ProxyConnectTimeout cfgParams);
     loc_ProxyReadTimeout := generateTimeWithDefault (u_ProxyReadTimeout upstream) (cp_ProxyReadTimeout cfgParams);
     loc_ProxySendTimeout := generateTimeWithDefault (u_ProxySendTimeout upstream) (cp_ProxySendTimeout cfgParams);
     loc_ClientMaxBodySize := generateString (u_ClientMaxBodySize upstream) (cp_ClientMaxBodySize cfgParams);
     loc_ClientBodyBufferSize := generateString (u_ClientBodyBufferSize upstream) (cp_ClientBodyBufferSize cfgParams);
     loc_ProxyMaxTempFileSize := cp_ProxyMaxTempFileSize cfgParams;
     loc_ProxyBuffering := generateBool (u_ProxyBuffering upstream) (cp_ProxyBuffering cfgParams);
     loc_ProxyBuffers := generateBuffers (u_ProxyBuffers upstream) (cp_ProxyBuffers cfgParams);
     loc_ProxyBufferSize := generateString (u_ProxyBufferSize upstream) (cp_ProxyBufferSize cfgParams);
     loc_ProxyBusyBuffersSize := generateString (u_ProxyBusyBuffersSize upstream) (cp_ProxyBusyBuffersSize cfgParams);
     loc_ProxyPass := generateProxyPass (u_TLS upstream) upstreamName internal proxy;
     loc_ProxyNextUpstream := generateString (u_ProxyNextUpstream upstream) "error timeout";
     loc_ProxyNextUpstreamTimeout := generateTimeWithDefault (u_ProxyNextUpstreamTimeout upstream) "0s";
     loc_ProxyNextUpstreamTries := u_ProxyNextUpstreamTries upstream;
     loc_ProxyInterceptErrors := Nat.ltb 0 (length pages);
     loc_ProxyPassRequestHeaders := generateProxyPassRequestHeaders proxy;
     loc_ProxyPassRequestBody := ""; loc_ProxySetHeaders := generateProxySetHeaders proxy;
     loc_ProxyHideHeaders := generateProxyHideHeaders proxy; loc_ProxyPassHeaders := generateProxyPassHeaders proxy;
     loc_ProxyIgnoreHeaders := generateProxyIgnoreHeaders proxy;
     loc_ProxyPassRewrite := generateProxyPassRewrite path proxy internal;
     loc_AddHeaders := generateProxyAddHeaders proxy;
     loc_Rewrites := generateRewrites path proxy internal (lc_originalPath ctx) (isGRPC (u_Type upstream));
     loc_HasKeepalive := upstreamHasKeepalive upstream cfgParams; loc_ErrorPages := errorPages;
     loc_ProxySSLName := proxySSLName; loc_InternalProxyPass := ""; loc_Allow := []; loc_Deny := [];
     loc_LimitReqOptions := noLimitReqOptions; loc_LimitReqs := []; loc_JWTAuth := None; loc_OIDCProviderName := ""; loc_AuthRequestOff := false;
     loc_ExternalAuth := None; loc_BasicAuth := None; loc_EgressMTLS := None; loc_HSTS := None; loc_OIDC := false;
     loc_APIKey := None; loc_WAF := None; loc_Dos := None; loc_Wallarm := generateWallarm cfgParams;
     loc_PoliciesErrorReturn := None; loc_Cache := None; loc_ServiceName := serviceName; loc_IsVSR := lc_isVSR ctx;
     loc_VSRName := lc_vsrName ctx; loc_VSRNamespace := lc_vsrNamespace ctx;
     loc_GRPCPass := generateGRPCPass (isGRPC (u_Type upstream)) (u_TLS upstream) upstreamName;
     loc_CORSEnabled := false; loc_DisableForwardedHeaders := cp_DisableForwardedHeaders cfgParams;
     loc_AddHeaderInherit := ""; loc_ProxySSLVerify := false; loc_ProxySSLVerifyDepth := 0;
     loc_ProxySSLTrustedCertificate := "" |}.

Definition generateLocation (ctx : locationContext) (path upstreamName : string) (upstream : Upstream) (action : Action)
    (internal : bool) (proxySSLName : string) (retLocIndex : Z) (w : Warnings)
    : option (LocationCfg * option ReturnLocationCfg * Warnings) :=
  let defaults := cp_LocationSnippets (lc_cfgParams ctx) in
  let locationSnippets := generateSnippets (lc_enableSnippets ctx) (lc_locSnippets ctx) defaults in
  match a_Redirect action, a_Return action with
  | Some redirect, _ => Some (generateLocationForRedirect path locationSnippets redirect, None, w)
  | None, Some ret =>
      let '(loc, retLoc) := generateLocationForReturn path defaults ret retLocIndex in Some (loc, Some retLoc, w)
  | None, None =>
      let w := checkGrpcErrorPageCodes (lc_errorPages ctx) (isGRPC (u_Type upstream)) (u_Name upstream) w in
      let serviceName := (ParseServiceReference (u_Service upstream) "").2 in
      loc ← generateLocationForProxying ctx path upstreamName upstream internal proxySSLName (a_Proxy action)
              locationSnippets serviceName;
      Some (loc, None, w)
  end.
End Locations.
