(* ===== verification/VSRouting.v ===== *)
(** The generation of the configuration of a VirtualServer
    (internal/configs/virtualserver.go), third part: traffic splits and matches.
    [None] is a panic. *)
From S2P Require Import Prelude GoStrings Objects ProxyBuffers CommonValidation.
From S2P Require Import PolicyConfig Version2 ConfigParams VSUpstreams VSLocations.

(** ** Results *)

(** The lists of a routingCfg, which generateSplits returns too *)
Record routingParts := {
  rp_Maps : list MapCfg;
  rp_SplitClients : list SplitClientCfg;
  rp_Locations : list LocationCfg;
  rp_ReturnLocations : list ReturnLocationCfg;
  rp_KeyValZones : list KeyValZoneCfg;
  rp_KeyVals : list KeyValCfg;
  rp_TwoWaySplitClients : list TwoWaySplitClientsCfg
}.
Record routingCfg := { rc_parts : routingParts; rc_InternalRedirectLocation : InternalRedirectLocationCfg }.

Definition appendParts (a b : routingParts) : routingParts :=
  {| rp_Maps := rp_Maps a ++ rp_Maps b; rp_SplitClients := rp_SplitClients a ++ rp_SplitClients b;
     rp_Locations := rp_Locations a ++ rp_Locations b; rp_ReturnLocations := rp_ReturnLocations a ++ rp_ReturnLocations b;
     rp_KeyValZones := rp_KeyValZones a ++ rp_KeyValZones b; rp_KeyVals := rp_KeyVals a ++ rp_KeyVals b;
     rp_TwoWaySplitClients := rp_TwoWaySplitClients a ++ rp_TwoWaySplitClients b |}.
Definition onlyMaps (maps : list MapCfg) : routingParts :=
  {| rp_Maps := maps; rp_SplitClients := []; rp_Locations := []; rp_ReturnLocations := []; rp_KeyValZones := [];
     rp_KeyVals := []; rp_TwoWaySplitClients := [] |}.
Definition onlyLocations (locs : list LocationCfg) (rets : list ReturnLocationCfg) : routingParts :=
  {| rp_Maps := []; rp_SplitClients := []; rp_Locations := locs; rp_ReturnLocations := rets; rp_KeyValZones := [];
     rp_KeyVals := []; rp_TwoWaySplitClients := [] |}.

(** ** Names *)
Definition internalLocationPrefix : string := "internal_location_".
Definition splitLocationPath (scIndex i : Z) : string :=
  "/" +:+ internalLocationPrefix +:+ "splits_" +:+ fmtInt scIndex +:+ "_split_" +:+ fmtInt i.
Definition matchLocationPath (index i : Z) : string :=
  "/" +:+ internalLocationPrefix +:+ "matches_" +:+ fmtInt index +:+ "_match_" +:+ fmtInt i.
Definition matchDefaultPath (index : Z) : string :=
  "/" +:+ internalLocationPrefix +:+ "matches_" +:+ fmtInt index +:+ "_default".
Definition keyvalZoneBasePath : string := "/etc/nginx/state_files".
Definition splitClientsKeyValZoneSize : string := "100k".
Definition splitClientAmountWhenWeightChangesDynamicReload : Z := 101.

Definition percentOf (weight : Z) : string := fmtInt weight +:+ "%".

(** two-way splits whose weights change without a reload *)
Definition isDynamic (weightChangesDynamicReload : bool) (splits : list TrafficSplit) : bool :=
  weightChangesDynamicReload && Nat.eqb (length splits) 2.
(** the variable that splits the traffic, and the split clients behind it *)
Definition splitVariable (dynamic : bool) (namer : VariableNamer) (splits : list TrafficSplit) (scIndex : Z) : string :=
  if isDynamic dynamic splits then GetNameOfMapForSplitClientIndex namer scIndex
  else GetNameForSplitClientVariable namer scIndex.
Definition splitAmount (dynamic : bool) (splits : list TrafficSplit) : Z :=
  if isDynamic dynamic splits then splitClientAmountWhenWeightChangesDynamicReload else 1.

(** ** Splits *)
Definition splitDistribution (scIndex : Z) (i : nat) (s : TrafficSplit) : option DistributionCfg :=
  if (sp_Weight s =? 0)%Z then None
  else Some {| ds_Weight := percentOf (sp_Weight s); ds_Value := splitLocationPath scIndex (Z.of_nat i) |}.
Definition splitDistributions (scIndex : Z) (splits : list TrafficSplit) : list DistributionCfg :=
  omap (λ split, splitDistribution scIndex split.1 split.2) (imap pair splits).

(** the split clients of the weights [i] and [100 - i] *)
Definition weightsSplitClient (namer : VariableNamer) (scIndex i : Z) : SplitClientCfg :=
  let j := (100 - i)%Z in
  {| scl_Source := "$request_id"; scl_Variable := GetNameOfSplitClientsForWeights namer scIndex i j;
     scl_Distributions :=
       (if (0 <? i)%Z then [{| ds_Weight := percentOf i; ds_Value := splitLocationPath scIndex 0 |}] else [])
       ++ (if (0 <? j)%Z then [{| ds_Weight := percentOf j; ds_Value := splitLocationPath scIndex 1 |}] else []) |}.
Definition weightsParameter (namer : VariableNamer) (scIndex i : Z) : ParameterCfg :=
  {| pm_Value := GetNameOfKeyOfMapForWeights namer scIndex i (100 - i);
     pm_Result := GetNameOfSplitClientsForWeights namer scIndex i (100 - i) |}.
Definition generateSplitsForWeightChangesDynamicReload (w0 w1 : Z) (scIndex : Z) (namer : VariableNamer)
    : list SplitClientCfg * MapCfg :=
  let weights := Z.of_nat <$> seq 0 101 in
  let result := if (w0 <? w1)%Z then GetNameOfSplitClientsForWeights namer scIndex 0 100
                else GetNameOfSplitClientsForWeights namer scIndex 100 0 in
  (weightsSplitClient namer scIndex <$> weights,
   {| mp_Source := GetNameOfKeyvalForSplitClientIndex namer scIndex;
      mp_Variable := GetNameOfMapForSplitClientIndex namer scIndex;
      mp_Parameters := (weightsParameter namer scIndex <$> weights) ++ [{| pm_Value := "default"; pm_Result := result |}] |}).

(** the part of generateSplits that distributes the traffic *)
Definition splitClientsOf (dynamic : bool) (namer : VariableNamer) (splits : list TrafficSplit) (scIndex : Z) : routingParts :=
  match dynamic, splits with
  | true, [s0; s1] =>
      let '(scs, weightMap) :=
        generateSplitsForWeightChangesDynamicReload (sp_Weight s0) (sp_Weight s1) scIndex namer in
      let kvZoneName := GetNameOfKeyvalZoneForSplitClientIndex namer scIndex in
      {| rp_Maps := [weightMap]; rp_SplitClients := scs; rp_Locations := []; rp_ReturnLocations := [];
         rp_KeyValZones := [{| kvz_Name := kvZoneName; kvz_Size := splitClientsKeyValZoneSize;
                               kvz_State := keyvalZoneBasePath +:+ "/" +:+ kvZoneName +:+ ".json";
                               kvz_Sync := false; kvz_Timeout := "" |}];
         rp_KeyVals := [{| kv_Key := GetNameOfKeyvalKeyForSplitClientIndex namer scIndex;
                           kv_Variable := GetNameOfKeyvalForSplitClientIndex namer scIndex; kv_ZoneName := kvZoneName |}];
         rp_TwoWaySplitClients :=
           [{| tws_Key := GetNameOfKeyvalKeyForSplitClientIndex namer scIndex;
               tws_Variable := GetNameOfKeyvalForSplitClientIndex namer scIndex; tws_ZoneName := kvZoneName;
               tws_Weights := [sp_Weight s0; sp_Weight s1]; tws_SplitClientsIndex := scIndex |}] |}
  | _, _ =>
      {| rp_Maps := [];
         rp_SplitClients := [{| scl_Source := "$request_id"; scl_Variable := GetNameForSplitClientVariable namer scIndex;
                                scl_Distributions := splitDistributions scIndex splits |}];
         rp_Locations := []; rp_ReturnLocations := []; rp_KeyValZones := []; rp_KeyVals := [];
         rp_TwoWaySplitClients := [] |}
  end.

(** What the routing of one route reads *)
Record routingContext := {
  rx_locations : locationContext;
  rx_upstreamNamer : upstreamNamer;
  rx_crUpstreams : gmap string Upstream;
  rx_variableNamer : VariableNamer;
  rx_dynamic : bool                       (* weightChangesDynamicReload *)
}.

Section Routing.
Context `{UL : UnicodeLower}.
Implicit Types (rx : routingContext) (w : Warnings).

(** the location of an action; [retLocIndex] numbers the location it returns from *)
Definition actionLocation rx (internal : bool) (path : string) (action : option Action) (retLocIndex : Z) w
    : option (LocationCfg * option ReturnLocationCfg * Warnings) :=
  action ← action;
  let upstreamName := GetNameForUpstreamFromAction (rx_upstreamNamer rx) action in
  let upstream := default (plainUpstream "" "" 0) (rx_crUpstreams rx !! upstreamName) in
  let proxySSLName := upstreamSSLName upstream (un_namespace (rx_upstreamNamer rx)) in
  generateLocation (rx_locations rx) path upstreamName upstream action internal proxySSLName retLocIndex w.

Definition addSplitLocation rx (scIndex retLocIndex : Z)
    (acc : list LocationCfg * list ReturnLocationCfg * Warnings) (split : nat * TrafficSplit)
    : option (list LocationCfg * list ReturnLocationCfg * Warnings) :=
  let '(locs, rets, w) := acc in
  '(loc, ret, w) ← actionLocation rx true (splitLocationPath scIndex (Z.of_nat split.1)) (sp_Action split.2)
                     (retLocIndex + Z.of_nat (length rets)) w;
  Some (locs ++ [loc], rets ++ option_list ret, w).

Definition generateSplits rx (splits : list TrafficSplit) (scIndex retLocIndex : Z) w : option (routingParts * Warnings) :=
  '(locs, rets, w) ← foldM (addSplitLocation rx scIndex retLocIndex) ([], [], w) (imap pair splits);
  Some (appendParts (splitClientsOf (rx_dynamic rx) (rx_variableNamer rx) splits scIndex) (onlyLocations locs rets), w).

Definition generateDefaultSplitsConfig rx (route : Route) (scIndex retLocIndex : Z) w : option (routingCfg * Warnings) :=
  '(parts, w) ← generateSplits rx (r_Splits route) scIndex retLocIndex w;
  Some ({| rc_parts := parts;
           rc_InternalRedirectLocation :=
             {| irl_Path := generatePath (r_Path route);
                irl_Destination := splitVariable (rx_dynamic rx) (rx_variableNamer rx) (r_Splits route) scIndex |} |}, w).

(** ** Matches *)
Definition specialMapParameters : list string := ["default"; "hostnames"; "include"; "volatile"].
(** the value and whether it is negated *)
Definition generateValueForMatchesRouteMap (matchedValue : string) : string * bool :=
  let value matchedValue :=
    if bool_decide (matchedValue ∈ specialMapParameters) then String backslash matchedValue else quoted matchedValue in
  match matchedValue with
  | EmptyString => (quoted "", false)
  | String c rest => if ceqb c 33 then (value rest, true) else (value matchedValue, false)
  end.
Definition generateParametersForMatchesRouteMap (matchedValue successfulResult : string) : list ParameterCfg :=
  let '(value, isNegative) := generateValueForMatchesRouteMap matchedValue in
  let '(valueResult, defaultResult) := if isNegative then ("0", successfulResult) else (successfulResult, "0") in
  [{| pm_Value := value; pm_Result := valueResult |}; {| pm_Value := "default"; pm_Result := defaultResult |}].
Definition getNameForSourceForMatchesRouteMapFromCondition (condition : Condition) : string :=
  if negb (bool_decide (cn_Header condition = "")) then "$http_" +:+ ReplaceAll (cn_Header condition) dash "_"
  else if negb (bool_decide (cn_Cookie condition = "")) then "$cookie_" +:+ cn_Cookie condition
  else if negb (bool_decide (cn_Argument condition = "")) then "$arg_" +:+ cn_Argument condition
  else cn_Variable condition.

(** the map of condition [j] of match [i]: it succeeds with the variable of the
    next condition, the last one with 1 *)
Definition conditionMap (namer : VariableNamer) (index : Z) (i : nat) (count : nat) (j : nat) (c : Condition) : MapCfg :=
  let variable j := GetNameForVariableForMatchesRouteMap namer index (Z.of_nat i) (Z.of_nat j) in
  let successfulResult := if Nat.ltb (S j) count then variable (S j) else "1" in
  {| mp_Source := getNameForSourceForMatchesRouteMapFromCondition c; mp_Variable := variable j;
     mp_Parameters := generateParametersForMatchesRouteMap (cn_Value c) successfulResult |}.
Definition conditionMaps (namer : VariableNamer) (index : Z) (matches : list Match) : list MapCfg :=
  mjoin (imap (λ i m, imap (conditionMap namer index i (length (mt_Conditions m))) (mt_Conditions m)) matches).

Fixpoint Repeat (s : string) (count : nat) : string :=
  match count with 0 => "" | S count' => s +:+ Repeat s count' end.

(** the source and the parameters of the main map from match [i] on, and the split
    clients that the matches take *)
Fixpoint mainMapParameters (namer : VariableNamer) (dynamic : bool) (index scIndex : Z) (i : nat) (matches : list Match)
    : string * list ParameterCfg * Z :=
  match matches with
  | [] => ("", [], 0%Z)
  | m :: rest =>
      let '(result, amount) :=
        match mt_Splits m with
        | [] => (matchLocationPath index (Z.of_nat i), 0%Z)
        | splits => (splitVariable dynamic namer splits scIndex, splitAmount dynamic splits)
        end in
      let '(source, params, total) := mainMapParameters namer dynamic index (scIndex + amount) (S i) rest in
      (GetNameForVariableForMatchesRouteMap namer index (Z.of_nat i) 0 +:+ source,
       {| pm_Value := "~^" +:+ Repeat "0" i +:+ "1"; pm_Result := result |} :: params, (amount + total)%Z)
  end.
Definition mainMap (namer : VariableNamer) (dynamic : bool) (index scIndex : Z) (route : Route) : MapCfg :=
  let '(source, params, scLocalIndex) := mainMapParameters namer dynamic index scIndex 0 (r_Matches route) in
  let defaultResult :=
    match r_Splits route with
    | [] => matchDefaultPath index
    | splits => splitVariable dynamic namer splits (scIndex + scLocalIndex)
    end in
  {| mp_Source := source; mp_Variable := GetNameForVariableForMatchesRouteMainMap namer index;
     mp_Parameters := params ++ [{| pm_Value := "default"; pm_Result := defaultResult |}] |}.

(** the splits, or the action, that a match or the route itself leads to *)
Definition addTarget rx (path : string) (splits : list TrafficSplit) (action : option Action)
    (scIndex scLocalIndex retLocIndex : Z) (parts : routingParts) w : option (routingParts * Z * Warnings) :=
  let newRetLocIndex := (retLocIndex + Z.of_nat (length (rp_ReturnLocations parts)))%Z in
  match splits with
  | [] =>
      '(loc, ret, w) ← actionLocation rx true path action newRetLocIndex w;
      Some (appendParts parts (onlyLocations [loc] (option_list ret)), scLocalIndex, w)
  | _ =>
      '(p, w) ← generateSplits rx splits (scIndex + scLocalIndex) newRetLocIndex w;
      Some (appendParts parts p, (scLocalIndex + Z.of_nat (length (rp_SplitClients p)))%Z, w)
  end.
Definition addMatch rx (index scIndex retLocIndex : Z) (acc : routingParts * Z * Warnings) (m : nat * Match)
    : option (routingParts * Z * Warnings) :=
  let '(parts, scLocalIndex, w) := acc in
  addTarget rx (matchLocationPath index (Z.of_nat m.1)) (mt_Splits m.2) (mt_Action m.2) scIndex scLocalIndex retLocIndex
    parts w.

Definition generateMatchesConfig rx (route : Route) (index scIndex retLocIndex : Z) w : option (routingCfg * Warnings) :=
  let namer := rx_variableNamer rx in
  let main := mainMap namer (rx_dynamic rx) index scIndex route in
  let maps := conditionMaps namer index (r_Matches route) ++ [main] in
  '(parts, scLocalIndex, w) ←
    foldM (addMatch rx index scIndex retLocIndex) (onlyMaps maps, 0%Z, w) (imap pair (r_Matches route));
  '(parts, _, w) ← addTarget rx (matchDefaultPath index) (r_Splits route) (r_Action route) scIndex scLocalIndex
                     retLocIndex parts w;
  Some ({| rc_parts := parts;
           rc_InternalRedirectLocation :=
             {| irl_Path := generatePath (r_Path route); irl_Destination := mp_Variable main |} |}, w).
End Routing.
