(* ===== verification/VSPolicies.v ===== *)
(** The generation of the configuration of a VirtualServer
    (internal/configs/virtualserver.go), fourth part: TLS, the policies of
    locations, external authentication, and the lists without duplicates.
    [None] is a panic. *)
From S2P Require Import Prelude GoStrings Regex Objects ProxyBuffers ParsingHelpers.
From S2P Require Import SecretStore.
From S2P Require Import PolicyConfig Version2 ConfigParams PolicyConfigAdd.
From S2P Require Import VSUpstreams VSLocations VSRouting.

(** ** TLS *)
Definition pemFileNameForWildcardTLSSecret : string := "/etc/nginx/secrets/wildcard".
Definition generateSSLConfig (vsc : virtualServerConfigurator) (owner : ownerObject) (tls : option TLS) (namespace : string)
    (secretRefs : gmap string SecretReference) (cfgParams : ConfigParams) (w : Warnings)
    : option (option SSLCfg * Warnings) :=
  let ssl name rejectHandshake :=
    Some {| ssl_HTTP2 := cp_HTTP2 cfgParams; ssl_Certificate := name; ssl_CertificateKey := name;
            ssl_RejectHandshake := rejectHandshake |} in
  match tls with
  | None => Some (None, w)
  | Some tls =>
      if bool_decide (tls_Secret tls = "") then
        Some (if vsc_isWildcardEnabled vsc then ssl pemFileNameForWildcardTLSSecret false else None, w)
      else
        secretRef ← secretRefs !! keyOf namespace (tls_Secret tls);
        let secretType := secretTypeOf secretRef in
        if negb (bool_decide (secretType = "")) && negb (bool_decide (secretType = SecretTypeTLS))
        then Some (ssl "" true, addOwnerWarning w owner ("TLS secret " +:+ tls_Secret tls +:+ " is of a wrong type '"
                     +:+ secretType +:+ "', must be '" +:+ SecretTypeTLS +:+ "'"))
        else match sr_Error secretRef with
        | Some err => Some (ssl "" true, addOwnerWarning w owner ("TLS secret " +:+ tls_Secret tls +:+ " is invalid: " +:+ err))
        | None => Some (ssl (sr_Path secretRef) false, w)
        end
  end.
Definition generateTLSRedirectBasedOn (basedOn : string) : string :=
  if bool_decide (basedOn = "x-forwarded-proto") then "$http_x_forwarded_proto" else "$scheme".
Definition generateTLSRedirectConfig (tls : option TLS) : option TLSRedirectCfg :=
  redirect ← tls ≫= tls_Redirect;
  if tr_Enable redirect
  then Some {| vtr_Code := generateIntFromPointer (tr_Code redirect) 301;
               vtr_BasedOn := generateTLSRedirectBasedOn (tr_BasedOn redirect) |}
  else None.

(** ** App Protect DoS *)
Record appProtectDosResource := {
  dr_Enable : string;
  dr_LogEnable : bool;
  dr_MonitorURI : string;
  dr_MonitorProtocol : string;
  dr_MonitorTimeout : Z;
  dr_Name : string;
  dr_AccessLogDst : string;
  dr_PolicyFile : string;
  dr_LogConfFile : string;
  dr_AllowListPath : string
}.
Definition generateDosCfg (dosResource : option appProtectDosResource) : option DosCfg :=
  (λ r, {| vdos_Enable := dr_Enable r; vdos_Name := dr_Name r; vdos_AllowListPath := dr_AllowListPath r;
           vdos_ApDosPolicy := dr_PolicyFile r; vdos_ApDosSecurityLogEnable := dr_LogEnable r;
           vdos_ApDosLogConf := dr_LogConfFile r; vdos_ApDosMonitorURI := dr_MonitorURI r;
           vdos_ApDosMonitorProtocol := dr_MonitorProtocol r; vdos_ApDosMonitorTimeout := dr_MonitorTimeout r;
           vdos_ApDosAccessLogDest := dr_AccessLogDst r |}) <$> dosResource.

(** ** Lists without duplicates *)

(** the first element of each key, in order *)
Fixpoint removeDuplicates {A} (key : A → string) (encountered : gset string) (l : list A) : list A :=
  match l with
  | [] => []
  | v :: rest =>
      if bool_decide (key v ∈ encountered) then removeDuplicates key encountered rest
      else v :: removeDuplicates key ({[key v]} ∪ encountered) rest
  end.
Definition removeDuplicateLimitReqZones : list LimitReqZoneCfg → list LimitReqZoneCfg := removeDuplicates lrz_ZoneName ∅.
Definition removeDuplicateMaps : list MapCfg → list MapCfg := removeDuplicates (λ m, mp_Source m +:+ mp_Variable m) ∅.
Definition removeDuplicateAuthJWTClaimSets : list AuthJWTClaimSetCfg → list AuthJWTClaimSetCfg :=
  removeDuplicates ajcs_Variable ∅.

Definition withoutPostLogout (v : OIDCProviderCfg) : OIDCProviderCfg :=
  {| op_Name := op_Name v; op_PolicyKey := op_PolicyKey v; op_Issuer := op_Issuer v; op_ClientID := op_ClientID v;
     op_ClientSecret := op_ClientSecret v; op_ConfigURL := op_ConfigURL v; op_CookieName := op_CookieName v;
     op_ExtraAuthArgs := op_ExtraAuthArgs v; op_PKCE := op_PKCE v; op_RedirectURI := op_RedirectURI v;
     op_LogoutURI := op_LogoutURI v; op_PostLogoutURI := op_PostLogoutURI v;
     op_FrontChannelLogoutURI := op_FrontChannelLogoutURI v; op_LogoutTokenHint := op_LogoutTokenHint v;
     op_Scope := op_Scope v; op_SessionStore := op_SessionStore v; op_SessionTimeout := op_SessionTimeout v;
     op_SSLCrl := op_SSLCrl v; op_SSLTrustedCert := op_SSLTrustedCert v; op_SSLVerify := op_SSLVerify v;
     op_SSLName := op_SSLName v; op_SSLVerifyDepth := op_SSLVerifyDepth v; op_Sync := op_Sync v;
     op_UserInfoEnable := op_UserInfoEnable v; op_ProxyLocation := op_ProxyLocation v;
     op_ProxyBufferSize := op_ProxyBufferSize v; op_ProxyTrustedCertPath := op_ProxyTrustedCertPath v;
     op_PostLogoutLocation := None |}.
(** the second pass over post-logout locations: the first provider of a path keeps its location *)
Fixpoint dropPostLogout (encountered : gset string) (l : list OIDCProviderCfg) : list OIDCProviderCfg :=
  match l with
  | [] => []
  | v :: rest =>
      match op_PostLogoutLocation v with
      | Some loc =>
          if bool_decide (rloc_Path loc ∈ encountered)
          then withoutPostLogout v :: dropPostLogout encountered rest
          else v :: dropPostLogout ({[rloc_Path loc]} ∪ encountered) rest
      | None => v :: dropPostLogout encountered rest
      end
  end.
Definition removeDuplicateOIDCProviders (providers : list OIDCProviderCfg) : list OIDCProviderCfg :=
  dropPostLogout ∅ (removeDuplicates op_Name ∅ providers).

Definition addCacheZone (cacheZones : list CacheZoneCfg) (cache : option CacheCfg) : list CacheZoneCfg :=
  match cache with
  | None => cacheZones
  | Some c =>
      if bool_decide (vcache_ZoneName c ∈ (cz_Name <$> cacheZones)) then cacheZones
      else cacheZones ++
        [{| cz_Name := vcache_ZoneName c; cz_Size := if bool_decide (vcache_ZoneSize c = "") then "10m" else vcache_ZoneSize c;
            cz_Path := "/var/cache/nginx/" +:+ vcache_ZoneName c; cz_Levels := vcache_Levels c;
            cz_Inactive := vcache_Inactive c; cz_UseTempPath := vcache_UseTempPath c; cz_MaxSize := vcache_MaxSize c;
            cz_MinFree := vcache_MinFree c; cz_ManagerFiles := vcache_ManagerFiles c; cz_ManagerSleep := vcache_ManagerSleep c;
            cz_ManagerThreshold := vcache_ManagerThreshold c |}]
  end.

Definition generateAPIKeyClientMap (mapName : string) (apiKeyClients : list apiKeyClient) : MapCfg :=
  {| mp_Source := "$apikey_auth_token"; mp_Variable := String dollar mapName;
     mp_Parameters :=
       {| pm_Value := "default"; pm_Result := quoted "" |}
       :: ((λ client, {| pm_Value := quoted (akc_HashedKey client); pm_Result := quoted (akc_ClientID client) |})
             <$> apiKeyClients) |}.
Definition getOIDCProviderName (cfg : policiesCfg) : string := from_option op_Name "" (pc_OIDCProvider cfg).

(** ** The policies of locations *)
Section LocationPolicies.
Context `{UT : UnicodeTables}.

(** the page of the sign-in URL, which addPoliciesCfgToLocation appends too *)
Definition getServerErrorPages (cfg : policiesCfg) : list ErrorPageCfg :=
  match pc_ExternalAuth cfg with
  | Some ea =>
      if bool_decide (vea_SigninURL ea = "") then []
      else [{| vep_Name := escapeForNGINXQuotedString (vea_SigninURL ea); vep_Codes := "401";
               vep_ResponseCode := ErrorPageResponseCodeInherit |}]
  | None => []
  end.

Definition addPoliciesCfgToLocation (cfg : policiesCfg) (l : LocationCfg) : LocationCfg :=
  {| loc_Path := loc_Path l; loc_Internal := loc_Internal l; loc_Snippets := loc_Snippets l;
     loc_ProxyConnectTimeout := loc_ProxyConnectTimeout l; loc_ProxyReadTimeout := loc_ProxyReadTimeout l;
     loc_ProxySendTimeout := loc_ProxySendTimeout l; loc_ClientMaxBodySize := loc_ClientMaxBodySize l;
     loc_ClientBodyBufferSize := loc_ClientBodyBufferSize l; loc_ProxyMaxTempFileSize := loc_ProxyMaxTempFileSize l;
     loc_ProxyBuffering := loc_ProxyBuffering l; loc_ProxyBuffers := loc_ProxyBuffers l;
     loc_ProxyBufferSize := loc_ProxyBufferSize l; loc_ProxyBusyBuffersSize := loc_ProxyBusyBuffersSize l;
     loc_ProxyPass := loc_ProxyPass l; loc_ProxyNextUpstream := loc_ProxyNextUpstream l;
     loc_ProxyNextUpstreamTimeout := loc_ProxyNextUpstreamTimeout l;
     loc_ProxyNextUpstreamTries := loc_ProxyNextUpstreamTries l;
     loc_ProxyInterceptErrors := bool_decide (getServerErrorPages cfg ≠ []) || loc_ProxyInterceptErrors l;
     loc_ProxyPassRequestHeaders := loc_ProxyPassRequestHeaders l;
     loc_ProxyPassRequestBody := loc_ProxyPassRequestBody l; loc_ProxySetHeaders := loc_ProxySetHeaders l;
     loc_ProxyHideHeaders := loc_ProxyHideHeaders l; loc_ProxyPassHeaders := loc_ProxyPassHeaders l;
     loc_ProxyIgnoreHeaders := loc_ProxyIgnoreHeaders l; loc_ProxyPassRewrite := loc_ProxyPassRewrite l;
     loc_AddHeaders := loc_AddHeaders l ++ pc_CORSHeaders cfg; loc_Rewrites := loc_Rewrites l;
     loc_HasKeepalive := loc_HasKeepalive l; loc_ErrorPages := loc_ErrorPages l ++ getServerErrorPages cfg;
     loc_ProxySSLName := loc_ProxySSLName l; loc_InternalProxyPass := loc_InternalProxyPass l;
     loc_Allow := pc_Allow cfg; loc_Deny := pc_Deny cfg; loc_LimitReqOptions := rlcfg_Options (pc_RateLimit cfg);
     loc_LimitReqs := rlcfg_Reqs (pc_RateLimit cfg); loc_JWTAuth := jac_Auth (pc_JWTAuth cfg);
     loc_OIDCProviderName := match pc_OIDCProvider cfg with Some p => op_Name p | None => loc_OIDCProviderName l end;
     loc_AuthRequestOff := loc_AuthRequestOff l; loc_ExternalAuth := pc_ExternalAuth cfg;
     loc_BasicAuth := pc_BasicAuth cfg; loc_EgressMTLS := pc_EgressMTLS cfg; loc_HSTS := loc_HSTS l;
     loc_OIDC := match pc_OIDCProvider cfg, pc_OIDC cfg with None, Some _ => true | _, _ => loc_OIDC l end;
     loc_APIKey := aka_Key (pc_APIKey cfg); loc_WAF := pc_WAF cfg; loc_Dos := loc_Dos l;
     loc_Wallarm := pc_Wallarm cfg; loc_PoliciesErrorReturn := pc_ErrorReturn cfg; loc_Cache := pc_Cache cfg;
     loc_ServiceName := loc_ServiceName l; loc_IsVSR := loc_IsVSR l; loc_VSRName := loc_VSRName l;
     loc_VSRNamespace := loc_VSRNamespace l; loc_GRPCPass := loc_GRPCPass l;
     loc_CORSEnabled := bool_decide (pc_CORSHeaders cfg ≠ []) || loc_CORSEnabled l;
     loc_DisableForwardedHeaders := loc_DisableForwardedHeaders l; loc_AddHeaderInherit := loc_AddHeaderInherit l;
     loc_ProxySSLVerify := loc_ProxySSLVerify l; loc_ProxySSLVerifyDepth := loc_ProxySSLVerifyDepth l;
     loc_ProxySSLTrustedCertificate := loc_ProxySSLTrustedCertificate l |}.
(** the assignments to Dos and AddHeaderInherit *)
Definition addRouteSettingsToLocation (dos : option DosCfg) (addHeaderInherit : string) (l : LocationCfg) : LocationCfg :=
  {| loc_Path := loc_Path l; loc_Internal := loc_Internal l; loc_Snippets := loc_Snippets l;
     loc_ProxyConnectTimeout := loc_ProxyConnectTimeout l; loc_ProxyReadTimeout := loc_ProxyReadTimeout l;
     loc_ProxySendTimeout := loc_ProxySendTimeout l; loc_ClientMaxBodySize := loc_ClientMaxBodySize l;
     loc_ClientBodyBufferSize := loc_ClientBodyBufferSize l; loc_ProxyMaxTempFileSize := loc_ProxyMaxTempFileSize l;
     loc_ProxyBuffering := loc_ProxyBuffering l; loc_ProxyBuffers := loc_ProxyBuffers l;
     loc_ProxyBufferSize := loc_ProxyBufferSize l; loc_ProxyBusyBuffersSize := loc_ProxyBusyBuffersSize l;
     loc_ProxyPass := loc_ProxyPass l; loc_ProxyNextUpstream := loc_ProxyNextUpstream l;
     loc_ProxyNextUpstreamTimeout := loc_ProxyNextUpstreamTimeout l;
     loc_ProxyNextUpstreamTries := loc_ProxyNextUpstreamTries l;
     loc_ProxyInterceptErrors := loc_ProxyInterceptErrors l;
     loc_ProxyPassRequestHeaders := loc_ProxyPassRequestHeaders l;
     loc_ProxyPassRequestBody := loc_ProxyPassRequestBody l; loc_ProxySetHeaders := loc_ProxySetHeaders l;
     loc_ProxyHideHeaders := loc_ProxyHideHeaders l; loc_ProxyPassHeaders := loc_ProxyPassHeaders l;
     loc_ProxyIgnoreHeaders := loc_ProxyIgnoreHeaders l; loc_ProxyPassRewrite := loc_ProxyPassRewrite l;
     loc_AddHeaders := loc_AddHeaders l; loc_Rewrites := loc_Rewrites l; loc_HasKeepalive := loc_HasKeepalive l;
     loc_ErrorPages := loc_ErrorPages l; loc_ProxySSLName := loc_ProxySSLName l;
     loc_InternalProxyPass := loc_InternalProxyPass l; loc_Allow := loc_Allow l; loc_Deny := loc_Deny l;
     loc_LimitReqOptions := loc_LimitReqOptions l; loc_LimitReqs := loc_LimitReqs l; loc_JWTAuth := loc_JWTAuth l;
     loc_OIDCProviderName := loc_OIDCProviderName l; loc_AuthRequestOff := loc_AuthRequestOff l;
     loc_ExternalAuth := loc_ExternalAuth l; loc_BasicAuth := loc_BasicAuth l; loc_EgressMTLS := loc_EgressMTLS l;
     loc_HSTS := loc_HSTS l; loc_OIDC := loc_OIDC l; loc_APIKey := loc_APIKey l; loc_WAF := loc_WAF l;
     loc_Dos := dos; loc_Wallarm := loc_Wallarm l; loc_PoliciesErrorReturn := loc_PoliciesErrorReturn l;
     loc_Cache := loc_Cache l; loc_ServiceName := loc_ServiceName l; loc_IsVSR := loc_IsVSR l;
     loc_VSRName := loc_VSRName l; loc_VSRNamespace := loc_VSRNamespace l; loc_GRPCPass := loc_GRPCPass l;
     loc_CORSEnabled := loc_CORSEnabled l; loc_DisableForwardedHeaders := loc_DisableForwardedHeaders l;
     loc_AddHeaderInherit := addHeaderInherit; loc_ProxySSLVerify := loc_ProxySSLVerify l;
     loc_ProxySSLVerifyDepth := loc_ProxySSLVerifyDepth l;
     loc_ProxySSLTrustedCertificate := loc_ProxySSLTrustedCertificate l |}.

Definition addHeaderInheritOn : string := "on".
Definition addHeaderInheritMerge : string := "merge".
Definition addHSTSToLocation (hsts : option HSTSCfg) (l : LocationCfg) : LocationCfg :=
  match hsts with
  | None => l
  | Some h =>
      if bool_decide (loc_AddHeaders l ≠ []) && negb (bool_decide (loc_AddHeaderInherit l = addHeaderInheritOn))
         && negb (bool_decide (loc_AddHeaderInherit l = addHeaderInheritMerge))
      then
      {| loc_Path := loc_Path l; loc_Internal := loc_Internal l; loc_Snippets := loc_Snippets l;
         loc_ProxyConnectTimeout := loc_ProxyConnectTimeout l; loc_ProxyReadTimeout := loc_ProxyReadTimeout l;
         loc_ProxySendTimeout := loc_ProxySendTimeout l; loc_ClientMaxBodySize := loc_ClientMaxBodySize l;
         loc_ClientBodyBufferSize := loc_ClientBodyBufferSize l;
         loc_ProxyMaxTempFileSize := loc_ProxyMaxTempFileSize l; loc_ProxyBuffering := loc_ProxyBuffering l;
         loc_ProxyBuffers := loc_ProxyBuffers l; loc_ProxyBufferSize := loc_ProxyBufferSize l;
         loc_ProxyBusyBuffersSize := loc_ProxyBusyBuffersSize l; loc_ProxyPass := loc_ProxyPass l;
         loc_ProxyNextUpstream := loc_ProxyNextUpstream l;
         loc_ProxyNextUpstreamTimeout := loc_ProxyNextUpstreamTimeout l;
         loc_ProxyNextUpstreamTries := loc_ProxyNextUpstreamTries l;
         loc_ProxyInterceptErrors := loc_ProxyInterceptErrors l;
         loc_ProxyPassRequestHeaders := loc_ProxyPassRequestHeaders l;
         loc_ProxyPassRequestBody := loc_ProxyPassRequestBody l; loc_ProxySetHeaders := loc_ProxySetHeaders l;
         loc_ProxyHideHeaders := loc_ProxyHideHeaders l; loc_ProxyPassHeaders := loc_ProxyPassHeaders l;
         loc_ProxyIgnoreHeaders := loc_ProxyIgnoreHeaders l; loc_ProxyPassRewrite := loc_ProxyPassRewrite l;
         loc_AddHeaders := loc_AddHeaders l; loc_Rewrites := loc_Rewrites l; loc_HasKeepalive := loc_HasKeepalive l;
         loc_ErrorPages := loc_ErrorPages l; loc_ProxySSLName := loc_ProxySSLName l;
         loc_InternalProxyPass := loc_InternalProxyPass l; loc_Allow := loc_Allow l; loc_Deny := loc_Deny l;
         loc_LimitReqOptions := loc_LimitReqOptions l; loc_LimitReqs := loc_LimitReqs l;
         loc_JWTAuth := loc_JWTAuth l; loc_OIDCProviderName := loc_OIDCProviderName l;
         loc_AuthRequestOff := loc_AuthRequestOff l; loc_ExternalAuth := loc_ExternalAuth l;
         loc_BasicAuth := loc_BasicAuth l; loc_EgressMTLS := loc_EgressMTLS l; loc_HSTS := Some h;
         loc_OIDC := loc_OIDC l; loc_APIKey := loc_APIKey l; loc_WAF := loc_WAF l; loc_Dos := loc_Dos l;
         loc_Wallarm := loc_Wallarm l; loc_PoliciesErrorReturn := loc_PoliciesErrorReturn l;
         loc_Cache := loc_Cache l; loc_ServiceName := loc_ServiceName l; loc_IsVSR := loc_IsVSR l;
         loc_VSRName := loc_VSRName l; loc_VSRNamespace := loc_VSRNamespace l; loc_GRPCPass := loc_GRPCPass l;
         loc_CORSEnabled := loc_CORSEnabled l; loc_DisableForwardedHeaders := loc_DisableForwardedHeaders l;
         loc_AddHeaderInherit := loc_AddHeaderInherit l; loc_ProxySSLVerify := loc_ProxySSLVerify l;
         loc_ProxySSLVerifyDepth := loc_ProxySSLVerifyDepth l;
         loc_ProxySSLTrustedCertificate := loc_ProxySSLTrustedCertificate l |}
      else l
  end.
Definition addHSTSToLocationsWithAddHeaders (hsts : option HSTSCfg) (locations : list LocationCfg) : list LocationCfg :=
  addHSTSToLocation hsts <$> locations.

(** ** External authentication *)
Definition header (name value : string) : HeaderCfg := {| hd_Name := name; hd_Value := value |}.

Definition generateExternalAuthLocation (cfgParams : ConfigParams) (ea : ExternalAuthCfg) (uri : AuthURICfg)
    (proxyURLUpstreamName : string) : LocationCfg :=
  let svcName := (ParseServiceReference (auri_Service uri) "").2 in
  let proxyPass := generateProxyPassProtocol (vea_SSLEnabled ea) +:+ "://" +:+ proxyURLUpstreamName +:+ auri_Path uri in
  let timeout t := generateTimeWithDefault t t in
  {| loc_Path := Quote (auri_InternalPath uri); loc_Internal := true;
     loc_Snippets := generateSnippets true (vea_Snippets ea) [];
     loc_ProxyConnectTimeout := timeout (cp_ProxyConnectTimeout cfgParams);
     loc_ProxyReadTimeout := timeout (cp_ProxyReadTimeout cfgParams);
     loc_ProxySendTimeout := timeout (cp_ProxySendTimeout cfgParams); loc_ClientMaxBodySize := "0";
     loc_ClientBodyBufferSize := ""; loc_ProxyMaxTempFileSize := ""; loc_ProxyBuffering := false;
     loc_ProxyBuffers := ""; loc_ProxyBufferSize := ""; loc_ProxyBusyBuffersSize := "";
     loc_ProxyPass := Quote proxyPass; loc_ProxyNextUpstream := "error timeout";
     loc_ProxyNextUpstreamTimeout := generateTimeWithDefault (cp_ProxyNextUpstreamTimeout cfgParams) "0s";
     loc_ProxyNextUpstreamTries := 0; loc_ProxyInterceptErrors := false; loc_ProxyPassRequestHeaders := true;
     loc_ProxyPassRequestBody := "off";
     loc_ProxySetHeaders := [header "Content-Length" "0"; header "Host" "$host"; header "X-Scheme" "$scheme"];
     loc_ProxyHideHeaders := []; loc_ProxyPassHeaders := []; loc_ProxyIgnoreHeaders := "";
     loc_ProxyPassRewrite := ""; loc_AddHeaders := []; loc_Rewrites := []; loc_HasKeepalive := false;
     loc_ErrorPages := []; loc_ProxySSLName := if vea_SSLVerify ea then vea_SNIName ea else "";
     loc_InternalProxyPass := ""; loc_Allow := []; loc_Deny := []; loc_LimitReqOptions := noLimitReqOptions;
     loc_LimitReqs := []; loc_JWTAuth := None; loc_OIDCProviderName := ""; loc_AuthRequestOff := false;
     loc_ExternalAuth := None; loc_BasicAuth := None; loc_EgressMTLS := None; loc_HSTS := None; loc_OIDC := false;
     loc_APIKey := None; loc_WAF := None; loc_Dos := None; loc_Wallarm := None; loc_PoliciesErrorReturn := None;
     loc_Cache := None; loc_ServiceName := svcName; loc_IsVSR := false; loc_VSRName := ""; loc_VSRNamespace := "";
     loc_GRPCPass := ""; loc_CORSEnabled := false; loc_DisableForwardedHeaders := false; loc_AddHeaderInherit := "";
     loc_ProxySSLVerify := vea_SSLVerify ea;
     loc_ProxySSLVerifyDepth := if vea_SSLVerify ea then vea_SSLVerifyDepth ea else 0%Z;
     loc_ProxySSLTrustedCertificate := if vea_SSLVerify ea then vea_SSLTrustedCert ea else "" |}.

Definition generateExternalAuthOAuth2Location (cfgParams : ConfigParams) (ea : ExternalAuthCfg) (uri : AuthURICfg)
    (signinUpstreamName : string) : LocationCfg :=
  let proxyPass := generateProxyPassProtocol (vea_SSLEnabled ea) +:+ "://" +:+ signinUpstreamName in
  let timeout t := generateTimeWithDefault t t in
  {| loc_Path := Quote (vea_SigninRedirectBasePath ea); loc_Internal := false; loc_Snippets := [];
     loc_ProxyConnectTimeout := timeout (cp_ProxyConnectTimeout cfgParams);
     loc_ProxyReadTimeout := timeout (cp_ProxyReadTimeout cfgParams);
     loc_ProxySendTimeout := timeout (cp_ProxySendTimeout cfgParams); loc_ClientMaxBodySize := "0";
     loc_ClientBodyBufferSize := ""; loc_ProxyMaxTempFileSize := ""; loc_ProxyBuffering := false;
     loc_ProxyBuffers := ""; loc_ProxyBufferSize := ""; loc_ProxyBusyBuffersSize := "";
     loc_ProxyPass := Quote proxyPass; loc_ProxyNextUpstream := "error timeout";
     loc_ProxyNextUpstreamTimeout := generateTimeWithDefault (cp_ProxyNextUpstreamTimeout cfgParams) "0s";
     loc_ProxyNextUpstreamTries := 0; loc_ProxyInterceptErrors := false; loc_ProxyPassRequestHeaders := true;
     loc_ProxyPassRequestBody := "";
     loc_ProxySetHeaders := [header "X-Auth-Request-Redirect" "$request_uri"; header "Host" "$host"; header "X-Scheme" "$scheme"];
     loc_ProxyHideHeaders := []; loc_ProxyPassHeaders := []; loc_ProxyIgnoreHeaders := "";
     loc_ProxyPassRewrite := ""; loc_AddHeaders := []; loc_Rewrites := []; loc_HasKeepalive := false;
     loc_ErrorPages := []; loc_ProxySSLName := if vea_SSLVerify ea then vea_SNIName ea else "";
     loc_InternalProxyPass := ""; loc_Allow := []; loc_Deny := []; loc_LimitReqOptions := noLimitReqOptions;
     loc_LimitReqs := []; loc_JWTAuth := None; loc_OIDCProviderName := ""; loc_AuthRequestOff := true;
     loc_ExternalAuth := None; loc_BasicAuth := None; loc_EgressMTLS := None; loc_HSTS := None; loc_OIDC := false;
     loc_APIKey := None; loc_WAF := None; loc_Dos := None; loc_Wallarm := None; loc_PoliciesErrorReturn := None;
     loc_Cache := None; loc_ServiceName := auri_Upstream uri; loc_IsVSR := false; loc_VSRName := "";
     loc_VSRNamespace := ""; loc_GRPCPass := ""; loc_CORSEnabled := false; loc_DisableForwardedHeaders := false;
     loc_AddHeaderInherit := ""; loc_ProxySSLVerify := vea_SSLVerify ea;
     loc_ProxySSLVerifyDepth := if vea_SSLVerify ea then vea_SSLVerifyDepth ea else 0%Z;
     loc_ProxySSLTrustedCertificate := if vea_SSLVerify ea then vea_SSLTrustedCert ea else "" |}.

(** strconv.ParseUint(s, 10, 16) *)
Definition parseUint16 (s : string) : string + Z :=
  let err reason := inl ("strconv.ParseUint: parsing " +:+ Quote s +:+ ": " +:+ reason) in
  if bool_decide (s = "") || negb (isASCIIDigits s) then err "invalid syntax"
  else match ParseUint s with
       | Some n => if (n <=? 65535)%Z then inr n else err "value out of range"
       | None => err "value out of range"
       end.
Definition getExAuthServicePort (vs : VirtualServer) (ea : ExternalAuthCfg) (uri : AuthURICfg) (w : Warnings) : Z * Warnings :=
  let uriPort :=
    if negb (bool_decide (auri_Port uri = "")) then
      match parseUint16 (auri_Port uri) with
      | inr value => (value, w)
      | inl err => (0%Z, addOwnerWarning w (OwnerVS vs)
                           ("Invalid port in ExternalAuth URI: " +:+ auri_Port uri
                            +:+ ". ExternalAuth location will be generated without a port. Error: " +:+ err))
      end
    else (if vea_SSLEnabled ea then 443%Z else 80%Z, w) in
  match vea_ServicePorts ea with
  | port :: _ => if (0 <? port)%Z && (port <=? 65535)%Z then (port, w) else uriPort
  | [] => uriPort
  end.
End LocationPolicies.
