(* ===== verification/VSGenerate.v ===== *)
(** The generation of the configuration of a VirtualServer
    (internal/configs/virtualserver.go), fifth part: GenerateVirtualServerConfig.

    The local variables of the function that its loops extend are the fields of
    [generation].  VirtualServer routes and VirtualServerRoute subroutes share
    [generateRoute].  [None] is a panic. *)
From S2P Require Import Prelude GoStrings Regex Objects ConfigState ProxyBuffers.
From S2P Require Import HostValidation PolicyObjects SecretStore.
From S2P Require Import PolicyConfig Version2 ConfigParams PolicyConfigAdd.
From S2P Require Import PolicyConfigGenerate.
From S2P Require Import VSUpstreams VSLocations VSRouting VSPolicies.

(** ** What subroutes inherit from the routes that reference their VirtualServerRoute *)

(** vsrErrorPagesFromVs with vsrErrorPagesRouteIndex, vsrLocationSnippetsFromVs,
    vsrAddHeaderInheritFromVs and vsrPoliciesFromVs *)
Record vsrInherited := {
  vi_ErrorPages : gmap string (option (list ErrorPage) * Z);
  vi_LocationSnippets : gmap string string;
  vi_AddHeaderInherit : gmap string string;
  vi_Policies : gmap string (list PolicyReference)
}.
Definition nothingInherited : vsrInherited :=
  {| vi_ErrorPages := ∅; vi_LocationSnippets := ∅; vi_AddHeaderInherit := ∅; vi_Policies := ∅ |}.
(** assigns to the entries of the VirtualServerRoutes when the route sets a value *)
Definition assignAll {A} (isSet : bool) (names : list string) (v : A) (m : gmap string A) : gmap string A :=
  if isSet then foldl (λ m name, <[name := v]> m) m names else m.
Definition recordInherited (names : list string) (r : Route) (errorPages : errorPageDetails) (vi : vsrInherited) : vsrInherited :=
  {| vi_ErrorPages :=
       assignAll (Nat.ltb 0 (length (default [] (r_ErrorPages r)))) names (epd_pages errorPages, epd_index errorPages)
         (vi_ErrorPages vi);
     vi_LocationSnippets :=
       assignAll (negb (bool_decide (r_LocationSnippets r = ""))) names (r_LocationSnippets r) (vi_LocationSnippets vi);
     vi_AddHeaderInherit :=
       assignAll (negb (bool_decide (r_AddHeaderInherit r = ""))) names (r_AddHeaderInherit r) (vi_AddHeaderInherit vi);
     vi_Policies := assignAll (Nat.ltb 0 (length (r_Policies r))) names (r_Policies r) (vi_Policies vi) |}.

(** ** The variables of GenerateVirtualServerConfig *)
Record generation := {
  vg_policies : policiesCfg;
  vg_opts : policyOptions;
  vg_shared : sharedMaps;
  vg_warnings : Warnings;
  vg_limitReqZones : list LimitReqZoneCfg;
  vg_authJWTClaimSets : list AuthJWTClaimSetCfg;
  vg_oidcProviders : list OIDCProviderCfg;
  vg_cacheZones : list CacheZoneCfg;
  vg_upstreams : upstreamsAcc;
  vg_parts : routingParts;
  vg_internalRedirects : list InternalRedirectLocationCfg;
  vg_matchesRoutes : Z;
  vg_errorPageLocations : list ErrorPageLocationCfg;
  vg_externalAuthURLs : gset string;
  vg_oauth2Location : bool;
  vg_inherited : vsrInherited
}.
(** assignment *)
Definition vg_set_policies (v : policiesCfg) (st : generation) : generation :=
  {| vg_policies := v; vg_opts := vg_opts st; vg_shared := vg_shared st; vg_warnings := vg_warnings st;
     vg_limitReqZones := vg_limitReqZones st; vg_authJWTClaimSets := vg_authJWTClaimSets st;
     vg_oidcProviders := vg_oidcProviders st; vg_cacheZones := vg_cacheZones st; vg_upstreams := vg_upstreams st;
     vg_parts := vg_parts st; vg_internalRedirects := vg_internalRedirects st;
     vg_matchesRoutes := vg_matchesRoutes st; vg_errorPageLocations := vg_errorPageLocations st;
     vg_externalAuthURLs := vg_externalAuthURLs st; vg_oauth2Location := vg_oauth2Location st;
     vg_inherited := vg_inherited st |}.
Definition vg_set_opts (v : policyOptions) (st : generation) : generation :=
  {| vg_policies := vg_policies st; vg_opts := v; vg_shared := vg_shared st; vg_warnings := vg_warnings st;
     vg_limitReqZones := vg_limitReqZones st; vg_authJWTClaimSets := vg_authJWTClaimSets st;
     vg_oidcProviders := vg_oidcProviders st; vg_cacheZones := vg_cacheZones st; vg_upstreams := vg_upstreams st;
     vg_parts := vg_parts st; vg_internalRedirects := vg_internalRedirects st;
     vg_matchesRoutes := vg_matchesRoutes st; vg_errorPageLocations := vg_errorPageLocations st;
     vg_externalAuthURLs := vg_externalAuthURLs st; vg_oauth2Location := vg_oauth2Location st;
     vg_inherited := vg_inherited st |}.
Definition vg_set_shared (v : sharedMaps) (st : generation) : generation :=
  {| vg_policies := vg_policies st; vg_opts := vg_opts st; vg_shared := v; vg_warnings := vg_warnings st;
     vg_limitReqZones := vg_limitReqZones st; vg_authJWTClaimSets := vg_authJWTClaimSets st;
     vg_oidcProviders := vg_oidcProviders st; vg_cacheZones := vg_cacheZones st; vg_upstreams := vg_upstreams st;
     vg_parts := vg_parts st; vg_internalRedirects := vg_internalRedirects st;
     vg_matchesRoutes := vg_matchesRoutes st; vg_errorPageLocations := vg_errorPageLocations st;
     vg_externalAuthURLs := vg_externalAuthURLs st; vg_oauth2Location := vg_oauth2Location st;
     vg_inherited := vg_inherited st |}.
Definition vg_set_warnings (v : Warnings) (st : generation) : generation :=
  {| vg_policies := vg_policies st; vg_opts := vg_opts st; vg_shared := vg_shared st; vg_warnings := v;
     vg_limitReqZones := vg_limitReqZones st; vg_authJWTClaimSets := vg_authJWTClaimSets st;
     vg_oidcProviders := vg_oidcProviders st; vg_cacheZones := vg_cacheZones st; vg_upstreams := vg_upstreams st;
     vg_parts := vg_parts st; vg_internalRedirects := vg_internalRedirects st;
     vg_matchesRoutes := vg_matchesRoutes st; vg_errorPageLocations := vg_errorPageLocations st;
     vg_externalAuthURLs := vg_externalAuthURLs st; vg_oauth2Location := vg_oauth2Location st;
     vg_inherited := vg_inherited st |}.
Definition vg_set_limitReqZones (v : list LimitReqZoneCfg) (st : generation) : generation :=
  {| vg_policies := vg_policies st; vg_opts := vg_opts st; vg_shared := vg_shared st; vg_warnings := vg_warnings st;
     vg_limitReqZones := v; vg_authJWTClaimSets := vg_authJWTClaimSets st; vg_oidcProviders := vg_oidcProviders st;
     vg_cacheZones := vg_cacheZones st; vg_upstreams := vg_upstreams st; vg_parts := vg_parts st;
     vg_internalRedirects := vg_internalRedirects st; vg_matchesRoutes := vg_matchesRoutes st;
     vg_errorPageLocations := vg_errorPageLocations st; vg_externalAuthURLs := vg_externalAuthURLs st;
     vg_oauth2Location := vg_oauth2Location st; vg_inherited := vg_inherited st |}.
Definition vg_set_authJWTClaimSets (v : list AuthJWTClaimSetCfg) (st : generation) : generation :=
  {| vg_policies := vg_policies st; vg_opts := vg_opts st; vg_shared := vg_shared st; vg_warnings := vg_warnings st;
     vg_limitReqZones := vg_limitReqZones st; vg_authJWTClaimSets := v; vg_oidcProviders := vg_oidcProviders st;
     vg_cacheZones := vg_cacheZones st; vg_upstreams := vg_upstreams st; vg_parts := vg_parts st;
     vg_internalRedirects := vg_internalRedirects st; vg_matchesRoutes := vg_matchesRoutes st;
     vg_errorPageLocations := vg_errorPageLocations st; vg_externalAuthURLs := vg_externalAuthURLs st;
     vg_oauth2Location := vg_oauth2Location st; vg_inherited := vg_inherited st |}.
Definition vg_set_oidcProviders (v : list OIDCProviderCfg) (st : generation) : generation :=
  {| vg_policies := vg_policies st; vg_opts := vg_opts st; vg_shared := vg_shared st; vg_warnings := vg_warnings st;
     vg_limitReqZones := vg_limitReqZones st; vg_authJWTClaimSets := vg_authJWTClaimSets st; vg_oidcProviders := v;
     vg_cacheZones := vg_cacheZones st; vg_upstreams := vg_upstreams st; vg_parts := vg_parts st;
     vg_internalRedirects := vg_internalRedirects st; vg_matchesRoutes := vg_matchesRoutes st;
     vg_errorPageLocations := vg_errorPageLocations st; vg_externalAuthURLs := vg_externalAuthURLs st;
     vg_oauth2Location := vg_oauth2Location st; vg_inherited := vg_inherited st |}.
Definition vg_set_cacheZones (v : list CacheZoneCfg) (st : generation) : generation :=
  {| vg_policies := vg_policies st; vg_opts := vg_opts st; vg_shared := vg_shared st; vg_warnings := vg_warnings st;
     vg_limitReqZones := vg_limitReqZones st; vg_authJWTClaimSets := vg_authJWTClaimSets st;
     vg_oidcProviders := vg_oidcProviders st; vg_cacheZones := v; vg_upstreams := vg_upstreams st;
     vg_parts := vg_parts st; vg_internalRedirects := vg_internalRedirects st;
     vg_matchesRoutes := vg_matchesRoutes st; vg_errorPageLocations := vg_errorPageLocations st;
     vg_externalAuthURLs := vg_externalAuthURLs st; vg_oauth2Location := vg_oauth2Location st;
     vg_inherited := vg_inherited st |}.
Definition vg_set_upstreams (v : upstreamsAcc) (st : generation) : generation :=
  {| vg_policies := vg_policies st; vg_opts := vg_opts st; vg_shared := vg_shared st; vg_warnings := vg_warnings st;
     vg_limitReqZones := vg_limitReqZones st; vg_authJWTClaimSets := vg_authJWTClaimSets st;
     vg_oidcProviders := vg_oidcProviders st; vg_cacheZones := vg_cacheZones st; vg_upstreams := v;
     vg_parts := vg_parts st; vg_internalRedirects := vg_internalRedirects st;
     vg_matchesRoutes := vg_matchesRoutes st; vg_errorPageLocations := vg_errorPageLocations st;
     vg_externalAuthURLs := vg_externalAuthURLs st; vg_oauth2Location := vg_oauth2Location st;
     vg_inherited := vg_inherited st |}.
Definition vg_set_parts (v : routingParts) (st : generation) : generation :=
  {| vg_policies := vg_policies st; vg_opts := vg_opts st; vg_shared := vg_shared st; vg_warnings := vg_warnings st;
     vg_limitReqZones := vg_limitReqZones st; vg_authJWTClaimSets := vg_authJWTClaimSets st;
     vg_oidcProviders := vg_oidcProviders st; vg_cacheZones := vg_cacheZones st; vg_upstreams := vg_upstreams st;
     vg_parts := v; vg_internalRedirects := vg_internalRedirects st; vg_matchesRoutes := vg_matchesRoutes st;
     vg_errorPageLocations := vg_errorPageLocations st; vg_externalAuthURLs := vg_externalAuthURLs st;
     vg_oauth2Location := vg_oauth2Location st; vg_inherited := vg_inherited st |}.
Definition vg_set_internalRedirects (v : list InternalRedirectLocationCfg) (st : generation) : generation :=
  {| vg_policies := vg_policies st; vg_opts := vg_opts st; vg_shared := vg_shared st; vg_warnings := vg_warnings st;
     vg_limitReqZones := vg_limitReqZones st; vg_authJWTClaimSets := vg_authJWTClaimSets st;
     vg_oidcProviders := vg_oidcProviders st; vg_cacheZones := vg_cacheZones st; vg_upstreams := vg_upstreams st;
     vg_parts := vg_parts st; vg_internalRedirects := v; vg_matchesRoutes := vg_matchesRoutes st;
     vg_errorPageLocations := vg_errorPageLocations st; vg_externalAuthURLs := vg_externalAuthURLs st;
     vg_oauth2Location := vg_oauth2Location st; vg_inherited := vg_inherited st |}.
Definition vg_set_matchesRoutes (v : Z) (st : generation) : generation :=
  {| vg_policies := vg_policies st; vg_opts := vg_opts st; vg_shared := vg_shared st; vg_warnings := vg_warnings st;
     vg_limitReqZones := vg_limitReqZones st; vg_authJWTClaimSets := vg_authJWTClaimSets st;
     vg_oidcProviders := vg_oidcProviders st; vg_cacheZones := vg_cacheZones st; vg_upstreams := vg_upstreams st;
     vg_parts := vg_parts st; vg_internalRedirects := vg_internalRedirects st; vg_matchesRoutes := v;
     vg_errorPageLocations := vg_errorPageLocations st; vg_externalAuthURLs := vg_externalAuthURLs st;
     vg_oauth2Location := vg_oauth2Location st; vg_inherited := vg_inherited st |}.
Definition vg_set_errorPageLocations (v : list ErrorPageLocationCfg) (st : generation) : generation :=
  {| vg_policies := vg_policies st; vg_opts := vg_opts st; vg_shared := vg_shared st; vg_warnings := vg_warnings st;
     vg_limitReqZones := vg_limitReqZones st; vg_authJWTClaimSets := vg_authJWTClaimSets st;
     vg_oidcProviders := vg_oidcProviders st; vg_cacheZones := vg_cacheZones st; vg_upstreams := vg_upstreams st;
     vg_parts := vg_parts st; vg_internalRedirects := vg_internalRedirects st;
     vg_matchesRoutes := vg_matchesRoutes st; vg_errorPageLocations := v;
     vg_externalAuthURLs := vg_externalAuthURLs st; vg_oauth2Location := vg_oauth2Location st;
     vg_inherited := vg_inherited st |}.
Definition vg_set_externalAuthURLs (v : gset string) (st : generation) : generation :=
  {| vg_policies := vg_policies st; vg_opts := vg_opts st; vg_shared := vg_shared st; vg_warnings := vg_warnings st;
     vg_limitReqZones := vg_limitReqZones st; vg_authJWTClaimSets := vg_authJWTClaimSets st;
     vg_oidcProviders := vg_oidcProviders st; vg_cacheZones := vg_cacheZones st; vg_upstreams := vg_upstreams st;
     vg_parts := vg_parts st; vg_internalRedirects := vg_internalRedirects st;
     vg_matchesRoutes := vg_matchesRoutes st; vg_errorPageLocations := vg_errorPageLocations st;
     vg_externalAuthURLs := v; vg_oauth2Location := vg_oauth2Location st; vg_inherited := vg_inherited st |}.
Definition vg_set_oauth2Location (v : bool) (st : generation) : generation :=
  {| vg_policies := vg_policies st; vg_opts := vg_opts st; vg_shared := vg_shared st; vg_warnings := vg_warnings st;
     vg_limitReqZones := vg_limitReqZones st; vg_authJWTClaimSets := vg_authJWTClaimSets st;
     vg_oidcProviders := vg_oidcProviders st; vg_cacheZones := vg_cacheZones st; vg_upstreams := vg_upstreams st;
     vg_parts := vg_parts st; vg_internalRedirects := vg_internalRedirects st;
     vg_matchesRoutes := vg_matchesRoutes st; vg_errorPageLocations := vg_errorPageLocations st;
     vg_externalAuthURLs := vg_externalAuthURLs st; vg_oauth2Location := v; vg_inherited := vg_inherited st |}.
Definition vg_set_inherited (v : vsrInherited) (st : generation) : generation :=
  {| vg_policies := vg_policies st; vg_opts := vg_opts st; vg_shared := vg_shared st; vg_warnings := vg_warnings st;
     vg_limitReqZones := vg_limitReqZones st; vg_authJWTClaimSets := vg_authJWTClaimSets st;
     vg_oidcProviders := vg_oidcProviders st; vg_cacheZones := vg_cacheZones st; vg_upstreams := vg_upstreams st;
     vg_parts := vg_parts st; vg_internalRedirects := vg_internalRedirects st;
     vg_matchesRoutes := vg_matchesRoutes st; vg_errorPageLocations := vg_errorPageLocations st;
     vg_externalAuthURLs := vg_externalAuthURLs st; vg_oauth2Location := vg_oauth2Location st; vg_inherited := v |}.

(** ** The steps of a context *)
Definition set_oidc (oidc : OIDCCfg) (o : policyOptions) : policyOptions :=
  {| po_tls := po_tls o; po_zoneSync := po_zoneSync o; po_secretRefs := po_secretRefs o; po_apResources := po_apResources o;
     po_defaultCABundle := po_defaultCABundle o; po_replicas := po_replicas o; po_oidcPolicyName := voidc_PolicyName oidc;
     po_oidcConfig := Some oidc; po_plmEnabled := po_plmEnabled o |}.

Definition mergeWarnings (w routeWarnings : Warnings) : Warnings :=
  union_with (λ old new, Some (old ++ new)) w routeWarnings.

Definition ownerDetails (vs : VirtualServer) (owner : ownerObject) : policyOwnerDetails :=
  {| od_owner := ownerId owner; od_ownerName := om_Name (ownerMeta owner); od_ownerNamespace := om_Namespace (ownerMeta owner);
     od_parentNamespace := om_Namespace (vs_Meta vs); od_parentName := om_Name (vs_Meta vs); od_parentType := "vs" |}.

Definition withJWKS (key : string) (auth : JWTAuthCfg) (cfg : policiesCfg) : policiesCfg :=
  let j := pc_JWTAuth cfg in
  set_JWTAuth {| jac_Auth := jac_Auth j;
                 jac_List := match jac_List j !! key with Some _ => jac_List j | None => <[key := auth]> (jac_List j) end;
                 jac_JWKSEnabled := true |} cfg.
Definition withAPIKeyClients (mapName : string) (clients : list apiKeyClient) (cfg : policiesCfg) : policiesCfg :=
  let a := pc_APIKey cfg in
  set_APIKey {| aka_Enabled := true; aka_Key := aka_Key a; aka_Clients := aka_Clients a;
                aka_ClientMap := match aka_ClientMap a !! mapName with
                                 | Some _ => aka_ClientMap a
                                 | None => <[mapName := clients]> (aka_ClientMap a)
                                 end |} cfg.
(** the entries of the server for the JWKS and the API keys of a context *)
Definition recordAuthentication (cfg : policiesCfg) (st : generation) : option generation :=
  st ← (if jac_JWKSEnabled (pc_JWTAuth cfg) then
          auth ← jac_Auth (pc_JWTAuth cfg);
          Some (vg_set_policies (withJWKS (vjwt_Key auth) auth (vg_policies st)) st)
        else Some st);
  if aka_Enabled (pc_APIKey cfg) then
    key ← aka_Key (pc_APIKey cfg);
    Some (vg_set_policies (withAPIKeyClients (vak_MapName key) (aka_Clients (pc_APIKey cfg)) (vg_policies st)) st)
  else Some st.

Definition addMaps (maps : list MapCfg) (st : generation) : generation :=
  vg_set_parts (appendParts (vg_parts st) (onlyMaps maps)) st.
(** the maps, zones, claim sets and providers of the policies of a context *)
Definition recordPolicies (cfg : policiesCfg) (st : generation) : generation :=
  let rl := pc_RateLimit cfg in
  let st := addMaps (rlcfg_GroupMaps rl ++ rlcfg_PolicyGroupMaps rl ++ option_list (pc_CORSMap cfg)) st in
  let st := vg_set_limitReqZones (vg_limitReqZones st ++ rlcfg_Zones rl) st in
  let st := vg_set_authJWTClaimSets (vg_authJWTClaimSets st ++ rlcfg_AuthJWTClaimSets rl) st in
  let st := vg_set_oidcProviders (vg_oidcProviders st ++ option_list (pc_OIDCProvider cfg)) st in
  vg_set_cacheZones (addCacheZone (vg_cacheZones st) (pc_Cache cfg)) st.

(** ** What the generation reads *)
Record generationInput := {
  gi_vsc : virtualServerConfigurator;
  gi_vsEx : VirtualServerEx;
  gi_dosResources : gmap string appProtectDosResource;
  gi_sslConfig : option SSLCfg
}.

(** The settings of one route, own or inherited *)
Record routeSettings := {
  rs_owner : ownerObject;                  (* of the location and of its warnings *)
  rs_namer : upstreamNamer;
  rs_policyOwner : ownerObject;            (* of the policy references *)
  rs_policyRefs : list PolicyReference;
  rs_context : string;
  rs_errorPages : errorPageDetails;
  rs_snippets : string;
  rs_addHeaderInherit : string
}.

Definition routeContext : string := "route".
Definition subRouteContext : string := "subroute".

Section Generate.
Context `{UL : URLLib} `{LT : UnicodeLower} `{PL : PolicyLib} `{MR : MapRange} `{UT : UnicodeTables}.
Context `{LS : LabelSets} `{SS : SliceSort} `{LSel : LabelSelectors}.
Implicit Types (gi : generationInput) (st : generation) (cfg : policiesCfg).

(** generatePolicies, with its warnings merged *)
Definition runPolicies gi (owner : ownerObject) (policyRefs : list PolicyReference) (context path : string) st
    : option (policiesCfg * generation) :=
  let ctx := {| ctx_owner := ownerDetails (vsx_VirtualServer (gi_vsEx gi)) owner; ctx_context := context; ctx_path := path;
                ctx_opts := vg_opts st; ctx_bundles := vsc_bundleValidator (gi_vsc gi) |} in
  '(cfg, w, sm) ← generatePolicies ctx policyRefs (vg_shared st);
  Some (cfg, vg_set_shared sm (vg_set_warnings (mergeWarnings (vg_warnings st) w) st)).

(** the location and the upstream of an external authentication *)
Definition generateExternalAuth gi (owner : ownerObject) (namer : upstreamNamer) (ea : ExternalAuthCfg) (uri : AuthURICfg) st
    : generation :=
  let cfgParams := vsc_cfgParams (gi_vsc gi) in
  let st := vg_set_externalAuthURLs ({[auri_InternalPath uri]} ∪ vg_externalAuthURLs st) st in
  let '(port, w) := getExAuthServicePort (vsx_VirtualServer (gi_vsEx gi)) ea uri (vg_warnings st) in
  let proxyPassUpstream := GetNameForUpstream namer (auri_Upstream uri) in
  let addLocation loc st := vg_set_parts (appendParts (vg_parts st) (onlyLocations [loc] [])) st in
  let st := addLocation (generateExternalAuthLocation cfgParams ea uri proxyPassUpstream) st in
  let '(ups, w) := generateUpstreams (gi_sslConfig gi) (gi_vsc gi) (plainUpstream (auri_Upstream uri) (auri_Service uri) port)
                     owner (om_Namespace (ownerMeta owner)) namer (gi_vsEx gi) (vg_upstreams st) w in
  let st := vg_set_warnings w (vg_set_upstreams ups st) in
  if bool_decide (vea_SigninURL ea = "") then st
  else
    let st := vg_set_externalAuthURLs ({[vea_SigninURL ea]} ∪ vg_externalAuthURLs st) st in
    if vg_oauth2Location st then st
    else vg_set_oauth2Location true (addLocation (generateExternalAuthOAuth2Location cfgParams ea uri proxyPassUpstream) st).

(** the external authentication of a route, once for each internal path *)
Definition addRouteExternalAuth gi (owner : ownerObject) (namer : upstreamNamer) (path : string) cfg st : option generation :=
  match pc_ExternalAuth cfg with
  | None => Some st
  | Some ea =>
      uri ← vea_URI ea;
      if bool_decide (auri_InternalPath uri ∈ vg_externalAuthURLs st)
      then Some (vg_set_warnings
             (addOwnerWarning (vg_warnings st) owner
                ("Duplicate external auth URI " +:+ auri_Path uri +:+ " on this VirtualServer; external auth URI for route "
                 +:+ path +:+ " will be ignored.")) st)
      else Some (generateExternalAuth gi owner namer ea uri st)
  end.

(** the OIDC of a route is the server's too; a route without one inherits the server's *)
Definition inheritOIDC (specHasOIDC : bool) cfg st : policiesCfg * generation :=
  match pc_OIDC cfg with
  | Some oidc => (cfg, vg_set_policies (set_OIDC (Some oidc) (vg_policies st)) (vg_set_opts (set_oidc oidc (vg_opts st)) st))
  | None =>
      if specHasOIDC && bool_decide (pc_OIDCProvider cfg = None)
      then (set_OIDC (pc_OIDC (vg_policies st)) cfg, st) else (cfg, st)
  end.
Definition inheritCORS st cfg : policiesCfg :=
  match pc_CORSHeaders cfg with
  | [] => set_CORSHeaders (pc_CORSHeaders (vg_policies st)) cfg
  | _ => cfg
  end.

(** the locations of a route *)
Definition routingOf gi (rs : routeSettings) (r : Route) : routingContext :=
  let vsc := gi_vsc gi in
  let '(isVSR, name, namespace) :=
    match rs_owner rs with
    | OwnerVS _ => (false, "", "")
    | OwnerVSR _ vsr => (true, om_Name (vsr_Meta vsr), om_Namespace (vsr_Meta vsr))
    end in
  {| rx_locations := {| lc_cfgParams := vsc_cfgParams vsc; lc_errorPages := rs_errorPages rs; lc_originalPath := r_Path r;
                        lc_locSnippets := rs_snippets rs; lc_enableSnippets := vsc_enableSnippets vsc; lc_isVSR := isVSR;
                        lc_vsrName := name; lc_vsrNamespace := namespace |};
     rx_upstreamNamer := rs_namer rs; rx_crUpstreams := ∅;
     rx_variableNamer := NewVSVariableNamer (vsx_VirtualServer (gi_vsEx gi));
     rx_dynamic := vsc_DynamicWeightChangesReload vsc |}.
Definition withUpstreams (crUpstreams : gmap string Upstream) (rx : routingContext) : routingContext :=
  {| rx_locations := rx_locations rx; rx_upstreamNamer := rx_upstreamNamer rx; rx_crUpstreams := crUpstreams;
     rx_variableNamer := rx_variableNamer rx; rx_dynamic := rx_dynamic rx |}.

(** the configuration of the route's matches, splits or action, before policies *)
Definition generateRouting (rx : routingContext) (r : Route) (matchesRoutes scIndex retLocIndex : Z) (w : Warnings)
    : option (routingParts * option InternalRedirectLocationCfg * Warnings) :=
  match r_Matches r, r_Splits r with
  | _ :: _, _ =>
      '(c, w) ← generateMatchesConfig rx r matchesRoutes scIndex retLocIndex w;
      Some (rc_parts c, Some (rc_InternalRedirectLocation c), w)
  | [], _ :: _ =>
      '(c, w) ← generateDefaultSplitsConfig rx r scIndex retLocIndex w;
      Some (rc_parts c, Some (rc_InternalRedirectLocation c), w)
  | [], [] =>
      '(loc, ret, w) ← actionLocation rx false (r_Path r) (r_Action r) retLocIndex w;
      Some (onlyLocations [loc] (option_list ret), None, w)
  end.
Definition mapLocations (f : LocationCfg → LocationCfg) (parts : routingParts) : routingParts :=
  {| rp_Maps := rp_Maps parts; rp_SplitClients := rp_SplitClients parts; rp_Locations := f <$> rp_Locations parts;
     rp_ReturnLocations := rp_ReturnLocations parts; rp_KeyValZones := rp_KeyValZones parts;
     rp_KeyVals := rp_KeyVals parts; rp_TwoWaySplitClients := rp_TwoWaySplitClients parts |}.
Definition addRouting gi (rs : routeSettings) (r : Route) cfg st : option generation :=
  let parts := vg_parts st in
  let rx := withUpstreams (ua_crUpstreams (vg_upstreams st)) (routingOf gi rs r) in
  '(new, redirect, w) ← generateRouting rx r (vg_matchesRoutes st) (Z.of_nat (length (rp_SplitClients parts)))
                          (Z.of_nat (length (rp_ReturnLocations parts))) (vg_warnings st);
  let dos := generateDosCfg (gi_dosResources gi !! r_Path r) in
  let settle l := addRouteSettingsToLocation dos (rs_addHeaderInherit rs) (addPoliciesCfgToLocation cfg l) in
  let st := vg_set_parts (appendParts parts (mapLocations settle new)) (vg_set_warnings w st) in
  let st := vg_set_internalRedirects (vg_internalRedirects st ++ option_list redirect) st in
  Some (match r_Matches r with [] => st | _ => vg_set_matchesRoutes (vg_matchesRoutes st + 1) st end).

Definition generateRoute gi (specHasOIDC : bool) (rs : routeSettings) (r : Route) st : option generation :=
  '(cfg, st) ← runPolicies gi (rs_policyOwner rs) (rs_policyRefs rs) (rs_context rs) (r_Path r) st;
  let cfg := inheritCORS st cfg in
  let '(cfg, st) := inheritOIDC specHasOIDC cfg st in
  st ← recordAuthentication cfg st;
  st ← addRouteExternalAuth gi (rs_owner rs) (rs_namer rs) (r_Path r) cfg st;
  addRouting gi rs r cfg (recordPolicies cfg st).

(** ** The loops *)

(** the error pages of a route, and their locations *)
Definition addErrorPages (owner : ownerObject) (r : Route) st : option (errorPageDetails * generation) :=
  let errorPages := generateErrorPageDetails (r_ErrorPages r) (vg_errorPageLocations st) owner in
  locs ← generateErrorPageLocations (epd_index errorPages) (default [] (epd_pages errorPages));
  Some (errorPages, vg_set_errorPageLocations (vg_errorPageLocations st ++ locs) st).

Definition generateVSRoute gi (specHasOIDC : bool) st (r : Route) : option generation :=
  let vs := vsx_VirtualServer (gi_vsEx gi) in
  '(errorPages, st) ← addErrorPages (OwnerVS vs) r st;
  let inherit names := Some (vg_set_inherited (recordInherited names r errorPages (vg_inherited st)) st) in
  if negb (bool_decide (r_Route r = "")) then
    inherit [if HasNamespace (r_Route r) then r_Route r else om_Namespace (vs_Meta vs) +:+ "/" +:+ r_Route r]
  else match r_RouteSelector r with
  | Some matchLabels =>
      match LabelSelectorAsSelector matchLabels with
      | inl err =>
          Some (vg_set_warnings (addOwnerWarning (vg_warnings st) (OwnerVS vs)
                  ("Invalid routeSelector in route with path " +:+ r_Path r +:+ ": " +:+ err)) st)
      | inr (selectorKey, _) => inherit (default [] (vsx_VirtualServerSelectorRoutes (gi_vsEx gi) !! selectorKey))
      end
  | None =>
      generateRoute gi specHasOIDC
        {| rs_owner := OwnerVS vs; rs_namer := NewUpstreamNamerForVirtualServer vs; rs_policyOwner := OwnerVS vs;
           rs_policyRefs := r_Policies r; rs_context := routeContext; rs_errorPages := errorPages;
           rs_snippets := r_LocationSnippets r; rs_addHeaderInherit := r_AddHeaderInherit r |} r st
  end.

Definition generateSubroute gi (specHasOIDC : bool) (i : nat) (vsr : VirtualServerRoute) st (r : Route) : option generation :=
  let vs := vsx_VirtualServer (gi_vsEx gi) in
  let owner := OwnerVSR i vsr in
  '(errorPages, st) ← addErrorPages owner r st;
  let vsrNamespaceName := om_Namespace (vsr_Meta vsr) +:+ "/" +:+ om_Name (vsr_Meta vsr) in
  let vi := vg_inherited st in
  let errorPages :=
    match r_ErrorPages r, vi_ErrorPages vi !! vsrNamespaceName with
    | None, Some (pages, index) => {| epd_pages := pages; epd_index := index; epd_owner := epd_owner errorPages |}
    | _, _ => errorPages
    end in
  let own value inherited := if bool_decide (value = "") then default "" (inherited !! vsrNamespaceName) else value in
  let '(policyOwner, policyRefs, context) :=
    match r_Policies r with
    | [] => (OwnerVS vs, default [] (vi_Policies vi !! vsrNamespaceName), routeContext)
    | refs => (owner, refs, subRouteContext)
    end in
  generateRoute gi specHasOIDC
    {| rs_owner := owner; rs_namer := NewUpstreamNamerForVirtualServerRoute vs vsr; rs_policyOwner := policyOwner;
       rs_policyRefs := policyRefs; rs_context := context; rs_errorPages := errorPages;
       rs_snippets := own (r_LocationSnippets r) (vi_LocationSnippets vi);
       rs_addHeaderInherit := own (r_AddHeaderInherit r) (vi_AddHeaderInherit vi) |} r st.

Definition addUpstream gi (owner : ownerObject) (namer : upstreamNamer) st (u : Upstream) : generation :=
  let '(ups, w) := generateUpstreams (gi_sslConfig gi) (gi_vsc gi) u owner (om_Namespace (ownerMeta owner)) namer
                     (gi_vsEx gi) (vg_upstreams st) (vg_warnings st) in
  vg_set_warnings w (vg_set_upstreams ups st).

(** ** GenerateVirtualServerConfig *)
Definition initialGeneration gi (apResources : appProtectPolicyResources) (w : Warnings) : generation :=
  let vsc := gi_vsc gi in
  let vsEx := gi_vsEx gi in
  {| vg_policies := newPoliciesConfig;
     vg_opts := {| po_tls := bool_decide (is_Some (gi_sslConfig gi)); po_zoneSync := vsx_ZoneSync vsEx;
                   po_secretRefs := vsx_SecretRefs vsEx; po_apResources := apResources;
                   po_defaultCABundle := vsc_CABundlePath vsc; po_replicas := vsc_IngressControllerReplicas vsc;
                   po_oidcPolicyName := ""; po_oidcConfig := None; po_plmEnabled := vsc_plmEnabled vsc |};
     vg_shared := {| sm_locations := Some ∅; sm_policies := vsx_Policies vsEx |};
     vg_warnings := w; vg_limitReqZones := []; vg_authJWTClaimSets := []; vg_oidcProviders := []; vg_cacheZones := [];
     vg_upstreams := noUpstreams; vg_parts := onlyMaps []; vg_internalRedirects := []; vg_matchesRoutes := 0;
     vg_errorPageLocations := []; vg_externalAuthURLs := ∅; vg_oauth2Location := false;
     vg_inherited := nothingInherited |}.

(** the policies of the server *)
Definition generateSpec gi st : option generation :=
  let vs := vsx_VirtualServer (gi_vsEx gi) in
  '(cfg, st) ← runPolicies gi (OwnerVS vs) (vs_Policies vs) specContext "/" st;
  let st := vg_set_policies cfg st in
  let st := match pc_OIDC cfg with Some oidc => vg_set_opts (set_oidc oidc (vg_opts st)) st | None => st end in
  st ← recordAuthentication cfg st;
  Some (recordPolicies cfg st).
Definition addSpecExternalAuth gi st : option generation :=
  let vs := vsx_VirtualServer (gi_vsEx gi) in
  match pc_ExternalAuth (vg_policies st) with
  | None => Some st
  | Some ea => uri ← vea_URI ea; Some (generateExternalAuth gi (OwnerVS vs) (NewUpstreamNamerForVirtualServer vs) ea uri st)
  end.

Definition addUpstreams gi st : generation :=
  let vs := vsx_VirtualServer (gi_vsEx gi) in
  let st := foldl (addUpstream gi (OwnerVS vs) (NewUpstreamNamerForVirtualServer vs)) st (vs_Upstreams vs) in
  foldl (λ st ivsr, foldl (addUpstream gi (OwnerVSR ivsr.1 ivsr.2) (NewUpstreamNamerForVirtualServerRoute vs ivsr.2)) st
                      (vsr_Upstreams ivsr.2)) st (imap pair (vsx_VirtualServerRoutes (gi_vsEx gi))).

Definition generateRoutes gi st : option generation :=
  let specHasOIDC := bool_decide (is_Some (pc_OIDC (vg_policies st))) in
  st ← foldM (generateVSRoute gi specHasOIDC) st (vs_Routes (vsx_VirtualServer (gi_vsEx gi)));
  foldM (λ st ivsr, foldM (generateSubroute gi specHasOIDC ivsr.1 ivsr.2) st (vsr_Subroutes ivsr.2)) st
    (imap pair (vsx_VirtualServerRoutes (gi_vsEx gi))).

Definition oidcNativeSessionZoneSize : string := "10m".
Definition oidcNativeSessionSyncDefaultTimeout : string := "8h".
Definition sessionZone (p : OIDCProviderCfg) : option KeyValZoneCfg :=
  if bool_decide (op_SessionStore p = "") then None
  else Some {| kvz_Name := op_SessionStore p; kvz_Size := oidcNativeSessionZoneSize; kvz_State := "";
               kvz_Sync := op_Sync p;
               kvz_Timeout := if op_Sync p && bool_decide (op_SessionTimeout p = "")
                              then oidcNativeSessionSyncDefaultTimeout else op_SessionTimeout p |}.

(** the configuration of what was generated *)
Definition assemble gi st : VirtualServerConfigCfg :=
  let vsc := gi_vsc gi in
  let vsEx := gi_vsEx gi in
  let vs := vsx_VirtualServer vsEx in
  let cfgParams := vsc_cfgParams vsc in
  let cfg := vg_policies st in
  let parts := vg_parts st in
  let maps := rp_Maps parts ++ ((λ kc, generateAPIKeyClientMap kc.1 kc.2)
                                  <$> range "GenerateVirtualServerConfig" (aka_ClientMap (pc_APIKey cfg))) in
  let providers := removeDuplicateOIDCProviders (vg_oidcProviders st) in
  {| vcfg_HTTPSnippets := generateSnippets (vsc_enableSnippets vsc) (vs_HTTPSnippets vs) [];
     vcfg_TwoWaySplitClients := rp_TwoWaySplitClients parts;
     vcfg_KeyValZones := rp_KeyValZones parts ++ omap sessionZone providers;
     vcfg_KeyVals := rp_KeyVals parts;
     vcfg_LimitReqZones := removeDuplicateLimitReqZones (vg_limitReqZones st);
     vcfg_Maps := removeDuplicateMaps maps;
     vcfg_AuthJWTClaimSets := removeDuplicateAuthJWTClaimSets (vg_authJWTClaimSets st);
     vcfg_OIDCProviders := providers;
     vcfg_CacheZones := vg_cacheZones st;
     vcfg_Server :=
       {| srv_ServerName := vs_Host vs; srv_StatusZone := vs_Host vs;
          srv_CustomListeners := bool_decide (is_Some (vs_Listener vs));
          srv_HTTPIPv4 := vsx_HTTPIPv4 vsEx; srv_HTTPIPv6 := vsx_HTTPIPv6 vsEx; srv_HTTPSIPv4 := vsx_HTTPSIPv4 vsEx;
          srv_HTTPSIPv6 := vsx_HTTPSIPv6 vsEx; srv_HTTPPort := vsx_HTTPPort vsEx; srv_HTTPSPort := vsx_HTTPSPort vsEx;
          srv_ProxyProtocol := cp_ProxyProtocol cfgParams; srv_SSL := gi_sslConfig gi;
          srv_ServerTokens := cp_ServerTokens cfgParams; srv_RealIPHeader := cp_RealIPHeader cfgParams;
          srv_SetRealIPFrom := cp_SetRealIPFrom cfgParams; srv_RealIPRecursive := cp_RealIPRecursive cfgParams;
          srv_Snippets := generateSnippets (vsc_enableSnippets vsc) (vs_ServerSnippets vs) (cp_ServerSnippets cfgParams);
          srv_InternalRedirectLocations := vg_internalRedirects st;
          srv_Locations := addHSTSToLocationsWithAddHeaders (pc_HSTS cfg) (rp_Locations parts);
          srv_ErrorPageLocations := vg_errorPageLocations st; srv_ReturnLocations := rp_ReturnLocations parts;
          srv_HealthChecks := ua_healthChecks (vg_upstreams st); srv_TLSRedirect := generateTLSRedirectConfig (vs_TLS vs);
          srv_TLSPassthrough := vsc_isTLSPassthrough vsc; srv_Allow := pc_Allow cfg; srv_Deny := pc_Deny cfg;
          srv_LimitReqOptions := rlcfg_Options (pc_RateLimit cfg); srv_LimitReqs := rlcfg_Reqs (pc_RateLimit cfg);
          srv_JWTAuth := jac_Auth (pc_JWTAuth cfg); srv_JWTAuthList := jac_List (pc_JWTAuth cfg);
          srv_JWKSAuthEnabled := jac_JWKSEnabled (pc_JWTAuth cfg); srv_ExternalAuth := pc_ExternalAuth cfg;
          srv_HSTS := pc_HSTS cfg; srv_ErrorPages := getServerErrorPages cfg; srv_BasicAuth := pc_BasicAuth cfg;
          srv_IngressMTLS := pc_IngressMTLS cfg; srv_EgressMTLS := pc_EgressMTLS cfg; srv_OIDC := pc_OIDC cfg;
          srv_OIDCProviderName := getOIDCProviderName cfg; srv_APIKey := aka_Key (pc_APIKey cfg);
          srv_APIKeyEnabled := aka_Enabled (pc_APIKey cfg); srv_WAF := pc_WAF cfg;
          srv_Dos := generateDosCfg (gi_dosResources gi !! ""); srv_Cache := pc_Cache cfg;
          srv_PoliciesErrorReturn := pc_ErrorReturn cfg; srv_VSNamespace := om_Namespace (vs_Meta vs);
          srv_VSName := om_Name (vs_Meta vs); srv_DisableIPV6 := vsc_isIPV6Disabled vsc; srv_Gunzip := vs_Gunzip vs;
          srv_NGINXDebugLevel := cp_MainErrorLogLevel cfgParams; srv_AddHeaderInherit := vs_AddHeaderInherit vs |};
     vcfg_SplitClients := rp_SplitClients parts;
     vcfg_StatusMatches := ua_statusMatches (vg_upstreams st);
     vcfg_Upstreams := sortSlice vu_Name (ua_upstreams (vg_upstreams st));
     vcfg_DynamicSSLReloadEnabled := vsc_DynamicSSLReloadEnabled vsc; vcfg_StaticSSLPath := vsc_StaticSSLPath vsc;
     vcfg_WallarmEnabled := cp_MainWallarmEnabled cfgParams; vcfg_WallarmAPIFwEnabled := cp_MainWallarmAPIFwEnabled cfgParams;
     vcfg_WallarmAPIFwPort := cp_MainWallarmAPIFwPort cfgParams |}.

Definition generateServer gi (apResources : appProtectPolicyResources) (w : Warnings) : option generation :=
  st ← generateSpec gi (initialGeneration gi apResources w);
  st ← addSpecExternalAuth gi (addUpstreams gi st);
  generateRoutes gi st.

Definition GenerateVirtualServerConfig (vsc : virtualServerConfigurator) (vsEx : VirtualServerEx)
    (apResources : appProtectPolicyResources) (dosResources : gmap string appProtectDosResource)
    : option (VirtualServerConfigCfg * Warnings) :=
  let vs := vsx_VirtualServer vsEx in
  '(sslConfig, w) ← generateSSLConfig vsc (OwnerVS vs) (vs_TLS vs) (om_Namespace (vs_Meta vs)) (vsx_SecretRefs vsEx)
                      (vsc_cfgParams vsc) ∅;
  let gi := {| gi_vsc := vsc; gi_vsEx := vsEx; gi_dosResources := dosResources; gi_sslConfig := sslConfig |} in
  st ← generateServer gi apResources w;
  Some (assemble gi st, vg_warnings st).
End Generate.
