(* ===== verification/VSPanicFree.v ===== *)
(** The generation of the configuration of a VirtualServer does not panic: actions,
    error pages and secrets that it dereferences are there when the resources
    passed validation and the controller collected the secrets. *)
From S2P Require Import Prelude GoStrings Regex Objects ConfigState Scenario ProxyBuffers.
From S2P Require Import ValidationLib HostValidation VSValidationCorrect SecretStore.
From S2P Require Import SecretStoreCorrect PolicyObjects PolicyConfig PolicyConfigCorrect.
From S2P Require Import Version2 ConfigParams VSUpstreams VSLocations VSRouting VSPolicies.
From S2P Require Import VSGenerate ParsingHelpers Resources Minions Hosts Changes.
From S2P Require Import Configuration Operations IngressValidation VSRouteValidation.
From S2P Require Import DeployedCorrect PolicyConfigAdd PolicyConfigGenerate PolicyConfigSpec.
From S2P Require Import PolicySecrets PolicySecretsCorrect PolicyPanicFree NginxManager.

(** A VirtualServer for the examples of the generation: the cafe, which splits the
    traffic of a route, and its VirtualServerRoute. *)

Module VSSample.
#[export] Existing Instance mergeSlices.
#[export] Existing Instance plainLabels.
#[export] Instance ascii : UnicodeTables := {| printTable := λ _, false |}.
Import PolicySample.

Definition configurator : virtualServerConfigurator :=
  {| vsc_cfgParams := NewDefaultConfigParams false; vsc_isPlus := false; vsc_isWildcardEnabled := false;
     vsc_isResolverConfigured := false; vsc_isTLSPassthrough := false; vsc_enableSnippets := false;
     vsc_isIPV6Disabled := false; vsc_DynamicSSLReloadEnabled := false; vsc_StaticSSLPath := "";
     vsc_CABundlePath := ""; vsc_DynamicWeightChangesReload := false; vsc_bundleValidator := λ b, (b, None);
     vsc_IngressControllerReplicas := 1; vsc_plmEnabled := false |}.
Definition noAppProtect : appProtectPolicyResources := {| apr_Policies := ∅; apr_LogConfs := ∅ |}.

Definition extended (vs : VirtualServer) (vsrs : list VirtualServerRoute) (pm : gmap string Policy)
    (refs : gmap string SecretReference) : VirtualServerEx :=
  {| vsx_VirtualServer := vs; vsx_HTTPPort := 0; vsx_HTTPSPort := 0; vsx_HTTPIPv4 := ""; vsx_HTTPIPv6 := "";
     vsx_HTTPSIPv4 := ""; vsx_HTTPSIPv6 := "";
     vsx_Endpoints := {["default/tea-svc:80" := Some ["10.0.0.2:80"; "10.0.0.1:80"]]};
     vsx_VirtualServerRoutes := vsrs; vsx_VirtualServerSelectorRoutes := ∅; vsx_ExternalNameSvcs := ∅;
     vsx_Policies := pm; vsx_SecretRefs := refs; vsx_ZoneSync := false |}.

Definition generate (vs : VirtualServer) (vsrs : list VirtualServerRoute) : option VirtualServerConfigCfg :=
  fst <$> GenerateVirtualServerConfig configurator (extended vs vsrs ∅ ∅) noAppProtect ∅.

Example cafe_generated :
  (λ cfg, (vu_Name <$> vcfg_Upstreams cfg, loc_Path <$> srv_Locations (vcfg_Server cfg),
           irl_Path <$> srv_InternalRedirectLocations (vcfg_Server cfg))) <$> generate cafeVS [deliVSR]
  = Some (["vs_default_cafe_coffee"; "vs_default_cafe_tea"; "vs_default_cafe_vsr_default_deli_soup"],
          ["/tea"; "/internal_location_splits_0_split_0"; "/internal_location_splits_0_split_1"; "/deli/soup"],
          ["/both"]).
Proof. vm_compute. reflexivity. Qed.
End VSSample.

(** ** Routes that can be generated *)

(** What the generation dereferences in a route that has locations of its own *)
Record routable (r : Route) : Prop := {
  rb_target : r_Splits r = [] → is_Some (r_Action r);
  rb_matches m : m ∈ r_Matches r → mt_Splits m = [] → is_Some (mt_Action m);
  rb_splits s : s ∈ r_Splits r → is_Some (sp_Action s);
  rb_matchSplits m s : m ∈ r_Matches r → s ∈ mt_Splits m → is_Some (sp_Action s)
}.
Definition pagesOk (pages : option (list ErrorPage)) : Prop := ∀ e, e ∈ default [] pages → wf_errorPage e.

Lemma wf_route_routable names forbidden r :
  wf_route names forbidden r → r_RouteSelector r = None → r_Route r = "" → routable r.
Proof.
  intros Hwf Hsel Hroute.
  assert (∀ splits s, wf_splits splits → s ∈ splits → is_Some (sp_Action s)) as Hsplit.
  { intros splits s Hw Hs. destruct (Hw ltac:(by intros ->; apply elem_of_nil in Hs)) as (_ & _ & Hall).
    by apply Hall. }
  split.
  - intros Hs. pose proof (wr_one _ _ _ Hwf) as Hone. unfold routeFieldCount in Hone.
    rewrite Hs, Hsel, Hroute in Hone. destruct (r_Action r); [by eexists|]. by destruct forbidden.
  - intros m Hm. by apply (wr_matches _ _ _ Hwf) in Hm as (_ & _ & ?).
  - intros s. apply Hsplit, (wr_splits _ _ _ Hwf).
  - intros m s Hm. apply (wr_matches _ _ _ Hwf) in Hm as (_ & Hw & _). by apply Hsplit.
Qed.

(** ** Folds that succeed *)
Lemma foldM_is_Some {A B} (P : A → Prop) (f : A → B → option A) a l :
  (∀ a b, P a → b ∈ l → ∃ a', f a b = Some a' ∧ P a') → P a → ∃ a', foldM f a l = Some a' ∧ P a'.
Proof.
  revert a. induction l as [|b l IH]; intros a Hf Ha; [by exists a|]. rewrite foldM_cons.
  destruct (Hf a b Ha) as (a1 & -> & Ha1); [by left|]. simpl. apply IH; [|done].
  intros a2 b2 H2 Hb. apply Hf; [done|by right].
Qed.
Lemma elem_of_imap_pair {A} (l : list A) i x : (i, x) ∈ imap pair l → l !! i = Some x.
Proof. intros (j & y & [= -> ->] & Hy)%elem_of_lookup_imap. done. Qed.

(** ** Locations *)
Lemma generateErrorPages_total idx pages : (∀ e, e ∈ pages → wf_errorPage e) → is_Some (generateErrorPages idx pages).
Proof.
  intros Hp. apply mapM_is_Some_2, Forall_forall. intros [i e] He%elem_of_imap_pair%list_elem_of_lookup_2%Hp.
  unfold wf_errorPage in He. simpl. unfold generateErrorPage. destruct (ep_Redirect e); [by eexists|].
  destruct He as [ret ->]. by eexists.
Qed.
Lemma generateErrorPageLocations_total idx pages :
  (∀ e, e ∈ pages → wf_errorPage e) → is_Some (generateErrorPageLocations idx pages).
Proof.
  intros Hp. unfold generateErrorPageLocations. apply fmap_is_Some, mapM_is_Some_2, Forall_forall.
  intros [i e] He%elem_of_imap_pair%list_elem_of_lookup_2%Hp.
  unfold wf_errorPage in He. simpl. unfold generateErrorPageLocation. destruct (ep_Redirect e); [by eexists|].
  destruct He as [ret ->]. by eexists.
Qed.

Section Locations.
Context `{UL : UnicodeLower}.
Implicit Types rx : routingContext.

Definition contextOk rx : Prop := pagesOk (epd_pages (lc_errorPages (rx_locations rx))).

Lemma actionLocation_total rx internal path action idx w :
  contextOk rx → is_Some action → ∃ loc ret w', actionLocation rx internal path action idx w = Some (loc, ret, w').
Proof.
  intros Hc [a ->]. unfold actionLocation. cbn [mbind option_bind]. unfold generateLocation.
  destruct (a_Redirect a); [by do 3 eexists|]. destruct (a_Return a); [by do 3 eexists|].
  unfold generateLocationForProxying. cbv zeta.
  destruct (generateErrorPages_total (epd_index (lc_errorPages (rx_locations rx))) _ Hc) as [pages ->]. by do 3 eexists.
Qed.

Lemma generateSplits_total rx splits sc idx w :
  contextOk rx → (∀ s, s ∈ splits → is_Some (sp_Action s)) → ∃ p w', generateSplits rx splits sc idx w = Some (p, w').
Proof.
  intros Hc Hs. unfold generateSplits.
  destruct (foldM_is_Some (λ _, True) (addSplitLocation rx sc idx) ([], [], w) (imap pair splits))
    as ([[locs rets] w'] & -> & _); [|done|by do 2 eexists].
  intros [[locs rets] w1] [i s] _ Hi%elem_of_imap_pair%list_elem_of_lookup_2. simpl.
  destruct (actionLocation_total rx true (splitLocationPath sc (Z.of_nat i)) (sp_Action s)
    (idx + Z.of_nat (length rets)) w1 Hc (Hs s Hi)) as (loc & ret & w2 & ->). by eexists.
Qed.

Lemma addTarget_total rx path splits action sc scl idx parts w :
  contextOk rx → (splits = [] → is_Some action) → (∀ s, s ∈ splits → is_Some (sp_Action s)) →
  ∃ p n w', addTarget rx path splits action sc scl idx parts w = Some (p, n, w').
Proof.
  intros Hc Ha Hs. unfold addTarget. cbv zeta. destruct splits as [|s splits].
  - edestruct (actionLocation_total rx true path action) as (loc & ret & w2 & ->); [done|by apply Ha|]. by do 3 eexists.
  - edestruct (generateSplits_total rx (s :: splits)) as (p & w' & ->); [done|done|]. by do 3 eexists.
Qed.

Lemma generateRouting_total rx r n sc idx w :
  contextOk rx → routable r → ∃ p red w', generateRouting rx r n sc idx w = Some (p, red, w').
Proof.
  intros Hc Hr. unfold generateRouting. destruct (r_Matches r) as [|m ms] eqn:Hm.
  - destruct (r_Splits r) as [|s ss] eqn:Hs.
    + edestruct (actionLocation_total rx false (r_Path r) (r_Action r)) as (loc & ret & w2 & ->);
        [done|by apply rb_target|]. by do 3 eexists.
    + unfold generateDefaultSplitsConfig.
      edestruct (generateSplits_total rx (r_Splits r)) as (p & w' & ->); [done|by apply rb_splits|]. by do 3 eexists.
  - unfold generateMatchesConfig. cbv zeta.
    destruct (foldM_is_Some (λ _, True) (addMatch rx n sc idx)
      (onlyMaps (conditionMaps (rx_variableNamer rx) n (r_Matches r)
                 ++ [mainMap (rx_variableNamer rx) (rx_dynamic rx) n sc r]), 0%Z, w)
      (imap pair (r_Matches r))) as ([[parts scl] w'] & -> & _); [|done|].
    + intros [[parts scl] w1] [i m'] _ Hi%elem_of_imap_pair%list_elem_of_lookup_2. simpl.
      edestruct (addTarget_total rx) as (p & k & w2 & Ht);
        [done|by apply (rb_matches r)|by intros s Hs; eapply (rb_matchSplits r)|]. by eexists.
    + cbn [mbind option_bind].
      edestruct (addTarget_total rx (matchDefaultPath n) (r_Splits r) (r_Action r)) as (p & k & w2 & ->);
        [done|by apply rb_target|by apply rb_splits|]. by do 3 eexists.
Qed.
End Locations.

(** ** The policies of a context *)
Section Policies.
Context `{UL : URLLib} `{LT : UnicodeLower} `{PL : PolicyLib} `{MR : MapRange}.
Implicit Types (ctx : policyContext) (sm : sharedMaps) (pol : Policy) (p cfg : policiesCfg).

(** what the configuration of a server dereferences in the policies of a context *)
Record authOk cfg : Prop := {
  ao_external ea : pc_ExternalAuth cfg = Some ea → is_Some (vea_URI ea);
  ao_jwks : jac_JWKSEnabled (pc_JWTAuth cfg) = true → is_Some (jac_Auth (pc_JWTAuth cfg));
  ao_apiKey : aka_Enabled (pc_APIKey cfg) = true → is_Some (aka_Key (pc_APIKey cfg))
}.
Lemma authOk_new : authOk newPoliciesConfig.
Proof. by split. Qed.
Lemma authOk_error : authOk errorConfig.
Proof. by split. Qed.

Lemma policyAdded_authOk ctx key ns pol p p' : policyAdded ctx key ns pol p p' → authOk p → authOk p'.
Proof.
  unfold policyAdded. intros H [He Hj Ha]. kind_cases; unfold rateLimitAdded, corsAdded in *; effect_cases; split; try done.
  all: simpl; intros; try (by eexists); try (by eapply He).
  - simplify_eq. unfold externalAuthConfigured in *. naive_solver.
  - unfold apiKeyConfigured in *. naive_solver.
Qed.

Lemma addPolicies_authOk ctx refs p w sm p' w' sm' :
  addPolicies ctx refs p w sm = Some (inr p', w', sm') → authOk p → authOk p'.
Proof.
  revert p w sm. induction refs as [|r refs IH]; intros p w sm H Hp; [simpl in H; by simplify_eq|].
  apply addPolicies_cons in H as (pol & p1 & w1 & sm1 & _ & _ & Hadd & _ & H).
  eapply IH; [done|]. by eapply policyAdded_authOk.
Qed.

Lemma addPolicies_migrated ctx refs p w sm r w' sm' :
  addPolicies ctx refs p w sm = Some (r, w', sm') → migrated sm sm'.
Proof.
  revert p w sm. induction refs as [|rf refs IH]; intros p w sm H; [simpl in H; by simplify_eq|]. simpl in H.
  case_match eqn:Hk; [|by simplify_eq]. case_match; [by simplify_eq|].
  apply bind_Some in H as ([[p1 res] sm1] & Hadd & H). apply addPolicy_migrated in Hadd; [|done].
  case_match; [by simplify_eq|]. etrans; [done|by eapply IH].
Qed.

Lemma generatePolicies_ok ctx refs sm cfg w sm' :
  generatePolicies ctx refs sm = Some (cfg, w, sm') → authOk cfg ∧ migrated sm sm'.
Proof.
  unfold generatePolicies. intros H. apply bind_Some in H as ([[[c|p] w1] sm1] & Hadd & H).
  - pose proof (addPolicies_error _ _ _ _ _ _ _ _ Hadd) as [-> _]. apply addPolicies_migrated in Hadd.
    simplify_eq. split; [apply authOk_error|done].
  - pose proof (addPolicies_migrated _ _ _ _ _ _ _ _ Hadd). apply addPolicies_authOk in Hadd; [|apply authOk_new].
    repeat case_match; simplify_eq; split; try done; apply authOk_error || (by destruct Hadd; split).
Qed.

Lemma generatePolicies_nil ctx sm : is_Some (generatePolicies ctx [] sm).
Proof. by eexists. Qed.
End Policies.

(** ** The steps of the generation *)
Section Generation.
Context `{UL : URLLib} `{LT : UnicodeLower} `{PL : PolicyLib} `{MR : MapRange} `{UT : UnicodeTables}.
Context `{LS : LabelSets} `{SS : SliceSort} `{LSel : LabelSelectors}.
Context (gi : generationInput) (pm : gmap string Policy).
Notation vsEx := (gi_vsEx gi).
Notation vs := (vsx_VirtualServer vsEx).
Notation allContexts := (contexts vs (vsx_VirtualServerRoutes vsEx)).
Notation filed := {| sm_locations := None; sm_policies := pm |}.
Implicit Types (st : generation) (cfg : policiesCfg).

(** the policies of every context can be generated *)
Context (Hpolicies : ∀ ctx refs sm, (refs, od_ownerNamespace (ctx_owner ctx)) ∈ allContexts →
  po_secretRefs (ctx_opts ctx) = vsx_SecretRefs vsEx → migrated filed sm → is_Some (generatePolicies ctx refs sm)).

Record genOk st : Prop := {
  go_refs : po_secretRefs (vg_opts st) = vsx_SecretRefs vsEx;
  go_shared : migrated filed (vg_shared st);
  go_external ea : pc_ExternalAuth (vg_policies st) = Some ea → is_Some (vea_URI ea);
  go_policies name refs : vi_Policies (vg_inherited st) !! name = Some refs → (refs, om_Namespace (vs_Meta vs)) ∈ allContexts;
  go_pages name pages idx : vi_ErrorPages (vg_inherited st) !! name = Some (pages, idx) → pagesOk pages
}.
Ltac frame_ok := match goal with H : genOk _ |- genOk _ => destruct H; split; try done end.

Lemma runPolicies_ok owner refs context path st :
  genOk st → refs = [] ∨ (refs, om_Namespace (ownerMeta owner)) ∈ allContexts →
  ∃ cfg st', runPolicies gi owner refs context path st = Some (cfg, st') ∧ authOk cfg ∧ genOk st' ∧
    vg_policies st' = vg_policies st.
Proof.
  intros Hst Hrefs. unfold runPolicies. cbv zeta.
  assert (is_Some (generatePolicies {| ctx_owner := ownerDetails vs owner; ctx_context := context; ctx_path := path;
    ctx_opts := vg_opts st; ctx_bundles := vsc_bundleValidator (gi_vsc gi) |} refs (vg_shared st))) as [[[cfg w] sm] Hg].
  { destruct Hrefs as [->|Hin]; [apply generatePolicies_nil|]. apply Hpolicies; [done|apply Hst..]. }
  rewrite Hg. simpl. apply generatePolicies_ok in Hg as [Hcfg Hm]. do 2 eexists. split_and!; [done|done| |done].
  frame_ok. simpl. by etrans.
Qed.

Lemma recordAuthentication_ok cfg st :
  authOk cfg → genOk st → ∃ st', recordAuthentication cfg st = Some st' ∧ genOk st'.
Proof.
  intros [_ Hj Ha] Hst. unfold recordAuthentication.
  assert (∃ st', (if jac_JWKSEnabled (pc_JWTAuth cfg) then auth ← jac_Auth (pc_JWTAuth cfg);
      Some (vg_set_policies (withJWKS (vjwt_Key auth) auth (vg_policies st)) st) else Some st) = Some st' ∧ genOk st')
    as (st1 & -> & Hst1).
  { destruct (jac_JWKSEnabled _); [|by eexists]. destruct (Hj eq_refl) as [auth ->]. eexists. split; [done|]. frame_ok. }
  simpl. destruct (aka_Enabled _); [|by eexists]. destruct (Ha eq_refl) as [key ->]. eexists. split; [done|]. frame_ok.
Qed.

Lemma recordPolicies_ok cfg st : genOk st → genOk (recordPolicies cfg st).
Proof. intros Hst. frame_ok. Qed.

Lemma generateExternalAuth_ok owner namer ea uri st : genOk st → genOk (generateExternalAuth gi owner namer ea uri st).
Proof.
  intros Hst. unfold generateExternalAuth. cbv zeta. destruct (getExAuthServicePort _ _ _ _).
  destruct (generateUpstreams _ _ _ _ _ _ _ _ _). case_bool_decide; [frame_ok|]. case_match; frame_ok.
Qed.

Lemma addRouteExternalAuth_ok owner namer path cfg st :
  authOk cfg → genOk st → ∃ st', addRouteExternalAuth gi owner namer path cfg st = Some st' ∧ genOk st'.
Proof.
  intros [He _ _] Hst. unfold addRouteExternalAuth. destruct (pc_ExternalAuth cfg) as [ea|]; [|by eexists].
  destruct (He ea eq_refl) as [uri ->]. simpl. case_bool_decide; eexists; (split; [done|]).
  - frame_ok.
  - by apply generateExternalAuth_ok.
Qed.

Lemma addRouting_ok rs r cfg st :
  genOk st → routable r → pagesOk (epd_pages (rs_errorPages rs)) → ∃ st', addRouting gi rs r cfg st = Some st' ∧ genOk st'.
Proof.
  intros Hst Hr Hp. unfold addRouting. cbv zeta.
  edestruct (generateRouting_total (withUpstreams (ua_crUpstreams (vg_upstreams st)) (routingOf gi rs r)) r)
    as (p & red & w & Heq); [|done|].
  { unfold contextOk, routingOf. simpl. destruct (rs_owner rs); done. }
  rewrite Heq. simpl. destruct (r_Matches r); eexists; (split; [done|]); frame_ok.
Qed.

Lemma generateRoute_ok b rs r st :
  genOk st → routable r → pagesOk (epd_pages (rs_errorPages rs)) →
  rs_policyRefs rs = [] ∨ (rs_policyRefs rs, om_Namespace (ownerMeta (rs_policyOwner rs))) ∈ allContexts →
  ∃ st', generateRoute gi b rs r st = Some st' ∧ genOk st'.
Proof.
  intros Hst Hr Hp Hrefs. unfold generateRoute.
  destruct (runPolicies_ok (rs_policyOwner rs) _ (rs_context rs) (r_Path r) st Hst Hrefs) as (cfg & st1 & -> & Hcfg & Hst1 & _).
  cbn [mbind option_bind]. cbv zeta.
  assert (authOk (inheritCORS st1 cfg)) as Hcfg1 by (unfold inheritCORS; case_match; [by destruct Hcfg; split|done]).
  destruct (inheritOIDC b (inheritCORS st1 cfg) st1) as [cfg2 st2] eqn:Ho.
  assert (authOk cfg2 ∧ genOk st2) as [Hcfg2 Hst2].
  { unfold inheritOIDC in Ho. repeat case_match; simplify_eq; split; try done; first [frame_ok | by destruct Hcfg1; split]. }
  destruct (recordAuthentication_ok cfg2 st2 Hcfg2 Hst2) as (st3 & -> & Hst3). cbn [mbind option_bind].
  destruct (addRouteExternalAuth_ok (rs_owner rs) (rs_namer rs) (r_Path r) cfg2 st3 Hcfg2 Hst3) as (st4 & -> & Hst4).
  cbn [mbind option_bind]. apply addRouting_ok; [by apply recordPolicies_ok|done..].
Qed.

Lemma addErrorPages_ok owner r st :
  genOk st → pagesOk (r_ErrorPages r) → ∃ ep st', addErrorPages owner r st = Some (ep, st') ∧ genOk st' ∧
    pagesOk (epd_pages ep) ∧ vg_inherited st' = vg_inherited st.
Proof.
  intros Hst Hp. unfold addErrorPages. cbv zeta.
  edestruct generateErrorPageLocations_total as [locs Heq]; [exact Hp|]. simpl. rewrite Heq. simpl.
  do 2 eexists. split_and!; [done| |done|done]. frame_ok.
Qed.

Lemma assignAll_Some {A} isSet names (v : A) (m : gmap string A) k x :
  assignAll isSet names v m !! k = Some x → (isSet = true ∧ x = v) ∨ m !! k = Some x.
Proof.
  unfold assignAll. destruct isSet; [|by right]. revert m. induction names as [|n names IH]; intros m; simpl; [by right|].
  intros [[_ ->]|H]%IH; [by left|]. apply lookup_insert_Some in H as [[_ <-]|[_ H]]; auto.
Qed.
Lemma recordInherited_ok names r ep st :
  genOk st → pagesOk (epd_pages ep) → r ∈ vs_Routes vs →
  genOk (vg_set_inherited (recordInherited names r ep (vg_inherited st)) st).
Proof.
  intros Hst Hp Hr. destruct Hst. split; try done; simpl.
  - intros name refs [[_ ->]|H]%assignAll_Some; [|by eapply go_policies0].
    right. apply elem_of_app. left. apply list_elem_of_fmap. by exists r.
  - intros name pages idx [[_ [= -> ->]]|H]%assignAll_Some; [done|by eapply go_pages0].
Qed.

Context (Hroutes : ∀ r, r ∈ vs_Routes vs →
  pagesOk (r_ErrorPages r) ∧ (r_Route r = "" → r_RouteSelector r = None → routable r)).
Context (Hsubroutes : ∀ vsr r, vsr ∈ vsx_VirtualServerRoutes vsEx → r ∈ vsr_Subroutes vsr →
  pagesOk (r_ErrorPages r) ∧ routable r).

Lemma generateVSRoute_ok b st r :
  genOk st → r ∈ vs_Routes vs → ∃ st', generateVSRoute gi b st r = Some st' ∧ genOk st'.
Proof.
  intros Hst Hr. destruct (Hroutes r Hr) as [Hp Hrt]. unfold generateVSRoute. cbv zeta.
  destruct (addErrorPages_ok (OwnerVS vs) r st Hst Hp) as (ep & st1 & -> & Hst1 & Hp1 & _). cbn [mbind option_bind].
  case_bool_decide as Hroute; simpl; [|eexists; split; [done|]; by apply recordInherited_ok].
  destruct (r_RouteSelector r) as [sel|] eqn:Hsel.
  - destruct (LabelSelectorAsSelector sel) as [err|[key ?]]; eexists; (split; [done|]); [frame_ok|by apply recordInherited_ok].
  - apply generateRoute_ok; [done|by apply Hrt|done|]. right. simpl. right. apply elem_of_app. left.
    apply list_elem_of_fmap. by exists r.
Qed.

Lemma generateSubroute_ok b i vsr st r :
  genOk st → vsr ∈ vsx_VirtualServerRoutes vsEx → r ∈ vsr_Subroutes vsr →
  ∃ st', generateSubroute gi b i vsr st r = Some st' ∧ genOk st'.
Proof.
  intros Hst Hvsr Hr. destruct (Hsubroutes vsr r Hvsr Hr) as [Hp Hrt]. unfold generateSubroute. cbv zeta.
  destruct (addErrorPages_ok (OwnerVSR i vsr) r st Hst Hp) as (ep & st1 & -> & Hst1 & Hp1 & _). cbn [mbind option_bind].
  set (key := om_Namespace (vsr_Meta vsr) +:+ "/" +:+ om_Name (vsr_Meta vsr)).
  set (ep' := match r_ErrorPages r with Some _ => ep | None => _ end).
  assert (pagesOk (epd_pages ep')) as Hp2.
  { subst ep'. destruct (r_ErrorPages r); [done|]. case_match eqn:Hi; [|done]. case_match. subst.
    by eapply (go_pages st1 Hst1). }
  destruct (r_Policies r) as [|rf rfs] eqn:Hpol.
  - apply generateRoute_ok; [done..|]. simpl. destruct (vi_Policies (vg_inherited st1) !! key) eqn:Hi; [|by left].
    right. by eapply (go_policies st1 Hst1).
  - apply generateRoute_ok; [done..|]. right. simpl. right. apply elem_of_app. right.
    apply list_elem_of_bind. exists vsr. split; [|done]. apply list_elem_of_fmap. exists r. by rewrite Hpol.
Qed.

Lemma generateRoutes_ok st : genOk st → is_Some (generateRoutes gi st).
Proof.
  intros Hst. unfold generateRoutes. cbv zeta.
  destruct (foldM_is_Some genOk (generateVSRoute gi (bool_decide (is_Some (pc_OIDC (vg_policies st))))) st (vs_Routes vs))
    as (st1 & -> & Hst1); [by intros; apply generateVSRoute_ok|done|]. cbn [mbind option_bind].
  match goal with |- is_Some (foldM ?f _ ?l) => destruct (foldM_is_Some genOk f st1 l) as (st2 & -> & _) end;
    [|done|by eexists].
  intros st2 [i vsr] Hst2 Hi%elem_of_imap_pair%list_elem_of_lookup_2. simpl.
  apply foldM_is_Some; [|done]. intros st3 r Hst3 Hr. by apply generateSubroute_ok.
Qed.

Lemma addUpstream_ok owner namer st u : genOk st → genOk (addUpstream gi owner namer st u).
Proof. intros Hst. unfold addUpstream. destruct (generateUpstreams _ _ _ _ _ _ _ _ _). frame_ok. Qed.
Lemma foldl_ok {B} (f : generation → B → generation) st l :
  (∀ st b, genOk st → genOk (f st b)) → genOk st → genOk (foldl f st l).
Proof. intros Hf. revert st. induction l as [|b l IH]; intros st Hst; [done|]. simpl. by apply IH, Hf. Qed.
Lemma addUpstreams_ok st : genOk st → genOk (addUpstreams gi st).
Proof.
  intros Hst. unfold addUpstreams. cbv zeta. apply foldl_ok.
  - intros st' [i vsr] Hst'. apply foldl_ok; [|done]. intros. by apply addUpstream_ok.
  - apply foldl_ok; [|done]. intros. by apply addUpstream_ok.
Qed.

Lemma generateServer_total ap w : vsx_Policies vsEx = pm → is_Some (generateServer gi ap w).
Proof.
  intros Hpm. unfold generateServer.
  assert (genOk (initialGeneration gi ap w)) as H0.
  { split; try done; simpl. rewrite Hpm. intros k. by left. }
  unfold generateSpec. cbv zeta.
  destruct (runPolicies_ok (OwnerVS vs) (vs_Policies vs) specContext "/" _ H0) as (cfg & st1 & -> & Hcfg & Hst1 & _);
    [by right; left|]. cbn [mbind option_bind].
  set (st2 := match pc_OIDC cfg with Some _ => _ | None => _ end).
  assert (genOk st2) as Hst2.
  { subst st2. destruct Hst1, (pc_OIDC cfg); split; simpl; try done; apply Hcfg. }
  destruct (recordAuthentication_ok cfg st2 Hcfg Hst2) as (st3 & -> & Hst3). cbn [mbind option_bind].
  unfold addSpecExternalAuth. cbv zeta.
  pose proof (addUpstreams_ok _ (recordPolicies_ok cfg st3 Hst3)) as Hst4. revert Hst4.
  generalize (addUpstreams gi (recordPolicies cfg st3)). intros st4 Hst4.
  destruct (pc_ExternalAuth (vg_policies st4)) as [ea|] eqn:He.
  - destruct (go_external st4 Hst4 ea He) as [uri ->]. cbn [mbind option_bind].
    apply generateRoutes_ok. by apply generateExternalAuth_ok.
  - cbn [mbind option_bind]. by apply generateRoutes_ok.
Qed.
End Generation.

(** ** Deployed VirtualServers *)
Lemma generateSSLConfig_total vsc owner tls ns refs cfgParams w :
  (∀ t, tls = Some t → tls_Secret t ≠ "" → keyOf ns (tls_Secret t) ∈ dom refs) →
  ∃ ssl w', generateSSLConfig vsc owner tls ns refs cfgParams w = Some (ssl, w').
Proof.
  intros Ht. unfold generateSSLConfig. cbv zeta. destruct tls as [t|]; [|by do 2 eexists].
  case_bool_decide as He; [by do 2 eexists|].
  destruct (proj1 (elem_of_dom _ _) (Ht t eq_refl He)) as [ref ->]. simpl. repeat case_match; by do 2 eexists.
Qed.

(** the VirtualServerRoute of an ACME challenge *)
Lemma challenge_routable o ing vsr r :
  convertIngressToVSR o ing = Some (Some vsr) → r ∈ vsr_Subroutes vsr → pagesOk (r_ErrorPages r) ∧ routable r.
Proof.
  unfold convertIngressToVSR. intros H Hr. apply bind_Some in H as (rule & _ & H). case_match; [done|].
  apply bind_Some in H as (paths & _ & H). apply bind_Some in H as (p & _ & H). apply bind_Some in H as (svc & _ & H).
  simplify_eq. apply list_elem_of_singleton in Hr as ->. split; [by intros e ?%elem_of_nil|].
  split; [by eexists|by intros m ?%elem_of_nil|by intros m ?%elem_of_nil|by intros m s ?%elem_of_nil].
Qed.

Section DeployedGeneration.
Context `{UT : UnicodeTables} `{LT : UnicodeLower} `{PL : PolicyLib} `{UL : URLLib} `{LSet : LabelSets} `{SS : SliceSort}.

(** What validation leaves to the generation *)
Lemma GenerateVirtualServerConfig_total `{MR : MapRange} `{LSel : LabelSelectors} vsc vsEx ap dos :
  let vs := vsx_VirtualServer vsEx in
  let vsrs := vsx_VirtualServerRoutes vsEx in
  (∀ r, r ∈ vs_Routes vs → pagesOk (r_ErrorPages r) ∧ (r_Route r = "" → r_RouteSelector r = None → routable r)) →
  (∀ vsr r, vsr ∈ vsrs → r ∈ vsr_Subroutes vsr → pagesOk (r_ErrorPages r) ∧ routable r) →
  (∀ tls, vs_TLS vs = Some tls → tls_Secret tls ≠ "" →
     keyOf (om_Namespace (vs_Meta vs)) (tls_Secret tls) ∈ dom (vsx_SecretRefs vsEx)) →
  (∀ ctx refs sm, (refs, od_ownerNamespace (ctx_owner ctx)) ∈ contexts vs vsrs →
     po_secretRefs (ctx_opts ctx) = vsx_SecretRefs vsEx →
     migrated {| sm_locations := None; sm_policies := vsx_Policies vsEx |} sm → is_Some (generatePolicies ctx refs sm)) →
  is_Some (GenerateVirtualServerConfig vsc vsEx ap dos).
Proof.
  cbv zeta. intros Hr Hs Ht Hp. unfold GenerateVirtualServerConfig. cbv zeta.
  destruct (generateSSLConfig_total vsc (OwnerVS (vsx_VirtualServer vsEx)) _ _ _ (vsc_cfgParams vsc) ∅ Ht)
    as (ssl & w & ->). cbn [mbind option_bind].
  destruct (generateServer_total {| gi_vsc := vsc; gi_vsEx := vsEx; gi_dosResources := dos; gi_sslConfig := ssl |}
              (vsx_Policies vsEx) Hp Hr Hs ap w eq_refl) as [st ->]. by eexists.
Qed.

Context `{MR : MapRange} `{P : IngressValidatorParams} `{LL : !ValidationLaws} `{LSel : LabelSelectors}.
Context `{Crypto : CryptoAPI} {F : Type} `{FM : !SecretFileManager F} `{SPC : !SecretPathsContract F}.
Variable opts : ControllerOptions.
#[local] Instance deployedValidators : Validators := repositoryValidators opts.

(** C9.  From the deployed resources to the configuration without a panic.
    With the repository's validators, after startup, take a VirtualServer that owns a
    host in a reachable configuration, whatever secrets were added to the store,
    updated and deleted, and whatever policies the informers hold.  With the
    policies and secrets that createVirtualServerEx collects for it and its
    VirtualServerRoutes, GenerateVirtualServerConfig returns a configuration,
    whatever the endpoints, the parameters and the App Protect resources: no
    action, returned page, secret, key or URI that it dereferences is nil.  The one
    condition on the resources is that no subroute carries a routeSelector, which
    validation lets through.  (Kubernetes names hold no slash; file paths of
    secrets hold no white space.) *)
Theorem virtualServer_generation_never_panics fl c host l conf lister ops (files : F) :
  reachable fl c → c_startupComplete c = true →
  c_hosts c !! host = Some l → c_store c !! l = Some (RVirtualServer conf) →
  let vs := vsc_VirtualServer conf in
  let vsrs := vsc_VirtualServerRoutes conf in
  (∀ vsr r, vsr ∈ vsrs → r ∈ vsr_Subroutes vsr → r_RouteSelector r = None) →
  listerOk lister → (∀ s, OpAdd s ∈ ops → named_secret s) →
  (∀ cx, cx ∈ contexts vs vsrs → referencesOk cx.1 cx.2) →
  ∃ store pm rd, foldM storeStep (NewLocalSecretStore files) ops = Some store ∧
    createVirtualServerEx_secrets lister vs vsrs store = Some (pm, rd) ∧
    ∀ vsc vsEx ap dos, vsx_VirtualServer vsEx = vs → vsx_VirtualServerRoutes vsEx = vsrs →
      vsx_Policies vsEx = pm → vsx_SecretRefs vsEx = rd.2 →
      is_Some (GenerateVirtualServerConfig vsc vsEx ap dos).
Proof.
  intros Hreach Hstart Hhost Hl vs vsrs Hsel Hlister Hnamed Hrefs.
  destruct (deployed_wf opts fl c host l conf Hreach Hstart Hhost Hl) as [Hwf Hvsrs].
  destruct (collected_policies_generate lister vs vsrs ops files Hlister Hnamed Hrefs)
    as (store & pm & rd & Hst & Hex & Htls & Hgen).
  exists store, pm, rd. split_and!; [done..|]. intros vsc vsEx ap dos Hvs Hvsr <- Hrd.
  apply GenerateVirtualServerConfig_total; cbv zeta; rewrite ?Hvs, ?Hvsr, ?Hrd; [| |exact Htls|exact Hgen].
  - intros r Hr. pose proof (wv_routes _ Hwf r Hr) as Hw. split; [exact (wr_errorPages _ _ _ Hw)|]. intros. by eapply wf_route_routable.
  - intros vsr r Hin Hr. destruct (Hvsrs vsr Hin) as [(vsrKey & paths & _ & _ & Hv)|(_ & key & ing & _ & _ & Hc)].
    + pose proof (wvr_routes _ _ _ Hv r Hr) as Hw. split; [exact (wr_errorPages _ _ _ Hw)|].
      eapply wf_route_routable; [done|by eapply Hsel|by apply (wr_subroute _ _ _ Hw)].
    + by eapply challenge_routable.
Qed.
End DeployedGeneration.

(** ** What validation lets through *)
Lemma foldM_None {A B} (f : A → B → option A) a b l : b ∈ l → (∀ a, f a b = None) → foldM f a l = None.
Proof.
  intros Hb Hf. revert a. induction Hb as [b l|b c l Hb IH]; intros a; rewrite foldM_cons; [by rewrite Hf|].
  destruct (f a c); [by apply IH|done].
Qed.

Section Untargeted.
Context `{UL : URLLib} `{LT : UnicodeLower} `{PL : PolicyLib} `{MR : MapRange} `{UT : UnicodeTables}.
Context `{LS : LabelSets} `{SS : SliceSort} `{LSel : LabelSelectors}.

Lemma generateRoute_untargeted gi b rs r st :
  r_Action r = None → r_Splits r = [] → r_Matches r = [] → generateRoute gi b rs r st = None.
Proof.
  intros Ha Hs Hm. unfold generateRoute.
  destruct (runPolicies _ _ _ _ _ _) as [[cfg st1]|]; [|done]. cbn [mbind option_bind]. cbv zeta.
  destruct (inheritOIDC _ _ _) as [cfg2 st2].
  destruct (recordAuthentication _ _) as [st3|]; [|done]. cbn [mbind option_bind].
  destruct (addRouteExternalAuth _ _ _ _ _ _) as [st4|]; [|done]. cbn [mbind option_bind].
  unfold addRouting, generateRouting. rewrite Hm, Hs, Ha. done.
Qed.

(** C18.  A subroute with a routeSelector and nothing else crashes the controller.
    When a VirtualServerRoute of a VirtualServer has a subroute without an action,
    splits and matches, GenerateVirtualServerConfig dereferences a nil action,
    whatever the configurator, the endpoints, the secrets and the other routes.
    validateRoute counts a routeSelector as one of the alternatives in subroutes
    too, so it accepts such a subroute although its message asks for an action or
    splits (the witness is accepted by the validator). *)
Theorem selector_subroute_panics vsc vsEx ap dos vsr r :
  vsr ∈ vsx_VirtualServerRoutes vsEx → r ∈ vsr_Subroutes vsr →
  r_Action r = None → r_Splits r = [] → r_Matches r = [] →
  GenerateVirtualServerConfig vsc vsEx ap dos = None.
Proof.
  intros Hvsr Hr Ha Hs Hm. unfold GenerateVirtualServerConfig. cbv zeta.
  destruct (generateSSLConfig _ _ _ _ _ _ _) as [[ssl w]|]; [|done]. cbn [mbind option_bind].
  unfold generateServer. destruct (generateSpec _ _) as [st|]; [|done]. cbn [mbind option_bind].
  destruct (addSpecExternalAuth _ _) as [st1|]; [|done]. cbn [mbind option_bind].
  unfold generateRoutes. cbv zeta. destruct (foldM (generateVSRoute _ _) _ _) as [st2|]; [|done]. cbn [mbind option_bind].
  apply list_elem_of_lookup in Hvsr as [i Hi].
  assert ((i, vsr) ∈ imap pair (vsx_VirtualServerRoutes vsEx)) as Hin by (by apply elem_of_lookup_imap_2).
  erewrite foldM_None; [done|exact Hin|]. intros st3. eapply foldM_None; [exact Hr|]. intros st4. simpl.
  unfold generateSubroute. cbv zeta. destruct (addErrorPages _ _ _) as [[ep st5]|]; [|done]. cbn [mbind option_bind].
  by destruct (r_Policies r); apply generateRoute_untargeted.
Qed.
End Untargeted.

(** ** Examples *)

Section Example.
Import SecretSample PolicySample VSSample.
#[local] Existing Instance sampleLib.
#[local] Existing Instance sampleLib_laws.
#[local] Existing Instance pathsContract.

(** The cafe with its password file in the store: a configuration with three upstreams. *)
Lemma virtualServer_generation_never_panics_witness :
  ∃ store pm rd cfg w,
    foldM storeStep (NewLocalSecretStore (∅ : FS)) [OpAdd usersSecret] = Some store ∧
    createVirtualServerEx_secrets lister cafeVS [deliVSR] store = Some (pm, rd) ∧
    GenerateVirtualServerConfig configurator (extended cafeVS [deliVSR] pm rd.2) noAppProtect ∅ = Some (cfg, w).
Proof.
  destruct (c_hosts cafeConfig !! "cafe.example.com") as [l|] eqn:Hl; [|by vm_compute in Hl].
  destruct (c_store cafeConfig !! l) as [[|conf|]|] eqn:Hs;
    try (vm_compute in Hl; injection Hl as <-; vm_compute in Hs; discriminate Hs).
  assert (vsc_VirtualServer conf = cafeVS ∧ vsc_VirtualServerRoutes conf = [deliVSR]) as [Hvs Hvsrs].
  { vm_compute in Hl. injection Hl as <-. vm_compute in Hs. injection Hs as <-. split; reflexivity. }
  destruct (virtualServer_generation_never_panics cafeOptions sampleFlags cafeConfig "cafe.example.com" l conf lister
              [OpAdd usersSecret] (∅ : FS)) as (store & pm & rd & Hst & Hex & Hgen).
  - exact cafeConfig_reachable.
  - vm_compute. reflexivity.
  - exact Hl.
  - exact Hs.
  - rewrite Hvsrs. intros vsr r ->%list_elem_of_singleton ->%list_elem_of_singleton. reflexivity.
  - exact lister_ok.
  - intros s Hs1%list_elem_of_singleton. injection Hs1 as ->. vm_compute. split; reflexivity.
  - rewrite Hvs, Hvsrs. change (contexts cafeVS [deliVSR]) with (replicate 5 (@nil PolicyReference, "default")).
    intros cx [-> _]%elem_of_replicate. split; [reflexivity|]. intros r Hr. destruct (not_elem_of_nil r Hr).
  - rewrite Hvs, Hvsrs in Hex.
    destruct (Hgen configurator (extended cafeVS [deliVSR] pm rd.2) noAppProtect ∅) as [[cfg w] Hg];
      [exact (eq_sym Hvs)|exact (eq_sym Hvsrs)|reflexivity|reflexivity|].
    exists store, pm, rd, cfg, w. exact (conj Hst (conj Hex Hg)).
Defined.
End Example.

Section SelectorExample.
Import SecretSample PolicySample VSSample.
#[local] Existing Instance sampleLib.
#[local] Existing Instance default_range.

Definition selectorSubroute (path : string) : Route :=
  {| r_Path := path; r_Policies := []; r_Route := "";
     r_RouteSelector := Some {["app" := "deli"]};
     r_Action := None; r_Splits := []; r_Matches := []; r_ErrorPages := None; r_LocationSnippets := "";
     r_AddHeaderInherit := ""; r_Dos := "" |}.
Definition selectorVSR : VirtualServerRoute :=
  {| vsr_Meta := cafeMeta "deli"; vsr_IngressClass := ""; vsr_Host := "cafe.example.com";
     vsr_Upstreams := []; vsr_Subroutes := [selectorSubroute "/deli/soup"] |}.

Lemma selector_subroute_panics_witness :
  VSRouteValidation.ValidateVirtualServerRouteForVirtualServer openVSV selectorVSR "cafe.example.com" ["/deli"] = None ∧
  GenerateVirtualServerConfig configurator (extended cafeVS [selectorVSR] ∅ ∅) noAppProtect ∅ = None.
Proof.
  split; [vm_compute; reflexivity|].
  apply (selector_subroute_panics configurator (extended cafeVS [selectorVSR] ∅ ∅) noAppProtect ∅ selectorVSR
           (selectorSubroute "/deli/soup")); [by apply list_elem_of_singleton|by apply list_elem_of_singleton|reflexivity..].
Defined.
End SelectorExample.
