(* ===== verification/VSMatches.v ===== *)
(** The routing of a route with matches, against the rules by which NGINX evaluates
    map directives: a request goes to the first match whose conditions all hold,
    and to the action or the splits of the route when there is none. *)
From S2P Require Import Prelude GoStrings Objects ProxyBuffers ProxyBuffersCorrect.
From S2P Require Import CommonValidation Directives VSValidationCorrect PolicyConfigCorrect.
From S2P Require Import PolicyConfig Version2 ConfigParams VSUpstreams VSLocations VSRouting.

(** ** What NGINX does with a map

    The comparison of a source with the value of a parameter is NGINX's:
    [textMatches] compares with a value as the resource writes it.  The laws are
    those of the documentation of ngx_http_map_module: a value that is the name
    of a special parameter is escaped by a backslash, and a value after a tilde is
    a regular expression. *)
Class NginxMaps := {
  paramMatches : string → string → bool;
  textMatches : string → string → bool;
  paramMatches_quoted v s : v ∉ specialMapParameters → paramMatches (quoted v) s = textMatches v s;
  paramMatches_special v s : v ∈ specialMapParameters → paramMatches (String backslash v) s = textMatches v s;
  paramMatches_digits k s :
    paramMatches ("~^" +:+ Repeat "0" k +:+ "1") s = String.prefix (Repeat "0" k +:+ "1") s
}.

Section Maps.
Context `{NM : NginxMaps}.

Definition isDefault (p : ParameterCfg) : bool := bool_decide (pm_Value p = "default").
(** the result for a source: the first parameter that matches, else the default *)
Definition selectParam (params : list ParameterCfg) (source : string) : string :=
  match find (λ p, negb (isDefault p) && paramMatches (pm_Value p) source) params with
  | Some p => pm_Result p
  | None => from_option pm_Result "" (find isDefault params)
  end.
(** The order of appearance decides among regular expressions only. *)
Definition ordered (params : list ParameterCfg) : Prop :=
  let own := List.filter (λ p, negb (isDefault p)) params in
  length own ≤ 1 ∨ ∀ p, p ∈ own → ∃ regexp, pm_Value p = String (byteOf 126) regexp.

Definition isPathByte (c : Ascii.ascii) : bool := isNginxVariableChar c || ceqb c 47.
Definition isWord : string → bool := forallBytes isNginxVariableChar.

(** The values of texts with variables for one request, where the maps are
    declared *)
Record evaluation (maps : list MapCfg) (eval : string → string) : Prop := {
  ev_text s : forallBytes isPathByte s = true → eval s = s;
  ev_cat name s : isWord name = true →
    eval (String dollar name +:+ String dollar s) = eval (String dollar name) +:+ eval (String dollar s);
  ev_map m : m ∈ maps → ordered (mp_Parameters m) →
    eval (mp_Variable m) = eval (selectParam (mp_Parameters m) (eval (mp_Source m)))
}.

(** ** What the resource asks for *)
Section Request.
Variable eval : string → string.

(** an exclamation mark negates the comparison *)
Definition conditionHolds (c : Condition) : bool :=
  let source := eval (getNameForSourceForMatchesRouteMapFromCondition c) in
  match cn_Value c with
  | String ch rest => if ceqb ch 33 then negb (textMatches rest source) else textMatches (cn_Value c) source
  | EmptyString => textMatches "" source
  end.
Definition matchHolds (m : Match) : bool := forallb conditionHolds (mt_Conditions m).

Definition splitsTaken (dynamic : bool) (splits : list TrafficSplit) : Z :=
  match splits with [] => 0 | _ => splitAmount dynamic splits end.
(** the path, the splits and the action of the first match that holds, and the
    number of its split clients *)
Fixpoint chosen (dynamic : bool) (index scIndex : Z) (i : nat) (route : Route) (matches : list Match)
    : string * list TrafficSplit * option Action * Z :=
  match matches with
  | [] => (matchDefaultPath index, r_Splits route, r_Action route, scIndex)
  | m :: rest =>
      if matchHolds m then (matchLocationPath index (Z.of_nat i), mt_Splits m, mt_Action m, scIndex)
      else chosen dynamic index (scIndex + splitsTaken dynamic (mt_Splits m)) (S i) route rest
  end.
End Request.
End Maps.

(** ** Names *)
Definition decimal : string → bool := forallBytes isDigit.
Lemma parseDigits_decimal a s n : parseDigits a s = Some n → decimal s = true.
Proof.
  revert a. induction s as [|c s IH]; intros a H; [done|]. cbn [parseDigits] in H.
  destruct (digitVal c) eqn:Hd; [|done]. cbn [mbind option_bind] in H. unfold decimal. cbn [forallBytes].
  apply andb_true_iff. split; [|by eapply IH]. revert Hd. clear. destruct c as [[] [] [] [] [] [] [] []]; vm_compute; congruence.
Qed.
Lemma fmtInt_decimal n : (0 ≤ n)%Z → decimal (fmtInt n) = true.
Proof.
  intros Hn. unfold fmtInt. rewrite (proj2 (Z.ltb_ge n 0)) by lia.
  destruct (fmtUint_spec n Hn) as (c & ds & _ & _ & _ & Hp). by eapply parseDigits_decimal.
Qed.
Lemma fmtInt_inj n m : (0 ≤ n)%Z → (0 ≤ m)%Z → fmtInt n = fmtInt m → n = m.
Proof.
  unfold fmtInt. intros Hn Hm. rewrite (proj2 (Z.ltb_ge n 0)), (proj2 (Z.ltb_ge m 0)) by lia. intros Heq.
  destruct (fmtUint_spec n Hn) as (_ & _ & _ & _ & _ & Hp), (fmtUint_spec m Hm) as (_ & _ & _ & _ & _ & Hq).
  rewrite Heq in Hp. congruence.
Qed.
Lemma digit_word c : isDigit c = true → isNginxVariableChar c = true.
Proof. destruct c as [[] [] [] [] [] [] [] []]; by vm_compute. Qed.
Lemma decimal_word s : decimal s = true → isWord s = true.
Proof. apply forallBytes_mono. exact digit_word. Qed.
Lemma word_path s : isWord s = true → forallBytes isPathByte s = true.
Proof. apply forallBytes_mono. intros c Hc. unfold isPathByte. by rewrite Hc. Qed.

Lemma isWord_app s t : isWord s = true → isWord t = true → isWord (s +:+ t) = true.
Proof. intros Hs Ht. unfold isWord in *. by rewrite forallBytes_app, Hs, Ht. Qed.
Lemma isWord_fmtInt n : (0 ≤ n)%Z → isWord (fmtInt n) = true.
Proof. intros Hn. by apply decimal_word, fmtInt_decimal. Qed.
Ltac wordy :=
  repeat first [assumption | apply isWord_fmtInt; lia | reflexivity | apply isWord_app].

Section Correct.
Context `{NM : NginxMaps} `{UL : UnicodeLower}.
Variables (namer : VariableNamer) (eval : string → string).
Hypothesis Hnamer : isWord (safeNsName namer) = true.

(** ** Conditions *)
Lemma select_pair value r1 r2 source :
  value ≠ "default" →
  selectParam [{| pm_Value := value; pm_Result := r1 |}; {| pm_Value := "default"; pm_Result := r2 |}] source
  = if paramMatches value source then r1 else r2.
Proof.
  intros Hv. unfold selectParam. cbn [find]. unfold isDefault. cbn [pm_Value].
  rewrite (bool_decide_eq_false_2 _ Hv), (bool_decide_eq_true_2 ("default" = "default") eq_refl). simpl.
  by destruct (paramMatches value source).
Qed.
Lemma pair_ordered value r1 r2 :
  ordered [{| pm_Value := value; pm_Result := r1 |}; {| pm_Value := "default"; pm_Result := r2 |}].
Proof.
  left. cbn [List.filter]. unfold isDefault at 2. cbn [pm_Value].
  rewrite (bool_decide_eq_true_2 ("default" = "default") eq_refl). simpl. case_match; simpl; lia.
Qed.

(** the value of a condition is quoted, or escaped when it names a special parameter *)
Definition mapValue (v : string) : string :=
  if bool_decide (v ∈ specialMapParameters) then String backslash v else quoted v.
Lemma mapValue_matches v source : mapValue v ≠ "default" ∧ paramMatches (mapValue v) source = textMatches v source.
Proof.
  unfold mapValue. case_bool_decide as Hv; (split; [done|]); [by apply paramMatches_special|by apply paramMatches_quoted].
Qed.

Lemma condition_parameters c success :
  let params := generateParametersForMatchesRouteMap (cn_Value c) success in
  ordered params ∧
  selectParam params (eval (getNameForSourceForMatchesRouteMapFromCondition c))
  = if conditionHolds eval c then success else "0".
Proof.
  cbv zeta. unfold generateParametersForMatchesRouteMap, conditionHolds, generateValueForMatchesRouteMap.
  assert (quoted "" = mapValue "") as -> by (by vm_compute). fold mapValue.
  set (source := eval _). destruct (cn_Value c) as [|ch rest].
  - split; [apply pair_ordered|]. destruct (mapValue_matches "" source). by rewrite select_pair, H0.
  - destruct (ceqb ch 33); (split; [apply pair_ordered|]).
    + destruct (mapValue_matches rest source) as [? <-]. rewrite select_pair by done. by destruct (paramMatches _ _).
    + destruct (mapValue_matches (String ch rest) source) as [? <-]. by rewrite select_pair.
Qed.

Variable maps : list MapCfg.
Hypothesis Heval : evaluation maps eval.
Notation variable index i j := (GetNameForVariableForMatchesRouteMap namer index (Z.of_nat i) (Z.of_nat j)).

Lemma eval_bit (b : bool) : eval (if b then "1" else "0") = if b then "1" else "0".
Proof. apply (ev_text _ _ Heval). by destruct b. Qed.

(** the variable of a condition tells whether it and those after it hold *)
Lemma eval_condition index i cs before after :
  cs = before ++ after → after ≠ [] →
  (∀ j c, cs !! j = Some c → conditionMap namer index i (length cs) j c ∈ maps) →
  eval (variable index i (length before)) = if forallb (conditionHolds eval) after then "1" else "0".
Proof.
  intros Hcs Hne Hmaps. revert before Hcs Hne. induction after as [|c after IH]; intros before -> Hne; [done|].
  pose proof (Hmaps (length before) c (list_lookup_middle _ _ _ _ eq_refl)) as Hm.
  destruct (condition_parameters c (if Nat.ltb (S (length before)) (length (before ++ c :: after))
                                    then variable index i (S (length before)) else "1")) as [Hord Hsel].
  pose proof (ev_map _ _ Heval _ Hm Hord) as Heq. cbn [mp_Variable mp_Source mp_Parameters conditionMap] in Heq.
  cbn [forallb]. etrans; [exact Heq|]. etrans; [apply f_equal, Hsel|].
  destruct (conditionHolds eval c); [|apply (eval_bit false)].
  rewrite length_app. cbn [length andb]. destruct after as [|c' after].
  - rewrite (proj2 (Nat.ltb_ge _ _)) by (simpl; lia). apply (eval_bit true).
  - rewrite (proj2 (Nat.ltb_lt _ _)) by (simpl; lia).
    specialize (IH (before ++ [c])). rewrite length_app, Nat.add_1_r in IH. apply IH; [|done].
    by rewrite <-app_assoc.
Qed.

(** ** The main map *)
Fixpoint bits (matches : list Match) : string :=
  match matches with
  | [] => ""
  | m :: rest => (if matchHolds eval m then "1" else "0") +:+ bits rest
  end.
(** where a target is: its location, or the variable of its split clients *)
Definition destination (dynamic : bool) (path : string) (splits : list TrafficSplit) (scIndex : Z) : string :=
  match splits with [] => path | s :: rest => splitVariable dynamic namer (s :: rest) scIndex end.

Definition declared (index : Z) (i : nat) (m : Match) : Prop :=
  mt_Conditions m ≠ [] ∧
  ∀ j c, mt_Conditions m !! j = Some c → conditionMap namer index i (length (mt_Conditions m)) j c ∈ maps.

Lemma eval_match index i m :
  declared index i m → eval (variable index i 0) = if matchHolds eval m then "1" else "0".
Proof. intros [Hne Hm]. exact (eval_condition index i _ [] _ eq_refl Hne Hm). Qed.

Lemma eval_source dynamic index scIndex i matches :
  (0 ≤ index)%Z → (∀ k m, matches !! k = Some m → declared index (i + k) m) →
  eval (mainMapParameters namer dynamic index scIndex i matches).1.1 = bits matches.
Proof.
  intros Hi. revert scIndex i. induction matches as [|m rest IH]; intros scIndex i Hm; [by apply (ev_text _ _ Heval)|].
  pose proof (Hm 0 m eq_refl) as H0. rewrite Nat.add_0_r in H0. apply eval_match in H0.
  assert (∀ k m, rest !! k = Some m → declared index (S i + k) m) as Hrest.
  { intros k m' Hk. specialize (Hm (S k) m' Hk). by rewrite Nat.add_succ_r in Hm. }
  cbn [mainMapParameters bits].
  destruct (match mt_Splits m with [] => _ | _ => _ end) as [result amount].
  destruct (mainMapParameters namer dynamic index (scIndex + amount) (S i) rest) as [[source params] total] eqn:E.
  specialize (IH (scIndex + amount)%Z (S i) Hrest). rewrite E in IH. cbn [fst] in IH |- *. rewrite <-H0, <-IH.
  destruct rest as [|m' rest].
  - cbn [mainMapParameters] in E. injection E as <- _ _. rewrite (ev_text _ _ Heval "") by done. by rewrite !string_app_nil_r.
  - cbn [mainMapParameters] in E. destruct (match mt_Splits m' with [] => _ | _ => _ end) as [result' amount'].
    destruct (mainMapParameters _ _ _ _ _ rest) as [[source' params'] total']. injection E as <- _ _.
    unfold GetNameForVariableForMatchesRouteMap, vsVariable. apply (ev_cat _ _ Heval). unfold vsName. wordy.
Qed.

Lemma select_default d source : selectParam [{| pm_Value := "default"; pm_Result := d |}] source = d.
Proof. unfold selectParam. cbn [find]. unfold isDefault. cbn [pm_Value]. by rewrite (bool_decide_eq_true_2 ("default" = "default") eq_refl). Qed.
Lemma select_cons p params source :
  isDefault p = false →
  selectParam (p :: params) source = if paramMatches (pm_Value p) source then pm_Result p else selectParam params source.
Proof. intros Hp. unfold selectParam. cbn [find]. rewrite Hp. simpl. by destruct (paramMatches _ _). Qed.

Lemma Repeat_snoc k t : Repeat "0" k +:+ "0" +:+ t = Repeat "0" (S k) +:+ t.
Proof. induction k as [|k IH]; [done|]. cbn [Repeat]. by rewrite string_app_assoc, IH, !string_app_assoc. Qed.
Lemma prefix_zeros k (b : bool) t : String.prefix (Repeat "0" k +:+ "1") (Repeat "0" k +:+ (if b then "1" else "0") +:+ t) = b.
Proof. induction k as [|k IH]; [by destruct b, t|]. exact IH. Qed.

(** the main map selects the first match that holds *)
Lemma main_select dynamic index scIndex i route matches :
  let '(_, params, total) := mainMapParameters namer dynamic index scIndex i matches in
  let '(path, splits, _, sc) := chosen eval dynamic index scIndex i route matches in
  selectParam (params ++ [{| pm_Value := "default";
                             pm_Result := destination dynamic (matchDefaultPath index) (r_Splits route) (scIndex + total) |}])
    (Repeat "0" i +:+ bits matches) = destination dynamic path splits sc.
Proof.
  revert scIndex i. induction matches as [|m rest IH]; intros scIndex i.
  { cbn. rewrite Z.add_0_r. apply select_default. }
  cbn [mainMapParameters chosen bits].
  specialize (IH (scIndex + splitsTaken dynamic (mt_Splits m))%Z (S i)).
  destruct (mt_Splits m) as [|sp splits] eqn:Hs; cbn [splitsTaken] in *;
    destruct (mainMapParameters _ _ _ _ _ rest) as [[source params] total];
    rewrite <-app_comm_cons, select_cons by done; cbn [pm_Value pm_Result]; rewrite paramMatches_digits, prefix_zeros;
    (destruct (matchHolds eval m); [done|]); rewrite Repeat_snoc, Z.add_assoc; exact IH.
Qed.
End Correct.

(** ** The locations *)
Record included (p q : routingParts) : Prop := {
  in_Maps : rp_Maps p ⊆ rp_Maps q;
  in_SplitClients : rp_SplitClients p ⊆ rp_SplitClients q;
  in_Locations : rp_Locations p ⊆ rp_Locations q;
  in_ReturnLocations : rp_ReturnLocations p ⊆ rp_ReturnLocations q;
  in_KeyValZones : rp_KeyValZones p ⊆ rp_KeyValZones q;
  in_KeyVals : rp_KeyVals p ⊆ rp_KeyVals q;
  in_TwoWaySplitClients : rp_TwoWaySplitClients p ⊆ rp_TwoWaySplitClients q
}.
#[export] Instance included_preorder : PreOrder included.
Proof. split; [by intros p|]. intros p q r [] []. split; by etrans. Qed.
Lemma included_append_l p q : included p (appendParts p q).
Proof. split; simpl; set_solver. Qed.
Lemma included_append_r p q : included q (appendParts p q).
Proof. split; simpl; set_solver. Qed.

Section Targets.
Context `{UL : UnicodeLower}.
Implicit Types (rx : routingContext).

(** the configuration of a target is among [parts]: the location of its action,
    or its split clients numbered from [scIndex] with the locations of its splits *)
Definition served rx (path : string) (splits : list TrafficSplit) (action : option Action) (scIndex : Z)
    (parts : routingParts) : Prop :=
  match splits with
  | [] => ∃ n w loc ret w', actionLocation rx true path action n w = Some (loc, ret, w') ∧
            included (onlyLocations [loc] (option_list ret)) parts
  | _ => ∃ n w own w', generateSplits rx splits scIndex n w = Some (own, w') ∧ included own parts
  end.
Lemma served_mono rx path splits action sc parts parts' :
  included parts parts' → served rx path splits action sc parts → served rx path splits action sc parts'.
Proof.
  intros Hi. unfold served. destruct splits as [|s splits].
  - intros (n & w & loc & ret & w' & H & Hl). exists n, w, loc, ret, w'. split; [done|]. by etrans.
  - intros (n & w & own & w' & H & Hl). exists n, w, own, w'. split; [done|]. by etrans.
Qed.

Lemma splitClientsOf_length dynamic namer splits scIndex :
  Z.of_nat (length (rp_SplitClients (splitClientsOf dynamic namer splits scIndex))) = splitAmount dynamic splits.
Proof.
  unfold splitAmount, isDynamic, splitClientsOf. destruct dynamic; [|done].
  destruct splits as [|s0 [|s1 [|s2 splits]]]; reflexivity.
Qed.
Lemma generateSplits_length rx splits scIndex n w p w' :
  generateSplits rx splits scIndex n w = Some (p, w') →
  Z.of_nat (length (rp_SplitClients p)) = splitAmount (rx_dynamic rx) splits.
Proof.
  unfold generateSplits. destruct (foldM _ _ _) as [[[locs rets] w1]|]; [|done]. cbn [mbind option_bind].
  intros [= <- _]. cbn [appendParts rp_SplitClients onlyLocations]. rewrite app_nil_r. apply splitClientsOf_length.
Qed.

Lemma addTarget_served rx path splits action scIndex sc ret parts w parts' sc' w' :
  addTarget rx path splits action scIndex sc ret parts w = Some (parts', sc', w') →
  included parts parts' ∧ served rx path splits action (scIndex + sc) parts' ∧
  sc' = (sc + splitsTaken (rx_dynamic rx) splits)%Z.
Proof.
  unfold addTarget, served. destruct splits as [|s splits].
  - destruct (actionLocation _ _ _ _ _ _) as [[[loc r] w1]|] eqn:H; [|done]. cbn [mbind option_bind]. intros [= <- <- <-].
    split_and!; [apply included_append_l| |simpl; lia]. exists (ret + Z.of_nat (length (rp_ReturnLocations parts)))%Z, w, loc, r, w1.
    split; [done|]. apply included_append_r.
  - destruct (generateSplits _ _ _ _ _) as [[p w1]|] eqn:H; [|done]. cbn [mbind option_bind]. intros [= <- <- <-].
    split_and!; [apply included_append_l| |cbn [splitsTaken]; by rewrite (generateSplits_length _ _ _ _ _ _ _ H)].
    do 4 eexists. split; [exact H|]. apply included_append_r.
Qed.

Context `{NM : NginxMaps}.
Lemma matches_served rx index scIndex ret eval route matches i parts sc w parts1 sc1 w1 parts2 sc2 w2 :
  foldM (addMatch rx index scIndex ret) (parts, sc, w) (imap (λ k m, (i + k, m)) matches) = Some (parts1, sc1, w1) →
  addTarget rx (matchDefaultPath index) (r_Splits route) (r_Action route) scIndex sc1 ret parts1 w1 = Some (parts2, sc2, w2) →
  included parts parts2 ∧
  let '(path, splits, action, n) := chosen eval (rx_dynamic rx) index (scIndex + sc) i route matches in
  served rx path splits action n parts2.
Proof.
  intros Hf Ht. revert i parts sc w Hf. induction matches as [|m rest IH]; intros i parts sc w Hf.
  - injection Hf as -> -> ->. apply addTarget_served in Ht as (Hi & Hs & _). done.
  - cbn [imap] in Hf. rewrite foldM_cons, Nat.add_0_r in Hf. cbn [addMatch fst snd] in Hf.
    destruct (addTarget _ (matchLocationPath _ _) _ _ _ _ _ _ _) as [[[parts3 sc3] w3]|] eqn:H; [|done].
    cbn [mbind option_bind] in Hf. apply addTarget_served in H as (Hi & Hs & ->).
    destruct (IH (S i) parts3 (sc + splitsTaken (rx_dynamic rx) (mt_Splits m))%Z w3) as [Hi2 Hc].
    { rewrite <-Hf. f_equal. apply imap_ext. intros k m' _. simpl. f_equal. lia. }
    split; [by etrans|]. cbn [chosen]. rewrite Z.add_assoc in Hc.
    destruct (matchHolds eval m); [by eapply served_mono|exact Hc].
Qed.
End Targets.

Section MatchesRoute.
Context `{NM : NginxMaps} `{UL : UnicodeLower}.
Implicit Types (rx : routingContext).

Lemma mainMap_ordered namer dynamic index scIndex route :
  ordered (mp_Parameters (mainMap namer dynamic index scIndex route)).
Proof.
  unfold mainMap. assert (∀ sc i ms p, p ∈ (mainMapParameters namer dynamic index sc i ms).1.2 →
    ∃ regexp, pm_Value p = String (byteOf 126) regexp) as Hall.
  { intros sc i ms. revert sc i. induction ms as [|m ms IH]; intros sc i p; [by intros ?%elem_of_nil|].
    cbn [mainMapParameters]. destruct (match mt_Splits m with [] => _ | _ => _ end) as [result amount].
    specialize (IH (sc + amount)%Z (S i) p). destruct (mainMapParameters _ _ _ _ _ ms) as [[source params] total].
    cbn [fst snd] in *. intros [->|Hp]%elem_of_cons; [by eexists|by apply IH]. }
  specialize (Hall scIndex 0 (r_Matches route)).
  destruct (mainMapParameters _ _ _ _ _ _) as [[source params] total]. cbn [fst snd mp_Parameters] in *.
  right. intros p Hp. apply list_elem_of_In, List.filter_In in Hp as [Hp Hd].
  apply in_app_or in Hp as [Hp|[<-|[]]]; [by apply Hall, list_elem_of_In|]. done.
Qed.

Lemma conditionMaps_declared namer index matches maps k m :
  conditionMaps namer index matches ⊆ maps → matches !! k = Some m → mt_Conditions m ≠ [] →
  declared namer maps index k m.
Proof.
  intros Hsub Hk Hne. split; [done|]. intros j c Hj. apply Hsub. apply list_elem_of_join.
  exists (imap (conditionMap namer index k (length (mt_Conditions m))) (mt_Conditions m)). split.
  - eapply elem_of_lookup_imap_2; exact Hj.
  - apply list_elem_of_lookup. exists k. by rewrite list_lookup_imap, Hk.
Qed.

Lemma chosen_path eval dynamic index scIndex i route matches :
  (0 ≤ index)%Z → forallBytes isPathByte (chosen eval dynamic index scIndex i route matches).1.1.1 = true.
Proof.
  intros Hi. revert scIndex i. induction matches as [|m rest IH]; intros scIndex i; cbn [chosen].
  - cbn [fst]. unfold matchDefaultPath. rewrite forallBytes_app. apply word_path. unfold internalLocationPrefix. wordy.
  - destruct (matchHolds eval m); [|apply IH]. cbn [fst]. unfold matchLocationPath. rewrite forallBytes_app.
    apply word_path. unfold internalLocationPrefix. wordy.
Qed.

(** C10.  A request of a route with matches reaches the first match that holds.
    Take the maps, split clients and locations that generateMatchesConfig generates,
    and the values that NGINX gives to their variables for a request.  The
    variable to which the route redirects leads to the target of the first match
    whose conditions all hold, and to the route's own action or splits when no
    match holds: to the path of the internal location generated for the action,
    or to the variable of the split clients that were generated for the splits.
    The two loops of the function count the split clients in different ways (by
    the weights' mode, and by the clients generated) and agree.  The names of the
    VirtualServer and its namespace must be made of letters, digits, dashes and
    underscores: NGINX ends a variable at any other character. *)
Theorem matches_route_to_the_first_match eval rx route index scIndex ret w c w' :
  isWord (safeNsName (rx_variableNamer rx)) = true → (0 ≤ index)%Z →
  (∀ m, m ∈ r_Matches route → mt_Conditions m ≠ []) →
  generateMatchesConfig rx route index scIndex ret w = Some (c, w') →
  evaluation (rp_Maps (rc_parts c)) eval →
  let '(path, splits, action, sc) := chosen eval (rx_dynamic rx) index scIndex 0 route (r_Matches route) in
  served rx path splits action sc (rc_parts c) ∧
  eval (irl_Destination (rc_InternalRedirectLocation c))
  = match splits with
    | [] => path
    | _ => eval (splitVariable (rx_dynamic rx) (rx_variableNamer rx) splits sc)
    end.
Proof.
  intros Hword Hindex Hconds Hgen Heval. unfold generateMatchesConfig in Hgen. cbv zeta in Hgen.
  destruct (foldM _ _ _) as [[[parts1 sc1] w1]|] eqn:Hf; [|done]. cbn [mbind option_bind] in Hgen.
  destruct (addTarget _ _ _ _ _ _ _ _ _) as [[[parts2 sc2] w2]|] eqn:Ht; [|done]. cbn [mbind option_bind] in Hgen.
  injection Hgen as <- <-. cbn [rc_parts rc_InternalRedirectLocation irl_Destination] in *.
  destruct (matches_served rx index scIndex ret eval route (r_Matches route) 0 _ _ _ _ _ _ _ _ _ Hf Ht) as [Hincl Hserved].
  rewrite Z.add_0_r in Hserved. pose proof (in_Maps _ _ Hincl) as Hmaps. cbn [rp_Maps onlyMaps] in Hmaps.
  set (namer := rx_variableNamer rx) in *. set (dynamic := rx_dynamic rx) in *.
  assert (mainMap namer dynamic index scIndex route ∈ rp_Maps parts2) as Hmain by set_solver.
  pose proof (ev_map _ _ Heval _ Hmain (mainMap_ordered _ _ _ _ _)) as Hvar.
  pose proof (eval_source namer eval Hword (rp_Maps parts2) Heval dynamic index scIndex 0 (r_Matches route) Hindex) as Hsource.
  pose proof (main_select namer eval dynamic index scIndex 0 route (r_Matches route)) as Hsel.
  unfold mainMap in Hvar |- *.
  destruct (mainMapParameters namer dynamic index scIndex 0 (r_Matches route)) as [[source params] total].
  destruct (chosen eval dynamic index scIndex 0 route (r_Matches route)) as [[[path splits] action] sc] eqn:Hch.
  split; [exact Hserved|]. cbn [fst mp_Variable mp_Parameters mp_Source] in *.
  rewrite Hsource in Hvar by (intros k m Hk; apply conditionMaps_declared with (matches := r_Matches route);
    [set_solver|done|by eapply Hconds, list_elem_of_lookup_2]).
  etrans; [exact Hvar|]. unfold destination in Hsel. cbn [Repeat] in Hsel.
  etrans; [apply f_equal; exact Hsel|]. destruct splits; [|done].
  apply (ev_text _ _ Heval). pose proof (chosen_path eval dynamic index scIndex 0 route (r_Matches route) Hindex) as Hp.
  by rewrite Hch in Hp.
Qed.
End MatchesRoute.

(** ** An example

    A request of version v2 by a guest, against a route whose first match asks for
    another user and whose second one splits the traffic of version v2. *)
Module MatchesSample.
Import PolicySample.
Section Values.
Variable values : string → string.

(** a text with its variables replaced; [name] is the variable being read *)
Fixpoint interpolate (name : option string) (s : string) : string :=
  match s with
  | EmptyString => from_option values "" name
  | String c rest =>
      match name with
      | Some n =>
          if isNginxVariableChar c then interpolate (Some (n +:+ String c "")) rest
          else values n +:+ (if ceqb c 36 then interpolate (Some "") rest else String c (interpolate None rest))
      | None => if ceqb c 36 then interpolate (Some "") rest else String c (interpolate None rest)
      end
  end.
Definition eval : string → string := interpolate None.

Lemma interpolate_text s : forallBytes isPathByte s = true → eval s = s.
Proof.
  unfold eval. induction s as [|c s IH]; [done|]. cbn [forallBytes interpolate]. intros [Hc Hs]%andb_true_iff.
  assert (ceqb c 36 = false) as -> by (revert Hc; clear; by destruct c as [[] [] [] [] [] [] [] []]; vm_compute).
  by rewrite (IH Hs).
Qed.
Lemma interpolate_name n name s :
  isWord name = true → interpolate (Some n) (name +:+ String dollar s) = values (n +:+ name) +:+ interpolate (Some "") s.
Proof.
  revert n. induction name as [|c name IH]; intros n Hw.
  - change ("" +:+ String dollar s) with (String dollar s). cbn [interpolate]. replace (isNginxVariableChar dollar) with false by (by vm_compute).
    replace (ceqb dollar 36) with true by (by vm_compute). by rewrite string_app_nil_r.
  - unfold isWord in Hw. cbn [forallBytes] in Hw. apply andb_true_iff in Hw as [Hc Hw].
    change (String c name +:+ String dollar s) with (String c (name +:+ String dollar s)). cbn [interpolate].
    rewrite Hc, IH by done. by rewrite string_app_assoc.
Qed.
Lemma interpolate_last n name : isWord name = true → interpolate (Some n) name = values (n +:+ name).
Proof.
  revert n. induction name as [|c name IH]; intros n Hw; [by rewrite string_app_nil_r|].
  unfold isWord in Hw. cbn [forallBytes] in Hw. apply andb_true_iff in Hw as [Hc Hw]. cbn [interpolate].
  rewrite Hc, IH by done. by rewrite string_app_assoc.
Qed.
Lemma interpolate_cat name s :
  isWord name = true →
  eval (String dollar name +:+ String dollar s) = eval (String dollar name) +:+ eval (String dollar s).
Proof.
  intros Hw. unfold eval. change (String dollar name +:+ String dollar s) with (String dollar (name +:+ String dollar s)).
  cbn [interpolate]. replace (ceqb dollar 36) with true by (by vm_compute).
  by rewrite (interpolate_name "" name), (interpolate_last "" name).
Qed.
End Values.

(** comparison by equality *)
Definition compareParam (param source : string) : bool :=
  match param with
  | String c rest =>
      if ceqb c 34 then bool_decide (rest = source +:+ String (byteOf 34) "")
      else if ceqb c 92 then bool_decide (rest = source)
      else if ceqb c 126 then match rest with String _ regexp => String.prefix regexp source | EmptyString => false end
      else bool_decide (param = source)
  | EmptyString => false
  end.
#[export] Instance compare : NginxMaps.
Proof.
  refine {| paramMatches := compareParam; textMatches := λ v s, bool_decide (v = s) |}.
  - intros v s _. unfold quoted. cbn. apply bool_decide_ext. split; [apply string_app_inj_r|by intros ->].
  - intros v s _. cbn. done.
  - intros k s. cbn. done.
Defined.

Definition sampleMatch (conditions : list Condition) (action : option Action) (splits : list TrafficSplit) : Match :=
  {| mt_Conditions := conditions; mt_Action := action; mt_Splits := splits |}.
Definition header (name value : string) : Condition :=
  {| cn_Header := name; cn_Cookie := ""; cn_Argument := ""; cn_Variable := ""; cn_Value := value |}.
Definition cookie (name value : string) : Condition :=
  {| cn_Header := ""; cn_Cookie := name; cn_Argument := ""; cn_Variable := ""; cn_Value := value |}.
Definition route : Route :=
  {| r_Path := "/"; r_Policies := []; r_Route := ""; r_RouteSelector := None; r_Action := Some (passAction "tea");
     r_Splits := [];
     r_Matches := [ sampleMatch [header "x-version" "v2"; cookie "user" "!guest"] (Some (passAction "tea")) [];
                    sampleMatch [header "x-version" "v2"] None
                      [ {| sp_Weight := 20; sp_Action := Some (passAction "tea") |};
                        {| sp_Weight := 80; sp_Action := Some (passAction "coffee") |} ] ];
     r_ErrorPages := None; r_LocationSnippets := ""; r_AddHeaderInherit := ""; r_Dos := "" |}.
Definition routing : routingContext :=
  {| rx_locations := {| lc_cfgParams := NewDefaultConfigParams false;
                        lc_errorPages := {| epd_pages := None; epd_index := 0; epd_owner := OwnerVS cafeVS |};
                        lc_originalPath := "/"; lc_locSnippets := ""; lc_enableSnippets := false; lc_isVSR := false;
                        lc_vsrName := ""; lc_vsrNamespace := "" |};
     rx_upstreamNamer := {| un_prefix := "vs_default_cafe"; un_namespace := "default" |};
     rx_crUpstreams := {["vs_default_cafe_tea" := plainUpstream "tea" "tea-svc" 80]};
     rx_variableNamer := {| safeNsName := "default_cafe" |}; rx_dynamic := false |}.

(** the values of the variables for the request *)
Definition values (name : string) : string :=
  from_option snd "" (find (λ kv, bool_decide (kv.1 = name))
    [("http_x_version", "v2"); ("cookie_user", "guest");
     ("vs_default_cafe_matches_0_match_0_cond_0", "0"); ("vs_default_cafe_matches_0_match_0_cond_1", "0");
     ("vs_default_cafe_matches_0_match_1_cond_0", "1");
     ("vs_default_cafe_splits_0", "/internal_location_splits_0_split_1");
     ("vs_default_cafe_matches_0", "/internal_location_splits_0_split_1")]).

Lemma matches_route_to_the_first_match_witness :
  ∃ c w, generateMatchesConfig routing route 0 0 0 ∅ = Some (c, w) ∧
    eval values (irl_Destination (rc_InternalRedirectLocation c)) = "/internal_location_splits_0_split_1" ∧
    served routing "/internal_location_matches_0_match_1" (from_option mt_Splits [] (r_Matches route !! 1)) None 0 (rc_parts c).
Proof.
  destruct (generateMatchesConfig routing route 0 0 0 ∅) as [[c w]|] eqn:Hgen; [|by vm_compute in Hgen].
  exists c, w. split; [reflexivity|].
  assert (evaluation (rp_Maps (rc_parts c)) (eval values)) as Heval.
  { split; [apply interpolate_text|apply interpolate_cat|]. vm_compute in Hgen. injection Hgen as <- _.
    intros m Hm _. cbn [rc_parts rp_Maps] in Hm.
    repeat (apply elem_of_cons in Hm as [->|Hm]; [vm_compute; reflexivity|]). by apply elem_of_nil in Hm. }
  destruct (matches_route_to_the_first_match (eval values) routing route 0 0 0 ∅ c w) as [Hserved Hdest];
    [reflexivity|lia| |exact Hgen|exact Heval|].
  - intros m [->|[->|[]%elem_of_nil]%elem_of_cons]%elem_of_cons; discriminate.
  - split; [exact Hdest|exact Hserved].
Defined.
End MatchesSample.
