(* ===== verification/VSOrigins.v ===== *)
(** Where the locations of a generated VirtualServer come from: every location of
    the server is the location of an action of one route, settled with the
    policies of the context that governs the route, or a location of an external
    authentication; the locations that its error pages name are declared. *)
From S2P Require Import Prelude GoStrings Regex Objects ConfigState ProxyBuffers.
From S2P Require Import HostValidation.
From S2P Require Import ValidationLib CommonValidation VSRouteValidation VSValidationCorrect.
From S2P Require Import PolicyObjects SecretStore.
From S2P Require Import Version2 ConfigParams PolicyConfig PolicyConfigAdd.
From S2P Require Import PolicyConfigGenerate PolicyConfigSpec.
From S2P Require Import PolicyConfigCorrect PolicySecrets VSUpstreams VSLocations VSRouting.
From S2P Require Import VSPolicies VSGenerate.
From S2P Require Import VSPanicFree VSMatches.

(** ** The locations of one route *)
Section Routing.
Context `{UL : UnicodeLower}.
Implicit Types (rx : routingContext) (parts : routingParts).

(** a location of one of the actions, whose return location is among [rets] *)
Definition actionOrigin rx (actions : list Action) (rets : list ReturnLocationCfg) (loc : LocationCfg) : Prop :=
  ∃ a internal path n w ret w', a ∈ actions ∧
    actionLocation rx internal path (Some a) n w = Some (loc, ret, w') ∧ option_list ret ⊆ rets.
Lemma actionOrigin_mono rx actions actions' rets rets' loc :
  actions ⊆ actions' → rets ⊆ rets' → actionOrigin rx actions rets loc → actionOrigin rx actions' rets' loc.
Proof.
  intros Ha Hr (a & internal & path & n & w & ret & w' & Hin & H & Hret).
  exists a, internal, path, n, w, ret, w'. split_and!; [by apply Ha|done|by etrans].
Qed.

(** the return locations are numbered from [first] *)
Definition numberedFrom (first : Z) (rets : list ReturnLocationCfg) : Prop :=
  ∀ k ret, rets !! k = Some ret → rtl_Name ret = returnLocationName (first + Z.of_nat k).
Lemma numberedFrom_app first l1 l2 :
  numberedFrom first l1 → numberedFrom (first + Z.of_nat (length l1)) l2 → numberedFrom first (l1 ++ l2).
Proof.
  intros H1 H2 k ret [Hk|[Hge Hk]]%lookup_app_Some; [by apply H1|]. rewrite (H2 _ _ Hk). f_equal. lia.
Qed.
Lemma numberedFrom_nil first : numberedFrom first [].
Proof. by intros k ret Hk. Qed.

Lemma actionLocation_numbered rx internal path action n w loc ret w' :
  actionLocation rx internal path action n w = Some (loc, ret, w') → numberedFrom n (option_list ret).
Proof.
  unfold actionLocation. destruct action as [a|]; [|done]. cbn [mbind option_bind]. unfold generateLocation.
  destruct (a_Redirect a); [by intros [= <- <- <-]|]. destruct (a_Return a) as [art|].
  - cbn. intros [= <- <- <-]. intros [|k] r [= <-]. simpl. by rewrite Z.add_0_r.
  - destruct (generateLocationForProxying _ _ _ _ _ _ _ _ _); [|done]. by intros [= <- <- <-].
Qed.

(** what the routing of a route with the given actions guarantees *)
Record routed rx (actions : list Action) (first : Z) parts : Prop := {
  rd_locations loc : loc ∈ rp_Locations parts → actionOrigin rx actions (rp_ReturnLocations parts) loc;
  rd_numbered : numberedFrom first (rp_ReturnLocations parts)
}.
Lemma routed_mono rx actions actions' first parts : actions ⊆ actions' → routed rx actions first parts → routed rx actions' first parts.
Proof. intros Ha [Hl Hn]. split; [|done]. intros loc Hloc. eapply actionOrigin_mono; [done|done|by apply Hl]. Qed.
Lemma routed_append rx actions first parts p :
  routed rx actions first parts → routed rx actions (first + Z.of_nat (length (rp_ReturnLocations parts))) p →
  routed rx actions first (appendParts parts p).
Proof.
  intros [Hl Hn] [Hl' Hn']. split; [|by apply numberedFrom_app].
  intros loc [Hloc|Hloc]%elem_of_app; (eapply actionOrigin_mono; [done| |by eauto]); simpl; set_solver.
Qed.
Lemma routed_action rx internal path action n w loc ret w' :
  actionLocation rx internal path action n w = Some (loc, ret, w') →
  routed rx (option_list action) n (onlyLocations [loc] (option_list ret)).
Proof.
  intros H. pose proof (actionLocation_numbered _ _ _ _ _ _ _ _ _ H) as Hn. split; [|done].
  intros l ->%list_elem_of_singleton. destruct action as [a|]; [|done].
  exists a, internal, path, n, w, ret, w'. split_and!; [by apply list_elem_of_singleton|done|done].
Qed.
Lemma splitClientsOf_locations dynamic namer splits sc :
  rp_Locations (splitClientsOf dynamic namer splits sc) = [] ∧ rp_ReturnLocations (splitClientsOf dynamic namer splits sc) = [].
Proof. unfold splitClientsOf. destruct dynamic, splits as [|? [|? [|]]]; done. Qed.
Lemma routed_none rx actions first parts : rp_Locations parts = [] → rp_ReturnLocations parts = [] → routed rx actions first parts.
Proof. intros Hl Hr. split; [rewrite Hl; by intros ? ?%elem_of_nil|rewrite Hr; apply numberedFrom_nil]. Qed.

Lemma generateSplits_routed rx splits sc first w parts w' :
  generateSplits rx splits sc first w = Some (parts, w') → routed rx (splitActions splits) first parts.
Proof.
  unfold generateSplits. destruct (foldM _ _ _) as [[[locs rets] w1]|] eqn:Hf; [|done]. cbn [mbind option_bind]. intros [= <- _].
  destruct (splitClientsOf_locations (rx_dynamic rx) (rx_variableNamer rx) splits sc) as [Hl Hr].
  apply routed_append; [by apply routed_none|]. rewrite Hr, Z.add_0_r.
  refine (foldM_preserves (λ acc, routed rx (splitActions splits) first (onlyLocations acc.1.1 acc.1.2))
            (addSplitLocation rx sc first) _ _ _ _ _ Hf); [|by apply routed_none].
  intros [[locs' rets'] w2] [i s] [[locs2 rets2] w3] Hi Hacc H. cbn [addSplitLocation fst snd] in *.
  destruct (actionLocation _ _ _ _ _ _) as [[[loc ret] w4]|] eqn:Ha; [|done]. cbn [mbind option_bind] in H.
  injection H as <- <- <-. apply routed_action in Ha.
  apply (routed_append _ _ _ (onlyLocations locs' rets') (onlyLocations [loc] (option_list ret))); [done|].
  eapply routed_mono; [|exact Ha]. apply elem_of_imap_pair, list_elem_of_lookup_2 in Hi.
  intros a Hain. apply list_elem_of_omap. exists s. split; [done|]. destruct (sp_Action s); [|by apply elem_of_nil in Hain].
  by apply list_elem_of_singleton in Hain as ->.
Qed.

Lemma addTarget_routed rx path splits action sc scl first parts w parts' scl' w' actions :
  option_list action ++ splitActions splits ⊆ actions → routed rx actions first parts →
  addTarget rx path splits action sc scl first parts w = Some (parts', scl', w') → routed rx actions first parts'.
Proof.
  intros Hsub Hparts H. unfold addTarget in H. cbv zeta in H. destruct splits as [|s splits].
  - destruct (actionLocation _ _ _ _ _ _) as [[[loc ret] w1]|] eqn:Ha; [|done]. cbn [mbind option_bind] in H.
    injection H as <- _ _. apply routed_append; [done|]. apply routed_action in Ha. eapply routed_mono; [|exact Ha]. set_solver.
  - destruct (generateSplits _ _ _ _ _) as [[p w1]|] eqn:Hs; [|done]. cbn [mbind option_bind] in H.
    injection H as <- _ _. apply routed_append; [done|]. apply generateSplits_routed in Hs. eapply routed_mono; [|exact Hs]. set_solver.
Qed.

Lemma generateRouting_routed rx r n sc first w parts redirect w' :
  generateRouting rx r n sc first w = Some (parts, redirect, w') → routed rx (routeActions r) first parts.
Proof.
  unfold generateRouting, routeActions. destruct (r_Matches r) as [|m ms] eqn:Hm.
  - destruct (r_Splits r) as [|s ss] eqn:Hs.
    + destruct (actionLocation _ _ _ _ _ _) as [[[loc ret] w1]|] eqn:Ha; [|done]. cbn [mbind option_bind]. intros [= <- _ _].
      apply routed_action in Ha. eapply routed_mono; [|exact Ha]. set_solver.
    + unfold generateDefaultSplitsConfig. destruct (generateSplits _ _ _ _ _) as [[p w1]|] eqn:Hg; [|done].
      cbn [mbind option_bind rc_parts]. intros [= <- _ _]. apply generateSplits_routed in Hg.
      eapply routed_mono; [|exact Hg]. rewrite Hs. set_solver.
  - rewrite <-Hm. destruct (generateMatchesConfig _ _ _ _ _ _) as [[c w1]|] eqn:Hg; [|done]. cbn [mbind option_bind].
    intros [= <- _ _]. unfold generateMatchesConfig in Hg. cbv zeta in Hg.
    destruct (foldM _ _ _) as [[[parts1 sc1] w2]|] eqn:Hf; [|done]. cbn [mbind option_bind] in Hg.
    destruct (addTarget _ _ _ _ _ _ _ _ _) as [[[parts2 sc2] w3]|] eqn:Ht; [|done]. cbn [mbind option_bind] in Hg.
    injection Hg as <- _. cbn [rc_parts]. eapply addTarget_routed; [|clear Ht|exact Ht]; [set_solver|].
    refine (foldM_preserves (λ acc, routed rx _ first acc.1.1) (addMatch rx n sc first) _ _ _ _ _ Hf); [|by apply routed_none].
    intros [[p k] w4] [i m'] [[p' k'] w5] Hi Hacc H. cbn [addMatch fst snd] in *.
    eapply addTarget_routed; [|exact Hacc|exact H]. apply elem_of_imap_pair, list_elem_of_lookup_2 in Hi.
    intros a Ha. apply elem_of_app. right. apply elem_of_app. right. apply list_elem_of_bind. by exists m'.
Qed.

(** a location of the routing of a route, whose return locations and internal redirect are among those given *)
Definition routingOrigin rx (r : Route) (rets : list ReturnLocationCfg) (reds : list InternalRedirectLocationCfg)
    (loc : LocationCfg) : Prop :=
  ∃ n sc first w parts redirect w', generateRouting rx r n sc first w = Some (parts, redirect, w') ∧
    loc ∈ rp_Locations parts ∧ rp_ReturnLocations parts ⊆ rets ∧ option_list redirect ⊆ reds.
Lemma routingOrigin_mono rx r rets rets' reds reds' loc :
  rets ⊆ rets' → reds ⊆ reds' → routingOrigin rx r rets reds loc → routingOrigin rx r rets' reds' loc.
Proof.
  intros Hr Hd (n & sc & first & w & parts & redirect & w' & H & Hl & Hr' & Hd').
  exists n, sc, first, w, parts, redirect, w'. split_and!; [done|done|by etrans..].
Qed.
Lemma routingOrigin_action rx r rets reds loc :
  routingOrigin rx r rets reds loc → actionOrigin rx (routeActions r) rets loc.
Proof.
  intros (n & sc & first & w & parts & redirect & w' & H & Hl & Hr & _).
  apply generateRouting_routed in H as [Hlocs _]. eapply actionOrigin_mono; [done|exact Hr|by apply Hlocs].
Qed.
End Routing.

(** ** The names of error pages *)
Lemma decimal_sep s t x y :
  decimal s = true → decimal t = true → s +:+ String underscore x = t +:+ String underscore y → s = t ∧ x = y.
Proof.
  assert (∀ c, isDigit c = true → c ≠ underscore) as Hd by (intros c Hc ->; by vm_compute in Hc).
  revert t. induction s as [|c s IH]; intros [|d t] Hs Ht H.
  - by injection H as ->.
  - injection H as <- _. unfold decimal in Ht. cbn [forallBytes] in Ht. apply andb_true_iff in Ht as [Ht _]. by apply Hd in Ht.
  - injection H as -> _. unfold decimal in Hs. cbn [forallBytes] in Hs. apply andb_true_iff in Hs as [Hs _]. by apply Hd in Hs.
  - injection H as -> H. unfold decimal in Hs, Ht. cbn [forallBytes] in Hs, Ht.
    apply andb_true_iff in Hs as [_ Hs]. apply andb_true_iff in Ht as [_ Ht].
    destruct (IH t Hs Ht H) as [-> ->]. done.
Qed.
Lemma generateErrorPageName_inj i j i' j' :
  (0 ≤ i)%Z → (0 ≤ j)%Z → (0 ≤ i')%Z → (0 ≤ j')%Z →
  generateErrorPageName i j = generateErrorPageName i' j' → i = i' ∧ j = j'.
Proof.
  intros Hi Hj Hi' Hj' H. unfold generateErrorPageName in H. apply string_app_inj_l in H.
  apply (decimal_sep _ _ (fmtInt j) (fmtInt j')) in H as [H1%fmtInt_inj H2%fmtInt_inj]; try done; by apply fmtInt_decimal.
Qed.

Lemma pageLocations_named index pages first locs :
  (0 ≤ index)%Z →
  mapM (λ ie, generateErrorPageLocation index ie.1 ie.2) (imap (λ i e, (first + i, e)) pages) = Some locs →
  NoDup (epl_Name <$> mjoin locs) ∧
  ∀ e, e ∈ mjoin locs → ∃ j, (Z.of_nat first ≤ j)%Z ∧ epl_Name e = generateErrorPageName index j.
Proof.
  intros Hindex. revert first locs. induction pages as [|e pages IH]; intros first locs H.
  { injection H as <-. split; [apply NoDup_nil_2|by intros e ?%elem_of_nil]. }
  cbn [imap] in H. cbn [mapM] in H. apply bind_Some in H as (l & Hl & H). apply bind_Some in H as (ls & Hls & H). injection H as <-.
  destruct (IH (S first) ls) as [Hnd Hall].
  { rewrite <-Hls. f_equal. apply imap_ext. intros i x _. simpl. f_equal. lia. }
  rewrite Nat.add_0_r in Hl. cbn [fst snd] in Hl. change (mjoin (l :: ls)) with (l ++ mjoin ls).
  unfold generateErrorPageLocation in Hl. destruct (ep_Redirect e); [injection Hl as <-|].
  { split; [done|]. intros x Hx. destruct (Hall x Hx) as (j & Hj & Hn). exists j. split; [lia|done]. }
  apply bind_Some in Hl as (ret & _ & Hl). injection Hl as <-. split.
  - simpl. apply NoDup_cons. split; [|done]. intros (x & Heq & Hx)%list_elem_of_fmap.
    destruct (Hall x Hx) as (j & Hj & Hn). rewrite Hn in Heq. apply generateErrorPageName_inj in Heq; lia.
  - intros x [->|Hx]%elem_of_cons; [exists (Z.of_nat first); split; [lia|done]|].
    destruct (Hall x Hx) as (j & Hj & Hn). exists j. split; [lia|done].
Qed.

(** ** The policies that govern a route *)
Section Effective.
Context `{LSel : LabelSelectors}.
Variable vsEx : VirtualServerEx.
Notation vs := (vsx_VirtualServer vsEx).

(** the VirtualServerRoutes to which a route of the VirtualServer leads *)
Definition passedTo (r : Route) : list string :=
  if negb (bool_decide (r_Route r = "")) then
    [if HasNamespace (r_Route r) then r_Route r else om_Namespace (vs_Meta vs) +:+ "/" +:+ r_Route r]
  else match r_RouteSelector r with
  | None => []
  | Some matchLabels =>
      match LabelSelectorAsSelector matchLabels with
      | inl _ => []
      | inr (selectorKey, _) => default [] (vsx_VirtualServerSelectorRoutes vsEx !! selectorKey)
      end
  end.
(** the policies of the last route with policies that leads to a VirtualServerRoute *)
Definition inheritedPolicies (routes : list Route) (name : string) : list PolicyReference :=
  foldl (λ refs r, if bool_decide (name ∈ passedTo r ∧ r_Policies r ≠ []) then r_Policies r else refs) [] routes.
Definition vsrFullName (vsr : VirtualServerRoute) : string := om_Namespace (vsr_Meta vsr) +:+ "/" +:+ om_Name (vsr_Meta vsr).

(** the route, its owner, and the references of its policies with their owner and
    context: a subroute without policies is governed by those of the VirtualServer *)
Inductive effective : Route → ownerObject → ownerObject → list PolicyReference → string → Prop :=
  | effective_route r :
      r ∈ vs_Routes vs → r_Route r = "" → r_RouteSelector r = None →
      effective r (OwnerVS vs) (OwnerVS vs) (r_Policies r) routeContext
  | effective_subroute i vsr r :
      vsx_VirtualServerRoutes vsEx !! i = Some vsr → r ∈ vsr_Subroutes vsr → r_Policies r ≠ [] →
      effective r (OwnerVSR i vsr) (OwnerVSR i vsr) (r_Policies r) subRouteContext
  | effective_inherited i vsr r :
      vsx_VirtualServerRoutes vsEx !! i = Some vsr → r ∈ vsr_Subroutes vsr → r_Policies r = [] →
      effective r (OwnerVSR i vsr) (OwnerVS vs) (inheritedPolicies (vs_Routes vs) (vsrFullName vsr)) routeContext.

(** the routes of the VirtualServer and the subroutes of its VirtualServerRoutes *)
Definition allRoutes : list Route := vs_Routes vs ++ (vsx_VirtualServerRoutes vsEx ≫= vsr_Subroutes).
Definition namerOf (owner : ownerObject) : upstreamNamer :=
  match owner with
  | OwnerVS _ => NewUpstreamNamerForVirtualServer vs
  | OwnerVSR _ vsr => NewUpstreamNamerForVirtualServerRoute vs vsr
  end.
End Effective.

(** the configuration of a context after the inheritance of CORS and OIDC from the server *)
Record inherits (pcfg cfg : policiesCfg) : Prop := {
  inh_same : set_OIDC None (set_CORSHeaders [] cfg) = set_OIDC None (set_CORSHeaders [] pcfg);
  inh_cors : pc_CORSHeaders pcfg ≠ [] → pc_CORSHeaders cfg = pc_CORSHeaders pcfg;
  inh_oidc : is_Some (pc_OIDC pcfg) → pc_OIDC cfg = pc_OIDC pcfg
}.

(** ** The invariant of the generation *)
Section Invariant.
Context `{UL : URLLib} `{LT : UnicodeLower} `{PL : PolicyLib} `{MR : MapRange} `{UT : UnicodeTables}.
Context `{LS : LabelSets} `{SS : SliceSort} `{LSel : LabelSelectors}.
Variable gi : generationInput.
Notation vs := (vsx_VirtualServer (gi_vsEx gi)).
Notation filed := {| sm_locations := None; sm_policies := vsx_Policies (gi_vsEx gi) |}.
Implicit Types (st : generation) (cfg pcfg : policiesCfg).

Definition upstreamNames st : list string := vu_Name <$> ua_upstreams (vg_upstreams st).
Definition pagesDeclared st (pages : option (list ErrorPage)) (index : Z) : Prop :=
  (∃ r, r ∈ allRoutes (gi_vsEx gi) ∧ r_ErrorPages r = pages) ∧
  ∃ locs, generateErrorPageLocations index (default [] pages) = Some locs ∧ locs ⊆ vg_errorPageLocations st.

(** a location of an external authentication *)
Definition authLocated st (loc : LocationCfg) : Prop :=
  ∃ ea uri name, name ∈ upstreamNames st ∧
    (loc = generateExternalAuthLocation (vsc_cfgParams (gi_vsc gi)) ea uri name ∨
     loc = generateExternalAuthOAuth2Location (vsc_cfgParams (gi_vsc gi)) ea uri name).
(** a location of an action of a route, with the policies that govern the route *)
Definition routeLocated st (loc : LocationCfg) : Prop :=
  ∃ r owner policyOwner refs context opts sm pcfg w sm' cfg rx base dos inherit,
    effective (gi_vsEx gi) r owner policyOwner refs context ∧
    (po_oidcPolicyName opts ≠ "" → is_Some (po_oidcConfig opts)) ∧ migrated filed sm ∧
    generatePolicies {| ctx_owner := ownerDetails vs policyOwner; ctx_context := context; ctx_path := r_Path r;
                        ctx_opts := opts; ctx_bundles := vsc_bundleValidator (gi_vsc gi) |} refs sm = Some (pcfg, w, sm') ∧
    inherits pcfg cfg ∧ rx_upstreamNamer rx = namerOf (gi_vsEx gi) owner ∧
    pagesDeclared st (epd_pages (lc_errorPages (rx_locations rx))) (epd_index (lc_errorPages (rx_locations rx))) ∧
    routingOrigin rx r (rp_ReturnLocations (vg_parts st)) (vg_internalRedirects st) base ∧
    loc = addRouteSettingsToLocation dos inherit (addPoliciesCfgToLocation cfg base).
Definition located st loc : Prop := authLocated st loc ∨ routeLocated st loc.

Record grows st st' : Prop := {
  gr_returns : rp_ReturnLocations (vg_parts st) ⊆ rp_ReturnLocations (vg_parts st');
  gr_pages : vg_errorPageLocations st ⊆ vg_errorPageLocations st';
  gr_upstreams : upstreamNames st ⊆ upstreamNames st';
  gr_redirects : vg_internalRedirects st ⊆ vg_internalRedirects st'
}.
#[local] Instance grows_preorder : PreOrder grows.
Proof. split; [by intros st|]. intros st1 st2 st3 [] []. split; by etrans. Qed.
Lemma pagesDeclared_grows st st' pages index : grows st st' → pagesDeclared st pages index → pagesDeclared st' pages index.
Proof. intros Hg (Hr & locs & H & Hsub). split; [done|]. exists locs. split; [done|]. etrans; [done|apply Hg]. Qed.
Lemma located_grows st st' loc : grows st st' → located st loc → located st' loc.
Proof.
  intros Hg [(ea & uri & name & Hn & H)|H].
  - left. exists ea, uri, name. split; [by apply (gr_upstreams _ _ Hg)|done].
  - right. destruct H as (r & owner & po & refs & context & opts & sm & pcfg & w & sm' & cfg & rx & base & dos & inherit & H).
    exists r, owner, po, refs, context, opts, sm, pcfg, w, sm', cfg, rx, base, dos, inherit.
    destruct H as (? & ? & ? & ? & ? & ? & Hp & Ha & ?). split_and!; try done; [by eapply pagesDeclared_grows|].
    eapply routingOrigin_mono; [apply Hg|apply Hg|done].
Qed.

(** names @error_page_i_j with [i] below the number of locations *)
Record pagesNamed (locs : list ErrorPageLocationCfg) : Prop := {
  pn_nodup : NoDup (epl_Name <$> locs);
  pn_index e : e ∈ locs → ∃ i j, (0 ≤ i < Z.of_nat (length locs))%Z ∧ (0 ≤ j)%Z ∧ epl_Name e = generateErrorPageName i j
}.

Record sane (routes : list Route) st : Prop := {
  sn_locations loc : loc ∈ rp_Locations (vg_parts st) → located st loc;
  sn_numbered : numberedFrom 0 (rp_ReturnLocations (vg_parts st));
  sn_pages : pagesNamed (vg_errorPageLocations st);
  sn_inheritedPages name pages index :
    vi_ErrorPages (vg_inherited st) !! name = Some (pages, index) → pagesDeclared st pages index;
  sn_inheritedPolicies name :
    default [] (vi_Policies (vg_inherited st) !! name) = inheritedPolicies (gi_vsEx gi) routes name;
  sn_shared : migrated filed (vg_shared st);
  sn_oidc : po_oidcPolicyName (vg_opts st) ≠ "" → is_Some (po_oidcConfig (vg_opts st))
}.

(** a step that adds no location of a route and no page *)
Lemma sane_step routes st st' :
  (∀ loc, loc ∈ rp_Locations (vg_parts st') → loc ∈ rp_Locations (vg_parts st) ∨ located st' loc) →
  rp_ReturnLocations (vg_parts st') = rp_ReturnLocations (vg_parts st) →
  vg_errorPageLocations st' = vg_errorPageLocations st → vg_inherited st' = vg_inherited st →
  vg_internalRedirects st' = vg_internalRedirects st →
  upstreamNames st ⊆ upstreamNames st' → migrated filed (vg_shared st') →
  (po_oidcPolicyName (vg_opts st') ≠ "" → is_Some (po_oidcConfig (vg_opts st'))) →
  sane routes st → sane routes st' ∧ grows st st'.
Proof.
  intros Hl Hr Hp Hi Hd Hu Hs Ho Hst.
  assert (grows st st') as Hg by (split; [by rewrite Hr|by rewrite Hp|done|by rewrite Hd]).
  split; [|done]. destruct Hst. split; rewrite ?Hr, ?Hp, ?Hi; try done.
  - intros loc [Hloc|Hloc]%Hl; [|done]. eapply located_grows; [done|by auto].
  - intros name pages index Hn. eapply pagesDeclared_grows; [done|by eauto].
Qed.

(** *** The steps of a context *)
Ltac same_parts := first [done | by intros ? ?; left].

Lemma runPolicies_sane routes owner refs context path st cfg st' :
  runPolicies gi owner refs context path st = Some (cfg, st') → sane routes st →
  sane routes st' ∧ grows st st' ∧
  ∃ w sm', generatePolicies {| ctx_owner := ownerDetails vs owner; ctx_context := context; ctx_path := path;
                               ctx_opts := vg_opts st; ctx_bundles := vsc_bundleValidator (gi_vsc gi) |}
             refs (vg_shared st) = Some (cfg, w, sm').
Proof.
  unfold runPolicies. cbv zeta. intros H Hst. destruct (generatePolicies _ _ _) as [[[cfg' w] sm]|] eqn:Hg; [|done].
  cbn [mbind option_bind] in H. injection H as -> <-.
  match goal with |- sane _ ?st' ∧ _ => enough (sane routes st' ∧ grows st st') as [? ?] by eauto 10 end.
  apply sane_step; try same_parts; [|apply Hst]. simpl. etrans; [apply Hst|]. by eapply generatePolicies_ok.
Qed.

Lemma inheritance_inherits b st cfg :
  let '(cfg', st') := inheritOIDC b (inheritCORS st cfg) st in
  inherits cfg cfg' ∧ ∀ routes, sane routes st → sane routes st' ∧ grows st st'.
Proof.
  assert (inherits cfg (inheritCORS st cfg)) as Hc.
  { unfold inheritCORS. destruct (pc_CORSHeaders cfg) eqn:E; split; try done; by rewrite E. }
  unfold inheritOIDC. destruct (pc_OIDC (inheritCORS st cfg)) as [oidc|] eqn:Ho.
  - split; [done|]. intros routes Hst. apply sane_step; try same_parts. apply Hst.
  - destruct (b && _); (split; [|intros routes Hst; split; [done|reflexivity]]); [|done].
    destruct Hc as [H1 H2 H3]. split; try done. intros Hs. rewrite (H3 Hs) in Ho. by rewrite Ho in Hs; apply is_Some_None in Hs.
Qed.

Lemma recordAuthentication_sane routes cfg st st' :
  recordAuthentication cfg st = Some st' → sane routes st → sane routes st' ∧ grows st st'.
Proof.
  unfold recordAuthentication. intros H Hst. apply bind_Some in H as (st1 & H1 & H).
  assert (∀ p, sane routes (vg_set_policies p st) ∧ grows st (vg_set_policies p st)) as Hp.
  { intros p. apply sane_step; try same_parts; apply Hst. }
  assert (sane routes st1 ∧ grows st st1 ∧ ∃ p, st1 = vg_set_policies p st) as (Hst1 & Hg & p & ->).
  { destruct (jac_JWKSEnabled _); [apply bind_Some in H1 as (auth & _ & H1)|]; injection H1 as <-.
    - destruct (Hp (withJWKS (vjwt_Key auth) auth (vg_policies st))). eauto.
    - split_and!; [done|reflexivity|]. exists (vg_policies st). by destruct st. }
  destruct (aka_Enabled _); [apply bind_Some in H as (key & _ & H)|]; injection H as <-; [|done]. apply Hp.
Qed.

Lemma recordPolicies_sane routes cfg st : sane routes st → sane routes (recordPolicies cfg st) ∧ grows st (recordPolicies cfg st).
Proof.
  intros Hst. apply sane_step; try same_parts; try apply Hst; simpl.
  - intros loc Hl. left. by rewrite app_nil_r in Hl.
  - by rewrite app_nil_r.
Qed.

Lemma upstreamNames_added u owner ns namer vsEx acc w :
  let '(acc', _) := generateUpstreams (gi_sslConfig gi) (gi_vsc gi) u owner ns namer vsEx acc w in
  vu_Name <$> ua_upstreams acc' = (vu_Name <$> ua_upstreams acc) ++ [GetNameForUpstream namer (u_Name u)].
Proof.
  unfold generateUpstreams. cbv zeta. destruct (generateEndpointsForUpstream _ _ _ _ _ _) as [eps w1].
  destruct (generateBackupEndpointsForUpstream _ _ _ _ _ _) as [bps w2].
  destruct (generateUpstream _ _ _ _ _ _ _ _) as [ups w3] eqn:Hu. cbn [ua_upstreams]. rewrite fmap_app. f_equal. simpl. f_equal.
  revert Hu. unfold generateUpstream. cbv zeta. destruct (if vsc_isPlus _ then _ else _). by intros [= <- _].
Qed.

Lemma generateExternalAuth_sane routes owner namer ea uri st :
  sane routes st → sane routes (generateExternalAuth gi owner namer ea uri st) ∧ grows st (generateExternalAuth gi owner namer ea uri st).
Proof.
  intros Hst. unfold generateExternalAuth. cbv zeta. destruct (getExAuthServicePort _ _ _ _) as [port w].
  match goal with |- context [generateUpstreams ?a ?b ?u ?o ?ns ?n ?e ?acc ?w] =>
    pose proof (upstreamNames_added u o ns n e acc w) as Hnames;
    destruct (generateUpstreams a b u o ns n e acc w) as [ups w'] end.
  cbn [vg_upstreams vg_set_parts vg_set_externalAuthURLs u_Name plainUpstream] in Hnames.
  set (name := GetNameForUpstream namer (auri_Upstream uri)) in *.
  set (st1 := vg_set_warnings w' _).
  assert (upstreamNames st1 = upstreamNames st ++ [name]) as Hn1 by exact Hnames.
  assert (∀ loc, (loc = generateExternalAuthLocation (vsc_cfgParams (gi_vsc gi)) ea uri name ∨
                  loc = generateExternalAuthOAuth2Location (vsc_cfgParams (gi_vsc gi)) ea uri name) →
            ∀ st', upstreamNames st' = upstreamNames st1 → located st' loc) as Hloc.
  { intros loc Hl st' Hn. left. exists ea, uri, name. split; [|done]. rewrite Hn, Hn1. set_solver. }
  assert (sane routes st1 ∧ grows st st1) as [Hst1 Hg1].
  { apply sane_step; try done; try apply Hst; [|apply app_nil_r|rewrite Hn1; set_solver].
    intros loc [Hl|Hl%list_elem_of_singleton]%elem_of_app; [by left|]. right. apply Hloc; [by left|done]. }
  case_bool_decide; [done|]. destruct (vg_oauth2Location _).
  - enough (∀ v, sane routes (vg_set_externalAuthURLs v st1) ∧ grows st1 (vg_set_externalAuthURLs v st1)) as Hv.
    { destruct (Hv ({[vea_SigninURL ea]} ∪ vg_externalAuthURLs st1)). split; [done|by etrans]. }
    intros v. apply sane_step; try same_parts; apply Hst1.
  - match goal with |- sane _ ?st2 ∧ _ => enough (sane routes st2 ∧ grows st1 st2) as [? ?] by (split; [done|by etrans]) end.
    apply sane_step; try done; try apply Hst1; [|apply app_nil_r].
    intros loc [Hl|Hl%list_elem_of_singleton]%elem_of_app; [by left|]. right. apply Hloc; [by right|done].
Qed.

Lemma addRouteExternalAuth_sane routes owner namer path cfg st st' :
  addRouteExternalAuth gi owner namer path cfg st = Some st' → sane routes st → sane routes st' ∧ grows st st'.
Proof.
  unfold addRouteExternalAuth. intros H Hst. destruct (pc_ExternalAuth cfg) as [ea|]; [|injection H as <-; split; [done|reflexivity]].
  apply bind_Some in H as (uri & _ & H). case_bool_decide; injection H as <-; [|by apply generateExternalAuth_sane].
  apply sane_step; try same_parts; apply Hst.
Qed.

(** the policies that govern a route, with what was inherited *)
Definition governed st (rs : routeSettings) (r : Route) (cfg : policiesCfg) : Prop :=
  effective (gi_vsEx gi) r (rs_owner rs) (rs_policyOwner rs) (rs_policyRefs rs) (rs_context rs) ∧ rs_namer rs = namerOf (gi_vsEx gi) (rs_owner rs) ∧
  pagesDeclared st (epd_pages (rs_errorPages rs)) (epd_index (rs_errorPages rs)) ∧
  ∃ opts sm pcfg w sm', (po_oidcPolicyName opts ≠ "" → is_Some (po_oidcConfig opts)) ∧ migrated filed sm ∧
    generatePolicies {| ctx_owner := ownerDetails vs (rs_policyOwner rs); ctx_context := rs_context rs; ctx_path := r_Path r;
                        ctx_opts := opts; ctx_bundles := vsc_bundleValidator (gi_vsc gi) |} (rs_policyRefs rs) sm
      = Some (pcfg, w, sm') ∧ inherits pcfg cfg.
Lemma governed_grows st st' rs r cfg : grows st st' → governed st rs r cfg → governed st' rs r cfg.
Proof. intros Hg (? & ? & Hp & ?). split_and!; [done|done|by eapply pagesDeclared_grows|done]. Qed.

Lemma addRouting_sane routes rs r cfg st st' :
  addRouting gi rs r cfg st = Some st' → governed st rs r cfg → sane routes st → sane routes st' ∧ grows st st'.
Proof.
  unfold addRouting. cbv zeta. intros H Hgov Hst.
  destruct (generateRouting _ _ _ _ _ _) as [[[new redirect] w]|] eqn:Hr; [|done]. cbn [mbind option_bind] in H.
  pose proof Hr as [_ Hnum]%generateRouting_routed.
  set (dos := generateDosCfg (gi_dosResources gi !! r_Path r)) in H.
  set (settle l := addRouteSettingsToLocation dos (rs_addHeaderInherit rs) (addPoliciesCfgToLocation cfg l)) in H.
  set (st1 := vg_set_internalRedirects _ _) in H.
  assert (vg_parts st' = appendParts (vg_parts st) (mapLocations settle new) ∧ vg_errorPageLocations st' = vg_errorPageLocations st ∧
    vg_inherited st' = vg_inherited st ∧ vg_upstreams st' = vg_upstreams st ∧ vg_shared st' = vg_shared st ∧ vg_opts st' = vg_opts st ∧
    vg_internalRedirects st' = vg_internalRedirects st ++ option_list redirect)
    as (Hparts & Hpages & Hinh & Hups & Hsh & Hopts & Hred) by (destruct (r_Matches r); injection H as <-; done).
  assert (grows st st') as Hg.
  { split; [rewrite Hparts; simpl; set_solver|by rewrite Hpages|unfold upstreamNames; by rewrite Hups|rewrite Hred; set_solver]. }
  split; [|done]. destruct Hst as [H1 H2 H3 H4 H5 H6 H7]. split; rewrite ?Hpages, ?Hinh, ?Hsh, ?Hopts; try done.
  - intros loc. rewrite Hparts. simpl. intros [Hl|Hl]%elem_of_app; [by eapply located_grows; [|apply H1]|].
    apply list_elem_of_fmap in Hl as (base & -> & Hbase). right.
    apply (governed_grows _ st') in Hgov as (He & Hnamer & Hp & opts & sm & pcfg & pw & sm' & Ho & Hm & Hgen & Hi); [|done].
    eexists r, (rs_owner rs), (rs_policyOwner rs), (rs_policyRefs rs), (rs_context rs), opts, sm, pcfg, pw, sm', cfg, _, base,
      dos, (rs_addHeaderInherit rs).
    split_and!; [done..| | | |]; [| | |reflexivity].
    3:{ eexists _, _, _, _, new, redirect, w. split_and!; [exact Hr|done|rewrite Hparts; simpl; set_solver|rewrite Hred; set_solver]. }
    + unfold routingOf. destruct (rs_owner rs); done.
    + unfold routingOf. destruct (rs_owner rs); done.
  - rewrite Hparts. simpl. apply numberedFrom_app; [done|]. by rewrite Z.add_0_l.
  - intros name pages index Hn. eapply pagesDeclared_grows; [done|by eapply H4].
Qed.

Lemma generateRoute_sane routes b rs r st st' :
  generateRoute gi b rs r st = Some st' →
  effective (gi_vsEx gi) r (rs_owner rs) (rs_policyOwner rs) (rs_policyRefs rs) (rs_context rs) → rs_namer rs = namerOf (gi_vsEx gi) (rs_owner rs) →
  pagesDeclared st (epd_pages (rs_errorPages rs)) (epd_index (rs_errorPages rs)) →
  sane routes st → sane routes st' ∧ grows st st'.
Proof.
  unfold generateRoute. intros H He Hn Hp Hst. apply bind_Some in H as ([cfg st1] & H1 & H). cbv zeta in H.
  pose proof (sn_shared _ _ Hst) as Hsh. pose proof (sn_oidc _ _ Hst) as Hoi.
  apply (runPolicies_sane routes) in H1 as (Hst1 & Hg1 & w & sm' & Hgen); [|done].
  pose proof (inheritance_inherits b st1 cfg) as Hinh.
  destruct (inheritOIDC b (inheritCORS st1 cfg) st1) as [cfg2 st2]. destruct Hinh as [Hinh Hst2].
  destruct (Hst2 routes Hst1) as [Hst2' Hg2]. apply bind_Some in H as (st3 & H3 & H). apply bind_Some in H as (st4 & H4 & H).
  apply (recordAuthentication_sane routes) in H3 as [Hst3 Hg3]; [|done].
  apply (addRouteExternalAuth_sane routes) in H4 as [Hst4 Hg4]; [|done].
  destruct (recordPolicies_sane routes cfg2 st4 Hst4) as [Hst5 Hg5].
  assert (grows st (recordPolicies cfg2 st4)) as Hg by (do 4 (etrans; [eassumption|]); done).
  apply (addRouting_sane routes) in H as [Hst6 Hg6]; [|eapply (governed_grows st); [done|]|done].
  - split; [done|by etrans].
  - split_and!; [done|done|done|]. by eexists (vg_opts st), (vg_shared st), cfg, w, sm'.
Qed.

(** *** The loops *)
Lemma addErrorPages_sane routes owner r st ep st' :
  addErrorPages owner r st = Some (ep, st') → r ∈ allRoutes (gi_vsEx gi) → sane routes st →
  sane routes st' ∧ grows st st' ∧ pagesDeclared st' (epd_pages ep) (epd_index ep) ∧ epd_pages ep = r_ErrorPages r ∧
  vg_inherited st' = vg_inherited st.
Proof.
  unfold addErrorPages. cbv zeta. intros H Hr Hst. apply bind_Some in H as (locs & Hl & H). injection H as <- <-.
  cbn [generateErrorPageDetails epd_index epd_pages] in *.
  assert (grows st (vg_set_errorPageLocations (vg_errorPageLocations st ++ locs) st)) as Hg.
  { split; simpl; [done|set_solver|done|done]. }
  split_and!; [|done|split; [by exists r|]; exists locs; split; [done|simpl; set_solver]|done|done].
  pose proof Hst as [H1 H2 [Hnd Hidx] H4 H5 H6 H7]. split; try done.
  - intros loc Hloc. eapply located_grows; [done|by apply H1].
  - simpl. unfold generateErrorPageLocations in Hl. apply fmap_Some in Hl as (ls & Hl & ->).
    destruct (pageLocations_named (Z.of_nat (length (vg_errorPageLocations st))) _ 0 ls ltac:(lia) Hl) as [Hnd' Hall].
    split.
    + rewrite fmap_app. apply NoDup_app. split_and!; [done| |done]. intros n (e & -> & He)%list_elem_of_fmap (e' & Heq & He')%list_elem_of_fmap.
      destruct (Hidx e He) as (i & j & Hi & Hj & Hn), (Hall e' He') as (j' & Hj' & Hn'). rewrite Hn, Hn' in Heq.
      apply generateErrorPageName_inj in Heq; lia.
    + intros e [He|He]%elem_of_app; rewrite length_app, Nat2Z.inj_add.
      * destruct (Hidx e He) as (i & j & Hi & Hj & Hn). exists i, j. split_and!; [lia..|done].
      * destruct (Hall e He) as (j & Hj & Hn). exists (Z.of_nat (length (vg_errorPageLocations st))), j.
        split_and!; [lia| |lia|done]. destruct (mjoin ls); [by apply elem_of_nil in He|]. simpl. lia.
  - intros name pages index Hn. eapply pagesDeclared_grows; [done|by eapply H4].
Qed.

Lemma assignAll_lookup {A} isSet names (v : A) (m : gmap string A) k :
  assignAll isSet names v m !! k = if isSet && bool_decide (k ∈ names) then Some v else m !! k.
Proof.
  unfold assignAll. destruct isSet; [|done]. simpl. revert m. induction names as [|n names IH]; intros m; [done|].
  simpl. rewrite IH. destruct (decide (k ∈ names)) as [Hin|Hin].
  - rewrite !bool_decide_eq_true_2 by set_solver. done.
  - rewrite (bool_decide_eq_false_2 (k ∈ names)) by done. destruct (decide (k = n)) as [->|Hne].
    + rewrite bool_decide_eq_true_2 by set_solver. apply lookup_insert_eq.
    + rewrite bool_decide_eq_false_2 by set_solver. by rewrite lookup_insert_ne.
Qed.
Lemma inheritedPolicies_snoc routes r name :
  inheritedPolicies (gi_vsEx gi) (routes ++ [r]) name
  = if bool_decide (name ∈ passedTo (gi_vsEx gi) r ∧ r_Policies r ≠ []) then r_Policies r else inheritedPolicies (gi_vsEx gi) routes name.
Proof. unfold inheritedPolicies. by rewrite foldl_app. Qed.

Lemma recordInherited_sane routes r ep st :
  sane routes st → pagesDeclared st (epd_pages ep) (epd_index ep) →
  sane (routes ++ [r]) (vg_set_inherited (recordInherited (passedTo (gi_vsEx gi) r) r ep (vg_inherited st)) st).
Proof.
  intros [H1 H2 H3 H4 H5 H6 H7] Hp. split; try done; simpl.
  - intros name pages index. rewrite assignAll_lookup. case_match; [|by apply H4]. by intros [= <- <-].
  - intros name. rewrite assignAll_lookup, inheritedPolicies_snoc, <-H5.
    destruct (r_Policies r) as [|rf rfs] eqn:Hr; simpl.
    + rewrite bool_decide_eq_false_2; [done|]. by intros [_ []].
    + destruct (decide (name ∈ passedTo (gi_vsEx gi) r)); [rewrite !bool_decide_eq_true_2 by done; done|].
      rewrite !bool_decide_eq_false_2; [done|by intros []|done].
Qed.
Lemma passedTo_nothing_sane routes r st :
  passedTo (gi_vsEx gi) r = [] → sane routes st → sane (routes ++ [r]) st.
Proof.
  intros Hr [H1 H2 H3 H4 H5 H6 H7]. split; try done. intros name. rewrite H5, inheritedPolicies_snoc, Hr.
  rewrite bool_decide_eq_false_2; [done|]. by intros [?%elem_of_nil _].
Qed.

Lemma generateVSRoute_sane routes b st r st' :
  generateVSRoute gi b st r = Some st' → r ∈ vs_Routes vs → sane routes st → sane (routes ++ [r]) st' ∧ grows st st'.
Proof.
  unfold generateVSRoute. cbv zeta. intros H Hr Hst. apply bind_Some in H as ([ep st1] & H1 & H).
  apply (addErrorPages_sane routes) in H1 as (Hst1 & Hg1 & Hp & _ & _); [|by apply elem_of_app; left|done].
  destruct (bool_decide_reflect (r_Route r = "")) as [Hroute|Hroute]; simpl in H.
  - destruct (r_RouteSelector r) as [labels|] eqn:Hsel.
    + destruct (LabelSelectorAsSelector labels) as [err|[key ?]] eqn:Hl; injection H as <-.
      * assert (passedTo (gi_vsEx gi) r = []) as Hno.
        { unfold passedTo. by rewrite (bool_decide_eq_true_2 _ Hroute), Hsel, Hl. }
        destruct (sane_step routes st1 (vg_set_warnings (addOwnerWarning (vg_warnings st1) (OwnerVS vs)
          ("Invalid routeSelector in route with path " +:+ r_Path r +:+ ": " +:+ err)) st1)) as [Hst2 Hg2];
          try same_parts; try apply Hst1. split; [by apply passedTo_nothing_sane|by etrans].
      * replace (default [] (vsx_VirtualServerSelectorRoutes (gi_vsEx gi) !! key)) with (passedTo (gi_vsEx gi) r)
          by (unfold passedTo; by rewrite (bool_decide_eq_true_2 _ Hroute), Hsel, Hl).
        split; [by apply recordInherited_sane|]. etrans; [done|]. by split.
    + apply (generateRoute_sane routes) in H as [Hst2 Hg2]; [|by constructor|done|done|done].
      split; [|by etrans]. apply passedTo_nothing_sane; [|done]. unfold passedTo. by rewrite (bool_decide_eq_true_2 _ Hroute), Hsel.
  - injection H as <-.
    replace [if HasNamespace (r_Route r) then r_Route r else om_Namespace (vs_Meta vs) +:+ "/" +:+ r_Route r] with (passedTo (gi_vsEx gi) r)
      by (unfold passedTo; by rewrite (bool_decide_eq_false_2 _ Hroute)).
    split; [by apply recordInherited_sane|]. etrans; [done|]. by split.
Qed.

Lemma generateSubroute_sane b i vsr st r st' :
  generateSubroute gi b i vsr st r = Some st' → vsx_VirtualServerRoutes (gi_vsEx gi) !! i = Some vsr → r ∈ vsr_Subroutes vsr →
  sane (vs_Routes vs) st → sane (vs_Routes vs) st' ∧ grows st st'.
Proof.
  unfold generateSubroute. cbv zeta. intros H Hi Hr Hst. apply bind_Some in H as ([ep st1] & H1 & H).
  apply (addErrorPages_sane (vs_Routes vs)) in H1 as (Hst1 & Hg1 & Hp & _ & _);
    [|apply elem_of_app; right; apply list_elem_of_bind; exists vsr; split; [done|by eapply list_elem_of_lookup_2]|done]. fold (vsrFullName vsr) in H.
  set (ep' := match r_ErrorPages r with Some _ => ep | None => _ end) in H.
  assert (pagesDeclared st1 (epd_pages ep') (epd_index ep')) as Hp'.
  { subst ep'. destruct (r_ErrorPages r); [done|].
    destruct (vi_ErrorPages (vg_inherited st1) !! vsrFullName vsr) as [[pages index]|] eqn:Hv; [|done].
    by eapply (sn_inheritedPages _ _ Hst1). }
  destruct (r_Policies r) as [|rf rfs] eqn:Hpol; (apply (generateRoute_sane (vs_Routes vs)) in H as [Hst2 Hg2];
    [split; [done|by etrans]| |done|done|done]); cbn [rs_owner rs_policyOwner rs_policyRefs rs_context].
  - rewrite (sn_inheritedPolicies _ _ Hst1). by constructor.
  - rewrite <-Hpol. constructor; [done|done|]. by rewrite Hpol.
Qed.

Lemma foldM_sane {B} (f : generation → B → option generation) routes st l st' :
  (∀ st b st', b ∈ l → f st b = Some st' → sane routes st → sane routes st' ∧ grows st st') →
  foldM f st l = Some st' → sane routes st → sane routes st' ∧ grows st st'.
Proof.
  intros Hf H Hst.
  refine (foldM_preserves (λ x, sane routes x ∧ grows st x) f l st st' _ _ H); [|split; [done|reflexivity]].
  intros x y z Hy [Hx Hgx] Hz. destruct (Hf x y z Hy Hz Hx). split; [done|by etrans].
Qed.

Lemma generateVSRoutes_sane b st l st' routes :
  foldM (generateVSRoute gi b) st l = Some st' → l ⊆ vs_Routes vs → sane routes st → sane (routes ++ l) st' ∧ grows st st'.
Proof.
  revert st routes. induction l as [|r l IH]; intros st routes H Hl Hst.
  { injection H as <-. rewrite app_nil_r. split; [done|reflexivity]. }
  rewrite foldM_cons in H. apply bind_Some in H as (st1 & H1 & H).
  apply (generateVSRoute_sane routes) in H1 as [Hst1 Hg1]; [|set_solver|done].
  apply (IH st1 (routes ++ [r])) in H as [Hst2 Hg2]; [|set_solver|done]. rewrite <-app_assoc in Hst2. split; [done|by etrans].
Qed.

Lemma generateRoutes_sane st st' :
  generateRoutes gi st = Some st' → sane [] st → sane (vs_Routes vs) st' ∧ grows st st'.
Proof.
  unfold generateRoutes. cbv zeta. intros H Hst. apply bind_Some in H as (st1 & H1 & H).
  apply (generateVSRoutes_sane _ _ _ _ []) in H1 as [Hst1 Hg1]; [|done|done].
  apply (foldM_sane _ (vs_Routes vs)) in H as [Hst2 Hg2]; [split; [done|by etrans]| |done].
  intros st2 [i vsr] st3 Hi%elem_of_imap_pair H2 Hst2. cbn [fst snd] in H2.
  apply (foldM_sane _ (vs_Routes vs)) in H2; [done| |done]. intros st4 r st5 Hr H4 Hst4. by eapply generateSubroute_sane.
Qed.

(** *** The upstreams *)
Lemma addUpstream_sane routes owner namer st u :
  sane routes st → sane routes (addUpstream gi owner namer st u) ∧ grows st (addUpstream gi owner namer st u) ∧
  GetNameForUpstream namer (u_Name u) ∈ upstreamNames (addUpstream gi owner namer st u).
Proof.
  intros Hst. unfold addUpstream.
  match goal with |- context [generateUpstreams ?a ?b ?u ?o ?ns ?n ?e ?acc ?w] =>
    pose proof (upstreamNames_added u o ns n e acc w) as Hnames; destruct (generateUpstreams a b u o ns n e acc w) as [ups w'] end.
  change (vu_Name <$> ua_upstreams (vg_upstreams st)) with (upstreamNames st) in Hnames.
  match goal with |- sane _ ?st' ∧ _ ∧ _ => enough (sane routes st' ∧ grows st st') as [? ?]; [split_and!; [done|done|]|] end.
  - unfold upstreamNames. simpl. rewrite Hnames. set_solver.
  - apply sane_step; try same_parts; try apply Hst. unfold upstreamNames at 2. simpl. rewrite Hnames. set_solver.
Qed.
Lemma foldl_addUpstream_sane routes owner namer st l :
  sane routes st → let st' := foldl (addUpstream gi owner namer) st l in
  sane routes st' ∧ grows st st' ∧ ∀ u, u ∈ l → GetNameForUpstream namer (u_Name u) ∈ upstreamNames st'.
Proof.
  cbv zeta. revert st. induction l as [|u l IH]; intros st Hst; [by split_and!; [|reflexivity|intros u ?%elem_of_nil]|]. simpl.
  destruct (addUpstream_sane routes owner namer st u Hst) as (Hst1 & Hg1 & Hu). destruct (IH _ Hst1) as (Hst2 & Hg2 & Hall).
  split_and!; [done|by etrans|]. intros u' [->|Hu']%elem_of_cons; [by apply (gr_upstreams _ _ Hg2)|by apply Hall].
Qed.

(** the upstreams of a resource have their servers *)
Definition upstreamsOf (owner : ownerObject) : list Upstream :=
  match owner with OwnerVS vs => vs_Upstreams vs | OwnerVSR _ vsr => vsr_Upstreams vsr end.
Definition owners : list ownerObject := OwnerVS vs :: imap OwnerVSR (vsx_VirtualServerRoutes (gi_vsEx gi)).
Definition upstreamsAdded st : Prop :=
  ∀ owner u, owner ∈ owners → u ∈ upstreamsOf owner → GetNameForUpstream (namerOf (gi_vsEx gi) owner) (u_Name u) ∈ upstreamNames st.

Lemma addUpstreams_sane routes st :
  sane routes st → sane routes (addUpstreams gi st) ∧ grows st (addUpstreams gi st) ∧ upstreamsAdded (addUpstreams gi st).
Proof.
  intros Hst. unfold addUpstreams. cbv zeta.
  destruct (foldl_addUpstream_sane routes (OwnerVS vs) (NewUpstreamNamerForVirtualServer vs) st (vs_Upstreams vs) Hst)
    as (Hst1 & Hg1 & Hvs). revert Hst1 Hg1 Hvs. generalize (foldl (addUpstream gi (OwnerVS vs) (NewUpstreamNamerForVirtualServer vs)) st (vs_Upstreams vs)).
  intros st1 Hst1 Hg1 Hvs.
  assert (∀ l st1, sane routes st1 →
    let st2 := foldl (λ st ivsr, foldl (addUpstream gi (OwnerVSR ivsr.1 ivsr.2) (NewUpstreamNamerForVirtualServerRoute vs ivsr.2)) st
                                   (vsr_Upstreams ivsr.2)) st1 l in
    sane routes st2 ∧ grows st1 st2 ∧ ∀ i vsr u, (i, vsr) ∈ l → u ∈ vsr_Upstreams vsr →
      GetNameForUpstream (NewUpstreamNamerForVirtualServerRoute vs vsr) (u_Name u) ∈ upstreamNames st2) as Hfold.
  { cbv zeta. clear. intros l. induction l as [|[i vsr] l IH]; intros st1 Hst1; [by split_and!; [|reflexivity|intros i vsr u ?%elem_of_nil]|].
    simpl. destruct (foldl_addUpstream_sane routes (OwnerVSR i vsr) (NewUpstreamNamerForVirtualServerRoute vs vsr) st1
      (vsr_Upstreams vsr) Hst1) as (Hst2 & Hg2 & Hall). destruct (IH _ Hst2) as (Hst3 & Hg3 & Hrest).
    split_and!; [done|by etrans|]. intros i' vsr' u [[= -> ->]|Hin]%elem_of_cons Hu; [apply (gr_upstreams _ _ Hg3); by apply Hall|by eapply Hrest]. }
  destruct (Hfold (imap pair (vsx_VirtualServerRoutes (gi_vsEx gi))) st1 Hst1) as (Hst2 & Hg2 & Hall).
  split_and!; [done|by etrans|]. intros owner u [->|Ho]%elem_of_cons Hu.
  - apply (gr_upstreams _ _ Hg2). by apply Hvs.
  - apply elem_of_lookup_imap in Ho as (i & vsr & -> & Hi). eapply Hall; [|done]. by eapply elem_of_lookup_imap_2.
Qed.

Lemma sane_initial ap w : sane [] (initialGeneration gi ap w).
Proof.
  split; try done; simpl.
  - by intros loc ?%elem_of_nil.
  - split; [apply NoDup_nil_2|by intros e ?%elem_of_nil].
  - intros k. by left.
Qed.

Lemma generateServer_sane ap w st :
  generateServer gi ap w = Some st → sane (vs_Routes vs) st ∧ upstreamsAdded st.
Proof.
  unfold generateServer. intros H. apply bind_Some in H as (st1 & H1 & H). apply bind_Some in H as (st2 & H2 & H).
  assert (sane [] st1) as Hst1.
  { unfold generateSpec in H1. cbv zeta in H1. apply bind_Some in H1 as ([cfg st3] & H3 & H1).
    apply (runPolicies_sane []) in H3 as (Hst3 & _ & _); [|apply sane_initial].
    apply bind_Some in H1 as (st4 & H4 & H1). injection H1 as <-. apply recordPolicies_sane.
    eapply recordAuthentication_sane; [exact H4|]. destruct (pc_OIDC cfg).
    - destruct Hst3. split; done.
    - destruct Hst3. split; done. }
  destruct (addUpstreams_sane [] st1 Hst1) as (Hst3 & _ & Hups).
  assert (sane [] st2 ∧ grows (addUpstreams gi st1) st2) as [Hst2 Hg2].
  { unfold addSpecExternalAuth in H2. cbv zeta in H2. destruct (pc_ExternalAuth _) as [ea|]; [|injection H2 as <-; split; [done|reflexivity]].
    apply bind_Some in H2 as (uri & _ & H2). injection H2 as <-. by apply generateExternalAuth_sane. }
  apply generateRoutes_sane in H as [Hst Hg]; [|done]. split; [done|].
  intros owner u Ho Hu. apply (gr_upstreams _ _ Hg), (gr_upstreams _ _ Hg2). by apply Hups.
Qed.
End Invariant.
