(* ===== verification/VSConsistent.v ===== *)
(** What a generated VirtualServer promises: every location carries the policies
    that govern its route, proxies only to upstreams that are defined, and names
    only error pages that are declared exactly once. *)
From S2P Require Import Prelude GoStrings Regex Objects ConfigState ProxyBuffers.
From S2P Require Import ParsingHelpers.
From S2P Require Import ValidationLib CommonValidation HostValidation VSRouteValidation.
From S2P Require Import Resources Minions Hosts Changes Configuration Operations.
From S2P Require Import IngressValidation Scenario.
From S2P Require Import VSValidationCorrect DeployedCorrect PolicyObjects SecretStore.
From S2P Require Import SecretStoreCorrect Version2 ConfigParams.
From S2P Require Import PolicyConfig PolicyConfigAdd PolicyConfigGenerate PolicyConfigSpec.
From S2P Require Import PolicyConfigCorrect.
From S2P Require Import VSUpstreams VSLocations VSRouting VSPolicies VSGenerate VSPanicFree.
From S2P Require Import VSMatches VSOrigins.

Section Consistent.
Context `{UL : URLLib} `{LT : UnicodeLower} `{PL : PolicyLib} `{MR : MapRange} `{UT : UnicodeTables}.
Context `{LS : LabelSets} `{SS : SliceSort} `{LSel : LabelSelectors}.
Implicit Types (vsc : virtualServerConfigurator) (vsEx : VirtualServerEx).

(** ** Policies *)

(** the location renders the settings of the policies *)
Record carries (pcfg : policiesCfg) (loc : LocationCfg) : Prop := {
  ca_allow : loc_Allow loc = pc_Allow pcfg;
  ca_deny : loc_Deny loc = pc_Deny pcfg;
  ca_limitReqs : loc_LimitReqs loc = rlcfg_Reqs (pc_RateLimit pcfg);
  ca_limitReqOptions : loc_LimitReqOptions loc = rlcfg_Options (pc_RateLimit pcfg);
  ca_jwt : loc_JWTAuth loc = jac_Auth (pc_JWTAuth pcfg);
  ca_basic : loc_BasicAuth loc = pc_BasicAuth pcfg;
  ca_external : loc_ExternalAuth loc = pc_ExternalAuth pcfg;
  ca_egress : loc_EgressMTLS loc = pc_EgressMTLS pcfg;
  ca_apiKey : loc_APIKey loc = aka_Key (pc_APIKey pcfg);
  ca_waf : loc_WAF loc = pc_WAF pcfg;
  ca_wallarm : loc_Wallarm loc = pc_Wallarm pcfg;
  ca_cache : loc_Cache loc = pc_Cache pcfg;
  ca_cors : pc_CORSHeaders pcfg ⊆ loc_AddHeaders loc;
  ca_provider p : pc_OIDCProvider pcfg = Some p → loc_OIDCProviderName loc = op_Name p;
  ca_oidc : pc_OIDCProvider pcfg = None → is_Some (pc_OIDC pcfg) → loc_OIDC loc = true;
  ca_error : loc_PoliciesErrorReturn loc = pc_ErrorReturn pcfg
}.
Lemma carries_settled pcfg cfg base dos inherit hsts :
  inherits pcfg cfg →
  carries pcfg (addHSTSToLocation hsts (addRouteSettingsToLocation dos inherit (addPoliciesCfgToLocation cfg base))).
Proof.
  intros [Hs Hc Ho]. injection Hs as E1 E2 E3 E4 E5 E6 E7 E8 E9 E10 E11 E12 E13 E14 E15 E16.
  assert (∀ l, carries pcfg l → carries pcfg (addHSTSToLocation hsts l)) as Hh.
  { intros l []. unfold addHSTSToLocation. destruct hsts; [|done]. case_match; split; done. }
  apply Hh. split; simpl; try done; try congruence.
  - destruct (pc_CORSHeaders pcfg) eqn:E; [set_solver|]. rewrite Hc by done. set_solver.
  - intros p Hp. by rewrite E9, Hp.
  - intros Hp Hoidc. pose proof (Ho Hoidc) as Heq. destruct Hoidc as [o Hoidc]. by rewrite E9, Hp, Heq, Hoidc.
Qed.

Lemma generate_cases vsc vsEx ap dos cfg w :
  GenerateVirtualServerConfig vsc vsEx ap dos = Some (cfg, w) →
  ∃ gi w1 st, gi_vsEx gi = vsEx ∧ gi_vsc gi = vsc ∧ generateServer gi ap w1 = Some st ∧ cfg = assemble gi st.
Proof.
  unfold GenerateVirtualServerConfig. cbv zeta. intros H. apply bind_Some in H as ([ssl w1] & _ & H).
  apply bind_Some in H as (st & Hst & H). injection H as <- _.
  eexists _, w1, st. split_and!; [| |exact Hst|]; reflexivity.
Qed.

Definition externalAuthLocation vsc (loc : LocationCfg) : Prop :=
  ∃ hsts ea uri name, let cfgParams := vsc_cfgParams vsc in
    loc = addHSTSToLocation hsts (generateExternalAuthLocation cfgParams ea uri name) ∨
    loc = addHSTSToLocation hsts (generateExternalAuthOAuth2Location cfgParams ea uri name).

(** a location of the routing of the route, with the internal redirect that leads to it *)
Definition routeLocation vsEx (server : ServerCfg) (r : Route) (owner : ownerObject) (loc : LocationCfg) : Prop :=
  ∃ rx base hsts dos inherit cfg,
    rx_upstreamNamer rx = namerOf vsEx owner ∧
    routingOrigin rx r (srv_ReturnLocations server) (srv_InternalRedirectLocations server) base ∧
    loc = addHSTSToLocation hsts (addRouteSettingsToLocation dos inherit (addPoliciesCfgToLocation cfg base)).
(** what generatePolicies makes of the references, with its warnings, in the policies of
    the VirtualServer or migrated ones *)
Definition configured vsEx ctx (refs : list PolicyReference) (pcfg : policiesCfg) (pw : Warnings) : Prop :=
  ∃ sm sm', migrated {| sm_locations := None; sm_policies := vsx_Policies vsEx |} sm ∧
    generatePolicies ctx refs sm = Some (pcfg, pw, sm').

(** C11.  No location escapes the policies of its route.
    In every configuration that GenerateVirtualServerConfig returns, a location of
    the server that does not belong to an external authentication is a location
    of the routing of one route, whose internal redirect is in the server, and
    is governed by the policies of that route: those of the route or subroute
    itself, and for a subroute without policies those of the last route of the
    VirtualServer with policies that leads to its VirtualServerRoute.  The
    location carries the settings that generatePolicies makes of them, kind by
    kind; and it answers every request with 500, or each of the references names
    a policy that the controller passed, which is supported there and carried out
    by these settings: its own part is there, or generatePolicies warns that it
    is ignored for an earlier policy of its kind, which is configured, or a later
    CORS policy replaces its headers ([carriedOut]).  The locations of splits,
    matches and redirects are covered: no target of a route is reached around its
    policies.  For an external authentication the settings are the internal path
    that is asked; which service answers there is not part of the statement. *)
Theorem locations_enforce_policies vsc vsEx ap dos cfg w loc :
  GenerateVirtualServerConfig vsc vsEx ap dos = Some (cfg, w) →
  loc ∈ srv_Locations (vcfg_Server cfg) →
  externalAuthLocation vsc loc ∨
  ∃ r owner policyOwner refs context opts pcfg pw,
    let ctx := {| ctx_owner := ownerDetails (vsx_VirtualServer vsEx) policyOwner; ctx_context := context;
                  ctx_path := r_Path r; ctx_opts := opts; ctx_bundles := vsc_bundleValidator vsc |} in
    effective vsEx r owner policyOwner refs context ∧ routeLocation vsEx (vcfg_Server cfg) r owner loc ∧
    configured vsEx ctx refs pcfg pw ∧ carries pcfg loc ∧
    (loc_PoliciesErrorReturn loc = Some {| ret_Code := 500; ret_Text := "" |} ∨
     referencesCarriedOut ctx (vsx_Policies vsEx) refs pw pcfg).
Proof.
  intros H Hloc. apply generate_cases in H as (gi & w1 & st & <- & <- & Hgen & ->).
  apply generateServer_sane in Hgen as [Hst _]. cbn [assemble vcfg_Server srv_Locations] in Hloc.
  apply list_elem_of_fmap in Hloc as (loc0 & -> & Hloc).
  destruct (sn_locations _ _ _ Hst _ Hloc) as [(ea & uri & name & _ & Ha)|Hr].
  { left. exists (pc_HSTS (vg_policies st)), ea, uri, name. cbv zeta. destruct Ha as [->| ->]; auto. }
  right. destruct Hr as (r & owner & po & refs & context & opts & sm & pcfg & pw & sm' & cfg & rx & base & dos' & inherit &
    He & Ho & Hm & Hg & Hi & Hnamer & _ & Horigin & ->).
  exists r, owner, po, refs, context, opts, pcfg, pw. cbv zeta.
  pose proof (carries_settled pcfg cfg base dos' inherit (pc_HSTS (vg_policies st)) Hi) as Hc.
  split_and!; [done|by eexists rx, base, _, dos', inherit, cfg|by exists sm, sm'|exact Hc|]. rewrite (ca_error _ _ Hc).
  apply (generatePolicies_carriedOut _ _ _ _ _ _ _ Hm) in Hg as [(_ & Herr & _)|(_ & Hall)]; [by left|right; exact Hall].
Qed.

(** ** Error pages *)
Definition namedLocations (server : ServerCfg) : list string :=
  (epl_Name <$> srv_ErrorPageLocations server) ++ (rtl_Name <$> srv_ReturnLocations server).
(** the URL of a redirect of a route, of an action or of an error page *)
Definition redirectURL vsEx (url : string) : Prop :=
  ∃ r rd, r ∈ allRoutes vsEx ∧ url = ar_URL rd ∧
    ((∃ a, a ∈ routeActions r ∧ a_Redirect a = Some rd) ∨
     (∃ e, e ∈ default [] (r_ErrorPages r) ∧ ep_Redirect e = Some rd)).
Definition signInPage (page : ErrorPageCfg) : Prop :=
  ∃ ea, vep_Name page = escapeForNGINXQuotedString (vea_SigninURL ea) ∧ vep_Codes page = "401".

Lemma returnLocationName_inj n m : (0 ≤ n)%Z → (0 ≤ m)%Z → returnLocationName n = returnLocationName m → n = m.
Proof. intros Hn Hm H. apply string_app_inj_l, fmtInt_inj in H; done. Qed.
Lemma numbered_nodup first rets : (0 ≤ first)%Z → numberedFrom first rets → NoDup (rtl_Name <$> rets).
Proof.
  intros Hf Hn. apply NoDup_alt. intros i j x. rewrite !list_lookup_fmap.
  intros (r1 & H1 & ->)%fmap_Some (r2 & H2 & Heq)%fmap_Some.
  rewrite (Hn _ _ H1), (Hn _ _ H2) in Heq. apply returnLocationName_inj in Heq; lia.
Qed.
Lemma sane_names_nodup gi routes st :
  sane gi routes st → NoDup ((epl_Name <$> vg_errorPageLocations st) ++ (rtl_Name <$> rp_ReturnLocations (vg_parts st))).
Proof.
  intros Hst. destruct (sn_pages _ _ _ Hst) as [Hnd Hidx]. apply NoDup_app. split_and!; [done| |].
  - intros n (e & -> & He)%list_elem_of_fmap (r & Heq & Hr)%list_elem_of_fmap.
    destruct (Hidx e He) as (i & j & _ & _ & Hn). apply list_elem_of_lookup in Hr as [k Hk].
    rewrite Hn, (sn_numbered _ _ _ Hst _ _ Hk) in Heq. done.
  - eapply (numbered_nodup 0); [done|]. apply Hst.
Qed.

(** the pages of a proxied location name the locations that were generated for them *)
Lemma generateErrorPages_declared index pages locs cfgs page :
  generateErrorPageLocations index pages = Some locs → generateErrorPages index pages = Some cfgs → page ∈ cfgs →
  vep_Name page ∈ epl_Name <$> locs ∨ ∃ e rd, e ∈ pages ∧ ep_Redirect e = Some rd ∧ vep_Name page = ar_URL rd.
Proof.
  unfold generateErrorPageLocations, generateErrorPages. intros (ls & Hls & ->)%fmap_Some Hp Hpage.
  apply mapM_Some in Hls. apply mapM_Some in Hp. apply list_elem_of_lookup in Hpage as [k Hk].
  destruct (Forall2_lookup_r _ _ _ _ _ Hp Hk) as ([i e] & Hi & He). cbn [fst snd] in He.
  pose proof (elem_of_imap_pair _ _ _ (list_elem_of_lookup_2 _ _ _ Hi)) as Hin%list_elem_of_lookup_2.
  destruct (Forall2_lookup_l _ _ _ _ _ Hls Hi) as (l & Hl & Hloc). cbn [fst snd] in Hloc.
  unfold generateErrorPage in He. unfold generateErrorPageLocation in Hloc. destruct (ep_Redirect e) as [rd|] eqn:Hr.
  - injection He as <-. right. by exists e, rd.
  - apply bind_Some in He as (ret & Hret & He). injection He as <-. rewrite Hret in Hloc. injection Hloc as <-.
    left. apply list_elem_of_fmap. eexists. split; cycle 1.
    { apply list_elem_of_join. eexists. split; cycle 1; [by eapply list_elem_of_lookup_2|]. by apply list_elem_of_singleton. }
    reflexivity.
Qed.

(** C13.  Named locations are declared exactly once.
    In every configuration that GenerateVirtualServerConfig returns, the names of
    the error page and return locations are all different, over all the routes
    and VirtualServerRoutes; and every error page of every location names one of
    these locations, the URL of a redirect of a route, or the page at which users
    sign in.  The number in a name is the number of the locations before it, which
    the two loops, splits, matches and inherited error pages keep in step. *)
Theorem named_locations_declared_once vsc vsEx ap dos cfg w :
  GenerateVirtualServerConfig vsc vsEx ap dos = Some (cfg, w) →
  NoDup (namedLocations (vcfg_Server cfg)) ∧
  ∀ loc page, loc ∈ srv_Locations (vcfg_Server cfg) → page ∈ loc_ErrorPages loc →
    vep_Name page ∈ namedLocations (vcfg_Server cfg) ∨ redirectURL vsEx (vep_Name page) ∨ signInPage page.
Proof.
  intros H. apply generate_cases in H as (gi & w1 & st & <- & <- & Hgen & ->).
  apply generateServer_sane in Hgen as [Hst _]. split; [by eapply sane_names_nodup|].
  intros loc page Hloc Hpage. cbn [assemble vcfg_Server srv_Locations] in Hloc.
  apply list_elem_of_fmap in Hloc as (loc0 & -> & Hloc).
  assert (page ∈ loc_ErrorPages loc0) as Hp0.
  { revert Hpage. unfold addHSTSToLocation. destruct (pc_HSTS (vg_policies st)); [|done]. by case_match. }
  clear Hpage. destruct (sn_locations _ _ _ Hst _ Hloc) as [(ea & uri & name & _ & [->| ->])|Hr];
    [by apply elem_of_nil in Hp0..|].
  destruct Hr as (r & owner & po & refs & context & opts & sm & pcfg & pw & sm' & cfg & rx & base & dos' & inherit &
    He & _ & _ & _ & _ & _ & Hpages & Horigin & ->).
  cbn [addRouteSettingsToLocation addPoliciesCfgToLocation loc_ErrorPages] in Hp0.
  apply elem_of_app in Hp0 as [Hp0|Hp0].
  2:{ right. right. unfold getServerErrorPages in Hp0. destruct (pc_ExternalAuth cfg) as [ea|]; [|by apply elem_of_nil in Hp0].
      case_bool_decide; [by apply elem_of_nil in Hp0|]. apply list_elem_of_singleton in Hp0 as ->. by exists ea. }
  assert (r ∈ allRoutes (gi_vsEx gi)) as Hr.
  { apply elem_of_app. destruct He as [r Hr|i vsr r Hi Hr|i vsr r Hi Hr]; [by left|right..];
      (apply list_elem_of_bind; exists vsr; split; [done|by eapply list_elem_of_lookup_2]). }
  apply routingOrigin_action in Horigin as (a & internal & path & n & w2 & ret & w3 & Ha & Hact & Hret).
  unfold actionLocation in Hact. cbn [mbind option_bind] in Hact. unfold generateLocation in Hact. cbv zeta in Hact.
  destruct (a_Redirect a) as [rd|] eqn:Hrd.
  { injection Hact as <- _ _. apply list_elem_of_singleton in Hp0 as ->. right. left. exists r, rd. split_and!; [done|done|]. left. by exists a. }
  destruct (a_Return a) as [art|].
  { injection Hact as <- <- _. apply list_elem_of_singleton in Hp0 as ->. left. apply elem_of_app. right.
    apply list_elem_of_fmap. eexists. split; cycle 1; [apply Hret; by apply list_elem_of_singleton|reflexivity]. }
  destruct (generateLocationForProxying _ _ _ _ _ _ _ _ _) as [loc1|] eqn:Hl; [|done]. cbn [mbind option_bind] in Hact.
  injection Hact as <- _ _. unfold generateLocationForProxying in Hl. cbv zeta in Hl. apply bind_Some in Hl as (cfgs & Hcfgs & Hl).
  injection Hl as <-. cbn [loc_ErrorPages] in Hp0. destruct Hpages as ((r' & Hr' & Hpg) & locs & Hlocs & Hsub).
  destruct (generateErrorPages_declared _ _ _ _ _ Hlocs Hcfgs Hp0) as [Hn|(e & rd & Hin & Hrd' & Hn)].
  - left. apply elem_of_app. left. apply list_elem_of_fmap in Hn as (e & -> & He'). by apply list_elem_of_fmap_2, Hsub.
  - right. left. exists r', rd. split_and!; [done|done|]. right. exists e. by rewrite Hpg.
Qed.

(** ** Upstreams *)

(** a URL of a server whose name is that of the upstream, bare or quoted *)
Definition proxiesTo (loc : LocationCfg) (name : string) : Prop :=
  (∃ protocol rest, protocol ∈ ["http"; "https"] ∧ rest ∈ [""; "$request_uri"] ∧
     loc_ProxyPass loc = protocol +:+ "://" +:+ name +:+ rest ∧
     loc_GRPCPass loc ∈ [""; "grpc://" +:+ name; "grpcs://" +:+ name]) ∨
  (∃ protocol path, protocol ∈ ["http"; "https"] ∧ loc_ProxyPass loc = Quote (protocol +:+ "://" +:+ name +:+ path) ∧
     loc_GRPCPass loc = "").
Definition answers418 (loc : LocationCfg) : Prop := loc_InternalProxyPass loc = "http://" +:+ nginx418Server.

Lemma proxiesTo_settled name cfg base dos inherit :
  proxiesTo base name → proxiesTo (addRouteSettingsToLocation dos inherit (addPoliciesCfgToLocation cfg base)) name.
Proof. done. Qed.
Lemma proxiesTo_hsts hsts loc name :
  (answers418 loc → answers418 (addHSTSToLocation hsts loc)) ∧ (proxiesTo loc name → proxiesTo (addHSTSToLocation hsts loc) name).
Proof. unfold addHSTSToLocation. destruct hsts; [|done]. case_match; done. Qed.
Lemma protocol_elem tls : generateProxyPassProtocol tls ∈ ["http"; "https"].
Proof. destruct tls; set_solver. Qed.

Lemma actionLocation_proxies rx internal path a n w loc ret w' :
  actionLocation rx internal path (Some a) n w = Some (loc, ret, w') →
  (answers418 loc ∧ (is_Some (a_Redirect a) ∨ is_Some (a_Return a))) ∨
  (a_Redirect a = None ∧ a_Return a = None ∧ proxiesTo loc (GetNameForUpstreamFromAction (rx_upstreamNamer rx) a)).
Proof.
  unfold actionLocation. cbn [mbind option_bind]. unfold generateLocation. cbv zeta.
  destruct (a_Redirect a) as [rd|]; [intros [= <- _ _]; left; split; [done|by left; eexists]|].
  destruct (a_Return a) as [art|]; [intros [= <- _ _]; left; split; [done|by right; eexists]|].
  intros H. apply bind_Some in H as (loc1 & Hl & H). injection H as <- _ _.
  unfold generateLocationForProxying in Hl. cbv zeta in Hl. apply bind_Some in Hl as (cfgs & _ & Hl). injection Hl as <-.
  right. split_and!; [done|done|]. left. unfold generateProxyPass. cbn [loc_ProxyPass loc_GRPCPass].
  match goal with |- context [if ?b then _ +:+ "$request_uri" else _] => generalize b; intros rewritten end.
  match goal with |- context [generateProxyPassProtocol ?tls] => generalize tls; intros tls' end.
  exists (generateProxyPassProtocol tls'), (if rewritten then "$request_uri" else "").
  split; [apply protocol_elem|]. split; [destruct rewritten; set_solver|]. split.
  - destruct rewritten; rewrite ?string_app_assoc, ?string_app_nil_r; reflexivity.
  - unfold generateGRPCPass, generateGRPCPassProtocol. destruct (isGRPC _); [|set_solver].
    destruct tls'; set_solver.
Qed.

Lemma action_upstream_valid names a :
  actionOk names a → a_Redirect a = None → a_Return a = None → actionUpstream a ∈ names.
Proof.
  intros (Hc & Hu & _) Hrd Hrt. unfold countActions in Hc. rewrite Hrd, Hrt in Hc. unfold actionUpstream.
  unfold actionUpstreams in Hu. destruct (a_Proxy a) as [p|].
  - destruct (bool_decide_reflect (a_Pass a = "")) as [Hp|]; [|simpl in Hc; lia].
    specialize (Hu (ap_Upstream p) ltac:(set_solver)). case_bool_decide as He; [|done]. by rewrite Hp, <-He.
  - destruct (bool_decide_reflect (a_Pass a = "")) as [Hp|]; [simpl in Hc; lia|]. apply Hu. set_solver.
Qed.

Lemma effective_owner vsEx gi r owner po refs context :
  gi_vsEx gi = vsEx → effective vsEx r owner po refs context → owner ∈ owners gi.
Proof.
  intros <- [r' Hr|i vsr r' Hi Hr|i vsr r' Hi Hr]; [by left|right..]; by eapply elem_of_lookup_imap_2.
Qed.

(** the actions of the routes of the VirtualServer and of its VirtualServerRoutes use their own upstreams *)
Definition actionsOk vsEx : Prop :=
  (∀ r a, r ∈ vs_Routes (vsx_VirtualServer vsEx) → a ∈ routeActions r →
     actionOk (list_to_set (u_Name <$> vs_Upstreams (vsx_VirtualServer vsEx))) a) ∧
  (∀ vsr r a, vsr ∈ vsx_VirtualServerRoutes vsEx → r ∈ vsr_Subroutes vsr → a ∈ routeActions r →
     actionOk (list_to_set (u_Name <$> vsr_Upstreams vsr)) a).
Lemma effective_action vsEx r owner po refs context a :
  actionsOk vsEx → effective vsEx r owner po refs context → a ∈ routeActions r →
  actionOk (list_to_set (u_Name <$> upstreamsOf owner)) a.
Proof.
  intros [Hvs Hvsr] [r' Hr|i vsr r' Hi Hr|i vsr r' Hi Hr] Ha; [by eapply Hvs|by eapply Hvsr; [eapply list_elem_of_lookup_2| |]..].
Qed.

Lemma generated_proxies vsc vsEx ap dos cfg w loc :
  GenerateVirtualServerConfig vsc vsEx ap dos = Some (cfg, w) → actionsOk vsEx → loc ∈ srv_Locations (vcfg_Server cfg) →
  answers418 loc ∨ ∃ u, u ∈ vcfg_Upstreams cfg ∧ proxiesTo loc (vu_Name u).
Proof.
  intros H Hok Hloc. apply generate_cases in H as (gi & w1 & st & <- & <- & Hgen & ->).
  apply generateServer_sane in Hgen as [Hst Hups]. cbn [assemble vcfg_Server srv_Locations vcfg_Upstreams] in *.
  apply list_elem_of_fmap in Hloc as (loc0 & -> & Hloc).
  assert (∀ name, name ∈ upstreamNames st → proxiesTo loc0 name →
    ∃ u, u ∈ sortSlice vu_Name (ua_upstreams (vg_upstreams st)) ∧
         proxiesTo (addHSTSToLocation (pc_HSTS (vg_policies st)) loc0) (vu_Name u)) as Hdone.
  { intros name (u & -> & Hu)%list_elem_of_fmap Hp. exists u. split; [by rewrite sortSlice_perm|]. by apply proxiesTo_hsts. }
  destruct (sn_locations _ _ _ Hst _ Hloc) as [(ea & uri & name & Hn & Ha)|Hr].
  - right. apply (Hdone name Hn). right. destruct Ha as [->| ->]; cbn [loc_ProxyPass loc_GRPCPass].
    + exists (generateProxyPassProtocol (vea_SSLEnabled ea)), (auri_Path uri). split_and!; [apply protocol_elem|done|done].
    + exists (generateProxyPassProtocol (vea_SSLEnabled ea)), "". split_and!; [apply protocol_elem| |done].
      cbn. by rewrite string_app_nil_r.
  - destruct Hr as (r & owner & po & refs & context & opts & sm & pcfg & pw & sm' & cfg & rx & base & dos' & inherit &
      He & _ & _ & _ & _ & Hnamer & _ & Horigin & ->).
    apply routingOrigin_action in Horigin as (a & internal & path & n & w2 & ret & w3 & Ha & Hact & _).
    apply actionLocation_proxies in Hact as [[H418 _]|(Hrd & Hrt & Hp)].
    { left. by apply (proxiesTo_hsts _ _ ""). }
    right. apply (Hdone (GetNameForUpstreamFromAction (rx_upstreamNamer rx) a)); [|by apply proxiesTo_settled].
    pose proof (action_upstream_valid _ _ (effective_action _ _ _ _ _ _ _ Hok He Ha) Hrd Hrt) as Hu.
    apply elem_of_list_to_set, list_elem_of_fmap in Hu as (u & Heq & Hu). unfold GetNameForUpstreamFromAction.
    rewrite Hnamer, Heq. apply Hups; [by eapply effective_owner|done].
Qed.
End Consistent.

(** ** Deployed VirtualServers *)
Section DeployedUpstreams.
Context `{UL : URLLib} `{LT : UnicodeLower} `{PL : PolicyLib} `{UT : UnicodeTables} `{LSet : LabelSets} `{SS : SliceSort}.
Context `{MR : MapRange} `{P : IngressValidatorParams} `{LL : !ValidationLaws} `{LSel : LabelSelectors}.
Variable opts : ControllerOptions.
#[local] Instance deployedV : Validators := repositoryValidators opts.

Lemma challenge_actions o ing vsr r a :
  convertIngressToVSR o ing = Some (Some vsr) → r ∈ vsr_Subroutes vsr → a ∈ routeActions r →
  actionOk (list_to_set (u_Name <$> vsr_Upstreams vsr)) a.
Proof.
  unfold convertIngressToVSR. intros H Hr Ha. apply bind_Some in H as (rule & _ & H). case_match; [done|].
  apply bind_Some in H as (paths & _ & H). apply bind_Some in H as (p & _ & H). apply bind_Some in H as (svc & _ & H).
  injection H as <-. apply list_elem_of_singleton in Hr as ->. apply list_elem_of_singleton in Ha as ->.
  split_and!; [done| |done]. intros u. cbn. set_solver.
Qed.

(** C12.  A deployed VirtualServer proxies to defined upstreams only.
    With the repository's validators, take a VirtualServer that owns a host in a
    reachable configuration, with its VirtualServerRoutes, those made of ACME
    challenge Ingresses included, and any configuration that
    GenerateVirtualServerConfig returns for it.  Every location of the server
    answers a redirect or a return through the internal 418 server, or passes its
    requests, by HTTP, HTTPS or gRPC, to the name of an upstream that the same
    configuration defines: actions, splits, matches, subroutes and external
    authentication name upstreams of their own resource. *)
Theorem deployed_proxies_to_defined_upstreams fl c host l conf vsc vsEx ap dos cfg w loc :
  reachable fl c → c_startupComplete c = true →
  c_hosts c !! host = Some l → c_store c !! l = Some (RVirtualServer conf) →
  vsx_VirtualServer vsEx = vsc_VirtualServer conf → vsx_VirtualServerRoutes vsEx = vsc_VirtualServerRoutes conf →
  GenerateVirtualServerConfig vsc vsEx ap dos = Some (cfg, w) →
  loc ∈ srv_Locations (vcfg_Server cfg) →
  answers418 loc ∨ ∃ u, u ∈ vcfg_Upstreams cfg ∧ proxiesTo loc (vu_Name u).
Proof.
  intros Hreach Hstart Hhost Hl Hvs Hvsrs Hgen Hloc.
  destruct (deployed_wf opts fl c host l conf Hreach Hstart Hhost Hl) as [Hwf Hv].
  eapply generated_proxies; [exact Hgen| |exact Hloc]. split; rewrite ?Hvs, ?Hvsrs.
  - intros r a Hr Ha. by eapply (wr_actions _ _ _ (wv_routes _ Hwf r Hr)).
  - intros vsr r a Hin Hr Ha. destruct (Hv vsr Hin) as [(vsrKey & paths & _ & _ & Hw)|(_ & key & ing & _ & _ & Hc)].
    + by eapply (wr_actions _ _ _ (wvr_routes _ _ _ Hw r Hr)).
    + by eapply challenge_actions.
Qed.
End DeployedUpstreams.

(** ** Examples *)
Section Example.
Import SecretSample PolicySample VSSample.
#[local] Existing Instance sampleLib.
#[local] Existing Instance sampleLib_laws.

(** a route with policies that leads to the VirtualServerRoute, whose subroute has none *)
Definition lockedRoute : Route :=
  {| r_Path := "/deli"; r_Policies := [reference "allow"; reference "basic"]; r_Route := "deli"; r_RouteSelector := None;
     r_Action := None; r_Splits := []; r_Matches := [];
     r_ErrorPages := Some [{| ep_Codes := [502%Z]; ep_Return := Some {| art_Code := 0%Z; art_Type := ""; art_Body := "sorry"; art_Headers := [] |};
                              ep_Redirect := None |}];
     r_LocationSnippets := ""; r_AddHeaderInherit := ""; r_Dos := "" |}.
Definition lockedVS : VirtualServer :=
  {| vs_Meta := cafeMeta "cafe"; vs_IngressClass := ""; vs_Host := "cafe.example.com";
     vs_Listener := None; vs_TLS := None; vs_Gunzip := false; vs_Policies := [];
     vs_Upstreams := [plainUpstream "tea" "tea-svc" 80]; vs_Routes := [passRoute "/tea" "tea"; lockedRoute];
     vs_HTTPSnippets := ""; vs_ServerSnippets := ""; vs_AddHeaderInherit := "";
     vs_Dos := ""; vs_ExternalDNS := noExternalDNS |}.
Definition lockedEx : VirtualServerEx := extended lockedVS [deliVSR] (sm_policies maps) withUsers.
Definition locked : option (VirtualServerConfigCfg * Warnings) := GenerateVirtualServerConfig configurator lockedEx noAppProtect ∅.

Example locked_generated :
  (λ cw, (λ loc, (loc_Path loc, loc_Allow loc, vba_Realm <$> loc_BasicAuth loc, vep_Name <$> loc_ErrorPages loc))
           <$> srv_Locations (vcfg_Server cw.1)) <$> locked
  = Some [("/tea", [], None, []); ("/deli/soup", ["10.0.0.1"], Some "cafe", ["@error_page_0_0"])].
Proof. vm_compute. reflexivity. Qed.

(** the subroute inherits the policies of the route *)
Lemma locations_enforce_policies_witness :
  ∃ cfg w loc, locked = Some (cfg, w) ∧ loc ∈ srv_Locations (vcfg_Server cfg) ∧ loc_Path loc = "/deli/soup" ∧
    loc_Allow loc = ["10.0.0.1"] ∧
    (externalAuthLocation configurator loc ∨
     ∃ r owner policyOwner refs context pcfg,
       effective lockedEx r owner policyOwner refs context ∧ routeLocation lockedEx (vcfg_Server cfg) r owner loc ∧ carries pcfg loc).
Proof.
  destruct locked as [[cfg w]|] eqn:H; [|vm_compute in H; discriminate H].
  destruct (srv_Locations (vcfg_Server cfg)) as [|l0 [|loc ?]] eqn:Hl;
    [apply (f_equal (fmap (M:=option) (length ∘ srv_Locations ∘ vcfg_Server ∘ fst))) in H; simpl in H; rewrite Hl in H;
     vm_compute in H; discriminate H..|].
  exists cfg, w, loc. split; [reflexivity|]. rewrite Hl. split; [by right; left|].
  pose proof (f_equal (fmap (M:=option) (λ cw, (λ l, (loc_Path l, loc_Allow l)) <$> srv_Locations (vcfg_Server cw.1))) H) as Hp.
  cbn [fmap option_fmap option_map fst] in Hp. rewrite Hl in Hp. vm_compute in Hp. injection Hp as _ _ Hpath Hallow _.
  split; [exact (eq_sym Hpath)|]. split; [exact (eq_sym Hallow)|].
  unfold locked in H. destruct (locations_enforce_policies _ _ _ _ _ _ loc H) as [Ha|Hr];
    [rewrite Hl; by right; left|by left|right].
  destruct Hr as (r & owner & po & refs & context & opts & pcfg & pw & He & Hr & _ & Hc & _).
  exists r, owner, po, refs, context, pcfg. exact (conj He (conj Hr Hc)).
Defined.

Lemma named_locations_declared_once_witness :
  ∃ cfg w, locked = Some (cfg, w) ∧ namedLocations (vcfg_Server cfg) = ["@error_page_0_0"] ∧
    NoDup (namedLocations (vcfg_Server cfg)).
Proof.
  destruct locked as [[cfg w]|] eqn:H; [|vm_compute in H; discriminate H].
  exists cfg, w. split; [reflexivity|]. split.
  - apply (f_equal (fmap (M:=option) (namedLocations ∘ vcfg_Server ∘ fst))) in H. vm_compute in H. injection H as H. symmetry. exact H.
  - unfold locked in H. apply (named_locations_declared_once _ _ _ _ _ _ H).
Defined.

Lemma deployed_proxies_to_defined_upstreams_witness :
  ∃ cfg w, GenerateVirtualServerConfig configurator (extended cafeVS [deliVSR] ∅ ∅) noAppProtect ∅ = Some (cfg, w) ∧
    length (srv_Locations (vcfg_Server cfg)) = 4 ∧
    ∀ loc, loc ∈ srv_Locations (vcfg_Server cfg) → answers418 loc ∨ ∃ u, u ∈ vcfg_Upstreams cfg ∧ proxiesTo loc (vu_Name u).
Proof.
  destruct (GenerateVirtualServerConfig _ _ _ _) as [[cfg w]|] eqn:H; [|vm_compute in H; discriminate H].
  exists cfg, w. split; [reflexivity|]. split.
  { apply (f_equal (fmap (M:=option) (length ∘ srv_Locations ∘ vcfg_Server ∘ fst))) in H. vm_compute in H. injection H as H.
    symmetry. exact H. }
  intros loc Hloc.
  destruct (c_hosts cafeConfig !! "cafe.example.com") as [l|] eqn:Hl; [|vm_compute in Hl; discriminate Hl].
  destruct (c_store cafeConfig !! l) as [[|conf|]|] eqn:Hs;
    try (vm_compute in Hl; injection Hl as <-; vm_compute in Hs; discriminate Hs).
  assert (cafeVS = vsc_VirtualServer conf ∧ [deliVSR] = vsc_VirtualServerRoutes conf) as [Hvs Hvsrs].
  { vm_compute in Hl. injection Hl as <-. vm_compute in Hs. injection Hs as <-. split; reflexivity. }
  apply (deployed_proxies_to_defined_upstreams cafeOptions sampleFlags cafeConfig "cafe.example.com" l conf
           configurator (extended cafeVS [deliVSR] ∅ ∅) noAppProtect ∅ cfg w loc cafeConfig_reachable).
  - vm_compute. reflexivity.
  - exact Hl.
  - exact Hs.
  - exact Hvs.
  - exact Hvsrs.
  - exact H.
  - exact Hloc.
Defined.
End Example.
