(* ===== verification/TransportServerConfig.v ===== *)
(** The configuration of TransportServers: its generation
    (internal/configs/transportserver.go, version2/stream.go), what the controller
    collects for it (internal/k8s/transport_server.go) and the part of the
    configurator that writes it, with the map from TLS Passthrough hosts to unix
    sockets (internal/configs/configurator.go). *)
From S2P Require Import Prelude GoStrings Regex Objects ConfigState ProxyBuffers.
From S2P Require Import ProxyBuffersCorrect ParsingHelpers ValidationLib.
From S2P Require Import HostValidation TransportServerValidation VSValidationCorrect.
From S2P Require Import PolicyObjects.
From S2P Require Import SecretStore SecretStoreCorrect Version2 ConfigParams PolicyConfig.
From S2P Require Import PolicyConfigCorrect.
From S2P Require Import PolicyConfigAdd PolicySecrets PolicySecretsCorrect PolicyPanicFree.
From S2P Require Import SecretSync NginxManager.
From S2P Require Import VSUpstreams VSLocations VSPanicFree VSMatches.

(** ** The data of the template *)
Record StreamUpstreamServerCfg := {
  sus_Address : string;
  sus_MaxFails : Z;
  sus_FailTimeout : string;
  sus_MaxConnections : Z
}.
Record StreamUpstreamBackupServerCfg := { sub_Address : string }.
Record StreamUpstreamCfg := {
  su_Name : string;
  su_Servers : list StreamUpstreamServerCfg;
  su_UpstreamLabels : UpstreamLabelsCfg;
  su_LoadBalancingMethod : string;
  su_Resolve : bool;
  su_BackupServers : list StreamUpstreamBackupServerCfg
}.
Record StreamSSLCfg := { sts_Enabled : bool; sts_Certificate : string; sts_CertificateKey : string }.
Record StreamHealthCheckCfg := {
  shc_Enabled : bool;
  shc_Interval : string;
  shc_Port : Z;
  shc_Passes : Z;
  shc_Jitter : string;
  shc_Fails : Z;
  shc_Timeout : string;
  shc_Match : string
}.
Record MatchCfg := { smc_Name : string; smc_Send : string; smc_ExpectRegexModifier : string; smc_Expect : string }.
Record StreamServerCfg := {
  sv_ServerName : string;
  sv_TLSPassthrough : bool;
  sv_UnixSocket : string;
  sv_Port : Z;
  sv_UDP : bool;
  sv_StatusZone : string;
  sv_ProxyRequests : option Z;
  sv_ProxyResponses : option Z;
  sv_ProxyPass : string;
  sv_Name : string;
  sv_Namespace : string;
  sv_ProxyTimeout : string;
  sv_ProxyConnectTimeout : string;
  sv_ProxyNextUpstream : bool;
  sv_ProxyNextUpstreamTimeout : string;
  sv_ProxyNextUpstreamTries : Z;
  sv_HealthCheck : option StreamHealthCheckCfg;
  sv_ServerSnippets : list string;
  sv_DisableIPV6 : bool;
  sv_SSL : StreamSSLCfg;
  sv_IPv4 : string;
  sv_IPv6 : string
}.
(** DisableIPV6 of the configuration itself is never set. *)
Record TransportServerConfigCfg := {
  tcfg_Server : StreamServerCfg;
  tcfg_Upstreams : list StreamUpstreamCfg;
  tcfg_StreamSnippets : list string;
  tcfg_Match : option MatchCfg;
  tcfg_DynamicSSLReloadEnabled : bool;
  tcfg_StaticSSLPath : string
}.

(** TransportServerEx without PodsByIP, which only metrics read *)
Record TransportServerEx := {
  tsx_ListenerPort : Z;
  tsx_TransportServer : TransportServer;
  tsx_Endpoints : gmap string (list string);
  tsx_ExternalNameSvcs : gmap string bool;
  tsx_DisableIPV6 : bool;
  tsx_SecretRefs : gmap string SecretReference;
  tsx_IPv4 : string;
  tsx_IPv6 : string
}.
Record transportServerConfigParams := {
  tcp_transportServerEx : TransportServerEx;
  tcp_listenerPort : Z;
  tcp_isPlus : bool;
  tcp_isResolverConfigured : bool;
  tcp_isDynamicReloadEnabled : bool;
  tcp_staticSSLPath : string
}.

(** ** Generation *)
Definition nginxNonExistingUnixSocket : string := "unix:/var/lib/nginx/non-existing-unix-socket.sock".
Definition tsNamespace (ts : TransportServer) : string := om_Namespace (ts_Meta ts).
Definition tsName (ts : TransportServer) : string := om_Name (ts_Meta ts).
Definition onPassthroughListener (ts : TransportServer) : bool :=
  bool_decide (tsl_Name (ts_Listener ts) = TLSPassthroughListenerName).
(** warnings are about the one TransportServer, object 0 *)
Definition warnTS (w : Warnings) (msg : string) : Warnings := AddWarning w 0 msg.
(** Warnings.Add: the entries of the argument replace those of the receiver *)
Definition warningsAdd (w w' : Warnings) : Warnings := w' ∪ w.

Definition newUpstreamNamerForTransportServer (ts : TransportServer) : upstreamNamer :=
  {| un_prefix := "ts_" +:+ tsNamespace ts +:+ "_" +:+ tsName ts; un_namespace := "" |}.
Definition generateUnixSocket (ts : TransportServer) : string :=
  if onPassthroughListener ts
  then "unix:/var/lib/nginx/passthrough-" +:+ tsNamespace ts +:+ "_" +:+ tsName ts +:+ ".sock" else "".
Definition generateServerName (host : string) (isTLSPassthrough : bool) : string :=
  if isTLSPassthrough then "" else host.
Definition generateLoadBalancingMethod (method : string) : string :=
  if bool_decide (method = "") then "random two least_conn"
  else if bool_decide (method = "round_robin") then "" else method.

Definition noSSL : StreamSSLCfg := {| sts_Enabled := false; sts_Certificate := ""; sts_CertificateKey := "" |}.
(** [None] is the nil reference of a secret that was not collected *)
Definition generateStreamSSLConfig (tls : option string) (namespace : string) (secretRefs : gmap string SecretReference)
    : option (StreamSSLCfg * Warnings) :=
  match tls with
  | None => Some (noSSL, ∅)
  | Some secret =>
      if bool_decide (secret = "")
      then Some (noSSL, warnTS ∅ "TLS secret is empty. SSL termination will not be enabled for this server.")
      else
        secretRef ← secretRefs !! keyOf namespace secret;
        let secretType := secretTypeOf secretRef in
        let ssl enabled :=
          {| sts_Enabled := enabled; sts_Certificate := sr_Path secretRef; sts_CertificateKey := sr_Path secretRef |} in
        if negb (bool_decide (secretType = "")) && negb (bool_decide (secretType = SecretTypeTLS))
        then Some (ssl false, warnTS ∅ ("TLS secret " +:+ secret +:+ " is of a wrong type '" +:+ secretType +:+ "', must be '"
                     +:+ SecretTypeTLS +:+ "'. SSL termination will not be enabled for this server."))
        else match sr_Error secretRef with
        | Some err => Some (ssl false, warnTS ∅ ("TLS secret " +:+ secret +:+ " is invalid: " +:+ err
                              +:+ ". SSL termination will not be enabled for this server."))
        | None => Some (ssl true, ∅)
        end
  end.

Definition generateTransportServerHealthCheckWithDefaults : StreamHealthCheckCfg :=
  {| shc_Enabled := false; shc_Interval := "5s"; shc_Port := 0; shc_Passes := 1; shc_Jitter := "0s"; shc_Fails := 1;
     shc_Timeout := "5s"; shc_Match := "" |}.
Definition generateHealthCheckMatch (match_ : TransportServerMatch) (name : string) : MatchCfg :=
  let expect := tsm_Expect match_ in
  let '(modifier, expect) :=
    if HasPrefix expect "~*" then ("~*", TrimPrefix expect "~*")
    else if HasPrefix expect "~" then ("~", TrimPrefix expect "~") else ("", expect) in
  {| smc_Name := name; smc_Send := tsm_Send match_; smc_ExpectRegexModifier := modifier; smc_Expect := expect |}.
(** the health check of the first upstream with the name *)
Fixpoint generateTransportServerHealthCheck (upstreamName generatedUpstreamName : string)
    (upstreams : list TransportServerUpstream) : option StreamHealthCheckCfg * option MatchCfg :=
  match upstreams with
  | [] => (None, None)
  | u :: rest =>
      if bool_decide (tsu_Name u = upstreamName) then
        match tsu_HealthCheck u with
        | None => (None, None)
        | Some h =>
            if negb (thc_Enabled h) then (None, None)
            else
              let hc := generateTransportServerHealthCheckWithDefaults in
              let name := "match_" +:+ generatedUpstreamName in
              (Some {| shc_Enabled := thc_Enabled h;
                       shc_Interval := generateTimeWithDefault (thc_Interval h) (shc_Interval hc);
                       shc_Port := thc_Port h;
                       shc_Passes := if (0 <? thc_Passes h)%Z then thc_Passes h else shc_Passes hc;
                       shc_Jitter := generateTimeWithDefault (thc_Jitter h) (shc_Jitter hc);
                       shc_Fails := if (0 <? thc_Fails h)%Z then thc_Fails h else shc_Fails hc;
                       shc_Timeout := generateTimeWithDefault (thc_Timeout h) (shc_Timeout hc);
                       shc_Match := match thc_Match h with Some _ => name | None => shc_Match hc end |},
               (λ m, generateHealthCheckMatch m name) <$> thc_Match h)
        end
      else generateTransportServerHealthCheck upstreamName generatedUpstreamName rest
  end.

Section Generation.
Context `{LS : LabelSets} `{SS : SliceSort}.

Definition generateStreamUpstream (upstream : TransportServerUpstream) (namer : upstreamNamer)
    (endpoints backupEndpoints : list string) (isPlus resolve : bool) (labels : UpstreamLabelsCfg) : StreamUpstreamCfg :=
  let maxFails := generateIntFromPointer (tsu_MaxFails upstream) 1 in
  let maxConns := generateIntFromPointer (tsu_MaxConns upstream) 0 in
  let failTimeout := generateTimeWithDefault (tsu_FailTimeout upstream) "10s" in
  let server address conns :=
    {| sus_Address := address; sus_MaxFails := maxFails; sus_FailTimeout := failTimeout; sus_MaxConnections := conns |} in
  let upsServers := ((λ e, server e maxConns) <$> endpoints)
    ++ (if negb isPlus && Nat.eqb (length endpoints) 0 then [server nginxNonExistingUnixSocket 0%Z] else []) in
  {| su_Name := GetNameForUpstream namer (tsu_Name upstream);
     su_Servers := sortSlice sus_Address upsServers;
     su_UpstreamLabels := labels;
     su_LoadBalancingMethod := generateLoadBalancingMethod (tsu_LoadBalancingMethod upstream);
     su_Resolve := resolve;
     su_BackupServers := sortSlice sub_Address (Build_StreamUpstreamBackupServerCfg <$> backupEndpoints) |}.

(** the port is converted to uint16 *)
Definition streamEndpointsKey (ts : TransportServer) (u : TransportServerUpstream) : string :=
  GenerateEndpointsKey (tsNamespace ts) (tsu_Service u) None (tsu_Port u `mod` 65536)%Z.
Definition streamExternalNameWarning (service upstream : string) : string :=
  "Type ExternalName service " +:+ service +:+ " in upstream " +:+ upstream
  +:+ " will be ignored. To use ExternalName services, a resolver must be configured in the ConfigMap".

(** the endpoints under a key, and whether the service is of type ExternalName *)
Definition streamEndpoints (tsEx : TransportServerEx) (isResolverConfigured : bool) (key service upstream : string)
    (w : Warnings) : list string * bool * Warnings :=
  let isExternalNameSvc :=
    bool_decide (is_Some (tsx_ExternalNameSvcs tsEx !! GenerateExternalNameSvcKey (tsNamespace (tsx_TransportServer tsEx)) service)) in
  if isExternalNameSvc && negb isResolverConfigured
  then ([], isExternalNameSvc, warnTS w (streamExternalNameWarning service upstream))
  else (default [] (tsx_Endpoints tsEx !! key), isExternalNameSvc, w).

(** one turn of the loop: the lookup of the backup overwrites isExternalNameSvc *)
Definition addStreamUpstream (tsEx : TransportServerEx) (namer : upstreamNamer) (isPlus isResolverConfigured : bool)
    (acc : list StreamUpstreamCfg * Warnings) (u : TransportServerUpstream) : list StreamUpstreamCfg * Warnings :=
  let '(upstreams, w) := acc in
  let ts := tsx_TransportServer tsEx in
  let '(endpoints, isExternalNameSvc, w) :=
    streamEndpoints tsEx isResolverConfigured (streamEndpointsKey ts u) (tsu_Service u) (tsu_Name u) w in
  let '(backupEndpoints, isExternalNameSvc, w) :=
    match tsu_BackupPort u with
    | Some backupPort =>
        if bool_decide (tsu_Backup u = "") then ([], isExternalNameSvc, w)
        else streamEndpoints tsEx isResolverConfigured
               (GenerateEndpointsKey (tsNamespace ts) (tsu_Backup u) None backupPort) (tsu_Backup u) (tsu_Name u) w
    | None => ([], isExternalNameSvc, w)
    end in
  (upstreams ++
   [generateStreamUpstream u namer endpoints backupEndpoints isPlus isExternalNameSvc
      {| ul_Service := tsu_Service u; ul_ResourceType := "transportserver"; ul_ResourceName := tsName ts;
         ul_ResourceNamespace := tsNamespace ts |}], w).
Definition generateStreamUpstreams (tsEx : TransportServerEx) (namer : upstreamNamer) (isPlus isResolverConfigured : bool)
    : list StreamUpstreamCfg * Warnings :=
  let '(upstreams, w) :=
    foldl (addStreamUpstream tsEx namer isPlus isResolverConfigured) ([], ∅) (ts_Upstreams (tsx_TransportServer tsEx)) in
  (sortSlice su_Name upstreams, w).

Definition generateTransportServerConfig (p : transportServerConfigParams) : option (TransportServerConfigCfg * Warnings) :=
  let tsEx := tcp_transportServerEx p in
  let ts := tsx_TransportServer tsEx in
  let namer := newUpstreamNamerForTransportServer ts in
  let '(upstreams, w) := generateStreamUpstreams tsEx namer (tcp_isPlus p) (tcp_isResolverConfigured p) in
  let warnings := warningsAdd ∅ w in
  pass ← ts_Action ts;
  let '(healthCheck, match_) := generateTransportServerHealthCheck pass (GetNameForUpstream namer pass) (ts_Upstreams ts) in
  '(sslConfig, w) ← generateStreamSSLConfig (ts_TLSSecret ts) (tsNamespace ts) (tsx_SecretRefs tsEx);
  let warnings := warningsAdd warnings w in
  let params := ts_UpstreamParameters ts in
  let nextUpstream := default false (upp_NextUpstream <$> params) in
  let isTLSPassthrough := onPassthroughListener ts in
  Some ({| tcfg_Server :=
             {| sv_ServerName := generateServerName (ts_Host ts) isTLSPassthrough;
                sv_TLSPassthrough := isTLSPassthrough; sv_UnixSocket := generateUnixSocket ts;
                sv_Port := tcp_listenerPort p; sv_UDP := bool_decide (tsl_Protocol (ts_Listener ts) = "UDP");
                sv_StatusZone := if isTLSPassthrough then ts_Host ts else tsl_Name (ts_Listener ts);
                sv_ProxyRequests := params ≫= upp_UDPRequests; sv_ProxyResponses := params ≫= upp_UDPResponses;
                sv_ProxyPass := GetNameForUpstream namer pass; sv_Name := tsName ts; sv_Namespace := tsNamespace ts;
                sv_ProxyTimeout := generateTimeWithDefault (default "" (ts_SessionParameters ts)) "10m";
                sv_ProxyConnectTimeout := generateTimeWithDefault (default "" (upp_ConnectTimeout <$> params)) "60s";
                sv_ProxyNextUpstream := nextUpstream;
                sv_ProxyNextUpstreamTimeout :=
                  generateTimeWithDefault (if nextUpstream then default "" (upp_NextUpstreamTimeout <$> params) else "") "0s";
                sv_ProxyNextUpstreamTries := if nextUpstream then default 0%Z (upp_NextUpstreamTries <$> params) else 0%Z;
                sv_HealthCheck := healthCheck; sv_ServerSnippets := generateSnippets true (ts_ServerSnippets ts) [];
                sv_DisableIPV6 := tsx_DisableIPV6 tsEx; sv_SSL := sslConfig; sv_IPv4 := tsx_IPv4 tsEx;
                sv_IPv6 := tsx_IPv6 tsEx |};
           tcfg_Upstreams := upstreams; tcfg_StreamSnippets := generateSnippets true (ts_StreamSnippets ts) [];
           tcfg_Match := match_; tcfg_DynamicSSLReloadEnabled := tcp_isDynamicReloadEnabled p;
           tcfg_StaticSSLPath := tcp_staticSSLPath p |}, warnings).
End Generation.

(** ** What the controller collects *)
Section Collect.
Context `{LS : LabelSets}.

(** getEndpointsForUpstream of a namespace, a service and a port: the addresses of
    the pods and whether the service is of type ExternalName, or an error *)
Notation endpointsLookup := (string → string → Z → string + list string * bool).

(** the addresses and the services of type ExternalName after reading one service;
    [registers] tells whether such a service is recorded *)
Definition readEndpoints (lookup : endpointsLookup) (namespace service : string) (port : Z) (registers : bool)
    (acc : gmap string (list string) * gmap string bool) : gmap string (list string) * gmap string bool :=
  let key := GenerateEndpointsKey namespace service None port in
  match lookup namespace service port with
  | inl _ => (<[key := []]> acc.1, acc.2)
  | inr (endps, external) =>
      (<[key := endps]> acc.1,
       if external && registers then <[GenerateExternalNameSvcKey namespace service := true]> acc.2 else acc.2)
  end.
(** one turn of the loop over the upstreams *)
Definition collectEndpoints (lookup : endpointsLookup) (isNginxPlus : bool) (ts : TransportServer)
    (acc : gmap string (list string) * gmap string bool) (u : TransportServerUpstream)
    : gmap string (list string) * gmap string bool :=
  let acc := readEndpoints lookup (tsNamespace ts) (tsu_Service u) (tsu_Port u `mod` 65536)%Z isNginxPlus acc in
  match tsu_BackupPort u with
  | Some backupPort => if bool_decide (tsu_Backup u = "") then acc
                       else readEndpoints lookup (tsNamespace ts) (tsu_Backup u) backupPort true acc
  | None => acc
  end.

Context `{Crypto : CryptoAPI} {F : Type} `{FM : !SecretFileManager F}.
Definition createTransportServerEx (lookup : endpointsLookup) (isNginxPlus isIPV6Disabled : bool) (ts : TransportServer)
    (listenerPort : Z) (ipv4 ipv6 : string) (secretStore : LocalSecretStore F)
    : option (TransportServerEx * LocalSecretStore F) :=
  let '(endpoints, externalNameSvcs) := foldl (collectEndpoints lookup isNginxPlus ts) (∅, ∅) (ts_Upstreams ts) in
  rd ← createTransportServerEx_secrets ts secretStore;
  Some ({| tsx_ListenerPort := listenerPort; tsx_TransportServer := ts; tsx_Endpoints := endpoints;
           tsx_ExternalNameSvcs := externalNameSvcs; tsx_DisableIPV6 := isIPV6Disabled; tsx_SecretRefs := rd.2;
           tsx_IPv4 := ipv4; tsx_IPv6 := ipv6 |}, rd.1).
End Collect.

(** ** The configurator *)

(** the text templates of the stream configuration: an error, or the text *)
Class StreamTemplates := {
  ExecuteTransportServerTemplate : TransportServerConfigCfg → string + string;
  ExecuteTLSPassthroughHostsTemplate : gmap string string → string + string
}.

Record tlsPassthroughPair := { tp_Host : string; tp_UnixSocket : string }.
(** the files and the maps of the configurator that TransportServers use *)
Record streamConfigurator := {
  sg_files : FS;
  sg_transportServers : gmap string TransportServerEx;
  sg_tlsPassthroughPairs : gmap string tlsPassthroughPair
}.
Definition sg_set_pairs (pairs : gmap string tlsPassthroughPair) (st : streamConfigurator) : streamConfigurator :=
  {| sg_files := sg_files st; sg_transportServers := sg_transportServers st; sg_tlsPassthroughPairs := pairs |}.
Definition generateNamespaceNameKey (meta : ObjectMeta) : string := om_Namespace meta +:+ "/" +:+ om_Name meta.
Definition getFileNameForTransportServer (ts : TransportServer) : string :=
  "ts_" +:+ tsNamespace ts +:+ "_" +:+ tsName ts.
Definition getFileNameForTransportServerFromKey (key : string) : string := "ts_" +:+ ReplaceAll key slash "_".

(** the hosts are inserted in the order in which Go ranges over the map *)
Definition generateTLSPassthroughHostsConfig `{MapRange} (pairs : gmap string tlsPassthroughPair) : gmap string string :=
  foldl (λ cfg kp, <[tp_Host kp.2 := tp_UnixSocket kp.2]> cfg) ∅ (range "generateTLSPassthroughHostsConfig" pairs).

Section StreamConfigurator.
Context `{LS : LabelSets} `{SS : SliceSort} `{MR : MapRange} `{API : NginxAPI} `{ST : StreamTemplates}.
Variable paths : LocalPaths.

(** An error or whether the contents changed; [None] is nl.Fatalf or a panic. *)
Definition updateTLSPassthroughHostsConfig (st : streamConfigurator) : option (streamConfigurator * (string + bool)) :=
  match ExecuteTLSPassthroughHostsTemplate (generateTLSPassthroughHostsConfig (sg_tlsPassthroughPairs st)) with
  | inl err => Some (st, inl ("error generating config for TLS Passthrough Unix Sockets map: " +:+ err))
  | inr content =>
      '(files, changed) ← CreateTLSPassthroughHostsConfig paths (sg_files st) content;
      Some ({| sg_files := files; sg_transportServers := sg_transportServers st;
               sg_tlsPassthroughPairs := sg_tlsPassthroughPairs st |}, inr changed)
  end.

(** Without the labels of metrics *)
Definition addOrUpdateTransportServer (isPlus isResolverConfigured dynamicSSLReload : bool) (staticSSLPath : string)
    (st : streamConfigurator) (tsEx : TransportServerEx) : option (streamConfigurator * (string + bool * Warnings)) :=
  let ts := tsx_TransportServer tsEx in
  let name := getFileNameForTransportServer ts in
  '(tsCfg, warnings) ← generateTransportServerConfig
    {| tcp_transportServerEx := tsEx; tcp_listenerPort := tsx_ListenerPort tsEx; tcp_isPlus := isPlus;
       tcp_isResolverConfigured := isResolverConfigured; tcp_isDynamicReloadEnabled := dynamicSSLReload;
       tcp_staticSSLPath := staticSSLPath |};
  match ExecuteTransportServerTemplate tsCfg with
  | inl err => Some (st, inl ("error generating TransportServer config " +:+ name +:+ ": " +:+ err))
  | inr content =>
      '(files, changed) ← LocalCreateStreamConfig paths (sg_files st) name content;
      let st := {| sg_files := files; sg_transportServers := <[name := tsEx]> (sg_transportServers st);
                   sg_tlsPassthroughPairs := sg_tlsPassthroughPairs st |} in
      if negb (bool_decide (ts_Host ts = "")) && onPassthroughListener ts then
        let pair := {| tp_Host := ts_Host ts; tp_UnixSocket := generateUnixSocket ts |} in
        '(st, res) ← updateTLSPassthroughHostsConfig
          (sg_set_pairs (<[generateNamespaceNameKey (ts_Meta ts) := pair]> (sg_tlsPassthroughPairs st)) st);
        Some (st, match res with inl err => inl err | inr ptChanged => inr (changed || ptChanged, warnings) end)
      else Some (st, inr (changed, warnings))
  end.

Definition deleteTransportServer (st : streamConfigurator) (key : string) : option (streamConfigurator * option string) :=
  let name := getFileNameForTransportServerFromKey key in
  let st := {| sg_files := DeleteStreamConfig paths (sg_files st) name;
               sg_transportServers := delete name (sg_transportServers st);
               sg_tlsPassthroughPairs := sg_tlsPassthroughPairs st |} in
  match sg_tlsPassthroughPairs st !! key with
  | Some _ =>
      '(st, res) ← updateTLSPassthroughHostsConfig (sg_set_pairs (delete key (sg_tlsPassthroughPairs st)) st);
      Some (st, match res with inl err => Some err | inr _ => None end)
  | None => Some (st, None)
  end.

(** Configurator.Reload: the files, the version of the configuration and the error *)
Definition reloadUnlessDisabled (isReloadsEnabled : bool) (files : FS) (version : Z) : option (FS * Z * option string) :=
  if negb isReloadsEnabled then Some (files, version, None) else Reload paths files version.
Definition sg_set_files (files : FS) (st : streamConfigurator) : streamConfigurator :=
  {| sg_files := files; sg_transportServers := sg_transportServers st; sg_tlsPassthroughPairs := sg_tlsPassthroughPairs st |}.
Definition AddOrUpdateTransportServer (isReloadsEnabled isPlus isResolverConfigured dynamicSSLReload : bool) (staticSSLPath : string)
    (st : streamConfigurator) (version : Z) (tsEx : TransportServerEx) : option (streamConfigurator * Z * (string + Warnings)) :=
  let key := generateNamespaceNameKey (ts_Meta (tsx_TransportServer tsEx)) in
  '(st, res) ← addOrUpdateTransportServer isPlus isResolverConfigured dynamicSSLReload staticSSLPath st tsEx;
  match res with
  | inl err => Some (st, version, inl ("error adding or updating TransportServer " +:+ key +:+ ": " +:+ err))
  | inr (_, warnings) =>
      '(files, version, err) ← reloadUnlessDisabled isReloadsEnabled (sg_files st) version;
      Some (sg_set_files files st, version,
            match err with
            | Some err => inl ("error reloading NGINX for TransportServer " +:+ key +:+ ": " +:+ err)
            | None => inr warnings
            end)
  end.
Definition DeleteTransportServer (isReloadsEnabled : bool) (st : streamConfigurator) (version : Z) (key : string)
    : option (streamConfigurator * Z * option string) :=
  let failed err := Some ("error when removing TransportServer " +:+ key +:+ ": " +:+ err) in
  '(st, err) ← deleteTransportServer st key;
  match err with
  | Some err => Some (st, version, failed err)
  | None =>
      '(files, version, err) ← reloadUnlessDisabled isReloadsEnabled (sg_files st) version;
      Some (sg_set_files files st, version, err ≫= failed)
  end.
End StreamConfigurator.

(** ** Keys *)
Definition notColon (c : Ascii.ascii) : bool := negb (bool_decide (c = colon)).
Lemma digits_notColon s : decimal s = true → forallBytes notColon s = true.
Proof. apply forallBytes_mono. intros [[] [] [] [] [] [] [] []]; by vm_compute. Qed.
Lemma fmtUint_decimal n : (0 ≤ n)%Z → decimal (fmtUint n) = true.
Proof. intros Hn. destruct (fmtUint_spec n Hn) as (c & ds & _ & _ & _ & Hp). by eapply parseDigits_decimal. Qed.
Lemma fmtUint_inj n m : (0 ≤ n)%Z → (0 ≤ m)%Z → fmtUint n = fmtUint m → n = m.
Proof.
  intros Hn Hm Heq. destruct (fmtUint_spec n Hn) as (_ & _ & _ & _ & _ & Hp), (fmtUint_spec m Hm) as (_ & _ & _ & _ & _ & Hq).
  rewrite Heq in Hp. congruence.
Qed.
Lemma decimal_minus s t : decimal t = true → "-" +:+ s ≠ t.
Proof. intros Ht <-. by unfold decimal in Ht. Qed.
Lemma fmtInt_notColon n : forallBytes notColon (fmtInt n) = true.
Proof.
  unfold fmtInt. destruct (n <? 0)%Z eqn:Hn.
  - rewrite forallBytes_app. apply andb_true_iff. split; [by vm_compute|]. apply digits_notColon, fmtUint_decimal. lia.
  - apply digits_notColon, fmtUint_decimal. lia.
Qed.
Lemma fmtInt_injective n m : fmtInt n = fmtInt m → n = m.
Proof.
  unfold fmtInt. destruct (n <? 0)%Z eqn:Hn, (m <? 0)%Z eqn:Hm; intros H.
  - apply string_app_inj_l, fmtUint_inj in H; lia.
  - by apply decimal_minus in H; [|apply fmtUint_decimal; lia].
  - symmetry in H. by apply decimal_minus in H; [|apply fmtUint_decimal; lia].
  - apply fmtUint_inj in H; lia.
Qed.
Lemma lastColon s s' t t' :
  forallBytes notColon t = true → forallBytes notColon t' = true → s +:+ ":" +:+ t = s' +:+ ":" +:+ t' → s = s' ∧ t = t'.
Proof.
  intros Ht Ht'. revert s'. induction s as [|c s IH]; intros [|c' s'] H; cbn [String.append] in H.
  - by apply (string_app_inj_l ":") in H as ->.
  - injection H as _ H. change ("" +:+ t) with t in H. subst t. rewrite !forallBytes_app, !andb_true_iff in Ht.
    by destruct Ht as [_ [Ht _]].
  - injection H as _ H. change ("" +:+ t') with t' in H. subst t'. rewrite !forallBytes_app, !andb_true_iff in Ht'.
    by destruct Ht' as [_ [Ht' _]].
  - injection H as -> H. by destruct (IH _ H) as [-> ->].
Qed.
Lemma endpointsKey_inj `{LS : LabelSets} ns s s' p p' :
  GenerateEndpointsKey ns s None p = GenerateEndpointsKey ns s' None p' → s = s' ∧ p = p'.
Proof.
  unfold GenerateEndpointsKey. cbn [default]. rewrite map_size_empty. cbn [Nat.ltb Nat.leb]. intros H.
  apply string_app_inj_l, (string_app_inj_l "/") in H.
  apply lastColon in H as [-> H]; [|apply fmtInt_notColon..]. by apply fmtInt_injective in H.
Qed.

(** ** The collected endpoints *)
Section Endpoints.
Context `{LS : LabelSets}.
Variable lookup : string → string → Z → string + list string * bool.
Variable ns : string.

(** the addresses that the lookup returns; none when it fails *)
Definition addressesOf (service : string) (port : Z) : list string :=
  match lookup ns service port with inl _ => [] | inr (endps, _) => endps end.
(** the endpoints under the key of a service are those of the service *)
Definition faithful (endpoints : gmap string (list string)) : Prop :=
  ∀ service port e, endpoints !! GenerateEndpointsKey ns service None port = Some e → e = addressesOf service port.

Lemma readEndpoints_ok service port registers acc :
  faithful acc.1 → let acc' := readEndpoints lookup ns service port registers acc in
  faithful acc'.1 ∧ dom acc.1 ⊆ dom acc'.1 ∧ GenerateEndpointsKey ns service None port ∈ dom acc'.1.
Proof.
  intros Hf. cbv zeta. unfold readEndpoints.
  assert (faithful (<[GenerateEndpointsKey ns service None port := addressesOf service port]> acc.1)) as Hf'.
  { intros s p e [[Hk <-]|[_ He]]%lookup_insert_Some; [|by apply Hf]. by apply endpointsKey_inj in Hk as [-> ->]. }
  unfold addressesOf in Hf'. destruct (lookup ns service port) as [err|[endps external]]; simpl; (split; [exact Hf'|set_solver]).
Qed.
Lemma collectEndpoints_ok isNginxPlus ts acc u :
  tsNamespace ts = ns → faithful acc.1 → let acc' := collectEndpoints lookup isNginxPlus ts acc u in
  faithful acc'.1 ∧ dom acc.1 ⊆ dom acc'.1 ∧ streamEndpointsKey ts u ∈ dom acc'.1.
Proof.
  intros Hns Hf. unfold collectEndpoints, streamEndpointsKey. rewrite Hns. cbv zeta.
  destruct (readEndpoints_ok (tsu_Service u) (tsu_Port u `mod` 65536)%Z isNginxPlus acc Hf) as (Hf1 & Hd1 & Hk).
  destruct (tsu_BackupPort u) as [p|]; [|done]. case_bool_decide; [done|].
  destruct (readEndpoints_ok (tsu_Backup u) p true _ Hf1) as (Hf2 & Hd2 & _). split_and!; [done|set_solver|set_solver].
Qed.
Lemma collected_endpoints isNginxPlus ts us acc :
  tsNamespace ts = ns → faithful acc.1 → let acc' := foldl (collectEndpoints lookup isNginxPlus ts) acc us in
  faithful acc'.1 ∧ dom acc.1 ⊆ dom acc'.1 ∧ ∀ u, u ∈ us → streamEndpointsKey ts u ∈ dom acc'.1.
Proof.
  intros Hns. cbv zeta. revert acc. induction us as [|u us IH]; intros acc Hf; [by split_and!; [| |intros u ?%elem_of_nil]|].
  simpl. destruct (collectEndpoints_ok isNginxPlus ts acc u Hns Hf) as (Hf1 & Hd1 & Hk).
  destruct (IH _ Hf1) as (Hf2 & Hd2 & Hall). split_and!; [done|set_solver|].
  intros u' [->|Hu]%elem_of_cons; [by apply Hd2|by apply Hall].
Qed.
End Endpoints.

(** ** The generated upstreams *)
Section Upstreams.
Context `{LS : LabelSets} `{SS : SliceSort}.
Variables (tsEx : TransportServerEx) (namer : upstreamNamer) (isPlus resolver : bool).
Notation ts := (tsx_TransportServer tsEx).

Definition registered (service : string) : Prop :=
  is_Some (tsx_ExternalNameSvcs tsEx !! GenerateExternalNameSvcKey (tsNamespace ts) service).
(** the addresses of an upstream: those collected for it, or none of a service of type ExternalName
    that cannot be resolved *)
Definition addressed (u : TransportServerUpstream) (endps : list string) : Prop :=
  endps = default [] (tsx_Endpoints tsEx !! streamEndpointsKey ts u) ∨
  endps = [] ∧ resolver = false ∧ registered (tsu_Service u).
Definition generatedFor (u : TransportServerUpstream) (v : StreamUpstreamCfg) : Prop :=
  ∃ endps backups resolve labels, addressed u endps ∧ v = generateStreamUpstream u namer endps backups isPlus resolve labels.

Lemma streamEndpoints_addressed u w :
  addressed u (streamEndpoints tsEx resolver (streamEndpointsKey ts u) (tsu_Service u) (tsu_Name u) w).1.1.
Proof.
  unfold streamEndpoints, addressed, registered. case_bool_decide as Hr; [|by left]. destruct resolver; [by left|].
  by right.
Qed.
Lemma addStreamUpstream_ok us w u : ∃ v w', generatedFor u v ∧
  addStreamUpstream tsEx namer isPlus resolver (us, w) u = (us ++ [v], w').
Proof.
  unfold addStreamUpstream. pose proof (streamEndpoints_addressed u w) as Ha.
  destruct (streamEndpoints _ _ _ _ _ _) as [[endps external] w1]. cbn [fst] in Ha.
  destruct (match tsu_BackupPort u with Some _ => _ | None => _ end) as [[backups external2] w2].
  eexists _, w2. split; [|reflexivity]. by eexists endps, backups, external2, _.
Qed.
Lemma generateStreamUpstreams_ok : ∃ us w, generateStreamUpstreams tsEx namer isPlus resolver = (sortSlice su_Name us, w) ∧
  Forall2 generatedFor (ts_Upstreams ts) us.
Proof.
  unfold generateStreamUpstreams.
  enough (∀ l acc w, ∃ us w', foldl (addStreamUpstream tsEx namer isPlus resolver) (acc, w) l = (acc ++ us, w') ∧
    Forall2 generatedFor l us) as Hall.
  { destruct (Hall (ts_Upstreams ts) [] ∅) as (us & w & -> & Hus). by exists us, w. }
  intros l. induction l as [|u l IH]; intros acc w; [exists [], w; by rewrite app_nil_r|]. cbn [foldl].
  destruct (addStreamUpstream_ok acc w u) as (v & w1 & Hv & ->). destruct (IH (acc ++ [v]) w1) as (us & w2 & -> & Hus).
  exists (v :: us), w2. rewrite <-app_assoc. split; [done|by constructor].
Qed.
End Upstreams.

(** ** Accepted TransportServers *)
Section Accepted.
Context `{MR : MapRange} `{L : ValidationLib} `{LL : !ValidationLaws} `{LS : LabelSets} `{SS : SliceSort}.

(** What a generated server promises: [addresses] are those of the pods of a
    service at a port, [refs] the secrets that were collected. *)
Record wellConnected (ts : TransportServer) (isPlus resolver : bool) (addresses : string → Z → list string)
    (external : string → Prop) (refs : gmap string SecretReference) (cfg : TransportServerConfigCfg) : Prop := {
  wc_pass : sv_ProxyPass (tcfg_Server cfg) ∈ su_Name <$> tcfg_Upstreams cfg;
  wc_names : su_Name <$> tcfg_Upstreams cfg ≡ₚ
    (λ u, GetNameForUpstream (newUpstreamNamerForTransportServer ts) (tsu_Name u)) <$> ts_Upstreams ts;
  wc_once : NoDup (su_Name <$> tcfg_Upstreams cfg);
  wc_servers v : v ∈ tcfg_Upstreams cfg → ∃ u endps, u ∈ ts_Upstreams ts ∧
    su_Name v = GetNameForUpstream (newUpstreamNamerForTransportServer ts) (tsu_Name u) ∧
    (endps = addresses (tsu_Service u) (tsu_Port u) ∨ endps = [] ∧ resolver = false ∧ external (tsu_Service u)) ∧
    sus_Address <$> su_Servers v ≡ₚ
      (if bool_decide (endps = []) && negb isPlus then [nginxNonExistingUnixSocket] else endps);
  wc_match m : tcfg_Match cfg = Some m →
    ∃ hc, sv_HealthCheck (tcfg_Server cfg) = Some hc ∧ shc_Match hc = smc_Name m;
  wc_check hc : sv_HealthCheck (tcfg_Server cfg) = Some hc → shc_Match hc = "" ∨ is_Some (tcfg_Match cfg);
  wc_passthrough : sv_TLSPassthrough (tcfg_Server cfg) = true →
    sv_UnixSocket (tcfg_Server cfg) = generateUnixSocket ts ∧ sv_UnixSocket (tcfg_Server cfg) ≠ "" ∧
    sv_ServerName (tcfg_Server cfg) = "" ∧ sv_StatusZone (tcfg_Server cfg) = ts_Host ts ∧ ts_Host ts ≠ "" ∧
    sts_Enabled (sv_SSL (tcfg_Server cfg)) = false;
  wc_ssl : sts_Enabled (sv_SSL (tcfg_Server cfg)) = true → ∃ secret ref,
    ts_TLSSecret ts = Some secret ∧ refs !! keyOf (tsNamespace ts) secret = Some ref ∧ sr_Error ref = None ∧
    secretTypeOf ref ∈ [""; SecretTypeTLS] ∧
    sts_Certificate (sv_SSL (tcfg_Server cfg)) = sr_Path ref ∧ sts_CertificateKey (sv_SSL (tcfg_Server cfg)) = sr_Path ref
}.

Lemma generateTransportServerHealthCheck_match name generated us hc m :
  generateTransportServerHealthCheck name generated us = (hc, m) →
  (∀ c, m = Some c → ∃ h, hc = Some h ∧ shc_Match h = smc_Name c) ∧
  (∀ h, hc = Some h → shc_Match h = "" ∨ is_Some m).
Proof.
  induction us as [|u us IH]; simpl; [by intros [= <- <-]|]. case_bool_decide; [|done].
  destruct (tsu_HealthCheck u) as [h|]; [|by intros [= <- <-]]. destruct (negb (thc_Enabled h)); [by intros [= <- <-]|].
  destruct (thc_Match h) as [mt|]; simpl; intros [= <- <-]; split; try done.
  - intros c [= <-]. eexists. split; [done|]. unfold generateHealthCheckMatch. by repeat case_match.
  - intros ? [= <-]. right. by eexists.
  - intros ? [= <-]. by left.
Qed.

Lemma generateStreamSSLConfig_ok tls ns refs :
  (∀ secret, tls = Some secret → secret ≠ "" → keyOf ns secret ∈ dom refs) →
  ∃ ssl w, generateStreamSSLConfig tls ns refs = Some (ssl, w) ∧
    (sts_Enabled ssl = true → ∃ secret ref, tls = Some secret ∧ refs !! keyOf ns secret = Some ref ∧ sr_Error ref = None ∧
       secretTypeOf ref ∈ [""; SecretTypeTLS] ∧ sts_Certificate ssl = sr_Path ref ∧ sts_CertificateKey ssl = sr_Path ref).
Proof.
  intros Hrefs. unfold generateStreamSSLConfig. destruct tls as [secret|]; [|by do 2 eexists].
  case_bool_decide as Hs; [by do 2 eexists|].
  specialize (Hrefs secret eq_refl Hs). apply elem_of_dom in Hrefs as [ref Href]. rewrite Href. cbn [mbind option_bind]. cbv zeta.
  destruct (negb _ && negb _) eqn:Ht; [by do 2 eexists|]. destruct (sr_Error ref) eqn:He; [by do 2 eexists|].
  do 2 eexists. split; [reflexivity|]. intros _. exists secret, ref. split_and!; try done.
  apply andb_false_iff in Ht as [Ht|Ht]; apply negb_false_iff, bool_decide_eq_true in Ht; rewrite Ht; set_solver.
Qed.

Lemma generatedFor_servers tsEx namer isPlus resolver u v :
  generatedFor tsEx namer isPlus resolver u v → su_Name v = GetNameForUpstream namer (tsu_Name u) ∧
  ∃ endps, addressed tsEx resolver u endps ∧ sus_Address <$> su_Servers v ≡ₚ
    (if bool_decide (endps = []) && negb isPlus then [nginxNonExistingUnixSocket] else endps).
Proof.
  intros (endps & backups & resolve & labels & Ha & ->). split; [done|]. exists endps. split; [done|].
  unfold generateStreamUpstream. cbn [su_Servers]. rewrite sortSlice_perm, fmap_app, <-list_fmap_compose.
  destruct endps as [|e endps]; [by destruct isPlus|].
  rewrite (bool_decide_eq_false_2 (e :: endps = [])) by done. cbn [length Nat.eqb andb]. rewrite andb_false_r. cbn [fmap list_fmap].
  rewrite app_nil_r. rewrite <-(list_fmap_id endps) at 2. reflexivity.
Qed.

Lemma generateTransportServerConfig_ok tsEx port isPlus resolver dynamic path tsv addresses :
  let ts := tsx_TransportServer tsEx in
  TransportServerValidation.ValidateTransportServer tsv ts = None →
  (∀ u, u ∈ ts_Upstreams ts → tsx_Endpoints tsEx !! streamEndpointsKey ts u = Some (addresses (tsu_Service u) (tsu_Port u `mod` 65536)%Z)) →
  (∀ secret, ts_TLSSecret ts = Some secret → secret ≠ "" → keyOf (tsNamespace ts) secret ∈ dom (tsx_SecretRefs tsEx)) →
  ∃ cfg w, generateTransportServerConfig
      {| tcp_transportServerEx := tsEx; tcp_listenerPort := port; tcp_isPlus := isPlus; tcp_isResolverConfigured := resolver;
         tcp_isDynamicReloadEnabled := dynamic; tcp_staticSSLPath := path |} = Some (cfg, w) ∧
    wellConnected ts isPlus resolver addresses (registered tsEx) (tsx_SecretRefs tsEx) cfg.
Proof.
  cbv zeta. intros Hv Heps Hrefs. pose proof (accepted_transportServer_well_formed tsv _ Hv) as (Hl & Hnd & Hus & pass & up & Hpass & Hup & Hname).
  unfold generateTransportServerConfig. cbn [tcp_transportServerEx tcp_isPlus tcp_isResolverConfigured].
  set (ts := tsx_TransportServer tsEx) in *. set (namer := newUpstreamNamerForTransportServer ts).
  destruct (generateStreamUpstreams_ok tsEx namer isPlus resolver) as (us & w & -> & Hgen). rewrite Hpass. cbn [mbind option_bind].
  destruct (generateTransportServerHealthCheck _ _ _) as [hc m] eqn:Hhc.
  apply generateTransportServerHealthCheck_match in Hhc as [Hm Hc].
  destruct (generateStreamSSLConfig_ok (ts_TLSSecret ts) (tsNamespace ts) (tsx_SecretRefs tsEx) Hrefs) as (ssl & w' & Hs & Hssl).
  rewrite Hs. cbn [mbind option_bind]. do 2 eexists. split; [reflexivity|].
  assert (su_Name <$> sortSlice su_Name us ≡ₚ (λ u, GetNameForUpstream namer (tsu_Name u)) <$> ts_Upstreams ts) as Hnames.
  { rewrite sortSlice_perm. fold ts in Hgen. clear -Hgen. revert Hgen. generalize (ts_Upstreams ts) us. intros l0 k0 Hgen. induction Hgen as [|u v l k Hu _ IH]; [reflexivity|]. cbn [fmap list_fmap].
    rewrite IH. by apply generatedFor_servers in Hu as [-> _]. }
  split; cbn [tcfg_Server tcfg_Upstreams tcfg_Match sv_ProxyPass sv_HealthCheck sv_TLSPassthrough sv_UnixSocket sv_ServerName
    sv_StatusZone sv_SSL]; try done.
  - rewrite Hnames. apply list_elem_of_fmap. exists up. split; [by rewrite Hname|done].
  - rewrite Hnames. change (λ u, GetNameForUpstream namer (tsu_Name u)) with (GetNameForUpstream namer ∘ tsu_Name).
    rewrite list_fmap_compose. apply NoDup_fmap_2; [|done]. intros a b Hab. unfold GetNameForUpstream in Hab.
    by apply string_app_inj_l, (string_app_inj_l "_") in Hab.
  - intros v Hin. rewrite sortSlice_perm in Hin. apply list_elem_of_lookup in Hin as [i Hi].
    destruct (Forall2_lookup_r _ _ _ _ _ Hgen Hi) as (u & Hu & Hg). apply list_elem_of_lookup_2 in Hu.
    apply generatedFor_servers in Hg as (Hn & endps & Ha & Hperm). exists u, endps. split_and!; [done|done| |done].
    destruct Ha as [->|Ha]; [left|by right]. fold ts. rewrite (Heps u Hu). cbn [default]. destruct (Hus u Hu) as [_ Hp].
    by rewrite Z.mod_small by lia.
  - intros Hp. unfold generateUnixSocket, generateServerName. rewrite Hp. destruct Hl as (Hiff & Hno & _).
    unfold onPassthroughListener in Hp. apply bool_decide_eq_true in Hp. destruct (Hno (proj1 Hiff Hp)) as [Hh Htls].
    split_and!; [done|done|done|done|done|]. rewrite Htls in Hs. injection Hs as <- _. done.
Qed.

Context `{Crypto : CryptoAPI} {F : Type} `{FM : !SecretFileManager F} `{SPC : !SecretPathsContract F}.

(** C33.  From an accepted TransportServer to its server.
    Take a TransportServer that passes validation, whatever secrets were added to
    the store, updated and deleted, and whatever endpoints are found for its
    services.  With what createTransportServerEx collects,
    generateTransportServerConfig returns a configuration: the action passes to an
    upstream that is defined, the names of the upstreams are those of the resource,
    each once; the servers of an upstream are the pods of its own service and port,
    except for an ExternalName service that cannot be resolved, and never an empty
    upstream for the open source NGINX, which refuses one; a match block and the
    health check that names it come together; TLS Passthrough listens on a unix
    socket and terminates no TLS; and TLS is terminated only with a secret of type
    TLS without an error, whose file is served. *)
Theorem accepted_transportServer_served tsv ts lookup isPlus noIPV6 port ipv4 ipv6 ops (files : F) resolver dynamic path :
  TransportServerValidation.ValidateTransportServer tsv ts = None → (∀ s, OpAdd s ∈ ops → named_secret s) →
  ∃ store tsEx store' cfg w,
    foldM storeStep (NewLocalSecretStore files) ops = Some store ∧
    createTransportServerEx lookup isPlus noIPV6 ts port ipv4 ipv6 store = Some (tsEx, store') ∧
    generateTransportServerConfig
      {| tcp_transportServerEx := tsEx; tcp_listenerPort := tsx_ListenerPort tsEx; tcp_isPlus := isPlus;
         tcp_isResolverConfigured := resolver; tcp_isDynamicReloadEnabled := dynamic; tcp_staticSSLPath := path |}
    = Some (cfg, w) ∧
    wellConnected ts isPlus resolver (addressesOf lookup (tsNamespace ts)) (registered tsEx) (tsx_SecretRefs tsEx) cfg.
Proof.
  intros Hv Hnamed. destruct (store_runs_ready ops files Hnamed) as (store & Hrun & Hst).
  assert (readingOk (store, ∅)) as H0 by (split; [done|]; intros k ref; cbn; by rewrite lookup_empty).
  destruct (readServerTLS_ok (tsNamespace ts) (ts_TLSSecret ts) (store, ∅) H0) as (rd & Hrd & _ & Htls).
  assert (faithful lookup (tsNamespace ts) ∅) as Hf by (by intros s p e He; rewrite lookup_empty in He).
  destruct (collected_endpoints lookup (tsNamespace ts) isPlus ts (ts_Upstreams ts) (∅, ∅) eq_refl Hf) as (Hf' & _ & Hin).
  destruct (foldl (collectEndpoints lookup isPlus ts) (∅, ∅) (ts_Upstreams ts)) as [endpoints external] eqn:Hcollect.
  set (tsEx := {| tsx_ListenerPort := port; tsx_TransportServer := ts; tsx_Endpoints := endpoints;
                  tsx_ExternalNameSvcs := external; tsx_DisableIPV6 := noIPV6; tsx_SecretRefs := rd.2;
                  tsx_IPv4 := ipv4; tsx_IPv6 := ipv6 |}).
  assert (createTransportServerEx lookup isPlus noIPV6 ts port ipv4 ipv6 store = Some (tsEx, rd.1)) as Hex.
  { unfold createTransportServerEx, createTransportServerEx_secrets. fold (tsNamespace ts). by rewrite Hcollect, Hrd. }
  destruct (generateTransportServerConfig_ok tsEx (tsx_ListenerPort tsEx) isPlus resolver dynamic path tsv
    (addressesOf lookup (tsNamespace ts)) Hv) as (cfg & w & Hgen & Hwc).
  - intros u Hu. specialize (Hin u Hu). apply elem_of_dom in Hin as [e He]. cbn [fst] in He.
    cbn [tsEx tsx_TransportServer tsx_Endpoints]. rewrite He. f_equal. by apply Hf' in He.
  - exact Htls.
  - by exists store, tsEx, rd.1, cfg, w.
Qed.
End Accepted.

(** ** The map of the TLS Passthrough hosts *)
Section Passthrough.
Context `{LS : LabelSets} `{SS : SliceSort} `{MR : MapRange} `{API : NginxAPI} `{ST : StreamTemplates}.
Notation paths := (NewLocalManager "/etc/nginx/").
Variables (isPlus resolver dynamic : bool) (sslPath : string).
Implicit Types (st : streamConfigurator) (t : gmap string TransportServer).

Inductive streamOp := AddOrUpdateTS (tsEx : TransportServerEx) | DeleteTS (key : string).
(** an operation that succeeds *)
Definition streamStep st (op : streamOp) : option streamConfigurator :=
  match op with
  | AddOrUpdateTS tsEx =>
      '(st, res) ← addOrUpdateTransportServer paths isPlus resolver dynamic sslPath st tsEx;
      match res with inl _ => None | inr _ => Some st end
  | DeleteTS key =>
      '(st, err) ← deleteTransportServer paths st key; match err with Some _ => None | None => Some st end
  end.
(** the TransportServers in their latest version, by namespace and name *)
Definition latestStep t (op : streamOp) : gmap string TransportServer :=
  match op with
  | AddOrUpdateTS tsEx => <[generateNamespaceNameKey (ts_Meta (tsx_TransportServer tsEx)) := tsx_TransportServer tsEx]> t
  | DeleteTS key => delete key t
  end.
Definition latestTS (ops : list streamOp) : gmap string TransportServer := foldl latestStep ∅ ops.
(** those that have a host on the TLS Passthrough listener *)
Definition passthrough (ts : TransportServer) : bool := negb (bool_decide (ts_Host ts = "")) && onPassthroughListener ts.
Definition passthroughTS (ops : list streamOp) : gmap string TransportServer :=
  filter (λ kv, passthrough kv.2 = true) (latestTS ops).
(** no update moves a TransportServer off the TLS Passthrough listener *)
Definition staysOnListener (ops : list streamOp) : Prop :=
  ∀ pre tsEx post old, ops = pre ++ AddOrUpdateTS tsEx :: post →
    latestTS pre !! generateNamespaceNameKey (ts_Meta (tsx_TransportServer tsEx)) = Some old →
    passthrough old = true → passthrough (tsx_TransportServer tsEx) = true.
Definition addsPassthrough (ops : list streamOp) : Prop :=
  ∃ tsEx, AddOrUpdateTS tsEx ∈ ops ∧ passthrough (tsx_TransportServer tsEx) = true.
(** Kubernetes names: no slash, and no underscore in a namespace *)
Definition namedTS (ts : TransportServer) : Prop :=
  containsByte slash (tsNamespace ts) = false ∧ containsByte slash (tsName ts) = false ∧
  containsByte (byte_at 95) (tsNamespace ts) = false.
Definition namedOp (op : streamOp) : Prop :=
  match op with AddOrUpdateTS tsEx => namedTS (tsx_TransportServer tsEx) | DeleteTS _ => True end.
Definition pairOf (ts : TransportServer) : tlsPassthroughPair :=
  {| tp_Host := ts_Host ts; tp_UnixSocket := generateUnixSocket ts |}.

(** *** Files *)
Lemma streamFile_apart rest :
  containsByte slash rest = false →
  getFilenameForStreamConfig paths ("ts_" +:+ rest) ≠ tlsPassthroughHostsFilename paths.
Proof.
  intros Hr. unfold getFilenameForStreamConfig.
  change (streamConfdPath paths) with "/etc/nginx/stream-conf.d". rewrite pathJoin_plain.
  - by vm_compute.
  - done.
  - split; [|done]. by rewrite !containsByte_app, Hr.
Qed.
Lemma ReplaceAll_no_slash s : containsByte slash (ReplaceAll s slash "_") = false.
Proof.
  induction s as [|c s IH]; [done|]. cbn [ReplaceAll]. rewrite containsByte_app, IH, orb_false_r.
  destruct (Ascii.eqb_spec c slash) as [->|Hc]; [done|]. cbn [containsByte]. by rewrite orb_false_r, bool_decide_false.
Qed.
Lemma createConfig_writes fs p content fs' changed : createConfig fs p content = Some (fs', changed) → fs' = <[p := content]> fs.
Proof. unfold createConfig, createFileAndWrite. destruct (writeOutcome fs p content); [|done..]. by intros [= <- _]. Qed.
Lemma deleteConfig_other fs p q : p ≠ q → deleteConfig fs p !! q = fs !! q.
Proof.
  intros Hne. unfold deleteConfig, osRemove. destruct (fs !! p); [|done]. destruct (removeFault fs p); [done|].
  cbn [fst]. by rewrite lookup_delete_ne.
Qed.

(** *** The invariant *)
Definition hostsWritten st : Prop :=
  ∃ content, ExecuteTLSPassthroughHostsTemplate (generateTLSPassthroughHostsConfig (sg_tlsPassthroughPairs st)) = inr content ∧
    sg_files st !! tlsPassthroughHostsFilename paths = Some content.
Record synced st (ops : list streamOp) : Prop := {
  sy_pairs : sg_tlsPassthroughPairs st = pairOf <$> passthroughTS ops;
  sy_file : addsPassthrough ops → hostsWritten st;
  sy_named key ts : latestTS ops !! key = Some ts → namedTS ts ∧ key = generateNamespaceNameKey (ts_Meta ts)
}.
Lemma latestTS_snoc ops op : latestTS (ops ++ [op]) = latestStep (latestTS ops) op.
Proof. apply foldl_snoc. Qed.
Lemma latest_named ops op key ts :
  (∀ key ts, latestTS ops !! key = Some ts → namedTS ts ∧ key = generateNamespaceNameKey (ts_Meta ts)) → namedOp op →
  latestTS (ops ++ [op]) !! key = Some ts → namedTS ts ∧ key = generateNamespaceNameKey (ts_Meta ts).
Proof.
  intros H Hn. rewrite latestTS_snoc. destruct op as [tsEx|k]; simpl.
  - intros [[<- <-]|[_ ?]]%lookup_insert_Some; [done|by apply H].
  - intros [_ ?]%lookup_delete_Some. by apply H.
Qed.
Lemma addsPassthrough_snoc ops op :
  addsPassthrough (ops ++ [op]) → (∃ tsEx, op = AddOrUpdateTS tsEx ∧ passthrough (tsx_TransportServer tsEx) = true) ∨ addsPassthrough ops.
Proof. intros (tsEx & [Hin|Hin%list_elem_of_singleton]%elem_of_app & Hp); [right; by exists tsEx|left; by exists tsEx]. Qed.

Lemma updateHosts_written st st' changed :
  updateTLSPassthroughHostsConfig paths st = Some (st', inr changed) →
  sg_tlsPassthroughPairs st' = sg_tlsPassthroughPairs st ∧ hostsWritten st'.
Proof.
  unfold updateTLSPassthroughHostsConfig, CreateTLSPassthroughHostsConfig.
  destruct (ExecuteTLSPassthroughHostsTemplate _) as [err|content] eqn:He; [done|].
  intros H. apply bind_Some in H as ([files ch] & Hc & H). injection H as <- _. apply createConfig_writes in Hc as ->.
  split; [done|]. exists content. split; [done|]. cbn [sg_files]. by rewrite lookup_insert_eq.
Qed.

Lemma addStep_synced st ops tsEx st' :
  streamStep st (AddOrUpdateTS tsEx) = Some st' → namedTS (tsx_TransportServer tsEx) → staysOnListener (ops ++ [AddOrUpdateTS tsEx]) →
  synced st ops → synced st' (ops ++ [AddOrUpdateTS tsEx]).
Proof.
  intros H Hn Hstay [Hp Hf Hk]. cbn [streamStep] in H.
  apply bind_Some in H as ([st1 res] & H & Hres). unfold addOrUpdateTransportServer in H. cbv zeta in H.
  set (ts := tsx_TransportServer tsEx) in *. set (key := generateNamespaceNameKey (ts_Meta ts)) in *.
  apply bind_Some in H as ([cfg w] & _ & H).
  destruct (ExecuteTransportServerTemplate cfg) as [err|content]; [by injection H as <- <-|].
  apply bind_Some in H as ([files ch] & Hc & H). apply createConfig_writes in Hc as ->.
  assert (passthroughTS (ops ++ [AddOrUpdateTS tsEx]) =
          if passthrough ts then <[key := ts]> (passthroughTS ops) else passthroughTS ops) as Hpt.
  { unfold passthroughTS. rewrite latestTS_snoc. cbn [latestStep]. fold ts key. rewrite map_filter_insert. cbn [snd].
    destruct (passthrough ts) eqn:Hts; [by rewrite decide_True|]. rewrite decide_False by done.
    rewrite map_filter_delete. apply delete_id. apply map_lookup_filter_None. right. intros old Hold Hpo.
    pose proof (Hstay ops tsEx [] old eq_refl Hold Hpo) as Hx. fold ts in Hx. congruence. }
  change (negb (bool_decide (ts_Host ts = "")) && onPassthroughListener ts) with (passthrough ts) in H.
  destruct (passthrough ts) eqn:Hpass.
  - apply bind_Some in H as ([st2 res2] & H & Heq). injection Heq as <- <-. destruct res2 as [|ch2]; [done|].
    injection Hres as <-. apply updateHosts_written in H as [Hpairs Hw].
    split; [|done|intros k ts0; exact (latest_named ops (AddOrUpdateTS tsEx) k ts0 Hk Hn)]. rewrite Hpairs, Hpt, fmap_insert, <-Hp. reflexivity.
  - injection H as <- <-. injection Hres as <-. split; [by rewrite Hpt| |intros k ts0; exact (latest_named ops (AddOrUpdateTS tsEx) k ts0 Hk Hn)].
    intros [(x & [= <-] & Hx)|Ht]%addsPassthrough_snoc; [fold ts in Hx; congruence|].
    destruct (Hf Ht) as (c & He & Hfile). exists c. split; [done|]. cbn [sg_files].
    rewrite lookup_insert_ne; [done|]. apply streamFile_apart. destruct Hn as (H1 & H2 & _). rewrite !containsByte_app.
    by rewrite H1, H2.
Qed.
Lemma deleteStep_synced st ops key st' :
  streamStep st (DeleteTS key) = Some st' → synced st ops → synced st' (ops ++ [DeleteTS key]).
Proof.
  intros H [Hp Hf Hk]. cbn [streamStep] in H.
  apply bind_Some in H as ([st1 err] & H & Hres). unfold deleteTransportServer in H. cbv zeta in H. cbn [sg_tlsPassthroughPairs] in H.
  assert (passthroughTS (ops ++ [DeleteTS key]) = delete key (passthroughTS ops)) as Hpt.
  { unfold passthroughTS. rewrite latestTS_snoc. apply map_filter_delete. }
  rewrite Hp, lookup_fmap in H. destruct (passthroughTS ops !! key) as [ts|] eqn:Ht; cbn [fmap option_fmap option_map] in H.
  - apply bind_Some in H as ([st2 res2] & H & Heq). injection Heq as <- <-. destruct res2 as [|ch2]; [done|].
    injection Hres as <-. apply updateHosts_written in H as [Hpairs Hw].
    split; [|done|intros k ts0; exact (latest_named ops (DeleteTS key) k ts0 Hk I)]. rewrite Hpairs, Hpt, fmap_delete, <-Hp. reflexivity.
  - injection H as <- <-. injection Hres as <-. rewrite (delete_id _ key Ht) in Hpt.
    split; [by rewrite Hpt| |intros k ts0; exact (latest_named ops (DeleteTS key) k ts0 Hk I)].
    intros [(x & [=] & _)|Hne]%addsPassthrough_snoc. destruct (Hf Hne) as (c & He & Hfile). exists c.
    split; [by rewrite Hp in He|]. cbn [sg_files].
    unfold DeleteStreamConfig. rewrite deleteConfig_other; [done|]. apply streamFile_apart, ReplaceAll_no_slash.
Qed.
Lemma staysOnListener_prefix l1 l2 : staysOnListener (l1 ++ l2) → staysOnListener l1.
Proof. intros H pre tsEx post old -> . eapply (H pre tsEx (post ++ l2)). by rewrite <-app_assoc. Qed.
Lemma run_synced files ops : ∀ st,
  foldM streamStep {| sg_files := files; sg_transportServers := ∅; sg_tlsPassthroughPairs := ∅ |} ops = Some st →
  (∀ op, op ∈ ops → namedOp op) → staysOnListener ops → synced st ops.
Proof.
  induction ops as [|op ops IH] using rev_ind; intros st H Hn Hs.
  - injection H as <-. split.
    + unfold passthroughTS. change (latestTS []) with (∅ : gmap string TransportServer). by rewrite map_filter_empty, fmap_empty.
    + intros (? & ?%elem_of_nil & _). done.
    + intros key ts. unfold latestTS. simpl. by rewrite lookup_empty.
  - rewrite foldM_app in H. apply bind_Some in H as (st1 & H1 & H). rewrite foldM_cons in H.
    apply bind_Some in H as (st2 & H2 & [= <-]).
    assert (synced st1 ops) as Hsync by (apply IH; [done|set_solver|by eapply staysOnListener_prefix]).
    destruct op as [tsEx|key]; [eapply addStep_synced|eapply deleteStep_synced]; try done. apply (Hn (AddOrUpdateTS tsEx)). set_solver.
Qed.

(** *** The map *)
(** every host of the pairs is in the map, with the socket of one of them *)
Lemma foldl_insert_pairs (l : list (string * tlsPassthroughPair)) : ∀ m : gmap string string,
  let m' := foldl (λ cfg kp, <[tp_Host kp.2 := tp_UnixSocket kp.2]> cfg) m l in
  (∀ host socket, m' !! host = Some socket →
     (∃ kp, kp ∈ l ∧ tp_Host kp.2 = host ∧ tp_UnixSocket kp.2 = socket) ∨ m !! host = Some socket) ∧
  (∀ host, is_Some (m !! host) ∨ (∃ kp, kp ∈ l ∧ tp_Host kp.2 = host) → is_Some (m' !! host)).
Proof.
  induction l as [|kp l IH]; intros m; cbn [foldl].
  { split; [by right|]. intros host [?|(? & ?%elem_of_nil & _)]; done. }
  destruct (IH (<[tp_Host kp.2 := tp_UnixSocket kp.2]> m)) as [H1 H2]. split.
  - intros host socket H. destruct (H1 _ _ H) as [(kp' & Hin & Hk)|[[Hh Hs]|[_ Hm]]%lookup_insert_Some]; [left..|by right].
    + exists kp'. set_solver.
    + exists kp. set_solver.
  - intros host Hhost. apply H2. rewrite lookup_insert_is_Some'.
    destruct Hhost as [?|(kp' & [->|Hin]%elem_of_cons & Hh)]; [by left; right|by left; left|right; by exists kp'].
Qed.
Lemma hostsConfig_spec t :
  let hosts := generateTLSPassthroughHostsConfig (pairOf <$> t) in
  (∀ host socket, hosts !! host = Some socket →
     ∃ key ts, t !! key = Some ts ∧ ts_Host ts = host ∧ generateUnixSocket ts = socket) ∧
  (∀ key ts, t !! key = Some ts → is_Some (hosts !! ts_Host ts)).
Proof.
  unfold generateTLSPassthroughHostsConfig. cbv zeta.
  destruct (foldl_insert_pairs (range "generateTLSPassthroughHostsConfig" (pairOf <$> t)) ∅) as [H1 H2]. split.
  - intros host socket [([key p] & Hin & Hh & Hs)|H]%H1; [|by rewrite lookup_empty in H]. apply elem_of_range in Hin.
    rewrite lookup_fmap in Hin. apply fmap_Some in Hin as (ts & Ht & ->). by exists key, ts.
  - intros key ts Ht. apply H2. right. exists (key, pairOf ts). split; [|done]. apply elem_of_range. by rewrite lookup_fmap, Ht.
Qed.

Lemma socket_inj ts ts' :
  namedTS ts → namedTS ts' → onPassthroughListener ts = true → onPassthroughListener ts' = true →
  generateUnixSocket ts = generateUnixSocket ts' → generateNamespaceNameKey (ts_Meta ts) = generateNamespaceNameKey (ts_Meta ts').
Proof.
  intros (_ & _ & H1) (_ & _ & H2) Hp Hp'. unfold generateUnixSocket. rewrite Hp, Hp'. intros H. apply string_app_inj_l in H.
  change ("_" +:+ tsName ts +:+ ".sock") with (String (byte_at 95) (tsName ts +:+ ".sock")) in H.
  change ("_" +:+ tsName ts' +:+ ".sock") with (String (byte_at 95) (tsName ts' +:+ ".sock")) in H.
  assert (tsNamespace ts = tsNamespace ts' ∧ tsName ts +:+ ".sock" = tsName ts' +:+ ".sock") as [Hns Hname].
  { revert H1 H2 H. generalize (tsNamespace ts), (tsNamespace ts'), (tsName ts +:+ ".sock"), (tsName ts' +:+ ".sock"). clear.
    intros a. induction a as [|c a IH]; intros [|c' a'] n n' H1 H2 H; cbn [String.append] in H.
    - by injection H as ->.
    - injection H as <- _. cbn [containsByte] in H2. by rewrite bool_decide_eq_true_2 in H2.
    - injection H as -> _. cbn [containsByte] in H1. by rewrite bool_decide_eq_true_2 in H1.
    - injection H as <- H. cbn [containsByte] in H1, H2. apply orb_false_iff in H1 as [_ H1], H2 as [_ H2].
      destruct (IH a' n n' H1 H2 H) as [-> ->]. done. }
  apply string_app_inj_r in Hname. unfold generateNamespaceNameKey. unfold tsNamespace, tsName in *. congruence.
Qed.

(** C34.  TLS Passthrough: every host leads to the socket of its own TransportServer.
    Run any successful additions, updates and deletions of TransportServers on a
    configurator, at least one of which added a TransportServer to the TLS
    Passthrough listener, and none of which is an update that moves a
    TransportServer off that listener (the configurator keeps the host of such a
    one, see [moved_host_kept]).  The file of the TLS Passthrough hosts is then in sync
    with the TransportServers in their latest versions: it is the text of a map that has
    exactly the hosts of those on the listener, also when none is left, and sends
    each to the unix socket of a TransportServer of that host, whatever the order in
    which Go ranges over its maps; the only TransportServer of a host is the one its
    host leads to; no two hosts share a socket.  Files of other
    TransportServers never overwrite it.  (Kubernetes names hold no slash,
    namespaces no underscore.) *)
Theorem passthrough_hosts_written files ops st :
  foldM streamStep {| sg_files := files; sg_transportServers := ∅; sg_tlsPassthroughPairs := ∅ |} ops = Some st →
  (∀ op, op ∈ ops → namedOp op) → addsPassthrough ops → staysOnListener ops →
  ∃ hosts content,
    ExecuteTLSPassthroughHostsTemplate hosts = inr content ∧ sg_files st !! tlsPassthroughHostsFilename paths = Some content ∧
    (∀ host socket, hosts !! host = Some socket →
       ∃ key ts, passthroughTS ops !! key = Some ts ∧ ts_Host ts = host ∧ generateUnixSocket ts = socket) ∧
    (∀ key ts, passthroughTS ops !! key = Some ts → is_Some (hosts !! ts_Host ts)) ∧
    (∀ key ts, passthroughTS ops !! key = Some ts →
       (∀ key' ts', passthroughTS ops !! key' = Some ts' → ts_Host ts' = ts_Host ts → key' = key) →
       hosts !! ts_Host ts = Some (generateUnixSocket ts)) ∧
    (∀ host host' socket, hosts !! host = Some socket → hosts !! host' = Some socket → host = host').
Proof.
  intros H Hn Hadd Hs. destruct (run_synced files ops st H Hn Hs) as [Hp Hf Hk].
  destruct (Hf Hadd) as (content & He & Hfile). rewrite Hp in He. destruct (hostsConfig_spec (passthroughTS ops)) as [H1 H2].
  exists (generateTLSPassthroughHostsConfig (pairOf <$> passthroughTS ops)), content. split_and!; [done..| |].
  { intros key ts Ht Hown. destruct (H2 key ts Ht) as [socket Hsock]. rewrite Hsock.
    destruct (H1 _ _ Hsock) as (key' & ts' & Ht' & Hh & <-). rewrite (Hown key' ts' Ht' Hh), Ht in Ht'. congruence. }
  intros host host' socket (k & ts & Ht & <- & Hsock)%H1 (k' & ts' & Ht' & <- & Hsock')%H1.
  apply map_lookup_filter_Some in Ht as [Ht Hpt], Ht' as [Ht' Hpt']. cbn [snd] in *.
  apply andb_true_iff in Hpt as [_ Hpt], Hpt' as [_ Hpt'].
  destruct (Hk _ _ Ht) as (Hn1 & ->), (Hk _ _ Ht') as (Hn2 & ->).
  assert (generateNamespaceNameKey (ts_Meta ts) = generateNamespaceNameKey (ts_Meta ts')) as Heq.
  { apply socket_inj; [done..|congruence]. }
  rewrite Heq in Ht. congruence.
Qed.
End Passthrough.

(** ** Examples *)
Section Example.
Import SecretSample PolicySample VSSample.
#[local] Existing Instance sampleLib.
#[local] Existing Instance sampleLib_laws.
#[local] Existing Instance pathsContract.

Definition oneAddress (ns service : string) (port : Z) : string + list string * bool := inr (["10.0.0.7:5353"], false).

Lemma accepted_transportServer_served_witness :
  ∃ tsEx cfg w, tsx_TransportServer tsEx = dnsTS ∧
    generateTransportServerConfig
      {| tcp_transportServerEx := tsEx; tcp_listenerPort := tsx_ListenerPort tsEx; tcp_isPlus := false;
         tcp_isResolverConfigured := false; tcp_isDynamicReloadEnabled := false; tcp_staticSSLPath := "" |} = Some (cfg, w) ∧
    wellConnected dnsTS false false (addressesOf oneAddress "default") (registered tsEx) (tsx_SecretRefs tsEx) cfg.
Proof.
  destruct (accepted_transportServer_served openTSV dnsTS oneAddress false false 5353 "" "" [OpAdd usersSecret] (∅ : FS) false false "")
    as (store & tsEx & store' & cfg & w & _ & Hex & Hgen & Hwc).
  - vm_compute. reflexivity.
  - intros s Hs%list_elem_of_singleton. injection Hs as ->. vm_compute. split; reflexivity.
  - exists tsEx, cfg, w. split; [|exact (conj Hgen Hwc)].
    unfold createTransportServerEx in Hex. destruct (foldl _ _ _) as [eps ext]. apply bind_Some in Hex as (rd & _ & Hex).
    injection Hex as <- _. reflexivity.
Defined.

#[local] Instance plainTemplates : StreamTemplates :=
  {| ExecuteTransportServerTemplate cfg := inr (sv_UnixSocket (tcfg_Server cfg));
     ExecuteTLSPassthroughHostsTemplate hosts := inr (Join ";" ((λ kv, kv.1 +:+ " " +:+ kv.2) <$> map_to_list hosts)) |}.
Definition secureTS (name host : string) : TransportServer :=
  {| ts_Meta := cafeMeta name; ts_IngressClass := ""; ts_TLSSecret := None;
     ts_Listener := {| tsl_Name := TLSPassthroughListenerName; tsl_Protocol := TLSPassthroughListenerProtocol |};
     ts_ServerSnippets := ""; ts_StreamSnippets := ""; ts_Host := host; ts_Upstreams := ts_Upstreams dnsTS;
     ts_UpstreamParameters := None; ts_SessionParameters := None; ts_Action := Some "dns" |}.
Definition bare (ts : TransportServer) : TransportServerEx :=
  {| tsx_ListenerPort := 443; tsx_TransportServer := ts; tsx_Endpoints := ∅; tsx_ExternalNameSvcs := ∅;
     tsx_DisableIPV6 := false; tsx_SecretRefs := ∅; tsx_IPv4 := ""; tsx_IPv6 := "" |}.
Definition secureOps : list streamOp :=
  [AddOrUpdateTS (bare (secureTS "a" "old.example.com")); AddOrUpdateTS (bare dnsTS);
   AddOrUpdateTS (bare (secureTS "b" "b.example.com")); AddOrUpdateTS (bare (secureTS "a" "a.example.com")); DeleteTS "default/b"].

Definition secureRun : option streamConfigurator :=
  foldM (streamStep false false false "") {| sg_files := ∅; sg_transportServers := ∅; sg_tlsPassthroughPairs := ∅ |} secureOps.
Lemma secure_named op : op ∈ secureOps → namedOp op.
Proof. intros Hop. repeat (apply elem_of_cons in Hop as [->|Hop]; [by vm_compute|]). by apply elem_of_nil in Hop. Qed.
Lemma secure_table : passthroughTS secureOps = {["default/a" := secureTS "a" "a.example.com"]}.
Proof. vm_compute. reflexivity. Qed.
Lemma secure_adds : addsPassthrough secureOps.
Proof. exists (bare (secureTS "a" "old.example.com")). split; [by left|by vm_compute]. Qed.
(** the only update of [secureOps] that is not on the listener is of a new TransportServer *)
Lemma secure_stays : staysOnListener secureOps.
Proof.
  intros pre tsEx post old Heq.
  do 5 (destruct pre as [|? pre]; [injection Heq as ??; subst; vm_compute; congruence|injection Heq as <- Heq]).
  by destruct pre.
Qed.
Example secure_file :
  (λ st, sg_files st !! tlsPassthroughHostsFilename (NewLocalManager "/etc/nginx/")) <$> secureRun
  = Some (Some "a.example.com unix:/var/lib/nginx/passthrough-default_a.sock").
Proof. vm_compute. reflexivity. Qed.

(** one host is renamed, another TransportServer comes and goes *)
Lemma passthrough_hosts_written_witness :
  ∃ st hosts content, secureRun = Some st ∧
    sg_files st !! tlsPassthroughHostsFilename (NewLocalManager "/etc/nginx/") = Some content ∧
    ExecuteTLSPassthroughHostsTemplate hosts = inr content ∧
    hosts !! "a.example.com" = Some "unix:/var/lib/nginx/passthrough-default_a.sock".
Proof.
  destruct secureRun as [st|] eqn:Hrun; [|vm_compute in Hrun; discriminate Hrun].
  destruct (passthrough_hosts_written false false false "" ∅ secureOps st Hrun secure_named secure_adds secure_stays)
    as (hosts & content & He & Hf & _ & _ & Hown & _).
  exists st, hosts, content. split; [reflexivity|]. split; [exact Hf|]. split; [exact He|].
  apply (Hown "default/a" (secureTS "a" "a.example.com")); rewrite secure_table.
  - apply lookup_singleton_eq.
  - intros k ts [<- _]%lookup_singleton_Some _. reflexivity.
Defined.

(** An update that moves a TransportServer from the TLS Passthrough listener to another
    one rewrites its own file, but its host stays in the pairs and in the file of
    the hosts, and still leads to the unix socket that its server has left. *)
Definition movedOps : list streamOp :=
  [AddOrUpdateTS (bare (secureTS "dns" "dns.example.com")); AddOrUpdateTS (bare dnsTS)].
Example moved_host_kept :
  latestTS movedOps !! "default/dns" = Some dnsTS ∧ onPassthroughListener dnsTS = false ∧
  (λ st, (sg_files st !! getFilenameForStreamConfig (NewLocalManager "/etc/nginx/") "ts_default_dns",
          sg_files st !! tlsPassthroughHostsFilename (NewLocalManager "/etc/nginx/"))) <$>
    foldM (streamStep false false false "") {| sg_files := ∅; sg_transportServers := ∅; sg_tlsPassthroughPairs := ∅ |} movedOps
  = Some (Some "", Some "dns.example.com unix:/var/lib/nginx/passthrough-default_dns.sock").
Proof. vm_compute. split_and!; reflexivity. Qed.

(** The backup of an upstream decides whether its service is resolved: the name of an
    ExternalName service with an ordinary backup is rendered without [resolve]. *)
Definition mailUpstream : TransportServerUpstream :=
  {| tsu_Name := "mail"; tsu_Service := "mail"; tsu_Port := 25; tsu_FailTimeout := ""; tsu_MaxFails := None;
     tsu_MaxConns := None; tsu_HealthCheck := None; tsu_LoadBalancingMethod := ""; tsu_Backup := "local-mail";
     tsu_BackupPort := Some 25%Z |}.
Definition externalMail : TransportServerEx :=
  {| tsx_ListenerPort := 25; tsx_TransportServer := dnsTS; tsx_Endpoints := {["default/mail:25" := ["mail.example.com:25"]]};
     tsx_ExternalNameSvcs := {["default/mail" := true]}; tsx_DisableIPV6 := false; tsx_SecretRefs := ∅; tsx_IPv4 := "";
     tsx_IPv6 := "" |}.
Example backup_decides_resolve :
  (λ u, (sus_Address <$> su_Servers u, su_Resolve u)) <$>
    (addStreamUpstream externalMail (newUpstreamNamerForTransportServer dnsTS) true true ([], ∅) mailUpstream).1
  = [(["mail.example.com:25"], false)].
Proof. vm_compute. reflexivity. Qed.
(** Warnings.Add replaces: a warning about the TLS secret hides those about the upstreams. *)
Example warnings_replaced : warningsAdd (warnTS ∅ "about an upstream") (warnTS ∅ "about the secret") !! 0 = Some ["about the secret"].
Proof. vm_compute. reflexivity. Qed.
End Example.
