(* ===== verification/ConfigMaps.v ===== *)
(** The ConfigMap (internal/configs/configmaps.go): ParseConfigMap with what it
    calls, ParseMGMTConfigMap, and the parser of header lists
    (internal/configs/version1/header_parsing_helper.go).

    An event is represented by the key it is about; the text is left out.  In
    ParseConfigMap every error raises an event and makes the configuration
    invalid, so the flag it returns says that there was no event. *)
From Stdlib Require Import SpecFloat.
From S2P Require Import Prelude GoStrings Regex ProxyBuffers ProxyBuffersCorrect.
From S2P Require Import ParsingHelpers ValidationLib CommonValidation.
From S2P Require Import HostValidation Version2 ConfigParams PolicyConfig NginxManager.

(** strconv.ParseFloat to 64 bits, [None] of an
    error, and time.ParseDuration in nanoseconds *)
Class NumberLib := { ParseFloat64 : string → option spec_float; ParseDuration : string → option Z }.

Notation parsed A := (A * list string)%type.
Definition accepted {A} (r : string + A) : option A := match r with inr a => Some a | inl _ => None end.

(** ** Header lists *)

(** U+017F, the long s, folds to s *)
Fixpoint foldLongS (s : string) : string :=
  match s with
  | String a s1 =>
      match s1 with
      | String b s2 => if ceqb a 197 && ceqb b 191 then String (byte_at 115) (foldLongS s2) else String a (foldLongS s1)
      | EmptyString => s
      end
  | EmptyString => s
  end.
(** strings.EqualFold with "always" *)
Definition foldsToAlways (s : string) : bool := bool_decide (ToLower (foldLongS s) = "always").
Definition ParseAddHeaders (annotation : string) : list AddHeaderCfg :=
  omap (λ entry0,
    let entry := TrimSpace entry0 in
    if bool_decide (entry = "") then None
    else
      let parts := SplitN colon entry 3 in
      let name := TrimSpace (default "" (parts !! 0)) in
      if bool_decide (name = "") then None
      else Some {| ah_Header := {| hd_Name := name; hd_Value := from_option TrimSpace "" (parts !! 1) |};
                   ah_Always := from_option (λ p, foldsToAlways (TrimSpace p)) false (parts !! 2) |})
    (Split comma annotation).
Definition ValidateAddHeaderValue `{ValidationLib} (value : string) : list string :=
  (if containsByte newline value || containsByte (byte_at 13) value
   then ["value must not contain newline or carriage-return characters"] else [])
  ++ (if Contains value (String dollar "") then ["invalid character in header value: " +:+ String dollar ""] else [])
  ++ (if MatchString escapedStringsFmtRegexp value then [] else [RegexError escapedStringsErrMsg escapedStringsFmt []]).

Section ConfigMaps.
Context `{VL : ValidationLib} `{UL : URLLib} `{NL : NumberLib}.

(** [None] of an invalid name or value, which drops all headers *)
Definition parseAndValidateAddHeaders (raw : string) : option (list AddHeaderCfg) :=
  let headers := ParseAddHeaders raw in
  if forallb (λ h, bool_decide (ValidateHeaderName (hd_Name (ah_Header h)) = [])
                   && bool_decide (ValidateAddHeaderValue (hd_Value (ah_Header h)) = [])) headers
  then Some headers else None.

Definition ParseHTTPRedirectCode (code : string) : option Z :=
  redirectCode ← Atoi code;
  if bool_decide (redirectCode ∈ [301; 302; 307; 308]%Z) then Some redirectCode else None.

(** ** The shapes of keys *)
Section Keys.
Variable data : gmap string string.

Definition plainKey (key dflt : string) : string := default dflt (data !! key).
Definition sliceKey (key : string) (delimiter : Ascii.ascii) (dflt : list string) : list string :=
  let '(slice, exists_) := GetMapKeyAsStringSlice data key delimiter in if exists_ then slice else dflt.
(** a value that is not blank *)
Definition trimmedKey (key dflt : string) : string :=
  match data !! key with
  | Some value => if bool_decide (TrimSpace value = "") then dflt else TrimSpace value
  | None => dflt
  end.
(** a value that is parsed; one that cannot be parsed is reported and ignored *)
Definition keyed {A} (key : string) (dflt : A) (parse : string → option A) : parsed A :=
  match data !! key with
  | Some value => match parse value with Some a => (a, []) | None => (dflt, [key]) end
  | None => (dflt, [])
  end.
Definition boolKey (key : string) (dflt : bool) : parsed bool := keyed key dflt ParseBool.
Definition intKey (key : string) (dflt : Z) : parsed Z := keyed key dflt ParseInt.
Definition int64Key (key : string) (dflt : Z) : parsed Z := keyed key dflt ParseInt64.
Definition uint64Key (key : string) (nonZero : bool) (dflt : Z) : parsed Z :=
  keyed key dflt (λ value, i ← ParseUint64 value; if nonZero && (i =? 0)%Z then None else Some i).
(** a key that is read only when a condition holds *)
Definition keyedIf {A} (cond : bool) (key : string) (dflt : A) (parse : string → option A) : parsed A :=
  if cond then keyed key dflt parse else (dflt, []).

(** ** Single keys *)
Definition serverTokens (nginxPlus : bool) (dflt : string) : parsed string :=
  keyed "server-tokens" dflt (λ value,
    match ParseBool value with
    | Some b => Some (if b then "on" else "off")
    | None => if nginxPlus then Some value else None
    end).
Definition lbMethod (nginxPlus : bool) (dflt : string) : parsed string :=
  keyed "lb-method" dflt (λ value, accepted (if nginxPlus then ParseLBMethodForPlus value else ParseLBMethod value)).
Definition disableForwardedHeaders (enableSnippets dflt : bool) : parsed bool :=
  keyed "disable-forwarded-headers" dflt (λ value, if enableSnippets then ParseBool value else None).
Definition sizeKey (key dflt : string) : parsed string := keyed key dflt (λ value, accepted (ParseSize value)).
(** with TLS Passthrough the header is proxy_protocol, and the key is ignored *)
Definition realIPHeader (hasTLSPassthrough : bool) (dflt : string) : parsed string :=
  match data !! "real-ip-header" with
  | Some value =>
      if hasTLSPassthrough then (dflt, if bool_decide (value = "proxy_protocol") then [] else ["real-ip-header"])
      else (value, [])
  | None => (dflt, [])
  end.
(** strings.Trim of newlines *)
Fixpoint trimNewlinesLeft (s : string) : string :=
  match s with String c s' => if bool_decide (c = newline) then trimNewlinesLeft s' else s | EmptyString => "" end.
Definition trimNewlines (s : string) : string := revBytes (trimNewlinesLeft (revBytes (trimNewlinesLeft s))).
(** access-log, then access-log-off *)
Definition accessLog (dflt : string) : parsed string :=
  let '(log, e1) := keyed "access-log" dflt (λ value, if HasPrefix value "syslog:" then Some value else None) in
  let '(off, e2) := boolKey "access-log-off" false in
  (if off then "off" else log, e1 ++ e2).
Definition workerProcesses (dflt : string) : parsed string :=
  keyed "worker-processes" dflt (λ value,
    if bool_decide (ParseInt value = None) && negb (bool_decide (value = "auto")) then None else Some value).
Definition plusKey {A} (nginxPlus : bool) (key : string) (dflt : A) (parse : string → option A) : parsed A :=
  keyed key dflt (λ value, a ← parse value; if nginxPlus then Some a else None).
Definition wallarmMetricsPort (dflt : Z) : parsed Z :=
  keyed "wallarm-metrics-port" dflt (λ value, port ← ParseInt value;
    if (1024 <=? port)%Z && (port <=? 65535)%Z then Some port else None).
Definition passOrDrop (value : string) : option string := if bool_decide (value ∈ ["pass"; "drop"]) then Some value else None.
Definition thresholds (value : string) : option string := if VerifyAppProtectThresholds value then Some value else None.
Definition reconnectPeriod (value : string) : option string :=
  match ParseFloat64 value with
  | Some period => if SFltb (float64OfInt 0) period && SFleb period (float64OfInt 60) then Some value else None
  | None => None
  end.

(** ** HSTS: all options or none *)
Record hstsParams := { hs_HSTS : bool; hs_MaxAge : Z; hs_IncludeSubdomains : bool; hs_BehindProxy : bool }.
Definition hstsSettings (dflt : hstsParams) : parsed hstsParams :=
  match data !! "hsts" with
  | None => (dflt, [])
  | Some value =>
      match ParseBool value with
      | None => (dflt, ["hsts"])
      | Some hsts =>
          let '(maxAge, e1) := int64Key "hsts-max-age" (hs_MaxAge dflt) in
          let '(includeSubdomains, e2) := boolKey "hsts-include-subdomains" (hs_IncludeSubdomains dflt) in
          let '(behindProxy, e3) := boolKey "hsts-behind-proxy" (hs_BehindProxy dflt) in
          match e1 ++ e2 ++ e3 with
          | [] => ({| hs_HSTS := hsts; hs_MaxAge := maxAge; hs_IncludeSubdomains := includeSubdomains;
                      hs_BehindProxy := behindProxy |}, [])
          | errors => (dflt, errors ++ ["hsts"])
          end
      end
  end.

(** ** Proxy buffers: proxy_buffers, proxy_buffer_size and proxy_busy_buffers_size *)
Record bufferParams := { bp_Buffers : string; bp_BufferSize : string; bp_BusyBuffersSize : string }.
Definition bufferSettings (autoadjust : bool) (dflt : bufferParams) : parsed bufferParams :=
  let '(buffers, e1) := keyed "proxy-buffers" (bp_Buffers dflt) (λ value, accepted (ParseProxyBuffersSpec value)) in
  let '(size, e2) := sizeKey "proxy-buffer-size" (bp_BufferSize dflt) in
  let '(busy, e3) := sizeKey "proxy-busy-buffers-size" (bp_BusyBuffersSize dflt) in
  let '(buffers, size, busy) :=
    if autoadjust then (BalanceProxyValues buffers size busy autoadjust).1 else (buffers, size, busy) in
  ({| bp_Buffers := buffers; bp_BufferSize := size; bp_BusyBuffersSize := busy |}, e1 ++ e2 ++ e3).

(** ** Zone sync: the first error ends the function *)
Definition zoneSyncDefaultPort : Z := 12345.
Definition kubeDNSDefault : string := "kube-dns.kube-system.svc.cluster.local".
Definition andThen {A} (r : A * option string) (f : A → A * option string) : A * option string :=
  match r with (a, Some err) => (a, Some err) | (a, None) => f a end.
Definition cpz_set_Enable (v : bool) (z : ZoneSyncParams) : ZoneSyncParams :=
  {| cpz_Enable := v; cpz_Port := cpz_Port z; cpz_Domain := cpz_Domain z; cpz_ResolverAddresses := cpz_ResolverAddresses z;
     cpz_ResolverValid := cpz_ResolverValid z; cpz_ResolverIPV6 := cpz_ResolverIPV6 z |}.
Definition cpz_set_Port (v : Z) (z : ZoneSyncParams) : ZoneSyncParams :=
  {| cpz_Enable := cpz_Enable z; cpz_Port := v; cpz_Domain := cpz_Domain z; cpz_ResolverAddresses := cpz_ResolverAddresses z;
     cpz_ResolverValid := cpz_ResolverValid z; cpz_ResolverIPV6 := cpz_ResolverIPV6 z |}.
Definition cpz_set_ResolverAddresses (v : list string) (z : ZoneSyncParams) : ZoneSyncParams :=
  {| cpz_Enable := cpz_Enable z; cpz_Port := cpz_Port z; cpz_Domain := cpz_Domain z; cpz_ResolverAddresses := v;
     cpz_ResolverValid := cpz_ResolverValid z; cpz_ResolverIPV6 := cpz_ResolverIPV6 z |}.
Definition cpz_set_ResolverValid (v : string) (z : ZoneSyncParams) : ZoneSyncParams :=
  {| cpz_Enable := cpz_Enable z; cpz_Port := cpz_Port z; cpz_Domain := cpz_Domain z; cpz_ResolverAddresses := cpz_ResolverAddresses z;
     cpz_ResolverValid := v; cpz_ResolverIPV6 := cpz_ResolverIPV6 z |}.
Definition cpz_set_ResolverIPV6 (v : option bool) (z : ZoneSyncParams) : ZoneSyncParams :=
  {| cpz_Enable := cpz_Enable z; cpz_Port := cpz_Port z; cpz_Domain := cpz_Domain z; cpz_ResolverAddresses := cpz_ResolverAddresses z;
     cpz_ResolverValid := cpz_ResolverValid z; cpz_ResolverIPV6 := v |}.

Definition zoneSyncEnable (nginxPlus : bool) (z : ZoneSyncParams) : ZoneSyncParams * option string :=
  match data !! "zone-sync" with
  | Some value => match ParseBool value with
                  | Some zoneSync => if nginxPlus then (cpz_set_Enable zoneSync z, None) else (z, Some "zone-sync")
                  | None => (z, Some "zone-sync")
                  end
  | None => (z, None)
  end.
(** an invalid port is replaced by the default before the function ends *)
Definition zoneSyncPort (z : ZoneSyncParams) : ZoneSyncParams * option string :=
  match data !! "zone-sync-port" with
  | Some value =>
      if negb (cpz_Enable z) then (z, Some "zone-sync-port")
      else match ParseInt value with
           | Some port => match ValidatePort port with
                          | None => (cpz_set_Port port z, None)
                          | Some _ => (cpz_set_Port zoneSyncDefaultPort z, Some "zone-sync-port")
                          end
           | None => (cpz_set_Port zoneSyncDefaultPort z, Some "zone-sync-port")
           end
  | None => (cpz_set_Port zoneSyncDefaultPort z, None)
  end.
Definition zoneSyncResolverAddresses (z : ZoneSyncParams) : ZoneSyncParams * option string :=
  match data !! "zone-sync-resolver-addresses" with
  | Some value =>
      let addresses := Split comma value in
      if negb (cpz_Enable z) then (z, Some "zone-sync-resolver-addresses")
      else if forallb (λ addr, bool_decide (ValidateHost addr = None)) addresses
      then (cpz_set_ResolverAddresses addresses z, None) else (z, Some "zone-sync-resolver-addresses")
  | None => (cpz_set_ResolverAddresses [kubeDNSDefault] z, None)
  end.
Definition zoneSyncResolverValid (z : ZoneSyncParams) : ZoneSyncParams * option string :=
  match data !! "zone-sync-resolver-valid" with
  | Some value =>
      if negb (cpz_Enable z) then (z, Some "zone-sync-resolver-valid")
      else match ParseTime value with
           | inr valid => (cpz_set_ResolverValid valid z, None)
           | inl _ => (z, Some "zone-sync-resolver-valid")
           end
  | None => (cpz_set_ResolverValid "5s" z, None)
  end.
Definition zoneSyncResolverIPV6 (z : ZoneSyncParams) : ZoneSyncParams * option string :=
  match data !! "zone-sync-resolver-ipv6" with
  | Some value =>
      match ParseBool value with
      | Some ipv6 => if cpz_Enable z then (cpz_set_ResolverIPV6 (Some ipv6) z, None) else (z, Some "zone-sync-resolver-ipv6")
      | None => (z, Some "zone-sync-resolver-ipv6")
      end
  | None => (z, None)
  end.
Definition parseConfigMapZoneSync (nginxPlus : bool) (z : ZoneSyncParams) : ZoneSyncParams * option string :=
  andThen (andThen (andThen (andThen (zoneSyncEnable nginxPlus z) zoneSyncPort) zoneSyncResolverAddresses)
             zoneSyncResolverValid) zoneSyncResolverIPV6.

(** ** OIDC: the first error ends the function *)
Definition parseStringField {A} (key : string) (parseFunc : string → string + string) (assignFunc : string → A → A) (a : A)
    : A * option string :=
  match data !! key with
  | Some value => match parseFunc value with inr v => (assignFunc v a, None) | inl _ => (a, Some key) end
  | None => (a, None)
  end.
Definition oidcFields : list (string * (string → string + string) * (string → OIDCParams → OIDCParams)) :=
  let with_ o a b c d e f g h i j :=
    {| cpo_PKCETimeout := default (cpo_PKCETimeout o) a; cpo_PKCEZoneSize := default (cpo_PKCEZoneSize o) b;
       cpo_IDTokenTimeout := default (cpo_IDTokenTimeout o) c; cpo_IDTokenZoneSize := default (cpo_IDTokenZoneSize o) d;
       cpo_AccessTimeout := default (cpo_AccessTimeout o) e; cpo_AccessZoneSize := default (cpo_AccessZoneSize o) f;
       cpo_RefreshTimeout := default (cpo_RefreshTimeout o) g; cpo_RefreshZoneSize := default (cpo_RefreshZoneSize o) h;
       cpo_SIDSTimeout := default (cpo_SIDSTimeout o) i; cpo_SIDSZoneSize := default (cpo_SIDSZoneSize o) j |} in
  [("oidc-pkce-timeout", ParseTime, λ v o, with_ o (Some v) None None None None None None None None None);
   ("oidc-id-tokens-timeout", ParseTime, λ v o, with_ o None None (Some v) None None None None None None None);
   ("oidc-access-tokens-timeout", ParseTime, λ v o, with_ o None None None None (Some v) None None None None None);
   ("oidc-refresh-tokens-timeout", ParseTime, λ v o, with_ o None None None None None None (Some v) None None None);
   ("oidc-sids-timeout", ParseTime, λ v o, with_ o None None None None None None None None (Some v) None);
   ("oidc-pkce-zone-size", ParseSize, λ v o, with_ o None (Some v) None None None None None None None None);
   ("oidc-id-tokens-zone-size", ParseSize, λ v o, with_ o None None None (Some v) None None None None None None);
   ("oidc-access-tokens-zone-size", ParseSize, λ v o, with_ o None None None None None (Some v) None None None None);
   ("oidc-refresh-tokens-zone-size", ParseSize, λ v o, with_ o None None None None None None None (Some v) None None);
   ("oidc-sids-zone-size", ParseSize, λ v o, with_ o None None None None None None None None None (Some v))].
Definition parseConfigMapOIDC (o : OIDCParams) : OIDCParams * option string :=
  foldl (λ r f, andThen r (parseStringField f.1.1 f.1.2 f.2)) (o, None) oidcFields.

(** ** OpenTelemetry *)
Record otelParams := {
  ot_ExporterEndpoint : string;
  ot_ExporterHeaderName : string;
  ot_ExporterHeaderValue : string;
  ot_ServiceName : string;
  ot_TraceInHTTP : bool;
  ot_LoadModule : bool
}.
(** the endpoint, unless it is blank; an invalid one ends the function *)
Definition otelEndpoint (dflt : string) : string + string :=
  match data !! "otel-exporter-endpoint" with
  | Some value =>
      let endpoint := TrimSpace value in
      if bool_decide (endpoint = "") then inr dflt
      else match ValidateURI endpoint [] with None => inr endpoint | Some _ => inl "otel-exporter-endpoint" end
  | None => inr dflt
  end.
Definition otelHeaderName (dflt : string) : parsed string :=
  match data !! "otel-exporter-header-name" with
  | Some value =>
      let name := TrimSpace value in
      if bool_decide (name = "") then (dflt, [])
      else if bool_decide (IsHTTPHeaderName name = []) then (name, []) else (dflt, ["otel-exporter-header-name"])
  | None => (dflt, [])
  end.
(** an invalid value sets the flag to false *)
Definition otelTrace (dflt : bool) : parsed bool :=
  let '(trace, exists_, err) := GetMapKeyAsBool data "otel-trace-in-http" "" in
  (if exists_ then trace else dflt, if bool_decide (err = None) then [] else ["otel-trace-in-http"]).
Definition parseConfigMapOpenTelemetry (dflt : otelParams) : parsed otelParams :=
  match otelEndpoint (ot_ExporterEndpoint dflt) with
  | inl key => (dflt, [key])
  | inr endpoint =>
      let '(name, e1) := otelHeaderName (ot_ExporterHeaderName dflt) in
      let value := trimmedKey "otel-exporter-header-value" (ot_ExporterHeaderValue dflt) in
      let service := trimmedKey "otel-service-name" (ot_ServiceName dflt) in
      let '(trace, e2) := otelTrace (ot_TraceInHTTP dflt) in
      let alone := xorb (bool_decide (name = "")) (bool_decide (value = "")) in
      let name := if alone then "" else name in
      let value := if alone then "" else value in
      let e3 := if alone then ["otel-exporter-header-name"; "otel-exporter-header-value"] else [] in
      let load := if bool_decide (endpoint = "") then ot_LoadModule dflt else true in
      let homeless := bool_decide (endpoint = "")
        && negb (bool_decide (name = "") && bool_decide (value = "") && bool_decide (service = "") && negb trace) in
      if homeless
      then ({| ot_ExporterEndpoint := endpoint; ot_ExporterHeaderName := ""; ot_ExporterHeaderValue := "";
               ot_ServiceName := ""; ot_TraceInHTTP := false; ot_LoadModule := load |},
            e1 ++ e2 ++ e3 ++ ["otel-exporter-endpoint"])
      else ({| ot_ExporterEndpoint := endpoint; ot_ExporterHeaderName := name; ot_ExporterHeaderValue := value;
               ot_ServiceName := service; ot_TraceInHTTP := trace; ot_LoadModule := load |}, e1 ++ e2 ++ e3)
  end.

(** ** parseConfigMapVts: errors are dropped *)
Definition unreported {A} (p : parsed A) : A := p.1.
End Keys.

(** ** ParseConfigMap *)
Record configMapFlags := {
  cf_nginxPlus : bool;
  cf_hasAppProtect : bool;
  cf_hasAppProtectDos : bool;
  cf_hasTLSPassthrough : bool;
  cf_enableDirectiveAutoadjust : bool;
  cf_enableSnippets : bool
}.
Section Parse.
Variables (data : gmap string string) (fl : configMapFlags).
Definition d : ConfigParams := NewDefaultConfigParams (cf_nginxPlus fl).
Definition hstsPart : parsed hstsParams :=
  hstsSettings data {| hs_HSTS := cp_HSTS d; hs_MaxAge := cp_HSTSMaxAge d; hs_IncludeSubdomains := cp_HSTSIncludeSubdomains d;
                  hs_BehindProxy := cp_HSTSBehindProxy d |}.
Definition bufferPart : parsed bufferParams :=
  bufferSettings data (cf_enableDirectiveAutoadjust fl)
    {| bp_Buffers := cp_ProxyBuffers d; bp_BufferSize := cp_ProxyBufferSize d; bp_BusyBuffersSize := cp_ProxyBusyBuffersSize d |}.
Definition otelPart : parsed otelParams :=
  parseConfigMapOpenTelemetry data
    {| ot_ExporterEndpoint := cp_MainOtelExporterEndpoint d; ot_ExporterHeaderName := cp_MainOtelExporterHeaderName d;
       ot_ExporterHeaderValue := cp_MainOtelExporterHeaderValue d; ot_ServiceName := cp_MainOtelServiceName d;
       ot_TraceInHTTP := cp_MainOtelTraceInHTTP d; ot_LoadModule := cp_MainOtelLoadModule d |}.
Definition cfgParams : ConfigParams :=
  {| cp_AddHeaderInherit := (keyed data "add-header-inherit" (cp_AddHeaderInherit d) (λ v, accepted (ParseAddHeaderInherit v))).1;
     cp_AppRoot := cp_AppRoot d;
     cp_ClientMaxBodySize := plainKey data "client-max-body-size" (cp_ClientMaxBodySize d);
     cp_ClientBodyBufferSize := cp_ClientBodyBufferSize d;
     cp_DefaultServerAccessLogOff := (boolKey data "default-server-access-log-off" (cp_DefaultServerAccessLogOff d)).1;
     cp_DefaultServerReturn := plainKey data "default-server-return" (cp_DefaultServerReturn d);
     cp_FailTimeout := plainKey data "fail-timeout" (cp_FailTimeout d);
     cp_HealthCheckEnabled := cp_HealthCheckEnabled d; cp_HealthCheckMandatory := cp_HealthCheckMandatory d;
     cp_HealthCheckMandatoryQueue := cp_HealthCheckMandatoryQueue d; cp_HSTS := hs_HSTS (hstsPart).1;
     cp_HSTSBehindProxy := hs_BehindProxy (hstsPart).1;
     cp_HSTSIncludeSubdomains := hs_IncludeSubdomains (hstsPart).1; cp_HSTSMaxAge := hs_MaxAge (hstsPart).1;
     cp_HTTP2 := (boolKey data "http2" (cp_HTTP2 d)).1; cp_Keepalive := (intKey data "keepalive" (cp_Keepalive d)).1;
     cp_LBMethod := (lbMethod data (cf_nginxPlus fl) (cp_LBMethod d)).1;
     cp_LocationSnippets := sliceKey data "location-snippets" newline (cp_LocationSnippets d);
     cp_MainAccessLog := (accessLog data (cp_MainAccessLog d)).1;
     cp_MainAddHeaders := (keyed data "add-header" (cp_MainAddHeaders d) parseAndValidateAddHeaders).1;
     cp_DisableForwardedHeaders := (disableForwardedHeaders data (cf_enableSnippets fl) (cp_DisableForwardedHeaders d)).1;
     cp_MainErrorLogLevel := plainKey data "error-log-level" (cp_MainErrorLogLevel d);
     cp_MainHTTPSnippets := sliceKey data "http-snippets" newline (cp_MainHTTPSnippets d);
     cp_MainKeepaliveRequests := (int64Key data "keepalive-requests" (cp_MainKeepaliveRequests d)).1;
     cp_MainKeepaliveTimeout := plainKey data "keepalive-timeout" (cp_MainKeepaliveTimeout d);
     cp_MainLogFormat := sliceKey data "log-format" newline (cp_MainLogFormat d);
     cp_MainLogFormatEscaping := trimmedKey data "log-format-escaping" (cp_MainLogFormatEscaping d);
     cp_MainMainSnippets := sliceKey data "main-snippets" newline (cp_MainMainSnippets d);
     cp_MainOtelLoadModule := ot_LoadModule (otelPart).1;
     cp_MainVtsLoadModule := unreported (boolKey data "enable-vts" (cp_MainVtsLoadModule d));
     cp_MainVtsMetricsPort := unreported (intKey data "vts-metrics-port" (cp_MainVtsMetricsPort d));
     cp_MainVtsDetailedCodes := trimmedKey data "vts-detailed-codes" (cp_MainVtsDetailedCodes d);
     cp_MainVtsShmSize := trimmedKey data "vts-shm-size" (cp_MainVtsShmSize d);
     cp_MainOtelTraceInHTTP := ot_TraceInHTTP (otelPart).1;
     cp_MainOtelExporterEndpoint := ot_ExporterEndpoint (otelPart).1;
     cp_MainOtelExporterHeaderName := ot_ExporterHeaderName (otelPart).1;
     cp_MainOtelExporterHeaderValue := ot_ExporterHeaderValue (otelPart).1;
     cp_MainOtelServiceName := ot_ServiceName (otelPart).1;
     cp_MainServerNamesHashBucketSize := plainKey data "server-names-hash-bucket-size" (cp_MainServerNamesHashBucketSize d);
     cp_MainServerNamesHashMaxSize := plainKey data "server-names-hash-max-size" (cp_MainServerNamesHashMaxSize d);
     cp_MainStreamLogFormat := sliceKey data "stream-log-format" newline (cp_MainStreamLogFormat d);
     cp_MainStreamLogFormatEscaping := trimmedKey data "stream-log-format-escaping" (cp_MainStreamLogFormatEscaping d);
     cp_MainStreamSnippets := sliceKey data "stream-snippets" newline (cp_MainStreamSnippets d);
     cp_MainMapHashBucketSize := plainKey data "map-hash-bucket-size" (cp_MainMapHashBucketSize d);
     cp_MainMapHashMaxSize := plainKey data "map-hash-max-size" (cp_MainMapHashMaxSize d);
     cp_MainWorkerConnections := plainKey data "worker-connections" (cp_MainWorkerConnections d);
     cp_MainWorkerCPUAffinity := plainKey data "worker-cpu-affinity" (cp_MainWorkerCPUAffinity d);
     cp_MainWorkerProcesses := (workerProcesses data (cp_MainWorkerProcesses d)).1;
     cp_MainWorkerRlimitNofile := plainKey data "worker-rlimit-nofile" (cp_MainWorkerRlimitNofile d);
     cp_MainWorkerShutdownTimeout := plainKey data "worker-shutdown-timeout" (cp_MainWorkerShutdownTimeout d);
     cp_MainClientBodyBufferSize := (sizeKey data "client-body-buffer-size" (cp_MainClientBodyBufferSize d)).1;
     cp_MaxConns := cp_MaxConns d; cp_MaxFails := (intKey data "max-fails" (cp_MaxFails d)).1;
     cp_AppProtectEnable := cp_AppProtectEnable d; cp_AppProtectPolicy := cp_AppProtectPolicy d;
     cp_AppProtectLogConf := cp_AppProtectLogConf d; cp_AppProtectLogEnable := cp_AppProtectLogEnable d;
     cp_MainAppProtectFailureModeAction := (keyedIf data (cf_hasAppProtect fl) "app-protect-failure-mode-action" (cp_MainAppProtectFailureModeAction d) passOrDrop).1;
     cp_MainAppProtectCompressedRequestsAction := (keyedIf data (cf_hasAppProtect fl) "app-protect-compressed-requests-action" (cp_MainAppProtectCompressedRequestsAction d) passOrDrop).1;
     cp_MainAppProtectCookieSeed := if cf_hasAppProtect fl then plainKey data "app-protect-cookie-seed" (cp_MainAppProtectCookieSeed d) else cp_MainAppProtectCookieSeed d;
     cp_MainAppProtectCPUThresholds := (keyedIf data (cf_hasAppProtect fl) "app-protect-cpu-thresholds" (cp_MainAppProtectCPUThresholds d) thresholds).1;
     cp_MainAppProtectPhysicalMemoryThresholds := (keyedIf data (cf_hasAppProtect fl) "app-protect-physical-memory-util-thresholds" (cp_MainAppProtectPhysicalMemoryThresholds d) thresholds).1;
     cp_MainAppProtectReconnectPeriod := (keyedIf data (cf_hasAppProtect fl) "app-protect-reconnect-period-seconds" (cp_MainAppProtectReconnectPeriod d) reconnectPeriod).1;
     cp_AppProtectDosResource := cp_AppProtectDosResource d;
     cp_MainAppProtectDosLogFormat := if cf_hasAppProtectDos fl then sliceKey data "app-protect-dos-log-format" newline (cp_MainAppProtectDosLogFormat d) else cp_MainAppProtectDosLogFormat d;
     cp_MainAppProtectDosLogFormatEscaping := if cf_hasAppProtectDos fl then trimmedKey data "app-protect-dos-log-format-escaping" (cp_MainAppProtectDosLogFormatEscaping d) else cp_MainAppProtectDosLogFormatEscaping d;
     cp_MainAppProtectDosArbFqdn := if cf_hasAppProtectDos fl then trimmedKey data "app-protect-dos-arb-fqdn" (cp_MainAppProtectDosArbFqdn d) else cp_MainAppProtectDosArbFqdn d;
     cp_OIDC := (parseConfigMapOIDC data (cp_OIDC d)).1;
     cp_ProxyBuffering := (boolKey data "proxy-buffering" (cp_ProxyBuffering d)).1;
     cp_ProxyBuffers := bp_Buffers (bufferPart).1; cp_ProxyBufferSize := bp_BufferSize (bufferPart).1;
     cp_ProxyBusyBuffersSize := bp_BusyBuffersSize (bufferPart).1;
     cp_ProxyConnectTimeout := plainKey data "proxy-connect-timeout" (cp_ProxyConnectTimeout d);
     cp_AddHeaders := cp_AddHeaders d;
     cp_ProxyHideHeaders := sliceKey data "proxy-hide-headers" comma (cp_ProxyHideHeaders d);
     cp_ProxyMaxTempFileSize := plainKey data "proxy-max-temp-file-size" (cp_ProxyMaxTempFileSize d);
     cp_ProxyPassHeaders := sliceKey data "proxy-pass-headers" comma (cp_ProxyPassHeaders d);
     cp_ProxySetHeaders := cp_ProxySetHeaders d;
     cp_ProxyProtocol := (boolKey data "proxy-protocol" (cp_ProxyProtocol d)).1;
     cp_ProxyReadTimeout := plainKey data "proxy-read-timeout" (cp_ProxyReadTimeout d);
     cp_ProxySendTimeout := plainKey data "proxy-send-timeout" (cp_ProxySendTimeout d);
     cp_ProxyNextUpstream := cp_ProxyNextUpstream d; cp_ProxyNextUpstreamTimeout := cp_ProxyNextUpstreamTimeout d;
     cp_ProxyNextUpstreamTries := cp_ProxyNextUpstreamTries d; cp_ProxyRedirectFrom := cp_ProxyRedirectFrom d;
     cp_ProxyRedirectTo := cp_ProxyRedirectTo d; cp_CustomHTTPErrors := cp_CustomHTTPErrors d;
     cp_RedirectToHTTPS := (boolKey data "redirect-to-https" (cp_RedirectToHTTPS d)).1;
     cp_HTTPRedirectCode := (keyed data "http-redirect-code" (cp_HTTPRedirectCode d) ParseHTTPRedirectCode).1;
     cp_ResolverAddresses := (plusKey data (cf_nginxPlus fl) "resolver-addresses" (cp_ResolverAddresses d) (λ v, Some (Split comma v))).1;
     cp_ResolverIPV6 := (plusKey data (cf_nginxPlus fl) "resolver-ipv6" (cp_ResolverIPV6 d) ParseBool).1;
     cp_ResolverTimeout := (plusKey data (cf_nginxPlus fl) "resolver-timeout" (cp_ResolverTimeout d) Some).1;
     cp_ResolverValid := (plusKey data (cf_nginxPlus fl) "resolver-valid" (cp_ResolverValid d) Some).1;
     cp_ServerSnippets := sliceKey data "server-snippets" newline (cp_ServerSnippets d);
     cp_ServerTokens := (serverTokens data (cf_nginxPlus fl) (cp_ServerTokens d)).1;
     cp_ServerSSLCiphers := cp_ServerSSLCiphers d;
     cp_ServerSSLPreferServerCiphers := cp_ServerSSLPreferServerCiphers d; cp_SlowStart := cp_SlowStart d;
     cp_SSLRedirect := (boolKey data "ssl-redirect" (cp_SSLRedirect d)).1;
     cp_UpstreamZoneSize := plainKey data "upstream-zone-size" (cp_UpstreamZoneSize d);
     cp_UseClusterIP := cp_UseClusterIP d;
     cp_VariablesHashBucketSize := (uint64Key data "variables-hash-bucket-size" true (cp_VariablesHashBucketSize d)).1;
     cp_VariablesHashMaxSize := (uint64Key data "variables-hash-max-size" false (cp_VariablesHashMaxSize d)).1;
     cp_ZoneSync := (parseConfigMapZoneSync data (cf_nginxPlus fl) (cp_ZoneSync d)).1;
     cp_RealIPHeader := (realIPHeader data (cf_hasTLSPassthrough fl) (cp_RealIPHeader d)).1;
     cp_RealIPRecursive := (boolKey data "real-ip-recursive" (cp_RealIPRecursive d)).1;
     cp_SetRealIPFrom := sliceKey data "set-real-ip-from" comma (cp_SetRealIPFrom d);
     cp_MainServerSSLCiphers := from_option trimNewlines (cp_MainServerSSLCiphers d) (data !! "ssl-ciphers");
     cp_MainServerSSLDHParam := cp_MainServerSSLDHParam d;
     cp_MainServerSSLDHParamFileContent := from_option (λ v, Some (trimNewlines v)) (cp_MainServerSSLDHParamFileContent d) (data !! "ssl-dhparam-file");
     cp_MainServerSSLPreferServerCiphers := (boolKey data "ssl-prefer-server-ciphers" (cp_MainServerSSLPreferServerCiphers d)).1;
     cp_MainServerSSLProtocols := plainKey data "ssl-protocols" (cp_MainServerSSLProtocols d);
     cp_IngressTemplate := data !! "ingress-template"; cp_VirtualServerTemplate := data !! "virtualserver-template";
     cp_MainTemplate := data !! "main-template"; cp_TransportServerTemplate := data !! "transportserver-template";
     cp_JWTKey := cp_JWTKey d; cp_JWTLoginURL := cp_JWTLoginURL d; cp_JWTRealm := cp_JWTRealm d;
     cp_JWTToken := cp_JWTToken d; cp_BasicAuthSecret := cp_BasicAuthSecret d;
     cp_BasicAuthRealm := cp_BasicAuthRealm d; cp_Ports := cp_Ports d; cp_SSLPorts := cp_SSLPorts d;
     cp_LimitReqRate := cp_LimitReqRate d; cp_LimitReqKey := cp_LimitReqKey d;
     cp_LimitReqZoneSize := cp_LimitReqZoneSize d; cp_LimitReqDelay := cp_LimitReqDelay d;
     cp_LimitReqNoDelay := cp_LimitReqNoDelay d; cp_LimitReqBurst := cp_LimitReqBurst d;
     cp_LimitReqDryRun := cp_LimitReqDryRun d; cp_LimitReqLogLevel := cp_LimitReqLogLevel d;
     cp_LimitReqRejectCode := cp_LimitReqRejectCode d; cp_LimitReqScale := cp_LimitReqScale d;
     cp_WallarmMode := cp_WallarmMode d; cp_WallarmModeAllowOverride := cp_WallarmModeAllowOverride d;
     cp_WallarmFallback := cp_WallarmFallback d; cp_WallarmApplication := cp_WallarmApplication d;
     cp_WallarmPartnerClientUUID := cp_WallarmPartnerClientUUID d; cp_WallarmBlockPage := cp_WallarmBlockPage d;
     cp_WallarmParseResponse := cp_WallarmParseResponse d; cp_WallarmParseWebsocket := cp_WallarmParseWebsocket d;
     cp_WallarmUnpackResponse := cp_WallarmUnpackResponse d; cp_WallarmParserDisable := cp_WallarmParserDisable d;
     cp_MainWallarmEnabled := (boolKey data "enable-wallarm" (cp_MainWallarmEnabled d)).1;
     cp_MainWallarmUpstreamService := plainKey data "wallarm-upstream-service" (cp_MainWallarmUpstreamService d);
     cp_MainWallarmWstoreMaxConns := (intKey data "wallarm-wstore-max-conns" (cp_MainWallarmWstoreMaxConns d)).1;
     cp_MainWallarmUpstreamConnectAttempts := (intKey data "wallarm-upstream-connect-attempts" (cp_MainWallarmUpstreamConnectAttempts d)).1;
     cp_MainWallarmUpstreamReconnectInterval := plainKey data "wallarm-upstream-reconnect-interval" (cp_MainWallarmUpstreamReconnectInterval d);
     cp_MainWallarmProcessTimeLimit := (intKey data "wallarm-process-time-limit" (cp_MainWallarmProcessTimeLimit d)).1;
     cp_MainWallarmProcessTimeLimitBlock := plainKey data "wallarm-process-time-limit-block" (cp_MainWallarmProcessTimeLimitBlock d);
     cp_MainWallarmRequestMemoryLimit := plainKey data "wallarm-request-memory-limit" (cp_MainWallarmRequestMemoryLimit d);
     cp_MainWallarmWorkerRlimitVmem := plainKey data "wallarm-worker-rlimit-vmem" (cp_MainWallarmWorkerRlimitVmem d);
     cp_MainWallarmMetricsPort := (wallarmMetricsPort data (cp_MainWallarmMetricsPort d)).1;
     cp_MainWallarmACLExportEnable := plainKey data "wallarm-acl-export-enable" (cp_MainWallarmACLExportEnable d);
     cp_MainWallarmACLExportShmSize := plainKey data "wallarm-acl-export-shm-size" (cp_MainWallarmACLExportShmSize d);
     cp_MainWallarmACLExportSampleLimit := (intKey data "wallarm-acl-export-sample-limit" (cp_MainWallarmACLExportSampleLimit d)).1;
     cp_MainWallarmACLExportSampleGroupLifetime := (intKey data "wallarm-acl-export-sample-group-lifetime" (cp_MainWallarmACLExportSampleGroupLifetime d)).1;
     cp_MainWallarmACLExportStatsBucketInterval := (intKey data "wallarm-acl-export-stats-bucket-interval" (cp_MainWallarmACLExportStatsBucketInterval d)).1;
     cp_MainWallarmACLExportStatsBucketLifetime := (intKey data "wallarm-acl-export-stats-bucket-lifetime" (cp_MainWallarmACLExportStatsBucketLifetime d)).1;
     cp_MainWallarmAPIFwEnabled := (boolKey data "wallarm-apifw-enabled" (cp_MainWallarmAPIFwEnabled d)).1;
     cp_MainWallarmAPIFwPort := (intKey data "wallarm-apifw-port" (cp_MainWallarmAPIFwPort d)).1 |}.
(** the events in the order in which they are raised, key by key or group by group *)
Definition sectionEvents : list (list string) :=
  [(serverTokens data (cf_nginxPlus fl) (cp_ServerTokens d)).2;
   (lbMethod data (cf_nginxPlus fl) (cp_LBMethod d)).2;
   (keyed data "add-header" (cp_MainAddHeaders d) parseAndValidateAddHeaders).2;
   (disableForwardedHeaders data (cf_enableSnippets fl) (cp_DisableForwardedHeaders d)).2;
   (sizeKey data "client-body-buffer-size" (cp_MainClientBodyBufferSize d)).2;
   (boolKey data "http2" (cp_HTTP2 d)).2;
   (boolKey data "redirect-to-https" (cp_RedirectToHTTPS d)).2;
   (boolKey data "ssl-redirect" (cp_SSLRedirect d)).2;
   (keyed data "http-redirect-code" (cp_HTTPRedirectCode d) ParseHTTPRedirectCode).2;
   (hstsPart).2;
   (boolKey data "proxy-protocol" (cp_ProxyProtocol d)).2;
   (realIPHeader data (cf_hasTLSPassthrough fl) (cp_RealIPHeader d)).2;
   (boolKey data "real-ip-recursive" (cp_RealIPRecursive d)).2;
   (boolKey data "ssl-prefer-server-ciphers" (cp_MainServerSSLPreferServerCiphers d)).2;
   (accessLog data (cp_MainAccessLog d)).2;
   (boolKey data "default-server-access-log-off" (cp_DefaultServerAccessLogOff d)).2;
   (boolKey data "proxy-buffering" (cp_ProxyBuffering d)).2;
   (bufferPart).2;
   (keyed data "add-header-inherit" (cp_AddHeaderInherit d) (λ v, accepted (ParseAddHeaderInherit v))).2;
   (workerProcesses data (cp_MainWorkerProcesses d)).2;
   (intKey data "keepalive" (cp_Keepalive d)).2;
   (intKey data "max-fails" (cp_MaxFails d)).2;
   option_list (parseConfigMapZoneSync data (cf_nginxPlus fl) (cp_ZoneSync d)).2;
   option_list (parseConfigMapOIDC data (cp_OIDC d)).2;
   (plusKey data (cf_nginxPlus fl) "resolver-addresses" (cp_ResolverAddresses d) (λ v, Some (Split comma v))).2;
   (plusKey data (cf_nginxPlus fl) "resolver-ipv6" (cp_ResolverIPV6 d) ParseBool).2;
   (plusKey data (cf_nginxPlus fl) "resolver-valid" (cp_ResolverValid d) Some).2;
   (plusKey data (cf_nginxPlus fl) "resolver-timeout" (cp_ResolverTimeout d) Some).2;
   (int64Key data "keepalive-requests" (cp_MainKeepaliveRequests d)).2;
   (uint64Key data "variables-hash-bucket-size" true (cp_VariablesHashBucketSize d)).2;
   (uint64Key data "variables-hash-max-size" false (cp_VariablesHashMaxSize d)).2;
   (otelPart).2;
   (keyedIf data (cf_hasAppProtect fl) "app-protect-failure-mode-action" (cp_MainAppProtectFailureModeAction d) passOrDrop).2;
   (keyedIf data (cf_hasAppProtect fl) "app-protect-compressed-requests-action" (cp_MainAppProtectCompressedRequestsAction d) passOrDrop).2;
   (keyedIf data (cf_hasAppProtect fl) "app-protect-cpu-thresholds" (cp_MainAppProtectCPUThresholds d) thresholds).2;
   (keyedIf data (cf_hasAppProtect fl) "app-protect-physical-memory-util-thresholds" (cp_MainAppProtectPhysicalMemoryThresholds d) thresholds).2;
   (keyedIf data (cf_hasAppProtect fl) "app-protect-reconnect-period-seconds" (cp_MainAppProtectReconnectPeriod d) reconnectPeriod).2;
   (boolKey data "enable-wallarm" (cp_MainWallarmEnabled d)).2;
   (intKey data "wallarm-wstore-max-conns" (cp_MainWallarmWstoreMaxConns d)).2;
   (intKey data "wallarm-upstream-connect-attempts" (cp_MainWallarmUpstreamConnectAttempts d)).2;
   (intKey data "wallarm-process-time-limit" (cp_MainWallarmProcessTimeLimit d)).2;
   (wallarmMetricsPort data (cp_MainWallarmMetricsPort d)).2;
   (intKey data "wallarm-acl-export-sample-limit" (cp_MainWallarmACLExportSampleLimit d)).2;
   (intKey data "wallarm-acl-export-sample-group-lifetime" (cp_MainWallarmACLExportSampleGroupLifetime d)).2;
   (intKey data "wallarm-acl-export-stats-bucket-interval" (cp_MainWallarmACLExportStatsBucketInterval d)).2;
   (intKey data "wallarm-acl-export-stats-bucket-lifetime" (cp_MainWallarmACLExportStatsBucketLifetime d)).2;
   (boolKey data "wallarm-apifw-enabled" (cp_MainWallarmAPIFwEnabled d)).2;
   (intKey data "wallarm-apifw-port" (cp_MainWallarmAPIFwPort d)).2].
Definition events : list string := mjoin sectionEvents.
Definition configOk : bool := bool_decide (events = []).
End Parse.

Definition ParseConfigMap (data : gmap string string) (fl : configMapFlags) : ConfigParams * bool :=
  (cfgParams data fl, configOk data fl).

(** ** ParseMGMTConfigMap *)
Record MGMTSecrets := { ms_License : string; ms_ClientAuth : string; ms_TrustedCert : string; ms_TrustedCRL : string }.
Record MGMTConfigParams := {
  mg_SSLVerify : option bool;
  mg_ResolverAddresses : list string;
  mg_ResolverIPV6 : option bool;
  mg_ResolverValid : string;
  mg_EnforceInitialReport : option bool;
  mg_Endpoint : string;
  mg_Interval : string;
  mg_Secrets : MGMTSecrets;
  mg_ProxyHost : string;
  mg_ProxyUser : string;
  mg_ProxyPass : string
}.
Definition minimumInterval : Z := 60.
Definition maximumInterval : Z := 24 * 60 * 60.
Definition second : Z := 1000000000.
(** Durations are compared in nanoseconds: the seconds as a float64 compare in the same
    way with the two limits, of which every multiple of a nanosecond nearby is told apart. *)
Definition usageInterval (value : string) : option string :=
  let i := TrimSpace value in
  if Contains i "ms" || Contains i "d" then None
  else t ← ParseDuration i;
       if (t <? minimumInterval * second)%Z || (maximumInterval * second <? t)%Z then None else Some i.
Definition trimmedHost (value : string) : option string :=
  if bool_decide (ValidateHost (TrimSpace value) = None) then Some (TrimSpace value) else None.
(** [None] when the name of the license secret is missing; otherwise the parameters and
    the keys with a warning *)
Definition ParseMGMTConfigMap (getenv : string → string) (data : gmap string string) : option (parsed MGMTConfigParams) :=
  let license := TrimSpace (default "" (data !! "license-token-secret-name")) in
  if bool_decide (license = "") then None
  else
    let '(sslVerify, e1) := keyed data "ssl-verify" None (λ v, Some <$> ParseBool v) in
    let '(resolverIPV6, e2) := keyed data "resolver-ipv6" None (λ v, Some <$> ParseBool v) in
    let '(enforce, e3) := keyed data "enforce-initial-report" None (λ v, Some <$> ParseBool v) in
    let '(endpoint, e4) := keyed data "usage-report-endpoint" "" trimmedHost in
    let '(interval, e5) := keyed data "usage-report-interval" "" usageInterval in
    let '(proxyHost, e6) := keyed data "usage-report-proxy-host" "" trimmedHost in
    let proxied (name : string) := if bool_decide (data !! "usage-report-proxy-host" = None) then "" else TrimSpace (getenv name) in
    Some ({| mg_SSLVerify := sslVerify; mg_ResolverAddresses := sliceKey data "resolver-addresses" comma [];
             mg_ResolverIPV6 := resolverIPV6; mg_ResolverValid := plainKey data "resolver-valid" "";
             mg_EnforceInitialReport := enforce; mg_Endpoint := endpoint; mg_Interval := interval;
             mg_Secrets := {| ms_License := license;
                              ms_ClientAuth := TrimSpace (default "" (data !! "ssl-certificate-secret-name"));
                              ms_TrustedCert := TrimSpace (default "" (data !! "ssl-trusted-certificate-secret-name"));
                              ms_TrustedCRL := "" |};
             mg_ProxyHost := proxyHost; mg_ProxyUser := proxied "PROXY_USER"; mg_ProxyPass := proxied "PROXY_PASS" |},
          e1 ++ e2 ++ e3 ++ e4 ++ e5 ++ e6).
End ConfigMaps.

(** ** Reported keys are ignored *)
Section Ignored.
Context `{VL : ValidationLib} `{UL : URLLib} `{NL : NumberLib}.

(** the keys that each of the [sectionEvents] can report *)
Definition sectionKeys : list (list string) :=
  [["server-tokens"];
   ["lb-method"];
   ["add-header"];
   ["disable-forwarded-headers"];
   ["client-body-buffer-size"];
   ["http2"];
   ["redirect-to-https"];
   ["ssl-redirect"];
   ["http-redirect-code"];
   ["hsts"; "hsts-max-age"; "hsts-include-subdomains"; "hsts-behind-proxy"];
   ["proxy-protocol"];
   ["real-ip-header"];
   ["real-ip-recursive"];
   ["ssl-prefer-server-ciphers"];
   ["access-log"; "access-log-off"];
   ["default-server-access-log-off"];
   ["proxy-buffering"];
   ["proxy-buffers"; "proxy-buffer-size"; "proxy-busy-buffers-size"];
   ["add-header-inherit"];
   ["worker-processes"];
   ["keepalive"];
   ["max-fails"];
   ["zone-sync"; "zone-sync-port"; "zone-sync-resolver-addresses"; "zone-sync-resolver-valid"; "zone-sync-resolver-ipv6"];
   ["oidc-pkce-timeout"; "oidc-id-tokens-timeout"; "oidc-access-tokens-timeout"; "oidc-refresh-tokens-timeout"; "oidc-sids-timeout"; "oidc-pkce-zone-size"; "oidc-id-tokens-zone-size"; "oidc-access-tokens-zone-size"; "oidc-refresh-tokens-zone-size"; "oidc-sids-zone-size"];
   ["resolver-addresses"];
   ["resolver-ipv6"];
   ["resolver-valid"];
   ["resolver-timeout"];
   ["keepalive-requests"];
   ["variables-hash-bucket-size"];
   ["variables-hash-max-size"];
   ["otel-exporter-endpoint"; "otel-exporter-header-name"; "otel-exporter-header-value"; "otel-trace-in-http"];
   ["app-protect-failure-mode-action"];
   ["app-protect-compressed-requests-action"];
   ["app-protect-cpu-thresholds"];
   ["app-protect-physical-memory-util-thresholds"];
   ["app-protect-reconnect-period-seconds"];
   ["enable-wallarm"];
   ["wallarm-wstore-max-conns"];
   ["wallarm-upstream-connect-attempts"];
   ["wallarm-process-time-limit"];
   ["wallarm-metrics-port"];
   ["wallarm-acl-export-sample-limit"];
   ["wallarm-acl-export-sample-group-lifetime"];
   ["wallarm-acl-export-stats-bucket-interval"];
   ["wallarm-acl-export-stats-bucket-lifetime"];
   ["wallarm-apifw-enabled"];
   ["wallarm-apifw-port"]].

Lemma keyed_events data {A} key (dflt : A) parse : (keyed data key dflt parse).2 ⊆ [key].
Proof. unfold keyed. repeat case_match; set_solver. Qed.
Lemma keyedIf_events data {A} cond key (dflt : A) parse : (keyedIf data cond key dflt parse).2 ⊆ [key].
Proof. destruct cond; [apply keyed_events|set_solver]. Qed.
Lemma andThen_events {A} (r : A * option string) f keys :
  option_list r.2 ⊆ keys → (∀ a, option_list (f a).2 ⊆ keys) → option_list (andThen r f).2 ⊆ keys.
Proof. destruct r as [a [e|]]; simpl; auto. Qed.
Lemma hsts_events data dflt : (hstsSettings data dflt).2 ⊆ ["hsts"; "hsts-max-age"; "hsts-include-subdomains"; "hsts-behind-proxy"].
Proof.
  unfold hstsSettings. destruct (data !! "hsts"); [|set_solver]. destruct (ParseBool _); [|set_solver].
  pose proof (keyed_events data "hsts-max-age" (hs_MaxAge dflt) ParseInt64) as H1.
  pose proof (keyed_events data "hsts-include-subdomains" (hs_IncludeSubdomains dflt) ParseBool) as H2.
  pose proof (keyed_events data "hsts-behind-proxy" (hs_BehindProxy dflt) ParseBool) as H3.
  unfold int64Key, boolKey. destruct (keyed data "hsts-max-age" _ _) as [a e1], (keyed data "hsts-include-subdomains" _ _) as [c e2],
    (keyed data "hsts-behind-proxy" _ _) as [x e3]. cbn [snd] in *.
  destruct (e1 ++ e2 ++ e3) as [|err errs] eqn:E; [set_solver|]. cbn [snd]. rewrite <-E. set_solver.
Qed.
Lemma zoneSync_events data plus z : option_list (parseConfigMapZoneSync data plus z).2 ⊆
  ["zone-sync"; "zone-sync-port"; "zone-sync-resolver-addresses"; "zone-sync-resolver-valid"; "zone-sync-resolver-ipv6"].
Proof.
  unfold parseConfigMapZoneSync. repeat apply andThen_events; intros;
    unfold zoneSyncEnable, zoneSyncPort, zoneSyncResolverAddresses, zoneSyncResolverValid, zoneSyncResolverIPV6;
    repeat case_match; set_solver.
Qed.
Lemma fields_events data {A} (fields : list (string * (string → string + string) * (string → A → A))) keys : ∀ r,
  option_list r.2 ⊆ keys → (λ f, f.1.1) <$> fields ⊆ keys →
  option_list (foldl (λ r f, andThen r (parseStringField data f.1.1 f.1.2 f.2)) r fields).2 ⊆ keys.
Proof.
  induction fields as [|f fields IH]; intros r Hr Hkeys; [done|]. cbn [foldl fmap list_fmap] in *.
  apply IH; [|set_solver]. apply andThen_events; [done|]. intros a. unfold parseStringField.
  destruct (data !! f.1.1); [|set_solver]. destruct (f.1.2 s); set_solver.
Qed.
Lemma oidc_events data o : option_list (parseConfigMapOIDC data o).2 ⊆ (λ f, f.1.1) <$> oidcFields.
Proof. apply fields_events; [apply list_subseteq_nil|reflexivity]. Qed.
Lemma otelEndpoint_event data dflt key : otelEndpoint data dflt = inl key → key = "otel-exporter-endpoint".
Proof. unfold otelEndpoint. repeat case_match; congruence. Qed.
Lemma otelHeaderName_events data dflt : (otelHeaderName data dflt).2 ⊆ ["otel-exporter-header-name"].
Proof. unfold otelHeaderName. repeat case_match; set_solver. Qed.
Lemma otelTrace_keyed data dflt :
  (otelTrace data dflt).2 = (keyed data "otel-trace-in-http" dflt ParseBool).2
  ∧ (dflt = false → (otelTrace data dflt).1 = (keyed data "otel-trace-in-http" dflt ParseBool).1).
Proof.
  unfold otelTrace, keyed, GetMapKeyAsBool, getMapKey. destruct (data !! _) as [v|]; [|done].
  destruct (ParseBool v); simpl; done.
Qed.
Lemma otel_events data dflt : (parseConfigMapOpenTelemetry data dflt).2 ⊆
  ["otel-exporter-endpoint"; "otel-exporter-header-name"; "otel-exporter-header-value"; "otel-trace-in-http"].
Proof.
  unfold parseConfigMapOpenTelemetry. destruct (otelEndpoint _ _) as [key|endpoint] eqn:He.
  { apply otelEndpoint_event in He as ->. set_solver. }
  pose proof (otelHeaderName_events data (ot_ExporterHeaderName dflt)) as Hn.
  pose proof (proj1 (otelTrace_keyed data (ot_TraceInHTTP dflt))) as Ht.
  pose proof (keyed_events data "otel-trace-in-http" (ot_TraceInHTTP dflt) ParseBool) as Hk. rewrite <-Ht in Hk. clear Ht He.
  destruct (otelHeaderName _ _) as [name e1], (otelTrace _ _) as [trace e2]. cbn [snd] in *.
  match goal with |- context [xorb ?a ?b] => destruct (xorb a b) end;
    match goal with |- context [if ?b then (_ : otelParams, _) else _] => destruct b end; cbn [snd]; clear -Hn Hk; set_solver.
Qed.
Lemma realIPHeader_events data tls dflt : (realIPHeader data tls dflt).2 ⊆ ["real-ip-header"].
Proof. unfold realIPHeader. repeat case_match; set_solver. Qed.
Lemma accessLog_events data dflt : (accessLog data dflt).2 ⊆ ["access-log"; "access-log-off"].
Proof.
  unfold accessLog, boolKey.
  pose proof (keyed_events data "access-log" dflt (λ value, if HasPrefix value "syslog:" then Some value else None)) as H1.
  pose proof (keyed_events data "access-log-off" false ParseBool) as H2.
  destruct (keyed data "access-log" _ _), (keyed data "access-log-off" _ _). cbn [snd] in *. set_solver.
Qed.
Lemma buffer_events data adjust dflt :
  (bufferSettings data adjust dflt).2 ⊆ ["proxy-buffers"; "proxy-buffer-size"; "proxy-busy-buffers-size"].
Proof.
  unfold bufferSettings, sizeKey.
  pose proof (keyed_events data "proxy-buffers" (bp_Buffers dflt) (λ value, accepted (ParseProxyBuffersSpec value))) as H1.
  pose proof (keyed_events data "proxy-buffer-size" (bp_BufferSize dflt) (λ value, accepted (ParseSize value))) as H2.
  pose proof (keyed_events data "proxy-busy-buffers-size" (bp_BusyBuffersSize dflt) (λ value, accepted (ParseSize value))) as H3.
  destruct (keyed data "proxy-buffers" _ _) as [x e1], (keyed data "proxy-buffer-size" _ _) as [y e2],
    (keyed data "proxy-busy-buffers-size" _ _) as [z e3]. cbn [snd] in *.
  destruct (if adjust then _ else _) as [[? ?] ?]. cbn [snd]. set_solver.
Qed.

(** two lists of a list without duplicates share no element *)
Lemma NoDup_mjoin_lookup {A} (ls : list (list A)) : ∀ i j l l' x,
  NoDup (mjoin ls) → ls !! j = Some l' → x ∈ l' → ls !! i = Some l → x ∈ l → j = i.
Proof.
  induction ls as [|l0 ls IH]; intros i j l l' x Hnd Hj Hx' Hi Hx; [done|].
  cbn in Hnd. apply NoDup_app in Hnd as (_ & Hdisj & Hnd).
  assert (∀ n l1, ls !! n = Some l1 → x ∈ l1 → x ∉ l0) as Hfresh.
  { intros n l1 Hn H1 H0. apply (Hdisj x H0). apply list_elem_of_join. exists l1. split; [done|]. by eapply list_elem_of_lookup_2. }
  destruct i, j; simpl in *; simplify_eq; auto; [exfalso; eapply Hfresh; eauto .. | f_equal; eauto].
Qed.
Lemma sectionEvents_keys data fl : Forall2 (⊆) (sectionEvents data fl) sectionKeys.
Proof.
  unfold sectionEvents, sectionKeys.
  repeat (apply Forall2_cons; split); try apply Forall2_nil; try reflexivity;
    first [apply keyed_events | apply keyedIf_events | apply hsts_events | apply otel_events | apply zoneSync_events
          | apply oidc_events | apply realIPHeader_events | apply accessLog_events | apply buffer_events].
Qed.
Lemma sectionKeys_distinct : NoDup (mjoin sectionKeys).
Proof. apply (bool_decide_unpack _). vm_compute. exact I. Qed.

(** a key is reported by its own part only *)
Lemma reported_by_section data fl i keys evs k :
  sectionKeys !! i = Some keys → sectionEvents data fl !! i = Some evs → k ∈ keys → k ∈ events data fl ↔ k ∈ evs.
Proof.
  intros Hkeys Hevs Hk. unfold events. rewrite list_elem_of_join. split.
  - intros (evs' & Hk' & [j Hj]%list_elem_of_lookup).
    pose proof (sectionEvents_keys data fl) as HF.
    destruct (Forall2_lookup_l _ _ _ _ _ HF Hj) as (keys' & Hj' & Hsub).
    assert (j = i) as ->; [|naive_solver].
    eapply (NoDup_mjoin_lookup sectionKeys); eauto using sectionKeys_distinct.
  - intros Hin. exists evs. split; [done|]. by eapply list_elem_of_lookup_2.
Qed.

(** the ConfigMap without the keys that are reported *)
Definition withoutReported data fl : gmap string string := filter (λ kv, kv.1 ∉ events data fl) data.
Lemma withoutReported_lookup data fl k :
  withoutReported data fl !! k = if decide (k ∈ events data fl) then None else data !! k.
Proof.
  unfold withoutReported. rewrite map_lookup_filter. destruct (data !! k) as [v|]; simpl; [|by case_decide].
  case_guard; case_decide; naive_solver.
Qed.
Lemma section_lookup data fl i keys evs k :
  sectionKeys !! i = Some keys → sectionEvents data fl !! i = Some evs → k ∈ keys →
  withoutReported data fl !! k = if decide (k ∈ evs) then None else data !! k.
Proof.
  intros Hkeys Hevs Hk. rewrite withoutReported_lookup. pose proof (reported_by_section data fl _ _ _ _ Hkeys Hevs Hk).
  repeat case_decide; naive_solver.
Qed.
Lemma unreported_lookup data fl k : bool_decide (k ∈ mjoin sectionKeys) = false → withoutReported data fl !! k = data !! k.
Proof.
  intros Hk%bool_decide_eq_false. rewrite withoutReported_lookup. rewrite decide_False; [done|]. contradict Hk.
  unfold events in Hk. apply list_elem_of_join in Hk as (evs & Hin & [j Hj]%list_elem_of_lookup).
  destruct (Forall2_lookup_l _ _ _ _ _ (sectionEvents_keys data fl) Hj) as (keys & Hj' & Hsub).
  apply list_elem_of_join. exists keys. split; [by apply Hsub|]. by eapply list_elem_of_lookup_2.
Qed.

(** a key that is alone in its part *)
Lemma keyed_unreported data data' {A} key (dflt : A) parse :
  data' !! key = (if decide (key ∈ (keyed data key dflt parse).2) then None else data !! key) →
  (keyed data' key dflt parse).1 = (keyed data key dflt parse).1.
Proof.
  unfold keyed. intros ->. destruct (data !! key) as [v|]; [|by case_decide].
  destruct (parse v) eqn:E; case_decide as Hd; simpl; try set_solver. by rewrite E.
Qed.
Lemma keyedIf_unreported data data' {A} cond key (dflt : A) parse :
  data' !! key = (if decide (key ∈ (keyedIf data cond key dflt parse).2) then None else data !! key) →
  (keyedIf data' cond key dflt parse).1 = (keyedIf data cond key dflt parse).1.
Proof. destruct cond; [apply keyed_unreported|done]. Qed.

(** a key of a part with several keys *)
Lemma keyed_part data data' {A} key (dflt : A) parse (evs : list string) :
  data' !! key = (if decide (key ∈ evs) then None else data !! key) →
  (key ∈ evs ↔ key ∈ (keyed data key dflt parse).2) →
  (keyed data' key dflt parse).1 = (keyed data key dflt parse).1.
Proof. intros Hk Hiff. apply keyed_unreported. rewrite Hk. repeat case_decide; naive_solver. Qed.
Lemma realIPHeader_unreported data data' tls dflt :
  data' !! "real-ip-header" = (if decide ("real-ip-header" ∈ (realIPHeader data tls dflt).2) then None else data !! "real-ip-header") →
  (realIPHeader data' tls dflt).1 = (realIPHeader data tls dflt).1.
Proof. unfold realIPHeader. intros ->. repeat case_match; done || set_solver. Qed.

(** the part after the keys are read *)
Definition otelOf (endpoint name value service : string) (trace load0 : bool) : parsed otelParams :=
  let load := if bool_decide (endpoint = "") then load0 else true in
  if bool_decide (endpoint = "") && negb (bool_decide (name = "") && bool_decide (value = "") && bool_decide (service = "") && negb trace)
  then ({| ot_ExporterEndpoint := endpoint; ot_ExporterHeaderName := ""; ot_ExporterHeaderValue := ""; ot_ServiceName := "";
           ot_TraceInHTTP := false; ot_LoadModule := load |}, ["otel-exporter-endpoint"])
  else ({| ot_ExporterEndpoint := endpoint; ot_ExporterHeaderName := name; ot_ExporterHeaderValue := value; ot_ServiceName := service;
           ot_TraceInHTTP := trace; ot_LoadModule := load |}, []).
Definition otelDefault (load : bool) : otelParams :=
  {| ot_ExporterEndpoint := ""; ot_ExporterHeaderName := ""; ot_ExporterHeaderValue := ""; ot_ServiceName := "";
     ot_TraceInHTTP := false; ot_LoadModule := load |}.
Lemma parseConfigMapOpenTelemetry_eq m load : parseConfigMapOpenTelemetry m (otelDefault load) =
  match otelEndpoint m "" with
  | inl key => (otelDefault load, [key])
  | inr endpoint =>
      let '(name, e1) := otelHeaderName m "" in
      let value := trimmedKey m "otel-exporter-header-value" "" in
      let '(trace, e2) := otelTrace m false in
      let alone := xorb (bool_decide (name = "")) (bool_decide (value = "")) in
      let '(r, e4) := otelOf endpoint (if alone then "" else name) (if alone then "" else value)
                        (trimmedKey m "otel-service-name" "") trace load in
      (r, e1 ++ e2 ++ (if alone then ["otel-exporter-header-name"; "otel-exporter-header-value"] else []) ++ e4)
  end.
Proof.
  unfold parseConfigMapOpenTelemetry, otelOf, otelDefault. cbn [ot_ExporterEndpoint ot_ExporterHeaderName ot_ExporterHeaderValue
    ot_ServiceName ot_TraceInHTTP ot_LoadModule].
  destruct (otelEndpoint m ""); [done|]. destruct (otelHeaderName m "") as [name e1], (otelTrace m false) as [trace e2].
  match goal with |- context [if _ && negb (?a && ?b && ?c && ?e) then (_, _ ++ _) else _] => destruct (a && b && c && e) end;
    destruct (bool_decide (s = "")); cbn [andb negb]; rewrite ?app_nil_r, <-?app_assoc; done.
Qed.
Lemma otelOf_homeless name value service trace load : (otelOf "" name value service trace load).1 = otelDefault load.
Proof.
  unfold otelOf, otelDefault. rewrite bool_decide_true by done.
  destruct (bool_decide_reflect (name = "")), (bool_decide_reflect (value = "")), (bool_decide_reflect (service = "")), trace; by subst.
Qed.
Lemma otelOf_endpoint endpoint name value service trace load :
  (otelOf endpoint name value service trace load).2 = [] ∨
  (otelOf endpoint name value service trace load).2 = ["otel-exporter-endpoint"] ∧ endpoint = "".
Proof. unfold otelOf. destruct (bool_decide_reflect (endpoint = "")); simpl; [|by left]. case_match; [right|left]; done. Qed.
Lemma otelHeaderName_reported m : (otelHeaderName m "").2 ≠ [] → (otelHeaderName m "").1 = "".
Proof. unfold otelHeaderName. repeat case_match; done. Qed.
(** keys that are consistent are kept as they are *)
Lemma otel_settled m endpoint name value service trace load :
  otelEndpoint m "" = inr endpoint → (otelHeaderName m "").1 = name → trimmedKey m "otel-exporter-header-value" "" = value →
  (otelTrace m false).1 = trace → trimmedKey m "otel-service-name" "" = service → (name = "" ↔ value = "") →
  (parseConfigMapOpenTelemetry m (otelDefault load)).1 = (otelOf endpoint name value service trace load).1.
Proof.
  intros He Hn Hv Ht Hs Hiff. rewrite parseConfigMapOpenTelemetry_eq, He, Hv, Hs.
  destruct (otelHeaderName m "") as [name' e1], (otelTrace m false) as [trace' e2]. cbn [fst] in *. subst.
  assert (xorb (bool_decide (name = "")) (bool_decide (trimmedKey m "otel-exporter-header-value" "" = "")) = false) as ->.
  { do 2 case_bool_decide; naive_solver. }
  by destruct (otelOf _ _ _ _ _ _).
Qed.

Lemma zoneSync_ext m m' plus z :
  (∀ k, k ∈ ["zone-sync"; "zone-sync-port"; "zone-sync-resolver-addresses"; "zone-sync-resolver-valid"; "zone-sync-resolver-ipv6"] →
     m' !! k = m !! k) →
  (parseConfigMapZoneSync m' plus z).1 = (parseConfigMapZoneSync m plus z).1.
Proof.
  intros H. f_equal. unfold parseConfigMapZoneSync, zoneSyncEnable, zoneSyncPort, zoneSyncResolverAddresses, zoneSyncResolverValid,
    zoneSyncResolverIPV6. by rewrite !H by set_solver.
Qed.
Lemma fields_ext m m' {A} (fields : list (string * (string → string + string) * (string → A → A))) : ∀ r,
  (∀ k, k ∈ (λ f, f.1.1) <$> fields → m' !! k = m !! k) →
  foldl (λ r f, andThen r (parseStringField m' f.1.1 f.1.2 f.2)) r fields
  = foldl (λ r f, andThen r (parseStringField m f.1.1 f.1.2 f.2)) r fields.
Proof.
  induction fields as [|f fields IH]; intros r H; [done|]. cbn [foldl fmap list_fmap] in *.
  rewrite <-IH by set_solver. f_equal. unfold andThen, parseStringField. by rewrite (H f.1.1) by set_solver.
Qed.

Section Groups.
Variables (data data' : gmap string string) (keys evs : list string).
Hypothesis Hlookup : ∀ k, k ∈ keys → data' !! k = if decide (k ∈ evs) then None else data !! k.

Lemma accessLog_unreported dflt : keys = ["access-log"; "access-log-off"] → evs = (accessLog data dflt).2 →
  (accessLog data' dflt).1 = (accessLog data dflt).1.
Proof.
  intros -> ->. unfold accessLog, boolKey in *.
  pose proof (keyed_events data "access-log" dflt (λ value, if HasPrefix value "syslog:" then Some value else None)) as H1.
  pose proof (keyed_events data "access-log-off" false ParseBool) as H2.
  pose proof (keyed_part data data' "access-log" dflt (λ value, if HasPrefix value "syslog:" then Some value else None) _
                (Hlookup "access-log" ltac:(set_solver))) as P1.
  pose proof (keyed_part data data' "access-log-off" false ParseBool _ (Hlookup "access-log-off" ltac:(set_solver))) as P2.
  destruct (keyed data "access-log" _ _) as [a e1], (keyed data "access-log-off" _ _) as [o e2]. cbn [fst snd] in *.
  destruct (keyed data' "access-log" _ _), (keyed data' "access-log-off" _ _). cbn [fst] in *.
  rewrite P1, P2; [done|set_solver..].
Qed.
Lemma buffer_unreported adjust dflt : keys = ["proxy-buffers"; "proxy-buffer-size"; "proxy-busy-buffers-size"] →
  evs = (bufferSettings data adjust dflt).2 → (bufferSettings data' adjust dflt).1 = (bufferSettings data adjust dflt).1.
Proof.
  intros -> Hevs. unfold bufferSettings, sizeKey in *.
  pose proof (keyed_events data "proxy-buffers" (bp_Buffers dflt) (λ value, accepted (ParseProxyBuffersSpec value))) as H1.
  pose proof (keyed_events data "proxy-buffer-size" (bp_BufferSize dflt) (λ value, accepted (ParseSize value))) as H2.
  pose proof (keyed_events data "proxy-busy-buffers-size" (bp_BusyBuffersSize dflt) (λ value, accepted (ParseSize value))) as H3.
  pose proof (keyed_part data data' _ (bp_Buffers dflt) (λ value, accepted (ParseProxyBuffersSpec value)) _
                (Hlookup "proxy-buffers" ltac:(set_solver))) as P1.
  pose proof (keyed_part data data' _ (bp_BufferSize dflt) (λ value, accepted (ParseSize value)) _
                (Hlookup "proxy-buffer-size" ltac:(set_solver))) as P2.
  pose proof (keyed_part data data' _ (bp_BusyBuffersSize dflt) (λ value, accepted (ParseSize value)) _
                (Hlookup "proxy-busy-buffers-size" ltac:(set_solver))) as P3.
  destruct (keyed data "proxy-buffers" _ _) as [x e1], (keyed data "proxy-buffer-size" _ _) as [y e2],
    (keyed data "proxy-busy-buffers-size" _ _) as [z e3].
  destruct (keyed data' "proxy-buffers" _ _) as [x' e1'], (keyed data' "proxy-buffer-size" _ _) as [y' e2'],
    (keyed data' "proxy-busy-buffers-size" _ _) as [z' e3']. cbn [fst snd] in *.
  assert (evs = e1 ++ e2 ++ e3) as ->. { subst evs. by destruct (if adjust then _ else _) as [[? ?] ?]. }
  clear Hevs Hlookup. rewrite P1, P2, P3; [|set_solver..]. by destruct (if adjust then _ else _) as [[? ?] ?].
Qed.
Lemma hsts_unreported dflt : keys = ["hsts"; "hsts-max-age"; "hsts-include-subdomains"; "hsts-behind-proxy"] →
  evs = (hstsSettings data dflt).2 → (hstsSettings data' dflt).1 = (hstsSettings data dflt).1.
Proof.
  intros -> Hevs.
  assert ("hsts" ∈ evs → (hstsSettings data' dflt).1 = dflt) as Hout.
  { intros Hin. unfold hstsSettings. by rewrite (Hlookup "hsts"), decide_True by set_solver. }
  assert (evs = [] → (hstsSettings data' dflt).1 = (hstsSettings data dflt).1) as Hsame.
  { clear Hevs. intros ->. unfold hstsSettings, int64Key, boolKey, keyed. by rewrite !Hlookup by set_solver. }
  clear Hlookup. revert Hevs Hout Hsame. generalize (hstsSettings data' dflt). intros r. unfold hstsSettings.
  destruct (data !! "hsts"); [|intros ->; auto]. destruct (ParseBool _); [|intros ->; intros Hout _; apply Hout; set_solver].
  destruct (int64Key _ _ _) as [a e1], (boolKey _ "hsts-include-subdomains" _) as [c e2], (boolKey _ "hsts-behind-proxy" _) as [x e3].
  destruct (e1 ++ e2 ++ e3) as [|err errs]; intros ->; [auto|]. intros Hout _. apply Hout. set_solver.
Qed.

Hypothesis Hservice : data' !! "otel-service-name" = data !! "otel-service-name".
Lemma otel_unreported load :
  keys = ["otel-exporter-endpoint"; "otel-exporter-header-name"; "otel-exporter-header-value"; "otel-trace-in-http"] →
  evs = (parseConfigMapOpenTelemetry data (otelDefault load)).2 →
  (parseConfigMapOpenTelemetry data' (otelDefault load)).1 = (parseConfigMapOpenTelemetry data (otelDefault load)).1.
Proof.
  intros -> Hevs. rewrite (parseConfigMapOpenTelemetry_eq data load) in Hevs |- *.
  destruct (otelEndpoint data "") as [key|endpoint] eqn:He.
  { apply otelEndpoint_event in He as ->. cbn [snd fst] in *. subst evs. rewrite parseConfigMapOpenTelemetry_eq. unfold otelEndpoint.
    rewrite (Hlookup "otel-exporter-endpoint"), decide_True by set_solver.
    destruct (otelHeaderName data' ""), (otelTrace data' false). rewrite <-(otelOf_homeless
      (if xorb (bool_decide (s = "")) (bool_decide (trimmedKey data' "otel-exporter-header-value" "" = "")) then "" else s)
      (if xorb (bool_decide (s = "")) (bool_decide (trimmedKey data' "otel-exporter-header-value" "" = "")) then "" else
         trimmedKey data' "otel-exporter-header-value" "") (trimmedKey data' "otel-service-name" "") b load).
    by destruct (otelOf _ _ _ _ _ _). }
  pose proof (otelHeaderName_events data "") as Hn. pose proof (otelHeaderName_reported data) as Hr.
  pose proof (proj1 (otelTrace_keyed data false)) as Ht. pose proof (proj2 (otelTrace_keyed data false) eq_refl) as Ht1.
  pose proof (proj2 (otelTrace_keyed data' false) eq_refl) as Ht1'.
  pose proof (keyed_events data "otel-trace-in-http" false ParseBool) as Hk.
  pose proof (keyed_part data data' _ false ParseBool _ (Hlookup "otel-trace-in-http" ltac:(set_solver))) as Hp.
  rewrite <-Ht, <-Ht1, <-Ht1' in *. clear Ht Ht1 Ht1'.
  set (value := trimmedKey data "otel-exporter-header-value" "") in *.
  destruct (otelHeaderName data "") as [name e1] eqn:Hname, (otelTrace data false) as [trace e2]. cbn [fst snd] in *.
  set (alone := xorb _ _) in *.
  pose proof (otelOf_endpoint endpoint (if alone then "" else name) (if alone then "" else value)
                (trimmedKey data "otel-service-name" "") trace load) as Hof.
  destruct (otelOf endpoint _ _ (trimmedKey data "otel-service-name" "") trace load) as [r e4] eqn:Ho. cbn [fst snd] in *.
  assert (∀ k, k ∈ evs ↔ k ∈ e1 ∨ k ∈ e2 ∨ (alone = true ∧ (k = "otel-exporter-header-name" ∨ k = "otel-exporter-header-value")) ∨ k ∈ e4)
    as Hin. { intros k. subst evs. destruct alone; set_solver. }
  clear Hevs. cbn [fst]. rewrite (otel_settled data' endpoint (if alone then "" else name) (if alone then "" else value)
    (trimmedKey data "otel-service-name" "") trace load); [by rewrite Ho|..].
  - unfold otelEndpoint in *. rewrite (Hlookup "otel-exporter-endpoint") by set_solver.
    case_decide as Hd; [|done]. apply Hin in Hd. destruct Hof as [-> | [-> ->]]; [exfalso; set_solver|done].
  - unfold otelHeaderName in *. rewrite (Hlookup "otel-exporter-header-name") by set_solver.
    case_decide as Hd; [|destruct alone; [exfalso; apply Hd, Hin; auto 8|by rewrite Hname]].
    destruct alone; [done|]. cbn [fst]. symmetry. apply Hr. apply Hin in Hd. intros ->. destruct Hof as [-> | [-> _]]; set_solver.
  - unfold trimmedKey. rewrite (Hlookup "otel-exporter-header-value") by set_solver.
    case_decide as Hd; [|destruct alone; [exfalso; apply Hd, Hin; auto 8|done]].
    apply Hin in Hd. destruct alone; [done|]. exfalso. destruct Hof as [-> | [-> _]]; set_solver.
  - apply Hp. rewrite Hin. destruct Hof as [-> | [-> _]]; set_solver.
  - unfold trimmedKey. by rewrite Hservice.
  - unfold alone. destruct (bool_decide_reflect (name = "")), (bool_decide_reflect (value = "")); simpl; naive_solver.
Qed.
End Groups.

(** [p] with other settings of the two parts that end at the first error *)
Definition withSections (o : OIDCParams) (z : ZoneSyncParams) (p : ConfigParams) : ConfigParams :=
  {| cp_AddHeaderInherit := cp_AddHeaderInherit p; cp_AppRoot := cp_AppRoot p;
     cp_ClientMaxBodySize := cp_ClientMaxBodySize p; cp_ClientBodyBufferSize := cp_ClientBodyBufferSize p;
     cp_DefaultServerAccessLogOff := cp_DefaultServerAccessLogOff p;
     cp_DefaultServerReturn := cp_DefaultServerReturn p; cp_FailTimeout := cp_FailTimeout p;
     cp_HealthCheckEnabled := cp_HealthCheckEnabled p; cp_HealthCheckMandatory := cp_HealthCheckMandatory p;
     cp_HealthCheckMandatoryQueue := cp_HealthCheckMandatoryQueue p; cp_HSTS := cp_HSTS p;
     cp_HSTSBehindProxy := cp_HSTSBehindProxy p; cp_HSTSIncludeSubdomains := cp_HSTSIncludeSubdomains p;
     cp_HSTSMaxAge := cp_HSTSMaxAge p; cp_HTTP2 := cp_HTTP2 p; cp_Keepalive := cp_Keepalive p;
     cp_LBMethod := cp_LBMethod p; cp_LocationSnippets := cp_LocationSnippets p;
     cp_MainAccessLog := cp_MainAccessLog p; cp_MainAddHeaders := cp_MainAddHeaders p;
     cp_DisableForwardedHeaders := cp_DisableForwardedHeaders p; cp_MainErrorLogLevel := cp_MainErrorLogLevel p;
     cp_MainHTTPSnippets := cp_MainHTTPSnippets p; cp_MainKeepaliveRequests := cp_MainKeepaliveRequests p;
     cp_MainKeepaliveTimeout := cp_MainKeepaliveTimeout p; cp_MainLogFormat := cp_MainLogFormat p;
     cp_MainLogFormatEscaping := cp_MainLogFormatEscaping p; cp_MainMainSnippets := cp_MainMainSnippets p;
     cp_MainOtelLoadModule := cp_MainOtelLoadModule p; cp_MainVtsLoadModule := cp_MainVtsLoadModule p;
     cp_MainVtsMetricsPort := cp_MainVtsMetricsPort p; cp_MainVtsDetailedCodes := cp_MainVtsDetailedCodes p;
     cp_MainVtsShmSize := cp_MainVtsShmSize p; cp_MainOtelTraceInHTTP := cp_MainOtelTraceInHTTP p;
     cp_MainOtelExporterEndpoint := cp_MainOtelExporterEndpoint p;
     cp_MainOtelExporterHeaderName := cp_MainOtelExporterHeaderName p;
     cp_MainOtelExporterHeaderValue := cp_MainOtelExporterHeaderValue p;
     cp_MainOtelServiceName := cp_MainOtelServiceName p;
     cp_MainServerNamesHashBucketSize := cp_MainServerNamesHashBucketSize p;
     cp_MainServerNamesHashMaxSize := cp_MainServerNamesHashMaxSize p;
     cp_MainStreamLogFormat := cp_MainStreamLogFormat p;
     cp_MainStreamLogFormatEscaping := cp_MainStreamLogFormatEscaping p;
     cp_MainStreamSnippets := cp_MainStreamSnippets p; cp_MainMapHashBucketSize := cp_MainMapHashBucketSize p;
     cp_MainMapHashMaxSize := cp_MainMapHashMaxSize p; cp_MainWorkerConnections := cp_MainWorkerConnections p;
     cp_MainWorkerCPUAffinity := cp_MainWorkerCPUAffinity p; cp_MainWorkerProcesses := cp_MainWorkerProcesses p;
     cp_MainWorkerRlimitNofile := cp_MainWorkerRlimitNofile p;
     cp_MainWorkerShutdownTimeout := cp_MainWorkerShutdownTimeout p;
     cp_MainClientBodyBufferSize := cp_MainClientBodyBufferSize p; cp_MaxConns := cp_MaxConns p;
     cp_MaxFails := cp_MaxFails p; cp_AppProtectEnable := cp_AppProtectEnable p;
     cp_AppProtectPolicy := cp_AppProtectPolicy p; cp_AppProtectLogConf := cp_AppProtectLogConf p;
     cp_AppProtectLogEnable := cp_AppProtectLogEnable p;
     cp_MainAppProtectFailureModeAction := cp_MainAppProtectFailureModeAction p;
     cp_MainAppProtectCompressedRequestsAction := cp_MainAppProtectCompressedRequestsAction p;
     cp_MainAppProtectCookieSeed := cp_MainAppProtectCookieSeed p;
     cp_MainAppProtectCPUThresholds := cp_MainAppProtectCPUThresholds p;
     cp_MainAppProtectPhysicalMemoryThresholds := cp_MainAppProtectPhysicalMemoryThresholds p;
     cp_MainAppProtectReconnectPeriod := cp_MainAppProtectReconnectPeriod p;
     cp_AppProtectDosResource := cp_AppProtectDosResource p;
     cp_MainAppProtectDosLogFormat := cp_MainAppProtectDosLogFormat p;
     cp_MainAppProtectDosLogFormatEscaping := cp_MainAppProtectDosLogFormatEscaping p;
     cp_MainAppProtectDosArbFqdn := cp_MainAppProtectDosArbFqdn p; cp_OIDC := o;
     cp_ProxyBuffering := cp_ProxyBuffering p; cp_ProxyBuffers := cp_ProxyBuffers p;
     cp_ProxyBufferSize := cp_ProxyBufferSize p; cp_ProxyBusyBuffersSize := cp_ProxyBusyBuffersSize p;
     cp_ProxyConnectTimeout := cp_ProxyConnectTimeout p; cp_AddHeaders := cp_AddHeaders p;
     cp_ProxyHideHeaders := cp_ProxyHideHeaders p; cp_ProxyMaxTempFileSize := cp_ProxyMaxTempFileSize p;
     cp_ProxyPassHeaders := cp_ProxyPassHeaders p; cp_ProxySetHeaders := cp_ProxySetHeaders p;
     cp_ProxyProtocol := cp_ProxyProtocol p; cp_ProxyReadTimeout := cp_ProxyReadTimeout p;
     cp_ProxySendTimeout := cp_ProxySendTimeout p; cp_ProxyNextUpstream := cp_ProxyNextUpstream p;
     cp_ProxyNextUpstreamTimeout := cp_ProxyNextUpstreamTimeout p;
     cp_ProxyNextUpstreamTries := cp_ProxyNextUpstreamTries p; cp_ProxyRedirectFrom := cp_ProxyRedirectFrom p;
     cp_ProxyRedirectTo := cp_ProxyRedirectTo p; cp_CustomHTTPErrors := cp_CustomHTTPErrors p;
     cp_RedirectToHTTPS := cp_RedirectToHTTPS p; cp_HTTPRedirectCode := cp_HTTPRedirectCode p;
     cp_ResolverAddresses := cp_ResolverAddresses p; cp_ResolverIPV6 := cp_ResolverIPV6 p;
     cp_ResolverTimeout := cp_ResolverTimeout p; cp_ResolverValid := cp_ResolverValid p;
     cp_ServerSnippets := cp_ServerSnippets p; cp_ServerTokens := cp_ServerTokens p;
     cp_ServerSSLCiphers := cp_ServerSSLCiphers p;
     cp_ServerSSLPreferServerCiphers := cp_ServerSSLPreferServerCiphers p; cp_SlowStart := cp_SlowStart p;
     cp_SSLRedirect := cp_SSLRedirect p; cp_UpstreamZoneSize := cp_UpstreamZoneSize p;
     cp_UseClusterIP := cp_UseClusterIP p; cp_VariablesHashBucketSize := cp_VariablesHashBucketSize p;
     cp_VariablesHashMaxSize := cp_VariablesHashMaxSize p; cp_ZoneSync := z; cp_RealIPHeader := cp_RealIPHeader p;
     cp_RealIPRecursive := cp_RealIPRecursive p; cp_SetRealIPFrom := cp_SetRealIPFrom p;
     cp_MainServerSSLCiphers := cp_MainServerSSLCiphers p; cp_MainServerSSLDHParam := cp_MainServerSSLDHParam p;
     cp_MainServerSSLDHParamFileContent := cp_MainServerSSLDHParamFileContent p;
     cp_MainServerSSLPreferServerCiphers := cp_MainServerSSLPreferServerCiphers p;
     cp_MainServerSSLProtocols := cp_MainServerSSLProtocols p; cp_IngressTemplate := cp_IngressTemplate p;
     cp_VirtualServerTemplate := cp_VirtualServerTemplate p; cp_MainTemplate := cp_MainTemplate p;
     cp_TransportServerTemplate := cp_TransportServerTemplate p; cp_JWTKey := cp_JWTKey p;
     cp_JWTLoginURL := cp_JWTLoginURL p; cp_JWTRealm := cp_JWTRealm p; cp_JWTToken := cp_JWTToken p;
     cp_BasicAuthSecret := cp_BasicAuthSecret p; cp_BasicAuthRealm := cp_BasicAuthRealm p; cp_Ports := cp_Ports p;
     cp_SSLPorts := cp_SSLPorts p; cp_LimitReqRate := cp_LimitReqRate p; cp_LimitReqKey := cp_LimitReqKey p;
     cp_LimitReqZoneSize := cp_LimitReqZoneSize p; cp_LimitReqDelay := cp_LimitReqDelay p;
     cp_LimitReqNoDelay := cp_LimitReqNoDelay p; cp_LimitReqBurst := cp_LimitReqBurst p;
     cp_LimitReqDryRun := cp_LimitReqDryRun p; cp_LimitReqLogLevel := cp_LimitReqLogLevel p;
     cp_LimitReqRejectCode := cp_LimitReqRejectCode p; cp_LimitReqScale := cp_LimitReqScale p;
     cp_WallarmMode := cp_WallarmMode p; cp_WallarmModeAllowOverride := cp_WallarmModeAllowOverride p;
     cp_WallarmFallback := cp_WallarmFallback p; cp_WallarmApplication := cp_WallarmApplication p;
     cp_WallarmPartnerClientUUID := cp_WallarmPartnerClientUUID p; cp_WallarmBlockPage := cp_WallarmBlockPage p;
     cp_WallarmParseResponse := cp_WallarmParseResponse p; cp_WallarmParseWebsocket := cp_WallarmParseWebsocket p;
     cp_WallarmUnpackResponse := cp_WallarmUnpackResponse p; cp_WallarmParserDisable := cp_WallarmParserDisable p;
     cp_MainWallarmEnabled := cp_MainWallarmEnabled p;
     cp_MainWallarmUpstreamService := cp_MainWallarmUpstreamService p;
     cp_MainWallarmWstoreMaxConns := cp_MainWallarmWstoreMaxConns p;
     cp_MainWallarmUpstreamConnectAttempts := cp_MainWallarmUpstreamConnectAttempts p;
     cp_MainWallarmUpstreamReconnectInterval := cp_MainWallarmUpstreamReconnectInterval p;
     cp_MainWallarmProcessTimeLimit := cp_MainWallarmProcessTimeLimit p;
     cp_MainWallarmProcessTimeLimitBlock := cp_MainWallarmProcessTimeLimitBlock p;
     cp_MainWallarmRequestMemoryLimit := cp_MainWallarmRequestMemoryLimit p;
     cp_MainWallarmWorkerRlimitVmem := cp_MainWallarmWorkerRlimitVmem p;
     cp_MainWallarmMetricsPort := cp_MainWallarmMetricsPort p;
     cp_MainWallarmACLExportEnable := cp_MainWallarmACLExportEnable p;
     cp_MainWallarmACLExportShmSize := cp_MainWallarmACLExportShmSize p;
     cp_MainWallarmACLExportSampleLimit := cp_MainWallarmACLExportSampleLimit p;
     cp_MainWallarmACLExportSampleGroupLifetime := cp_MainWallarmACLExportSampleGroupLifetime p;
     cp_MainWallarmACLExportStatsBucketInterval := cp_MainWallarmACLExportStatsBucketInterval p;
     cp_MainWallarmACLExportStatsBucketLifetime := cp_MainWallarmACLExportStatsBucketLifetime p;
     cp_MainWallarmAPIFwEnabled := cp_MainWallarmAPIFwEnabled p;
     cp_MainWallarmAPIFwPort := cp_MainWallarmAPIFwPort p |}.
Definition sectionOf (k : string) : nat := default 0 (fst <$> list_find (λ keys, k ∈ keys) sectionKeys).

Ltac by_section data fl k :=
  let i := eval vm_compute in (sectionOf k) in
  intros; apply (section_lookup data fl i _ _ _ eq_refl eq_refl); assumption || (apply list_elem_of_singleton; reflexivity).
Section Parts.
Variables (data : gmap string string) (fl : configMapFlags).
Lemma hstsPart_unreported : (hstsPart (withoutReported data fl) fl).1 = (hstsPart data fl).1.
Proof. eapply hsts_unreported; [|reflexivity..]. by_section data fl "hsts". Qed.
Lemma bufferPart_unreported : (bufferPart (withoutReported data fl) fl).1 = (bufferPart data fl).1.
Proof. eapply buffer_unreported; [|reflexivity..]. by_section data fl "proxy-buffers". Qed.
Lemma otelPart_unreported : (otelPart (withoutReported data fl) fl).1 = (otelPart data fl).1.
Proof.
  eapply (otel_unreported data (withoutReported data fl) _ (otelPart data fl).2) with (load := cp_MainOtelLoadModule (d fl));
    [|apply unreported_lookup; vm_compute; reflexivity|reflexivity..].
  by_section data fl "otel-exporter-endpoint".
Qed.
Lemma accessLogPart_unreported dflt : dflt = cp_MainAccessLog (d fl) →
  (accessLog (withoutReported data fl) dflt).1 = (accessLog data dflt).1.
Proof. intros ->. eapply accessLog_unreported; [|reflexivity..]. by_section data fl "access-log". Qed.
Lemma zoneSyncPart_unreported :
  (parseConfigMapZoneSync data (cf_nginxPlus fl) (cp_ZoneSync (d fl))).2 = None →
  cp_ZoneSync (cfgParams (withoutReported data fl) fl) = cp_ZoneSync (cfgParams data fl).
Proof.
  intros Hok.
  assert (∀ k, k ∈ ["zone-sync"; "zone-sync-port"; "zone-sync-resolver-addresses"; "zone-sync-resolver-valid"; "zone-sync-resolver-ipv6"] →
    withoutReported data fl !! k = if decide (k ∈ option_list (parseConfigMapZoneSync data (cf_nginxPlus fl) (cp_ZoneSync (d fl))).2)
      then None else data !! k) as H by by_section data fl "zone-sync".
  rewrite Hok in H. cbn [option_list] in H.
  change ((parseConfigMapZoneSync (withoutReported data fl) (cf_nginxPlus fl) (cp_ZoneSync (d fl))).1
          = (parseConfigMapZoneSync data (cf_nginxPlus fl) (cp_ZoneSync (d fl))).1).
  apply zoneSync_ext. intros k Hk. rewrite (H k Hk), decide_False by set_solver. done.
Qed.
Lemma oidcPart_unreported : (parseConfigMapOIDC data (cp_OIDC (d fl))).2 = None →
  cp_OIDC (cfgParams (withoutReported data fl) fl) = cp_OIDC (cfgParams data fl).
Proof.
  intros Hok.
  assert (∀ k, k ∈ (λ f, f.1.1) <$> oidcFields →
    withoutReported data fl !! k = if decide (k ∈ option_list (parseConfigMapOIDC data (cp_OIDC (d fl))).2)
      then None else data !! k) as H by by_section data fl "oidc-pkce-timeout".
  rewrite Hok in H. cbn [option_list] in H.
  change ((parseConfigMapOIDC (withoutReported data fl) (cp_OIDC (d fl))).1 = (parseConfigMapOIDC data (cp_OIDC (d fl))).1).
  f_equal. apply fields_ext. intros k Hk. rewrite (H k Hk), decide_False by set_solver. done.
Qed.
End Parts.

Ltac solve_field data fl :=
  unfold serverTokens, lbMethod, disableForwardedHeaders, sizeKey, boolKey, intKey, int64Key, uint64Key, workerProcesses,
    plusKey, wallarmMetricsPort, unreported;
  first
    [ reflexivity
    | rewrite hstsPart_unreported; reflexivity
    | rewrite bufferPart_unreported; reflexivity
    | rewrite otelPart_unreported; reflexivity
    | apply accessLogPart_unreported; reflexivity
    | apply realIPHeader_unreported; by_section data fl "real-ip-header"
    | match goal with |- (keyed _ ?k _ _).1 = _ => apply keyed_unreported; by_section data fl k end
    | match goal with |- (keyedIf _ _ ?k _ _).1 = _ => apply keyedIf_unreported; by_section data fl k end
    | unfold plainKey, sliceKey, GetMapKeyAsStringSlice, trimmedKey, keyed;
      rewrite !unreported_lookup by (vm_compute; reflexivity); reflexivity ].
(** C35.  Invalid keys of the ConfigMap.  The value of a key that ParseConfigMap reports
    has no effect: the parameters are those of the ConfigMap without the reported keys, for every
    parameter outside of the zone synchronisation and OIDC, and for these too
    when none of their keys is reported. *)
Theorem reported_keys_are_ignored (data : gmap string string) (fl : configMapFlags) :
  let p := (ParseConfigMap data fl).1 in
  let p' := (ParseConfigMap (withoutReported data fl) fl).1 in
  withSections (cp_OIDC p) (cp_ZoneSync p) p' = p
  ∧ ((parseConfigMapZoneSync data (cf_nginxPlus fl) (cp_ZoneSync (d fl))).2 = None → cp_ZoneSync p' = cp_ZoneSync p)
  ∧ ((parseConfigMapOIDC data (cp_OIDC (d fl))).2 = None → cp_OIDC p' = cp_OIDC p).
Proof.
  unfold ParseConfigMap. cbv zeta. cbn [fst]. split_and!.
  - transitivity (withSections (cp_OIDC (cfgParams data fl)) (cp_ZoneSync (cfgParams data fl)) (cfgParams data fl)); [|reflexivity].
    unfold withSections.
    f_equal; match goal with |- ?proj (cfgParams _ _) = _ => unfold proj, cfgParams; cbv beta iota | _ => idtac end;
      solve_field data fl.
  - apply zoneSyncPart_unreported.
  - apply oidcPart_unreported.
Qed.
End Ignored.

(** an interval that is kept is between the limits and has no millisecond or day in it *)
Lemma keyed_parsed `{VL : ValidationLib} data {A} key (dflt : A) parse :
  (keyed data key dflt parse).1 = dflt ∨ ∃ v, data !! key = Some v ∧ parse v = Some (keyed data key dflt parse).1.
Proof. unfold keyed. destruct (data !! key) as [v|]; [|by left]. destruct (parse v) eqn:E; [right; by exists v|by left]. Qed.
Lemma mgmt_interval_bounds `{VL : ValidationLib} `{UL : URLLib} `{NL : NumberLib} getenv data p warned :
  ParseMGMTConfigMap getenv data = Some (p, warned) → mg_Interval p ≠ "" →
  ∃ t, ParseDuration (mg_Interval p) = Some t ∧ (minimumInterval * second <= t <= maximumInterval * second)%Z
       ∧ Contains (mg_Interval p) "ms" = false ∧ Contains (mg_Interval p) "d" = false.
Proof.
  unfold ParseMGMTConfigMap. case_bool_decide; [done|].
  pose proof (keyed_parsed data "usage-report-interval" "" usageInterval) as Hi.
  repeat match goal with |- context [keyed ?m ?k ?x ?f] => destruct (keyed m k x f) end.
  intros Heq Hne. injection Heq as <- _. cbn [mg_Interval fst] in *. destruct Hi as [-> | (v & _ & Hv)]; [done|].
  unfold usageInterval in Hv. destruct (_ || _) eqn:Hc in Hv; [done|]. apply orb_false_iff in Hc as [? ?].
  apply bind_Some in Hv as (t & Ht & Hv). destruct (_ || _) eqn:Hr in Hv; [done|]. apply orb_false_iff in Hr as [? ?].
  simplify_eq. exists t. split_and!; [done|lia..|done|done].
Qed.

(** ** Examples *)
Section Examples.
#[local] Existing Instance sampleLib.
#[local] Instance noURLs : URLLib :=
  {| url_Parse := λ _, inl "no URL"; url_ParseQuery := λ _, None; netip_ParseAddr := λ _, None;
     net_SplitHostPort := λ _, None; net_ParseIP := λ _, false; net_ParseCIDR := λ _, Some "no CIDR" |}.
#[local] Instance smallNumbers : NumberLib :=
  {| ParseFloat64 v := float64OfInt <$> Atoi v; ParseDuration v := if bool_decide (v = "1h") then Some (3600 * second)%Z else None |}.
Definition plusFlags : configMapFlags :=
  {| cf_nginxPlus := true; cf_hasAppProtect := true; cf_hasAppProtectDos := false; cf_hasTLSPassthrough := false;
     cf_enableDirectiveAutoadjust := false; cf_enableSnippets := false |}.

(** a ConfigMap with three invalid values, of which one is of HSTS: the valid ones are used *)
Definition mixedData : gmap string string :=
  {["http2" := "maybe"; "keepalive" := "16"; "hsts" := "true"; "hsts-max-age" := "soon"; "proxy-buffer-size" := "8q";
    "max-fails" := "3"]}.
Lemma reported_keys_are_ignored_witness :
  events mixedData plusFlags = ["http2"; "hsts-max-age"; "hsts"; "proxy-buffer-size"]
  ∧ cp_ZoneSync (ParseConfigMap (withoutReported mixedData plusFlags) plusFlags).1 = cp_ZoneSync (ParseConfigMap mixedData plusFlags).1
  ∧ cp_Keepalive (ParseConfigMap mixedData plusFlags).1 = 16%Z ∧ cp_HSTS (ParseConfigMap mixedData plusFlags).1 = false
  ∧ (ParseConfigMap mixedData plusFlags).2 = false.
Proof.
  split; [vm_compute; reflexivity|].
  split; [apply (reported_keys_are_ignored mixedData plusFlags); vm_compute; reflexivity|].
  vm_compute. repeat split; reflexivity.
Defined.

(** An invalid port of the zone synchronisation is replaced by the default, but the
    resolver is left out: the synchronisation is on and has no resolver. *)
Example invalid_port_drops_resolver :
  let z := cp_ZoneSync (ParseConfigMap {["zone-sync" := "true"; "zone-sync-port" := "0"]} plusFlags).1 in
  cpz_Enable z = true ∧ cpz_Port z = 12345%Z ∧ cpz_ResolverAddresses z = [] ∧ cpz_ResolverValid z = "".
Proof. vm_compute. repeat split; reflexivity. Qed.
(** the same keys without the invalid port *)
Example default_port_resolves :
  let z := cp_ZoneSync (ParseConfigMap {["zone-sync" := "true"]} plusFlags).1 in
  cpz_Enable z = true ∧ cpz_Port z = 12345%Z ∧ cpz_ResolverAddresses z = [kubeDNSDefault] ∧ cpz_ResolverValid z = "5s".
Proof. vm_compute. repeat split; reflexivity. Qed.
(** One invalid value of OIDC drops the valid ones after it. *)
Example invalid_oidc_drops_later :
  let data := {["oidc-pkce-timeout" := "soon"; "oidc-sids-timeout" := "4h"]} in
  events data plusFlags = ["oidc-pkce-timeout"]
  ∧ cpo_SIDSTimeout (cp_OIDC (ParseConfigMap data plusFlags).1) = cpo_SIDSTimeout (cp_OIDC (d plusFlags))
  ∧ cpo_SIDSTimeout (cp_OIDC (ParseConfigMap (delete "oidc-pkce-timeout" data) plusFlags).1) = "4h".
Proof. vm_compute. repeat split; reflexivity. Qed.
(** Invalid values of the traffic status module are dropped without an event. *)
Example invalid_vts_unreported :
  ParseConfigMap {["enable-vts" := "yes please"; "vts-metrics-port" := "none"]} plusFlags = ParseConfigMap ∅ plusFlags
  ∧ (ParseConfigMap ∅ plusFlags).2 = true.
Proof. vm_compute. split; reflexivity. Qed.
(** 60 seconds are accepted. *)
Example reconnect_sixty :
  cp_MainAppProtectReconnectPeriod (ParseConfigMap {["app-protect-reconnect-period-seconds" := "60"]} plusFlags).1 = "60"
  ∧ (ParseConfigMap {["app-protect-reconnect-period-seconds" := "60"]} plusFlags).2 = true.
Proof. vm_compute. split; reflexivity. Qed.
Example mgmt_example :
  (λ r, (mg_Interval r.1, mg_ProxyUser r.1, r.2)) <$>
    ParseMGMTConfigMap (λ _, "user") {["license-token-secret-name" := " license "; "usage-report-interval" := "1d"; "ssl-verify" := "on"]}
  = Some ("", "", ["ssl-verify"; "usage-report-interval"]).
Proof. vm_compute. reflexivity. Qed.
End Examples.
